(* ===== verification/_CoqProject ===== *)
-Q . S2P
Prelude.v
CString.v
DiOps.v
UtilString.v
Smartlist.v
StrList.v
PQueue.v
Binascii.v
Buffers.v
BufQueue.v
Lcs.v
DiffChanges.v
DiffEd.v
ConsDiff.v
Protover.v
Versions.v
ProtoSummary.v
NetParams.v
Trunnel.v
CongCtl.v
Sendme.v
FlowSystem.v
ByteQueue.v
RelayMsg.v
LinkCells.v
TokenBucket.v
Scanf.v
Inaddr.v
Address.v
SocksFmt.v
Socks.v
SocksDialogue.v
Conflux.v
ConfluxSystem.v
Policies.v
PolicySummary.v
Runs.v
VoteParams.v
VoteMethods.v
BwWeights.v
VoteHeader.v
RouterVote.v
Escapes.v
KvLine.v
CtrlData.v
CtrlCmd.v
CtrlAuth.v
CtrlConn.v
Collate.v
XonXoff.v
TimeFmt.v
ConfLine.v
Pem.v
