(* ===== verification/Prelude.v ===== *)
(** * Verification of the onionrelay C sources

    onionrelay (src/onionrelay_src, a Tor derivative in C) is the network
    engine of this repository: it keeps a consensus document up to date,
    builds circuits, serves onion services and answers a SOCKS port and a control
    port.  This library models its parts that work on data in memory,
    from the source, and proves what they are for.  Paths below
    are under src/onionrelay_src/src.

    ** Parts and files

    - Prelude (this file): bytes, C strings, machine integers, arrays with
      bounds checks, the outcome type of C functions and the shared
      tactics and lemmas.
    - CString: lib/string/compat_ctype (module CType) and
      lib/string/parse_int.c (module ParseInt).
    - DiOps: lib/ctime/di_ops.c, the comparisons and selections written without
      data-dependent branches.
    - UtilString: lib/string/util_string.c; module Utf8 is the validation of
      UTF-8.
    - Smartlist: lib/smartlist_core/smartlist_core.c and the list operations of
      lib/container/smartlist.c, on the record of array, [num_used] and
      [capacity]; [repr] relates it to a list.
    - StrList: lib/smartlist_core/smartlist_split.c and the functions on
      strings and on sorted lists of lib/container/smartlist.c.
    - PQueue: the heap functions of lib/container/smartlist.c, with the index
      field of the items.
    - Binascii: lib/encoding/binascii.c, modules Base16, Base32, Base64.
    - Buffers: lib/buf/buffers.c, chunks in a chain with an explicit allocator;
      BufQueue: all buffers of a process, and the byte queues they implement.
    - Lcs: the mathematics of longest common subsequences.
    - DiffChanges: feature/dircommon/consdiff.c up to [calc_changes].
    - DiffEd: the generation and the application of ed scripts in consdiff.c.
    - ConsDiff: the document layer of consdiff.c, with the search for the signed
      part of a consensus (feature/dirparse/sigcommon.c and ns_parse.c).
    - Protover: core/or/protover.c, the lists of protocol versions, voting on them
      and the support tests.
    - Versions: core/or/versions.c, version strings and their order;
      ProtoSummary: the flags that summarise a protocol list, with their cache.
    - NetParams: the lookup of consensus parameters in
      feature/nodelist/networkstatus.c.
    - Trunnel: the formats of SENDME cells and of circuit extensions
      (trunnel/sendme_cell.c, extension.c, congestion_control.c); class [Codec] is
      what a format promises.
    - CongCtl: core/or/congestion_control_common.c and
      congestion_control_vegas.c, the congestion state of a circuit.
    - Sendme: core/or/sendme.c, the windows and their acknowledgements.
    - FlowSystem: two endpoints of a circuit, the calls that relay.c makes for a DATA
      cell on each side, and the channels between them, as a transition system.
    - XonXoff: core/or/congestion_control_flow.c, the XOFF and XON cells with which the ends of a stream stop each
      other, and two ends with the cells between them as a transition system.
    - ByteQueue: the class of queues of bytes that readers of a buffer rely on, and
      its instances, the buffers of Buffers and plain lists.
    - RelayMsg: core/or/relay_msg.c, relay messages in the two cell formats.
    - LinkCells: cells on a link, core/proto/proto_cell.c and the packing,
      unpacking and input loop of core/or/connection_or.c.
    - TokenBucket: lib/evloop/token_bucket.c, rate limits on 32-bit clocks.
    - Scanf: lib/string/scanf.c; Inaddr: lib/net/inaddr.c, the texts of IPv4 and IPv6
      addresses; Address: lib/net/address.c, addresses with ports, masks, reverse
      lookup names, their order and classes, and the names of hosts.
    - SocksFmt: the messages of trunnel/socks5.c; Socks: core/proto/proto_socks.c, the
      front end that takes requests from applications and reads the answers of an
      upstream proxy; SocksDialogue: whole dialogues, with the caller in core/or/connection_edge.c.
    - Conflux: core/or/conflux.c with the parts of conflux_util.c and conflux_cell.c it
      uses, one stream of messages over several circuits; ConfluxSystem: both ends of
      a set, the calls of relay.c and the circuits between them, as a transition system.
    - Policies: address policies in core/or/policies.c, their evaluation and the removal of redundant entries;
      PolicySummary: the summaries by port that go into the consensus and the short policies that are read from them.
    - The vote on a consensus in feature/dirauth/dirvote.c, in parts.  Runs: a list cut into stretches of equal members, which the loops over sorted votes
      go through; VoteParams: the parameters, with the check of a params line in feature/dirparse/ns_parse.c and the medians of lib/container/order.c;
      VoteMethods: the consensus method and the protocol lines; RouterVote: the entry of a relay that is chosen among the votes, with its other address and the digest of its microdescriptor; BwWeights: the bandwidth weights, with the doubles that feature/client/entrynodes.c computes guard
      fractions with; VoteHeader: the times and package lines of the header, with feature/dirauth/recommend_pkg.c, and the way from votes and relays to the line on weights;
      Collate: feature/dirauth/dircollate.c, which entries of the votes are about the same relay.
    - ConfLine: lib/encoding/confline.c, configuration lines and their text; Pem: lib/encoding/pem.c.
    - TimeFmt: lib/encoding/time_fmt.c, dates, seconds and the texts of times, measured by the Gregorian calendar.
    - Escapes: strings in quotes (lib/log/escape.c, lib/encoding/cstring.c and qstring.c); KvLine: lines of keys and values (lib/encoding/kvline.c and keyval.c).
    - The control port in feature/control, in parts.  CtrlData: the framing of data and of replies (control_proto.c); CtrlCmd: command lines, their
      arguments and the table of commands (control.c, control_cmd.c); CtrlAuth: cookies, challenges and hashed passwords (control_auth.c, with the key derivation of
      lib/crypt_ops/crypto_s2k.c); CtrlConn: the input loop of a connection, the commands allowed before authentication and the events of a connection's life as a transition system (control.c).

    FlowSystem composes Sendme on both sides; Sendme calls CongCtl, Trunnel, DiOps and
    NetParams; CongCtl calls Trunnel and NetParams, XonXoff these and TokenBucket; ProtoSummary calls Protover
    and Versions.  LinkCells reads through class ByteQueue, whose laws Buffers
    discharges, and carries the cells of RelayMsg; Inaddr calls Scanf and StrList,
    Address calls Inaddr, StrList and DiOps; Socks reads through ByteQueue too and calls SocksFmt, Address and DiOps.  Conflux keeps what comes too early in a PQueue and looks at the state of CongCtl; Policies compares with Address, and PolicySummary calls Policies, StrList and CString; the files on voting call Protover for the protocol lines, StrList for uniqueness and the most frequent string, and VoteParams computes what NetParams reads.  CtrlConn reads through ByteQueue, splits with CtrlCmd, whose arguments KvLine and Escapes parse, and lets CtrlAuth decide; CtrlData frames both directions.  ConsDiff calls DiffEd, StrList, Binascii and UtilString as the C code does;
    DiffEd calls DiffChanges and CString; StrList calls UtilString; BufQueue runs the operations of Buffers.

    ** How C is represented

    A byte is a [Z] between 0 and 255 and a buffer a list of bytes.  A C string is the
    list of the bytes before its NUL; a pointer that walks over a string is the
    suffix it points to.  Integers are [Z]; where the width matters the
    wrap-around is written out ([u8], [u32], [u64]).  A function that can
    fail returns [cres]: [Ok] a result, [Err] a documented failure, [Bug] a
    failed assertion or an access outside an object, [Fuel] a model bound
    that was too small.  Pointers that may be NULL are options.  Logging, the
    release of memory and allocation failure (which aborts the process) are
    left out.

    Loops are Fixpoints, structural where the C loop follows the data and with
    fuel otherwise.  The definitions choose the fuel from their input (one more than
    the length that the loop consumes), and the theorems say that the result is
    never [Fuel].  The theorems on congestion control assume round trips below
    [RTT_LIMIT], 2^30 microseconds, so that the products fit in 64 bits, and a
    floor [F] of the window, which the minimum of the consensus provides.  Runs of ConfluxSystem have fewer than
    [INT_MAX] events, the size limit of the queue, with which the relative sequence numbers fit in 32 bits.

    ** What is proved

    - Consensus diffs: the changes found are minimal ([calc_changes_minimal],
      [lcs_lengths_correct]); a generated script rebuilds the target
      ([gen_apply_roundtrip]); generation and application end on every input
      without a failed assertion ([gen_ed_diff_total], [apply_ed_diff_total]);
      documents survive the whole trip through a textual diff
      ([consensus_diff_roundtrip]); an accepted diff has the right digests
      ([consensus_diff_apply_authentic]); the self-test of the generator does
      not fail ([consensus_diff_generate_complete]) but for the case shown
      in [one_line_trailer_rejected].
    - Smartlists refine lists ([smartlist_refines_list]); splitting and joining,
      binary search and duplicate removal are correct (StrList); the priority
      queue keeps its invariant under add and pop and loses it under remove
      ([pqueue_add_correct], [pqueue_pop_correct], [pqueue_remove_correct],
      [pqueue_remove_breaks_order]).
    - Encodings: base16, base32 and base64 decode what they encode (Binascii);
      numbers parse back from their decimal form ([tor_parse_long_dec]); times read back from their texts ([times_roundtrip]), but for some leap days
      ([century_leap_day_refused]); configuration text and PEM objects are read back ([config_lines_read], [pem_roundtrip]), but for quotes before CR LF ([crlf_after_quotes_refused]).
    - Buffers: any sequence of calls on any number of buffers behaves as the same
      calls on byte strings, with an exact allocation counter
      ([buffers_refine_queues]); the search for a string is right when no chunk
      is empty ([buf_find_string_offset_correct]) and wrong otherwise
      ([buf_find_string_reads_stale]); the length check of [buf_add] holds up to
      [BUF_MAX_LEN] ([buf_add_correct], [buf_add_oversize]).
    - Strings and memory: UTF-8 validation is exact
      ([string_is_utf8_correct]); searches find the first occurrence
      ([tor_memmem_correct], [find_str_at_start_of_line_correct]); the
      constant-time routines compute what the plain ones do (DiOps).
    - Protocol and version lists: a vote holds exactly the versions that enough
      voters list ([protover_compute_vote_correct]); lists print and parse back
      ([protocol_list_roundtrip]); versions are ordered by a key
      ([tor_version_compare_order]) and judged against a list as documented
      ([tor_version_is_obsolete_correct]); the cache of summaries is transparent
      ([summary_cache_transparent]).
    - Flow control: Tor-Vegas keeps its invariant and computes the round-trip times and the window that are
      specified ([vegas_process_sendme_correct]) but for the cases of
      [stalled_clock_divides_by_zero] and [decrement_wraps_around]; the negotiated increment is the same on both
      sides ([cc_negotiation_roundtrip]); with an increment of at least 2 two endpoints never refuse each
      other's cells ([flow_control_safe]) and with a window of at least one increment never deadlock
      ([flow_control_live]), by an invariant over all reachable states; a stream stopped by XOFF goes on when its data is taken
      ([stream_never_stuck]), and honest XOFFs count as valid ([honest_xoffs_valid]) until the counters are scaled down, when it is known which one is not ([honest_xoff_rejected]).
    - Cells and rates: cells written on a link arrive as they were sent, however
      the stream is cut ([link_cells_reassembled]); relay messages
      survive encoding ([relay_msg_roundtrip]) and a decoded one is well formed
      whatever arrived ([relay_msg_decode_typed]); token buckets bound what is
      spent by the rate and the time ([token_bucket_limits_rate]).
    - Addresses: IPv4 and IPv6 addresses print and parse back, alone
      ([inet4_roundtrip], [inet6_roundtrip], [addr_str_roundtrip]), with a port
      ([addrport_roundtrip]) and as names for reverse lookup
      ([ptr_name_roundtrip]); the comparison under a mask compares prefixes
      ([compare_masked_correct]), but the semantic one is no order
      ([semantic_order_cycle]).
    - SOCKS: every format reads back what it writes and is incremental
      (the instances of [Codec], [incremental] and [reads] in SocksFmt); whatever arrives, the
      front end ends and accepts only allowed requests ([socks_requests_safe]);
      dialogues come to the same request in whatever fragments they
      arrive ([socks5_noauth_any_fragments], [socks5_password_any_fragments],
      [upstream_answer_any_prefix]), but for data pipelined behind a SOCKS4a request
      ([socks4a_pipelining_refused]).
    - Conflux: messages sent over several circuits are delivered in the order of sending
      whatever the choice of legs and the order of arrivals ([conflux_in_order]), and all of them when the circuits
      are emptied ([conflux_delivers_all]), by an invariant over all reachable states; one of the three algorithms always aborts
      ([cwndrtt_always_aborts]).
    - Address policies: the removal of redundant entries keeps the meaning ([redundancies_keep_meaning]); definite answers with something unknown hold
      ([definite_answers_hold]), but across families ([unknown_address_ignores_family]); a general exit has a whole network to offer
      ([general_exit_has_subnet]); summaries implement the port-by-port reading [port_summary] of a policy ([summary_tells_ports]), which bounds what
      is rejected on an accepted port ([accepted_port_rejects_few]), but for entries for port 0 ([port_zero_aborts_summary]); short policies print and parse back ([short_policy_roundtrip]).
    - Voting: parameters are medians that the parser of consensuses accepts ([params_are_medians]) and that a majority bounds up to what clients read ([majority_decides_param]);
      the method is the highest that more than two thirds list ([method_elected]) when methods are written without leading zeros ([padded_method_blocks_election]); protocol versions
      are recommended by half and required by two thirds ([protocol_set_voted]); the entries of the votes are matched by the documented rule whatever the order of the hash tables ([collation_rule]) and the entry of a relay is the most frequent one ([plurality_wins]); the times keep their distances ([consensus_times_hold]), which the parser of votes does not ensure ([accepted_times_abort]);
      package lines follow their grammar ([package_line_grammar]) and are published by majority ([packages_voted]); below a bound the 64-bit computation of the weights is exact ([choose_weights_exact]), they balance the positions ([weights_balance]) and are safe to publish from parsed votes on
      ([consensus_weights_safe]), but with guard fractions the total is wrong ([guardfraction_miscounts]).
    - Control port: strings in quotes and lines of keys and values read back ([escape_roundtrip], [kvline_roundtrip]); data arrives as it was framed, as one command ([data_framed], [data_delivered]);
      every input is processed to its end, without a failed assertion as long as cookies are not disabled while a challenge is open ([control_port_answers]); AUTHENTICATE opens the connection exactly for what the configuration asks for
      ([authentication_decides]), but for a challenge that outlives the cookie ([cookie_disabled_aborts]); nothing else is done for a client before, in all reachable states ([control_port_gate]).

    ** What is not modelled, and what is next

    Network I/O, the event loop, cryptography and the operating-system layer are
    outside.  [crypto_digest256] is a parameter of ConsDiff, of which only
    the length of its result is assumed; the relay cryptography is a parameter of
    FlowSystem that gives every cell a tag of the right length; the handler of a
    cell is a parameter of LinkCells (one that keeps the link protocol, as on an open link), and the padding of RelayMsg and the tick rate of
    the clock are parameters too; the address map is a finite map that Socks takes as an
    argument.  Of the control port the handlers
    of the commands that need authentication are a parameter of CtrlConn, which leaves the input alone and a cookie in place while cookies are enabled, and the digests, the HMAC
    and the random numbers are parameters of CtrlAuth.  The conversions of the platform are parameters of TimeFmt, and the handler of includes is one of ConfLine.  XonXoff takes the readings of the clock and whether a cell could be sent as arguments.  The orders in which the hash tables of Collate are visited are arguments.  Statistics in
    floating point, log messages and control-port events are left out.  The other commands of the control port, the parsing of directory documents and the flags
    and bandwidths of a vote are not modelled yet; onion services, circuits, channels and the directory client keep most of their state in these outside parts. *)

From Stdlib Require Import ZArith String Ascii.
From stdpp Require Import base list numbers.

Open Scope Z_scope.

(** ** Bytes and C strings

    A byte is a [Z]; [is_byte] states its range.  A buffer of memory is a list
    of bytes.  A NUL-terminated C string is the list of the bytes before the
    NUL; dereferencing a pointer that has reached the end of the list reads
    the terminator, which is what [cur] does. *)

Abbreviation bytes := (list Z).

Definition is_byte (b : Z) : Prop := 0 <= b < 256.

Definition is_byteb (b : Z) : bool := (0 <=? b) && (b <? 256).

(** [*p] for a pointer [p] into a NUL-terminated string. *)
Definition cur (s : bytes) : Z := hd 0 s.

(** A C string holds no NUL byte. *)
Definition no_nul (s : bytes) : Prop := Forall (fun b => b <> 0) s.

Fixpoint s2b (s : string) : bytes :=
  match s with
  | EmptyString => []
  | String a r => Z.of_N (N_of_ascii a) :: s2b r
  end.

Arguments s2b _%_string.

(** ** Machine integers *)

Definition INT_MAX : Z := 2147483647.
Definition INT32_MAX : Z := 2147483647.
Definition INT32_MIN : Z := - 2147483648.
Definition UINT16_MAX : Z := 65535.
Definition UINT32_MAX : Z := 4294967295.
Definition UINT64_MAX : Z := 18446744073709551615.
Definition SIZE_MAX : Z := 18446744073709551615.
Definition LONG_MAX : Z := 9223372036854775807.
Definition LONG_MIN : Z := - 9223372036854775808.
Definition ULONG_MAX : Z := 18446744073709551615.
(** [SIZE_T_CEILING] is [((size_t)(SSIZE_MAX-16))]. *)
Definition SIZE_T_CEILING : Z := 9223372036854775807 - 16.

Definition u8 (z : Z) : Z := z mod 2 ^ 8.
Definition u16 (z : Z) : Z := z mod 2 ^ 16.
Definition u32 (z : Z) : Z := z mod 2 ^ 32.
Definition u64 (z : Z) : Z := z mod 2 ^ 64.

(** Conversion to [int] or [int32_t]. *)
Definition s32 (z : Z) : Z := let u := u32 z in if u <? 2 ^ 31 then u else u - 2 ^ 32.

Lemma s32_small z : INT32_MIN <= z <= INT32_MAX -> s32 z = z.
Proof.
  unfold INT32_MIN, INT32_MAX, s32, u32. intros H. destruct (Z.lt_ge_cases z 0).
  - replace (z mod 2 ^ 32) with (z + 2 ^ 32) by (apply Z.mod_unique with (-1); lia). rewrite (proj2 (Z.ltb_ge _ _)) by lia. lia.
  - rewrite Z.mod_small by lia. rewrite (proj2 (Z.ltb_lt _ _)) by lia. lia.
Qed.

(** Conversion to [int64_t]. *)
Definition s64 (z : Z) : Z := if u64 z <? 2 ^ 63 then u64 z else u64 z - 2 ^ 64.

Lemma s64_small z : LONG_MIN <= z <= LONG_MAX -> s64 z = z.
Proof.
  unfold LONG_MIN, LONG_MAX, s64, u64. intros H. destruct (Z.lt_ge_cases z 0).
  - replace (z mod 2 ^ 64) with (z + 2 ^ 64) by (apply Z.mod_unique with (-1); lia). rewrite (proj2 (Z.ltb_ge _ _)) by lia. lia.
  - rewrite Z.mod_small by lia. rewrite (proj2 (Z.ltb_lt _ _)) by lia. lia.
Qed.

Lemma s32_range z : - 2 ^ 31 <= s32 z < 2 ^ 31.
Proof. unfold s32, u32. pose proof (Z.mod_pos_bound z (2 ^ 32)). destruct (Z.ltb_spec (z mod 2 ^ 32) (2 ^ 31)); lia. Qed.

(** [CEIL_DIV] of lib/intmath/muldiv.h. *)
Definition CEIL_DIV (a b : Z) : Z := (a + (b - 1)) / b.

(** Appending [k] low bits with [<<] and [|] is multiplication and addition. *)
Lemma lor_low x y k : 0 <= k -> 0 <= y < 2 ^ k -> Z.lor (x * 2 ^ k) y = x * 2 ^ k + y.
Proof.
  intros Hk Hy. rewrite <- Z.add_lor_land.
  enough (Z.land (x * 2 ^ k) y = 0) as -> by lia.
  rewrite <- Z.shiftl_mul_pow2 by done. apply Z.bits_inj'. intros i Hi.
  rewrite Z.land_spec, Z.bits_0. destruct (Z.lt_ge_cases i k).
  - by rewrite Z.shiftl_spec_low.
  - apply andb_false_iff. right. destruct (Z.eq_dec y 0) as [->|]; [apply Z.bits_0|].
    apply Z.bits_above_log2; [lia|]. apply Z.log2_lt_pow2; [lia|].
    apply Z.lt_le_trans with (2 ^ k); [lia|]. apply Z.pow_le_mono_r; lia.
Qed.

(** ** Outcomes of C functions

    [Ok a]: the function returned normally with the value [a].
    [Err]: the function took an error path that its interface documents
    (a [-1], a [NULL], a [0] where the caller tests for it).
    [Bug]: the process died or would misbehave (a failed [tor_assert] or
    [raw_assert], a read or a write outside the object).
    [Fuel]: the evaluation bound of the model was too small.  Every theorem
    that states a result excludes the last two. *)

Inductive cres (A : Type) : Type :=
| Ok (a : A)
| Err
| Bug
| Fuel.
Arguments Ok {A} _.
Arguments Err {A}.
Arguments Bug {A}.
Arguments Fuel {A}.

Definition cbind {A B} (m : cres A) (f : A -> cres B) : cres B :=
  match m with
  | Ok a => f a
  | Err => Err
  | Bug => Bug
  | Fuel => Fuel
  end.

Declare Scope cres_scope.
Delimit Scope cres_scope with cres.
Notation "'let*' x ':=' m 'in' k" := (cbind m (fun x => k))
  (at level 10, x pattern, m at level 100, k at level 200) : cres_scope.
(** [tor_assert(c)] and [raw_assert(c)]. *)
Notation "'assert!' c ';' k" := (if c then k else Bug)
  (at level 10, c at level 100, k at level 200) : cres_scope.
Open Scope cres_scope.

Lemma cbind_Ok {A B} (m : cres A) (f : A -> cres B) b :
  cbind m f = Ok b <-> exists a, m = Ok a /\ f a = Ok b.
Proof. destruct m; naive_solver. Qed.

(** ** Arrays

    A C array is a list; an access outside it is [Bug]. *)

Definition aget {A} (l : list A) (i : Z) : cres A :=
  if i <? 0 then Bug else
  match l !! Z.to_nat i with Some a => Ok a | None => Bug end.

Definition aset {A} (l : list A) (i : Z) (x : A) : cres (list A) :=
  if (0 <=? i) && (i <? Z.of_nat (length l)) then Ok (<[Z.to_nat i := x]> l) else Bug.

Definition zlen {A} (l : list A) : Z := Z.of_nat (length l).

Lemma zlen_nonneg {A} (l : list A) : 0 <= zlen l.
Proof. unfold zlen; lia. Qed.

Lemma zlen_app {A} (l k : list A) : zlen (l ++ k) = zlen l + zlen k.
Proof. unfold zlen. rewrite length_app. lia. Qed.

Lemma zlen_cons {A} (x : A) l : zlen (x :: l) = zlen l + 1.
Proof. unfold zlen. cbn [length]. lia. Qed.

Lemma aget_Ok {A} (l : list A) i x :
  aget l i = Ok x <-> 0 <= i /\ l !! Z.to_nat i = Some x.
Proof.
  unfold aget. destruct (Z.ltb_spec i 0); [split; [done|lia]|].
  destruct (l !! Z.to_nat i); naive_solver.
Qed.

Lemma aget_in_range {A} (l : list A) i :
  0 <= i < zlen l -> exists x, aget l i = Ok x /\ l !! Z.to_nat i = Some x.
Proof.
  intros Hi. destruct (lookup_lt_is_Some_2 l (Z.to_nat i)) as [x Hx].
  { unfold zlen in Hi; lia. }
  exists x. split; [apply aget_Ok; split; [lia|done] | done].
Qed.

Lemma aget_prefix {A} (s t : list A) i : 0 <= i < zlen s -> aget s i = aget (s ++ t) i.
Proof.
  intros Hi. unfold aget. rewrite (proj2 (Z.ltb_ge _ _)) by lia. rewrite lookup_app_l; [done|]. unfold zlen in Hi. lia.
Qed.

Lemma aget_mid {A} (l r : list A) x i : i = zlen l -> aget (l ++ x :: r) i = Ok x.
Proof.
  intros ->. apply aget_Ok. split; [apply zlen_nonneg|].
  unfold zlen. rewrite Nat2Z.id. by apply list_lookup_middle.
Qed.

Lemma aset_mid {A} (l r : list A) x y i :
  i = zlen l -> aset (l ++ y :: r) i x = Ok (l ++ x :: r).
Proof.
  intros ->. unfold aset, zlen. rewrite length_app. cbn [length].
  destruct ((0 <=? _) && (_ <? _)) eqn:E.
  - f_equal. rewrite Nat2Z.id. rewrite insert_app_r_alt by lia. by rewrite Nat.sub_diag.
  - exfalso. rewrite andb_false_iff, Z.leb_gt, Z.ltb_ge in E. lia.
Qed.

Lemma take_zapp {A} (l k : list A) z : z = zlen l -> take (Z.to_nat z) (l ++ k) = l.
Proof. intros ->. unfold zlen. rewrite Nat2Z.id. apply take_app_length. Qed.

Lemma drop_zapp {A} (l k : list A) z : z = zlen l -> drop (Z.to_nat z) (l ++ k) = k.
Proof. intros ->. unfold zlen. rewrite Nat2Z.id. apply drop_app_length. Qed.

Lemma zlen_repeat {A} (x : A) n : zlen (repeat x n) = Z.of_nat n.
Proof. unfold zlen. by rewrite repeat_length. Qed.

Lemma zlen_nil {A} : zlen (@nil A) = 0.
Proof. done. Qed.

#[export] Hint Rewrite @zlen_app @zlen_cons @zlen_nil @zlen_repeat : zlen.

(** ** Exhaustive reasoning about one byte *)

Definition upto (n : nat) : list Z := map Z.of_nat (seq 0 n).

Lemma upto_forall (n : nat) (P : Z -> bool) :
  forallb P (upto n) = true -> forall c, 0 <= c < Z.of_nat n -> P c = true.
Proof.
  intros H c [Hl Hu]. rewrite forallb_forall in H. apply H.
  unfold upto. apply in_map_iff. exists (Z.to_nat c).
  split; [lia|]. apply in_seq. lia.
Qed.

Lemma byte_forall (P : Z -> bool) :
  forallb P (upto 256) = true -> forall c, is_byte c -> P c = true.
Proof. apply upto_forall. Qed.

(** ** Lists *)

Lemma map_inj_eq {A B} (f : A -> B) (l k : list A) :
  (forall x y, f x = f y -> x = y) -> map f l = map f k -> l = k.
Proof.
  intros Hf. revert k. induction l as [|x l IH]; intros [|y k]; simpl; try done.
  injection 1 as H1 H2. f_equal; auto.
Qed.

Lemma Forall_weaken {A} (P Q : A -> Prop) l :
  Forall P l -> (forall x, P x -> Q x) -> Forall Q l.
Proof. induction 1; auto. Qed.

Lemma filter_id {A} (P : A -> Prop) `{!forall x, Decision (P x)} l :
  Forall P l -> base.filter P l = l.
Proof. induction 1; [done|]. rewrite filter_cons_True by done. by f_equal. Qed.

(** The longest prefix whose elements satisfy [p], and what is left. *)
Fixpoint span {A} (p : A -> bool) (l : list A) : list A * list A :=
  match l with
  | [] => ([], [])
  | x :: r => if p x then let '(a, b) := span p r in (x :: a, b) else ([], l)
  end.

Lemma span_app {A} (p : A -> bool) l : fst (span p l) ++ snd (span p l) = l.
Proof.
  induction l as [|x l IH]; simpl; [done|].
  destruct (p x); [|done]. destruct (span p l); simpl in *. by f_equal.
Qed.

Lemma span_prefix {A} (p : A -> bool) l : Forall (fun x => p x = true) (fst (span p l)).
Proof.
  induction l as [|x l IH]; simpl; [done|].
  destruct (p x) eqn:E; simpl; [|done]. destruct (span p l); simpl in *. by constructor.
Qed.

Lemma span_rest {A} (p : A -> bool) l x r : snd (span p l) = x :: r -> p x = false.
Proof.
  induction l as [|y l IH]; simpl; [done|].
  destruct (p y) eqn:E; simpl.
  - destruct (span p l); simpl in *. done.
  - by injection 1 as -> ->.
Qed.

Lemma span_stop {A} (p : A -> bool) l x r :
  Forall (fun x => p x = true) l -> p x = false -> span p (l ++ x :: r) = (l, x :: r).
Proof.
  intros Hl Hx. induction Hl as [|y l Hy Hl IH]; simpl; [by rewrite Hx|].
  by rewrite Hy, IH.
Qed.

Lemma span_all {A} (p : A -> bool) l :
  Forall (fun x => p x = true) l -> span p l = (l, []).
Proof. induction 1 as [|y l Hy Hl IH]; simpl; [done|]. by rewrite Hy, IH. Qed.

(** [strstr]: the part of [h] before the first occurrence of [n] and the
    part that starts at that occurrence. *)
Fixpoint prefix_of (n h : bytes) : bool :=
  match n, h with
  | [], _ => true
  | _, [] => false
  | x :: n', y :: h' => (x =? y) && prefix_of n' h'
  end.

Fixpoint strstr (h n : bytes) : option (bytes * bytes) :=
  if prefix_of n h then Some ([], h) else
  match h with
  | [] => None
  | x :: h' =>
      match strstr h' n with
      | Some (a, b) => Some (x :: a, b)
      | None => None
      end
  end.

Lemma prefix_of_spec n h : prefix_of n h = true <-> exists r, h = n ++ r.
Proof.
  revert h. induction n as [|x n IH]; intros h; simpl; [naive_solver|].
  destruct h as [|y h]; [naive_solver|].
  rewrite andb_true_iff, IH, Z.eqb_eq. naive_solver.
Qed.

(** [memcmp]-equality of two byte strings. *)
Definition bytes_eqb (a b : bytes) : bool := bool_decide (a = b).

Lemma bytes_eqb_eq a b : bytes_eqb a b = true <-> a = b.
Proof. apply bool_decide_eq_true. Qed.

Lemma bytes_eqb_refl a : bytes_eqb a a = true.
Proof. by apply bytes_eqb_eq. Qed.

(** ** Tactics *)

(** Turn boolean tests of the code into propositions. *)
Ltac boolp :=
  repeat match goal with
  | H : _ && _ = true |- _ => apply andb_true_iff in H; destruct H
  | H : _ || _ = false |- _ => apply orb_false_iff in H; destruct H
  | H : negb _ = true |- _ => apply negb_true_iff in H
  | H : negb _ = false |- _ => apply negb_false_iff in H
  | H : (_ <? _) = true |- _ => apply Z.ltb_lt in H
  | H : (_ <? _) = false |- _ => apply Z.ltb_ge in H
  | H : (_ <=? _) = true |- _ => apply Z.leb_le in H
  | H : (_ <=? _) = false |- _ => apply Z.leb_gt in H
  | H : (_ =? _) = true |- _ => apply Z.eqb_eq in H
  | H : (_ =? _) = false |- _ => apply Z.eqb_neq in H
  end.

(** Decide an equation between a boolean test and [true] or [false]. *)
Ltac blia :=
  try match goal with |- true = _ => symmetry | |- false = _ => symmetry end;
  rewrite ?andb_true_iff, ?orb_true_iff, ?andb_false_iff, ?orb_false_iff,
    ?negb_true_iff, ?negb_false_iff, ?Z.leb_le, ?Z.ltb_lt, ?Z.eqb_eq,
    ?Z.leb_gt, ?Z.ltb_ge, ?Z.eqb_neq;
  lia.

(** Case analysis on the next [if] of the goal, with the test as a
    proposition on [Z]. *)
Ltac zcase :=
  match goal with
  | |- context [if ?a <? ?b then _ else _] => destruct (Z.ltb_spec a b)
  | |- context [if ?a <=? ?b then _ else _] => destruct (Z.leb_spec a b)
  | |- context [if ?a =? ?b then _ else _] => destruct (Z.eqb_spec a b)
  end.

(** Linear arithmetic on the lengths of lists. *)
Ltac zlia := autorewrite with zlen in *; lia.

(** A property of every element of a concrete list. *)
Ltac forall_tac :=
  unfold no_nul, is_byte; rewrite ?Forall_cons_iff; repeat split; first [apply List.Forall_nil | lia | done].

(** Equality of lists up to associativity of [++]. *)
Ltac lassoc := repeat first [rewrite <- app_assoc | progress (cbn [app])]; done.

Create HintDb tor discriminated.
#[export] Hint Resolve zlen_nonneg : tor.

(** ** Blocks of memory *)

(** [memcpy(p + off, s, len(s))] *)
Definition poke {A} (off : Z) (s p : list A) : cres (list A) :=
  if (0 <=? off) && (off + zlen s <=? zlen p)
  then Ok (take (Z.to_nat off) p ++ s ++ drop (Z.to_nat (off + zlen s)) p) else Bug.

(** The first [n] elements behind a pointer. *)
Definition first_bytes {A} (n : Z) (s : list A) : cres (list A) := if n <=? zlen s then Ok (take (Z.to_nat n) s) else Bug.

Lemma poke_at {A} (pre mid post s : list A) off :
  off = zlen pre -> zlen mid = zlen s -> poke off s (pre ++ mid ++ post) = Ok (pre ++ s ++ post).
Proof.
  intros -> Hm. unfold poke. pose proof (zlen_nonneg pre). pose proof (zlen_nonneg post). rewrite !zlen_app.
  assert ((0 <=? zlen pre) && (zlen pre + zlen s <=? zlen pre + (zlen mid + zlen post)) = true) as -> by blia.
  rewrite take_zapp by done. do 2 f_equal. rewrite <- Hm, <- zlen_app, app_assoc, drop_zapp by done. done.
Qed.

Lemma first_bytes_ok {A} n (s : list A) : 0 <= n <= zlen s -> exists b, first_bytes n s = Ok b /\ zlen b = n /\ b = take (Z.to_nat n) s.
Proof.
  intros Hn. unfold first_bytes. rewrite (proj2 (Z.leb_le _ _)) by lia. eexists. split; [done|]. split; [|done].
  unfold zlen in *. rewrite length_take. lia.
Qed.

Lemma first_bytes_app {A} (b rest : list A) n : n = zlen b -> first_bytes n (b ++ rest) = Ok b.
Proof.
  intros ->. unfold first_bytes. pose proof (zlen_nonneg rest). rewrite (proj2 (Z.leb_le _ _)) by zlia. by rewrite take_zapp.
Qed.

Lemma poke_len {A} off (s p : list A) : 0 <= off -> off + zlen s <= zlen p -> exists p', poke off s p = Ok p' /\ zlen p' = zlen p.
Proof.
  intros Ho Hs. unfold poke. assert ((0 <=? off) && (off + zlen s <=? zlen p) = true) as -> by blia. eexists. split; [done|].
  unfold zlen in *. rewrite !length_app, length_take, length_drop. lia.
Qed.

Lemma aset_len {A} (l : list A) i x : 0 <= i < zlen l -> exists l', aset l i x = Ok l' /\ zlen l' = zlen l.
Proof.
  intros Hi. unfold aset, zlen in *. assert ((0 <=? i) && (i <? Z.of_nat (length l)) = true) as -> by blia. eexists. split; [done|].
  by rewrite length_insert.
Qed.
