(* ===== verification/CString.v ===== *)
(** * C strings: character classes, integer parsing, UTF-8

    Models lib/string/compat_ctype.{c,h}, lib/string/parse_int.c and
    lib/string/util_string.c.  A C string is the list of its bytes before the
    NUL; a [char *] that walks over it is the suffix it points to. *)

From S2P Require Import Prelude.
From Stdlib Require Import ZArith String.
From stdpp Require Import base list numbers.
Open Scope Z_scope.

(** ** Character classes (compat_ctype) *)

Module CType.

Definition TOR_ISALPHA_TABLE : list Z := [0; 0; 0x7fffffe; 0x7fffffe; 0; 0; 0; 0].
Definition TOR_ISALNUM_TABLE : list Z := [0; 0x3ff0000; 0x7fffffe; 0x7fffffe; 0; 0; 0; 0].
Definition TOR_ISSPACE_TABLE : list Z := [0x3e00; 0x1; 0; 0; 0; 0; 0; 0].
Definition TOR_ISXDIGIT_TABLE : list Z := [0; 0x3ff0000; 0x7e; 0x7e; 0; 0; 0; 0].
Definition TOR_ISDIGIT_TABLE : list Z := [0; 0x3ff0000; 0; 0; 0; 0; 0; 0].
Definition TOR_ISPRINT_TABLE : list Z := [0; 0xffffffff; 0xffffffff; 0x7fffffff; 0; 0; 0; 0].
Definition TOR_ISUPPER_TABLE : list Z := [0; 0; 0x7fffffe; 0; 0; 0; 0; 0].
Definition TOR_ISLOWER_TABLE : list Z := [0; 0; 0; 0x7fffffe; 0; 0; 0; 0].

(** [DECLARE_CTYPE_FN]: bit [u & 31] of word [(u >> 5) & 7]. *)
Definition ctype_fn (table : list Z) (c : Z) : bool :=
  let u := u8 c in
  negb (Z.land (nth (Z.to_nat (Z.land (Z.shiftr u 5) 7)) table 0)
               (u32 (Z.shiftl 1 (Z.land u 31))) =? 0).

Definition TOR_ISALPHA := ctype_fn TOR_ISALPHA_TABLE.
Definition TOR_ISALNUM := ctype_fn TOR_ISALNUM_TABLE.
Definition TOR_ISSPACE := ctype_fn TOR_ISSPACE_TABLE.
Definition TOR_ISXDIGIT := ctype_fn TOR_ISXDIGIT_TABLE.
Definition TOR_ISDIGIT := ctype_fn TOR_ISDIGIT_TABLE.
Definition TOR_ISPRINT := ctype_fn TOR_ISPRINT_TABLE.
Definition TOR_ISUPPER := ctype_fn TOR_ISUPPER_TABLE.
Definition TOR_ISLOWER := ctype_fn TOR_ISLOWER_TABLE.

Definition TOR_TOUPPER_TABLE : list Z := [
  0;1;2;3;4;5;6;7;8;9;10;11;12;13;14;15;
  16;17;18;19;20;21;22;23;24;25;26;27;28;29;30;31;
  32;33;34;35;36;37;38;39;40;41;42;43;44;45;46;47;
  48;49;50;51;52;53;54;55;56;57;58;59;60;61;62;63;
  64;65;66;67;68;69;70;71;72;73;74;75;76;77;78;79;
  80;81;82;83;84;85;86;87;88;89;90;91;92;93;94;95;
  96;65;66;67;68;69;70;71;72;73;74;75;76;77;78;79;
  80;81;82;83;84;85;86;87;88;89;90;123;124;125;126;127;
  128;129;130;131;132;133;134;135;136;137;138;139;140;141;142;143;
  144;145;146;147;148;149;150;151;152;153;154;155;156;157;158;159;
  160;161;162;163;164;165;166;167;168;169;170;171;172;173;174;175;
  176;177;178;179;180;181;182;183;184;185;186;187;188;189;190;191;
  192;193;194;195;196;197;198;199;200;201;202;203;204;205;206;207;
  208;209;210;211;212;213;214;215;216;217;218;219;220;221;222;223;
  224;225;226;227;228;229;230;231;232;233;234;235;236;237;238;239;
  240;241;242;243;244;245;246;247;248;249;250;251;252;253;254;255].

Definition TOR_TOLOWER_TABLE : list Z := [
  0;1;2;3;4;5;6;7;8;9;10;11;12;13;14;15;
  16;17;18;19;20;21;22;23;24;25;26;27;28;29;30;31;
  32;33;34;35;36;37;38;39;40;41;42;43;44;45;46;47;
  48;49;50;51;52;53;54;55;56;57;58;59;60;61;62;63;
  64;97;98;99;100;101;102;103;104;105;106;107;108;109;110;111;
  112;113;114;115;116;117;118;119;120;121;122;91;92;93;94;95;
  96;97;98;99;100;101;102;103;104;105;106;107;108;109;110;111;
  112;113;114;115;116;117;118;119;120;121;122;123;124;125;126;127;
  128;129;130;131;132;133;134;135;136;137;138;139;140;141;142;143;
  144;145;146;147;148;149;150;151;152;153;154;155;156;157;158;159;
  160;161;162;163;164;165;166;167;168;169;170;171;172;173;174;175;
  176;177;178;179;180;181;182;183;184;185;186;187;188;189;190;191;
  192;193;194;195;196;197;198;199;200;201;202;203;204;205;206;207;
  208;209;210;211;212;213;214;215;216;217;218;219;220;221;222;223;
  224;225;226;227;228;229;230;231;232;233;234;235;236;237;238;239;
  240;241;242;243;244;245;246;247;248;249;250;251;252;253;254;255].

Definition TOR_TOUPPER (c : Z) : Z := nth (Z.to_nat (u8 c)) TOR_TOUPPER_TABLE 0.
Definition TOR_TOLOWER (c : Z) : Z := nth (Z.to_nat (u8 c)) TOR_TOLOWER_TABLE 0.

Definition hex_decode_digit (c : Z) : Z :=
  if (48 <=? c) && (c <=? 57) then c - 48
  else if (c =? 65) || (c =? 97) then 10
  else if (c =? 66) || (c =? 98) then 11
  else if (c =? 67) || (c =? 99) then 12
  else if (c =? 68) || (c =? 100) then 13
  else if (c =? 69) || (c =? 101) then 14
  else if (c =? 70) || (c =? 102) then 15
  else -1.

(** The abstract reading of the tables, as ranges of ASCII. *)
Definition in_range (lo hi c : Z) : bool := (lo <=? c) && (c <=? hi).
Definition digitP (c : Z) : bool := in_range 48 57 c.
Definition upperP (c : Z) : bool := in_range 65 90 c.
Definition lowerP (c : Z) : bool := in_range 97 122 c.

Definition ctype_spec (c : Z) : bool :=
  eqb (TOR_ISDIGIT c) (digitP c) &&
  eqb (TOR_ISUPPER c) (upperP c) &&
  eqb (TOR_ISLOWER c) (lowerP c) &&
  eqb (TOR_ISALPHA c) (upperP c || lowerP c) &&
  eqb (TOR_ISALNUM c) (upperP c || lowerP c || digitP c) &&
  eqb (TOR_ISXDIGIT c) (digitP c || in_range 65 70 c || in_range 97 102 c) &&
  eqb (TOR_ISSPACE c) ((c =? 32) || in_range 9 13 c) &&
  eqb (TOR_ISPRINT c) (in_range 32 126 c) &&
  (TOR_TOLOWER c =? if upperP c then c + 32 else c) &&
  (TOR_TOUPPER c =? if lowerP c then c - 32 else c) &&
  eqb (TOR_ISXDIGIT c) (0 <=? hex_decode_digit c) &&
  (hex_decode_digit c <? 16).

Lemma ctype_spec_ok c : is_byte c -> ctype_spec c = true.
Proof. revert c. apply byte_forall. vm_compute. reflexivity. Qed.

Lemma isdigit_byte c : is_byte c -> TOR_ISDIGIT c = digitP c.
Proof.
  intros H%ctype_spec_ok. unfold ctype_spec in H.
  rewrite !andb_true_iff in H. destruct_and!. by apply eqb_prop.
Qed.

End CType.
Export CType.

(** ** Integer parsing (parse_int.c)

    [strtol] and [strtoul] of the C library in the "C" locale, for a 64-bit
    [long]: skip white space, take an optional sign and, for base 16 and base
    0, an optional [0x] prefix (only when a hexadecimal digit follows), then
    the longest run of digits of the base. *)

Module ParseInt.

Definition digit_val (c : Z) : Z :=
  if digitP c then c - 48
  else if lowerP c then c - 87
  else if upperP c then c - 55
  else 99.

Definition is_digit_of (base c : Z) : bool := digit_val c <? base.

Definition digits_val (base : Z) (ds : bytes) : Z :=
  fold_left (fun v c => v * base + digit_val c) ds 0.

(** The sign, the magnitude and the unconverted rest; [None] when there is
    nothing to convert, in which case [endptr = s]. *)
Definition strtox (base : Z) (s : bytes) : option (bool * Z * bytes) :=
  let s1 := snd (span (fun c => (c =? 32) || in_range 9 13 c) s) in
  let '(neg, s2) :=
    match s1 with
    | c :: r => if c =? 45 then (true, r) else if c =? 43 then (false, r) else (false, s1)
    | [] => (false, s1)
    end in
  let hexprefix :=
    match s2 with
    | z :: x :: h :: _ => (z =? 48) && ((x =? 120) || (x =? 88)) && is_digit_of 16 h
    | _ => false
    end in
  let '(base', s3) :=
    if ((base =? 0) || (base =? 16)) && hexprefix then (16, drop 2 s2)
    else if base =? 0 then ((if cur s2 =? 48 then 8 else 10), s2)
    else (base, s2) in
  let '(ds, rest) := span (is_digit_of base') s3 in
  match ds with
  | [] => None
  | _ => Some (neg, digits_val base' ds, rest)
  end.

Record strto_res := { r_val : Z; r_end : bytes; r_erange : bool; r_conv : bool }.

Definition strtol (base : Z) (s : bytes) : strto_res :=
  match strtox base s with
  | None => {| r_val := 0; r_end := s; r_erange := false; r_conv := false |}
  | Some (neg, m, rest) =>
      let v := if neg then - m else m in
      if LONG_MAX <? v then {| r_val := LONG_MAX; r_end := rest; r_erange := true; r_conv := true |}
      else if v <? LONG_MIN then {| r_val := LONG_MIN; r_end := rest; r_erange := true; r_conv := true |}
      else {| r_val := v; r_end := rest; r_erange := false; r_conv := true |}
  end.

(** [strtoul] and [strtoull] accept a sign and negate in the unsigned type. *)
Definition strtoul (base : Z) (s : bytes) : strto_res :=
  match strtox base s with
  | None => {| r_val := 0; r_end := s; r_erange := false; r_conv := false |}
  | Some (neg, m, rest) =>
      if ULONG_MAX <? m then {| r_val := ULONG_MAX; r_end := rest; r_erange := true; r_conv := true |}
      else {| r_val := u64 (if neg then - m else m); r_end := rest; r_erange := false; r_conv := true |}
  end.

(** What a [tor_parse_*] call leaves in its result, [*ok] and [*next].
    [p_next = None] when [*next] is not written. *)
Record parsed := { p_val : Z; p_ok : bool; p_next : option bytes }.

(** [CHECK_STRTOX_RESULT]; [want_next] is [next != NULL]. *)
Definition CHECK_STRTOX_RESULT (r : strto_res) (want_next : bool) (min max : Z) : parsed :=
  let nxt := if want_next then Some (r_end r) else None in
  let err := {| p_val := 0; p_ok := false; p_next := nxt |} in
  if r_erange r then err
  else if negb (r_conv r) then err
  else if negb want_next && negb (cur (r_end r) =? 0) then err
  else if max <? min then err
  else if (r_val r <? min) || (max <? r_val r) then err
  else {| p_val := r_val r; p_ok := true; p_next := nxt |}.

Definition tor_parse_long (s : bytes) (base min max : Z) (want_next : bool) : parsed :=
  if base <? 0 then {| p_val := 0; p_ok := false; p_next := None |}
  else CHECK_STRTOX_RESULT (strtol base s) want_next min max.

Definition tor_parse_ulong (s : bytes) (base min max : Z) (want_next : bool) : parsed :=
  if base <? 0 then {| p_val := 0; p_ok := false; p_next := None |}
  else CHECK_STRTOX_RESULT (strtoul base s) want_next min max.

Definition tor_parse_uint64 (s : bytes) (base min max : Z) (want_next : bool) : parsed :=
  if base <? 0 then {| p_val := 0; p_ok := false; p_next := None |}
  else CHECK_STRTOX_RESULT (strtoul base s) want_next min max.

(** [%d], [%i], [%u] and [%lu] of the printf family: decimal digits. *)
Fixpoint udec_aux (fuel : nat) (n : Z) (acc : bytes) : bytes :=
  match fuel with
  | O => acc
  | S f => if n <? 10 then (48 + n) :: acc
           else udec_aux f (n / 10) (48 + n mod 10 :: acc)
  end.

Definition udec (n : Z) : bytes := udec_aux (S (Z.to_nat (Z.log2 n))) n [].

Definition dec (n : Z) : bytes := if n <? 0 then 45 :: udec (- n) else udec n.

(** The C string at the start of an array that ends in a NUL. *)
Fixpoint c_string (s : bytes) : bytes := match s with [] => [] | b :: s => if b =? 0 then [] else b :: c_string s end.

Lemma c_string_ok s : Forall is_byte s -> Forall is_byte (c_string s) /\ no_nul (c_string s).
Proof.
  induction 1 as [|b s Hb Hs [IH1 IH2]]; [by repeat constructor|]. cbn. destruct (Z.eqb_spec b 0); [by repeat constructor|].
  split; by constructor.
Qed.

Lemma c_string_id s : no_nul s -> c_string s = s.
Proof. induction 1 as [|b s Hb _ IH]; [done|]. cbn. by rewrite (proj2 (Z.eqb_neq b 0)), IH. Qed.

Lemma digit_val_digit d : 0 <= d < 10 -> digit_val (48 + d) = d.
Proof.
  intros H. unfold digit_val, digitP, in_range.
  replace ((48 <=? 48 + d) && (48 + d <=? 57)) with true by lia. lia.
Qed.

Lemma digits_val_app base a b :
  digits_val base (a ++ b) =
  fold_left (fun v c => v * base + digit_val c) b (digits_val base a).
Proof. apply fold_left_app. Qed.

(** Decimal digits only. *)
Definition dec_digits (ds : bytes) : Prop := Forall (fun c => 48 <= c <= 57) ds.

Lemma udec_aux_spec fuel n acc :
  (0 < fuel)%nat -> 0 <= n < 2 ^ Z.of_nat fuel ->
  dec_digits acc ->
  exists ds, udec_aux fuel n acc = ds ++ acc /\ ds <> [] /\ dec_digits ds /\
             digits_val 10 ds = n.
Proof.
  revert n acc. induction fuel as [|f IH]; intros n acc Hf Hn Hacc.
  - lia.
  - cbn [udec_aux]. zcase.
    + exists [48 + n]. split; [done|]. split; [done|]. split.
      * constructor; [lia|constructor].
      * cbn. rewrite digit_val_digit by lia. lia.
    + replace (Z.of_nat (S f)) with (Z.of_nat f + 1) in Hn by lia.
      rewrite Z.pow_add_r in Hn by lia.
      destruct (IH (n / 10) (48 + n mod 10 :: acc)) as (ds & Heq & Hne & Hd & Hv).
      * destruct f; [cbn in Hn; lia | lia].
      * split; [apply Z.div_pos; lia|]. apply Z.div_lt_upper_bound; lia.
      * constructor; [|done]. pose proof (Z.mod_pos_bound n 10). lia.
      * exists (ds ++ [48 + n mod 10]). rewrite Heq. split.
        { by rewrite <- app_assoc. }
        split; [by destruct ds|]. pose proof (Z.mod_pos_bound n 10).
        split.
        { apply Forall_app. split; [done|]. constructor; [lia|constructor]. }
        rewrite digits_val_app, Hv. cbn. rewrite digit_val_digit by lia.
        pose proof (Z.div_mod n 10). lia.
Qed.

Lemma udec_spec n :
  0 <= n -> udec n <> [] /\ dec_digits (udec n) /\ digits_val 10 (udec n) = n.
Proof.
  intros Hn. destruct (udec_aux_spec (S (Z.to_nat (Z.log2 n))) n []) as (ds & H1 & H2 & H3 & H4).
  - lia.
  - split; [done|]. destruct (Z.eq_dec n 0) as [->|]; [by cbn|].
    pose proof (Z.log2_spec n) as [_ H]; [lia|].
    pose proof (Z.log2_nonneg n).
    replace (Z.of_nat (S (Z.to_nat (Z.log2 n)))) with (Z.succ (Z.log2 n)) by lia. done.
  - constructor.
  - unfold udec. rewrite H1, app_nil_r. auto.
Qed.

Lemma is_digit_of_10 c : 48 <= c <= 57 -> is_digit_of 10 c = true.
Proof.
  intros H. replace c with (48 + (c - 48)) by lia.
  unfold is_digit_of. rewrite digit_val_digit by lia. lia.
Qed.

(** [strtox] in base 10 on a run of decimal digits followed by something that
    is not a digit. *)
Lemma strtox_digits ds rest :
  ds <> [] -> dec_digits ds -> is_digit_of 10 (cur rest) = false ->
  strtox 10 (ds ++ rest) = Some (false, digits_val 10 ds, rest).
Proof.
  intros Hne Hds Hrest. unfold strtox.
  destruct ds as [|d ds]; [done|]. inversion_clear Hds as [|? ? Hd Hds'].
  assert (span (fun c => (c =? 32) || in_range 9 13 c) ((d :: ds) ++ rest) = ([], (d :: ds) ++ rest)) as ->.
  { cbn [app span]. replace ((d =? 32) || in_range 9 13 d) with false by (unfold in_range; lia). done. }
  cbn [snd]. change ((d :: ds) ++ rest) with (d :: (ds ++ rest)).
  cbn [andb orb Z.eqb Pos.eqb].
  replace (d =? 45) with false by lia. replace (d =? 43) with false by lia.
  change (d :: ds ++ rest) with ((d :: ds) ++ rest).
  assert (Hall : Forall (fun x => is_digit_of 10 x = true) (d :: ds)).
  { constructor; [by apply is_digit_of_10|].
    eapply Forall_weaken; [exact Hds'|]. intros x Hx. by apply is_digit_of_10. }
  destruct rest as [|x rest].
  - rewrite app_nil_r, span_all by done. done.
  - rewrite span_stop by done. done.
Qed.

Lemma strtol_udec n rest :
  0 <= n <= LONG_MAX -> is_digit_of 10 (cur rest) = false ->
  strtol 10 (udec n ++ rest) = {| r_val := n; r_end := rest; r_erange := false; r_conv := true |}.
Proof.
  intros Hn Hr. destruct (udec_spec n) as (H1 & H2 & H3); [lia|].
  unfold strtol. rewrite strtox_digits, H3 by done. cbn [negb].
  unfold LONG_MAX, LONG_MIN in *. repeat zcase; try lia. done.
Qed.

Lemma strtox_neg_digits ds rest :
  ds <> [] -> dec_digits ds -> is_digit_of 10 (cur rest) = false ->
  strtox 10 (45 :: ds ++ rest) = Some (true, digits_val 10 ds, rest).
Proof.
  intros Hne Hds Hr. pose proof (strtox_digits ds rest Hne Hds Hr) as H.
  unfold strtox in *. destruct ds as [|d ds]; [done|]. inversion_clear Hds as [|? ? Hd Hds'].
  cbn [app span snd] in *.
  replace ((45 =? 32) || in_range 9 13 45) with false by reflexivity.
  replace ((d =? 32) || in_range 9 13 d) with false in H by (unfold in_range; lia).
  cbn [snd Z.eqb Pos.eqb] in *.
  replace (d =? 45) with false in H by lia. replace (d =? 43) with false in H by lia.
  cbn [andb orb Z.eqb Pos.eqb] in *.
  destruct (span (is_digit_of 10) (d :: ds ++ rest)) as [[|dd ds'] rr]; congruence.
Qed.

(**  Parsing what [%d] printed gives the number back: for every [n] that
    fits a [long] and lies in the range asked for, [tor_parse_long] in base 10
    applied to the decimal rendering of [n] followed by any text that does not
    start with a digit succeeds, returns [n], and leaves [*next] at that text. *)
Theorem tor_parse_long_dec n rest min max :
  LONG_MIN <= n <= LONG_MAX -> min <= n <= max -> is_digit_of 10 (cur rest) = false ->
  tor_parse_long (dec n ++ rest) 10 min max true =
    {| p_val := n; p_ok := true; p_next := Some rest |}.
Proof.
  intros Hn Hm Hr. unfold tor_parse_long. cbn [Z.ltb Z.compare].
  assert (strtol 10 (dec n ++ rest) =
          {| r_val := n; r_end := rest; r_erange := false; r_conv := true |}) as ->.
  { unfold dec. zcase.
    - destruct (udec_spec (- n)) as (H1 & H2 & H3); [lia|].
      cbn [app]. unfold strtol. rewrite strtox_neg_digits, H3 by done. cbn [negb].
      unfold LONG_MAX, LONG_MIN in *. repeat zcase; try lia. f_equal; lia.
    - apply strtol_udec; [lia|done]. }
  unfold CHECK_STRTOX_RESULT; cbn.
  replace (max <? min) with false by lia.
  replace ((n <? min) || (max <? n)) with false by lia. done.
Qed.

Lemma dec_digits_of n : 0 <= n -> dec n <> [] /\ dec_digits (dec n) /\ digits_val 10 (dec n) = n.
Proof. intros Hn. unfold dec. rewrite (proj2 (Z.ltb_ge _ _)) by done. by apply udec_spec. Qed.

Lemma tor_parse_ulong_dec n rest min max :
  0 <= n <= LONG_MAX -> min <= n <= max -> is_digit_of 10 (cur rest) = false ->
  tor_parse_ulong (dec n ++ rest) 10 min max true = {| p_val := n; p_ok := true; p_next := Some rest |}.
Proof.
  intros Hn Hm Hr. destruct (dec_digits_of n) as (H1 & H2 & H3); [lia|]. unfold LONG_MAX in Hn.
  unfold tor_parse_ulong. change (10 <? 0) with false. cbv iota. unfold strtoul. rewrite strtox_digits, H3 by done.
  rewrite (proj2 (Z.ltb_ge _ _)) by (unfold ULONG_MAX; lia). unfold CHECK_STRTOX_RESULT. cbn [r_erange r_conv r_end r_val negb andb].
  assert (u64 n = n) as -> by (unfold u64; apply Z.mod_small; lia).
  replace (max <? min) with false by lia. replace ((n <? min) || (max <? n)) with false by lia. done.
Qed.

Lemma tor_parse_long_dec_witness :
  tor_parse_long (dec (-1234) ++ s2b ",$d") 10 (-5000) INT_MAX true =
    {| p_val := -1234; p_ok := true; p_next := Some (s2b ",$d") |}.
Proof.
  apply tor_parse_long_dec; [vm_compute; split; discriminate | vm_compute; split; discriminate | reflexivity].
Defined.

Lemma strtox_suffix base s neg m rest :
  strtox base s = Some (neg, m, rest) -> exists pre, s = pre ++ rest.
Proof.
  unfold strtox. intros H.
  pose proof (span_app (fun c => (c =? 32) || in_range 9 13 c) s) as Hs.
  destruct (span (fun c => (c =? 32) || in_range 9 13 c) s) as [ws s1]; cbn [fst snd] in *.
  assert (exists pre, s1 = pre ++ rest) as [pre ->];
    [|exists (ws ++ pre); rewrite <- app_assoc; done].
  destruct (match s1 with [] => _ | _ => _ end) as [ng s2] eqn:E2.
  assert (exists pre, s1 = pre ++ s2) as [p1 ->].
  { destruct s1 as [|c r]; [|destruct (c =? 45); [|destruct (c =? 43)]]; simplify_eq;
      [by exists [] | by exists [c] | by exists [c] | by exists []]. }
  destruct (if _ && _ then _ else _) as [b3 s3] eqn:E3.
  assert (exists pre, s2 = pre ++ s3) as [p2 ->].
  { clear E2 H. destruct (_ && _); simplify_eq.
    - exists (take 2 s2). by rewrite take_drop.
    - destruct (base =? 0); simplify_eq; by exists []. }
  pose proof (span_app (is_digit_of b3) s3) as Hd.
  destruct (span (is_digit_of b3) s3) as [ds r]; cbn [fst snd] in *.
  destruct ds; simplify_eq. exists (p1 ++ p2 ++ z :: ds). by rewrite <- !app_assoc.
Qed.

Lemma strtol_suffix base s : exists pre, s = pre ++ r_end (strtol base s).
Proof.
  unfold strtol. destruct (strtox base s) as [[[neg m] rest]|] eqn:E; [|by exists []].
  apply strtox_suffix in E as [pre ->]. exists pre. by repeat case_match.
Qed.

End ParseInt.
Export ParseInt.
