(* ===== verification/DiOps.v ===== *)
(** * Data-independent memory operations

    Models lib/ctime/di_ops.c: comparisons and selections written with masks
    and without data-dependent branches.  Each routine is shown to compute what
    the obvious branching definition computes.  Integers are kept at the width
    the code gives them: [retval] and [equal_p] are two's-complement [int]s (the
    values stay far from the limits), [any_difference] and [total] are
    [uint32_t], pointers are [uintptr_t] of 64 bits. *)

From S2P Require Import Prelude.
From Stdlib Require Import ZArith String.
From stdpp Require Import base list numbers.
Open Scope Z_scope.

(** ** tor_memcmp *)

(** One round of the loop, for the bytes [v1] and [v2] at index [i]. *)
Definition memcmp_step (v1 v2 retval : Z) : Z :=
  let equal_p := Z.lxor v1 v2 in
  let equal_p := equal_p - 1 in
  let equal_p := Z.shiftr equal_p 8 in
  Z.land retval equal_p + (v1 - v2).

(** [while (i--)]: from the end of the arrays to the start. *)
Fixpoint memcmp_loop (i : nat) (a b : bytes) (retval : Z) : cres Z :=
  match i with
  | O => Ok retval
  | S i =>
      let* v1 := aget a (Z.of_nat i) in
      let* v2 := aget b (Z.of_nat i) in
      memcmp_loop i a b (memcmp_step v1 v2 retval)
  end.

Definition tor_memcmp (a b : bytes) (len : nat) : cres Z := memcmp_loop len a b 0.

(** ** tor_memeq and safe_mem_is_zero *)

Fixpoint memeq_loop (sz : nat) (ba bb : bytes) (any_difference : Z) : cres Z :=
  match sz with
  | O => Ok any_difference
  | S sz =>
      match ba, bb with
      | x :: ba, y :: bb => memeq_loop sz ba bb (Z.lor any_difference (u8 (Z.lxor x y)))
      | _, _ => Bug
      end
  end.

Definition to_flag (d : Z) : Z := Z.land 1 (Z.shiftr (u32 (d - 1)) 8).

Definition tor_memeq (a b : bytes) (sz : nat) : cres Z :=
  let* any_difference := memeq_loop sz a b 0 in Ok (to_flag any_difference).

Fixpoint is_zero_loop (sz : nat) (ptr : bytes) (total : Z) : cres Z :=
  match sz with
  | O => Ok total
  | S sz =>
      match ptr with
      | x :: ptr => is_zero_loop sz ptr (Z.lor total x)
      | [] => Bug
      end
  end.

Definition safe_mem_is_zero (mem : bytes) (sz : nat) : cres Z :=
  let* total := is_zero_loop sz mem 0 in Ok (to_flag total).

(** ** di_digest256_map_t: a list of entries, values are pointers *)

Record dimap_entry := mkentry { dm_key : bytes; dm_val : Z }.

Fixpoint dimap_search (map : list dimap_entry) (key : bytes) (result : Z) : cres Z :=
  match map with
  | [] => Ok result
  | e :: next =>
      let* r := tor_memeq (dm_key e) key 32 in
      let r := u64 (r - 1) in
      let result := Z.land result r in
      let result := Z.lor result (Z.land (dm_val e) (u64 (Z.lnot r))) in
      dimap_search next key result
  end.

(** Allocation succeeds; [memcpy] copies the first 32 bytes of the key. *)
Definition dimap_add_entry (map : list dimap_entry) (key : bytes) (val : Z) : cres (list dimap_entry) :=
  let* old_val := dimap_search map key 0 in
  assert! (old_val =? 0);
  assert! (negb (val =? 0));
  assert! (32 <=? zlen key);
  Ok (mkentry (take 32 key) val :: map).

(** ** select_array_member_cumulative_timei, on a 64-bit platform *)

Definition INT64_MAX : Z := 9223372036854775807.

Record select_state := mksel { total_so_far : Z; i_chosen : Z; n_chosen : Z; sel_rand_val : Z }.

Fixpoint select_loop (entries : list Z) (i : Z) (s : select_state) : select_state :=
  match entries with
  | [] => s
  | e :: entries =>
      let total_so_far := u64 (total_so_far s + e) in
      let s := if sel_rand_val s <? total_so_far
               then mksel total_so_far i (n_chosen s + 1) INT64_MAX
               else mksel total_so_far (i_chosen s) (n_chosen s) (sel_rand_val s) in
      select_loop entries (i + 1) s
  end.

Definition select_array_member_cumulative_timei (entries : list Z) (total rand_val : Z) : cres Z :=
  let s := select_loop entries 0 (mksel 0 (-1) 0 rand_val) in
  assert! (total_so_far s =? total);
  assert! (n_chosen s =? 1);
  assert! (0 <=? i_chosen s);
  assert! (i_chosen s <? zlen entries);
  Ok (i_chosen s).

(** ** memcpy_if_true_timei *)

Definition masked_byte (s : bool) (d c : Z) : Z :=
  let mask := u8 (- (if s then 1 else 0)) in
  Z.lor (Z.land d (u8 (Z.lnot mask))) (Z.land c mask).

Fixpoint memcpy_if_true_timei (s : bool) (dest src : bytes) (n : nat) {struct n} : cres bytes :=
  match n with
  | O => Ok dest
  | S n =>
      match dest, src with
      | d :: dest, c :: src =>
          let* dest := memcpy_if_true_timei s dest src n in Ok (masked_byte s d c :: dest)
      | _, _ => Bug
      end
  end.

(** ** Reference definitions *)

(** [memcmp] of the C library: the difference at the first byte that differs. *)
Fixpoint memcmp (a b : bytes) : Z :=
  match a, b with
  | x :: a, y :: b => if x =? y then memcmp a b else x - y
  | _, _ => 0
  end.

Lemma log2_byte z : is_byte z -> Z.log2 z < 8.
Proof.
  intros Hz. unfold is_byte in Hz. destruct (Z.eq_dec z 0) as [->|]; [done|]. apply Z.log2_lt_pow2; lia.
Qed.

Lemma byte_log2 z : 0 <= z -> Z.log2 z < 8 -> is_byte z.
Proof.
  intros Hz Hl. unfold is_byte. destruct (Z.eq_dec z 0) as [->|]; [lia|].
  split; [done|]. apply (Z.log2_lt_pow2 z 8); lia.
Qed.

Lemma lxor_byte x y : is_byte x -> is_byte y -> is_byte (Z.lxor x y).
Proof.
  intros Hx Hy. pose proof (log2_byte x Hx). pose proof (log2_byte y Hy). unfold is_byte in *.
  apply byte_log2; [apply Z.lxor_nonneg; lia|].
  eapply Z.le_lt_trans; [apply Z.log2_lxor; lia|lia].
Qed.

Lemma lor_byte x y : is_byte x -> is_byte y -> is_byte (Z.lor x y).
Proof.
  intros Hx Hy. pose proof (log2_byte x Hx). pose proof (log2_byte y Hy). unfold is_byte in *.
  apply byte_log2; [apply Z.lor_nonneg; lia|]. rewrite Z.log2_lor by lia. lia.
Qed.

Lemma memcmp_step_spec v1 v2 r :
  is_byte v1 -> is_byte v2 -> memcmp_step v1 v2 r = if v1 =? v2 then r else v1 - v2.
Proof.
  intros H1 H2. unfold memcmp_step. pose proof (lxor_byte v1 v2 H1 H2) as Hx. unfold is_byte in Hx.
  destruct (Z.eqb_spec v1 v2) as [->|Hne].
  - rewrite Z.lxor_nilpotent. change (Z.shiftr (0 - 1) 8) with (-1). rewrite Z.land_m1_r. lia.
  - assert (Z.lxor v1 v2 <> 0) by (rewrite Z.lxor_eq_0_iff; done).
    rewrite Z.shiftr_div_pow2, Z.div_small by lia. rewrite Z.land_0_r. lia.
Qed.

Lemma drop_take_cons (a : bytes) len i x :
  (i < len)%nat -> a !! i = Some x -> drop i (take len a) = x :: drop (S i) (take len a).
Proof.
  intros Hi Hx. apply drop_S. by rewrite lookup_take_lt.
Qed.

Lemma memcmp_loop_spec a b len i :
  (len <= length a)%nat -> (len <= length b)%nat -> (i <= len)%nat ->
  Forall is_byte a -> Forall is_byte b ->
  memcmp_loop i a b (memcmp (drop i (take len a)) (drop i (take len b))) =
  Ok (memcmp (take len a) (take len b)).
Proof.
  intros Ha Hb Hi Fa Fb. induction i as [|i IH]; cbn [memcmp_loop]; [done|].
  destruct (lookup_lt_is_Some_2 a i) as [x Hx]; [lia|].
  destruct (lookup_lt_is_Some_2 b i) as [y Hy]; [lia|].
  unfold aget. replace (Z.of_nat i <? 0) with false by blia. rewrite Nat2Z.id, Hx, Hy. cbn [cbind].
  rewrite Forall_lookup in Fa, Fb. rewrite memcmp_step_spec by eauto.
  rewrite <- IH by lia. f_equal.
  by rewrite (drop_take_cons a len i x), (drop_take_cons b len i y) by (done || lia).
Qed.

(** [tor_memcmp] returns what [memcmp] does, the difference of the first
    two bytes that differ, although its loop runs backwards over all the bytes and
    selects with masks. *)
Theorem tor_memcmp_correct a b len :
  (len <= length a)%nat -> (len <= length b)%nat -> Forall is_byte a -> Forall is_byte b ->
  tor_memcmp a b len = Ok (memcmp (take len a) (take len b)).
Proof.
  intros Ha Hb Fa Fb. unfold tor_memcmp.
  rewrite <- (memcmp_loop_spec a b len len) by auto.
  rewrite !drop_ge by (rewrite length_take; lia). done.
Qed.

Lemma tor_memcmp_correct_witness :
  tor_memcmp [1; 2; 3; 9] [1; 5; 0; 7] 3 = Ok (memcmp [1; 2; 3] [1; 5; 0]).
Proof. apply (tor_memcmp_correct [1; 2; 3; 9] [1; 5; 0; 7] 3); cbn; try lia; repeat constructor; unfold is_byte; lia. Defined.

Lemma to_flag_spec d : is_byte d -> to_flag d = if d =? 0 then 1 else 0.
Proof.
  intros Hd. apply Z.eqb_eq. revert d Hd. apply byte_forall. vm_compute. reflexivity.
Qed.

Lemma memeq_loop_spec sz a b d :
  (sz <= length a)%nat -> (sz <= length b)%nat -> Forall is_byte a -> Forall is_byte b -> is_byte d ->
  exists d', memeq_loop sz a b d = Ok d' /\ is_byte d' /\ (d' = 0 <-> d = 0 /\ take sz a = take sz b).
Proof.
  revert a b d. induction sz as [|sz IH]; intros a b d Ha Hb Fa Fb Hd; cbn [memeq_loop].
  { exists d. rewrite !take_0. tauto. }
  destruct a as [|x a]; [cbn in Ha; lia|]. destruct b as [|y b]; [cbn in Hb; lia|].
  inversion_clear Fa as [|? ? Hx Fa']. inversion_clear Fb as [|? ? Hy Fb']. cbn [length] in *.
  assert (Hxy : u8 (Z.lxor x y) = Z.lxor x y) by (apply Z.mod_small, lxor_byte; done).
  destruct (IH a b (Z.lor d (u8 (Z.lxor x y)))) as (d' & E & Hb' & Hiff); try done; try lia.
  { rewrite Hxy. by apply lor_byte, lxor_byte. }
  exists d'. split_and!; [done|done|]. rewrite Hiff, Hxy, Z.lor_eq_0_iff, Z.lxor_eq_0_iff, !firstn_cons.
  split; [by intros [[-> ->] ->]|]. intros [-> Eq]. by injection Eq as -> ->.
Qed.

Lemma tor_memeq_spec a b sz :
  (sz <= length a)%nat -> (sz <= length b)%nat -> Forall is_byte a -> Forall is_byte b ->
  tor_memeq a b sz = Ok (if bool_decide (take sz a = take sz b) then 1 else 0).
Proof.
  intros Ha Hb Fa Fb. unfold tor_memeq.
  destruct (memeq_loop_spec sz a b 0) as (d & -> & Hd & Hiff); auto; [unfold is_byte; lia|].
  cbn [cbind]. rewrite to_flag_spec by done. f_equal.
  destruct (Z.eqb_spec d 0); case_bool_decide; naive_solver.
Qed.

Lemma is_zero_loop_spec sz m t :
  (sz <= length m)%nat -> Forall is_byte m -> is_byte t ->
  exists t', is_zero_loop sz m t = Ok t' /\ is_byte t' /\ (t' = 0 <-> t = 0 /\ Forall (eq 0) (take sz m)).
Proof.
  revert m t. induction sz as [|sz IH]; intros m t Hm Fm Ht; cbn [is_zero_loop].
  { exists t. rewrite take_0. naive_solver. }
  destruct m as [|x m]; [cbn in Hm; lia|]. inversion_clear Fm as [|? ? Hx Fm']. cbn [length] in *.
  destruct (IH m (Z.lor t x)) as (t' & E & Hb & Hiff); try done; try lia; [by apply lor_byte|].
  exists t'. split_and!; [done|done|]. rewrite Hiff, Z.lor_eq_0_iff, firstn_cons, Forall_cons_iff. naive_solver.
Qed.

Lemma safe_mem_is_zero_spec m sz :
  (sz <= length m)%nat -> Forall is_byte m ->
  safe_mem_is_zero m sz = Ok (if bool_decide (Forall (eq 0) (take sz m)) then 1 else 0).
Proof.
  intros Hm Fm. unfold safe_mem_is_zero.
  destruct (is_zero_loop_spec sz m 0) as (d & -> & Hd & Hiff); auto; [unfold is_byte; lia|].
  cbn [cbind]. rewrite to_flag_spec by done. f_equal.
  destruct (Z.eqb_spec d 0); case_bool_decide; naive_solver.
Qed.

(** A map whose keys are 32 bytes and whose values are non-NULL pointers. *)
Definition entry_ok (e : dimap_entry) : Prop :=
  length (dm_key e) = 32%nat /\ Forall is_byte (dm_key e) /\ 0 < dm_val e < 2 ^ 64.

Definition key_ok (k : bytes) : Prop := length k = 32%nat /\ Forall is_byte k.

(** The last entry of the list with the key wins, and the default otherwise. *)
Fixpoint dimap_ref (map : list dimap_entry) (key : bytes) (dflt : Z) : Z :=
  match map with
  | [] => dflt
  | e :: next => dimap_ref next key (if bool_decide (dm_key e = key) then dm_val e else dflt)
  end.

Lemma land_ones64 z : 0 <= z < 2 ^ 64 -> Z.land z (2 ^ 64 - 1) = z.
Proof.
  intros Hz. replace (2 ^ 64 - 1) with (Z.ones 64) by done.
  rewrite Z.land_ones by lia. by apply Z.mod_small.
Qed.

Lemma dimap_search_ref map key dflt :
  Forall entry_ok map -> key_ok key -> 0 <= dflt < 2 ^ 64 ->
  dimap_search map key dflt = Ok (dimap_ref map key dflt).
Proof.
  intros Hm [Hk Fk]. revert dflt. induction Hm as [|e map (Hl & Fe & Hv) Hm IH]; intros dflt Hd;
    cbn [dimap_search dimap_ref]; [done|].
  rewrite tor_memeq_spec by (done || lia). cbn [cbind].
  rewrite !take_ge by lia. case_bool_decide.
  - change (u64 (1 - 1)) with 0. change (u64 (Z.lnot 0)) with (2 ^ 64 - 1).
    rewrite Z.land_0_r, Z.lor_0_l, land_ones64 by lia. apply IH. lia.
  - change (u64 (0 - 1)) with (2 ^ 64 - 1). change (u64 (Z.lnot (2 ^ 64 - 1))) with 0.
    rewrite Z.land_0_r, Z.lor_0_r, land_ones64 by lia. by apply IH.
Qed.

Lemma dimap_ref_absent map key dflt :
  Forall (fun e => dm_key e <> key) map -> dimap_ref map key dflt = dflt.
Proof.
  intros H. revert dflt. induction H as [|e map He Hm IH]; intros dflt; cbn [dimap_ref]; [done|].
  by rewrite bool_decide_false.
Qed.

Lemma dimap_ref_present map key dflt :
  Forall entry_ok map -> dimap_ref map key dflt = 0 -> dflt = 0 /\ Forall (fun e => dm_key e <> key) map.
Proof.
  intros H. revert dflt. induction H as [|e map (_ & _ & Hv) Hm IH]; intros dflt E; cbn [dimap_ref] in E; [done|].
  apply IH in E as [E1 E2]. case_bool_decide; [lia|]. split; [done|]. by constructor.
Qed.

(** The constant-time map is a map: adding an entry whose key is absent
    succeeds, a search then finds that value under that key and is unchanged
    under every other key, and an absent key gives the default; adding a key
    that is already there fails the assertion. *)
Theorem dimap_insert_lookup map key val key' dflt :
  Forall entry_ok map -> NoDup (dm_key <$> map) -> key_ok key -> key_ok key' ->
  0 < val < 2 ^ 64 -> 0 <= dflt < 2 ^ 64 ->
  if decide (key ∈ dm_key <$> map) then dimap_add_entry map key val = Bug else
  exists map', dimap_add_entry map key val = Ok map' /\ Forall entry_ok map' /\ NoDup (dm_key <$> map') /\
    (forall d, 0 <= d < 2 ^ 64 -> dimap_search map key d = Ok d) /\
    dimap_search map' key' dflt = (if decide (key' = key) then Ok val else dimap_search map key' dflt).
Proof.
  intros Hm Hnd Hk Hk' Hv Hd. unfold dimap_add_entry. rewrite dimap_search_ref by (done || lia). cbn [cbind].
  destruct (decide _) as [Hin|Hout].
  - destruct (Z.eqb_spec (dimap_ref map key 0) 0) as [E|]; [|done].
    apply dimap_ref_present in E as [_ E]; [|done]. apply list_elem_of_fmap in Hin as (e & -> & He).
    rewrite Forall_forall in E. by destruct (E e (proj1 (list_elem_of_In _ _) He)).
  - assert (Habs : Forall (fun e => dm_key e <> key) map).
    { apply Forall_forall. intros e He <-. apply Hout, list_elem_of_fmap. exists e. by rewrite list_elem_of_In. }
    rewrite dimap_ref_absent by done. replace (negb (val =? 0)) with true by blia.
    pose proof Hk as [Hl Fk]. replace (32 <=? zlen key) with true by (unfold zlen; blia).
    rewrite take_ge by lia. eexists. split; [done|].
    assert (Hm' : Forall entry_ok (mkentry key val :: map)) by (constructor; [done|done]).
    split_and!; [done|by rewrite fmap_cons; constructor|..].
    + intros d Hd'. rewrite dimap_search_ref by done. by rewrite dimap_ref_absent.
    + rewrite !dimap_search_ref by done. cbn [dimap_ref dm_key dm_val].
      destruct (decide (key' = key)) as [->|Hne]; case_bool_decide; try congruence. by rewrite dimap_ref_absent.
Qed.

Lemma dimap_insert_lookup_witness :
  exists map', dimap_add_entry [mkentry (repeat 1 32) 5] (repeat 2 32) 7 = Ok map' /\
    dimap_search map' (repeat 1 32) 9 = dimap_search [mkentry (repeat 1 32) 5] (repeat 1 32) 9.
Proof.
  assert (B1 : key_ok (repeat 1 32)) by (split; [done|]; repeat constructor; unfold is_byte; lia).
  assert (B2 : key_ok (repeat 2 32)) by (split; [done|]; repeat constructor; unfold is_byte; lia).
  pose proof (dimap_insert_lookup [mkentry (repeat 1 32) 5] (repeat 2 32) 7 (repeat 1 32) 9) as H.
  destruct (decide _) as [Hin|_].
  - exfalso. apply list_elem_of_In in Hin. destruct Hin as [Hin|[]]. by vm_compute in Hin.
  - destruct H as (m & E & _ & _ & _ & Hs); auto; try lia.
    + constructor; [|done]. destruct B1. split_and!; cbn [dm_key dm_val]; auto; lia.
    + apply NoDup_singleton.
    + exists m. split; [done|]. rewrite Hs. by rewrite decide_False.
Defined.

(** ** Selection by cumulative weight *)

Definition zsum (l : list Z) : Z := foldr Z.add 0 l.

Lemma zsum_nonneg l : Forall (fun e => 0 <= e) l -> 0 <= zsum l.
Proof. unfold zsum. induction 1 as [|e l He Hl IH]; cbn [foldr]; lia. Qed.

(** After the choice nothing changes but the running total. *)
Lemma select_loop_chosen l i t ic :
  Forall (fun e => 0 <= e) l -> 0 <= t -> t + zsum l <= INT64_MAX ->
  select_loop l i (mksel t ic 1 INT64_MAX) = mksel (t + zsum l) ic 1 INT64_MAX.
Proof.
  intros H. revert i t. unfold zsum. induction H as [|e l He Hl IH]; intros i t Ht Hs; cbn [select_loop foldr] in *.
  { by rewrite Z.add_0_r. }
  pose proof (zsum_nonneg l Hl) as Hn. unfold zsum in Hn. cbn [total_so_far i_chosen n_chosen sel_rand_val].
  unfold u64. unfold INT64_MAX in *. rewrite Z.mod_small by lia. zcase; [lia|]. rewrite IH by lia. f_equal. lia.
Qed.

Lemma select_loop_spec l i t rv :
  Forall (fun e => 0 <= e) l -> 0 <= t -> t + zsum l <= INT64_MAX -> t <= rv < t + zsum l ->
  exists k e, l !! k = Some e /\ t + zsum (take k l) <= rv < t + zsum (take k l) + e /\
    select_loop l i (mksel t (-1) 0 rv) = mksel (t + zsum l) (i + Z.of_nat k) 1 INT64_MAX.
Proof.
  intros H. revert i t. unfold zsum. induction H as [|e l He Hl IH]; intros i t Ht Hs Hr; cbn [select_loop foldr] in *; [lia|].
  pose proof (zsum_nonneg l Hl) as Hn. unfold zsum in Hn.
  cbn [total_so_far i_chosen n_chosen sel_rand_val].
  unfold u64. rewrite (Z.mod_small (t + e)) by (unfold INT64_MAX in *; lia). zcase.
  - exists 0%nat, e. split_and!; try done; rewrite ?take_0; cbn [foldr]; try lia.
    change (0 + 1) with 1. rewrite select_loop_chosen by (unfold zsum; auto; lia). f_equal; unfold zsum; lia.
  - destruct (IH (i + 1) (t + e)) as (k & e' & Hk & Hb & E); try lia.
    exists (S k), e'. rewrite firstn_cons. cbn [foldr]. split_and!; try done; try lia. rewrite E. f_equal; lia.
Qed.

(** Weighted selection: when the weights add up to [total], which fits in
    a signed 64-bit integer, and [rand_val < total], the function returns the first
    index whose cumulative weight exceeds [rand_val], and none of its
    assertions fails. *)
Theorem select_array_member_correct entries total rand_val :
  Forall (fun e => 0 <= e) entries -> zsum entries = total -> total <= INT64_MAX ->
  zlen entries <= INT_MAX -> 0 <= rand_val < total ->
  exists k e, entries !! k = Some e /\
    select_array_member_cumulative_timei entries total rand_val = Ok (Z.of_nat k) /\
    zsum (take k entries) <= rand_val < zsum (take k entries) + e.
Proof.
  intros Hp Hs Ht Hl Hr. destruct (select_loop_spec entries 0 0 rand_val) as (k & e & Hk & Hb & E); auto; try lia.
  exists k, e. split_and!; auto; try lia. unfold select_array_member_cumulative_timei. rewrite E.
  cbn [total_so_far i_chosen n_chosen]. rewrite !Z.add_0_l, Hs, Z.eqb_refl. cbn [Z.eqb].
  apply lookup_lt_Some in Hk. change (1 =? 1) with true.
  replace (0 <=? Z.of_nat k) with true by blia. by replace (_ <? zlen _) with true by (unfold zlen; blia).
Qed.

Lemma select_array_member_correct_witness :
  exists k e, [5; 0; 3; 9] !! k = Some e /\
    select_array_member_cumulative_timei [5; 0; 3; 9] 17 5 = Ok (Z.of_nat k) /\
    zsum (take k [5; 0; 3; 9]) <= 5 < zsum (take k [5; 0; 3; 9]) + e.
Proof.
  apply (select_array_member_correct [5; 0; 3; 9] 17 5); try done; try (unfold INT64_MAX; lia).
  repeat constructor; lia.
Defined.

Lemma masked_byte_spec s d c : is_byte d -> is_byte c -> masked_byte s d c = if s then c else d.
Proof.
  intros Hd Hc. unfold masked_byte. destruct s.
  - change (u8 (- (1))) with 255. change (u8 (Z.lnot 255)) with 0.
    rewrite Z.land_0_r, Z.lor_0_l. change 255 with (Z.ones 8). rewrite Z.land_ones by lia. by apply Z.mod_small.
  - change (u8 (- 0)) with 0. change (u8 (Z.lnot 0)) with (Z.ones 8).
    rewrite Z.land_0_r, Z.lor_0_r, Z.land_ones by lia. by apply Z.mod_small.
Qed.

Lemma memcpy_if_true_spec s dest src n :
  (n <= length dest)%nat -> (n <= length src)%nat -> Forall is_byte dest -> Forall is_byte src ->
  memcpy_if_true_timei s dest src n = Ok (if s then take n src ++ drop n dest else dest).
Proof.
  revert dest src. induction n as [|n IH]; intros dest src Hd Hs Fd Fs; cbn [memcpy_if_true_timei].
  { rewrite take_0, drop_0. by destruct s. }
  destruct dest as [|d dest]; [cbn in Hd; lia|]. destruct src as [|c src]; [cbn in Hs; lia|].
  apply Forall_cons_iff in Fd as [Hdb Fd], Fs as [Hsb Fs]. cbn [length] in *.
  rewrite IH by (first [assumption|lia]). cbn [cbind]. rewrite masked_byte_spec by assumption.
  rewrite firstn_cons, skipn_cons. by destruct s.
Qed.
