(* ===== verification/UtilString.v ===== *)
(** * String utilities

    Models lib/string/util_string.c.  A NUL-terminated string is the list of
    the bytes before its NUL and a pointer into it is the suffix it points to.  A
    region [s .. eos) or a buffer with an explicit length is the list of its
    bytes, NULs included. *)

From S2P Require Import Prelude CString DiOps.
From Stdlib Require Import ZArith String.
From stdpp Require Import base list numbers.
Open Scope Z_scope.

(** ** The C library's comparisons *)

(** [strcmp]: the terminator compares as the byte 0. *)
Fixpoint strcmp (s1 s2 : bytes) : Z :=
  match s1, s2 with
  | [], [] => 0
  | x :: _, [] => x
  | [], y :: _ => - y
  | x :: s1, y :: s2 => if x =? y then strcmp s1 s2 else x - y
  end.

Fixpoint strncmp (s1 s2 : bytes) (n : nat) {struct n} : Z :=
  match n with
  | O => 0
  | S n =>
      match s1, s2 with
      | [], [] => 0
      | x :: _, [] => x
      | [], y :: _ => - y
      | x :: s1, y :: s2 => if x =? y then strncmp s1 s2 n else x - y
      end
  end.

Definition strcasecmp (s1 s2 : bytes) : Z := strcmp (map TOR_TOLOWER s1) (map TOR_TOLOWER s2).
Definition strncasecmp (s1 s2 : bytes) (n : nat) : Z := strncmp (map TOR_TOLOWER s1) (map TOR_TOLOWER s2) n.

(** [memchr(p, c, n)] and [strchr(p, c)]: the suffix at the first [c]. *)
Fixpoint memchr (p : bytes) (c : Z) (n : nat) : option bytes :=
  match n, p with
  | S n, x :: r => if x =? c then Some p else memchr r c n
  | _, _ => None
  end.

Definition strchr (p : bytes) (c : Z) : option bytes := memchr p c (length p).

(** ** Searching memory *)

(** The loop of [tor_memmem], [p] being the rest of the haystack. *)
Fixpoint memmem_loop (fuel : nat) (p needle : bytes) : cres (option bytes) :=
  match fuel with
  | O => Fuel
  | S fuel =>
      let nlen := length needle in
      match memchr p (hd 0 needle) (length p - nlen + 1) with
      | None => Ok None
      | Some p =>
          if bytes_eqb (take nlen p) needle then Ok (Some p)
          else
            let p := tail p in
            if (length p <? nlen)%nat then Ok None else memmem_loop fuel p needle
      end
  end.

Definition tor_memmem (haystack needle : bytes) : cres (option bytes) :=
  assert! (negb (length needle =? 0)%nat);
  if (length haystack <? length needle)%nat then Ok None
  else memmem_loop (S (length haystack)) haystack needle.

Definition tor_memstr (haystack needle : bytes) : cres (option bytes) := tor_memmem haystack needle.

(** [fast_mem_is_zero]: 32 bytes at a time. *)
Fixpoint fast_mem_is_zero_loop (fuel : nat) (mem : bytes) : cres bool :=
  match fuel with
  | O => Fuel
  | S fuel =>
      if (32 <=? length mem)%nat then
        if negb (memcmp (take 32 mem) (repeat 0 32) =? 0) then Ok false
        else fast_mem_is_zero_loop fuel (drop 32 mem)
      else if negb (length mem =? 0)%nat then Ok (memcmp mem (repeat 0 (length mem)) =? 0)
      else Ok true
  end.

Definition fast_mem_is_zero (mem : bytes) : cres bool := fast_mem_is_zero_loop (S (length mem)) mem.

Definition tor_digest_is_zero (digest : bytes) : cres Z := safe_mem_is_zero digest 20.
Definition tor_digest256_is_zero (digest : bytes) : cres Z := safe_mem_is_zero digest 32.

(** ** Rewriting strings in place *)

(** [readp] runs ahead of [s]; the characters kept are written at [s]. *)
Fixpoint tor_strstrip (readp strip : bytes) : bytes :=
  match readp with
  | [] => []
  | c :: readp =>
      if strchr strip c then tor_strstrip readp strip else c :: tor_strstrip readp strip
  end.

Fixpoint tor_strlower (s : bytes) : bytes :=
  match s with [] => [] | c :: s => TOR_TOLOWER c :: tor_strlower s end.

Fixpoint tor_strupper (s : bytes) : bytes :=
  match s with [] => [] | c :: s => TOR_TOUPPER c :: tor_strupper s end.

Fixpoint strreplace_loop (fuel : nat) (s : bytes) (find replacement : Z) : cres bytes :=
  match fuel with
  | O => Fuel
  | S fuel =>
      match strchr s find with
      | None => Ok s
      | Some p =>
          let before := take (length s - length p) s in
          let* rest := strreplace_loop fuel (tail p) find replacement in
          Ok (before ++ replacement :: rest)
      end
  end.

Definition tor_strreplacechar (s : bytes) (find replacement : Z) : cres bytes :=
  strreplace_loop (S (length s)) s find replacement.

(** ** Predicates *)

Fixpoint tor_strisprint (s : bytes) : bool :=
  match s with [] => true | c :: s => if negb (TOR_ISPRINT c) then false else tor_strisprint s end.

Fixpoint tor_strisnonupper (s : bytes) : bool :=
  match s with [] => true | c :: s => if TOR_ISUPPER c then false else tor_strisnonupper s end.

Fixpoint tor_strisspace (s : bytes) : bool :=
  match s with [] => true | c :: s => if negb (TOR_ISSPACE c) then false else tor_strisspace s end.

Definition strcmp_opt (s1 s2 : option bytes) : Z :=
  match s1 with
  | None => match s2 with None => 0 | Some _ => -1 end
  | Some s1 => match s2 with None => 1 | Some s2 => strcmp s1 s2 end
  end.

Definition strcmpstart (s1 s2 : bytes) : Z := strncmp s1 s2 (length s2).
Definition strcasecmpstart (s1 s2 : bytes) : Z := strncasecmp s1 s2 (length s2).

Definition fast_memcmpstart (mem prefix : bytes) : Z :=
  let plen := length prefix in
  if (length mem <? plen)%nat then -1 else memcmp (take plen mem) prefix.

Definition strcmpend (s1 s2 : bytes) : Z :=
  let n1 := length s1 in let n2 := length s2 in
  if (n1 <? n2)%nat then strcmp s1 s2 else strncmp (drop (n1 - n2) s1) s2 n2.

Definition strcasecmpend (s1 s2 : bytes) : Z :=
  let n1 := length s1 in let n2 := length s2 in
  if (n1 <? n2)%nat then strcasecmp s1 s2 else strncasecmp (drop (n1 - n2) s1) s2 n2.

(** ** White space and comments *)

Definition is_ws (c : Z) : bool := (c =? 32) || (c =? 9) || (c =? 10) || (c =? 13).

(** [while ( *s && *s != '\n') ++s], at a NUL-terminated string or at the end
    of a region. *)
Fixpoint skip_comment (s : bytes) : bytes :=
  match s with
  | [] => []
  | c :: r => if negb (c =? 0) && negb (c =? 10) then skip_comment r else s
  end.

Fixpoint eat_whitespace_loop (fuel : nat) (s : bytes) : cres bytes :=
  match fuel with
  | O => Fuel
  | S fuel =>
      match s with
      | [] => Ok s
      | c :: r =>
          if is_ws c then eat_whitespace_loop fuel r
          else if c =? 35 then eat_whitespace_loop fuel (skip_comment r)
          else Ok s
      end
  end.

Definition eat_whitespace (s : bytes) : cres bytes := eat_whitespace_loop (S (length s)) s.

(** The same over a region: a NUL inside it also stops the scan. *)
Definition eat_whitespace_eos (s : bytes) : cres bytes := eat_whitespace_loop (S (length s)) s.

Definition is_ws_no_nl (c : Z) : bool := (c =? 32) || (c =? 9) || (c =? 13).

Fixpoint eat_whitespace_no_nl (s : bytes) : bytes :=
  match s with
  | [] => []
  | c :: r => if is_ws_no_nl c then eat_whitespace_no_nl r else s
  end.

Definition eat_whitespace_eos_no_nl (s : bytes) : bytes := eat_whitespace_no_nl s.

Fixpoint find_whitespace (s : bytes) : bytes :=
  match s with
  | [] => []
  | c :: r => if (c =? 0) || (c =? 35) || is_ws c then s else find_whitespace r
  end.

Definition find_whitespace_eos (s : bytes) : bytes := find_whitespace s.

Fixpoint find_line_loop (fuel : nat) (haystack needle : bytes) : cres (option bytes) :=
  match fuel with
  | O => Fuel
  | S fuel =>
      if strncmp haystack needle (length needle) =? 0 then Ok (Some haystack)
      else
        match strchr haystack 10 with
        | None => Ok None
        | Some h =>
            let haystack := tail h in
            if negb (cur haystack =? 0) then find_line_loop fuel haystack needle else Ok None
        end
  end.

Definition find_str_at_start_of_line (haystack needle : bytes) : cres (option bytes) :=
  find_line_loop (S (length haystack)) haystack needle.

Fixpoint c_identifier_loop (iter : nat) (s : bytes) : bool :=
  match s with
  | [] => true
  | c :: r =>
      if (iter =? 0)%nat then
        if negb (TOR_ISALPHA c || (c =? 95)) then false else c_identifier_loop (S iter) r
      else
        if negb (TOR_ISALPHA c || TOR_ISDIGIT c || (c =? 95)) then false else c_identifier_loop (S iter) r
  end.

Definition string_is_C_identifier (s : bytes) : bool :=
  if (length s =? 0)%nat then false else c_identifier_loop 0 s.

(** ** UTF-8 *)

Module Utf8.

Definition TOP_BITS (x : Z) : Z := u8 (Z.shiftl 0xFF (8 - x)).
Definition LOW_BITS (x : Z) : Z := u8 (Z.shiftr 0xFF (8 - x)).

Definition bytes_in_char (b : Z) : Z :=
  if Z.land (TOP_BITS 1) b =? 0 then 1
  else if Z.land (TOP_BITS 3) b =? TOP_BITS 2 then 2
  else if Z.land (TOP_BITS 4) b =? TOP_BITS 3 then 3
  else if Z.land (TOP_BITS 5) b =? TOP_BITS 4 then 4
  else 0.

Definition is_continuation_byte (b : Z) : bool := Z.land b (TOP_BITS 2) =? TOP_BITS 1.

(** [codepoint <<= 6; codepoint |= (c[i] & mask)] over the continuation bytes,
    [None] for the early [return false]. *)
Fixpoint decode_continuation (cs : bytes) (codepoint : Z) : option Z :=
  match cs with
  | [] => Some codepoint
  | c :: cs =>
      if negb (is_continuation_byte c) then None
      else decode_continuation cs (Z.lor (u32 (Z.shiftl codepoint 6)) (Z.land c (LOW_BITS 6)))
  end.

Definition validate_char (c : bytes) (len : Z) : bool :=
  if len =? 1 then true
  else
    let mask := LOW_BITS (7 - len) in
    match decode_continuation (take (Z.to_nat (len - 1)) (tail c)) (Z.land (hd 0 c) mask) with
    | None => false
    | Some codepoint =>
        if (len =? 2) && (codepoint <=? 0x7f) then false
        else if (len =? 3) && (codepoint <=? 0x7ff) then false
        else if (len =? 4) && (codepoint <=? 0xffff) then false
        else if (0xd800 <=? codepoint) && (codepoint <=? 0xdfff) then false
        else codepoint <=? 0x10ffff
    end.

Fixpoint utf8_loop (fuel : nat) (str : bytes) : cres bool :=
  match fuel with
  | O => Fuel
  | S fuel =>
      match str with
      | [] => Ok true
      | b :: _ =>
          let num_bytes := bytes_in_char b in
          if num_bytes =? 0 then Ok false
          else if zlen str <? num_bytes then Ok false
          else if negb (validate_char str num_bytes) then Ok false
          else utf8_loop fuel (drop (Z.to_nat num_bytes) str)
      end
  end.

(** A [NULL] string comes with a length. *)
Definition string_is_utf8 (str : option bytes) (len : Z) : cres bool :=
  match str with
  | None => if negb (len =? 0) then Ok false else Ok true
  | Some str => assert! (len <=? zlen str); utf8_loop (S (length str)) (take (Z.to_nat len) str)
  end.

(** The bytes of [U+FEFF] and of [U+FFFE] in the source's string literals.  The
    comparison reads a NUL-terminated string. *)
Definition string_is_utf8_no_bom (str : option bytes) (len : Z) : cres bool :=
  match str with
  | Some s =>
      if (3 <=? len) && ((strcmpstart s [0xEF; 0xBB; 0xBF] =? 0) || (strcmpstart s [0xEF; 0xBF; 0xBE] =? 0))
      then Ok false else string_is_utf8 str len
  | None => string_is_utf8 str len
  end.

(** *** What UTF-8 is *)

Definition scalar (cp : Z) : Prop := 0 <= cp < 0xd800 \/ 0xe000 <= cp <= 0x10ffff.

Definition utf8_encode (cp : Z) : bytes :=
  if cp <? 0x80 then [cp]
  else if cp <? 0x800 then [0xC0 + cp / 64; 0x80 + cp mod 64]
  else if cp <? 0x10000 then [0xE0 + cp / 4096; 0x80 + (cp / 64) mod 64; 0x80 + cp mod 64]
  else [0xF0 + cp / 262144; 0x80 + (cp / 4096) mod 64; 0x80 + (cp / 64) mod 64; 0x80 + cp mod 64].

Ltac divlia := Z.to_euclidean_division_equations; lia.

Lemma bytes_in_char_spec b :
  is_byte b ->
  bytes_in_char b = if b <? 128 then 1 else if b <? 192 then 0 else if b <? 224 then 2
                    else if b <? 240 then 3 else if b <? 248 then 4 else 0.
Proof. intros Hb. apply Z.eqb_eq. revert b Hb. apply byte_forall. vm_compute. reflexivity. Qed.

Lemma is_continuation_spec b : is_byte b -> is_continuation_byte b = (128 <=? b) && (b <? 192).
Proof. intros Hb. apply eqb_prop. revert b Hb. apply byte_forall. vm_compute. reflexivity. Qed.

Lemma land_low6 c : 0 <= c -> Z.land c (LOW_BITS 6) = c mod 64.
Proof. intros. change (LOW_BITS 6) with (Z.ones 6). by rewrite Z.land_ones. Qed.

Lemma decode_continuation_cons c cs cp :
  is_byte c -> 0 <= cp < 2 ^ 26 ->
  decode_continuation (c :: cs) cp =
  if (128 <=? c) && (c <? 192) then decode_continuation cs (cp * 64 + (c - 128)) else None.
Proof.
  intros Hc Hcp. cbn [decode_continuation]. rewrite is_continuation_spec by done.
  destruct ((128 <=? c) && (c <? 192)) eqn:E; [|done]. cbn [negb]. boolp. f_equal.
  rewrite land_low6 by lia. rewrite Z.shiftl_mul_pow2 by lia. unfold u32.
  rewrite Z.mod_small by lia. rewrite lor_low; [|lia|apply Z.mod_pos_bound; lia]. change (2 ^ 6) with 64. divlia.
Qed.

Lemma lead_value b n : is_byte b -> 2 <= n <= 4 -> Z.land b (LOW_BITS (7 - n)) = b mod 2 ^ (7 - n).
Proof.
  intros Hb Hn. assert (LOW_BITS (7 - n) = Z.ones (7 - n)) as ->.
  { assert (n = 2 \/ n = 3 \/ n = 4) as [-> | [-> | ->]] by lia; done. }
  apply Z.land_ones. lia.
Qed.

(** The least code point whose encoding has [n] bytes. *)
Definition least (n : Z) : Z := if n =? 2 then 0x80 else if n =? 3 then 0x800 else 0x10000.

Lemma validate_char_spec b r n :
  is_byte b -> n = 2 \/ n = 3 \/ n = 4 ->
  validate_char (b :: r) n = true <->
  exists cp, decode_continuation (take (Z.to_nat (n - 1)) r) (b mod 2 ^ (7 - n)) = Some cp /\
    least n <= cp /\ (cp < 0xd800 \/ 0xe000 <= cp <= 0x10ffff).
Proof.
  intros Hb Hn. unfold validate_char. replace (n =? 1) with false by blia. cbn [hd tail].
  rewrite lead_value by (done || lia). destruct (decode_continuation _ _) as [cp|]; [|naive_solver].
  transitivity (least n <= cp /\ (cp < 0xd800 \/ 0xe000 <= cp <= 0x10ffff)); [|naive_solver].
  destruct Hn as [-> | [-> | ->]]; unfold least; cbn [Z.eqb Pos.eqb andb];
    repeat zcase; try (split; intros; [done|lia]);
    destruct (55296 <=? cp) eqn:E1, (cp <=? 57343) eqn:E2; cbn [andb]; boolp;
    rewrite ?Z.leb_le; split; intros; try done; lia.
Qed.

Lemma decode_nil cp : decode_continuation [] cp = Some cp.
Proof. done. Qed.

Ltac dcont := rewrite decode_continuation_cons by (assumption || divlia).

Ltac destruct_bytes :=
  repeat match goal with
  | H : Forall is_byte (_ :: _) |- _ => apply Forall_cons_iff in H; destruct H
  end.

Ltac enc := unfold utf8_encode; repeat zcase; unfold is_byte in *; first [exfalso; divlia | repeat f_equal; divlia].

Lemma accept_2 b c1 r :
  Forall is_byte (b :: c1 :: r) -> 192 <= b < 224 ->
  validate_char (b :: c1 :: r) 2 = true -> exists cp, scalar cp /\ utf8_encode cp = [b; c1].
Proof.
  intros F Hb Hv. destruct_bytes. rewrite validate_char_spec in Hv by auto.
  destruct Hv as (cp & Hd & Hl & Hs). change (Z.to_nat (2 - 1)) with 1%nat in Hd. change (2 ^ (7 - 2)) with 32 in Hd.
  rewrite firstn_cons, take_0 in Hd. revert Hd. dcont. case_match eqn:E1; [|done]. boolp.
  rewrite decode_nil. injection 1 as Hcp. change (least 2) with 0x80 in Hl.
  exists cp. split; [unfold scalar; divlia|enc].
Qed.

Lemma accept_3 b c1 c2 r :
  Forall is_byte (b :: c1 :: c2 :: r) -> 224 <= b < 240 ->
  validate_char (b :: c1 :: c2 :: r) 3 = true -> exists cp, scalar cp /\ utf8_encode cp = [b; c1; c2].
Proof.
  intros F Hb Hv. destruct_bytes. rewrite validate_char_spec in Hv by auto.
  destruct Hv as (cp & Hd & Hl & Hs). change (Z.to_nat (3 - 1)) with 2%nat in Hd. change (2 ^ (7 - 3)) with 16 in Hd.
  rewrite !firstn_cons, take_0 in Hd. revert Hd. dcont. case_match eqn:E1; [|done]. boolp.
  dcont. case_match eqn:E2; [|done]. boolp.
  rewrite decode_nil. injection 1 as Hcp. change (least 3) with 0x800 in Hl.
  exists cp. split; [unfold scalar; divlia|enc].
Qed.

Lemma accept_4 b c1 c2 c3 r :
  Forall is_byte (b :: c1 :: c2 :: c3 :: r) -> 240 <= b < 248 ->
  validate_char (b :: c1 :: c2 :: c3 :: r) 4 = true -> exists cp, scalar cp /\ utf8_encode cp = [b; c1; c2; c3].
Proof.
  intros F Hb Hv. destruct_bytes. rewrite validate_char_spec in Hv by auto.
  destruct Hv as (cp & Hd & Hl & Hs). change (Z.to_nat (4 - 1)) with 3%nat in Hd. change (2 ^ (7 - 4)) with 8 in Hd.
  rewrite !firstn_cons, take_0 in Hd. revert Hd. dcont. case_match eqn:E1; [|done]. boolp.
  dcont. case_match eqn:E2; [|done]. boolp. dcont. case_match eqn:E3; [|done]. boolp.
  rewrite decode_nil. injection 1 as Hcp. change (least 4) with 0x10000 in Hl.
  exists cp. split; [unfold scalar; divlia|enc].
Qed.

Lemma encode_bytes cp : scalar cp -> Forall is_byte (utf8_encode cp).
Proof.
  intros H. unfold scalar in H. unfold utf8_encode.
  repeat zcase; rewrite ?Forall_cons_iff; unfold is_byte; split_and!; try apply List.Forall_nil; divlia.
Qed.

Lemma encode_len cp : scalar cp -> bytes_in_char (hd 0 (utf8_encode cp)) = zlen (utf8_encode cp).
Proof.
  intros H. assert (Hb : is_byte (hd 0 (utf8_encode cp))).
  { pose proof (encode_bytes cp H) as F. destruct (utf8_encode cp); cbn [hd]; [unfold is_byte; lia|by apply Forall_inv in F]. }
  rewrite bytes_in_char_spec by done. unfold scalar in H. clear Hb. unfold utf8_encode.
  destruct (Z.ltb_spec cp 0x80); [|destruct (Z.ltb_spec cp 0x800); [|destruct (Z.ltb_spec cp 0x10000)]];
    cbn [hd]; repeat zcase; unfold zlen; cbn [length]; try done; exfalso; divlia.
Qed.

Ltac dcont_true :=
  rewrite decode_continuation_cons by (unfold is_byte; divlia);
  match goal with |- context [if ?b then _ else _] => replace b with true by (symmetry; apply andb_true_iff; rewrite Z.leb_le, Z.ltb_lt; divlia) end.

Lemma encode_valid cp r : scalar cp -> validate_char (utf8_encode cp ++ r) (zlen (utf8_encode cp)) = true.
Proof.
  intros H. unfold scalar in H. unfold utf8_encode. repeat zcase; unfold zlen; cbn [length app]; [done|..].
  - change (Z.of_nat 2) with 2. apply validate_char_spec; [unfold is_byte; divlia|auto|].
    exists cp. change (Z.to_nat (2 - 1)) with 1%nat. change (2 ^ (7 - 2)) with 32. change (least 2) with 0x80.
    rewrite firstn_cons, take_0. dcont_true. rewrite decode_nil. split_and!; [f_equal; divlia|lia|lia].
  - change (Z.of_nat 3) with 3. apply validate_char_spec; [unfold is_byte; divlia|auto|].
    exists cp. change (Z.to_nat (3 - 1)) with 2%nat. change (2 ^ (7 - 3)) with 16. change (least 3) with 0x800.
    rewrite !firstn_cons, take_0. do 2 dcont_true. rewrite decode_nil. split_and!; [f_equal; divlia|lia|lia].
  - change (Z.of_nat 4) with 4. apply validate_char_spec; [unfold is_byte; divlia|auto|].
    exists cp. change (Z.to_nat (4 - 1)) with 3%nat. change (2 ^ (7 - 4)) with 8. change (least 4) with 0x10000.
    rewrite !firstn_cons, take_0. do 3 dcont_true. rewrite decode_nil. split_and!; [f_equal; divlia|lia|lia].
Qed.

(** The first character of a string is accepted only if it is the encoding of
    a scalar value. *)
Lemma accept_char b r n :
  Forall is_byte (b :: r) -> n = bytes_in_char b -> n <> 0 -> n <= zlen (b :: r) ->
  validate_char (b :: r) n = true ->
  exists cp r', scalar cp /\ b :: r = utf8_encode cp ++ r' /\ n = zlen (utf8_encode cp).
Proof.
  intros F Hn Hn0 Hl Hv. pose proof (Forall_inv F) as Hb. rewrite bytes_in_char_spec in Hn by done.
  rewrite zlen_cons in Hl. revert Hn. zcase; [|zcase; [lia|zcase; [|zcase; [|zcase; [|lia]]]]]; intros ->.
  - exists b, r. assert (utf8_encode b = [b]) as ->; [|unfold scalar, is_byte in *; split_and!; auto; lia].
    unfold utf8_encode. by replace (b <? 128) with true by blia.
  - destruct r as [|c1 r]; [by cbn in Hl|].
    destruct (accept_2 b c1 r F) as (cp & Hs & E); [lia|done|]. exists cp, r. by rewrite E.
  - destruct r as [|c1 [|c2 r]]; [by cbn in Hl..|].
    destruct (accept_3 b c1 c2 r F) as (cp & Hs & E); [lia|done|]. exists cp, r. by rewrite E.
  - destruct r as [|c1 [|c2 [|c3 r]]]; [by cbn in Hl..|].
    destruct (accept_4 b c1 c2 c3 r F) as (cp & Hs & E); [unfold is_byte in *; lia|done|]. exists cp, r. by rewrite E.
Qed.

Lemma encode_nonempty cp : exists b r, utf8_encode cp = b :: r.
Proof. unfold utf8_encode. repeat zcase; eauto. Qed.

(** A string is well-formed UTF-8. *)
Definition utf8 (s : bytes) : Prop := exists cps, Forall scalar cps /\ s = concat (map utf8_encode cps).

Lemma utf8_loop_spec fuel s :
  (length s < fuel)%nat -> Forall is_byte s -> exists b, utf8_loop fuel s = Ok b /\ (b = true <-> utf8 s).
Proof.
  revert s. induction fuel as [|n IH]; intros s Hf F; [lia|]. cbn [utf8_loop].
  destruct s as [|c s]; [exists true; split; [done|]; split; [by exists []|done]|].
  assert (Hdec : forall cps, Forall scalar cps -> c :: s = concat (map utf8_encode cps) ->
    exists cp r, scalar cp /\ c :: s = utf8_encode cp ++ r /\ utf8 r /\ bytes_in_char c = zlen (utf8_encode cp)).
  { intros cps Hc E. destruct cps as [|cp cps]; [done|]. apply Forall_cons_iff in Hc as [Hcp Hc].
    exists cp, (concat (map utf8_encode cps)). split_and!; [done|done|by exists cps|].
    rewrite <- (encode_len cp Hcp). destruct (encode_nonempty cp) as (b & r & Eb).
    cbn [map concat] in E. rewrite Eb in *. by injection E as -> _. }
  set (k := bytes_in_char c) in *. destruct (Z.eqb_spec k 0) as [Hk|Hk].
  { exists false. split; [done|]. split; [done|]. intros (cps & Hc & E).
    destruct (Hdec cps Hc E) as (cp & r & _ & _ & _ & Hlen). destruct (encode_nonempty cp) as (b & r' & Eb).
    rewrite Eb, zlen_cons in Hlen. pose proof (zlen_nonneg r'). lia. }
  destruct (Z.ltb_spec (zlen (c :: s)) k) as [Hl|Hl].
  { exists false. split; [done|]. split; [done|]. intros (cps & Hc & E).
    destruct (Hdec cps Hc E) as (cp & r & _ & E' & _ & Hlen). rewrite E', zlen_app in Hl.
    pose proof (zlen_nonneg r). lia. }
  destruct (validate_char (c :: s) k) eqn:Hv; cbn [negb].
  - destruct (accept_char c s k F eq_refl Hk Hl Hv) as (cp & r & Hcp & E & Hlen).
    rewrite E, drop_zapp by done. assert (Fr : Forall is_byte r) by (rewrite E in F; by apply Forall_app in F as [_ F]).
    assert (Hr : (length r < n)%nat).
    { destruct (encode_nonempty cp) as (b & r' & Eb). rewrite Eb in E. apply (f_equal length) in E.
      cbn [length app] in E, Hf. rewrite length_app in E. lia. }
    destruct (IH r Hr Fr) as (b & -> & Hiff). exists b. split; [done|]. rewrite Hiff. split.
    + intros (cps & Hc & ->). exists (cp :: cps). split; [by constructor|done].
    + intros (cps & Hc & E2). destruct (Hdec cps Hc) as (cp2 & r2 & Hcp2 & E3 & Hu & Hlen2); [congruence|].
      rewrite E in E3. apply app_inj_1 in E3 as [_ ->]; [done|]. unfold zlen in *. lia.
  - exists false. split; [done|]. split; [done|]. intros (cps & Hc & E).
    destruct (Hdec cps Hc E) as (cp & r & Hcp & E' & _ & Hlen). rewrite E', Hlen in Hv.
    rewrite encode_valid in Hv by done. done.
Qed.

(** C40. [string_is_utf8] accepts exactly the well-formed UTF-8 strings: the
    concatenations of encodings of Unicode scalar values, with no overlong form,
    no surrogate and nothing above U+10FFFF; it never reads outside the string. *)
Theorem string_is_utf8_correct s :
  Forall is_byte s ->
  exists b, string_is_utf8 (Some s) (zlen s) = Ok b /\ (b = true <-> utf8 s).
Proof.
  intros F. unfold string_is_utf8. rewrite Z.leb_refl. unfold zlen at 1. rewrite Nat2Z.id, take_ge by lia.
  apply utf8_loop_spec; [lia|done].
Qed.

Lemma string_is_utf8_correct_witness :
  exists b, string_is_utf8 (Some [0x41; 0xC3; 0xA9; 0xE2; 0x82; 0xAC]) 6 = Ok b /\
    (b = true <-> utf8 [0x41; 0xC3; 0xA9; 0xE2; 0x82; 0xAC]).
Proof.
  apply (string_is_utf8_correct [0x41; 0xC3; 0xA9; 0xE2; 0x82; 0xAC]). repeat constructor; unfold is_byte; lia.
Defined.

End Utf8.

(** ** Searching: proofs *)

Lemma memchr_Some p c n q :
  memchr p c n = Some q -> exists pre r, p = pre ++ q /\ q = c :: r /\ c ∉ pre.
Proof.
  revert p. induction n as [|n IH]; intros p; destruct p as [|x p]; cbn [memchr]; try done.
  zcase; subst.
  - intros [= <-]. exists [], p. split_and!; [done|done|apply not_elem_of_nil].
  - intros (pre & r & -> & -> & Hc)%IH. exists (x :: pre), r. split_and!; [done|done|].
    apply not_elem_of_cons. auto.
Qed.

Lemma memchr_None p c n : memchr p c n = None -> c ∉ take n p.
Proof.
  revert p. induction n as [|n IH]; intros p; [intros _; apply not_elem_of_nil|].
  destruct p as [|x p]; cbn [memchr]; [intros _; apply not_elem_of_nil|].
  zcase; [done|]. intros H%IH. rewrite firstn_cons. apply not_elem_of_cons. auto.
Qed.

(** The suffix at the first occurrence of [needle]. *)
Definition first_occurrence (h needle : bytes) : option bytes := option_map snd (strstr h needle).

Lemma strstr_short h n : (length h < length n)%nat -> strstr h n = None.
Proof.
  induction h as [|x h IH]; intros Hl; destruct n as [|y n]; cbn [length] in Hl; try lia; [done|].
  cbn [strstr]. destruct (prefix_of (y :: n) (x :: h)) eqn:E.
  - apply prefix_of_spec in E as [r E]. apply (f_equal length) in E. cbn [app length] in E. rewrite length_app in E. lia.
  - rewrite IH by (cbn [length]; lia). done.
Qed.

Lemma first_occurrence_skip pre q c n :
  c ∉ pre -> first_occurrence (pre ++ q) (c :: n) = first_occurrence q (c :: n).
Proof.
  unfold first_occurrence. induction pre as [|x pre IH]; [done|].
  intros [Hx Hc]%not_elem_of_cons. cbn [app strstr prefix_of]. replace (c =? x) with false by blia. cbn [andb].
  rewrite <- IH by done. by destruct (strstr (pre ++ q) (c :: n)) as [[a b]|].
Qed.

Lemma prefix_of_take n h : prefix_of n h = bytes_eqb (take (length n) h) n.
Proof.
  apply eq_iff_eq_true. rewrite prefix_of_spec, bytes_eqb_eq. split.
  - intros [r ->]. apply take_app_length.
  - intros E. exists (drop (length n) h). rewrite <- E at 1. symmetry. apply take_drop.
Qed.

Lemma memmem_loop_spec fuel p c n :
  (length p < fuel)%nat -> (length (c :: n) <= length p)%nat ->
  memmem_loop fuel p (c :: n) = Ok (first_occurrence p (c :: n)).
Proof.
  revert p. induction fuel as [|f IH]; intros p Hf Hl; [lia|]. cbn [memmem_loop hd].
  destruct (memchr p c (length p - length (c :: n) + 1)) as [q|] eqn:E.
  - apply memchr_Some in E as (pre & r & -> & -> & Hc). rewrite first_occurrence_skip by done.
    rewrite <- prefix_of_take. unfold first_occurrence. cbn [strstr tail].
    destruct (prefix_of (c :: n) (c :: r)) eqn:Ep; [done|].
    assert (Hn : option_map snd (match strstr r (c :: n) with Some (a, b) => Some (c :: a, b) | None => None end) =
                 first_occurrence r (c :: n)) by (unfold first_occurrence; by destruct (strstr r (c :: n)) as [[a b]|]).
    rewrite Hn. destruct (Nat.ltb_spec (length r) (length (c :: n))) as [Hs|Hs].
    + unfold first_occurrence. by rewrite strstr_short.
    + rewrite length_app in Hf. cbn [length] in Hf, Hs |- *. apply IH; cbn [length]; lia.
  - apply memchr_None in E. rewrite <- (take_drop (length p - length (c :: n) + 1) p) at 1.
    rewrite first_occurrence_skip by done. unfold first_occurrence.
    rewrite strstr_short; [done|]. rewrite length_drop. cbn [length] in *. lia.
Qed.

Lemma tor_memmem_first h needle : needle <> [] -> tor_memmem h needle = Ok (first_occurrence h needle).
Proof.
  intros Hn. unfold tor_memmem. destruct needle as [|c n]; [done|]. cbn [length Nat.eqb negb].
  destruct (Nat.ltb_spec (length h) (S (length n))).
  - unfold first_occurrence. by rewrite strstr_short.
  - apply memmem_loop_spec; cbn [length]; lia.
Qed.

Lemma strstr_Some h n a b :
  strstr h n = Some (a, b) ->
  h = a ++ b /\ prefix_of n b = true /\ (forall a' b', h = a' ++ b' -> prefix_of n b' = true -> (length a <= length a')%nat).
Proof.
  revert a b. induction h as [|x h IH]; intros a b; cbn [strstr].
  - destruct (prefix_of n []) eqn:E; [|done]. intros [= <- <-]. split_and!; [done|done|cbn [length]; lia].
  - destruct (prefix_of n (x :: h)) eqn:E.
    + intros [= <- <-]. split_and!; [done|done|cbn [length]; lia].
    + destruct (strstr h n) as [[a1 b1]|] eqn:Es; [|done]. intros [= <- <-].
      destruct (IH a1 b1 eq_refl) as (-> & Hp & Hmin). split_and!; [done|done|].
      intros a' b' Heq Hp'. destruct a' as [|y a']; [cbn [app] in Heq; subst; congruence|].
      injection Heq as _ Heq. cbn [length]. specialize (Hmin a' b' Heq Hp'). lia.
Qed.

Lemma strstr_None h n a b : strstr h n = None -> h = a ++ b -> prefix_of n b = false.
Proof.
  revert a. induction h as [|x h IH]; intros a; cbn [strstr].
  - destruct (prefix_of n []) eqn:E; [done|]. intros _ Heq. destruct a; [|done]. destruct b; [done|done].
  - destruct (prefix_of n (x :: h)) eqn:E; [done|]. destruct (strstr h n) as [[a1 b1]|] eqn:Es; [done|].
    intros _ Heq. destruct a as [|y a]; [cbn [app] in Heq; by subst|]. injection Heq as _ Heq. eauto.
Qed.

(** [tor_memmem] returns the first occurrence of the needle: a suffix of
    the haystack that starts with the needle, and no earlier suffix does; it
    returns NULL exactly when the needle does not occur. *)
Theorem tor_memmem_correct h needle :
  needle <> [] ->
  match tor_memmem h needle with
  | Ok (Some q) => exists pre, h = pre ++ q /\ prefix_of needle q = true /\
      (forall pre' q', h = pre' ++ q' -> prefix_of needle q' = true -> (length pre <= length pre')%nat)
  | Ok None => forall pre q, h = pre ++ q -> prefix_of needle q = false
  | _ => False
  end.
Proof.
  intros Hn. rewrite tor_memmem_first by done. unfold first_occurrence.
  destruct (strstr h needle) as [[a b]|] eqn:E; cbn [option_map snd].
  - exists a. by apply strstr_Some.
  - intros pre q. by apply strstr_None.
Qed.

Lemma tor_memmem_correct_witness :
  [4; 5] <> [] /\ tor_memmem [4; 4; 5; 4; 5] [4; 5] = Ok (Some [4; 5; 4; 5]) /\
  match tor_memmem [4; 4; 5; 4; 5] [4; 5] with
  | Ok (Some q) => exists pre, [4; 4; 5; 4; 5] = pre ++ q /\ prefix_of [4; 5] q = true /\
      (forall pre' q', [4; 4; 5; 4; 5] = pre' ++ q' -> prefix_of [4; 5] q' = true -> (length pre <= length pre')%nat)
  | Ok None => forall pre q, [4; 4; 5; 4; 5] = pre ++ q -> prefix_of [4; 5] q = false
  | _ => False
  end.
Proof. split_and!; [done|reflexivity|]. apply (tor_memmem_correct [4; 4; 5; 4; 5] [4; 5]). done. Defined.

(** ** Prefixes and suffixes *)

Lemma strncmp_prefix s n : no_nul n -> (strncmp s n (length n) =? 0) = prefix_of n s.
Proof.
  intros Hn. revert s. induction Hn as [|y n Hy Hn IH]; intros s; cbn [strncmp length prefix_of]; [done|].
  destruct s as [|x s]; [blia|]. rewrite <- IH, (Z.eqb_sym y x). zcase; [done|]. cbn [andb]. blia.
Qed.

Lemma strcmpstart_prefix s1 s2 : no_nul s2 -> (strcmpstart s1 s2 =? 0) = prefix_of s2 s1.
Proof. apply strncmp_prefix. Qed.

Lemma strcmp_eq s1 s2 : no_nul s1 -> no_nul s2 -> strcmp s1 s2 = 0 <-> s1 = s2.
Proof.
  intros H1. revert s2. induction H1 as [|x s1 Hx H1 IH]; intros [|y s2] H2; cbn [strcmp]; [done|..].
  - apply Forall_inv in H2. split; [lia|done].
  - split; [lia|done].
  - apply Forall_cons_iff in H2 as [Hy H2]. zcase; [subst; rewrite IH by done; naive_solver|]. split; [lia|naive_solver].
Qed.

Lemma no_nul_app a b : no_nul (a ++ b) <-> no_nul a /\ no_nul b.
Proof. apply Forall_app. Qed.

Lemma strcmpend_suffix s1 s2 : no_nul s1 -> no_nul s2 -> strcmpend s1 s2 = 0 <-> exists r, s1 = r ++ s2.
Proof.
  intros H1 H2. unfold strcmpend. destruct (Nat.ltb_spec (length s1) (length s2)) as [Hl|Hl].
  - rewrite strcmp_eq by done. split; [intros ->; by exists []|]. intros [r ->]. rewrite length_app in Hl. lia.
  - rewrite <- Z.eqb_eq, strncmp_prefix, prefix_of_spec by done. split.
    + intros [r E]. exists (take (length s1 - length s2) s1).
      assert (r = []) as ->.
      { apply (f_equal length) in E. rewrite length_drop, length_app in E. destruct r; [done|cbn [length] in E; lia]. }
      rewrite app_nil_r in E. rewrite <- E at 2. symmetry. apply take_drop.
    + intros [r ->]. exists []. rewrite length_app, app_nil_r.
      replace (length r + length s2 - length s2)%nat with (length r) by lia. apply drop_app_length.
Qed.

(** ** Lines *)

Definition line_start (pre : bytes) : Prop := pre = [] \/ exists p, pre = p ++ [10].

Lemma line_start_skip a r pre q :
  10 ∉ a -> a ++ 10 :: r = pre ++ q -> line_start pre -> pre <> [] ->
  exists p, pre = a ++ 10 :: p /\ r = p ++ q /\ line_start p.
Proof.
  intros Ha E [->|[p ->]] Hne; [done|]. rewrite <- app_assoc in E. cbn [app] in E. clear Hne. revert p E.
  induction a as [|x a IH]; intros p E; cbn [app] in *.
  - destruct p as [|y p].
    + injection E as ->. exists []. split_and!; [done|done|by left].
    + injection E as <- ->. exists (p ++ [10]). rewrite <- app_assoc. split_and!; [done|done|right; by exists p].
  - apply not_elem_of_cons in Ha as [Hx Ha]. destruct p as [|y p]; [injection E as E0 _; by rewrite E0 in Hx|injection E as <- E].
    destruct (IH Ha p E) as (p' & E' & Hr & Hl). exists p'. split_and!; [|done|done]. cbn [app]. by rewrite E'.
Qed.

(** What the search must return: the suffix at the first line that starts with
    the needle. *)
Definition first_line_with (h needle : bytes) (o : option bytes) : Prop :=
  match o with
  | Some q => exists pre, h = pre ++ q /\ line_start pre /\ prefix_of needle q = true /\
      (forall pre' q', h = pre' ++ q' -> line_start pre' -> prefix_of needle q' = true -> (length pre <= length pre')%nat)
  | None => forall pre q, h = pre ++ q -> line_start pre -> prefix_of needle q = false
  end.

Lemma first_line_skip a r needle o :
  10 ∉ a -> prefix_of needle (a ++ 10 :: r) = false ->
  first_line_with r needle o -> first_line_with (a ++ 10 :: r) needle o.
Proof.
  intros Ha Hp. destruct o as [q|]; cbn [first_line_with].
  - intros (pre & -> & Hl & Hq & Hmin). exists (a ++ 10 :: pre). split_and!; [lassoc| |done|].
    + right. destruct Hl as [->|[p ->]]; [by exists a|]. exists (a ++ 10 :: p). lassoc.
    + intros pre' q' E Hl' Hq'. destruct (decide (pre' = [])) as [->|Hne]; [cbn [app] in E; subst; congruence|].
      destruct (line_start_skip a (pre ++ q) pre' q' Ha E Hl' Hne) as (p & -> & E' & Hlp).
      specialize (Hmin p q' E' Hlp Hq'). rewrite !length_app. cbn [length]. lia.
  - intros H pre q E Hl. destruct (decide (pre = [])) as [->|Hne]; [cbn [app] in E; by subst|].
    destruct (line_start_skip a r pre q Ha E Hl Hne) as (p & _ & E' & Hlp). eauto.
Qed.

Lemma find_line_loop_spec fuel h needle :
  (length h < fuel)%nat -> no_nul h -> no_nul needle -> needle <> [] ->
  exists o, find_line_loop fuel h needle = Ok o /\ first_line_with h needle o.
Proof.
  intros Hf Hh Hn Hne. revert h Hf Hh. induction fuel as [|f IH]; intros h Hf Hh; [lia|]. cbn [find_line_loop].
  rewrite strncmp_prefix by done. destruct (prefix_of needle h) eqn:Hp.
  { exists (Some h). split; [done|]. exists []. split_and!; [done|by left|done|cbn [length]; lia]. }
  unfold strchr. destruct (memchr h 10 (length h)) as [q|] eqn:E.
  - apply memchr_Some in E as (a & r & -> & -> & Ha). cbn [tail].
    apply no_nul_app in Hh as [_ Hr]. apply Forall_cons_iff in Hr as [_ Hr].
    destruct r as [|x r]; cbn [cur hd].
    + exists None. split; [done|]. apply (first_line_skip a [] needle None Ha Hp).
      intros pre q Eq _. destruct pre; [|done]. cbn [app] in Eq. subst q. by destruct needle.
    + pose proof (proj1 (Forall_cons_iff _ _ _) Hr) as [Hx _]. replace (negb (x =? 0)) with true by blia.
      destruct (IH (x :: r)) as (o & -> & Ho); [rewrite length_app in Hf; cbn [length] in *; lia|done|].
      exists o. split; [done|]. by apply first_line_skip.
  - apply memchr_None in E. rewrite take_ge in E by lia. exists None. split; [done|].
    intros pre q -> [->|[p ->]]; [done|]. exfalso. apply E. apply elem_of_app. left. apply elem_of_app. right.
    by apply list_elem_of_singleton.
Qed.

(** [find_str_at_start_of_line] returns the first place where the needle
    stands at the beginning of the string or right after a newline, and NULL exactly when
    there is none. *)
Theorem find_str_at_start_of_line_correct h needle :
  no_nul h -> no_nul needle -> needle <> [] ->
  exists o, find_str_at_start_of_line h needle = Ok o /\ first_line_with h needle o.
Proof. intros. apply find_line_loop_spec; auto; lia. Qed.

Lemma find_str_at_start_of_line_correct_witness :
  exists o, find_str_at_start_of_line [97; 98; 10; 98; 99] [98] = Ok o /\ first_line_with [97; 98; 10; 98; 99] [98] o.
Proof. apply (find_str_at_start_of_line_correct [97; 98; 10; 98; 99] [98]); forall_tac. Defined.

(** ** White space *)

Lemma skip_comment_le s : (length (skip_comment s) <= length s)%nat.
Proof. induction s as [|c s IH]; cbn [skip_comment length]; [lia|]. destruct (_ && _); cbn [length]; lia. Qed.

(** [eat_whitespace] stops at the end, or at a byte that is neither white
    space nor the start of a comment. *)
Lemma eat_whitespace_spec s :
  exists pre r, s = pre ++ r /\ eat_whitespace s = Ok r /\
    match r with [] => True | c :: _ => is_ws c = false /\ c <> 35 end.
Proof.
  unfold eat_whitespace. generalize (Nat.lt_succ_diag_r (length s)). generalize (S (length s)) as fuel.
  intros fuel. revert s. induction fuel as [|f IH]; intros s Hf; [lia|]. cbn [eat_whitespace_loop].
  destruct s as [|c s]; [by exists [], []|]. cbn [length] in Hf. destruct (is_ws c) eqn:Ew.
  - destruct (IH s) as (pre & r & -> & -> & Hr); [lia|]. by exists (c :: pre), r.
  - zcase; [|exists [], (c :: s); done].
    pose proof (skip_comment_le s). destruct (IH (skip_comment s)) as (pre & r & E & -> & Hr); [lia|].
    assert (exists a, s = a ++ skip_comment s) as [a Ea].
    { clear. induction s as [|c s [a IH]]; cbn [skip_comment]; [by exists []|].
      destruct (_ && _); [exists (c :: a); cbn [app]; by f_equal|by exists []]. }
    exists (c :: a ++ pre), r. rewrite Ea at 1. rewrite E. split_and!; [lassoc|done|done].
Qed.

Lemma tor_strstrip_filter s strip : tor_strstrip s strip = base.filter (fun c => c ∉ strip) s.
Proof.
  induction s as [|c s IH]; cbn [tor_strstrip]; [done|]. unfold strchr.
  destruct (memchr strip c (length strip)) eqn:E.
  - apply memchr_Some in E as (pre & r & -> & -> & _). rewrite filter_cons_False; [done|].
    intros H. apply H. apply elem_of_app. right. apply list_elem_of_here.
  - apply memchr_None in E. rewrite take_ge in E by lia. rewrite filter_cons_True by done. by f_equal.
Qed.

(** ** [strcmp] is a total order on C strings *)

Definition cstr (s : bytes) : Prop := Forall (fun c => 0 < c) s.

Lemma cstr_no_nul s : cstr s -> no_nul s.
Proof. intros H. apply (Forall_weaken _ _ _ H). intros c Hc. lia. Qed.

Lemma strcmp_anti a b : strcmp b a = - strcmp a b.
Proof.
  revert b. induction a as [|x a IH]; intros [|y b]; cbn [strcmp]; try lia.
  rewrite (Z.eqb_sym y x). destruct (Z.eqb_spec x y) as [->|]; [apply IH|lia].
Qed.

Lemma strcmp_trans a b c : cstr a -> cstr b -> cstr c -> strcmp a b < 0 -> strcmp b c < 0 -> strcmp a c < 0.
Proof.
  intros Ha. revert b c. induction Ha as [|x a Hx Ha IH]; intros b c Hb Hc H1 H2.
  - destruct c as [|z c]; [|apply Forall_inv in Hc; cbn [strcmp]; lia].
    destruct b as [|y b]; [done|]. apply Forall_inv in Hb. cbn [strcmp] in H2. lia.
  - destruct b as [|y b]; [cbn [strcmp] in H1; lia|]. destruct c as [|z c].
    { apply Forall_inv in Hb. cbn [strcmp] in H2. lia. }
    apply Forall_cons_iff in Hb as [Hy Hb]. apply Forall_cons_iff in Hc as [Hz Hc]. cbn [strcmp] in *.
    destruct (Z.eqb_spec x y), (Z.eqb_spec y z), (Z.eqb_spec x z); subst; try lia; try done.
    by apply (IH b).
Qed.

Lemma strcmp_refl s : strcmp s s = 0.
Proof. induction s as [|c s IH]; cbn [strcmp]; [done|]. by rewrite Z.eqb_refl. Qed.
