(* ===== verification/Smartlist.v ===== *)
(** * Smartlists

    Models lib/smartlist_core/smartlist_core.c (the resizable array),
    lib/smartlist_core/smartlist_split.c and the list functions of
    lib/container/smartlist.c.

    A [smartlist_t] is the record of its array of [capacity] pointers, of
    which the first [num_used] are the elements; a pointer is an [option], its
    [None] being NULL, and pointers are compared with [==].  [repr sl l] says
    that [sl] is well formed and holds the list [l]; every operation is shown
    to implement an operation on lists. *)

From S2P Require Import Prelude CString.
From Stdlib Require Import ZArith String.
From stdpp Require Import base list numbers sets.
Open Scope Z_scope.

Record smartlist_t (A : Type) := mksl {
  sl_list : list (option A);
  num_used : Z;
  capacity : Z
}.
Arguments mksl {A} _ _ _.
Arguments sl_list {A} _.
Arguments num_used {A} _.
Arguments capacity {A} _.

Definition SMARTLIST_DEFAULT_CAPACITY : Z := 16.
Definition MAX_CAPACITY : Z := INT_MAX.

Section Ops.
Context {A : Type} `{EqDecision A}.
Implicit Types (sl : smartlist_t A) (element : option A).

Definition smartlist_new : smartlist_t A :=
  mksl (repeat None (Z.to_nat SMARTLIST_DEFAULT_CAPACITY)) 0 SMARTLIST_DEFAULT_CAPACITY.

(** [memset] of [n] pointers of the array to NULL, from index [off]. *)
Definition memset_null (l : list (option A)) (off n : Z) : cres (list (option A)) :=
  assert! ((0 <=? off) && (0 <=? n) && (off + n <=? zlen l));
  Ok (take (Z.to_nat off) l ++ repeat None (Z.to_nat n) ++ drop (Z.to_nat (off + n)) l).

Definition smartlist_clear sl : cres (smartlist_t A) :=
  let* l := memset_null (sl_list sl) 0 (num_used sl) in
  Ok (mksl l 0 (capacity sl)).

(** [while (size > higher) higher *= 2;] with [size <= INT_MAX/2] and a
    positive [higher], fewer than 32 rounds. *)
Fixpoint double_until (fuel : nat) (size higher : Z) : cres Z :=
  match fuel with
  | O => Fuel
  | S n => if higher <? size then double_until n size (higher * 2) else Ok higher
  end.

Definition smartlist_ensure_capacity sl (size : Z) : cres (smartlist_t A) :=
  assert! (size <=? MAX_CAPACITY);
  if capacity sl <? size then
    let* higher := (if MAX_CAPACITY / 2 <? size then Ok MAX_CAPACITY
                    else double_until 32 size (capacity sl)) in
    let l := sl_list sl ++ repeat None (Z.to_nat (higher - capacity sl)) in
    Ok (mksl l (num_used sl) higher)
  else Ok sl.

Definition smartlist_grow sl (new_size : Z) : cres (smartlist_t A) :=
  let* sl := smartlist_ensure_capacity sl new_size in
  if num_used sl <? new_size then
    let* l := memset_null (sl_list sl) (num_used sl) (new_size - num_used sl) in
    Ok (mksl l new_size (capacity sl))
  else Ok sl.

Definition smartlist_add sl element : cres (smartlist_t A) :=
  let* sl := smartlist_ensure_capacity sl (num_used sl + 1) in
  let* l := aset (sl_list sl) (num_used sl) element in
  Ok (mksl l (num_used sl + 1) (capacity sl)).

Definition smartlist_add_all (s1 s2 : smartlist_t A) : cres (smartlist_t A) :=
  let new_size := num_used s1 + num_used s2 in
  assert! (num_used s1 <=? new_size);
  let* s1 := smartlist_ensure_capacity s1 new_size in
  assert! (new_size <=? zlen (sl_list s1));
  let l := take (Z.to_nat (num_used s1)) (sl_list s1) ++
           take (Z.to_nat (num_used s2)) (sl_list s2) ++
           drop (Z.to_nat new_size) (sl_list s1) in
  assert! (new_size <=? INT_MAX);
  Ok (mksl l new_size (capacity s1)).

(** [sl->list[i] = sl->list[--sl->num_used]; sl->list[sl->num_used] = NULL;] *)
Definition swap_with_end sl (i : Z) : cres (smartlist_t A) :=
  let num_used' := num_used sl - 1 in
  let* z := aget (sl_list sl) num_used' in
  let* l := aset (sl_list sl) i z in
  let* l := aset l num_used' None in
  Ok (mksl l num_used' (capacity sl)).

(** The loop of [smartlist_remove] and [smartlist_intersect]: drop the
    elements for which the test [p] succeeds. *)
Fixpoint remove_loop (fuel : nat) (p : option A -> cres bool) sl (i : Z) : cres (smartlist_t A) :=
  match fuel with
  | O => Fuel
  | S n =>
      if i <? num_used sl then
        let* x := aget (sl_list sl) i in
        let* b := p x in
        if b : bool then let* sl := swap_with_end sl i in remove_loop n p sl i
        else remove_loop n p sl (i + 1)
      else Ok sl
  end.

Definition smartlist_remove sl element : cres (smartlist_t A) :=
  match element with
  | None => Ok sl
  | Some _ => remove_loop (S (Z.to_nat (num_used sl))) (fun x => Ok (bool_decide (x = element))) sl 0
  end.

Fixpoint keeporder_loop (fuel : nat) sl element (num_used_orig i j : Z) : cres (smartlist_t A) :=
  match fuel with
  | O => Fuel
  | S n =>
      if j <? num_used_orig then
        let* x := aget (sl_list sl) j in
        if bool_decide (x = element) then
          keeporder_loop n (mksl (sl_list sl) (num_used sl - 1) (capacity sl)) element num_used_orig i (j + 1)
        else
          let* l := aset (sl_list sl) i x in
          keeporder_loop n (mksl l (num_used sl) (capacity sl)) element num_used_orig (i + 1) (j + 1)
      else
        let* l := memset_null (sl_list sl) (num_used sl) (num_used_orig - num_used sl) in
        Ok (mksl l (num_used sl) (capacity sl))
  end.

Definition smartlist_remove_keeporder sl element : cres (smartlist_t A) :=
  match element with
  | None => Ok sl
  | Some _ => keeporder_loop (S (Z.to_nat (num_used sl))) sl element (num_used sl) 0 0
  end.

Definition smartlist_pop_last sl : cres (smartlist_t A * option A) :=
  if negb (num_used sl =? 0) then
    let num_used' := num_used sl - 1 in
    let* tmp := aget (sl_list sl) num_used' in
    let* l := aset (sl_list sl) num_used' None in
    Ok (mksl l num_used' (capacity sl), tmp)
  else Ok (sl, None).

(** [smartlist_pos]: the index of the first element equal to [element]. *)
Fixpoint pos_loop (fuel : nat) sl element (i : Z) : cres Z :=
  match fuel with
  | O => Ok (-1)
  | S n =>
      let* x := aget (sl_list sl) i in
      if bool_decide (element = x) then Ok i else pos_loop n sl element (i + 1)
  end.

Definition smartlist_pos sl element : cres Z := pos_loop (Z.to_nat (num_used sl)) sl element 0.

Fixpoint contains_loop (fuel : nat) sl element (i : Z) : cres bool :=
  match fuel with
  | O => Ok false
  | S n =>
      let* x := aget (sl_list sl) i in
      if bool_decide (x = element) then Ok true else contains_loop n sl element (i + 1)
  end.

Definition smartlist_contains sl element : cres bool :=
  contains_loop (Z.to_nat (num_used sl)) sl element 0.

Definition smartlist_del sl (idx : Z) : cres (smartlist_t A) :=
  assert! (0 <=? idx);
  assert! (idx <? num_used sl);
  swap_with_end sl idx.

Definition smartlist_del_keeporder sl (idx : Z) : cres (smartlist_t A) :=
  assert! (0 <=? idx);
  assert! (idx <? num_used sl);
  let num_used' := num_used sl - 1 in
  (* memmove(list+idx, list+idx+1, num_used-idx) *)
  let l := if idx <? num_used'
           then take (Z.to_nat idx) (sl_list sl) ++
                take (Z.to_nat (num_used' - idx)) (drop (Z.to_nat (idx + 1)) (sl_list sl)) ++
                drop (Z.to_nat num_used') (sl_list sl)
           else sl_list sl in
  let* l := aset l num_used' None in
  Ok (mksl l num_used' (capacity sl)).

Definition smartlist_insert sl (idx : Z) (val : option A) : cres (smartlist_t A) :=
  assert! (0 <=? idx);
  assert! (idx <=? num_used sl);
  if idx =? num_used sl then smartlist_add sl val
  else
    let* sl := smartlist_ensure_capacity sl (num_used sl + 1) in
    (* memmove(list+idx+1, list+idx, num_used-idx) *)
    let l := if idx <? num_used sl
             then take (Z.to_nat (idx + 1)) (sl_list sl) ++
                  take (Z.to_nat (num_used sl - idx)) (drop (Z.to_nat idx) (sl_list sl)) ++
                  drop (Z.to_nat (num_used sl + 1)) (sl_list sl)
             else sl_list sl in
    let* l := aset l idx val in
    Ok (mksl l (num_used sl + 1) (capacity sl)).

Fixpoint reverse_loop (fuel : nat) (l : list (option A)) (i j : Z) : cres (list (option A)) :=
  match fuel with
  | O => Fuel
  | S n =>
      if i <? j then
        let* tmp := aget l i in
        let* y := aget l j in
        let* l := aset l i y in
        let* l := aset l j tmp in
        reverse_loop n l (i + 1) (j - 1)
      else Ok l
  end.

Definition smartlist_reverse sl : cres (smartlist_t A) :=
  let* l := reverse_loop (S (Z.to_nat (num_used sl))) (sl_list sl) 0 (num_used sl - 1) in
  Ok (mksl l (num_used sl) (capacity sl)).

(** [smartlist_intersect]: drop every element of [sl1] not in [sl2]. *)
Definition smartlist_intersect (sl1 sl2 : smartlist_t A) : cres (smartlist_t A) :=
  remove_loop (S (Z.to_nat (num_used sl1)))
    (fun x => let* b := smartlist_contains sl2 x in Ok (negb b)) sl1 0.

(** [smartlist_subtract]: remove each element of [sl2] in turn. *)
Fixpoint subtract_loop (fuel : nat) (sl1 sl2 : smartlist_t A) (i : Z) : cres (smartlist_t A) :=
  match fuel with
  | O => Ok sl1
  | S n =>
      let* x := aget (sl_list sl2) i in
      let* sl1 := smartlist_remove sl1 x in
      subtract_loop n sl1 sl2 (i + 1)
  end.

Definition smartlist_subtract (sl1 sl2 : smartlist_t A) : cres (smartlist_t A) :=
  subtract_loop (Z.to_nat (num_used sl2)) sl1 sl2 0.

Fixpoint overlap_loop (fuel : nat) (sl1 sl2 : smartlist_t A) (i : Z) : cres bool :=
  match fuel with
  | O => Ok false
  | S n =>
      let* x := aget (sl_list sl2) i in
      let* b := smartlist_contains sl1 x in
      if b then Ok true else overlap_loop n sl1 sl2 (i + 1)
  end.

Definition smartlist_overlap (sl1 sl2 : smartlist_t A) : cres bool :=
  overlap_loop (Z.to_nat (num_used sl2)) sl1 sl2 0.


(** ** The abstraction: a smartlist is a list of pointers

    Unused entries are NULL, as the comment in [smartlist_grow] says. *)

Definition repr sl (l : list (option A)) : Prop :=
  exists k, sl_list sl = l ++ repeat None k /\ num_used sl = zlen l /\
    capacity sl = zlen l + Z.of_nat k /\ 1 <= capacity sl <= INT_MAX.

Lemma repr_new : repr smartlist_new [].
Proof. exists 16%nat. unfold INT_MAX. by cbn. Qed.

Lemma repr_num_used sl l : repr sl l -> num_used sl = zlen l.
Proof. intros (k & H). tauto. Qed.

Lemma repr_lookup sl l1 x l2 : repr sl (l1 ++ x :: l2) -> aget (sl_list sl) (zlen l1) = Ok x.
Proof. intros (k & -> & _). rewrite <- app_assoc. by apply aget_mid. Qed.

Lemma memset_mid (l m r : list (option A)) off n :
  off = zlen l -> n = zlen m ->
  memset_null (l ++ m ++ r) off n = Ok (l ++ repeat None (length m) ++ r).
Proof.
  intros -> ->. unfold memset_null. rewrite !zlen_app.
  pose proof (zlen_nonneg l). pose proof (zlen_nonneg m). pose proof (zlen_nonneg r).
  replace (_ && _ && _) with true by blia.
  rewrite take_zapp by done. rewrite (app_assoc l m r), drop_zapp by (by rewrite zlen_app).
  unfold zlen. by rewrite Nat2Z.id.
Qed.

Lemma double_until_spec fuel size higher :
  1 <= higher -> size <= higher * 2 ^ Z.of_nat fuel -> size <= INT_MAX / 2 -> higher <= INT_MAX ->
  exists h, double_until (S fuel) size higher = Ok h /\ size <= h /\ higher <= h <= INT_MAX.
Proof.
  revert higher. induction fuel as [|n IH]; intros higher H1 H2 H3 H4.
  - exists higher. cbn [double_until]. change (2 ^ Z.of_nat 0) with 1 in H2. zcase; [lia|]. split_and!; lia || done.
  - cbn [double_until]. zcase; [|exists higher; split_and!; lia || done].
    destruct (IH (higher * 2)) as (h & E & Hh).
    + lia.
    + rewrite Nat2Z.inj_succ, Z.pow_succ_r in H2 by lia. lia.
    + done.
    + unfold INT_MAX in *. change (2147483647 / 2) with 1073741823 in *. lia.
    + exists h. split; [exact E|lia].
Qed.

Lemma repr_extend sl l h :
  repr sl l -> capacity sl <= h <= INT_MAX ->
  repr (mksl (sl_list sl ++ repeat None (Z.to_nat (h - capacity sl))) (num_used sl) h) l.
Proof.
  intros (k & El & En & Ec & Hc) Hh. exists (k + Z.to_nat (h - capacity sl))%nat.
  cbn [sl_list num_used capacity]. rewrite El, <- app_assoc, <- repeat_app. split_and!; auto; lia.
Qed.

Lemma ensure_capacity_repr sl l size :
  repr sl l -> size <= INT_MAX ->
  exists sl', smartlist_ensure_capacity sl size = Ok sl' /\ repr sl' l /\ size <= capacity sl'.
Proof.
  intros Hr Hs. pose proof Hr as (k & El & En & Ec & Hc). unfold smartlist_ensure_capacity, MAX_CAPACITY.
  replace (size <=? INT_MAX) with true by blia.
  zcase; [|exists sl; auto]. zcase; cbn [cbind].
  - eexists. split; [done|]. split; [apply repr_extend; auto; lia|done].
  - destruct (double_until_spec 31 size (capacity sl)) as (h & E & Hsz & Hh); try lia.
    { unfold INT_MAX in *. change (2147483647 / 2) with 1073741823 in *. change (2 ^ Z.of_nat 31) with 2147483648. lia. }
    rewrite E. cbn [cbind]. eexists. split; [done|]. split; [apply repr_extend; auto; lia|done].
Qed.

(** What [smartlist_ensure_capacity] gives: room for [n] more pointers. *)
Lemma repr_room sl l n :
  repr sl l -> zlen l + Z.of_nat n <= capacity sl ->
  exists k, sl_list sl = l ++ repeat None n ++ repeat None k /\ num_used sl = zlen l /\
    capacity sl = zlen l + Z.of_nat n + Z.of_nat k /\ 1 <= capacity sl <= INT_MAX.
Proof.
  intros (k & El & En & Ec & Hc) Hn. exists (k - n)%nat.
  rewrite El, <- repeat_app. replace (n + (k - n))%nat with k by lia. split_and!; auto; lia.
Qed.

Lemma ensure_capacity_bug sl size : INT_MAX < size -> smartlist_ensure_capacity sl size = Bug.
Proof. intros. unfold smartlist_ensure_capacity, MAX_CAPACITY. by replace (size <=? INT_MAX) with false by blia. Qed.

Lemma repr_max sl l : repr sl l -> zlen l <= INT_MAX.
Proof. intros (k & _ & _ & Ec & Hc). lia. Qed.

Lemma clear_repr sl l : repr sl l -> exists sl', smartlist_clear sl = Ok sl' /\ repr sl' [].
Proof.
  intros (k & El & En & Ec & Hc). unfold smartlist_clear.
  rewrite El. rewrite (memset_mid [] l (repeat None k)) by (done || lia).
  eexists. split; [done|]. exists (length l + k)%nat. cbn [sl_list num_used capacity cbind].
  rewrite <- repeat_app. unfold zlen in *. cbn [length]. split_and!; auto; lia.
Qed.

Lemma grow_repr sl l n :
  repr sl l -> n <= INT_MAX ->
  exists sl', smartlist_grow sl n = Ok sl' /\ repr sl' (l ++ repeat None (Z.to_nat (n - zlen l))).
Proof.
  intros Hr Hn. unfold smartlist_grow.
  destruct (ensure_capacity_repr sl l n Hr Hn) as (sl1 & -> & Hr1 & Hcap). cbn [cbind].
  pose proof (repr_num_used _ _ Hr1) as En. rewrite En. zcase.
  - destruct (repr_room sl1 l (Z.to_nat (n - zlen l)) Hr1) as (k & El & _ & Ec & Hc); [lia|].
    rewrite El, memset_mid by (rewrite ?zlen_repeat; lia).
    eexists. split; [done|]. exists k. cbn [sl_list num_used capacity cbind].
    rewrite repeat_length, <- app_assoc, zlen_app, zlen_repeat. split_and!; auto; lia.
  - exists sl1. split; [done|]. replace (Z.to_nat (n - zlen l)) with 0%nat by lia. by rewrite app_nil_r.
Qed.

Lemma add_repr sl l x :
  repr sl l -> zlen l < INT_MAX -> exists sl', smartlist_add sl x = Ok sl' /\ repr sl' (l ++ [x]).
Proof.
  intros Hr Hn. unfold smartlist_add. rewrite (repr_num_used _ _ Hr).
  destruct (ensure_capacity_repr sl l (zlen l + 1) Hr) as (sl1 & -> & Hr1 & Hcap); [lia|]. cbn [cbind].
  destruct (repr_room sl1 l 1 Hr1) as (k & -> & -> & Ec & Hc); [lia|].
  cbn [repeat app]. rewrite (aset_mid l) by done. cbn [cbind].
  eexists. split; [done|]. exists k. cbn [sl_list num_used capacity].
  rewrite <- app_assoc, zlen_app. change (zlen [x]) with 1. split_and!; auto; lia.
Qed.

Lemma add_all_repr s1 l1 s2 l2 :
  repr s1 l1 -> repr s2 l2 -> zlen l1 + zlen l2 <= INT_MAX ->
  exists sl', smartlist_add_all s1 s2 = Ok sl' /\ repr sl' (l1 ++ l2).
Proof.
  intros H1 H2 Hn. unfold smartlist_add_all. rewrite (repr_num_used _ _ H1), (repr_num_used _ _ H2).
  pose proof (zlen_nonneg l2). replace (_ <=? _) with true by blia.
  destruct (ensure_capacity_repr s1 l1 (zlen l1 + zlen l2) H1) as (sl1 & -> & Hr1 & Hcap); [lia|]. cbn [cbind].
  destruct (repr_room sl1 l1 (length l2) Hr1) as (k & -> & -> & Ec & Hc); [unfold zlen in *; lia|].
  destruct H2 as (k2 & -> & _).
  rewrite take_zapp, take_zapp, (app_assoc l1 (repeat _ _)), drop_zapp by (rewrite ?zlen_app, ?zlen_repeat; unfold zlen; lia).
  replace (_ <=? zlen _) with true by (rewrite !zlen_app, !zlen_repeat; unfold zlen in *; blia).
  replace (_ <=? INT_MAX) with true by blia.
  eexists. split; [done|]. exists k. cbn [sl_list num_used capacity].
  rewrite <- app_assoc, zlen_app. unfold zlen in *. split_and!; auto; lia.
Qed.

(** Writing NULL over the last element and decrementing [num_used]. *)
Lemma repr_drop_last sl l x :
  repr sl (l ++ [x]) ->
  exists k, sl_list sl = l ++ x :: repeat None k /\ num_used sl - 1 = zlen l /\
    repr (mksl (l ++ None :: repeat None k) (num_used sl - 1) (capacity sl)) l.
Proof.
  intros (k & El & En & Ec & Hc). rewrite zlen_app in *. change (zlen [x]) with 1 in *.
  exists k. rewrite El, <- app_assoc. split_and!; [done|lia|].
  exists (S k). cbn [sl_list num_used capacity repeat]. split_and!; auto; lia.
Qed.

Lemma swap_with_end_last sl l x :
  repr sl (l ++ [x]) -> exists sl', swap_with_end sl (zlen l) = Ok sl' /\ repr sl' l.
Proof.
  intros Hr. destruct (repr_drop_last _ _ _ Hr) as (k & El & En & Hr'). unfold swap_with_end.
  rewrite El, En in *. rewrite (aget_mid l) by done. cbn [cbind].
  rewrite (aset_mid l) by done. cbn [cbind]. rewrite (aset_mid l) by done. eauto.
Qed.

Lemma swap_with_end_mid sl l x m z :
  repr sl (l ++ x :: m ++ [z]) ->
  exists sl', swap_with_end sl (zlen l) = Ok sl' /\ repr sl' (l ++ z :: m).
Proof.
  intros (k & El & En & Ec & Hc). unfold swap_with_end.
  rewrite !zlen_app, zlen_cons, !zlen_app in *. change (zlen [z]) with 1 in *. rewrite El.
  replace ((l ++ x :: m ++ [z]) ++ repeat None k) with ((l ++ x :: m) ++ z :: repeat None k)
    by lassoc.
  rewrite (aget_mid (l ++ x :: m)) by (rewrite zlen_app, zlen_cons; lia). cbn [cbind].
  rewrite <- app_assoc. cbn [app]. rewrite (aset_mid l) by done. cbn [cbind].
  change (l ++ z :: m ++ z :: repeat None k) with (l ++ (z :: m) ++ z :: repeat None k). rewrite app_assoc.
  rewrite (aset_mid (l ++ z :: m)) by (rewrite zlen_app, zlen_cons; lia). cbn [cbind].
  eexists. split; [done|]. exists (S k). cbn [sl_list num_used capacity repeat].
  rewrite zlen_app, zlen_cons. split_and!; auto; lia.
Qed.

(** Deleting by swapping the last element in. *)
Definition swap_del (m : list (option A)) : list (option A) :=
  match last m with None => [] | Some z => z :: removelast m end.

Lemma snoc_cases (m : list (option A)) : m = [] \/ exists m' z, m = m' ++ [z].
Proof. induction m using rev_ind; eauto. Qed.

Lemma swap_del_snoc m z : swap_del (m ++ [z]) = z :: m.
Proof. unfold swap_del. by rewrite last_snoc, removelast_last. Qed.

Lemma swap_del_perm m : swap_del m ≡ₚ m.
Proof.
  destruct (snoc_cases m) as [->|(m' & z & ->)]; [done|].
  rewrite swap_del_snoc. by rewrite Permutation_app_comm.
Qed.

Lemma swap_with_end_repr sl l x m :
  repr sl (l ++ x :: m) ->
  exists sl', swap_with_end sl (zlen l) = Ok sl' /\ repr sl' (l ++ swap_del m).
Proof.
  destruct (snoc_cases m) as [->|(m' & z & ->)].
  - rewrite app_nil_r. apply swap_with_end_last.
  - rewrite swap_del_snoc. apply swap_with_end_mid.
Qed.

Lemma remove_loop_repr (p : option A -> cres bool) (q : option A -> bool) fuel sl l m :
  (forall x, p x = Ok (q x)) -> (length m < fuel)%nat -> repr sl (l ++ m) ->
  exists sl' m', remove_loop fuel p sl (zlen l) = Ok sl' /\ repr sl' (l ++ m') /\
    m' ≡ₚ base.filter (fun x => q x = false) m.
Proof.
  intros Hp. revert sl l m. induction fuel as [|n IH]; intros sl l m Hf Hr; [lia|].
  cbn [remove_loop]. rewrite (repr_num_used _ _ Hr), zlen_app. destruct m as [|x m].
  { change (zlen []) with 0. replace (_ <? _) with false by blia. exists sl, []. done. }
  rewrite zlen_cons. pose proof (zlen_nonneg m). replace (_ <? _) with true by blia.
  rewrite (repr_lookup _ _ _ _ Hr). cbn [cbind]. rewrite Hp. cbn [cbind]. cbn [length] in Hf.
  destruct (q x) eqn:Eq.
  - destruct (swap_with_end_repr _ _ _ _ Hr) as (sl1 & -> & Hr1). cbn [cbind].
    destruct (IH sl1 l (swap_del m)) as (sl2 & m2 & -> & Hr2 & Hm); [rewrite swap_del_perm; lia|done|].
    exists sl2, m2. split_and!; auto. rewrite filter_cons_False by congruence. by rewrite Hm, swap_del_perm.
  - destruct (IH sl (l ++ [x]) m) as (sl2 & m2 & E & Hr2 & Hm); [lia|by rewrite <- app_assoc|].
    rewrite zlen_app in E. change (zlen [x]) with 1 in E. rewrite E. exists sl2, (x :: m2).
    rewrite <- app_assoc in Hr2. split_and!; auto. rewrite filter_cons_True by done. by constructor.
Qed.

(** Removing an element keeps what precedes its first occurrence in place. *)
Lemma remove_repr sl l m x :
  x <> None -> x ∉ l -> repr sl (l ++ m) ->
  exists sl' m', smartlist_remove sl x = Ok sl' /\ repr sl' (l ++ m') /\
    m' ≡ₚ base.filter (fun y => y <> x) m.
Proof.
  intros Hx Hl Hr. unfold smartlist_remove. destruct x as [a|]; [|done].
  assert (G : forall k sl l0, repr sl (l0 ++ l ++ m) -> (length (l ++ m) < k)%nat ->
    exists n, (length m < n)%nat /\
    remove_loop k (λ x : option A, Ok (bool_decide (x = Some a))) sl (zlen l0) =
    remove_loop n (λ x : option A, Ok (bool_decide (x = Some a))) sl (zlen (l0 ++ l))).
  { clear Hr sl. induction l as [|y l IH]; intros k sl l0 Hr Hk.
    - exists k. rewrite app_nil_r. auto.
    - apply not_elem_of_cons in Hl as [Hy Hl]. destruct k as [|k]; [cbn in Hk; lia|].
      destruct (IH Hl k sl (l0 ++ [y])) as (n & Hn & E); [by rewrite <- app_assoc|cbn in Hk; lia|].
      exists n. split; [done|]. rewrite <- app_assoc in E. cbn [app] in E. rewrite <- E.
      cbn [remove_loop]. rewrite (repr_num_used _ _ Hr), zlen_app. cbn [app] in *. rewrite zlen_cons.
      pose proof (zlen_nonneg (l ++ m)). replace (_ <? _) with true by blia.
      rewrite (repr_lookup _ _ _ _ Hr). cbn [cbind]. rewrite bool_decide_false by congruence.
      by rewrite zlen_app. }
  destruct (G (S (Z.to_nat (num_used sl))) sl [] Hr) as (n & Hn & E).
  { rewrite (repr_num_used _ _ Hr). unfold zlen. lia. }
  change (zlen []) with 0 in E. rewrite E. cbn [app] in *.
  destruct (remove_loop_repr _ (fun y => bool_decide (y = Some a)) n sl l m (fun _ => eq_refl) Hn Hr)
    as (sl' & m' & E' & Hr' & Hm). exists sl', m'. split_and!; auto.
  rewrite Hm. erewrite list_filter_iff; [done|]. intros y. by rewrite bool_decide_eq_false.
Qed.

(** The loop invariant of [smartlist_remove_keeporder]: the kept elements are
    at the front, the elements still to see are where they were, and what lies
    between them is stale. *)
Lemma keeporder_loop_repr x fuel keep stale m k cap :
  (length m < fuel)%nat -> 1 <= cap <= INT_MAX ->
  cap = zlen keep + zlen stale + zlen m + Z.of_nat k ->
  exists sl', keeporder_loop fuel (mksl (keep ++ stale ++ m ++ repeat None k) (zlen keep + zlen m) cap)
      x (zlen keep + zlen stale + zlen m) (zlen keep) (zlen keep + zlen stale) = Ok sl' /\
    repr sl' (keep ++ base.filter (fun y => y <> x) m).
Proof.
  intros Hf Hcap. revert keep stale m Hf. induction fuel as [|n IH]; intros keep stale m Hf Ec; [lia|].
  cbn [keeporder_loop sl_list num_used capacity].
  pose proof (zlen_nonneg stale). destruct m as [|y m].
  - change (zlen []) with 0 in *. rewrite !Z.add_0_r. replace (_ <? _) with false by blia.
    cbn [app]. rewrite memset_mid by lia. cbn [cbind]. eexists. split; [done|].
    rewrite filter_nil, app_nil_r, <- repeat_app. exists (length stale + k)%nat.
    unfold zlen in *. cbn [sl_list num_used capacity]. split_and!; auto; lia.
  - rewrite zlen_cons in *. cbn [length] in Hf. pose proof (zlen_nonneg m).
    replace (_ <? _) with true by blia.
    rewrite app_assoc. cbn [app]. rewrite (aget_mid (keep ++ stale)) by (rewrite zlen_app; lia).
    cbn [cbind]. destruct (bool_decide_reflect (y = x)) as [->|Hne].
    + rewrite filter_cons_False by naive_solver. rewrite <- app_assoc.
      destruct (IH keep (stale ++ [x]) m) as (sl' & E & Hr);
        [lia|rewrite zlen_app; change (zlen [x]) with 1; lia|].
      exists sl'. split; [|done]. rewrite <- E, zlen_app, <- app_assoc. change (zlen [x]) with 1.
      f_equal; [f_equal; lia|lia|lia].
    + rewrite filter_cons_True by naive_solver. destruct stale as [|s0 stale].
      * rewrite app_nil_r. rewrite (aset_mid keep) by done. cbn [cbind]. change (zlen []) with 0 in *.
        destruct (IH (keep ++ [y]) [] m) as (sl' & E & Hr);
          [lia|rewrite zlen_app; change (zlen [y]) with 1; change (zlen []) with 0; lia|].
        exists sl'. rewrite <- app_assoc in Hr. split; [|done].
        rewrite <- E, zlen_app, <- app_assoc. change (zlen [y]) with 1. change (zlen []) with 0. cbn [app].
        f_equal; [f_equal; lia|lia|lia].
      * rewrite <- app_assoc. cbn [app]. rewrite (aset_mid keep) by done. cbn [cbind]. rewrite zlen_cons in *.
        destruct (IH (keep ++ [y]) (stale ++ [y]) m) as (sl' & E & Hr);
          [lia|rewrite !zlen_app; change (zlen [y]) with 1; lia|].
        exists sl'. rewrite <- app_assoc in Hr. split; [|done].
        rewrite <- E, !zlen_app, <- !app_assoc. change (zlen [y]) with 1. cbn [app].
        f_equal; [f_equal; lia|lia|lia].
Qed.

Lemma remove_keeporder_repr sl l x :
  x <> None -> repr sl l ->
  exists sl', smartlist_remove_keeporder sl x = Ok sl' /\ repr sl' (base.filter (fun y => y <> x) l).
Proof.
  intros Hx (k & El & En & Ec & Hc). unfold smartlist_remove_keeporder. destruct x as [a|]; [|done].
  destruct (keeporder_loop_repr (Some a) (S (Z.to_nat (num_used sl))) [] [] l k (capacity sl))
    as (sl' & E & Hr); [unfold zlen in *; lia|done|done|].
  exists sl'. split; [|done]. rewrite <- E. change (zlen []) with 0. cbn [app].
  destruct sl as [sll nu c]. cbn [sl_list num_used capacity] in *. subst. done.
Qed.

Lemma pop_last_repr sl l :
  repr sl l -> exists sl', smartlist_pop_last sl = Ok (sl', default None (last l)) /\ repr sl' (removelast l).
Proof.
  intros Hr. unfold smartlist_pop_last. destruct (snoc_cases l) as [->|(l' & z & ->)].
  - rewrite (repr_num_used _ _ Hr). by exists sl.
  - destruct (repr_drop_last _ _ _ Hr) as (k & El & En & Hr').
    rewrite (repr_num_used _ _ Hr), zlen_app. change (zlen [z]) with 1.
    pose proof (zlen_nonneg l'). replace (negb _) with true by blia.
    rewrite El. replace (zlen l' + 1 - 1) with (zlen l') by lia. rewrite (aget_mid l') by done. cbn [cbind].
    rewrite (aset_mid l') by done. cbn [cbind]. rewrite last_snoc, removelast_last.
    eexists. split; [done|]. by rewrite <- En.
Qed.

Lemma contains_loop_repr sl l m x :
  repr sl (l ++ m) -> contains_loop (length m) sl x (zlen l) = Ok (bool_decide (x ∈ m)).
Proof.
  revert l. induction m as [|y m IH]; intros l Hr; cbn [contains_loop length].
  - rewrite bool_decide_false; [done|]. apply not_elem_of_nil.
  - rewrite (repr_lookup _ _ _ _ Hr). cbn [cbind]. destruct (bool_decide_reflect (y = x)) as [->|Hne].
    + rewrite bool_decide_true; [done|]. apply elem_of_cons. auto.
    + replace (zlen l + 1) with (zlen (l ++ [y])) by (rewrite zlen_app; done).
      rewrite IH by (by rewrite <- app_assoc). f_equal. apply bool_decide_ext. rewrite elem_of_cons. naive_solver.
Qed.

Lemma contains_repr sl l x : repr sl l -> smartlist_contains sl x = Ok (bool_decide (x ∈ l)).
Proof.
  intros Hr. unfold smartlist_contains. rewrite (repr_num_used _ _ Hr). unfold zlen. rewrite Nat2Z.id.
  apply (contains_loop_repr sl [] l x Hr).
Qed.

(** The position of the first element equal to [x], or -1. *)
Fixpoint pos_spec (x : option A) (l : list (option A)) (i : Z) : Z :=
  match l with
  | [] => -1
  | y :: r => if bool_decide (x = y) then i else pos_spec x r (i + 1)
  end.

Lemma pos_loop_repr sl l m x :
  repr sl (l ++ m) -> pos_loop (length m) sl x (zlen l) = Ok (pos_spec x m (zlen l)).
Proof.
  revert l. induction m as [|y m IH]; intros l Hr; cbn [pos_loop pos_spec length]; [done|].
  rewrite (repr_lookup _ _ _ _ Hr). cbn [cbind]. case_bool_decide; [done|].
  replace (zlen l + 1) with (zlen (l ++ [y])) by (rewrite zlen_app; done).
  by rewrite IH by (by rewrite <- app_assoc).
Qed.

Lemma pos_repr sl l x : repr sl l -> smartlist_pos sl x = Ok (pos_spec x l 0).
Proof.
  intros Hr. unfold smartlist_pos. rewrite (repr_num_used _ _ Hr). unfold zlen. rewrite Nat2Z.id.
  apply (pos_loop_repr sl [] l x Hr).
Qed.

Lemma del_repr sl l x m :
  repr sl (l ++ x :: m) -> exists sl', smartlist_del sl (zlen l) = Ok sl' /\ repr sl' (l ++ swap_del m).
Proof.
  intros Hr. unfold smartlist_del. rewrite (repr_num_used _ _ Hr), zlen_app, zlen_cons.
  pose proof (zlen_nonneg l). pose proof (zlen_nonneg m).
  replace (0 <=? _) with true by blia. replace (_ <? _) with true by blia. by eapply swap_with_end_repr.
Qed.

Lemma del_keeporder_repr sl l x m :
  repr sl (l ++ x :: m) ->
  exists sl', smartlist_del_keeporder sl (zlen l) = Ok sl' /\ repr sl' (l ++ m).
Proof.
  intros (k & El & En & Ec & Hc). unfold smartlist_del_keeporder. rewrite En.
  rewrite zlen_app, zlen_cons in *. pose proof (zlen_nonneg l). pose proof (zlen_nonneg m).
  replace (0 <=? _) with true by blia. replace (_ <? zlen l + (zlen m + 1)) with true by blia.
  assert (exists y, (if zlen l <? zlen l + (zlen m + 1) - 1
     then take (Z.to_nat (zlen l)) (sl_list sl) ++
          take (Z.to_nat (zlen l + (zlen m + 1) - 1 - zlen l)) (drop (Z.to_nat (zlen l + 1)) (sl_list sl)) ++
          drop (Z.to_nat (zlen l + (zlen m + 1) - 1)) (sl_list sl)
     else sl_list sl) = l ++ m ++ y :: repeat None k) as [y ->].
  { rewrite El. zcase.
    - destruct (snoc_cases m) as [->|(m' & z & ->)]; [change (zlen []) with 0 in *; lia|].
      exists z. rewrite <- app_assoc, take_zapp by done. cbn [app].
      replace (l ++ x :: (m' ++ [z]) ++ repeat None k) with ((l ++ [x]) ++ (m' ++ [z]) ++ repeat None k)
        by lassoc.
      rewrite drop_zapp by (by rewrite zlen_app). rewrite take_zapp by lia.
      replace ((l ++ [x]) ++ (m' ++ [z]) ++ repeat None k) with ((l ++ x :: m') ++ z :: repeat None k)
        by lassoc.
      rewrite drop_zapp; [done|]. zlia.
    - destruct m as [|z m]; [|rewrite zlen_cons in *; pose proof (zlen_nonneg m); lia].
      exists x. by rewrite <- app_assoc. }
  rewrite app_assoc, (aset_mid (l ++ m)) by (rewrite zlen_app; lia). cbn [cbind].
  eexists. split; [done|]. exists (S k). cbn [sl_list num_used capacity repeat].
  rewrite zlen_app. split_and!; auto; lia.
Qed.

Lemma insert_repr sl l m x :
  repr sl (l ++ m) -> zlen (l ++ m) < INT_MAX ->
  exists sl', smartlist_insert sl (zlen l) x = Ok sl' /\ repr sl' (l ++ x :: m).
Proof.
  intros Hr Hn. unfold smartlist_insert. rewrite (repr_num_used _ _ Hr).
  pose proof (zlen_nonneg l). pose proof (zlen_nonneg m). rewrite zlen_app in *.
  replace (0 <=? _) with true by blia. replace (_ <=? _) with true by blia. destruct m as [|y m].
  { change (zlen []) with 0. replace (_ =? _) with true by blia. rewrite app_nil_r in Hr.
    change (zlen []) with 0 in Hn. apply add_repr; auto; lia. }
  rewrite zlen_cons in *. pose proof (zlen_nonneg m). replace (_ =? _) with false by blia.
  destruct (ensure_capacity_repr sl _ (zlen l + (zlen m + 1) + 1) Hr) as (sl1 & -> & Hr1 & Hcap); [lia|].
  cbn [cbind]. destruct (repr_room sl1 _ 1 Hr1) as (k & -> & -> & Ec & Hc); [rewrite zlen_app, zlen_cons; lia|].
  rewrite zlen_app, zlen_cons in *. replace (_ <? _) with true by blia. cbn [repeat app].
  replace ((l ++ y :: m) ++ None :: repeat None k) with (l ++ (y :: m) ++ [None] ++ repeat None k) by lassoc.
  rewrite drop_zapp by done. rewrite (take_zapp (y :: m)) by zlia.
  replace (drop _ _) with (repeat (@None A) k)
    by (rewrite (app_assoc l), (app_assoc (l ++ _)), drop_zapp by zlia; done).
  replace (l ++ (y :: m) ++ [None] ++ repeat None k) with ((l ++ [y]) ++ m ++ None :: repeat None k) by (by rewrite <- app_assoc).
  rewrite take_zapp by (by rewrite zlen_app). rewrite <- app_assoc. cbn [app].
  rewrite (aset_mid l) by done. cbn [cbind].
  eexists. split; [done|]. exists k. cbn [sl_list num_used capacity].
  rewrite zlen_app, !zlen_cons, <- app_assoc. split_and!; auto; lia.
Qed.

Lemma reverse_loop_spec fuel a m b :
  (length m < fuel)%nat ->
  reverse_loop fuel (a ++ m ++ b) (zlen a) (zlen a + zlen m - 1) = Ok (a ++ rev m ++ b).
Proof.
  revert a m b. induction fuel as [|n IH]; intros a m b Hf; [lia|].
  - cbn [reverse_loop]. destruct m as [|x m]; [change (zlen []) with 0; by replace (_ <? _) with false by blia|].
    destruct (snoc_cases m) as [->|(m' & z & ->)].
    + change (zlen [x]) with 1. by replace (_ <? _) with false by blia.
    + rewrite zlen_cons, zlen_app. change (zlen [z]) with 1. pose proof (zlen_nonneg m').
      replace (_ <? _) with true by blia. cbn [app]. rewrite (aget_mid a) by done. cbn [cbind].
      replace (a ++ x :: (m' ++ [z]) ++ b) with ((a ++ x :: m') ++ z :: b) by lassoc.
      rewrite (aget_mid (a ++ x :: m')) by (rewrite zlen_app, zlen_cons; lia). cbn [cbind].
      rewrite <- app_assoc. cbn [app]. rewrite (aset_mid a) by done. cbn [cbind].
      replace (a ++ z :: m' ++ z :: b) with ((a ++ z :: m') ++ z :: b) by (by rewrite <- app_assoc).
      rewrite (aset_mid (a ++ z :: m')) by (rewrite zlen_app, zlen_cons; lia). cbn [cbind].
      replace ((a ++ z :: m') ++ x :: b) with ((a ++ [z]) ++ m' ++ x :: b) by lassoc.
      specialize (IH (a ++ [z]) m' (x :: b)). rewrite zlen_app in IH. change (zlen [z]) with 1 in IH.
      replace (zlen a + (zlen m' + 1 + 1) - 1 - 1) with (zlen a + 1 + zlen m' - 1) by lia.
      rewrite IH by (cbn [length] in Hf; rewrite length_app in Hf; cbn [length] in Hf; lia).
      cbn [rev]. rewrite rev_app_distr. cbn [rev app]. by rewrite <- !app_assoc.
Qed.

Lemma reverse_repr sl l : repr sl l -> exists sl', smartlist_reverse sl = Ok sl' /\ repr sl' (rev l).
Proof.
  intros (k & El & En & Ec & Hc). unfold smartlist_reverse. rewrite El, En.
  change 0 with (@zlen (option A) []) at 1.
  change (zlen l - 1) with (@zlen (option A) [] + zlen l - 1).
  change (l ++ repeat None k) with ([] ++ l ++ repeat None k).
  rewrite reverse_loop_spec by (unfold zlen; lia). cbn [cbind app].
  eexists. split; [done|]. exists k. cbn [sl_list num_used capacity].
  unfold zlen in *. rewrite length_rev. auto.
Qed.

Lemma intersect_repr s1 l1 s2 l2 :
  repr s1 l1 -> repr s2 l2 ->
  exists sl' l', smartlist_intersect s1 s2 = Ok sl' /\ repr sl' l' /\ l' ≡ₚ base.filter (fun x => x ∈ l2) l1.
Proof.
  intros H1 H2. unfold smartlist_intersect.
  destruct (remove_loop_repr (fun x => let* b := smartlist_contains s2 x in Ok (negb b))
    (fun x => negb (bool_decide (x ∈ l2))) (S (Z.to_nat (num_used s1))) s1 [] l1)
    as (sl' & m' & E & Hr & Hm).
  - intros x. by rewrite (contains_repr _ _ _ H2).
  - rewrite (repr_num_used _ _ H1). unfold zlen. lia.
  - done.
  - exists sl', m'. split_and!; auto. rewrite Hm. erewrite list_filter_iff; [done|].
    intros y. rewrite negb_false_iff. by rewrite bool_decide_eq_true.
Qed.

Lemma subtract_loop_repr s2 l2 m2 s1 l1 :
  repr s2 (l2 ++ m2) -> repr s1 l1 ->
  exists sl' l', subtract_loop (length m2) s1 s2 (zlen l2) = Ok sl' /\ repr sl' l' /\
    l' ≡ₚ base.filter (fun x => x ∉ base.filter (fun y => y <> None) m2) l1.
Proof.
  revert l2 s1 l1. induction m2 as [|x m2 IH]; intros l2 s1 l1 H2 H1; cbn [subtract_loop length].
  - exists s1, l1. split_and!; auto. rewrite filter_id; [done|].
    apply Forall_forall. intros y _. rewrite filter_nil. apply not_elem_of_nil.
  - rewrite (repr_lookup _ _ _ _ H2). cbn [cbind].
    replace (zlen l2 + 1) with (zlen (l2 ++ [x])) by (rewrite zlen_app; done).
    destruct (decide (x = None)) as [->|Hx].
    + cbn [smartlist_remove cbind]. rewrite filter_cons_False by naive_solver.
      apply IH; [by rewrite <- app_assoc|done].
    + destruct (remove_repr s1 [] l1 x Hx) as (sl1 & m1 & -> & Hr1 & Hm1); [apply not_elem_of_nil|done|].
      cbn [cbind app] in *.
      destruct (IH (l2 ++ [x]) sl1 m1) as (sl' & l' & -> & Hr' & Hl'); [by rewrite <- app_assoc|done|].
      exists sl', l'. split_and!; auto. rewrite Hl', Hm1, list_filter_filter.
      erewrite list_filter_iff; [done|]. intros y. rewrite (filter_cons_True (fun y => y <> None)) by done.
      rewrite not_elem_of_cons. tauto.
Qed.

Lemma subtract_repr s1 l1 s2 l2 :
  repr s1 l1 -> repr s2 l2 ->
  exists sl' l', smartlist_subtract s1 s2 = Ok sl' /\ repr sl' l' /\
    l' ≡ₚ base.filter (fun x => x = None \/ x ∉ l2) l1.
Proof.
  intros H1 H2. unfold smartlist_subtract. rewrite (repr_num_used _ _ H2). unfold zlen. rewrite Nat2Z.id.
  destruct (subtract_loop_repr s2 [] l2 s1 l1 H2 H1) as (sl' & l' & E & Hr & Hl).
  exists sl', l'. split_and!; auto. rewrite Hl. erewrite list_filter_iff; [done|].
  intros y. rewrite list_elem_of_filter. destruct (decide (y = None)); tauto.
Qed.

Lemma overlap_loop_repr s1 l1 s2 l2 m2 :
  repr s1 l1 -> repr s2 (l2 ++ m2) ->
  overlap_loop (length m2) s1 s2 (zlen l2) = Ok (existsb (fun x => bool_decide (x ∈ l1)) m2).
Proof.
  intros H1. revert l2. induction m2 as [|x m2 IH]; intros l2 H2; cbn [overlap_loop length existsb]; [done|].
  rewrite (repr_lookup _ _ _ _ H2). cbn [cbind]. rewrite (contains_repr _ _ _ H1). cbn [cbind].
  case_bool_decide; [done|]. replace (zlen l2 + 1) with (zlen (l2 ++ [x])) by (rewrite zlen_app; done).
  by rewrite IH by (by rewrite <- app_assoc).
Qed.

Lemma overlap_repr s1 l1 s2 l2 :
  repr s1 l1 -> repr s2 l2 -> smartlist_overlap s1 s2 = Ok (existsb (fun x => bool_decide (x ∈ l1)) l2).
Proof.
  intros H1 H2. unfold smartlist_overlap. rewrite (repr_num_used _ _ H2). unfold zlen. rewrite Nat2Z.id.
  by apply (overlap_loop_repr s1 l1 s2 [] l2).
Qed.

(** ** The contract of the component, and its refinement *)

Inductive sl_op :=
| OpClear
| OpGrow (n : Z)
| OpAdd (x : option A)
| OpAddAll (s2 : smartlist_t A)
| OpRemove (x : option A)
| OpRemoveKeeporder (x : option A)
| OpPopLast
| OpPos (x : option A)
| OpContains (x : option A)
| OpDel (idx : Z)
| OpDelKeeporder (idx : Z)
| OpInsert (idx : Z) (x : option A)
| OpReverse
| OpIntersect (s2 : smartlist_t A)
| OpSubtract (s2 : smartlist_t A)
| OpOverlap (s2 : smartlist_t A).

Inductive sl_out :=
| OutUnit
| OutElem (x : option A)
| OutInt (i : Z)
| OutBool (b : bool).

Definition unit_out (m : cres (smartlist_t A)) : cres (smartlist_t A * sl_out) :=
  let* sl := m in Ok (sl, OutUnit).

Definition run_op (o : sl_op) sl : cres (smartlist_t A * sl_out) :=
  match o with
  | OpClear => unit_out (smartlist_clear sl)
  | OpGrow n => unit_out (smartlist_grow sl n)
  | OpAdd x => unit_out (smartlist_add sl x)
  | OpAddAll s2 => unit_out (smartlist_add_all sl s2)
  | OpRemove x => unit_out (smartlist_remove sl x)
  | OpRemoveKeeporder x => unit_out (smartlist_remove_keeporder sl x)
  | OpPopLast => let* (sl, x) := smartlist_pop_last sl in Ok (sl, OutElem x)
  | OpPos x => let* i := smartlist_pos sl x in Ok (sl, OutInt i)
  | OpContains x => let* b := smartlist_contains sl x in Ok (sl, OutBool b)
  | OpDel i => unit_out (smartlist_del sl i)
  | OpDelKeeporder i => unit_out (smartlist_del_keeporder sl i)
  | OpInsert i x => unit_out (smartlist_insert sl i x)
  | OpReverse => unit_out (smartlist_reverse sl)
  | OpIntersect s2 => unit_out (smartlist_intersect sl s2)
  | OpSubtract s2 => unit_out (smartlist_subtract sl s2)
  | OpOverlap s2 => let* b := smartlist_overlap sl s2 in Ok (sl, OutBool b)
  end.

(** The elements of a smartlist, and its well-formedness. *)
Definition elems sl : list (option A) := take (Z.to_nat (num_used sl)) (sl_list sl).
Definition wf sl : Prop := repr sl (elems sl).

Lemma repr_elems sl l : repr sl l -> elems sl = l.
Proof. intros (k & El & En & _). unfold elems. rewrite El. by apply take_zapp. Qed.

Lemma repr_wf sl l : repr sl l -> wf sl.
Proof. intros H. unfold wf. by rewrite (repr_elems _ _ H). Qed.

(** The smartlist arguments of an operation. *)
Definition wf_arg (o : sl_op) : Prop :=
  match o with
  | OpAddAll s | OpIntersect s | OpSubtract s | OpOverlap s => wf s
  | _ => True
  end.

(** When an operation may be called on a list of pointers [l]. *)
Definition pre_op (o : sl_op) (l : list (option A)) : bool :=
  match o with
  | OpGrow n => n <=? INT_MAX
  | OpAdd _ => zlen l <? INT_MAX
  | OpAddAll s2 => zlen l + zlen (elems s2) <=? INT_MAX
  | OpDel i | OpDelKeeporder i => (0 <=? i) && (i <? zlen l)
  | OpInsert i _ => (0 <=? i) && (i <=? zlen l) && (zlen l <? INT_MAX)
  | _ => true
  end.

(** What an operation does to the list and what it returns. *)
Definition spec_op (o : sl_op) (l l' : list (option A)) (out : sl_out) : Prop :=
  match o with
  | OpClear => l' = [] /\ out = OutUnit
  | OpGrow n => l' = l ++ repeat None (Z.to_nat (n - zlen l)) /\ out = OutUnit
  | OpAdd x => l' = l ++ [x] /\ out = OutUnit
  | OpAddAll s2 => l' = l ++ elems s2 /\ out = OutUnit
  | OpRemove x =>
      (forall l1 l2, l = l1 ++ l2 -> x ∉ l1 -> exists l2', l' = l1 ++ l2') /\
      (if x is Some _ then l' ≡ₚ base.filter (fun y => y <> x) l else l' = l) /\ out = OutUnit
  | OpRemoveKeeporder x => (if x is Some _ then l' = base.filter (fun y => y <> x) l else l' = l) /\ out = OutUnit
  | OpPopLast => l' = removelast l /\ out = OutElem (default None (last l))
  | OpPos x => l' = l /\ out = OutInt (pos_spec x l 0)
  | OpContains x => l' = l /\ out = OutBool (bool_decide (x ∈ l))
  | OpDel i => l' = take (Z.to_nat i) l ++ swap_del (drop (Z.to_nat (i + 1)) l) /\ out = OutUnit
  | OpDelKeeporder i => l' = delete (Z.to_nat i) l /\ out = OutUnit
  | OpInsert i x => l' = take (Z.to_nat i) l ++ x :: drop (Z.to_nat i) l /\ out = OutUnit
  | OpReverse => l' = rev l /\ out = OutUnit
  | OpIntersect s2 => l' ≡ₚ base.filter (fun x => x ∈ elems s2) l /\ out = OutUnit
  | OpSubtract s2 => l' ≡ₚ base.filter (fun x => x = None \/ x ∉ elems s2) l /\ out = OutUnit
  | OpOverlap s2 => l' = l /\ out = OutBool (existsb (fun x => bool_decide (x ∈ l)) (elems s2))
  end.

Lemma unit_out_Ok m sl : m = Ok sl -> unit_out m = Ok (sl, OutUnit).
Proof. by intros ->. Qed.

Lemma split_at (l : list (option A)) i :
  0 <= i < zlen l -> exists l1 x l2, l = l1 ++ x :: l2 /\ i = zlen l1.
Proof.
  intros Hi. destruct (aget_in_range l i Hi) as (x & _ & Hx).
  exists (take (Z.to_nat i) l), x, (drop (S (Z.to_nat i)) l).
  split; [symmetry; by apply take_drop_middle|]. unfold zlen in *. rewrite length_take. lia.
Qed.

Lemma remove_spec sl l x :
  repr sl l -> exists sl' l', smartlist_remove sl x = Ok sl' /\ repr sl' l' /\ spec_op (OpRemove x) l l' OutUnit.
Proof.
  intros Hr. destruct x as [a|]; [|exists sl, l; split_and!; auto; split_and!; eauto].
  destruct (remove_repr sl [] l (Some a)) as (sl' & l' & E & Hr' & Hl'); [done|apply not_elem_of_nil|done|].
  exists sl', l'. split_and!; auto. cbn [spec_op]. split_and!; [|done|done]. intros l1 l2 -> Hx.
  destruct (remove_repr sl l1 l2 (Some a)) as (sl2 & l2' & E2 & Hr2 & _); auto.
  rewrite E in E2. injection E2 as <-. exists l2'. by rewrite <- (repr_elems _ _ Hr2), (repr_elems _ _ Hr').
Qed.

Lemma run_op_ok o sl l :
  repr sl l -> wf_arg o -> pre_op o l = true ->
  exists sl' out l', run_op o sl = Ok (sl', out) /\ spec_op o l l' out /\ repr sl' l'.
Proof.
  intros Hr Hw Hp. destruct o; cbn [run_op pre_op wf_arg spec_op] in *; boolp;
    try (destruct (split_at l idx) as (l1 & y & l2 & -> & ->); [lia|]).
  - destruct (clear_repr _ _ Hr) as (sl' & -> & Hres). eauto 8.
  - destruct (grow_repr _ _ n Hr) as (sl' & -> & Hres); [lia|]. eauto 8.
  - destruct (add_repr _ _ x Hr) as (sl' & -> & Hres); [lia|]. eauto 8.
  - destruct (add_all_repr _ _ _ _ Hr Hw) as (sl' & -> & Hres); [lia|]. eauto 8.
  - destruct (remove_spec _ _ x Hr) as (sl' & l' & -> & Hres & Hs). exists sl', OutUnit, l'. auto.
  - destruct x as [a|]; [|exists sl, OutUnit, l; auto].
    destruct (remove_keeporder_repr _ _ (Some a) ltac:(done) Hr) as (sl' & -> & Hres). eauto 8.
  - destruct (pop_last_repr _ _ Hr) as (sl' & -> & Hres). eauto 8.
  - rewrite (pos_repr _ _ _ Hr). eauto 8.
  - rewrite (contains_repr _ _ _ Hr). eauto 8.
  - destruct (del_repr _ _ _ _ Hr) as (sl' & -> & Hres). do 3 eexists. split_and!; [done|..|done|done].
    rewrite take_zapp by done. replace (l1 ++ y :: l2) with ((l1 ++ [y]) ++ l2) by lassoc. rewrite drop_zapp by zlia. done.
  - destruct (del_keeporder_repr _ _ _ _ Hr) as (sl' & -> & Hres). do 3 eexists. split_and!; [done|..|done|done].
    unfold zlen. rewrite Nat2Z.id. by rewrite delete_middle.
  - assert (exists l1 l2, l = l1 ++ l2 /\ idx = zlen l1) as (l1 & l2 & -> & ->).
    { exists (take (Z.to_nat idx) l), (drop (Z.to_nat idx) l). rewrite take_drop. split; [done|].
      unfold zlen in *. rewrite length_take. lia. }
    destruct (insert_repr _ _ _ x Hr) as (sl' & -> & Hres); [lia|]. do 3 eexists. split_and!; [done|..|done|done].
    by rewrite take_zapp, drop_zapp by done.
  - destruct (reverse_repr _ _ Hr) as (sl' & -> & Hres). eauto 8.
  - destruct (intersect_repr _ _ _ _ Hr Hw) as (sl' & l' & -> & Hres & Hs). exists sl', OutUnit, l'. auto.
  - destruct (subtract_repr _ _ _ _ Hr Hw) as (sl' & l' & -> & Hres & Hs). exists sl', OutUnit, l'. auto.
  - rewrite (overlap_repr _ _ _ _ Hr Hw). eauto 8.
Qed.

Lemma run_op_bug o sl l :
  repr sl l -> wf_arg o -> pre_op o l = false -> run_op o sl = Bug.
Proof.
  intros Hr Hw Hp. pose proof (repr_num_used _ _ Hr) as En. pose proof (zlen_nonneg l).
  destruct o; cbn [run_op pre_op wf_arg] in *; try done; unfold unit_out.
  - boolp. unfold smartlist_grow. by rewrite ensure_capacity_bug by lia.
  - boolp. unfold smartlist_add. by rewrite ensure_capacity_bug by lia.
  - boolp. unfold smartlist_add_all. rewrite En, (repr_num_used _ _ Hw).
    pose proof (zlen_nonneg (elems s2)). replace (_ <=? _) with true by blia. by rewrite ensure_capacity_bug by lia.
  - unfold smartlist_del. rewrite En. apply andb_false_iff in Hp as [-> | ->]; [done|]. by case_match.
  - unfold smartlist_del_keeporder. rewrite En. apply andb_false_iff in Hp as [-> | ->]; [done|]. by case_match.
  - unfold smartlist_insert. rewrite En. destruct (0 <=? idx); [|done]. destruct (idx <=? zlen l) eqn:E; [|done].
    cbn [andb] in Hp. boolp. zcase.
    + unfold smartlist_add. by rewrite ensure_capacity_bug by lia.
    + by rewrite ensure_capacity_bug by lia.
Qed.

(** Sequences of operations on one smartlist. *)
Fixpoint run_ops (os : list sl_op) sl : cres (smartlist_t A * list sl_out) :=
  match os with
  | [] => Ok (sl, [])
  | o :: os =>
      let* (sl, out) := run_op o sl in
      let* (sl, outs) := run_ops os sl in
      Ok (sl, out :: outs)
  end.

(** A run of the abstract list: [None] when a precondition fails. *)
Inductive spec_run : list sl_op -> list (option A) -> option (list (option A) * list sl_out) -> Prop :=
| spec_run_nil l : spec_run [] l (Some (l, []))
| spec_run_bug o os l : pre_op o l = false -> spec_run (o :: os) l None
| spec_run_cons o os l l1 out r :
    pre_op o l = true -> spec_op o l l1 out -> spec_run os l1 r ->
    spec_run (o :: os) l (option_map (fun '(l', outs) => (l', out :: outs)) r).

Lemma run_ops_refines_from os sl l :
  repr sl l -> Forall wf_arg os ->
  exists r, spec_run os l r /\
    match r with
    | Some (l', outs) => exists sl', run_ops os sl = Ok (sl', outs) /\ repr sl' l'
    | None => run_ops os sl = Bug
    end.
Proof.
  revert sl l. induction os as [|o os IH]; intros sl l Hr Hw; inversion_clear Hw as [|? ? Ho Hos].
  - exists (Some (l, [])). split; [constructor|]. exists sl. done.
  - destruct (pre_op o l) eqn:Hp; cbn [run_ops].
    + destruct (run_op_ok _ _ _ Hr Ho Hp) as (sl1 & out & l1 & -> & Hs & Hr1). cbn [cbind].
      destruct (IH _ _ Hr1 Hos) as (r & Hrun & H). eexists. split; [by eapply spec_run_cons|].
      destruct r as [[l' outs]|]; cbn [option_map].
      * destruct H as (sl' & -> & Hr'). exists sl'. done.
      * by rewrite H.
    + exists None. split; [by constructor|]. by rewrite (run_op_bug _ _ _ Hr Ho Hp).
Qed.

(** C5. Refinement of the resizable array by lists: any sequence of smartlist
    operations on a new smartlist behaves as the list operations of the
    contract do, one result per call, and ends in a well-formed smartlist in
    which every unused entry is NULL; the only way to fail is a failed assertion,
    and it happens exactly when an index is out of range or the list would
    outgrow INT_MAX. *)
Theorem smartlist_refines_list os :
  Forall wf_arg os ->
  exists r, spec_run os [] r /\
    match r with
    | Some (l, outs) => exists sl, run_ops os smartlist_new = Ok (sl, outs) /\ repr sl l
    | None => run_ops os smartlist_new = Bug
    end.
Proof. apply run_ops_refines_from, repr_new. Qed.

End Ops.

Lemma smartlist_refines_list_witness :
  exists r, spec_run [OpAdd (Some 1); OpAdd (Some 2); OpInsert 0 (Some 3); OpRemove (Some 1); OpDel 5] [] r /\
    match r with
    | Some (l, outs) =>
        exists sl, run_ops [OpAdd (Some 1); OpAdd (Some 2); OpInsert 0 (Some 3); OpRemove (Some 1); OpDel 5]
          (@smartlist_new Z) = Ok (sl, outs) /\ repr sl l
    | None => run_ops [OpAdd (Some 1); OpAdd (Some 2); OpInsert 0 (Some 3); OpRemove (Some 1); OpDel 5]
          (@smartlist_new Z) = Bug
    end.
Proof. apply (smartlist_refines_list (A:=Z)). repeat constructor. Defined.
