(* ===== verification/StrList.v ===== *)
(** * Lists of strings, sorted lists

    Models lib/smartlist_core/smartlist_split.c and the string, searching and
    duplicate-removal functions of lib/container/smartlist.c.  A smartlist is here
    the list of its elements, which file Smartlist justifies. *)

From S2P Require Import Prelude CString DiOps UtilString.
From Stdlib Require Import ZArith String.
From stdpp Require Import base list numbers.
Open Scope Z_scope.

(** ** smartlist_split_string *)

Definition SPLIT_SKIP_SPACE : Z := 1.
Definition SPLIT_IGNORE_BLANK : Z := 2.
Definition SPLIT_STRIP_SPACE : Z := 4.

Definition has_flag (flags f : Z) : bool := negb (Z.land flags f =? 0).

Fixpoint skip_while (p : Z -> bool) (s : bytes) : bytes :=
  match s with
  | [] => []
  | c :: r => if p c then skip_while p r else s
  end.

(** [while (end > cp && TOR_ISSPACE( *(end-1))) --end] *)
Definition trim_end (s : bytes) : bytes := rev (skip_while TOR_ISSPACE (rev s)).

Definition is_hspace (c : Z) : bool := (c =? 9) || (c =? 32).

(** [cp .. end) and [end]. *)
Definition split_end (cp : bytes) (sep : option bytes) (max n : Z) : bytes * bytes :=
  if (0 <? max) && (n =? max - 1) then (cp, [])
  else match sep with
       | Some sep => match strstr cp sep with Some (a, b) => (a, b) | None => (cp, []) end
       | None => span (fun c => negb (is_hspace c)) cp
       end.

Definition split_next (end_ : bytes) (sep : option bytes) : option bytes :=
  match end_ with
  | [] => None
  | _ :: r =>
      match sep with
      | Some sep => Some (drop (length sep) end_)
      | None => Some (skip_while is_hspace r)
      end
  end.

Fixpoint split_loop (fuel : nat) (cp : bytes) (sep : option bytes) (flags max n : Z) : cres (list bytes) :=
  match fuel with
  | O => Fuel
  | S fuel =>
      let cp := if has_flag flags SPLIT_SKIP_SPACE then skip_while TOR_ISSPACE cp else cp in
      let '(piece, end_) := split_end cp sep max n in
      let next := split_next end_ sep in
      let piece := if has_flag flags SPLIT_SKIP_SPACE then trim_end piece else piece in
      let add := negb (length piece =? 0)%nat || negb (has_flag flags SPLIT_IGNORE_BLANK) in
      let string := if has_flag flags SPLIT_STRIP_SPACE then tor_strstrip piece [32] else piece in
      let n := if add then n + 1 else n in
      let* rest := match next with None => Ok [] | Some cp => split_loop fuel cp sep flags max n end in
      Ok (if add then string :: rest else rest)
  end.

(** The strings that a call appends, in order; the return value is their
    number. *)
Definition smartlist_split_string (str : bytes) (sep : option bytes) (flags max : Z) : cres (list bytes) :=
  split_loop (S (length str)) str sep flags max 0.

(** ** smartlist_join_strings2 *)

Fixpoint join_size (sl : list bytes) (join_len : nat) : nat :=
  match sl with
  | [] => 0
  | s :: r => length s + match r with [] => 0 | _ => join_len end + join_size r join_len
  end.

Fixpoint join_fill (sl : list bytes) (join : bytes) : bytes :=
  match sl with
  | [] => []
  | s :: r => s ++ match r with [] => [] | _ => join end ++ join_fill r join
  end.

(** The buffer has room for [n] bytes and the NUL. *)
Definition smartlist_join_strings2 (sl : list bytes) (join : bytes) (terminate : bool) : cres bytes :=
  let n := ((if terminate then length join else 0) + join_size sl (length join))%nat in
  let r := join_fill sl join ++ (if terminate then join else []) in
  assert! (length r <=? n)%nat;
  Ok r.

Definition smartlist_join_strings := smartlist_join_strings2.

(** ** Searching strings *)

Fixpoint smartlist_contains_string (sl : list bytes) (element : bytes) : bool :=
  match sl with
  | [] => false
  | s :: r => if strcmp s element =? 0 then true else smartlist_contains_string r element
  end.

Fixpoint string_pos_from (sl : list bytes) (element : bytes) (i : Z) : Z :=
  match sl with
  | [] => -1
  | s :: r => if strcmp s element =? 0 then i else string_pos_from r element (i + 1)
  end.

Definition smartlist_string_pos (sl : list bytes) (element : bytes) : Z := string_pos_from sl element 0.

Fixpoint smartlist_contains_string_case (sl : list bytes) (element : bytes) : bool :=
  match sl with
  | [] => false
  | s :: r => if strcasecmp s element =? 0 then true else smartlist_contains_string_case r element
  end.

Fixpoint strings_eq_loop (sl1 sl2 : list bytes) : bool :=
  match sl1, sl2 with
  | s1 :: r1, s2 :: r2 => if negb (strcmp s1 s2 =? 0) then false else strings_eq_loop r1 r2
  | _, _ => true
  end.

Definition smartlist_strings_eq (sl1 sl2 : option (list bytes)) : bool :=
  match sl1 with
  | None => match sl2 with None => true | Some _ => false end
  | Some l1 =>
      match sl2 with
      | None => false
      | Some l2 => if negb (zlen l1 =? zlen l2) then false else strings_eq_loop l1 l2
      end
  end.

(** ** Sorted lists *)

Section Sorted.
Context {A : Type}.

(** [smartlist_bsearch_idx]; [compare] is the comparison of the key with a
    member.  The result is the index and [*found_out]. *)
Section Search.
Variable compare : A -> Z.
Variable sl : list A.

Fixpoint bsearch_loop (fuel : nat) (lo hi : Z) : cres (Z * bool) :=
  match fuel with
  | O => Fuel
  | S fuel =>
      let len := zlen sl in
      if lo <=? hi then
        let diff := hi - lo in
        let mid := lo + diff / 2 in
        let* m := aget sl mid in
        let cmp := compare m in
        if cmp =? 0 then Ok (mid, true)
        else if 0 <? cmp then
          assert! (mid <? len);
          bsearch_loop fuel (mid + 1) hi
        else
          assert! (cmp <? 0);
          if 0 <? mid then bsearch_loop fuel lo (mid - 1)
          else
            assert! (mid =? lo);
            assert! (mid =? 0);
            Ok (0, false)
      else
        assert! (lo =? hi + 1);
        assert! (0 <=? lo);
        assert! (lo <=? len);
        assert! (0 <=? hi);
        assert! (hi <=? len);
        if lo <? len then
          let* m := aget sl lo in
          assert! (compare m <? 0);
          Ok (lo, false)
        else
          let* m := aget sl (len - 1) in
          assert! (0 <? compare m);
          Ok (lo, false)
  end.

Definition smartlist_bsearch_idx : cres (Z * bool) :=
  let len := zlen sl in
  if len =? 0 then Ok (0, false)
  else
    assert! (0 <? len);
    bsearch_loop (S (length sl)) 0 (len - 1).

Definition smartlist_bsearch : cres (option A) :=
  let* (idx, found) := smartlist_bsearch_idx in
  if found : bool then let* m := aget sl idx in Ok (Some m) else Ok None.

End Search.

(** [smartlist_uniq], [compare] being the comparison of two members. *)
Section Uniq.
Variable compare : A -> A -> Z.

Fixpoint uniq_loop (fuel : nat) (sl : list A) (i : Z) : cres (list A) :=
  match fuel with
  | O => Fuel
  | S fuel =>
      if i <? zlen sl then
        let* a := aget sl (i - 1) in
        let* b := aget sl i in
        if compare a b =? 0 then uniq_loop fuel (delete (Z.to_nat i) sl) i
        else uniq_loop fuel sl (i + 1)
      else Ok sl
  end.

Definition smartlist_uniq (sl : list A) : cres (list A) := uniq_loop (S (length sl)) sl 1.

(** [smartlist_get_most_frequent_]: the state is [most_frequent],
    [most_frequent_count], [cur] and [count]. *)
Record freq_state := mkfreq {
  most_frequent : option A; most_frequent_count : Z; freq_cur : option A; freq_count : Z
}.

Definition freq_flush (s : freq_state) : option A * Z :=
  match freq_cur s with
  | Some c => if most_frequent_count s <=? freq_count s then (Some c, freq_count s)
              else (most_frequent s, most_frequent_count s)
  | None => (most_frequent s, most_frequent_count s)
  end.

Definition freq_step (s : freq_state) (item : A) : freq_state :=
  if match freq_cur s with Some c => compare c item =? 0 | None => false end
  then mkfreq (most_frequent s) (most_frequent_count s) (freq_cur s) (freq_count s + 1)
  else let '(mf, mfc) := freq_flush s in mkfreq mf mfc (Some item) 1.

Definition smartlist_get_most_frequent_ (sl : list A) : option A * Z :=
  match sl with
  | [] => (None, 0)
  | _ => freq_flush (fold_left freq_step sl (mkfreq None 0 None 0))
  end.

End Uniq.
End Sorted.

Definition smartlist_uniq_strings (sl : list bytes) : cres (list bytes) := smartlist_uniq strcmp sl.

(** ** Splitting and joining *)

Lemma has_flag_0 f : has_flag 0 f = false.
Proof. done. Qed.

(** One round with no flag and no maximum. *)
Lemma split_loop_plain fuel cp sep n :
  split_loop (S fuel) cp (Some sep) 0 0 n =
  let '(piece, end_) := match strstr cp sep with Some (a, b) => (a, b) | None => (cp, []) end in
  let* rest := match split_next end_ (Some sep) with
               | None => Ok [] | Some cp => split_loop fuel cp (Some sep) 0 0 (n + 1) end in
  Ok (piece :: rest).
Proof.
  cbn [split_loop]. rewrite !has_flag_0. unfold split_end. change (0 <? 0) with false. cbn [andb negb].
  destruct (strstr cp sep) as [[a b]|]; by rewrite orb_true_r.
Qed.

Lemma prefix_split sep b : prefix_of sep b = true -> sep <> [] -> exists r, b = sep ++ r /\ split_next b (Some sep) = Some r.
Proof.
  intros [r ->]%prefix_of_spec Hs. exists r. split; [done|]. unfold split_next.
  destruct sep as [|x sep]; [done|]. cbn [app]. f_equal. apply (drop_app_length (x :: sep)).
Qed.

Lemma split_loop_join fuel cp sep n :
  (length cp < fuel)%nat -> sep <> [] ->
  exists l, split_loop fuel cp (Some sep) 0 0 n = Ok l /\ l <> [] /\ join_fill l sep = cp /\
    Forall (fun s => strstr s sep = None) l.
Proof.
  intros Hf Hs. revert cp n Hf. induction fuel as [|f IH]; intros cp n Hf; [lia|].
  rewrite split_loop_plain. destruct (strstr cp sep) as [[a b]|] eqn:E.
  - apply strstr_Some in E as (-> & Hp & Hmin).
    destruct (prefix_split sep b Hp Hs) as (r & -> & ->).
    destruct (IH r (n + 1)) as (l & -> & Hl & Hj & Hn).
    { rewrite !length_app in Hf. destruct sep; [done|]. cbn [length] in Hf. lia. }
    exists (a :: l). split_and!; [done|done| |].
    + cbn [join_fill]. destruct l; [done|]. by rewrite Hj.
    + constructor; [|done]. destruct (strstr a sep) as [[x y]|] eqn:Ea; [|done].
      apply strstr_Some in Ea as (-> & [z ->]%prefix_of_spec & _).
      specialize (Hmin x ((sep ++ z) ++ sep ++ r)). rewrite <- !app_assoc in Hmin.
      ospecialize (Hmin eq_refl _); [apply prefix_of_spec; by exists (z ++ sep ++ r)|].
      rewrite !length_app in Hmin. destruct sep; [done|]. cbn [length] in Hmin. lia.
  - exists [cp]. cbn [split_next]. split_and!; [done|done|cbn [join_fill]; by rewrite !app_nil_r|by repeat constructor].
Qed.

Lemma join_size_fill sl join : length (join_fill sl join) = join_size sl (length join).
Proof.
  induction sl as [|s r IH]; cbn [join_fill join_size]; [done|].
  rewrite !length_app, IH. destruct r; cbn [length]; lia.
Qed.

Lemma join_strings2_total sl join terminate :
  smartlist_join_strings2 sl join terminate = Ok (join_fill sl join ++ if terminate then join else []).
Proof.
  unfold smartlist_join_strings2. rewrite length_app, join_size_fill.
  destruct (Nat.leb_spec (join_size sl (length join) + length (if terminate then join else []))
    ((if terminate then length join else 0) + join_size sl (length join))) as [|H]; [done|].
  destruct terminate; cbn [length] in H; lia.
Qed.

(** Splitting loses nothing: for a non-empty separator, the pieces joined
    with the separator give the string back, the buffer that [smartlist_join_strings]
    allocates is large enough, and no piece contains the separator. *)
Theorem split_join_roundtrip str sep :
  sep <> [] ->
  exists l, smartlist_split_string str (Some sep) 0 0 = Ok l /\
    smartlist_join_strings l sep false = Ok str /\ Forall (fun s => strstr s sep = None) l.
Proof.
  intros Hs. destruct (split_loop_join (S (length str)) str sep 0) as (l & E & _ & Hj & Hn); [lia|done|].
  exists l. unfold smartlist_join_strings. rewrite join_strings2_total, Hj, app_nil_r. done.
Qed.

Lemma split_join_roundtrip_witness :
  exists l, smartlist_split_string (s2b "a,,bc,") (Some (s2b ",")) 0 0 = Ok l /\
    smartlist_join_strings l (s2b ",") false = Ok (s2b "a,,bc,") /\
    Forall (fun s => strstr s (s2b ",") = None) l.
Proof. apply (split_join_roundtrip (s2b "a,,bc,") (s2b ",")). done. Defined.

Lemma strstr_char a c r : c ∉ a -> strstr (a ++ c :: r) [c] = Some (a, c :: r).
Proof.
  induction a as [|x a IH]; intros Hc; cbn [app strstr prefix_of].
  - by rewrite Z.eqb_refl.
  - apply not_elem_of_cons in Hc as [Hx Hc]. replace (c =? x) with false by blia. cbn [andb]. by rewrite IH.
Qed.

Lemma strstr_char_None a c : c ∉ a -> strstr a [c] = None.
Proof.
  induction a as [|x a IH]; intros Hc; cbn [strstr prefix_of]; [done|].
  apply not_elem_of_cons in Hc as [Hx Hc]. replace (c =? x) with false by blia. cbn [andb]. by rewrite IH.
Qed.

Lemma split_loop_of_join fuel l c max n :
  l <> [] -> Forall (fun s => c ∉ s) l -> (length (join_fill l [c]) < fuel)%nat ->
  max <= 0 \/ n + zlen l <= max ->
  split_loop fuel (join_fill l [c]) (Some [c]) 0 max n = Ok l.
Proof.
  revert l n. induction fuel as [|f IH]; intros l n Hl Hc Hf Hm; [lia|]. cbn [split_loop].
  rewrite !has_flag_0. unfold split_end.
  destruct l as [|s r]; [done|]. apply Forall_cons_iff in Hc as [Hs Hr]. cbn [join_fill] in *. destruct r as [|s' r].
  - cbn [join_fill]. rewrite !app_nil_r, strstr_char_None by done.
    destruct (_ && _); cbn [split_next cbind]; by rewrite orb_true_r.
  - rewrite !zlen_cons in Hm. pose proof (zlen_nonneg r). replace ((0 <? max) && (n =? max - 1)) with false by blia.
    cbn [app] in *. rewrite strstr_char by done. cbn [split_next length drop negb]. rewrite drop_0, !orb_true_r.
    rewrite IH; [done|done|done| |rewrite zlen_cons; lia]. rewrite length_app in Hf. cbn [length] in Hf. lia.
Qed.

(** Joining a non-empty list of strings with a one-byte separator that
    occurs in none of them, then splitting at that separator, gives the list back. *)
Theorem join_split_roundtrip l c :
  l <> [] -> Forall (fun s => c ∉ s) l ->
  exists str, smartlist_join_strings l [c] false = Ok str /\ smartlist_split_string str (Some [c]) 0 0 = Ok l.
Proof.
  intros Hl Hc. exists (join_fill l [c]). unfold smartlist_join_strings. rewrite join_strings2_total, app_nil_r.
  split; [done|]. apply split_loop_of_join; auto. lia.
Qed.

Lemma join_split_roundtrip_witness :
  exists str, smartlist_join_strings [[97]; []; [98; 99]] [44] false = Ok str /\
    smartlist_split_string str (Some [44]) 0 0 = Ok [[97]; []; [98; 99]].
Proof.
  apply (join_split_roundtrip [[97]; []; [98; 99]] 44); [done|].
  repeat (apply List.Forall_cons; [apply (bool_decide_unpack _); vm_compute; exact I|]). apply List.Forall_nil.
Defined.

(** A positive maximum bounds the number of pieces, whatever the flags. *)
Lemma split_max fuel cp sep flags max n l :
  0 < max -> n < max -> split_loop fuel cp sep flags max n = Ok l -> zlen l <= max - n.
Proof.
  intros Hm. revert cp n l. induction fuel as [|f IH]; intros cp n l Hn; [done|]. cbn [split_loop].
  set (cp' := if has_flag flags SPLIT_SKIP_SPACE then _ else cp). destruct (split_end cp' sep max n) as [piece end_] eqn:E.
  set (add := _ || _). set (string := if has_flag flags SPLIT_STRIP_SPACE then _ else _).
  intros (rest & Hr & [= <-])%cbind_Ok.
  assert (Hz : zlen (if add then string :: rest else rest) = zlen rest + if add then 1 else 0)
    by (destruct add; zlia). rewrite Hz.
  destruct (split_next end_ sep) as [next|] eqn:En; [|injection Hr as <-; change (zlen []) with 0; destruct add; lia].
  destruct (decide (n = max - 1)) as [->|Hne].
  { unfold split_end in E. replace ((0 <? max) && _) with true in E by blia. injection E as <- <-. done. }
  apply IH in Hr; [|destruct add; lia]. destruct add; lia.
Qed.

Lemma skip_while_suffix p s : exists a, s = a ++ skip_while p s.
Proof.
  induction s as [|c s [a IH]]; [by exists []|]. cbn [skip_while]. destruct (p c); [|by exists []].
  exists (c :: a). cbn [app]. by f_equal.
Qed.

(** Splitting at a non-empty separator always returns, whatever the flags. *)
Lemma split_loop_total fuel cp sep flags max n :
  sep <> [] -> (length cp < fuel)%nat -> exists l, split_loop fuel cp (Some sep) flags max n = Ok l.
Proof.
  intros Hs. revert cp n. induction fuel as [|f IH]; intros cp n Hf; [lia|]. cbn [split_loop].
  set (cp1 := if has_flag flags SPLIT_SKIP_SPACE then _ else cp).
  assert (H1 : (length cp1 <= length cp)%nat).
  { unfold cp1. destruct (has_flag _ _); [|done]. destruct (skip_while_suffix TOR_ISSPACE cp) as [a Ha].
    rewrite Ha at 2. rewrite length_app. lia. }
  destruct (split_end cp1 (Some sep) max n) as [piece end_] eqn:E.
  assert (H2 : (length end_ <= length cp1)%nat).
  { unfold split_end in E. destruct (_ && _); [injection E as <- <-; cbn; lia|].
    destruct (strstr cp1 sep) as [[a b]|] eqn:Ea; injection E as <- <-; [|cbn; lia].
    apply strstr_Some in Ea as (-> & _). rewrite length_app. lia. }
  destruct end_ as [|e r]; cbn [split_next cbind]; [by eexists|].
  set (n' := if _ || _ then n + 1 else n). destruct (IH (drop (length sep) (e :: r)) n') as [l ->]; [|by eexists].
  rewrite length_drop. destruct sep; [done|]. cbn [length] in *. lia.
Qed.

(** ** Binary search *)

Section BsearchProofs.
Context {A : Type}.
Variable compare : A -> Z.
Variable sl : list A.

(** The members are in order: as the index grows, the key goes from greater
    than the member to equal to less. *)
Definition ordered : Prop :=
  forall i j a b, (i <= j)%nat -> sl !! i = Some a -> sl !! j = Some b ->
    Z.sgn (compare b) <= Z.sgn (compare a).

(** Every member before [lo] is less than the key, every member after [hi]
    greater. *)
Definition search_inv (lo hi : Z) : Prop :=
  (forall i a, Z.of_nat i < lo -> sl !! i = Some a -> 0 < compare a) /\
  (forall i a, hi < Z.of_nat i -> sl !! i = Some a -> compare a < 0).

(** What the search promises. *)
Definition search_result (idx : Z) (found : bool) : Prop :=
  if found then exists a, sl !! Z.to_nat idx = Some a /\ compare a = 0
  else search_inv idx (idx - 1) /\ 0 <= idx <= zlen sl.

Lemma bsearch_loop_spec fuel lo hi :
  ordered -> search_inv lo hi -> 0 <= lo -> lo <= hi + 1 -> 0 <= hi < zlen sl -> hi - lo + 1 < Z.of_nat fuel ->
  exists idx found, bsearch_loop compare sl fuel lo hi = Ok (idx, found) /\ search_result idx found.
Proof.
  intros Hord. revert lo hi. induction fuel as [|f IH]; intros lo hi [Hlo Hhi] H0 H1 H2 Hf; [lia|].
  cbn [bsearch_loop]. destruct (Z.leb_spec lo hi) as [Hle|Hgt].
  - set (mid := lo + (hi - lo) / 2). assert (Hmid : lo <= mid <= hi) by (unfold mid; Z.to_euclidean_division_equations; lia).
    destruct (aget_in_range sl mid) as (a & -> & Ha); [lia|]. cbn [cbind].
    destruct (Z.eqb_spec (compare a) 0) as [E|E].
    { exists mid, true. split; [done|]. by exists a. }
    destruct (Z.ltb_spec 0 (compare a)) as [Hp|Hp].
    + replace (mid <? zlen sl) with true by blia. apply IH; try lia. split; [|done].
      intros i b Hi Hb. pose proof (Hord i (Z.to_nat mid) b a ltac:(lia) Hb Ha) as Hs.
      rewrite (Z.sgn_pos (compare a)) in Hs by lia. apply Z.sgn_pos_iff. pose proof (Z.sgn_spec (compare b)). lia.
    + replace (compare a <? 0) with true by blia.
      assert (Hinv : forall i b, mid <= Z.of_nat i -> sl !! i = Some b -> compare b < 0).
      { intros i b Hi Hb. pose proof (Hord (Z.to_nat mid) i a b ltac:(lia) Ha Hb) as Hs.
        rewrite (Z.sgn_neg (compare a)) in Hs by lia. apply Z.sgn_neg_iff. pose proof (Z.sgn_spec (compare b)). lia. }
      zcase.
      * apply IH; try lia. split; [done|]. intros i b Hi. apply Hinv. lia.
      * replace (mid =? lo) with true by blia. replace (mid =? 0) with true by blia.
        exists 0, false. split; [done|]. split; [|lia]. split; [lia|]. intros i b Hi. apply Hinv. lia.
  - replace (lo =? hi + 1) with true by blia. replace (0 <=? lo) with true by blia.
    replace (lo <=? zlen sl) with true by blia. replace (0 <=? hi) with true by blia.
    replace (hi <=? zlen sl) with true by blia.
    assert (Hres : search_result lo false).
    { split; [|lia]. split; [done|]. intros i b Hi. apply Hhi. lia. }
    zcase.
    + destruct (aget_in_range sl lo) as (a & -> & Ha); [lia|]. cbn [cbind].
      replace (compare a <? 0) with true; [eauto|]. symmetry. apply Z.ltb_lt. eapply Hhi; [|exact Ha]. lia.
    + destruct (aget_in_range sl (zlen sl - 1)) as (a & -> & Ha); [lia|]. cbn [cbind].
      replace (0 <? compare a) with true; [eauto|]. symmetry. apply Z.ltb_lt. eapply Hlo; [|exact Ha]. lia.
Qed.

(** Binary search: on a list whose members are in order, no assertion of
    [smartlist_bsearch_idx] fails and the loop ends; when it reports a match the
    member at the index matches, and otherwise the index separates the
    members less than the key from the members greater than it (so no member
    matches). *)
Theorem smartlist_bsearch_idx_correct :
  ordered ->
  exists idx found, smartlist_bsearch_idx compare sl = Ok (idx, found) /\ search_result idx found.
Proof.
  intros Hord. unfold smartlist_bsearch_idx. pose proof (zlen_nonneg sl).
  destruct (Z.eqb_spec (zlen sl) 0).
  - exists 0, false. split; [done|]. split; [|lia].
    split; intros i a Hi Hx; [lia|]. apply lookup_lt_Some in Hx. unfold zlen in *. lia.
  - replace (0 <? zlen sl) with true by blia. apply bsearch_loop_spec; auto; try (unfold zlen in *; lia).
    split; [lia|]. intros i a Hi Ha. apply lookup_lt_Some in Ha. unfold zlen in *. lia.
Qed.

End BsearchProofs.

Lemma smartlist_bsearch_idx_correct_witness :
  exists idx found, smartlist_bsearch_idx (fun m => 5 - m) [1; 3; 6; 9] = Ok (idx, found) /\
    search_result (fun m => 5 - m) [1; 3; 6; 9] idx found.
Proof.
  apply (smartlist_bsearch_idx_correct (fun m => 5 - m) [1; 3; 6; 9]).
  intros i j a b Hij Ha Hb.
  destruct i as [|[|[|[|i]]]]; destruct j as [|[|[|[|j]]]]; try lia; cbn in Ha, Hb; try done;
    injection Ha as <-; injection Hb as <-; cbn; lia.
Defined.

(** ** Removing duplicates *)

Section UniqProofs.
Context {A : Type}.
Variable compare : A -> A -> Z.

(** Keep an element when it differs from the last one kept. *)
Fixpoint uniq_ref (last : A) (l : list A) : list A :=
  match l with
  | [] => []
  | x :: r => if compare last x =? 0 then uniq_ref last r else x :: uniq_ref x r
  end.

Lemma uniq_loop_ref fuel pre a r :
  (length r < fuel)%nat ->
  uniq_loop compare fuel (pre ++ a :: r) (zlen pre + 1) = Ok (pre ++ a :: uniq_ref a r).
Proof.
  revert pre a r. induction fuel as [|f IH]; intros pre a r Hf; [lia|]. cbn [uniq_loop].
  rewrite zlen_app, zlen_cons. destruct r as [|b r].
  { change (zlen []) with 0. by replace (_ <? _) with false by blia. }
  rewrite zlen_cons. pose proof (zlen_nonneg r). replace (_ <? _) with true by blia.
  replace (zlen pre + 1 - 1) with (zlen pre) by lia. rewrite aget_mid by done. cbn [cbind].
  replace (pre ++ a :: b :: r) with ((pre ++ [a]) ++ b :: r) by lassoc.
  rewrite aget_mid by zlia. cbn [cbind uniq_ref length] in *. zcase.
  - replace (Z.to_nat (zlen pre + 1)) with (length (pre ++ [a])) by (rewrite length_app; unfold zlen; cbn [length]; lia).
    rewrite delete_middle, <- app_assoc. cbn [app]. apply IH. lia.
  - replace (zlen pre + 1 + 1) with (zlen (pre ++ [a]) + 1) by zlia. rewrite IH by lia. f_equal. lassoc.
Qed.

(** Equal elements are together, as they are in a sorted list. *)
Fixpoint grouped (l : list A) : Prop :=
  match l with
  | [] => True
  | x :: r => (forall pre y suf, r = pre ++ y :: suf -> compare x y = 0 -> Forall (fun z => compare x z = 0) pre) /\ grouped r
  end.

Lemma uniq_ref_all l x : Forall (fun z => compare x z = 0) l -> uniq_ref x l = [].
Proof. induction 1 as [|y l Hy Hl IH]; cbn [uniq_ref]; [done|]. by rewrite Hy. Qed.

Lemma uniq_ref_cover l x z : z ∈ l -> compare x x = 0 -> (forall y, y ∈ l -> compare y y = 0) ->
  exists y, y ∈ x :: uniq_ref x l /\ compare y z = 0.
Proof.
  revert x. induction l as [|w l IH]; intros x Hz Hx Hr; [by apply not_elem_of_nil in Hz|].
  cbn [uniq_ref]. apply elem_of_cons in Hz as [->|Hz].
  - zcase; [exists x; split; [apply list_elem_of_here|done]|].
    exists w. split; [apply list_elem_of_further, list_elem_of_here|apply Hr, list_elem_of_here].
  - zcase.
    + apply IH; auto. intros y Hy. apply Hr. by apply list_elem_of_further.
    + destruct (IH w Hz) as (y & Hy & E); [apply Hr, list_elem_of_here|intros y Hy; apply Hr; by apply list_elem_of_further|].
      exists y. split; [by apply list_elem_of_further|done].
Qed.

Lemma uniq_ref_sub l x y : y ∈ uniq_ref x l -> y ∈ l.
Proof.
  revert x. induction l as [|w l IH]; intros x; cbn [uniq_ref]; [intros H; by apply not_elem_of_nil in H|]. zcase.
  - intros H%IH. by apply list_elem_of_further.
  - intros [->|H]%elem_of_cons; [apply list_elem_of_here|]. apply list_elem_of_further. eauto.
Qed.

Lemma grouped_later x l y : grouped (x :: l) -> y ∈ uniq_ref x l -> compare x y <> 0.
Proof.
  revert x. induction l as [|w l IH]; intros x [Hg Hgl] Hy E; cbn [uniq_ref] in Hy; [by apply not_elem_of_nil in Hy|].
  destruct Hgl as [Hw Hl]. revert Hy. zcase; intros Hy.
  - apply (IH x); auto. split; [|done]. intros pre z suf -> Hz.
    specialize (Hg (w :: pre) z suf eq_refl Hz). by apply Forall_cons_iff in Hg as [_ Hg].
  - apply elem_of_cons in Hy as [->|Hy]; [done|]. apply uniq_ref_sub in Hy.
    apply list_elem_of_split in Hy as (p & s & ->).
    specialize (Hg (w :: p) y s eq_refl E). by apply Forall_cons_iff in Hg as [Hg _].
Qed.

(** No two elements of the result compare equal. *)
Fixpoint pairwise_distinct (l : list A) : Prop :=
  match l with
  | [] => True
  | x :: r => (forall y, y ∈ r -> compare x y <> 0) /\ pairwise_distinct r
  end.

Lemma uniq_ref_distinct l x : grouped (x :: l) -> pairwise_distinct (x :: uniq_ref x l).
Proof.
  revert x. induction l as [|w l IH]; intros x Hg; [split; [intros y Hy; by apply not_elem_of_nil in Hy|done]|].
  split; [intros y; by apply grouped_later|]. cbn [uniq_ref]. zcase.
  - destruct Hg as [Hg [Hw Hl]]. apply (IH x). split; [|done]. intros pre z suf -> Hz.
    specialize (Hg (w :: pre) z suf eq_refl Hz). by apply Forall_cons_iff in Hg as [_ Hg].
  - apply IH. by destruct Hg.
Qed.

(** Removing duplicates: on a list in which equal elements are adjacent
    (any sorted list), [smartlist_uniq] ends with a list without two equal
    elements, whose elements are elements of the input and in which every element
    of the input has an equal. *)
Theorem smartlist_uniq_correct l :
  grouped l -> (forall x, compare x x = 0) ->
  exists l', smartlist_uniq compare l = Ok l' /\ pairwise_distinct l' /\
    (forall y, y ∈ l' -> y ∈ l) /\ (forall z, z ∈ l -> exists y, y ∈ l' /\ compare y z = 0).
Proof.
  intros Hg Hrefl. destruct l as [|a l].
  - exists []. split_and!; auto. intros z Hz. by apply not_elem_of_nil in Hz.
  - exists (a :: uniq_ref a l). unfold smartlist_uniq. split_and!.
    + apply (uniq_loop_ref (S (length (a :: l))) [] a l). cbn [length]. lia.
    + by apply uniq_ref_distinct.
    + intros y [->|Hy]%elem_of_cons; [apply list_elem_of_here|]. apply list_elem_of_further. by eapply uniq_ref_sub.
    + intros z [->|Hz]%elem_of_cons; [exists a; split; [apply list_elem_of_here|done]|].
      apply uniq_ref_cover; auto.
Qed.

End UniqProofs.

Lemma smartlist_uniq_correct_witness :
  exists l', smartlist_uniq Z.sub [1; 1; 2; 5; 5] = Ok l' /\ pairwise_distinct Z.sub l' /\
    (forall y, y ∈ l' -> y ∈ [1; 1; 2; 5; 5]) /\ (forall z, z ∈ [1; 1; 2; 5; 5] -> exists y, y ∈ l' /\ y - z = 0).
Proof.
  apply (smartlist_uniq_correct Z.sub); [|intros; lia].
  repeat (split; [intros pre y suf E Hy; cbn [app] in E;
    repeat (destruct pre as [|? pre]; cbn [app] in E;
      [first [discriminate E | injection E as ? ?; subst; first [exfalso; lia | forall_tac]]
      |first [discriminate E | injection E as ? E; subst]])|]); done.
Defined.
