(* ===== verification/PQueue.v ===== *)
(** * Priority queues

    Models the heap functions of lib/container/smartlist.c
    ([smartlist_heapify] and the [smartlist_pqueue_*] functions).  The state is
    the smartlist that holds the heap and the index field that every item
    carries; an item is in at most one heap, so that field is a map from items to
    indices.  [compare] is the caller's comparison. *)

From S2P Require Import Prelude.
From Stdlib Require Import ZArith.
From stdpp Require Import base list numbers functions.
Open Scope Z_scope.

Definition MAX_PARENT_IDX : Z := (INT_MAX - 2) / 2.
Definition IDX_MAY_HAVE_CHILDREN (i : Z) : bool := i <=? MAX_PARENT_IDX.
Definition LEFT_CHILD (i : Z) : Z := 2 * i + 1.
Definition PARENT (i : Z) : Z := (i - 1) / 2.

Section PQueue.
Context {A : Type} `{EqDecision A}.
Variable compare : A -> A -> Z.

Record pqueue := mkpq { pq_list : list A; pq_idx : A -> Z }.

(** [*IDXP(p) = i] *)
Definition set_idx (h : pqueue) (p : A) (i : Z) : pqueue :=
  mkpq (pq_list h) (fun q => if decide (q = p) then i else pq_idx h q).

Definition UPDATE_IDX (h : pqueue) (i : Z) : cres pqueue :=
  let* updated := aget (pq_list h) i in Ok (set_idx h updated i).

(** The exchange of two items and the update of their indices. *)
Definition swap_items (h : pqueue) (i j : Z) : cres pqueue :=
  let* tmp := aget (pq_list h) i in
  let* y := aget (pq_list h) j in
  let* l := aset (pq_list h) i y in
  let* l := aset l j tmp in
  let* h := UPDATE_IDX (mkpq l (pq_idx h)) i in
  UPDATE_IDX h j.

Fixpoint smartlist_heapify (fuel : nat) (h : pqueue) (idx : Z) : cres pqueue :=
  match fuel with
  | O => Fuel
  | S fuel =>
      if negb (IDX_MAY_HAVE_CHILDREN idx) then Ok h
      else
        let left_idx := LEFT_CHILD idx in
        let num_used := zlen (pq_list h) in
        if num_used <=? left_idx then Ok h
        else
          let* a := aget (pq_list h) idx in
          let* l := aget (pq_list h) left_idx in
          let best_idx := if compare a l <? 0 then idx else left_idx in
          let* best_idx :=
            (if left_idx + 1 <? num_used then
               let* r := aget (pq_list h) (left_idx + 1) in
               let* b := aget (pq_list h) best_idx in
               Ok (if compare r b <? 0 then left_idx + 1 else best_idx)
             else Ok best_idx) in
          if best_idx =? idx then Ok h
          else
            let* h := swap_items h idx best_idx in
            smartlist_heapify fuel h best_idx
  end.

Fixpoint sift_up (fuel : nat) (h : pqueue) (idx : Z) : cres pqueue :=
  match fuel with
  | O => Fuel
  | S fuel =>
      if idx =? 0 then Ok h
      else
        let parent := PARENT idx in
        let* a := aget (pq_list h) idx in
        let* p := aget (pq_list h) parent in
        if compare a p <? 0 then
          let* h := swap_items h parent idx in
          sift_up fuel h parent
        else Ok h
  end.

(** The size limit of [smartlist_add] applies. *)
Definition smartlist_pqueue_add (h : pqueue) (item : A) : cres pqueue :=
  assert! (zlen (pq_list h) <? INT_MAX);
  let h := mkpq (pq_list h ++ [item]) (pq_idx h) in
  let num_used := zlen (pq_list h) in
  let* h := UPDATE_IDX h (num_used - 1) in
  sift_up (S (length (pq_list h))) h (num_used - 1).

Definition smartlist_pqueue_pop (h : pqueue) : cres (A * pqueue) :=
  assert! (negb (zlen (pq_list h) =? 0));
  let* top := aget (pq_list h) 0 in
  let h := set_idx h top (-1) in
  let num_used := zlen (pq_list h) - 1 in
  if negb (num_used =? 0) then
    let* x := aget (pq_list h) num_used in
    let* l := aset (pq_list h) 0 x in
    let h := mkpq (take (Z.to_nat num_used) l) (pq_idx h) in
    let* h := UPDATE_IDX h 0 in
    let* h := smartlist_heapify (S (length (pq_list h))) h 0 in
    Ok (top, h)
  else Ok (top, mkpq [] (pq_idx h)).

Definition smartlist_pqueue_remove (h : pqueue) (item : A) : cres pqueue :=
  let idx := pq_idx h item in
  assert! (0 <=? idx);
  let* x := aget (pq_list h) idx in
  assert! (bool_decide (x = item));
  let num_used := zlen (pq_list h) - 1 in
  let h := set_idx h item (-1) in
  if idx =? num_used then Ok (mkpq (take (Z.to_nat num_used) (pq_list h)) (pq_idx h))
  else
    let* y := aget (pq_list h) num_used in
    let* l := aset (pq_list h) idx y in
    let h := mkpq (take (Z.to_nat num_used) l) (pq_idx h) in
    let* h := UPDATE_IDX h idx in
    smartlist_heapify (S (length (pq_list h))) h idx.

Fixpoint assert_ok_loop (n : nat) (h : pqueue) : cres unit :=
  match n with
  | O => Ok tt
  | S n =>
      let i := Z.of_nat n in
      let* x := aget (pq_list h) i in
      let* _ := (if 0 <? i then
                   let* p := aget (pq_list h) (PARENT i) in
                   assert! (compare p x <=? 0); Ok tt
                 else Ok tt) in
      assert! (pq_idx h x =? i);
      assert_ok_loop n h
  end.

Definition smartlist_pqueue_assert_ok (h : pqueue) : cres unit := assert_ok_loop (length (pq_list h)) h.

(** ** The invariant *)

Definition le (a b : A) : Prop := compare a b <= 0.

Definition child (i j : nat) : Prop := (j = 2 * i + 1 \/ j = 2 * i + 2)%nat.

Definition heap (l : list A) : Prop :=
  forall i j a b, child i j -> l !! i = Some a -> l !! j = Some b -> le a b.

(** Every item knows where it is, and occurs once. *)
Definition indexed (h : pqueue) : Prop :=
  NoDup (pq_list h) /\ forall i x, pq_list h !! i = Some x -> pq_idx h x = Z.of_nat i.

Definition pq_ok (h : pqueue) : Prop := heap (pq_list h) /\ indexed h /\ zlen (pq_list h) <= INT_MAX.

Hypothesis compare_sym : forall a b, compare a b < 0 <-> 0 < compare b a.
Hypothesis compare_trans : forall a b c, compare a b <= 0 -> compare b c <= 0 -> compare a c <= 0.

Lemma not_lt_le a b : ~ compare a b < 0 -> le b a.
Proof. intros H. unfold le. rewrite compare_sym in H. lia. Qed.

Lemma lt_le a b : compare a b < 0 -> le a b.
Proof. unfold le. lia. Qed.

Lemma le_refl a : le a a.
Proof. apply not_lt_le. pose proof (compare_sym a a). lia. Qed.

(** *** Exchanging two items *)

Definition swapped (l : list A) (i j : nat) (a b : A) : list A := <[j := a]> (<[i := b]> l).

Lemma swapped_lookup l i j a b k :
  l !! i = Some a -> l !! j = Some b ->
  swapped l i j a b !! k = if decide (k = j) then Some a else if decide (k = i) then Some b else l !! k.
Proof.
  intros Hi Hj. unfold swapped. apply lookup_lt_Some in Hi as Li. apply lookup_lt_Some in Hj as Lj.
  destruct (decide (k = j)) as [->|Hkj].
  - by rewrite list_lookup_insert_eq by (rewrite length_insert; lia).
  - rewrite list_lookup_insert_ne by congruence. destruct (decide (k = i)) as [->|Hki].
    + by rewrite list_lookup_insert_eq by lia.
    + by rewrite list_lookup_insert_ne by congruence.
Qed.

Lemma swapped_perm l i j a b : l !! i = Some a -> l !! j = Some b -> swapped l i j a b ≡ₚ l.
Proof.
  intros Hi Hj. apply Permutation_inj. split; [unfold swapped; by rewrite !length_insert|].
  exists (fun k => if decide (k = j) then i else if decide (k = i) then j else k). split.
  - intros x y. repeat case_decide; congruence.
  - intros k. rewrite swapped_lookup by done. repeat case_decide; congruence.
Qed.

Lemma swap_items_ok h i j a b :
  indexed h -> i <> j -> pq_list h !! i = Some a -> pq_list h !! j = Some b ->
  exists h', swap_items h (Z.of_nat i) (Z.of_nat j) = Ok h' /\
    pq_list h' = swapped (pq_list h) i j a b /\ indexed h' /\
    (forall x, x ∉ pq_list h -> pq_idx h' x = pq_idx h x).
Proof.
  intros [Hnd Hix] Hij Hi Hj. set (l' := swapped (pq_list h) i j a b).
  assert (Hab : a <> b) by (intros ->; apply Hij; by eapply NoDup_lookup).
  assert (Hl' : forall k, l' !! k = if decide (k = j) then Some a else if decide (k = i) then Some b else pq_list h !! k)
    by (intros; by apply swapped_lookup).
  pose proof (lookup_lt_Some _ _ _ Hi) as Li. pose proof (lookup_lt_Some _ _ _ Hj) as Lj.
  assert (G : forall (l : list A) k x, l !! k = Some x -> aget l (Z.of_nat k) = Ok x)
    by (intros l k x Hk; apply aget_Ok; rewrite Nat2Z.id; split; [lia|done]).
  assert (S' : forall (l : list A) k x, (k < length l)%nat -> aset l (Z.of_nat k) x = Ok (<[k := x]> l)).
  { intros l k x Hk. unfold aset. replace (_ && _) with true by blia. by rewrite Nat2Z.id. }
  unfold swap_items. rewrite (G _ _ _ Hi), (G _ _ _ Hj). cbn [cbind]. rewrite S' by done. cbn [cbind].
  rewrite S' by (by rewrite length_insert). cbn [cbind]. fold (swapped (pq_list h) i j a b). fold l'.
  unfold UPDATE_IDX. cbn [pq_list]. rewrite (G l' i b) by (rewrite Hl'; repeat case_decide; congruence).
  cbn [cbind set_idx pq_list]. rewrite (G l' j a) by (rewrite Hl'; by rewrite decide_True).
  cbn [cbind]. eexists. split; [done|]. cbn [set_idx pq_list pq_idx]. split_and!; [done| |].
  - split; [change (NoDup l'); unfold l'; by rewrite swapped_perm|]. cbn [set_idx pq_list pq_idx]. intros k x Hk.
    rewrite Hl' in Hk. destruct (decide (k = j)) as [->|Hkj]; [injection Hk as <-; by rewrite decide_True|].
    destruct (decide (k = i)) as [->|Hki]; [injection Hk as <-; rewrite decide_False, decide_True by congruence; done|].
    assert (x <> a) by (intros ->; apply Hki; by eapply NoDup_lookup).
    assert (x <> b) by (intros ->; apply Hkj; by eapply NoDup_lookup).
    rewrite !decide_False by done. by apply Hix.
  - intros x Hx. repeat case_decide; subst; try done; exfalso; apply Hx; by eapply list_elem_of_lookup_2.
Qed.

(** *** Sifting down *)

(** The heap property may fail only between [k] and its children. *)
Definition almost_down (l : list A) (k : nat) : Prop :=
  (forall i j a b, child i j -> i <> k -> l !! i = Some a -> l !! j = Some b -> le a b) /\
  (forall g j a b, child g k -> child k j -> l !! g = Some a -> l !! j = Some b -> le a b).

(** [b] at [best] is the least of [k] and its children. *)
Definition best_of (l : list A) (k best : nat) (a b : A) : Prop :=
  (best = k \/ child k best) /\ l !! best = Some b /\ le b a /\
  forall j c, child k j -> l !! j = Some c -> le b c.

Lemma almost_down_step l k best a b :
  almost_down l k -> l !! k = Some a -> best_of l k best a b -> best <> k -> almost_down (swapped l k best a b) best.
Proof.
  intros [H1 H2] Ha (Hb & Hbest & Hba & Hmin) Hne. destruct Hb as [Hb|Hb]; [done|].
  assert (L : forall m, swapped l k best a b !! m = if decide (m = best) then Some a else if decide (m = k) then Some b else l !! m)
    by (intros; by apply swapped_lookup).
  split.
  - intros i j x y Hij Hi Hx Hy. rewrite L in Hx, Hy. rewrite (decide_False (P := i = best)) in Hx by done.
    destruct (decide (i = k)) as [->|Hik].
    + injection Hx as <-. destruct (decide (j = best)) as [->|Hjb]; [by injection Hy as <-|].
      rewrite decide_False in Hy by (unfold child in *; lia). eauto.
    + destruct (decide (j = best)) as [->|Hjb]; [unfold child in *; lia|].
      destruct (decide (j = k)) as [->|Hjk]; [injection Hy as <-; eauto|eauto].
  - intros g j x y Hg Hj Hx Hy. assert (g = k) as -> by (unfold child in *; lia). rewrite L in Hx, Hy.
    rewrite decide_False, decide_True in Hx by (unfold child in *; lia).
    rewrite !decide_False in Hy by (unfold child in *; lia). injection Hx as <-. eauto.
Qed.

Lemma almost_down_heap l k : almost_down l k ->
  (forall a j c, l !! k = Some a -> child k j -> l !! j = Some c -> le a c) -> heap l.
Proof.
  intros [H1 _] H i j a b Hij Ha Hb. destruct (decide (i = k)) as [->|Hne]; eauto.
Qed.

Lemma almost_down_best l k a : almost_down l k -> l !! k = Some a -> best_of l k k a a -> heap l.
Proof.
  intros Hal Ha (_ & _ & _ & Hmin). apply (almost_down_heap l k Hal). intros a' j c Ha'. simplify_eq. eauto.
Qed.

Lemma no_children l k : almost_down l k -> zlen l <= LEFT_CHILD (Z.of_nat k) -> heap l.
Proof.
  intros Hal Hl. apply (almost_down_heap l k Hal). intros a j c _ Hc Hj.
  apply lookup_lt_Some in Hj. unfold child, LEFT_CHILD, zlen in *. lia.
Qed.

(** The choice of [best_idx]. *)
Lemma best_choice l k a lv :
  l !! k = Some a -> l !! (2 * k + 1)%nat = Some lv ->
  exists best b,
    (let* best_idx :=
       (if 2 * Z.of_nat k + 1 + 1 <? zlen l then
          let* r := aget l (2 * Z.of_nat k + 1 + 1) in
          let* b := aget l (if compare a lv <? 0 then Z.of_nat k else 2 * Z.of_nat k + 1) in
          Ok (if compare r b <? 0 then 2 * Z.of_nat k + 1 + 1
              else if compare a lv <? 0 then Z.of_nat k else 2 * Z.of_nat k + 1)
        else Ok (if compare a lv <? 0 then Z.of_nat k else 2 * Z.of_nat k + 1)) in Ok best_idx) = Ok (Z.of_nat best) /\
    best_of l k best a b.
Proof.
  intros Ha Hlv.
  assert (exists b0 v, (if compare a lv <? 0 then Z.of_nat k else 2 * Z.of_nat k + 1) = Z.of_nat b0 /\
     (b0 = k \/ child k b0) /\ l !! b0 = Some v /\ le v a /\ le v lv) as (b0 & v & -> & Hb0 & Hv & Hva & Hvl).
  { pose proof (not_lt_le a lv) as Hn.
    zcase; [exists k, a|exists (2 * k + 1)%nat, lv]; split_and!; auto using le_refl; try lia; try (unfold child; lia).
    - unfold le; lia.
    - apply Hn. lia. }
  zcase.
  - destruct (aget_in_range l (2 * Z.of_nat k + 1 + 1)) as (r & -> & Hr); [lia|]. cbn [cbind].
    rewrite (proj2 (aget_Ok l (Z.of_nat b0) v)) by (rewrite Nat2Z.id; split; [lia|done]). cbn [cbind].
    replace (Z.to_nat (2 * Z.of_nat k + 1 + 1)) with (2 * k + 2)%nat in Hr by lia. zcase.
    + exists (2 * k + 2)%nat, r. split; [f_equal; lia|]. assert (le r v) by (unfold le; lia).
      split_and!; [unfold child; lia|done|by eapply compare_trans|].
      intros j c [-> | ->] Hc; simplify_eq; [by eapply compare_trans|apply le_refl].
    + exists b0, v. split; [done|]. split_and!; auto. intros j c [-> | ->] Hc; simplify_eq; [done|]. apply not_lt_le. lia.
  - exists b0, v. cbn [cbind]. split; [done|]. split_and!; auto. intros j c [-> | ->] Hc; simplify_eq; [done|].
    apply lookup_lt_Some in Hc. unfold zlen in *. lia.
Qed.

Lemma too_large_for_children (k len : Z) :
  IDX_MAY_HAVE_CHILDREN k = false -> len <= INT_MAX -> len <= LEFT_CHILD k.
Proof.
  unfold IDX_MAY_HAVE_CHILDREN, MAX_PARENT_IDX, LEFT_CHILD. rewrite Z.leb_gt.
  assert ((INT_MAX - 2) / 2 = 1073741822) as -> by (vm_compute; reflexivity). unfold INT_MAX. lia.
Qed.

Lemma heapify_ok fuel h k :
  (length (pq_list h) < fuel + k)%nat -> (k < length (pq_list h))%nat -> zlen (pq_list h) <= INT_MAX ->
  indexed h ->
  exists h', smartlist_heapify fuel h (Z.of_nat k) = Ok h' /\
    (almost_down (pq_list h) k -> heap (pq_list h')) /\ indexed h' /\
    pq_list h' ≡ₚ pq_list h /\ (forall x, x ∉ pq_list h -> pq_idx h' x = pq_idx h x).
Proof.
  revert h k. induction fuel as [|f IH]; intros h k Hf Hk Hmax Hix; [lia|]. cbn [smartlist_heapify].
  assert (Hstop : zlen (pq_list h) <= LEFT_CHILD (Z.of_nat k) -> exists h', Ok h = Ok h' /\
    (almost_down (pq_list h) k -> heap (pq_list h')) /\ indexed h' /\ pq_list h' ≡ₚ pq_list h /\ (forall x, x ∉ pq_list h -> pq_idx h' x = pq_idx h x)).
  { intros Hl. exists h. split_and!; auto. intros Hal. by eapply no_children. }
  destruct (IDX_MAY_HAVE_CHILDREN (Z.of_nat k)) eqn:Em; cbn [negb]; cycle 1.
  { apply Hstop. by apply too_large_for_children. }
  destruct (Z.leb_spec (zlen (pq_list h)) (LEFT_CHILD (Z.of_nat k))) as [Hl|Hl]; [by apply Hstop|]. clear Hstop.
  unfold LEFT_CHILD in *. destruct (lookup_lt_is_Some_2 (pq_list h) k Hk) as [a Ha].
  rewrite (proj2 (aget_Ok (pq_list h) (Z.of_nat k) a)) by (rewrite Nat2Z.id; split; [lia|done]). cbn [cbind].
  destruct (lookup_lt_is_Some_2 (pq_list h) (2 * k + 1)%nat) as [lv Hlv]; [unfold zlen in *; lia|].
  rewrite (proj2 (aget_Ok (pq_list h) (2 * Z.of_nat k + 1) lv)) by
    (replace (Z.to_nat (2 * Z.of_nat k + 1)) with (2 * k + 1)%nat by lia; split; [lia|done]). cbn [cbind].
  destruct (best_choice (pq_list h) k a lv Ha Hlv) as (best & b & E & Hbest).
  apply cbind_Ok in E as (z & -> & [= ->]). cbn [cbind].
  destruct (Z.eqb_spec (Z.of_nat best) (Z.of_nat k)) as [Eq|Hne].
  - assert (best = k) as -> by lia. exists h. split_and!; auto.
    intros Hal. pose proof Hbest as (_ & Hb & _). simplify_eq. by eapply almost_down_best.
  - assert (best <> k) by lia. pose proof Hbest as ([|Hc] & Hb & _); [done|].
    destruct (swap_items_ok h k best a b Hix) as (h1 & -> & El & Hix1 & Hout1); auto. cbn [cbind].
    assert (Hlen : length (pq_list h1) = length (pq_list h)) by (rewrite El; unfold swapped; by rewrite !length_insert).
    assert (Hp1 : pq_list h1 ≡ₚ pq_list h) by (rewrite El; by apply swapped_perm).
    destruct (IH h1 best) as (h2 & -> & Hh & Hi2 & Hp2 & Hout2).
    + rewrite Hlen. unfold child in Hc. lia.
    + rewrite Hlen. by eapply lookup_lt_Some.
    + unfold zlen. by rewrite Hlen.
    + done.
    + exists h2. split_and!; auto; [intros Hal; apply Hh; rewrite El; by apply almost_down_step|by rewrite Hp2|]. intros x Hx. rewrite Hout2 by (by rewrite Hp1). by apply Hout1.
Qed.

(** *** Sifting up *)

(** The heap property may fail only between [k] and its parent. *)
Definition almost_up (l : list A) (k : nat) : Prop :=
  (forall i j a b, child i j -> j <> k -> l !! i = Some a -> l !! j = Some b -> le a b) /\
  (forall g j a b, child g k -> child k j -> l !! g = Some a -> l !! j = Some b -> le a b).

Lemma almost_up_step l p k a pv :
  almost_up l k -> child p k -> l !! p = Some pv -> l !! k = Some a -> le a pv ->
  almost_up (swapped l p k pv a) p.
Proof.
  intros [H1 H2] Hc Hp Hk Hle.
  assert (L : forall m, swapped l p k pv a !! m = if decide (m = k) then Some pv else if decide (m = p) then Some a else l !! m)
    by (intros; by apply swapped_lookup).
  split.
  - intros i j x y Hij Hj Hx Hy. rewrite L in Hx, Hy. rewrite (decide_False (P := j = p)) in Hy by done.
    destruct (decide (j = k)) as [->|Hjk].
    + injection Hy as <-. assert (i = p) as -> by (unfold child in *; lia).
      rewrite decide_False, decide_True in Hx by (unfold child in *; lia). by injection Hx as <-.
    + destruct (decide (i = k)) as [->|Hik]; [injection Hx as <-; eauto|].
      destruct (decide (i = p)) as [->|Hip]; [injection Hx as <-|eauto]. eapply compare_trans; [exact Hle|]. by eapply (H1 p j).
  - intros g j x y Hg Hj Hx Hy. rewrite L in Hx, Hy. rewrite !decide_False in Hx by (unfold child in *; lia).
    assert (le x pv) by (eapply (H1 g p); eauto; unfold child in *; lia).
    destruct (decide (j = k)) as [->|Hjk]; [by injection Hy as <-|].
    rewrite decide_False in Hy by (unfold child in *; lia). eapply compare_trans; [done|]. by eapply (H1 p j).
Qed.

Lemma sift_up_ok fuel h k :
  (k < fuel)%nat -> (k < length (pq_list h))%nat -> indexed h -> almost_up (pq_list h) k ->
  exists h', sift_up fuel h (Z.of_nat k) = Ok h' /\ heap (pq_list h') /\ indexed h' /\
    pq_list h' ≡ₚ pq_list h.
Proof.
  revert h k. induction fuel as [|f IH]; intros h k Hf Hk Hix Hal; [lia|]. cbn [sift_up].
  destruct (Z.eqb_spec (Z.of_nat k) 0) as [E|E].
  { exists h. split_and!; auto. destruct Hal as [H1 _]. intros i j a b Hij. apply H1; [done|]. unfold child in Hij. lia. }
  destruct (lookup_lt_is_Some_2 (pq_list h) k Hk) as [a Ha]. set (p := ((k - 1) / 2)%nat).
  assert (Hp : PARENT (Z.of_nat k) = Z.of_nat p).
  { unfold PARENT, p. rewrite Nat2Z.inj_div, Nat2Z.inj_sub by lia. done. }
  assert (Hc : child p k) by (unfold child, p; pose proof (Nat.div_mod (k - 1) 2); pose proof (Nat.mod_upper_bound (k - 1) 2); lia).
  destruct (lookup_lt_is_Some_2 (pq_list h) p) as [pv Hpv]; [unfold child in Hc; lia|].
  rewrite Hp. rewrite (proj2 (aget_Ok (pq_list h) (Z.of_nat k) a)) by (rewrite Nat2Z.id; split; [lia|done]).
  cbn [cbind]. rewrite (proj2 (aget_Ok (pq_list h) (Z.of_nat p) pv)) by (rewrite Nat2Z.id; split; [lia|done]).
  cbn [cbind]. zcase.
  - destruct (swap_items_ok h p k pv a Hix) as (h1 & -> & El & Hix1 & _); auto; [unfold child in Hc; lia|]. cbn [cbind].
    assert (Hlen : length (pq_list h1) = length (pq_list h)) by (rewrite El; unfold swapped; by rewrite !length_insert).
    destruct (IH h1 p) as (h2 & -> & Hh & Hi2 & Hp2); [unfold child in Hc; lia|rewrite Hlen; unfold child in Hc; lia|done| |].
    + rewrite El. apply almost_up_step; auto. unfold le. lia.
    + exists h2. split_and!; auto. rewrite Hp2, El. by apply swapped_perm.
  - exists h. split_and!; auto. destruct Hal as [H1 _]. intros i j x y Hij Hx Hy.
    destruct (decide (j = k)) as [->|]; [|by eapply H1]. assert (i = p) as -> by (unfold child in *; lia).
    simplify_eq. apply not_lt_le. lia.
Qed.

(** *** The operations *)

Lemma set_idx_indexed h k x :
  NoDup (pq_list h) -> pq_list h !! k = Some x ->
  (forall i y, i <> k -> pq_list h !! i = Some y -> pq_idx h y = Z.of_nat i) ->
  exists h', UPDATE_IDX h (Z.of_nat k) = Ok h' /\ pq_list h' = pq_list h /\ indexed h' /\
    (forall y, y <> x -> pq_idx h' y = pq_idx h y).
Proof.
  intros Hnd Hk Hix. unfold UPDATE_IDX.
  rewrite (proj2 (aget_Ok (pq_list h) (Z.of_nat k) x)) by (rewrite Nat2Z.id; split; [lia|done]). cbn [cbind].
  eexists. split; [done|]. split_and!; [done| |].
  - split; [done|]. cbn [set_idx pq_list pq_idx]. intros i y Hy. case_decide as Hd.
    + subst y. f_equal. by eapply NoDup_lookup.
    + apply Hix; [|done]. intros ->. simplify_eq.
  - intros y Hy. cbn [set_idx pq_idx]. by rewrite decide_False.
Qed.

(** Adding to a priority queue keeps the heap property and every item's
    index, and adds exactly the item. *)
Theorem pqueue_add_correct h item :
  pq_ok h -> item ∉ pq_list h -> zlen (pq_list h) < INT_MAX ->
  exists h', smartlist_pqueue_add h item = Ok h' /\ pq_ok h' /\ pq_list h' ≡ₚ item :: pq_list h.
Proof.
  intros (Hh & [Hnd Hix] & Hmax) Hni Hlt. unfold smartlist_pqueue_add. replace (_ <? _) with true by blia.
  set (n := length (pq_list h)). cbn [pq_list].
  replace (zlen (pq_list h ++ [item]) - 1) with (Z.of_nat n) by (rewrite zlen_app; unfold zlen; cbn [length]; lia).
  destruct (set_idx_indexed (mkpq (pq_list h ++ [item]) (pq_idx h)) n item) as (h1 & -> & El & Hix1 & _).
  - cbn [pq_list]. apply list.NoDup_app. split_and!; [done| |apply NoDup_singleton].
    intros x Hx Hx'. apply list_elem_of_singleton in Hx' as ->. done.
  - cbn [pq_list]. by apply list_lookup_middle.
  - cbn [pq_list pq_idx]. intros i y Hi Hy. apply Hix. apply lookup_app_Some in Hy as [Hy|[Hl Hy]]; [done|].
    destruct (i - length (pq_list h))%nat eqn:E; [unfold n in Hi; lia|]. by cbn in Hy; rewrite ?lookup_nil in Hy.
  - cbn [cbind pq_list] in *. destruct (sift_up_ok (S (length (pq_list h1))) h1 n) as (h2 & -> & Hh2 & Hi2 & Hp2).
    + rewrite El, length_app. unfold n. lia.
    + rewrite El, length_app. cbn [length]. unfold n. lia.
    + done.
    + rewrite El. split.
      * intros i j a b Hij Hj Ha Hb. apply lookup_lt_Some in Hb as Lb. rewrite length_app in Lb. cbn [length] in Lb.
        rewrite lookup_app_l in Ha, Hb by (unfold child, n in *; lia). eauto.
      * intros g j a b _ Hj _ Hb. apply lookup_lt_Some in Hb. rewrite length_app in Hb. cbn [length] in Hb.
        unfold child, n in *. lia.
    + exists h2. assert (Hp : pq_list h2 ≡ₚ item :: pq_list h) by (rewrite Hp2, El; by rewrite Permutation_app_comm).
      split_and!; auto. split_and!; auto. unfold zlen in *. rewrite Hp. cbn [length]. lia.
Qed.

Lemma heap_root l top i y : heap l -> l !! 0%nat = Some top -> l !! i = Some y -> le top y.
Proof.
  intros Hh H0. revert y. induction (lt_wf i) as [i _ IH]. intros y Hy.
  destruct i as [|i]; [simplify_eq; apply le_refl|]. set (p := (i / 2)%nat).
  assert (Hc : child p (S i)) by (unfold child, p; pose proof (Nat.div_mod i 2); pose proof (Nat.mod_upper_bound i 2); lia).
  destruct (lookup_lt_is_Some_2 l p) as [pv Hp]; [apply lookup_lt_Some in Hy; unfold child in Hc; lia|].
  eapply compare_trans; [apply (IH p); [unfold child in Hc; lia|done]|]. by eapply (Hh p (S i)).
Qed.

(** Overwriting the item at [k] with the last one and dropping the last. *)
Lemma replace_last (l : list A) k item :
  l !! k = Some item -> (S k < length l)%nat ->
  exists y l0, l = l0 ++ [y] /\ aget l (zlen l - 1) = Ok y /\
    aset l (Z.of_nat k) y = Ok (<[k := y]> l) /\
    take (Z.to_nat (zlen l - 1)) (<[k := y]> l) = <[k := y]> l0 /\ item :: <[k := y]> l0 ≡ₚ l.
Proof.
  intros Hk Hl. destruct l as [|y l0] using rev_ind; [done|]. clear IHl0.
  rewrite length_app in Hl. cbn [length] in Hl. exists y, l0.
  rewrite lookup_app_l in Hk by lia. split_and!; [done|apply aget_mid; zlia| | |].
  - unfold aset. rewrite length_app. cbn [length]. replace (_ && _) with true by blia. by rewrite Nat2Z.id.
  - rewrite insert_app_l by lia. apply take_zapp. unfold zlen. rewrite length_insert, length_app. cbn [length]. lia.
  - apply list_elem_of_split_length in Hk as (pre & post & -> & ->).
    rewrite insert_app_r_alt by lia. rewrite Nat.sub_diag. cbn [insert list_insert]. solve_Permutation.
Qed.

Lemma replaced_indexed h item k y l0 z :
  indexed h -> pq_list h !! k = Some item -> pq_list h = l0 ++ [y] -> (k < length l0)%nat ->
  exists h1, UPDATE_IDX (mkpq (<[k := y]> l0) (pq_idx (set_idx h item z))) (Z.of_nat k) = Ok h1 /\
    pq_list h1 = <[k := y]> l0 /\ indexed h1 /\ pq_idx h1 item = z.
Proof.
  intros [Hnd Hix] Hk El Hl. assert (Hk0 : l0 !! k = Some item) by (rewrite El, lookup_app_l in Hk; done).
  assert (Hy : y ∉ l0) by (rewrite El in Hnd; apply list.NoDup_app in Hnd as (_ & Hd & _); intros Hy; apply (Hd y Hy), list_elem_of_singleton; done).
  assert (Hnd0 : NoDup l0) by (rewrite El in Hnd; by apply list.NoDup_app in Hnd as (Hn & _ & _)).
  assert (Hne : y <> item) by (intros ->; apply Hy; by eapply list_elem_of_lookup_2).
  destruct (set_idx_indexed (mkpq (<[k := y]> l0) (pq_idx (set_idx h item z))) k y) as (h1 & -> & E1 & Hi1 & Ho1).
  - cbn [pq_list]. apply list_elem_of_split_length in Hk0 as (pre & post & -> & ->).
    rewrite insert_app_r_alt, Nat.sub_diag by lia. cbn [insert list_insert].
    assert (Hp : y :: (pre ++ item :: post) ≡ₚ item :: (pre ++ y :: post)) by solve_Permutation.
    assert (NoDup (item :: pre ++ y :: post)) by (rewrite <- Hp; by constructor). by inversion_clear H.
  - cbn [pq_list]. by apply list_lookup_insert_eq.
  - cbn [pq_list pq_idx set_idx]. intros i x Hi Hx. rewrite list_lookup_insert_ne in Hx by done.
    rewrite decide_False by (intros ->; apply Hi; by eapply NoDup_lookup). apply Hix. rewrite El. by apply lookup_app_l_Some.
  - exists h1. split_and!; auto. rewrite Ho1 by congruence. cbn [pq_idx set_idx]. by rewrite decide_True.
Qed.

Lemma almost_down_replace l l0 y k item :
  heap l -> l = l0 ++ [y] -> l !! k = Some item -> (k < length l0)%nat ->
  (forall p pv, child p k -> l !! p = Some pv -> le pv y) -> almost_down (<[k := y]> l0) k.
Proof.
  intros Hh -> Hk Hl Hpar.
  assert (L : forall m x, m <> k -> <[k := y]> l0 !! m = Some x -> (l0 ++ [y]) !! m = Some x).
  { intros m x Hm Hx. rewrite list_lookup_insert_ne in Hx by done. by apply lookup_app_l_Some. }
  split.
  - intros i j a b Hij Hi Ha Hb. apply L in Ha; [|done]. destruct (decide (j = k)) as [->|Hjk].
    + rewrite list_lookup_insert_eq in Hb by done. injection Hb as <-. eauto.
    + apply L in Hb; [|done]. eauto.
  - intros g j a b Hg Hj Ha Hb. apply L in Ha; [|unfold child in *; lia]. apply L in Hb; [|unfold child in *; lia].
    eapply compare_trans; [eapply (Hh g k); eauto|eapply (Hh k j); eauto].
Qed.

(** Popping a non-empty priority queue returns a least item, keeps the
    heap property and the indices of the others, and marks the item as out of the
    queue. *)
Theorem pqueue_pop_correct h :
  pq_ok h -> pq_list h <> [] ->
  exists top h', smartlist_pqueue_pop h = Ok (top, h') /\ pq_ok h' /\ top :: pq_list h' ≡ₚ pq_list h /\
    (forall y, y ∈ pq_list h -> le top y) /\ pq_idx h' top = -1.
Proof.
  intros (Hh & Hix & Hmax) Hne. unfold smartlist_pqueue_pop. pose proof (zlen_nonneg (pq_list h)) as Hz.
  assert (H0 : zlen (pq_list h) <> 0) by (destruct (pq_list h); [done|]; unfold zlen; cbn [length]; lia).
  replace (negb _) with true by blia. destruct (aget_in_range (pq_list h) 0) as (top & -> & Htop); [lia|].
  change (Z.to_nat 0) with 0%nat in Htop. cbn [cbind]. cbn [set_idx pq_list].
  assert (Hmin : forall y, y ∈ pq_list h -> le top y).
  { intros y [i Hi]%list_elem_of_lookup. by eapply heap_root. }
  destruct (Z.eqb_spec (zlen (pq_list h) - 1) 0) as [E|E]; cbn [negb].
  - exists top, (mkpq [] (pq_idx (set_idx h top (-1)))). split; [done|].
    assert (pq_list h = [top]) as El.
    { destruct (pq_list h) as [|x [|z l]] eqn:E'; [done|by injection Htop as ->|unfold zlen in E; cbn [length] in E; lia]. }
    rewrite El in *. split_and!; auto; [|cbn [pq_idx set_idx]; by rewrite decide_True].
    split_and!; [intros i j a b _ Ha; by destruct i| |done]. split; [by constructor|]. intros i x Hx. by destruct i.
  - destruct (replace_last (pq_list h) 0 top Htop) as (y & l0 & El & -> & Ea & Et & Hp); [unfold zlen in *; lia|].
    cbn [cbind]. change (Z.of_nat 0) with 0 in Ea. rewrite Ea. cbn [cbind]. rewrite Et.
    assert (Hl0 : (0 < length l0)%nat) by (rewrite El, zlen_app in E; unfold zlen in E; cbn [length] in E; lia).
    destruct (replaced_indexed h top 0 y l0 (-1) Hix Htop El Hl0) as (h1 & E1 & L1 & Hi1 & Ht1).
    change (Z.of_nat 0) with 0 in E1. rewrite E1. cbn [cbind].
    assert (Hlen : length (pq_list h1) = length l0) by (rewrite L1; by rewrite length_insert).
    assert (Hl : zlen (pq_list h) = zlen l0 + 1) by (rewrite El; zlia).
    destruct (heapify_ok (S (length (pq_list h1))) h1 0) as (h2 & E2 & Hh2 & Hi2 & Hp2 & Ho2);
      [lia|lia|unfold zlen in *; lia|done|].
    change (Z.of_nat 0) with 0 in E2. rewrite E2. cbn [cbind]. exists top, h2. split; [done|].
    assert (Hperm : top :: pq_list h2 ≡ₚ pq_list h) by (rewrite Hp2, L1; done). split_and!; auto.
    + split_and!; auto; [|unfold zlen in *; rewrite Hp2; lia]. apply Hh2. rewrite L1.
      eapply almost_down_replace; eauto. intros p pv Hc. unfold child in Hc. lia.
    + rewrite Ho2; [done|]. rewrite L1. intros Hin. destruct Hix as [Hnd _]. rewrite <- Hp in Hnd.
      by inversion_clear Hnd.
Qed.

(** Removing an item finds it at its recorded index, takes exactly that
    item out and keeps every index; the heap property survives when the item that is
    moved into the gap is not less than the parent of the gap. *)
Theorem pqueue_remove_correct h item :
  pq_ok h -> item ∈ pq_list h ->
  exists h', smartlist_pqueue_remove h item = Ok h' /\ indexed h' /\ item :: pq_list h' ≡ₚ pq_list h /\
    pq_idx h' item = -1 /\
    ((forall p k pv y, pq_idx h item = Z.of_nat k -> child p k -> pq_list h !! p = Some pv ->
        list.last (pq_list h) = Some y -> le pv y) -> pq_ok h').
Proof.
  intros (Hh & Hix & Hmax) [k Hk]%list_elem_of_lookup. unfold smartlist_pqueue_remove.
  pose proof Hix as [Hnd Hidx]. rewrite (Hidx k item Hk). replace (0 <=? Z.of_nat k) with true by blia.
  rewrite (proj2 (aget_Ok (pq_list h) (Z.of_nat k) item)) by (rewrite Nat2Z.id; split; [lia|done]). cbn [cbind].
  rewrite bool_decide_true by done. pose proof (lookup_lt_Some _ _ _ Hk) as Hlt.
  destruct (Z.eqb_spec (Z.of_nat k) (zlen (pq_list h) - 1)) as [E|E].
  - destruct (pq_list h) as [|y l0 _] eqn:El using rev_ind; [cbn in Hlt; lia|].
    assert (k = length l0) as -> by (rewrite zlen_app in E; unfold zlen in E; cbn [length] in E; lia).
    rewrite list_lookup_middle in Hk by done. injection Hk as ->.
    rewrite zlen_app. change (zlen [item]) with 1. cbn [set_idx pq_list]. rewrite El, take_zapp by lia.
    assert (Hsub : forall i x, l0 !! i = Some x -> (l0 ++ [item]) !! i = Some x) by (intros; by apply lookup_app_l_Some).
    apply list.NoDup_app in Hnd as (Hnd0 & Hd & _).
    assert (Hi' : indexed (mkpq l0 (pq_idx (set_idx h item (-1))))).
    { split; [done|]. cbn [pq_list pq_idx set_idx]. intros i x Hx. rewrite decide_False; [by apply Hidx, Hsub|].
      intros ->. apply (Hd item); [by eapply list_elem_of_lookup_2|by apply list_elem_of_singleton]. }
    eexists. split; [done|]. split_and!; auto; [by rewrite Permutation_app_comm|cbn [pq_idx set_idx]; by rewrite decide_True|].
    intros _. split_and!; auto; [|rewrite zlen_app in Hmax; change (zlen [item]) with 1 in Hmax; cbn [pq_list]; lia].
    cbn [pq_list]. intros i j a b Hij Ha Hb. eauto.
  - destruct (replace_last (pq_list h) k item Hk) as (y & l0 & El & Eg & Ea & Et & Hp); [unfold zlen in *; lia|].
    cbn [set_idx pq_list]. rewrite Eg. cbn [cbind]. rewrite Ea. cbn [cbind]. rewrite Et.
    assert (Hl0 : (k < length l0)%nat) by (rewrite El, ?zlen_app, ?length_app in *; unfold zlen in *; cbn [length] in *; lia).
    destruct (replaced_indexed h item k y l0 (-1) Hix Hk El Hl0) as (h1 & E1 & L1 & Hi1 & Ht1).
    cbn [set_idx] in E1. rewrite E1. cbn [cbind].
    assert (Hlen : length (pq_list h1) = length l0) by (rewrite L1; by rewrite length_insert).
    assert (Hl : zlen (pq_list h) = zlen l0 + 1) by (rewrite El; zlia).
    destruct (heapify_ok (S (length (pq_list h1))) h1 k) as (h2 & E2 & Hh2 & Hi2 & Hp2 & Ho2);
      [lia|lia|unfold zlen in *; lia|done|].
    exists h2. split; [done|].
    assert (Hperm : item :: pq_list h2 ≡ₚ pq_list h) by (rewrite Hp2, L1; done). split_and!; auto.
    + rewrite Ho2; [done|]. rewrite L1. intros Hin. rewrite <- Hp in Hnd. by inversion_clear Hnd.
    + intros Hpar. split_and!; auto; [|unfold zlen in *; rewrite Hp2; lia]. apply Hh2. rewrite L1.
      eapply almost_down_replace; eauto. intros p pv Hc Hpv. eapply (Hpar p k pv y); auto. rewrite El. apply list.last_snoc.
Qed.

End PQueue.
Arguments mkpq {A} _ _.
Arguments pq_list {A} _.
Arguments pq_idx {A} _ _.

(** ** Queues of integers *)

(** The queue with the given array, each item knowing its index. *)
Definition index_in (l : list Z) (x : Z) : Z :=
  match list_find (fun y => y = x) l with Some (i, _) => Z.of_nat i | None => -1 end.
Definition pq_of (l : list Z) : pqueue (A := Z) := mkpq l (index_in l).

Definition ex_heap : list Z := [1; 10; 2; 11; 12; 20; 3].

Lemma zsub_sym : forall a b : Z, a - b < 0 <-> 0 < b - a.
Proof. lia. Qed.
Lemma zsub_trans : forall a b c : Z, a - b <= 0 -> b - c <= 0 -> a - c <= 0.
Proof. lia. Qed.

Lemma ex_heap_ok : pq_ok Z.sub (pq_of ex_heap).
Proof.
  split_and!; [| |vm_compute; discriminate].
  - intros i j a b Hc Ha Hb. unfold le. cbn [pq_list pq_of] in *.
    do 7 (destruct i as [|i]; [destruct Hc as [-> | ->]; cbn in Ha, Hb; simplify_eq; lia|]).
    apply lookup_lt_Some in Ha. cbn in Ha. lia.
  - split; [apply (bool_decide_unpack _); vm_compute; exact I|]. intros i x Hx.
    do 7 (destruct i as [|i]; [cbn in Hx; injection Hx as <-; reflexivity|]).
    apply lookup_lt_Some in Hx. cbn in Hx. lia.
Qed.

Lemma pqueue_add_correct_witness :
  exists h', smartlist_pqueue_add Z.sub (pq_of ex_heap) 0 = Ok h' /\ pq_ok Z.sub h' /\ pq_list h' ≡ₚ 0 :: ex_heap.
Proof.
  apply (pqueue_add_correct Z.sub zsub_sym zsub_trans (pq_of ex_heap) 0 ex_heap_ok).
  - apply (bool_decide_unpack _). vm_compute. exact I.
  - vm_compute. reflexivity.
Defined.

Lemma pqueue_pop_correct_witness :
  exists top h', smartlist_pqueue_pop Z.sub (pq_of ex_heap) = Ok (top, h') /\ pq_ok Z.sub h' /\
    top :: pq_list h' ≡ₚ ex_heap /\ (forall y, y ∈ ex_heap -> le Z.sub top y) /\ pq_idx h' top = -1.
Proof. apply (pqueue_pop_correct Z.sub zsub_sym zsub_trans (pq_of ex_heap) ex_heap_ok). discriminate. Defined.

Lemma pqueue_remove_correct_witness :
  exists h', smartlist_pqueue_remove Z.sub (pq_of ex_heap) 2 = Ok h' /\ indexed h' /\ 2 :: pq_list h' ≡ₚ ex_heap /\
    pq_idx h' 2 = -1 /\
    ((forall p k pv y, pq_idx (pq_of ex_heap) 2 = Z.of_nat k -> child p k -> ex_heap !! p = Some pv ->
        list.last ex_heap = Some y -> le Z.sub pv y) -> pq_ok Z.sub h').
Proof.
  apply (pqueue_remove_correct Z.sub zsub_sym zsub_trans (pq_of ex_heap) 2 ex_heap_ok).
  apply (bool_decide_unpack _). vm_compute. exact I.
Defined.

(** Pop [n] items. *)
Fixpoint pops (n : nat) (h : pqueue (A := Z)) : cres (list Z) :=
  match n with
  | O => Ok []
  | S n => let* (x, h) := smartlist_pqueue_pop Z.sub h in let* r := pops n h in Ok (x :: r)
  end.

(** [smartlist_pqueue_remove] only sifts the moved item down, never up: in
    a queue that satisfies the invariant, removing 11 leaves 3 below its parent 10, the
    queue's own consistency check fails, and the queue then hands out 10
    before 3. *)
Theorem pqueue_remove_breaks_order :
  pq_ok Z.sub (pq_of ex_heap) /\
  exists h', smartlist_pqueue_remove Z.sub (pq_of ex_heap) 11 = Ok h' /\
    smartlist_pqueue_assert_ok Z.sub h' = Bug /\ pops 4 h' = Ok [1; 2; 10; 3].
Proof. split; [apply ex_heap_ok|]. eexists. split; [reflexivity|]. split; reflexivity. Qed.
