(* ===== verification/Binascii.v ===== *)
(** * Base16, base32 and base64

    Models lib/encoding/binascii.c.  An encoder or decoder that fills a
    [dest] buffer returns the bytes it wrote before the terminating NUL (for
    the encoders) or before the zero fill (for the decoders); the C functions
    return their number.  [Err] is the return value -1, [Bug] a failed
    [tor_assert] or an access outside a buffer. *)

From S2P Require Import Prelude CString.
From Stdlib Require Import ZArith String.
From stdpp Require Import base list numbers.
Open Scope Z_scope.

Definition BASE64_LEN (n : Z) : Z := CEIL_DIV n 3 * 4.
Definition BASE32_NOPAD_LEN (n : Z) : Z := CEIL_DIV (n * 8) 5.
Definition BASE32_NOPAD_BUFSIZE (n : Z) : Z := BASE32_NOPAD_LEN n + 1.
Definition BASE16_BUFSIZE (n : Z) : Z := n * 2 + 1.
Definition BASE64_ENCODE_MULTILINE : Z := 1.
Definition BASE64_OPENSSL_LINELEN : Z := 64.

(** ** Base16 *)

Module Base16.

Definition hex_digits : bytes := s2b "0123456789ABCDEF".
Definition hexdig (v : Z) : Z := nth (Z.to_nat v) hex_digits 0.

Fixpoint encode_loop (src : bytes) : bytes :=
  match src with
  | [] => []
  | c :: r => hexdig (Z.shiftr (u8 c) 4) :: hexdig (Z.land (u8 c) 0xf) :: encode_loop r
  end.

Definition base16_encode (destlen : Z) (src : bytes) : cres bytes :=
  let srclen := zlen src in
  assert! (srclen <? SIZE_T_CEILING / 2 - 1);
  assert! (BASE16_BUFSIZE srclen <=? destlen);
  assert! (destlen <? SIZE_T_CEILING);
  Ok (encode_loop src).

Fixpoint decode_loop (src : bytes) : cres bytes :=
  match src with
  | [] => Ok []
  | a :: b :: r =>
      let v1 := hex_decode_digit a in
      let v2 := hex_decode_digit b in
      if (v1 <? 0) || (v2 <? 0) then Err
      else let* rest := decode_loop r in Ok (u8 (Z.lor (Z.shiftl v1 4) v2) :: rest)
  | _ => Bug
  end.

Definition base16_decode (destlen : Z) (src : bytes) : cres bytes :=
  let srclen := zlen src in
  if negb (srclen mod 2 =? 0) then Err
  else if (destlen <? srclen / 2) || (INT_MAX <? destlen) then Err
  else
    let* out := decode_loop src in
    assert! (zlen out <=? destlen);
    Ok out.

(** [hex_str] truncates to the 32 bytes that its static buffer has room for. *)
Definition hex_str (from : bytes) : cres bytes :=
  let fromlen := zlen from in
  let fromlen := if (65 - 1) / 2 <? fromlen then (65 - 1) / 2 else fromlen in
  base16_encode 65 (take (Z.to_nat fromlen) from).

Lemma hex_byte_roundtrip c : is_byte c ->
  (let h := hexdig (Z.shiftr (u8 c) 4) in let l := hexdig (Z.land (u8 c) 0xf) in
   (0 <=? hex_decode_digit h) && (0 <=? hex_decode_digit l) &&
   (u8 (Z.lor (Z.shiftl (hex_decode_digit h) 4) (hex_decode_digit l)) =? c)) = true.
Proof. revert c. apply byte_forall. vm_compute. reflexivity. Qed.

Lemma length_encode_loop src : zlen (encode_loop src) = 2 * zlen src.
Proof. induction src; cbn [encode_loop]; [done|]. rewrite !zlen_cons, IHsrc. lia. Qed.

Lemma decode_encode_loop src : Forall is_byte src -> decode_loop (encode_loop src) = Ok src.
Proof.
  induction 1 as [|c src Hc Hs IH]; cbn [encode_loop decode_loop]; [done|].
  pose proof (hex_byte_roundtrip c Hc) as H. cbv zeta in H. boolp.
  replace (_ || _) with false by (symmetry; apply orb_false_iff; split; blia).
  rewrite IH. cbn [cbind]. by do 2 f_equal.
Qed.

Lemma decode_loop_length n : forall src out, (length src <= n)%nat ->
  decode_loop src = Ok out -> zlen src = 2 * zlen out.
Proof.
  induction n as [|n IH]; intros src out Hn H.
  - destruct src; [|cbn in Hn; lia]. cbn in H. by simplify_eq.
  - destruct src as [|a [|b r]]; cbn [decode_loop] in H; [by simplify_eq|done|].
    destruct (_ || _); [done|]. apply cbind_Ok in H as (o & Ho & H). simplify_eq.
    apply IH in Ho; [|cbn in Hn; lia]. rewrite !zlen_cons, Ho. lia.
Qed.

Lemma decode_loop_err n : forall src, (length src <= n)%nat -> zlen src mod 2 = 0 ->
  decode_loop src = Err \/ exists out, decode_loop src = Ok out.
Proof.
  induction n as [|n IH]; intros src Hn Hm.
  - destruct src; [right; by eexists|cbn in Hn; lia].
  - destruct src as [|a [|b r]]; cbn [decode_loop]; [right; by eexists|done|].
    destruct (_ || _); [by left|].
    destruct (IH r) as [->|[o ->]].
    + cbn in Hn; lia.
    + rewrite !zlen_cons in Hm. replace (zlen r + 1 + 1) with (zlen r + 1 * 2) in Hm by lia.
      by rewrite Z.mod_add in Hm.
    + by left.
    + right. by eexists.
Qed.

Lemma base16_there_and_back src :
  Forall is_byte src -> zlen src <= INT_MAX ->
  exists hex, base16_encode (BASE16_BUFSIZE (zlen src)) src = Ok hex /\
    zlen hex = 2 * zlen src /\ base16_decode (zlen src) hex = Ok src.
Proof.
  intros Hb Hlen. exists (encode_loop src). pose proof (zlen_nonneg src).
  unfold base16_encode, base16_decode, BASE16_BUFSIZE, SIZE_T_CEILING.
  assert (H0 : forall z, z <= INT_MAX -> z <? (9223372036854775807 - 16) / 2 - 1 = true).
  { intros z Hz. unfold INT_MAX in Hz. apply Z.ltb_lt.
    change ((9223372036854775807 - 16) / 2 - 1) with 4611686018427387894. lia. }
  rewrite H0, Z.leb_refl by done. unfold INT_MAX in *.
  replace (zlen src * 2 + 1 <? 9223372036854775807 - 16) with true by blia.
  split; [done|]. split; [apply length_encode_loop|].
  rewrite length_encode_loop, (Z.mul_comm 2), Z.mod_mul, Z.div_mul by lia. cbn [negb Z.eqb].
  replace ((zlen src <? zlen src) || (2147483647 <? zlen src)) with false by blia.
  rewrite decode_encode_loop by done. cbn [cbind]. by rewrite Z.leb_refl.
Qed.

(**  Hexadecimal round trip: for every byte string that fits, [base16_encode]
    into a buffer of [BASE16_BUFSIZE] bytes succeeds with two digits per byte,
    and [base16_decode] of the digits gives the bytes back. *)
Theorem base16_roundtrip src :
  Forall is_byte src -> zlen src <= INT_MAX ->
  exists hex, base16_encode (BASE16_BUFSIZE (zlen src)) src = Ok hex /\
    zlen hex = 2 * zlen src /\ base16_decode (zlen src) hex = Ok src.
Proof. apply base16_there_and_back. Qed.

Lemma base16_roundtrip_witness :
  exists hex, base16_encode (BASE16_BUFSIZE (zlen [0; 255; 171])) [0; 255; 171] = Ok hex /\
    zlen hex = 2 * zlen [0; 255; 171] /\ base16_decode (zlen [0; 255; 171]) hex = Ok [0; 255; 171].
Proof.
  apply base16_roundtrip; [|vm_compute; discriminate].
  repeat constructor; vm_compute; (discriminate || reflexivity).
Defined.

(**  [base16_decode] is total on any input (it returns -1 or the bytes, with
    no access outside [src] or [dest]) and accepts no other length: a result
    has half as many bytes as the input has digits and fits the buffer. *)
Theorem base16_decode_total destlen src :
  base16_decode destlen src = Err \/
  exists out, base16_decode destlen src = Ok out /\ zlen src = 2 * zlen out /\ zlen out <= destlen.
Proof.
  unfold base16_decode. destruct (negb _) eqn:E1; [by left|]. boolp.
  destruct (_ || _) eqn:E2; [by left|]. boolp.
  destruct (decode_loop_err (length src) src) as [->|[o Ho]]; [lia|done|by left|].
  rewrite Ho. apply (decode_loop_length (length src)) in Ho; [|lia]. cbn [cbind].
  rewrite Ho in *. rewrite (Z.mul_comm 2), Z.div_mul in * by lia.
  replace (zlen o <=? destlen) with true by blia. right. exists o. split; [done|]. split; lia.
Qed.

End Base16.
Export Base16.

(** ** Base32 *)

Module Base32.

Definition BASE32_CHARS : bytes := s2b "abcdefghijklmnopqrstuvwxyz234567".

Definition base32_encoded_size (srclen : Z) : cres Z :=
  assert! (srclen <? SIZE_T_CEILING / 8);
  let enclen := BASE32_NOPAD_BUFSIZE srclen in
  assert! ((enclen <? INT_MAX) && (srclen <? enclen));
  Ok enclen.

(** The 5-bit value at bit [bit] of [src], zero-padded at the end. *)
Definition b32_group (src : bytes) (bit : Z) : cres Z :=
  let idx := bit / 8 in
  let* c := aget src idx in
  let v := Z.shiftl (u8 c) 8 in
  let* v := (if idx + 1 <? zlen src then let* d := aget src (idx + 1) in Ok (v + u8 d) else Ok v) in
  Ok (Z.land (Z.shiftr v (11 - bit mod 8)) 0x1F).

Fixpoint b32_encode_loop (fuel : nat) (src : bytes) (bit : Z) : cres bytes :=
  match fuel with
  | O => Fuel
  | S n =>
      if bit <? zlen src * 8 then
        let* u := b32_group src bit in
        let* ch := aget BASE32_CHARS u in
        let* rest := b32_encode_loop n src (bit + 5) in
        Ok (ch :: rest)
      else Ok []
  end.

Definition base32_encode (destlen : Z) (src : bytes) : cres bytes :=
  let* sz := base32_encoded_size (zlen src) in
  assert! (sz <=? destlen);
  assert! (destlen <? SIZE_T_CEILING);
  b32_encode_loop (S (Z.to_nat (BASE32_NOPAD_LEN (zlen src)))) src 0.

(** One character to its 5-bit value; both cases of letters are accepted. *)
Definition b32_char (c : Z) : cres Z :=
  if (0x60 <? c) && (c <? 0x7B) then Ok (c - 0x61)
  else if (0x31 <? c) && (c <? 0x38) then Ok (c - 0x18)
  else if (0x40 <? c) && (c <? 0x5B) then Ok (c - 0x41)
  else Err.

Fixpoint b32_chars (src : bytes) : cres bytes :=
  match src with
  | [] => Ok []
  | c :: r => let* v := b32_char c in let* rest := b32_chars r in Ok (v :: rest)
  end.

(** The byte at bit [bit] from the 5-bit values. *)
Definition b32_byte (tmp : bytes) (bit : Z) : cres Z :=
  let k := bit mod 40 in
  if k =? 0 then
    let* a := aget tmp (bit / 5) in
    let* b := aget tmp (bit / 5 + 1) in
    Ok (u8 (Z.shiftl a 3 + Z.shiftr b 2))
  else if k =? 8 then
    let* a := aget tmp (bit / 5) in
    let* b := aget tmp (bit / 5 + 1) in
    let* c := aget tmp (bit / 5 + 2) in
    Ok (u8 (Z.shiftl a 6 + Z.shiftl b 1 + Z.shiftr c 4))
  else if k =? 16 then
    let* a := aget tmp (bit / 5) in
    let* b := aget tmp (bit / 5 + 1) in
    Ok (u8 (Z.shiftl a 4 + Z.shiftr b 1))
  else if k =? 24 then
    let* a := aget tmp (bit / 5) in
    let* b := aget tmp (bit / 5 + 1) in
    let* c := aget tmp (bit / 5 + 2) in
    Ok (u8 (Z.shiftl a 7 + Z.shiftl b 2 + Z.shiftr c 3))
  else if k =? 32 then
    let* a := aget tmp (bit / 5) in
    let* b := aget tmp (bit / 5 + 1) in
    Ok (u8 (Z.shiftl a 5 + b))
  else Ok 0.

Fixpoint b32_decode_loop (fuel : nat) (tmp : bytes) (nbits bit : Z) : cres bytes :=
  match fuel with
  | O => Fuel
  | S n =>
      if bit <? nbits then
        let* d := b32_byte tmp bit in
        let* rest := b32_decode_loop n tmp nbits (bit + 8) in
        Ok (d :: rest)
      else Ok []
  end.

Definition base32_decode (destlen : Z) (src : bytes) : cres bytes :=
  let srclen := zlen src in
  let nbits := (srclen * 5) / 8 * 8 in
  assert! (srclen <? SIZE_T_CEILING / 5);
  assert! (nbits / 8 <=? destlen);
  assert! (destlen <? SIZE_T_CEILING);
  let* tmp := b32_chars src in
  b32_decode_loop (S (Z.to_nat (nbits / 8))) tmp nbits 0.

(** *** Lemmas *)

(** The byte at index [i], zero past the end. *)
Definition byte_at (src : bytes) (i : Z) : Z := nth (Z.to_nat i) src 0.

Lemma byte_at_range src i : Forall is_byte src -> is_byte (byte_at src i).
Proof.
  intros H. unfold byte_at.
  destruct (nth_in_or_default (Z.to_nat i) src 0) as [Hin| ->].
  - rewrite List.Forall_forall in H. by apply H.
  - split; lia.
Qed.

Lemma aget_byte_at src i : 0 <= i < zlen src -> aget src i = Ok (byte_at src i).
Proof.
  intros Hi. destruct (aget_in_range src i Hi) as (x & -> & Hx).
  unfold byte_at. f_equal. symmetry. by apply nth_lookup_Some.
Qed.

Lemma byte_at_out src i : zlen src <= i -> byte_at src i = 0.
Proof. intros H. unfold byte_at, zlen in *. apply nth_overflow. lia. Qed.

(** The 5-bit group [k], arithmetically. *)
Definition grp (src : bytes) (k : Z) : Z :=
  ((byte_at src (5 * k / 8) * 256 + byte_at src (5 * k / 8 + 1)) / 2 ^ (11 - 5 * k mod 8)) mod 32.

Lemma u8_byte c : is_byte c -> u8 c = c.
Proof. unfold is_byte, u8. intros H. apply Z.mod_small. lia. Qed.

Lemma b32_group_spec src k :
  Forall is_byte src -> 0 <= k -> 5 * k < zlen src * 8 -> b32_group src (5 * k) = Ok (grp src k).
Proof.
  intros Hs Hk Hlt. unfold b32_group, grp.
  assert (Hi : 0 <= 5 * k / 8 < zlen src).
  { split; [apply Z.div_pos; lia|]. apply Z.div_lt_upper_bound; lia. }
  rewrite aget_byte_at by done. cbn [cbind].
  rewrite !u8_byte by (by apply byte_at_range).
  assert (Hv : (if 5 * k / 8 + 1 <? zlen src then
      let* d := aget src (5 * k / 8 + 1) in Ok (Z.shiftl (byte_at src (5 * k / 8)) 8 + u8 d)
      else Ok (Z.shiftl (byte_at src (5 * k / 8)) 8)) =
      Ok (byte_at src (5 * k / 8) * 256 + byte_at src (5 * k / 8 + 1))).
  { rewrite Z.shiftl_mul_pow2 by lia. zcase.
    - rewrite aget_byte_at by lia. cbn [cbind]. by rewrite u8_byte by (by apply byte_at_range).
    - rewrite (byte_at_out src (5 * k / 8 + 1)) by lia. f_equal. lia. }
  rewrite Hv. cbn [cbind]. f_equal. change 0x1F with (Z.ones 5).
  pose proof (Z.mod_pos_bound (5 * k) 8).
  rewrite Z.land_ones, Z.shiftr_div_pow2 by lia. done.
Qed.

Lemma grp_range src k : 0 <= grp src k < 32.
Proof. apply Z.mod_pos_bound. lia. Qed.

(** Encoding a 5-bit value and reading the character back. *)
Definition b32_char_ok (v : Z) : bool :=
  match aget BASE32_CHARS v with
  | Ok ch => match b32_char ch with Ok w => w =? v | _ => false end
  | _ => false
  end.

Lemma b32_char_chars v : 0 <= v < 32 ->
  exists ch, aget BASE32_CHARS v = Ok ch /\ b32_char ch = Ok v.
Proof.
  intros Hv. assert (H : b32_char_ok v = true).
  { revert v Hv. apply (upto_forall 32). vm_compute. reflexivity. }
  unfold b32_char_ok in H. destruct (aget BASE32_CHARS v) as [ch| | |]; try done.
  exists ch. split; [done|]. destruct (b32_char ch) as [w| | |]; try done. boolp. by subst.
Qed.

(** The encoder writes the groups from [k] on. *)
Lemma b32_encode_loop_spec src : Forall is_byte src -> forall fuel k,
  0 <= k -> BASE32_NOPAD_LEN (zlen src) - k < Z.of_nat fuel ->
  k <= BASE32_NOPAD_LEN (zlen src) ->
  exists enc, b32_encode_loop fuel src (5 * k) = Ok enc /\
    b32_chars enc = Ok (map (fun i => grp src (k + i)) (upto (Z.to_nat (BASE32_NOPAD_LEN (zlen src) - k)))) /\
    zlen enc = BASE32_NOPAD_LEN (zlen src) - k.
Proof.
  intros Hs. set (m := BASE32_NOPAD_LEN (zlen src)).
  assert (Hm : zlen src * 8 <= 5 * m < zlen src * 8 + 5).
  { unfold m, BASE32_NOPAD_LEN, CEIL_DIV. pose proof (Z.div_mod (zlen src * 8 + (5 - 1)) 5).
    pose proof (Z.mod_pos_bound (zlen src * 8 + (5 - 1)) 5). lia. }
  induction fuel as [|n IH]; intros k Hk Hf Hkm; [lia|]. cbn [b32_encode_loop]. zcase.
  - rewrite b32_group_spec by (done || lia). cbn [cbind].
    destruct (b32_char_chars (grp src k) (grp_range src k)) as (ch & -> & Hch). cbn [cbind].
    replace (5 * k + 5) with (5 * (k + 1)) by lia.
    destruct (IH (k + 1)) as (enc & -> & Henc & Hlen); [lia..|]. cbn [cbind].
    exists (ch :: enc). split; [done|]. split; [|rewrite zlen_cons; lia].
    cbn [b32_chars]. rewrite Hch. cbn [cbind]. rewrite Henc. cbn [cbind]. f_equal.
    replace (Z.to_nat (m - k)) with (S (Z.to_nat (m - (k + 1)))) by lia.
    unfold upto. cbn [seq map]. rewrite Z.add_0_r. f_equal.
    rewrite <- seq_shift, !map_map. apply map_ext. intros i. f_equal. lia.
  - exists []. assert (k = m) as -> by lia. rewrite Z.sub_diag. done.
Qed.

Lemma aget_map_upto (f : Z -> Z) n i :
  0 <= i < Z.of_nat n -> aget (map f (upto n)) i = Ok (f i).
Proof.
  intros Hi. apply aget_Ok. split; [lia|]. unfold upto. rewrite map_map.
  change (map ?g ?l) with (g <$> l). rewrite list_lookup_fmap, lookup_seq_lt by lia.
  cbn. do 2 f_equal. lia.
Qed.

(** The group [8q + t], in terms of the bytes from [5q] on. *)
Lemma grp_block src q t : 0 <= q -> 0 <= t ->
  grp src (t + 8 * q) =
  ((byte_at src (5 * q + 5 * t / 8) * 256 + byte_at src (5 * q + (5 * t / 8 + 1)))
     / 2 ^ (11 - 5 * t mod 8)) mod 32.
Proof.
  intros Hq Ht. unfold grp.
  replace (5 * (t + 8 * q)) with (5 * t + (5 * q) * 8) by lia.
  rewrite Z.div_add, Z.mod_add by lia. replace (5 * t / 8 + 5 * q) with (5 * q + 5 * t / 8) by lia.
  by rewrite Z.add_assoc.
Qed.

(** Replace the closed subterms of an instance of [grp_block] by their values. *)
Ltac fold_groups :=
  repeat match goal with
  | |- context [5 * ?t / 8 + 1] => let v := eval vm_compute in (5 * t / 8 + 1) in change (5 * t / 8 + 1) with v
  | |- context [5 * ?t / 8] => let v := eval vm_compute in (5 * t / 8) in change (5 * t / 8) with v
  | |- context [11 - 5 * ?t mod 8] => let v := eval vm_compute in (11 - 5 * t mod 8) in change (11 - 5 * t mod 8) with v
  end.

Ltac solve_groups :=
  rewrite !aget_map_upto by lia; cbn [cbind]; f_equal;
  rewrite ?(Z.add_shuffle0 _ (8 * _) _); rewrite !grp_block by lia; fold_groups;
  unfold u8; rewrite ?Z.shiftl_mul_pow2, ?Z.shiftr_div_pow2 by lia;
  unfold is_byte in *; Z.to_euclidean_division_equations; lia.

(** Reassembling a byte from its groups. *)
Lemma b32_byte_spec src m i :
  Forall is_byte src -> 0 <= i -> 8 * i + 8 <= 5 * Z.of_nat m ->
  b32_byte (map (grp src) (upto m)) (8 * i) = Ok (byte_at src i).
Proof.
  intros Hs Hi Hm. unfold b32_byte.
  pose proof (Z.div_mod i 5) as Hdm. pose proof (Z.mod_pos_bound i 5) as Hr.
  set (q := i / 5) in *. set (r := i mod 5) in *. assert (Hq : 0 <= q) by (apply Z.div_pos; lia).
  clearbody q r. assert (Hi' : i = 5 * q + r) by lia. subst i.
  replace (8 * (5 * q + r)) with (8 * r + q * 40) by lia.
  rewrite Z.mod_add by lia. replace (8 * r + q * 40) with (8 * r + (8 * q) * 5) by lia.
  rewrite Z.div_add by lia.
  assert (r = 0 \/ r = 1 \/ r = 2 \/ r = 3 \/ r = 4) as Hcase by lia.
  pose proof (fun k => byte_at_range src (5 * q + k) Hs) as B.
  pose proof (B 0) as B0. pose proof (B 1) as B1. pose proof (B 2) as B2. pose proof (B 3) as B3.
  pose proof (B 4) as B4. pose proof (B 5) as B5. clear B.
  destruct Hcase as [-> | [-> | [-> | [-> | ->]]]].
  - change ((8 * 0) mod 40 =? 0) with true. change (8 * 0 / 5) with 0. cbv iota. solve_groups.
  - change ((8 * 1) mod 40) with 8. cbn [Z.eqb Pos.eqb]. change (8 * 1 / 5) with 1. solve_groups.
  - change ((8 * 2) mod 40) with 16. cbn [Z.eqb Pos.eqb]. change (8 * 2 / 5) with 3. solve_groups.
  - change ((8 * 3) mod 40) with 24. cbn [Z.eqb Pos.eqb]. change (8 * 3 / 5) with 4. solve_groups.
  - change ((8 * 4) mod 40) with 32. cbn [Z.eqb Pos.eqb]. change (8 * 4 / 5) with 6. solve_groups.
Qed.

Lemma b32_decode_loop_spec src m : Forall is_byte src -> 8 * zlen src <= 5 * Z.of_nat m ->
  forall fuel i, 0 <= i <= zlen src -> zlen src - i < Z.of_nat fuel ->
  b32_decode_loop fuel (map (grp src) (upto m)) (zlen src * 8) (8 * i) = Ok (drop (Z.to_nat i) src).
Proof.
  intros Hs Hm. induction fuel as [|n IH]; intros i Hi Hf; [lia|]. cbn [b32_decode_loop]. zcase.
  - rewrite b32_byte_spec by (done || lia). cbn [cbind].
    replace (8 * i + 8) with (8 * (i + 1)) by lia. rewrite IH by lia. cbn [cbind]. f_equal.
    destruct (aget_in_range src i) as (x & Hx & Hlk); [lia|].
    rewrite aget_byte_at in Hx by lia. simplify_eq.
    rewrite (drop_S _ _ _ Hlk). by replace (Z.to_nat (i + 1)) with (S (Z.to_nat i)) by lia.
  - rewrite drop_ge; [done|]. unfold zlen in *. lia.
Qed.

(** The longest input whose encoding still fits an [int]. *)
Definition base32_max : Z := 1000000000.

(**  Base32 round trip (the encoding of onion addresses): for every byte
    string of a representable size, [base32_encode] into a buffer of
    [base32_encoded_size] bytes succeeds, no assertion fails, and
    [base32_decode] of the result is the original string. *)
Theorem base32_roundtrip src :
  Forall is_byte src -> zlen src <= base32_max ->
  exists sz enc, base32_encoded_size (zlen src) = Ok sz /\
    base32_encode sz src = Ok enc /\ zlen enc + 1 = sz /\
    base32_decode (zlen src) enc = Ok src.
Proof.
  intros Hs Hlen. unfold base32_max in Hlen. pose proof (zlen_nonneg src) as Hnn.
  set (m := BASE32_NOPAD_LEN (zlen src)).
  assert (Hm : zlen src * 8 <= 5 * m < zlen src * 8 + 5).
  { unfold m, BASE32_NOPAD_LEN, CEIL_DIV. pose proof (Z.div_mod (zlen src * 8 + (5 - 1)) 5).
    pose proof (Z.mod_pos_bound (zlen src * 8 + (5 - 1)) 5). lia. }
  exists (m + 1).
  destruct (b32_encode_loop_spec src Hs (S (Z.to_nat m)) 0) as (enc & He & Hc & Hl);
    [lia|fold m; lia|fold m; lia|]. fold m in Hc, Hl. rewrite Z.sub_0_r in Hc, Hl.
  exists enc. assert (Hsz : base32_encoded_size (zlen src) = Ok (m + 1)).
  { unfold base32_encoded_size, BASE32_NOPAD_BUFSIZE. fold m.
    replace (zlen src <? SIZE_T_CEILING / 8) with true
      by (change (SIZE_T_CEILING / 8) with 1152921504606846973; blia).
    unfold INT_MAX. by replace ((m + 1 <? 2147483647) && (zlen src <? m + 1)) with true by blia. }
  split; [done|]. split; [|split; [lia|]].
  - unfold base32_encode. rewrite Hsz. cbn [cbind]. rewrite Z.leb_refl.
    replace (m + 1 <? SIZE_T_CEILING) with true by (unfold SIZE_T_CEILING; blia).
    rewrite Z.mul_0_r in He. exact He.
  - unfold base32_decode. rewrite Hl, Hc. 
    assert (Hn : m * 5 / 8 = zlen src).
    { symmetry. apply (Z.div_unique (m * 5) 8 (zlen src) (m * 5 - 8 * zlen src)); lia. }
    rewrite Hn, Z.div_mul by lia.
    replace (m <? SIZE_T_CEILING / 5) with true
      by (change (SIZE_T_CEILING / 5) with 1844674407370955158; blia).
    rewrite Z.leb_refl. replace (zlen src <? SIZE_T_CEILING) with true by (unfold SIZE_T_CEILING; blia).
    cbn [cbind].
    pose proof (b32_decode_loop_spec src (Z.to_nat m) Hs ltac:(lia) (S (Z.to_nat (zlen src))) 0
      ltac:(lia) ltac:(lia)) as Hd.
    rewrite Z.mul_0_r in Hd. cbn [Z.to_nat] in Hd. rewrite drop_0 in Hd.
    rewrite <- Hd. f_equal.
Qed.

Lemma base32_roundtrip_witness :
  exists sz enc, base32_encoded_size (zlen [1; 2; 253]) = Ok sz /\
    base32_encode sz [1; 2; 253] = Ok enc /\ zlen enc + 1 = sz /\
    base32_decode (zlen [1; 2; 253]) enc = Ok [1; 2; 253].
Proof.
  apply base32_roundtrip; [|vm_compute; discriminate].
  repeat constructor; vm_compute; (discriminate || reflexivity).
Defined.

End Base32.
Export Base32.

(** ** Base64 *)

Module Base64.

Definition base64_encode_size (srclen flags : Z) : cres Z :=
  assert! (srclen <? INT_MAX);
  assert! (CEIL_DIV srclen 3 <? INT_MAX / 4);
  let enclen := BASE64_LEN srclen in
  let enclen := if negb (Z.land flags BASE64_ENCODE_MULTILINE =? 0)
                then enclen + CEIL_DIV enclen BASE64_OPENSSL_LINELEN else enclen in
  assert! ((enclen <? INT_MAX) && ((enclen =? 0) || (srclen <? enclen)));
  Ok enclen.

Definition base64_decode_maxsize (srclen : Z) : cres Z :=
  assert! (srclen <? INT_MAX / 3);
  Ok (CEIL_DIV (srclen * 3) 4).

Definition base64_encode_table : bytes :=
  s2b "ABCDEFGHIJKLMNOPQRSTUVWXYZabcdefghijklmnopqrstuvwxyz0123456789+/".

(** The output so far, and [linelen]. *)
Record enc_state := mkenc { e_out : bytes; e_linelen : Z }.

Definition ENCODE_CHAR (multiline : bool) (ch : Z) (e : enc_state) : enc_state :=
  let out := e_out e ++ [ch] in
  if multiline then
    let linelen := e_linelen e + 1 in
    if linelen mod BASE64_OPENSSL_LINELEN =? 0 then mkenc (out ++ [10]) 0
    else mkenc out linelen
  else mkenc out (e_linelen e).

Definition enc_char (n idx : Z) : Z :=
  nth (Z.to_nat (Z.land (Z.shiftr n ((3 - idx) * 6)) 0x3f)) base64_encode_table 0.

Definition ENCODE_N (multiline : bool) (n idx : Z) (e : enc_state) : enc_state :=
  ENCODE_CHAR multiline (enc_char n idx) e.

Definition ENCODE_PAD (multiline : bool) (e : enc_state) : enc_state := ENCODE_CHAR multiline 61 e.

Fixpoint encode_bytes (ml : bool) (src : bytes) (n n_idx : Z) (e : enc_state) : Z * Z * enc_state :=
  match src with
  | [] => (n, n_idx, e)
  | c :: r =>
      let n := Z.lor (u32 (Z.shiftl n 8)) (u8 c) in
      if n_idx + 1 =? 3 then
        encode_bytes ml r 0 0
          (ENCODE_N ml n 3 (ENCODE_N ml n 2 (ENCODE_N ml n 1 (ENCODE_N ml n 0 e))))
      else encode_bytes ml r n (n_idx + 1) e
  end.

(** The leftover bits and the padding. *)
Definition encode_tail (ml : bool) (n n_idx : Z) (e : enc_state) : cres enc_state :=
  if n_idx =? 0 then Ok e
  else if n_idx =? 1 then
    let n := u32 (Z.shiftl n 4) in
    Ok (ENCODE_PAD ml (ENCODE_PAD ml (ENCODE_N ml n 3 (ENCODE_N ml n 2 e))))
  else if n_idx =? 2 then
    let n := u32 (Z.shiftl n 2) in
    Ok (ENCODE_PAD ml (ENCODE_N ml n 3 (ENCODE_N ml n 2 (ENCODE_N ml n 1 e))))
  else Err.

Definition base64_encode (destlen : Z) (src : bytes) (flags : Z) : cres bytes :=
  let ml := negb (Z.land flags BASE64_ENCODE_MULTILINE =? 0) in
  let* enclen := base64_encode_size (zlen src) flags in
  if destlen <? enclen + 1 then Err
  else if SIZE_T_CEILING <? destlen then Err
  else if INT_MAX <? enclen then Err
  else
    let '(n, n_idx, e) := encode_bytes ml src 0 0 (mkenc [] 0) in
    let* e := encode_tail ml n n_idx e in
    let d := if ml && negb (e_linelen e =? 0) then e_out e ++ [10] else e_out e in
    assert! (zlen d =? enclen);
    Ok d.

(** [base64_encode_nopad] drops padding and newlines in place. *)
Definition base64_encode_nopad (destlen : Z) (src : bytes) : cres bytes :=
  let* s := base64_encode destlen src 0 in
  Ok (List.filter (fun c => negb ((c =? 61) || (c =? 10))) s).

Definition base64_decode_table : list Z :=
  let X := 255 in let SP := 64 in let PAD := 65 in [
  X; X; X; X; X; X; X; X; X; SP; SP; SP; X; SP; X; X;
  X; X; X; X; X; X; X; X; X; X; X; X; X; X; X; X;
  SP; X; X; X; X; X; X; X; X; X; X; 62; X; X; X; 63;
  52; 53; 54; 55; 56; 57; 58; 59; 60; 61; X; X; X; PAD; X; X;
  X; 0; 1; 2; 3; 4; 5; 6; 7; 8; 9; 10; 11; 12; 13; 14;
  15; 16; 17; 18; 19; 20; 21; 22; 23; 24; 25; X; X; X; X; X;
  X; 26; 27; 28; 29; 30; 31; 32; 33; 34; 35; 36; 37; 38; 39; 40;
  41; 42; 43; 44; 45; 46; 47; 48; 49; 50; 51; X; X; X; X; X;
  X; X; X; X; X; X; X; X; X; X; X; X; X; X; X; X;
  X; X; X; X; X; X; X; X; X; X; X; X; X; X; X; X;
  X; X; X; X; X; X; X; X; X; X; X; X; X; X; X; X;
  X; X; X; X; X; X; X; X; X; X; X; X; X; X; X; X;
  X; X; X; X; X; X; X; X; X; X; X; X; X; X; X; X;
  X; X; X; X; X; X; X; X; X; X; X; X; X; X; X; X;
  X; X; X; X; X; X; X; X; X; X; X; X; X; X; X; X;
  X; X; X; X; X; X; X; X; X; X; X; X; X; X; X; X].

Definition dec_val (c : Z) : Z := nth (Z.to_nat (u8 c)) base64_decode_table 255.

(** The loop over [src]: the leftover bits [n], their number [n_idx] and the
    bytes written. *)
Fixpoint decode_chars (destlen : Z) (src : bytes) (n n_idx : Z) (out : bytes) : cres (Z * Z * bytes) :=
  match src with
  | [] => Ok (n, n_idx, out)
  | c :: r =>
      let v := dec_val c in
      if v =? 255 then Err
      else if v =? 64 then decode_chars destlen r n n_idx out
      else if v =? 65 then Ok (n, n_idx, out)
      else
        let n := Z.lor (u32 (Z.shiftl n 6)) v in
        if n_idx + 1 =? 4 then
          if (destlen <? 3) || (destlen - 3 <? zlen out) then Err
          else decode_chars destlen r 0 0
                 (out ++ [u8 (Z.shiftr n 16); Z.land (Z.shiftr n 8) 0xff; Z.land n 0xff])
        else decode_chars destlen r n (n_idx + 1) out
  end.

Definition base64_decode (destlen : Z) (src : bytes) : cres bytes :=
  if INT_MAX <? destlen then Err
  else
    let* (n, n_idx, out) := decode_chars destlen src 0 0 [] in
    let* out :=
      (if n_idx =? 1 then Err
       else if n_idx =? 2 then
         if (destlen <? 1) || (destlen - 1 <? zlen out) then Err
         else Ok (out ++ [u8 (Z.shiftr n 4)])
       else if n_idx =? 3 then
         if (destlen <? 2) || (destlen - 2 <? zlen out) then Err
         else Ok (out ++ [u8 (Z.shiftr n 10); u8 (Z.shiftr n 2)])
       else Ok out) in
    assert! (zlen out <=? destlen);
    Ok out.

(** *** Lemmas *)

Definition sextet (v : Z) : Z := nth (Z.to_nat v) base64_encode_table 0.

(** The encoding, three bytes at a time, without line breaks. *)
Fixpoint b64_ref (src : bytes) : bytes :=
  match src with
  | a :: b :: c :: r =>
      let n := a * 65536 + b * 256 + c in
      sextet (n / 262144) :: sextet (n / 4096 mod 64) :: sextet (n / 64 mod 64) ::
      sextet (n mod 64) :: b64_ref r
  | [a; b] =>
      let n := (a * 256 + b) * 4 in
      [sextet (n / 4096); sextet (n / 64 mod 64); sextet (n mod 64); 61]
  | [a] => let n := a * 16 in [sextet (n / 64); sextet (n mod 64); 61; 61]
  | [] => []
  end.

Definition emit (ml : bool) (cs : bytes) (e : enc_state) : enc_state :=
  fold_left (fun e ch => ENCODE_CHAR ml ch e) cs e.

Lemma enc_char_sextet n idx : 0 <= n -> 0 <= idx <= 3 ->
  enc_char n idx = sextet (n / 2 ^ ((3 - idx) * 6) mod 64).
Proof.
  intros Hn Hi. unfold enc_char, sextet. change 0x3f with (Z.ones 6).
  by rewrite Z.land_ones, Z.shiftr_div_pow2 by lia.
Qed.

Lemma push_byte n c k : 0 <= n < 2 ^ k -> 0 <= k <= 24 -> is_byte c ->
  Z.lor (u32 (Z.shiftl n 8)) (u8 c) = n * 256 + c.
Proof.
  intros Hn Hk Hc. rewrite Base32.u8_byte by done. rewrite Z.shiftl_mul_pow2 by lia.
  unfold u32. rewrite Z.mod_small.
  - apply lor_low; [lia|]. unfold is_byte in Hc. lia.
  - assert (2 ^ k <= 2 ^ 24) by (apply Z.pow_le_mono_r; lia). lia.
Qed.

Lemma list_ind3 {A} (P : list A -> Prop) :
  P [] -> (forall a, P [a]) -> (forall a b, P [a; b]) ->
  (forall a b c l, P l -> P (a :: b :: c :: l)) -> forall l, P l.
Proof.
  intros H0 H1 H2 H3. fix IH 1. intros [|a [|b [|c l]]]; [done|done|done|].
  apply H3, IH.
Qed.

Lemma push_bits n k : 0 <= n < 2 ^ 24 -> 0 <= k <= 8 -> u32 (Z.shiftl n k) = n * 2 ^ k.
Proof.
  intros Hn Hk. rewrite Z.shiftl_mul_pow2 by lia. apply Z.mod_small.
  assert (1 <= 2 ^ k <= 2 ^ 8).
  { split; [apply (Z.pow_le_mono_r 2 0 k); lia|apply Z.pow_le_mono_r; lia]. }
  split; [nia|]. assert (n * 2 ^ k <= n * 2 ^ 8) by nia. lia.
Qed.

(** The accumulator loop encodes three bytes at a time. *)
Lemma encode_spec ml src : Forall is_byte src -> forall e,
  (let '(n, n_idx, e') := encode_bytes ml src 0 0 e in encode_tail ml n n_idx e')
  = Ok (emit ml (b64_ref src) e).
Proof.
  induction src as [|a|a b|a b c src IH] using list_ind3; intros Hb e.
  - done.
  - inversion_clear Hb as [|? ? Ha _]. cbn [encode_bytes]. change (0 + 1) with 1.
    rewrite (push_byte 0 a 0) by (done || lia). unfold encode_tail. cbn [Z.eqb Pos.eqb].
    unfold is_byte in Ha. rewrite push_bits by lia.
    unfold ENCODE_N, ENCODE_PAD. rewrite !enc_char_sextet by lia.
    cbn [b64_ref emit fold_left]. change (2 ^ 4) with 16.
    change (2 ^ ((3 - 2) * 6)) with 64. change (2 ^ ((3 - 3) * 6)) with 1. rewrite Z.div_1_r.
    rewrite !Z.add_0_l. do 6 f_equal. rewrite Z.mod_small; [done|]. Z.to_euclidean_division_equations; lia.
  - inversion_clear Hb as [|? ? Ha Hb']. inversion_clear Hb' as [|? ? Hb _].
    cbn [encode_bytes]. change (0 + 1) with 1. change (1 + 1) with 2. change (2 + 1) with 3.
    cbn [Z.eqb Pos.eqb].
    rewrite (push_byte 0 a 0) by (done || lia). unfold is_byte in Ha.
    rewrite (push_byte _ b 8) by (done || lia). unfold is_byte in Hb.
    unfold encode_tail. cbn [Z.eqb Pos.eqb]. rewrite push_bits by lia.
    unfold ENCODE_N, ENCODE_PAD. rewrite !enc_char_sextet by lia.
    cbn [b64_ref emit fold_left]. change (2 ^ 2) with 4.
    change (2 ^ ((3 - 1) * 6)) with 4096. change (2 ^ ((3 - 2) * 6)) with 64.
    change (2 ^ ((3 - 3) * 6)) with 1. rewrite Z.div_1_r, !Z.mul_0_l, !Z.add_0_l.
    do 7 f_equal. apply Z.mod_small. Z.to_euclidean_division_equations; lia.
  - inversion_clear Hb as [|? ? Ha Hb']. inversion_clear Hb' as [|? ? Hb Hb''].
    inversion_clear Hb'' as [|? ? Hc Hrest].
    cbn [encode_bytes]. change (0 + 1) with 1. change (1 + 1) with 2. change (2 + 1) with 3.
    cbn [Z.eqb Pos.eqb].
    rewrite (push_byte 0 a 0) by (done || lia). unfold is_byte in Ha.
    rewrite (push_byte _ b 8) by (done || lia). unfold is_byte in Hb.
    rewrite (push_byte _ c 16) by (done || lia). unfold is_byte in Hc.
    rewrite IH by done. unfold ENCODE_N. rewrite !enc_char_sextet by lia.
    cbn [b64_ref emit fold_left]. change (2 ^ ((3 - 0) * 6)) with 262144.
    change (2 ^ ((3 - 1) * 6)) with 4096. change (2 ^ ((3 - 2) * 6)) with 64.
    change (2 ^ ((3 - 3) * 6)) with 1. rewrite Z.div_1_r, !Z.mul_0_l, !Z.add_0_l.
    replace ((a * 256 + b) * 256 + c) with (a * 65536 + b * 256 + c) by lia.
    do 7 f_equal. apply Z.mod_small. Z.to_euclidean_division_equations; lia.
Qed.

Definition not_nl (c : Z) : bool := negb (c =? 10).

Lemma sextet_ok v : 0 <= v < 64 -> dec_val (sextet v) = v /\ not_nl (sextet v) = true.
Proof.
  intros Hv. assert (H : (dec_val (sextet v) =? v) && not_nl (sextet v) = true).
  { revert v Hv. apply (upto_forall 64). vm_compute. reflexivity. }
  boolp. done.
Qed.

Lemma emit_strip ml cs : forall e, Forall (fun c => not_nl c = true) cs ->
  List.filter not_nl (e_out (emit ml cs e)) = List.filter not_nl (e_out e) ++ cs.
Proof.
  induction cs as [|c cs IH]; intros e H; cbn [emit fold_left]; [by rewrite app_nil_r|].
  inversion_clear H as [|? ? Hc Hcs]. fold (emit ml cs (ENCODE_CHAR ml c e)). rewrite IH by done.
  assert (List.filter not_nl (e_out (ENCODE_CHAR ml c e)) = List.filter not_nl (e_out e) ++ [c]) as ->.
  { unfold ENCODE_CHAR. destruct ml; [zcase|]; cbn [e_out]; rewrite !List.filter_app; cbn [List.filter];
      rewrite Hc; change (not_nl 10) with false; by rewrite ?app_nil_r. }
  by rewrite <- app_assoc.
Qed.

(** What the line breaker has written after [k] characters. *)
Definition enc_inv (ml : bool) (k : Z) (e : enc_state) : Prop :=
  if ml then e_linelen e = k mod 64 /\ zlen (e_out e) = k + k / 64
  else zlen (e_out e) = k.

Lemma ENCODE_CHAR_inv ml c k e : 0 <= k -> enc_inv ml k e -> enc_inv ml (k + 1) (ENCODE_CHAR ml c e).
Proof.
  intros Hk H. unfold ENCODE_CHAR, enc_inv, BASE64_OPENSSL_LINELEN in *.
  destruct ml; [|cbn [e_out]; rewrite zlen_app; by rewrite H].
  destruct H as [Hl Hz].
  zcase; cbn [e_out e_linelen]; rewrite !zlen_app; change (zlen [c]) with 1; change (zlen [10]) with 1;
    rewrite Hz; split; Z.to_euclidean_division_equations; lia.
Qed.

Lemma emit_inv ml cs : forall k e, 0 <= k -> enc_inv ml k e -> enc_inv ml (k + zlen cs) (emit ml cs e).
Proof.
  induction cs as [|c cs IH]; intros k e Hk H; cbn [emit fold_left].
  - change (zlen []) with 0. by rewrite Z.add_0_r.
  - rewrite zlen_cons. replace (k + (zlen cs + 1)) with ((k + 1) + zlen cs) by lia.
    apply IH; [lia|]. by apply ENCODE_CHAR_inv.
Qed.

Lemma length_b64_ref src : zlen (b64_ref src) = BASE64_LEN (zlen src).
Proof.
  unfold BASE64_LEN, CEIL_DIV.
  induction src as [|a|a b|a b c src IH] using list_ind3; [done|done|done|].
  cbn [b64_ref]. rewrite !zlen_cons, IH.
  replace (zlen src + 1 + 1 + 1 + (3 - 1)) with (zlen src + (3 - 1) + 1 * 3) by lia.
  rewrite Z.div_add by lia. lia.
Qed.

Ltac sextets :=
  repeat constructor; try done;
  apply sextet_ok; unfold is_byte in *; Z.to_euclidean_division_equations; lia.

Lemma b64_ref_no_nl src : Forall is_byte src -> Forall (fun c => not_nl c = true) (b64_ref src).
Proof.
  induction src as [|a|a b|a b c src IH] using list_ind3; intros H; cbn [b64_ref].
  - constructor.
  - inversion_clear H as [|? ? Ha _]. sextets.
  - inversion_clear H as [|? ? Ha H']. inversion_clear H' as [|? ? Hb _]. sextets.
  - inversion_clear H as [|? ? Ha H']. inversion_clear H' as [|? ? Hb H''].
    inversion_clear H'' as [|? ? Hc H3]. repeat (apply Forall_cons_2 || apply Forall_cons; [sextets|]).
    by apply IH.
Qed.

(** The decoder skips line breaks. *)
Lemma decode_chars_strip D s : forall n idx out,
  decode_chars D s n idx out = decode_chars D (List.filter not_nl s) n idx out.
Proof.
  induction s as [|c s IH]; intros n idx out; [done|]. cbn [decode_chars List.filter].
  unfold not_nl at 1. destruct (Z.eqb_spec c 10) as [->|Hc]; cbn [negb].
  - change (dec_val 10 =? 255) with false. change (dec_val 10 =? 64) with true. cbv iota. apply IH.
  - cbn [decode_chars]. repeat case_match; auto.
Qed.

Definition decode_finish (D : Z) (r : cres (Z * Z * bytes)) : cres bytes :=
  let* (n, n_idx, out) := r in
  let* out :=
    (if n_idx =? 1 then Err
     else if n_idx =? 2 then
       if (D <? 1) || (D - 1 <? zlen out) then Err
       else Ok (out ++ [u8 (Z.shiftr n 4)])
     else if n_idx =? 3 then
       if (D <? 2) || (D - 2 <? zlen out) then Err
       else Ok (out ++ [u8 (Z.shiftr n 10); u8 (Z.shiftr n 2)])
     else Ok out) in
  assert! (zlen out <=? D);
  Ok out.

(** Reading one sextet. *)
Lemma decode_sextet D v r n idx out : 0 <= v < 64 -> 0 <= n < 2 ^ 18 -> 0 <= idx < 3 ->
  decode_chars D (sextet v :: r) n idx out = decode_chars D r (n * 64 + v) (idx + 1) out.
Proof.
  intros Hv Hn Hi. cbn [decode_chars]. destruct (sextet_ok v Hv) as [-> _].
  replace (v =? 255) with false by blia. replace (v =? 64) with false by blia.
  replace (v =? 65) with false by blia. replace (idx + 1 =? 4) with false by blia.
  f_equal. rewrite push_bits by lia. apply lor_low; lia.
Qed.

Lemma decode_last_sextet D v r n out : 0 <= v < 64 -> 0 <= n < 2 ^ 18 -> zlen out + 3 <= D ->
  decode_chars D (sextet v :: r) n 3 out =
  decode_chars D r 0 0 (out ++ [(n * 64 + v) / 65536; (n * 64 + v) / 256 mod 256; (n * 64 + v) mod 256]).
Proof.
  intros Hv Hn Hd. cbn [decode_chars]. destruct (sextet_ok v Hv) as [-> _].
  replace (v =? 255) with false by blia. replace (v =? 64) with false by blia.
  replace (v =? 65) with false by blia. change (3 + 1 =? 4) with true. cbv iota.
  pose proof (zlen_nonneg out).
  replace ((D <? 3) || (D - 3 <? zlen out)) with false by blia.
  rewrite push_bits by lia. rewrite lor_low by lia. change (2 ^ 6) with 64.
  do 3 f_equal.
  - rewrite Z.shiftr_div_pow2 by lia. apply Z.mod_small. Z.to_euclidean_division_equations; lia.
  - change 0xff with (Z.ones 8). by rewrite !Z.land_ones, Z.shiftr_div_pow2 by lia.
Qed.

Lemma decode_ref D src : forall out, Forall is_byte src -> zlen out + zlen src <= D ->
  decode_finish D (decode_chars D (b64_ref src) 0 0 out) = Ok (out ++ src).
Proof.
  induction src as [|a|a b|a b c src IH] using list_ind3; intros out Hb HD; cbn [b64_ref];
    pose proof (zlen_nonneg out) as Hout.
  - cbn. change (zlen []) with 0 in HD. replace (zlen out <=? D) with true by blia. by rewrite app_nil_r.
  - inversion_clear Hb as [|? ? Ha _]. unfold is_byte in Ha. change (zlen [a]) with 1 in HD.
    rewrite !decode_sextet by (Z.to_euclidean_division_equations; lia).
    cbn [decode_chars]. change (dec_val 61) with 65. cbn [Z.eqb Pos.eqb].
    unfold decode_finish. cbn [cbind]. change (0 + 1 + 1) with 2. cbn [Z.eqb Pos.eqb].
    replace ((D <? 1) || (D - 1 <? zlen out)) with false by blia. cbn [cbind].
    rewrite zlen_app. change (zlen [_]) with 1. replace (zlen out + 1 <=? D) with true by blia.
    do 3 f_equal. rewrite Z.shiftr_div_pow2 by lia. unfold u8. Z.to_euclidean_division_equations; lia.
  - inversion_clear Hb as [|? ? Ha Hb']. inversion_clear Hb' as [|? ? Hb _]. unfold is_byte in *.
    change (zlen [a; b]) with 2 in HD.
    rewrite !decode_sextet by (Z.to_euclidean_division_equations; lia).
    cbn [decode_chars]. change (dec_val 61) with 65. cbn [Z.eqb Pos.eqb].
    unfold decode_finish. cbn [cbind]. change (0 + 1 + 1 + 1) with 3. cbn [Z.eqb Pos.eqb].
    replace ((D <? 2) || (D - 2 <? zlen out)) with false by blia. cbn [cbind].
    rewrite zlen_app. change (zlen [_; _]) with 2. replace (zlen out + 2 <=? D) with true by blia.
    do 3 f_equal.
    + rewrite Z.shiftr_div_pow2 by lia. unfold u8. Z.to_euclidean_division_equations; lia.
    + f_equal. rewrite Z.shiftr_div_pow2 by lia. unfold u8. Z.to_euclidean_division_equations; lia.
  - inversion_clear Hb as [|? ? Ha Hb']. inversion_clear Hb' as [|? ? Hb Hb''].
    inversion_clear Hb'' as [|? ? Hc Hrest]. unfold is_byte in Ha, Hb, Hc.
    rewrite !zlen_cons in HD. pose proof (zlen_nonneg src).
    rewrite !decode_sextet by (Z.to_euclidean_division_equations; lia).
    change (0 + 1 + 1 + 1) with 3.
    rewrite decode_last_sextet by (Z.to_euclidean_division_equations; lia).
    rewrite IH; [|done|rewrite zlen_app; change (zlen [_; _; _]) with 3; lia].
    rewrite <- app_assoc. cbn [app].
    do 2 f_equal. f_equal; [|f_equal; [|f_equal]]; Z.to_euclidean_division_equations; lia.
Qed.

(** An input size for which the encoded size fits an [int], with line breaks. *)
Definition base64_max : Z := 1000000000.

Lemma base64_encode_size_ok n flags : 0 <= n <= base64_max ->
  base64_encode_size n flags =
  Ok (if negb (Z.land flags BASE64_ENCODE_MULTILINE =? 0)
      then BASE64_LEN n + CEIL_DIV (BASE64_LEN n) 64 else BASE64_LEN n).
Proof.
  unfold base64_max. intros Hn. unfold base64_encode_size, BASE64_LEN, CEIL_DIV, INT_MAX, BASE64_OPENSSL_LINELEN.
  replace (n <? 2147483647) with true by blia.
  replace ((n + (3 - 1)) / 3 <? 2147483647 / 4) with true
    by (symmetry; apply Z.ltb_lt; Z.to_euclidean_division_equations; lia).
  match goal with |- (assert! ?c; _) = _ => assert (c = true) as ->; [|done] end.
  destruct (negb _); rewrite andb_true_iff, orb_true_iff, !Z.ltb_lt, Z.eqb_eq;
    Z.to_euclidean_division_equations; lia.
Qed.

(**  Base64 round trip, with and without line breaks: for every byte string
    of a representable size and any flags, [base64_encode] into a buffer of
    [base64_encode_size + 1] bytes writes exactly the announced number of
    characters (its final assertion holds) and [base64_decode] of them, into
    any buffer that has room, gives the original bytes. *)
Theorem base64_roundtrip src flags :
  Forall is_byte src -> zlen src <= base64_max ->
  exists enclen s, base64_encode_size (zlen src) flags = Ok enclen /\
    base64_encode (enclen + 1) src flags = Ok s /\ zlen s = enclen /\
    forall destlen, zlen src <= destlen <= INT_MAX -> base64_decode destlen s = Ok src.
Proof.
  intros Hb Hlen. pose proof (zlen_nonneg src) as Hnn.
  set (ml := negb (Z.land flags BASE64_ENCODE_MULTILINE =? 0)).
  set (e := emit ml (b64_ref src) (mkenc [] 0)).
  set (s := if ml && negb (e_linelen e =? 0) then e_out e ++ [10] else e_out e).
  pose proof (base64_encode_size_ok (zlen src) flags ltac:(lia)) as Hsz. fold ml in Hsz.
  set (enclen := if ml then _ else _) in Hsz.
  assert (Hk : 0 <= BASE64_LEN (zlen src) < 1400000000).
  { unfold BASE64_LEN, CEIL_DIV, base64_max in *. Z.to_euclidean_division_equations; lia. }
  assert (Hinv : enc_inv ml (BASE64_LEN (zlen src)) e).
  { rewrite <- length_b64_ref, <- (Z.add_0_l (zlen (b64_ref src))). apply emit_inv; [lia|]. by destruct ml. }
  assert (Hs : zlen s = enclen).
  { unfold s, enclen, enc_inv in *. clearbody e.
    destruct ml; cbn [andb]; [|done]. destruct Hinv as [Hl Hz].
    unfold CEIL_DIV. destruct (Z.eqb_spec (e_linelen e) 0) as [H0|H0]; cbn [negb];
      rewrite ?zlen_app, Hz; change (zlen [10]) with 1; Z.to_euclidean_division_equations; lia. }
  assert (Hstrip : List.filter not_nl s = b64_ref src).
  { pose proof (emit_strip ml (b64_ref src) (mkenc [] 0) (b64_ref_no_nl src Hb)) as He. fold e in He.
    unfold s. destruct (_ && _); [|done]. rewrite List.filter_app. cbn. by rewrite app_nil_r. }
  exists enclen, s. split; [done|]. split; [|split; [done|]].
  - unfold base64_encode. rewrite Hsz. cbn [cbind]. rewrite Z.ltb_irrefl. fold ml.
    assert (0 <= enclen <= INT_MAX) as Hrange.
    { unfold enclen, INT_MAX, CEIL_DIV. destruct ml; Z.to_euclidean_division_equations; lia. }
    replace (SIZE_T_CEILING <? enclen + 1) with false by (unfold SIZE_T_CEILING, INT_MAX in *; blia).
    replace (INT_MAX <? enclen) with false by blia.
    pose proof (encode_spec ml src Hb (mkenc [] 0)) as He. fold e in He.
    destruct (encode_bytes ml src 0 0 (mkenc [] 0)) as [[n n_idx] e']. rewrite He. cbn [cbind].
    fold s. by rewrite Hs, Z.eqb_refl.
  - intros D HD. unfold base64_decode. replace (INT_MAX <? D) with false by blia.
    rewrite decode_chars_strip, Hstrip. apply (decode_ref D src []); [done|]. change (zlen []) with 0. lia.
Qed.

Lemma base64_roundtrip_witness :
  exists enclen s, base64_encode_size (zlen [0; 200; 17; 255]) 1 = Ok enclen /\
    base64_encode (enclen + 1) [0; 200; 17; 255] 1 = Ok s /\ zlen s = enclen /\
    forall destlen, zlen [0; 200; 17; 255] <= destlen <= INT_MAX ->
      base64_decode destlen s = Ok [0; 200; 17; 255].
Proof.
  apply base64_roundtrip; [|vm_compute; discriminate].
  repeat constructor; vm_compute; (discriminate || reflexivity).
Defined.

(** Decoding any string ends with a refusal or with bytes that fit. *)
Lemma decode_chars_total n s : forall a b out, zlen out <= n -> decode_chars n s a b out = Err \/ exists a' b' out', decode_chars n s a b out = Ok (a', b', out') /\ zlen out' <= n.
Proof.
  induction s as [|c s IH]; intros a b out Ho; cbn [decode_chars]; [right; by eexists _, _, _|]. destruct (dec_val c =? 255); [by left|]. destruct (dec_val c =? 64); [by apply IH|]. destruct (dec_val c =? 65); [right; by eexists _, _, _|].
  destruct (b + 1 =? 4); [|by apply IH]. destruct (_ || _) eqn:E; [by left|]. boolp. apply IH. zlia.
Qed.

Lemma base64_decode_total n s : 0 <= n -> base64_decode n s = Err \/ exists o, base64_decode n s = Ok o.
Proof.
  intros Hn. unfold base64_decode. destruct (INT_MAX <? n); [by left|]. destruct (decode_chars_total n s 0 0 []) as [->|(a & b & out & -> & Ho)]; [by change (zlen []) with 0|by left|]. cbn [cbind].
  destruct (b =? 1); [by left|]. destruct (b =? 2); [|destruct (b =? 3)].
  - destruct (_ || _) eqn:E; [by left|]. boolp. cbn [cbind]. rewrite (proj2 (Z.leb_le _ _)) by zlia. right. by eexists.
  - destruct (_ || _) eqn:E; [by left|]. boolp. cbn [cbind]. rewrite (proj2 (Z.leb_le _ _)) by zlia. right. by eexists.
  - cbn [cbind]. rewrite (proj2 (Z.leb_le _ _)) by lia. right. by eexists.
Qed.

End Base64.
Export Base64.
