(* ===== verification/Buffers.v ===== *)
(** * Byte buffers

    Models lib/buf/buffers.c: a buffer is a chain of chunks, data is added at the
    tail and removed at the head.

    A chunk has an address ([ch_id]), its memory [mem] (of [memlen] bytes), the
    offset of [data] in it and [datalen].  The chain that starts at [buf->head] and
    follows [next] is a list; [buf->tail] is an address, so that the code that
    keeps it up to date is part of the model.  The allocator is explicit state:
    the next free address, [total_bytes_allocated_in_chunks], the clock and
    whether [realloc] moves a block.  Uninitialised memory holds the byte [junk].
    [contents] is the abstraction: the bytes of the chunks in order. *)

From S2P Require Import Prelude DiOps UtilString.
From Stdlib Require Import ZArith String.
From stdpp Require Import base list numbers.
Open Scope Z_scope.

Definition BUF_MAX_LEN : Z := INT_MAX - 1.
Definition PEEK_BUF_STARTSWITH_MAX : Z := 16.

(** [offsetof(chunk_t, mem[0])] on a 64-bit platform, with [DBG_alloc]. *)
Definition CHUNK_HEADER_LEN : Z := 44.
Definition SENTINEL_LEN : Z := 4.
Definition CHUNK_OVERHEAD : Z := CHUNK_HEADER_LEN + SENTINEL_LEN.
Definition CHUNK_ALLOC_SIZE (memlen : Z) : Z := CHUNK_OVERHEAD + memlen.
Definition CHUNK_SIZE_WITH_ALLOC (memlen : Z) : Z := memlen - CHUNK_OVERHEAD.
Definition MIN_CHUNK_ALLOC : Z := 256.
Definition MAX_CHUNK_ALLOC : Z := 65536.

Record chunk_t := mkchunk {
  ch_id : Z; datalen : Z; DBG_alloc : Z; data_off : Z; inserted_time : Z; mem : bytes
}.

Definition memlen (c : chunk_t) : Z := zlen (mem c).

Record buf_t := mkbuf {
  b_datalen : Z; default_chunk_size : Z; head : list chunk_t; tail : option Z
}.

(** The allocator and the clock. *)
Record alloc_t := mkalloc {
  next_addr : Z; total_bytes_allocated_in_chunks : Z; realloc_moves : bool; now_stamp : Z
}.

Section Buffers.
Variable junk : Z.

Definition CHUNK_REMAINING_CAPACITY (c : chunk_t) : Z := memlen c - (data_off c + datalen c).

(** The bytes of data of a chunk. *)
Definition chunk_data (c : chunk_t) : bytes := take (Z.to_nat (datalen c)) (drop (Z.to_nat (data_off c)) (mem c)).

(** [memcpy(CHUNK_WRITE_PTR(c), s, n)] followed by [c->datalen += n]. *)
Definition chunk_write (c : chunk_t) (s : bytes) : cres chunk_t :=
  let w := data_off c + datalen c in
  assert! (w + zlen s <=? memlen c);
  Ok (mkchunk (ch_id c) (datalen c + zlen s) (DBG_alloc c) (data_off c) (inserted_time c)
        (take (Z.to_nat w) (mem c) ++ s ++ drop (Z.to_nat (w + zlen s)) (mem c))).

Definition CHUNK_SET_SENTINEL (c : chunk_t) (alloclen : Z) : cres chunk_t :=
  assert! (CHUNK_HEADER_LEN + memlen c =? alloclen - SENTINEL_LEN);
  Ok c.

Definition chunk_repack (c : chunk_t) : chunk_t :=
  let mem' := if negb (datalen c =? 0) && negb (data_off c =? 0)
              then chunk_data c ++ drop (Z.to_nat (datalen c)) (mem c) else mem c in
  mkchunk (ch_id c) (datalen c) (DBG_alloc c) 0 (inserted_time c) mem'.

Definition buf_chunk_free_unchecked (g : alloc_t) (c : chunk_t) : cres alloc_t :=
  assert! (CHUNK_ALLOC_SIZE (memlen c) =? DBG_alloc c);
  assert! (CHUNK_ALLOC_SIZE (memlen c) <=? total_bytes_allocated_in_chunks g);
  Ok (mkalloc (next_addr g) (total_bytes_allocated_in_chunks g - CHUNK_ALLOC_SIZE (memlen c))
        (realloc_moves g) (now_stamp g)).

Definition chunk_new_with_alloc_size (g : alloc_t) (alloc : Z) : cres (alloc_t * chunk_t) :=
  let memlen := u64 (CHUNK_SIZE_WITH_ALLOC alloc) in
  let ch := mkchunk (next_addr g) 0 alloc 0 0 (repeat junk (Z.to_nat memlen)) in
  let* ch := CHUNK_SET_SENTINEL ch alloc in
  Ok (mkalloc (next_addr g + 1) (total_bytes_allocated_in_chunks g + alloc) (realloc_moves g) (now_stamp g), ch).

Definition chunk_grow (g : alloc_t) (c : chunk_t) (sz : Z) : cres (alloc_t * chunk_t) :=
  let orig_alloc := CHUNK_ALLOC_SIZE (memlen c) in
  let new_alloc := CHUNK_ALLOC_SIZE sz in
  assert! (memlen c <? sz);
  let id := if realloc_moves g then next_addr g else ch_id c in
  assert! (DBG_alloc c =? orig_alloc);
  let c' := mkchunk id (datalen c) new_alloc (data_off c) (inserted_time c)
              (mem c ++ repeat junk (Z.to_nat (sz - memlen c))) in
  let* c' := CHUNK_SET_SENTINEL c' new_alloc in
  Ok (mkalloc (next_addr g + 1) (total_bytes_allocated_in_chunks g + (new_alloc - orig_alloc))
        (realloc_moves g) (now_stamp g), c').

Fixpoint preferred_loop (fuel : nat) (sz target : Z) : cres Z :=
  match fuel with
  | O => Fuel
  | S fuel => if CHUNK_SIZE_WITH_ALLOC sz <? target then preferred_loop fuel (Z.shiftl sz 1) target else Ok sz
  end.

Definition buf_preferred_chunk_size (target : Z) : cres Z :=
  assert! (target <=? SIZE_T_CEILING - CHUNK_OVERHEAD);
  if MAX_CHUNK_ALLOC <=? CHUNK_ALLOC_SIZE target then Ok (CHUNK_ALLOC_SIZE target)
  else preferred_loop 16 MIN_CHUNK_ALLOC target.

(** ** Following addresses in the chain *)

Fixpoint find_chunk (id : Z) (l : list chunk_t) : cres chunk_t :=
  match l with
  | [] => Bug
  | c :: r => if ch_id c =? id then Ok c else find_chunk id r
  end.

Fixpoint upd_chunk (id : Z) (c' : chunk_t) (l : list chunk_t) : list chunk_t :=
  match l with
  | [] => []
  | c :: r => if ch_id c =? id then c' :: r else c :: upd_chunk id c' r
  end.

(** [p->next = rest] for the chunk at address [id]. *)
Fixpoint set_next (id : Z) (l rest : list chunk_t) : cres (list chunk_t) :=
  match l with
  | [] => Bug
  | c :: r => if ch_id c =? id then Ok (c :: rest) else let* r := set_next id r rest in Ok (c :: r)
  end.

(** ** Operations *)

Definition buf_new : buf_t := mkbuf 0 4096 [] None.

Definition buf_new_with_capacity (size : Z) : cres buf_t :=
  let* sz := buf_preferred_chunk_size size in Ok (mkbuf 0 sz [] None).

Fixpoint free_chunks (g : alloc_t) (l : list chunk_t) : cres alloc_t :=
  match l with
  | [] => Ok g
  | c :: next => let* g := buf_chunk_free_unchecked g c in free_chunks g next
  end.

Definition buf_clear (g : alloc_t) (b : buf_t) : cres (alloc_t * buf_t) :=
  let* g := free_chunks g (head b) in
  Ok (g, mkbuf 0 (default_chunk_size b) [] None).

Definition buf_datalen (b : buf_t) : Z := b_datalen b.

Definition buf_allocation (b : buf_t) : Z :=
  fold_left (fun total c => total + CHUNK_ALLOC_SIZE (memlen c)) (head b) 0.

Definition buf_slack (b : buf_t) : cres Z :=
  match tail b with
  | None => Ok 0
  | Some t => let* c := find_chunk t (head b) in Ok (CHUNK_REMAINING_CAPACITY c)
  end.

Definition buf_get_oldest_chunk_timestamp (b : buf_t) (now : Z) : Z :=
  match head b with
  | c :: _ => u32 (now - inserted_time c)
  | [] => 0
  end.

(** *** Draining and peeking *)

Fixpoint drain_loop (g : alloc_t) (b_datalen n dflt : Z) (chain : list chunk_t) (tl : option Z)
    : cres (alloc_t * buf_t) :=
  if n =? 0 then Ok (g, mkbuf b_datalen dflt chain tl)
  else
    match chain with
    | [] => Bug
    | victim :: next =>
        if n <? datalen victim then
          Ok (g, mkbuf (b_datalen - n) dflt
                   (mkchunk (ch_id victim) (datalen victim - n) (DBG_alloc victim) (data_off victim + n)
                      (inserted_time victim) (mem victim) :: next) tl)
        else
          let tl := if bool_decide (tl = Some (ch_id victim)) then None else tl in
          let* g' := buf_chunk_free_unchecked g victim in
          drain_loop g' (b_datalen - datalen victim) (n - datalen victim) dflt next tl
    end.

Definition buf_drain (g : alloc_t) (b : buf_t) (n : Z) : cres (alloc_t * buf_t) :=
  assert! (n <=? b_datalen b);
  drain_loop g (b_datalen b) n (default_chunk_size b) (head b) (tail b).

Fixpoint peek_loop (chain : list chunk_t) (string_len : Z) : cres bytes :=
  if string_len =? 0 then Ok []
  else
    match chain with
    | [] => Bug
    | c :: next =>
        let copy := if datalen c <? string_len then datalen c else string_len in
        let* rest := peek_loop next (string_len - copy) in
        Ok (take (Z.to_nat copy) (drop (Z.to_nat (data_off c)) (mem c)) ++ rest)
    end.

Definition buf_peek (b : buf_t) (string_len : Z) : cres bytes :=
  assert! (string_len <=? b_datalen b);
  peek_loop (head b) string_len.

Definition buf_get_bytes (g : alloc_t) (b : buf_t) (string_len : Z) : cres (alloc_t * buf_t * bytes) :=
  let* s := buf_peek b string_len in
  let* (g, b) := buf_drain g b string_len in
  assert! (b_datalen b <=? BUF_MAX_LEN);
  Ok (g, b, s).

Definition buf_extract (b : buf_t) : cres bytes := buf_peek b (buf_datalen b).

Definition buf_peek_startswith (b : buf_t) (cmd : bytes) : cres bool :=
  let clen := zlen cmd in
  if clen =? 0 then Ok true
  else if PEEK_BUF_STARTSWITH_MAX <? clen then Ok false
  else if b_datalen b <? clen then Ok false
  else
    let* tmp := buf_peek b clen in
    Ok (memcmp tmp cmd =? 0).

(** *** Adding *)

Definition buf_add_chunk_with_capacity (g : alloc_t) (b : buf_t) (capacity : Z) (capped : bool)
    : cres (alloc_t * buf_t) :=
  let* (g, chunk) :=
    (if CHUNK_ALLOC_SIZE capacity <? default_chunk_size b then
       chunk_new_with_alloc_size g (default_chunk_size b)
     else if capped && (MAX_CHUNK_ALLOC <? CHUNK_ALLOC_SIZE capacity) then
       chunk_new_with_alloc_size g MAX_CHUNK_ALLOC
     else
       let* sz := buf_preferred_chunk_size capacity in
       chunk_new_with_alloc_size g sz) in
  let chunk := mkchunk (ch_id chunk) (datalen chunk) (DBG_alloc chunk) (data_off chunk) (now_stamp g) (mem chunk) in
  match tail b with
  | Some t =>
      assert! (match head b with [] => false | _ => true end);
      let* chain := set_next t (head b) [chunk] in
      Ok (g, mkbuf (b_datalen b) (default_chunk_size b) chain (Some (ch_id chunk)))
  | None =>
      assert! (match head b with [] => true | _ => false end);
      Ok (g, mkbuf (b_datalen b) (default_chunk_size b) [chunk] (Some (ch_id chunk)))
  end.

(** The chunk at [buf->tail]. *)
Definition tail_chunk (b : buf_t) : cres chunk_t :=
  match tail b with Some t => find_chunk t (head b) | None => Bug end.

(** [!buf->tail || !CHUNK_REMAINING_CAPACITY(buf->tail)] *)
Definition needs_chunk (b : buf_t) : cres bool :=
  match tail b with
  | None => Ok true
  | Some t => let* c := find_chunk t (head b) in Ok (CHUNK_REMAINING_CAPACITY c =? 0)
  end.

Fixpoint add_loop (fuel : nat) (g : alloc_t) (b : buf_t) (string : bytes) : cres (alloc_t * buf_t) :=
  match fuel with
  | O => Fuel
  | S fuel =>
      let string_len := zlen string in
      if string_len =? 0 then Ok (g, b)
      else
        let* need := needs_chunk b in
        let* (g, b) := (if need : bool then buf_add_chunk_with_capacity g b string_len true else Ok (g, b)) in
        let* t := tail_chunk b in
        let copy := CHUNK_REMAINING_CAPACITY t in
        let copy := if string_len <? copy then string_len else copy in
        let* t' := chunk_write t (take (Z.to_nat copy) string) in
        let b := mkbuf (b_datalen b + copy) (default_chunk_size b) (upd_chunk (ch_id t) t' (head b)) (tail b) in
        add_loop fuel g b (drop (Z.to_nat copy) string)
  end.

(** The result is the new length.  The subtraction of the second check is
    unsigned. *)
Definition buf_add (g : alloc_t) (b : buf_t) (string : bytes) : cres (alloc_t * buf_t * Z) :=
  let string_len := zlen string in
  if string_len =? 0 then Ok (g, b, b_datalen b)
  else if BUF_MAX_LEN <? b_datalen b then Err
  else if u64 (BUF_MAX_LEN - string_len) <? b_datalen b then Err
  else
    let* (g, b) := add_loop (S (length string)) g b string in
    assert! (b_datalen b <=? BUF_MAX_LEN);
    Ok (g, b, b_datalen b).

Definition buf_add_string := buf_add.

(** *** Pulling data into the first chunk *)

(** [while (dest->datalen < bytes)]: [dest] is the head and [rest] its successors. *)
Fixpoint pullup_loop (g : alloc_t) (dest : chunk_t) (rest : list chunk_t) (tl : option Z) (bytes_ : Z)
    : cres (alloc_t * list chunk_t * option Z) :=
  if bytes_ <=? datalen dest then Ok (g, dest :: rest, tl)
  else
    match rest with
    | [] => Bug
    | src :: next =>
        let n := bytes_ - datalen dest in
        if datalen src <=? n then
          let* dest := chunk_write dest (chunk_data src) in
          let tl := if bool_decide (tl = Some (ch_id src)) then Some (ch_id dest) else tl in
          let* g := buf_chunk_free_unchecked g src in
          pullup_loop g dest next tl bytes_
        else
          let* dest := chunk_write dest (take (Z.to_nat n) (chunk_data src)) in
          let src := mkchunk (ch_id src) (datalen src - n) (DBG_alloc src) (data_off src + n) (inserted_time src) (mem src) in
          assert! (datalen dest =? bytes_);
          Ok (g, dest :: src :: next, tl)
    end.

(** The head chunk made large enough; the tail follows if the chunk moves. *)
Definition pullup_head (g : alloc_t) (h : chunk_t) (tl : option Z) (capacity : Z)
    : cres (alloc_t * chunk_t * option Z) :=
  if capacity <=? memlen h then
    let needed := capacity - datalen h in
    let h := if CHUNK_REMAINING_CAPACITY h <? needed then chunk_repack h else h in
    assert! (needed <=? CHUNK_REMAINING_CAPACITY h);
    Ok (g, h, tl)
  else
    let h := chunk_repack h in
    let* sz := buf_preferred_chunk_size capacity in
    let newsize := CHUNK_SIZE_WITH_ALLOC sz in
    let* (g, newhead) := chunk_grow g h newsize in
    assert! (capacity <=? memlen newhead);
    let tl := if negb (ch_id newhead =? ch_id h) && bool_decide (tl = Some (ch_id h))
              then Some (ch_id newhead) else tl in
    Ok (g, newhead, tl).

(** The result is the data at [*head_out], [None] when it is NULL. *)
Definition buf_pullup (g : alloc_t) (b : buf_t) (bytes_ : Z) : cres (alloc_t * buf_t * option bytes) :=
  match head b with
  | [] => Ok (g, b, None)
  | h :: rest =>
      let bytes_ := if b_datalen b <? bytes_ then b_datalen b else bytes_ in
      if bytes_ <=? datalen h then Ok (g, b, Some (chunk_data h))
      else
        let* (g, h, tl) := pullup_head g h (tail b) bytes_ in
        let* (g, chain, tl) := pullup_loop g h rest tl bytes_ in
        let b := mkbuf (b_datalen b) (default_chunk_size b) chain tl in
        match chain with
        | [] => Bug
        | h :: _ => Ok (g, b, Some (chunk_data h))
        end
  end.

(** *** Copying and moving *)

Definition chunk_copy (g : alloc_t) (c : chunk_t) : alloc_t * chunk_t :=
  (mkalloc (next_addr g + 1) (total_bytes_allocated_in_chunks g + CHUNK_ALLOC_SIZE (memlen c))
     (realloc_moves g) (now_stamp g),
   mkchunk (next_addr g) (datalen c) (CHUNK_ALLOC_SIZE (memlen c)) (data_off c) (inserted_time c) (mem c)).

Fixpoint copy_loop (g : alloc_t) (ch : list chunk_t) (out : buf_t) : cres (alloc_t * buf_t) :=
  match ch with
  | [] => Ok (g, out)
  | c :: next =>
      let '(g, newch) := chunk_copy g c in
      let* out :=
        match tail out with
        | Some t =>
            let* chain := set_next t (head out) [newch] in
            Ok (mkbuf (b_datalen out) (default_chunk_size out) chain (Some (ch_id newch)))
        | None => Ok (mkbuf (b_datalen out) (default_chunk_size out) [newch] (Some (ch_id newch)))
        end in
      copy_loop g next out
  end.

Definition buf_copy (g : alloc_t) (b : buf_t) : cres (alloc_t * buf_t) :=
  let* (g, out) := copy_loop g (head b) (mkbuf 0 (default_chunk_size b) [] None) in
  Ok (g, mkbuf (b_datalen b) (default_chunk_size out) (head out) (tail out)).

Definition buf_free_ (g : alloc_t) (b : buf_t) : cres alloc_t :=
  let* (g, _) := buf_clear g b in Ok g.

Definition buf_set_to_copy (g : alloc_t) (output : option buf_t) (input : buf_t) : cres (alloc_t * buf_t) :=
  let* g := match output with Some o => buf_free_ g o | None => Ok g end in
  buf_copy g input.

Fixpoint move_loop (fuel : nat) (g : alloc_t) (buf_out buf_in : buf_t) (len : Z) : cres (alloc_t * buf_t * buf_t) :=
  match fuel with
  | O => Fuel
  | S fuel =>
      if len =? 0 then Ok (g, buf_out, buf_in)
      else
        let n := if 4096 <? len then 4096 else len in
        let* (g, buf_in, b) := buf_get_bytes g buf_in n in
        let* (g, buf_out) :=
          match buf_add g buf_out b with
          | Ok (g, o, _) => Ok (g, o)
          | Err => Ok (g, buf_out)
          | Bug => Bug
          | Fuel => Fuel
          end in
        move_loop fuel g buf_out buf_in (len - n)
  end.

(** The result is the number of bytes moved and the new [*buf_flushlen]. *)
Definition buf_move_to_buf (g : alloc_t) (buf_out buf_in : buf_t) (buf_flushlen : Z)
    : cres (alloc_t * buf_t * buf_t * Z * Z) :=
  if (BUF_MAX_LEN <? b_datalen buf_out) || (BUF_MAX_LEN <? buf_flushlen) then Err
  else if BUF_MAX_LEN - buf_flushlen <? b_datalen buf_out then Err
  else
    let len := if b_datalen buf_in <? buf_flushlen then b_datalen buf_in else buf_flushlen in
    assert! (len <=? BUF_MAX_LEN);
    let* (g, buf_out, buf_in) := move_loop (S (Z.to_nat len)) g buf_out buf_in len in
    Ok (g, buf_out, buf_in, len, buf_flushlen - len).

Definition buf_move_all (buf_out buf_in : buf_t) : cres (buf_t * buf_t * Z) :=
  if b_datalen buf_in =? 0 then Ok (buf_out, buf_in, 0)
  else if (BUF_MAX_LEN <? b_datalen buf_out) || (BUF_MAX_LEN <? b_datalen buf_in) then Ok (buf_out, buf_in, 0)
  else if BUF_MAX_LEN - b_datalen buf_in <? b_datalen buf_out then Ok (buf_out, buf_in, 0)
  else
    let* chain :=
      match head buf_out with
      | [] => Ok (head buf_in)
      | _ => match tail buf_out with Some t => set_next t (head buf_out) (head buf_in) | None => Bug end
      end in
    Ok (mkbuf (b_datalen buf_out + b_datalen buf_in) (default_chunk_size buf_out) chain (tail buf_in),
        mkbuf 0 (default_chunk_size buf_in) [] None,
        b_datalen buf_in).

(** *** Searching *)

(** A position: the chain from the current chunk on, the index in its data,
    and the length of the chunks before. *)
Record buf_pos_t := mkpos { pos_chain : list chunk_t; pos : Z; chunk_pos : Z }.

Definition buf_pos_init (b : buf_t) : buf_pos_t := mkpos (head b) 0 0.

Fixpoint find_pos_loop (ch : Z) (chain : list chunk_t) (p cpos : Z) : cres (option buf_pos_t) :=
  match chain with
  | [] => Ok None
  | c :: next =>
      let region := take (Z.to_nat (datalen c - p)) (drop (Z.to_nat (data_off c + p)) (mem c)) in
      match memchr region ch (length region) with
      | Some q =>
          let off := p + (zlen region - zlen q) in
          assert! (off <=? BUF_MAX_LEN);
          Ok (Some (mkpos chain off cpos))
      | None => find_pos_loop ch next 0 (cpos + datalen c)
      end
  end.

Definition buf_find_pos_of_char (ch : Z) (out : buf_pos_t) : cres (option buf_pos_t) :=
  assert! (match pos_chain out with
           | [] => true
           | c :: _ => if negb (datalen c =? 0) then pos out <? datalen c else pos out =? 0
           end);
  find_pos_loop ch (pos_chain out) (pos out) (chunk_pos out).

Definition buf_pos_inc (p : buf_pos_t) : cres (option buf_pos_t) :=
  assert! (pos p <? BUF_MAX_LEN);
  let i := pos p + 1 in
  match pos_chain p with
  | [] => Bug
  | c :: next =>
      if i =? datalen c then
        match next with
        | [] => Ok None
        | _ => Ok (Some (mkpos next 0 (chunk_pos p + datalen c)))
        end
      else Ok (Some (mkpos (pos_chain p) i (chunk_pos p)))
  end.

Fixpoint buf_matches_at_pos (p : buf_pos_t) (s : bytes) : cres bool :=
  match s with
  | [] => Ok true
  | c :: s =>
      match pos_chain p with
      | [] => Bug
      | k :: _ =>
          let* ch := aget (mem k) (data_off k + pos p) in
          if negb (ch =? c) then Ok false
          else
            match s with
            | [] => Ok true
            | _ =>
                let* q := buf_pos_inc p in
                match q with
                | None => Ok false
                | Some p => buf_matches_at_pos p s
                end
            end
      end
  end.

Fixpoint find_string_loop (fuel : nat) (p : buf_pos_t) (s : bytes) : cres Z :=
  match fuel with
  | O => Fuel
  | S fuel =>
      let* found := buf_find_pos_of_char (cur s) p in
      match found with
      | None => Ok (-1)
      | Some p =>
          let* m := buf_matches_at_pos p s in
          if m : bool then
            assert! (chunk_pos p + pos p <=? BUF_MAX_LEN);
            Ok (chunk_pos p + pos p)
          else
            let* q := buf_pos_inc p in
            match q with
            | None => Ok (-1)
            | Some p => find_string_loop fuel p s
            end
      end
  end.

Definition buf_find_string_offset (b : buf_t) (s : bytes) : cres Z :=
  find_string_loop (S (Z.to_nat (b_datalen b))) (buf_pos_init b) s.

Fixpoint find_offset_loop (chain : list chunk_t) (ch offset : Z) : Z :=
  match chain with
  | [] => -1
  | c :: next =>
      match memchr (chunk_data c) ch (length (chunk_data c)) with
      | Some q => offset + (zlen (chunk_data c) - zlen q)
      | None => find_offset_loop next ch (offset + datalen c)
      end
  end.

Definition buf_find_offset_of_char (b : buf_t) (ch : Z) : cres Z :=
  assert! (b_datalen b <=? BUF_MAX_LEN);
  Ok (find_offset_loop (head b) ch 0).

(** The results 1, 0 and -1 of [buf_get_line], with [*data_len]. *)
Inductive line_result :=
| LineRead (line : bytes)
| LineIncomplete
| LineTooLong (data_len : Z).

Definition buf_get_line (g : alloc_t) (b : buf_t) (data_len : Z) : cres (alloc_t * buf_t * line_result) :=
  match head b with
  | [] => Ok (g, b, LineIncomplete)
  | _ =>
      let* offset := buf_find_offset_of_char b 10 in
      if offset <? 0 then Ok (g, b, LineIncomplete)
      else
        let sz := offset in
        if data_len <? sz + 2 then Ok (g, b, LineTooLong (sz + 2))
        else
          let* (g, b, s) := buf_get_bytes g b (sz + 1) in
          Ok (g, b, LineRead s)
  end.

(** *** The consistency check *)

Fixpoint assert_chain (chain : list chunk_t) (tl : option Z) (total : Z) : cres Z :=
  match chain with
  | [] => Ok total
  | ch :: next =>
      assert! (datalen ch <=? memlen ch);
      assert! (datalen ch <=? BUF_MAX_LEN);
      assert! (0 <=? data_off ch);
      assert! (data_off ch <=? memlen ch);
      assert! (data_off ch + datalen ch <=? memlen ch);
      assert! (match next with [] => bool_decide (tl = Some (ch_id ch)) | _ => true end);
      assert_chain next tl (total + datalen ch)
  end.

Definition buf_assert_ok (b : buf_t) : cres unit :=
  match head b with
  | [] =>
      assert! (match tail b with None => true | _ => false end);
      assert! (b_datalen b =? 0);
      Ok tt
  | _ =>
      assert! (match tail b with None => false | _ => true end);
      let* total := assert_chain (head b) (tail b) 0 in
      assert! (b_datalen b =? total);
      Ok tt
  end.


(** ** Invariant and abstraction *)

(** The bytes stored in a chain, and in a buffer. *)
Definition chain_contents (l : list chunk_t) : bytes := concat (map chunk_data l).
Definition contents (b : buf_t) : bytes := chain_contents (head b).

Definition ids (l : list chunk_t) : list Z := map ch_id l.

Fixpoint chain_alloc (l : list chunk_t) : Z :=
  match l with [] => 0 | c :: r => CHUNK_ALLOC_SIZE (memlen c) + chain_alloc r end.

Record chunk_ok (c : chunk_t) : Prop := mk_chunk_ok {
  co_len : 0 <= datalen c;
  co_off : 0 <= data_off c;
  co_fit : data_off c + datalen c <= memlen c;
  co_alloc : DBG_alloc c = CHUNK_ALLOC_SIZE (memlen c)
}.

Record buf_ok (g : alloc_t) (b : buf_t) : Prop := mk_buf_ok {
  bo_chunks : Forall chunk_ok (head b);
  bo_ids : NoDup (ids (head b));
  bo_addr : Forall (fun c => ch_id c < next_addr g) (head b);
  bo_tail : tail b = option_map ch_id (list.last (head b));
  bo_len : b_datalen b = zlen (contents b);
  bo_max : b_datalen b <= BUF_MAX_LEN;
  bo_dflt : CHUNK_OVERHEAD < default_chunk_size b < SIZE_T_CEILING;
  bo_total : chain_alloc (head b) <= total_bytes_allocated_in_chunks g
}.

(** What an operation on one buffer may do to the rest of the world: it
    allocates fresh addresses only, it keeps or releases its own chunks, and the
    global counter follows the allocation of this buffer. *)
Record evolves (g : alloc_t) (l : list chunk_t) (g' : alloc_t) (l' : list chunk_t) : Prop := mk_evolves {
  ev_next : next_addr g <= next_addr g';
  ev_total : total_bytes_allocated_in_chunks g' - chain_alloc l'
             = total_bytes_allocated_in_chunks g - chain_alloc l;
  ev_ids : Forall (fun i => In i (ids l) \/ next_addr g <= i) (ids l')
}.

Lemma evolves_refl g l : evolves g l g l.
Proof. split; [lia|lia|]. apply List.Forall_forall. auto. Qed.

Lemma evolves_trans g l g1 l1 g2 l2 :
  evolves g l g1 l1 -> evolves g1 l1 g2 l2 -> evolves g l g2 l2.
Proof.
  intros [A1 A2 A3] [B1 B2 B3]. split; [lia|lia|].
  rewrite List.Forall_forall in *. intros i Hi. destruct (B3 i Hi) as [H|H]; [auto|right; lia].
Qed.

(** ** Chunks *)

Lemma chunk_split c :
  chunk_ok c ->
  exists pre post, mem c = pre ++ chunk_data c ++ post /\ zlen pre = data_off c
                   /\ zlen (chunk_data c) = datalen c.
Proof.
  intros [H1 H2 H3 _]. unfold memlen, zlen in H3.
  exists (take (Z.to_nat (data_off c)) (mem c)), (drop (Z.to_nat (datalen c)) (drop (Z.to_nat (data_off c)) (mem c))).
  unfold chunk_data. rewrite !take_drop. split; [done|].
  unfold zlen. rewrite !length_take, length_drop. lia.
Qed.

Lemma chunk_data_len c : chunk_ok c -> zlen (chunk_data c) = datalen c.
Proof. intros H. destruct (chunk_split c H) as (? & ? & ? & ? & ?). done. Qed.

Lemma chunk_data_eq c pre d post :
  mem c = pre ++ d ++ post -> zlen pre = data_off c -> zlen d = datalen c -> chunk_data c = d.
Proof.
  intros H1 H2 H3. unfold chunk_data. rewrite H1, (drop_zapp pre) by done. by rewrite take_zapp.
Qed.

Lemma take_zapp_add {A} (l k : list A) z :
  zlen l <= z -> take (Z.to_nat z) (l ++ k) = l ++ take (Z.to_nat (z - zlen l)) k.
Proof. intros H. unfold zlen in *. rewrite take_app, take_ge by lia. f_equal. f_equal. lia. Qed.

Lemma drop_zapp_add {A} (l k : list A) z :
  zlen l <= z -> drop (Z.to_nat z) (l ++ k) = drop (Z.to_nat (z - zlen l)) k.
Proof. intros H. unfold zlen in *. rewrite drop_app, drop_ge by lia. simpl. f_equal. lia. Qed.

Lemma zlen_take_le {A} (l : list A) z : 0 <= z <= zlen l -> zlen (take (Z.to_nat z) l) = z.
Proof. unfold zlen. rewrite length_take. lia. Qed.

Lemma zlen_drop_le {A} (l : list A) z : 0 <= z <= zlen l -> zlen (drop (Z.to_nat z) l) = zlen l - z.
Proof. unfold zlen. rewrite length_drop. lia. Qed.

(** Writing at the end of a chunk appends to its data. *)
Lemma chunk_write_spec c s :
  chunk_ok c -> zlen s <= CHUNK_REMAINING_CAPACITY c ->
  exists c', chunk_write c s = Ok c' /\ chunk_ok c' /\ chunk_data c' = chunk_data c ++ s
             /\ ch_id c' = ch_id c /\ memlen c' = memlen c /\ datalen c' = datalen c + zlen s
             /\ data_off c' = data_off c /\ inserted_time c' = inserted_time c.
Proof.
  intros Hc Hs. destruct (chunk_split c Hc) as (pre & post & Hm & Hp & Hd).
  destruct Hc as [H1 H2 H3 H4]. unfold CHUNK_REMAINING_CAPACITY in Hs.
  assert (Hl : memlen c = data_off c + datalen c + zlen post) by (unfold memlen; rewrite Hm; zlia).
  set (w := data_off c + datalen c) in *. pose proof (zlen_nonneg s).
  assert (Hm' : take (Z.to_nat w) (mem c) ++ s ++ drop (Z.to_nat (w + zlen s)) (mem c)
                = pre ++ (chunk_data c ++ s) ++ drop (Z.to_nat (zlen s)) post).
  { rewrite Hm, !(app_assoc pre). rewrite (take_zapp (pre ++ chunk_data c)) by zlia.
    rewrite (drop_zapp_add (pre ++ chunk_data c)) by zlia.
    rewrite <- !app_assoc. do 4 f_equal. zlia. }
  unfold chunk_write. fold w. rewrite (proj2 (Z.leb_le _ _)) by lia.
  eexists. split; [done|].
  assert (Hl' : zlen (take (Z.to_nat w) (mem c) ++ s ++ drop (Z.to_nat (w + zlen s)) (mem c)) = memlen c).
  { rewrite Hm'. rewrite !zlen_app, zlen_drop_le by lia. lia. }
  split; [|split; [|done]].
  - split; unfold memlen; simpl; rewrite ?Hl'; lia.
  - eapply chunk_data_eq; simpl; [exact Hm'|done|zlia].
Qed.

Lemma chunk_repack_spec c :
  chunk_ok c ->
  chunk_ok (chunk_repack c) /\ chunk_data (chunk_repack c) = chunk_data c
  /\ ch_id (chunk_repack c) = ch_id c /\ memlen (chunk_repack c) = memlen c
  /\ datalen (chunk_repack c) = datalen c /\ data_off (chunk_repack c) = 0.
Proof.
  intros Hc. destruct (chunk_split c Hc) as (pre & post & Hm & Hp & Hd). destruct Hc as [H1 H2 H3 H4].
  assert (Hl : memlen (chunk_repack c) = memlen c).
  { unfold chunk_repack, memlen in *. simpl. destruct (_ && _); [|done].
    rewrite zlen_app, zlen_drop_le by lia. lia. }
  split; [|split; [|done]].
  - split; rewrite ?Hl; simpl; lia.
  - unfold chunk_repack. destruct (Z.eqb_spec (datalen c) 0) as [E|E]; simpl.
    + unfold chunk_data; simpl. rewrite E. done.
    + destruct (Z.eqb_spec (data_off c) 0) as [E'|E']; simpl; [by unfold chunk_data; simpl; rewrite E'|].
      by eapply (chunk_data_eq _ []).
Qed.

Lemma chunk_grow_spec g c sz :
  chunk_ok c -> memlen c < sz -> ch_id c < next_addr g ->
  exists g' c', chunk_grow g c sz = Ok (g', c') /\ chunk_ok c' /\ chunk_data c' = chunk_data c
    /\ memlen c' = sz /\ datalen c' = datalen c /\ data_off c' = data_off c
    /\ (ch_id c' = ch_id c \/ ch_id c' = next_addr g)
    /\ next_addr g' = next_addr g + 1
    /\ total_bytes_allocated_in_chunks g' = total_bytes_allocated_in_chunks g + (sz - memlen c).
Proof.
  intros Hc Hsz Hid. destruct (chunk_split c Hc) as (pre & post & Hm & Hp & Hd). destruct Hc as [H1 H2 H3 H4].
  pose proof (zlen_nonneg (mem c)). unfold memlen in *.
  assert (Hl : zlen (mem c ++ repeat junk (Z.to_nat (sz - zlen (mem c)))) = sz).
  { autorewrite with zlen. lia. }
  unfold chunk_grow, memlen. rewrite (proj2 (Z.ltb_lt _ _)) by lia.
  rewrite (proj2 (Z.eqb_eq _ _)) by done. unfold CHUNK_SET_SENTINEL, memlen. simpl. rewrite Hl.
  rewrite (proj2 (Z.eqb_eq _ _)) by (unfold CHUNK_ALLOC_SIZE, CHUNK_OVERHEAD; lia). simpl.
  do 2 eexists. split; [done|]. simpl. repeat split; simpl; unfold memlen; simpl; rewrite ?Hl; try lia.
  - eapply (chunk_data_eq _ pre _ (post ++ _)); simpl; [|done|done].
    rewrite Hm at 1. by rewrite <- !app_assoc.
  - destruct (realloc_moves g); auto.
  - unfold CHUNK_ALLOC_SIZE. lia.
Qed.

Lemma chunk_free_spec g c :
  chunk_ok c -> CHUNK_ALLOC_SIZE (memlen c) <= total_bytes_allocated_in_chunks g ->
  buf_chunk_free_unchecked g c
  = Ok (mkalloc (next_addr g) (total_bytes_allocated_in_chunks g - CHUNK_ALLOC_SIZE (memlen c))
          (realloc_moves g) (now_stamp g)).
Proof.
  intros [_ _ _ H] Ht. unfold buf_chunk_free_unchecked.
  rewrite (proj2 (Z.eqb_eq _ _)) by done. by rewrite (proj2 (Z.leb_le _ _)).
Qed.

(** A fresh chunk is empty, has a fresh address and the size that was asked for. *)
Lemma chunk_new_spec g alloc :
  CHUNK_OVERHEAD < alloc < SIZE_T_CEILING ->
  exists c, chunk_new_with_alloc_size g alloc
    = Ok (mkalloc (next_addr g + 1) (total_bytes_allocated_in_chunks g + alloc) (realloc_moves g) (now_stamp g), c)
    /\ chunk_ok c /\ chunk_data c = [] /\ ch_id c = next_addr g /\ memlen c = alloc - CHUNK_OVERHEAD
    /\ datalen c = 0 /\ data_off c = 0.
Proof.
  intros Ha.
  assert (Hu : u64 (CHUNK_SIZE_WITH_ALLOC alloc) = alloc - CHUNK_OVERHEAD).
  { unfold u64, CHUNK_SIZE_WITH_ALLOC. apply Z.mod_small.
    unfold CHUNK_OVERHEAD, CHUNK_HEADER_LEN, SENTINEL_LEN, SIZE_T_CEILING in *. lia. }
  unfold chunk_new_with_alloc_size. rewrite Hu. unfold CHUNK_SET_SENTINEL, memlen. simpl.
  autorewrite with zlen.
  rewrite (proj2 (Z.eqb_eq _ _)) by (unfold CHUNK_OVERHEAD in *; lia). simpl.
  eexists. split; [done|]. repeat split; simpl; unfold memlen, CHUNK_ALLOC_SIZE; simpl; autorewrite with zlen; lia.
Qed.

Lemma preferred_loop_spec fuel sz target :
  0 < sz -> CHUNK_ALLOC_SIZE target <= sz * 2 ^ Z.of_nat fuel ->
  exists k, 0 <= k /\ preferred_loop (S fuel) sz target = Ok (sz * 2 ^ k)
    /\ CHUNK_ALLOC_SIZE target <= sz * 2 ^ k
    /\ (0 < k -> sz * 2 ^ (k - 1) < CHUNK_ALLOC_SIZE target).
Proof.
  revert sz. induction fuel as [|fuel IH]; intros sz Hsz Hb.
  - exists 0. cbn [preferred_loop]. change (2 ^ Z.of_nat 0) with 1 in Hb. change (2 ^ 0) with 1.
    rewrite (proj2 (Z.ltb_ge _ _)) by (unfold CHUNK_ALLOC_SIZE, CHUNK_SIZE_WITH_ALLOC in *; lia).
    rewrite !Z.mul_1_r in *. repeat split; lia.
  - remember (S fuel) as f. cbn [preferred_loop]. subst f.
    destruct (Z.ltb_spec (CHUNK_SIZE_WITH_ALLOC sz) target) as [H|H].
    + destruct (IH (Z.shiftl sz 1)) as (k & Hk & E & H1 & H2).
      { rewrite Z.shiftl_mul_pow2 by lia. lia. }
      { rewrite Z.shiftl_mul_pow2 by lia. rewrite Nat2Z.inj_succ, Z.pow_succ_r in Hb by lia. lia. }
      exists (k + 1). rewrite Z.shiftl_mul_pow2 in * by lia. change (2 ^ 1) with 2 in *.
      replace (sz * 2 ^ (k + 1)) with (sz * 2 * 2 ^ k) by (rewrite Z.pow_add_r by lia; lia).
      repeat split; [lia|done|lia|]. intros _. destruct (Z.eq_dec k 0) as [->|].
      * unfold CHUNK_ALLOC_SIZE, CHUNK_SIZE_WITH_ALLOC in *. simpl. lia.
      * replace (k + 1 - 1) with (k - 1 + 1) by lia. rewrite Z.pow_add_r by lia. lia.
    + exists 0. change (2 ^ 0) with 1. rewrite Z.mul_1_r.
      unfold CHUNK_ALLOC_SIZE, CHUNK_SIZE_WITH_ALLOC in *. repeat split; lia.
Qed.

(** The allocation for [target] bytes: exact for large chunks, and otherwise the
    least power of two from [MIN_CHUNK_ALLOC] on that holds them. *)
Lemma preferred_spec target :
  0 <= target -> target <= SIZE_T_CEILING - CHUNK_OVERHEAD ->
  exists sz, buf_preferred_chunk_size target = Ok sz /\ CHUNK_ALLOC_SIZE target <= sz
    /\ (MAX_CHUNK_ALLOC <= CHUNK_ALLOC_SIZE target -> sz = CHUNK_ALLOC_SIZE target)
    /\ (CHUNK_ALLOC_SIZE target < MAX_CHUNK_ALLOC ->
        exists k, 0 <= k <= 8 /\ sz = MIN_CHUNK_ALLOC * 2 ^ k
                  /\ (0 < k -> MIN_CHUNK_ALLOC * 2 ^ (k - 1) < CHUNK_ALLOC_SIZE target)).
Proof.
  intros H0 Ht. unfold buf_preferred_chunk_size. rewrite (proj2 (Z.leb_le _ _)) by done.
  destruct (Z.leb_spec MAX_CHUNK_ALLOC (CHUNK_ALLOC_SIZE target)) as [H|H].
  - eexists. split; [done|]. split; [lia|]. split; [done|lia].
  - destruct (preferred_loop_spec 15 MIN_CHUNK_ALLOC target) as (k & Hk & -> & H1 & H2).
    { done. } { unfold MAX_CHUNK_ALLOC, MIN_CHUNK_ALLOC in *. simpl. lia. }
    eexists. split; [done|]. split; [done|]. split; [lia|]. intros _. exists k. split; [|auto].
    split; [done|]. destruct (Z.le_gt_cases k 8); [done|]. exfalso.
    assert (2 ^ 8 <= 2 ^ (k - 1)) by (apply Z.pow_le_mono_r; lia).
    change (2 ^ 8) with 256 in *. unfold MIN_CHUNK_ALLOC, MAX_CHUNK_ALLOC in *. lia.
Qed.

Lemma preferred_max target sz :
  0 <= target -> buf_preferred_chunk_size target = Ok sz ->
  sz <= Z.max MAX_CHUNK_ALLOC (CHUNK_ALLOC_SIZE target).
Proof.
  intros H0 E. destruct (Z.leb_spec target (SIZE_T_CEILING - CHUNK_OVERHEAD)) as [Ht|Ht].
  - destruct (preferred_spec target H0 Ht) as (sz' & E' & _ & H1 & H2).
    assert (sz' = sz) as -> by congruence.
    destruct (Z.lt_ge_cases (CHUNK_ALLOC_SIZE target) MAX_CHUNK_ALLOC) as [H|H]; [|rewrite H1; lia].
    destruct (H2 H) as (k & Hk & -> & _).
    assert (2 ^ k <= 2 ^ 8) by (apply Z.pow_le_mono_r; lia). change (2 ^ 8) with 256 in *.
    unfold MIN_CHUNK_ALLOC, MAX_CHUNK_ALLOC in *. lia.
  - unfold buf_preferred_chunk_size in E. by rewrite (proj2 (Z.leb_gt _ _)) in E.
Qed.

(** ** Chains *)

Lemma contents_app l k : chain_contents (l ++ k) = chain_contents l ++ chain_contents k.
Proof. unfold chain_contents. by rewrite map_app, concat_app. Qed.

Lemma contents_cons c l : chain_contents (c :: l) = chunk_data c ++ chain_contents l.
Proof. done. Qed.

Lemma contents_one c : chain_contents [c] = chunk_data c.
Proof. unfold chain_contents. simpl. apply app_nil_r. Qed.

Lemma chain_alloc_app l k : chain_alloc (l ++ k) = chain_alloc l + chain_alloc k.
Proof. induction l as [|c l IH]; simpl; [lia|]. rewrite IH. lia. Qed.

Lemma chain_alloc_nonneg l : 0 <= chain_alloc l.
Proof.
  induction l as [|c l IH]; simpl; [lia|]. pose proof (zlen_nonneg (mem c)).
  unfold CHUNK_ALLOC_SIZE, memlen, CHUNK_OVERHEAD, CHUNK_HEADER_LEN, SENTINEL_LEN. lia.
Qed.

Lemma buf_allocation_eq b : buf_allocation b = chain_alloc (head b).
Proof.
  unfold buf_allocation. enough (forall l z, fold_left (fun total c => total + CHUNK_ALLOC_SIZE (memlen c)) l z
                                         = z + chain_alloc l) as -> by lia.
  induction l as [|c l IH]; intros z; simpl; [lia|]. rewrite IH. lia.
Qed.

Lemma ids_app l k : ids (l ++ k) = ids l ++ ids k.
Proof. apply map_app. Qed.

Lemma ids_fresh g l : Forall (fun c => ch_id c < next_addr g) l -> next_addr g ∉ ids l.
Proof.
  intros H Hin. apply list_elem_of_In in Hin. apply in_map_iff in Hin as (c & E & Hc).
  rewrite List.Forall_forall in H. specialize (H c Hc). lia.
Qed.

Lemma find_chunk_last l c : ch_id c ∉ ids l -> find_chunk (ch_id c) (l ++ [c]) = Ok c.
Proof.
  induction l as [|x l IH]; simpl; intros H; [by rewrite Z.eqb_refl|].
  apply not_elem_of_cons in H as [H1 H2]. rewrite (proj2 (Z.eqb_neq _ _)) by congruence. auto.
Qed.

Lemma upd_chunk_last l c c' : ch_id c ∉ ids l -> upd_chunk (ch_id c) c' (l ++ [c]) = l ++ [c'].
Proof.
  induction l as [|x l IH]; simpl; intros H; [by rewrite Z.eqb_refl|].
  apply not_elem_of_cons in H as [H1 H2]. rewrite (proj2 (Z.eqb_neq _ _)) by congruence. f_equal. auto.
Qed.

Lemma set_next_last l c k : ch_id c ∉ ids l -> set_next (ch_id c) (l ++ [c]) k = Ok (l ++ c :: k).
Proof.
  induction l as [|x l IH]; simpl; intros H; [by rewrite Z.eqb_refl|].
  apply not_elem_of_cons in H as [H1 H2]. rewrite (proj2 (Z.eqb_neq _ _)) by congruence. by rewrite IH.
Qed.

Lemma ids_last_notin l c : NoDup (ids (l ++ [c])) -> ch_id c ∉ ids l.
Proof.
  rewrite ids_app. intros H. apply list.NoDup_app in H as (_ & H & _).
  intros Hin. apply (H _ Hin). simpl. apply list_elem_of_singleton. done.
Qed.

(** A non-empty buffer, seen from its tail. *)
Lemma buf_ok_tail g b :
  buf_ok g b -> head b <> [] ->
  exists l c, head b = l ++ [c] /\ tail b = Some (ch_id c) /\ ch_id c ∉ ids l /\ chunk_ok c
              /\ tail_chunk b = Ok c.
Proof.
  intros H Hne. destruct (exists_last Hne) as (l & c & E).
  exists l, c. pose proof (bo_ids _ _ H) as Hn. pose proof (bo_tail _ _ H) as Ht. rewrite E in Hn, Ht.
  rewrite list.last_snoc in Ht. apply ids_last_notin in Hn as Hi.
  pose proof (bo_chunks _ _ H) as Hc. rewrite E, Forall_app in Hc. destruct Hc as [_ Hc].
  apply Forall_cons_iff in Hc as [Hc _].
  split_and!; try done. unfold tail_chunk. rewrite Ht, E. simpl. by apply find_chunk_last.
Qed.

Lemma buf_ok_empty g b : buf_ok g b -> head b = [] -> tail b = None.
Proof. intros H E. by rewrite (bo_tail _ _ H), E. Qed.

(** The outcome of an operation that leaves the buffer with the data [s]. *)
Record becomes (g : alloc_t) (b : buf_t) (g' : alloc_t) (b' : buf_t) (s : bytes) : Prop := mk_becomes {
  be_ok : buf_ok g' b';
  be_contents : contents b' = s;
  be_evolves : evolves g (head b) g' (head b');
  be_dflt : default_chunk_size b' = default_chunk_size b
}.

(** A buffer without chunks. *)
Lemma empty_buf_ok g d :
  CHUNK_OVERHEAD < d < SIZE_T_CEILING -> 0 <= total_bytes_allocated_in_chunks g -> buf_ok g (mkbuf 0 d [] None).
Proof. intros Hd Ht. split; simpl; first [done | constructor]. Qed.

Lemma becomes_refl g b : buf_ok g b -> becomes g b g b (contents b).
Proof. intros H. split; [done|done|apply evolves_refl|done]. Qed.

Lemma becomes_trans g b g1 b1 g2 b2 s1 s2 :
  becomes g b g1 b1 s1 -> becomes g1 b1 g2 b2 s2 -> becomes g b g2 b2 s2.
Proof.
  intros [A1 A2 A3 A4] [B1 B2 B3 B4]. split; [done|done|by eapply evolves_trans|congruence].
Qed.

(** ** Removing data *)

(** The data of a chunk whose first [n] bytes were taken away. *)
Lemma chunk_advance c n :
  chunk_ok c -> 0 <= n <= datalen c ->
  let c' := mkchunk (ch_id c) (datalen c - n) (DBG_alloc c) (data_off c + n) (inserted_time c) (mem c) in
  chunk_ok c' /\ chunk_data c' = drop (Z.to_nat n) (chunk_data c).
Proof.
  intros [C1 C2 C3 C4] Hn. split.
  - split; unfold memlen in *; simpl; try lia; done.
  - unfold chunk_data; simpl. rewrite skipn_firstn_comm, drop_drop. f_equal; [lia|f_equal; lia].
Qed.

Lemma datalen_le b c : In c (head b) -> Forall chunk_ok (head b) -> datalen c <= zlen (contents b).
Proof.
  unfold contents. generalize (head b). intros l Hin Hok. induction Hok as [|x l Hx Hok IH]; [done|].
  rewrite contents_cons, zlen_app, (chunk_data_len x) by done.
  pose proof (zlen_nonneg (chain_contents l)). destruct Hx. destruct Hin as [->|Hin]; [lia|].
  specialize (IH Hin). lia.
Qed.

Lemma last_in_ids l y : list.last l = Some y -> ch_id y ∈ ids l.
Proof. intros El. apply (list_elem_of_fmap_2 ch_id l). by apply last_Some_elem_of in El. Qed.

(** Releasing the first chunk. *)
Lemma drop_head_spec g dl dflt c next tl :
  buf_ok g (mkbuf dl dflt (c :: next) tl) ->
  exists g', buf_chunk_free_unchecked g c = Ok g'
    /\ becomes g (mkbuf dl dflt (c :: next) tl) g'
         (mkbuf (dl - datalen c) dflt next (if bool_decide (tl = Some (ch_id c)) then None else tl))
         (chain_contents next).
Proof.
  intros [H1 H2 H3 H4 H5 H6 H7 H8]. simpl in *.
  apply Forall_cons_iff in H1 as [Hc H1]. apply list.NoDup_cons in H2 as [Hn H2].
  apply Forall_cons_iff in H3 as [_ H3]. pose proof (chain_alloc_nonneg next).
  unfold contents in H5. simpl in H5. rewrite contents_cons, zlen_app, (chunk_data_len c) in H5 by done.
  rewrite chunk_free_spec by (done || lia). eexists. split; [done|].
  destruct Hc as [Hd _ _ _]. split; [split| | |]; simpl; try done; try (unfold contents; simpl; lia).
  - subst tl. destruct next as [|x next]; [by rewrite bool_decide_eq_true_2|].
    rewrite bool_decide_eq_false_2; [done|]. intros E.
    change (list.last (c :: x :: next)) with (list.last (x :: next)) in E.
    destruct (list.last (x :: next)) as [y|] eqn:El; [|done]. injection E as E.
    apply Hn. rewrite <- E. by apply (last_in_ids (x :: next)).
  - split; simpl; [lia|lia|]. apply List.Forall_forall. auto.
Qed.

Lemma drain_loop_spec chain : forall g dl dflt tl n,
  buf_ok g (mkbuf dl dflt chain tl) -> 0 <= n <= dl ->
  exists g' b', drain_loop g dl n dflt chain tl = Ok (g', b')
    /\ becomes g (mkbuf dl dflt chain tl) g' b' (drop (Z.to_nat n) (chain_contents chain)).
Proof.
  induction chain as [|c next IH]; intros g dl dflt tl n Hok Hn.
  - pose proof (bo_len _ _ Hok) as Hl. unfold contents, chain_contents in Hl. simpl in Hl. rewrite zlen_nil in Hl.
    assert (n = 0) as -> by lia. simpl. do 2 eexists. split; [done|]. apply (becomes_refl _ _ Hok).
  - cbn [drain_loop]. destruct (Z.eqb_spec n 0) as [->|Hn0].
    { do 2 eexists. split; [done|]. apply (becomes_refl _ _ Hok). }
    pose proof (bo_chunks _ _ Hok) as Hcs. simpl in Hcs. apply Forall_cons_iff in Hcs as [Hc Hcs].
    pose proof (chunk_data_len c Hc) as Hd.
    destruct (Z.ltb_spec n (datalen c)) as [Hlt|Hge].
    + do 2 eexists. split; [done|]. destruct Hok as [K1 K2 K3 K4 K5 K6 K7 K8]. simpl in *.
      destruct (chunk_advance c n Hc) as [Hc' Hdata]; [lia|]. set (c' := mkchunk _ _ _ _ _ _) in *.
      assert (Hcont : chain_contents (c' :: next) = drop (Z.to_nat n) (chain_contents (c :: next))).
      { rewrite !contents_cons, Hdata. unfold zlen in Hd. by rewrite drop_app_le by lia. }
      split; [split| | |]; unfold contents; simpl; try done.
      * by constructor.
      * constructor; [|by apply Forall_cons_iff in K3 as [_ K3]]. simpl. by apply Forall_cons_iff in K3 as [K3 _].
      * rewrite K4. by destruct next.
      * rewrite Hcont, zlen_drop_le; unfold contents in K5; simpl in K5; lia.
      * lia.
      * split; simpl; unfold memlen; simpl; [lia|lia|]. apply List.Forall_forall. auto.
    + destruct (drop_head_spec _ _ _ _ _ _ Hok) as (g1 & -> & Hb). simpl.
      destruct (IH g1 (dl - datalen c) dflt (if bool_decide (tl = Some (ch_id c)) then None else tl) (n - datalen c))
        as (g2 & b2 & -> & Hb2); [apply (be_ok _ _ _ _ _ Hb)|lia|].
      do 2 eexists. split; [done|]. eapply becomes_trans; [exact Hb|].
      rewrite contents_cons, drop_zapp_add by lia. by rewrite Hd.
Qed.

(** [buf_drain] removes the first [n] bytes. *)
Lemma buf_drain_spec g b n :
  buf_ok g b -> 0 <= n <= zlen (contents b) ->
  exists g' b', buf_drain g b n = Ok (g', b') /\ becomes g b g' b' (drop (Z.to_nat n) (contents b)).
Proof.
  intros Hok Hn. pose proof (bo_len _ _ Hok) as Hl. unfold buf_drain. rewrite (proj2 (Z.leb_le _ _)) by lia.
  destruct b as [dl dflt chain tl]. apply drain_loop_spec; [done|simpl in *; lia].
Qed.

Lemma peek_loop_spec l n :
  Forall chunk_ok l -> 0 <= n <= zlen (chain_contents l) ->
  peek_loop l n = Ok (take (Z.to_nat n) (chain_contents l)).
Proof.
  intros Hok. revert n. induction Hok as [|c l Hc Hok IH]; intros n Hn.
  - change (zlen (chain_contents [])) with 0 in Hn. assert (n = 0) as -> by lia. done.
  - cbn [peek_loop]. destruct (Z.eqb_spec n 0) as [->|Hn0]; [done|].
    rewrite contents_cons, zlen_app, (chunk_data_len c Hc) in Hn. destruct Hc as [C1 C2 C3 C4].
    rewrite contents_cons. destruct (Z.ltb_spec (datalen c) n) as [H|H].
    + rewrite IH by lia. simpl. rewrite take_zapp_add; rewrite chunk_data_len by done; [done|lia].
    + rewrite Z.sub_diag, IH by (pose proof (zlen_nonneg (chain_contents l)); lia). simpl. rewrite app_nil_r.
      f_equal. unfold chunk_data at 1. rewrite take_app_le.
      * rewrite take_take. f_equal. lia.
      * assert (Hz := chunk_data_len c). unfold zlen, chunk_data in Hz. rewrite <- Nat2Z.id. rewrite Hz by done. lia.
Qed.

(** [buf_peek] reads the first [n] bytes. *)
Lemma buf_peek_spec g b n :
  buf_ok g b -> 0 <= n <= zlen (contents b) -> buf_peek b n = Ok (take (Z.to_nat n) (contents b)).
Proof.
  intros Hok Hn. pose proof (bo_len _ _ Hok) as Hl. unfold buf_peek. rewrite (proj2 (Z.leb_le _ _)) by lia.
  apply peek_loop_spec; [apply (bo_chunks _ _ Hok)|done].
Qed.

Lemma buf_get_bytes_spec g b n :
  buf_ok g b -> 0 <= n <= zlen (contents b) ->
  exists g' b', buf_get_bytes g b n = Ok (g', b', take (Z.to_nat n) (contents b))
    /\ becomes g b g' b' (drop (Z.to_nat n) (contents b)).
Proof.
  intros Hok Hn. unfold buf_get_bytes. rewrite (buf_peek_spec g) by done. simpl.
  destruct (buf_drain_spec g b n Hok Hn) as (g' & b' & -> & Hb). simpl.
  rewrite (proj2 (Z.leb_le _ _)) by (apply (bo_max _ _ (be_ok _ _ _ _ _ Hb))). eauto.
Qed.

Lemma free_chunks_spec l : forall g,
  Forall chunk_ok l -> chain_alloc l <= total_bytes_allocated_in_chunks g ->
  free_chunks g l = Ok (mkalloc (next_addr g) (total_bytes_allocated_in_chunks g - chain_alloc l)
                          (realloc_moves g) (now_stamp g)).
Proof.
  induction l as [|c l IH]; intros g Hok Ht; simpl.
  - rewrite Z.sub_0_r. by destruct g.
  - apply Forall_cons_iff in Hok as [Hc Hok]. simpl in Ht. pose proof (chain_alloc_nonneg l).
    rewrite chunk_free_spec by (done || lia). simpl. rewrite IH by (done || (simpl; lia)). simpl.
    do 2 f_equal. lia.
Qed.

Lemma buf_clear_spec g b :
  buf_ok g b -> exists g' b', buf_clear g b = Ok (g', b') /\ becomes g b g' b' [].
Proof.
  intros [H1 H2 H3 H4 H5 H6 H7 H8]. unfold buf_clear. rewrite free_chunks_spec by done. simpl.
  do 2 eexists. split; [done|]. split; simpl; try done; [apply empty_buf_ok; [done|simpl; lia]|].
  split; simpl; [lia|lia|constructor].
Qed.

(** ** Adding data *)

(** The size of the chunk that [buf_add_chunk_with_capacity] allocates. *)
Lemma new_chunk_size b capacity capped :
  0 < capacity -> (capped = true \/ capacity <= BUF_MAX_LEN) -> CHUNK_OVERHEAD < default_chunk_size b < SIZE_T_CEILING ->
  exists alloc, CHUNK_OVERHEAD < alloc < SIZE_T_CEILING
    /\ (capped = false -> CHUNK_ALLOC_SIZE capacity <= alloc)
    /\ forall g, (if CHUNK_ALLOC_SIZE capacity <? default_chunk_size b then
       chunk_new_with_alloc_size g (default_chunk_size b)
     else if capped && (MAX_CHUNK_ALLOC <? CHUNK_ALLOC_SIZE capacity) then
       chunk_new_with_alloc_size g MAX_CHUNK_ALLOC
     else
       let* sz := buf_preferred_chunk_size capacity in
       chunk_new_with_alloc_size g sz) = chunk_new_with_alloc_size g alloc.
Proof.
  intros H0 Hm Hd. destruct (Z.ltb_spec (CHUNK_ALLOC_SIZE capacity) (default_chunk_size b)) as [H|H].
  { exists (default_chunk_size b). split_and!; [lia|lia|lia|done]. }
  destruct (capped && _) eqn:E.
  { exists MAX_CHUNK_ALLOC. split_and!; try done. by intros ->. }
  assert (capacity <= BUF_MAX_LEN) as Hm'.
  { destruct Hm as [->|Hm]; [|done]. simpl in E. boolp. revert E.
    unfold MAX_CHUNK_ALLOC, CHUNK_ALLOC_SIZE, CHUNK_OVERHEAD, CHUNK_HEADER_LEN, SENTINEL_LEN, BUF_MAX_LEN, INT_MAX. lia. }
  assert (capacity <= SIZE_T_CEILING - CHUNK_OVERHEAD) as Hc.
  { unfold BUF_MAX_LEN, INT_MAX in Hm'. change (SIZE_T_CEILING - CHUNK_OVERHEAD) with 9223372036854775743. lia. }
  destruct (preferred_spec capacity) as (sz & Esz & Hsz & _ & _); [lia|done|].
  pose proof (preferred_max _ _ (Z.lt_le_incl _ _ H0) Esz) as Hmax.
  exists sz. split_and!; [| |done|by rewrite Esz].
  - unfold CHUNK_ALLOC_SIZE in *. lia.
  - revert Hmax. unfold BUF_MAX_LEN, INT_MAX, MAX_CHUNK_ALLOC, CHUNK_ALLOC_SIZE, CHUNK_OVERHEAD,
      CHUNK_HEADER_LEN, SENTINEL_LEN, SIZE_T_CEILING in *. lia.
Qed.

(** A chunk appended to the chain. *)
Lemma append_chunk_ok g g' b c :
  buf_ok g b -> chunk_ok c -> ch_id c = next_addr g ->
  next_addr g < next_addr g' ->
  total_bytes_allocated_in_chunks g' = total_bytes_allocated_in_chunks g + CHUNK_ALLOC_SIZE (memlen c) ->
  chunk_data c = [] ->
  becomes g b g' (mkbuf (b_datalen b) (default_chunk_size b) (head b ++ [c]) (Some (ch_id c))) (contents b).
Proof.
  intros [H1 H2 H3 H4 H5 H6 H7 H8] Hc Hid Hn Ht Hd.
  assert (Hcont : chain_contents (head b ++ [c]) = contents b).
  { rewrite contents_app, contents_one, Hd. apply app_nil_r. }
  split; [split| | |]; simpl; try done; unfold contents; simpl; rewrite ?Hcont; try done.
  - apply Forall_app. split; [done|]. by constructor.
  - rewrite ids_app. apply list.NoDup_app. split_and!; [done| |apply NoDup_singleton].
    intros i Hi Hi'. apply list_elem_of_singleton in Hi'. subst i. rewrite Hid in Hi. by apply ids_fresh in H3.
  - apply Forall_app. split; [|constructor; [lia|constructor]].
    apply (Forall_weaken _ _ _ H3). intros x Hx. lia.
  - by rewrite list.last_snoc.
  - rewrite chain_alloc_app. simpl. lia.
  - split; [lia| |].
    + rewrite chain_alloc_app. simpl. lia.
    + rewrite ids_app. apply Forall_app. split; [apply List.Forall_forall; auto|].
      constructor; [right; lia|constructor].
Qed.

(** [buf_add_chunk_with_capacity] gives the buffer a tail with room and keeps its data. *)
Lemma buf_add_chunk_spec g b capacity capped :
  buf_ok g b -> 0 < capacity <= BUF_MAX_LEN ->
  exists g' b' c, buf_add_chunk_with_capacity g b capacity capped = Ok (g', b')
    /\ becomes g b g' b' (contents b)
    /\ head b' = head b ++ [c] /\ 0 < CHUNK_REMAINING_CAPACITY c
    /\ (capped = false -> capacity <= CHUNK_REMAINING_CAPACITY c).
Proof.
  intros Hok [Hc Hm]. unfold buf_add_chunk_with_capacity.
  destruct (new_chunk_size b capacity capped Hc (or_intror Hm) (bo_dflt _ _ Hok)) as (alloc & Ha & Hcap & ->).
  destruct (chunk_new_spec g alloc Ha) as (c & -> & Hco & Hcd & Hid & Hml & Hdl & Hoff). simpl.
  set (c' := mkchunk (ch_id c) (datalen c) (DBG_alloc c) (data_off c) (now_stamp g) (mem c)).
  assert (Hco' : chunk_ok c') by (destruct Hco; by split).
  assert (Hb : becomes g b (mkalloc (next_addr g + 1) (total_bytes_allocated_in_chunks g + alloc)
             (realloc_moves g) (now_stamp g))
             (mkbuf (b_datalen b) (default_chunk_size b) (head b ++ [c']) (Some (ch_id c'))) (contents b)).
  { apply append_chunk_ok; simpl; try done; try lia. unfold memlen, CHUNK_ALLOC_SIZE in *. simpl. lia. }
  assert (Hroom : 0 < CHUNK_REMAINING_CAPACITY c' /\ (capped = false -> capacity <= CHUNK_REMAINING_CAPACITY c')).
  { unfold CHUNK_REMAINING_CAPACITY, memlen, CHUNK_ALLOC_SIZE in *. simpl.
    split; [lia|]. intros E. specialize (Hcap E). lia. }
  destruct (decide (head b = [])) as [E|E].
  - rewrite (buf_ok_empty _ _ Hok E), E in *. do 3 eexists. split; [done|]. split; [exact Hb|]. done.
  - destruct (buf_ok_tail _ _ Hok E) as (l & t & E1 & E2 & Hn & _). rewrite E2.
    assert (match head b with [] => false | _ => true end = true) as -> by (by destruct (head b)).
    assert (set_next (ch_id t) (head b) [c'] = Ok (head b ++ [c'])) as ->.
    { rewrite E1, set_next_last by done. f_equal. lassoc. }
    simpl.
    do 3 eexists. split; [done|]. split; [exact Hb|]. done.
Qed.

(** Bytes written into the tail chunk. *)
Lemma write_tail_ok g b l t s :
  buf_ok g b -> head b = l ++ [t] -> ch_id t ∉ ids l -> zlen s <= CHUNK_REMAINING_CAPACITY t ->
  zlen (contents b) + zlen s <= BUF_MAX_LEN ->
  exists t', chunk_write t s = Ok t'
    /\ becomes g b g (mkbuf (b_datalen b + zlen s) (default_chunk_size b) (upd_chunk (ch_id t) t' (head b)) (tail b))
         (contents b ++ s).
Proof.
  intros [H1 H2 H3 H4 H5 H6 H7 H8] E Hn Hs Hm. unfold contents in *. rewrite E in *.
  apply Forall_app in H1 as [Hl Ht]. apply Forall_cons_iff in Ht as [Ht _].
  destruct (chunk_write_spec t s Ht Hs) as (t' & Ew & Ht' & Hd & Hid & Hml & _).
  exists t'. split; [done|]. rewrite upd_chunk_last by done.
  assert (Hi : ids (l ++ [t']) = ids (l ++ [t])) by (rewrite !ids_app; simpl; by rewrite Hid).
  assert (Hal : chain_alloc (l ++ [t']) = chain_alloc (l ++ [t])) by (rewrite !chain_alloc_app; simpl; by rewrite Hml).
  assert (Hcont : chain_contents (l ++ [t']) = chain_contents (l ++ [t]) ++ s).
  { rewrite !contents_app, !contents_one, Hd. lassoc. }
  split; [split| | |]; unfold contents; simpl; rewrite ?Hcont, ?Hi, ?Hal; try done.
  - apply Forall_app. split; [done|by constructor].
  - apply Forall_app in H3 as [K1 K2]. apply Forall_app. split; [done|].
    apply Forall_cons_iff in K2 as [K2 _]. constructor; [lia|constructor].
  - rewrite H4, !list.last_snoc. simpl. by rewrite Hid.
  - zlia.
  - zlia.
  - rewrite E. split; rewrite ?Hal, ?Hi; [lia|lia|]. apply List.Forall_forall. auto.
Qed.

(** The tail has room, possibly after a new chunk was added. *)
Lemma add_room_spec g b n :
  buf_ok g b -> 0 < n <= BUF_MAX_LEN ->
  exists need g' b' l t, needs_chunk b = Ok need
    /\ (if need : bool then buf_add_chunk_with_capacity g b n true else Ok (g, b)) = Ok (g', b')
    /\ becomes g b g' b' (contents b)
    /\ head b' = l ++ [t] /\ ch_id t ∉ ids l /\ tail_chunk b' = Ok t /\ 0 < CHUNK_REMAINING_CAPACITY t.
Proof.
  intros Hok Hn.
  assert (Hadd : exists g' b' l t, buf_add_chunk_with_capacity g b n true = Ok (g', b')
    /\ becomes g b g' b' (contents b)
    /\ head b' = l ++ [t] /\ ch_id t ∉ ids l /\ tail_chunk b' = Ok t /\ 0 < CHUNK_REMAINING_CAPACITY t).
  { destruct (buf_add_chunk_spec g b n true Hok Hn) as (g' & b' & c & E & Hb & Hh & Hr & _).
    destruct (buf_ok_tail _ _ (be_ok _ _ _ _ _ Hb)) as (l & t & E1 & E2 & E3 & _ & E4).
    { rewrite Hh. by destruct (head b). }
    exists g', b', l, t. split_and!; try done. rewrite E1 in Hh. by apply app_inj_tail in Hh as [_ ->]. }
  unfold needs_chunk. destruct (decide (head b = [])) as [E|E].
  - rewrite (buf_ok_empty _ _ Hok E). destruct Hadd as (g' & b' & l & t & Hadd). exists true, g', b', l, t.
    split; [done|]. exact Hadd.
  - destruct (buf_ok_tail _ _ Hok E) as (l & t & E1 & E2 & E3 & Ht & E4).
    rewrite E2. unfold tail_chunk in E4. rewrite E2 in E4. rewrite E4. simpl.
    destruct (Z.eqb_spec (CHUNK_REMAINING_CAPACITY t) 0) as [Hz|Hz].
    + destruct Hadd as (g' & b' & l' & t' & Hadd). exists true, g', b', l', t'. split; [done|]. exact Hadd.
    + exists false, g, b, l, t. split_and!; try done; [by apply becomes_refl|unfold tail_chunk; by rewrite E2|].
      destruct Ht. unfold CHUNK_REMAINING_CAPACITY in *. lia.
Qed.

Lemma add_loop_spec fuel : forall g b s,
  (length s < fuel)%nat -> buf_ok g b -> zlen (contents b) + zlen s <= BUF_MAX_LEN ->
  exists g' b', add_loop fuel g b s = Ok (g', b') /\ becomes g b g' b' (contents b ++ s).
Proof.
  induction fuel as [|fuel IH]; intros g b s Hf Hok Hm; [lia|].
  pose proof (zlen_nonneg s). pose proof (zlen_nonneg (contents b)).
  cbn [add_loop]. destruct (Z.eqb_spec (zlen s) 0) as [Hz|Hz].
  { destruct s; [|by rewrite zlen_cons in Hz; pose proof (zlen_nonneg s); lia].
    rewrite app_nil_r. do 2 eexists. split; [done|]. by apply becomes_refl. }
  destruct (add_room_spec g b (zlen s) Hok) as (need & g1 & b1 & l & t & -> & E1 & Hb & Hh & Hn & Ht & Hr); [lia|].
  simpl. rewrite E1. simpl. rewrite Ht. simpl.
  set (copy := if zlen s <? CHUNK_REMAINING_CAPACITY t then zlen s else CHUNK_REMAINING_CAPACITY t).
  assert (Hcopy : 0 < copy <= zlen s /\ copy <= CHUNK_REMAINING_CAPACITY t).
  { unfold copy. destruct (Z.ltb_spec (zlen s) (CHUNK_REMAINING_CAPACITY t)); lia. }
  assert (Hlen : zlen (take (Z.to_nat copy) s) = copy) by (apply zlen_take_le; lia).
  destruct (write_tail_ok g1 b1 l t (take (Z.to_nat copy) s)) as (t' & -> & Hb2);
    [by apply (be_ok _ _ _ _ _ Hb)|done|done|lia|rewrite (be_contents _ _ _ _ _ Hb); lia|].
  rewrite Hlen in Hb2. simpl.
  destruct (IH g1 (mkbuf (b_datalen b1 + copy) (default_chunk_size b1) (upd_chunk (ch_id t) t' (head b1)) (tail b1))
              (drop (Z.to_nat copy) s)) as (g3 & b3 & -> & Hb3).
  { rewrite length_drop. unfold zlen in *. lia. }
  { apply (be_ok _ _ _ _ _ Hb2). }
  { rewrite (be_contents _ _ _ _ _ Hb2), (be_contents _ _ _ _ _ Hb), zlen_app, Hlen, zlen_drop_le by lia. lia. }
  do 2 eexists. split; [done|]. eapply becomes_trans; [exact Hb|]. eapply becomes_trans; [exact Hb2|].
  rewrite (be_contents _ _ _ _ _ Hb2), (be_contents _ _ _ _ _ Hb), <- app_assoc, take_drop in Hb3. exact Hb3.
Qed.

(** The length check of [buf_add], for strings that are no longer than a buffer. *)
Lemma add_guard b (s : bytes) :
  0 <= zlen s <= BUF_MAX_LEN -> (u64 (BUF_MAX_LEN - zlen s) <? b_datalen b) = (BUF_MAX_LEN <? b_datalen b + zlen s).
Proof.
  intros H. unfold u64. rewrite Z.mod_small by (unfold BUF_MAX_LEN, INT_MAX in *; lia).
  destruct (Z.ltb_spec BUF_MAX_LEN (b_datalen b + zlen s)); blia.
Qed.

Lemma buf_add_spec g b s :
  buf_ok g b -> zlen (contents b) + zlen s <= BUF_MAX_LEN ->
  exists g' b', buf_add g b s = Ok (g', b', zlen (contents b) + zlen s) /\ becomes g b g' b' (contents b ++ s).
Proof.
  intros Hok Hm. pose proof (bo_len _ _ Hok) as Hl. pose proof (zlen_nonneg s). pose proof (zlen_nonneg (contents b)).
  unfold buf_add. destruct (Z.eqb_spec (zlen s) 0) as [Hz|Hz].
  { destruct s; [|by rewrite zlen_cons in Hz; pose proof (zlen_nonneg s); lia].
    rewrite app_nil_r, Hz, Z.add_0_r, Hl. do 2 eexists. split; [done|]. by apply becomes_refl. }
  rewrite (proj2 (Z.ltb_ge _ _)) by lia. rewrite add_guard by lia. rewrite (proj2 (Z.ltb_ge _ _)) by lia.
  destruct (add_loop_spec (S (length s)) g b s) as (g' & b' & -> & Hb); [lia|done|done|]. simpl.
  rewrite (proj2 (Z.leb_le _ _)) by (apply (bo_max _ _ (be_ok _ _ _ _ _ Hb))).
  rewrite (bo_len _ _ (be_ok _ _ _ _ _ Hb)), (be_contents _ _ _ _ _ Hb), zlen_app. eauto.
Qed.

Lemma buf_add_full g b s :
  buf_ok g b -> 0 < zlen s <= BUF_MAX_LEN -> BUF_MAX_LEN < zlen (contents b) + zlen s -> buf_add g b s = Err.
Proof.
  intros Hok Hs Hm. pose proof (bo_len _ _ Hok). pose proof (bo_max _ _ Hok).
  unfold buf_add. rewrite (proj2 (Z.eqb_neq _ _)) by lia. rewrite (proj2 (Z.ltb_ge _ _)) by lia.
  rewrite add_guard by lia. by rewrite (proj2 (Z.ltb_lt _ _)) by lia.
Qed.

(** ** Pulling up *)

(** The tail is the first chunk exactly when there is no other. *)
Lemma tail_is_head c rest :
  NoDup (ids (c :: rest)) ->
  bool_decide (option_map ch_id (list.last (c :: rest)) = Some (ch_id c)) = true <-> rest = [].
Proof.
  intros Hn. rewrite bool_decide_eq_true. split; [|by intros ->].
  destruct rest as [|x rest]; [done|]. intros E. exfalso.
  change (list.last (c :: x :: rest)) with (list.last (x :: rest)) in E.
  destruct (list.last (x :: rest)) as [y|] eqn:El; [|done]. injection E as E.
  apply list.NoDup_cons in Hn as [Hn _]. apply Hn. rewrite <- E.
  by apply (last_in_ids (x :: rest)).
Qed.

(** The first chunk replaced by one with the same data. *)
Lemma replace_head_ok g g' dl dflt h h' rest tl :
  buf_ok g (mkbuf dl dflt (h :: rest) tl) -> chunk_ok h' -> chunk_data h' = chunk_data h ->
  (ch_id h' = ch_id h \/ ch_id h' = next_addr g) -> ch_id h' < next_addr g' -> next_addr g <= next_addr g' ->
  total_bytes_allocated_in_chunks g' = total_bytes_allocated_in_chunks g + (memlen h' - memlen h) ->
  becomes g (mkbuf dl dflt (h :: rest) tl) g'
    (mkbuf dl dflt (h' :: rest) (if bool_decide (tl = Some (ch_id h)) then Some (ch_id h') else tl))
    (chain_contents (h :: rest)).
Proof.
  intros [H1 H2 H3 H4 H5 H6 H7 H8] Hh' Hd Hid Hlt Hle Ht. simpl in *.
  pose proof (tail_is_head _ _ H2) as Htl. rewrite <- H4 in Htl.
  assert (Hcont : chain_contents (h' :: rest) = chain_contents (h :: rest)) by (by rewrite !contents_cons, Hd).
  apply Forall_cons_iff in H1 as [_ H1]. apply Forall_cons_iff in H3 as [_ H3].
  apply list.NoDup_cons in H2 as [Hn H2].
  split; [split| | |]; unfold contents in *; simpl in *; rewrite ?Hcont; try done.
  - by constructor.
  - apply list.NoDup_cons. split; [|done]. destruct Hid as [->| ->]; [done|by apply ids_fresh].
  - constructor; [done|]. apply (Forall_weaken _ _ _ H3). intros x Hx. lia.
  - destruct rest as [|x rest]; [by rewrite (proj2 Htl eq_refl)|].
    destruct (bool_decide _); [by discriminate (proj1 Htl eq_refl)|]. done.
  - unfold CHUNK_ALLOC_SIZE in *. lia.
  - split; simpl; unfold CHUNK_ALLOC_SIZE; [lia|lia|]. constructor; [destruct Hid; [left; auto|right; lia]|].
    apply List.Forall_forall. simpl. auto.
Qed.

(** The second chunk emptied into the first one and released. *)
Lemma absorb_ok g dl dflt dest src next tl :
  buf_ok g (mkbuf dl dflt (dest :: src :: next) tl) -> datalen src <= CHUNK_REMAINING_CAPACITY dest ->
  exists dest' g', chunk_write dest (chunk_data src) = Ok dest' /\ buf_chunk_free_unchecked g src = Ok g'
    /\ datalen dest' = datalen dest + datalen src
    /\ CHUNK_REMAINING_CAPACITY dest' = CHUNK_REMAINING_CAPACITY dest - datalen src
    /\ becomes g (mkbuf dl dflt (dest :: src :: next) tl) g'
         (mkbuf dl dflt (dest' :: next) (if bool_decide (tl = Some (ch_id src)) then Some (ch_id dest') else tl))
         (chain_contents (dest :: src :: next)).
Proof.
  intros [H1 H2 H3 H4 H5 H6 H7 H8] Hr. simpl in *.
  apply Forall_cons_iff in H1 as [Hd H1]. apply Forall_cons_iff in H1 as [Hs H1].
  pose proof (chunk_data_len src Hs) as Hsl.
  destruct (chunk_write_spec dest (chunk_data src) Hd) as (d' & Ew & Hd' & Hdata & Hid & Hml & Hdl & Hoff & _); [lia|].
  pose proof (chain_alloc_nonneg next).
  assert (0 <= CHUNK_ALLOC_SIZE (memlen dest)) by (pose proof (chain_alloc_nonneg [dest]); simpl in *; lia).
  assert (Hcont : chain_contents (d' :: next) = chain_contents (dest :: src :: next)).
  { rewrite !contents_cons, Hdata. lassoc. }
  exists d'. rewrite Ew, chunk_free_spec by (done || lia). eexists. split_and!; try done; [lia| |].
  { unfold CHUNK_REMAINING_CAPACITY. lia. }
  pose proof (list.NoDup_cons_1_2 _ _ H2) as H2'. pose proof (tail_is_head _ _ H2') as Htl.
  change (list.last (dest :: src :: next)) with (list.last (src :: next)) in H4. rewrite <- H4 in Htl.
  apply list.NoDup_cons in H2 as [Hn H2]. apply not_elem_of_cons in Hn as [Hn1 Hn2].
  apply list.NoDup_cons in H2' as [_ H2'].
  apply Forall_cons_iff in H3 as [Hlt H3]. apply Forall_cons_iff in H3 as [_ H3].
  split; [split| | |]; unfold contents in *; simpl in *; rewrite ?Hcont; try done.
  - by constructor.
  - apply list.NoDup_cons. by rewrite Hid.
  - constructor; [lia|done].
  - destruct next as [|x next]; [by rewrite (proj2 Htl eq_refl)|].
    destruct (bool_decide _); [by discriminate (proj1 Htl eq_refl)|]. done.
  - rewrite Hml. lia.
  - split; simpl; rewrite ?Hml; [lia|lia|]. rewrite Hid. constructor; [auto|].
    apply List.Forall_forall. simpl. auto.
Qed.

(** A part of the second chunk moved into the first one. *)
Lemma absorb_part_ok g dl dflt dest src next tl n :
  buf_ok g (mkbuf dl dflt (dest :: src :: next) tl) -> 0 <= n <= datalen src -> n <= CHUNK_REMAINING_CAPACITY dest ->
  exists dest', chunk_write dest (take (Z.to_nat n) (chunk_data src)) = Ok dest'
    /\ datalen dest' = datalen dest + n
    /\ becomes g (mkbuf dl dflt (dest :: src :: next) tl) g
         (mkbuf dl dflt (dest' :: mkchunk (ch_id src) (datalen src - n) (DBG_alloc src) (data_off src + n)
                                    (inserted_time src) (mem src) :: next) tl)
         (chain_contents (dest :: src :: next)).
Proof.
  intros [H1 H2 H3 H4 H5 H6 H7 H8] Hn Hr. simpl in *.
  apply Forall_cons_iff in H1 as [Hd H1]. apply Forall_cons_iff in H1 as [Hs H1].
  pose proof (chunk_data_len src Hs) as Hsl.
  assert (Htk : zlen (take (Z.to_nat n) (chunk_data src)) = n) by (apply zlen_take_le; lia).
  destruct (chunk_write_spec dest (take (Z.to_nat n) (chunk_data src)) Hd)
    as (d' & Ew & Hd' & Hdata & Hid & Hml & Hdl & Hoff & _); [lia|].
  destruct (chunk_advance src n Hs Hn) as [Hs' Hsd]. set (src' := mkchunk _ _ _ _ _ _) in *.
  exists d'. split_and!; [done|lia|].
  assert (Hcont : chain_contents (d' :: src' :: next) = chain_contents (dest :: src :: next)).
  { rewrite !contents_cons, Hdata, Hsd, <- !app_assoc. f_equal. by rewrite app_assoc, take_drop. }
  split; [split| | |]; unfold contents in *; simpl in *; rewrite ?Hcont, ?Hid; try done.
  - constructor; [done|]. by constructor.
  - apply Forall_cons_iff in H3 as [Hlt H3]. apply Forall_cons_iff in H3 as [Hlt2 H3].
    constructor; [lia|]. by constructor.
  - rewrite H4. by destruct next.
  - rewrite Hml. unfold src', memlen in *. simpl. lia.
  - split; simpl; rewrite ?Hml; unfold memlen; simpl; [lia|lia|]. rewrite Hid. apply List.Forall_forall. auto.
Qed.

Lemma pullup_loop_spec rest : forall g dl dflt dest tl n,
  buf_ok g (mkbuf dl dflt (dest :: rest) tl) -> n <= dl ->
  n - datalen dest <= CHUNK_REMAINING_CAPACITY dest ->
  exists g' d chain tl', pullup_loop g dest rest tl n = Ok (g', d :: chain, tl')
    /\ becomes g (mkbuf dl dflt (dest :: rest) tl) g' (mkbuf dl dflt (d :: chain) tl') (chain_contents (dest :: rest))
    /\ n <= datalen d.
Proof.
  induction rest as [|src next IH]; intros g dl dflt dest tl n Hok Hn Hr.
  - cbn [pullup_loop]. pose proof (bo_len _ _ Hok) as Hl. unfold contents in Hl. simpl in Hl.
    rewrite contents_one in Hl. pose proof (bo_chunks _ _ Hok) as Hc. apply Forall_cons_iff in Hc as [Hc _].
    rewrite chunk_data_len in Hl by done. rewrite (proj2 (Z.leb_le _ _)) by lia.
    do 4 eexists. split; [done|]. split; [apply (becomes_refl _ _ Hok)|lia].
  - cbn [pullup_loop]. destruct (Z.leb_spec n (datalen dest)) as [H|H].
    { do 4 eexists. split; [done|]. split; [apply (becomes_refl _ _ Hok)|lia]. }
    destruct (Z.leb_spec (datalen src) (n - datalen dest)) as [Hs|Hs].
    + destruct (absorb_ok _ _ _ _ _ _ _ Hok) as (d' & g1 & -> & -> & Hd & Hr' & Hb); [lia|]. simpl.
      destruct (IH g1 dl dflt d' (if bool_decide (tl = Some (ch_id src)) then Some (ch_id d') else tl) n)
        as (g2 & d & chain & tl' & E & Hb2 & Hle); [apply (be_ok _ _ _ _ _ Hb)|done|lia|].
      exists g2, d, chain, tl'. split; [done|]. split; [|done].
      eapply becomes_trans; [exact Hb|]. pose proof (be_contents _ _ _ _ _ Hb) as Hc.
      unfold contents in Hc. simpl in Hc. by rewrite <- Hc.
    + destruct (absorb_part_ok _ _ _ _ _ _ _ (n - datalen dest) Hok) as (d' & -> & Hd & Hb); [lia|lia|].
      simpl. rewrite (proj2 (Z.eqb_eq _ _)) by lia. do 4 eexists. split; [done|]. split; [exact Hb|lia].
Qed.

Lemma pullup_head_spec g dl dflt h rest tl n :
  buf_ok g (mkbuf dl dflt (h :: rest) tl) -> datalen h < n <= dl ->
  exists g' h' tl', pullup_head g h tl n = Ok (g', h', tl')
    /\ becomes g (mkbuf dl dflt (h :: rest) tl) g' (mkbuf dl dflt (h' :: rest) tl') (chain_contents (h :: rest))
    /\ n - datalen h' <= CHUNK_REMAINING_CAPACITY h'.
Proof.
  intros Hok Hn. pose proof (bo_chunks _ _ Hok) as Hc. apply Forall_cons_iff in Hc as [Hc _].
  pose proof (bo_addr _ _ Hok) as Ha. apply Forall_cons_iff in Ha as [Ha _]. simpl in Ha.
  destruct (chunk_repack_spec h Hc) as (R1 & R2 & R3 & R4 & R5 & R6).
  unfold pullup_head. destruct (Z.leb_spec n (memlen h)) as [Hm|Hm].
  - destruct (Z.ltb_spec (CHUNK_REMAINING_CAPACITY h) (n - datalen h)) as [Hr|Hr].
    + assert (Hrr : CHUNK_REMAINING_CAPACITY (chunk_repack h) = memlen h - datalen h).
      { unfold CHUNK_REMAINING_CAPACITY. rewrite R4, R5, R6. lia. }
      rewrite (proj2 (Z.leb_le _ _)) by lia. do 3 eexists. split; [done|]. split; [|lia].
      pose proof (replace_head_ok g g dl dflt h (chunk_repack h) rest tl Hok R1 R2 (or_introl R3)) as K.
      rewrite R3 in K. destruct (bool_decide (tl = Some (ch_id h))) eqn:E.
      * apply bool_decide_eq_true in E. rewrite <- E in K. apply K; lia.
      * apply K; lia.
    + rewrite (proj2 (Z.leb_le _ _)) by lia. do 3 eexists. split; [done|].
      split; [apply (becomes_refl _ _ Hok)|lia].
  - pose proof (co_len _ Hc). pose proof (bo_max _ _ Hok) as Hmax. simpl in Hmax.
    destruct (preferred_spec n) as (sz & -> & Hsz & _); [lia| |].
    { unfold BUF_MAX_LEN, INT_MAX in Hmax. change (SIZE_T_CEILING - CHUNK_OVERHEAD) with 9223372036854775743. lia. }
    cbn [cbind]. unfold CHUNK_SIZE_WITH_ALLOC. unfold CHUNK_ALLOC_SIZE in Hsz.
    destruct (chunk_grow_spec g (chunk_repack h) (sz - CHUNK_OVERHEAD)) as
      (g' & c' & -> & G1 & G2 & G3 & G4 & G5 & G6 & G7 & G8); [done|lia|lia|].
    simpl. rewrite (proj2 (Z.leb_le _ _)) by lia. do 3 eexists. split; [done|]. rewrite R3 in *.
    split; [|unfold CHUNK_REMAINING_CAPACITY; lia].
    assert (K := replace_head_ok g g' dl dflt h c' rest tl Hok G1 (eq_trans G2 R2) G6).
    destruct (Z.eqb_spec (ch_id c') (ch_id h)) as [E|E]; simpl.
    + rewrite E in K. destruct (bool_decide (tl = Some (ch_id h))) eqn:E2.
      * apply bool_decide_eq_true in E2. rewrite <- E2 in K. apply K; lia.
      * apply K; lia.
    + apply K; lia.
Qed.

(** [buf_pullup] keeps the data and makes a prefix of it contiguous that has the
    number of bytes asked for, or all there are. *)
Lemma buf_pullup_spec g b n :
  buf_ok g b -> 0 <= n ->
  exists g' b' r, buf_pullup g b n = Ok (g', b', r) /\ becomes g b g' b' (contents b)
    /\ match r with
       | None => head b = []
       | Some d => (exists rest, contents b = d ++ rest) /\ Z.min n (zlen (contents b)) <= zlen d
       end.
Proof.
  intros Hok Hn. pose proof (bo_len _ _ Hok) as Hl. unfold buf_pullup.
  destruct b as [dl dflt [|h rest] tl]; simpl in *.
  { do 3 eexists. split; [done|]. split; [by apply becomes_refl|done]. }
  set (m := if dl <? n then dl else n).
  assert (Hm : m = Z.min n (zlen (contents (mkbuf dl dflt (h :: rest) tl))))
    by (unfold m; destruct (Z.ltb_spec dl n); lia).
  destruct (Z.leb_spec m (datalen h)) as [Hle|Hgt].
  - pose proof (bo_chunks _ _ Hok) as Hc. apply Forall_cons_iff in Hc as [Hc _].
    do 3 eexists. split; [done|]. split; [by apply becomes_refl|]. rewrite chunk_data_len by done.
    split; [by eexists|lia].
  - destruct (pullup_head_spec g dl dflt h rest tl m Hok) as (g1 & h1 & tl1 & -> & Hb1 & Hr); [lia|]. simpl.
    destruct (pullup_loop_spec rest g1 dl dflt h1 tl1 m) as (g2 & d & chain & tl2 & -> & Hb2 & Hle);
      [apply (be_ok _ _ _ _ _ Hb1)|lia|done|]. simpl.
    assert (Hb : becomes g (mkbuf dl dflt (h :: rest) tl) g2 (mkbuf dl dflt (d :: chain) tl2)
                   (contents (mkbuf dl dflt (h :: rest) tl))).
    { eapply becomes_trans; [exact Hb1|]. pose proof (be_contents _ _ _ _ _ Hb1) as Hc.
      unfold contents in Hc |- *. simpl in Hc |- *. by rewrite <- Hc. }
    do 3 eexists. split; [done|]. split; [exact Hb|].
    pose proof (bo_chunks _ _ (be_ok _ _ _ _ _ Hb)) as Hc. apply Forall_cons_iff in Hc as [Hc _].
    rewrite chunk_data_len by done. split; [|lia]. exists (chain_contents chain).
    by rewrite <- (be_contents _ _ _ _ _ Hb).
Qed.

(** ** Copying and moving *)

Lemma chunk_copy_spec g c :
  chunk_ok c ->
  let '(g', c') := chunk_copy g c in
  chunk_ok c' /\ chunk_data c' = chunk_data c /\ memlen c' = memlen c /\ ch_id c' = next_addr g
  /\ next_addr g' = next_addr g + 1
  /\ total_bytes_allocated_in_chunks g' = total_bytes_allocated_in_chunks g + CHUNK_ALLOC_SIZE (memlen c).
Proof. intros [H1 H2 H3 H4]. simpl. by split_and!. Qed.

(** Linking a chunk after the tail, as [buf_copy] does. *)
Lemma link_spec dl dflt pre c :
  NoDup (ids pre) ->
  match option_map ch_id (list.last pre) with
  | Some t =>
      let* chain := set_next t pre [c] in
      Ok (mkbuf dl dflt chain (Some (ch_id c)))
  | None => Ok (mkbuf dl dflt [c] (Some (ch_id c)))
  end = Ok (mkbuf dl dflt (pre ++ [c]) (option_map ch_id (list.last (pre ++ [c])))).
Proof.
  intros Hn. rewrite list.last_snoc. destruct (decide (pre = [])) as [->|Hne]; [done|].
  destruct (exists_last Hne) as (l & t & ->). rewrite list.last_snoc. simpl.
  rewrite set_next_last by (by apply ids_last_notin). simpl. do 2 f_equal. lassoc.
Qed.

Lemma copy_loop_spec ch : forall g dl dflt pre,
  Forall chunk_ok ch -> Forall (fun c => ch_id c < next_addr g) pre -> NoDup (ids pre) ->
  exists g' cs, copy_loop g ch (mkbuf dl dflt pre (option_map ch_id (list.last pre)))
      = Ok (g', mkbuf dl dflt (pre ++ cs) (option_map ch_id (list.last (pre ++ cs))))
    /\ Forall chunk_ok cs /\ chain_contents cs = chain_contents ch /\ chain_alloc cs = chain_alloc ch
    /\ NoDup (ids (pre ++ cs)) /\ Forall (fun c => ch_id c < next_addr g') (pre ++ cs)
    /\ Forall (fun i => next_addr g <= i) (ids cs) /\ next_addr g <= next_addr g'
    /\ total_bytes_allocated_in_chunks g' = total_bytes_allocated_in_chunks g + chain_alloc ch.
Proof.
  induction ch as [|c ch IH]; intros g dl dflt pre Hok Ha Hn.
  - exists g, []. rewrite app_nil_r. split_and!; simpl; first [done | lia | constructor].
  - apply Forall_cons_iff in Hok as [Hc Hok]. pose proof (chunk_copy_spec g c Hc) as Hcp.
    cbn [copy_loop]. destruct (chunk_copy g c) as [g1 c'] eqn:Ecp.
    destruct Hcp as (C1 & C2 & C3 & C4 & C5 & C6). cbn [tail head b_datalen default_chunk_size].
    rewrite link_spec by done. cbn [cbind].
    destruct (IH g1 dl dflt (pre ++ [c'])) as (g2 & cs & E & K1 & K2 & K3 & K4 & K5 & K6 & K7 & K8); [done| | |].
    { apply Forall_app. split; [|constructor; [lia|constructor]].
      apply (Forall_weaken _ _ _ Ha). intros x Hx. lia. }
    { rewrite ids_app. apply list.NoDup_app. split_and!; [done| |apply NoDup_singleton].
      intros i Hi Hi'. apply list_elem_of_singleton in Hi'. subst i. rewrite C4 in Hi. by apply ids_fresh in Ha. }
    exists g2, (c' :: cs). rewrite E.
    replace ((pre ++ [c']) ++ cs) with (pre ++ c' :: cs) in * by lassoc.
    split_and!; try done; try lia; simpl.
    + by constructor.
    + by rewrite !contents_cons, C2, K2.
    + by rewrite C3, K3.
    + constructor; [lia|]. apply (Forall_weaken _ _ _ K6). intros x Hx. lia.
    + lia.
Qed.

Lemma buf_copy_spec g b :
  buf_ok g b ->
  exists g' b', buf_copy g b = Ok (g', b') /\ buf_ok g' b' /\ contents b' = contents b
    /\ default_chunk_size b' = default_chunk_size b /\ evolves g [] g' (head b').
Proof.
  intros [H1 H2 H3 H4 H5 H6 H7 H8]. unfold buf_copy.
  destruct (copy_loop_spec (head b) g 0 (default_chunk_size b) []) as (g' & cs & E & K1 & K2 & K3 & K4 & K5 & K6 & K7 & K8);
    [done|constructor|constructor|]. simpl in E. rewrite E. simpl in *.
  pose proof (chain_alloc_nonneg (head b)). do 2 eexists. split; [done|]. split_and!; simpl; try done.
  - split; simpl; try done; [|lia]. unfold contents in *. simpl. by rewrite K2.
  - split; simpl; [lia|lia|]. apply (Forall_weaken _ _ _ K6). auto.
Qed.

(** Two buffers that do not share chunks. *)
Record pair_ok (g : alloc_t) (b1 b2 : buf_t) : Prop := mk_pair_ok {
  po_1 : buf_ok g b1;
  po_2 : buf_ok g b2;
  po_ids : NoDup (ids (head b1 ++ head b2));
  po_total : chain_alloc (head b1 ++ head b2) <= total_bytes_allocated_in_chunks g
}.

Lemma evolves_notin g l g' l' k :
  evolves g l g' l' -> NoDup (ids (l ++ k)) -> NoDup (ids l') -> Forall (fun c => ch_id c < next_addr g) k ->
  NoDup (ids (l' ++ k)).
Proof.
  intros [_ _ Hi] Hn Hn' Hk. rewrite ids_app in *. apply list.NoDup_app in Hn as (Hn1 & Hd & Hn2).
  apply list.NoDup_app. split_and!; [done| |done]. intros i Hil Hik.
  rewrite List.Forall_forall in Hi. destruct (Hi i) as [H|H]; [by apply list_elem_of_In| |].
  - apply (Hd i); [by apply list_elem_of_In|done].
  - apply list_elem_of_In, in_map_iff in Hik as (c & <- & Hc).
    rewrite List.Forall_forall in Hk. specialize (Hk c Hc). lia.
Qed.

(** The other buffers of the world do not notice an operation. *)
Lemma buf_ok_frame g l g' l' b :
  evolves g l g' l' -> buf_ok g b -> chain_alloc (head b) <= total_bytes_allocated_in_chunks g' -> buf_ok g' b.
Proof.
  intros [Hn _ _] [H1 H2 H3 H4 H5 H6 H7 H8] Ht. split; try done.
  apply (Forall_weaken _ _ _ H3). intros x Hx. lia.
Qed.

Lemma evolves_frame g l g' l' k : evolves g l g' l' -> evolves g (l ++ k) g' (l' ++ k).
Proof.
  intros [H1 H2 H3]. split; [done| |].
  - rewrite !chain_alloc_app. lia.
  - rewrite !ids_app. apply Forall_app. split.
    + apply (Forall_weaken _ _ _ H3). intros i [Hi|Hi]; [left; apply in_app_iff; auto|auto].
    + apply List.Forall_forall. intros i Hi. left. apply in_app_iff. auto.
Qed.

Lemma pair_frame g g' b1 b1' b2 s :
  pair_ok g b1 b2 -> becomes g b1 g' b1' s ->
  pair_ok g' b1' b2 /\ evolves g (head b1 ++ head b2) g' (head b1' ++ head b2).
Proof.
  intros [H1 H2 H3 H4] [K1 K2 K3 K4]. pose proof (evolves_frame _ _ _ _ (head b2) K3) as He.
  pose proof (ev_total _ _ _ _ He) as Ht.
  split; [split|done]; [done| | |lia].
  - eapply buf_ok_frame; [exact K3|done|]. rewrite !chain_alloc_app in *.
    pose proof (chain_alloc_nonneg (head b1')). lia.
  - eapply evolves_notin; [exact K3|done|apply (bo_ids _ _ K1)|apply (bo_addr _ _ H2)].
Qed.

Lemma pair_ok_comm g b1 b2 : pair_ok g b1 b2 -> pair_ok g b2 b1.
Proof.
  intros [H1 H2 H3 H4]. split; try done.
  - rewrite ids_app in *. by rewrite Permutation_app_comm.
  - rewrite chain_alloc_app in *. lia.
Qed.

Lemma evolves_comm g l1 l2 g' l1' l2' : evolves g (l1 ++ l2) g' (l1' ++ l2') -> evolves g (l2 ++ l1) g' (l2' ++ l1').
Proof.
  intros [H1 H2 H3]. split; [done| |].
  - rewrite !chain_alloc_app in *. lia.
  - rewrite !ids_app in *. apply Forall_app in H3 as [H3 H4]. apply Forall_app.
    split; [apply (Forall_weaken _ _ _ H4)|apply (Forall_weaken _ _ _ H3)]; intros i; rewrite !in_app_iff; tauto.
Qed.

(** The outcome of an operation on two buffers. *)
Record pair_becomes g b1 b2 g' b1' b2' (s1 s2 : bytes) : Prop := mk_pair_becomes {
  pb_ok : pair_ok g' b1' b2';
  pb_1 : contents b1' = s1;
  pb_2 : contents b2' = s2;
  pb_evolves : evolves g (head b1 ++ head b2) g' (head b1' ++ head b2');
  pb_dflt1 : default_chunk_size b1' = default_chunk_size b1;
  pb_dflt2 : default_chunk_size b2' = default_chunk_size b2
}.

Lemma pair_becomes_trans g b1 b2 g' b1' b2' g'' b1'' b2'' s1 s2 s1' s2' :
  pair_becomes g b1 b2 g' b1' b2' s1 s2 -> pair_becomes g' b1' b2' g'' b1'' b2'' s1' s2' ->
  pair_becomes g b1 b2 g'' b1'' b2'' s1' s2'.
Proof.
  intros [A1 A2 A3 A4 A5 A6] [B1 B2 B3 B4 B5 B6].
  split; [done|done|done|by eapply evolves_trans|congruence|congruence].
Qed.

Lemma pair_becomes_refl g b1 b2 : pair_ok g b1 b2 -> pair_becomes g b1 b2 g b1 b2 (contents b1) (contents b2).
Proof. intros H. split; try done. apply evolves_refl. Qed.

Lemma becomes_left g b1 b2 g' b1' s :
  pair_ok g b1 b2 -> becomes g b1 g' b1' s -> pair_becomes g b1 b2 g' b1' b2 s (contents b2).
Proof. intros H Hb. destruct (pair_frame _ _ _ _ _ _ H Hb). split; try done; apply Hb. Qed.

Lemma becomes_right g b1 b2 g' b2' s :
  pair_ok g b1 b2 -> becomes g b2 g' b2' s -> pair_becomes g b1 b2 g' b1 b2' (contents b1) s.
Proof.
  intros H Hb. apply pair_ok_comm in H. destruct (pair_frame _ _ _ _ _ _ H Hb).
  split; try done; try apply Hb; [by apply pair_ok_comm|by apply evolves_comm].
Qed.

Lemma move_loop_spec fuel : forall g out inb len,
  (Z.to_nat len < fuel)%nat -> pair_ok g out inb -> 0 <= len <= zlen (contents inb) ->
  zlen (contents out) + len <= BUF_MAX_LEN ->
  exists g' out' inb', move_loop fuel g out inb len = Ok (g', out', inb')
    /\ pair_becomes g out inb g' out' inb' (contents out ++ take (Z.to_nat len) (contents inb))
         (drop (Z.to_nat len) (contents inb)).
Proof.
  induction fuel as [|fuel IH]; intros g out inb len Hf Hp Hlen Hmax; [lia|].
  cbn [move_loop]. destruct (Z.eqb_spec len 0) as [->|Hl0].
  { do 3 eexists. split; [done|]. simpl. rewrite app_nil_r. by apply pair_becomes_refl. }
  set (n := if 4096 <? len then 4096 else len).
  assert (Hn : 0 < n <= len) by (unfold n; destruct (Z.ltb_spec 4096 len); lia).
  destruct (buf_get_bytes_spec g inb n (po_2 _ _ _ Hp)) as (g1 & in1 & -> & Hb1); [lia|]. simpl.
  pose proof (becomes_right _ _ _ _ _ _ Hp Hb1) as P1.
  assert (Htk : zlen (take (Z.to_nat n) (contents inb)) = n) by (apply zlen_take_le; lia).
  destruct (buf_add_spec g1 out (take (Z.to_nat n) (contents inb))) as (g2 & out2 & -> & Hb2);
    [apply (po_1 _ _ _ (pb_ok _ _ _ _ _ _ _ _ P1))|lia|]. simpl.
  pose proof (becomes_left _ _ _ _ _ _ (pb_ok _ _ _ _ _ _ _ _ P1) Hb2) as P2.
  pose proof (pb_2 _ _ _ _ _ _ _ _ P1) as Hin1. pose proof (pb_1 _ _ _ _ _ _ _ _ P2) as Hout2.
  destruct (IH g2 out2 in1 (len - n)) as (g3 & out3 & in3 & -> & P3).
  { lia. } { apply (pb_ok _ _ _ _ _ _ _ _ P2). } { rewrite Hin1, zlen_drop_le by lia. lia. }
  { rewrite Hout2, zlen_app, Htk. lia. }
  do 3 eexists. split; [done|].
  eapply pair_becomes_trans; [exact P1|]. eapply pair_becomes_trans; [exact P2|].
  rewrite Hin1, Hout2, drop_drop, <- app_assoc in P3.
  replace (Z.to_nat n + Z.to_nat (len - n))%nat with (Z.to_nat len) in P3 by lia.
  replace (take (Z.to_nat len) (contents inb))
    with (take (Z.to_nat n) (contents inb) ++ take (Z.to_nat (len - n)) (drop (Z.to_nat n) (contents inb)));
    [exact P3|].
  replace (Z.to_nat len) with (Z.to_nat n + Z.to_nat (len - n))%nat by lia. rewrite take_take_drop. done.
Qed.

(** [buf_move_to_buf] moves the first [buf_flushlen] bytes, or all there are. *)
Lemma buf_move_to_buf_spec g out inb flushlen :
  pair_ok g out inb -> 0 <= flushlen -> zlen (contents out) + flushlen <= BUF_MAX_LEN ->
  let len := Z.min flushlen (zlen (contents inb)) in
  exists g' out' inb', buf_move_to_buf g out inb flushlen = Ok (g', out', inb', len, flushlen - len)
    /\ pair_becomes g out inb g' out' inb' (contents out ++ take (Z.to_nat len) (contents inb))
         (drop (Z.to_nat len) (contents inb)).
Proof.
  intros Hp Hf Hm len. pose proof (bo_len _ _ (po_1 _ _ _ Hp)) as H1. pose proof (bo_len _ _ (po_2 _ _ _ Hp)) as H2.
  pose proof (bo_max _ _ (po_2 _ _ _ Hp)).
  pose proof (zlen_nonneg (contents out)). pose proof (zlen_nonneg (contents inb)). unfold buf_move_to_buf.
  rewrite (proj2 (orb_false_iff _ _)) by (split; apply Z.ltb_ge; lia).
  rewrite (proj2 (Z.ltb_ge _ _)) by lia.
  assert ((if b_datalen inb <? flushlen then b_datalen inb else flushlen) = len) as ->.
  { unfold len. destruct (Z.ltb_spec (b_datalen inb) flushlen); lia. }
  rewrite (proj2 (Z.leb_le _ _)) by lia.
  destruct (move_loop_spec (S (Z.to_nat len)) g out inb len) as (g' & out' & in' & -> & P); [lia|done|lia|lia|].
  simpl. eauto 6.
Qed.

Lemma datalen_zero g b : buf_ok g b -> (b_datalen b = 0 <-> contents b = []).
Proof.
  intros H. rewrite (bo_len _ _ H). unfold zlen. destruct (contents b); simpl; split; first [done | lia].
Qed.

(** The chain of a moved buffer, linked after the other one. *)
Lemma move_chain_spec g out inb :
  buf_ok g out ->
  match head out with
  | [] => Ok (head inb)
  | _ => match tail out with Some t => set_next t (head out) (head inb) | None => Bug end
  end = Ok (head out ++ head inb).
Proof.
  intros Hok. destruct (decide (head out = [])) as [->|Hne]; [done|].
  destruct (buf_ok_tail _ _ Hok Hne) as (l & c & E1 & E2 & E3 & _). rewrite E2.
  assert (Hs : set_next (ch_id c) (head out) (head inb) = Ok (head out ++ head inb)).
  { rewrite E1, set_next_last by done. f_equal. lassoc. }
  rewrite Hs. by destruct (head out).
Qed.

Lemma buf_move_all_spec g out inb :
  pair_ok g out inb -> zlen (contents out) + zlen (contents inb) <= BUF_MAX_LEN ->
  exists out' inb', buf_move_all out inb = Ok (out', inb', zlen (contents inb))
    /\ pair_becomes g out inb g out' inb' (contents out ++ contents inb) [].
Proof.
  intros Hp Hm. destruct Hp as [H1 H2 H3 H4] eqn:Ep. clear Ep.
  pose proof (bo_len _ _ H1) as L1. pose proof (bo_len _ _ H2) as L2.
  pose proof (zlen_nonneg (contents out)). pose proof (zlen_nonneg (contents inb)).
  unfold buf_move_all. destruct (Z.eqb_spec (b_datalen inb) 0) as [Hz|Hz].
  { rewrite <- L2, Hz. apply (datalen_zero _ _ H2) in Hz.
    do 2 eexists. split; [done|]. pose proof (pair_becomes_refl _ _ _ Hp) as P.
    rewrite Hz in P |- *. by rewrite app_nil_r. }
  rewrite (proj2 (orb_false_iff _ _)) by (split; apply Z.ltb_ge; lia).
  rewrite (proj2 (Z.ltb_ge _ _)) by lia. rewrite (move_chain_spec g) by done. simpl. rewrite L2.
  do 2 eexists. split; [done|].
  assert (Hne : head inb <> []).
  { intros E. apply Hz, (datalen_zero _ _ H2). unfold contents. by rewrite E. }
  assert (Hc : chain_contents (head out ++ head inb) = contents out ++ contents inb) by apply contents_app.
  destruct H1 as [A1 A2 A3 A4 A5 A6 A7 A8]. destruct H2 as [B1 B2 B3 B4 B5 B6 B7 B8].
  pose proof (chain_alloc_nonneg (head out)).
  split; [split| | | | |]; simpl; rewrite ?app_nil_r; try done; [|apply empty_buf_ok; [done|lia]|apply evolves_refl].
  split; simpl; try done; try change (contents (mkbuf ?a ?b ?c ?d)) with (chain_contents c); rewrite ?Hc, ?zlen_app.
  - by apply Forall_app.
  - by apply Forall_app.
  - rewrite B4. destruct (exists_last Hne) as (l & c & ->). by rewrite app_assoc, !list.last_snoc.
  - lia.
  - lia.
Qed.

Lemma buf_move_all_full g out inb :
  pair_ok g out inb -> BUF_MAX_LEN < zlen (contents out) + zlen (contents inb) ->
  buf_move_all out inb = Ok (out, inb, 0).
Proof.
  intros [H1 H2 _ _] Hm. pose proof (bo_len _ _ H1) as L1. pose proof (bo_len _ _ H2) as L2.
  pose proof (bo_max _ _ H1). pose proof (bo_max _ _ H2). unfold buf_move_all.
  destruct (Z.eqb_spec (b_datalen inb) 0); [done|].
  destruct (_ || _); [done|]. by rewrite (proj2 (Z.ltb_lt _ _)) by lia.
Qed.

(** ** Searching *)

(** The index of the first [ch] in [s], or -1. *)
Definition index_of (ch : Z) (s : bytes) : Z :=
  match span (fun x => negb (x =? ch)) s with
  | (_, []) => -1
  | (a, _) => zlen a
  end.

Lemma memchr_span s ch :
  memchr s ch (length s)
  = match span (fun x => negb (x =? ch)) s with (_, []) => None | (_, q) => Some q end.
Proof.
  induction s as [|x s IH]; [done|]. cbn [memchr length span]. destruct (Z.eqb_spec x ch); simpl; [done|].
  rewrite IH. by destruct (span _ s).
Qed.

Lemma span_append {A} (p : A -> bool) l k :
  span p (l ++ k) = match span p l with
                    | (_, []) => (l ++ fst (span p k), snd (span p k))
                    | (a, b) => (a, b ++ k)
                    end.
Proof.
  induction l as [|x l IH]; simpl; [by destruct (span p k)|].
  destruct (p x); [|done]. rewrite IH. by destruct (span p l) as [a [|y b]].
Qed.

Lemma span_nil_all {A} (p : A -> bool) l a : span p l = (a, []) -> a = l.
Proof. intros E. pose proof (span_app p l) as H. rewrite E in H. simpl in H. by rewrite app_nil_r in H. Qed.

Lemma index_of_app ch l k :
  index_of ch (l ++ k) = if index_of ch l =? -1 then (if index_of ch k =? -1 then -1 else zlen l + index_of ch k)
                         else index_of ch l.
Proof.
  unfold index_of. rewrite span_append. destruct (span _ l) as [a [|x b]] eqn:El; simpl.
  - destruct (span _ k) as [a' [|x b]]; simpl; [done|]. pose proof (zlen_nonneg a').
    rewrite (proj2 (Z.eqb_neq _ _)) by lia. by rewrite zlen_app.
  - pose proof (zlen_nonneg a). by rewrite (proj2 (Z.eqb_neq _ _)) by lia.
Qed.

Lemma memchr_index s ch :
  match memchr s ch (length s) with
  | Some q => zlen s - zlen q = index_of ch s /\ 0 <= index_of ch s < zlen s
  | None => index_of ch s = -1
  end.
Proof.
  rewrite memchr_span. unfold index_of. pose proof (span_app (fun x => negb (x =? ch)) s) as H.
  destruct (span _ s) as [a [|x b]]; [done|]. simpl in H. rewrite <- H. pose proof (zlen_nonneg a).
  pose proof (zlen_nonneg b). split; zlia.
Qed.

Lemma find_offset_loop_spec ch l : forall off,
  Forall chunk_ok l ->
  find_offset_loop l ch off
  = if index_of ch (chain_contents l) =? -1 then -1 else off + index_of ch (chain_contents l).
Proof.
  induction l as [|c l IH]; intros off Hok; [done|]. apply Forall_cons_iff in Hok as [Hc Hok].
  cbn [find_offset_loop]. rewrite contents_cons, index_of_app.
  pose proof (memchr_index (chunk_data c) ch) as Hm. destruct (memchr _ _ _) as [q|].
  - destruct Hm as [-> Hm]. rewrite (proj2 (Z.eqb_neq (index_of ch (chunk_data c)) (-1))) by lia.
    by rewrite (proj2 (Z.eqb_neq _ _)) by lia.
  - rewrite Hm. simpl. rewrite IH, chunk_data_len by done.
    destruct (Z.eqb_spec (index_of ch (chain_contents l)) (-1)); [done|].
    assert (0 <= index_of ch (chain_contents l)).
    { unfold index_of in *. destruct (span _ _) as [a [|? ?]]; [done|]. apply zlen_nonneg. }
    pose proof (co_len _ Hc). rewrite (proj2 (Z.eqb_neq _ _)) by lia. lia.
Qed.

Lemma buf_find_offset_spec g b ch : buf_ok g b -> buf_find_offset_of_char b ch = Ok (index_of ch (contents b)).
Proof.
  intros H. unfold buf_find_offset_of_char. rewrite (proj2 (Z.leb_le _ _)) by apply (bo_max _ _ H).
  rewrite find_offset_loop_spec by apply (bo_chunks _ _ H). fold (contents b).
  destruct (Z.eqb_spec (index_of ch (contents b)) (-1)) as [->|]; done.
Qed.

(** What [buf_get_line] does on the bytes: the result and what is left. *)
Definition line_spec (s : bytes) (data_len : Z) : line_result * bytes :=
  let i := index_of 10 s in
  if i <? 0 then (LineIncomplete, s)
  else if data_len <? i + 2 then (LineTooLong (i + 2), s)
  else (LineRead (take (Z.to_nat (i + 1)) s), drop (Z.to_nat (i + 1)) s).

Lemma index_of_lt ch s : index_of ch s < zlen s \/ s = [].
Proof.
  unfold index_of. pose proof (span_app (fun x => negb (x =? ch)) s) as H.
  destruct (span _ s) as [a [|x b]]; simpl in H.
  - destruct s; [auto|left; pose proof (zlen_nonneg s); zlia].
  - left. rewrite <- H. pose proof (zlen_nonneg b). zlia.
Qed.

Lemma buf_get_line_spec g b data_len :
  buf_ok g b ->
  exists g' b', buf_get_line g b data_len = Ok (g', b', fst (line_spec (contents b) data_len))
    /\ becomes g b g' b' (snd (line_spec (contents b) data_len)).
Proof.
  intros Hok. unfold buf_get_line. rewrite (buf_find_offset_spec g) by done. unfold line_spec.
  destruct (head b) eqn:E.
  { assert (contents b = []) as Hc by (unfold contents; by rewrite E).
    pose proof (becomes_refl g b Hok) as Hb. rewrite Hc in Hb |- *. simpl. eauto. }
  simpl. destruct (Z.ltb_spec (index_of 10 (contents b)) 0) as [Hi|Hi].
  { do 2 eexists. split; [done|]. by apply becomes_refl. }
  destruct (Z.ltb_spec data_len (index_of 10 (contents b) + 2)) as [Hd|Hd].
  { do 2 eexists. split; [done|]. by apply becomes_refl. }
  destruct (buf_get_bytes_spec g b (index_of 10 (contents b) + 1) Hok) as (g' & b' & -> & Hb).
  { destruct (index_of_lt 10 (contents b)) as [?|Hnil]; [lia|]. rewrite Hnil in Hi. exfalso. by apply Hi. }
  simpl. eauto.
Qed.

(** ** The consistency check and the prefix test *)

Lemma assert_chain_spec l : forall tl total,
  Forall chunk_ok l -> (l <> [] -> tl = option_map ch_id (list.last l)) -> 
  zlen (chain_contents l) <= BUF_MAX_LEN ->
  assert_chain l tl total = Ok (total + zlen (chain_contents l)).
Proof.
  induction l as [|c l IH]; intros tl total Hok Htl Hm.
  - simpl. f_equal. change (zlen (chain_contents [])) with 0. lia.
  - apply Forall_cons_iff in Hok as [Hc Hok]. rewrite contents_cons, zlen_app, chunk_data_len in * by done.
    pose proof (zlen_nonneg (chain_contents l)). destruct Hc as [C1 C2 C3 C4]. cbn [assert_chain].
    rewrite !(proj2 (Z.leb_le _ _)) by lia.
    assert (match l with [] => bool_decide (tl = Some (ch_id c)) | _ => true end = true) as ->.
    { destruct l; [|done]. rewrite Htl by done. by apply bool_decide_eq_true. }
    rewrite IH; [f_equal; lia|done| |lia]. intros Hl. rewrite Htl by done. by destruct l.
Qed.

Lemma buf_assert_ok_spec g b : buf_ok g b -> buf_assert_ok b = Ok tt.
Proof.
  intros Hok. pose proof (bo_len _ _ Hok) as Hl. unfold buf_assert_ok.
  destruct (head b) as [|c l] eqn:E.
  - rewrite (buf_ok_empty _ _ Hok E). unfold contents in Hl. rewrite E in Hl.
    by rewrite (proj2 (Z.eqb_eq _ _)).
  - rewrite <- E. pose proof (bo_tail _ _ Hok) as Ht.
    rewrite (assert_chain_spec (head b) (tail b) 0) by
      first [apply (bo_chunks _ _ Hok) | done | fold (contents b); rewrite <- Hl; apply (bo_max _ _ Hok)].
    fold (contents b). cbn [cbind]. rewrite (proj2 (Z.eqb_eq _ _)) by lia.
    rewrite Ht, E. by destruct (list.last (c :: l)) eqn:El; [|apply last_None in El].
Qed.

Lemma buf_peek_startswith_spec g b cmd :
  buf_ok g b -> zlen cmd <= PEEK_BUF_STARTSWITH_MAX ->
  buf_peek_startswith b cmd = Ok (prefix_of cmd (contents b)).
Proof.
  intros Hok Hc. pose proof (bo_len _ _ Hok) as Hl. unfold buf_peek_startswith.
  destruct (Z.eqb_spec (zlen cmd) 0) as [Hz|Hz]; [by destruct cmd|].
  rewrite (proj2 (Z.ltb_ge _ _)) by done. pose proof (zlen_nonneg cmd).
  destruct (Z.ltb_spec (b_datalen b) (zlen cmd)) as [Hd|Hd].
  - f_equal. symmetry. apply not_true_iff_false. intros (r & E)%prefix_of_spec.
    rewrite E in Hl. pose proof (zlen_nonneg r). zlia.
  - rewrite (buf_peek_spec g) by (done || lia). cbn [cbind]. f_equal. unfold zlen. rewrite Nat2Z.id.
    assert (length cmd <= length (contents b))%nat as Hle by (unfold zlen in *; lia). revert Hle.
    generalize (contents b). clear. induction cmd as [|x cmd IH]; intros [|y s] Hle; simpl in *; try done; try lia.
    destruct (Z.eqb_spec y x) as [->|Hne]; [rewrite Z.eqb_refl; apply IH; lia|].
    rewrite (proj2 (Z.eqb_neq x y)) by congruence. blia.
Qed.

(** ** Finding a string

    A position stands for the bytes from it to the end of the chain.  The search
    follows [next] when it reaches the end of a chunk, so it needs chunks that
    are not empty. *)

Definition pos_bytes (p : buf_pos_t) : bytes := drop (Z.to_nat (pos p)) (chain_contents (pos_chain p)).
Definition pos_abs (p : buf_pos_t) : Z := chunk_pos p + pos p.

Definition chunk_full (c : chunk_t) : Prop := chunk_ok c /\ 0 < datalen c.

Record pos_ok (p : buf_pos_t) : Prop := mk_pos_ok {
  pk_chain : Forall chunk_full (pos_chain p);
  pk_pos : match pos_chain p with [] => pos p = 0 | c :: _ => 0 <= pos p < datalen c end;
  pk_abs : 0 <= chunk_pos p;
  pk_max : pos_abs p + zlen (pos_bytes p) <= BUF_MAX_LEN
}.

Lemma pos_bytes_nil i cp : pos_bytes (mkpos [] i cp) = [].
Proof. apply drop_nil. Qed.

Lemma pos_bytes_cons c next i cp :
  chunk_ok c -> 0 <= i <= datalen c ->
  pos_bytes (mkpos (c :: next) i cp) = drop (Z.to_nat i) (chunk_data c) ++ chain_contents next.
Proof.
  intros Hc Hi. unfold pos_bytes. simpl. rewrite contents_cons.
  pose proof (chunk_data_len c Hc) as Hd. unfold zlen in Hd. by rewrite drop_app_le by lia.
Qed.

(** The region that [memchr] looks at, and the byte under the cursor. *)
Lemma region_eq c i :
  chunk_ok c -> 0 <= i <= datalen c ->
  take (Z.to_nat (datalen c - i)) (drop (Z.to_nat (data_off c + i)) (mem c)) = drop (Z.to_nat i) (chunk_data c).
Proof.
  intros [C1 C2 C3 C4] Hi. unfold chunk_data. rewrite skipn_firstn_comm, drop_drop. f_equal; [lia|f_equal; lia].
Qed.

Lemma cursor_byte c i :
  chunk_ok c -> 0 <= i < datalen c ->
  exists x, aget (mem c) (data_off c + i) = Ok x
            /\ drop (Z.to_nat i) (chunk_data c) = x :: drop (Z.to_nat (i + 1)) (chunk_data c).
Proof.
  intros Hc Hi. pose proof (chunk_data_len c Hc) as Hd.
  destruct (lookup_lt_is_Some_2 (chunk_data c) (Z.to_nat i)) as [x Hx]; [unfold zlen in Hd; lia|].
  exists x. split.
  - apply aget_Ok. destruct Hc as [C1 C2 C3 C4]. split; [lia|]. unfold chunk_data in Hx.
    rewrite lookup_take_Some in Hx. destruct Hx as [Hx _]. rewrite lookup_drop in Hx.
    rewrite <- Hx. f_equal. lia.
  - apply drop_S in Hx. rewrite Hx. do 2 f_equal. lia.
Qed.

(** Advancing by one byte. *)
Lemma buf_pos_inc_spec p x s :
  pos_ok p -> pos_bytes p = x :: s ->
  match s with
  | [] => buf_pos_inc p = Ok None
  | _ => exists q, buf_pos_inc p = Ok (Some q) /\ pos_ok q /\ pos_bytes q = s /\ pos_abs q = pos_abs p + 1
  end.
Proof.
  destruct p as [[|c next] i cp]; intros [K1 K2 K3 K4] E; simpl in *.
  { by rewrite pos_bytes_nil in E. }
  apply Forall_cons_iff in K1 as [[Hc Hl] K1]. unfold pos_abs in *. simpl in *.
  rewrite E, zlen_cons in K4. pose proof (zlen_nonneg s).
  rewrite pos_bytes_cons in E by (done || lia). destruct (cursor_byte c i Hc K2) as (y & _ & Hy).
  rewrite Hy in E. injection E as -> E. unfold buf_pos_inc. simpl.
  rewrite (proj2 (Z.ltb_lt _ _)) by lia.
  destruct (Z.eqb_spec (i + 1) (datalen c)) as [Hi|Hi].
  - rewrite Hi, drop_ge in E by (pose proof (chunk_data_len c Hc) as Hd; unfold zlen in Hd; lia).
    simpl in E. destruct next as [|c2 next]; [by subst s|]. subst s.
    apply Forall_cons_iff in K1 as K1'. destruct K1' as [[Hc2 Hl2] _].
    destruct (chain_contents (c2 :: next)) eqn:Ec.
    { exfalso. rewrite contents_cons in Ec. apply app_eq_nil in Ec as [Ec _].
      pose proof (chunk_data_len c2 Hc2) as Hd. rewrite Ec in Hd. rewrite zlen_nil in Hd. lia. }
    eexists. split; [done|]. split_and!; [split|done|unfold pos_abs; simpl; lia]; simpl; try done; try lia.
    unfold pos_abs, pos_bytes. simpl. rewrite Ec. change (drop (Z.to_nat 0) (z :: l)) with (z :: l). lia.
  - assert (Hne : s <> []).
    { intros ->. apply app_eq_nil in E as [E _]. pose proof (chunk_data_len c Hc) as Hd.
      assert (Hz : zlen (drop (Z.to_nat (i + 1)) (chunk_data c)) = datalen c - (i + 1))
        by (rewrite zlen_drop_le; lia).
      rewrite E in Hz. change (zlen []) with 0 in Hz. lia. }
    assert (Hb : pos_bytes (mkpos (c :: next) (i + 1) cp) = s) by (rewrite pos_bytes_cons by (done || lia); done).
    destruct s; [done|]. eexists. split; [done|]. split_and!; [split|done|unfold pos_abs; simpl; lia]; simpl; try done; try lia.
    + by constructor.
    + rewrite Hb. unfold pos_abs. simpl. lia.
Qed.

Lemma buf_matches_at_pos_spec s : forall p,
  pos_ok p -> pos_bytes p <> [] -> buf_matches_at_pos p s = Ok (prefix_of s (pos_bytes p)).
Proof.
  induction s as [|c s IH]; intros p Hp Hne; [done|].
  destruct (pos_bytes p) as [|x r] eqn:E; [done|]. pose proof (buf_pos_inc_spec p x r Hp E) as Hinc.
  destruct p as [[|k next] i cp]; [by rewrite pos_bytes_nil in E|].
  destruct Hp as [K1 K2 K3 K4]. simpl in *. apply Forall_cons_iff in K1 as [[Hc Hl] K1].
  destruct (cursor_byte k i Hc K2) as (y & Ha & Hy). rewrite pos_bytes_cons, Hy in E by (done || lia).
  injection E as -> E. rewrite Ha. cbn [cbind]. rewrite Z.eqb_sym.
  destruct (Z.eqb_spec c x) as [->|]; simpl; [|done]. destruct s as [|c' s]; [done|].
  destruct r as [|x' r]; [by rewrite Hinc|]. destruct Hinc as (q & -> & Hq & Hqb & _). cbn [cbind].
  rewrite IH; [by rewrite Hqb|done|by rewrite Hqb].
Qed.

Lemma find_pos_loop_spec ch chain : forall p cp,
  pos_ok (mkpos chain p cp) ->
  match span (fun x => negb (x =? ch)) (pos_bytes (mkpos chain p cp)) with
  | (_, []) => find_pos_loop ch chain p cp = Ok None
  | (a, r) => exists q, find_pos_loop ch chain p cp = Ok (Some q) /\ pos_ok q /\ pos_bytes q = r
                        /\ pos_abs q = cp + p + zlen a
  end.
Proof.
  induction chain as [|c next IH]; intros p cp Hp; [by rewrite pos_bytes_nil|].
  destruct Hp as [K1 K2 K3 K4]. simpl in *. apply Forall_cons_iff in K1 as [[Hc Hl] K1].
  rewrite pos_bytes_cons in * by (done || lia). rewrite region_eq by (done || lia).
  rewrite memchr_span, span_append. unfold pos_abs in K4. simpl in K4. rewrite zlen_app, zlen_drop_le in K4
    by (rewrite chunk_data_len by done; lia). rewrite chunk_data_len in K4 by done.
  pose proof (zlen_nonneg (chain_contents next)).
  pose proof (span_app (fun x => negb (x =? ch)) (drop (Z.to_nat p) (chunk_data c))) as Happ.
  assert (Hlen : zlen (drop (Z.to_nat p) (chunk_data c)) = datalen c - p).
  { rewrite zlen_drop_le; rewrite chunk_data_len by done; lia. }
  destruct (span _ (drop _ _)) as [a [|x b]]; simpl in Happ.
  - assert (Hok : pos_ok (mkpos next 0 (cp + datalen c))).
    { split; simpl; [done| |lia|].
      - destruct next as [|c2 next]; [done|]. apply Forall_cons_iff in K1 as [[Hc2 Hl2] _]. lia.
      - unfold pos_abs, pos_bytes. simpl. change (Z.to_nat 0) with 0%nat. rewrite drop_0. lia. }
    specialize (IH 0 (cp + datalen c) Hok). unfold pos_bytes in IH. simpl in IH.
    change (Z.to_nat 0) with 0%nat in IH. rewrite drop_0 in IH.
    destruct (span _ (chain_contents next)) as [a' [|x b]]; simpl; [done|].
    destruct IH as (q & Eq & Hq & Hqb & Hqa). exists q. split_and!; try done. rewrite Hqa, zlen_app, Hlen. lia.
  - rewrite Hlen. pose proof (zlen_nonneg a). pose proof (zlen_nonneg b).
    assert (Hab : zlen a + (zlen b + 1) = datalen c - p) by (rewrite <- Happ in Hlen; autorewrite with zlen in Hlen; lia).
    rewrite zlen_cons. replace (p + (datalen c - p - (zlen b + 1))) with (p + zlen a) by lia.
    rewrite (proj2 (Z.leb_le _ _)) by lia.
    assert (Hpb : pos_bytes (mkpos (c :: next) (p + zlen a) cp) = (x :: b) ++ chain_contents next).
    { rewrite pos_bytes_cons by (done || lia). f_equal.
      replace (Z.to_nat (p + zlen a)) with (Z.to_nat p + length a)%nat by (unfold zlen in *; lia).
      rewrite <- drop_drop, <- Happ. by rewrite drop_app_length. }
    eexists. split; [done|]. split_and!; [split| |]; simpl; try done; try lia.
    + constructor; [by split|done].
    + rewrite Hpb. unfold pos_abs. simpl. rewrite zlen_cons, zlen_app. lia.
    + unfold pos_abs. simpl. lia.
Qed.

Lemma buf_find_pos_spec ch p :
  pos_ok p ->
  match span (fun x => negb (x =? ch)) (pos_bytes p) with
  | (_, []) => buf_find_pos_of_char ch p = Ok None
  | (a, r) => exists q, buf_find_pos_of_char ch p = Ok (Some q) /\ pos_ok q /\ pos_bytes q = r
                        /\ pos_abs q = pos_abs p + zlen a
  end.
Proof.
  intros Hp. unfold buf_find_pos_of_char. destruct p as [chain i cp].
  assert (match chain with
          | [] => true
          | c :: _ => if negb (datalen c =? 0) then i <? datalen c else i =? 0
          end = true) as Ha.
  { destruct Hp as [K1 K2 K3 K4]. simpl in *. destruct chain as [|c next]; [done|].
    apply Forall_cons_iff in K1 as [[Hc Hl] K1]. rewrite (proj2 (Z.eqb_neq _ _)) by lia. simpl. blia. }
  simpl. rewrite Ha. by apply find_pos_loop_spec.
Qed.

Lemma strstr_skip a r c s :
  Forall (fun x => negb (x =? c) = true) a ->
  strstr (a ++ r) (c :: s) = match strstr r (c :: s) with Some (a', b) => Some (a ++ a', b) | None => None end.
Proof.
  induction 1 as [|x a Hx Ha IH]; [cbn [app]; by destruct (strstr r (c :: s)) as [[? ?]|]|].
  apply negb_true_iff in Hx. rewrite Z.eqb_sym in Hx. cbn [app strstr prefix_of]. rewrite Hx. cbn [andb].
  rewrite IH. by destruct (strstr r (c :: s)) as [[? ?]|].
Qed.

Lemma strstr_nil c s : strstr [] (c :: s) = None.
Proof. done. Qed.

(** The position found by the search, relative to [base]. *)
Definition strstr_offset (base : Z) (h n : bytes) : Z :=
  match strstr h n with Some (a, _) => base + zlen a | None => -1 end.

Lemma find_string_loop_spec fuel : forall p c s,
  (length (pos_bytes p) < fuel)%nat -> pos_ok p ->
  find_string_loop fuel p (c :: s) = Ok (strstr_offset (pos_abs p) (pos_bytes p) (c :: s)).
Proof.
  induction fuel as [|fuel IH]; intros p c s Hf Hp; [lia|]. cbn [find_string_loop].
  change (cur (c :: s)) with c. pose proof (buf_find_pos_spec c p Hp) as Hfind.
  pose proof (span_app (fun x => negb (x =? c)) (pos_bytes p)) as Happ.
  pose proof (span_prefix (fun x => negb (x =? c)) (pos_bytes p)) as Hpre.
  destruct (span _ (pos_bytes p)) as [a [|x r]]; simpl in Happ, Hpre.
  - rewrite Hfind. simpl. unfold strstr_offset. rewrite <- Happ, strstr_skip, strstr_nil by done. done.
  - destruct Hfind as (q & -> & Hq & Hqb & Hqa). cbn [cbind].
    rewrite buf_matches_at_pos_spec by (done || by rewrite Hqb). cbn [cbind]. rewrite Hqb.
    unfold strstr_offset. rewrite <- Happ, strstr_skip by done.
    destruct (prefix_of (c :: s) (x :: r)) eqn:Epre.
    + cbn [strstr]. rewrite Epre. pose proof (pk_max _ Hq) as Hm. rewrite Hqb in Hm. unfold pos_abs in Hm, Hqa.
      pose proof (zlen_nonneg (x :: r)). rewrite (proj2 (Z.leb_le _ _)) by lia. rewrite Hqa, app_nil_r. done.
    + pose proof (buf_pos_inc_spec q x r Hq Hqb) as Hinc. cbn [strstr]. rewrite Epre.
      destruct r as [|y r]; [by rewrite Hinc|]. destruct Hinc as (q' & -> & Hq' & Hqb' & Hqa'). cbn [cbind].
      rewrite IH; [|rewrite Hqb'; rewrite <- Happ, length_app in Hf; cbn [length] in *; lia|done].
      unfold strstr_offset. rewrite Hqb'. destruct (strstr (y :: r) (c :: s)) as [[a' b']|]; [|done].
      f_equal. autorewrite with zlen. lia.
Qed.

Lemma buf_find_string_spec g b c s :
  buf_ok g b -> Forall (fun k => 0 < datalen k) (head b) ->
  buf_find_string_offset b (c :: s) = Ok (strstr_offset 0 (contents b) (c :: s)).
Proof.
  intros Hok Hne. pose proof (bo_len _ _ Hok) as Hl. pose proof (bo_max _ _ Hok) as Hm.
  assert (Hb : pos_bytes (buf_pos_init b) = contents b) by done.
  unfold buf_find_string_offset. rewrite find_string_loop_spec; [by rewrite Hb| |].
  - rewrite Hb, Hl. unfold zlen. lia.
  - assert (Hf : Forall chunk_full (head b)).
    { pose proof (bo_chunks _ _ Hok) as Hc. rewrite List.Forall_forall in *. intros k Hk. split; auto. }
    split; simpl; [done| |lia|rewrite Hb; unfold pos_abs; simpl; lia].
    destruct (head b) as [|k l]; [done|]. apply Forall_cons_iff in Hf as [[_ Hk] _]. lia.
Qed.

Lemma buf_free_spec g b :
  buf_ok g b -> exists g', buf_free_ g b = Ok g' /\ evolves g (head b) g' [].
Proof.
  intros Hok. unfold buf_free_, buf_clear. rewrite free_chunks_spec by (apply Hok). simpl.
  eexists. split; [done|]. split; simpl; [lia|lia|constructor].
Qed.

(** Replacing a buffer by a copy of another one. *)
Lemma buf_set_to_copy_spec g out inb :
  pair_ok g out inb ->
  exists g' out', buf_set_to_copy g (Some out) inb = Ok (g', out')
    /\ buf_ok g' out' /\ contents out' = contents inb /\ evolves g (head out) g' (head out').
Proof.
  intros [H1 H2 H3 H4]. unfold buf_set_to_copy. destruct (buf_free_spec g out H1) as (g1 & -> & He). cbn [cbind].
  assert (Hin : buf_ok g1 inb).
  { eapply buf_ok_frame; [exact He|done|]. pose proof (ev_total _ _ _ _ He) as Ht. simpl in Ht.
    rewrite chain_alloc_app in H4. lia. }
  destruct (buf_copy_spec g1 inb Hin) as (g2 & out2 & -> & Hok & Hc & _ & He2).
  do 2 eexists. split; [done|]. split_and!; try done. by eapply evolves_trans.
Qed.

Lemma buf_move_to_buf_full g out inb flushlen :
  buf_ok g out -> BUF_MAX_LEN < zlen (contents out) + flushlen -> buf_move_to_buf g out inb flushlen = Err.
Proof.
  intros H Hm. pose proof (bo_len _ _ H). unfold buf_move_to_buf. destruct (_ || _); [done|].
  by rewrite (proj2 (Z.ltb_lt _ _)) by lia.
Qed.

(** A string that is longer than a buffer may ever be passes the length check,
    whose subtraction wraps around. *)
Lemma add_guard_wraps b (s : bytes) :
  BUF_MAX_LEN < zlen s <= SIZE_MAX -> b_datalen b <= BUF_MAX_LEN -> (u64 (BUF_MAX_LEN - zlen s) <? b_datalen b) = false.
Proof.
  intros Hs Hb. apply Z.ltb_ge. unfold u64.
  rewrite <- (Z_mod_plus_full _ 1), Z.mod_small; unfold BUF_MAX_LEN, INT_MAX, SIZE_MAX in *; lia.
Qed.

(** None of the functions that allocate takes an error path. *)
Lemma preferred_loop_no_err fuel sz target : preferred_loop fuel sz target <> Err.
Proof. revert sz. induction fuel as [|fuel IH]; intros sz; simpl; [done|]. by destruct (_ <? _). Qed.

Lemma add_chunk_no_err g b n capped : buf_add_chunk_with_capacity g b n capped <> Err.
Proof.
  assert (Hnew : forall g a, chunk_new_with_alloc_size g a <> Err).
  { intros g' a. unfold chunk_new_with_alloc_size, CHUNK_SET_SENTINEL. by destruct (_ =? _). }
  assert (Hset : forall id l k, set_next id l k <> Err).
  { intros id l k. induction l as [|c l IH]; simpl; [done|]. destruct (_ =? _); [done|]. by destruct (set_next id l k). }
  unfold buf_add_chunk_with_capacity.
  assert (Hsz : buf_preferred_chunk_size n <> Err).
  { unfold buf_preferred_chunk_size. destruct (_ <=? _); [|done]. destruct (_ <=? _); [done|]. apply preferred_loop_no_err. }
  destruct (if _ <? _ then _ else _) as [[g' c]| | |] eqn:E; simpl; try done.
  - destruct (tail b) as [t|]; destruct (head b) as [|c0 l0]; try done. by destruct (set_next _ _ _) eqn:E2; [|apply Hset in E2|..].
  - exfalso. destruct (_ <? _); [by apply Hnew in E|]. destruct (_ && _); [by apply Hnew in E|].
    destruct (buf_preferred_chunk_size n); simpl in E; try done. by apply Hnew in E.
Qed.

Lemma add_chunk_datalen g b n capped g' b' :
  buf_add_chunk_with_capacity g b n capped = Ok (g', b') -> b_datalen b' = b_datalen b.
Proof.
  unfold buf_add_chunk_with_capacity. intros ([g1 c] & _ & E)%cbind_Ok.
  destruct (tail b) as [t|]; destruct (head b) as [|c0 l0]; try done.
  - apply cbind_Ok in E as (chain & _ & E). by injection E as <- <-.
  - by injection E as <- <-.
Qed.

Lemma find_chunk_no_err id l : find_chunk id l <> Err.
Proof. induction l as [|c l IH]; simpl; [done|]. by destruct (_ =? _). Qed.

(** One turn of the loop never takes an error path and counts the bytes it writes. *)
Lemma add_loop_counts fuel : forall g b s,
  match add_loop fuel g b s with
  | Ok (_, b') => b_datalen b' = b_datalen b + zlen s
  | Err => False
  | _ => True
  end.
Proof.
  induction fuel as [|fuel IH]; intros g b s; [done|]. cbn [add_loop].
  destruct (Z.eqb_spec (zlen s) 0) as [->|Hz]; [lia|].
  destruct (needs_chunk b) as [need| | |] eqn:En; cbn [cbind]; try done.
  2:{ unfold needs_chunk in En. destruct (tail b); [|done]. destruct (find_chunk _ _) eqn:Ef; try done.
      by apply find_chunk_no_err in Ef. }
  destruct (if need then _ else _) as [[g1 b1]| | |] eqn:E1; cbn [cbind]; try done.
  2:{ destruct need; [by apply add_chunk_no_err in E1|done]. }
  assert (Hb1 : b_datalen b1 = b_datalen b).
  { destruct need; [by eapply add_chunk_datalen|by injection E1 as <- <-]. }
  destruct (tail_chunk b1) as [t| | |] eqn:Et; cbn [cbind]; try done.
  2:{ unfold tail_chunk in Et. destruct (tail b1); [by apply find_chunk_no_err in Et|done]. }
  set (copy := if zlen s <? CHUNK_REMAINING_CAPACITY t then zlen s else CHUNK_REMAINING_CAPACITY t).
  unfold chunk_write. destruct (Z.leb_spec (data_off t + datalen t + zlen (take (Z.to_nat copy) s)) (memlen t)) as [Hw|];
    cbn [cbind]; [|done].
  assert (Hcopy : 0 <= copy <= zlen s).
  { pose proof (zlen_nonneg (take (Z.to_nat copy) s)). pose proof (zlen_nonneg s).
    unfold copy, CHUNK_REMAINING_CAPACITY in *. destruct (Z.ltb_spec (zlen s) (memlen t - (data_off t + datalen t))); lia. }
  match goal with |- context [add_loop fuel ?g ?b ?s] => specialize (IH g b s); destruct (add_loop fuel g b s) as [[g2 b2]| | |] end;
    try done.
  simpl in IH. rewrite IH, Hb1, zlen_drop_le by lia. lia.
Qed.

Lemma add_chunk_no_fuel g b n :
  0 < n -> CHUNK_OVERHEAD < default_chunk_size b < SIZE_T_CEILING -> buf_add_chunk_with_capacity g b n true <> Fuel.
Proof.
  intros Hn Hd. unfold buf_add_chunk_with_capacity.
  destruct (new_chunk_size b n true Hn (or_introl eq_refl) Hd) as (alloc & Hal & _ & ->).
  destruct (chunk_new_spec g alloc Hal) as (c & -> & _). cbn [cbind].
  assert (Hset : forall id l k, set_next id l k <> Fuel).
  { intros id l k. induction l as [|x l IH]; simpl; [done|]. destruct (_ =? _); [done|]. by destruct (set_next id l k). }
  destruct (tail b) as [t|]; destruct (head b) as [|c0 l0]; try done.
  by destruct (set_next _ _ _) eqn:E2; [| | |apply Hset in E2].
Qed.

(** Every turn of the loop makes progress, also past [BUF_MAX_LEN]. *)
Lemma set_next_fresh id l c r :
  set_next id l [c] = Ok r -> ch_id c ∉ ids l ->
  find_chunk (ch_id c) r = Ok c /\ forall x, In x r -> In x l \/ x = c.
Proof.
  revert r. induction l as [|x l IH]; intros r E Hn; [done|]. apply not_elem_of_cons in Hn as [Hn1 Hn2]. simpl in E.
  assert (Hx : (ch_id x =? ch_id c) = false) by (apply Z.eqb_neq; congruence).
  destruct (ch_id x =? id).
  - injection E as <-. simpl. rewrite Hx, Z.eqb_refl. split; [done|]. intros y [->|[->|[]]]; auto.
  - apply cbind_Ok in E as (r' & E & Er). injection Er as <-. destruct (IH r' E Hn2) as [H1 H2].
    simpl. rewrite Hx. split; [done|]. intros y [->|Hy]; [auto|]. destruct (H2 y Hy); auto.
Qed.

Lemma add_chunk_progress g b n g' b' :
  0 < n -> Forall (fun c => ch_id c < next_addr g) (head b) -> CHUNK_OVERHEAD < default_chunk_size b < SIZE_T_CEILING ->
  buf_add_chunk_with_capacity g b n true = Ok (g', b') ->
  Forall (fun c => ch_id c < next_addr g') (head b') /\ default_chunk_size b' = default_chunk_size b
  /\ exists c, tail_chunk b' = Ok c /\ 0 < CHUNK_REMAINING_CAPACITY c.
Proof.
  intros Hn Ha Hd. unfold buf_add_chunk_with_capacity.
  destruct (new_chunk_size b n true Hn (or_introl eq_refl) Hd) as (alloc & Hal & _ & ->).
  destruct (chunk_new_spec g alloc Hal) as (c & -> & Hco & Hcd & Hid & Hml & Hdl & Hoff). cbn [cbind].
  set (c' := mkchunk (ch_id c) (datalen c) (DBG_alloc c) (data_off c) _ (mem c)).
  assert (Hr : 0 < CHUNK_REMAINING_CAPACITY c').
  { unfold CHUNK_REMAINING_CAPACITY, memlen in *. simpl. lia. }
  assert (Hf : ch_id c' ∉ ids (head b)) by (change (ch_id c') with (ch_id c); rewrite Hid; by apply ids_fresh).
  destruct (tail b) as [t|]; intros E.
  - destruct (match head b with [] => false | _ => true end); [|done]. apply cbind_Ok in E as (chain & E1 & E).
    injection E as <- <-. apply set_next_fresh in E1 as [E1 E2]; [|done]. simpl. split_and!; [|done|by exists c'].
    rewrite List.Forall_forall in *. intros x Hx. destruct (E2 x Hx) as [Hx'| ->]; [specialize (Ha x Hx'); simpl; lia|simpl; lia].
  - destruct (match head b with [] => true | _ => false end); [|done]. injection E as <- <-. simpl.
    split_and!; [constructor; [simpl; lia|constructor]|done|].
    exists c'. split; [|done]. unfold tail_chunk. simpl. by rewrite Z.eqb_refl.
Qed.

Lemma upd_chunk_ids l id c : ch_id c = id -> ids (upd_chunk id c l) = ids l.
Proof.
  intros Hc. induction l as [|x l IH]; simpl; [done|]. destruct (Z.eqb_spec (ch_id x) id) as [E|E]; simpl; [congruence|].
  f_equal. apply IH.
Qed.

Lemma find_chunk_id id l c : find_chunk id l = Ok c -> ch_id c = id.
Proof.
  induction l as [|x l IH]; simpl; [done|]. destruct (Z.eqb_spec (ch_id x) id) as [E|E]; [congruence|auto].
Qed.

Lemma ids_bound l k m : ids l = ids k -> Forall (fun c => ch_id c < m) k -> Forall (fun c => ch_id c < m) l.
Proof. intros E H. apply (Forall_map ch_id (fun i => i < m)). fold (ids l). rewrite E. by apply Forall_map. Qed.

Lemma needs_chunk_no_fuel b : needs_chunk b <> Fuel.
Proof.
  unfold needs_chunk. destruct (tail b) as [t|]; [|done]. induction (head b) as [|c l IH]; simpl; [done|].
  by destruct (_ =? _).
Qed.

Lemma add_loop_progress fuel : forall g b s,
  (length s < fuel)%nat -> Forall (fun c => ch_id c < next_addr g) (head b) ->
  CHUNK_OVERHEAD < default_chunk_size b < SIZE_T_CEILING -> add_loop fuel g b s <> Fuel.
Proof.
  induction fuel as [|fuel IH]; intros g b s Hf Ha Hd; [lia|]. cbn [add_loop].
  destruct (Z.eqb_spec (zlen s) 0) as [Hz|Hz]; [done|].
  assert (Hpos : 0 < zlen s) by (pose proof (zlen_nonneg s); lia).
  assert (Hroom : forall g1 b1 t, Forall (fun c => ch_id c < next_addr g1) (head b1) ->
    CHUNK_OVERHEAD < default_chunk_size b1 < SIZE_T_CEILING -> tail_chunk b1 = Ok t -> CHUNK_REMAINING_CAPACITY t <> 0 ->
    let copy := if zlen s <? CHUNK_REMAINING_CAPACITY t then zlen s else CHUNK_REMAINING_CAPACITY t in
    (let* t' := chunk_write t (take (Z.to_nat copy) s) in
     add_loop fuel g1 (mkbuf (b_datalen b1 + copy) (default_chunk_size b1) (upd_chunk (ch_id t) t' (head b1)) (tail b1))
       (drop (Z.to_nat copy) s)) <> Fuel).
  { intros g1 b1 t Ha1 Hd1 Ht Hr copy. pose proof (zlen_nonneg (take (Z.to_nat copy) s)). pose proof (zlen_nonneg s).
    unfold chunk_write. destruct (Z.leb_spec (data_off t + datalen t + zlen (take (Z.to_nat copy) s)) (memlen t)) as [Hw|];
      cbn [cbind]; [|done].
    assert (0 < copy).
    { unfold copy, CHUNK_REMAINING_CAPACITY in *. destruct (Z.ltb_spec (zlen s) (memlen t - (data_off t + datalen t))); lia. }
    apply IH; [rewrite length_drop; unfold zlen in *; lia| |done]. simpl. eapply ids_bound; [|exact Ha1]. by apply upd_chunk_ids. }
  destruct (needs_chunk b) as [need| | |] eqn:En; cbn [cbind]; try done.
  2:{ by apply needs_chunk_no_fuel in En. }
  destruct need.
  - destruct (buf_add_chunk_with_capacity g b (zlen s) true) as [[g1 b1]| | |] eqn:E1; cbn [cbind]; try done.
    2:{ by apply add_chunk_no_fuel in E1. }
    destruct (add_chunk_progress _ _ _ _ _ Hpos Ha Hd E1) as (Ha1 & Hd1 & t & Ht & Hr).
    rewrite Ht. cbn [cbind]. apply Hroom; [done|by rewrite Hd1|done|lia].
  - cbn [cbind]. unfold needs_chunk in En. destruct (tail b) as [t|] eqn:Et; [|done].
    apply cbind_Ok in En as (c & Ec & En). injection En as En. boolp.
    assert (Ht : tail_chunk b = Ok c) by (unfold tail_chunk; by rewrite Et).
    rewrite Ht, <- Et. cbn [cbind]. by apply Hroom.
Qed.

End Buffers.
