(* ===== verification/BufQueue.v ===== *)
(** * Buffers as byte queues

    The contract of lib/buf/buffers.c, proved from the lemmas of [Buffers].  A
    [world] is the allocator with all live buffers; [exec] runs one call of the
    interface of buffers.h in it.  The specification of the same calls works on
    plain byte strings ([spec_pre], [spec_next], [spec_out]).  [world_ok] is the
    invariant of the whole world: every buffer is well formed, no chunk is shared,
    and [total_bytes_allocated_in_chunks] is the sum of the allocations. *)

From S2P Require Import Prelude DiOps UtilString Buffers.
From Stdlib Require Import ZArith String Permutation.
From stdpp Require Import base list numbers sets.
Open Scope Z_scope.

Definition world : Type := alloc_t * list buf_t.

(** The calls of buffers.h; a buffer is named by its index. *)
Inductive buf_op :=
| OpNew
| OpNewWithCapacity (size : Z)
| OpCopy (i : nat)
| OpSetToCopy (o i : nat)
| OpFree (i : nat)
| OpClear (i : nat)
| OpAddChunk (i : nat) (capacity : Z) (capped : bool)
| OpAdd (i : nat) (s : bytes)
| OpDrain (i : nat) (n : Z)
| OpPeek (i : nat) (n : Z)
| OpGetBytes (i : nat) (n : Z)
| OpExtract (i : nat)
| OpPullup (i : nat) (n : Z)
| OpGetLine (i : nat) (data_len : Z)
| OpStartsWith (i : nat) (cmd : bytes)
| OpMoveToBuf (o i : nat) (flushlen : Z)
| OpMoveAll (o i : nat).

Inductive buf_out :=
| OutUnit
| OutInt (z : Z)
| OutInt2 (z flushlen : Z)
| OutBytes (s : bytes)
| OutBool (b : bool)
| OutPull (r : option bytes)
| OutLine (r : line_result).

Section Queues.
Variable junk : Z.

Definition getb (bs : list buf_t) (i : nat) : cres buf_t :=
  match bs !! i with Some b => Ok b | None => Bug end.

(** One call.  The error return [-1] leaves the world as it is. *)
Definition exec (w : world) (op : buf_op) : cres (world * buf_out) :=
  let '(g, bs) := w in
  match op with
  | OpNew => Ok ((g, bs ++ [buf_new]), OutUnit)
  | OpNewWithCapacity size => let* b := buf_new_with_capacity size in Ok ((g, bs ++ [b]), OutUnit)
  | OpCopy i => let* b := getb bs i in let* (g, c) := buf_copy g b in Ok ((g, bs ++ [c]), OutUnit)
  | OpSetToCopy o i =>
      let* out := getb bs o in let* b := getb bs i in
      let* (g, out) := buf_set_to_copy g (Some out) b in
      Ok ((g, <[o := out]> bs), OutUnit)
  | OpFree i => let* b := getb bs i in let* g := buf_free_ g b in Ok ((g, delete i bs), OutUnit)
  | OpClear i => let* b := getb bs i in let* (g, b) := buf_clear g b in Ok ((g, <[i := b]> bs), OutUnit)
  | OpAddChunk i capacity capped =>
      let* b := getb bs i in
      let* (g, b) := buf_add_chunk_with_capacity junk g b capacity capped in
      Ok ((g, <[i := b]> bs), OutUnit)
  | OpAdd i s =>
      let* b := getb bs i in
      match buf_add junk g b s with
      | Ok (g, b, r) => Ok ((g, <[i := b]> bs), OutInt r)
      | Err => Ok ((g, bs), OutInt (-1))
      | Bug => Bug
      | Fuel => Fuel
      end
  | OpDrain i n => let* b := getb bs i in let* (g, b) := buf_drain g b n in Ok ((g, <[i := b]> bs), OutUnit)
  | OpPeek i n => let* b := getb bs i in let* s := buf_peek b n in Ok ((g, bs), OutBytes s)
  | OpGetBytes i n =>
      let* b := getb bs i in let* (g, b, s) := buf_get_bytes g b n in Ok ((g, <[i := b]> bs), OutBytes s)
  | OpExtract i => let* b := getb bs i in let* s := buf_extract b in Ok ((g, bs), OutBytes s)
  | OpPullup i n =>
      let* b := getb bs i in let* (g, b, r) := buf_pullup junk g b n in Ok ((g, <[i := b]> bs), OutPull r)
  | OpGetLine i n =>
      let* b := getb bs i in let* (g, b, r) := buf_get_line g b n in Ok ((g, <[i := b]> bs), OutLine r)
  | OpStartsWith i cmd => let* b := getb bs i in let* r := buf_peek_startswith b cmd in Ok ((g, bs), OutBool r)
  | OpMoveToBuf o i n =>
      let* out := getb bs o in let* b := getb bs i in
      match buf_move_to_buf junk g out b n with
      | Ok (g, out, b, len, flushlen) => Ok ((g, <[o := out]> (<[i := b]> bs)), OutInt2 len flushlen)
      | Err => Ok ((g, bs), OutInt2 (-1) n)
      | Bug => Bug
      | Fuel => Fuel
      end
  | OpMoveAll o i =>
      let* out := getb bs o in let* b := getb bs i in
      let* (out, b, n) := buf_move_all out b in
      Ok ((g, <[o := out]> (<[i := b]> bs)), OutInt n)
  end.

Fixpoint run (w : world) (ops : list buf_op) : cres (world * list buf_out) :=
  match ops with
  | [] => Ok (w, [])
  | op :: ops =>
      let* (w, o) := exec w op in
      let* (w, os) := run w ops in
      Ok (w, o :: os)
  end.

(** ** The specification *)

Definition has (qs : list bytes) (i : nat) : bool := bool_decide (i < length qs)%nat.
Definition q (qs : list bytes) (i : nat) : bytes := default [] (qs !! i).
Definition fits (n : Z) : bool := (0 <=? n) && (n <=? BUF_MAX_LEN).

(** When a call is allowed: the buffers exist, and what the code asserts. *)
Definition spec_pre (qs : list bytes) (op : buf_op) : bool :=
  match op with
  | OpNew => true
  | OpNewWithCapacity size => fits size
  | OpCopy i | OpFree i | OpClear i | OpExtract i | OpGetLine i _ => has qs i
  | OpSetToCopy o i | OpMoveAll o i => has qs o && has qs i && negb (Nat.eqb o i)
  | OpAddChunk i capacity _ => has qs i && (0 <? capacity) && fits capacity
  | OpAdd i s => has qs i && fits (zlen s)
  | OpDrain i n | OpPeek i n | OpGetBytes i n => has qs i && (0 <=? n) && (n <=? zlen (q qs i))
  | OpPullup i n => has qs i && (0 <=? n)
  | OpStartsWith i cmd => has qs i && (zlen cmd <=? PEEK_BUF_STARTSWITH_MAX)
  | OpMoveToBuf o i n => has qs o && has qs i && negb (Nat.eqb o i) && (0 <=? n)
  end.

(** How many bytes [buf_move_to_buf] moves. *)
Definition moved (qs : list bytes) (i : nat) (n : Z) : Z := Z.min n (zlen (q qs i)).

Definition spec_next (qs : list bytes) (op : buf_op) : list bytes :=
  match op with
  | OpNew | OpNewWithCapacity _ => qs ++ [[]]
  | OpCopy i => qs ++ [q qs i]
  | OpSetToCopy o i => <[o := q qs i]> qs
  | OpFree i => delete i qs
  | OpClear i => <[i := []]> qs
  | OpAdd i s => if BUF_MAX_LEN <? zlen (q qs i) + zlen s then qs else <[i := q qs i ++ s]> qs
  | OpDrain i n | OpGetBytes i n => <[i := drop (Z.to_nat n) (q qs i)]> qs
  | OpGetLine i n => <[i := snd (line_spec (q qs i) n)]> qs
  | OpAddChunk _ _ _ | OpPeek _ _ | OpExtract _ | OpPullup _ _ | OpStartsWith _ _ => qs
  | OpMoveToBuf o i n =>
      if BUF_MAX_LEN <? zlen (q qs o) + n then qs
      else <[o := q qs o ++ take (Z.to_nat (moved qs i n)) (q qs i)]>
             (<[i := drop (Z.to_nat (moved qs i n)) (q qs i)]> qs)
  | OpMoveAll o i =>
      if BUF_MAX_LEN <? zlen (q qs o) + zlen (q qs i) then qs
      else <[o := q qs o ++ q qs i]> (<[i := []]> qs)
  end.

Definition spec_out (qs : list bytes) (op : buf_op) (o : buf_out) : Prop :=
  match op with
  | OpNew | OpNewWithCapacity _ | OpCopy _ | OpSetToCopy _ _ | OpFree _ | OpClear _ | OpAddChunk _ _ _ | OpDrain _ _ =>
      o = OutUnit
  | OpAdd i s =>
      o = OutInt (if BUF_MAX_LEN <? zlen (q qs i) + zlen s then -1 else zlen (q qs i) + zlen s)
  | OpPeek i n | OpGetBytes i n => o = OutBytes (take (Z.to_nat n) (q qs i))
  | OpExtract i => o = OutBytes (q qs i)
  | OpPullup i n =>
      o = OutPull None /\ q qs i = []
      \/ exists d rest, o = OutPull (Some d) /\ q qs i = d ++ rest /\ Z.min n (zlen (q qs i)) <= zlen d
  | OpGetLine i n => o = OutLine (fst (line_spec (q qs i) n))
  | OpStartsWith i cmd => o = OutBool (prefix_of cmd (q qs i))
  | OpMoveToBuf o' i n =>
      o = if BUF_MAX_LEN <? zlen (q qs o') + n then OutInt2 (-1) n
          else OutInt2 (moved qs i n) (n - moved qs i n)
  | OpMoveAll o' i =>
      o = OutInt (if BUF_MAX_LEN <? zlen (q qs o') + zlen (q qs i) then 0 else zlen (q qs i))
  end.

(** A sequence of calls is allowed, the final strings, and the outputs. *)
Fixpoint spec_pre_all (qs : list bytes) (ops : list buf_op) : bool :=
  match ops with
  | [] => true
  | op :: ops => spec_pre qs op && spec_pre_all (spec_next qs op) ops
  end.

Fixpoint spec_out_all (qs : list bytes) (ops : list buf_op) (os : list buf_out) : Prop :=
  match ops, os with
  | [], [] => True
  | op :: ops, o :: os => spec_out qs op o /\ spec_out_all (spec_next qs op) ops os
  | _, _ => False
  end.

(** ** The invariant of the world *)

Definition chunks (bs : list buf_t) : list chunk_t := flat_map Buffers.head bs.

Record world_ok (g : alloc_t) (bs : list buf_t) : Prop := mk_world_ok {
  wo_bufs : Forall (buf_ok g) bs;
  wo_ids : NoDup (ids (chunks bs));
  wo_total : total_bytes_allocated_in_chunks g = chain_alloc (chunks bs)
}.

Definition abs (bs : list buf_t) : list bytes := map contents bs.

#[export] Instance chunks_Permutation : Proper (Permutation ==> Permutation) chunks.
Proof. intros l k H. by apply Permutation_flat_map. Qed.

Lemma chain_alloc_Permutation l k : Permutation l k -> chain_alloc l = chain_alloc k.
Proof. induction 1; simpl; lia. Qed.

(** The invariant does not depend on the order of the buffers. *)
#[export] Instance world_ok_Permutation g : Proper (Permutation ==> iff) (world_ok g).
Proof.
  assert (H : forall l k, Permutation l k -> world_ok g l -> world_ok g k).
  { intros l k H [W1 W2 W3]. split.
    - by rewrite <- H.
    - unfold ids in *. by rewrite <- H.
    - rewrite W3. apply chain_alloc_Permutation. by rewrite H. }
  intros l k Hp. split; [by apply H|by apply H].
Qed.

Lemma chunks_app l k : chunks (l ++ k) = chunks l ++ chunks k.
Proof. apply flat_map_app. Qed.

Lemma chain_alloc_in b bs : In b bs -> chain_alloc (Buffers.head b) <= chain_alloc (chunks bs).
Proof.
  induction bs as [|x bs IH]; intros Hin; [done|]. change (chunks (x :: bs)) with (Buffers.head x ++ chunks bs).
  rewrite chain_alloc_app. pose proof (chain_alloc_nonneg (Buffers.head x)). pose proof (chain_alloc_nonneg (chunks bs)).
  destruct Hin as [->|Hin]; [lia|]. specialize (IH Hin). lia.
Qed.

Lemma chunks_addr g bs : Forall (buf_ok g) bs -> Forall (fun c => ch_id c < next_addr g) (chunks bs).
Proof.
  induction 1 as [|b bs Hb Hbs IH]; [constructor|]. apply Forall_app. split; [apply (bo_addr _ _ Hb)|done].
Qed.

(** Some buffers change, the others keep their place in the world. *)
Lemma world_frame g ms rest g' ms' :
  world_ok g (ms ++ rest) -> Forall (buf_ok g') ms' -> NoDup (ids (chunks ms')) ->
  evolves g (chunks ms) g' (chunks ms') -> world_ok g' (ms' ++ rest).
Proof.
  intros [W1 W2 W3] Hms Hn He. apply Forall_app in W1 as [W1 W1'].
  rewrite chunks_app, chain_alloc_app in W3. pose proof (ev_total _ _ _ _ He) as Ht.
  pose proof (chain_alloc_nonneg (chunks ms')). split.
  - apply Forall_app. split; [done|]. rewrite List.Forall_forall in *. intros b Hb.
    eapply buf_ok_frame; [exact He|auto|]. pose proof (chain_alloc_in b rest Hb). lia.
  - rewrite chunks_app in *. eapply evolves_notin; [exact He|done|done|by apply chunks_addr].
  - rewrite chunks_app, chain_alloc_app. lia.
Qed.

(** Updating one or two places of a list. *)
Lemma insert_perm {A} (l : list A) i : (i < length l)%nat -> exists r, forall x, Permutation (<[i := x]> l) (x :: r).
Proof.
  revert i. induction l as [|a l IH]; intros i Hi; simpl in *; [lia|].
  destruct i as [|i]; [by exists l|]. destruct (IH i) as [r Hr]; [lia|].
  exists (a :: r). intros x. simpl. rewrite Hr. constructor.
Qed.

Lemma insert2_perm {A} (l : list A) i j :
  (i < length l)%nat -> (j < length l)%nat -> i <> j ->
  exists r, forall x y, Permutation (<[i := x]> (<[j := y]> l)) (x :: y :: r).
Proof.
  revert i j. induction l as [|a l IH]; intros i j Hi Hj Hne; simpl in *; [lia|].
  destruct i as [|i], j as [|j]; simpl; try lia.
  - destruct (insert_perm l j) as [r Hr]; [lia|]. exists r. intros x y. by rewrite Hr.
  - destruct (insert_perm l i) as [r Hr]; [lia|]. exists r. intros x y. rewrite Hr. constructor.
  - destruct (IH i j) as [r Hr]; [lia|lia|lia|]. exists (a :: r). intros x y. rewrite Hr.
    rewrite (perm_swap x a). by rewrite (perm_swap y a).
Qed.

Lemma world_one g bs i b g' b' :
  world_ok g bs -> bs !! i = Some b -> buf_ok g' b' -> evolves g (Buffers.head b) g' (Buffers.head b') ->
  world_ok g' (<[i := b']> bs).
Proof.
  intros W Hi Hok He. destruct (insert_perm bs i) as [r Hr]; [by eapply lookup_lt_Some|].
  rewrite Hr. apply (world_frame g [b] r g' [b']).
  - rewrite <- (list_insert_id bs i b Hi) in W. by rewrite Hr in W.
  - by constructor.
  - unfold chunks. simpl. rewrite app_nil_r. apply (bo_ids _ _ Hok).
  - unfold chunks. simpl. by rewrite !app_nil_r.
Qed.

Lemma abs_insert i b bs s : contents b = s -> abs (<[i := b]> bs) = <[i := s]> (abs bs).
Proof. intros <-. apply list_fmap_insert. Qed.

(** An operation on one buffer. *)
Lemma world_update g bs i b g' b' s :
  world_ok g bs -> bs !! i = Some b -> becomes g b g' b' s ->
  world_ok g' (<[i := b']> bs) /\ abs (<[i := b']> bs) = <[i := s]> (abs bs).
Proof.
  intros W Hi Hb. split; [|apply abs_insert; apply Hb]. eapply world_one; [exact W|exact Hi|apply Hb|apply Hb].
Qed.

Lemma world_pair g bs i j b1 b2 :
  world_ok g bs -> bs !! i = Some b1 -> bs !! j = Some b2 -> i <> j -> pair_ok g b1 b2.
Proof.
  intros W Hi Hj Hne. destruct (insert2_perm bs i j) as [r Hr];
    [by eapply lookup_lt_Some|by eapply lookup_lt_Some|done|].
  specialize (Hr b1 b2). rewrite (list_insert_id bs j b2 Hj), (list_insert_id bs i b1 Hi) in Hr.
  rewrite Hr in W. destruct W as [W1 W2 W3]. apply Forall_cons_iff in W1 as [H1 W1].
  apply Forall_cons_iff in W1 as [H2 W1].
  assert (E : chunks (b1 :: b2 :: r) = (Buffers.head b1 ++ Buffers.head b2) ++ chunks r) by (unfold chunks; simpl; lassoc).
  rewrite E in W2, W3. split; [done|done| |].
  - rewrite ids_app in W2. by apply list.NoDup_app in W2 as (W2 & _ & _).
  - rewrite W3, (chain_alloc_app _ (chunks r)). pose proof (chain_alloc_nonneg (chunks r)). lia.
Qed.

(** An operation on two buffers. *)
Lemma world_update2 g bs i j b1 b2 g' b1' b2' s1 s2 :
  world_ok g bs -> bs !! i = Some b1 -> bs !! j = Some b2 -> i <> j ->
  pair_becomes g b1 b2 g' b1' b2' s1 s2 ->
  world_ok g' (<[i := b1']> (<[j := b2']> bs))
  /\ abs (<[i := b1']> (<[j := b2']> bs)) = <[i := s1]> (<[j := s2]> (abs bs)).
Proof.
  intros W Hi Hj Hne [[P1 P2 P3 P4] C1 C2 He _ _]. split.
  2:{ rewrite (abs_insert i b1' _ s1 C1). by rewrite (abs_insert j b2' _ s2 C2). }
  destruct (insert2_perm bs i j) as [r Hr]; [by eapply lookup_lt_Some|by eapply lookup_lt_Some|done|].
  rewrite Hr. apply (world_frame g [b1; b2] r g' [b1'; b2']).
  - specialize (Hr b1 b2). rewrite (list_insert_id bs j b2 Hj), (list_insert_id bs i b1 Hi) in Hr. by rewrite Hr in W.
  - constructor; [done|]. by constructor.
  - unfold chunks. simpl. by rewrite app_nil_r.
  - unfold chunks. simpl. by rewrite !app_nil_r.
Qed.

(** A new buffer. *)
Lemma world_new g bs g' b' :
  world_ok g bs -> buf_ok g' b' -> evolves g [] g' (Buffers.head b') -> world_ok g' (bs ++ [b']).
Proof.
  intros W Hok He. rewrite Permutation_app_comm. apply (world_frame g [] bs g' [b']); [done|by constructor| |].
  - unfold chunks. simpl. rewrite app_nil_r. apply (bo_ids _ _ Hok).
  - unfold chunks. simpl. by rewrite app_nil_r.
Qed.

Lemma world_free g bs i b g' :
  world_ok g bs -> bs !! i = Some b -> evolves g (Buffers.head b) g' [] -> world_ok g' (delete i bs).
Proof.
  intros W Hi He. apply (world_frame g [b] (delete i bs) g' []); [|constructor|constructor|].
  - by rewrite (delete_Permutation bs i b Hi) in W.
  - unfold chunks. simpl. by rewrite app_nil_r.
Qed.

Lemma world_lookup g bs i :
  world_ok g bs -> has (abs bs) i = true ->
  exists b, bs !! i = Some b /\ getb bs i = Ok b /\ buf_ok g b /\ q (abs bs) i = contents b.
Proof.
  intros W Hi. unfold has, abs in Hi. rewrite length_map in Hi. apply bool_decide_eq_true in Hi.
  destruct (lookup_lt_is_Some_2 bs i Hi) as [b Hb]. exists b. unfold getb, q, abs. rewrite Hb.
  split_and!; try done.
  - pose proof (wo_bufs _ _ W) as Hf. rewrite List.Forall_forall in Hf. apply Hf.
    apply list_elem_of_In. by eapply list_elem_of_lookup_2.
  - change (map contents bs) with (contents <$> bs). by rewrite list_lookup_fmap, Hb.
Qed.

(** The buffer of an operation that does not change its strings. *)
Lemma insert_same bs i b : bs !! i = Some b -> <[i := contents b]> (abs bs) = abs bs.
Proof. intros H. apply list_insert_id. unfold abs. change (map contents bs) with (contents <$> bs). by rewrite list_lookup_fmap, H. Qed.

(** What the specification asks of one call. *)
Definition refines (g : alloc_t) (bs : list buf_t) (op : buf_op) : Prop :=
  exists g' bs' o, exec (g, bs) op = Ok ((g', bs'), o) /\ world_ok g' bs'
    /\ abs bs' = spec_next (abs bs) op /\ spec_out (abs bs) op o.

Ltac lookup_buf W H :=
  let b := fresh "b" in let Hi := fresh "Hi" in let Hg := fresh "Hg" in let Hok := fresh "Hok" in let Hq := fresh "Hq" in
  destruct (world_lookup _ _ _ W H) as (b & Hi & Hg & Hok & Hq); rewrite ?Hg, ?Hq in *; cbn [cbind].

(** Close a goal of the form [refines] once the world is known. *)
Ltac refine_with W Hi Hb :=
  destruct (world_update _ _ _ _ _ _ _ W Hi Hb) as [? ?]; do 3 eexists; split; [reflexivity|]; eauto.

Lemma refines_create g bs op :
  world_ok g bs -> spec_pre (abs bs) op = true ->
  match op with OpNew | OpNewWithCapacity _ | OpCopy _ | OpSetToCopy _ _ | OpFree _ => refines g bs op | _ => True end.
Proof.
  intros W Hpre. assert (Ht : 0 <= total_bytes_allocated_in_chunks g) by (rewrite (wo_total _ _ W); apply chain_alloc_nonneg).
  destruct op; try done; unfold refines; simpl in Hpre |- *.
  - do 3 eexists. split; [done|]. split; [|split; [apply map_app|done]].
    eapply world_new; [exact W|by apply empty_buf_ok|apply evolves_refl].
  - apply andb_true_iff in Hpre as [H1 H2]. boolp. unfold buf_new_with_capacity.
    assert (size <= SIZE_T_CEILING - CHUNK_OVERHEAD) as Hs.
    { unfold BUF_MAX_LEN, INT_MAX in H2. change (SIZE_T_CEILING - CHUNK_OVERHEAD) with 9223372036854775743. lia. }
    destruct (preferred_spec size H1 Hs) as (sz & Esz & Hsz & Hx & Hk). pose proof (preferred_max size sz H1 Esz) as Hmax.
    rewrite Esz. cbn [cbind]. do 3 eexists. split; [done|]. split; [|split; [apply map_app|done]].
    eapply world_new; [exact W|apply empty_buf_ok; [|done]|apply evolves_refl].
    assert (CHUNK_OVERHEAD < sz).
    { destruct (Z.lt_ge_cases (CHUNK_ALLOC_SIZE size) MAX_CHUNK_ALLOC) as [H|H].
      - destruct (Hk H) as (k & Hk0 & -> & _). assert (0 < 2 ^ k) by (apply Z.pow_pos_nonneg; lia).
        unfold MIN_CHUNK_ALLOC, CHUNK_OVERHEAD, CHUNK_HEADER_LEN, SENTINEL_LEN. lia.
      - rewrite (Hx H). unfold MAX_CHUNK_ALLOC, CHUNK_ALLOC_SIZE, CHUNK_OVERHEAD, CHUNK_HEADER_LEN, SENTINEL_LEN in *. lia. }
    split; [done|]. unfold BUF_MAX_LEN, INT_MAX, MAX_CHUNK_ALLOC, CHUNK_ALLOC_SIZE, CHUNK_OVERHEAD, CHUNK_HEADER_LEN,
      SENTINEL_LEN, SIZE_T_CEILING in *. lia.
  - lookup_buf W Hpre. destruct (buf_copy_spec g b Hok) as (g' & c & -> & Hc & Hcc & _ & He). cbn [cbind].
    do 3 eexists. split; [done|]. split; [by eapply world_new|]. split; [|done].
    unfold abs. rewrite map_app. simpl. by rewrite Hcc.
  - apply andb_true_iff in Hpre as [Hpre Hne]. apply andb_true_iff in Hpre as [Ho Hi'].
    apply negb_true_iff, Nat.eqb_neq in Hne. lookup_buf W Ho. lookup_buf W Hi'.
    destruct (buf_set_to_copy_spec g b b0 (world_pair _ _ _ _ _ _ W Hi Hi0 Hne)) as (g' & out' & -> & Hok' & Hc & He).
    cbn [cbind]. do 3 eexists. split; [done|]. split; [by eapply world_one|]. split; [by apply abs_insert|done].
  - lookup_buf W Hpre. destruct (buf_free_spec g b Hok) as (g' & -> & He). cbn [cbind].
    do 3 eexists. split; [done|]. split; [by eapply world_free|]. split; [|done].
    change (contents <$> delete i bs = delete i (contents <$> bs)). by rewrite list_fmap_delete.
Qed.

Lemma refines_add g bs op :
  world_ok g bs -> spec_pre (abs bs) op = true ->
  match op with OpClear _ | OpAddChunk _ _ _ | OpAdd _ _ | OpPullup _ _ => refines g bs op | _ => True end.
Proof.
  intros W Hpre. destruct op; try done; unfold refines; simpl in Hpre |- *; unfold fits in *; boolp.
  - lookup_buf W Hpre. destruct (buf_clear_spec g b Hok) as (g' & b' & -> & Hb). cbn [cbind]. refine_with W Hi Hb.
  - lookup_buf W H. destruct (buf_add_chunk_spec junk g b capacity capped Hok) as (g' & b' & c & -> & Hb & _); [lia|].
    cbn [cbind]. destruct (world_update _ _ _ _ _ _ _ W Hi Hb) as [W' Ha]. rewrite (insert_same _ _ _ Hi) in Ha. eauto 8.
  - lookup_buf W H. destruct (Z.ltb_spec BUF_MAX_LEN (zlen (contents b) + zlen s)) as [Hm|Hm].
    + assert (0 < zlen s) by (pose proof (bo_len _ _ Hok); pose proof (bo_max _ _ Hok); lia).
      rewrite (buf_add_full junk g b s Hok) by lia. eauto 8.
    + destruct (buf_add_spec junk g b s Hok Hm) as (g' & b' & -> & Hb). refine_with W Hi Hb.
  - lookup_buf W H. destruct (buf_pullup_spec junk g b n Hok H0) as (g' & b' & r & -> & Hb & Hr). cbn [cbind].
    destruct (world_update _ _ _ _ _ _ _ W Hi Hb) as [W' Ha]. rewrite (insert_same _ _ _ Hi) in Ha.
    do 3 eexists. split; [done|]. split_and!; [done|done|]. destruct r as [d|].
    + destruct Hr as [(rest & Hr) Hd]. right. eauto 6.
    + left. split; [done|]. unfold contents. by rewrite Hr.
Qed.

Lemma refines_read g bs op :
  world_ok g bs -> spec_pre (abs bs) op = true ->
  match op with
  | OpDrain _ _ | OpPeek _ _ | OpGetBytes _ _ | OpExtract _ | OpGetLine _ _ | OpStartsWith _ _ => refines g bs op
  | _ => True
  end.
Proof.
  intros W Hpre. destruct op; try done; unfold refines; simpl in Hpre |- *; boolp.
  - lookup_buf W H. destruct (buf_drain_spec g b n Hok) as (g' & b' & -> & Hb); [lia|]. cbn [cbind]. refine_with W Hi Hb.
  - lookup_buf W H. rewrite (buf_peek_spec g b n Hok) by lia. cbn [cbind]. eauto 8.
  - lookup_buf W H. destruct (buf_get_bytes_spec g b n Hok) as (g' & b' & -> & Hb); [lia|]. cbn [cbind].
    refine_with W Hi Hb.
  - lookup_buf W Hpre. unfold buf_extract, buf_datalen. rewrite (bo_len _ _ Hok).
    rewrite (buf_peek_spec g b _ Hok) by (pose proof (zlen_nonneg (contents b)); lia). cbn [cbind].
    do 3 eexists. split; [done|]. split_and!; [done|done|]. f_equal. apply take_ge. unfold zlen. lia.
  - lookup_buf W Hpre. destruct (buf_get_line_spec g b data_len Hok) as (g' & b' & -> & Hb). cbn [cbind].
    refine_with W Hi Hb.
  - lookup_buf W H. rewrite (buf_peek_startswith_spec g b cmd Hok H0). cbn [cbind]. eauto 8.
Qed.

Lemma refines_move g bs op :
  world_ok g bs -> spec_pre (abs bs) op = true ->
  match op with OpMoveToBuf _ _ _ | OpMoveAll _ _ => refines g bs op | _ => True end.
Proof.
  intros W Hpre. destruct op; try done; unfold refines; simpl in Hpre |- *; boolp;
    match goal with H : Nat.eqb _ _ = false |- _ => apply Nat.eqb_neq in H; rename H into Hne end.
  - lookup_buf W H. lookup_buf W H2. pose proof (world_pair _ _ _ _ _ _ W Hi Hi0 Hne) as Hp.
    unfold moved. rewrite Hq0. destruct (Z.ltb_spec BUF_MAX_LEN (zlen (contents b) + flushlen)) as [Hm|Hm].
    + rewrite (buf_move_to_buf_full junk g b b0 flushlen Hok Hm). eauto 8.
    + destruct (buf_move_to_buf_spec junk g b b0 flushlen Hp H0 Hm) as (g' & o' & b' & -> & Hb).
      destruct (world_update2 _ _ _ _ _ _ _ _ _ _ _ W Hi Hi0 Hne Hb) as [W' Ha]. eauto 8.
  - lookup_buf W H. lookup_buf W H1. pose proof (world_pair _ _ _ _ _ _ W Hi Hi0 Hne) as Hp.
    destruct (Z.ltb_spec BUF_MAX_LEN (zlen (contents b) + zlen (contents b0))) as [Hm|Hm].
    + rewrite (buf_move_all_full g b b0 Hp Hm). cbn [cbind].
      rewrite (list_insert_id bs i b0 Hi0), (list_insert_id bs o b Hi). eauto 8.
    + destruct (buf_move_all_spec g b b0 Hp Hm) as (o' & b' & -> & Hb). cbn [cbind].
      destruct (world_update2 _ _ _ _ _ _ _ _ _ _ _ W Hi Hi0 Hne Hb) as [W' Ha]. eauto 8.
Qed.

Lemma exec_refines g bs op : world_ok g bs -> spec_pre (abs bs) op = true -> refines g bs op.
Proof.
  intros W Hpre. pose proof (refines_create g bs op W Hpre). pose proof (refines_add g bs op W Hpre).
  pose proof (refines_read g bs op W Hpre). pose proof (refines_move g bs op W Hpre). by destruct op.
Qed.

Lemma run_refines ops : forall g bs,
  world_ok g bs -> spec_pre_all (abs bs) ops = true ->
  exists g' bs' os, run (g, bs) ops = Ok ((g', bs'), os) /\ world_ok g' bs'
    /\ abs bs' = fold_left spec_next ops (abs bs) /\ spec_out_all (abs bs) ops os.
Proof.
  induction ops as [|op ops IH]; intros g bs W Hpre; [by exists g, bs, []|].
  cbn [run spec_pre_all fold_left spec_out_all] in *.
  apply andb_true_iff in Hpre as [H1 H2].
  destruct (exec_refines g bs op W H1) as (g1 & bs1 & o & -> & W1 & Ha & Ho). cbn [cbind]. rewrite <- Ha in *.
  destruct (IH g1 bs1 W1 H2) as (g2 & bs2 & os & -> & W2 & Ha2 & Hos). cbn [cbind].
  exists g2, bs2, (o :: os). done.
Qed.

(** ** Claims *)

(** C6. Refinement of byte queues: any sequence of allowed calls, on any number
    of buffers, returns without a failed assertion and without an access outside
    a chunk; the buffers then hold exactly the strings of the specification and
    every call returned the value the specification gives (appending, removing
    from the front, reading a line, pulling up, copying, moving between buffers,
    and [-1] when a buffer would grow beyond [BUF_MAX_LEN]).  The consistency
    check [buf_assert_ok] passes on every buffer, no chunk is shared or lost, and
    [total_bytes_allocated_in_chunks] is the sum of the allocations. *)
Theorem buffers_refine_queues g bs ops :
  world_ok g bs -> spec_pre_all (abs bs) ops = true ->
  exists g' bs' os, run (g, bs) ops = Ok ((g', bs'), os)
    /\ abs bs' = fold_left spec_next ops (abs bs) /\ spec_out_all (abs bs) ops os
    /\ world_ok g' bs'
    /\ Forall (fun b => buf_assert_ok b = Ok tt /\ buf_datalen b = zlen (contents b)) bs'
    /\ total_bytes_allocated_in_chunks g' = fold_right Z.add 0 (map buf_allocation bs').
Proof.
  intros W Hpre. destruct (run_refines ops g bs W Hpre) as (g' & bs' & os & E & W' & Ha & Ho).
  exists g', bs', os. split_and!; try done.
  - apply (Forall_weaken _ _ _ (wo_bufs _ _ W')). intros b Hb. split; [by eapply buf_assert_ok_spec|apply (bo_len _ _ Hb)].
  - rewrite (wo_total _ _ W'). clear. induction bs' as [|b bs IH]; [done|].
    change (chunks (b :: bs)) with (Buffers.head b ++ chunks bs).
    rewrite chain_alloc_app, IH. simpl. by rewrite buf_allocation_eq.
Qed.

(** [buf_add] on every branch: the string is appended and the new length
    returned when the result is at most [BUF_MAX_LEN], and otherwise the call
    fails with [-1]. *)
Theorem buf_add_correct g b s :
  buf_ok g b -> zlen s <= BUF_MAX_LEN ->
  if zlen (contents b) + zlen s <=? BUF_MAX_LEN
  then exists g' b', buf_add junk g b s = Ok (g', b', zlen (contents b) + zlen s)
                     /\ becomes g b g' b' (contents b ++ s)
  else buf_add junk g b s = Err.
Proof.
  intros Hok Hs. destruct (Z.leb_spec (zlen (contents b) + zlen s) BUF_MAX_LEN) as [Hm|Hm].
  - by apply buf_add_spec.
  - pose proof (bo_len _ _ Hok). pose proof (bo_max _ _ Hok). apply buf_add_full; [done|lia|done].
Qed.

(** A string longer than [BUF_MAX_LEN] is not refused with [-1]: the
    subtraction of the check wraps around, the data is copied, and the assertion
    at the end of [buf_add] fails. *)
Theorem buf_add_oversize g b s :
  buf_ok g b -> BUF_MAX_LEN < zlen s <= SIZE_MAX -> buf_add junk g b s = Bug.
Proof.
  intros Hok Hs. pose proof (bo_len _ _ Hok) as Hl. pose proof (bo_max _ _ Hok) as Hm.
  pose proof (zlen_nonneg (contents b)).
  unfold buf_add. rewrite (proj2 (Z.eqb_neq _ _)) by (unfold BUF_MAX_LEN, INT_MAX in *; lia).
  rewrite (proj2 (Z.ltb_ge _ _)) by lia. rewrite add_guard_wraps by (done || lia).
  pose proof (add_loop_counts junk (S (length s)) g b s) as Hc.
  pose proof (add_loop_progress junk (S (length s)) g b s ltac:(lia) (bo_addr _ _ Hok) (bo_dflt _ _ Hok)) as Hp.
  destruct (add_loop junk _ g b s) as [[g' b']| | |]; cbn [cbind]; try done.
  by rewrite (proj2 (Z.leb_gt _ _)) by lia.
Qed.

End Queues.

(** [buf_find_string_offset] returns the offset of the first occurrence of a
    non-empty string, across chunk boundaries, or [-1], when every chunk of the
    buffer holds data. *)
Theorem buf_find_string_offset_correct g b c s :
  buf_ok g b -> Forall (fun k => 0 < datalen k) (Buffers.head b) ->
  buf_find_string_offset b (c :: s)
  = Ok (match strstr (contents b) (c :: s) with Some (a, _) => zlen a | None => -1 end).
Proof.
  intros Hok Hne. rewrite (buf_find_string_spec g) by done. unfold strstr_offset.
  by destruct (strstr _ _) as [[a ?]|].
Qed.

(** [buf_get_line] on a buffer that holds a line: the line with its newline
    is returned and removed when it fits, with its terminating NUL, in
    [data_len] bytes, and otherwise the buffer is unchanged and the size needed
    is reported. *)
Theorem buf_get_line_correct g b line rest data_len :
  buf_ok g b -> contents b = line ++ 10 :: rest -> 10 ∉ line ->
  if zlen line + 2 <=? data_len
  then exists g' b', buf_get_line g b data_len = Ok (g', b', LineRead (line ++ [10])) /\ becomes g b g' b' rest
  else buf_get_line g b data_len = Ok (g, b, LineTooLong (zlen line + 2)).
Proof.
  intros Hok Hc Hl. assert (Hi : index_of 10 (contents b) = zlen line).
  { unfold index_of. rewrite Hc, span_stop; [done| |done]. apply List.Forall_forall. intros x Hx.
    apply negb_true_iff, Z.eqb_neq. intros ->. by apply Hl, list_elem_of_In. }
  pose proof (zlen_nonneg line). destruct (Z.leb_spec (zlen line + 2) data_len) as [Hd|Hd].
  - destruct (buf_get_line_spec g b data_len Hok) as (g' & b' & E & Hb). unfold line_spec in *. rewrite Hi in *.
    rewrite (proj2 (Z.ltb_ge (zlen line) 0)), (proj2 (Z.ltb_ge data_len _)) in * by lia. simpl in *.
    rewrite Hc in *. replace (line ++ 10 :: rest) with ((line ++ [10]) ++ rest) in * by lassoc.
    rewrite take_zapp in E by zlia. rewrite drop_zapp in Hb by zlia. eauto.
  - unfold buf_get_line. rewrite (buf_find_offset_spec g) by done. rewrite Hi. cbn [cbind].
    rewrite (proj2 (Z.ltb_ge (zlen line) 0)), (proj2 (Z.ltb_lt data_len _)) by lia.
    destruct (Buffers.head b) eqn:Eh; [|done]. unfold contents in Hc. rewrite Eh in Hc. by destruct line.
Qed.

(** The allocation for a chunk: exact from [MAX_CHUNK_ALLOC] on, and below it
    the least power of two, at least [MIN_CHUNK_ALLOC], that holds the data and
    the overhead. *)
Theorem buf_preferred_chunk_size_correct target :
  0 <= target -> target <= SIZE_T_CEILING - CHUNK_OVERHEAD ->
  exists sz, buf_preferred_chunk_size target = Ok sz /\ CHUNK_ALLOC_SIZE target <= sz
    /\ (MAX_CHUNK_ALLOC <= CHUNK_ALLOC_SIZE target -> sz = CHUNK_ALLOC_SIZE target)
    /\ (CHUNK_ALLOC_SIZE target < MAX_CHUNK_ALLOC ->
        exists k, 0 <= k <= 8 /\ sz = MIN_CHUNK_ALLOC * 2 ^ k
                  /\ (0 < k -> MIN_CHUNK_ALLOC * 2 ^ (k - 1) < CHUNK_ALLOC_SIZE target)).
Proof. apply preferred_spec. Qed.

(** ** Witnesses and concrete behaviour *)

Definition g0 : alloc_t := mkalloc 0 0 true 7.

Lemma world0_ok : world_ok g0 [].
Proof. split; [constructor|constructor|done]. Qed.

Definition demo_ops : list buf_op :=
  [OpNew; OpNewWithCapacity 20; OpAdd 0 (s2b "ab"); OpAdd 1 (10 :: s2b "cde"); OpMoveAll 0 1;
   OpPullup 0 5; OpGetLine 0 10; OpCopy 0; OpMoveToBuf 1 0 2; OpGetBytes 2 3; OpStartsWith 1 (s2b "cd"); OpFree 2].

Lemma buffers_refine_queues_witness :
  exists g' bs' os, run 0 (g0, []) demo_ops = Ok ((g', bs'), os) /\ abs bs' = [s2b "e"; s2b "cd"].
Proof.
  destruct (buffers_refine_queues 0 g0 [] demo_ops world0_ok) as (g' & bs' & os & E & Ha & _); [vm_compute; reflexivity|].
  exists g', bs', os. split; [exact E|]. rewrite Ha. vm_compute. reflexivity.
Defined.

Lemma buf_new_ok : buf_ok g0 buf_new.
Proof. apply empty_buf_ok; done. Qed.

Lemma buf_add_correct_witness : exists g' b', buf_add 0 g0 buf_new (s2b "hello") = Ok (g', b', 5) /\ contents b' = s2b "hello".
Proof.
  destruct (buf_add_correct 0 g0 buf_new (s2b "hello") buf_new_ok) as (g' & b' & E & Hb); [done|].
  exists g', b'. split; [exact E|exact (be_contents _ _ _ _ _ Hb)].
Defined.

Lemma buf_add_oversize_witness : buf_add 0 g0 buf_new (repeat 0 (Z.to_nat (BUF_MAX_LEN + 1))) = Bug.
Proof.
  apply (buf_add_oversize 0 g0 buf_new); [exact buf_new_ok|]. rewrite zlen_repeat, Z2Nat.id by done. done.
Defined.

(** Two chunks that hold "ab" and "cb". *)
Definition two_chunks : buf_t :=
  mkbuf 4 4096 [mkchunk 0 2 50 0 7 (s2b "ab"); mkchunk 1 2 50 0 7 (s2b "cb")] (Some 1).
Definition g2 : alloc_t := mkalloc 2 100 true 7.

Lemma two_chunks_ok : buf_ok g2 two_chunks.
Proof.
  split; simpl; try done.
  - constructor; [done|]. constructor; [done|constructor].
  - repeat constructor; set_solver.
  - constructor; [done|]. constructor; [done|constructor].
Qed.

Lemma buf_find_string_offset_witness : buf_find_string_offset two_chunks (s2b "bc") = Ok 1.
Proof.
  apply (buf_find_string_offset_correct g2 two_chunks 98 [99]); [apply two_chunks_ok|].
  constructor; [done|]. constructor; [done|constructor].
Defined.

Definition line_buf : buf_t := mkbuf 4 4096 [mkchunk 0 4 52 0 7 [97; 98; 10; 99]] (Some 0).

Lemma buf_get_line_witness :
  exists g' b', buf_get_line g2 line_buf 4 = Ok (g', b', LineRead [97; 98; 10]) /\ contents b' = [99].
Proof.
  destruct (buf_get_line_correct g2 line_buf [97; 98] [99] 4) as (g' & b' & E & Hb).
  - split; simpl; try done; [constructor; [done|constructor]|apply NoDup_singleton|constructor; [done|constructor]].
  - done.
  - set_solver.
  - exists g', b'. split; [exact E|exact (be_contents _ _ _ _ _ Hb)].
Defined.

Lemma buf_preferred_chunk_size_witness : exists sz, buf_preferred_chunk_size 1000 = Ok sz /\ 1048 <= sz.
Proof.
  destruct (buf_preferred_chunk_size_correct 1000) as (sz & E & H & _); [done|done|]. exists sz. split; [exact E|exact H].
Defined.

(** The buffer that [run] leaves at index [i]. *)
Definition final (w : cres (world * list buf_out)) (i : nat) : cres buf_t :=
  let* (w, _) := w in getb (snd w) i.

(** The search trusts an empty tail chunk: after "ab" was added and a chunk
    appended for more data, as the readers of a socket do before they read,
    [buf_find_string_offset] finds "bc" at offset 1 although the buffer holds
    only "ab", because it compares with memory past the data. *)
Theorem buf_find_string_reads_stale :
  exists b, final (run 99 (g0, []) [OpNew; OpAdd 0 (s2b "ab"); OpAddChunk 0 1 true]) 0 = Ok b
    /\ buf_assert_ok b = Ok tt /\ contents b = s2b "ab" /\ strstr (contents b) (s2b "bc") = None
    /\ buf_find_string_offset b (s2b "bc") = Ok 1.
Proof. eexists. split; [vm_compute; reflexivity|]. split_and!; vm_compute; reflexivity. Qed.

(** The note that every chunk except the tail holds at least one byte does
    not hold: [buf_move_all] into a buffer whose only chunk is empty puts the
    moved chunks after it. *)
Theorem buf_move_all_empty_chunk :
  exists b c rest, final (run 99 (g0, []) [OpNew; OpNew; OpAddChunk 0 1 true; OpAdd 1 (s2b "a"); OpMoveAll 0 1]) 0 = Ok b
    /\ buf_assert_ok b = Ok tt /\ Buffers.head b = c :: rest /\ datalen c = 0 /\ rest <> []
    /\ Buffers.tail b <> Some (ch_id c).
Proof. do 3 eexists. split; [vm_compute; reflexivity|]. split_and!; try (vm_compute; reflexivity); done. Qed.
