(* ===== verification/Lcs.v ===== *)
(** * Longest common subsequences

    The reference notion that the diff code is judged against: [lcs a b] is
    the length of the longest list that is a subsequence of both, and the
    lemmas about it that a divide-and-conquer algorithm needs. *)

From S2P Require Import Prelude.
From Stdlib Require Import ZArith.
From stdpp Require Import base list numbers.
Open Scope Z_scope.

Section Lcs.
Context {A : Type} `{EqDecision A}.
Implicit Types a b c : list A.

Fixpoint lcs (a : list A) : list A -> Z :=
  match a with
  | [] => fun _ => 0
  | x :: a' =>
      fix go (b : list A) : Z :=
        match b with
        | [] => 0
        | y :: b' => if decide (x = y) then 1 + lcs a' b' else Z.max (lcs a' b) (go b')
        end
  end.

Lemma lcs_nil_l b : lcs [] b = 0.
Proof. done. Qed.

Lemma lcs_nil_r a : lcs a [] = 0.
Proof. by destruct a. Qed.

Lemma lcs_cons x y a b :
  lcs (x :: a) (y :: b) =
  if decide (x = y) then 1 + lcs a b else Z.max (lcs a (y :: b)) (lcs (x :: a) b).
Proof. done. Qed.

Lemma sublist_tail x c a : sublist (x :: c) a -> sublist c a.
Proof.
  intros H. rewrite <- H. by apply sublist_skip || (constructor; done).
Qed.

Lemma sublist_cons_tail z c x a : sublist (z :: c) (x :: a) -> sublist c a.
Proof.
  intros H. apply sublist_cons_r in H as [H|(c' & H1 & H2)].
  - by eapply sublist_tail.
  - by simplify_eq.
Qed.

Lemma lcs_upper a : forall b c, sublist c a -> sublist c b -> zlen c <= lcs a b.
Proof.
  induction a as [|x a IHa].
  { intros b c H _. apply sublist_nil_r in H as ->. done. }
  induction b as [|y b IHb]; intros c Ha Hb.
  { apply sublist_nil_r in Hb as ->. done. }
  rewrite lcs_cons. case_decide as Hxy.
  - subst y. destruct c as [|z c].
    { pose proof (IHa b [] (sublist_nil_l _) (sublist_nil_l _)). unfold zlen in *; simpl in *; lia. }
    rewrite zlen_cons.
    pose proof (IHa b c (sublist_cons_tail _ _ _ _ Ha) (sublist_cons_tail _ _ _ _ Hb)). lia.
  - apply sublist_cons_r in Ha as [Ha|(c1 & -> & Ha)].
    { pose proof (IHa (y :: b) c Ha Hb). lia. }
    apply sublist_cons_r in Hb as [Hb|(c2 & Heq & Hb)]; [|by simplify_eq].
    pose proof (IHb (x :: c1) ltac:(by apply sublist_skip) Hb). lia.
Qed.

Lemma lcs_attained a : forall b, exists c, sublist c a /\ sublist c b /\ zlen c = lcs a b.
Proof.
  induction a as [|x a IHa].
  { intros b. exists []. repeat split; auto using sublist_nil_l. }
  induction b as [|y b IHb].
  { exists []. repeat split; auto using sublist_nil_l. }
  rewrite lcs_cons. case_decide as Hxy.
  - subst y. destruct (IHa b) as (c & H1 & H2 & H3). exists (x :: c).
    rewrite zlen_cons. split; [by apply sublist_skip|]. split; [by apply sublist_skip|]. lia.
  - destruct (Z.max_spec (lcs a (y :: b)) (lcs (x :: a) b)) as [[_ ->]|[_ ->]].
    + destruct IHb as (c & H1 & H2 & H3). exists c. eauto using sublist_cons.
    + destruct (IHa (y :: b)) as (c & H1 & H2 & H3). exists c. eauto using sublist_cons.
Qed.

Lemma lcs_unique a b n :
  (exists c, sublist c a /\ sublist c b /\ zlen c = n) ->
  (forall c, sublist c a -> sublist c b -> zlen c <= n) -> lcs a b = n.
Proof.
  intros (c & H1 & H2 & H3) Hmax. apply Z.le_antisymm.
  - destruct (lcs_attained a b) as (c' & ? & ? & <-). auto.
  - subst n. by apply lcs_upper.
Qed.

Lemma lcs_nonneg a b : 0 <= lcs a b.
Proof. apply (lcs_upper a b []); apply sublist_nil_l. Qed.

Lemma sublist_rev c a : sublist c a -> sublist (rev c) (rev a).
Proof.
  induction 1 as [|x c a H IH|x c a H IH]; simpl.
  - constructor.
  - by apply sublist_app.
  - by apply sublist_inserts_r.
Qed.

Lemma lcs_rev a b : lcs (rev a) (rev b) = lcs a b.
Proof.
  apply lcs_unique.
  - destruct (lcs_attained a b) as (c & H1 & H2 & H3). exists (rev c).
    unfold zlen in *. rewrite length_rev. auto using sublist_rev.
  - intros c H1%sublist_rev H2%sublist_rev. rewrite rev_involutive in *.
    pose proof (lcs_upper a b (rev c) H1 H2). unfold zlen in *. by rewrite length_rev in *.
Qed.

Lemma lcs_sym a b : lcs a b = lcs b a.
Proof.
  apply lcs_unique.
  - destruct (lcs_attained b a) as (c & H1 & H2 & H3). eauto.
  - intros c H1 H2. by apply lcs_upper.
Qed.

(** A common prefix can be taken off both sides. *)
Lemma lcs_app_prefix p a b : lcs (p ++ a) (p ++ b) = zlen p + lcs a b.
Proof.
  induction p as [|x p IH]; [done|].
  cbn [app]. rewrite lcs_cons, decide_True, IH, zlen_cons by done. lia.
Qed.

Lemma lcs_app_suffix a b p : lcs (a ++ p) (b ++ p) = lcs a b + zlen p.
Proof.
  rewrite <- lcs_rev, !rev_app_distr, lcs_app_prefix, lcs_rev.
  unfold zlen. rewrite length_rev. lia.
Qed.

(** Hirschberg's observation. *)
Lemma lcs_split_le a1 a2 b i :
  lcs a1 (take i b) + lcs a2 (drop i b) <= lcs (a1 ++ a2) b.
Proof.
  destruct (lcs_attained a1 (take i b)) as (c1 & H1 & H2 & <-).
  destruct (lcs_attained a2 (drop i b)) as (c2 & H3 & H4 & <-).
  rewrite <- zlen_app. apply lcs_upper; [by apply sublist_app|].
  rewrite <- (take_drop i b). by apply sublist_app.
Qed.

Lemma lcs_split_attained a1 a2 b :
  exists i, (i <= length b)%nat /\ lcs a1 (take i b) + lcs a2 (drop i b) = lcs (a1 ++ a2) b.
Proof.
  destruct (lcs_attained (a1 ++ a2) b) as (c & H1 & H2 & H3).
  apply sublist_app_r in H1 as (c1 & c2 & -> & Hc1 & Hc2).
  apply sublist_app_l in H2 as (b1 & b2 & -> & Hb1 & Hb2).
  exists (length b1). split; [rewrite length_app; lia|].
  apply Z.le_antisymm; [apply lcs_split_le|].
  rewrite <- H3, zlen_app, take_app_length, drop_app_length.
  pose proof (lcs_upper _ _ _ Hc1 Hb1). pose proof (lcs_upper _ _ _ Hc2 Hb2). lia.
Qed.

Lemma lcs_best_split a1 a2 b i :
  (forall k, (k <= length b)%nat ->
     lcs a1 (take k b) + lcs a2 (drop k b) <= lcs a1 (take i b) + lcs a2 (drop i b)) ->
  lcs a1 (take i b) + lcs a2 (drop i b) = lcs (a1 ++ a2) b.
Proof.
  intros Hbest. apply Z.le_antisymm; [apply lcs_split_le|].
  destruct (lcs_split_attained a1 a2 b) as (k & Hk & <-). auto.
Qed.

(** A one-element list. *)
Lemma lcs_singleton x b : lcs [x] b = if decide (x ∈ b) then 1 else 0.
Proof.
  induction b as [|y b IH]; [done|].
  rewrite lcs_cons, !lcs_nil_l, IH. destruct (decide (x = y)) as [->|Hxy].
  - rewrite decide_True; [done|apply elem_of_cons; by left].
  - case_decide as Hb.
    + rewrite decide_True; [done|apply elem_of_cons; by right].
    + rewrite decide_False; [done|by intros [?|?]%elem_of_cons].
Qed.

End Lcs.

(** ** Marks

    [kept m l]: the elements of [l] whose mark in [m] is [false]. *)
Section Kept.
Context {A : Type}.

Fixpoint kept (m : list bool) (l : list A) : list A :=
  match m, l with
  | c :: m', x :: l' => if c then kept m' l' else x :: kept m' l'
  | _, _ => []
  end.

Lemma kept_app m1 m2 (l1 l2 : list A) :
  length m1 = length l1 -> kept (m1 ++ m2) (l1 ++ l2) = kept m1 l1 ++ kept m2 l2.
Proof.
  revert l1. induction m1 as [|c m1 IH]; intros [|x l1] H; simplify_eq/=; [done|].
  rewrite IH by done. by destruct c.
Qed.

Lemma kept_all_false (l : list A) : kept (repeat false (length l)) l = l.
Proof. induction l; simpl; congruence. Qed.

Lemma kept_all_true (l : list A) : kept (repeat true (length l)) l = [].
Proof. by induction l. Qed.

Lemma kept_sublist m (l : list A) : sublist (kept m l) l.
Proof.
  revert l. induction m as [|c m IH]; intros [|x l]; simpl; auto using sublist_nil_l.
  destruct c; [by constructor|by constructor].
Qed.

End Kept.
