(* ===== verification/DiffChanges.v ===== *)
(** * Consensus diffs, part 1: which lines change

    Models the first half of feature/dircommon/consdiff.c: slices of a list
    of lines, [lcs_lengths], [trim_slices], [set_changed],
    [optimal_column_to_split] and [calc_changes] (Hirschberg's algorithm).

    A [cdline_t] with a non-NULL [s] is the list of its [len] bytes; a
    [smartlist_t] of lines is the list of its elements; a [bitarray_t] is the
    list of its bits. *)

From S2P Require Import Prelude Lcs.
From Stdlib Require Import ZArith.
From stdpp Require Import base list numbers.
Open Scope Z_scope.

Abbreviation cdline := (list Z).

Definition lines_eq (a b : cdline) : bool :=
  (zlen a =? zlen b) && bytes_eqb a b.

Definition line_str_eq (a : cdline) (b : bytes) : bool := lines_eq a b.

Definition line_starts_with_str (a : cdline) (b : bytes) : bool :=
  (zlen b <=? zlen a) && bytes_eqb (take (length b) a) b.

(** ** Slices *)

Record smartlist_slice_t := mkslice { sl_list : list cdline; sl_offset : Z; sl_len : Z }.

Definition smartlist_slice (list : list cdline) (start end_ : Z) : cres smartlist_slice_t :=
  let list_len := zlen list in
  assert! (0 <=? start);
  assert! (start <=? list_len);
  let end_ := if end_ =? -1 then list_len else end_ in
  assert! (start <=? end_);
  Ok (mkslice list start (end_ - start)).

(** ** Longest common subsequence lengths *)

(** The inner loop of [lcs_lengths], for [j] from [slice2->len - fuel]. *)
Fixpoint lcs_inner (fuel : nat) (list2 : list cdline) (line1 : cdline) (direction : Z)
    (prev result : list Z) (j sj : Z) : cres (list Z) :=
  match fuel with
  | O => Ok result
  | S n =>
      let* line2 := aget list2 sj in
      let* v :=
        (if lines_eq line1 line2 then
           let* p := aget prev j in Ok (p + 1)
         else
           let* a := aget result j in
           let* b := aget prev (j + 1) in
           Ok (Z.max a b)) in
      let* result := aset result (j + 1) v in
      lcs_inner n list2 line1 direction prev result (j + 1) (sj + direction)
  end.

(** The outer loop; [memcpy(prev, result)] is passing [result] twice. *)
Fixpoint lcs_outer (fuel : nat) (list1 : list cdline) (slice2 : smartlist_slice_t)
    (direction : Z) (result : list Z) (si : Z) : cres (list Z) :=
  match fuel with
  | O => Ok result
  | S n =>
      let* line1 := aget list1 si in
      let sj := if direction =? -1 then sl_offset slice2 + (sl_len slice2 - 1)
                else sl_offset slice2 in
      let* result :=
        lcs_inner (Z.to_nat (sl_len slice2)) (sl_list slice2) line1 direction result result 0 sj in
      lcs_outer n list1 slice2 direction result (si + direction)
  end.

Definition lcs_lengths (slice1 slice2 : smartlist_slice_t) (direction : Z) : cres (list Z) :=
  let result := repeat 0 (Z.to_nat (sl_len slice2 + 1)) in
  assert! ((direction =? 1) || (direction =? -1));
  let si := if direction =? -1 then sl_offset slice1 + (sl_len slice1 - 1)
            else sl_offset slice1 in
  lcs_outer (Z.to_nat (sl_len slice1)) (sl_list slice1) slice2 direction result si.

(** ** Trimming *)

Definition slice_pop_front (s : smartlist_slice_t) : smartlist_slice_t :=
  mkslice (sl_list s) (sl_offset s + 1) (sl_len s - 1).
Definition slice_pop_back (s : smartlist_slice_t) : smartlist_slice_t :=
  mkslice (sl_list s) (sl_offset s) (sl_len s - 1).

Fixpoint trim_front (fuel : nat) (s1 s2 : smartlist_slice_t)
    : cres (smartlist_slice_t * smartlist_slice_t) :=
  match fuel with
  | O => Fuel
  | S n =>
      if (0 <? sl_len s1) && (0 <? sl_len s2) then
        let* line1 := aget (sl_list s1) (sl_offset s1) in
        let* line2 := aget (sl_list s2) (sl_offset s2) in
        if negb (lines_eq line1 line2) then Ok (s1, s2)
        else trim_front n (slice_pop_front s1) (slice_pop_front s2)
      else Ok (s1, s2)
  end.

Fixpoint trim_back (fuel : nat) (s1 s2 : smartlist_slice_t) (i1 i2 : Z)
    : cres (smartlist_slice_t * smartlist_slice_t) :=
  match fuel with
  | O => Fuel
  | S n =>
      if (0 <? sl_len s1) && (0 <? sl_len s2) then
        let* line1 := aget (sl_list s1) i1 in
        let* line2 := aget (sl_list s2) i2 in
        if negb (lines_eq line1 line2) then Ok (s1, s2)
        else trim_back n (slice_pop_back s1) (slice_pop_back s2) (i1 - 1) (i2 - 1)
      else Ok (s1, s2)
  end.

Definition trim_slices (slice1 slice2 : smartlist_slice_t)
    : cres (smartlist_slice_t * smartlist_slice_t) :=
  let* (slice1, slice2) := trim_front (S (Z.to_nat (sl_len slice1))) slice1 slice2 in
  let i1 := (sl_offset slice1 + sl_len slice1) - 1 in
  let i2 := (sl_offset slice2 + sl_len slice2) - 1 in
  trim_back (S (Z.to_nat (sl_len slice1))) slice1 slice2 i1 i2.

(** ** Marking changed lines *)

Fixpoint string_pos_loop (fuel : nat) (l : list cdline) (string : cdline) (i : Z) : cres Z :=
  match fuel with
  | O => Ok (-1)
  | S n =>
      let* el := aget l i in
      if lines_eq el string then Ok i else string_pos_loop n l string (i + 1)
  end.

Definition smartlist_slice_string_pos (slice : smartlist_slice_t) (string : cdline) : cres Z :=
  string_pos_loop (Z.to_nat (sl_len slice)) (sl_list slice) string (sl_offset slice).

Fixpoint set_changed_loop (fuel : nat) (changed2 : list bool) (toskip i : Z) : cres (list bool) :=
  match fuel with
  | O => Ok changed2
  | S n =>
      let* changed2 := (if negb (i =? toskip) then aset changed2 i true else Ok changed2) in
      set_changed_loop n changed2 toskip (i + 1)
  end.

Definition set_changed (changed1 changed2 : list bool) (slice1 slice2 : smartlist_slice_t)
    : cres (list bool * list bool) :=
  let toskip := -1 in
  assert! ((sl_len slice1 =? 0) || (sl_len slice1 =? 1));
  let* (toskip, changed1) :=
    (if sl_len slice1 =? 1 then
       let* line_common := aget (sl_list slice1) (sl_offset slice1) in
       let* toskip := smartlist_slice_string_pos slice2 line_common in
       if toskip =? -1 then
         let* changed1 := aset changed1 (sl_offset slice1) true in
         Ok (toskip, changed1)
       else Ok (toskip, changed1)
     else Ok (toskip, changed1)) in
  let* changed2 :=
    set_changed_loop (Z.to_nat (sl_len slice2)) changed2 toskip (sl_offset slice2) in
  Ok (changed1, changed2).

(** ** Splitting and the divide-and-conquer recursion *)

Fixpoint best_column (fuel : nat) (lens_top lens_bot : list Z) (len2 i column max_sum : Z) : cres Z :=
  match fuel with
  | O => Ok column
  | S n =>
      let* t := aget lens_top i in
      let* b := aget lens_bot (len2 - i) in
      let sum := t + b in
      if max_sum <? sum then best_column n lens_top lens_bot len2 (i + 1) i sum
      else best_column n lens_top lens_bot len2 (i + 1) column max_sum
  end.

Definition optimal_column_to_split (top bot slice2 : smartlist_slice_t) : cres Z :=
  let* lens_top := lcs_lengths top slice2 1 in
  let* lens_bot := lcs_lengths bot slice2 (-1) in
  best_column (Z.to_nat (sl_len slice2 + 1)) lens_top lens_bot (sl_len slice2) 0 0 (-1).

(** The recursion halves [slice1]; the fuel [slice1->len + 1] is enough. *)
Fixpoint calc_changes_fuel (fuel : nat) (slice1 slice2 : smartlist_slice_t)
    (changed1 changed2 : list bool) : cres (list bool * list bool) :=
  match fuel with
  | O => Fuel
  | S n =>
      let* (slice1, slice2) := trim_slices slice1 slice2 in
      if sl_len slice1 <=? 1 then
        set_changed changed1 changed2 slice1 slice2
      else if sl_len slice2 <=? 1 then
        let* (changed2, changed1) := set_changed changed2 changed1 slice2 slice1 in
        Ok (changed1, changed2)
      else
        let mid := sl_len slice1 / 2 in
        let* top := smartlist_slice (sl_list slice1) (sl_offset slice1) (sl_offset slice1 + mid) in
        let* bot := smartlist_slice (sl_list slice1) (sl_offset slice1 + mid)
                                    (sl_offset slice1 + sl_len slice1) in
        let* mid2 := optimal_column_to_split top bot slice2 in
        let* left_ := smartlist_slice (sl_list slice2) (sl_offset slice2) (sl_offset slice2 + mid2) in
        let* right_ := smartlist_slice (sl_list slice2) (sl_offset slice2 + mid2)
                                      (sl_offset slice2 + sl_len slice2) in
        let* (changed1, changed2) := calc_changes_fuel n top left_ changed1 changed2 in
        calc_changes_fuel n bot right_ changed1 changed2
  end.

Definition calc_changes (slice1 slice2 : smartlist_slice_t) (changed1 changed2 : list bool)
    : cres (list bool * list bool) :=
  calc_changes_fuel (S (Z.to_nat (sl_len slice1))) slice1 slice2 changed1 changed2.

(** ** Lemmas *)

Lemma lines_eq_decide a b : lines_eq a b = bool_decide (a = b).
Proof.
  unfold lines_eq, bytes_eqb. destruct (decide (a = b)) as [->|H].
  - rewrite Z.eqb_refl. done.
  - rewrite (bool_decide_eq_false_2 (a = b)) by done. apply andb_false_r.
Qed.

Lemma lines_eq_true a b : lines_eq a b = true <-> a = b.
Proof. rewrite lines_eq_decide. apply bool_decide_eq_true. Qed.

Lemma aget_slice {A} (l e r : list A) (k : nat) x i :
  e !! k = Some x -> i = zlen l + Z.of_nat k -> aget (l ++ e ++ r) i = Ok x.
Proof.
  intros Hk ->. apply aget_Ok. unfold zlen. split; [lia|].
  rewrite lookup_app_r by lia. replace (_ - _)%nat with k by lia.
  by apply lookup_app_l_Some.
Qed.

Lemma lookup_rev {A} (l : list A) k :
  (k < length l)%nat -> rev l !! k = l !! (length l - S k)%nat.
Proof. intros H. rewrite <- reverse_lookup by done. unfold reverse. by rewrite <- rev_alt. Qed.

(** [s] is the slice [e] of the list [a ++ e ++ b]. *)
Definition slice_at (s : smartlist_slice_t) (a e b : list cdline) : Prop :=
  sl_list s = a ++ e ++ b /\ sl_offset s = zlen a /\ sl_len s = zlen e.

Lemma smartlist_slice_at a e b i j :
  i = zlen a -> j = zlen a + zlen e ->
  exists s, smartlist_slice (a ++ e ++ b) i j = Ok s /\ slice_at s a e b.
Proof.
  intros -> ->. unfold smartlist_slice. pose proof (zlen_nonneg a). pose proof (zlen_nonneg e).
  pose proof (zlen_nonneg b). rewrite !zlen_app.
  replace (zlen a + zlen e =? -1) with false by lia.
  replace (0 <=? zlen a) with true by lia.
  replace (zlen a <=? zlen a + (zlen e + zlen b)) with true by lia.
  replace (zlen a <=? zlen a + zlen e) with true by lia.
  eexists. split; [done|]. split; [done|]. split; simpl; lia.
Qed.

(** Splitting a slice in two. *)
Lemma slice_take_at s a e b (k : nat) :
  slice_at s a e b -> (k <= length e)%nat ->
  exists s', smartlist_slice (sl_list s) (sl_offset s) (sl_offset s + Z.of_nat k) = Ok s' /\
             slice_at s' a (take k e) (drop k e ++ b).
Proof.
  intros (-> & -> & _) Hk.
  replace (a ++ e ++ b) with (a ++ take k e ++ drop k e ++ b)
    by (by rewrite (app_assoc (take k e)), take_drop).
  apply smartlist_slice_at; [done|]. unfold zlen. rewrite length_take. lia.
Qed.

Lemma slice_drop_at s a e b (k : nat) :
  slice_at s a e b -> (k <= length e)%nat ->
  exists s', smartlist_slice (sl_list s) (sl_offset s + Z.of_nat k) (sl_offset s + sl_len s) = Ok s' /\
             slice_at s' (a ++ take k e) (drop k e) b.
Proof.
  intros (-> & -> & ->) Hk.
  replace (a ++ e ++ b) with ((a ++ take k e) ++ drop k e ++ b)
    by (by rewrite <- app_assoc, (app_assoc (take k e)), take_drop).
  apply smartlist_slice_at; unfold zlen; rewrite length_app, length_take, ?length_drop; lia.
Qed.

(** *** [lcs_lengths] *)

(** The array after the lines of [rev x] have been processed against [u]. *)
Definition lcs_row (x u : list cdline) : list Z :=
  map (fun j => lcs x (rev (take j u))) (seq 0 (S (length u))).

Lemma length_lcs_row x u : length (lcs_row x u) = S (length u).
Proof. unfold lcs_row. by rewrite length_map, length_seq. Qed.

Lemma lcs_row_lookup x u j :
  (j <= length u)%nat -> lcs_row x u !! j = Some (lcs x (rev (take j u))).
Proof.
  intros H. unfold lcs_row. change (map ?f ?l) with (f <$> l).
  rewrite list_lookup_fmap, lookup_seq_lt by lia. done.
Qed.

Lemma lcs_row_nil u : lcs_row [] u = repeat 0 (S (length u)).
Proof.
  unfold lcs_row. generalize 0%nat. generalize (S (length u)).
  induction n as [|n IH]; intros k; simpl; [done|]. by rewrite IH.
Qed.

Lemma aget_lookup {A} (l : list A) k x i :
  l !! k = Some x -> i = Z.of_nat k -> aget l i = Ok x.
Proof. intros H ->. apply aget_Ok. by rewrite Nat2Z.id; split; [lia|]. Qed.

Lemma take_snoc_lookup {A} (l : list A) k x :
  l !! k = Some x -> take (S k) l = take k l ++ [x].
Proof. apply take_S_r. Qed.

Lemma lcs_inner_spec list2 x d a u sj0 fuel : forall j,
  (forall k y, u !! k = Some y -> aget list2 (sj0 + d * Z.of_nat k) = Ok y) ->
  (fuel + j = length u)%nat ->
  lcs_inner fuel list2 x d (lcs_row a u)
    (take (S j) (lcs_row (x :: a) u) ++ drop (S j) (lcs_row a u)) (Z.of_nat j)
    (sj0 + d * Z.of_nat j) = Ok (lcs_row (x :: a) u).
Proof.
  induction fuel as [|n IH]; intros j Hread Hj; cbn [lcs_inner].
  { rewrite take_ge, drop_ge, app_nil_r by (rewrite length_lcs_row; lia). done. }
  destruct (lookup_lt_is_Some_2 u j) as [y Hy]; [lia|].
  rewrite (Hread j y Hy). cbn [cbind].
  pose proof (lcs_row_lookup (x :: a) u (S j) ltac:(lia)) as Hnew.
  pose proof (lcs_row_lookup (x :: a) u j ltac:(lia)) as Hcur.
  pose proof (lcs_row_lookup a u (S j) ltac:(lia)) as Hp1.
  pose proof (lcs_row_lookup a u j ltac:(lia)) as Hp0.
  rewrite (take_snoc_lookup _ _ _ Hy), rev_app_distr in Hnew, Hp1. cbn [rev app] in Hnew, Hp1.
  rewrite lcs_cons in Hnew.
  assert (Hres : (take (S j) (lcs_row (x :: a) u) ++ drop (S j) (lcs_row a u)) !! j
                 = Some (lcs (x :: a) (rev (take j u)))).
  { rewrite lookup_app_l by (rewrite length_take, length_lcs_row; lia).
    by rewrite lookup_take_lt by lia. }
  match goal with |- cbind ?m _ = _ => assert (m = Ok (if decide (x = y) then
     1 + lcs a (rev (take j u)) else Z.max (lcs a (y :: rev (take j u))) (lcs (x :: a) (rev (take j u))))) as -> end.
  { rewrite lines_eq_decide. destruct (decide (x = y)) as [->|Hne].
    - rewrite bool_decide_eq_true_2 by done.
      rewrite (aget_lookup _ _ _ _ Hp0 eq_refl). cbn. f_equal. lia.
    - rewrite bool_decide_eq_false_2 by done.
      rewrite (aget_lookup _ _ _ _ Hres eq_refl). cbn [cbind].
      rewrite (aget_lookup _ _ _ _ Hp1) by lia. cbn. f_equal. lia. }
  cbn [cbind].
  rewrite (drop_S _ _ _ Hp1).
  rewrite aset_mid by (unfold zlen; rewrite length_take, length_lcs_row; lia). cbn [cbind].
  replace (Z.of_nat j + 1) with (Z.of_nat (S j)) by lia.
  replace (sj0 + d * Z.of_nat j + d) with (sj0 + d * Z.of_nat (S j)) by lia.
  rewrite <- (IH (S j)) by (done || lia). f_equal.
  rewrite (take_snoc_lookup _ _ _ Hnew), <- app_assoc. done.
Qed.

Lemma lcs_row_start x a u : take 1 (lcs_row (x :: a) u) ++ drop 1 (lcs_row a u) = lcs_row a u.
Proof.
  unfold lcs_row. cbn [seq map]. rewrite !firstn_cons, !skipn_cons, !take_0, !drop_0. cbn [app rev]. by rewrite !lcs_nil_r.
Qed.

Lemma lcs_outer_spec list1 slice2 d u1 u2 si0 fuel : forall i,
  (forall k y, u1 !! k = Some y -> aget list1 (si0 + d * Z.of_nat k) = Ok y) ->
  (forall k y, u2 !! k = Some y ->
     aget (sl_list slice2) ((if d =? -1 then sl_offset slice2 + (sl_len slice2 - 1)
                             else sl_offset slice2) + d * Z.of_nat k) = Ok y) ->
  sl_len slice2 = zlen u2 ->
  (fuel + i = length u1)%nat ->
  lcs_outer fuel list1 slice2 d (lcs_row (rev (take i u1)) u2) (si0 + d * Z.of_nat i)
  = Ok (lcs_row (rev u1) u2).
Proof.
  induction fuel as [|n IH]; intros i Hr1 Hr2 Hlen Hi; cbn [lcs_outer].
  { by rewrite take_ge by lia. }
  destruct (lookup_lt_is_Some_2 u1 i) as [x Hx]; [lia|].
  rewrite (Hr1 i x Hx). cbn [cbind].
  pose proof (lcs_inner_spec (sl_list slice2) x d (rev (take i u1)) u2 _ (length u2) 0 Hr2) as Hin.
  rewrite Nat.add_0_r, Z.mul_0_r, Z.add_0_r in Hin.
  replace (Z.to_nat (sl_len slice2)) with (length u2) by (rewrite Hlen; unfold zlen; lia).
  rewrite lcs_row_start in Hin. change (Z.of_nat 0) with 0 in Hin. rewrite Hin by done. cbn [cbind].
  replace (si0 + d * Z.of_nat i + d) with (si0 + d * Z.of_nat (S i)) by lia.
  rewrite <- (IH (S i)) by (done || lia). f_equal.
  rewrite (take_snoc_lookup _ _ _ Hx), rev_app_distr. done.
Qed.

Lemma slice_reads s a e b d k y :
  slice_at s a e b -> d = 1 \/ d = -1 ->
  (if d =? -1 then rev e else e) !! k = Some y ->
  aget (sl_list s) ((if d =? -1 then sl_offset s + (sl_len s - 1) else sl_offset s)
                    + d * Z.of_nat k) = Ok y.
Proof.
  intros (-> & -> & ->) [-> | ->] Hk; cbn [Z.eqb Pos.eqb] in *.
  - eapply aget_slice; [done|lia].
  - assert (Hlt : (k < length e)%nat).
    { apply lookup_lt_Some in Hk. by rewrite length_rev in Hk. }
    rewrite lookup_rev in Hk by done. eapply aget_slice; [done|]. unfold zlen. lia.
Qed.

Lemma lcs_lengths_spec s1 s2 a1 e1 b1 a2 e2 b2 d :
  slice_at s1 a1 e1 b1 -> slice_at s2 a2 e2 b2 -> d = 1 \/ d = -1 ->
  lcs_lengths s1 s2 d =
    Ok (if d =? -1 then lcs_row e1 (rev e2) else lcs_row (rev e1) e2).
Proof.
  intros H1 H2 Hd. unfold lcs_lengths.
  replace ((d =? 1) || (d =? -1)) with true by lia.
  pose (u1 := if d =? -1 then rev e1 else e1). pose (u2 := if d =? -1 then rev e2 else e2).
  assert (Hl1 : length u1 = length e1) by (unfold u1; destruct (d =? -1); [apply length_rev|done]).
  assert (Hl2 : length u2 = length e2) by (unfold u2; destruct (d =? -1); [apply length_rev|done]).
  pose proof (lcs_outer_spec (sl_list s1) s2 d u1 u2
     (if d =? -1 then sl_offset s1 + (sl_len s1 - 1) else sl_offset s1) (length u1) 0%nat
     (fun k y Hk => slice_reads s1 a1 e1 b1 d k y H1 Hd Hk)
     (fun k y Hk => slice_reads s2 a2 e2 b2 d k y H2 Hd Hk)) as Hout.
  rewrite take_0 in Hout; cbn [rev Z.of_nat] in Hout. rewrite Z.mul_0_r, Z.add_0_r, lcs_row_nil in Hout.
  destruct H1 as (_ & _ & Hlen1), H2 as (_ & _ & Hlen2).
  replace (Z.to_nat (sl_len s2 + 1)) with (S (length u2)) by (rewrite Hlen2; unfold zlen; lia).
  replace (Z.to_nat (sl_len s1)) with (length u1) by (rewrite Hlen1; unfold zlen; lia).
  rewrite Hout by (unfold zlen in *; lia). f_equal. unfold u1, u2.
  destruct (d =? -1); [by rewrite rev_involutive|done].
Qed.

(** *** The split column *)

Lemma best_column_spec (f g : nat -> Z) lens_top lens_bot (n : nat) fuel : forall i column max_sum,
  (forall k, (k <= n)%nat -> lens_top !! k = Some (f k)) ->
  (forall k, (k <= n)%nat -> lens_bot !! (n - k)%nat = Some (g k)) ->
  (fuel + i = S n)%nat -> (column <= n)%nat ->
  (i = 0%nat -> max_sum = -1) ->
  (forall k, (k <= n)%nat -> 0 <= f k + g k) ->
  ((0 < i)%nat -> max_sum = f column + g column /\
                  forall k, (k < i)%nat -> f k + g k <= f column + g column) ->
  exists c, best_column fuel lens_top lens_bot (Z.of_nat n) (Z.of_nat i) (Z.of_nat column) max_sum
            = Ok (Z.of_nat c) /\ (c <= n)%nat /\
            ((0 < fuel + i)%nat -> forall k, (k <= n)%nat -> f k + g k <= f c + g c).
Proof.
  induction fuel as [|m IH]; intros i column max_sum Ht Hb Hi Hc H0 Hpos Hmax; cbn [best_column].
  { exists column. split; [done|]. split; [done|]. intros _ k Hk. destruct Hmax as [_ H]; [lia|].
    apply H; lia. }
  rewrite (aget_lookup _ i (f i)) by (done || apply Ht; lia). cbn [cbind].
  rewrite (aget_lookup _ (n - i)%nat (g i)) by (apply Hb || idtac; lia). cbn [cbind].
  replace (Z.of_nat i + 1) with (Z.of_nat (S i)) by lia.
  zcase.
  - destruct (IH (S i) i (f i + g i)) as (c & -> & Hcn & Hall); try done; try lia.
    { intros _. split; [done|]. intros k Hk. destruct (decide (k = i)) as [->|]; [lia|].
      destruct Hmax as [-> Hm]; [lia|]. specialize (Hm k ltac:(lia)). lia. }
    exists c. split; [done|]. split; [done|]. intros _. apply Hall. lia.
  - destruct (IH (S i) column max_sum) as (c & -> & Hcn & Hall); try done; try lia.
    { intros _. destruct (decide (i = 0%nat)) as [->|Hne].
      - rewrite (H0 eq_refl) in *. pose proof (Hpos 0%nat). lia.
      - destruct Hmax as [-> Hm]; [lia|]. split; [done|]. intros k Hk.
        destruct (decide (k = i)) as [->|]; [lia|]. apply Hm. lia. }
    exists c. split; [done|]. split; [done|]. intros _. apply Hall. lia.
Qed.

Lemma optimal_column_to_split_spec top bot slice2 p1 t q1 p2 u q2 p3 e q3 :
  slice_at top p1 t q1 -> slice_at bot p2 u q2 -> slice_at slice2 p3 e q3 ->
  exists c, optimal_column_to_split top bot slice2 = Ok (Z.of_nat c) /\ (c <= length e)%nat /\
            lcs t (take c e) + lcs u (drop c e) = lcs (t ++ u) e.
Proof.
  intros Ht Hu He. unfold optimal_column_to_split.
  rewrite (lcs_lengths_spec _ _ _ _ _ _ _ _ 1 Ht He) by auto. cbn [cbind].
  rewrite (lcs_lengths_spec _ _ _ _ _ _ _ _ (-1) Hu He) by auto. cbn [cbind Z.eqb Pos.eqb].
  destruct He as (_ & _ & ->). replace (Z.to_nat (zlen e + 1)) with (S (length e)) by (unfold zlen; lia).
  destruct (best_column_spec (fun k => lcs t (take k e)) (fun k => lcs u (drop k e))
     (lcs_row (rev t) e) (lcs_row u (rev e)) (length e) (S (length e)) 0 0 (-1))
     as (c & Hc & Hcn & Hbest); try done; try lia.
  - intros k Hk. rewrite lcs_row_lookup by lia. f_equal. apply lcs_rev.
  - intros k Hk. rewrite lcs_row_lookup by (rewrite length_rev; lia). f_equal. f_equal.
    replace (rev e) with (rev (drop k e) ++ rev (take k e)) by (by rewrite <- rev_app_distr, take_drop).
    rewrite take_app_le.
    + rewrite take_ge, rev_involutive; [done|]. rewrite length_rev, length_drop. lia.
    + rewrite length_rev, length_drop. lia.
  - intros k Hk. pose proof (lcs_nonneg t (take k e)). pose proof (lcs_nonneg u (drop k e)). lia.
  - exists c. split; [exact Hc|]. split; [done|]. apply lcs_best_split. intros k Hk.
    apply Hbest; lia.
Qed.

(** *** Trimming *)

Lemma trim_front_spec fuel : forall s1 s2 a1 e1 b1 a2 e2 b2,
  slice_at s1 a1 e1 b1 -> slice_at s2 a2 e2 b2 -> (length e1 < fuel)%nat ->
  exists c r1 r2 s1' s2', e1 = c ++ r1 /\ e2 = c ++ r2 /\
    trim_front fuel s1 s2 = Ok (s1', s2') /\
    slice_at s1' (a1 ++ c) r1 b1 /\ slice_at s2' (a2 ++ c) r2 b2.
Proof.
  induction fuel as [|n IH]; intros s1 s2 a1 e1 b1 a2 e2 b2 H1 H2 Hf; [lia|]. cbn [trim_front].
  destruct e1 as [|x e1].
  { exists [], [], e2, s1, s2. rewrite !app_nil_r. pose proof H1 as (_ & _ & ->). done. }
  destruct e2 as [|y e2].
  { exists [], (x :: e1), [], s1, s2. rewrite !app_nil_r. pose proof H2 as (_ & _ & ->).
    change (0 <? zlen []) with false. by rewrite andb_false_r. }
  pose proof H1 as (L1 & O1 & N1). pose proof H2 as (L2 & O2 & N2).
  assert ((0 <? sl_len s1) && (0 <? sl_len s2) = true) as ->.
  { rewrite N1, N2, !zlen_cons. pose proof (zlen_nonneg e1). pose proof (zlen_nonneg e2). blia. }
  rewrite L1, L2. cbn [app]. rewrite !aget_mid by done. cbn [cbind].
  rewrite lines_eq_decide. destruct (decide (x = y)) as [->|Hne].
  - rewrite bool_decide_eq_true_2 by done. cbn [negb].
    destruct (IH (slice_pop_front s1) (slice_pop_front s2) (a1 ++ [y]) e1 b1 (a2 ++ [y]) e2 b2)
      as (c & r1 & r2 & s1' & s2' & -> & -> & -> & S1 & S2).
    + split; [|split]; cbn; [rewrite L1; by rewrite <- app_assoc | rewrite O1, zlen_app; done |
        rewrite N1, zlen_cons; lia].
    + split; [|split]; cbn; [rewrite L2; by rewrite <- app_assoc | rewrite O2, zlen_app; done |
        rewrite N2, zlen_cons; lia].
    + cbn in Hf; lia.
    + exists (y :: c), r1, r2, s1', s2'. rewrite <- !app_assoc in *. done.
  - rewrite bool_decide_eq_false_2 by done. cbn [negb].
    exists [], (x :: e1), (y :: e2), s1, s2. by rewrite !app_nil_r.
Qed.

Lemma trim_back_spec fuel : forall s1 s2 a1 e1 b1 a2 e2 b2 i1 i2,
  slice_at s1 a1 e1 b1 -> slice_at s2 a2 e2 b2 -> (length e1 < fuel)%nat ->
  i1 = sl_offset s1 + sl_len s1 - 1 -> i2 = sl_offset s2 + sl_len s2 - 1 ->
  exists c r1 r2 s1' s2', e1 = r1 ++ c /\ e2 = r2 ++ c /\
    trim_back fuel s1 s2 i1 i2 = Ok (s1', s2') /\
    slice_at s1' a1 r1 (c ++ b1) /\ slice_at s2' a2 r2 (c ++ b2).
Proof.
  induction fuel as [|n IH]; intros s1 s2 a1 e1 b1 a2 e2 b2 i1 i2 H1 H2 Hf Hi1 Hi2; [lia|].
  cbn [trim_back].
  destruct e1 as [|x e1 _] using rev_ind.
  { exists [], [], e2, s1, s2. rewrite !app_nil_r. pose proof H1 as (_ & _ & ->). done. }
  destruct e2 as [|y e2 _] using rev_ind.
  { exists [], (e1 ++ [x]), [], s1, s2. rewrite !app_nil_r. pose proof H2 as (_ & _ & ->).
    change (0 <? zlen []) with false. by rewrite andb_false_r. }
  pose proof H1 as (L1 & O1 & N1). pose proof H2 as (L2 & O2 & N2).
  rewrite zlen_app in N1, N2. change (zlen [x]) with 1 in N1. change (zlen [y]) with 1 in N2.
  assert ((0 <? sl_len s1) && (0 <? sl_len s2) = true) as ->.
  { rewrite N1, N2. pose proof (zlen_nonneg e1). pose proof (zlen_nonneg e2). blia. }
  rewrite <- !app_assoc in L1, L2. rewrite L1, L2.
  replace (aget (a1 ++ e1 ++ [x] ++ b1) i1) with (Ok x).
  2:{ symmetry. rewrite app_assoc. apply aget_mid. rewrite zlen_app. lia. }
  replace (aget (a2 ++ e2 ++ [y] ++ b2) i2) with (Ok y).
  2:{ symmetry. rewrite app_assoc. apply aget_mid. rewrite zlen_app. lia. }
  cbn [cbind]. rewrite lines_eq_decide. destruct (decide (x = y)) as [->|Hne].
  - rewrite bool_decide_eq_true_2 by done. cbn [negb].
    destruct (IH (slice_pop_back s1) (slice_pop_back s2) a1 e1 ([y] ++ b1) a2 e2 ([y] ++ b2)
                 (i1 - 1) (i2 - 1))
      as (c & r1 & r2 & s1' & s2' & -> & -> & -> & S1 & S2).
    + split; [done|]. split; cbn; [done|lia].
    + split; [done|]. split; cbn; [done|lia].
    + rewrite length_app in Hf; cbn in Hf; lia.
    + cbn. lia.
    + cbn. lia.
    + exists (c ++ [y]), r1, r2, s1', s2'. rewrite <- !app_assoc. done.
  - rewrite bool_decide_eq_false_2 by done. cbn [negb].
    exists [], (e1 ++ [x]), (e2 ++ [y]), s1, s2. by rewrite !app_nil_r.
Qed.

Lemma trim_slices_spec s1 s2 a1 e1 b1 a2 e2 b2 :
  slice_at s1 a1 e1 b1 -> slice_at s2 a2 e2 b2 ->
  exists p q r1 r2 s1' s2', e1 = p ++ r1 ++ q /\ e2 = p ++ r2 ++ q /\
    trim_slices s1 s2 = Ok (s1', s2') /\
    slice_at s1' (a1 ++ p) r1 (q ++ b1) /\ slice_at s2' (a2 ++ p) r2 (q ++ b2).
Proof.
  intros H1 H2. unfold trim_slices.
  destruct (trim_front_spec (S (Z.to_nat (sl_len s1))) s1 s2 _ _ _ _ _ _ H1 H2)
    as (p & u1 & u2 & t1 & t2 & -> & -> & -> & T1 & T2).
  { destruct H1 as (_ & _ & ->). unfold zlen. lia. }
  cbn [cbind].
  destruct (trim_back_spec (S (Z.to_nat (sl_len t1))) t1 t2 _ _ _ _ _ _
      (sl_offset t1 + sl_len t1 - 1) (sl_offset t2 + sl_len t2 - 1) T1 T2)
    as (q & r1 & r2 & s1' & s2' & -> & -> & -> & S1 & S2);
    [destruct T1 as (_ & _ & ->); unfold zlen; lia | done | done |].
  exists p, q, r1, r2, s1', s2'. done.
Qed.

(** *** Marks

    [m1] and [m2] mark a minimal set of changes between [e1] and [e2]: what
    they leave unmarked is the same on both sides, and no longer common
    subsequence exists. *)
Record marks_ok (e1 e2 : list cdline) (m1 m2 : list bool) : Prop := {
  mo_len1 : length m1 = length e1;
  mo_len2 : length m2 = length e2;
  mo_kept : kept m1 e1 = kept m2 e2;
  mo_best : zlen (kept m1 e1) = lcs e1 e2
}.

Abbreviation unmarked n := (repeat false n).

Lemma marks_ok_sym e1 e2 m1 m2 : marks_ok e1 e2 m1 m2 -> marks_ok e2 e1 m2 m1.
Proof. intros [H1 H2 H3 H4]. split; try done. by rewrite <- H3, H4, lcs_sym. Qed.

Lemma marks_ok_pad p q r1 r2 m1 m2 :
  marks_ok r1 r2 m1 m2 ->
  marks_ok (p ++ r1 ++ q) (p ++ r2 ++ q)
    (unmarked (length p) ++ m1 ++ unmarked (length q))
    (unmarked (length p) ++ m2 ++ unmarked (length q)).
Proof.
  intros [H1 H2 H3 H4].
  assert (Hk : forall m r, length m = length r ->
     kept (unmarked (length p) ++ m ++ unmarked (length q)) (p ++ r ++ q) = p ++ kept m r ++ q).
  { intros m r Hm. by rewrite !kept_app, !kept_all_false by (rewrite ?repeat_length; done). }
  split.
  - by rewrite !length_app, !repeat_length, H1.
  - by rewrite !length_app, !repeat_length, H2.
  - by rewrite !Hk, H3.
  - rewrite Hk, lcs_app_prefix, lcs_app_suffix, !zlen_app, H4 by done. lia.
Qed.

Lemma marks_ok_app t u l r m1 m2 n1 n2 :
  marks_ok t l m1 m2 -> marks_ok u r n1 n2 ->
  lcs t l + lcs u r = lcs (t ++ u) (l ++ r) ->
  marks_ok (t ++ u) (l ++ r) (m1 ++ n1) (m2 ++ n2).
Proof.
  intros [H1 H2 H3 H4] [K1 K2 K3 K4] Hl. split.
  - by rewrite !length_app, H1, K1.
  - by rewrite !length_app, H2, K2.
  - by rewrite !kept_app, H3, K3.
  - rewrite kept_app, zlen_app, H4, K4 by done. done.
Qed.

Lemma marks_ok_nil e : marks_ok [] e [] (repeat true (length e)).
Proof. split; [done|by rewrite repeat_length|by rewrite kept_all_true|done]. Qed.

Lemma marks_ok_absent x e : x ∉ e -> marks_ok [x] e [true] (repeat true (length e)).
Proof.
  intros H. split; [done|by rewrite repeat_length|by rewrite kept_all_true|].
  by rewrite lcs_singleton, decide_False.
Qed.

Lemma marks_ok_present x u v :
  marks_ok [x] (u ++ x :: v) [false] (repeat true (length u) ++ false :: repeat true (length v)).
Proof.
  split; [done|by rewrite !length_app; cbn; rewrite !repeat_length| |].
  - rewrite kept_app by (by rewrite repeat_length). cbn. by rewrite !kept_all_true.
  - rewrite lcs_singleton, decide_True; [done|]. apply elem_of_app. right. left.
Qed.

Lemma string_pos_loop_spec e : forall a b x i, i = zlen a ->
  (x ∉ e /\ string_pos_loop (length e) (a ++ e ++ b) x i = Ok (-1)) \/
  (exists u v, e = u ++ x :: v /\ string_pos_loop (length e) (a ++ e ++ b) x i = Ok (i + zlen u)).
Proof.
  induction e as [|y e IH]; intros a b x i ->; cbn [string_pos_loop length].
  { left. split; [apply not_elem_of_nil|done]. }
  cbn [app]. rewrite aget_mid by done. cbn [cbind]. rewrite lines_eq_decide.
  destruct (decide (y = x)) as [->|Hne].
  - right. exists [], e. rewrite bool_decide_eq_true_2 by done. split; [done|].
    f_equal. change (zlen []) with 0. lia.
  - rewrite bool_decide_eq_false_2 by done.
    destruct (IH (a ++ [y]) b x (zlen a + 1)) as [[Hx Hr]|(u & v & -> & Hr)].
    { by rewrite zlen_app. }
    + left. rewrite <- app_assoc in Hr. split; [|exact Hr]. by intros [?|?]%elem_of_cons.
    + right. exists (y :: u), v. rewrite <- app_assoc in Hr. split; [done|].
      rewrite zlen_cons. etransitivity; [exact Hr|]. f_equal. lia.
Qed.

Lemma set_changed_loop_out n : forall p q t i,
  i = zlen p -> t < i \/ i + Z.of_nat n <= t ->
  set_changed_loop n (p ++ unmarked n ++ q) t i = Ok (p ++ repeat true n ++ q).
Proof.
  induction n as [|n IH]; intros p q t i -> Ht; cbn [set_changed_loop repeat]; [done|].
  replace (zlen p =? t) with false by blia. cbn [negb app].
  rewrite aset_mid by done. cbn [cbind].
  pose proof (IH (p ++ [true]) q t (zlen p + 1)) as IH'. rewrite <- !app_assoc in IH'.
  apply IH'; [by rewrite zlen_app|lia].
Qed.

Lemma set_changed_loop_in n : forall k p q t i,
  i = zlen p -> t = i + Z.of_nat n ->
  set_changed_loop (n + S k) (p ++ unmarked (n + S k) ++ q) t i =
  Ok (p ++ (repeat true n ++ false :: repeat true k) ++ q).
Proof.
  induction n as [|n IH]; intros k p q t i -> ->; cbn [set_changed_loop repeat Nat.add app].
  - rewrite Z.add_0_r, Z.eqb_refl. cbn [negb cbind].
    pose proof (set_changed_loop_out k (p ++ [false]) q (zlen p) (zlen p + 1)) as H.
    rewrite <- !app_assoc in H. apply H; [by rewrite zlen_app|lia].
  - replace (zlen p =? zlen p + Z.of_nat (S n)) with false by blia. cbn [negb].
    rewrite aset_mid by done. cbn [cbind].
    pose proof (IH k (p ++ [true]) q (zlen p + Z.of_nat (S n)) (zlen p + 1)) as IH'.
    rewrite <- !app_assoc in IH'. rewrite <- app_assoc. apply IH'; [by rewrite zlen_app|lia].
Qed.

(** [set_changed] on a first slice of at most one line. *)
Lemma set_changed_spec s1 s2 a1 e1 b1 a2 e2 b2 p1 q1 p2 q2 :
  slice_at s1 a1 e1 b1 -> slice_at s2 a2 e2 b2 -> (length e1 <= 1)%nat ->
  length p1 = length a1 -> length p2 = length a2 ->
  exists m1 m2, marks_ok e1 e2 m1 m2 /\
    set_changed (p1 ++ unmarked (length e1) ++ q1) (p2 ++ unmarked (length e2) ++ q2) s1 s2
    = Ok (p1 ++ m1 ++ q1, p2 ++ m2 ++ q2).
Proof.
  intros H1 H2 Hlen Hp1 Hp2.
  assert (Z1 : zlen a1 = zlen p1) by (unfold zlen; by rewrite Hp1).
  assert (Z2 : zlen a2 = zlen p2) by (unfold zlen; by rewrite Hp2).
  destruct H1 as (L1 & O1 & N1), H2 as (L2 & O2 & N2).
  assert (F2 : Z.to_nat (sl_len s2) = length e2) by (rewrite N2; unfold zlen; lia).
  pose proof (zlen_nonneg p2) as Hnn.
  unfold set_changed, smartlist_slice_string_pos. rewrite F2, L1, L2, O1, O2, N1.
  destruct e1 as [|x [|? ?]]; [..|cbn in Hlen; lia]; cbn [length repeat].
  - change (zlen []) with 0. cbn [Z.eqb orb cbind].
    eexists _, _. split; [apply marks_ok_nil|].
    rewrite set_changed_loop_out; [done|lia|lia].
  - change (zlen [x]) with 1. cbn [Z.eqb Pos.eqb orb cbind app].
    rewrite aget_mid by done. cbn [cbind].
    destruct (string_pos_loop_spec e2 a2 b2 x (zlen a2) eq_refl) as [[Hx ->]|(u & v & -> & ->)];
      cbn [cbind].
    + cbn [Z.eqb Pos.eqb]. rewrite aset_mid by done. cbn [cbind].
      eexists [true], _. split; [by apply marks_ok_absent|].
      rewrite set_changed_loop_out; [done|lia|lia].
    + pose proof (zlen_nonneg u).
      replace (zlen a2 + zlen u =? -1) with false by blia. cbn [cbind].
      eexists [false], _. split; [by apply marks_ok_present|].
      rewrite length_app. cbn [length].
      rewrite set_changed_loop_in; [done|done|]. unfold zlen. lia.
Qed.

Lemma unmarked_app n m : unmarked (n + m) = unmarked n ++ unmarked m.
Proof. apply repeat_app. Qed.

Section SplitStep.
Variable n : nat.
Hypothesis IH : forall s1 s2 a1 e1 b1 a2 e2 b2 p1 q1 p2 q2,
  slice_at s1 a1 e1 b1 -> slice_at s2 a2 e2 b2 -> (length e1 < n)%nat ->
  length p1 = length a1 -> length p2 = length a2 ->
  exists m1 m2, marks_ok e1 e2 m1 m2 /\
    calc_changes_fuel n s1 s2 (p1 ++ unmarked (length e1) ++ q1) (p2 ++ unmarked (length e2) ++ q2)
    = Ok (p1 ++ m1 ++ q1, p2 ++ m2 ++ q2).

(** The two halves of the first slice against the two parts of the second. *)
Lemma calc_changes_split t1 t2 a1 r1 b1 a2 r2 b2 P1 Q1 P2 Q2 :
  slice_at t1 a1 r1 b1 -> slice_at t2 a2 r2 b2 -> (length r1 <= n)%nat -> (1 < length r1)%nat ->
  length P1 = length a1 -> length P2 = length a2 ->
  exists m1 m2, marks_ok r1 r2 m1 m2 /\
    (let mid := sl_len t1 / 2 in
     let* top := smartlist_slice (sl_list t1) (sl_offset t1) (sl_offset t1 + mid) in
     let* bot := smartlist_slice (sl_list t1) (sl_offset t1 + mid) (sl_offset t1 + sl_len t1) in
     let* mid2 := optimal_column_to_split top bot t2 in
     let* left_ := smartlist_slice (sl_list t2) (sl_offset t2) (sl_offset t2 + mid2) in
     let* right_ := smartlist_slice (sl_list t2) (sl_offset t2 + mid2) (sl_offset t2 + sl_len t2) in
     let* (changed1, changed2) := calc_changes_fuel n top left_
       (P1 ++ unmarked (length r1) ++ Q1) (P2 ++ unmarked (length r2) ++ Q2) in
     calc_changes_fuel n bot right_ changed1 changed2)
    = Ok (P1 ++ m1 ++ Q1, P2 ++ m2 ++ Q2).
Proof.
  intros T1 T2 Hn Hr1 Hq1 Hq2. pose proof T1 as (L1 & O1 & N1). pose proof T2 as (L2 & O2 & N2).
  cbv zeta.
  set (mid := (length r1 / 2)%nat).
  assert (Hmid : sl_len t1 / 2 = Z.of_nat mid).
  { rewrite N1. unfold zlen, mid. by rewrite Nat2Z.inj_div. }
  assert (Hmid2 : (0 < mid < length r1)%nat).
  { unfold zlen in *. split; [apply Nat.div_str_pos; lia|apply Nat.div_lt; lia]. }
  rewrite Hmid.
  destruct (slice_take_at t1 _ _ _ mid T1) as (top & -> & Htop); [lia|]. cbn [cbind].
  destruct (slice_drop_at t1 _ _ _ mid T1) as (bot & -> & Hbot); [lia|]. cbn [cbind].
  destruct (optimal_column_to_split_spec _ _ _ _ _ _ _ _ _ _ _ _ Htop Hbot T2)
    as (c & -> & Hc & Hsplit). cbn [cbind].
  destruct (slice_take_at t2 _ _ _ c T2) as (lft & -> & Hleft); [lia|]. cbn [cbind].
  destruct (slice_drop_at t2 _ _ _ c T2) as (rgt & -> & Hright); [lia|]. cbn [cbind].
  clear O1 O2 L1 L2 N1 N2 Hmid. clearbody mid.
  assert (E1 : length r1 = (length (take mid r1) + length (drop mid r1))%nat)
    by (rewrite <- length_app, take_drop; done).
  assert (E2 : length r2 = (length (take c r2) + length (drop c r2))%nat)
    by (rewrite <- length_app, take_drop; done).
  rewrite E1, E2, !unmarked_app, <- !app_assoc.
  destruct (IH _ _ _ _ _ _ _ _ P1 (unmarked (length (drop mid r1)) ++ Q1)
              P2 (unmarked (length (drop c r2)) ++ Q2) Htop Hleft) as (m1 & m2 & Hok1 & ->);
    [rewrite length_take; lia|done..|]. cbn [cbind].
  rewrite (app_assoc P1), (app_assoc P2).
  destruct (IH _ _ _ _ _ _ _ _ (P1 ++ m1) Q1 (P2 ++ m2) Q2 Hbot Hright) as (n1 & n2 & Hok2 & ->).
  { rewrite length_drop. lia. }
  { by rewrite !length_app, Hq1, (mo_len1 _ _ _ _ Hok1). }
  { by rewrite !length_app, Hq2, (mo_len2 _ _ _ _ Hok1). }
  exists (m1 ++ n1), (m2 ++ n2). split; [|by rewrite <- !app_assoc].
  rewrite <- (take_drop mid r1), <- (take_drop c r2). apply marks_ok_app; [done..|].
  by rewrite !take_drop in *.
Qed.
End SplitStep.

(** [calc_changes] terminates within its fuel, touches no bit outside the two
    slices, and marks a minimal set of changes. *)
Lemma calc_changes_fuel_spec fuel : forall s1 s2 a1 e1 b1 a2 e2 b2 p1 q1 p2 q2,
  slice_at s1 a1 e1 b1 -> slice_at s2 a2 e2 b2 -> (length e1 < fuel)%nat ->
  length p1 = length a1 -> length p2 = length a2 ->
  exists m1 m2, marks_ok e1 e2 m1 m2 /\
    calc_changes_fuel fuel s1 s2 (p1 ++ unmarked (length e1) ++ q1) (p2 ++ unmarked (length e2) ++ q2)
    = Ok (p1 ++ m1 ++ q1, p2 ++ m2 ++ q2).
Proof.
  induction fuel as [|n IH]; intros s1 s2 a1 e1 b1 a2 e2 b2 p1 q1 p2 q2 H1 H2 Hf Hp1 Hp2; [lia|].
  cbn [calc_changes_fuel].
  destruct (trim_slices_spec _ _ _ _ _ _ _ _ H1 H2)
    as (p & q & r1 & r2 & t1 & t2 & -> & -> & -> & T1 & T2). clear H1 H2. cbn [cbind].
  rewrite !length_app in Hf.
  rewrite !length_app, !unmarked_app.
  assert (Hq1 : length (p1 ++ unmarked (length p)) = length (a1 ++ p)).
  { by rewrite !length_app, repeat_length, Hp1. }
  assert (Hq2 : length (p2 ++ unmarked (length p)) = length (a2 ++ p)).
  { by rewrite !length_app, repeat_length, Hp2. }
  set (P1 := p1 ++ unmarked (length p)) in *. set (Q1 := unmarked (length q) ++ q1).
  set (P2 := p2 ++ unmarked (length p)) in *. set (Q2 := unmarked (length q) ++ q2).
  replace (p1 ++ (unmarked (length p) ++ unmarked (length r1) ++ unmarked (length q)) ++ q1)
    with (P1 ++ unmarked (length r1) ++ Q1) by (unfold P1, Q1; by rewrite <- !app_assoc).
  replace (p2 ++ (unmarked (length p) ++ unmarked (length r2) ++ unmarked (length q)) ++ q2)
    with (P2 ++ unmarked (length r2) ++ Q2) by (unfold P2, Q2; by rewrite <- !app_assoc).
  match goal with |- exists m1 m2, _ /\ ?body = _ => enough (exists m1 m2, marks_ok r1 r2 m1 m2 /\
     body = Ok (P1 ++ m1 ++ Q1, P2 ++ m2 ++ Q2)) as (m1 & m2 & Hok & ->) end.
  { exists (unmarked (length p) ++ m1 ++ unmarked (length q)),
           (unmarked (length p) ++ m2 ++ unmarked (length q)).
    split; [by apply marks_ok_pad|]. unfold P1, P2, Q1, Q2. by rewrite <- !app_assoc. }
  pose proof T1 as (L1 & O1 & N1). pose proof T2 as (L2 & O2 & N2). rewrite N1, N2.
  zcase.
  { apply set_changed_spec with (1 := T1) (2 := T2); [unfold zlen in *; lia|done..]. }
  zcase.
  { destruct (set_changed_spec t2 t1 _ _ _ _ _ _ P2 Q2 P1 Q1 T2 T1) as (m2 & m1 & Hok & ->);
      [unfold zlen in *; lia|done..|]. cbn [cbind].
    exists m1, m2. split; [by apply marks_ok_sym|done]. }
  rewrite <- N1, <- N2.
  apply calc_changes_split with (1 := IH) (2 := T1) (3 := T2); unfold zlen in *; try done; lia.
Qed.

(** ** Correctness of the change computation *)

Lemma calc_changes_spec s1 s2 a1 e1 b1 a2 e2 b2 p1 q1 p2 q2 :
  slice_at s1 a1 e1 b1 -> slice_at s2 a2 e2 b2 ->
  length p1 = length a1 -> length p2 = length a2 ->
  exists m1 m2, marks_ok e1 e2 m1 m2 /\
    calc_changes s1 s2 (p1 ++ unmarked (length e1) ++ q1) (p2 ++ unmarked (length e2) ++ q2)
    = Ok (p1 ++ m1 ++ q1, p2 ++ m2 ++ q2).
Proof.
  intros H1 H2 Hp1 Hp2. unfold calc_changes.
  eapply calc_changes_fuel_spec; try eassumption.
  destruct H1 as (_ & _ & ->). unfold zlen. lia.
Qed.

(** C3.  On any two lists of lines, [calc_changes] applied to the slices of the
    whole lists returns (no assertion fails, no array is read or written out of
    bounds, the recursion ends) and marks a minimal edit: the lines left
    unmarked on the two sides are the same sequence, and no common subsequence
    of the two lists is longer than it. *)
Theorem calc_changes_minimal (l1 l2 : list cdline) :
  exists s1 s2 ch1 ch2,
    smartlist_slice l1 0 (-1) = Ok s1 /\ smartlist_slice l2 0 (-1) = Ok s2 /\
    calc_changes s1 s2 (repeat false (length l1)) (repeat false (length l2)) = Ok (ch1, ch2) /\
    length ch1 = length l1 /\ length ch2 = length l2 /\
    kept ch1 l1 = kept ch2 l2 /\
    forall c, sublist c l1 -> sublist c l2 -> zlen c <= zlen (kept ch1 l1).
Proof.
  assert (Hs : forall l, exists s, smartlist_slice l 0 (-1) = Ok s /\ slice_at s [] l []).
  { intros l. unfold smartlist_slice. pose proof (zlen_nonneg l).
    cbn [Z.eqb Pos.eqb Z.leb Z.compare]. replace (0 <=? zlen l) with true by blia.
    eexists. split; [done|]. unfold slice_at. cbn. rewrite app_nil_r. auto with lia. }
  destruct (Hs l1) as (s1 & H1 & S1), (Hs l2) as (s2 & H2 & S2).
  destruct (calc_changes_spec s1 s2 _ _ _ _ _ _ [] [] [] [] S1 S2 eq_refl eq_refl)
    as (m1 & m2 & [M1 M2 M3 M4] & Hc).
  cbn [app] in Hc. rewrite !app_nil_r in Hc.
  exists s1, s2, m1, m2. repeat split; try done.
  intros c C1 C2. rewrite M4. by apply lcs_upper.
Qed.

(**  [lcs_lengths] computes longest-common-subsequence lengths in both
    directions: read forwards, entry [j] of its result is the length of a
    longest common subsequence of the first slice and the first [j] lines of
    the second; read backwards, of the first slice and the last [j] lines. *)
Theorem lcs_lengths_correct s1 s2 a1 e1 b1 a2 e2 b2 :
  slice_at s1 a1 e1 b1 -> slice_at s2 a2 e2 b2 ->
  exists top bot, lcs_lengths s1 s2 1 = Ok top /\ lcs_lengths s1 s2 (-1) = Ok bot /\
    forall j, (j <= length e2)%nat ->
      top !! j = Some (lcs e1 (take j e2)) /\
      bot !! j = Some (lcs e1 (drop (length e2 - j) e2)).
Proof.
  intros H1 H2. eexists _, _.
  split; [apply (lcs_lengths_spec _ _ _ _ _ _ _ _ 1 H1 H2); auto|].
  split; [apply (lcs_lengths_spec _ _ _ _ _ _ _ _ (-1) H1 H2); auto|].
  intros j Hj. cbn [Z.eqb Pos.eqb]. split.
  - rewrite lcs_row_lookup, lcs_rev by lia. done.
  - rewrite lcs_row_lookup by (rewrite length_rev; lia). f_equal. f_equal.
    replace (rev e2) with (rev (drop (length e2 - j) e2) ++ rev (take (length e2 - j) e2))
      by (by rewrite <- rev_app_distr, take_drop).
    rewrite take_app_le by (rewrite length_rev, length_drop; lia).
    rewrite take_ge by (rewrite length_rev, length_drop; lia). apply rev_involutive.
Qed.

Lemma lcs_lengths_correct_witness :
  exists top bot,
    lcs_lengths (mkslice [[1]; [2]; [3]] 0 3) (mkslice [[3]; [1]; [3]] 1 2) 1 = Ok top /\
    lcs_lengths (mkslice [[1]; [2]; [3]] 0 3) (mkslice [[3]; [1]; [3]] 1 2) (-1) = Ok bot /\
    forall j, (j <= length [[1]; [3]])%nat ->
      top !! j = Some (lcs [[1]; [2]; [3]] (take j [[1]; [3]])) /\
      bot !! j = Some (lcs [[1]; [2]; [3]] (drop (length [[1]; [3]] - j) [[1]; [3]])).
Proof.
  apply (lcs_lengths_correct _ _ [] [[1]; [2]; [3]] [] [[3]] [[1]; [3]] []); by repeat split.
Defined.
