(* ===== verification/DiffEd.v ===== *)
(** * Consensus diffs, part 2: the ed script

    Models the second half of feature/dircommon/consdiff.c that works on lists
    of lines: finding router entries and comparing their identities
    ([get_id_hash], [next_router], [base64cmp], [find_next_router_line]),
    [preprocess_consensus], [gen_ed_diff] and [apply_ed_diff].

    The pointer [s] of a [cdline_t] inside a consensus points into a buffer in
    which every line is followed by a newline (see [consensus_split_lines]);
    [get_id_hash] may look at that one byte, which is no base64 character, so
    stopping at the end of the list is what it does. *)

From S2P Require Import Prelude CString Lcs DiffChanges.
From Stdlib Require Import ZArith String.
From stdpp Require Import base list numbers sets.
Open Scope Z_scope.

(** ** Router identities *)

Definition NOT_VALID_BASE64 : Z := 255.

Definition base64_compare_table : list Z :=
  let X := NOT_VALID_BASE64 in let SP := NOT_VALID_BASE64 in let PAD := NOT_VALID_BASE64 in [
  X; X; X; X; X; X; X; X; X; SP; SP; SP; X; SP; X; X;
  X; X; X; X; X; X; X; X; X; X; X; X; X; X; X; X;
  SP; X; X; X; X; X; X; X; X; X; X; 62; X; X; X; 63;
  52; 53; 54; 55; 56; 57; 58; 59; 60; 61; X; X; X; PAD; X; X;
  X; 0; 1; 2; 3; 4; 5; 6; 7; 8; 9; 10; 11; 12; 13; 14;
  15; 16; 17; 18; 19; 20; 21; 22; 23; 24; 25; X; X; X; X; X;
  X; 26; 27; 28; 29; 30; 31; 32; 33; 34; 35; 36; 37; 38; 39; 40;
  41; 42; 43; 44; 45; 46; 47; 48; 49; 50; 51; X; X; X; X; X;
  X; X; X; X; X; X; X; X; X; X; X; X; X; X; X; X;
  X; X; X; X; X; X; X; X; X; X; X; X; X; X; X; X;
  X; X; X; X; X; X; X; X; X; X; X; X; X; X; X; X;
  X; X; X; X; X; X; X; X; X; X; X; X; X; X; X; X;
  X; X; X; X; X; X; X; X; X; X; X; X; X; X; X; X;
  X; X; X; X; X; X; X; X; X; X; X; X; X; X; X; X;
  X; X; X; X; X; X; X; X; X; X; X; X; X; X; X; X;
  X; X; X; X; X; X; X; X; X; X; X; X; X; X; X; X].

(** [base64_compare_table[(unsigned char) c]]. *)
Definition b64val (c : Z) : Z := nth (Z.to_nat (u8 c)) base64_compare_table 255.

Definition get_id_hash (line : cdline) : cres cdline :=
  if zlen line <? 2 then Err else
  match snd (span (fun c => negb (c =? 32)) (drop 2 line)) with
  | [] => Err
  | _ :: hash =>
      match fst (span (fun c => negb (b64val c =? NOT_VALID_BASE64)) hash) with
      | [] => Err
      | h => Ok h
      end
  end.

Definition is_valid_router_entry (line : cdline) : bool :=
  if (zlen line <? 2) || negb (bytes_eqb (take 2 line) (s2b "r ")) then false
  else match get_id_hash line with Ok _ => true | _ => false end.

(** The loop of [next_router] once [cur] has been incremented. *)
Fixpoint next_router_loop (fuel : nat) (cons : list cdline) (cur : Z) : cres Z :=
  match fuel with
  | O => Fuel
  | S n =>
      if zlen cons <=? cur then Ok (zlen cons)
      else
        let* line := aget cons cur in
        if is_valid_router_entry line then Ok cur
        else next_router_loop n cons (cur + 1)
  end.

Definition next_router (cons : list cdline) (cur : Z) : cres Z :=
  let len := zlen cons in
  assert! ((-1 <=? cur) && (cur <? len));
  next_router_loop (S (length cons)) cons (cur + 1).

(** The loop of [base64cmp] on two pointers before their ends; looking at a
    byte past the end of a hash would be [Bug]. *)
Fixpoint base64cmp_loop (a b : cdline) : cres Z :=
  match a, b with
  | x :: a', y :: b' =>
      let av := b64val x in let bv := b64val y in
      if av =? NOT_VALID_BASE64 then
        (if bv =? NOT_VALID_BASE64 then Ok 0 else Ok (-1))
      else if bv =? NOT_VALID_BASE64 then Ok 1
      else if av <? bv then Ok (-1)
      else if bv <? av then Ok 1
      else
        match a', b' with
        | [], [] => Ok 0
        | [], _ => Ok (-1)
        | _, [] => Ok 1
        | _, _ => base64cmp_loop a' b'
        end
  | _, _ => Bug
  end.

(** A hash whose pointer [s] is NULL is [None]. *)
Definition base64cmp (hash1 hash2 : option cdline) : cres Z :=
  match hash1, hash2 with
  | None, None => Ok 0
  | None, Some _ => Ok (-1)
  | Some _, None => Ok 1
  | Some a, Some b => base64cmp_loop a b
  end.

Record router_id_iterator_t := mkiter { last_hash : option cdline; hash : option cdline }.

Definition ROUTER_ID_ITERATOR_INIT : router_id_iterator_t := mkiter None None.

(** The new values of [*idxp] and [*iter]; [Err] is the return value -1. *)
Definition find_next_router_line (cons : list cdline) (idx : Z) (iter : router_id_iterator_t)
    : cres (Z * router_id_iterator_t) :=
  let* idx := next_router cons idx in
  if idx <? zlen cons then
    let* line := aget cons idx in
    let* h := get_id_hash line in
    let iter := mkiter (hash iter) (Some h) in
    let* c := base64cmp (hash iter) (last_hash iter) in
    if c <=? 0 then Err else Ok (idx, iter)
  else Ok (idx, iter).

(** ** Removing the signatures *)

Definition START_OF_SIGNATURES_SECTION : bytes := s2b "directory-signature ".

Fixpoint find_dirsig (cons : list cdline) (idx : Z) : Z :=
  match cons with
  | [] => -1
  | line :: r =>
      if line_starts_with_str line START_OF_SIGNATURES_SECTION then idx
      else find_dirsig r (idx + 1)
  end.

(** [smartlist_del]: the last element takes the place of the removed one. *)
Definition sl_del (l : list cdline) (idx : Z) : cres (list cdline) :=
  assert! (0 <=? idx);
  assert! (idx <? zlen l);
  match l !! (length l - 1)%nat with
  | None => Bug
  | Some z => Ok (removelast (<[Z.to_nat idx := z]> l))
  end.

Fixpoint del_while (fuel : nat) (l : list cdline) (idx : Z) : cres (list cdline) :=
  match fuel with
  | O => Fuel
  | S n => if idx <? zlen l then let* l := sl_del l idx in del_while n l idx else Ok l
  end.

(** The consensus without its signatures, and the command that deletes them. *)
Definition preprocess_consensus (cons : list cdline) : cres (list cdline * option cdline) :=
  let dirsig_idx := find_dirsig cons 0 in
  if 0 <=? dirsig_idx then
    let* cons := del_while (S (length cons)) cons dirsig_idx in
    Ok (cons, Some (dec (dirsig_idx + 1) ++ s2b ",$d"))
  else Ok (cons, None).

(** ** Generating the script *)

Definition MAX_LINE_COUNT : Z := 10000.

(** "Keep on advancing the lower position until we have two matching ones." *)
Fixpoint align_loop (fuel : nat) (cons1 cons2 : list cdline) (cmp i1 i2 : Z)
    (iter1 iter2 : router_id_iterator_t)
    : cres (Z * Z * router_id_iterator_t * router_id_iterator_t) :=
  match fuel with
  | O => Fuel
  | S n =>
      let len1 := zlen cons1 in let len2 := zlen cons2 in
      if cmp =? 0 then Ok (i1, i2, iter1, iter2)
      else if (i1 <? len1) && (cmp <? 0) then
        let* (i1, iter1) := find_next_router_line cons1 i1 iter1 in
        if i1 =? len1 then Ok (i1, len2, iter1, iter2)
        else
          let* cmp := base64cmp (hash iter1) (hash iter2) in
          align_loop n cons1 cons2 cmp i1 i2 iter1 iter2
      else if (i2 <? len2) && (0 <? cmp) then
        let* (i2, iter2) := find_next_router_line cons2 i2 iter2 in
        if i2 =? len2 then Ok (len1, i2, iter1, iter2)
        else
          let* cmp := base64cmp (hash iter1) (hash iter2) in
          align_loop n cons1 cons2 cmp i1 i2 iter1 iter2
      else Ok (len1, len2, iter1, iter2)
  end.

(** One round of the outer loop, up to the next pair of common entries. *)
Definition next_common (cons1 cons2 : list cdline) (i1 i2 : Z) (iter1 iter2 : router_id_iterator_t)
    : cres (Z * Z * router_id_iterator_t * router_id_iterator_t) :=
  let len1 := zlen cons1 in let len2 := zlen cons2 in
  let* (i1, iter1) := (if i1 <? len1 then find_next_router_line cons1 i1 iter1 else Ok (i1, iter1)) in
  let* (i2, iter2) := (if i2 <? len2 then find_next_router_line cons2 i2 iter2 else Ok (i2, iter2)) in
  if (i1 <? len1) || (i2 <? len2) then
    let* cmp := base64cmp (hash iter1) (hash iter2) in
    align_loop (S (length cons1 + length cons2)) cons1 cons2 cmp i1 i2 iter1 iter2
  else Ok (i1, i2, iter1, iter2).

Fixpoint changes_loop (fuel : nat) (cons1 cons2 : list cdline) (i1 i2 start1 start2 : Z)
    (iter1 iter2 : router_id_iterator_t) (changed1 changed2 : list bool)
    : cres (list bool * list bool) :=
  match fuel with
  | O => Fuel
  | S n =>
      let len1 := zlen cons1 in let len2 := zlen cons2 in
      if (i1 <? len1) || (i2 <? len2) then
        let* (i1, i2, iter1, iter2) := next_common cons1 cons2 i1 i2 iter1 iter2 in
        if (MAX_LINE_COUNT <? i1 - start1) || (MAX_LINE_COUNT <? i2 - start2) then Err
        else
          let* cons1_sl := smartlist_slice cons1 start1 i1 in
          let* cons2_sl := smartlist_slice cons2 start2 i2 in
          let* (changed1, changed2) := calc_changes cons1_sl cons2_sl changed1 changed2 in
          changes_loop n cons1 cons2 i1 i2 i1 i2 iter1 iter2 changed1 changed2
      else Ok (changed1, changed2)
  end.

(** [i >= 0 && bitarray_is_set(changed, i)]. *)
Definition is_changed (changed : list bool) (i : Z) : cres bool :=
  if 0 <=? i then aget changed i else Ok false.

(** [while (i >= 0 && bitarray_is_set(changed, i)) i--;] *)
Fixpoint back_over_changed (fuel : nat) (changed : list bool) (i : Z) : cres Z :=
  match fuel with
  | O => Fuel
  | S n =>
      let* b := is_changed changed i in
      if b then back_over_changed n changed (i - 1) else Ok i
  end.

(** Append the lines [cons2[i .. end2]], refusing a lone dot. *)
Fixpoint add_new_lines (fuel : nat) (cons2 : list cdline) (i : Z) (result : list cdline)
    : cres (list cdline) :=
  match fuel with
  | O => Ok result
  | S n =>
      let* line := aget cons2 i in
      if line_str_eq line (s2b ".") then Err
      else add_new_lines n cons2 (i + 1) (result ++ [line])
  end.

(** The script of one chunk of changes. *)
Definition emit_chunk (cons2 : list cdline) (start1x start2x end2 added deleted : Z)
    (result : list cdline) : cres (list cdline) :=
  if added =? 0 then
    if deleted =? 1 then Ok (result ++ [dec (start1x + 1) ++ s2b "d"])
    else Ok (result ++ [dec (start1x + 1) ++ s2b "," ++ dec (start1x + deleted) ++ s2b "d"])
  else
    let command :=
      if deleted =? 0 then dec start1x ++ s2b "a"
      else if deleted =? 1 then dec (start1x + 1) ++ s2b "c"
      else dec (start1x + 1) ++ s2b "," ++ dec (start1x + deleted) ++ s2b "c" in
    let* result := add_new_lines (Z.to_nat (end2 - start2x + 1)) cons2 start2x (result ++ [command]) in
    Ok (result ++ [s2b "."]).

(** Navigate the changes in reverse order. *)
Fixpoint emit_loop (fuel : nat) (cons2 : list cdline) (changed1 changed2 : list bool)
    (i1 i2 : Z) (result : list cdline) : cres (list cdline) :=
  match fuel with
  | O => Fuel
  | S n =>
      if (0 <=? i1) || (0 <=? i2) then
        let* c1 := is_changed changed1 i1 in
        let* c2 := is_changed changed2 i2 in
        if negb c1 && negb c2 then
          emit_loop n cons2 changed1 changed2
            (if 0 <=? i1 then i1 - 1 else i1) (if 0 <=? i2 then i2 - 1 else i2) result
        else
          let end1 := i1 in let end2 := i2 in
          let* i1 := back_over_changed (S (length changed1)) changed1 i1 in
          let* i2 := back_over_changed (S (length changed2)) changed2 i2 in
          let start1x := i1 + 1 in let start2x := i2 + 1 in
          let added := end2 - i2 in let deleted := end1 - i1 in
          let* result := emit_chunk cons2 start1x start2x end2 added deleted result in
          emit_loop n cons2 changed1 changed2 i1 i2 result
      else Ok result
  end.

Definition gen_ed_diff (cons1_orig cons2 : list cdline) : cres (list cdline) :=
  let* (cons1, remove_trailer) := preprocess_consensus cons1_orig in
  let result := match remove_trailer with Some l => [l] | None => [] end in
  let fuel := S (length cons1 + length cons2 + 2) in
  let* (changed1, changed2) :=
    changes_loop fuel cons1 cons2 (-1) (-1) 0 0 ROUTER_ID_ITERATOR_INIT ROUTER_ID_ITERATOR_INIT
      (repeat false (length cons1)) (repeat false (length cons2)) in
  emit_loop fuel cons2 changed1 changed2 (zlen cons1 - 1) (zlen cons2 - 1) result.

(** ** Applying the script *)

Definition get_linenum (s : bytes) : cres (Z * bytes) :=
  if negb (TOR_ISDIGIT (cur s)) then Err else
  let p := tor_parse_long s 10 0 INT32_MAX true in
  match p_ok p, p_next p with
  | true, Some next => Ok (p_val p, next)
  | _, _ => Err
  end.

(** The bytes of a buffer before its first NUL, with the NUL appended after
    the last byte. *)
Definition nul_terminated (l : bytes) : bytes := fst (span (fun c => negb (c =? 0)) l).

(** One command: its range and its action. *)
Definition parse_ed_command (cons1 : list cdline) (j : Z) (diff_cdline : cdline) : cres (Z * Z * Z) :=
  if 128 - 1 <? zlen diff_cdline then Err else
  let diff_line := nul_terminated diff_cdline in
  let* (start, ptr) := get_linenum diff_line in
  let* (had_range, end_was_eof, end_, ptr) :=
    (if cur ptr =? 44 then
       let ptr := tail ptr in
       let* (end_was_eof, end_, ptr) :=
         (if cur ptr =? 36 then Ok (true, zlen cons1, tail ptr)
          else let* (e, ptr) := get_linenum ptr in Ok (false, e, ptr)) in
       if end_ <=? start then Err else Ok (true, end_was_eof, end_, ptr)
     else Ok (false, false, start, ptr)) in
  if j <? end_ then Err else
  match ptr with
  | [] => Err
  | action :: rest =>
      if negb (cur rest =? 0) then Err
      else if negb ((action =? 97) || (action =? 99) || (action =? 100)) then Err
      else if end_was_eof && negb (action =? 100) then Err
      else if had_range && (action =? 97) then Err
      else Ok (start, end_, action)
  end.

(** [for (; j && j > end; --j) smartlist_add(cons2, smartlist_get(cons1, j-1));] *)
Fixpoint copy_down (fuel : nat) (cons1 : list cdline) (j end_ : Z) (cons2 : list cdline)
    : cres (Z * list cdline) :=
  match fuel with
  | O => Fuel
  | S n =>
      if negb (j =? 0) && (end_ <? j) then
        let* line := aget cons1 (j - 1) in
        copy_down n cons1 (j - 1) end_ (cons2 ++ [line])
      else Ok (j, cons2)
  end.

(** [while (--j >= start) ;] *)
Fixpoint skip_removed (fuel : nat) (j start : Z) : cres Z :=
  match fuel with
  | O => Fuel
  | S n => let j := j - 1 in if start <=? j then skip_removed n j start else Ok j
  end.

(** The lines to insert, up to the line that is a lone dot: [None] when the
    diff ends before it.  The result is in reverse order, as the code adds
    the lines from the last to the first. *)
Fixpoint collect_added (diff : list cdline) (acc : list cdline) : option (list cdline * list cdline) :=
  match diff with
  | [] => None
  | line :: r =>
      if line_str_eq line (s2b ".") then Some (acc, r) else collect_added r (line :: acc)
  end.

(** The main loop, on the lines of the diff that are left. *)
Fixpoint apply_loop (fuel : nat) (cons1 : list cdline) (diff : list cdline) (j : Z)
    (cons2 : list cdline) : cres (Z * list cdline) :=
  match fuel with
  | O => Fuel
  | S n =>
      match diff with
      | [] => Ok (j, cons2)
      | diff_cdline :: diff =>
          let* (start, end_, action) := parse_ed_command cons1 j diff_cdline in
          let* (j, cons2) := copy_down (S (length cons1)) cons1 j end_ cons2 in
          let* j := (if (action =? 99) || (action =? 100)
                     then skip_removed (S (length cons1)) j start else Ok j) in
          if (action =? 97) || (action =? 99) then
            match collect_added diff [] with
            | None => Err
            | Some ([], _) => Err
            | Some (added, diff) => apply_loop n cons1 diff j (cons2 ++ added)
            end
          else apply_loop n cons1 diff j cons2
      end
  end.

Definition apply_ed_diff (cons1 diff : list cdline) (diff_starting_line : Z) : cres (list cdline) :=
  let diff := drop (Z.to_nat diff_starting_line) diff in
  let* (j, cons2) := apply_loop (S (length diff)) cons1 diff (zlen cons1) [] in
  let* (_, cons2) := copy_down (S (length cons1)) cons1 j 0 cons2 in
  Ok (rev cons2).

(** ** Lemmas *)

(** *** Numbers in commands *)

Lemma length_udec_aux fuel n acc : (length (udec_aux fuel n acc) <= fuel + length acc)%nat.
Proof.
  revert n acc. induction fuel as [|f IH]; intros n acc; cbn [udec_aux]; [lia|].
  zcase; cbn [length]; [lia|]. specialize (IH (n / 10) (48 + n mod 10 :: acc)). cbn in IH. lia.
Qed.

Lemma length_dec n : 0 <= n <= INT32_MAX -> (length (dec n) <= 31)%nat.
Proof.
  intros Hn. unfold dec. replace (n <? 0) with false by blia. unfold udec.
  pose proof (length_udec_aux (S (Z.to_nat (Z.log2 n))) n []) as H. cbn [length] in H.
  assert (Z.log2 n <= 30); [|pose proof (Z.log2_nonneg n); lia].
  destruct (Z.eq_dec n 0) as [->|]; [cbn; lia|].
  enough (Z.log2 n < 31) by lia. apply Z.log2_lt_pow2; [lia|]. unfold INT32_MAX in Hn. lia.
Qed.

Lemma dec_nonneg n : 0 <= n -> dec n = udec n.
Proof. intros H. unfold dec. by replace (n <? 0) with false by blia. Qed.

Lemma digit_isdigit c : 48 <= c <= 57 -> TOR_ISDIGIT c = true.
Proof.
  intros H. rewrite isdigit_byte by (unfold is_byte; lia).
  unfold digitP, in_range. blia.
Qed.

Lemma get_linenum_dec n rest :
  0 <= n <= INT32_MAX -> is_digit_of 10 (cur rest) = false ->
  get_linenum (dec n ++ rest) = Ok (n, rest).
Proof.
  intros Hn Hr. unfold get_linenum. rewrite dec_nonneg by lia.
  destruct (udec_spec n) as (H1 & H2 & H3); [lia|].
  assert (TOR_ISDIGIT (cur (udec n ++ rest)) = true) as ->.
  { destruct (udec n) as [|d ds]; [done|]. inversion_clear H2. by apply digit_isdigit. }
  cbn [negb]. unfold tor_parse_long. cbn [Z.ltb Z.compare].
  rewrite strtol_udec by (done || (unfold LONG_MAX, INT32_MAX in *; lia)).
  unfold CHECK_STRTOX_RESULT; cbn.
  replace ((n <? 0) || (INT32_MAX <? n)) with false by blia. done.
Qed.

Lemma no_nul_dec n : 0 <= n -> Forall (fun c => negb (c =? 0) = true) (dec n).
Proof.
  intros H. rewrite dec_nonneg by lia. destruct (udec_spec n) as (_ & H2 & _); [lia|].
  eapply Forall_weaken; [exact H2|]. cbn. intros c Hc. blia.
Qed.

Lemma nul_terminated_id l : Forall (fun c => negb (c =? 0) = true) l -> nul_terminated l = l.
Proof. intros H. unfold nul_terminated. by rewrite span_all. Qed.

(** What [parse_ed_command] makes of the commands that [emit_chunk] writes. *)
Lemma parse_single cons1 j n c :
  0 <= n <= INT32_MAX -> n <= j -> c = 97 \/ c = 99 \/ c = 100 ->
  parse_ed_command cons1 j (dec n ++ [c]) = Ok (n, n, c).
Proof.
  intros Hn Hj Hc. unfold parse_ed_command.
  pose proof (length_dec n Hn). 
  replace (128 - 1 <? zlen (dec n ++ [c])) with false
    by (unfold zlen; rewrite length_app; cbn [length]; blia).
  rewrite nul_terminated_id.
  2:{ apply Forall_app. split; [apply no_nul_dec; lia|]. constructor; [blia|constructor]. }
  rewrite get_linenum_dec; [|done|by destruct Hc as [-> | [-> | ->]]]. cbn [cbind cur hd].
  replace (c =? 44) with false by blia. cbn [cbind].
  replace (j <? n) with false by blia.
  by destruct Hc as [-> | [-> | ->]].
Qed.

Lemma parse_range cons1 j n m c :
  0 <= n <= INT32_MAX -> 0 <= m <= INT32_MAX -> n < m <= j -> c = 99 \/ c = 100 ->
  parse_ed_command cons1 j (dec n ++ s2b "," ++ dec m ++ [c]) = Ok (n, m, c).
Proof.
  intros Hn Hm Hj Hc. unfold parse_ed_command.
  pose proof (length_dec n Hn). pose proof (length_dec m Hm).
  replace (128 - 1 <? zlen (dec n ++ s2b "," ++ dec m ++ [c])) with false
    by (unfold zlen; rewrite !length_app; cbn [length s2b]; blia).
  rewrite nul_terminated_id.
  2:{ repeat (apply Forall_app; split); [apply no_nul_dec; lia|by repeat constructor|
      apply no_nul_dec; lia|constructor; [blia|constructor]]. }
  rewrite get_linenum_dec by done. cbn [cbind].
  change (cur (s2b "," ++ dec m ++ [c]) =? 44) with true. cbn [cbind].
  change (tail (s2b "," ++ dec m ++ [c])) with (dec m ++ [c]).
  assert (cur (dec m ++ [c]) =? 36 = false) as ->.
  { destruct (udec_spec m) as (H1 & H2 & H3); [lia|]. rewrite dec_nonneg by lia.
    destruct (udec m) as [|d ds]; [done|]. inversion_clear H2. cbn. blia. }
  rewrite get_linenum_dec; [|done|by destruct Hc as [-> | ->]]. cbn [cbind].
  replace (m <=? n) with false by blia. cbn [cbind].
  replace (j <? m) with false by blia.
  by destruct Hc as [-> | ->].
Qed.

Lemma parse_trailer cons1 n :
  0 <= n <= INT32_MAX ->
  parse_ed_command cons1 (zlen cons1) (dec n ++ s2b ",$d") =
  if zlen cons1 <=? n then Err else Ok (n, zlen cons1, 100).
Proof.
  intros Hn. change (s2b ",$d") with [44; 36; 100].
  unfold parse_ed_command. pose proof (length_dec n Hn).
  replace (128 - 1 <? zlen (dec n ++ [44; 36; 100])) with false
    by (unfold zlen; rewrite !length_app; cbn [length]; blia).
  rewrite nul_terminated_id.
  2:{ apply Forall_app; split; [apply no_nul_dec; lia|by repeat constructor]. }
  rewrite get_linenum_dec by done. cbn [cbind].
  cbn [cur hd tail Z.eqb Pos.eqb cbind].
  destruct (zlen cons1 <=? n); [done|]. cbn [cbind]. by rewrite Z.ltb_irrefl.
Qed.

(** *** Removing the trailer *)

Lemma find_dirsig_spec cons : forall idx, 0 <= idx ->
  (find_dirsig cons idx = -1 /\
   Forall (fun l => line_starts_with_str l START_OF_SIGNATURES_SECTION = false) cons) \/
  exists pre l post, cons = pre ++ l :: post /\ find_dirsig cons idx = idx + zlen pre /\
    line_starts_with_str l START_OF_SIGNATURES_SECTION = true.
Proof.
  induction cons as [|x cons IH]; intros idx Hidx; cbn [find_dirsig]; [left; auto|].
  destruct (line_starts_with_str x START_OF_SIGNATURES_SECTION) eqn:E.
  - right. exists [], x, cons. change (zlen []) with 0. split; [done|]. split; [lia|done].
  - destruct (IH (idx + 1)) as [[-> Hall]|(pre & l & post & -> & -> & Hl)]; [lia| |].
    + left. auto.
    + right. exists (x :: pre), l, post. rewrite zlen_cons. split; [done|]. split; [lia|done].
Qed.

Lemma removelast_snoc {A} (l : list A) x : removelast (l ++ [x]) = l.
Proof. apply removelast_last. Qed.

Lemma sl_del_prefix pre x post :
  exists post', sl_del (pre ++ x :: post) (zlen pre) = Ok (pre ++ post') /\
                length post = length post'.
Proof.
  unfold sl_del. pose proof (zlen_nonneg pre). pose proof (zlen_nonneg post).
  replace (0 <=? zlen pre) with true by blia.
  replace (zlen pre <? zlen (pre ++ x :: post)) with true by (rewrite zlen_app, zlen_cons; blia).
  replace (Z.to_nat (zlen pre)) with (length pre) by (unfold zlen; lia).
  destruct post as [|z post _] using rev_ind.
  - rewrite length_app, lookup_app_r by (cbn; lia). replace (_ - _ - _)%nat with 0%nat by (cbn; lia).
    cbn [lookup list_lookup]. exists []. rewrite insert_app_r_alt, Nat.sub_diag by lia.
    cbn [insert list_insert]. by rewrite removelast_snoc, app_nil_r.
  - rewrite app_comm_cons, app_assoc, lookup_app_r by (rewrite !length_app; cbn; lia).
    replace (_ - _ - _)%nat with 0%nat by (rewrite !length_app; cbn; lia).
    cbn [lookup list_lookup]. exists (z :: post).
    rewrite insert_app_l by (rewrite length_app; cbn; lia).
    rewrite insert_app_r_alt, Nat.sub_diag by lia. cbn [insert list_insert].
    rewrite removelast_snoc, length_app. cbn. split; [done|lia].
Qed.

Lemma del_while_prefix fuel : forall pre post,
  (length post < fuel)%nat -> del_while fuel (pre ++ post) (zlen pre) = Ok pre.
Proof.
  induction fuel as [|n IH]; intros pre post Hf; cbn [del_while]; [lia|].
  destruct post as [|x post].
  - rewrite app_nil_r, Z.ltb_irrefl. done.
  - pose proof (zlen_nonneg post).
    replace (zlen pre <? zlen (pre ++ x :: post)) with true by (rewrite zlen_app, zlen_cons; blia).
    destruct (sl_del_prefix pre x post) as (post' & -> & Hlen). cbn [cbind].
    apply IH. cbn in Hf. lia.
Qed.

Lemma preprocess_spec cons :
  (find_dirsig cons 0 = -1 /\ preprocess_consensus cons = Ok (cons, None)) \/
  exists pre l post, cons = pre ++ l :: post /\ find_dirsig cons 0 = zlen pre /\
    preprocess_consensus cons = Ok (pre, Some (dec (zlen pre + 1) ++ s2b ",$d")).
Proof.
  unfold preprocess_consensus.
  destruct (find_dirsig_spec cons 0) as [[-> _]|(pre & l & post & -> & -> & _)]; [lia|auto|].
  right. exists pre, l, post. rewrite Z.add_0_l. pose proof (zlen_nonneg pre).
  replace (0 <=? zlen pre) with true by blia. split; [done|]. split; [done|].
  rewrite del_while_prefix; [done|]. rewrite length_app. cbn. lia.
Qed.

(** *** Navigation *)

Lemma next_router_loop_spec fuel cons : forall cur,
  0 <= cur <= zlen cons -> zlen cons - cur < Z.of_nat fuel ->
  exists k, next_router_loop fuel cons cur = Ok k /\ cur <= k <= zlen cons /\
    (k < zlen cons -> exists l, aget cons k = Ok l /\ is_valid_router_entry l = true).
Proof.
  induction fuel as [|n IH]; intros cur Hc Hf; cbn [next_router_loop]; [lia|].
  zcase; [exists (zlen cons); repeat split; (done || lia)|].
  destruct (aget_in_range cons cur) as (l & Hl & _); [lia|]. rewrite Hl. cbn [cbind].
  destruct (is_valid_router_entry l) eqn:E.
  - exists cur. split; [done|]. split; [lia|]. eauto.
  - destruct (IH (cur + 1)) as (k & -> & Hk & Hk'); [lia|lia|].
    exists k. split; [done|]. split; [lia|done].
Qed.

Lemma next_router_spec cons cur :
  -1 <= cur < zlen cons ->
  exists k, next_router cons cur = Ok k /\ cur < k <= zlen cons /\
    (k < zlen cons -> exists l, aget cons k = Ok l /\ is_valid_router_entry l = true).
Proof.
  intros Hc. unfold next_router.
  replace ((-1 <=? cur) && (cur <? zlen cons)) with true by blia.
  destruct (next_router_loop_spec (S (length cons)) cons (cur + 1)) as (k & -> & Hk & Hk').
  - lia.
  - unfold zlen. lia.
  - exists k. split; [done|]. split; [lia|done].
Qed.

Lemma get_id_hash_nonempty line h : get_id_hash line = Ok h -> h <> [].
Proof. unfold get_id_hash. repeat case_match; congruence. Qed.

Lemma base64cmp_loop_ok a : forall b, a <> [] -> b <> [] ->
  exists c, base64cmp_loop a b = Ok c /\ (c = -1 \/ c = 0 \/ c = 1).
Proof.
  induction a as [|x a IH]; intros [|y b] Ha Hb; try done. cbn [base64cmp_loop].
  repeat case_match; try (eexists; split; [done|lia]). apply IH; done.
Qed.

Definition hash_ok (h : option cdline) : Prop := forall l, h = Some l -> l <> [].

Lemma base64cmp_ok h1 h2 : hash_ok h1 -> hash_ok h2 ->
  exists c, base64cmp h1 h2 = Ok c /\ (c = -1 \/ c = 0 \/ c = 1).
Proof.
  intros H1 H2. destruct h1 as [a|], h2 as [b|]; cbn;
    try (eexists; split; [done|lia]). apply base64cmp_loop_ok; auto.
Qed.

Definition iter_ok (it : router_id_iterator_t) : Prop := hash_ok (hash it).

(** It either reports a misordered consensus or moves forward. *)
Lemma find_next_router_line_spec cons i it :
  -1 <= i < zlen cons -> iter_ok it ->
  find_next_router_line cons i it = Err \/
  exists k it', find_next_router_line cons i it = Ok (k, it') /\ i < k <= zlen cons /\ iter_ok it'.
Proof.
  intros Hi Hit. unfold find_next_router_line.
  destruct (next_router_spec cons i Hi) as (k & -> & Hk & Hk'). cbn [cbind].
  zcase; [|right; eauto].
  destruct Hk' as (l & -> & Hv); [done|]. cbn [cbind].
  destruct (get_id_hash l) as [h| | |] eqn:Eh.
  2:{ by left. }
  2:{ unfold get_id_hash in Eh. repeat case_match; congruence. }
  2:{ unfold get_id_hash in Eh. repeat case_match; congruence. }
  apply get_id_hash_nonempty in Eh. cbn [cbind hash last_hash].
  destruct (base64cmp_ok (Some h) (hash it)) as (c & -> & Hc).
  { by intros ? [= <-]. } { done. }
  cbn [cbind]. zcase; [by left|]. right. eexists k, _. split; [done|].
  split; [lia|]. by intros ? [= <-].
Qed.

Lemma align_loop_spec cons1 cons2 fuel : forall cmp i1 i2 it1 it2,
  0 <= i1 <= zlen cons1 -> 0 <= i2 <= zlen cons2 -> iter_ok it1 -> iter_ok it2 ->
  (zlen cons1 - i1) + (zlen cons2 - i2) < Z.of_nat fuel ->
  align_loop fuel cons1 cons2 cmp i1 i2 it1 it2 = Err \/
  exists k1 k2 jt1 jt2, align_loop fuel cons1 cons2 cmp i1 i2 it1 it2 = Ok (k1, k2, jt1, jt2) /\
    i1 <= k1 <= zlen cons1 /\ i2 <= k2 <= zlen cons2 /\ iter_ok jt1 /\ iter_ok jt2.
Proof.
  induction fuel as [|n IH]; intros cmp i1 i2 it1 it2 H1 H2 O1 O2 Hf; cbn [align_loop]; [lia|].
  zcase; [right; eexists _, _, _, _; split; [done|]; repeat split; done || lia|].
  destruct ((i1 <? zlen cons1) && (cmp <? 0)) eqn:E1; boolp.
  - destruct (find_next_router_line_spec cons1 i1 it1) as [->|(k & it' & -> & Hk & Hit)];
      [lia|done|by left|]. cbn [cbind]. zcase.
    + right. eexists _, _, _, _. split; [done|]. repeat split; done || lia.
    + destruct (base64cmp_ok (hash it') (hash it2)) as (c & -> & _); [done..|]. cbn [cbind].
      destruct (IH c k i2 it' it2) as [->|(k1 & k2 & jt1 & jt2 & -> & Hr)]; try (done || lia);
        [by left|]. right. eexists _, _, _, _. split; [done|].
      destruct Hr as (? & ? & ? & ?). repeat split; done || lia.
  - destruct ((i2 <? zlen cons2) && (0 <? cmp)) eqn:E2; boolp.
    + destruct (find_next_router_line_spec cons2 i2 it2) as [->|(k & it' & -> & Hk & Hit)];
        [lia|done|by left|]. cbn [cbind]. zcase.
      * right. eexists _, _, _, _. split; [done|]. repeat split; done || lia.
      * destruct (base64cmp_ok (hash it1) (hash it')) as (c & -> & _); [done..|]. cbn [cbind].
        destruct (IH c i1 k it1 it') as [->|(k1 & k2 & jt1 & jt2 & -> & Hr)]; try (done || lia);
          [by left|]. right. eexists _, _, _, _. split; [done|].
        destruct Hr as (? & ? & ? & ?). repeat split; done || lia.
    + right. eexists _, _, _, _. split; [done|]. repeat split; done || lia.
Qed.

(** A round of the outer loop moves forward in at least one consensus. *)
Lemma next_common_spec cons1 cons2 i1 i2 it1 it2 :
  -1 <= i1 <= zlen cons1 -> -1 <= i2 <= zlen cons2 -> iter_ok it1 -> iter_ok it2 ->
  i1 < zlen cons1 \/ i2 < zlen cons2 ->
  next_common cons1 cons2 i1 i2 it1 it2 = Err \/
  exists k1 k2 jt1 jt2, next_common cons1 cons2 i1 i2 it1 it2 = Ok (k1, k2, jt1, jt2) /\
    Z.max i1 0 <= k1 <= zlen cons1 /\ Z.max i2 0 <= k2 <= zlen cons2 /\ iter_ok jt1 /\ iter_ok jt2 /\
    i1 + i2 < k1 + k2.
Proof.
  intros H1 H2 O1 O2 Hlt. unfold next_common.
  match goal with |- context [cbind ?m _] => assert (m = Err \/ exists k it', m = Ok (k, it') /\
     Z.max i1 0 <= k <= zlen cons1 /\ iter_ok it' /\ (i1 < zlen cons1 -> i1 < k)) as
     [->|(k1 & jt1 & -> & K1 & J1 & P1)] end.
  { pose proof (zlen_nonneg cons1). zcase; [|right; eexists _, _; split; [done|]; split; [lia|]; split; [done|lia]].
    destruct (find_next_router_line_spec cons1 i1 it1) as [->|(k & it' & -> & Hk & Hit)];
      [lia|done|by left|]. right. eexists _, _. split; [done|]. split; [lia|]. split; [done|lia]. }
  { by left. }
  cbn [cbind].
  match goal with |- context [cbind ?m _] => assert (m = Err \/ exists k it', m = Ok (k, it') /\
     Z.max i2 0 <= k <= zlen cons2 /\ iter_ok it' /\ (i2 < zlen cons2 -> i2 < k)) as
     [->|(k2 & jt2 & -> & K2 & J2 & P2)] end.
  { pose proof (zlen_nonneg cons2). zcase; [|right; eexists _, _; split; [done|]; split; [lia|]; split; [done|lia]].
    destruct (find_next_router_line_spec cons2 i2 it2) as [->|(k & it' & -> & Hk & Hit)];
      [lia|done|by left|]. right. eexists _, _. split; [done|]. split; [lia|]. split; [done|lia]. }
  { by left. }
  cbn [cbind].
  destruct ((k1 <? zlen cons1) || (k2 <? zlen cons2)).
  - destruct (base64cmp_ok (hash jt1) (hash jt2)) as (c & -> & _); [done..|]. cbn [cbind].
    destruct (align_loop_spec cons1 cons2 (S (length cons1 + length cons2)) c k1 k2 jt1 jt2)
      as [->|(m1 & m2 & n1 & n2 & -> & R1 & R2 & R3 & R4)]; try (done || lia);
      [unfold zlen; lia|by left|].
    right. eexists _, _, _, _. split; [done|]. repeat split; done || lia.
  - right. eexists _, _, _, _. split; [done|]. repeat split; done || lia.
Qed.

(** *** Marking the changes *)

Lemma slice_of (l : list cdline) i j :
  0 <= i <= j -> j <= zlen l ->
  exists s, smartlist_slice l i j = Ok s /\
    slice_at s (take (Z.to_nat i) l) (drop (Z.to_nat i) (take (Z.to_nat j) l)) (drop (Z.to_nat j) l).
Proof.
  intros Hi Hj.
  assert (Hl : l = take (Z.to_nat i) l ++ drop (Z.to_nat i) (take (Z.to_nat j) l) ++ drop (Z.to_nat j) l).
  { rewrite app_assoc. replace (take (Z.to_nat i) l) with (take (Z.to_nat i) (take (Z.to_nat j) l)).
    - by rewrite !take_drop.
    - rewrite take_take. f_equal. lia. }
  destruct (smartlist_slice_at (take (Z.to_nat i) l) (drop (Z.to_nat i) (take (Z.to_nat j) l))
              (drop (Z.to_nat j) l) i j) as (s & Hs & Hat);
    [unfold zlen in *; rewrite ?length_drop, ?length_take; lia..|].
  exists s. by rewrite <- Hl in Hs.
Qed.

Lemma changes_loop_spec cons1 cons2 fuel : forall i1 i2 s1 s2 it1 it2 m1 m2,
  -1 <= i1 <= zlen cons1 -> -1 <= i2 <= zlen cons2 -> s1 = Z.max i1 0 -> s2 = Z.max i2 0 ->
  iter_ok it1 -> iter_ok it2 ->
  (zlen cons1 - i1) + (zlen cons2 - i2) < Z.of_nat fuel ->
  zlen m1 = s1 -> zlen m2 = s2 ->
  kept m1 (take (Z.to_nat s1) cons1) = kept m2 (take (Z.to_nat s2) cons2) ->
  let r := changes_loop fuel cons1 cons2 i1 i2 s1 s2 it1 it2
             (m1 ++ unmarked (Z.to_nat (zlen cons1 - s1))) (m2 ++ unmarked (Z.to_nat (zlen cons2 - s2))) in
  r = Err \/
  exists ch1 ch2, r = Ok (ch1, ch2) /\ length ch1 = length cons1 /\ length ch2 = length cons2 /\
    kept ch1 cons1 = kept ch2 cons2.
Proof.
  induction fuel as [|n IH]; intros i1 i2 s1 s2 it1 it2 m1 m2 H1 H2 -> -> O1 O2 Hf L1 L2 Hk r;
    unfold r; clear r; cbn [changes_loop]; [lia|].
  destruct ((i1 <? zlen cons1) || (i2 <? zlen cons2)) eqn:E.
  2:{ boolp. right. pose proof (zlen_nonneg cons1). pose proof (zlen_nonneg cons2).
      replace (Z.to_nat (zlen cons1 - Z.max i1 0)) with 0%nat by lia.
      replace (Z.to_nat (zlen cons2 - Z.max i2 0)) with 0%nat by lia. cbn [repeat].
      rewrite !app_nil_r. exists m1, m2.
      rewrite !take_ge in Hk by (unfold zlen in *; lia).
      split; [done|]. unfold zlen in *. repeat split; (done || lia). }
  apply orb_true_iff in E. rewrite !Z.ltb_lt in E.
  destruct (next_common_spec cons1 cons2 i1 i2 it1 it2)
    as [->|(k1 & k2 & jt1 & jt2 & -> & K1 & K2 & J1 & J2 & Hlt)]; [done..|by left|]. cbn [cbind].
  destruct (_ || _); [by left|].
  destruct (slice_of cons1 (Z.max i1 0) k1) as (sl1 & -> & S1); [lia..|]. cbn [cbind].
  destruct (slice_of cons2 (Z.max i2 0) k2) as (sl2 & -> & S2); [lia..|]. cbn [cbind].
  set (e1 := drop (Z.to_nat (Z.max i1 0)) (take (Z.to_nat k1) cons1)) in *.
  set (e2 := drop (Z.to_nat (Z.max i2 0)) (take (Z.to_nat k2) cons2)) in *.
  assert (T1 : take (Z.to_nat k1) cons1 = take (Z.to_nat (Z.max i1 0)) cons1 ++ e1).
  { unfold e1. rewrite <- (take_drop (Z.to_nat (Z.max i1 0)) (take (Z.to_nat k1) cons1)) at 1.
    f_equal. rewrite take_take. f_equal. lia. }
  assert (T2 : take (Z.to_nat k2) cons2 = take (Z.to_nat (Z.max i2 0)) cons2 ++ e2).
  { unfold e2. rewrite <- (take_drop (Z.to_nat (Z.max i2 0)) (take (Z.to_nat k2) cons2)) at 1.
    f_equal. rewrite take_take. f_equal. lia. }
  assert (N1 : length e1 = Z.to_nat (k1 - Z.max i1 0)).
  { unfold e1, zlen in *. rewrite length_drop, length_take. lia. }
  assert (N2 : length e2 = Z.to_nat (k2 - Z.max i2 0)).
  { unfold e2, zlen in *. rewrite length_drop, length_take. lia. }
  clearbody e1 e2.
  replace (Z.to_nat (zlen cons1 - Z.max i1 0)) with (length e1 + Z.to_nat (zlen cons1 - k1))%nat by lia.
  replace (Z.to_nat (zlen cons2 - Z.max i2 0)) with (length e2 + Z.to_nat (zlen cons2 - k2))%nat by lia.
  rewrite !unmarked_app.
  destruct (calc_changes_spec sl1 sl2 _ _ _ _ _ _ m1 (unmarked (Z.to_nat (zlen cons1 - k1)))
     m2 (unmarked (Z.to_nat (zlen cons2 - k2))) S1 S2) as (n1 & n2 & [Q1 Q2 Q3 _] & ->).
  { unfold zlen in *. rewrite length_take. lia. }
  { unfold zlen in *. rewrite length_take. lia. }
  cbn [cbind]. rewrite !app_assoc.
  apply IH; try (done || lia).
  - rewrite zlen_app, L1. unfold zlen. lia.
  - rewrite zlen_app, L2. unfold zlen. lia.
  - rewrite T1, T2, !kept_app, Hk, Q3 by (unfold zlen in *; rewrite length_take; lia). done.
Qed.

(** *** From marks to a script, and back *)

Lemma is_changed_last m n : is_changed (m ++ n) (zlen m - 1) = Ok (List.last m false).
Proof.
  unfold is_changed. destruct m as [|b m _] using rev_ind; [done|].
  rewrite zlen_app, last_last. change (zlen [b]) with 1. pose proof (zlen_nonneg m).
  replace (0 <=? zlen m + 1 - 1) with true by blia.
  rewrite <- app_assoc. apply aget_mid. lia.
Qed.

Lemma back_over_changed_spec fuel : forall n m, (length m < fuel)%nat ->
  exists m' k, m = m' ++ repeat true k /\
    back_over_changed fuel (m ++ n) (zlen m - 1) = Ok (zlen m' - 1) /\
    (k = 0%nat -> List.last m false = false).
Proof.
  induction fuel as [|f IH]; intros n m Hf; [lia|]. cbn [back_over_changed].
  rewrite is_changed_last. cbn [cbind].
  destruct m as [|b m _] using rev_ind.
  { exists [], 0%nat. done. }
  rewrite length_app in Hf. cbn in Hf. rewrite last_last. destruct b.
  - destruct (IH (true :: n) m) as (m' & k & -> & Hr & _); [lia|].
    exists m', (S k). split; [rewrite <- app_assoc, <- repeat_cons; done|].
    split; [|done]. rewrite <- Hr, <- (app_assoc _ [true]), zlen_app.
    change (zlen [true]) with 1. f_equal. lia.
  - exists (m ++ [false]), 0%nat. by rewrite app_nil_r.
Qed.

Definition not_dot (l : cdline) : Prop := line_str_eq l (s2b ".") = false.

Lemma add_new_lines_spec x : forall a b r,
  (Forall not_dot x /\ add_new_lines (length x) (a ++ x ++ b) (zlen a) r = Ok (r ++ x)) \/
  (~ Forall not_dot x /\ add_new_lines (length x) (a ++ x ++ b) (zlen a) r = Err).
Proof.
  induction x as [|l x IH]; intros a b r; cbn [add_new_lines length app].
  { left. by rewrite app_nil_r. }
  rewrite aget_mid by done. cbn [cbind].
  destruct (line_str_eq l (s2b ".")) eqn:E.
  { right. split; [|done]. inversion 1; unfold not_dot in *; congruence. }
  replace (zlen a + 1) with (zlen (a ++ [l])) by (by rewrite zlen_app).
  replace (a ++ l :: x ++ b) with ((a ++ [l]) ++ x ++ b) by (by rewrite <- app_assoc).
  destruct (IH (a ++ [l]) b (r ++ [l])) as [[Hall ->]|[Hnot ->]].
  - left. rewrite <- app_assoc. auto.
  - right. split; [|done]. inversion 1; auto.
Qed.

Lemma collect_added_spec x : forall acc r, Forall not_dot x ->
  collect_added (x ++ s2b "." :: r) acc = Some (rev x ++ acc, r).
Proof.
  induction x as [|l x IH]; intros acc r Hx; cbn [collect_added app].
  - assert (line_str_eq (s2b ".") (s2b ".") = true) as -> by reflexivity. done.
  - inversion_clear Hx as [|? ? Hl Hx']. rewrite Hl, IH by done. cbn. by rewrite <- app_assoc.
Qed.

Lemma copy_down_spec s : forall fuel a t c, (length s < fuel)%nat ->
  copy_down fuel (a ++ s ++ t) (zlen a + zlen s) (zlen a) c = Ok (zlen a, c ++ rev s).
Proof.
  induction s as [|x s IH] using rev_ind; intros [|fuel] a t c Hf; try lia; cbn [copy_down].
  - change (zlen []) with 0. rewrite Z.add_0_r, Z.ltb_irrefl, andb_false_r, app_nil_r. done.
  - rewrite length_app in Hf. cbn in Hf. rewrite zlen_app. change (zlen [x]) with 1.
    pose proof (zlen_nonneg s). pose proof (zlen_nonneg a).
    replace (negb (zlen a + (zlen s + 1) =? 0) && (zlen a <? zlen a + (zlen s + 1))) with true by blia.
    replace (a ++ (s ++ [x]) ++ t) with ((a ++ s) ++ x :: t) by (by rewrite <- !app_assoc).
    rewrite aget_mid by (rewrite zlen_app; lia). cbn [cbind].
    replace ((a ++ s) ++ x :: t) with (a ++ s ++ x :: t) by (by rewrite <- !app_assoc).
    replace (zlen a + (zlen s + 1) - 1) with (zlen a + zlen s) by lia.
    rewrite IH by lia. rewrite rev_app_distr, <- app_assoc. done.
Qed.

Lemma copy_down_nothing fuel l j end_ c :
  j <= end_ -> (0 < fuel)%nat -> copy_down fuel l j end_ c = Ok (j, c).
Proof.
  intros H Hf. destruct fuel; [lia|]. cbn. replace (end_ <? j) with false by blia.
  by rewrite andb_false_r.
Qed.

Lemma skip_removed_spec fuel : forall j start,
  start <= j -> j - start + 1 <= Z.of_nat fuel -> skip_removed fuel j start = Ok (start - 1).
Proof.
  induction fuel as [|n IH]; intros j start Hj Hf; cbn [skip_removed]; [lia|].
  zcase; [apply IH; lia|]. f_equal. lia.
Qed.

Lemma kept_snoc_false {A} m (l : list A) x :
  length m = length l -> kept (m ++ [false]) (l ++ [x]) = kept m l ++ [x].
Proof. intros H. by rewrite kept_app. Qed.

Lemma kept_app_true {A} m k (l x : list A) :
  length m = length l -> length x = k -> kept (m ++ repeat true k) (l ++ x) = kept m l.
Proof. intros H <-. by rewrite kept_app, kept_all_true, app_nil_r. Qed.

Lemma length_snoc_split {A B} (m : list A) (l : list B) k :
  length l = (length m + k)%nat -> exists a x, l = a ++ x /\ length a = length m /\ length x = k.
Proof.
  intros H. exists (take (length m) l), (drop (length m) l).
  rewrite take_drop, length_take, length_drop. split; [done|]. lia.
Qed.

(** The command lines of one chunk, as [emit_chunk] writes them: [k1] lines
    deleted after the first [n] lines, [x] inserted. *)
Definition chunk_script (n : Z) (k1 : nat) (x : list cdline) : list cdline :=
  match x with
  | [] => [match k1 with
           | 1%nat => dec (n + 1) ++ s2b "d"
           | _ => dec (n + 1) ++ s2b "," ++ dec (n + Z.of_nat k1) ++ s2b "d"
           end]
  | _ => (match k1 with
          | O => dec n ++ s2b "a"
          | 1%nat => dec (n + 1) ++ s2b "c"
          | _ => dec (n + 1) ++ s2b "," ++ dec (n + Z.of_nat k1) ++ s2b "c"
          end) :: x ++ [s2b "."]
  end.

Lemma emit_chunk_spec a2 x b2 n k1 r :
  (0 < k1 + length x)%nat ->
  let out := emit_chunk (a2 ++ x ++ b2) n (zlen a2) (zlen (a2 ++ x) - 1) (zlen x) (Z.of_nat k1) r in
  (Forall not_dot x /\ out = Ok (r ++ chunk_script n k1 x)) \/ (~ Forall not_dot x /\ out = Err).
Proof.
  intros Hne out. unfold out, emit_chunk, chunk_script. destruct x as [|y x].
  { left. split; [constructor|]. change (zlen [] =? 0) with true. cbn [length] in Hne.
    destruct k1 as [|[|k1]]; [lia|done|]. replace (Z.of_nat (S (S k1)) =? 1) with false by blia. done. }
  pose proof (zlen_nonneg x).
  replace (zlen (y :: x) =? 0) with false by (rewrite zlen_cons; blia).
  replace (Z.to_nat (zlen (a2 ++ y :: x) - 1 - zlen a2 + 1)) with (length (y :: x))
    by (rewrite zlen_app; unfold zlen; lia).
  match goal with |- context [r ++ [?c]] => set (cmd := c) end.
  destruct (add_new_lines_spec (y :: x) a2 b2 (r ++ [cmd])) as [[Hd ->]|[Hd ->]]; cbn [cbind];
    [left|right; done]. split; [done|]. f_equal. rewrite <- !app_assoc. cbn [app].
  f_equal. f_equal. unfold cmd.
  destruct k1 as [|[|k1]]; [done|done|].
  replace (Z.of_nat (S (S k1)) =? 0) with false by blia.
  replace (Z.of_nat (S (S k1)) =? 1) with false by blia. done.
Qed.

(** The first line of the script parses to the range of the deleted lines [y]. *)
Lemma chunk_script_parses (full a1 y s x : list cdline) :
  (0 < length y + length x)%nat -> zlen full <= INT32_MAX -> zlen a1 + zlen y + zlen s <= zlen full ->
  exists cmd act,
    chunk_script (zlen a1) (length y) x = cmd :: match x with [] => [] | _ => x ++ [s2b "."] end /\
    parse_ed_command full (zlen a1 + zlen y + zlen s) cmd
      = Ok (match y with [] => zlen a1 | _ => zlen a1 + 1 end, zlen a1 + zlen y, act) /\
    act = match x, y with [], _ => 100 | _, [] => 97 | _, _ => 99 end.
Proof.
  intros Hne Hmax Hlen. pose proof (zlen_nonneg a1). pose proof (zlen_nonneg y). pose proof (zlen_nonneg s).
  assert (Zy : Z.of_nat (length y) = zlen y) by done.
  unfold chunk_script. destruct x as [|x0 x], y as [|y0 [|y1 y]]; cbn [length app] in *;
    rewrite ?zlen_cons in *; change (zlen []) with 0 in *;
    eexists _, _; (split; [done|]); (split; [|done]).
  - lia.
  - rewrite Z.add_0_l. apply parse_single; [lia..|auto].
  - rewrite <- (Z.add_assoc (zlen a1)). cbn [length] in Zy.
    replace (zlen a1 + Z.of_nat (S (S (length y)))) with (zlen a1 + (zlen y + 1 + 1)) by (unfold zlen; lia).
    pose proof (zlen_nonneg y). apply parse_range; [lia..|auto].
  - rewrite Z.add_0_r. apply parse_single; [lia..|auto].
  - rewrite Z.add_0_l. apply parse_single; [lia..|auto].
  - rewrite <- (Z.add_assoc (zlen a1)).
    replace (zlen a1 + Z.of_nat (S (S (length y)))) with (zlen a1 + (zlen y + 1 + 1)) by (unfold zlen; lia).
    pose proof (zlen_nonneg y). apply parse_range; [lia..|auto].
Qed.

(** Applying the script of one chunk.  The consensus is [a1 ++ y ++ s ++ t]:
    [y] is deleted, [s] are the unchanged lines not copied yet. *)
Lemma apply_chunk a1 y s t x d c fuel :
  (0 < length y + length x)%nat -> Forall not_dot x ->
  zlen (a1 ++ y ++ s ++ t) <= INT32_MAX ->
  apply_loop (S fuel) (a1 ++ y ++ s ++ t) (chunk_script (zlen a1) (length y) x ++ d)
    (zlen a1 + zlen y + zlen s) c
  = apply_loop fuel (a1 ++ y ++ s ++ t) d (zlen a1) (c ++ rev s ++ rev x).
Proof.
  intros Hne Hx Hmax. set (full := a1 ++ y ++ s ++ t) in *.
  assert (Hlen : zlen full = zlen a1 + zlen y + zlen s + zlen t) by (unfold full; rewrite !zlen_app; lia).
  pose proof (zlen_nonneg a1). pose proof (zlen_nonneg y). pose proof (zlen_nonneg s).
  pose proof (zlen_nonneg t).
  assert (Zy : Z.of_nat (length y) = zlen y) by done.
  assert (Hcopy : copy_down (S (length full)) full (zlen a1 + zlen y + zlen s) (zlen a1 + zlen y) c
                  = Ok (zlen a1 + zlen y, c ++ rev s)).
  { unfold full. rewrite (app_assoc a1 y), <- zlen_app. apply copy_down_spec.
    rewrite !length_app. lia. }
  assert (Hskip : (0 < length y)%nat ->
     skip_removed (S (length full)) (zlen a1 + zlen y) (zlen a1 + 1) = Ok (zlen a1)).
  { intros Hy. rewrite skip_removed_spec; [f_equal; lia|lia|]. unfold zlen in *. lia. }
  destruct (chunk_script_parses full a1 y s x Hne Hmax) as (cmd & act & -> & Hparse & Hact); [lia|].
  cbn [apply_loop app]. rewrite Hparse. cbn [cbind]. rewrite Hcopy. cbn [cbind].
  destruct y as [|y0 y].
  - destruct x as [|x0 x]; [cbn in Hne; lia|]. subst act. cbn [Z.eqb Pos.eqb orb cbind].
    rewrite <- app_assoc. cbn [app]. change (x0 :: x ++ s2b "." :: d) with ((x0 :: x) ++ s2b "." :: d).
    rewrite collect_added_spec by done. rewrite app_nil_r.
    destruct (rev (x0 :: x)) as [|z zs] eqn:E.
    { apply (f_equal (@length _)) in E. rewrite length_rev in E. done. }
    change (zlen []) with 0. rewrite Z.add_0_r, <- app_assoc. done.
  - destruct x as [|x0 x]; subst act; cbn [Z.eqb Pos.eqb orb].
    + rewrite Hskip by (cbn; lia). cbn [cbind app rev]. by rewrite app_nil_r.
    + rewrite Hskip by (cbn; lia). cbn [cbind].
      rewrite <- app_assoc. cbn [app]. change (x0 :: x ++ s2b "." :: d) with ((x0 :: x) ++ s2b "." :: d).
      rewrite collect_added_spec by done. rewrite app_nil_r.
      destruct (rev (x0 :: x)) as [|z zs] eqn:E.
      { apply (f_equal (@length _)) in E. rewrite length_rev in E. done. }
      rewrite <- app_assoc. done.
Qed.

(** The script emitted for the marks of the prefixes [a1] and [a2], applied in
    a state in which everything after them has been dealt with, completes the
    target.  [full] is the whole first consensus, [s] its lines after [a1]
    that are still to be copied. *)
Definition completes (full : list cdline) (j : Z) (c target d : list cdline) : Prop :=
  forall f, (length d < f)%nat ->
    exists j' c', apply_loop f full d j c = Ok (j', c') /\
      copy_down (S (length full)) full j' 0 c' = Ok (0, rev target).

Lemma completes_nil full s t c target :
  full = s ++ t -> c ++ rev s = rev target -> completes full (zlen s) c target [].
Proof.
  intros -> Hc f Hf. destruct f as [|f]; [cbn in Hf; lia|]. eexists _, _. split; [done|].
  rewrite <- Hc. apply (copy_down_spec s _ [] t c). rewrite length_app. lia.
Qed.

Lemma last_false_cases (m : list bool) :
  List.last m false = false -> m = [] \/ exists m', m = m' ++ [false].
Proof.
  destruct m as [|b m _] using rev_ind; [by left|]. rewrite last_last. intros ->. eauto.
Qed.

Lemma snoc_length_inv {A B} (m : list A) x (l : list B) :
  length (m ++ [x]) = length l -> exists l' y, l = l' ++ [y] /\ length m = length l'.
Proof.
  rewrite length_app. destruct l as [|y l _] using rev_ind; cbn; [lia|].
  rewrite length_app. cbn. intros H. exists l, y. split; [done|lia].
Qed.

(** What the loop of [gen_ed_diff] achieves from the last lines of [a1] and [a2] on. *)
Definition emit_case fuel a1 m1 n1 a2 m2 n2 b2 s t c r : Prop :=
  let out := emit_loop fuel (a2 ++ b2) (m1 ++ n1) (m2 ++ n2) (zlen a1 - 1) (zlen a2 - 1) r in
  (exists d, out = Ok (r ++ d) /\
     completes (a1 ++ s ++ t) (zlen a1 + zlen s) c (a2 ++ b2) d) \/
  (~ Forall not_dot a2 /\ out = Err).

Section EmitStep.
Variable fuel : nat.
Hypothesis IH : forall a1 m1 n1 a2 m2 n2 b2 s t c r,
  length m1 = length a1 -> length m2 = length a2 -> kept m1 a1 = kept m2 a2 ->
  c ++ rev s = rev b2 -> zlen (a1 ++ s ++ t) <= INT32_MAX ->
  (length a1 + length a2 < fuel)%nat ->
  emit_case fuel a1 m1 n1 a2 m2 n2 b2 s t c r.

(** The last lines of both lists are unchanged. *)
Lemma emit_common a1 m1 n1 a2 m2 n2 b2 s t c r :
  length m1 = length a1 -> length m2 = length a2 -> kept m1 a1 = kept m2 a2 ->
  c ++ rev s = rev b2 -> zlen (a1 ++ s ++ t) <= INT32_MAX ->
  (length a1 + length a2 < S fuel)%nat ->
  0 <= zlen a1 - 1 \/ 0 <= zlen a2 - 1 -> List.last m1 false = false -> List.last m2 false = false ->
  emit_case (S fuel) a1 m1 n1 a2 m2 n2 b2 s t c r.
Proof.
  intros L1 L2 Hk Hc Hmax Hf Hpos E1 E2. unfold emit_case. cbn [emit_loop].
  assert (Z1 : zlen a1 = zlen m1) by (unfold zlen; by rewrite L1).
  assert (Z2 : zlen a2 = zlen m2) by (unfold zlen; by rewrite L2).
  replace ((0 <=? zlen a1 - 1) || (0 <=? zlen a2 - 1)) with true by blia.
  rewrite Z1, Z2, !is_changed_last. cbn [cbind]. rewrite <- Z1, <- Z2, E1, E2. cbn [negb andb].
  destruct (last_false_cases m1) as [-> | [m1' ->]]; [done| |];
    destruct (last_false_cases m2) as [-> | [m2' ->]]; try done.
  + destruct a1; [|done]. destruct a2; [|done]. change (zlen []) with 0 in Hpos. lia.
  + destruct a1; [|done]. apply snoc_length_inv in L2 as (a2' & y & -> & L2').
    rewrite kept_snoc_false in Hk by done. destruct (kept m2' a2'); done.
  + destruct a2; [|done]. apply snoc_length_inv in L1 as (a1' & x & -> & L1').
    rewrite kept_snoc_false in Hk by done. destruct (kept m1' a1'); done.
  + apply snoc_length_inv in L1 as (a1' & x & -> & L1').
    apply snoc_length_inv in L2 as (a2' & y & -> & L2').
    rewrite !kept_snoc_false in Hk by done. apply app_inj_tail in Hk as [Hk ->].
    rewrite !zlen_app in *. change (zlen [y]) with 1 in *.
    pose proof (zlen_nonneg a1'). pose proof (zlen_nonneg a2').
    replace (0 <=? zlen a1' + 1 - 1) with true by blia.
    replace (0 <=? zlen a2' + 1 - 1) with true by blia.
    replace (zlen a1' + 1 - 1 - 1) with (zlen a1' - 1) by lia.
    replace (zlen a2' + 1 - 1 - 1) with (zlen a2' - 1) by lia.
    rewrite !length_app in Hf. cbn [length] in Hf.
    rewrite <- !(app_assoc _ [false]), <- !(app_assoc _ [y]).
    destruct (IH a1' m1' ([false] ++ n1) a2' m2' ([false] ++ n2) ([y] ++ b2) ([y] ++ s) t c r)
      as [(d & -> & Hd)|[Hdot ->]]; try done.
    * cbn. by rewrite app_assoc, Hc.
    * rewrite !zlen_app. change (zlen [y]) with 1. lia.
    * lia.
    * left. exists d. split; [done|]. rewrite <- app_assoc in Hd. 
      replace (zlen a1' + 1 + zlen s) with (zlen a1' + zlen ([y] ++ s)); [exact Hd|].
      rewrite zlen_app. change (zlen [y]) with 1. lia.
    * right. split; [|done]. intros [? ?]%Forall_app. done.
Qed.

(** A run of changed lines ends at the last lines. *)
Lemma emit_changes a1 m1 n1 a2 m2 n2 b2 s t c r :
  length m1 = length a1 -> length m2 = length a2 -> kept m1 a1 = kept m2 a2 ->
  c ++ rev s = rev b2 -> zlen (a1 ++ s ++ t) <= INT32_MAX ->
  (length a1 + length a2 < S fuel)%nat ->
  0 <= zlen a1 - 1 \/ 0 <= zlen a2 - 1 -> negb (List.last m1 false) && negb (List.last m2 false) = false ->
  emit_case (S fuel) a1 m1 n1 a2 m2 n2 b2 s t c r.
Proof.
  intros L1 L2 Hk Hc Hmax Hf Hpos Elast. unfold emit_case. cbn [emit_loop].
  assert (Z1 : zlen a1 = zlen m1) by (unfold zlen; by rewrite L1).
  assert (Z2 : zlen a2 = zlen m2) by (unfold zlen; by rewrite L2).
  replace ((0 <=? zlen a1 - 1) || (0 <=? zlen a2 - 1)) with true by blia.
  rewrite Z1, Z2, !is_changed_last. cbn [cbind]. rewrite <- Z1, <- Z2, Elast.
  destruct (back_over_changed_spec (S (length (m1 ++ n1))) n1 m1) as (m1' & k1 & -> & Hb1 & K1);
    [rewrite length_app; lia|].
  destruct (back_over_changed_spec (S (length (m2 ++ n2))) n2 m2) as (m2' & k2 & -> & Hb2 & K2);
    [rewrite length_app; lia|].
  rewrite Z1, Z2, Hb1. cbn [cbind]. rewrite Hb2. cbn [cbind].
  assert (Hne : (0 < k1 + k2)%nat).
  { destruct k1, k2; try lia. rewrite (K1 eq_refl), (K2 eq_refl) in Elast. done. }
  rewrite length_app, repeat_length in L1, L2.
  destruct (length_snoc_split m1' a1 k1) as (a1' & y & -> & La1 & Ly); [done|].
  destruct (length_snoc_split m2' a2 k2) as (a2' & x & -> & La2 & Lx); [done|].
  rewrite !kept_app_true in Hk by done.
  rewrite <- Z1, <- Z2.
  assert (Y1 : zlen a1' = zlen m1') by (unfold zlen; by rewrite La1).
  assert (Y2 : zlen a2' = zlen m2') by (unfold zlen; by rewrite La2).
  assert (ky : zlen y = Z.of_nat k1) by (unfold zlen; by rewrite Ly).
  assert (kx : zlen x = Z.of_nat k2) by (unfold zlen; by rewrite Lx).
  rewrite <- Y1, <- Y2.
  replace (zlen a1' - 1 + 1) with (zlen a1') by lia.
  replace (zlen a2' - 1 + 1) with (zlen a2') by lia.
  replace (zlen (a1' ++ y) - 1 - (zlen a1' - 1)) with (Z.of_nat k1) by (rewrite zlen_app; lia).
  replace (zlen (a2' ++ x) - 1 - (zlen a2' - 1)) with (zlen x) by (rewrite zlen_app; lia).
  destruct (emit_chunk_spec a2' x b2 (zlen a1') k1 r) as [[Hdot He]|[Hdot He]]; [lia| |];
    rewrite app_assoc in He; rewrite He; cbn [cbind].
  2:{ right. split; [|done]. intros [? ?]%Forall_app. done. }
  rewrite <- !(app_assoc _ (repeat true _)), <- !(app_assoc _ x).
  rewrite !length_app in Hf.
  destruct (IH a1' m1' (repeat true k1 ++ n1) a2' m2' (repeat true k2 ++ n2) (x ++ b2)
              [] (y ++ s ++ t) (c ++ rev s ++ rev x) (r ++ chunk_script (zlen a1') k1 x))
    as [(d & -> & Hd)|[Hdot' ->]]; try done.
  + cbn. by rewrite rev_app_distr, <- Hc, app_nil_r, <- app_assoc.
  + cbn [app]. by rewrite <- app_assoc in Hmax.
  + lia.
  + left. exists (chunk_script (zlen a1') k1 x ++ d). split; [by rewrite <- app_assoc|].
    intros f Hlt. destruct f as [|f]; [lia|].
    rewrite <- app_assoc. rewrite zlen_app, <- Ly.
    rewrite apply_chunk; [|lia|done|by rewrite <- app_assoc in Hmax].
    cbn [app] in Hd. change (zlen []) with 0 in Hd. rewrite Z.add_0_r in Hd.
    apply Hd. rewrite length_app in Hlt.
    assert (1 <= length (chunk_script (zlen a1') k1 x))%nat; [|lia].
    unfold chunk_script. destruct x; cbn; lia.
  + right. split; [|done]. intros [? ?]%Forall_app. done.
Qed.
End EmitStep.

Lemma emit_apply fuel : forall a1 m1 n1 a2 m2 n2 b2 s t c r,
  length m1 = length a1 -> length m2 = length a2 -> kept m1 a1 = kept m2 a2 ->
  c ++ rev s = rev b2 -> zlen (a1 ++ s ++ t) <= INT32_MAX ->
  (length a1 + length a2 < fuel)%nat ->
  emit_case fuel a1 m1 n1 a2 m2 n2 b2 s t c r.
Proof.
  induction fuel as [|fuel IH]; intros a1 m1 n1 a2 m2 n2 b2 s t c r L1 L2 Hk Hc Hmax Hf; [lia|].
  destruct ((0 <=? zlen a1 - 1) || (0 <=? zlen a2 - 1)) eqn:Econd.
  - apply orb_true_iff in Econd. rewrite !Z.leb_le in Econd.
    destruct (negb (List.last m1 false) && negb (List.last m2 false)) eqn:Elast.
    + boolp. by apply emit_common.
    + by apply emit_changes.
  - unfold emit_case. cbn [emit_loop]. rewrite Econd. boolp. left. exists []. rewrite app_nil_r. split; [done|].
    destruct a1; [|rewrite zlen_cons in *; pose proof (zlen_nonneg a1); lia].
    destruct a2; [|rewrite zlen_cons in *; pose proof (zlen_nonneg a2); lia].
    apply (completes_nil _ s t); done.
Qed.

(** *** Generation as a whole *)

(** What [gen_ed_diff] does after preprocessing. *)
Lemma gen_rest_spec cons1 cons2 t r :
  zlen (cons1 ++ t) <= INT32_MAX ->
  let fuel := S (length cons1 + length cons2 + 2) in
  let out :=
    (let* (changed1, changed2) :=
       changes_loop fuel cons1 cons2 (-1) (-1) 0 0 ROUTER_ID_ITERATOR_INIT ROUTER_ID_ITERATOR_INIT
         (repeat false (length cons1)) (repeat false (length cons2)) in
     emit_loop fuel cons2 changed1 changed2 (zlen cons1 - 1) (zlen cons2 - 1) r) in
  out = Err \/
  exists d, out = Ok (r ++ d) /\ completes (cons1 ++ t) (zlen cons1) [] cons2 d.
Proof.
  intros Hmax fuel out. unfold out.
  pose proof (zlen_nonneg cons1). pose proof (zlen_nonneg cons2).
  destruct (changes_loop_spec cons1 cons2 fuel (-1) (-1) 0 0
    ROUTER_ID_ITERATOR_INIT ROUTER_ID_ITERATOR_INIT [] [])
    as [He|(ch1 & ch2 & He & L1 & L2 & Hk)]; try (done || lia).
  { unfold fuel, zlen. lia. }
  - rewrite !Z.sub_0_r in He. unfold zlen in He. rewrite !Nat2Z.id in He. cbn [app] in He.
    rewrite He. by left.
  - rewrite !Z.sub_0_r in He. unfold zlen in He. rewrite !Nat2Z.id in He. cbn [app] in He.
    rewrite He. cbn [cbind].
    destruct (emit_apply fuel cons1 ch1 [] cons2 ch2 [] [] [] t [] r) as [(d & Hd & Hcomp)|[_ Hd]];
      try done.
    + unfold fuel. lia.
    + right. exists d. rewrite !app_nil_r in Hd. split; [done|].
      change (zlen []) with 0 in Hcomp. rewrite Z.add_0_r, app_nil_r in Hcomp. done.
    + left. by rewrite !app_nil_r in Hd.
Qed.

Lemma apply_completes full target d :
  completes full (zlen full) [] target d -> apply_ed_diff full d 0 = Ok target.
Proof.
  intros H. unfold apply_ed_diff. cbn [Z.to_nat]. rewrite drop_0.
  destruct (H (S (length d))) as (j & c & -> & Hc); [lia|]. cbn [cbind].
  rewrite Hc. cbn [cbind]. by rewrite rev_involutive.
Qed.

(** A script whose first command deletes a trailer of [post]. *)
Lemma completes_trailer pre l post target d :
  zlen (pre ++ l :: post) <= INT32_MAX -> post <> [] ->
  completes (pre ++ l :: post) (zlen pre) [] target d ->
  completes (pre ++ l :: post) (zlen (pre ++ l :: post)) [] target
    ((dec (zlen pre + 1) ++ s2b ",$d") :: d).
Proof.
  intros Hmax Hpost Hd f Hf. destruct f as [|f]; [lia|]. cbn [apply_loop].
  assert (Hlen : zlen (pre ++ l :: post) = zlen pre + 1 + zlen post).
  { rewrite zlen_app, zlen_cons. lia. }
  pose proof (zlen_nonneg pre).
  assert (0 < zlen post) by (destruct post; [done|rewrite zlen_cons; pose proof (zlen_nonneg post); lia]).
  rewrite parse_trailer by lia.
  replace (zlen (pre ++ l :: post) <=? zlen pre + 1) with false by blia. cbn [cbind].
  rewrite copy_down_nothing by lia. cbn [cbind Z.eqb Pos.eqb orb].
  rewrite skip_removed_spec; [|lia|unfold zlen in *; lia]. cbn [cbind].
  replace (zlen pre + 1 - 1) with (zlen pre) by lia.
  apply Hd. cbn in Hf. lia.
Qed.

(** The signature section of a consensus is absent or has at least two lines
    (a [directory-signature] line is followed by the signature object). *)
Definition trailer_ok (cons : list cdline) : Prop :=
  find_dirsig cons 0 < 0 \/ find_dirsig cons 0 + 1 < zlen cons.

Lemma gen_apply_ok cons1 cons2 diff :
  zlen cons1 <= INT32_MAX -> trailer_ok cons1 ->
  gen_ed_diff cons1 cons2 = Ok diff -> apply_ed_diff cons1 diff 0 = Ok cons2.
Proof.
  intros Hmax Htr Hgen. apply apply_completes. unfold gen_ed_diff in Hgen.
  destruct (preprocess_spec cons1) as [[_ Hp]|(pre & l & post & -> & Hidx & Hp)];
    rewrite Hp in Hgen; cbn [cbind] in Hgen.
  - destruct (gen_rest_spec cons1 cons2 [] []) as [He|(d & He & Hd)].
    + by rewrite app_nil_r.
    + rewrite He in Hgen. done.
    + rewrite He in Hgen. rewrite app_nil_r in Hd. cbn in Hgen. by simplify_eq.
  - destruct (gen_rest_spec pre cons2 (l :: post) [dec (zlen pre + 1) ++ s2b ",$d"])
      as [He|(d & He & Hd)]; [done|rewrite He in Hgen; done|].
    rewrite He in Hgen. cbn [app] in Hgen. simplify_eq.
    apply completes_trailer; [done| |done].
    intros ->. destruct Htr as [Htr|Htr]; rewrite Hidx in Htr.
    + pose proof (zlen_nonneg pre). lia.
    + rewrite zlen_app in Htr. change (zlen [l]) with 1 in Htr. lia.
Qed.

(** C2.  Applying a generated diff gives the target.  For any two consensuses of
    at most [INT32_MAX] lines, if [gen_ed_diff] produces a script then
    [apply_ed_diff] accepts it on the first consensus and rebuilds exactly the
    second, provided the signature section of the first is absent or has more
    than one line ([trailer_ok]; [one_line_trailer_rejected] shows that a section
    of a single line is refused).  This is the check that [consdiff_gen_diff] repeats at run
    time and labels impossible to fail. *)
Theorem gen_apply_roundtrip cons1 cons2 diff :
  zlen cons1 <= INT32_MAX -> trailer_ok cons1 ->
  gen_ed_diff cons1 cons2 = Ok diff -> apply_ed_diff cons1 diff 0 = Ok cons2.
Proof. apply gen_apply_ok. Qed.

Definition ex_cons1 : list cdline := map s2b
  ["hdr"; "v 1"; "r a AAAA x"; "s foo"; "r b BBBB"; "s x"; "foot";
   "directory-signature x"; "sig"]%string.
Definition ex_cons2 : list cdline := map s2b
  ["hdr"; "v 2"; "r a AAAA x"; "s foo"; "r c CCCC"; "s x"; "foot";
   "directory-signature y"; "sig2"]%string.

Lemma gen_apply_roundtrip_witness :
  exists d, gen_ed_diff ex_cons1 ex_cons2 = Ok d /\ d <> [] /\ apply_ed_diff ex_cons1 d 0 = Ok ex_cons2.
Proof.
  eexists. split; [vm_compute; reflexivity|]. split; [done|].
  apply gen_apply_roundtrip; [vm_compute; discriminate|right; vm_compute; reflexivity|
    vm_compute; reflexivity].
Defined.

Lemma gen_ed_diff_ok cons1 cons2 :
  zlen cons1 <= INT32_MAX ->
  gen_ed_diff cons1 cons2 = Err \/ exists d, gen_ed_diff cons1 cons2 = Ok d.
Proof.
  intros Hmax. unfold gen_ed_diff.
  destruct (preprocess_spec cons1) as [[_ ->]|(pre & l & post & -> & Hidx & ->)]; cbn [cbind].
  - destruct (gen_rest_spec cons1 cons2 [] []) as [He|(d & He & _)];
      [by rewrite app_nil_r|rewrite He; by left|rewrite He; eauto].
  - destruct (gen_rest_spec pre cons2 (l :: post) [dec (zlen pre + 1) ++ s2b ",$d"])
      as [He|(d & He & _)]; [done|rewrite He; by left|rewrite He; eauto].
Qed.

(**  Generation never gets stuck: on every pair of consensuses (of at most
    [INT32_MAX] lines) [gen_ed_diff] either produces a script or refuses; no
    [tor_assert] fails, no array is accessed out of bounds, and all its loops
    end, whatever the order of the router entries. *)
Theorem gen_ed_diff_total cons1 cons2 :
  zlen cons1 <= INT32_MAX ->
  gen_ed_diff cons1 cons2 = Err \/ exists d, gen_ed_diff cons1 cons2 = Ok d.
Proof. apply gen_ed_diff_ok. Qed.

Lemma gen_ed_diff_total_witness :
  gen_ed_diff ex_cons2 (map s2b ["r b BBBB"; "r a AAAA"]%string) = Err \/
  exists d, gen_ed_diff ex_cons2 (map s2b ["r b BBBB"; "r a AAAA"]%string) = Ok d.
Proof. apply gen_ed_diff_total. vm_compute. discriminate. Defined.

(**  The one input on which a generated script does not apply: when the
    signature section of the base consensus is a single line, the script
    starts with the command [n,$d] where [n] is the last line number, which
    [apply_ed_diff] rejects as an empty range. *)
Theorem one_line_trailer_rejected cons1 cons2 diff :
  zlen cons1 <= INT32_MAX -> 0 <= find_dirsig cons1 0 -> find_dirsig cons1 0 + 1 = zlen cons1 ->
  gen_ed_diff cons1 cons2 = Ok diff -> apply_ed_diff cons1 diff 0 = Err.
Proof.
  intros Hmax Hpos Hone Hgen. unfold gen_ed_diff in Hgen.
  destruct (preprocess_spec cons1) as [[Hn _]|(pre & l & post & -> & Hidx & Hp)]; [lia|].
  rewrite Hp in Hgen. cbn [cbind] in Hgen.
  destruct (gen_rest_spec pre cons2 (l :: post) [dec (zlen pre + 1) ++ s2b ",$d"])
    as [He|(d & He & _)]; [done|rewrite He in Hgen; done|].
  rewrite He in Hgen. cbn [app] in Hgen. simplify_eq.
  unfold apply_ed_diff. cbn [Z.to_nat]. rewrite drop_0. cbn [length apply_loop].
  pose proof (zlen_nonneg pre). rewrite parse_trailer by lia.
  replace (zlen (pre ++ l :: post) <=? zlen pre + 1) with true by blia. done.
Qed.

Definition ex_short_trailer : list cdline := map s2b ["hdr"; "directory-signature x"]%string.

Lemma one_line_trailer_rejected_witness :
  exists d, gen_ed_diff ex_short_trailer ex_cons2 = Ok d /\
            apply_ed_diff ex_short_trailer d 0 = Err.
Proof.
  eexists. split; [vm_compute; reflexivity|].
  apply (one_line_trailer_rejected _ ex_cons2);
    [vm_compute; discriminate|vm_compute; discriminate|vm_compute; reflexivity..].
Defined.

(** *** Robustness of application *)

Lemma get_linenum_spec s :
  get_linenum s = Err \/ exists n r, get_linenum s = Ok (n, r) /\ 0 <= n <= INT32_MAX.
Proof.
  unfold get_linenum. destruct (negb _); [by left|].
  unfold tor_parse_long. cbn [Z.ltb Z.compare]. unfold CHECK_STRTOX_RESULT.
  repeat case_match; simplify_eq/=; try (by left). right. eexists _, _. split; [done|]. boolp. lia.
Qed.

Lemma parse_ed_command_spec cons1 j line :
  parse_ed_command cons1 j line = Err \/
  exists start end_ act, parse_ed_command cons1 j line = Ok (start, end_, act) /\
    0 <= start <= end_ /\ end_ <= j /\ (act = 97 \/ act = 99 \/ act = 100).
Proof.
  unfold parse_ed_command. destruct (_ <? _); [by left|].
  destruct (get_linenum_spec (nul_terminated line)) as [->|(n & p & -> & Hn)]; [by left|]. cbn [cbind].
  match goal with |- context [cbind ?m _] => assert (m = Err \/ exists hr eof e p', m = Ok (hr, eof, e, p') /\
    n <= e) as [->|(hr & eof & e & p' & -> & He)] end.
  { destruct (cur p =? 44); [|right; eexists _, _, _, _; split; [done|lia]].
    destruct (cur (tail p) =? 36); cbn [cbind].
    - zcase; [by left|]. right. eexists _, _, _, _. split; [done|lia].
    - destruct (get_linenum_spec (tail p)) as [->|(m & p2 & -> & Hm)]; [by left|]. cbn [cbind].
      zcase; [by left|]. right. eexists _, _, _, _. split; [done|lia]. }
  { by left. }
  cbn [cbind]. zcase; [by left|]. destruct p' as [|act rest]; [by left|].
  repeat (case_match; [by left|]). right. eexists _, _, _. split; [done|]. split; [lia|]. split; [lia|].
  boolp. rewrite !orb_true_iff, !Z.eqb_eq in *. lia.
Qed.

Lemma copy_down_any fuel cons1 j e c :
  0 <= e <= j -> j <= zlen cons1 -> (length cons1 < fuel)%nat ->
  exists s, copy_down fuel cons1 j e c = Ok (e, c ++ rev s) /\ sublist s cons1.
Proof.
  intros He Hj Hf.
  set (a := take (Z.to_nat e) cons1). set (s := drop (Z.to_nat e) (take (Z.to_nat j) cons1)).
  set (t := drop (Z.to_nat j) cons1).
  assert (Hl : cons1 = a ++ s ++ t).
  { unfold a, s, t. rewrite app_assoc.
    replace (take (Z.to_nat e) cons1) with (take (Z.to_nat e) (take (Z.to_nat j) cons1)).
    - by rewrite !take_drop.
    - rewrite take_take. f_equal. lia. }
  assert (La : zlen a = e) by (unfold a, zlen in *; rewrite length_take; lia).
  assert (Ls : zlen s = j - e) by (unfold s, zlen in *; rewrite length_drop, length_take; lia).
  clearbody a s t. subst cons1. exists s.
  split; [|by apply sublist_inserts_l, sublist_inserts_r].
  pose proof (copy_down_spec s fuel a t c) as H. rewrite La in H.
  replace (e + zlen s) with j in H by lia. apply H. rewrite !length_app in Hf. lia.
Qed.

Lemma collect_added_subset diff : forall acc x r,
  collect_added diff acc = Some (x, r) ->
  (length r < length diff)%nat /\ r ⊆ diff /\ x ⊆ acc ++ diff.
Proof.
  induction diff as [|l diff IH]; intros acc x r H; cbn [collect_added] in H; [done|].
  destruct (line_str_eq l (s2b ".")).
  - simplify_eq. split; [cbn; lia|]. split; set_solver.
  - apply IH in H as (H1 & H2 & H3). split; [cbn; lia|]. split; set_solver.
Qed.

Lemma rev_subseteq {A} (l k : list A) : l ⊆ k -> rev l ⊆ k.
Proof.
  intros H z Hz. apply H. apply list_elem_of_In in Hz. apply in_rev in Hz. by apply list_elem_of_In.
Qed.

Lemma apply_loop_spec cons1 fuel : forall diff j c,
  (length diff < fuel)%nat -> -1 <= j <= zlen cons1 ->
  apply_loop fuel cons1 diff j c = Err \/
  exists j' x, apply_loop fuel cons1 diff j c = Ok (j', c ++ x) /\ -1 <= j' <= zlen cons1 /\
    x ⊆ cons1 ++ diff.
Proof.
  induction fuel as [|n IH]; intros diff j c Hf Hj; [lia|]. cbn [apply_loop].
  destruct diff as [|line diff].
  { right. exists j, []. rewrite app_nil_r. split; [done|]. split; [done|set_solver]. }
  cbn in Hf.
  destruct (parse_ed_command_spec cons1 j line) as [->|(st & e & act & -> & H1 & H2 & Hact)];
    [by left|]. cbn [cbind].
  destruct (copy_down_any (S (length cons1)) cons1 j e c) as (s & -> & Hs%sublist_subseteq);
    [lia..|]. cbn [cbind].
  match goal with |- context [cbind ?m _] => assert (exists j', m = Ok j' /\ -1 <= j' <= zlen cons1)
    as (j' & -> & Hj') end.
  { destruct (_ || _); [|eexists; split; [done|lia]].
    rewrite skip_removed_spec; [eexists; split; [done|lia]|lia|unfold zlen in *; lia]. }
  cbn [cbind]. destruct ((act =? 97) || (act =? 99)).
  - destruct (collect_added diff []) as [[x r]|] eqn:Ex; [|by left].
    apply collect_added_subset in Ex as (L & R & X).
    destruct x as [|x0 x]; [by left|].
    destruct (IH r j' ((c ++ rev s) ++ x0 :: x)) as [->|(k & y & -> & Hk & Hy)]; [lia|lia|by left|].
    right. exists k, (rev s ++ (x0 :: x) ++ y). rewrite <- !app_assoc. split; [done|]. split; [done|].
    cbn [app] in X. pose proof (rev_subseteq _ _ Hs).
    set_solver.
  - destruct (IH diff j' (c ++ rev s)) as [->|(k & y & -> & Hk & Hy)]; [lia|lia|by left|].
    right. exists k, (rev s ++ y). rewrite <- !app_assoc. split; [done|]. split; [done|].
    pose proof (rev_subseteq _ _ Hs).
    set_solver.
Qed.

Lemma apply_ed_diff_ok cons1 diff k :
  apply_ed_diff cons1 diff k = Err \/
  exists c, apply_ed_diff cons1 diff k = Ok c /\ c ⊆ cons1 ++ diff.
Proof.
  unfold apply_ed_diff. set (d := drop (Z.to_nat k) diff).
  assert (Hd : d ⊆ diff) by (apply sublist_subseteq, sublist_drop).
  pose proof (zlen_nonneg cons1).
  destruct (apply_loop_spec cons1 (S (length d)) d (zlen cons1) []) as [->|(j & x & -> & Hj & Hx)];
    [lia|lia|by left|]. cbn [cbind app].
  assert (exists s, copy_down (S (length cons1)) cons1 j 0 x = Ok (Z.min j 0, x ++ rev s) /\ s ⊆ cons1)
    as (s & -> & Hs).
  { destruct (decide (0 <= j)).
    - destruct (copy_down_any (S (length cons1)) cons1 j 0 x) as (s & -> & Hs); [lia..|].
      exists s. rewrite Z.min_r by lia. split; [done|by apply sublist_subseteq].
    - exists []. rewrite copy_down_nothing by lia. rewrite Z.min_l, app_nil_r by lia. set_solver. }
  cbn [cbind]. right. eexists. split; [done|].
  apply rev_subseteq. pose proof (rev_subseteq _ _ Hs). set_solver.
Qed.

(**  A diff from the network cannot crash the client: for every base
    consensus, every list of lines taken as a diff and every starting line,
    [apply_ed_diff] returns NULL or a consensus, with no access out of bounds
    and no endless loop, and every line of its result is a line of one of the
    two inputs. *)
Theorem apply_ed_diff_total cons1 diff k :
  apply_ed_diff cons1 diff k = Err \/
  exists c, apply_ed_diff cons1 diff k = Ok c /\ c ⊆ cons1 ++ diff.
Proof. apply apply_ed_diff_ok. Qed.
