(* ===== verification/ConsDiff.v ===== *)
(** * Consensus diffs of documents

    Models the top of feature/dircommon/consdiff.c (from documents to diffs
    and back), and what it calls to find the signed part of a consensus:
    [router_get_hash_impl_helper] of feature/dirparse/sigcommon.c and the two
    boundary functions of feature/dirparse/ns_parse.c.

    [crypto_digest256] is the SHA3-256 of the crypto library, a parameter; what is
    assumed of it is that it succeeds and returns 32 bytes. *)

From S2P Require Import Prelude CString DiOps UtilString StrList Binascii DiffChanges DiffEd.
From Stdlib Require Import ZArith String.
From stdpp Require Import base list numbers.
Open Scope Z_scope.

Definition ns_diff_version : bytes := s2b "network-status-diff-version 1".
Definition hash_token : bytes := s2b "hash".
Definition CONSENSUS_LINE_MAX_LEN : Z := Z.shiftl 1 20.
Definition DIGEST256_LEN : Z := 32.
Definition HEX_DIGEST256_LEN : Z := 64.

(** ** Documents and lines *)

Fixpoint split_lines_loop (fuel : nat) (s : bytes) : cres (list cdline) :=
  match fuel with
  | O => Fuel
  | S fuel =>
      match s with
      | [] => Ok []
      | _ =>
          match memchr s 10 (length s) with
          | None => Err
          | Some eol =>
              let len := zlen s - zlen eol in
              if CONSENSUS_LINE_MAX_LEN <? len then Err
              else
                let* rest := split_lines_loop fuel (tail eol) in
                Ok (take (Z.to_nat len) s :: rest)
          end
      end
  end.

Definition consensus_split_lines (s : bytes) : cres (list cdline) := split_lines_loop (S (length s)) s.

(** The [memcpy]s into the result, NUL apart. *)
Fixpoint join_lines_out (inp : list cdline) : bytes :=
  match inp with
  | [] => []
  | l :: r => l ++ 10 :: join_lines_out r
  end.

Definition consensus_join_lines (inp : list cdline) : cres bytes :=
  let n := foldr (fun l n => zlen l + 1 + n) 0 inp + 1 in
  let out := join_lines_out inp in
  assert! (zlen out + 1 =? n);
  Ok out.

Definition looks_like_a_consensus_diff (document : bytes) : bool :=
  (zlen ns_diff_version <=? zlen document) &&
  (memcmp (take (length ns_diff_version) document) ns_diff_version =? 0).

(** ** The signed part of a consensus *)

(** The offsets of [*start_out] and [*end_out]. *)
Definition router_get_hash_impl_helper (s start_str end_str : bytes) (end_c : Z) : cres (Z * Z) :=
  let* found := tor_memstr s start_str in
  match found with
  | None => Err
  | Some start_p =>
      let start := zlen s - zlen start_p in
      let* bad := (if negb (start =? 0) then let* c := aget s (start - 1) in Ok (negb (c =? 10)) else Ok false) in
      if bad : bool then Err
      else
        let* found := tor_memstr (drop (length start_str) start_p) end_str in
        match found with
        | None => Err
        | Some end_p =>
            let rest := drop (length end_str) end_p in
            match memchr rest end_c (length rest) with
            | None => Err
            | Some end_p => Ok (start, zlen s - zlen end_p + 1)
            end
        end
  end.

Definition router_get_networkstatus_v3_signed_boundaries (s : bytes) : cres (Z * Z) :=
  router_get_hash_impl_helper s (s2b "network-status-version") (10 :: s2b "directory-signature") 32.

Section Digest.
Variable crypto_digest256 : bytes -> cres bytes.

Definition router_get_networkstatus_v3_sha3_as_signed (s : bytes) : cres bytes :=
  match router_get_networkstatus_v3_signed_boundaries s with
  | Ok (start, end_) => crypto_digest256 (take (Z.to_nat (end_ - start)) (drop (Z.to_nat start) s))
  | Err => crypto_digest256 s
  | Bug => Bug
  | Fuel => Fuel
  end.

Definition consensus_compute_digest (cons : bytes) : cres bytes := crypto_digest256 cons.
Definition consensus_compute_digest_as_signed (cons : bytes) : cres bytes :=
  router_get_networkstatus_v3_sha3_as_signed cons.
Definition consensus_digest_eq (d1 d2 : bytes) : bool :=
  memcmp (take (Z.to_nat DIGEST256_LEN) d1) (take (Z.to_nat DIGEST256_LEN) d2) =? 0.

(** ** Diffs of lists of lines *)

(** [tor_snprintf(buf, size, "%s", s)]: at most [size - 1] bytes. *)
Definition snprintf_s (size : Z) (s : bytes) : bytes := take (Z.to_nat (size - 1)) s.

(** The comparison of the test application with the target. *)
Fixpoint all_lines_eq (l1 l2 : list cdline) : bool :=
  match l1, l2 with
  | a :: r1, b :: r2 => if negb (lines_eq a b) then false else all_lines_eq r1 r2
  | _, _ => true
  end.

Definition consdiff_gen_diff (cons1 cons2 : list cdline) (digests1 digests2 : bytes) : cres (list cdline) :=
  let* ed_diff := gen_ed_diff cons1 cons2 in
  let* ed_cons2 := apply_ed_diff cons1 ed_diff 0 in
  let cons2_eq := if zlen cons2 =? zlen ed_cons2 then all_lines_eq cons2 ed_cons2 else false in
  if negb cons2_eq then Err
  else
    let* cons1_hash_hex := Base16.base16_encode (HEX_DIGEST256_LEN + 1) digests1 in
    let* cons2_hash_hex := Base16.base16_encode (HEX_DIGEST256_LEN + 1) digests2 in
    Ok (snprintf_s 160 ns_diff_version ::
        snprintf_s 160 (hash_token ++ [32] ++ cons1_hash_hex ++ [32] ++ cons2_hash_hex) ::
        ed_diff).

Definition consdiff_get_digests (diff : list cdline) : cres (bytes * bytes) :=
  match diff with
  | format :: line2 :: _ =>
      if negb (line_str_eq format ns_diff_version) then Err
      else
        let h := nul_terminated line2 in
        let* hash_words := smartlist_split_string h (Some [32]) 0 4 in
        match hash_words with
        | [w; cons1_hash_hex; cons2_hash_hex] =>
            if negb (strcmp w hash_token =? 0) then Err
            else if negb (zlen cons1_hash_hex =? HEX_DIGEST256_LEN) || negb (zlen cons2_hash_hex =? HEX_DIGEST256_LEN)
            then Err
            else
              let* cons1_hash := Base16.base16_decode DIGEST256_LEN cons1_hash_hex in
              if negb (zlen cons1_hash =? DIGEST256_LEN) then Err
              else
                let* cons2_hash := Base16.base16_decode DIGEST256_LEN cons2_hash_hex in
                if negb (zlen cons2_hash =? DIGEST256_LEN) then Err
                else Ok (cons1_hash, cons2_hash)
        | _ => Err
        end
  | _ => Err
  end.

Definition consdiff_apply_diff (cons1 diff : list cdline) (digests1 : bytes) : cres bytes :=
  let* (e_cons1_hash, e_cons2_hash) := consdiff_get_digests diff in
  if negb (consensus_digest_eq digests1 e_cons1_hash) then Err
  else
    let* cons2 := apply_ed_diff cons1 diff 2 in
    let* cons2_str := consensus_join_lines cons2 in
    let* cons2_digests := consensus_compute_digest (nul_terminated cons2_str) in
    if negb (consensus_digest_eq cons2_digests e_cons2_hash) then Err
    else Ok (nul_terminated cons2_str).

(** ** Diffs of documents *)

Definition consensus_diff_generate (cons1 cons2 : bytes) : cres bytes :=
  let* d1 := consensus_compute_digest_as_signed cons1 in
  let* d2 := consensus_compute_digest cons2 in
  let* lines1 := consensus_split_lines cons1 in
  let* lines2 := consensus_split_lines cons2 in
  let* result_lines := consdiff_gen_diff lines1 lines2 d1 d2 in
  consensus_join_lines result_lines.

Definition consensus_diff_apply (consensus diff : bytes) : cres bytes :=
  let* d1 := consensus_compute_digest_as_signed consensus in
  let* lines1 := consensus_split_lines consensus in
  let* lines2 := consensus_split_lines diff in
  consdiff_apply_diff lines1 lines2 d1.

End Digest.

(** ** Lines: proofs *)

Definition line_ok (l : cdline) : Prop := 10 ∉ l /\ zlen l <= CONSENSUS_LINE_MAX_LEN.

Lemma join_lines_total inp : consensus_join_lines inp = Ok (join_lines_out inp).
Proof.
  unfold consensus_join_lines.
  assert (zlen (join_lines_out inp) = foldr (fun l n => zlen l + 1 + n) 0 inp) as ->.
  { induction inp as [|l r IH]; cbn [join_lines_out foldr]; [done|]. rewrite zlen_app, zlen_cons, IH. lia. }
  by rewrite Z.eqb_refl.
Qed.

Lemma memchr_len_Some s c q : memchr s c (length s) = Some q -> exists a r, s = a ++ c :: r /\ q = c :: r /\ c ∉ a.
Proof. intros (a & r & -> & -> & H)%memchr_Some. eauto. Qed.

Lemma memchr_first a c r n : c ∉ a -> (length a < n)%nat -> memchr (a ++ c :: r) c n = Some (c :: r).
Proof.
  revert n. induction a as [|x a IH]; intros n Hc Hn; (destruct n as [|n]; [lia|]); cbn [app memchr].
  - by rewrite Z.eqb_refl.
  - apply not_elem_of_cons in Hc as [Hx Hc]. replace (x =? c) with false by blia. apply IH; [done|]. cbn [length] in Hn. lia.
Qed.

(** One line of the loop. *)
Lemma split_lines_step fuel a r :
  10 ∉ a -> zlen a <= CONSENSUS_LINE_MAX_LEN ->
  split_lines_loop (S fuel) (a ++ 10 :: r) = let* rest := split_lines_loop fuel r in Ok (a :: rest).
Proof.
  intros Ha Hl. cbn [split_lines_loop]. destruct (a ++ 10 :: r) as [|x s] eqn:E; [by destruct a|]. rewrite <- E. clear E x s.
  rewrite memchr_first by (rewrite ?length_app; cbn [length]; auto; lia). cbn [tail].
  replace (zlen (a ++ 10 :: r) - zlen (10 :: r)) with (zlen a) by (rewrite zlen_app; lia).
  replace (CONSENSUS_LINE_MAX_LEN <? zlen a) with false by blia. by rewrite take_zapp.
Qed.

Lemma split_lines_sound fuel s l :
  split_lines_loop fuel s = Ok l -> s = join_lines_out l /\ Forall line_ok l.
Proof.
  revert s l. induction fuel as [|f IH]; intros s l; cbn [split_lines_loop]; [done|].
  destruct s as [|x s]; [intros [= <-]; done|]. destruct (memchr (x :: s) 10 _) as [q|] eqn:E; [|done].
  apply memchr_len_Some in E as (a & r & Es & -> & Ha). rewrite Es. cbn [tail].
  replace (zlen (a ++ 10 :: r) - zlen (10 :: r)) with (zlen a) by (rewrite zlen_app; lia).
  zcase; [done|]. intros (rest & Hr & [= <-])%cbind_Ok. rewrite take_zapp by done.
  apply IH in Hr as [-> Hf]. split; [done|]. by constructor.
Qed.

Lemma split_lines_complete fuel l :
  Forall line_ok l -> (length (join_lines_out l) < fuel)%nat -> split_lines_loop fuel (join_lines_out l) = Ok l.
Proof.
  revert fuel. induction l as [|a l IH]; intros fuel Hf Hl; (destruct fuel as [|f]; [lia|]); cbn [join_lines_out] in *; [done|].
  apply Forall_cons_iff in Hf as [[Ha Hm] Hf]. rewrite split_lines_step by done.
  rewrite IH; [done|done|]. rewrite length_app in Hl. cbn [length] in Hl. lia.
Qed.

(** Lines round trip: a document that [consensus_split_lines] accepts is
    the join of its lines, none of which holds a newline or is too long; and the
    join of such lines splits into them again. *)
Theorem split_join_lines_roundtrip s l :
  (consensus_split_lines s = Ok l -> consensus_join_lines l = Ok s /\ Forall line_ok l) /\
  (Forall line_ok l -> consensus_join_lines l = Ok s -> consensus_split_lines s = Ok l).
Proof.
  rewrite join_lines_total. split.
  - intros [-> Hf]%split_lines_sound. done.
  - intros Hf [= <-]. apply split_lines_complete; auto.
Qed.

Lemma split_join_lines_roundtrip_witness :
  (consensus_split_lines [97; 10; 10; 98; 10] = Ok [[97]; []; [98]] /\
   consensus_join_lines [[97]; []; [98]] = Ok [97; 10; 10; 98; 10] /\ Forall line_ok [[97]; []; [98]]).
Proof. split; [reflexivity|]. apply (split_join_lines_roundtrip [97; 10; 10; 98; 10] [[97]; []; [98]]). reflexivity. Defined.

(** ** The lines of a generated diff *)

(** A line that has neither a newline nor a NUL and is not too long. *)
Definition plain (l : cdline) : Prop := line_ok l /\ no_nul l.

Definition cmd_char (c : Z) : Prop := c <> 10 /\ c <> 0.

Lemma cmd_plain l : Forall cmd_char l -> zlen l <= 200 -> plain l.
Proof.
  intros Hf Hl. split; [split|].
  - intros H. apply list_elem_of_In in H. rewrite Forall_forall in Hf. by destruct (Hf _ H).
  - unfold CONSENSUS_LINE_MAX_LEN. change (Z.shiftl 1 20) with 1048576. lia.
  - eapply Forall_weaken; [exact Hf|]. by intros c [_ H].
Qed.

Lemma dec_chars n : 0 <= n -> Forall cmd_char (dec n).
Proof.
  intros Hn. rewrite dec_nonneg by done. destruct (udec_spec n Hn) as (_ & Hd & _).
  eapply Forall_weaken; [exact Hd|]. intros c Hc. cbv beta in Hc. unfold cmd_char. lia.
Qed.

Lemma dec_len n : 0 <= n <= INT32_MAX + 1 -> zlen (dec n) <= 40.
Proof.
  intros Hn. rewrite dec_nonneg by lia. unfold udec, zlen.
  pose proof (length_udec_aux (S (Z.to_nat (Z.log2 n))) n []) as H. cbn [length] in H.
  assert (Z.log2 n <= 32); [|pose proof (Z.log2_nonneg n); lia].
  transitivity (Z.log2 (INT32_MAX + 1)); [apply Z.log2_le_mono; lia|]. vm_compute. discriminate.
Qed.

Lemma cmd1_plain n c : 0 <= n <= INT32_MAX + 1 -> Forall cmd_char c -> zlen c <= 5 -> plain (dec n ++ c).
Proof.
  intros Hn Hc Hl. apply cmd_plain.
  - apply Forall_app. split; [apply dec_chars; lia|done].
  - rewrite zlen_app. pose proof (dec_len n Hn). lia.
Qed.

Lemma cmd2_plain n m c :
  0 <= n <= INT32_MAX + 1 -> 0 <= m <= INT32_MAX + 1 -> Forall cmd_char c -> zlen c <= 5 ->
  plain (dec n ++ s2b "," ++ dec m ++ c).
Proof.
  intros Hn Hm Hc Hl. apply cmd_plain.
  - rewrite !Forall_app. split_and!; try apply dec_chars; try lia; [|done].
    change (s2b ",") with [44]. unfold cmd_char. forall_tac.
  - rewrite !zlen_app. change (zlen (s2b ",")) with 1. pose proof (dec_len n Hn). pose proof (dec_len m Hm). lia.
Qed.

Lemma add_new_lines_plain fuel cons2 i r out :
  Forall plain cons2 -> Forall plain r -> add_new_lines fuel cons2 i r = Ok out -> Forall plain out.
Proof.
  intros H2. revert i r. induction fuel as [|f IH]; intros i r Hr; cbn [add_new_lines]; [by intros [= <-]|].
  intros (line & Hl & Ho)%cbind_Ok. apply aget_Ok in Hl as [_ Hl]. destruct (line_str_eq _ _); [done|].
  eapply IH; [|exact Ho]. apply Forall_app. split; [done|]. apply List.Forall_cons; [|apply List.Forall_nil].
  rewrite Forall_lookup in H2. eauto.
Qed.

Lemma char_cmd c : cmd_char c -> Forall cmd_char [c] /\ zlen [c] <= 5.
Proof. intros H. split; [by apply List.Forall_cons|done]. Qed.

Lemma emit_chunk_plain cons2 s1 s2 e2 added deleted r out :
  Forall plain cons2 -> Forall plain r -> 0 <= s1 -> 0 <= deleted -> s1 + deleted <= INT32_MAX ->
  emit_chunk cons2 s1 s2 e2 added deleted r = Ok out -> Forall plain out.
Proof.
  intros H2 Hr Hs Hd Hm. unfold emit_chunk.
  assert (Hc : forall c, cmd_char c -> Forall cmd_char [c]) by (intros; by apply List.Forall_cons).
  assert (P1 : forall c, cmd_char c -> plain (dec (s1 + 1) ++ [c])) by (intros; apply cmd1_plain; auto; try done; lia).
  assert (P2 : forall c, cmd_char c -> plain (dec (s1 + 1) ++ s2b "," ++ dec (s1 + deleted) ++ [c]))
    by (intros; apply cmd2_plain; auto; try done; lia).
  assert (P3 : plain (dec s1 ++ s2b "a")) by (apply cmd1_plain; auto; try done; try lia; apply Hc; done).
  assert (S : forall x, plain x -> Forall plain (r ++ [x])).
  { intros x Hx. apply Forall_app. split; [done|]. by apply List.Forall_cons. }
  destruct (added =? 0).
  - destruct (deleted =? 1); intros [= <-]; apply S; [apply P1|apply P2]; done.
  - intros (r' & Ha & [= <-])%cbind_Ok. apply Forall_app. split.
    + eapply add_new_lines_plain; [exact H2| |exact Ha]. apply S.
      destruct (deleted =? 0); [done|]. destruct (deleted =? 1); [apply P1|apply P2]; done.
    + apply List.Forall_cons; [|apply List.Forall_nil]. apply cmd_plain; [|done]. by apply Hc.
Qed.

Lemma back_over_changed_le fuel m i j : -1 <= i -> back_over_changed fuel m i = Ok j -> -1 <= j <= i.
Proof.
  revert i. induction fuel as [|f IH]; intros i Hi; cbn [back_over_changed]; [done|].
  intros (b & Hb & Ho)%cbind_Ok. destruct b; [|injection Ho as <-; lia]. unfold is_changed in Hb.
  destruct (Z.leb_spec 0 i); [|done]. apply IH in Ho; lia.
Qed.

Lemma emit_loop_plain fuel cons2 m1 m2 i1 i2 r out :
  Forall plain cons2 -> Forall plain r -> -1 <= i1 < INT32_MAX -> -1 <= i2 ->
  emit_loop fuel cons2 m1 m2 i1 i2 r = Ok out -> Forall plain out.
Proof.
  intros H2. revert i1 i2 r. induction fuel as [|f IH]; intros i1 i2 r Hr Hi1 Hi2; cbn [emit_loop]; [done|].
  destruct (_ || _); [|by intros [= <-]]. intros (c1 & _ & (c2 & _ & Ho)%cbind_Ok)%cbind_Ok.
  destruct (negb c1 && negb c2).
  - eapply IH; [done|..|exact Ho]; repeat zcase; lia.
  - apply cbind_Ok in Ho as (j1 & H1 & (j2 & H3 & (r' & Hc & Ho)%cbind_Ok)%cbind_Ok).
    apply back_over_changed_le in H1; [|lia]. apply back_over_changed_le in H3; [|lia].
    eapply IH; [|..|exact Ho]; try lia. eapply emit_chunk_plain; [exact H2|exact Hr|..|exact Hc]; lia.
Qed.

(** Every line of a diff is a short command, a dot, or a line of the target. *)
Lemma gen_ed_diff_plain cons1 cons2 diff :
  zlen cons1 <= INT32_MAX -> Forall plain cons2 -> gen_ed_diff cons1 cons2 = Ok diff -> Forall plain diff.
Proof.
  intros Hmax H2 Hgen. unfold gen_ed_diff in Hgen.
  assert (K : forall pre r, zlen pre <= INT32_MAX -> Forall plain r ->
    (let* (changed1, changed2) := changes_loop (S (length pre + length cons2 + 2)) pre cons2 (-1) (-1) 0 0
        ROUTER_ID_ITERATOR_INIT ROUTER_ID_ITERATOR_INIT (repeat false (length pre)) (repeat false (length cons2)) in
     emit_loop (S (length pre + length cons2 + 2)) cons2 changed1 changed2 (zlen pre - 1) (zlen cons2 - 1) r) = Ok diff ->
    Forall plain diff).
  { intros pre r Hp Hr ([m1 m2] & _ & Ho)%cbind_Ok. pose proof (zlen_nonneg pre). pose proof (zlen_nonneg cons2).
    eapply emit_loop_plain; [exact H2|exact Hr|..|exact Ho]; lia. }
  destruct (preprocess_spec cons1) as [[_ Hp]|(pre & l & post & -> & Hidx & Hp)];
    rewrite Hp in Hgen; cbn [cbind] in Hgen.
  - eapply K; [exact Hmax|apply List.Forall_nil|exact Hgen].
  - rewrite zlen_app, zlen_cons in Hmax. pose proof (zlen_nonneg pre). pose proof (zlen_nonneg post).
    eapply (K pre); [lia| |exact Hgen]. apply List.Forall_cons; [|apply List.Forall_nil].
    apply cmd1_plain; [lia| |done]. change (s2b ",$d") with [44; 36; 100]. unfold cmd_char. forall_tac.
Qed.

(** ** The signed part *)

Lemma tor_memstr_ok s n : n <> [] -> tor_memstr s n = Ok (first_occurrence s n).
Proof. apply tor_memmem_first. Qed.

Lemma first_occurrence_Some s n q :
  first_occurrence s n = Some q -> exists a r, s = a ++ n ++ r /\ q = n ++ r.
Proof.
  unfold first_occurrence. destruct (strstr s n) as [[a b]|] eqn:E; [|done]. intros [= <-].
  apply strstr_Some in E as (-> & [r ->]%prefix_of_spec & _). eauto.
Qed.

(** The boundaries lie inside the document: the region starts at the start of
    a line with [start_str], goes on to the first [end_str] after it and ends just after
    the first [end_c] after that. *)
Lemma hash_impl_helper_spec s start_str end_str end_c :
  start_str <> [] -> end_str <> [] ->
  match router_get_hash_impl_helper s start_str end_str end_c with
  | Ok (a, b) => exists pre m1 m2 post,
      s = pre ++ start_str ++ m1 ++ end_str ++ m2 ++ end_c :: post /\
      line_start pre /\ end_c ∉ m2 /\ a = zlen pre /\ b = zlen s - zlen post
  | Err => True
  | _ => False
  end.
Proof.
  intros Hs He. unfold router_get_hash_impl_helper. rewrite tor_memstr_ok by done. cbn [cbind].
  destruct (first_occurrence s start_str) as [q|] eqn:E1; [|done].
  apply first_occurrence_Some in E1 as (pre & r & -> & ->).
  replace (zlen (pre ++ start_str ++ r) - zlen (start_str ++ r)) with (zlen pre) by (rewrite (zlen_app pre); lia).
  assert (Hl : (exists b, (if negb (zlen pre =? 0)
      then let* c := aget (pre ++ start_str ++ r) (zlen pre - 1) in Ok (negb (c =? 10)) else Ok false) = Ok b /\
      (b = false -> line_start pre))).
  { destruct pre as [|x pre'] using rev_ind; [exists false; split; [done|by left]|].
    rewrite zlen_app. change (zlen [x]) with 1. pose proof (zlen_nonneg pre').
    replace (negb _) with true by blia. rewrite <- app_assoc. cbn [app].
    rewrite aget_mid by lia. cbn [cbind]. eexists. split; [done|]. intros Hx. boolp. subst. right. by exists pre'. }
  destruct Hl as (b & -> & Hl). cbn [cbind]. destruct b; [done|]. specialize (Hl eq_refl).
  rewrite drop_app_length, tor_memstr_ok by done. cbn [cbind].
  destruct (first_occurrence r end_str) as [q|] eqn:E2; [|done].
  apply first_occurrence_Some in E2 as (m1 & r2 & -> & ->). rewrite drop_app_length.
  destruct (memchr r2 end_c (length r2)) as [q|] eqn:E3; [|done].
  apply memchr_len_Some in E3 as (m2 & post & -> & -> & Hm2).
  exists pre, m1, m2, post. split_and!; [done|done|done|done|]. rewrite zlen_cons. lia.
Qed.

Section DigestProofs.
Variable crypto_digest256 : bytes -> cres bytes.

(** What the crypto library documents: a digest has 32 bytes. *)
Definition digest_ok (d : bytes) : Prop := zlen d = 32 /\ Forall is_byte d.
Hypothesis crypto_digest256_ok : forall m, exists d, crypto_digest256 m = Ok d /\ digest_ok d.

Lemma as_signed_ok s : exists d, consensus_compute_digest_as_signed crypto_digest256 s = Ok d /\ digest_ok d.
Proof.
  unfold consensus_compute_digest_as_signed, router_get_networkstatus_v3_sha3_as_signed,
    router_get_networkstatus_v3_signed_boundaries.
  pose proof (hash_impl_helper_spec s (s2b "network-status-version") (10 :: s2b "directory-signature") 32) as H.
  destruct (router_get_hash_impl_helper _ _ _ _) as [[a b]| | |]; auto; by destruct H.
Qed.

(** *** The header of a diff *)

Lemma hexdig_range c : is_byte c ->
  (in_range 48 70 (Base16.hexdig (Z.shiftr (u8 c) 4)) && in_range 48 70 (Base16.hexdig (Z.land (u8 c) 0xf))) = true.
Proof. revert c. apply byte_forall. vm_compute. reflexivity. Qed.

Lemma hex_chars d : Forall is_byte d -> Forall (fun c => 48 <= c <= 70) (Base16.encode_loop d).
Proof.
  induction 1 as [|c d Hc Hd IH]; cbn [Base16.encode_loop]; [done|].
  pose proof (hexdig_range c Hc) as H. unfold in_range in H. boolp.
  repeat (apply List.Forall_cons; [lia|]). done.
Qed.

Lemma digest_hex d :
  digest_ok d -> exists hex, Base16.base16_encode (HEX_DIGEST256_LEN + 1) d = Ok hex /\ zlen hex = 64 /\
    Base16.base16_decode DIGEST256_LEN hex = Ok d /\ Forall (fun c => 48 <= c <= 70) hex.
Proof.
  intros [Hl Hb]. destruct (Base16.base16_there_and_back d Hb) as (hex & He & Hz & Hd); [rewrite Hl; unfold INT_MAX; lia|].
  exists hex. rewrite Hl in *. change (BASE16_BUFSIZE 32) with (HEX_DIGEST256_LEN + 1) in He.
  split_and!; [done|lia|done|]. unfold Base16.base16_encode in He. repeat (case_match; [|done]).
  injection He as <-. by apply hex_chars.
Qed.

Definition header_line2 (hex1 hex2 : bytes) : bytes := hash_token ++ [32] ++ hex1 ++ [32] ++ hex2.

Definition hexP (h : bytes) : Prop := zlen h = 64 /\ Forall (fun c => 48 <= c <= 70) h.

Lemma hex_no_space h : hexP h -> 32 ∉ h.
Proof. intros [_ H] Hin. apply list_elem_of_In in Hin. rewrite Forall_forall in H. specialize (H _ Hin). lia. Qed.

Lemma header_chars h1 h2 : hexP h1 -> hexP h2 -> Forall cmd_char (header_line2 h1 h2) /\ zlen (header_line2 h1 h2) = 134.
Proof.
  intros [Z1 F1] [Z2 F2]. unfold header_line2. split.
  - rewrite !Forall_app. split_and!.
    + change hash_token with [104; 97; 115; 104]. unfold cmd_char. forall_tac.
    + unfold cmd_char. forall_tac.
    + eapply Forall_weaken; [exact F1|]. cbv beta. unfold cmd_char. lia.
    + unfold cmd_char. forall_tac.
    + eapply Forall_weaken; [exact F2|]. cbv beta. unfold cmd_char. lia.
  - rewrite !zlen_app, Z1, Z2. done.
Qed.

Lemma header_snprintf h1 h2 : hexP h1 -> hexP h2 -> snprintf_s 160 (header_line2 h1 h2) = header_line2 h1 h2.
Proof.
  intros H1 H2. destruct (header_chars h1 h2 H1 H2) as [_ Hl]. unfold snprintf_s. apply take_ge.
  change (Z.to_nat (160 - 1)) with 159%nat. unfold zlen in Hl. lia.
Qed.

Lemma get_digests_header h1 h2 d1 d2 rest :
  hexP h1 -> hexP h2 -> digest_ok d1 -> digest_ok d2 ->
  Base16.base16_decode DIGEST256_LEN h1 = Ok d1 -> Base16.base16_decode DIGEST256_LEN h2 = Ok d2 ->
  consdiff_get_digests (ns_diff_version :: header_line2 h1 h2 :: rest) = Ok (d1, d2).
Proof.
  intros H1 H2 [D1 _] [D2 _] E1 E2. unfold consdiff_get_digests.
  change (line_str_eq ns_diff_version ns_diff_version) with true. cbn [negb].
  destruct (header_chars h1 h2 H1 H2) as [Hc _]. rewrite nul_terminated_id; cycle 1.
  { eapply Forall_weaken; [exact Hc|]. intros c [_ H]. blia. }
  replace (header_line2 h1 h2) with (join_fill [hash_token; h1; h2] [32])
    by (unfold header_line2; cbn [join_fill]; rewrite app_nil_r; lassoc).
  unfold smartlist_split_string. rewrite split_loop_of_join; [|done| |lia|right; done].
  2:{ apply List.Forall_cons; [|apply List.Forall_cons; [by apply hex_no_space|apply List.Forall_cons; [by apply hex_no_space|done]]].
      apply (bool_decide_unpack _). vm_compute. exact I. }
  cbn [cbind]. change (strcmp hash_token hash_token =? 0) with true. cbn [negb].
  destruct H1 as [Z1 _], H2 as [Z2 _]. rewrite Z1, Z2. change (64 =? HEX_DIGEST256_LEN) with true. cbn [negb orb].
  rewrite E1. cbn [cbind]. rewrite D1. change (32 =? DIGEST256_LEN) with true. cbn [negb].
  rewrite E2. cbn [cbind]. rewrite D2. done.
Qed.

Lemma memcmp_refl d : memcmp d d = 0.
Proof. induction d as [|x d IH]; cbn [memcmp]; [done|]. by rewrite Z.eqb_refl. Qed.

Lemma memcmp_0 a b : length a = length b -> memcmp a b = 0 -> a = b.
Proof.
  revert b. induction a as [|x a IH]; intros [|y b] Hl; cbn [memcmp]; try done.
  cbn [length] in Hl. zcase; [intros; subst; f_equal; auto|lia].
Qed.

Lemma digest_eq_iff d1 d2 : digest_ok d1 -> digest_ok d2 -> consensus_digest_eq d1 d2 = true <-> d1 = d2.
Proof.
  intros [L1 _] [L2 _]. unfold consensus_digest_eq. unfold zlen in *.
  change (Z.to_nat DIGEST256_LEN) with 32%nat. rewrite !take_ge by lia. rewrite Z.eqb_eq.
  split; [apply memcmp_0; lia|intros ->; apply memcmp_refl].
Qed.

Lemma all_lines_eq_spec l1 l2 : length l1 = length l2 -> all_lines_eq l1 l2 = true <-> l1 = l2.
Proof.
  revert l2. induction l1 as [|a l1 IH]; intros [|b l2] Hl; cbn [all_lines_eq]; try done.
  injection Hl as Hl. destruct (lines_eq a b) eqn:E; cbn [negb].
  - apply lines_eq_true in E as ->. rewrite IH by done. naive_solver.
  - split; [done|]. intros [= -> ->]. assert (lines_eq b b = true) by (by apply lines_eq_true). congruence.
Qed.

(** *** Generating *)

Lemma consdiff_gen_diff_ok c1 c2 d1 d2 :
  digest_ok d1 -> digest_ok d2 ->
  match consdiff_gen_diff c1 c2 d1 d2 with
  | Ok diff => exists ed h1 h2, gen_ed_diff c1 c2 = Ok ed /\ apply_ed_diff c1 ed 0 = Ok c2 /\
      diff = ns_diff_version :: header_line2 h1 h2 :: ed /\ hexP h1 /\ hexP h2 /\
      Base16.base16_decode DIGEST256_LEN h1 = Ok d1 /\ Base16.base16_decode DIGEST256_LEN h2 = Ok d2
  | _ => forall ed, gen_ed_diff c1 c2 = Ok ed -> apply_ed_diff c1 ed 0 <> Ok c2
  end.
Proof.
  intros D1 D2. unfold consdiff_gen_diff. destruct (gen_ed_diff c1 c2) as [ed| | |]; cbn [cbind]; try done.
  destruct (apply_ed_diff c1 ed 0) as [r| | |] eqn:Ea; cbn [cbind]; try (intros e [= <-]; by rewrite Ea).
  destruct (digest_hex d1 D1) as (h1 & -> & L1 & E1 & F1). destruct (digest_hex d2 D2) as (h2 & -> & L2 & E2 & F2).
  destruct (negb _) eqn:Eq; cbn [cbind].
  - intros e [= <-]. rewrite Ea. intros [= ->]. rewrite Z.eqb_refl in Eq. boolp.
    assert (all_lines_eq c2 c2 = true) by (by apply all_lines_eq_spec). congruence.
  - boolp. destruct (Z.eqb_spec (zlen c2) (zlen r)) as [El|]; [|done].
    apply all_lines_eq_spec in Eq as <-; [|unfold zlen in El; lia].
    exists ed, h1, h2. split_and!; auto; [|split; done|split; done].
    f_equal. f_equal. by apply header_snprintf.
Qed.

Lemma split_lines_count fuel s l : split_lines_loop fuel s = Ok l -> zlen l <= zlen s.
Proof.
  intros [-> _]%split_lines_sound. induction l as [|a l IH]; cbn [join_lines_out]; [done|].
  rewrite zlen_app, !zlen_cons. pose proof (zlen_nonneg a). lia.
Qed.

Lemma plain_lines l : Forall line_ok l -> no_nul (join_lines_out l) -> Forall plain l.
Proof.
  induction 1 as [|a l Ha Hl IH]; cbn [join_lines_out]; intros Hn; [done|].
  apply no_nul_app in Hn as [Hna Hn]. apply Forall_cons_iff in Hn as [_ Hn].
  apply List.Forall_cons; [by split|by apply IH].
Qed.

Lemma diff_lines_ok h1 h2 ed :
  hexP h1 -> hexP h2 -> Forall plain ed -> Forall line_ok (ns_diff_version :: header_line2 h1 h2 :: ed).
Proof.
  intros H1 H2 He. destruct (header_chars h1 h2 H1 H2) as [Hc Hl].
  apply List.Forall_cons; [|apply List.Forall_cons].
  - split; [apply (bool_decide_unpack _); vm_compute; exact I|vm_compute; discriminate].
  - apply cmd_plain; [done|lia].
  - eapply Forall_weaken; [exact He|]. by intros l [H _].
Qed.

Lemma nul_terminated_no_nul s : no_nul s -> nul_terminated s = s.
Proof. intros H. apply nul_terminated_id. eapply Forall_weaken; [exact H|]. intros c Hc. cbv beta in Hc. blia. Qed.

(** C1. Generate, then apply, end to end: when [consensus_diff_generate]
    produces a diff from two documents (the target without NUL bytes, the base of at most
    INT32_MAX bytes), [consensus_diff_apply] of that diff to the base document
    returns exactly the target document: the diff splits into its lines again, its
    header parses, both digests match and the script rebuilds the text. *)
Theorem consensus_diff_roundtrip cons1 cons2 diff :
  zlen cons1 <= INT32_MAX -> no_nul cons2 ->
  consensus_diff_generate crypto_digest256 cons1 cons2 = Ok diff ->
  consensus_diff_apply crypto_digest256 cons1 diff = Ok cons2.
Proof.
  intros Hmax Hnul. unfold consensus_diff_generate, consensus_diff_apply.
  destruct (as_signed_ok cons1) as (d1 & -> & D1). unfold consensus_compute_digest.
  destruct (crypto_digest256_ok cons2) as (d2 & Ed2 & D2). rewrite Ed2. cbn [cbind].
  intros (l1 & El1 & (l2 & El2 & (r & Hg & Hj)%cbind_Ok)%cbind_Ok)%cbind_Ok. rewrite El1. cbn [cbind].
  pose proof (split_lines_count _ _ _ El1) as Hc1. apply split_lines_sound in El2 as [-> Hl2].
  pose proof (consdiff_gen_diff_ok l1 l2 d1 d2 D1 D2) as Hok. rewrite Hg in Hok.
  destruct Hok as (ed & h1 & h2 & Hed & Hap & -> & P1 & P2 & E1 & E2).
  rewrite join_lines_total in Hj.
  assert (diff = join_lines_out (ns_diff_version :: header_line2 h1 h2 :: ed)) as -> by congruence. clear Hj.
  assert (Hpl : Forall plain ed) by (eapply (gen_ed_diff_plain l1 l2); [lia|by apply plain_lines|done]).
  unfold consensus_split_lines. rewrite split_lines_complete; [|by apply diff_lines_ok|lia]. cbn [cbind].
  unfold consdiff_apply_diff. rewrite (get_digests_header h1 h2 d1 d2) by done. cbn [cbind].
  rewrite (proj2 (digest_eq_iff d1 d1 D1 D1) eq_refl). cbn [negb].
  change (apply_ed_diff l1 (ns_diff_version :: header_line2 h1 h2 :: ed) 2) with (apply_ed_diff l1 ed 0).
  rewrite Hap. cbn [cbind]. rewrite join_lines_total. cbn [cbind].
  rewrite nul_terminated_no_nul by done. unfold consensus_compute_digest. rewrite Ed2. cbn [cbind].
  by rewrite (proj2 (digest_eq_iff d2 d2 D2 D2) eq_refl).
Qed.

(** C4. What an accepted diff guarantees: if [consensus_diff_apply] returns a
    document, the diff starts with the version line and a line of two digests, the first
    is the digest of the signed part of the base document and the second is the
    digest of the returned document, which has no NUL byte. *)
Theorem consensus_diff_apply_authentic cons1 diff out :
  consensus_diff_apply crypto_digest256 cons1 diff = Ok out ->
  exists lines d1 d2, consensus_split_lines diff = Ok lines /\
    consdiff_get_digests lines = Ok (d1, d2) /\
    consensus_compute_digest_as_signed crypto_digest256 cons1 = Ok d1 /\
    crypto_digest256 out = Ok d2 /\ no_nul out.
Proof.
  unfold consensus_diff_apply. destruct (as_signed_ok cons1) as (d1 & -> & D1). cbn [cbind].
  intros (l1 & _ & (l2 & El2 & Ha)%cbind_Ok)%cbind_Ok. unfold consdiff_apply_diff in Ha.
  apply cbind_Ok in Ha as ([e1 e2] & Hg & Ha).
  assert (He : forall a b, consdiff_get_digests l2 = Ok (a, b) -> zlen a = 32 /\ zlen b = 32).
  { intros a b. unfold consdiff_get_digests. repeat (case_match; try done).
    intros ([|w [|x [|y [|z t]]]] & _ & H')%cbind_Ok; try done. revert H'. repeat (case_match; try done).
    intros (a' & _ & H')%cbind_Ok. case_match eqn:Za; [done|]. apply cbind_Ok in H' as (b' & _ & H').
    case_match eqn:Zb; [done|]. injection H' as <- <-. boolp. done. }
  destruct (He _ _ Hg) as [Z1 Z2].
  destruct (negb (consensus_digest_eq d1 e1)) eqn:Q1; [done|]. boolp.
  apply cbind_Ok in Ha as (c2 & _ & (s & _ & (dd & Hd & Hq)%cbind_Ok)%cbind_Ok).
  destruct (negb (consensus_digest_eq dd e2)) eqn:Q2; [done|]. boolp. injection Hq as <-.
  unfold consensus_compute_digest in Hd. destruct (crypto_digest256_ok (nul_terminated s)) as (dd' & Hd' & Dd).
  rewrite Hd in Hd'. injection Hd' as <-.
  assert (K : forall d e, zlen d = 32 -> zlen e = 32 -> consensus_digest_eq d e = true -> d = e).
  { intros d e Ld Le. unfold consensus_digest_eq, zlen in *. change (Z.to_nat DIGEST256_LEN) with 32%nat.
    rewrite !take_ge by lia. rewrite Z.eqb_eq. apply memcmp_0. lia. }
  apply K in Q1 as <-; [|apply D1|done]. apply K in Q2 as <-; [|apply Dd|done].
  exists l2, d1, dd. split_and!; auto. unfold nul_terminated.
  eapply Forall_weaken; [apply span_prefix|]. intros c Hc. cbv beta in Hc. boolp. done.
Qed.

(** The self-test of the generator never rejects: for documents that split
    into lines, the base with its signature section absent or of more than one
    line, [consensus_diff_generate] fails only when [gen_ed_diff] refuses the
    pair (routers out of order, or a line that is a lone dot). *)
Theorem consensus_diff_generate_complete cons1 cons2 lines1 lines2 :
  zlen cons1 <= INT32_MAX ->
  consensus_split_lines cons1 = Ok lines1 -> consensus_split_lines cons2 = Ok lines2 -> trailer_ok lines1 ->
  match consensus_diff_generate crypto_digest256 cons1 cons2 with
  | Ok _ => True
  | Err => gen_ed_diff lines1 lines2 = Err
  | _ => False
  end.
Proof.
  intros Hmax El1 El2 Ht. unfold consensus_diff_generate.
  destruct (as_signed_ok cons1) as (d1 & -> & D1). unfold consensus_compute_digest.
  destruct (crypto_digest256_ok cons2) as (d2 & -> & D2). rewrite El1, El2. cbn [cbind].
  pose proof (split_lines_count _ _ _ El1) as Hc1.
  pose proof (consdiff_gen_diff_ok lines1 lines2 d1 d2 D1 D2) as Hok.
  destruct (gen_ed_diff_ok lines1 lines2) as [He|[ed He]]; [lia| |].
  - unfold consdiff_gen_diff. by rewrite He.
  - pose proof (gen_apply_ok lines1 lines2 ed ltac:(lia) Ht He) as Hap.
    destruct (consdiff_gen_diff lines1 lines2 d1 d2); cbn [cbind]; [by rewrite join_lines_total|..];
      by destruct (Hok ed He).
Qed.

End DigestProofs.

(** A stand-in for the digest: 32 bytes that depend on the input. *)
Definition toy_digest (m : bytes) : cres bytes := Ok (repeat (foldr Z.add 0 m mod 256) 32).

Lemma toy_digest_ok m : exists d, toy_digest m = Ok d /\ digest_ok d.
Proof.
  eexists. split; [done|]. split; [done|].
  pose proof (Z.mod_pos_bound (foldr Z.add 0 m) 256). cbn [repeat]. forall_tac.
Qed.

Definition ex_doc1 : bytes := join_lines_out (map s2b ["network-status-version 3"; "a"; "b"; "directory-signature x"; "sig"]%string).
Definition ex_doc2 : bytes := join_lines_out (map s2b ["network-status-version 3"; "a"; "c"; "directory-signature y"; "sig"]%string).
Definition ex_diff : bytes :=
  match consensus_diff_generate toy_digest ex_doc1 ex_doc2 with Ok d => d | _ => [] end.

Lemma consensus_diff_roundtrip_witness :
  consensus_diff_generate toy_digest ex_doc1 ex_doc2 = Ok ex_diff /\
  consensus_diff_apply toy_digest ex_doc1 ex_diff = Ok ex_doc2.
Proof.
  assert (E : consensus_diff_generate toy_digest ex_doc1 ex_doc2 = Ok ex_diff) by (vm_compute; reflexivity).
  split; [exact E|].
  apply (consensus_diff_roundtrip toy_digest toy_digest_ok); [vm_compute; discriminate| |exact E].
  apply (bool_decide_unpack _). vm_compute. exact I.
Defined.

Lemma consensus_diff_apply_authentic_witness :
  exists lines d1 d2, consensus_split_lines ex_diff = Ok lines /\
    consdiff_get_digests lines = Ok (d1, d2) /\
    consensus_compute_digest_as_signed toy_digest ex_doc1 = Ok d1 /\
    toy_digest ex_doc2 = Ok d2 /\ no_nul ex_doc2.
Proof.
  apply (consensus_diff_apply_authentic toy_digest toy_digest_ok ex_doc1 ex_diff ex_doc2).
  vm_compute. reflexivity.
Defined.

Lemma consensus_diff_generate_complete_witness :
  match consensus_diff_generate toy_digest ex_doc1 ex_doc2 with
  | Ok _ => True
  | Err => gen_ed_diff (map s2b ["network-status-version 3"; "a"; "b"; "directory-signature x"; "sig"]%string)
             (map s2b ["network-status-version 3"; "a"; "c"; "directory-signature y"; "sig"]%string) = Err
  | _ => False
  end.
Proof.
  apply (consensus_diff_generate_complete toy_digest toy_digest_ok); [vm_compute; discriminate|vm_compute; reflexivity..|].
  right. vm_compute. reflexivity.
Defined.
