(* ===== verification/Protover.v ===== *)
(** * Subprotocol versions

    Models core/or/protover.c: parsing and printing of protocol lists such as
    ["Cons=1-2 Desc=1"], the bit masks they become, the vote of the directory
    authorities and the tests for support.

    Two pointers into the same NUL-terminated string are two of its suffixes: [p]
    is before [q] when [p] is longer.  A shift of a 64-bit word by 64 or more
    and [__builtin_ctzll(0)] are undefined in C; here they are [Bug]. *)

From S2P Require Import Prelude CString UtilString StrList.
From Stdlib Require Import ZArith String Sorted.
From stdpp Require Import base list numbers.
Open Scope Z_scope.

(** ** Data *)

Inductive protocol_type_t :=
| PRT_LINK | PRT_LINKAUTH | PRT_RELAY | PRT_DIRCACHE | PRT_HSDIR | PRT_HSINTRO | PRT_HSREND
| PRT_DESC | PRT_MICRODESC | PRT_CONS | PRT_PADDING | PRT_FLOWCTRL | PRT_CONFLUX.

#[export] Instance protocol_type_eq_dec : EqDecision protocol_type_t.
Proof. solve_decision. Defined.

Definition PROTOCOL_NAMES : list (protocol_type_t * bytes) :=
  [(PRT_LINK, s2b "Link"); (PRT_LINKAUTH, s2b "LinkAuth"); (PRT_RELAY, s2b "Relay");
   (PRT_DIRCACHE, s2b "DirCache"); (PRT_HSDIR, s2b "HSDir"); (PRT_HSINTRO, s2b "HSIntro");
   (PRT_HSREND, s2b "HSRend"); (PRT_DESC, s2b "Desc"); (PRT_MICRODESC, s2b "Microdesc");
   (PRT_PADDING, s2b "Padding"); (PRT_CONS, s2b "Cons"); (PRT_FLOWCTRL, s2b "FlowCtrl");
   (PRT_CONFLUX, s2b "Conflux")].

Definition MAX_PROTOCOL_NAME_LENGTH : Z := 100.
Definition MAX_PROTOCOL_VERSION : Z := 63.

Record proto_entry_t := mkentry { e_name : bytes; e_bitmask : Z }.

Fixpoint find_type (names : list (protocol_type_t * bytes)) (pr : protocol_type_t) : bytes :=
  match names with
  | [] => s2b "UNKNOWN"
  | (t, name) :: r => if bool_decide (t = pr) then name else find_type r pr
  end.

Definition protocol_type_to_str (pr : protocol_type_t) : bytes := find_type PROTOCOL_NAMES pr.

(** ** Parsing *)

(** [p > q] and [p == q] for pointers into one string. *)
Definition ptr_gt (p q : bytes) : bool := (length p <? length q)%nat.
Definition ptr_eq (p q : bytes) : bool := (length p =? length q)%nat.

Definition parse_version_range (s end_of_range : bytes) : cres (Z * Z) :=
  if negb (TOR_ISDIGIT (cur s)) then Err
  else
    let r := tor_parse_ulong s 10 0 MAX_PROTOCOL_VERSION true in
    let low := u32 (p_val r) in
    match p_next r with
    | None => Bug
    | Some next =>
        if negb (p_ok r) then Err
        else if ptr_gt next end_of_range then Err
        else if ptr_eq next end_of_range then Ok (low, low)
        else if negb (cur next =? 45) then Err
        else
          let s := tail next in
          if negb (TOR_ISDIGIT (cur s)) then Err
          else
            let r := tor_parse_ulong s 10 0 MAX_PROTOCOL_VERSION true in
            let high := u32 (p_val r) in
            match p_next r with
            | None => Bug
            | Some next =>
                if negb (p_ok r) then Err
                else if negb (ptr_eq next end_of_range) then Err
                else if high <? low then Err
                else Ok (low, high)
            end
    end.

Fixpoint is_valid_keyword (s : bytes) (n : nat) : bool :=
  match n with
  | O => true
  | S n => if negb (TOR_ISALNUM (cur s)) && negb (cur s =? 45) then false else is_valid_keyword (tail s) n
  end.

(** [mask << k] and [mask >> k] on [uint64_t]. *)
Definition shl64 (mask k : Z) : cres Z := assert! ((0 <=? k) && (k <? 64)); Ok (u64 (Z.shiftl mask k)).
Definition shr64 (mask k : Z) : cres Z := assert! ((0 <=? k) && (k <? 64)); Ok (Z.shiftr mask k).
Definition BIT (x : Z) : Z := u64 (Z.shiftl 1 x).

Definition bitmask_for_range (low high : Z) : cres Z :=
  let mask := UINT64_MAX in
  let* mask := shl64 mask (u32 (63 - high)) in
  let* mask := shr64 mask (u32 (63 - high + low)) in
  shl64 mask low.

(** [while (s < end_of_entry)] *)
Fixpoint ranges_loop (fuel : nat) (s end_of_entry : bytes) (bitmask : Z) : cres Z :=
  match fuel with
  | O => Fuel
  | S fuel =>
      if ptr_gt end_of_entry s then
        let comma := match memchr s 44 (length s - length end_of_entry) with Some c => c | None => end_of_entry end in
        let* (low, high) := parse_version_range s comma in
        let* m := bitmask_for_range low high in
        let s := comma in
        let s := if (length end_of_entry + 1 <? length s)%nat then tail s else s in
        ranges_loop fuel s end_of_entry (Z.lor bitmask m)
      else Ok bitmask
  end.

(** [Err] is the result NULL. *)
Definition parse_single_entry (s end_of_entry : bytes) : cres proto_entry_t :=
  match memchr s 61 (length s - length end_of_entry) with
  | None => Err
  | Some equals =>
      let n := (length s - length equals)%nat in
      if (n =? 0)%nat then Err
      else if MAX_PROTOCOL_NAME_LENGTH <? Z.of_nat n then Err
      else if negb (is_valid_keyword s n) then Err
      else
        let* bitmask := ranges_loop (S (length s)) (tail equals) end_of_entry 0 in
        Ok (mkentry (take n s) bitmask)
  end.

Fixpoint parse_loop (fuel : nat) (s : bytes) : cres (list proto_entry_t) :=
  match fuel with
  | O => Fuel
  | S fuel =>
      match s with
      | [] => Ok []
      | _ =>
          let end_of_entry := match strchr s 32 with Some e => e | None => [] end in
          let* entry := parse_single_entry s end_of_entry in
          let* entries := parse_loop fuel (skip_while (fun c => c =? 32) end_of_entry) in
          Ok (entry :: entries)
      end
  end.

Definition parse_protocol_list (s : bytes) : cres (list proto_entry_t) := parse_loop (S (length s)) s.

(** A test of the result for NULL; the other outcomes propagate. *)
Definition or_null {A} (m : cres A) : cres (option A) :=
  match m with
  | Ok a => Ok (Some a)
  | Err => Ok None
  | Bug => Bug
  | Fuel => Fuel
  end.

Definition protover_list_is_invalid (s : bytes) : cres bool :=
  let* l := or_null (parse_protocol_list s) in
  Ok (match l with None => true | Some _ => false end).

(** ** Printing *)

Fixpoint tz_loop (n : nat) (i x : Z) : Z :=
  match n with
  | O => i
  | S n => if Z.odd x then i else tz_loop n (i + 1) (Z.shiftr x 1)
  end.

Definition trailing_zeros (x : Z) : cres Z := assert! (negb (x =? 0)); Ok (tz_loop 65 0 x).

Fixpoint encode_ranges (fuel : nat) (mask shift : Z) (first : bool) : cres (list bytes) :=
  match fuel with
  | O => Fuel
  | S fuel =>
      if mask =? 0 then Ok []
      else
        let comma := if first then [] else [44] in
        let* zeros := trailing_zeros mask in
        let* mask := shr64 mask zeros in
        let shift := shift + zeros in
        let* ones := if mask =? 0 then Ok 64 else trailing_zeros (u64 (Z.lnot mask)) in
        let chunk := if ones =? 1 then comma ++ dec shift
                     else comma ++ dec shift ++ [45] ++ dec (shift + ones - 1) in
        if ones =? 64 then Ok [chunk]
        else
          let* mask := shr64 mask ones in
          let* rest := encode_ranges fuel mask (shift + ones) false in
          Ok (chunk :: rest)
  end.

Definition proto_entry_encode_into (entry : proto_entry_t) : cres (list bytes) :=
  let* ranges := encode_ranges 65 (e_bitmask entry) 0 true in
  Ok ((e_name entry ++ [61]) :: ranges).

Fixpoint encode_chunks (sl : list proto_entry_t) (separator : bytes) : cres (list bytes) :=
  match sl with
  | [] => Ok []
  | ent :: sl =>
      let* chunks := proto_entry_encode_into ent in
      let* rest := encode_chunks sl [32] in
      Ok (separator :: chunks ++ rest)
  end.

Definition encode_protocol_list (sl : list proto_entry_t) : cres bytes :=
  let* chunks := encode_chunks sl [] in
  smartlist_join_strings chunks [] false.

(** ** Voting *)

Fixpoint find_entry_by_name (protos : list proto_entry_t) (name : bytes) : option proto_entry_t :=
  match protos with
  | [] => None
  | ent :: r => if strcmp (e_name ent) name =? 0 then Some ent else find_entry_by_name r name
  end.

(** [smartlist_sort_strings]: [qsort] with [strcmp]. *)
Fixpoint insert_string (s : bytes) (sl : list bytes) : list bytes :=
  match sl with
  | [] => [s]
  | x :: r => if strcmp s x <=? 0 then s :: sl else x :: insert_string s r
  end.

Fixpoint smartlist_sort_strings (sl : list bytes) : list bytes :=
  match sl with
  | [] => []
  | s :: r => insert_string s (smartlist_sort_strings r)
  end.

Fixpoint add_names (entries : list proto_entry_t) (proto_names : list bytes) : list bytes :=
  match entries with
  | [] => proto_names
  | ent :: r =>
      add_names r (if smartlist_contains_string proto_names (e_name ent) then proto_names
                   else proto_names ++ [e_name ent])
  end.

(** The inputs that parse, and the names in them. *)
Fixpoint parse_votes (votes : list bytes) (parsed : list (list proto_entry_t)) (proto_names : list bytes)
    : cres (list (list proto_entry_t) * list bytes) :=
  match votes with
  | [] => Ok (parsed, proto_names)
  | vote :: votes =>
      let* l := or_null (parse_protocol_list vote) in
      match l with
      | None => parse_votes votes parsed proto_names
      | Some unexpanded => parse_votes votes (parsed ++ [unexpanded]) (add_names unexpanded proto_names)
      end
  end.

(** [++ counts[i]] for every bit of the mask. *)
Definition count_bits (bitmask : Z) (counts : list Z) : list Z :=
  imap (fun i c => if negb (Z.land bitmask (BIT (Z.of_nat i)) =? 0) then u8 (c + 1) else c) counts.

Fixpoint count_votes (parsed : list (list proto_entry_t)) (name : bytes) (counts : list Z) : list Z :=
  match parsed with
  | [] => counts
  | vote :: r =>
      count_votes r name
        (match find_entry_by_name vote name with None => counts | Some ent => count_bits (e_bitmask ent) counts end)
  end.

Fixpoint result_mask (counts : list Z) (i threshold : Z) : Z :=
  match counts with
  | [] => 0
  | c :: r => Z.lor (if threshold <=? c then BIT i else 0) (result_mask r (i + 1) threshold)
  end.

Fixpoint vote_result (names : list bytes) (parsed : list (list proto_entry_t)) (threshold : Z) : list proto_entry_t :=
  match names with
  | [] => []
  | name :: names =>
      let counts := count_votes parsed name (repeat 0 64) in
      let result_bitmask := result_mask counts 0 threshold in
      let rest := vote_result names parsed threshold in
      if negb (result_bitmask =? 0) then mkentry name result_bitmask :: rest else rest
  end.

Definition protover_compute_vote (list_of_proto_strings : list bytes) (threshold : Z) : cres bytes :=
  assert! (zlen list_of_proto_strings <? 256);
  if zlen list_of_proto_strings =? 0 then Ok []
  else
    let* (parsed, proto_names) := parse_votes list_of_proto_strings [] [] in
    let proto_names := smartlist_sort_strings proto_names in
    encode_protocol_list (vote_result proto_names parsed threshold).

(** ** Support *)

Definition protover_get_supported (type : protocol_type_t) : bytes :=
  match type with
  | PRT_CONFLUX => s2b "1" | PRT_CONS => s2b "1-2" | PRT_DESC => s2b "1-4" | PRT_DIRCACHE => s2b "2"
  | PRT_FLOWCTRL => s2b "1-2" | PRT_HSDIR => s2b "2" | PRT_HSINTRO => s2b "4-5" | PRT_HSREND => s2b "1-2"
  | PRT_LINK => s2b "3-5" | PRT_LINKAUTH => s2b "3" | PRT_MICRODESC => s2b "1-3" | PRT_PADDING => s2b "2"
  | PRT_RELAY => s2b "2-6"
  end.

Definition protover_get_supported_protocols : bytes :=
  s2b "Conflux=" ++ protover_get_supported PRT_CONFLUX ++ s2b " " ++
  s2b "Cons=" ++ protover_get_supported PRT_CONS ++ s2b " " ++
  s2b "Desc=" ++ protover_get_supported PRT_DESC ++ s2b " " ++
  s2b "DirCache=" ++ protover_get_supported PRT_DIRCACHE ++ s2b " " ++
  s2b "FlowCtrl=" ++ protover_get_supported PRT_FLOWCTRL ++ s2b " " ++
  s2b "HSDir=" ++ protover_get_supported PRT_HSDIR ++ s2b " " ++
  s2b "HSIntro=" ++ protover_get_supported PRT_HSINTRO ++ s2b " " ++
  s2b "HSRend=" ++ protover_get_supported PRT_HSREND ++ s2b " " ++
  s2b "Link=" ++ protover_get_supported PRT_LINK ++ s2b " " ++
  s2b "LinkAuth=" ++ protover_get_supported PRT_LINKAUTH ++ s2b " " ++
  s2b "Microdesc=" ++ protover_get_supported PRT_MICRODESC ++ s2b " " ++
  s2b "Padding=" ++ protover_get_supported PRT_PADDING ++ s2b " " ++
  s2b "Relay=" ++ protover_get_supported PRT_RELAY.

Definition protover_get_recommended_client_protocols : bytes :=
  s2b "Cons=2 Desc=2 DirCache=2 FlowCtrl=1-2 HSDir=2 HSIntro=4 HSRend=2 Link=4-5 Microdesc=2 Relay=2-4".
Definition protover_get_recommended_relay_protocols : bytes :=
  s2b "Cons=2 Desc=2 DirCache=2 FlowCtrl=1-2 HSDir=2 HSIntro=4-5 HSRend=2 Link=4-5 LinkAuth=3 Microdesc=2 Relay=2-4".
Definition protover_get_required_client_protocols : bytes :=
  s2b "Cons=2 Desc=2 FlowCtrl=1 Link=4 Microdesc=2 Relay=2".
Definition protover_get_required_relay_protocols : bytes :=
  s2b "Cons=2 Desc=2 DirCache=2 FlowCtrl=1-2 HSDir=2 HSIntro=4-5 HSRend=2 Link=4-5 LinkAuth=3 Microdesc=2 Relay=2-4".

(** The parsed list is kept in a static variable; [Err] would be NULL in it. *)
Definition get_supported_protocol_list : cres (list proto_entry_t) := parse_protocol_list protover_get_supported_protocols.

Definition protocol_list_contains (protos : list proto_entry_t) (pr : protocol_type_t) (ver : Z) : bool :=
  let pr_name := protocol_type_to_str pr in
  if MAX_PROTOCOL_VERSION <? ver then false
  else
    match find_entry_by_name protos pr_name with
    | Some ent => negb (Z.land (e_bitmask ent) (BIT ver) =? 0)
    | None => false
    end.

Definition protover_is_supported_here (pr : protocol_type_t) (ver : Z) : cres bool :=
  let* ours := get_supported_protocol_list in Ok (protocol_list_contains ours pr ver).

Definition protocol_list_supports_protocol (l : bytes) (tp : protocol_type_t) (version : Z) : cres bool :=
  let* protocols := or_null (parse_protocol_list l) in
  Ok (match protocols with None => false | Some p => protocol_list_contains p tp version end).

Fixpoint contains_mask (protocols : list proto_entry_t) (pr_name : bytes) (mask : Z) : bool :=
  match protocols with
  | [] => false
  | proto :: r =>
      if negb (strcasecmp (e_name proto) pr_name =? 0) then contains_mask r pr_name mask
      else if negb (Z.land (e_bitmask proto) mask =? 0) then true
      else contains_mask r pr_name mask
  end.

Definition protocol_list_supports_protocol_or_later (l : bytes) (tp : protocol_type_t) (version : Z) : cres bool :=
  let* protocols := or_null (parse_protocol_list l) in
  match protocols with
  | None => Ok false
  | Some protocols =>
      let* mask := bitmask_for_range version 63 in
      Ok (contains_mask protocols (protocol_type_to_str tp) mask)
  end.

(** The entries of [s] that are not supported. *)
Fixpoint missing_entries (entries supported : list proto_entry_t) : list proto_entry_t :=
  match entries with
  | [] => []
  | ent :: r =>
      match find_entry_by_name supported (e_name ent) with
      | None =>
          if negb (e_bitmask ent =? 0) then mkentry (e_name ent) (e_bitmask ent) :: missing_entries r supported
          else missing_entries r supported
      | Some mine =>
          let missing_mask := Z.land (e_bitmask ent) (u64 (Z.lnot (e_bitmask mine))) in
          if negb (missing_mask =? 0) then mkentry (e_name ent) missing_mask :: missing_entries r supported
          else missing_entries r supported
      end
  end.

(** The result and [*missing_out], when [want_missing]. *)
Definition protover_all_supported (s : option bytes) (want_missing : bool) : cres (bool * option bytes) :=
  match s with
  | None => Ok (true, None)
  | Some s =>
      let* entries := or_null (parse_protocol_list s) in
      match entries with
      | None => Ok (true, None)
      | Some entries =>
          let* supported := get_supported_protocol_list in
          let missing := missing_entries entries supported in
          let all_supported := zlen missing =? 0 in
          if negb all_supported && want_missing then
            let* m := encode_protocol_list missing in Ok (all_supported, Some m)
          else Ok (all_supported, None)
      end
  end.

(** ** Bit masks *)

(** A 64-bit mask as a set of versions. *)
Definition is_mask (m : Z) : Prop := 0 <= m < 2 ^ 64.
Definition in_rangeb (r : Z * Z) (i : Z) : bool := (fst r <=? i) && (i <=? snd r).
Definition range_ok (r : Z * Z) : Prop := 0 <= fst r <= snd r /\ snd r <= 63.

Lemma testbit_UINT64_MAX i : 0 <= i -> Z.testbit UINT64_MAX i = (i <? 64).
Proof. intros Hi. change UINT64_MAX with (Z.ones 64). rewrite Z.testbit_ones by lia. by rewrite (proj2 (Z.leb_le 0 i) Hi). Qed.

Lemma u64_testbit m i : 0 <= i -> Z.testbit (u64 m) i = (i <? 64) && Z.testbit m i.
Proof.
  intros Hi. unfold u64. destruct (Z.ltb_spec i 64).
  - by rewrite Z.mod_pow2_bits_low by lia.
  - by rewrite Z.mod_pow2_bits_high by lia.
Qed.

Lemma u64_mask m : is_mask (u64 m).
Proof. apply Z.mod_pos_bound. lia. Qed.

Lemma shiftr_mask m k : is_mask m -> 0 <= k -> is_mask (Z.shiftr m k).
Proof.
  intros [H1 H2] Hk. unfold is_mask. rewrite Z.shiftr_div_pow2 by done.
  assert (0 < 2 ^ k) by (apply Z.pow_pos_nonneg; lia). split; [apply Z.div_pos; lia|].
  apply Z.le_lt_trans with m; [|done]. apply Z.div_le_upper_bound; [done|]. nia.
Qed.

Lemma lor_mask a b : is_mask a -> is_mask b -> is_mask (Z.lor a b).
Proof.
  intros [A1 A2] [B1 B2]. split; [by apply Z.lor_nonneg|].
  destruct (Z.eq_dec (Z.lor a b) 0) as [->|Hne]; [done|].
  apply Z.log2_lt_pow2; [pose proof (proj2 (Z.lor_nonneg a b) (conj A1 B1)); lia|].
  rewrite Z.log2_lor by done. apply Z.max_lub_lt.
  - destruct (Z.eq_dec a 0) as [->|]; [done|]. apply Z.log2_lt_pow2; lia.
  - destruct (Z.eq_dec b 0) as [->|]; [done|]. apply Z.log2_lt_pow2; lia.
Qed.

Lemma mask_high m i : is_mask m -> 64 <= i -> Z.testbit m i = false.
Proof.
  intros [H1 H2] Hi. destruct (Z.eq_dec m 0) as [->|]; [apply Z.bits_0|].
  apply Z.bits_above_log2; [done|]. apply Z.lt_le_trans with 64; [apply Z.log2_lt_pow2; lia|done].
Qed.

Lemma mask_ext a b : is_mask a -> is_mask b -> (forall i, 0 <= i < 64 -> Z.testbit a i = Z.testbit b i) -> a = b.
Proof.
  intros Ha Hb H. apply Z.bits_inj'. intros i Hi. destruct (Z.lt_ge_cases i 64); [by apply H|].
  by rewrite !mask_high.
Qed.

Lemma BIT_testbit x i : 0 <= x < 64 -> 0 <= i -> Z.testbit (BIT x) i = (i =? x).
Proof.
  intros Hx Hi. unfold BIT. rewrite u64_testbit by done. rewrite Z.shiftl_spec by done.
  destruct (Z.eqb_spec i x) as [->|Hne].
  - rewrite Z.sub_diag, (proj2 (Z.ltb_lt _ _)) by lia. done.
  - destruct (Z.lt_ge_cases i x); [rewrite Z.testbit_neg_r by lia; apply andb_false_r|].
    rewrite (Z.bits_above_log2 1) by (change (Z.log2 1) with 0; lia). apply andb_false_r.
Qed.

Lemma BIT_land m x : is_mask m -> 0 <= x < 64 -> negb (Z.land m (BIT x) =? 0) = Z.testbit m x.
Proof.
  intros Hm Hx. destruct (Z.eqb_spec (Z.land m (BIT x)) 0) as [E|E]; simpl.
  - symmetry. rewrite <- (Z.bits_0 x), <- E, Z.land_spec, BIT_testbit, Z.eqb_refl, andb_true_r by lia. done.
  - destruct (Z.testbit m x) eqn:Et; [done|]. exfalso. apply E. apply Z.bits_inj'. intros i Hi.
    rewrite Z.land_spec, BIT_testbit, Z.bits_0 by done. destruct (Z.eqb_spec i x) as [->|]; [by rewrite Et|].
    apply andb_false_r.
Qed.

(** [bitmask_for_range] sets the bits of the range. *)
Lemma bitmask_for_range_spec low high :
  range_ok (low, high) ->
  exists m, bitmask_for_range low high = Ok m /\ is_mask m
            /\ forall i, 0 <= i -> Z.testbit m i = in_rangeb (low, high) i.
Proof.
  unfold range_ok, in_rangeb. simpl. intros [H1 H2]. unfold bitmask_for_range, shl64, shr64.
  assert (U : forall k, 0 <= k < 64 -> u32 k = k) by (intros k Hk; unfold u32; apply Z.mod_small; lia).
  rewrite (U (63 - high)), (U (63 - high + low)) by lia.
  rewrite !(proj2 (andb_true_iff _ _)) by (split; [apply Z.leb_le|apply Z.ltb_lt]; lia). cbn [cbind].
  eexists. split; [done|]. split; [apply u64_mask|]. intros i Hi.
  rewrite u64_testbit by done. rewrite Z.shiftl_spec by done.
  destruct (Z.leb_spec low i) as [Hl|Hl]; simpl; [|rewrite Z.testbit_neg_r by lia; apply andb_false_r].
  rewrite Z.shiftr_spec by lia. rewrite u64_testbit by lia. rewrite Z.shiftl_spec by lia.
  destruct (Z.ltb_spec (i - low + (63 - high + low)) 64) as [Hh|Hh]; simpl.
  - rewrite testbit_UINT64_MAX by lia. rewrite (proj2 (Z.leb_le _ _)), !(proj2 (Z.ltb_lt _ _)) by lia. done.
  - rewrite (proj2 (Z.leb_gt _ _)) by lia. apply andb_false_r.
Qed.

(** [trailing_zeros]: the index of the lowest set bit. *)
Lemma tz_loop_spec n : forall i x, 0 < x < 2 ^ Z.of_nat n ->
  exists k, 0 <= k < Z.of_nat n /\ tz_loop n i x = i + k /\ Z.testbit x k = true
            /\ forall j, 0 <= j < k -> Z.testbit x j = false.
Proof.
  induction n as [|n IH]; intros i x Hx; [change (2 ^ Z.of_nat 0) with 1 in Hx; lia|].
  cbn [tz_loop]. destruct (Z.odd x) eqn:E.
  - exists 0. rewrite Z.add_0_r. split_and!; [lia|lia|done|by rewrite Z.bit0_odd|lia].
  - assert (Hdiv : Z.shiftr x 1 = Z.div2 x) by (by rewrite <- Z.div2_spec).
    assert (Hx2 : x = 2 * Z.div2 x) by (pose proof (Z.div2_odd x); rewrite E in *; simpl in *; lia).
    rewrite Hdiv. destruct (IH (i + 1) (Z.div2 x)) as (k & Hk & -> & Hb & Hl).
    { rewrite Nat2Z.inj_succ, Z.pow_succ_r in Hx by lia. lia. }
    exists (k + 1). split_and!; [lia|lia|lia| |].
    + rewrite Hx2. replace (k + 1) with (Z.succ k) by lia. by rewrite Z.double_bits_succ.
    + intros j Hj. destruct (Z.eq_dec j 0) as [->|]; [by rewrite Z.bit0_odd|].
      rewrite Hx2. replace j with (Z.succ (j - 1)) by lia. rewrite Z.double_bits_succ. apply Hl. lia.
Qed.

Lemma trailing_zeros_spec x : 0 < x < 2 ^ 64 ->
  exists k, trailing_zeros x = Ok k /\ 0 <= k < 64 /\ Z.testbit x k = true
            /\ forall j, 0 <= j < k -> Z.testbit x j = false.
Proof.
  intros Hx. unfold trailing_zeros. rewrite (proj2 (Z.eqb_neq _ _)) by lia. simpl negb.
  destruct (tz_loop_spec 65 0 x) as (k & Hk & -> & Hb & Hl).
  { change (2 ^ Z.of_nat 65) with (2 * 2 ^ 64). lia. }
  exists k. split_and!; [done|lia| |done|done]. destruct (Z.lt_ge_cases k 64); [done|].
  rewrite mask_high in Hb; [done|split; lia|done].
Qed.

(** ** The text of a list of ranges *)

Definition print_range (r : Z * Z) : bytes :=
  if fst r =? snd r then dec (fst r) else dec (fst r) ++ [45] ++ dec (snd r).

Fixpoint ranges_text (first : bool) (rs : list (Z * Z)) : bytes :=
  match rs with
  | [] => []
  | r :: rs => (if first then [] else [44]) ++ print_range r ++ ranges_text false rs
  end.

Definition in_ranges (rs : list (Z * Z)) (i : Z) : bool := existsb (fun r => in_rangeb r i) rs.

(** One run of ones: [zeros] bits to skip and [ones] bits set. *)
Lemma run_spec mask shift :
  0 < mask < 2 ^ (64 - shift) -> 0 <= shift < 64 -> mask <> UINT64_MAX ->
  exists zeros ones, trailing_zeros mask = Ok zeros /\ 0 <= zeros
    /\ shr64 mask zeros = Ok (Z.shiftr mask zeros) /\ Z.shiftr mask zeros <> 0
    /\ trailing_zeros (u64 (Z.lnot (Z.shiftr mask zeros))) = Ok ones /\ 1 <= ones <= 63
    /\ shift + zeros + ones <= 64
    /\ (forall i, 0 <= i < zeros -> Z.testbit mask i = false)
    /\ (forall i, zeros <= i < zeros + ones -> Z.testbit mask i = true)
    /\ shr64 (Z.shiftr mask zeros) ones = Ok (Z.shiftr mask (zeros + ones))
    /\ 0 <= Z.shiftr mask (zeros + ones) < 2 ^ (64 - (shift + zeros + ones)).
Proof.
  intros Hm Hs Hne.
  assert (Hpow : 2 ^ (64 - shift) <= 2 ^ 64) by (apply Z.pow_le_mono_r; lia).
  assert (Hhigh : forall i, 64 - shift <= i -> Z.testbit mask i = false).
  { intros i Hi. apply Z.bits_above_log2; [lia|]. apply Z.lt_le_trans with (64 - shift); [|done].
    apply Z.log2_lt_pow2; lia. }
  destruct (trailing_zeros_spec mask) as (z & Ez & Hz & Hbz & Hlz); [lia|].
  assert (Hz2 : z < 64 - shift).
  { destruct (Z.lt_ge_cases z (64 - shift)) as [|Hge]; [done|]. by rewrite Hhigh in Hbz. }
  set (m1 := Z.shiftr mask z).
  assert (Hm1 : is_mask m1) by (apply shiftr_mask; [split; lia|lia]).
  assert (Hb1 : forall i, 0 <= i -> Z.testbit m1 i = Z.testbit mask (i + z)) by (intros i Hi; by apply Z.shiftr_spec).
  assert (Hm1ne : m1 <> 0) by (intros E; rewrite <- (Z.add_0_l z), <- Hb1, E, Z.bits_0 in Hbz by lia; done).
  assert (Hfull : m1 <> UINT64_MAX).
  { intros E. destruct (Z.eq_dec z 0) as [Hz0|Hz0].
    - apply Hne. unfold m1 in E. by rewrite Hz0, Z.shiftr_0_r in E.
    - specialize (Hb1 63 ltac:(lia)). by rewrite E, Hhigh, testbit_UINT64_MAX in Hb1 by lia. }
  assert (Hneg : forall i, 0 <= i < 64 -> Z.testbit (u64 (Z.lnot m1)) i = negb (Z.testbit m1 i)).
  { intros i Hi. rewrite u64_testbit, (proj2 (Z.ltb_lt _ _)), Z.lnot_spec by lia. done. }
  destruct (trailing_zeros_spec (u64 (Z.lnot m1))) as (o & Eo & Ho & Hbo & Hlo).
  { pose proof (u64_mask (Z.lnot m1)) as [U1 U2]. destruct (Z.eq_dec (u64 (Z.lnot m1)) 0) as [E|]; [|lia].
    exfalso. apply Hfull. apply mask_ext; [done|split; done|]. intros i Hi. specialize (Hneg i Hi).
    rewrite E, Z.bits_0 in Hneg. rewrite testbit_UINT64_MAX, (proj2 (Z.ltb_lt i 64)) by lia. by destruct (Z.testbit m1 i). }
  rewrite Hneg in Hbo by lia. apply negb_true_iff in Hbo.
  assert (Ho1 : 1 <= o).
  { destruct (Z.eq_dec o 0) as [->|]; [|lia]. by rewrite Hb1, Z.add_0_l, Hbz in Hbo by lia. }
  assert (Hones : forall i, 0 <= i < o -> Z.testbit m1 i = true).
  { intros i Hi. specialize (Hlo i Hi). rewrite Hneg in Hlo by lia. by apply negb_false_iff in Hlo. }
  assert (Hsum : shift + z + o <= 64).
  { destruct (Z.le_gt_cases (shift + z + o) 64) as [|Hgt]; [done|]. exfalso.
    specialize (Hones (o - 1) ltac:(lia)). by rewrite Hb1, Hhigh in Hones by lia. }
  exists z, o. split_and!; try done; try lia.
  - unfold shr64. by rewrite (proj2 (andb_true_iff _ _)) by (split; [apply Z.leb_le|apply Z.ltb_lt]; lia).
  - intros i Hi. replace i with (i - z + z) by lia. rewrite <- Hb1 by lia. apply Hones. lia.
  - unfold shr64. rewrite (proj2 (andb_true_iff _ _)) by (split; [apply Z.leb_le|apply Z.ltb_lt]; lia).
    by rewrite Z.shiftr_shiftr by lia.
  - rewrite Z.shiftr_div_pow2 by lia. assert (0 < 2 ^ (z + o)) by (apply Z.pow_pos_nonneg; lia).
    apply Z.div_pos; lia.
  - rewrite Z.shiftr_div_pow2 by lia. apply Z.div_lt_upper_bound; [apply Z.pow_pos_nonneg; lia|].
    rewrite <- Z.pow_add_r by lia. replace (z + o + (64 - (shift + z + o))) with (64 - shift) by lia. lia.
Qed.

(** What the loop of [proto_entry_encode_into] prints. *)
Lemma encode_ranges_spec fuel : forall mask shift first,
  64 - shift < Z.of_nat fuel -> 0 <= mask < 2 ^ (64 - shift) -> 0 <= shift <= 64 ->
  mask <> UINT64_MAX ->
  exists chunks rs, encode_ranges fuel mask shift first = Ok chunks /\ concat chunks = ranges_text first rs
    /\ Forall range_ok rs /\ Forall (fun r => shift <= fst r) rs
    /\ forall i, 0 <= i -> Z.testbit mask i = in_ranges rs (i + shift).
Proof.
  induction fuel as [|fuel IH]; intros mask shift first Hf Hm Hs Hne; [lia|].
  cbn [encode_ranges]. destruct (Z.eqb_spec mask 0) as [->|Hm0].
  { exists [], []. split_and!; try done. intros i _. apply Z.bits_0. }
  assert (Hs64 : shift < 64).
  { destruct (Z.eq_dec shift 64) as [->|]; [change (2 ^ (64 - 64)) with 1 in Hm; lia|lia]. }
  destruct (run_spec mask shift) as (z & o & Ez & Hz & Es & Hm1 & Eo & Ho & Hsum & B0 & B1 & Eshr & Hrest); [lia|lia|done|].
  rewrite Ez. cbn [cbind]. rewrite Es. cbn [cbind]. rewrite (proj2 (Z.eqb_neq (Z.shiftr mask z) 0)) by done. rewrite Eo. cbn [cbind].
  rewrite (proj2 (Z.eqb_neq o 64)) by lia. rewrite Eshr. cbn [cbind].
  destruct (IH (Z.shiftr mask (z + o)) (shift + z + o) false) as (chunks & rs & -> & Hc & Hok & Hge & Hbits); [lia|done|lia| |].
  { assert (2 ^ (64 - (shift + z + o)) <= 2 ^ 63) by (apply Z.pow_le_mono_r; lia).
    change (2 ^ 63) with 9223372036854775808 in *. unfold UINT64_MAX. lia. }
  cbn [cbind]. eexists _, ((shift + z, shift + z + o - 1) :: rs). split; [done|]. split_and!.
  - cbn [concat ranges_text]. rewrite Hc. unfold print_range. cbn [fst snd].
    destruct (Z.eqb_spec o 1) as [->|]; [rewrite (proj2 (Z.eqb_eq _ _)) by lia|rewrite (proj2 (Z.eqb_neq _ _)) by lia]; lassoc.
  - constructor; [|done]. unfold range_ok. cbn [fst snd]. lia.
  - constructor; [cbn [fst]; lia|]. apply (Forall_weaken _ _ _ Hge). intros r Hr. lia.
  - intros i Hi. unfold in_ranges. cbn [existsb]. unfold in_rangeb at 1. cbn [fst snd].
    destruct (Z.lt_ge_cases i z) as [H1|H1]; [|destruct (Z.lt_ge_cases i (z + o)) as [H2|H2]].
    + rewrite B0 by lia. rewrite (proj2 (Z.leb_gt (shift + z) _)) by lia. cbn [andb orb]. symmetry.
      apply not_true_iff_false. intros (r & Hr & Hin)%existsb_exists.
      rewrite List.Forall_forall in Hge. specialize (Hge r Hr). unfold in_rangeb in Hin. boolp. lia.
    + rewrite B1 by lia. rewrite !(proj2 (Z.leb_le _ _)) by lia. done.
    + rewrite (proj2 (Z.leb_gt _ (shift + z + o - 1))) by lia. rewrite andb_false_r. cbn [orb].
      replace i with (i - (z + o) + (z + o)) at 1 by lia. rewrite <- Z.shiftr_spec by lia.
      rewrite Hbits by lia. by replace (i - (z + o) + (shift + z + o)) with (i + shift) by lia.
Qed.

(** ** Reading the text back *)

Definition no_digit (t : bytes) : Prop := is_digit_of 10 (cur t) = false.

Lemma cur_digit n t : 0 <= n -> TOR_ISDIGIT (cur (dec n ++ t)) = true.
Proof.
  intros Hn. destruct (dec_digits_of n Hn) as (H1 & H2 & _). destruct (dec n) as [|d ds]; [done|].
  apply Forall_cons_iff in H2 as [Hd _]. cbn [app cur hd]. rewrite isdigit_byte by (unfold is_byte; lia).
  unfold digitP, in_range. blia.
Qed.

Lemma parse_ulong_dec n t :
  0 <= n <= MAX_PROTOCOL_VERSION -> no_digit t ->
  tor_parse_ulong (dec n ++ t) 10 0 MAX_PROTOCOL_VERSION true = {| p_val := n; p_ok := true; p_next := Some t |}.
Proof.
  unfold MAX_PROTOCOL_VERSION. intros Hn Ht. apply tor_parse_ulong_dec; [unfold LONG_MAX; lia|lia|done].
Qed.

Lemma parse_version_range_text l h t :
  range_ok (l, h) -> no_digit t -> parse_version_range (print_range (l, h) ++ t) t = Ok (l, h).
Proof.
  unfold range_ok, print_range. cbn [fst snd]. intros [H1 H2] Ht. unfold parse_version_range.
  assert (U : forall k, 0 <= k <= 63 -> u32 k = k) by (intros k Hk; unfold u32; apply Z.mod_small; lia).
  destruct (Z.eqb_spec l h) as [->|Hne].
  - rewrite cur_digit, parse_ulong_dec by (done || (unfold MAX_PROTOCOL_VERSION; lia)).
    cbn [negb p_next p_ok p_val]. unfold ptr_gt, ptr_eq. rewrite Nat.ltb_irrefl, Nat.eqb_refl. by rewrite U by lia.
  - rewrite <- !app_assoc, cur_digit, parse_ulong_dec by (done || (unfold MAX_PROTOCOL_VERSION; lia)).
    cbn [negb p_next p_ok p_val]. unfold ptr_gt, ptr_eq.
    rewrite (proj2 (Nat.ltb_ge _ _)) by (cbn [app length]; rewrite length_app; lia).
    rewrite (proj2 (Nat.eqb_neq _ _)) by (cbn [app length]; rewrite length_app; lia).
    cbn [app cur hd tail]. change (45 =? 45) with true. cbn [negb].
    rewrite cur_digit, parse_ulong_dec by (done || (unfold MAX_PROTOCOL_VERSION; lia)).
    cbn [negb p_next p_ok p_val]. rewrite Nat.eqb_refl. cbn [negb]. rewrite !U by lia.
    by rewrite (proj2 (Z.ltb_ge _ _)) by lia.
Qed.

(** The bytes of a printed range. *)
Lemma print_range_bytes r : range_ok r -> print_range r <> [] /\ Forall (fun c => 48 <= c <= 57 \/ c = 45) (print_range r).
Proof.
  destruct r as [l h]. unfold range_ok, print_range. cbn [fst snd]. intros [H1 H2].
  destruct (dec_digits_of l) as (L1 & L2 & _); [lia|]. destruct (dec_digits_of h) as (_ & R2 & _); [lia|].
  assert (W : forall ds, dec_digits ds -> Forall (fun c => 48 <= c <= 57 \/ c = 45) ds)
    by (intros ds Hds; apply (Forall_weaken _ _ _ Hds); auto).
  destruct (l =? h); [auto|]. split; [by destruct (dec l)|]. apply Forall_app. split; [auto|]. constructor; auto.
Qed.

Lemma memchr_notin a r c n : c ∉ a -> (length a <= n)%nat -> memchr (a ++ r) c n = memchr r c (n - length a).
Proof.
  revert n. induction a as [|x a IH]; intros n Hc Hn; [cbn [app length]; by rewrite Nat.sub_0_r|].
  apply not_elem_of_cons in Hc as [Hx Hc]. destruct n as [|n]; cbn [length] in *; [lia|].
  cbn [app memchr]. rewrite (proj2 (Z.eqb_neq _ _)) by congruence. rewrite IH by (done || lia). done.
Qed.

Lemma memchr_zero s c : memchr s c 0 = None.
Proof. by destruct s. Qed.

Lemma comma_notin r : range_ok r -> 44 ∉ print_range r.
Proof.
  intros Hr Hin. destruct (print_range_bytes r Hr) as [_ H]. rewrite List.Forall_forall in H.
  apply list_elem_of_In in Hin. specialize (H 44 Hin). lia.
Qed.

(** The mask that the ranges of a text add up to. *)
Lemma ranges_loop_text rs : forall fuel e bm,
  Forall range_ok rs -> no_digit e -> is_mask bm -> (length rs < fuel)%nat ->
  exists m, ranges_loop fuel (ranges_text true rs ++ e) e bm = Ok m /\ is_mask m
    /\ forall i, 0 <= i -> Z.testbit m i = Z.testbit bm i || in_ranges rs i.
Proof.
  induction rs as [|r rs IH]; intros fuel e bm Hok He Hbm Hf; (destruct fuel as [|fuel]; [cbn [length] in Hf; lia|]).
  { cbn [ranges_text app ranges_loop]. unfold ptr_gt. rewrite Nat.ltb_irrefl. exists bm. split_and!; try done.
    intros i _. by rewrite orb_false_r. }
  apply Forall_cons_iff in Hok as [Hr Hok]. destruct (print_range_bytes r Hr) as [Hne _].
  assert (Hlen : (0 < length (print_range r))%nat) by (destruct (print_range r); [done|cbn; lia]).
  destruct r as [l h]. destruct (bitmask_for_range_spec l h Hr) as (m & Em & Hm & Hbits).
  cbn [ranges_text app ranges_loop]. rewrite <- app_assoc. unfold ptr_gt.
  rewrite (proj2 (Nat.ltb_lt _ _)) by (rewrite !length_app; lia).
  set (rest := ranges_text false rs ++ e).
  rewrite memchr_notin by first [by apply comma_notin | unfold rest; rewrite !length_app; lia].
  assert (Hc : match memchr rest 44 (length (print_range (l, h) ++ rest) - length e - length (print_range (l, h)))
               with Some c => c | None => e end = rest).
  { unfold rest. rewrite !length_app. destruct rs as [|r2 rs].
    - cbn [ranges_text app length]. replace (_ - _ - _)%nat with 0%nat by lia. by rewrite memchr_zero.
    - cbn [ranges_text app length]. 
      match goal with |- context [memchr _ 44 ?n] => destruct n as [|n'] eqn:En; [lia|] end. done. }
  rewrite Hc, parse_version_range_text; [|done|unfold rest; by destruct rs].
  cbn [cbind]. rewrite Em. cbn [cbind].
  destruct rs as [|r2 rs].
  - unfold rest. cbn [ranges_text app]. rewrite (proj2 (Nat.ltb_ge _ _)) by lia.
    destruct (IH fuel e (Z.lor bm m)) as (m' & E' & Hm' & Hb'); [done|done|by apply lor_mask|cbn [length] in *; lia|].
    exists m'. split; [exact E'|]. split; [done|]. intros i Hi. rewrite Hb', Z.lor_spec, Hbits by done.
    unfold in_ranges. cbn [existsb]. by rewrite !orb_false_r.
  - apply Forall_cons_iff in Hok as Hok2. destruct Hok2 as [Hr2 _]. destruct (print_range_bytes r2 Hr2) as [Hne2 _].
    rewrite (proj2 (Nat.ltb_lt _ _)).
    2:{ unfold rest. cbn [ranges_text app length]. rewrite !length_app. destruct (print_range r2); [done|cbn; lia]. }
    destruct (IH fuel e (Z.lor bm m)) as (m' & E' & Hm' & Hb'); [done|done|by apply lor_mask|cbn [length] in *; lia|].
    exists m'. split; [exact E'|]. split; [done|]. intros i Hi. rewrite Hb', Z.lor_spec, Hbits by done.
    unfold in_ranges. cbn [existsb]. by rewrite <- !orb_assoc.
Qed.

(** ** Entries *)

Definition name_char (c : Z) : Prop := is_byte c /\ (TOR_ISALNUM c = true \/ c = 45).

Record entry_ok (e : proto_entry_t) : Prop := mk_entry_ok {
  eo_name : Forall name_char (e_name e);
  eo_nonempty : e_name e <> [];
  eo_len : zlen (e_name e) <= MAX_PROTOCOL_NAME_LENGTH;
  eo_mask : is_mask (e_bitmask e)
}.

Lemma alnum_byte c : is_byte c -> TOR_ISALNUM c = upperP c || lowerP c || digitP c.
Proof.
  intros H%ctype_spec_ok. unfold ctype_spec in H. rewrite !andb_true_iff in H. destruct_and!. by apply eqb_prop.
Qed.

Lemma name_char_range c : name_char c -> 45 <= c <= 122 /\ c <> 61 /\ c <> 46.
Proof.
  intros [Hb [H| ->]]; [|lia]. rewrite alnum_byte in H by done. unfold upperP, lowerP, digitP, in_range in H. lia.
Qed.

Lemma keyword_ok s r : Forall name_char s -> is_valid_keyword (s ++ r) (length s) = true.
Proof.
  induction 1 as [|c s [Hb Hc] Hs IH]; [done|]. cbn [length app is_valid_keyword cur hd tail].
  destruct Hc as [-> | ->]; [done|]. change (45 =? 45) with true. by rewrite andb_false_r.
Qed.

Lemma keyword_inv s n :
  Forall is_byte s -> (n <= length s)%nat -> is_valid_keyword s n = true -> Forall name_char (take n s).
Proof.
  revert n. induction s as [|c s IH]; intros n Hb Hn H; (destruct n as [|n]; [constructor|]); cbn [length] in Hn; [lia|].
  apply Forall_cons_iff in Hb as [Hc Hb]. cbn [is_valid_keyword cur hd tail] in H.
  destruct (negb (TOR_ISALNUM c) && negb (c =? 45)) eqn:E; [done|]. cbn [take]. constructor; [|apply IH; (done || lia)].
  split; [done|]. apply andb_false_iff in E as [E|E]; boolp; auto.
Qed.

(** The same conditions as a test. *)
Definition name_charb (c : Z) : bool := is_byteb c && (TOR_ISALNUM c || (c =? 45)).
Definition entry_okb (e : proto_entry_t) : bool :=
  forallb name_charb (e_name e) && negb (zlen (e_name e) =? 0) && (zlen (e_name e) <=? MAX_PROTOCOL_NAME_LENGTH)
  && (0 <=? e_bitmask e) && (e_bitmask e <? 2 ^ 64).

Lemma name_charb_ok s : forallb name_charb s = true -> Forall name_char s.
Proof.
  intros H. apply List.Forall_forall. intros c Hc. rewrite forallb_forall in H. specialize (H c Hc).
  unfold name_charb, is_byteb in H. boolp. split; [unfold is_byte; lia|].
  apply orb_true_iff in H0 as [?|?]; [auto|boolp; auto].
Qed.

Lemma entry_okb_ok e : entry_okb e = true -> entry_ok e.
Proof.
  unfold entry_okb. intros H. boolp. split; [by apply name_charb_ok| |done|split; done].
  intros E. by rewrite E in *.
Qed.

(** The text of an entry. *)
Definition entry_text (name : bytes) (rs : list (Z * Z)) : bytes := name ++ 61 :: ranges_text true rs.

Lemma parse_entry_text name rs e :
  Forall name_char name -> name <> [] -> zlen name <= MAX_PROTOCOL_NAME_LENGTH -> Forall range_ok rs -> no_digit e ->
  exists m, parse_single_entry (entry_text name rs ++ e) e = Ok (mkentry name m) /\ is_mask m
    /\ forall i, 0 <= i -> Z.testbit m i = in_ranges rs i.
Proof.
  intros Hn Hne Hlen Hrs He. unfold parse_single_entry, entry_text. rewrite <- app_assoc. cbn [app].
  assert (61 ∉ name) as H61.
  { intros Hin. rewrite List.Forall_forall in Hn. apply list_elem_of_In in Hin. apply Hn in Hin.
    apply name_char_range in Hin. lia. }
  rewrite memchr_notin by (done || (rewrite length_app; cbn [length]; rewrite length_app; lia)).
  match goal with |- context [memchr _ 61 ?n] => destruct n as [|n'] eqn:En end.
  { rewrite length_app in En. cbn [length] in En. rewrite length_app in En. lia. }
  cbn [memchr]. change (61 =? 61) with true. cbv iota. clear En n'.
  rewrite length_app. replace (length name + _ - _)%nat with (length name) by lia.
  rewrite (proj2 (Nat.eqb_neq _ _)) by (by destruct name).
  rewrite (proj2 (Z.ltb_ge _ _)) by exact Hlen. rewrite keyword_ok by done. cbn [negb tail].
  destruct (ranges_loop_text rs (S (length name + length (61 :: ranges_text true rs ++ e))) e 0) as (m & -> & Hm & Hb);
    [done|done|done| |].
  - cbn [length]. rewrite length_app. assert (length rs <= length (ranges_text true rs))%nat; [|lia].
    clear -Hrs. assert (forall b, (length rs <= length (ranges_text b rs))%nat) as H; [|apply H].
    induction Hrs as [|r rs Hr Hrs IH]; intros b; [done|]. cbn [ranges_text length]. rewrite !length_app.
    destruct (print_range_bytes r Hr) as [Hp _]. specialize (IH false).
    destruct (print_range r); [done|]. cbn [length]. lia.
  - cbn [cbind]. rewrite take_app_length. exists m. split_and!; try done.
    intros i Hi. rewrite Hb by done. by rewrite Z.bits_0.
Qed.

(** ** The round trip *)

Lemma encode_entry_spec e :
  entry_ok e -> e_bitmask e <> UINT64_MAX ->
  exists chunks rs, proto_entry_encode_into e = Ok chunks /\ concat chunks = entry_text (e_name e) rs
    /\ Forall range_ok rs /\ forall i, 0 <= i -> Z.testbit (e_bitmask e) i = in_ranges rs i.
Proof.
  intros [_ _ _ Hm] Hne. unfold proto_entry_encode_into.
  destruct (encode_ranges_spec 65 (e_bitmask e) 0 true) as (chunks & rs & -> & Hc & Hok & _ & Hb); [lia|done|lia|done|].
  cbn [cbind]. eexists _, rs. split; [done|]. split_and!; [|done|].
  - cbn [concat]. rewrite Hc. unfold entry_text. lassoc.
  - intros i Hi. rewrite Hb by done. by rewrite Z.add_0_r.
Qed.

Lemma ranges_text_bytes b rs : Forall range_ok rs -> Forall (fun c => 48 <= c <= 57 \/ c = 45 \/ c = 44) (ranges_text b rs).
Proof.
  intros Hrs. revert b. induction Hrs as [|r rs Hr Hrs IH]; intros b; [constructor|]. cbn [ranges_text].
  apply Forall_app. split; [destruct b; auto|]. apply Forall_app. split; [|apply IH].
  destruct (print_range_bytes r Hr) as [_ H]. apply (Forall_weaken _ _ _ H). intros c. tauto.
Qed.

Lemma space_notin name rs : Forall name_char name -> Forall range_ok rs -> 32 ∉ entry_text name rs.
Proof.
  intros Hn Hrs Hin. apply list_elem_of_In in Hin. unfold entry_text in Hin. apply in_app_iff in Hin as [Hin|[Hin|Hin]].
  - rewrite List.Forall_forall in Hn. apply Hn, name_char_range in Hin. lia.
  - lia.
  - pose proof (ranges_text_bytes true rs Hrs) as H. rewrite List.Forall_forall in H. apply H in Hin. lia.
Qed.

(** Either nothing follows an entry, or a space does. *)
Lemma strchr_space a e : 32 ∉ a -> (e = [] \/ cur e = 32 /\ e <> []) ->
  match strchr (a ++ e) 32 with Some q => q | None => [] end = e.
Proof.
  intros Ha He. unfold strchr. rewrite memchr_notin by (done || (rewrite length_app; lia)).
  destruct e as [|c e]; [by destruct (length (a ++ []) - length a)%nat|]. destruct He as [?|[He _]]; [done|]. cbn [cur hd] in He. subst c.
  rewrite length_app. cbn [length]. match goal with |- context [memchr _ 32 ?n] => destruct n as [|n'] eqn:En; [lia|] end.
  done.
Qed.

Lemma encode_chunks_parse es : Forall entry_ok es -> Forall (fun e => e_bitmask e <> UINT64_MAX) es ->
  forall sep, exists chunks t, encode_chunks es sep = Ok chunks
    /\ concat chunks = match es with [] => [] | _ => sep ++ t end
    /\ (es = [] -> t = []) /\ (es <> [] -> t <> [] /\ cur t <> 32)
    /\ forall fuel, (length t < fuel)%nat -> parse_loop fuel t = Ok es.
Proof.
  induction 1 as [|e es He Hes IH]; intros Hf sep.
  { exists [], []. split_and!; try done. intros [|fuel]; [cbn; lia|done]. }
  apply Forall_cons_iff in Hf as [Hfe Hf]. destruct (encode_entry_spec e He Hfe) as (c1 & rs & E1 & Hc1 & Hrs & Hbits).
  destruct (IH Hf [32]) as (c2 & t2 & E2 & Hc2 & Hnil & Hcons & Hparse). cbn [encode_chunks]. rewrite E1, E2. cbn [cbind].
  set (rest := concat c2) in *. destruct He as [N1 N2 N3 N4].
  exists (sep :: c1 ++ c2), (entry_text (e_name e) rs ++ rest). split; [done|].
  split; [cbn [concat]; rewrite concat_app, Hc1; lassoc|]. split; [done|]. split.
  { intros _. unfold entry_text. destruct (e_name e) as [|n0 name]; [done|]. split; [done|].
    apply Forall_cons_iff in N1 as [N1 _]. apply name_char_range in N1. cbn [app cur hd]. lia. }
  intros [|fuel] Hlen; [lia|].
  assert (Hrest : rest = [] \/ cur rest = 32 /\ rest <> []) by (rewrite Hc2; destruct es; [by left|by right]).
  destruct (parse_entry_text (e_name e) rs rest N1 N2 N3 Hrs) as (m & Em & Hm & Hmb).
  { unfold no_digit. destruct Hrest as [-> |[-> _]]; done. }
  assert (m = e_bitmask e) as ->.
  { apply mask_ext; [done|done|]. intros i Hi. by rewrite Hmb, Hbits by lia. }
  cbn [parse_loop]. destruct (entry_text (e_name e) rs ++ rest) as [|x s] eqn:Es.
  { unfold entry_text in Es. by destruct (e_name e). }
  rewrite <- Es in Em |- *. rewrite strchr_space by (done || by apply space_notin). rewrite Em. cbn [cbind].
  assert (skip_while (fun c => c =? 32) rest = t2) as ->.
  { rewrite Hc2. destruct es as [|e2 es]; [by rewrite Hnil|]. destruct (Hcons ltac:(done)) as [Ht2 Hcur].
    cbn [app skip_while]. change (32 =? 32) with true. cbv iota. destruct t2 as [|y t2]; [done|].
    cbn [skip_while]. cbn [cur hd] in Hcur. by rewrite (proj2 (Z.eqb_neq _ _)). }
  rewrite Hparse; [by destruct e|]. rewrite <- Es, length_app in Hlen. rewrite Hc2 in Hlen.
  assert (0 < length (entry_text (e_name e) rs))%nat by (unfold entry_text; rewrite length_app; cbn; lia).
  destruct es; [rewrite Hnil by done; cbn [length]; lia|]. cbn [app length] in Hlen. lia.
Qed.

Lemma join_fill_concat l : join_fill l [] = concat l.
Proof. induction l as [|s l IH]; [done|]. cbn [join_fill concat]. rewrite IH. by destruct l. Qed.

Lemma encode_parse es :
  Forall entry_ok es -> Forall (fun e => e_bitmask e <> UINT64_MAX) es ->
  exists s, encode_protocol_list es = Ok s /\ parse_protocol_list s = Ok es.
Proof.
  intros H1 H2. destruct (encode_chunks_parse es H1 H2 []) as (chunks & t & E & Hc & Hn & _ & Hp).
  unfold encode_protocol_list. rewrite E. cbn [cbind]. unfold smartlist_join_strings.
  rewrite join_strings2_total, join_fill_concat, app_nil_r, Hc.
  eexists. split; [done|]. unfold parse_protocol_list.
  destruct es; [by rewrite <- (Hn eq_refl); apply Hp; lia|]. cbn [app]. apply Hp. lia.
Qed.

(** ** Parsing any input *)

Lemma parse_ulong_facts s :
  let r := tor_parse_ulong s 10 0 MAX_PROTOCOL_VERSION true in
  (exists n, p_next r = Some n) /\ (p_ok r = true -> 0 <= p_val r <= 63).
Proof.
  unfold tor_parse_ulong. change (10 <? 0) with false. cbv iota. generalize (strtoul 10 s). intros r.
  unfold CHECK_STRTOX_RESULT, MAX_PROTOCOL_VERSION.
  destruct (r_erange r); [cbn; split; [eauto|done]|]. destruct (negb (r_conv r)); [cbn; split; [eauto|done]|].
  cbn [negb andb]. change (63 <? 0) with false. cbv iota.
  destruct ((r_val r <? 0) || (63 <? r_val r)) eqn:E; cbn; (split; [eauto|]); [done|]. boolp. lia.
Qed.

Lemma parse_version_range_cases s e :
  match parse_version_range s e with
  | Ok r => range_ok r /\ TOR_ISDIGIT (cur s) = true
  | Err => True
  | _ => False
  end.
Proof.
  unfold parse_version_range. destruct (TOR_ISDIGIT (cur s)) eqn:Ed; [|done]. cbn [negb].
  assert (U : forall k, 0 <= k <= 63 -> u32 k = k) by (intros k Hk; unfold u32; apply Z.mod_small; lia).
  destruct (parse_ulong_facts s) as [[n ->] Hv]. destruct (p_ok _); [|done]. cbn [negb]. specialize (Hv eq_refl).
  destruct (ptr_gt n e); [done|]. destruct (ptr_eq n e).
  { split; [|done]. unfold range_ok. cbn [fst snd]. rewrite U by lia. lia. }
  destruct (negb (cur n =? 45)); [done|]. destruct (negb (TOR_ISDIGIT _)); [done|].
  destruct (parse_ulong_facts (tail n)) as [[n2 ->] Hv2]. destruct (p_ok _); [|done]. cbn [negb].
  specialize (Hv2 eq_refl). destruct (ptr_eq n2 e); [|done]. cbn [negb]. rewrite !U by lia. zcase; [done|].
  split; [|done]. unfold range_ok. cbn [fst snd]. lia.
Qed.

Lemma memchr_shorter s c n q : memchr s c n = Some q -> cur s <> c -> (length q < length s)%nat.
Proof.
  intros H Hc. apply memchr_Some in H as (pre & r & -> & -> & _). destruct pre; [done|]. rewrite length_app. cbn. lia.
Qed.

Lemma isdigit_not_comma s : TOR_ISDIGIT (cur s) = true -> cur s <> 44.
Proof. intros H E. by rewrite E in H. Qed.

Lemma ranges_loop_total fuel : forall s e bm,
  (length s < fuel)%nat -> is_mask bm ->
  match ranges_loop fuel s e bm with Ok m => is_mask m | Err => True | _ => False end.
Proof.
  induction fuel as [|fuel IH]; intros s e bm Hf Hbm; [lia|]. cbn [ranges_loop].
  unfold ptr_gt. destruct (Nat.ltb_spec (length e) (length s)) as [Hlt|Hge]; [|done].
  set (comma := match memchr s 44 _ with Some c => c | None => e end).
  pose proof (parse_version_range_cases s comma) as Hr. destruct (parse_version_range s comma) as [[l h]| | |]; try done.
  destruct Hr as [Hr Hd]. cbn [cbind]. destruct (bitmask_for_range_spec l h Hr) as (m & -> & Hm & _). cbn [cbind].
  assert (Hc : (length comma < length s)%nat).
  { unfold comma. destruct (memchr s 44 _) as [q|] eqn:E; [|done]. eapply memchr_shorter; [exact E|by apply isdigit_not_comma]. }
  apply IH; [|by apply lor_mask]. destruct (_ <? _)%nat; [|lia]. destruct comma; cbn [tail length] in *; lia.
Qed.

Lemma parse_single_entry_total s e :
  Forall is_byte s ->
  match parse_single_entry s e with Ok ent => entry_ok ent /\ (length e < length s)%nat | Err => True | _ => False end.
Proof.
  intros Hb. unfold parse_single_entry. destruct (memchr s 61 _) as [eq|] eqn:E; [|done].
  assert (Hlen : (length e < length s)%nat).
  { destruct (length s - length e)%nat eqn:Es; [by rewrite memchr_zero in E|lia]. }
  apply memchr_Some in E as (pre & r & -> & -> & _). rewrite length_app.
  rewrite Nat.add_sub.
  destruct (Nat.eqb_spec (length pre) 0) as [H0|H0]; [done|]. zcase; [done|].
  destruct (is_valid_keyword (pre ++ 61 :: r) (length pre)) eqn:Ek; [|done]. cbn [negb tail].
  pose proof (ranges_loop_total (S (length pre + S (length r))) r e 0) as Ht.
  destruct (ranges_loop _ r e 0) as [m| | |]; cbn [cbind]; try (done || (apply Ht; [cbn [length]; lia|done])).
  split; [|by rewrite <- length_app]. split; cbn [e_name e_bitmask].
  - apply keyword_inv; [done|rewrite length_app; lia|done].
  - rewrite take_app_length. by destruct pre.
  - rewrite take_app_length. unfold zlen. lia.
  - apply Ht; [cbn [length]; lia|done].
Qed.

Lemma parse_loop_total fuel : forall s,
  (length s < fuel)%nat -> Forall is_byte s ->
  match parse_loop fuel s with Ok es => Forall entry_ok es | Err => True | _ => False end.
Proof.
  induction fuel as [|fuel IH]; intros s Hf Hb; [lia|]. cbn [parse_loop]. destruct s as [|c s]; [constructor|].
  set (e := match strchr (c :: s) 32 with Some e => e | None => [] end).
  assert (Hsuf : exists a, c :: s = a ++ e).
  { unfold e, strchr. destruct (memchr (c :: s) 32 _) as [q|] eqn:E; [|exists (c :: s); by rewrite app_nil_r].
    apply memchr_Some in E as (pre & r & -> & -> & _). by exists pre. }
  pose proof (parse_single_entry_total (c :: s) e Hb) as He.
  destruct (parse_single_entry (c :: s) e) as [ent| | |]; try done. destruct He as [He Hlt]. cbn [cbind].
  destruct (skip_while_suffix (fun c => c =? 32) e) as [a Ha]. destruct Hsuf as [a' Ha'].
  specialize (IH (skip_while (fun c => c =? 32) e)).
  destruct (parse_loop fuel _) as [es| | |]; cbn [cbind]; try (constructor; [done|]); try apply IH; try done.
  all: try (rewrite Ha, length_app in Hlt; cbn [length] in *; lia).
  all: rewrite Ha', Ha in Hb; apply Forall_app in Hb as [_ Hb]; apply Forall_app in Hb as [_ Hb]; done.
Qed.

Lemma parse_protocol_list_cases s :
  Forall is_byte s ->
  match parse_protocol_list s with Ok es => Forall entry_ok es | Err => True | _ => False end.
Proof. intros Hb. apply parse_loop_total; [lia|done]. Qed.

(** ** Voting *)

(** [vote] lists version [ver] of the protocol [name]. *)
Definition entry_has (es : list proto_entry_t) (name : bytes) (ver : Z) : bool :=
  match find_entry_by_name es name with
  | Some ent => Z.testbit (e_bitmask ent) ver
  | None => false
  end.

(** The inputs that parse, and how many of them list a version. *)
Definition parsed_votes (votes : list bytes) : list (list proto_entry_t) :=
  omap (fun v => match parse_protocol_list v with Ok es => Some es | _ => None end) votes.

Definition vote_count (parsed : list (list proto_entry_t)) (name : bytes) (ver : Z) : Z :=
  zlen (List.filter (fun es => entry_has es name ver) parsed).

Lemma find_entry_In es name ent : find_entry_by_name es name = Some ent -> In ent es.
Proof.
  induction es as [|e es IH]; cbn [find_entry_by_name]; [done|]. destruct (_ =? _); [intros [= ->]; by left|].
  intros H. right. auto.
Qed.

Lemma find_entry_ok es name ent : Forall entry_ok es -> find_entry_by_name es name = Some ent -> entry_ok ent.
Proof. intros H E. apply find_entry_In in E. rewrite List.Forall_forall in H. auto. Qed.

Lemma count_bits_lookup m counts i c :
  is_mask m -> (i < 64)%nat -> counts !! i = Some c ->
  count_bits m counts !! i = Some (if Z.testbit m (Z.of_nat i) then u8 (c + 1) else c).
Proof.
  intros Hm Hi Hc. unfold count_bits. rewrite list_lookup_imap, Hc. simpl.
  by rewrite BIT_land by (done || lia).
Qed.

Lemma count_votes_lookup parsed name i : Forall (Forall entry_ok) parsed -> (i < 64)%nat ->
  forall counts c, counts !! i = Some c -> 0 <= c -> c + zlen parsed <= 255 ->
  count_votes parsed name counts !! i = Some (c + vote_count parsed name (Z.of_nat i)).
Proof.
  intros Hp Hi. induction Hp as [|es parsed Hes Hp IH]; intros counts c Hc H0 Hmax.
  - cbn [count_votes]. rewrite Hc. f_equal. change (vote_count [] name (Z.of_nat i)) with 0. lia.
  - rewrite zlen_cons in Hmax. pose proof (zlen_nonneg parsed). cbn [count_votes].
    assert (Hv : vote_count (es :: parsed) name (Z.of_nat i)
                 = (if entry_has es name (Z.of_nat i) then 1 else 0) + vote_count parsed name (Z.of_nat i)).
    { unfold vote_count. cbn [List.filter]. destruct (entry_has es name (Z.of_nat i)); [rewrite zlen_cons|]; lia. }
    rewrite Hv. unfold entry_has. destruct (find_entry_by_name es name) as [ent|] eqn:E.
    + pose proof (eo_mask _ (find_entry_ok _ _ _ Hes E)) as Hm.
      rewrite (IH _ _ (count_bits_lookup _ _ _ _ Hm Hi Hc)); destruct (Z.testbit _ _); try (f_equal; lia); try lia.
      all: unfold u8; rewrite Z.mod_small by lia; try (f_equal; lia); lia.
    + rewrite (IH _ _ Hc) by lia. f_equal.
Qed.

Lemma count_votes_length parsed name counts : length (count_votes parsed name counts) = length counts.
Proof.
  revert counts. induction parsed as [|es parsed IH]; intros counts; [done|]. cbn [count_votes]. rewrite IH.
  destruct (find_entry_by_name es name); [|done]. unfold count_bits. by rewrite length_imap.
Qed.

Lemma result_mask_testbit counts : forall i thr j,
  0 <= i -> i + zlen counts <= 64 -> 0 <= j ->
  Z.testbit (result_mask counts i thr) j
  = if j <? i then false else match counts !! Z.to_nat (j - i) with Some c => thr <=? c | None => false end.
Proof.
  induction counts as [|c counts IH]; intros i thr j Hi Hl Hj; cbn [result_mask].
  - rewrite Z.bits_0. by destruct (j <? i).
  - rewrite zlen_cons in Hl. pose proof (zlen_nonneg counts). rewrite Z.lor_spec, IH by lia.
    assert (Hbit : Z.testbit (if thr <=? c then BIT i else 0) j = (thr <=? c) && (j =? i)).
    { destruct (thr <=? c); cbn [andb]; [apply BIT_testbit; lia|apply Z.bits_0]. }
    rewrite Hbit. destruct (Z.eqb_spec j i) as [->|Hne].
    + rewrite Z.ltb_irrefl, (proj2 (Z.ltb_lt _ _)) by lia. rewrite Z.sub_diag. by rewrite andb_true_r, orb_false_r.
    + rewrite andb_false_r. cbn [orb]. destruct (Z.ltb_spec j i).
      * by rewrite (proj2 (Z.ltb_lt _ _)) by lia.
      * rewrite (proj2 (Z.ltb_ge _ _)) by lia.
        replace (Z.to_nat (j - i)) with (S (Z.to_nat (j - (i + 1)))) by lia. done.
Qed.

Lemma result_mask_is_mask counts i thr : is_mask (result_mask counts i thr).
Proof.
  revert i. induction counts as [|c counts IH]; intros i; [done|]. cbn [result_mask]. apply lor_mask; [|apply IH].
  destruct (thr <=? c); [apply u64_mask|done].
Qed.

Lemma repeat_lookup {A} (x : A) n i : (i < n)%nat -> repeat x n !! i = Some x.
Proof. revert i. induction n as [|n IH]; intros [|i] Hi; [lia|lia|done|]. apply IH. lia. Qed.

(** The mask that a name gets in the vote. *)
Definition vote_mask (parsed : list (list proto_entry_t)) (name : bytes) (threshold : Z) : Z :=
  result_mask (count_votes parsed name (repeat 0 64)) 0 threshold.

Lemma vote_mask_testbit parsed name threshold ver :
  Forall (Forall entry_ok) parsed -> zlen parsed <= 255 -> 0 <= ver < 64 ->
  Z.testbit (vote_mask parsed name threshold) ver = (threshold <=? vote_count parsed name ver).
Proof.
  intros Hp Hl Hv. unfold vote_mask. rewrite result_mask_testbit.
  - rewrite (proj2 (Z.ltb_ge _ _)), Z.sub_0_r by lia.
    rewrite (count_votes_lookup parsed name (Z.to_nat ver) Hp ltac:(lia) _ 0); [|by apply repeat_lookup; lia|lia|lia].
    rewrite Z2Nat.id by lia. done.
  - lia.
  - unfold zlen. rewrite count_votes_length, repeat_length. done.
  - lia.
Qed.

(** ** Names in order *)

Lemma name_cstr e : entry_ok e -> cstr (e_name e).
Proof. intros [H _ _ _]. apply (Forall_weaken _ _ _ H). intros c Hc. apply name_char_range in Hc. lia. Qed.

Definition name_lt (a b : bytes) : Prop := strcmp a b < 0.

Lemma insert_string_In s l x : In x (insert_string s l) <-> x = s \/ In x l.
Proof.
  induction l as [|y l IH]; cbn [insert_string]; [simpl; naive_solver|].
  destruct (_ <=? 0); cbn [In]; [naive_solver|]. rewrite IH. naive_solver.
Qed.

Lemma sort_In l x : In x (smartlist_sort_strings l) <-> In x l.
Proof. induction l as [|s l IH]; [done|]. cbn [smartlist_sort_strings In]. rewrite insert_string_In, IH. naive_solver. Qed.

Lemma insert_sorted s l :
  cstr s -> Forall cstr l -> ~ In s l -> StronglySorted name_lt l -> StronglySorted name_lt (insert_string s l).
Proof.
  intros Hs Hl Hn Hsort. induction Hsort as [|x l Hsort IH Hx]; cbn [insert_string]; [repeat constructor|].
  apply Forall_cons_iff in Hl as [Hxc Hl]. apply not_in_cons in Hn as [Hne Hn].
  assert (Hneq : strcmp s x <> 0) by (intros E; apply Hne; apply strcmp_eq in E; [done|by apply cstr_no_nul..]).
  destruct (Z.leb_spec (strcmp s x) 0) as [Hle|Hgt].
  - constructor; [by constructor|]. constructor; [unfold name_lt; lia|].
    rewrite List.Forall_forall in *. intros y Hy. eapply strcmp_trans; [done|exact Hxc|by apply Hl| |by apply Hx]. lia.
  - constructor; [by apply IH|]. rewrite List.Forall_forall in *. intros y Hy. apply insert_string_In in Hy as [->|Hy]; [|by apply Hx].
    unfold name_lt. rewrite strcmp_anti. lia.
Qed.

Lemma sort_sorted l : Forall cstr l -> List.NoDup l -> StronglySorted name_lt (smartlist_sort_strings l).
Proof.
  intros Hl Hn. induction Hn as [|s l Hs Hn IH]; [constructor|]. apply Forall_cons_iff in Hl as [Hsc Hl].
  cbn [smartlist_sort_strings]. apply insert_sorted; [done| |by rewrite sort_In|by apply IH].
  apply List.Forall_forall. intros x Hx. rewrite sort_In in Hx.
  exact (proj1 (List.Forall_forall _ _) Hl x Hx).
Qed.

Lemma contains_string_In l s : Forall cstr l -> cstr s -> smartlist_contains_string l s = true <-> In s l.
Proof.
  intros Hl Hs. induction Hl as [|x l Hx Hl IH]; [done|]. cbn [smartlist_contains_string In].
  pose proof (strcmp_eq x s (cstr_no_nul _ Hx) (cstr_no_nul _ Hs)) as Heq.
  destruct (Z.eqb_spec (strcmp x s) 0) as [E|E]; [naive_solver|]. rewrite IH. naive_solver.
Qed.

Lemma add_names_spec es : Forall entry_ok es -> forall ns, Forall cstr ns -> List.NoDup ns ->
  Forall cstr (add_names es ns) /\ List.NoDup (add_names es ns)
  /\ forall x, In x (add_names es ns) <-> In x ns \/ In x (map e_name es).
Proof.
  induction 1 as [|e es He Hes IH]; intros ns Hc Hn; cbn [add_names map]; [split_and!; [done|done|simpl; tauto]|].
  pose proof (name_cstr e He) as Hce. pose proof (contains_string_In ns (e_name e) Hc Hce) as Hin.
  destruct (smartlist_contains_string ns (e_name e)).
  - destruct (IH ns Hc Hn) as (H1 & H2 & H3). split_and!; [done|done|]. intros x. rewrite H3. cbn [In]. 
    assert (In (e_name e) ns) by (by apply Hin). naive_solver.
  - assert (~ In (e_name e) ns) by (intros H; by apply Hin in H).
    destruct (IH (ns ++ [e_name e])) as (H1 & H2 & H3).
    + apply Forall_app. split; [done|by constructor].
    + apply List.NoDup_app; [done|repeat constructor; simpl; tauto|]. intros x Hx [<-|[]]. done.
    + split_and!; [done|done|]. intros x. rewrite H3, in_app_iff. cbn [In]. tauto.
Qed.

Definition all_names (parsed : list (list proto_entry_t)) : list bytes := map e_name (concat parsed).

Lemma parse_votes_spec votes : Forall (Forall is_byte) votes -> forall parsed ns,
  Forall (Forall entry_ok) parsed -> Forall cstr ns -> List.NoDup ns ->
  (forall x, In x ns <-> In x (all_names parsed)) ->
  exists ns', parse_votes votes parsed ns = Ok (parsed ++ parsed_votes votes, ns')
    /\ Forall (Forall entry_ok) (parsed ++ parsed_votes votes) /\ Forall cstr ns' /\ List.NoDup ns'
    /\ forall x, In x ns' <-> In x (all_names (parsed ++ parsed_votes votes)).
Proof.
  induction 1 as [|v votes Hv Hvs IH]; intros parsed ns Hp Hc Hn Hin; cbn [parse_votes].
  { exists ns. unfold parsed_votes. cbn [omap list_omap]. rewrite app_nil_r. done. }
  unfold parsed_votes. cbn [omap list_omap]. fold (parsed_votes votes).
  pose proof (parse_protocol_list_cases v Hv) as Hcase. destruct (parse_protocol_list v) as [es| | |]; try done; cbn [or_null cbind].
  - destruct (add_names_spec es Hcase ns Hc Hn) as (A1 & A2 & A3).
    destruct (IH (parsed ++ [es]) (add_names es ns)) as (ns' & E & B); try done.
    + apply Forall_app. split; [done|]. by constructor.
    + intros x. rewrite A3, Hin. unfold all_names. rewrite concat_app, map_app, in_app_iff. cbn [concat].
      by rewrite app_nil_r.
    + exists ns'. rewrite E. rewrite <- app_assoc in *. done.
  - apply (IH parsed ns); done.
Qed.

Lemma vote_result_has names parsed threshold name ver :
  Forall cstr names -> cstr name ->
  entry_has (vote_result names parsed threshold) name ver
  = bool_decide (name ∈ names) && Z.testbit (vote_mask parsed name threshold) ver.
Proof.
  intros Hc Hn. induction Hc as [|x names Hx Hc IH]; [done|]. cbn [vote_result]. fold (vote_mask parsed x threshold).
  pose proof (strcmp_eq x name (cstr_no_nul _ Hx) (cstr_no_nul _ Hn)) as Heq.
  assert (Hd : bool_decide (name ∈ x :: names) = (strcmp x name =? 0) || bool_decide (name ∈ names)).
  { destruct (Z.eqb_spec (strcmp x name) 0) as [E|E]; cbn [orb].
    - apply bool_decide_eq_true. apply Heq in E. subst x. apply list_elem_of_here.
    - apply bool_decide_ext. rewrite elem_of_cons. naive_solver. }
  rewrite Hd. destruct (Z.eqb_spec (vote_mask parsed x threshold) 0) as [Ez|Ez]; cbn [negb].
  - rewrite IH. destruct (Z.eqb_spec (strcmp x name) 0) as [E|E]; [|done]. apply Heq in E. subst x.
    by rewrite Ez, Z.bits_0, !andb_false_r.
  - unfold entry_has. cbn [find_entry_by_name e_name]. destruct (Z.eqb_spec (strcmp x name) 0) as [E|E]; [|exact IH].
    cbn [e_bitmask orb andb]. apply Heq in E. by subst x.
Qed.

Lemma vote_result_In names parsed threshold e :
  In e (vote_result names parsed threshold) -> In (e_name e) names /\ e_bitmask e = vote_mask parsed (e_name e) threshold.
Proof.
  induction names as [|x names IH]; cbn [vote_result]; [done|]. fold (vote_mask parsed x threshold).
  destruct (negb _); [intros [<-|H]|intros H]; [by split; [left|]| |]; destruct (IH H); split; auto; by right.
Qed.

Lemma vote_result_sorted names parsed threshold :
  StronglySorted name_lt names -> StronglySorted name_lt (map e_name (vote_result names parsed threshold)).
Proof.
  induction 1 as [|x names Hs IH Hx]; [constructor|]. cbn [vote_result]. destruct (negb _); [|done]. cbn [map e_name].
  constructor; [done|]. apply List.Forall_forall. intros y (e & <- & He)%in_map_iff.
  apply vote_result_In in He as [He _]. rewrite List.Forall_forall in Hx. auto.
Qed.

(** The name of an entry of a vote is the name of a parsed entry. *)
Lemma entry_has_name es name ver : Forall entry_ok es -> cstr name -> entry_has es name ver = true -> In name (map e_name es).
Proof.
  intros Hes Hn H. unfold entry_has in H. destruct (find_entry_by_name es name) as [ent|] eqn:E; [|done].
  pose proof (find_entry_In _ _ _ E) as Hin. apply in_map_iff. exists ent. split; [|done].
  assert (Heq : strcmp (e_name ent) name = 0).
  { clear -E. induction es as [|e es IH]; cbn [find_entry_by_name] in E; [done|].
    destruct (Z.eqb_spec (strcmp (e_name e) name) 0); [by injection E as <-|auto]. }
  apply strcmp_eq in Heq; [done|apply cstr_no_nul, name_cstr|by apply cstr_no_nul].
  by eapply find_entry_ok.
Qed.

Lemma vote_count_absent parsed name ver :
  Forall (Forall entry_ok) parsed -> cstr name -> ~ In name (all_names parsed) -> vote_count parsed name ver = 0.
Proof.
  intros Hp Hn Hno. induction Hp as [|es parsed Hes Hp IH]; [done|]. unfold vote_count, all_names in *. cbn [List.filter concat] in *.
  rewrite map_app, in_app_iff in Hno. destruct (entry_has es name ver) eqn:E; [|apply IH; tauto].
  exfalso. apply Hno. left. by eapply entry_has_name.
Qed.

Lemma parsed_votes_len votes : zlen (parsed_votes votes) <= zlen votes.
Proof.
  unfold parsed_votes, zlen. induction votes as [|v votes IH]; [done|]. cbn [omap list_omap length].
  destruct (match parse_protocol_list v with Ok es => Some es | _ => None end); cbn [length]; lia.
Qed.

(** The name of a member of [all_names] makes a valid entry with any mask. *)
Lemma all_names_entry parsed name m :
  Forall (Forall entry_ok) parsed -> In name (all_names parsed) -> is_mask m -> entry_ok (mkentry name m).
Proof.
  intros Hp Hin Hm. apply in_map_iff in Hin as (e & <- & He). apply in_concat in He as (es & Hes & He).
  rewrite List.Forall_forall in Hp. specialize (Hp es Hes). rewrite List.Forall_forall in Hp.
  destruct (Hp e He) as [N1 N2 N3 _]. by split.
Qed.

Lemma compute_vote_spec votes threshold :
  Forall (Forall is_byte) votes -> zlen votes < 256 -> votes <> [] ->
  exists names, protover_compute_vote votes threshold
      = encode_protocol_list (vote_result names (parsed_votes votes) threshold)
    /\ StronglySorted name_lt names /\ Forall cstr names
    /\ Forall (Forall entry_ok) (parsed_votes votes)
    /\ (forall x, In x names <-> In x (all_names (parsed_votes votes)))
    /\ Forall entry_ok (vote_result names (parsed_votes votes) threshold).
Proof.
  intros Hb Hl Hne. unfold protover_compute_vote. rewrite (proj2 (Z.ltb_lt _ _)) by done.
  rewrite (proj2 (Z.eqb_neq _ _)) by (destruct votes; [done|rewrite zlen_cons; pose proof (zlen_nonneg votes); lia]).
  destruct (parse_votes_spec votes Hb [] []) as (ns & E & Hp & Hc & Hn & Hin); [constructor|constructor|constructor|done|].
  cbn [app] in *. rewrite E. cbn [cbind]. exists (smartlist_sort_strings ns).
  assert (Hin2 : forall x, In x (smartlist_sort_strings ns) <-> In x (all_names (parsed_votes votes)))
    by (intros x; by rewrite sort_In).
  split_and!; [done|by apply sort_sorted| |done|done|].
  - apply List.Forall_forall. intros x Hx. rewrite sort_In in Hx. exact (proj1 (List.Forall_forall _ _) Hc x Hx).
  - apply List.Forall_forall. intros e He. apply vote_result_In in He as [He1 He2].
    destruct e as [name m]. cbn [e_name e_bitmask] in *. subst m. apply (all_names_entry (parsed_votes votes)); [done|by apply Hin2|].
    apply result_mask_is_mask.
Qed.

(** ** Support *)

(** The versions of an entry that are not supported. *)
Definition missing_mask (supported : list proto_entry_t) (e : proto_entry_t) : Z :=
  match find_entry_by_name supported (e_name e) with
  | None => e_bitmask e
  | Some mine => Z.land (e_bitmask e) (u64 (Z.lnot (e_bitmask mine)))
  end.

Lemma missing_entries_cons e entries supported :
  missing_entries (e :: entries) supported
  = (if missing_mask supported e =? 0 then [] else [mkentry (e_name e) (missing_mask supported e)])
    ++ missing_entries entries supported.
Proof.
  cbn [missing_entries]. unfold missing_mask. destruct (find_entry_by_name supported (e_name e)); by destruct (_ =? 0).
Qed.

Lemma missing_mask_zero e supported :
  entry_ok e ->
  missing_mask supported e = 0
  <-> forall ver, 0 <= ver -> Z.testbit (e_bitmask e) ver = true -> entry_has supported (e_name e) ver = true.
Proof.
  intros He. unfold missing_mask, entry_has. destruct (find_entry_by_name supported (e_name e)) as [mine|]; split.
  - intros E ver Hv Hb. assert (Hz : Z.testbit (Z.land (e_bitmask e) (u64 (Z.lnot (e_bitmask mine)))) ver = false)
      by (rewrite E; apply Z.bits_0).
    assert (ver < 64) by (destruct (Z.lt_ge_cases ver 64); [done|]; by rewrite (mask_high _ _ (eo_mask _ He)) in Hb).
    rewrite Z.land_spec, Hb, u64_testbit, (proj2 (Z.ltb_lt _ _)), Z.lnot_spec in Hz by lia. by apply negb_false_iff in Hz.
  - intros H. apply Z.bits_inj'. intros i Hi. rewrite Z.land_spec, Z.bits_0, u64_testbit, Z.lnot_spec by done.
    destruct (Z.testbit (e_bitmask e) i) eqn:Eb; [|done]. rewrite (H i Hi Eb). cbn [negb]. by rewrite andb_false_r.
  - intros E ver _ Hb. by rewrite E, Z.bits_0 in Hb.
  - intros H. apply Z.bits_inj'. intros i Hi. rewrite Z.bits_0. destruct (Z.testbit (e_bitmask e) i) eqn:Eb; [|done].
    by specialize (H i Hi Eb).
Qed.

Lemma missing_nil entries supported :
  Forall entry_ok entries ->
  missing_entries entries supported = []
  <-> forall e ver, In e entries -> 0 <= ver -> Z.testbit (e_bitmask e) ver = true ->
        entry_has supported (e_name e) ver = true.
Proof.
  induction 1 as [|e entries He Hes IH]; [split; [intros _ ? ? []|done]|]. rewrite missing_entries_cons.
  pose proof (missing_mask_zero e supported He) as Hz. split.
  - intros [E1 E2]%app_eq_nil. destruct (Z.eqb_spec (missing_mask supported e) 0) as [E|]; [|done].
    intros e' ver [<-|Hin]; [by apply Hz|]. by apply IH.
  - intros H. rewrite (proj2 (Z.eqb_eq _ _)); [cbn [app]; apply IH; intros e' ver Hin; apply H; by right|].
    apply Hz. intros ver. apply H. by left.
Qed.

Lemma supported_list_ok : exists l, get_supported_protocol_list = Ok l /\ Forall entry_ok l.
Proof.
  assert (Hb : Forall is_byte protover_get_supported_protocols).
  { apply List.Forall_forall. intros x Hx. assert (Hall : forallb is_byteb protover_get_supported_protocols = true) by (vm_compute; reflexivity).
    rewrite forallb_forall in Hall. specialize (Hall x Hx). unfold is_byteb, is_byte in *. boolp. lia. }
  pose proof (parse_protocol_list_cases _ Hb) as H. fold get_supported_protocol_list in H.
  assert (exists l, get_supported_protocol_list = Ok l) as [l E] by (eexists; vm_compute; reflexivity).
  rewrite E in H. eauto.
Qed.

(** ** Claims *)

(** Printing and parsing protocol lists: for entries with valid names and
    any masks but the full one, [encode_protocol_list] returns a string, and
    [parse_protocol_list] reads exactly the same entries back from it. *)
Theorem protocol_list_roundtrip es :
  Forall entry_ok es -> Forall (fun e => e_bitmask e <> UINT64_MAX) es ->
  exists s, encode_protocol_list es = Ok s /\ parse_protocol_list s = Ok es.
Proof. apply encode_parse. Qed.

Definition demo_entries : list proto_entry_t := [mkentry (s2b "Cons") 6; mkentry (s2b "Foo-2") 0; mkentry (s2b "Relay") (2 ^ 63 + 13)].

Lemma demo_entries_ok : Forall entry_ok demo_entries.
Proof. repeat (apply List.Forall_cons; [apply entry_okb_ok; vm_compute; reflexivity|]). apply List.Forall_nil. Qed.

Lemma protocol_list_roundtrip_witness :
  exists s, encode_protocol_list demo_entries = Ok s /\ parse_protocol_list s = Ok demo_entries.
Proof. apply (protocol_list_roundtrip demo_entries); [apply demo_entries_ok|repeat constructor; done]. Defined.

(** A protocol that lists all of the versions 0 to 63 cannot be printed: the
    test meant to catch it looks at the mask instead of its complement, and
    [trailing_zeros] is called on 0, which is undefined.  One vote suffices to
    reach it. *)
Theorem encode_full_mask_undefined name :
  Forall name_char name -> name <> [] -> zlen name <= MAX_PROTOCOL_NAME_LENGTH ->
  encode_protocol_list [mkentry name UINT64_MAX] = Bug
  /\ parse_protocol_list (name ++ s2b "=0-63") = Ok [mkentry name UINT64_MAX].
Proof.
  intros Hn Hne Hl. split; [done|].
  destruct (parse_entry_text name [(0, 63)] [] Hn Hne Hl) as (m & E & Hm & Hb); [by repeat constructor|done|].
  assert (m = UINT64_MAX) as ->.
  { apply mask_ext; [done|done|]. intros i Hi. rewrite Hb, testbit_UINT64_MAX by lia. unfold in_ranges, in_rangeb. cbn [existsb fst snd].
    rewrite (proj2 (Z.ltb_lt _ _)), !(proj2 (Z.leb_le _ _)) by lia. done. }
  assert (Etext : entry_text name [(0, 63)] = name ++ s2b "=0-63") by done.
  rewrite app_nil_r, Etext in E. unfold parse_protocol_list. cbn [parse_loop].
  destruct (name ++ s2b "=0-63") as [|x s] eqn:Es; [by destruct name|]. rewrite <- Es in *.
  pose proof (strchr_space (name ++ s2b "=0-63") []) as Hsp. rewrite app_nil_r in Hsp.
  rewrite Hsp; [|rewrite <- Etext; apply space_notin; [done|by repeat constructor]|by left].
  rewrite E. cbn [cbind skip_while]. rewrite length_app, Nat.add_comm. cbn [s2b length Nat.add parse_loop]. done.
Qed.

Lemma encode_full_mask_undefined_witness : encode_protocol_list [mkentry (s2b "Foo") UINT64_MAX] = Bug.
Proof.
  apply (encode_full_mask_undefined (s2b "Foo")); [apply name_charb_ok; vm_compute; reflexivity|done|done].
Defined.

(** The vote: the list that [protover_compute_vote] returns parses to entries
    in strictly ascending order of their names that contain a version exactly when
    at least [threshold] of the inputs that parse list it (no matter how the
    inputs write it), as long as no protocol collects all 64 versions. *)
Theorem protover_compute_vote_correct votes threshold :
  Forall (Forall is_byte) votes -> zlen votes < 256 -> 1 <= threshold ->
  (forall name, exists ver, 0 <= ver < 64 /\ vote_count (parsed_votes votes) name ver < threshold) ->
  exists s es, protover_compute_vote votes threshold = Ok s /\ parse_protocol_list s = Ok es
    /\ StronglySorted name_lt (map e_name es)
    /\ forall name ver, cstr name -> 0 <= ver < 64 ->
         entry_has es name ver = (threshold <=? vote_count (parsed_votes votes) name ver).
Proof.
  intros Hb Hl Ht Hfull. destruct (decide (votes = [])) as [->|Hne].
  { exists [], []. split_and!; try done; [constructor|]. intros name ver _ _. symmetry. apply Z.leb_gt.
    change (vote_count (parsed_votes []) name ver) with 0. lia. }
  destruct (compute_vote_spec votes threshold Hb Hl Hne) as (names & E & Hsort & Hc & Hp & Hin & Hok).
  pose proof (parsed_votes_len votes) as Hpl.
  set (es := vote_result names (parsed_votes votes) threshold) in *.
  destruct (encode_parse es Hok) as (s & Es & Hparse).
  { apply List.Forall_forall. intros e He. apply vote_result_In in He as [_ ->]. intros Hmax.
    destruct (Hfull (e_name e)) as (ver & Hv & Hcnt). 
    pose proof (vote_mask_testbit (parsed_votes votes) (e_name e) threshold ver Hp ltac:(lia) Hv) as Hbit.
    rewrite Hmax, testbit_UINT64_MAX, (proj2 (Z.ltb_lt _ _)) in Hbit by lia. symmetry in Hbit. boolp. lia. }
  exists s, es. split_and!; [by rewrite E|done|by apply vote_result_sorted|].
  intros name ver Hn Hv. unfold es. rewrite vote_result_has by done.
  destruct (decide (name ∈ names)) as [Hi|Hi].
  - rewrite (bool_decide_eq_true_2 _ Hi). cbn [andb]. apply vote_mask_testbit; [done|lia|done].
  - rewrite (bool_decide_eq_false_2 _ Hi). cbn [andb]. symmetry. apply Z.leb_gt.
    rewrite vote_count_absent; [lia|done|done|]. intros H. apply Hi, list_elem_of_In. by apply Hin.
Qed.

(** [parse_protocol_list] on any string of bytes ends with a refusal or with
    entries whose names have 1 to 100 alphanumeric characters or hyphens and
    whose masks have 64 bits; it never shifts a word by 64 or more. *)
Theorem parse_protocol_list_total s :
  Forall is_byte s ->
  match parse_protocol_list s with Ok es => Forall entry_ok es | Err => True | _ => False end.
Proof. apply parse_protocol_list_cases. Qed.

Lemma byteb_ok s : forallb is_byteb s = true -> Forall is_byte s.
Proof.
  intros H. apply List.Forall_forall. intros c Hc. rewrite forallb_forall in H. specialize (H c Hc).
  unfold is_byteb in H. boolp. unfold is_byte. lia.
Qed.

Lemma parse_protocol_list_total_witness :
  match parse_protocol_list (s2b "A=1-3,5 B=") with Ok es => Forall entry_ok es | Err => True | _ => False end.
Proof. apply (parse_protocol_list_total (s2b "A=1-3,5 B=")). apply byteb_ok. reflexivity. Defined.

(** [protover_all_supported] answers yes exactly when the string does not
    parse or every version of every protocol it lists is in our own list. *)
Theorem protover_all_supported_correct s :
  Forall is_byte s ->
  exists ours all, get_supported_protocol_list = Ok ours /\ protover_all_supported (Some s) false = Ok (all, None)
    /\ (all = true <-> match parse_protocol_list s with
                       | Ok es => forall e ver, In e es -> 0 <= ver -> Z.testbit (e_bitmask e) ver = true ->
                                    entry_has ours (e_name e) ver = true
                       | _ => True
                       end).
Proof.
  intros Hb. destruct supported_list_ok as (ours & E & Hours). exists ours.
  pose proof (parse_protocol_list_cases s Hb) as Hcase. unfold protover_all_supported.
  revert E. generalize get_supported_protocol_list. intros sup E.
  destruct (parse_protocol_list s) as [es| | |]; [|..|destruct Hcase|destruct Hcase]; cbn [or_null cbind].
  - rewrite E. cbn [cbind]. eexists. split; [done|]. rewrite andb_false_r. split; [done|].
    rewrite <- (missing_nil es ours Hcase). rewrite Z.eqb_eq. unfold zlen.
    destruct (missing_entries es ours); split; try done; cbn [length]; lia.
  - exists true. done.
Qed.

Lemma protover_all_supported_witness :
  exists ours all, get_supported_protocol_list = Ok ours /\ protover_all_supported (Some (s2b "Link=4 Foo=1")) false = Ok (all, None).
Proof.
  destruct (protover_all_supported_correct (s2b "Link=4 Foo=1")) as (ours & all & H1 & H2 & _); [apply byteb_ok; reflexivity|].
  exists ours, all. split; [exact H1|exact H2].
Defined.

Definition demo_votes : list bytes := [s2b "A=1-3 B=2"; s2b "B=1,2 A=2"; s2b "B=2,"].

Lemma protover_compute_vote_witness :
  exists s es, protover_compute_vote demo_votes 2 = Ok s /\ parse_protocol_list s = Ok es
    /\ entry_has es (s2b "B") 2 = true /\ entry_has es (s2b "B") 1 = false.
Proof.
  destruct (protover_compute_vote_correct demo_votes 2) as (s & es & H1 & H2 & _ & H3).
  - repeat (apply List.Forall_cons; [apply byteb_ok; reflexivity|]). apply List.Forall_nil.
  - reflexivity.
  - lia.
  - intros name. exists 0. split; [lia|]. unfold vote_count.
    change (parsed_votes demo_votes) with [[mkentry (s2b "A") 14; mkentry (s2b "B") 4]; [mkentry (s2b "B") 6; mkentry (s2b "A") 4]].
    unfold entry_has. cbn [List.filter find_entry_by_name e_name].
    destruct (strcmp (s2b "A") name =? 0), (strcmp (s2b "B") name =? 0); reflexivity.
  - exists s, es. split; [exact H1|]. split; [exact H2|].
    split; (rewrite H3; [reflexivity|repeat constructor|lia]).
Defined.

Lemma find_entry_name es name ent : find_entry_by_name es name = Some ent -> strcmp (e_name ent) name = 0.
Proof.
  induction es as [|e es IH]; cbn [find_entry_by_name]; [done|].
  destruct (Z.eqb_spec (strcmp (e_name e) name) 0); [by intros [= <-]|auto].
Qed.

Lemma contains_mask_In es name mask e :
  In e es -> strcasecmp (e_name e) name = 0 -> Z.land (e_bitmask e) mask <> 0 -> contains_mask es name mask = true.
Proof.
  intros Hin Hn Hm. induction es as [|x es IH]; [done|]. cbn [contains_mask].
  destruct Hin as [->|Hin].
  - rewrite Hn. cbn [Z.eqb negb]. by rewrite (proj2 (Z.eqb_neq _ _)).
  - destruct (negb (strcasecmp _ _ =? 0)); [auto|]. destruct (negb _); [done|auto].
Qed.

Lemma type_name_cstr tp : cstr (protocol_type_to_str tp).
Proof. destruct tp; repeat constructor. Qed.

(** The two tests for a protocol in a list: the one for an exact version says
    whether the first entry of that name has the version, and when it says yes, so
    does the one for that version or a later one. *)
Theorem protocol_list_supports_correct s tp ver :
  Forall is_byte s -> 0 <= ver <= MAX_PROTOCOL_VERSION ->
  exists b later, protocol_list_supports_protocol s tp ver = Ok b
    /\ protocol_list_supports_protocol_or_later s tp ver = Ok later
    /\ b = match parse_protocol_list s with Ok es => entry_has es (protocol_type_to_str tp) ver | _ => false end
    /\ (b = true -> later = true).
Proof.
  intros Hb Hv. unfold MAX_PROTOCOL_VERSION in Hv. pose proof (parse_protocol_list_cases s Hb) as Hcase.
  unfold protocol_list_supports_protocol, protocol_list_supports_protocol_or_later.
  destruct (parse_protocol_list s) as [es| | |]; try done; cbn [or_null cbind]; [|by exists false, false].
  destruct (bitmask_for_range_spec ver 63) as (m & -> & Hm & Hbits); [unfold range_ok; cbn; lia|]. cbn [cbind].
  do 2 eexists. split; [done|]. split; [done|].
  assert (Heq : protocol_list_contains es tp ver = entry_has es (protocol_type_to_str tp) ver).
  { unfold protocol_list_contains, entry_has, MAX_PROTOCOL_VERSION. rewrite (proj2 (Z.ltb_ge _ _)) by lia.
    destruct (find_entry_by_name es _) as [ent|] eqn:E; [|done].
    apply BIT_land; [|lia]. apply (eo_mask _ (find_entry_ok _ _ _ Hcase E)). }
  split; [done|]. rewrite Heq. unfold entry_has. destruct (find_entry_by_name es _) as [ent|] eqn:E; [|done].
  intros Ht. pose proof (find_entry_name _ _ _ E) as Hn. pose proof (find_entry_In _ _ _ E) as Hin.
  apply strcmp_eq in Hn; [|apply cstr_no_nul, name_cstr; by eapply find_entry_ok|apply cstr_no_nul, type_name_cstr].
  eapply contains_mask_In; [exact Hin|rewrite Hn; apply strcmp_refl|].
  intros Hz. assert (Hf : Z.testbit (Z.land (e_bitmask ent) m) ver = false) by (rewrite Hz; apply Z.bits_0).
  rewrite Z.land_spec, Ht, Hbits in Hf by lia. unfold in_rangeb in Hf. cbn [fst snd andb] in Hf.
  by rewrite !(proj2 (Z.leb_le _ _)) in Hf by lia.
Qed.

Lemma protocol_list_supports_witness :
  exists b later, protocol_list_supports_protocol (s2b "Link=3-4") PRT_LINK 4 = Ok b
    /\ protocol_list_supports_protocol_or_later (s2b "Link=3-4") PRT_LINK 4 = Ok later /\ (b = true -> later = true).
Proof.
  destruct (protocol_list_supports_correct (s2b "Link=3-4") PRT_LINK 4) as (b & later & H1 & H2 & _ & H4);
    [apply byteb_ok; reflexivity|unfold MAX_PROTOCOL_VERSION; lia|].
  exists b, later. split; [exact H1|]. split; [exact H2|exact H4].
Defined.

(** The two tests do not treat the case of names alike. *)
Lemma or_later_ignores_case :
  protocol_list_supports_protocol (s2b "linkauth=3") PRT_LINKAUTH 3 = Ok false
  /\ protocol_list_supports_protocol_or_later (s2b "linkauth=3") PRT_LINKAUTH 3 = Ok true.
Proof. split; vm_compute; reflexivity. Qed.

(** Our own lists: everything that is recommended or required is supported. *)
Lemma own_lists_supported :
  Forall (fun l => protover_all_supported (Some l) true = Ok (true, None))
    [protover_get_recommended_client_protocols; protover_get_recommended_relay_protocols;
     protover_get_required_client_protocols; protover_get_required_relay_protocols].
Proof. repeat constructor; vm_compute; reflexivity. Qed.
