(* ===== verification/Versions.v ===== *)
(** * Version numbers

    Models core/or/versions.c: parsing and comparing version numbers, the status of
    a version with respect to a list of recommended ones, the version in the
    platform line of a router, and [protover_compute_for_old_tor] of
    core/or/protover.c, which depends on them. *)

From S2P Require Import Prelude CString DiOps UtilString StrList Binascii.
From Stdlib Require Import ZArith String.
From stdpp Require Import base list numbers.
Open Scope Z_scope.

Definition MAX_STATUS_TAG_LEN : Z := 32.
Definition DIGEST_LEN : Z := 20.
Definition HEX_DIGEST_LEN : Z := 40.

(** [VER_PRE], [VER_RC] and [VER_RELEASE] *)
Inductive release_status := VER_PRE | VER_RC | VER_RELEASE.
Definition status_val (s : release_status) : Z := match s with VER_PRE => 0 | VER_RC => 1 | VER_RELEASE => 2 end.

Record tor_version_t := mkver {
  major : Z; minor : Z; micro : Z; status : release_status; patchlevel : Z; status_tag : bytes;
  svn_revision : Z; git_tag_len : Z; git_tag : bytes
}.

Definition zero_tag : bytes := repeat 0 20.

(** ** Parsing *)

Definition NUMBER (cp : bytes) : cres (Z * bytes) :=
  if (cur cp <? 48) || (57 <? cur cp) then Err
  else
    let r := tor_parse_uint64 cp 10 0 INT32_MAX true in
    if negb (p_ok r) then Err
    else
      match p_next r with
      | None => Err
      | Some eos => if (length eos =? length cp)%nat then Err else Ok (s32 (p_val r), eos)
      end.

Definition DOT (cp : bytes) : cres bytes := if negb (cur cp =? 46) then Err else Ok (tail cp).

(** From the label [status_tag] on. *)
Definition parse_status_tag (v : tor_version_t) (cp : bytes) : cres tor_version_t :=
  let cp := if (cur cp =? 45) || (cur cp =? 46) then tail cp else cp in
  let eos := find_whitespace cp in
  let n := zlen cp - zlen eos in
  let tag := if MAX_STATUS_TAG_LEN <=? n then take (Z.to_nat (MAX_STATUS_TAG_LEN - 1)) cp else take (Z.to_nat n) cp in
  let v := mkver (major v) (minor v) (micro v) (status v) (patchlevel v) tag 0 0 zero_tag in
  let* cp := eat_whitespace eos in
  if strcmpstart cp (s2b "(r") =? 0 then
    let cp := drop 2 cp in
    Ok (mkver (major v) (minor v) (micro v) (status v) (patchlevel v) tag (s32 (r_val (strtol 10 cp))) 0 zero_tag)
  else if strcmpstart cp (s2b "(git-") =? 0 then
    match strchr cp 41 with
    | None => Err
    | Some close_paren =>
        let cp := drop 5 cp in
        let hexlen := zlen cp - zlen close_paren in
        if HEX_DIGEST_LEN <? hexlen then Err
        else if (hexlen =? 0) || (hexlen mod 2 =? 1) then Err
        else
          let* digest := Base16.base16_decode (hexlen / 2) (take (Z.to_nat hexlen) cp) in
          if negb (zlen digest =? hexlen / 2) then Err
          else
            Ok (mkver (major v) (minor v) (micro v) (status v) (patchlevel v) tag 0 (hexlen / 2)
                  (digest ++ drop (length digest) zero_tag))
    end
  else Ok v.

Definition tor_version_parse (s : bytes) : cres tor_version_t :=
  let s := if strcasecmpstart s (s2b "Tor ") =? 0 then drop 4 s else s in
  let* (major, cp) := NUMBER s in
  let* cp := DOT cp in
  let* (minor, cp) := NUMBER cp in
  let v := mkver major minor 0 VER_RELEASE 0 [] 0 0 zero_tag in
  if cur cp =? 0 then Ok v
  else if cur cp =? 45 then parse_status_tag v cp
  else
    let* cp := DOT cp in
    let* (micro, cp) := NUMBER cp in
    let v := mkver major minor micro VER_RELEASE 0 [] 0 0 zero_tag in
    if cur cp =? 0 then Ok v
    else if cur cp =? 45 then parse_status_tag v cp
    else
      let* (status, cp) :=
        (if cur cp =? 46 then Ok (VER_RELEASE, tail cp)
         else if strncmp cp (s2b "pre") 3 =? 0 then Ok (VER_PRE, drop 3 cp)
         else if strncmp cp (s2b "rc") 2 =? 0 then Ok (VER_RC, drop 2 cp)
         else Err) in
      let* (patchlevel, cp) := NUMBER cp in
      parse_status_tag (mkver major minor micro status patchlevel [] 0 0 zero_tag) cp.

(** ** Comparing *)

(** [CMP(field)]: the sign of the wrapped difference. *)
Definition CMP (a b : Z) (k : Z) : Z :=
  let result := s32 (u32 (u32 a - u32 b)) in
  if result <? 0 then -1 else if 0 <? result then 1 else k.

Definition tor_version_compare (a b : tor_version_t) : Z :=
  CMP (major a) (major b)
    (CMP (minor a) (minor b)
       (CMP (micro a) (micro b)
          (CMP (status_val (status a)) (status_val (status b))
             (CMP (patchlevel a) (patchlevel b)
                (let i := strcmp (status_tag a) (status_tag b) in
                 if negb (i =? 0) then i
                 else
                   CMP (svn_revision a) (svn_revision b)
                     (CMP (git_tag_len a) (git_tag_len b)
                        (if negb (git_tag_len a =? 0)
                         then memcmp (take (Z.to_nat (git_tag_len a)) (git_tag a))
                                (take (Z.to_nat (git_tag_len a)) (git_tag b))
                         else 0))))))).

Definition tor_version_same_series (a b : tor_version_t) : bool :=
  (major a =? major b) && (minor a =? minor b) && (micro a =? micro b).

(** The result for NULL-able outcomes: [None] is a failure to parse. *)
Definition or_fail {A} (m : cres A) : cres (option A) :=
  match m with Ok a => Ok (Some a) | Err => Ok None | Bug => Bug | Fuel => Fuel end.

Definition compare_tor_version_str_ptr_ (a b : bytes) : cres Z :=
  let* ca := or_fail (tor_version_parse a) in
  let* cb := or_fail (tor_version_parse b) in
  match ca, cb with
  | Some va, Some vb => Ok (tor_version_compare va vb)
  | Some _, None => Ok (-1)
  | None, Some _ => Ok 1
  | None, None => Ok (strcmp a b)
  end.

(** ** The status of a version *)

Inductive version_status_t :=
| VS_RECOMMENDED | VS_OLD | VS_NEW | VS_NEW_IN_SERIES | VS_UNRECOMMENDED | VS_EMPTY | VS_UNKNOWN.

Record found_t := mkfound { found_newer : bool; found_older : bool; found_newer_in_series : bool; found_any_in_series : bool }.

(** [None]: the version itself is in the list. *)
Fixpoint obsolete_loop (mine : tor_version_t) (versions : list bytes) (f : found_t) : cres (option found_t) :=
  match versions with
  | [] => Ok (Some f)
  | cp :: versions =>
      let cp := if strcmpstart cp (s2b "Tor ") =? 0 then drop 4 cp else cp in
      let* other := or_fail (tor_version_parse cp) in
      match other with
      | None => obsolete_loop mine versions f
      | Some other =>
          let same := tor_version_same_series mine other in
          let any := if same then true else found_any_in_series f in
          let r := tor_version_compare mine other in
          if r =? 0 then Ok None
          else if r <? 0 then
            obsolete_loop mine versions
              (mkfound true (found_older f) (if same then true else found_newer_in_series f) any)
          else
            obsolete_loop mine versions (mkfound (found_newer f) true (found_newer_in_series f) any)
      end
  end.

Definition tor_version_is_obsolete (myversion versionlist : bytes) : cres version_status_t :=
  let* mine := or_fail (tor_version_parse myversion) in
  match mine with
  | None => Bug
  | Some mine =>
      let* version_sl := smartlist_split_string versionlist (Some (s2b ",")) SPLIT_SKIP_SPACE 0 in
      match versionlist with
      | [] => Ok VS_EMPTY
      | _ =>
          let* f := obsolete_loop mine version_sl (mkfound false false false false) in
          match f with
          | None => Ok VS_RECOMMENDED
          | Some f =>
              if found_any_in_series f && negb (found_newer_in_series f) && found_newer f then Ok VS_NEW_IN_SERIES
              else if found_newer f && negb (found_older f) then Ok VS_OLD
              else if found_older f && negb (found_newer f) then Ok VS_NEW
              else Ok VS_UNRECOMMENDED
          end
      end
  end.

(** ** Platform lines *)

(** The results 1, 0 and -1. *)
Inductive platform_result := PlatformTor (v : tor_version_t) | PlatformOther | PlatformBad.

Definition tor_version_parse_platform (platform : bytes) (strict : bool) : cres platform_result :=
  if negb (strcmpstart platform (s2b "Tor ") =? 0) then Ok PlatformOther
  else
    let* start := eat_whitespace (drop 3 platform) in
    if cur start =? 0 then Ok PlatformBad
    else
      let s := find_whitespace start in
      let* s2 := eat_whitespace s in
      let s := if (strcmpstart s2 (s2b "(r") =? 0) || (strcmpstart s2 (s2b "(git-") =? 0) then find_whitespace s2 else s in
      let n := zlen start - zlen s in
      if 128 <=? n + 1 then Ok PlatformBad
      else
        let* v := or_fail (tor_version_parse (take (Z.to_nat n) start)) in
        match v with
        | None => Ok PlatformBad
        | Some v =>
            if strict && ((major v <? 0) || (minor v <? 0) || (micro v <? 0) || (patchlevel v <? 0) || (svn_revision v <? 0))
            then Ok PlatformBad else Ok (PlatformTor v)
        end.

Definition tor_version_as_new_as (platform cutoff : bytes) : cres bool :=
  let* cutoff_version := or_fail (tor_version_parse cutoff) in
  match cutoff_version with
  | None => Ok false
  | Some cutoff_version =>
      let* r := tor_version_parse_platform platform false in
      match r with
      | PlatformOther | PlatformBad => Ok true
      | PlatformTor router_version => Ok (0 <=? tor_version_compare router_version cutoff_version)
      end
  end.

Definition FIRST_TOR_VERSION_TO_ADVERTISE_PROTOCOLS : bytes := s2b "0.2.9.3-alpha".

Definition protover_compute_for_old_tor (version : option bytes) : cres bytes :=
  let version := match version with None => s2b "0.2.5.15" | Some v => v end in
  let* a := tor_version_as_new_as version FIRST_TOR_VERSION_TO_ADVERTISE_PROTOCOLS in
  if a : bool then Ok []
  else
    let* a := tor_version_as_new_as version (s2b "0.2.9.1-alpha") in
    if a : bool then Ok (s2b "Cons=1-2 Desc=1-2 DirCache=1 HSDir=1 HSIntro=3 HSRend=1-2 Link=1-4 LinkAuth=1 Microdesc=1-2 Relay=1-2")
    else
      let* a := tor_version_as_new_as version (s2b "0.2.7.5") in
      if a : bool then Ok (s2b "Cons=1-2 Desc=1-2 DirCache=1 HSDir=1 HSIntro=3 HSRend=1 Link=1-4 LinkAuth=1 Microdesc=1-2 Relay=1-2")
      else
        let* a := tor_version_as_new_as version (s2b "0.2.4.19") in
        if a : bool then Ok (s2b "Cons=1 Desc=1 DirCache=1 HSDir=1 HSIntro=3 HSRend=1 Link=1-4 LinkAuth=1 Microdesc=1 Relay=1-2")
        else Ok [].

(** ** Small lemmas *)

Lemma CMP_small a b k :
  0 <= a <= INT32_MAX -> 0 <= b <= INT32_MAX -> CMP a b k = if a <? b then -1 else if b <? a then 1 else k.
Proof.
  unfold INT32_MAX. intros Ha Hb. unfold CMP.
  assert (s32 (u32 (u32 a - u32 b)) = a - b) as ->.
  { unfold s32, u32. rewrite (Z.mod_small a), (Z.mod_small b), Z.mod_mod by lia. destruct (Z.lt_ge_cases a b).
    - rewrite <- (Z_mod_plus_full (a - b) 1), Z.mod_small by lia. rewrite (proj2 (Z.ltb_ge _ _)) by lia. lia.
    - rewrite Z.mod_small by lia. by rewrite (proj2 (Z.ltb_lt _ _)) by lia. }
  repeat zcase; lia || done.
Qed.

Lemma CMP_refl a k : CMP a a k = k.
Proof. unfold CMP. by rewrite Z.sub_diag. Qed.

(** ** Comparison is the lexicographic order of a key *)

Fixpoint lexcmp (a b : list Z) : Z :=
  match a, b with
  | [], [] => 0
  | [], _ => -1
  | _, [] => 1
  | x :: a, y :: b => if x <? y then -1 else if y <? x then 1 else lexcmp a b
  end.

Lemma lexcmp_eq a b : lexcmp a b = 0 <-> a = b.
Proof.
  revert b. induction a as [|x a IH]; intros [|y b]; cbn [lexcmp]; try done.
  zcase; [split; [done|intros [= -> _]; lia]|]. zcase; [split; [done|intros [= -> _]; lia]|].
  rewrite IH. assert (x = y) as -> by lia. naive_solver.
Qed.

Lemma lexcmp_anti a b : lexcmp b a = - lexcmp a b.
Proof. revert b. induction a as [|x a IH]; intros [|y b]; cbn [lexcmp]; try done. repeat zcase; try lia. apply IH. Qed.

Lemma lexcmp_trans a b c : lexcmp a b <= 0 -> lexcmp b c <= 0 -> lexcmp a c <= 0.
Proof.
  revert b c. induction a as [|x a IH]; intros [|y b] [|z c]; cbn [lexcmp]; try lia.
  destruct (Z.ltb_spec x y), (Z.ltb_spec y x), (Z.ltb_spec y z), (Z.ltb_spec z y), (Z.ltb_spec x z), (Z.ltb_spec z x);
    try lia. apply IH.
Qed.

(** The numbers, the tag with its terminator, the revision and the git tag. *)
Definition key (v : tor_version_t) : list Z :=
  [major v; minor v; micro v; status_val (status v); patchlevel v]
  ++ status_tag v ++ 0 :: svn_revision v :: git_tag_len v :: take (Z.to_nat (git_tag_len v)) (git_tag v).

Record ver_ok (v : tor_version_t) : Prop := mk_ver_ok {
  vo_major : 0 <= major v <= INT32_MAX;
  vo_minor : 0 <= minor v <= INT32_MAX;
  vo_micro : 0 <= micro v <= INT32_MAX;
  vo_patch : 0 <= patchlevel v <= INT32_MAX;
  vo_tag : cstr (status_tag v);
  vo_svn : 0 <= svn_revision v <= INT32_MAX;
  vo_len : 0 <= git_tag_len v <= DIGEST_LEN;
  vo_git : zlen (git_tag v) = DIGEST_LEN
}.

Lemma lexcmp_tag s t r r' :
  cstr s -> cstr t ->
  lexcmp (s ++ 0 :: r) (t ++ 0 :: r')
  = if strcmp s t <? 0 then -1 else if 0 <? strcmp s t then 1 else lexcmp r r'.
Proof.
  intros Hs. revert t. induction Hs as [|x s Hx Hs IH]; intros [|y t] Ht; cbn [app lexcmp strcmp].
  - done.
  - apply Forall_inv in Ht. repeat zcase; try lia; done.
  - repeat zcase; try lia; done.
  - apply Forall_cons_iff in Ht as [Hy Ht]. destruct (Z.eqb_spec x y) as [->|Hne].
    + rewrite Z.ltb_irrefl. by apply IH.
    + repeat zcase; try lia; done.
Qed.

Lemma lexcmp_memcmp a b : length a = length b -> lexcmp a b = Z.sgn (memcmp a b).
Proof.
  revert b. induction a as [|x a IH]; intros [|y b] Hl; cbn [lexcmp memcmp length] in *; try done.
  destruct (Z.eqb_spec x y) as [->|Hne]; [rewrite Z.ltb_irrefl; apply IH; lia|]. repeat zcase; lia.
Qed.

Lemma sgn_if (c : bool) x y : Z.sgn (if c then x else y) = if c then Z.sgn x else Z.sgn y.
Proof. by destruct c. Qed.

Lemma compare_key a b : ver_ok a -> ver_ok b -> Z.sgn (tor_version_compare a b) = lexcmp (key a) (key b).
Proof.
  intros [A1 A2 A3 A4 A5 A6 A7 A8] [B1 B2 B3 B4 B5 B6 B7 B8].
  assert (S : forall s, 0 <= status_val s <= INT32_MAX) by (intros []; unfold INT32_MAX; cbn; lia).
  assert (D : forall v, 0 <= v <= DIGEST_LEN -> 0 <= v <= INT32_MAX) by (unfold DIGEST_LEN, INT32_MAX; intros; lia).
  unfold tor_version_compare, key. rewrite !CMP_small by auto. cbn [app lexcmp].
  rewrite !sgn_if, lexcmp_tag by done. change (Z.sgn (-1)) with (-1). change (Z.sgn 1) with 1.
  repeat (zcase; [done|]). cbn [lexcmp].
  destruct (Z.ltb_spec (strcmp (status_tag a) (status_tag b)) 0) as [Hs|Hs].
  { rewrite (proj2 (Z.eqb_neq _ _)) by lia. cbn [negb]. lia. }
  destruct (Z.ltb_spec 0 (strcmp (status_tag a) (status_tag b))) as [Hs'|Hs'].
  { rewrite (proj2 (Z.eqb_neq _ _)) by lia. cbn [negb]. lia. }
  rewrite (proj2 (Z.eqb_eq _ _)) by lia. cbn [negb]. rewrite ?sgn_if. repeat (zcase; [done|]).
  assert (git_tag_len b = git_tag_len a) as -> by lia.
  destruct (Z.eqb_spec (git_tag_len a) 0) as [->|Hn]; cbn [negb]; [done|].
  symmetry. apply lexcmp_memcmp. rewrite !length_take. unfold zlen in *. lia.
Qed.

(** ** Parsing prints back *)

Lemma NUMBER_dec n r :
  0 <= n <= INT32_MAX -> is_digit_of 10 (cur r) = false -> NUMBER (dec n ++ r) = Ok (n, r).
Proof.
  intros Hn Hr. unfold dec. rewrite (proj2 (Z.ltb_ge _ _)) by lia.
  destruct (udec_spec n) as (H1 & H2 & H3); [lia|]. unfold NUMBER.
  assert (Hc : 48 <= cur (udec n ++ r) <= 57).
  { destruct (udec n) as [|d ds]; [done|]. by apply Forall_inv in H2. }
  rewrite (proj2 (orb_false_iff _ _)) by (split; apply Z.ltb_ge; lia).
  unfold tor_parse_uint64. change (10 <? 0) with false. cbv iota. unfold strtoul. rewrite strtox_digits, H3 by done.
  rewrite (proj2 (Z.ltb_ge _ _)) by (unfold ULONG_MAX, INT32_MAX in *; lia).
  unfold CHECK_STRTOX_RESULT. cbn [r_erange r_conv r_end r_val negb andb].
  assert (u64 n = n) as -> by (unfold u64; apply Z.mod_small; unfold INT32_MAX in *; lia).
  change (INT32_MAX <? 0) with false. cbv iota. rewrite (proj2 (orb_false_iff _ _)) by (split; apply Z.ltb_ge; lia).
  cbn [p_ok p_next p_val negb]. rewrite (proj2 (Nat.eqb_neq _ _)) by (rewrite length_app; destruct (udec n); [done|cbn; lia]).
  by rewrite s32_small by (unfold INT32_MIN; lia).
Qed.

(** A tag that is read in full: no white space, no comment sign, short enough. *)
Definition tag_ok (t : bytes) : Prop :=
  Forall (fun c => c <> 0 /\ c <> 35 /\ is_ws c = false) t /\ zlen t < MAX_STATUS_TAG_LEN.

Lemma find_whitespace_tag t : Forall (fun c => c <> 0 /\ c <> 35 /\ is_ws c = false) t -> find_whitespace t = [].
Proof.
  induction 1 as [|c t (H1 & H2 & H3) Ht IH]; [done|]. cbn [find_whitespace].
  rewrite (proj2 (Z.eqb_neq _ _) H1), (proj2 (Z.eqb_neq _ _) H2), H3. done.
Qed.

Definition tag_text (t : bytes) : bytes := match t with [] => [] | _ => 45 :: t end.

(** A version as it is written in a platform line or a version list. *)
Definition version_text (v : tor_version_t) : bytes :=
  dec (major v) ++ 46 :: dec (minor v) ++ 46 :: dec (micro v) ++ 46 :: dec (patchlevel v)
  ++ tag_text (status_tag v).

Lemma parse_status_tag_text v t :
  tag_ok t ->
  parse_status_tag v (tag_text t)
  = Ok (mkver (major v) (minor v) (micro v) (status v) (patchlevel v) t 0 0 zero_tag).
Proof.
  intros [Ht Hl]. destruct t as [|c t]; [done|]. unfold parse_status_tag, tag_text.
  change (if (cur (45 :: c :: t) =? 45) || (cur (45 :: c :: t) =? 46) then tail (45 :: c :: t) else 45 :: c :: t) with (c :: t).
  pose proof (find_whitespace_tag _ Ht) as Hw. revert Hw Hl. generalize (c :: t). intros u -> Hl. cbv zeta.
  replace (zlen u - zlen (@nil Z)) with (zlen u) by zlia. rewrite (proj2 (Z.leb_gt _ _)) by done.
  assert (take (Z.to_nat (zlen u)) u = u) as -> by (apply take_ge; unfold zlen; lia). done.
Qed.

Lemma not_tor_prefix n r : 0 <= n -> (strcasecmpstart (dec n ++ r) (s2b "Tor ") =? 0) = false.
Proof.
  intros Hn. unfold dec. rewrite (proj2 (Z.ltb_ge _ _)) by done. destruct (udec_spec n Hn) as (H1 & H2 & _).
  destruct (udec n) as [|d ds]; [done|]. apply Forall_inv in H2. unfold strcasecmpstart. cbn [app s2b length].
  assert (Hd : d = 48 \/ d = 49 \/ d = 50 \/ d = 51 \/ d = 52 \/ d = 53 \/ d = 54 \/ d = 55 \/ d = 56 \/ d = 57) by lia.
  repeat (destruct Hd as [->|Hd]; [reflexivity|]). by subst d.
Qed.

Lemma DOT_dot r : DOT (46 :: r) = Ok r.
Proof. reflexivity. Qed.

Lemma cur_cons c r : cur (c :: r) = c.
Proof. reflexivity. Qed.

Lemma tor_prefix s :
  (strcasecmpstart s (s2b "Tor ") =? 0) = false -> tor_version_parse (s2b "Tor " ++ s) = tor_version_parse s.
Proof. intros H. unfold tor_version_parse. rewrite H. reflexivity. Qed.

(** ** Parsing any string *)

Lemma NUMBER_cases cp : match NUMBER cp with Ok (n, _) => 0 <= n <= INT32_MAX | Err => True | _ => False end.
Proof.
  unfold NUMBER. destruct (_ || _); [done|]. unfold tor_parse_uint64. change (10 <? 0) with false. cbv iota.
  generalize (strtoul 10 cp). intros r. unfold CHECK_STRTOX_RESULT. destruct (r_erange r); [done|].
  destruct (negb (r_conv r)); [done|]. cbn [negb andb]. change (INT32_MAX <? 0) with false. cbv iota.
  destruct ((r_val r <? 0) || (INT32_MAX <? r_val r)) eqn:E; [done|]. cbn [p_ok p_next p_val negb]. boolp.
  destruct (_ =? _)%nat; [done|]. rewrite s32_small; unfold INT32_MIN in *; lia.
Qed.

Lemma DOT_cases cp : match DOT cp with Ok _ | Err => True | _ => False end.
Proof. unfold DOT. by destruct (negb _). Qed.

(** What [tor_version_parse] promises: numbers in range, a revision that fits
    an [int], a git tag of at most 20 bytes. *)
Definition parsed_ok (v : tor_version_t) : Prop :=
  0 <= major v <= INT32_MAX /\ 0 <= minor v <= INT32_MAX /\ 0 <= micro v <= INT32_MAX
  /\ 0 <= patchlevel v <= INT32_MAX /\ - 2 ^ 31 <= svn_revision v < 2 ^ 31 /\ zlen (status_tag v) < MAX_STATUS_TAG_LEN
  /\ 0 <= git_tag_len v <= DIGEST_LEN /\ zlen (git_tag v) = DIGEST_LEN.

Lemma base16_cases n s : match Base16.base16_decode n s with Ok out => zlen s = 2 * zlen out | Err => True | _ => False end.
Proof.
  unfold Base16.base16_decode. destruct (Z.eqb_spec (zlen s mod 2) 0) as [Hm|]; [|done]. cbn [negb].
  destruct (_ || _) eqn:E; [done|]. boolp.
  destruct (Base16.decode_loop_err (length s) s ltac:(lia) Hm) as [->|[out Ho]]; [done|]. rewrite Ho. cbn [cbind].
  apply (Base16.decode_loop_length (length s)) in Ho; [|lia].
  rewrite (proj2 (Z.leb_le _ _)); [done|]. rewrite Ho, Z.mul_comm, Z.div_mul in * by lia. lia.
Qed.

Lemma find_whitespace_suffix s : exists a, s = a ++ find_whitespace s.
Proof.
  induction s as [|c s [a IH]]; [by exists []|]. cbn [find_whitespace]. destruct (_ || _); [by exists []|].
  exists (c :: a). cbn [app]. by f_equal.
Qed.

Lemma parse_status_tag_cases v cp :
  0 <= major v <= INT32_MAX -> 0 <= minor v <= INT32_MAX -> 0 <= micro v <= INT32_MAX -> 0 <= patchlevel v <= INT32_MAX ->
  match parse_status_tag v cp with Ok v' => parsed_ok v' | Err => True | _ => False end.
Proof.
  intros H1 H2 H3 H4. unfold parse_status_tag. cbv zeta. set (cp1 := if (_ || _) then tail cp else cp).
  destruct (find_whitespace_suffix cp1) as [a Ha]. set (eos := find_whitespace cp1) in *.
  assert (Hn : zlen cp1 - zlen eos = zlen a) by (rewrite Ha; zlia).
  set (tag := if MAX_STATUS_TAG_LEN <=? _ then _ else _).
  assert (Htag : zlen tag < MAX_STATUS_TAG_LEN).
  { unfold tag, MAX_STATUS_TAG_LEN. zcase; unfold zlen in *; rewrite length_take; lia. }
  assert (Z0 : 0 <= 0 <= DIGEST_LEN) by (unfold DIGEST_LEN; lia).
  destruct (eat_whitespace_spec eos) as (pre & r & _ & -> & _). cbn [cbind].
  destruct (strcmpstart r (s2b "(r") =? 0); [unfold parsed_ok; cbn; pose proof (s32_range (r_val (strtol 10 (drop 2 r)))); split_and!; lia || done|].
  destruct (strcmpstart r (s2b "(git-") =? 0); [|unfold parsed_ok; cbn; split_and!; lia || done].
  destruct (strchr r 41) as [q|]; [|done]. set (hexlen := zlen (drop 5 r) - zlen q).
  destruct (Z.ltb_spec HEX_DIGEST_LEN hexlen) as [|Hh]; [done|]. destruct ((hexlen =? 0) || _); [done|].
  pose proof (base16_cases (hexlen / 2) (take (Z.to_nat hexlen) (drop 5 r))) as Hb.
  destruct (Base16.base16_decode _ _) as [out| | |]; cbn [cbind]; try done.
  destruct (Z.eqb_spec (zlen out) (hexlen / 2)) as [Eo|]; [|done]. cbn [negb].
  assert (Hout : 0 <= zlen out <= DIGEST_LEN).
  { pose proof (zlen_nonneg out). split; [done|]. rewrite Eo. unfold HEX_DIGEST_LEN, DIGEST_LEN in *.
    apply Z.div_le_upper_bound; lia. }
  unfold parsed_ok. cbn [major minor micro patchlevel svn_revision status_tag git_tag_len git_tag]. split_and!; try lia.
  rewrite zlen_app. unfold zlen in *. rewrite length_drop. unfold DIGEST_LEN in *. cbn [length zero_tag repeat]. lia.
Qed.

Lemma tor_version_parse_cases s :
  match tor_version_parse s with Ok v => parsed_ok v | Err => True | _ => False end.
Proof.
  unfold tor_version_parse. cbv zeta. set (s1 := if _ =? 0 then drop 4 s else s).
  assert (Hbase : forall a b c, 0 <= a <= INT32_MAX -> 0 <= b <= INT32_MAX -> 0 <= c <= INT32_MAX ->
            parsed_ok (mkver a b c VER_RELEASE 0 [] 0 0 zero_tag)).
  { intros a b c Ha Hb Hc. unfold parsed_ok, INT32_MAX, DIGEST_LEN, MAX_STATUS_TAG_LEN in *. cbn. split_and!; lia || done. }
  assert (H0 : 0 <= 0 <= INT32_MAX) by (unfold INT32_MAX; lia).
  pose proof (NUMBER_cases s1) as N1. destruct (NUMBER s1) as [[ma c1]| | |]; cbn [cbind]; try done.
  pose proof (DOT_cases c1) as D1. destruct (DOT c1) as [c2| | |]; cbn [cbind]; try done.
  pose proof (NUMBER_cases c2) as N2. destruct (NUMBER c2) as [[mi c3]| | |]; cbn [cbind]; try done.
  destruct (cur c3 =? 0); [by apply Hbase|]. destruct (cur c3 =? 45); [by apply parse_status_tag_cases|].
  pose proof (DOT_cases c3) as D2. destruct (DOT c3) as [c4| | |]; cbn [cbind]; try done.
  pose proof (NUMBER_cases c4) as N3. destruct (NUMBER c4) as [[mc c5]| | |]; cbn [cbind]; try done.
  destruct (cur c5 =? 0); [by apply Hbase|]. destruct (cur c5 =? 45); [by apply parse_status_tag_cases|].
  destruct (if cur c5 =? 46 then _ else _) as [[st c6]| | |] eqn:E; cbn [cbind]; try done.
  - pose proof (NUMBER_cases c6) as N4. destruct (NUMBER c6) as [[p c7]| | |]; cbn [cbind]; try done.
    by apply parse_status_tag_cases.
  - by repeat case_match.
  - by repeat case_match.
Qed.

(** For versions whose numbers are not negative, [tor_version_compare] is the
    lexicographic order of major, minor, micro, status, patch level, status tag
    (compared as strings), revision, and git tag: its sign is that of the reference
    comparison of the two keys, it is 0 exactly for equal keys, swapping the
    arguments swaps the sign, and it is transitive. *)
Theorem tor_version_compare_order a b c :
  ver_ok a -> ver_ok b -> ver_ok c ->
  Z.sgn (tor_version_compare a b) = lexcmp (key a) (key b)
  /\ (tor_version_compare a b = 0 <-> key a = key b)
  /\ Z.sgn (tor_version_compare b a) = - Z.sgn (tor_version_compare a b)
  /\ (tor_version_compare a b <= 0 -> tor_version_compare b c <= 0 -> tor_version_compare a c <= 0).
Proof.
  intros Ha Hb Hc. pose proof (compare_key a b Ha Hb) as Eab. pose proof (compare_key b a Hb Ha) as Eba.
  pose proof (compare_key b c Hb Hc) as Ebc. pose proof (compare_key a c Ha Hc) as Eac.
  split_and!; [done| | |].
  - rewrite <- lexcmp_eq, <- Eab. lia.
  - rewrite Eba, Eab. apply lexcmp_anti.
  - pose proof (lexcmp_trans (key a) (key b) (key c)). lia.
Qed.

Definition ver (a b c d : Z) (tag : bytes) : tor_version_t := mkver a b c VER_RELEASE d tag 0 0 zero_tag.

(** Decides the side conditions on concrete versions. *)
Ltac solve_ver_ok := split; vm_compute; repeat (apply List.Forall_cons || apply List.Forall_nil || split); done.

Lemma tor_version_compare_order_witness :
  Z.sgn (tor_version_compare (ver 0 4 8 4 (s2b "alpha")) (ver 0 4 8 10 [])) = -1
  /\ (tor_version_compare (ver 0 4 8 10 []) (ver 0 4 9 0 (s2b "dev")) <= 0 ->
      tor_version_compare (ver 0 4 8 4 (s2b "alpha")) (ver 0 4 9 0 (s2b "dev")) <= 0).
Proof.
  edestruct (tor_version_compare_order (ver 0 4 8 4 (s2b "alpha")) (ver 0 4 8 10 []) (ver 0 4 9 0 (s2b "dev")))
    as (H & _ & _ & T); [by solve_ver_ok..|].
  split; [rewrite H; vm_compute; reflexivity|]. apply T. vm_compute. discriminate.
Defined.

(** The revision is read with [strtol] and may be negative; the comparison then
    is not transitive, because the difference wraps around. *)
Lemma compare_negative_revision_cycle :
  let v r := mkver 0 1 2 VER_RELEASE 3 [] r 0 zero_tag in
  tor_version_parse (s2b "0.1.2.3 (r0)") = Ok (v 0)
  /\ tor_version_parse (s2b "0.1.2.3 (r1500000000)") = Ok (v 1500000000)
  /\ tor_version_parse (s2b "0.1.2.3 (r-1500000000)") = Ok (v (-1500000000))
  /\ tor_version_compare (v 0) (v 1500000000) < 0 /\ tor_version_compare (v 1500000000) (v (-1500000000)) < 0
  /\ tor_version_compare (v (-1500000000)) (v 0) < 0.
Proof. split_and!; vm_compute; reflexivity. Qed.

(** Parsing inverts printing: a release version with four numbers, each
    fitting an [int], and a status tag of fewer than 32 bytes without white space
    or a comment sign, written as [major.minor.micro.patch-tag] and possibly
    prefixed with Tor, is parsed back to itself. *)
Theorem tor_version_roundtrip v :
  ver_ok v -> status v = VER_RELEASE -> tag_ok (status_tag v) ->
  svn_revision v = 0 -> git_tag_len v = 0 -> git_tag v = zero_tag ->
  tor_version_parse (version_text v) = Ok v /\ tor_version_parse (s2b "Tor " ++ version_text v) = Ok v.
Proof.
  intros [H1 H2 H3 H4 _ _ _ _] Hst Htag Hsvn Hlen Hgit.
  assert (Hp : (strcasecmpstart (version_text v) (s2b "Tor ") =? 0) = false) by (apply not_tor_prefix; lia).
  rewrite tor_prefix by done. cut (tor_version_parse (version_text v) = Ok v); [done|].
  unfold tor_version_parse. rewrite Hp. unfold version_text. cbv zeta iota.
  rewrite NUMBER_dec by done. cbn [cbind]. rewrite DOT_dot. cbn [cbind].
  rewrite NUMBER_dec by done. cbn [cbind]. rewrite !cur_cons, DOT_dot. change (46 =? 0) with false. change (46 =? 45) with false. cbv iota. cbn [cbind].
  rewrite NUMBER_dec by done. cbn [cbind]. rewrite !cur_cons. change (46 =? 0) with false. change (46 =? 45) with false.
  change (46 =? 46) with true. cbv iota. cbn [cbind tail].
  rewrite NUMBER_dec by (done || by destruct (status_tag v)). cbn [cbind].
  rewrite parse_status_tag_text by done. cbn [major minor micro status patchlevel].
  rewrite <- Hst. destruct v. cbn in *. by subst.
Qed.

Lemma tor_version_roundtrip_witness :
  tor_version_parse (s2b "0.4.8.10-alpha-dev") = Ok (ver 0 4 8 10 (s2b "alpha-dev"))
  /\ tor_version_parse (s2b "Tor 0.4.8.10-alpha-dev") = Ok (ver 0 4 8 10 (s2b "alpha-dev")).
Proof.
  apply (tor_version_roundtrip (ver 0 4 8 10 (s2b "alpha-dev"))); reflexivity || solve_ver_ok.
Defined.

(** ** The status with respect to a list *)

(** The versions that [tor_version_is_obsolete] compares with: the entries of
    the list that can be parsed. *)
Definition listed (versions : list bytes) : list tor_version_t :=
  omap (fun cp => match tor_version_parse (if strcmpstart cp (s2b "Tor ") =? 0 then drop 4 cp else cp) with
                  | Ok v => Some v | _ => None end) versions.

Section Status.
Variable mine : tor_version_t.

Definition newer (o : tor_version_t) : bool := tor_version_compare mine o <? 0.
Definition older (o : tor_version_t) : bool := 0 <? tor_version_compare mine o.
Definition series (o : tor_version_t) : bool := tor_version_same_series mine o.

(** The flags after the entries [l]. *)
Definition flags_after (f : found_t) (l : list tor_version_t) : found_t :=
  mkfound (found_newer f || existsb newer l) (found_older f || existsb older l)
    (found_newer_in_series f || existsb (fun o => series o && newer o) l)
    (found_any_in_series f || existsb series l).

Definition equal_to_mine (o : tor_version_t) : bool := tor_version_compare mine o =? 0.

Lemma obsolete_loop_spec versions f :
  obsolete_loop mine versions f
  = Ok (if existsb equal_to_mine (listed versions) then None else Some (flags_after f (listed versions))).
Proof.
  revert f. induction versions as [|cp versions IH]; intros f.
  { cbn. unfold flags_after. cbn [existsb]. rewrite !orb_false_r. by destruct f. }
  unfold listed. cbn [obsolete_loop omap list_omap]. fold (listed versions). cbv zeta.
  set (cp1 := if _ =? 0 then drop 4 cp else cp). pose proof (tor_version_parse_cases cp1) as Hc.
  destruct (tor_version_parse cp1) as [o| | |]; cbn [or_fail cbind]; [|apply IH|done|done].
  cbn [existsb]. unfold flags_after. cbn [existsb]. fold (series o).
  unfold equal_to_mine at 1, newer at 1 3, older at 1.
  destruct (Z.eqb_spec (tor_version_compare mine o) 0) as [|Hne]; [done|]. cbn [orb].
  destruct (Z.ltb_spec (tor_version_compare mine o) 0) as [Hlt|Hge].
  - rewrite IH, (proj2 (Z.ltb_ge _ _)) by lia. destruct (existsb _ _); [done|]. unfold flags_after.
    cbn [found_newer found_older found_newer_in_series found_any_in_series orb].
    rewrite !andb_true_r, !orb_true_r. do 3 f_equal; destruct (series o); by rewrite ?orb_true_r.
  - rewrite IH, (proj2 (Z.ltb_lt _ _)) by lia. destruct (existsb _ _); [done|]. unfold flags_after.
    cbn [found_newer found_older found_newer_in_series found_any_in_series orb].
    rewrite !andb_false_r, !orb_true_r. do 3 f_equal. destruct (series o); by rewrite ?orb_true_r.
Qed.

End Status.

Lemma existsb_reflect {A} (f : A -> bool) l :
  reflect (exists x, In x l /\ f x = true) (existsb f l).
Proof. destruct (existsb f l) eqn:E; constructor; [by apply existsb_exists|]. intros H%existsb_exists. congruence. Qed.

(** What each status says about the versions in the list. *)
Definition status_means (mine : tor_version_t) (l : list tor_version_t) (s : version_status_t) : Prop :=
  let cmp o := tor_version_compare mine o in
  let same o := tor_version_same_series mine o = true in
  match s with
  | VS_RECOMMENDED => exists o, In o l /\ cmp o = 0
  | VS_OLD => l <> [] /\ forall o, In o l -> cmp o < 0
  | VS_NEW => l <> [] /\ forall o, In o l -> 0 < cmp o
  | VS_NEW_IN_SERIES =>
      (forall o, In o l -> cmp o <> 0) /\ (exists o, In o l /\ same o) /\ (forall o, In o l -> same o -> 0 < cmp o)
      /\ (exists o, In o l /\ cmp o < 0)
  | VS_UNRECOMMENDED =>
      (forall o, In o l -> cmp o <> 0)
      /\ (l = []
          \/ (exists o, In o l /\ cmp o < 0) /\ (exists o, In o l /\ 0 < cmp o)
             /\ ((forall o, In o l -> ~ same o) \/ exists o, In o l /\ same o /\ cmp o < 0))
  | VS_EMPTY | VS_UNKNOWN => False
  end.

(** The decision at the end of [tor_version_is_obsolete]. *)
Definition decide_status (f : found_t) : version_status_t :=
  if found_any_in_series f && negb (found_newer_in_series f) && found_newer f then VS_NEW_IN_SERIES
  else if found_newer f && negb (found_older f) then VS_OLD
  else if found_older f && negb (found_newer f) then VS_NEW
  else VS_UNRECOMMENDED.

Section Decide.
Variables (mine : tor_version_t) (l : list tor_version_t).
Hypothesis Hne : forall o, In o l -> tor_version_compare mine o <> 0.

Lemma none_newer : ~ (exists o, In o l /\ newer mine o = true) -> forall o, In o l -> 0 < tor_version_compare mine o.
Proof.
  intros H o Ho. specialize (Hne o Ho). destruct (Z.lt_ge_cases (tor_version_compare mine o) 0); [|lia].
  destruct H. exists o. split; [done|]. unfold newer. blia.
Qed.

Lemma none_older : ~ (exists o, In o l /\ older mine o = true) -> forall o, In o l -> tor_version_compare mine o < 0.
Proof.
  intros H o Ho. specialize (Hne o Ho). destruct (Z.lt_ge_cases 0 (tor_version_compare mine o)); [|lia].
  destruct H. exists o. split; [done|]. unfold older. blia.
Qed.

Lemma none_newer_in_series :
  ~ (exists o, In o l /\ series mine o && newer mine o = true) ->
  forall o, In o l -> tor_version_same_series mine o = true -> 0 < tor_version_compare mine o.
Proof.
  intros H o Ho Hs. specialize (Hne o Ho). destruct (Z.lt_ge_cases (tor_version_compare mine o) 0); [|lia].
  destruct H. exists o. split; [done|]. unfold series, newer. rewrite Hs. cbn [andb]. blia.
Qed.

Lemma some_nonempty o : In o l -> l <> [].
Proof. by destruct l. Qed.

Lemma decide_status_means : status_means mine l (decide_status (flags_after mine (mkfound false false false false) l)).
Proof.
  unfold decide_status, flags_after. cbn [found_newer found_older found_newer_in_series found_any_in_series orb].
  destruct (existsb_reflect (newer mine) l) as [(o & Io & So)|Nn]; [|rewrite andb_false_r].
  - assert (Hn : exists o, In o l /\ tor_version_compare mine o < 0) by (exists o; split; [done|]; unfold newer in So; blia).
    pose proof (some_nonempty o Io) as Hl. cbn [andb negb]. rewrite andb_true_r.
    destruct (existsb_reflect (series mine) l) as [(o1 & I1 & S1)|Ns];
      [destruct (existsb_reflect (fun o => series mine o && newer mine o) l) as [(o2 & I2 & S2)|Nsn]|]; cbn [andb negb];
      [|split_and!; [done|by exists o1|by apply none_newer_in_series|done]|];
      (destruct (existsb_reflect (older mine) l) as [(o3 & I3 & S3)|No]; [|split; [done|exact (none_older No)]]);
      (split; [done|]); right; (split_and!; [done|exists o3; split; [done|]; unfold older in S3; blia|]).
    + right. exists o2. apply andb_true_iff in S2 as [S2 S2']. split_and!; [done|done|]. unfold newer in S2'. blia.
    + left. intros o' Io' So'. destruct Ns. by exists o'.
  - destruct (existsb_reflect (older mine) l) as [(o3 & I3 & S3)|No].
    + split; [by apply (some_nonempty o3)|]. exact (none_newer Nn).
    + split; [done|]. left. pose proof (none_newer Nn) as H1. pose proof (none_older No) as H2.
      destruct l as [|o l']; [done|]. specialize (H1 o (or_introl eq_refl)). specialize (H2 o (or_introl eq_refl)). lia.
Qed.

End Decide.

Ltac learn H := let P := type of H in match goal with _ : P |- _ => fail 1 | _ => pose proof H end.

(** Applies what holds of every listed version to those at hand. *)
Ltac use_listed :=
  repeat match goal with
  | H : _ /\ _ |- _ => destruct H
  | H : exists _, _ |- _ => destruct H
  | H : _ \/ _ |- _ => destruct H
  | H : forall o, In o ?l -> _, I : In ?x ?l |- _ =>
      learn (H x I)
  | H : ?P -> _, E : ?P |- _ => learn (H E)
  end.

(** At most one status fits. *)
Lemma status_means_unique mine l s s' : status_means mine l s -> status_means mine l s' -> s = s'.
Proof.
  intros H H'. destruct s, s'; try done; exfalso; cbn [status_means] in *;
    (destruct l as [|o l]; [use_listed; done|]);
    pose proof (or_introl eq_refl : In o (o :: l)); use_listed; done || lia.
Qed.

(** [tor_version_is_obsolete] always returns for a version that can be
    parsed, and gives the one status that fits the listed versions that can be
    parsed: recommended when one is equal to mine; old (new) when there are some
    and all are newer (older); new in its series when none is equal, the list has
    members of my series and all of them are older, and some member is newer;
    otherwise unrecommended. An empty list gives [VS_EMPTY]. *)
Theorem tor_version_is_obsolete_correct myversion mine versionlist :
  tor_version_parse myversion = Ok mine ->
  tor_version_is_obsolete myversion [] = Ok VS_EMPTY
  /\ (versionlist <> [] ->
      exists entries s, smartlist_split_string versionlist (Some (s2b ",")) SPLIT_SKIP_SPACE 0 = Ok entries
        /\ tor_version_is_obsolete myversion versionlist = Ok s
        /\ forall s', status_means mine (listed entries) s' <-> s' = s).
Proof.
  intros Hm. unfold tor_version_is_obsolete. rewrite Hm. cbn [or_fail cbind]. split; [done|]. intros Hl.
  destruct (split_loop_total (S (length versionlist)) versionlist (s2b ",") SPLIT_SKIP_SPACE 0 0) as [entries E]; [done|lia|].
  exists entries. unfold smartlist_split_string. rewrite E. cbn [cbind]. destruct versionlist as [|c vl]; [done|].
  rewrite obsolete_loop_spec. cbn [cbind].
  enough (forall s, status_means mine (listed entries) s -> forall s', status_means mine (listed entries) s' <-> s' = s) as U.
  { destruct (existsb_reflect (equal_to_mine mine) (listed entries)) as [(o & Io & So)|Ne].
    - exists VS_RECOMMENDED. split_and!; [done|done|]. apply U. exists o. split; [done|]. unfold equal_to_mine in So. blia.
    - set (f := flags_after _ _ _). exists (decide_status f). split_and!; [done| |].
      + unfold decide_status. by repeat destruct (_ && _).
      + apply U, decide_status_means. intros o Io Ho. destruct Ne. exists o. split; [done|]. unfold equal_to_mine. blia. }
  intros s Hs s'. split; [intros Hs'; by apply (status_means_unique mine (listed entries))|by intros ->].
Qed.

Lemma tor_version_is_obsolete_witness :
  tor_version_parse (s2b "0.4.8.5") = Ok (ver 0 4 8 5 [])
  /\ exists entries s,
      smartlist_split_string (s2b "0.4.8.4, Tor 0.4.9.1-alpha, x") (Some (s2b ",")) SPLIT_SKIP_SPACE 0 = Ok entries
      /\ tor_version_is_obsolete (s2b "0.4.8.5") (s2b "0.4.8.4, Tor 0.4.9.1-alpha, x") = Ok s
      /\ forall s', status_means (ver 0 4 8 5 []) (listed entries) s' <-> s' = s.
Proof.
  split; [vm_compute; reflexivity|].
  refine (proj2 (tor_version_is_obsolete_correct (s2b "0.4.8.5") (ver 0 4 8 5 [])
                   (s2b "0.4.8.4, Tor 0.4.9.1-alpha, x") _) _); [vm_compute; reflexivity|discriminate].
Defined.

(** A member of my series that is older, and no newer version at all: the result
    is [VS_NEW], not [VS_NEW_IN_SERIES]. *)
Lemma newest_is_new : tor_version_is_obsolete (s2b "0.4.8.5") (s2b "0.4.8.4") = Ok VS_NEW.
Proof. vm_compute. reflexivity. Qed.

(** The guess [0.2.5.15] for an unknown version has no Tor prefix, so that it
    is taken for a version newer than any cutoff, and no protocol is computed;
    with the prefix the answer would have been that for 0.2.4.19. *)
Lemma unknown_version_has_no_protocols :
  protover_compute_for_old_tor None = Ok []
  /\ protover_compute_for_old_tor (Some (s2b "Tor 0.2.5.15"))
     = Ok (s2b "Cons=1 Desc=1 DirCache=1 HSDir=1 HSIntro=3 HSRend=1 Link=1-4 LinkAuth=1 Microdesc=1 Relay=1-2").
Proof. split; vm_compute; reflexivity. Qed.
