(* ===== verification/ProtoSummary.v ===== *)
(** * Protocol summaries and their cache

    Models the end of core/or/versions.c: [summarize_protover_flags] and the static
    table [protover_summary_map] in which [memoize_protover_summary] keeps what it
    computed.  The table is a finite map from protocol strings to flags, [None]
    while it is NULL. *)

From S2P Require Import Prelude CString DiOps UtilString StrList Binascii Protover Versions.
From Stdlib Require Import ZArith String.
From stdpp Require Import base list numbers gmap.
Open Scope Z_scope.

Definition PROTOVER_LINKAUTH_ED25519_HANDSHAKE : Z := 3.
Definition PROTOVER_RELAY_EXTEND2 : Z := 2.
Definition PROTOVER_RELAY_ACCEPT_IPV6 : Z := 2.
Definition PROTOVER_RELAY_EXTEND_IPV6 : Z := 3.
Definition PROTOVER_RELAY_CANONICAL_IPV6 : Z := 3.
Definition PROTOVER_RELAY_NTOR_V3 : Z := 4.
Definition PROTOVER_CONFLUX_V1 : Z := 1.
Definition PROTOVER_HS_INTRO_V3 : Z := 4.
Definition PROTOVER_HS_INTRO_DOS : Z := 5.
Definition PROTOVER_HS_RENDEZVOUS_POINT_V3 : Z := 2.
Definition PROTOVER_HSDIR_V3 : Z := 2.
Definition PROTOVER_HS_SETUP_PADDING : Z := 2.
Definition PROTOVER_FLOWCTRL_CC : Z := 2.
Definition PROTOVER_RELAY_NEGOTIATE_SUBPROTO : Z := 5.
Definition PROTOVER_RELAY_CRYPT_CGO : Z := 6.

Record protover_summary_flags_t := mkflags {
  protocols_known : bool;
  supports_extend2_cells : bool;
  supports_accepting_ipv6_extends : bool;
  supports_initiating_ipv6_extends : bool;
  supports_canonical_ipv6_conns : bool;
  supports_ed25519_link_handshake_compat : bool;
  supports_ed25519_link_handshake_any : bool;
  supports_ed25519_hs_intro : bool;
  supports_establish_intro_dos_extension : bool;
  supports_v3_hsdir : bool;
  supports_v3_rendezvous_point : bool;
  supports_hs_setup_padding : bool;
  supports_congestion_control : bool;
  supports_conflux : bool;
  supports_cgo : bool;
  supports_ntor_v3 : bool
}.

(** [memset(out, 0, sizeof( *out))] *)
Definition zero_flags : protover_summary_flags_t :=
  mkflags false false false false false false false false false false false false false false false false.

Definition with_hsdir (f : protover_summary_flags_t) (b : bool) : protover_summary_flags_t :=
  mkflags (protocols_known f) (supports_extend2_cells f) (supports_accepting_ipv6_extends f)
    (supports_initiating_ipv6_extends f) (supports_canonical_ipv6_conns f)
    (supports_ed25519_link_handshake_compat f) (supports_ed25519_link_handshake_any f)
    (supports_ed25519_hs_intro f) (supports_establish_intro_dos_extension f) b
    (supports_v3_rendezvous_point f) (supports_hs_setup_padding f) (supports_congestion_control f)
    (supports_conflux f) (supports_cgo f) (supports_ntor_v3 f).

Definition with_extend2_known (f : protover_summary_flags_t) (b : bool) : protover_summary_flags_t :=
  mkflags true b (supports_accepting_ipv6_extends f)
    (supports_initiating_ipv6_extends f) (supports_canonical_ipv6_conns f)
    (supports_ed25519_link_handshake_compat f) (supports_ed25519_link_handshake_any f)
    (supports_ed25519_hs_intro f) (supports_establish_intro_dos_extension f) (supports_v3_hsdir f)
    (supports_v3_rendezvous_point f) (supports_hs_setup_padding f) (supports_congestion_control f)
    (supports_conflux f) (supports_cgo f) (supports_ntor_v3 f).

(** [a && b] and [a || b]: [b] is not evaluated when [a] decides. *)
Definition c_and (a : cres bool) (b : cres bool) : cres bool := let* x := a in if x : bool then b else Ok false.
Definition c_or (a : cres bool) (b : cres bool) : cres bool := let* x := a in if x : bool then Ok true else b.

Definition MAX_PROTOVER_SUMMARY_MAP_LEN : Z := 1024.

Abbreviation summary_map := (gmap bytes protover_summary_flags_t).

(** The part of [memoize_protover_summary] that fills [out]. *)
Definition compute_summary (protocols : bytes) : cres protover_summary_flags_t :=
  let has := protocol_list_supports_protocol protocols in
  let* link := has PRT_LINKAUTH PROTOVER_LINKAUTH_ED25519_HANDSHAKE in
  let* link_any := protocol_list_supports_protocol_or_later protocols PRT_LINKAUTH PROTOVER_LINKAUTH_ED25519_HANDSHAKE in
  let* extend2 := has PRT_RELAY PROTOVER_RELAY_EXTEND2 in
  let* accept6 := c_or (has PRT_RELAY PROTOVER_RELAY_ACCEPT_IPV6) (has PRT_RELAY PROTOVER_RELAY_EXTEND_IPV6) in
  let* init6 := has PRT_RELAY PROTOVER_RELAY_EXTEND_IPV6 in
  let* canon6 := has PRT_RELAY PROTOVER_RELAY_CANONICAL_IPV6 in
  let* intro := has PRT_HSINTRO PROTOVER_HS_INTRO_V3 in
  let* dos := has PRT_HSINTRO PROTOVER_HS_INTRO_DOS in
  let* rend := has PRT_HSREND PROTOVER_HS_RENDEZVOUS_POINT_V3 in
  let* hsdir := has PRT_HSDIR PROTOVER_HSDIR_V3 in
  let* padding := has PRT_PADDING PROTOVER_HS_SETUP_PADDING in
  let* cc := c_and (has PRT_FLOWCTRL PROTOVER_FLOWCTRL_CC) (has PRT_RELAY PROTOVER_RELAY_NTOR_V3) in
  let* conflux := c_and (has PRT_FLOWCTRL PROTOVER_FLOWCTRL_CC) (has PRT_CONFLUX PROTOVER_CONFLUX_V1) in
  let* ntor3 := has PRT_RELAY PROTOVER_RELAY_NTOR_V3 in
  let* cgo := c_and (has PRT_FLOWCTRL PROTOVER_FLOWCTRL_CC)
                (c_and (has PRT_RELAY PROTOVER_RELAY_NEGOTIATE_SUBPROTO) (has PRT_RELAY PROTOVER_RELAY_CRYPT_CGO)) in
  Ok (mkflags true extend2 accept6 init6 canon6 link link_any intro dos hsdir rend padding cc conflux cgo ntor3).

(** [protover_summary_cache_free_all] *)
Definition protover_summary_cache_free_all (m : option summary_map) : option summary_map := None.

Definition memoize_protover_summary (m : option summary_map) (protocols : bytes)
    : cres (protover_summary_flags_t * option summary_map) :=
  let t := default (∅ : summary_map) m in
  let* t :=
    (if MAX_PROTOVER_SUMMARY_MAP_LEN <=? Z.of_nat (size t) then
       match protover_summary_cache_free_all (Some t) with
       | None => Ok (∅ : summary_map)
       | Some _ => Bug
       end
     else Ok t) in
  match t !! protocols with
  | Some cached => assert! (protocols_known cached); Ok (cached, Some t)
  | None =>
      let* out := compute_summary protocols in
      match t !! protocols with
      | None => Ok (out, Some (<[protocols := out]> t))
      | Some _ => Bug
      end
  end.

(** The second half of [summarize_protover_flags]: what the version adds. *)
Definition apply_version (out : protover_summary_flags_t) (version : option bytes) : cres protover_summary_flags_t :=
  match version with
  | Some v =>
      if negb (strcmp v [] =? 0) && (strcmpstart v (s2b "Tor ") =? 0) then
        if negb (protocols_known out) then
          let* b := tor_version_as_new_as v (s2b "0.2.4.8-alpha") in
          Ok (with_extend2_known out b)
        else
          let* b := tor_version_as_new_as v (s2b "0.3.0.8") in
          Ok (if negb b then with_hsdir out false else out)
      else Ok out
  | None => Ok out
  end.

Definition summarize_protover_flags (m : option summary_map) (protocols version : option bytes)
    : cres (protover_summary_flags_t * option summary_map) :=
  let* (out, m) :=
    match protocols with
    | Some p => if negb (strcmp p [] =? 0) then memoize_protover_summary m p else Ok (zero_flags, m)
    | None => Ok (zero_flags, m)
    end in
  let* out := apply_version out version in
  Ok (out, m).

(** A sequence of calls, with the flags each of them returns. *)
Fixpoint summarize_all (m : option summary_map) (calls : list (option bytes * option bytes))
    : cres (list protover_summary_flags_t * option summary_map) :=
  match calls with
  | [] => Ok ([], m)
  | (p, v) :: calls =>
      let* (out, m) := summarize_protover_flags m p v in
      let* (outs, m) := summarize_all m calls in
      Ok (out :: outs, m)
  end.

(** ** The flags without a table *)

(** Whether the list names version [ver] of a protocol. *)
Definition lists (protocols : bytes) (tp : protocol_type_t) (ver : Z) : bool :=
  match parse_protocol_list protocols with Ok es => entry_has es (protocol_type_to_str tp) ver | _ => false end.

(** Whether the list names a version of LinkAuth from 3 on, the name in any case. *)
Definition lists_link_any (protocols : bytes) : bool :=
  match protocol_list_supports_protocol_or_later protocols PRT_LINKAUTH PROTOVER_LINKAUTH_ED25519_HANDSHAKE with
  | Ok b => b | _ => false end.

Definition summary_of (p : bytes) : protover_summary_flags_t := {|
  protocols_known := true;
  supports_extend2_cells := lists p PRT_RELAY 2;
  supports_accepting_ipv6_extends := lists p PRT_RELAY 2 || lists p PRT_RELAY 3;
  supports_initiating_ipv6_extends := lists p PRT_RELAY 3;
  supports_canonical_ipv6_conns := lists p PRT_RELAY 3;
  supports_ed25519_link_handshake_compat := lists p PRT_LINKAUTH 3;
  supports_ed25519_link_handshake_any := lists_link_any p;
  supports_ed25519_hs_intro := lists p PRT_HSINTRO 4;
  supports_establish_intro_dos_extension := lists p PRT_HSINTRO 5;
  supports_v3_hsdir := lists p PRT_HSDIR 2;
  supports_v3_rendezvous_point := lists p PRT_HSREND 2;
  supports_hs_setup_padding := lists p PRT_PADDING 2;
  supports_congestion_control := lists p PRT_FLOWCTRL 2 && lists p PRT_RELAY 4;
  supports_conflux := lists p PRT_FLOWCTRL 2 && lists p PRT_CONFLUX 1;
  supports_cgo := lists p PRT_FLOWCTRL 2 && (lists p PRT_RELAY 5 && lists p PRT_RELAY 6);
  supports_ntor_v3 := lists p PRT_RELAY 4
|}.

(** The version says it is at least the cutoff, or is not a version we know. *)
Definition new_enough (v cutoff : bytes) : bool := match tor_version_as_new_as v cutoff with Ok b => b | _ => false end.

Definition summary_spec (protocols version : option bytes) : protover_summary_flags_t :=
  let is_tor v := strcmpstart v (s2b "Tor ") =? 0 in
  match protocols with
  | Some (c :: p) =>
      let f := summary_of (c :: p) in
      match version with
      | Some v => if is_tor v && negb (new_enough v (s2b "0.3.0.8")) then with_hsdir f false else f
      | None => f
      end
  | _ =>
      match version with
      | Some v => if is_tor v then with_extend2_known zero_flags (new_enough v (s2b "0.2.4.8-alpha")) else zero_flags
      | None => zero_flags
      end
  end.

Lemma supports_lists s tp ver :
  Forall is_byte s -> 0 <= ver <= 63 -> protocol_list_supports_protocol s tp ver = Ok (lists s tp ver).
Proof. intros Hb Hv. by destruct (protocol_list_supports_correct s tp ver Hb Hv) as (b & later & -> & _ & -> & _). Qed.

Lemma later_lists s :
  Forall is_byte s ->
  protocol_list_supports_protocol_or_later s PRT_LINKAUTH PROTOVER_LINKAUTH_ED25519_HANDSHAKE = Ok (lists_link_any s).
Proof.
  intros Hb. unfold lists_link_any.
  destruct (protocol_list_supports_correct s PRT_LINKAUTH PROTOVER_LINKAUTH_ED25519_HANDSHAKE Hb) as (b & later & _ & -> & _);
    [unfold PROTOVER_LINKAUTH_ED25519_HANDSHAKE, MAX_PROTOCOL_VERSION; lia|done].
Qed.

Lemma c_or_Ok a b : c_or (Ok a) (Ok b) = Ok (a || b).
Proof. by destruct a. Qed.

Lemma c_and_Ok a b : c_and (Ok a) (Ok b) = Ok (a && b).
Proof. by destruct a. Qed.

Lemma compute_summary_correct p : Forall is_byte p -> compute_summary p = Ok (summary_of p).
Proof.
  intros Hb. unfold compute_summary. rewrite later_lists by done.
  rewrite !(supports_lists p) by (done || (split; apply Z.leb_le; reflexivity)).
  rewrite !c_or_Ok, !c_and_Ok. cbn [cbind]. rewrite ?c_and_Ok. reflexivity.
Qed.

(** ** The table *)

Record table_ok (t : summary_map) : Prop := mk_table_ok {
  to_size : Z.of_nat (size t) <= MAX_PROTOVER_SUMMARY_MAP_LEN;
  to_entries : map_Forall (fun p f => f = summary_of p) t
}.

Definition cache_ok (m : option summary_map) : Prop := table_ok (default ∅ m).

Lemma empty_table_ok : table_ok ∅.
Proof. split; [rewrite map_size_empty; unfold MAX_PROTOVER_SUMMARY_MAP_LEN; lia|apply map_Forall_empty]. Qed.

Lemma table_lookup t p : table_ok t -> t !! p = None \/ t !! p = Some (summary_of p).
Proof. intros [_ H]. destruct (t !! p) as [f|] eqn:E; [|by left]. right. f_equal. by apply H. Qed.

Lemma table_insert t p :
  table_ok t -> t !! p = None -> Z.of_nat (size t) < MAX_PROTOVER_SUMMARY_MAP_LEN -> table_ok (<[p := summary_of p]> t).
Proof.
  intros [_ H] Hp Hs. split; [rewrite map_size_insert_None by done; lia|]. by apply map_Forall_insert_2.
Qed.

Lemma memoize_correct m p :
  Forall is_byte p -> cache_ok m ->
  exists m', memoize_protover_summary m p = Ok (summary_of p, m') /\ cache_ok m'.
Proof.
  intros Hb Hm. unfold memoize_protover_summary, cache_ok in *. set (t0 := default ∅ m) in *.
  set (t := if MAX_PROTOVER_SUMMARY_MAP_LEN <=? Z.of_nat (size t0) then ∅ else t0).
  assert (Ht : table_ok t /\ Z.of_nat (size t) < MAX_PROTOVER_SUMMARY_MAP_LEN).
  { unfold t. zcase; [split; [apply empty_table_ok|done]|done]. }
  assert ((if MAX_PROTOVER_SUMMARY_MAP_LEN <=? Z.of_nat (size t0)
           then match protover_summary_cache_free_all (Some t0) with None => Ok ∅ | Some _ => Bug end else Ok t0) = Ok t)
    as -> by (unfold t; by zcase).
  destruct Ht as [Ht Hs]. cbn [cbind]. destruct (table_lookup t p Ht) as [E|E]; rewrite E; [|by exists (Some t)].
  rewrite compute_summary_correct by done. cbn [cbind]. eexists. split; [done|]. by apply table_insert.
Qed.

Lemma platform_total p strict : exists r, tor_version_parse_platform p strict = Ok r.
Proof.
  unfold tor_version_parse_platform. destruct (negb _); [eauto|].
  destruct (eat_whitespace_spec (drop 3 p)) as (pre & start & _ & -> & _). cbn [cbind]. destruct (cur start =? 0); [eauto|].
  destruct (eat_whitespace_spec (find_whitespace start)) as (pre2 & s2 & _ & -> & _). cbn [cbind].
  set (s := if _ || _ then find_whitespace s2 else find_whitespace start). destruct (128 <=? _); [eauto|].
  pose proof (tor_version_parse_cases (take (Z.to_nat (zlen start - zlen s)) start)) as Hc.
  destruct (tor_version_parse _); cbn [or_fail cbind]; try done; [|eauto]. destruct (strict && _); eauto.
Qed.

Lemma new_enough_total v cutoff : tor_version_as_new_as v cutoff = Ok (new_enough v cutoff).
Proof.
  unfold new_enough, tor_version_as_new_as. pose proof (tor_version_parse_cases cutoff) as Hc.
  destruct (tor_version_parse cutoff); cbn [or_fail cbind]; try done.
  destruct (platform_total v false) as [[]  ->]; done.
Qed.

Lemma strcmp_nonempty c p : strcmp (c :: p) [] = c.
Proof. done. Qed.

(** A string: bytes, none of them NUL. *)
Definition text (s : bytes) : Prop := Forall (fun c => 0 < c < 256) s.

Definition call_ok (call : option bytes * option bytes) : Prop := from_option text True (fst call) /\ from_option text True (snd call).

Lemma not_empty_test c p : text (c :: p) -> negb (strcmp (c :: p) [] =? 0) = true.
Proof. intros H. apply Forall_inv in H. cbn in H. rewrite strcmp_nonempty. blia. Qed.

Lemma version_test v :
  text v -> negb (strcmp v [] =? 0) && (strcmpstart v (s2b "Tor ") =? 0) = (strcmpstart v (s2b "Tor ") =? 0).
Proof. destruct v as [|c w]; intros Hw; [done|]. by rewrite not_empty_test. Qed.

Lemma apply_version_none v : from_option text True v -> apply_version zero_flags v = Ok (summary_spec None v).
Proof.
  destruct v as [v|]; intros Hv; [|done]. unfold apply_version, summary_spec. rewrite version_test, new_enough_total by done.
  by destruct (strcmpstart v (s2b "Tor ") =? 0).
Qed.

Lemma apply_version_some c p v :
  from_option text True v -> apply_version (summary_of (c :: p)) v = Ok (summary_spec (Some (c :: p)) v).
Proof.
  destruct v as [v|]; intros Hv; [|done]. unfold apply_version, summary_spec. rewrite version_test by done. cbv zeta.
  change (protocols_known (summary_of (c :: p))) with true. cbn [negb]. rewrite new_enough_total.
  destruct (strcmpstart v (s2b "Tor ") =? 0); [|done]. by destruct (new_enough v (s2b "0.3.0.8")).
Qed.

Lemma summarize_correct m p v :
  call_ok (p, v) -> cache_ok m ->
  exists m', summarize_protover_flags m p v = Ok (summary_spec p v, m') /\ cache_ok m'.
Proof.
  intros [Hp Hv] Hm. cbn [fst snd] in Hp, Hv. unfold summarize_protover_flags.
  destruct p as [[|c p]|].
  { exists m. change (negb (strcmp [] [] =? 0)) with false. cbv iota. cbn [cbind]. by rewrite apply_version_none. }
  2:{ exists m. cbn [cbind]. by rewrite apply_version_none. }
  rewrite not_empty_test by done.
  destruct (memoize_correct m (c :: p)) as (m' & -> & Hm'); [|done|].
  { eapply Forall_weaken; [exact Hp|]. unfold is_byte. intros x Hx. cbn in Hx. lia. }
  cbn [cbind]. rewrite apply_version_some by done. by exists m'.
Qed.

(** The table of protocol summaries cannot be observed: whatever calls of
    [summarize_protover_flags] come in, in any order and with hits, misses and
    flushes of a full table, each of them returns the flags that the strings
    alone determine, no assertion fails, and the table never holds more than
    1024 entries, each of them right. *)
Theorem summary_cache_transparent calls :
  Forall call_ok calls ->
  exists m, summarize_all None calls = Ok (map (fun '(p, v) => summary_spec p v) calls, m)
    /\ Z.of_nat (size (default ∅ m)) <= MAX_PROTOVER_SUMMARY_MAP_LEN
    /\ map_Forall (fun p f => f = summary_of p) (default ∅ m).
Proof.
  assert (Hgen : forall m, cache_ok m -> Forall call_ok calls ->
    exists m', summarize_all m calls = Ok (map (fun '(p, v) => summary_spec p v) calls, m') /\ cache_ok m').
  { induction calls as [|[p v] calls IH]; intros m Hm Hc; [by exists m|]. apply Forall_cons_iff in Hc as [Hc Hcs].
    cbn [summarize_all map]. destruct (summarize_correct m p v Hc Hm) as (m1 & -> & Hm1). cbn [cbind].
    destruct (IH m1 Hm1 Hcs) as (m2 & -> & Hm2). by exists m2. }
  intros Hc. destruct (Hgen None empty_table_ok Hc) as (m & E & [H1 H2]). by exists m.
Qed.

Lemma summary_cache_transparent_witness :
  let calls := [(Some (s2b "Relay=2-4 FlowCtrl=1-2"), None); (None, Some (s2b "Tor 0.2.4.7"));
                (Some (s2b "Relay=2-4 FlowCtrl=1-2"), Some (s2b "Tor 0.4.8.1"))] in
  exists m, summarize_all None calls = Ok (map (fun '(p, v) => summary_spec p v) calls, m)
    /\ Z.of_nat (size (default ∅ m)) <= MAX_PROTOVER_SUMMARY_MAP_LEN
    /\ map_Forall (fun p f => f = summary_of p) (default ∅ m).
Proof.
  intros calls. apply (summary_cache_transparent calls). unfold calls.
  repeat (apply List.Forall_cons; [split; cbn; exact I || (repeat (apply List.Forall_cons; [lia|]); apply List.Forall_nil)|]).
  apply List.Forall_nil.
Defined.
