(* ===== verification/NetParams.v ===== *)
(** * Consensus parameters

    [get_net_param_from_list] and [networkstatus_get_param] of
    feature/nodelist/networkstatus.c: a consensus carries strings of the form
    [name=value]; the first one that fits and can be parsed gives the value, which
    is then brought into the range that the caller asks for. *)

From S2P Require Import Prelude CString UtilString.
From Stdlib Require Import ZArith String.
From stdpp Require Import base list numbers.
Open Scope Z_scope.


(** The loop over [net_params]. *)
Fixpoint find_param (net_params : list bytes) (param_name : bytes) (default_val : Z) : Z :=
  match net_params with
  | [] => default_val
  | p :: net_params =>
      if (strcmpstart p param_name =? 0) && (cur (drop (length param_name) p) =? 61) then
        let r := tor_parse_long (drop (length param_name + 1) p) 10 INT32_MIN INT32_MAX false in
        if p_ok r then p_val r else find_param net_params param_name default_val
      else find_param net_params param_name default_val
  end.

Definition get_net_param_from_list (net_params : list bytes) (param_name : bytes) (default_val min_val max_val : Z) : cres Z :=
  assert! (min_val <? max_val);
  assert! (min_val <=? default_val);
  assert! (default_val <=? max_val);
  let res := find_param net_params param_name default_val in
  let res := if res <? min_val then min_val else if max_val <? res then max_val else res in
  assert! (min_val <=? res);
  assert! (res <=? max_val);
  Ok res.

(** [net_params] is [None] when there is no consensus or it has no parameters. *)
Definition networkstatus_get_param (net_params : option (list bytes)) (param_name : bytes) (default_val min_val max_val : Z) : cres Z :=
  match net_params with
  | None => Ok default_val
  | Some ps => get_net_param_from_list ps param_name default_val min_val max_val
  end.

(** ** What callers rely on *)

Definition param_value (net_params : option (list bytes)) (param_name : bytes) (default_val min_val max_val : Z) : Z :=
  match net_params with
  | None => default_val
  | Some ps => Z.max min_val (Z.min max_val (find_param ps param_name default_val))
  end.

Lemma networkstatus_get_param_value ps name d lo hi :
  lo < hi -> lo <= d <= hi -> networkstatus_get_param ps name d lo hi = Ok (param_value ps name d lo hi).
Proof.
  intros H1 H2. unfold networkstatus_get_param, param_value, get_net_param_from_list. destruct ps as [ps|]; [|done].
  rewrite (proj2 (Z.ltb_lt _ _)), !(proj2 (Z.leb_le _ _)) by lia.
  set (v := find_param ps name d). repeat zcase; try lia; f_equal; lia.
Qed.

Lemma param_value_range ps name d lo hi : lo <= d <= hi -> lo <= param_value ps name d lo hi <= hi.
Proof. intros H. unfold param_value. destruct ps; lia. Qed.
