(* ===== verification/Trunnel.v ===== *)
(** * Binary cell formats

    Models the encoders and parsers under trunnel/ that circuit negotiation and
    flow control use: sendme_cell.c, extension.c and congestion_control.c.  A parser
    takes the bytes from [ptr] on and returns the object and the bytes that remain;
    an encoder takes the space available in the output and returns the bytes
    written.  The class [Codec] states what a client relies on: parsing what was
    encoded gives the object back and leaves the following bytes alone. *)

From S2P Require Import Prelude.
From Stdlib Require Import ZArith.
From stdpp Require Import base list numbers.
Open Scope Z_scope.

(** The results of the generated code: an object, -2 (truncated), -1 (failed), or
    a failed [trunnel_assert]. *)
Inductive tres (A : Type) := TOk (a : A) | TTrunc | TFail | TBug.
Arguments TOk {A} _.
Arguments TTrunc {A}.
Arguments TFail {A}.
Arguments TBug {A}.

Definition tbind {A B} (m : tres A) (f : A -> tres B) : tres B :=
  match m with TOk a => f a | TTrunc => TTrunc | TFail => TFail | TBug => TBug end.

Declare Scope tres_scope.
Delimit Scope tres_scope with tres.
Notation "'do' x '<-' m ';' k" := (tbind m (fun x => k))
  (at level 10, x pattern, m at level 100, k at level 200) : tres_scope.
Open Scope tres_scope.

(** [CHECK_REMAINING(n, truncated)], then [n] bytes are taken. *)
Definition take_bytes (n : Z) (s : bytes) : tres (bytes * bytes) :=
  if zlen s <? n then TTrunc else TOk (take (Z.to_nat n) s, drop (Z.to_nat n) s).

Definition get_u8 (s : bytes) : tres (Z * bytes) :=
  match s with [] => TTrunc | b :: s => TOk (b, s) end.

(** [trunnel_ntohs(trunnel_get_uint16(ptr))] *)
Definition get_u16 (s : bytes) : tres (Z * bytes) :=
  match s with b1 :: b0 :: s => TOk (b1 * 256 + b0, s) | _ => TTrunc end.

(** [trunnel_set_uint16(ptr, trunnel_htons(x))] *)
Definition put_u16 (x : Z) : bytes := [u16 x / 256; u16 x mod 256].

(** [trunnel_ntohl(trunnel_get_uint32(ptr))] and [trunnel_set_uint32(ptr, trunnel_htonl(x))] *)
Definition get_u32 (s : bytes) : tres (Z * bytes) :=
  match s with b3 :: b2 :: b1 :: b0 :: s => TOk (((b3 * 256 + b2) * 256 + b1) * 256 + b0, s) | _ => TTrunc end.

Definition put_u32 (x : Z) : bytes := put_u16 (u32 x / 65536) ++ put_u16 (u32 x mod 65536).

(** Write one more field: [avail - written < n] is checked before it. *)
Definition put (avail : Z) (out field : bytes) : tres bytes :=
  if zlen out <=? avail then
    if avail - zlen out <? zlen field then TTrunc else TOk (out ++ field)
  else TBug.

(** ** sendme_cell.c *)

Record sendme_cell_t := mksendme { sc_version : Z; sc_data_len : Z; sc_data_v1_digest : bytes }.

Definition sendme_cell_check (obj : sendme_cell_t) : bool :=
  ((sc_version obj =? 0) || (sc_version obj =? 1)) && ((sc_data_len obj =? 16) || (sc_data_len obj =? 20)).

Definition sendme_cell_encode (avail : Z) (obj : sendme_cell_t) : tres bytes :=
  if negb (sendme_cell_check obj) then TFail
  else
    do out <- put avail [] [u8 (sc_version obj)];
    do out <- put avail out (put_u16 (sc_data_len obj));
    do out2 <-
      (if sc_version obj =? 0 then TOk out
       else if sc_version obj =? 1 then put avail out (sc_data_v1_digest obj)
       else TBug);
    let union_len := zlen out2 - zlen out in
    if UINT16_MAX <? union_len then TFail
    else TOk (take 1 out2 ++ put_u16 union_len ++ drop 3 out2).

Definition sendme_cell_parse (s : bytes) : tres (sendme_cell_t * bytes) :=
  do (version, s) <- get_u8 s;
  if negb ((version =? 0) || (version =? 1)) then TFail
  else
    do (data_len, s) <- get_u16 s;
    if negb ((data_len =? 16) || (data_len =? 20)) then TFail
    else
      do (data, rest) <- take_bytes data_len s;
      if version =? 0 then TOk (mksendme version data_len [], rest)
      else if version =? 1 then TOk (mksendme version data_len data, rest)
      else TFail.

(** ** extension.c and congestion_control.c *)

Record trn_extension_field_t := mkfield { field_type : Z; field_len : Z; field : bytes }.
Record trn_extension_t := mkext { ext_num : Z; ext_fields : list trn_extension_field_t }.

Definition trn_extension_field_check (obj : trn_extension_field_t) : bool := zlen (field obj) =? field_len obj.

Definition trn_extension_field_encode (avail : Z) (obj : trn_extension_field_t) : tres bytes :=
  if negb (trn_extension_field_check obj) then TFail
  else
    do out <- put avail [] [u8 (field_type obj)];
    do out <- put avail out [u8 (field_len obj)];
    if field_len obj =? zlen (field obj) then put avail out (field obj) else TBug.

Definition trn_extension_field_parse (s : bytes) : tres (trn_extension_field_t * bytes) :=
  do (field_type, s) <- get_u8 s;
  do (field_len, s) <- get_u8 s;
  do (field, s) <- take_bytes field_len s;
  TOk (mkfield field_type field_len field, s).

Definition trn_extension_check (obj : trn_extension_t) : bool :=
  forallb trn_extension_field_check (ext_fields obj) && (zlen (ext_fields obj) =? ext_num obj).

Fixpoint encode_fields (avail : Z) (out : bytes) (fields : list trn_extension_field_t) : tres bytes :=
  match fields with
  | [] => TOk out
  | f :: fields =>
      if zlen out <=? avail then
        do b <- trn_extension_field_encode (avail - zlen out) f;
        encode_fields avail (out ++ b) fields
      else TBug
  end.

Definition trn_extension_encode (avail : Z) (obj : trn_extension_t) : tres bytes :=
  if negb (trn_extension_check obj) then TFail
  else
    do out <- put avail [] [u8 (ext_num obj)];
    encode_fields avail out (ext_fields obj).

Fixpoint parse_fields (n : nat) (s : bytes) : tres (list trn_extension_field_t * bytes) :=
  match n with
  | O => TOk ([], s)
  | S n =>
      do (f, s) <- trn_extension_field_parse s;
      do (fs, s) <- parse_fields n s;
      TOk (f :: fs, s)
  end.

Definition trn_extension_parse (s : bytes) : tres (trn_extension_t * bytes) :=
  do (num, s) <- get_u8 s;
  do (fields, s) <- parse_fields (Z.to_nat num) s;
  TOk (mkext num fields, s).

(** [trn_extension_encoded_len]; -1 for an object that fails its check. *)
Definition trn_extension_encoded_len (obj : trn_extension_t) : Z :=
  if negb (trn_extension_check obj) then -1
  else 1 + foldr (fun f n => 2 + zlen (field f) + n) 0 (ext_fields obj).

Definition trn_extension_field_cc_encode (avail sendme_inc : Z) : tres bytes := put avail [] [u8 sendme_inc].
Definition trn_extension_field_cc_parse (s : bytes) : tres (Z * bytes) := get_u8 s.

(** [trn_extension_find] of core/crypto/onion_crypto.c, whose index runs over
    [num] fields. *)
Fixpoint find_field (n : nat) (fields : list trn_extension_field_t) (ext_type : Z) : cres (option trn_extension_field_t) :=
  match n with
  | O => Ok None
  | S n =>
      match fields with
      | [] => Bug
      | f :: fields => if field_type f =? ext_type then Ok (Some f) else find_field n fields ext_type
      end
  end.

Definition trn_extension_find (ext : trn_extension_t) (ext_type : Z) : cres (option trn_extension_field_t) :=
  if ext_num ext =? 0 then Ok None else find_field (Z.to_nat (ext_num ext)) (ext_fields ext) ext_type.

(** ** What a codec promises *)

Class Codec (A : Type) := {
  enc : Z -> A -> tres bytes;
  dec : bytes -> tres (A * bytes);
  enc_ok : A -> Prop;
  enc_size : A -> Z;
  enc_dec : forall a avail, enc_ok a -> enc_size a <= avail ->
    exists b, enc avail a = TOk b /\ zlen b = enc_size a /\ forall rest, dec (b ++ rest) = TOk (a, rest);
  enc_short : forall a avail, enc_ok a -> 0 <= avail < enc_size a -> enc avail a = TTrunc
}.

Lemma put_ok avail out f : zlen out + zlen f <= avail -> put avail out f = TOk (out ++ f).
Proof. intros H. unfold put. pose proof (zlen_nonneg f). by rewrite (proj2 (Z.leb_le _ _)), (proj2 (Z.ltb_ge _ _)) by lia. Qed.

Lemma put_short avail out f : zlen out <= avail -> avail < zlen out + zlen f -> put avail out f = TTrunc.
Proof. intros H1 H2. unfold put. by rewrite (proj2 (Z.leb_le _ _)), (proj2 (Z.ltb_lt _ _)) by lia. Qed.

Lemma take_bytes_app n b rest : n = zlen b -> take_bytes n (b ++ rest) = TOk (b, rest).
Proof.
  intros ->. unfold take_bytes. rewrite zlen_app. pose proof (zlen_nonneg rest).
  rewrite (proj2 (Z.ltb_ge _ _)) by lia. by rewrite take_zapp, drop_zapp.
Qed.

Lemma get_put_u16 x rest : 0 <= x <= UINT16_MAX -> get_u16 (put_u16 x ++ rest) = TOk (x, rest).
Proof.
  unfold UINT16_MAX. intros H. unfold put_u16, u16. rewrite Z.mod_small by lia. cbn [app get_u16].
  do 2 f_equal. rewrite (Z.div_mod x 256) at 3 by lia. lia.
Qed.

Lemma get_put_u32 x rest : 0 <= x <= UINT32_MAX -> get_u32 (put_u32 x ++ rest) = TOk (x, rest).
Proof.
  unfold UINT32_MAX. intros H. unfold put_u32, put_u16, u32, u16. rewrite (Z.mod_small x) by lia.
  pose proof (Z.mod_pos_bound x 65536 ltac:(lia)). rewrite !(Z.mod_small _ (2 ^ 16)) by (split; [apply Z.div_pos; lia|apply Z.div_lt_upper_bound; lia] || lia).
  cbn [app get_u32]. do 2 f_equal. rewrite (Z.div_mod x 65536) at 5 by lia. rewrite (Z.div_mod (x / 65536) 256) at 3 by lia. rewrite (Z.div_mod (x mod 65536) 256) at 3 by lia. lia.
Qed.

Lemma u8_small x : 0 <= x < 256 -> u8 x = x.
Proof. intros H. unfold u8. apply Z.mod_small. lia. Qed.

Lemma zlen_put_u16 x : zlen (put_u16 x) = 2.
Proof. done. Qed.
Lemma zlen_put_u32 x : zlen (put_u32 x) = 4.
Proof. done. Qed.
#[export] Hint Rewrite zlen_put_u16 zlen_put_u32 : zlen.

Lemma put_u8_ok avail b : 1 <= avail -> put avail [] [b] = TOk [b].
Proof. intros H. apply (put_ok avail [] [b]). zlia. Qed.

(** *** SENDME cells of version 1 *)

Definition sendme_ok (c : sendme_cell_t) : Prop :=
  sc_version c = 1 /\ (sc_data_len c = 16 \/ sc_data_len c = 20) /\ zlen (sc_data_v1_digest c) = sc_data_len c.

Lemma sendme_ok_check c : sendme_ok c -> sendme_cell_check c = true.
Proof. intros (Hv & Hl & _). unfold sendme_cell_check. rewrite Hv. destruct Hl as [-> | ->]; done. Qed.

Lemma sendme_encode_parse c avail :
  sendme_ok c -> 3 + zlen (sc_data_v1_digest c) <= avail ->
  exists b, sendme_cell_encode avail c = TOk b /\ zlen b = 3 + zlen (sc_data_v1_digest c)
    /\ forall rest, sendme_cell_parse (b ++ rest) = TOk (c, rest).
Proof.
  intros Hok Ha. unfold sendme_cell_encode. rewrite sendme_ok_check by done. cbn [negb].
  destruct Hok as (Hv & Hl & Hd). pose proof (zlen_nonneg (sc_data_v1_digest c)).
  rewrite put_u8_ok by lia. cbn [tbind]. rewrite put_ok by zlia. cbn [tbind app]. rewrite Hv.
  change (1 =? 0) with false. change (1 =? 1) with true. cbv iota. rewrite put_ok by zlia. cbn [tbind].
  assert (Hu : zlen ((u8 1 :: put_u16 (sc_data_len c)) ++ sc_data_v1_digest c) - zlen (u8 1 :: put_u16 (sc_data_len c))
               = sc_data_len c) by zlia.
  rewrite Hu, (proj2 (Z.ltb_ge _ _)) by (unfold UINT16_MAX; lia). eexists. split; [done|].
  cbn [app take drop put_u16]. rewrite drop_0. split; [zlia|]. intros rest. cbn [app].
  unfold sendme_cell_parse. cbn [get_u8 tbind]. change (u8 1) with 1. cbn [Z.eqb Pos.eqb orb negb].
  change (u16 (sc_data_len c) / 256 :: u16 (sc_data_len c) mod 256 :: sc_data_v1_digest c ++ rest)
    with (put_u16 (sc_data_len c) ++ sc_data_v1_digest c ++ rest).
  rewrite get_put_u16 by (unfold UINT16_MAX; lia). cbn [tbind].
  replace (negb _) with false by (destruct Hl as [-> | ->]; done). rewrite take_bytes_app by done. cbn [tbind].
  by destruct c as [v l d]; cbn in *; subst v.
Qed.

Lemma sendme_short c avail :
  sendme_ok c -> 0 <= avail < 3 + zlen (sc_data_v1_digest c) -> sendme_cell_encode avail c = TTrunc.
Proof.
  intros Hok Ha. unfold sendme_cell_encode. rewrite sendme_ok_check by done. cbn [negb]. destruct Hok as (Hv & Hl & Hd).
  destruct (Z.lt_ge_cases avail 1); [by rewrite put_short by zlia|]. rewrite put_u8_ok by lia. cbn [tbind].
  destruct (Z.lt_ge_cases avail 3); [by rewrite put_short by zlia|]. rewrite put_ok by zlia. cbn [tbind app]. rewrite Hv.
  change (1 =? 0) with false. change (1 =? 1) with true. cbv iota. by rewrite put_short by zlia.
Qed.

#[export] Instance sendme_codec : Codec sendme_cell_t := {|
  enc := sendme_cell_encode; dec := sendme_cell_parse; enc_ok := sendme_ok;
  enc_size c := 3 + zlen (sc_data_v1_digest c);
  enc_dec := sendme_encode_parse; enc_short := sendme_short
|}.

(** *** Extensions *)

Definition field_ok (f : trn_extension_field_t) : Prop :=
  is_byte (field_type f) /\ is_byte (field_len f) /\ zlen (field f) = field_len f.

Lemma field_ok_check f : field_ok f -> trn_extension_field_check f = true.
Proof. intros (_ & _ & H). unfold trn_extension_field_check. by apply Z.eqb_eq. Qed.

Lemma field_encode_parse f avail :
  field_ok f -> 2 + zlen (field f) <= avail ->
  exists b, trn_extension_field_encode avail f = TOk b /\ zlen b = 2 + zlen (field f)
    /\ forall rest, trn_extension_field_parse (b ++ rest) = TOk (f, rest).
Proof.
  intros Hok Ha. unfold trn_extension_field_encode. rewrite field_ok_check by done. cbn [negb].
  destruct Hok as (Ht & Hl & Hd). pose proof (zlen_nonneg (field f)). rewrite put_u8_ok by lia. cbn [tbind].
  rewrite put_ok by zlia. cbn [tbind app]. rewrite (proj2 (Z.eqb_eq _ _)) by done. rewrite put_ok by zlia.
  eexists. split; [done|]. split; [zlia|]. intros rest. rewrite !u8_small by done.
  unfold trn_extension_field_parse. cbn [app get_u8 tbind]. rewrite take_bytes_app by done. by destruct f.
Qed.

Lemma field_short f avail :
  field_ok f -> 0 <= avail < 2 + zlen (field f) -> trn_extension_field_encode avail f = TTrunc.
Proof.
  intros Hok Ha. unfold trn_extension_field_encode. rewrite field_ok_check by done. cbn [negb]. destruct Hok as (Ht & Hl & Hd).
  destruct (Z.lt_ge_cases avail 1); [by rewrite put_short by zlia|]. rewrite put_u8_ok by lia. cbn [tbind].
  destruct (Z.lt_ge_cases avail 2); [by rewrite put_short by zlia|]. rewrite put_ok by zlia. cbn [tbind app].
  rewrite (proj2 (Z.eqb_eq _ _)) by done. by rewrite put_short by zlia.
Qed.

#[export] Instance field_codec : Codec trn_extension_field_t := {|
  enc := trn_extension_field_encode; dec := trn_extension_field_parse; enc_ok := field_ok;
  enc_size f := 2 + zlen (field f); enc_dec := field_encode_parse; enc_short := field_short
|}.

Definition fields_size (fs : list trn_extension_field_t) : Z := foldr (fun f n => 2 + zlen (field f) + n) 0 fs.

Lemma fields_size_nonneg fs : 0 <= fields_size fs.
Proof. induction fs as [|f fs IH]; [done|]. unfold fields_size in *. cbn [foldr]. pose proof (zlen_nonneg (field f)). lia. Qed.

Lemma encode_fields_ok fs avail out :
  Forall field_ok fs -> zlen out + fields_size fs <= avail ->
  exists b, encode_fields avail out fs = TOk (out ++ b) /\ zlen b = fields_size fs
    /\ forall rest, parse_fields (length fs) (b ++ rest) = TOk (fs, rest).
Proof.
  intros Hfs. revert out. induction Hfs as [|f fs Hf Hfs IH]; intros out Ha.
  { exists []. rewrite app_nil_r. done. }
  unfold fields_size in Ha. cbn [foldr] in Ha. fold (fields_size fs) in Ha.
  pose proof (fields_size_nonneg fs). pose proof (zlen_nonneg (field f)). cbn [encode_fields].
  rewrite (proj2 (Z.leb_le _ _)) by lia.
  destruct (field_encode_parse f (avail - zlen out) Hf) as (b & Eb & Lb & Pb); [lia|].
  rewrite Eb. cbn [tbind]. destruct (IH (out ++ b)) as (b2 & E2 & L2 & P2); [zlia|]. exists (b ++ b2). rewrite E2.
  split; [by rewrite app_assoc|]. split; [unfold fields_size in *; cbn [foldr]; zlia|].
  intros rest. cbn [length parse_fields]. rewrite <- app_assoc, Pb. cbn [tbind]. by rewrite P2.
Qed.

Lemma encode_fields_short fs avail out :
  Forall field_ok fs -> zlen out <= avail -> avail < zlen out + fields_size fs -> encode_fields avail out fs = TTrunc.
Proof.
  intros Hfs. revert out. induction Hfs as [|f fs Hf Hfs IH]; intros out H0 Ha.
  { unfold fields_size in Ha. cbn in Ha. lia. }
  unfold fields_size in Ha. cbn [foldr] in Ha. fold (fields_size fs) in Ha. cbn [encode_fields].
  rewrite (proj2 (Z.leb_le _ _)) by lia.
  destruct (Z.lt_ge_cases (avail - zlen out) (2 + zlen (field f))) as [Hs|Hs].
  - by rewrite field_short by (done || lia).
  - destruct (field_encode_parse f (avail - zlen out) Hf Hs) as (b & -> & Lb & _). cbn [tbind]. apply IH; zlia.
Qed.

Definition ext_ok (e : trn_extension_t) : Prop :=
  Forall field_ok (ext_fields e) /\ ext_num e = zlen (ext_fields e) /\ ext_num e < 256.

Lemma ext_ok_check e : ext_ok e -> trn_extension_check e = true.
Proof.
  intros (Hf & Hn & _). unfold trn_extension_check. apply andb_true_iff. split; [|apply Z.eqb_eq; lia].
  apply forallb_forall. intros f Hin. apply field_ok_check. rewrite List.Forall_forall in Hf. auto.
Qed.

Lemma ext_encode_parse e avail :
  ext_ok e -> 1 + fields_size (ext_fields e) <= avail ->
  exists b, trn_extension_encode avail e = TOk b /\ zlen b = 1 + fields_size (ext_fields e)
    /\ forall rest, trn_extension_parse (b ++ rest) = TOk (e, rest).
Proof.
  intros Hok Ha. unfold trn_extension_encode. rewrite ext_ok_check by done. cbn [negb]. destruct Hok as (Hf & Hn & Hb).
  pose proof (fields_size_nonneg (ext_fields e)). pose proof (zlen_nonneg (ext_fields e)). rewrite put_u8_ok by lia. cbn [tbind].
  destruct (encode_fields_ok (ext_fields e) avail [u8 (ext_num e)]) as (b & -> & Lb & Pb); [done|zlia|].
  eexists. split; [done|]. split; [zlia|]. intros rest. unfold trn_extension_parse. cbn [app get_u8 tbind].
  rewrite u8_small by lia. replace (Z.to_nat (ext_num e)) with (length (ext_fields e)) by (unfold zlen in *; lia).
  rewrite Pb. cbn [tbind]. by destruct e.
Qed.

Lemma ext_short e avail :
  ext_ok e -> 0 <= avail < 1 + fields_size (ext_fields e) -> trn_extension_encode avail e = TTrunc.
Proof.
  intros Hok Ha. unfold trn_extension_encode. rewrite ext_ok_check by done. cbn [negb]. destruct Hok as (Hf & Hn & Hb).
  destruct (Z.lt_ge_cases avail 1); [by rewrite put_short by zlia|]. rewrite put_u8_ok by lia. cbn [tbind].
  apply encode_fields_short; [done|zlia|zlia].
Qed.

#[export] Instance ext_codec : Codec trn_extension_t := {|
  enc := trn_extension_encode; dec := trn_extension_parse; enc_ok := ext_ok;
  enc_size e := 1 + fields_size (ext_fields e); enc_dec := ext_encode_parse; enc_short := ext_short
|}.

(** A cell of version 0 cannot be read back: its encoding has an empty data part,
    which the parser refuses. *)
Lemma sendme_v0_not_parsed len :
  len = 16 \/ len = 20 ->
  sendme_cell_encode 100 (mksendme 0 len []) = TOk [0; 0; 0] /\ sendme_cell_parse [0; 0; 0] = TFail.
Proof. intros [-> | ->]; split; reflexivity. Qed.

(** ** Incremental parsing

    What a parser does when more bytes arrive: a result and a refusal are final, and only a truncated
    input can change its mind. *)

Definition grows {A} (t : bytes) (m m' : tres (A * bytes)) : Prop :=
  match m with
  | TOk (a, r) => m' = TOk (a, r ++ t)
  | TTrunc => True
  | TFail => m' = TFail
  | TBug => m' = TBug
  end.

Definition incremental {A} (parse : bytes -> tres (A * bytes)) : Prop := forall s t, grows t (parse s) (parse (s ++ t)).

Lemma grows_bind {A B} t (m m' : tres (A * bytes)) (k : A * bytes -> tres (B * bytes)) :
  grows t m m' -> (forall a r, grows t (k (a, r)) (k (a, r ++ t))) -> grows t (tbind m k) (tbind m' k).
Proof. intros Hm Hk. destruct m as [[a r]| | |]; cbn in *; subst; done. Qed.

Lemma grows_ok {A} t (a : A) r : grows t (TOk (a, r)) (TOk (a, r ++ t)).
Proof. done. Qed.
Lemma grows_fail {A} t : @grows A t TFail TFail.
Proof. done. Qed.

Lemma grows_u8 s t : grows t (get_u8 s) (get_u8 (s ++ t)).
Proof. by destruct s. Qed.
Lemma grows_u16 s t : grows t (get_u16 s) (get_u16 (s ++ t)).
Proof. by destruct s as [|? [|? s]]. Qed.
Lemma grows_u32 s t : grows t (get_u32 s) (get_u32 (s ++ t)).
Proof. by destruct s as [|? [|? [|? [|? s]]]]. Qed.
Lemma grows_take n s t : grows t (take_bytes n s) (take_bytes n (s ++ t)).
Proof.
  unfold take_bytes. destruct (Z.ltb_spec (zlen s) n) as [H|H]; [done|]. cbn. rewrite zlen_app. pose proof (zlen_nonneg t).
  rewrite (proj2 (Z.ltb_ge _ _)) by lia. unfold zlen in H. by rewrite take_app_le, drop_app_le by lia.
Qed.

Create HintDb grows discriminated.
#[export] Hint Resolve grows_ok grows_fail grows_u8 grows_u16 grows_u32 grows_take : grows.

(** One field after the other; the tests in between do not look at the input. *)
Ltac grows :=
  repeat first
    [ progress eauto with grows
    | apply grows_bind; [|intros]
    | match goal with |- grows _ (if ?b then _ else _) _ => destruct b end ].

(** An input that stops short of the end of an accepted one is truncated. *)
Lemma incremental_prefix {A} (parse : bytes -> tres (A * bytes)) a s t :
  incremental parse -> parse (s ++ t) = TOk (a, []) -> t <> [] -> parse s = TTrunc.
Proof.
  intros H E Ht. specialize (H s t). rewrite E in H. destruct (parse s) as [[a' r]| | |]; cbn in H; try done.
  injection H as _ H. symmetry in H. apply app_eq_nil in H. tauto.
Qed.

(** Writing field after field into too little space fails at the first one that does not fit. *)
Lemma put_then {B} avail out f (k : bytes -> tres B) :
  zlen out <= avail -> (zlen (out ++ f) <= avail -> k (out ++ f) = TTrunc) -> tbind (put avail out f) k = TTrunc.
Proof.
  intros H0 H. destruct (Z.lt_ge_cases avail (zlen out + zlen f)); [by rewrite put_short|].
  rewrite put_ok by lia. apply H. rewrite zlen_app. lia.
Qed.
