(* ===== verification/CongCtl.v ===== *)
(** * Congestion control

    Models core/or/congestion_control_common.c, congestion_control_vegas.c and the
    data of congestion_control_st.h: the state that an endpoint of a circuit keeps,
    the round-trip estimates, and the window updates of Tor-Vegas, in the integer
    widths of the code.  The clock ([monotime_absolute_usec]) and the state of
    the channel are arguments.  The statistics in [double]s, the events on the control
    port and the rate-limited log messages are left out; the divisions
    among the arguments of [congestion_control_vegas_log] are kept, since they are
    evaluated whatever the log level. *)

From S2P Require Import Prelude CString UtilString NetParams Trunnel.
From Stdlib Require Import ZArith String.
From stdpp Require Import base list numbers.
Open Scope Z_scope.

(** ** Data *)

Definition TLS_RECORD_MAX_CELLS : Z := 16 * 1024 / 514.
Definition SENDME_INC_DFLT : Z := TLS_RECORD_MAX_CELLS.
Definition CIRCWINDOW_INIT : Z := 4 * SENDME_INC_DFLT.
Definition OUTBUF_CELLS : Z := 2 * TLS_RECORD_MAX_CELLS.

Inductive cc_alg_t := CC_ALG_SENDME | CC_ALG_WESTWOOD | CC_ALG_VEGAS | CC_ALG_NOLA.
Inductive cc_path_t := CC_PATH_EXIT | CC_PATH_ONION | CC_PATH_ONION_SOS | CC_PATH_ONION_VG | CC_PATH_SBWS.

Record vegas_params_t := mkvegas { ss_cwnd_cap : Z; ss_cwnd_max : Z; gamma : Z; alpha : Z; beta : Z; delta : Z }.

(** The fields of [congestion_control_t] that do not change after
    [congestion_control_init]. *)
Record cc_params_t := mkccp {
  cwnd_inc_pct_ss : Z; cwnd_inc : Z; cwnd_min : Z; cwnd_inc_rate : Z; sendme_inc : Z; cc_alg : cc_alg_t;
  vegas_params : vegas_params_t
}.

Record congestion_control_t := mkcc {
  cc_par : cc_params_t;
  sendme_pending_timestamps : list Z;
  ewma_rtt_usec : Z;
  min_rtt_usec : Z;
  max_rtt_usec : Z;
  bdp : Z;
  cwnd : Z;
  inflight : Z;
  next_cc_event : Z;
  next_cwnd_event : Z;
  in_slow_start : bool;
  cwnd_full : bool;
  blocked_chan : bool
}.

Definition set_sendme_pending_timestamps (v : list Z) (cc : congestion_control_t) : congestion_control_t :=
  mkcc (cc_par cc) v (ewma_rtt_usec cc) (min_rtt_usec cc) (max_rtt_usec cc) (bdp cc) (cwnd cc) (inflight cc) (next_cc_event cc) (next_cwnd_event cc) (in_slow_start cc) (cwnd_full cc) (blocked_chan cc).
Definition set_ewma_rtt_usec (v : Z) (cc : congestion_control_t) : congestion_control_t :=
  mkcc (cc_par cc) (sendme_pending_timestamps cc) v (min_rtt_usec cc) (max_rtt_usec cc) (bdp cc) (cwnd cc) (inflight cc) (next_cc_event cc) (next_cwnd_event cc) (in_slow_start cc) (cwnd_full cc) (blocked_chan cc).
Definition set_min_rtt_usec (v : Z) (cc : congestion_control_t) : congestion_control_t :=
  mkcc (cc_par cc) (sendme_pending_timestamps cc) (ewma_rtt_usec cc) v (max_rtt_usec cc) (bdp cc) (cwnd cc) (inflight cc) (next_cc_event cc) (next_cwnd_event cc) (in_slow_start cc) (cwnd_full cc) (blocked_chan cc).
Definition set_max_rtt_usec (v : Z) (cc : congestion_control_t) : congestion_control_t :=
  mkcc (cc_par cc) (sendme_pending_timestamps cc) (ewma_rtt_usec cc) (min_rtt_usec cc) v (bdp cc) (cwnd cc) (inflight cc) (next_cc_event cc) (next_cwnd_event cc) (in_slow_start cc) (cwnd_full cc) (blocked_chan cc).
Definition set_bdp (v : Z) (cc : congestion_control_t) : congestion_control_t :=
  mkcc (cc_par cc) (sendme_pending_timestamps cc) (ewma_rtt_usec cc) (min_rtt_usec cc) (max_rtt_usec cc) v (cwnd cc) (inflight cc) (next_cc_event cc) (next_cwnd_event cc) (in_slow_start cc) (cwnd_full cc) (blocked_chan cc).
Definition set_cwnd (v : Z) (cc : congestion_control_t) : congestion_control_t :=
  mkcc (cc_par cc) (sendme_pending_timestamps cc) (ewma_rtt_usec cc) (min_rtt_usec cc) (max_rtt_usec cc) (bdp cc) v (inflight cc) (next_cc_event cc) (next_cwnd_event cc) (in_slow_start cc) (cwnd_full cc) (blocked_chan cc).
Definition set_inflight (v : Z) (cc : congestion_control_t) : congestion_control_t :=
  mkcc (cc_par cc) (sendme_pending_timestamps cc) (ewma_rtt_usec cc) (min_rtt_usec cc) (max_rtt_usec cc) (bdp cc) (cwnd cc) v (next_cc_event cc) (next_cwnd_event cc) (in_slow_start cc) (cwnd_full cc) (blocked_chan cc).
Definition set_next_cc_event (v : Z) (cc : congestion_control_t) : congestion_control_t :=
  mkcc (cc_par cc) (sendme_pending_timestamps cc) (ewma_rtt_usec cc) (min_rtt_usec cc) (max_rtt_usec cc) (bdp cc) (cwnd cc) (inflight cc) v (next_cwnd_event cc) (in_slow_start cc) (cwnd_full cc) (blocked_chan cc).
Definition set_next_cwnd_event (v : Z) (cc : congestion_control_t) : congestion_control_t :=
  mkcc (cc_par cc) (sendme_pending_timestamps cc) (ewma_rtt_usec cc) (min_rtt_usec cc) (max_rtt_usec cc) (bdp cc) (cwnd cc) (inflight cc) (next_cc_event cc) v (in_slow_start cc) (cwnd_full cc) (blocked_chan cc).
Definition set_in_slow_start (v : bool) (cc : congestion_control_t) : congestion_control_t :=
  mkcc (cc_par cc) (sendme_pending_timestamps cc) (ewma_rtt_usec cc) (min_rtt_usec cc) (max_rtt_usec cc) (bdp cc) (cwnd cc) (inflight cc) (next_cc_event cc) (next_cwnd_event cc) v (cwnd_full cc) (blocked_chan cc).
Definition set_cwnd_full (v : bool) (cc : congestion_control_t) : congestion_control_t :=
  mkcc (cc_par cc) (sendme_pending_timestamps cc) (ewma_rtt_usec cc) (min_rtt_usec cc) (max_rtt_usec cc) (bdp cc) (cwnd cc) (inflight cc) (next_cc_event cc) (next_cwnd_event cc) (in_slow_start cc) v (blocked_chan cc).
Definition set_blocked_chan (v : bool) (cc : congestion_control_t) : congestion_control_t :=
  mkcc (cc_par cc) (sendme_pending_timestamps cc) (ewma_rtt_usec cc) (min_rtt_usec cc) (max_rtt_usec cc) (bdp cc) (cwnd cc) (inflight cc) (next_cc_event cc) (next_cwnd_event cc) (in_slow_start cc) (cwnd_full cc) v.

(** The parameters that [congestion_control_new_consensus_params] and
    [congestion_control_vegas_set_params] cache in static variables. *)
Record cc_globals := mkccg {
  cwnd_max : Z; n_ewma_cwnd_pct : Z; n_ewma_max : Z; n_ewma_ss : Z; rtt_reset_pct : Z; cc_sendme_inc : Z;
  g_cc_alg : cc_alg_t; bwe_sendme_min : Z; cell_queue_high : Z; cell_queue_low : Z;
  or_conn_highwater : Z; or_conn_lowwater : Z;
  cc_vegas_cwnd_full_minpct : Z; cc_vegas_cwnd_full_gap : Z; cc_cwnd_full_per_cwnd : Z
}.

(** What [circuit_t] says about the channel that the data goes out on. *)
Record chan_state := mkchan { chan_q : Z; blocked_on_chan : bool }.

(** ** Rates and increments (congestion_control_st.h) *)

(** Division of unsigned integers. *)
Definition udiv (a b : Z) : cres Z := assert! (negb (b =? 0)); Ok (a / b).

Definition CWND_INC (cc : congestion_control_t) : Z := cwnd_inc (cc_par cc).
Definition inc (cc : congestion_control_t) : Z := sendme_inc (cc_par cc).

Definition CWND_UPDATE_RATE (cc : congestion_control_t) : cres Z :=
  if in_slow_start cc then Ok 1
  else
    let ri := cwnd_inc_rate (cc_par cc) * inc cc in
    udiv (u64 (cwnd cc + ri / 2)) ri.

Definition SENDME_PER_CWND (cc : congestion_control_t) : cres Z := udiv (u64 (cwnd cc + inc cc / 2)) (inc cc).

Definition n_count_ewma (curr prev N : Z) : cres Z :=
  if prev =? 0 then Ok curr
  else udiv (u64 (u64 (2 * curr) + u64 (u64 (N - 1) * prev))) (u64 (N + 1)).

Definition percent_max_mix (a b pct_max : Z) : Z :=
  let max := if a <? b then b else a in
  let min := if b <? a then b else a in
  if 100 <? pct_max then max
  else u64 (u64 (pct_max * max) / 100 + u64 ((100 - pct_max) * min) / 100).

Definition n_ewma_count (g : cc_globals) (cc : congestion_control_t) : cres Z :=
  let* ewma_cnt :=
    (if in_slow_start cc then Ok (n_ewma_ss g)
     else
       let* rate := CWND_UPDATE_RATE cc in
       let x := u64 (rate * n_ewma_cwnd_pct g) / 100 in
       Ok (if n_ewma_max g <? x then n_ewma_max g else x)) in
  Ok (if ewma_cnt <? 2 then 2 else ewma_cnt).

(** ** Packaging cells *)

Definition enqueue_timestamp (cc : congestion_control_t) (t : Z) : congestion_control_t :=
  set_sendme_pending_timestamps (sendme_pending_timestamps cc ++ [t]) cc.

(** An empty list gives 0, after a warning about a bug. *)
Definition dequeue_timestamp (cc : congestion_control_t) : Z * congestion_control_t :=
  match sendme_pending_timestamps cc with
  | [] => (0, cc)
  | t :: ts => (t, set_sendme_pending_timestamps ts cc)
  end.

(** The part of [congestion_control_get_package_window] for a circuit with
    congestion control. *)
Definition cc_package_window (cc : congestion_control_t) : Z :=
  if cwnd cc <? inflight cc then 0
  else if INT32_MAX <? u64 (cwnd cc - inflight cc) then INT32_MAX
  else u64 (cwnd cc - inflight cc).

(** The part of [circuit_sent_cell_for_sendme] for congestion control. *)
Definition cc_sent_cell_for_sendme (cc : congestion_control_t) : cres bool :=
  if inflight cc =? 0 then Ok false
  else
    assert! (negb (inc cc =? 0));
    if negb (u64 (inflight cc + 1) mod inc cc =? 0) then Ok false else Ok true.

Definition congestion_control_note_cell_sent (cc : congestion_control_t) (now_usec : Z) : cres congestion_control_t :=
  let* b := cc_sent_cell_for_sendme cc in
  let cc := set_inflight (u64 (inflight cc + 1)) cc in
  if negb b then Ok cc else Ok (enqueue_timestamp cc now_usec).

(** ** Round-trip times *)

Definition time_delta_should_use_heuristics (cc : congestion_control_t) : bool :=
  negb (in_slow_start cc) && negb (ewma_rtt_usec cc =? 0).

Definition DELTA_DISCREPENCY_RATIO_MAX : Z := 5000.

(** The result and the new value of [is_monotime_clock_broken]. *)
Definition time_delta_stalled_or_jumped (broken : bool) (cc : congestion_control_t) (old_delta new_delta : Z) : bool * bool :=
  if new_delta =? 0 then (true, true)
  else if negb (time_delta_should_use_heuristics cc) then (false, broken)
  else if u64 (new_delta * DELTA_DISCREPENCY_RATIO_MAX) <? old_delta then (broken, broken)
  else if u64 (old_delta * DELTA_DISCREPENCY_RATIO_MAX) <? new_delta then (true, broken)
  else (false, false).

(** The part of [congestion_control_update_circuit_rtt] that updates the minimum. *)
Definition update_min_rtt (g : cc_globals) (cc : congestion_control_t) : congestion_control_t :=
  if min_rtt_usec cc =? 0 then set_min_rtt_usec (ewma_rtt_usec cc) cc
  else if (cwnd cc =? cwnd_min (cc_par cc)) && negb (in_slow_start cc) then
    set_min_rtt_usec (percent_max_mix (ewma_rtt_usec cc) (min_rtt_usec cc) (rtt_reset_pct g)) cc
  else if ewma_rtt_usec cc <? min_rtt_usec cc then set_min_rtt_usec (ewma_rtt_usec cc) cc
  else cc.

(** The round-trip time (0 when it could not be measured), the state, and the
    new [is_monotime_clock_broken]. *)
Definition congestion_control_update_circuit_rtt (g : cc_globals) (broken : bool) (cc : congestion_control_t) (now_usec : Z)
    : cres (Z * congestion_control_t * bool) :=
  let '(sent_at_timestamp, cc) := dequeue_timestamp cc in
  let rtt := u64 (now_usec - sent_at_timestamp) in
  let '(stalled, broken) := time_delta_stalled_or_jumped broken cc (ewma_rtt_usec cc) rtt in
  if stalled : bool then Ok (0, cc, broken)
  else
    let* ewma_cnt := n_ewma_count g cc in
    let* e := n_count_ewma rtt (ewma_rtt_usec cc) ewma_cnt in
    let cc := set_ewma_rtt_usec e cc in
    let cc := if max_rtt_usec cc <? rtt then set_max_rtt_usec rtt cc else cc in
    Ok (rtt, update_min_rtt g cc, broken).

(** The bandwidth-delay product when no round trip was ever measured. *)
Definition stalled_bdp (cc : congestion_control_t) (ch : chan_state) : Z :=
  if blocked_on_chan ch then
    if s64 (cwnd cc) <=? chan_q ch then cwnd_min (cc_par cc)
    else
      let x := u64 (cwnd cc - chan_q ch) in
      if x <? cwnd_min (cc_par cc) then cwnd_min (cc_par cc) else x
  else cwnd cc.

Definition congestion_control_update_circuit_bdp (cc : congestion_control_t) (ch : chan_state) (curr_rtt_usec : Z)
    : cres (bool * congestion_control_t) :=
  if ewma_rtt_usec cc =? 0 then
    let b := stalled_bdp cc ch in
    Ok (blocked_on_chan ch, set_bdp b (set_blocked_chan (blocked_on_chan ch) cc))
  else
    let* b := udiv (u64 (cwnd cc * min_rtt_usec cc)) (ewma_rtt_usec cc) in
    let cc := set_bdp b cc in
    let cc :=
      if blocked_on_chan ch then
        if negb (blocked_chan cc) then set_blocked_chan true (set_next_cc_event 0 cc) else cc
      else
        if blocked_chan cc then set_next_cc_event 0 (set_blocked_chan false cc) else cc in
    Ok (blocked_on_chan ch || negb (curr_rtt_usec =? 0), cc).

Definition congestion_control_update_circuit_estimates (g : cc_globals) (broken : bool) (cc : congestion_control_t)
    (ch : chan_state) (now_usec : Z) : cres (bool * congestion_control_t * bool) :=
  let* (curr_rtt_usec, cc, broken) := congestion_control_update_circuit_rtt g broken cc now_usec in
  let* (updated, cc) := congestion_control_update_circuit_bdp cc ch curr_rtt_usec in
  Ok (updated, cc, broken).

(** ** Tor-Vegas (congestion_control_vegas.c) *)

Definition vegas_bdp (cc : congestion_control_t) : Z := bdp cc.
Definition vegas (cc : congestion_control_t) : vegas_params_t := vegas_params (cc_par cc).

(** The argument of the log messages that can fail. *)
Definition congestion_control_vegas_log (cc : congestion_control_t) : cres Z :=
  let m := if min_rtt_usec cc <? ewma_rtt_usec cc then ewma_rtt_usec cc else min_rtt_usec cc in
  udiv (u64 (u64 (cwnd cc * 514) * 1000)) m.

Definition rfc3742_ss_inc (cc : congestion_control_t) : cres Z :=
  if cwnd cc <=? ss_cwnd_cap (vegas cc) then
    Ok (u64 (cwnd_inc_pct_ss (cc_par cc) * inc cc + 50) / 100)
  else
    let* q := udiv (u64 (inc cc * ss_cwnd_cap (vegas cc) + cwnd cc)) (u64 (2 * cwnd cc)) in
    Ok (if q <? 1 then 1 else q).

Definition congestion_control_vegas_exit_slow_start (cc : congestion_control_t) : cres congestion_control_t :=
  let* _ := congestion_control_vegas_log cc in
  let cc := set_in_slow_start false cc in
  let* _ := congestion_control_vegas_log cc in
  let* _ := rfc3742_ss_inc cc in
  Ok cc.

Definition cwnd_became_full (g : cc_globals) (cc : congestion_control_t) : bool :=
  cwnd cc <=? u64 (inflight cc + cc_vegas_cwnd_full_gap g * inc cc).

Definition cwnd_became_nonfull (g : cc_globals) (cc : congestion_control_t) : bool :=
  u64 (100 * inflight cc) <? u64 (cc_vegas_cwnd_full_minpct g * cwnd cc).

Definition cwnd_full_reset (g : cc_globals) (cc : congestion_control_t) : cres bool :=
  if negb (cc_cwnd_full_per_cwnd g =? 0) then
    let* n := SENDME_PER_CWND cc in Ok (next_cwnd_event cc =? n)
  else
    let* n := CWND_UPDATE_RATE cc in Ok (next_cc_event cc =? n).

Definition queue_use (cc : congestion_control_t) : Z :=
  if cwnd cc <? vegas_bdp cc then 0 else u64 (cwnd cc - vegas_bdp cc).

(** The branch for slow start, up to the test for the maximum. *)
Definition vegas_ss_update (q : Z) (cc : congestion_control_t) : cres congestion_control_t :=
  if (q <? gamma (vegas cc)) && negb (blocked_chan cc) then
    if cwnd_full cc then
      let* i := rfc3742_ss_inc cc in
      let cc := set_cwnd (u64 (cwnd cc + i)) cc in
      let* n := SENDME_PER_CWND cc in
      if u64 (i * n) <=? CWND_INC cc * cwnd_inc_rate (cc_par cc)
      then congestion_control_vegas_exit_slow_start cc else Ok cc
    else Ok cc
  else
    congestion_control_vegas_exit_slow_start (set_cwnd (u64 (vegas_bdp cc + gamma (vegas cc))) cc).

Definition vegas_slow_start (q : Z) (cc : congestion_control_t) : cres congestion_control_t :=
  let* cc := vegas_ss_update q cc in
  if ss_cwnd_max (vegas cc) <=? cwnd cc then
    congestion_control_vegas_exit_slow_start (set_cwnd (ss_cwnd_max (vegas cc)) cc)
  else Ok cc.

(** The branch after slow start, when [next_cc_event] is 0. *)
Definition vegas_steady (q : Z) (cc : congestion_control_t) : cres congestion_control_t :=
  let w :=
    if delta (vegas cc) <? q then u64 (vegas_bdp cc + delta (vegas cc) - CWND_INC cc)
    else if (beta (vegas cc) <? q) || blocked_chan cc then u64 (cwnd cc - CWND_INC cc)
    else if cwnd_full cc && (q <? alpha (vegas cc)) then u64 (cwnd cc + CWND_INC cc)
    else cwnd cc in
  let cc := set_cwnd (if w <? cwnd_min (cc_par cc) then cwnd_min (cc_par cc) else w) cc in
  let* _ := congestion_control_vegas_log cc in
  Ok cc.

(** From the comment on the event counters to the end. *)
Definition vegas_finish (g : cc_globals) (cc : congestion_control_t) : cres congestion_control_t :=
  let* cc :=
    (if next_cwnd_event cc =? 0 then let* n := SENDME_PER_CWND cc in Ok (set_next_cwnd_event (u16 n) cc) else Ok cc) in
  let* cc :=
    (if next_cc_event cc =? 0 then let* n := CWND_UPDATE_RATE cc in Ok (set_next_cc_event (u16 n) cc) else Ok cc) in
  let* r := cwnd_full_reset g cc in
  let cc := if r : bool then set_cwnd_full false cc else cc in
  Ok (set_inflight (u64 (inflight cc - inc cc)) cc).

Definition count_down (n : Z) : Z := if negb (n =? 0) then n - 1 else n.

(** The counters until the next congestion event and the next full window. *)
Definition ticked (cc : congestion_control_t) : congestion_control_t :=
  set_next_cwnd_event (count_down (next_cwnd_event cc)) (set_next_cc_event (count_down (next_cc_event cc)) cc).

Definition update_full (g : cc_globals) (cc : congestion_control_t) : congestion_control_t :=
  if cwnd_became_full g cc then set_cwnd_full true cc
  else if cwnd_became_nonfull g cc then set_cwnd_full false cc
  else cc.

Definition congestion_control_vegas_process_sendme (g : cc_globals) (broken : bool) (cc : congestion_control_t)
    (ch : chan_state) (now_usec : Z) : cres (congestion_control_t * bool) :=
  assert! (match cc_alg (cc_par cc) with CC_ALG_VEGAS => true | _ => false end);
  let cc := ticked cc in
  let* (updated, cc, broken) := congestion_control_update_circuit_estimates g broken cc ch now_usec in
  if negb updated then Ok (set_inflight (u64 (inflight cc - inc cc)) cc, broken)
  else
    let q := queue_use cc in
    let cc := update_full g cc in
    let* cc :=
      (if in_slow_start cc then vegas_slow_start q cc
       else if next_cc_event cc =? 0 then vegas_steady q cc
       else Ok cc) in
    let* cc := vegas_finish g cc in
    Ok (cc, broken).

(** The state, the clock flag, and the round-trip time that goes to conflux. *)
Definition congestion_control_dispatch_cc_alg (g : cc_globals) (broken : bool) (cc : congestion_control_t)
    (ch : chan_state) (conflux : bool) (now_usec : Z) : cres (congestion_control_t * bool * option Z) :=
  let* (cc, broken) := congestion_control_vegas_process_sendme g broken cc ch now_usec in
  let cc := if cwnd_max g <? cwnd cc then set_cwnd (cwnd_max g) cc else cc in
  Ok (cc, broken, if conflux && negb (ewma_rtt_usec cc =? 0) then Some (ewma_rtt_usec cc) else None).

(** ** Parameters and negotiation *)

Section Params.

(** [net_params] of the latest consensus. *)
Variable ns : option (list bytes).
Let param (name : string) (d lo hi : Z) : cres Z := networkstatus_get_param ns (s2b name) d lo hi.

Definition cc_alg_of_int (n : Z) : cc_alg_t :=
  if n =? 0 then CC_ALG_SENDME else if n =? 1 then CC_ALG_WESTWOOD else if n =? 2 then CC_ALG_VEGAS else CC_ALG_NOLA.

(** The three static variables of congestion_control_vegas.c keep their value,
    which is in [g]. *)
Definition congestion_control_new_consensus_params (g : cc_globals) : cres cc_globals :=
  let* cq_high := param "cellq_high" 256 1 1000 in
  let* cq_low := param "cellq_low" 10 1 1000 in
  let* oc_high := param "orconn_high" (32 * 1024) 509 INT32_MAX in
  let* oc_low := param "orconn_low" (16 * 1024) 509 INT32_MAX in
  let* cmax := param "cc_cwnd_max" INT32_MAX 500 INT32_MAX in
  let* reset := param "cc_rtt_reset_pct" 100 0 100 in
  let* sinc := param "cc_sendme_inc" SENDME_INC_DFLT 1 254 in
  let* alg := param "cc_alg" 2 0 3 in
  let alg := match cc_alg_of_int alg with CC_ALG_SENDME => CC_ALG_SENDME | _ => CC_ALG_VEGAS end in
  let* bwe := param "cc_bwe_min" 5 2 20 in
  let* epct := param "cc_ewma_cwnd_pct" 50 1 255 in
  let* emax := param "cc_ewma_max" 10 2 INT32_MAX in
  let* ess := param "cc_ewma_ss" 2 2 INT32_MAX in
  Ok (mkccg cmax (u8 epct) (u8 emax) (u8 ess) (u8 reset) (u8 sinc) alg (u8 bwe) cq_high cq_low oc_high oc_low
        (cc_vegas_cwnd_full_minpct g) (cc_vegas_cwnd_full_gap g) (cc_cwnd_full_per_cwnd g)).

(** The names and the defaults per kind of path: suffix, alpha, beta, gamma, delta
    and the slow-start cap. *)
Definition vegas_defaults (path : cc_path_t) : string * (Z * Z * Z * Z * Z) :=
  match path with
  | CC_PATH_SBWS => ("sbws"%string, (2 * OUTBUF_CELLS - TLS_RECORD_MAX_CELLS, 2 * OUTBUF_CELLS + TLS_RECORD_MAX_CELLS, 2 * OUTBUF_CELLS, 4 * OUTBUF_CELLS, 400))
  | CC_PATH_EXIT | CC_PATH_ONION_SOS => ("exit"%string, (3 * OUTBUF_CELLS, 4 * OUTBUF_CELLS, 3 * OUTBUF_CELLS, 5 * OUTBUF_CELLS, 600))
  | CC_PATH_ONION | CC_PATH_ONION_VG => ("onion"%string, (3 * OUTBUF_CELLS, 6 * OUTBUF_CELLS, 4 * OUTBUF_CELLS, 7 * OUTBUF_CELLS, 475))
  end.

Definition congestion_control_vegas_set_params (g : cc_globals) (path : cc_path_t) : cres (vegas_params_t * cc_globals) :=
  let '(suffix, (a, b, c, d, cap)) := vegas_defaults path in
  let* cap := param ("cc_sscap_" ++ suffix) cap 100 INT32_MAX in
  let* smax := param "cc_ss_max" 5000 500 INT32_MAX in
  let* a := param ("cc_vegas_alpha_" ++ suffix) a 0 1000 in
  let* b := param ("cc_vegas_beta_" ++ suffix) b 0 1000 in
  let* c := param ("cc_vegas_gamma_" ++ suffix) c 0 1000 in
  let* d := param ("cc_vegas_delta_" ++ suffix) d 0 INT32_MAX in
  let* minpct := param "cc_cwnd_full_minpct" 25 0 100 in
  let* gap := param "cc_cwnd_full_gap" 4 0 32767 in
  let* per := param "cc_cwnd_full_per_cwnd" 1 0 1 in
  Ok (mkvegas cap smax (u16 c) (u16 a) (u16 b) (u16 d),
      mkccg (cwnd_max g) (n_ewma_cwnd_pct g) (n_ewma_max g) (n_ewma_ss g) (rtt_reset_pct g) (cc_sendme_inc g) (g_cc_alg g)
        (bwe_sendme_min g) (cell_queue_high g) (cell_queue_low g) (or_conn_highwater g) (or_conn_lowwater g) minpct gap per).

(** [congestion_control_new]: [sendme_inc_cells] is the negotiated increment, [always]
    the option AlwaysCongestionControl.  With [CC_ALG_SENDME] the parameters of Vegas
    stay zero. *)
Definition congestion_control_new (g : cc_globals) (always : bool) (sendme_inc_cells : Z) (path : cc_path_t)
    : cres (congestion_control_t * cc_globals) :=
  let* w := param "cc_cwnd_init" CIRCWINDOW_INIT SENDME_INC_DFLT 10000 in
  let* pct := param "cc_cwnd_inc_pct_ss" 100 1 500 in
  let* ci := param "cc_cwnd_inc" 1 1 1000 in
  let* rate := param "cc_cwnd_inc_rate" SENDME_INC_DFLT 1 250 in
  let* wmin := param "cc_cwnd_min" CIRCWINDOW_INIT SENDME_INC_DFLT 1000 in
  let alg := match g_cc_alg g with CC_ALG_SENDME => if always then CC_ALG_VEGAS else CC_ALG_SENDME | a => a end in
  let* (v, g) :=
    match alg with
    | CC_ALG_VEGAS => congestion_control_vegas_set_params g path
    | _ => Ok (mkvegas 0 0 0 0 0 0, g)
    end in
  let cc := mkcc (mkccp (u16 pct) (u16 ci) (u16 wmin) (u8 rate) sendme_inc_cells alg v) [] 0 0 0 0 w 0 0 0 true false false in
  let* n := CWND_UPDATE_RATE cc in
  Ok (set_next_cc_event (u16 n) cc, g).

End Params.

Definition TRUNNEL_EXT_TYPE_CC_FIELD_REQUEST : Z := 1.
Definition TRUNNEL_EXT_TYPE_CC_FIELD_RESPONSE : Z := 2.

Definition congestion_control_enabled (always : bool) (alg : cc_alg_t) : bool :=
  if always then true else match alg with CC_ALG_SENDME => false | _ => true end.

(** Adds the request field; [num] is set by the caller. *)
Definition congestion_control_build_ext_request (enabled : bool) (ext : trn_extension_t) : trn_extension_t :=
  if enabled then mkext (ext_num ext) (ext_fields ext ++ [mkfield TRUNNEL_EXT_TYPE_CC_FIELD_REQUEST 0 []]) else ext.

Definition congestion_control_parse_ext_request (ext : trn_extension_t) : cres bool :=
  let* f := trn_extension_find ext TRUNNEL_EXT_TYPE_CC_FIELD_REQUEST in
  Ok (match f with None => false | Some _ => true end).

(** [our_inc] is [our_params->sendme_inc_cells], [cc_enabled] is
    [circ_params->cc_enabled]. *)
Definition congestion_control_build_ext_response (our_inc : Z) (cc_enabled : bool) : cres bytes :=
  let* ext :=
    (if cc_enabled then
       match trn_extension_field_cc_encode 1 our_inc with
       | TOk b => Ok (mkext 1 [mkfield TRUNNEL_EXT_TYPE_CC_FIELD_RESPONSE 1 b])
       | _ => Err
       end
     else Ok (mkext 0 [])) in
  let len := trn_extension_encoded_len ext in
  if len <? 0 then Err
  else match trn_extension_encode len ext with TOk b => Ok b | TBug => Bug | _ => Err end.

Definition congestion_control_validate_sendme_increment (cc_sendme_inc sendme_inc : Z) : bool :=
  if sendme_inc =? 0 then false
  else if (cc_sendme_inc + 1 <? sendme_inc) || (sendme_inc <? cc_sendme_inc - 1) then false
  else true.

(** [Ok None]: congestion control is off; [Ok (Some n)]: it is on with increment
    [n]; [Err]: -1. *)
Definition congestion_control_parse_ext_response (cc_sendme_inc : Z) (ext : trn_extension_t) : cres (option Z) :=
  let* f := trn_extension_find ext TRUNNEL_EXT_TYPE_CC_FIELD_RESPONSE in
  match f with
  | None => Ok None
  | Some f =>
      match trn_extension_field_cc_parse (field f) with
      | TOk (n, _) => if congestion_control_validate_sendme_increment cc_sendme_inc n then Ok (Some n) else Err
      | _ => Err
      end
  end.

(** ** The invariant *)

Lemma u64_id x : 0 <= x < 2 ^ 64 -> u64 x = x.
Proof. intros H. unfold u64. by apply Z.mod_small. Qed.

Lemma u16_range x : 0 <= u16 x < 65536.
Proof. unfold u16. pose proof (Z.mod_pos_bound x (2 ^ 16)). lia. Qed.

Lemma udiv_ok a b : 0 < b -> udiv a b = Ok (a / b).
Proof. intros H. unfold udiv. by rewrite (proj2 (Z.eqb_neq _ _)) by lia. Qed.

Record globals_ok (g : cc_globals) : Prop := mk_globals_ok {
  go_max : 500 <= cwnd_max g <= INT32_MAX;
  go_pct : 0 <= n_ewma_cwnd_pct g < 256;
  go_ewma_max : 0 <= n_ewma_max g < 256;
  go_ewma_ss : 0 <= n_ewma_ss g < 256;
  go_reset : 0 <= rtt_reset_pct g <= 100;
  go_minpct : 0 <= cc_vegas_cwnd_full_minpct g <= 100;
  go_gap : 0 <= cc_vegas_cwnd_full_gap g <= 32767
}.

(** Round trips up to this limit (about eighteen minutes) leave room for the
    products in 64 bits. *)
Definition RTT_LIMIT : Z := 2 ^ 30.

Section Invariant.

(** [F] is a lower bound of the window, at least one increment of the window. *)
Variables (g : cc_globals) (F : Z).

Record params_ok (p : cc_params_t) : Prop := mk_params_ok {
  po_alg : cc_alg p = CC_ALG_VEGAS;
  po_pct : 1 <= cwnd_inc_pct_ss p <= 500;
  po_inc : 1 <= cwnd_inc p <= F;
  po_min : F <= cwnd_min p <= 1000;
  po_rate : 1 <= cwnd_inc_rate p <= 255;
  po_sendme : 2 <= sendme_inc p <= 255;
  po_cap : 0 <= ss_cwnd_cap (vegas_params p) <= INT32_MAX;
  po_ssmax : F <= ss_cwnd_max (vegas_params p) <= INT32_MAX;
  po_gamma : F <= gamma (vegas_params p) < 65536;
  po_alpha : 0 <= alpha (vegas_params p) < 65536;
  po_beta : 0 <= beta (vegas_params p) < 65536;
  po_delta : cwnd_inc p <= delta (vegas_params p) < 65536
}.

Record rtt_ok (cc : congestion_control_t) : Prop := mk_rtt_ok {
  ro_ewma : 0 <= ewma_rtt_usec cc <= RTT_LIMIT;
  ro_min : 0 <= min_rtt_usec cc <= RTT_LIMIT;
  ro_zero : ewma_rtt_usec cc = 0 -> min_rtt_usec cc = 0
}.

Record cc_ok (cc : congestion_control_t) : Prop := mk_cc_ok {
  co_par : params_ok (cc_par cc);
  co_cwnd : F <= cwnd cc <= cwnd_max g;
  co_inflight : 0 <= inflight cc <= cwnd_max g;
  co_ts : zlen (sendme_pending_timestamps cc) = inflight cc / inc cc;
  co_rtt : rtt_ok cc;
  co_next_cc : 0 <= next_cc_event cc < 65536;
  co_next_cwnd : 0 <= next_cwnd_event cc < 65536
}.

Hypothesis Hg : globals_ok g.
Hypothesis HF : 1 <= F <= cwnd_max g.

Lemma inc_pos cc : params_ok (cc_par cc) -> 2 <= inc cc <= 255.
Proof. intros [*]. done. Qed.

Lemma rate_ok cc :
  params_ok (cc_par cc) -> 0 <= cwnd cc <= 2 ^ 33 -> exists r, CWND_UPDATE_RATE cc = Ok r /\ 0 <= r <= 2 ^ 34.
Proof.
  intros Hp Hc. unfold CWND_UPDATE_RATE. destruct (in_slow_start cc); [exists 1; split; [done|lia]|].
  pose proof (inc_pos cc Hp) as Hi. pose proof (po_rate _ Hp) as Hr. set (ri := cwnd_inc_rate (cc_par cc) * inc cc).
  assert (Hri : 2 <= ri <= 65025) by (unfold ri; nia). assert (0 <= ri / 2 <= 65025) by (Z.to_euclidean_division_equations; lia).
  rewrite udiv_ok, u64_id by lia. eexists. split; [done|]. Z.to_euclidean_division_equations; nia.
Qed.

Lemma per_cwnd_ok cc :
  params_ok (cc_par cc) -> 0 <= cwnd cc <= 2 ^ 33 -> exists n, SENDME_PER_CWND cc = Ok n /\ 0 <= n <= 2 ^ 34.
Proof.
  intros Hp Hc. unfold SENDME_PER_CWND. pose proof (inc_pos cc Hp) as Hi.
  assert (0 <= inc cc / 2 <= 255) by (Z.to_euclidean_division_equations; lia).
  rewrite udiv_ok, u64_id by lia. eexists. split; [done|]. Z.to_euclidean_division_equations; nia.
Qed.

(** *** The round-trip times, in exact arithmetic *)

(** The time since the cell that the SENDME acknowledges was sent. *)
Definition sendme_rtt (cc : congestion_control_t) (now_usec : Z) : Z := now_usec - default 0 (head (sendme_pending_timestamps cc)).

(** The clock moved, and after slow start the time is within a factor of 5000 of the average; a time that is
    much shorter counts as long as the clock was not known to be broken. *)
Definition rtt_usable (broken : bool) (cc : congestion_control_t) (rtt : Z) : bool :=
  (1 <=? rtt)
  && (in_slow_start cc || (ewma_rtt_usec cc =? 0)
      || negb (broken && (5000 * rtt <? ewma_rtt_usec cc)) && (rtt <=? 5000 * ewma_rtt_usec cc)).

(** The weight of the average: a share of the SENDMEs per update, within bounds. *)
Definition ewma_count_spec (cc : congestion_control_t) : Z :=
  let ri := cwnd_inc_rate (cc_par cc) * inc cc in
  Z.max 2 (if in_slow_start cc then n_ewma_ss g else Z.min (n_ewma_max g) ((cwnd cc + ri / 2) / ri * n_ewma_cwnd_pct g / 100)).

Definition ewma_spec (cc : congestion_control_t) (rtt : Z) : Z :=
  let n := ewma_count_spec cc in
  if ewma_rtt_usec cc =? 0 then rtt else (2 * rtt + (n - 1) * ewma_rtt_usec cc) / (n + 1).

(** The minimum follows the average when the window is at its minimum. *)
Definition min_rtt_spec (cc : congestion_control_t) (e : Z) : Z :=
  let m := min_rtt_usec cc in
  if m =? 0 then e
  else if (cwnd cc =? cwnd_min (cc_par cc)) && negb (in_slow_start cc)
  then rtt_reset_pct g * Z.max e m / 100 + (100 - rtt_reset_pct g) * Z.min e m / 100
  else Z.min e m.

(** The average and the minimum after a SENDME. *)
Definition ewma_after (broken : bool) (cc : congestion_control_t) (now_usec : Z) : Z :=
  if rtt_usable broken cc (sendme_rtt cc now_usec) then ewma_spec cc (sendme_rtt cc now_usec) else ewma_rtt_usec cc.

Definition min_rtt_after (broken : bool) (cc : congestion_control_t) (now_usec : Z) : Z :=
  if rtt_usable broken cc (sendme_rtt cc now_usec) then min_rtt_spec cc (ewma_spec cc (sendme_rtt cc now_usec)) else min_rtt_usec cc.

Lemma ewma_count_ok cc :
  params_ok (cc_par cc) -> 0 <= cwnd cc <= 2 ^ 33 -> n_ewma_count g cc = Ok (ewma_count_spec cc) /\ 2 <= ewma_count_spec cc <= 255.
Proof.
  intros Hp Hc. unfold n_ewma_count, ewma_count_spec. destruct Hg. destruct (in_slow_start cc) eqn:E; cbn [cbind].
  - split; [f_equal; zcase; lia|lia].
  - destruct (rate_ok cc Hp Hc) as (r & Er & Hr). rewrite Er. cbn [cbind]. unfold CWND_UPDATE_RATE in Er. rewrite E in Er.
    pose proof (inc_pos cc Hp) as Hi. pose proof (po_rate _ Hp) as Hra. set (ri := cwnd_inc_rate (cc_par cc) * inc cc) in *.
    assert (2 <= ri <= 65025) by (unfold ri; nia). assert (0 <= ri / 2 <= 65025) by (Z.to_euclidean_division_equations; lia).
    rewrite udiv_ok, u64_id in Er by lia. injection Er as Er. rewrite Er.
    assert (0 <= r * n_ewma_cwnd_pct g <= 2 ^ 42) by nia. rewrite u64_id by lia.
    assert (0 <= r * n_ewma_cwnd_pct g / 100) by (apply Z.div_pos; lia). destruct (Z.ltb_spec (n_ewma_max g) (r * n_ewma_cwnd_pct g / 100)); (split; [f_equal; zcase; lia|lia]).
Qed.

Lemma ewma_ok curr prev n :
  1 <= curr <= RTT_LIMIT -> 0 <= prev <= RTT_LIMIT -> 2 <= n <= 255 ->
  exists e, n_count_ewma curr prev n = Ok e /\ 1 <= e <= RTT_LIMIT /\ e = if prev =? 0 then curr else (2 * curr + (n - 1) * prev) / (n + 1).
Proof.
  unfold RTT_LIMIT. intros Hc Hp Hn. unfold n_count_ewma. zcase; [by exists curr|].
  rewrite (u64_id (n - 1)), (u64_id (2 * curr)), (u64_id ((n - 1) * prev)), (u64_id (n + 1)), u64_id, udiv_ok by nia.
  eexists. split; [done|]. split; [|done]. split; [apply Z.div_le_lower_bound; nia|apply Z.div_le_upper_bound; nia].
Qed.

Lemma mix_ok a b pct :
  1 <= a <= RTT_LIMIT -> 1 <= b <= RTT_LIMIT -> 0 <= pct <= 100 ->
  0 <= percent_max_mix a b pct <= Z.max a b /\ percent_max_mix a b pct = pct * Z.max a b / 100 + (100 - pct) * Z.min a b / 100.
Proof.
  unfold RTT_LIMIT. intros Ha Hb Hp. unfold percent_max_mix. rewrite (proj2 (Z.ltb_ge 100 pct)) by lia.
  set (mx := if a <? b then b else a). set (mn := if b <? a then b else a).
  assert (Hmx : mx = Z.max a b) by (unfold mx; zcase; lia). assert (Hmn : mn = Z.min a b) by (unfold mn; zcase; lia).
  rewrite (u64_id (pct * mx)), (u64_id ((100 - pct) * mn)) by nia.
  assert (H1 : pct * mx / 100 + (100 - pct) * mn / 100 <= mx).
  { assert (pct * mx + (100 - pct) * mn <= 100 * mx) by nia. Z.to_euclidean_division_equations; lia. }
  assert (0 <= pct * mx / 100) by (apply Z.div_pos; nia). assert (0 <= (100 - pct) * mn / 100) by (apply Z.div_pos; nia).
  rewrite u64_id, <- Hmx, <- Hmn by lia. lia.
Qed.

(** *** The estimates *)

(** The SENDME acknowledges a cell sent at the head of the list, not longer ago than
    the limit. *)
Definition in_time (cc : congestion_control_t) (now_usec : Z) : Prop :=
  exists t ts, sendme_pending_timestamps cc = t :: ts /\ 0 <= now_usec - t <= RTT_LIMIT.

(** What the update of the round-trip times leaves alone. *)
Definition same_window (cc cc' : congestion_control_t) : Prop :=
  cc_par cc' = cc_par cc /\ cwnd cc' = cwnd cc /\ inflight cc' = inflight cc
  /\ in_slow_start cc' = in_slow_start cc /\ cwnd_full cc' = cwnd_full cc.

Lemma update_min_rtt_ok cc :
  1 <= ewma_rtt_usec cc <= RTT_LIMIT -> 0 <= min_rtt_usec cc <= RTT_LIMIT ->
  update_min_rtt g cc = set_min_rtt_usec (min_rtt_spec cc (ewma_rtt_usec cc)) cc /\ 0 <= min_rtt_spec cc (ewma_rtt_usec cc) <= RTT_LIMIT.
Proof.
  intros He Hm. destruct Hg. unfold update_min_rtt, min_rtt_spec. destruct (Z.eqb_spec (min_rtt_usec cc) 0); [split; [done|lia]|].
  destruct (_ && _).
  - destruct (mix_ok (ewma_rtt_usec cc) (min_rtt_usec cc) (rtt_reset_pct g)) as [H1 H2]; [lia..|]. rewrite <- H2. split; [done|lia].
  - zcase; [rewrite Z.min_l by lia; split; [done|lia]|]. rewrite Z.min_r by lia. split; [by destruct cc|done].
Qed.

(** Whether the time can be used. *)
Lemma usable_ok broken cc rtt :
  0 <= rtt <= RTT_LIMIT -> 0 <= ewma_rtt_usec cc <= RTT_LIMIT ->
  fst (time_delta_stalled_or_jumped broken cc (ewma_rtt_usec cc) rtt) = negb (rtt_usable broken cc rtt).
Proof.
  unfold RTT_LIMIT. intros Hr He. unfold time_delta_stalled_or_jumped, rtt_usable, time_delta_should_use_heuristics, DELTA_DISCREPENCY_RATIO_MAX.
  rewrite !u64_id by lia. destruct (Z.eqb_spec rtt 0) as [->|]; [done|]. rewrite (proj2 (Z.leb_le 1 rtt)) by lia. rewrite <- negb_orb, negb_involutive. cbn [andb].
  destruct (in_slow_start cc || _); [done|]. rewrite (Z.mul_comm rtt), (Z.mul_comm (ewma_rtt_usec cc)).
  destruct (Z.ltb_spec (5000 * rtt) (ewma_rtt_usec cc)), (Z.ltb_spec (5000 * ewma_rtt_usec cc) rtt), (Z.leb_spec rtt (5000 * ewma_rtt_usec cc)); try lia; by destruct broken.
Qed.

Lemma update_rtt_ok broken cc now_usec :
  params_ok (cc_par cc) -> F <= cwnd cc <= cwnd_max g -> rtt_ok cc -> in_time cc now_usec ->
  exists cc' broken', congestion_control_update_circuit_rtt g broken cc now_usec
      = Ok (if rtt_usable broken cc (sendme_rtt cc now_usec) then sendme_rtt cc now_usec else 0, cc', broken')
    /\ same_window cc cc' /\ rtt_ok cc'
    /\ sendme_pending_timestamps cc' = tail (sendme_pending_timestamps cc)
    /\ next_cc_event cc' = next_cc_event cc /\ next_cwnd_event cc' = next_cwnd_event cc /\ blocked_chan cc' = blocked_chan cc
    /\ ewma_rtt_usec cc' = ewma_after broken cc now_usec /\ min_rtt_usec cc' = min_rtt_after broken cc now_usec
    /\ (rtt_usable broken cc (sendme_rtt cc now_usec) = true -> 1 <= sendme_rtt cc now_usec /\ 1 <= ewma_rtt_usec cc').
Proof.
  intros Hp Hc [R1 R2 R3] (t & ts & Ets & Hrtt). destruct Hg. unfold congestion_control_update_circuit_rtt, dequeue_timestamp, ewma_after, min_rtt_after.
  assert (sendme_rtt cc now_usec = now_usec - t) as -> by (unfold sendme_rtt; by rewrite Ets).
  rewrite Ets. cbn [tail]. unfold RTT_LIMIT in *. rewrite (u64_id (now_usec - t)) by lia.
  set (cc1 := set_sendme_pending_timestamps ts cc). pose proof (usable_ok broken cc1 (now_usec - t) Hrtt R1) as Hu.
  change (rtt_usable broken cc1 (now_usec - t)) with (rtt_usable broken cc (now_usec - t)) in Hu.
  destruct (time_delta_stalled_or_jumped broken cc1 (ewma_rtt_usec cc1) (now_usec - t)) as [st br]. cbn [fst] in Hu. subst st.
  destruct (rtt_usable broken cc (now_usec - t)) eqn:Eu; cbn [negb]; [|exists cc1, br; split_and!; [done|done|done|done|done|by constructor|done..]].
  assert (Hpos : 1 <= now_usec - t) by (unfold rtt_usable in Eu; blia).
  destruct (ewma_count_ok cc1) as [-> Hn]; [done|unfold INT32_MAX in *; cbn; lia|]. cbn [cbind]. change (ewma_count_spec cc1) with (ewma_count_spec cc) in *.
  destruct (ewma_ok (now_usec - t) (ewma_rtt_usec cc1) (ewma_count_spec cc)) as (e & -> & He & Ee); [unfold RTT_LIMIT; lia|unfold RTT_LIMIT; cbn; lia|done|].
  cbn [cbind]. change (ewma_rtt_usec cc1) with (ewma_rtt_usec cc) in Ee. fold (ewma_spec cc (now_usec - t)) in Ee. rewrite <- Ee. set (cc2 := if max_rtt_usec _ <? _ then _ else _).
  assert (H2 : ewma_rtt_usec cc2 = e /\ min_rtt_usec cc2 = min_rtt_usec cc /\ same_window cc cc2
    /\ sendme_pending_timestamps cc2 = ts /\ next_cc_event cc2 = next_cc_event cc /\ next_cwnd_event cc2 = next_cwnd_event cc
    /\ blocked_chan cc2 = blocked_chan cc /\ min_rtt_spec cc2 e = min_rtt_spec cc e) by (unfold cc2; zcase; done).
  destruct H2 as (E1 & E2 & E3 & E4 & E5 & E6 & E7 & E8).
  destruct (update_min_rtt_ok cc2) as [-> Hm]; [by rewrite E1|rewrite E2; unfold RTT_LIMIT; lia|]. rewrite E1, E8 in *.
  exists (set_min_rtt_usec (min_rtt_spec cc e) cc2), br. split; [done|]. split; [exact E3|].
  split; [constructor; cbn; [rewrite E1; unfold RTT_LIMIT in *; lia|done|rewrite E1; lia]|].
  cbn. rewrite E1. split_and!; done || lia.
Qed.

(** *** The bandwidth-delay product *)

(** Exact arithmetic. *)
Definition bdp_spec (cc : congestion_control_t) : Z := cwnd cc * min_rtt_usec cc / ewma_rtt_usec cc.

(** The window is looked at when a round trip was measured or the channel is blocked. *)
Definition updates (broken : bool) (ch : chan_state) (now_usec : Z) (cc : congestion_control_t) : bool :=
  rtt_usable broken cc (sendme_rtt cc now_usec) || blocked_on_chan ch.

(** The next congestion event is due at once when the channel got blocked or free. *)
Definition next_cc_after (ch : chan_state) (cc : congestion_control_t) : Z :=
  if Bool.eqb (blocked_on_chan ch) (blocked_chan cc) then next_cc_event cc else 0.

Record estimates_ok (broken : bool) (ch : chan_state) (now_usec : Z) (cc : congestion_control_t) (updated : bool) (cc' : congestion_control_t) : Prop := mk_est {
  es_same : same_window cc cc';
  es_rtt : rtt_ok cc';
  es_ts : sendme_pending_timestamps cc' = tail (sendme_pending_timestamps cc);
  es_next_cc : next_cc_event cc' = 0 \/ next_cc_event cc' = next_cc_event cc;
  es_next_cwnd : next_cwnd_event cc' = next_cwnd_event cc;
  es_blocked : blocked_chan cc' = blocked_on_chan ch;
  es_ewma : ewma_rtt_usec cc' = ewma_after broken cc now_usec;
  es_min : min_rtt_usec cc' = min_rtt_after broken cc now_usec;
  es_updated : updated = updates broken ch now_usec cc;
  es_bdp : updated = true -> 1 <= ewma_rtt_usec cc' /\ bdp cc' = bdp_spec cc' /\ next_cc_event cc' = next_cc_after ch cc
}.

(** The clock moved since the cell was sent, or earlier round trips were
    measured, or the channel takes cells. *)
Definition clock_ok (cc : congestion_control_t) (ch : chan_state) (now_usec : Z) : Prop :=
  ewma_rtt_usec cc <> 0 \/ blocked_on_chan ch = false \/ head (sendme_pending_timestamps cc) <> Some now_usec.

Lemma estimates_total broken cc ch now_usec :
  params_ok (cc_par cc) -> F <= cwnd cc <= cwnd_max g -> rtt_ok cc -> in_time cc now_usec -> clock_ok cc ch now_usec ->
  exists updated cc' broken', congestion_control_update_circuit_estimates g broken cc ch now_usec = Ok (updated, cc', broken')
    /\ estimates_ok broken ch now_usec cc updated cc'.
Proof.
  intros Hp Hc Hr Hf Hck. unfold congestion_control_update_circuit_estimates.
  destruct (update_rtt_ok broken cc now_usec Hp Hc Hr Hf) as (cc1 & br & -> & Hs & Hr1 & Ht & N1 & N2 & N3 & X1 & X2 & X3). cbn [cbind].
  destruct Hs as (S1 & S2 & S3 & S4 & S5). unfold congestion_control_update_circuit_bdp.
  destruct (Z.eqb_spec (ewma_rtt_usec cc1) 0) as [E|E]; cbn [cbind].
  - destruct (rtt_usable broken cc (sendme_rtt cc now_usec)) eqn:Eu; [destruct (X3 eq_refl); lia|].
    assert (blocked_on_chan ch = false) as Eb.
    { rewrite X1 in E. unfold ewma_after in E. rewrite Eu in E. destruct Hck as [?|[?|Hh]]; [done|done|]. exfalso. apply Hh.
      destruct Hf as (t & ts & Ets & Hrtt). rewrite Ets. cbn [head]. f_equal. unfold rtt_usable, sendme_rtt in Eu. rewrite Ets, E, orb_true_r in Eu. cbn in Eu. rewrite andb_true_r in Eu. blia. }
    do 3 eexists. split; [done|]. split; cbn; [done|by destruct Hr1; constructor|done|by right|done|done|done|done|unfold updates; by rewrite Eu|congruence].
  - destruct Hg, Hr1 as [R1 R2 R3]. unfold RTT_LIMIT, INT32_MAX in *. rewrite udiv_ok, u64_id by nia. cbn [cbind].
    do 3 eexists. split; [done|]. assert (blocked_on_chan ch || negb ((if rtt_usable broken cc (sendme_rtt cc now_usec) then sendme_rtt cc now_usec else 0) =? 0) = updates broken ch now_usec cc) as ->.
    { unfold updates. rewrite orb_comm. f_equal. destruct (rtt_usable broken cc _); [|done]. destruct (X3 eq_refl). by rewrite (proj2 (Z.eqb_neq _ _)) by lia. }
    destruct (blocked_on_chan ch) eqn:Eb; destruct (blocked_chan cc1) eqn:Ec; cbn [blocked_chan set_bdp negb]; rewrite ?Ec; cbn [negb];
      (split; cbn; [done|by constructor|done|first [by left|by right]|congruence|congruence|done|done|done|intros _; split; [lia|split; [by unfold bdp_spec; cbn|unfold next_cc_after; rewrite ?Eb, <- ?N3, ?Ec; cbn; first [done|congruence]]]]).
Qed.

(** *** The window, in exact arithmetic *)

Definition ss_inc_spec (cc : congestion_control_t) : Z :=
  if cwnd cc <=? ss_cwnd_cap (vegas cc) then (cwnd_inc_pct_ss (cc_par cc) * inc cc + 50) / 100
  else Z.max 1 ((inc cc * ss_cwnd_cap (vegas cc) + cwnd cc) / (2 * cwnd cc)).

(** The queue that the window builds up above the bandwidth-delay product. *)
Definition queue_spec (cc : congestion_control_t) : Z := Z.max 0 (cwnd cc - bdp cc).

(** In slow start. *)
Definition grow_spec (cc : congestion_control_t) : Z :=
  Z.min (ss_cwnd_max (vegas cc))
    (if (queue_spec cc <? gamma (vegas cc)) && negb (blocked_chan cc)
     then if cwnd_full cc then cwnd cc + ss_inc_spec cc else cwnd cc
     else bdp cc + gamma (vegas cc)).

(** After it, once per window. *)
Definition react_spec (cc : congestion_control_t) : Z :=
  let q := queue_spec cc in
  Z.max (cwnd_min (cc_par cc))
    (if delta (vegas cc) <? q then bdp cc + delta (vegas cc) - CWND_INC cc
     else if (beta (vegas cc) <? q) || blocked_chan cc then cwnd cc - CWND_INC cc
     else if cwnd_full cc && (q <? alpha (vegas cc)) then cwnd cc + CWND_INC cc
     else cwnd cc).

Definition window_spec (cc : congestion_control_t) : Z :=
  if in_slow_start cc then grow_spec cc else if next_cc_event cc =? 0 then react_spec cc else cwnd cc.

Lemma set_cwnd_id cc : set_cwnd (cwnd cc) cc = cc.
Proof. by destruct cc. Qed.

Lemma set_ss_id cc b : in_slow_start cc = b -> set_in_slow_start b cc = cc.
Proof. intros <-. by destruct cc. Qed.

Lemma log_ok cc : 1 <= ewma_rtt_usec cc -> exists v, congestion_control_vegas_log cc = Ok v.
Proof. intros He. unfold congestion_control_vegas_log. rewrite udiv_ok by (zcase; lia). by eexists. Qed.

Lemma ss_inc_ok cc :
  params_ok (cc_par cc) -> 0 <= cwnd cc < 2 ^ 62 -> rfc3742_ss_inc cc = Ok (ss_inc_spec cc).
Proof.
  intros Hp Hc. pose proof (inc_pos cc Hp) as Hi. destruct Hp. unfold rfc3742_ss_inc, ss_inc_spec, vegas, INT32_MAX in *.
  destruct (Z.leb_spec (cwnd cc) (ss_cwnd_cap (vegas_params (cc_par cc)))); [by rewrite u64_id by nia|].
  rewrite (u64_id (2 * cwnd cc)), u64_id, udiv_ok by nia. cbn [cbind]. f_equal. zcase; lia.
Qed.

Lemma ss_inc_range cc :
  params_ok (cc_par cc) -> 1 <= cwnd cc -> 0 <= ss_inc_spec cc <= 1276.
Proof.
  intros Hp Hc. pose proof (inc_pos cc Hp) as Hi. destruct Hp. unfold ss_inc_spec, vegas in *. zcase.
  - assert (cwnd_inc_pct_ss (cc_par cc) * inc cc <= 500 * 255) by nia. split; [apply Z.div_pos; nia|].
    apply Z.div_le_upper_bound; nia.
  - split; [lia|]. apply Z.max_lub; [lia|]. apply Z.div_le_upper_bound; nia.
Qed.

Lemma exit_ok cc :
  params_ok (cc_par cc) -> 0 <= cwnd cc < 2 ^ 62 -> 1 <= ewma_rtt_usec cc ->
  congestion_control_vegas_exit_slow_start cc = Ok (set_in_slow_start false cc).
Proof.
  intros Hp Hc He. unfold congestion_control_vegas_exit_slow_start. destruct (log_ok cc He) as [v ->]. cbn [cbind].
  destruct (log_ok (set_in_slow_start false cc) He) as [w ->]. cbn [cbind]. by rewrite ss_inc_ok.
Qed.

Lemma queue_use_ok cc : 0 <= bdp cc -> 0 <= cwnd cc < 2 ^ 62 -> queue_use cc = queue_spec cc.
Proof. intros Hb Hc. unfold queue_use, queue_spec, vegas_bdp. zcase; [lia|]. rewrite u64_id; lia. Qed.

(** The window of slow start before the maximum is applied. *)
Definition ss_window (cc : congestion_control_t) : Z :=
  if (queue_spec cc <? gamma (vegas cc)) && negb (blocked_chan cc)
  then if cwnd_full cc then cwnd cc + ss_inc_spec cc else cwnd cc
  else bdp cc + gamma (vegas cc).

Lemma ss_window_range cc :
  params_ok (cc_par cc) -> 1 <= cwnd cc <= cwnd_max g -> 0 <= bdp cc < 2 ^ 61 -> 0 <= ss_window cc < 2 ^ 62.
Proof.
  intros Hp Hc Hb. pose proof (ss_inc_range cc Hp ltac:(lia)) as Hi. pose proof (go_max _ Hg). pose proof (po_gamma _ Hp).
  unfold ss_window, vegas, INT32_MAX in *. repeat case_match; lia.
Qed.

Lemma ss_update_ok cc :
  params_ok (cc_par cc) -> 1 <= cwnd cc <= cwnd_max g -> 0 <= bdp cc < 2 ^ 61 -> 1 <= ewma_rtt_usec cc ->
  in_slow_start cc = true ->
  exists b, vegas_ss_update (queue_spec cc) cc = Ok (set_in_slow_start b (set_cwnd (ss_window cc) cc)).
Proof.
  intros Hp Hc Hb He Hs. pose proof (ss_window_range cc Hp Hc Hb) as Hw. pose proof (ss_inc_range cc Hp ltac:(lia)) as Hi.
  pose proof (go_max _ Hg) as Hm. unfold INT32_MAX in Hm. unfold vegas_ss_update, ss_window in *. destruct (_ && _).
  - destruct (cwnd_full cc).
    + rewrite ss_inc_ok by (done || lia). cbn [cbind]. rewrite u64_id by lia. cbv zeta.
      destruct (per_cwnd_ok (set_cwnd (cwnd cc + ss_inc_spec cc) cc)) as (n & -> & _); [done|cbn; lia|]. cbn [cbind].
      destruct (_ <=? _); [exists false; by apply exit_ok|exists true; rewrite set_ss_id; done].
    + exists true. rewrite set_cwnd_id, set_ss_id; done.
  - exists false. unfold vegas_bdp. rewrite u64_id by lia. by apply exit_ok.
Qed.

Lemma slow_start_ok cc :
  params_ok (cc_par cc) -> 1 <= cwnd cc <= cwnd_max g -> 0 <= bdp cc < 2 ^ 61 -> 1 <= ewma_rtt_usec cc ->
  in_slow_start cc = true ->
  exists b, vegas_slow_start (queue_spec cc) cc = Ok (set_in_slow_start b (set_cwnd (grow_spec cc) cc)).
Proof.
  intros Hp Hc Hb He Hs. destruct (ss_update_ok cc Hp Hc Hb He Hs) as (b & Hu). unfold vegas_slow_start. rewrite Hu. cbn [cbind].
  unfold grow_spec. fold (ss_window cc). set (w := ss_window cc).
  change (vegas (set_in_slow_start b (set_cwnd w cc))) with (vegas cc).
  change (cwnd (set_in_slow_start b (set_cwnd w cc))) with w. zcase.
  - exists false. rewrite exit_ok; [|done|cbn|done]; [rewrite Z.min_l by lia; done|].
    pose proof (po_ssmax _ Hp). unfold vegas, INT32_MAX in *. lia.
  - exists b. rewrite Z.min_r by lia. done.
Qed.

Lemma steady_ok cc :
  params_ok (cc_par cc) -> F <= cwnd cc <= cwnd_max g -> 0 <= bdp cc < 2 ^ 61 -> 1 <= ewma_rtt_usec cc ->
  vegas_steady (queue_spec cc) cc = Ok (set_cwnd (react_spec cc) cc).
Proof.
  intros Hp Hc Hb He. destruct Hg. unfold INT32_MAX in *. unfold vegas_steady.
  set (w := if delta (vegas cc) <? queue_spec cc then bdp cc + delta (vegas cc) - CWND_INC cc
     else if (beta (vegas cc) <? queue_spec cc) || blocked_chan cc then cwnd cc - CWND_INC cc
     else if cwnd_full cc && (queue_spec cc <? alpha (vegas cc)) then cwnd cc + CWND_INC cc
     else cwnd cc).
  replace (if delta (vegas cc) <? queue_spec cc then _ else _) with w.
  2:{ pose proof (po_inc _ Hp). pose proof (po_delta _ Hp). pose proof (po_min _ Hp). unfold w, CWND_INC, vegas, vegas_bdp in *.
      repeat case_match; rewrite ?u64_id; lia. }
  unfold react_spec. fold w.
  assert ((if w <? cwnd_min (cc_par cc) then cwnd_min (cc_par cc) else w) = Z.max (cwnd_min (cc_par cc)) w) as -> by (zcase; lia).
  destruct (log_ok (set_cwnd (Z.max (cwnd_min (cc_par cc)) w) cc) He) as [v ->]. done.
Qed.

Lemma window_ok cc :
  params_ok (cc_par cc) -> F <= cwnd cc <= cwnd_max g -> 0 <= bdp cc < 2 ^ 61 ->
  F <= window_spec cc < 2 ^ 32 + 2 ^ 12.
Proof.
  intros Hp Hc Hb. pose proof (ss_inc_range cc Hp ltac:(lia)) as Hi. destruct Hg. unfold INT32_MAX in *.
  pose proof (po_inc _ Hp). pose proof (po_delta _ Hp). pose proof (po_min _ Hp). pose proof (po_gamma _ Hp). pose proof (po_ssmax _ Hp).
  unfold window_spec, grow_spec, react_spec, vegas, CWND_INC, INT32_MAX, queue_spec in *. cbv zeta.
  repeat case_match; boolp; lia.
Qed.

(** *** One SENDME *)

Record finished (cc cc' : congestion_control_t) : Prop := mk_fin {
  fi_par : cc_par cc' = cc_par cc;
  fi_ts : sendme_pending_timestamps cc' = sendme_pending_timestamps cc;
  fi_ewma : ewma_rtt_usec cc' = ewma_rtt_usec cc;
  fi_min : min_rtt_usec cc' = min_rtt_usec cc;
  fi_cwnd : cwnd cc' = cwnd cc;
  fi_inflight : inflight cc' = inflight cc - inc cc;
  fi_next_cc : 0 <= next_cc_event cc' < 65536;
  fi_next_cwnd : 0 <= next_cwnd_event cc' < 65536
}.

Lemma finish_ok cc :
  params_ok (cc_par cc) -> 0 <= cwnd cc <= 2 ^ 33 -> inc cc <= inflight cc < 2 ^ 62 ->
  0 <= next_cc_event cc < 65536 -> 0 <= next_cwnd_event cc < 65536 ->
  exists cc', vegas_finish g cc = Ok cc' /\ finished cc cc'.
Proof.
  intros Hp Hc Hi N1 N2. pose proof (inc_pos cc Hp) as Hpos. unfold vegas_finish.
  assert (S1 : exists n, (if next_cwnd_event cc =? 0 then let* n := SENDME_PER_CWND cc in Ok (set_next_cwnd_event (u16 n) cc) else Ok cc)
      = Ok (set_next_cwnd_event n cc) /\ 0 <= n < 65536).
  { destruct (Z.eqb_spec (next_cwnd_event cc) 0).
    - destruct (per_cwnd_ok cc Hp Hc) as (n & -> & _). exists (u16 n). split; [done|apply u16_range].
    - exists (next_cwnd_event cc). split; [by destruct cc|done]. }
  destruct S1 as (n & -> & Hn). cbn [cbind]. set (cc1 := set_next_cwnd_event n cc).
  assert (S2 : exists m, (if next_cc_event cc1 =? 0 then let* n := CWND_UPDATE_RATE cc1 in Ok (set_next_cc_event (u16 n) cc1) else Ok cc1)
      = Ok (set_next_cc_event m cc1) /\ 0 <= m < 65536).
  { destruct (Z.eqb_spec (next_cc_event cc1) 0).
    - destruct (rate_ok cc1 Hp Hc) as (m & -> & _). exists (u16 m). split; [done|apply u16_range].
    - exists (next_cc_event cc1). split; [by destruct cc|done]. }
  destruct S2 as (m & -> & Hm). cbn [cbind]. set (cc2 := set_next_cc_event m cc1).
  assert (S3 : exists r, cwnd_full_reset g cc2 = Ok r).
  { unfold cwnd_full_reset. destruct (negb _).
    - destruct (per_cwnd_ok cc2 Hp Hc) as (k & -> & _). by eexists.
    - destruct (rate_ok cc2 Hp Hc) as (k & -> & _). by eexists. }
  destruct S3 as (r & ->). cbn [cbind].
  assert (inflight (if r then set_cwnd_full false cc2 else cc2) = inflight cc) as -> by by destruct r.
  assert (inc (if r then set_cwnd_full false cc2 else cc2) = inc cc) as -> by by destruct r.
  rewrite u64_id by lia. eexists. split; [done|]. by destruct r.
Qed.

(** The state on which the window is decided: the bandwidth-delay product of the new round-trip times, the
    channel as it is now, and the countdown to the next congestion event. *)
Definition decision_state (broken : bool) (ch : chan_state) (now_usec : Z) (cc : congestion_control_t) : congestion_control_t :=
  set_bdp (cwnd cc * min_rtt_after broken cc now_usec / ewma_after broken cc now_usec)
    (set_blocked_chan (blocked_on_chan ch) (set_next_cc_event (next_cc_after ch (ticked cc)) cc)).

(** The window after a SENDME. *)
Definition window_after (broken : bool) (ch : chan_state) (now_usec : Z) (cc : congestion_control_t) : Z :=
  if updates broken ch now_usec cc then Z.min (cwnd_max g) (window_spec (update_full g (decision_state broken ch now_usec cc))) else cwnd cc.

(** What a SENDME does. *)
Record sendme_effect (broken : bool) (ch : chan_state) (now_usec : Z) (cc cc' : congestion_control_t) : Prop := mk_effect {
  se_ok : cc_ok cc';
  se_par : cc_par cc' = cc_par cc;
  se_inflight : inflight cc' = inflight cc - inc cc;
  se_ts : sendme_pending_timestamps cc' = tail (sendme_pending_timestamps cc);
  se_ewma : ewma_rtt_usec cc' = ewma_after broken cc now_usec;
  se_min : min_rtt_usec cc' = min_rtt_after broken cc now_usec;
  se_window : cwnd cc' = window_after broken ch now_usec cc
}.

Lemma count_down_range n : 0 <= n < 65536 -> 0 <= count_down n < 65536.
Proof. intros H. unfold count_down. destruct (Z.eqb_spec n 0); cbn [negb]; lia. Qed.

Lemma ts_tail (ts : list Z) n i : 2 <= i -> i <= n -> zlen ts = n / i -> zlen (tail ts) = (n - i) / i.
Proof.
  intros Hi Hn Hz. replace (n - i) with (n + (-1) * i) by lia. rewrite Z.div_add by lia.
  assert (1 <= n / i) by (apply Z.div_le_lower_bound; lia). destruct ts as [|t ts]; [change (zlen []) with 0 in Hz; lia|].
  rewrite zlen_cons in Hz. cbn [tail]. lia.
Qed.

Lemma update_full_same cc :
  exists b, update_full g cc = set_cwnd_full b cc.
Proof.
  unfold update_full. destruct (cwnd_became_full g cc); [by exists true|]. destruct (cwnd_became_nonfull g cc); [by exists false|].
  exists (cwnd_full cc). by destruct cc.
Qed.

(** The window depends on these fields only. *)
Lemma window_spec_ext c1 c2 :
  same_window c1 c2 -> bdp c2 = bdp c1 -> blocked_chan c2 = blocked_chan c1 -> next_cc_event c2 = next_cc_event c1 ->
  window_spec (update_full g c2) = window_spec (update_full g c1).
Proof.
  destruct c1, c2. unfold same_window. cbn. intros (-> & -> & -> & -> & ->) -> -> ->. unfold update_full, cwnd_became_full, cwnd_became_nonfull, inc. cbn.
  destruct (_ <=? _); [done|]. by destruct (_ <? _).
Qed.

(** The window of the next round, and everything else as it was. *)
Lemma window_step cc :
  params_ok (cc_par cc) -> F <= cwnd cc <= cwnd_max g -> 0 <= bdp cc < 2 ^ 61 -> 1 <= ewma_rtt_usec cc ->
  exists b, (if in_slow_start cc then vegas_slow_start (queue_spec cc) cc
             else if next_cc_event cc =? 0 then vegas_steady (queue_spec cc) cc else Ok cc)
    = Ok (set_in_slow_start b (set_cwnd (window_spec cc) cc)).
Proof.
  intros Hp Hc Hb He. unfold window_spec. destruct (in_slow_start cc) eqn:Es.
  - apply slow_start_ok; auto. lia.
  - exists false. destruct (next_cc_event cc =? 0).
    + rewrite steady_ok by done. by rewrite set_ss_id.
    + by rewrite set_cwnd_id, set_ss_id.
Qed.

(** What is known about the state after the estimates. *)
Record estimated (cc cc1 : congestion_control_t) : Prop := mk_estd {
  ed_same : same_window cc cc1;
  ed_inc : inc cc1 = inc cc;
  ed_rtt : rtt_ok cc1;
  ed_ts : sendme_pending_timestamps cc1 = tail (sendme_pending_timestamps cc);
  ed_len : zlen (sendme_pending_timestamps cc1) = (inflight cc - inc cc) / inc cc;
  ed_next_cc : 0 <= next_cc_event cc1 < 65536;
  ed_next_cwnd : 0 <= next_cwnd_event cc1 < 65536
}.

Lemma estimates_estimated broken cc ch now_usec upd cc1 :
  cc_ok cc -> inc cc <= inflight cc -> estimates_ok broken ch now_usec (ticked cc) upd cc1 -> estimated cc cc1.
Proof.
  intros [Hp Hc Hin Hts Hr N1 N2] Hinc [Hs Er Et Enc Enw _ _ _ _ _]. pose proof (inc_pos cc Hp) as Hi.
  pose proof (count_down_range _ N1) as M1. pose proof (count_down_range _ N2) as M2.
  assert (Hinc1 : inc cc1 = inc cc) by (unfold inc; by destruct Hs as [-> _]).
  split; [exact Hs|done|done|exact Et| | |by rewrite Enw].
  - rewrite Et. by apply ts_tail; [lia..|].
  - destruct Enc as [-> | ->]; [lia|done].
Qed.

Lemma effect_none broken cc ch now_usec cc1 :
  cc_ok cc -> inc cc <= inflight cc -> estimates_ok broken ch now_usec (ticked cc) false cc1 ->
  sendme_effect broken ch now_usec cc (set_inflight (inflight cc - inc cc) cc1).
Proof.
  intros Hok Hinc E. destruct (estimates_estimated broken cc ch now_usec false cc1 Hok Hinc E) as [(S1 & S2 & S3 & S4 & S5) D2 D3 D4 D5 D6 D7].
  destruct Hok as [Hp Hc Hin Hts Hr N1 N2]. pose proof (inc_pos cc Hp) as Hi.
  split; [|done|done|done|exact (es_ewma _ _ _ _ _ _ E)|exact (es_min _ _ _ _ _ _ E)|unfold window_after; pose proof (es_updated _ _ _ _ _ _ E) as Eu; change (updates broken ch now_usec (ticked cc)) with (updates broken ch now_usec cc) in Eu; by rewrite <- Eu]. split; cbn; [by rewrite S1|lia|lia| |by destruct D3; constructor|done|done].
  change (inc (set_inflight _ cc1)) with (inc cc1). by rewrite D2.
Qed.

Lemma bdp_range cc : 0 <= cwnd cc <= cwnd_max g -> rtt_ok cc -> 1 <= ewma_rtt_usec cc -> 0 <= bdp_spec cc < 2 ^ 61.
Proof.
  intros Hc [E1 E2 _] He. pose proof (go_max _ Hg). unfold bdp_spec, RTT_LIMIT, INT32_MAX in *.
  split; [apply Z.div_pos; nia|]. apply Z.div_lt_upper_bound; nia.
Qed.

Lemma window_after_ok broken cc ch now_usec cc1 :
  estimates_ok broken ch now_usec (ticked cc) true cc1 -> window_after broken ch now_usec cc = Z.min (cwnd_max g) (window_spec (update_full g cc1)).
Proof.
  intros E. destruct (es_bdp _ _ _ _ _ _ E eq_refl) as (_ & Hb & Hn). pose proof (es_updated _ _ _ _ _ _ E) as Hu. destruct E as [(S1 & S2 & S3 & S4 & S5) _ _ _ _ Hbl He Hm _ _].
  unfold window_after. change (updates broken ch now_usec cc) with (updates broken ch now_usec (ticked cc)). rewrite <- Hu. f_equal. symmetry. apply window_spec_ext; [done| |done|done].
  unfold bdp_spec in Hb. by rewrite Hb, He, Hm, S2.
Qed.

(** The rest of [congestion_control_vegas_process_sendme] after the estimates,
    with the clamp of [congestion_control_dispatch_cc_alg]. *)
Lemma effect_some broken cc ch now_usec cc1 :
  cc_ok cc -> inc cc <= inflight cc -> estimates_ok broken ch now_usec (ticked cc) true cc1 ->
  exists cc3 cc4,
    (let cc2 := update_full g cc1 in
     if in_slow_start cc2 then vegas_slow_start (queue_use cc1) cc2
     else if next_cc_event cc2 =? 0 then vegas_steady (queue_use cc1) cc2 else Ok cc2) = Ok cc3
    /\ vegas_finish g cc3 = Ok cc4
    /\ sendme_effect broken ch now_usec cc (if cwnd_max g <? cwnd cc4 then set_cwnd (cwnd_max g) cc4 else cc4).
Proof.
  intros Hok Hinc E. destruct (estimates_estimated broken cc ch now_usec true cc1 Hok Hinc E) as [Hs D2 D3 D4 D5 D6 D7].
  pose proof Hs as (S1 & S2 & S3 & S4 & S5). destruct (es_bdp _ _ _ _ _ _ E eq_refl) as (He & Hb & Hnx). pose proof (es_blocked _ _ _ _ _ _ E) as Hbl. pose proof (es_ewma _ _ _ _ _ _ E) as Hew. pose proof (es_min _ _ _ _ _ _ E) as Hmi.
  assert (window_after broken ch now_usec cc = Z.min (cwnd_max g) (window_spec (update_full g cc1))) as Hwa by by apply (window_after_ok broken cc ch now_usec cc1 E).
  destruct Hok as [Hp Hc Hin Hts Hr N1 N2]. pose proof (inc_pos cc Hp) as Hi. pose proof (go_max _ Hg) as Hm. unfold INT32_MAX in Hm.
  assert (Hbr : 0 <= bdp cc1 < 2 ^ 61) by (rewrite Hb; apply bdp_range; [rewrite S2; lia|done|done]).
  rewrite queue_use_ok by (rewrite ?S2; lia). destruct (update_full_same cc1) as [fb Ef]. cbv zeta.
  replace (queue_spec cc1) with (queue_spec (update_full g cc1)) by by rewrite Ef.
  destruct (window_step (update_full g cc1)) as (sb & Hstep); [rewrite Ef; cbn; rewrite ?S1, ?S2; done..|].
  assert (Hw : F <= window_spec (update_full g cc1) < 2 ^ 32 + 2 ^ 12).
  { apply window_ok; rewrite Ef; cbn; rewrite ?S1, ?S2; done. }
  rewrite Hstep. clear Hstep. rewrite Ef in *. set (w := window_spec _) in *. set (cc3 := set_in_slow_start _ _).
  destruct (finish_ok cc3) as (cc4 & Hf & [F1 F2 F3 F4 F5 F6 F7 F8]);
    [unfold cc3; cbn; by rewrite S1|unfold cc3; cbn; lia|unfold cc3, inc; cbn; rewrite S1, S3; fold (inc cc); lia|done|done|].
  exists cc3, cc4. split; [done|]. split; [done|]. cbn in F1, F2, F3, F4, F5, F6.
  assert (G : exists v, (if cwnd_max g <? cwnd cc4 then set_cwnd (cwnd_max g) cc4 else cc4) = set_cwnd v cc4 /\ v = Z.min (cwnd_max g) w).
  { rewrite F5. zcase; [eexists; split; [done|lia]|]. exists (cwnd cc4). split; [by rewrite set_cwnd_id|lia]. }
  destruct G as (v & -> & Hv). assert (Hi4 : inflight cc4 = inflight cc - inc cc) by (rewrite F6; unfold inc; cbn; by rewrite S1, S3).
  assert (Hinc4 : inc (set_cwnd v cc4) = inc cc) by (unfold inc; cbn; by rewrite F1, S1).
  split; [|cbn; congruence|done|cbn; by rewrite F2|change (ewma_rtt_usec cc4 = ewma_after broken cc now_usec); rewrite F3; exact Hew|change (min_rtt_usec cc4 = min_rtt_after broken cc now_usec); rewrite F4; exact Hmi|cbn; by rewrite Hwa, Hv].
  split; cbn; [by rewrite F1, S1|lia|lia|by rewrite Hinc4, Hi4, F2| |done|done]. destruct D3. by constructor; cbn; rewrite ?F3, ?F4.
Qed.

Lemma process_sendme_ok broken cc ch conflux now_usec :
  cc_ok cc -> inc cc <= inflight cc -> in_time cc now_usec -> clock_ok cc ch now_usec ->
  exists cc' broken' r, congestion_control_dispatch_cc_alg g broken cc ch conflux now_usec = Ok (cc', broken', r)
    /\ sendme_effect broken ch now_usec cc cc'.
Proof.
  intros Hok Hinc Hf Hck. pose proof Hok as [Hp Hc Hin Hts Hr N1 N2]. pose proof (inc_pos cc Hp) as Hi.
  pose proof (go_max _ Hg) as Hm. unfold INT32_MAX in Hm.
  unfold congestion_control_dispatch_cc_alg, congestion_control_vegas_process_sendme. rewrite (po_alg _ Hp).
  destruct (estimates_total broken (ticked cc) ch now_usec Hp Hc) as (upd & cc1 & br & -> & E); [by destruct Hr; constructor|done|done|].
  cbn [cbind]. destruct upd; cbn [negb].
  - destruct (effect_some broken cc ch now_usec cc1 Hok Hinc E) as (cc3 & cc4 & H3 & H4 & Heff). cbv zeta in H3. rewrite H3. cbn [cbind].
    rewrite H4. cbn [cbind]. by do 3 eexists.
  - pose proof (effect_none broken cc ch now_usec cc1 Hok Hinc E) as Heff.
    destruct (estimates_estimated broken cc ch now_usec false cc1 Hok Hinc E) as [(S1 & S2 & S3 & S4 & S5) D2 D3 D4 D5 D6 D7].
    cbn [cbind]. rewrite D2, S3, u64_id by lia. set (cc2 := set_inflight _ _) in *. change (cwnd cc2) with (cwnd cc1).
    rewrite S2, (proj2 (Z.ltb_ge _ _)) by lia. by do 3 eexists.
Qed.

End Invariant.

(** ** Sending *)

Lemma div_succ n i : 2 <= i -> 0 <= n -> (n + 1) / i = n / i + if (n + 1) mod i =? 0 then 1 else 0.
Proof.
  intros Hi Hn. pose proof (Z.div_mod (n + 1) i ltac:(lia)) as Hd. pose proof (Z.mod_pos_bound (n + 1) i ltac:(lia)) as Hm.
  set (q := (n + 1) / i) in *. set (r := (n + 1) mod i) in *. destruct (Z.eqb_spec r 0).
  - rewrite <- (Z.div_unique_pos n i (q - 1) (i - 1)); nia.
  - rewrite <- (Z.div_unique_pos n i q (r - 1)); nia.
Qed.

Lemma cc_sends_for_sendme cc :
  2 <= inc cc -> 0 <= inflight cc < 2 ^ 62 -> cc_sent_cell_for_sendme cc = Ok ((inflight cc + 1) mod inc cc =? 0).
Proof.
  intros Hi Hn. unfold cc_sent_cell_for_sendme. rewrite u64_id by lia. destruct (Z.eqb_spec (inflight cc) 0) as [->|].
  - by rewrite Z.mod_small by lia.
  - rewrite (proj2 (Z.eqb_neq (inc cc) 0)) by lia. cbn [negb]. by destruct (_ =? 0).
Qed.

Lemma package_window_pos cc :
  0 <= inflight cc < 2 ^ 62 -> 0 <= cwnd cc <= INT32_MAX ->
  cc_package_window cc = Z.max 0 (cwnd cc - inflight cc).
Proof.
  unfold INT32_MAX. intros Hn Hc. unfold cc_package_window, INT32_MAX. zcase; [lia|]. rewrite u64_id by lia. zcase; lia.
Qed.

Lemma note_cell_sent_ok g F cc now_usec :
  globals_ok g -> cc_ok g F cc -> 0 < cc_package_window cc ->
  exists cc', congestion_control_note_cell_sent cc now_usec = Ok cc' /\ cc_ok g F cc'
    /\ cc_par cc' = cc_par cc /\ cwnd cc' = cwnd cc /\ inflight cc' = inflight cc + 1 /\ ewma_rtt_usec cc' = ewma_rtt_usec cc
    /\ sendme_pending_timestamps cc' = sendme_pending_timestamps cc ++ if (inflight cc + 1) mod inc cc =? 0 then [now_usec] else [].
Proof.
  intros Hg [Hp Hc Hin Hts Hr N1 N2] Hw. pose proof (inc_pos F cc Hp) as Hi. pose proof (go_max _ Hg) as Hm.
  pose proof (po_inc _ _ Hp) as HF. rewrite package_window_pos in Hw by (unfold INT32_MAX in *; lia). unfold INT32_MAX in *.
  unfold congestion_control_note_cell_sent. rewrite cc_sends_for_sendme by lia. cbn [cbind]. rewrite u64_id by lia.
  pose proof (div_succ (inflight cc) (inc cc) ltac:(lia) ltac:(lia)) as Hd.
  destruct ((inflight cc + 1) mod inc cc =? 0); cbn [negb]; eexists; (split; [done|]); (split; [|cbn; rewrite ?app_nil_r; done]);
    (split; cbn; [done|lia|lia| |by destruct Hr; constructor|done|done]).
  - change (inc (enqueue_timestamp _ _)) with (inc cc). rewrite zlen_app, Hts, Hd. done.
  - change (inc (set_inflight _ _)) with (inc cc). rewrite Hts. lia.
Qed.

(** ** A new circuit *)

Definition default_globals : cc_globals :=
  mkccg INT32_MAX 50 10 2 100 SENDME_INC_DFLT CC_ALG_VEGAS 5 256 10 (32 * 1024) (16 * 1024) 25 4 1.

Lemma default_globals_ok : globals_ok default_globals.
Proof. split; cbn; unfold INT32_MAX; lia. Qed.

(** Without a consensus every kind of path starts in a state of the invariant,
    with a window that never falls below 124 cells. *)
Lemma congestion_control_new_ok always n path :
  2 <= n <= 255 ->
  exists cc, congestion_control_new None default_globals always n path = Ok (cc, default_globals)
    /\ cc_ok default_globals CIRCWINDOW_INIT cc /\ inc cc = n /\ inflight cc = 0 /\ sendme_pending_timestamps cc = [].
Proof.
  intros Hn. destruct path; eexists; (split; [reflexivity|]); (split; [|done]).
  all: split; [split; cbn; try lia; done|vm_compute; split; discriminate|cbn; unfold INT32_MAX; lia| |split; cbn; unfold RTT_LIMIT; try lia; done|vm_compute; split; done|vm_compute; split; done].
  all: cbn [sendme_pending_timestamps set_next_cc_event inflight]; rewrite Z.div_0_l; [done|cbn; lia].
Qed.

(** ** Claims *)


(** A circuit in slow start with 31 cells in flight. *)
Definition demo_params : cc_params_t := mkccp 100 1 124 31 31 CC_ALG_VEGAS (mkvegas 600 5000 186 186 248 310).
Definition demo_cc : congestion_control_t := mkcc demo_params [1000] 0 0 0 0 124 31 1 0 true false false.

Ltac solve_cc_ok := repeat split; vm_compute; congruence || done.


(** Negotiation: what a relay answers when congestion control is on parses, on
    the client, to an extension from which the client takes the same
    increment, provided it is within one of the consensus value; a value farther away
    is refused, and without congestion control the answer says so. *)
Theorem cc_negotiation_roundtrip our_inc cc_sendme_inc rest :
  1 <= our_inc <= 255 ->
  exists on off ext_on ext_off,
    congestion_control_build_ext_response our_inc true = Ok on
    /\ congestion_control_build_ext_response our_inc false = Ok off
    /\ trn_extension_parse (on ++ rest) = TOk (ext_on, rest) /\ trn_extension_parse (off ++ rest) = TOk (ext_off, rest)
    /\ congestion_control_parse_ext_response cc_sendme_inc ext_on
       = (if (cc_sendme_inc - 1 <=? our_inc) && (our_inc <=? cc_sendme_inc + 1) then Ok (Some our_inc) else Err)
    /\ congestion_control_parse_ext_response cc_sendme_inc ext_off = Ok None.
Proof.
  intros Hi. unfold congestion_control_build_ext_response, trn_extension_field_cc_encode. rewrite put_u8_ok by lia.
  cbn [app cbind]. rewrite u8_small by lia.
  set (e := mkext 1 [mkfield TRUNNEL_EXT_TYPE_CC_FIELD_RESPONSE 1 [our_inc]]).
  assert (He : ext_ok e) by (split; [constructor; [|constructor]; repeat split; done|done]).
  change (trn_extension_encoded_len e) with 4. change (trn_extension_encoded_len (mkext 0 [])) with 1. change (4 <? 0) with false.
  destruct (ext_encode_parse e 4 He) as (on & -> & _ & Pon); [done|]. exists on, [0], e, (mkext 0 []).
  split; [done|]. split; [done|]. split; [apply Pon|]. split; [done|]. split; [|done].
  unfold congestion_control_parse_ext_response.
  assert (trn_extension_find e TRUNNEL_EXT_TYPE_CC_FIELD_RESPONSE = Ok (Some (mkfield TRUNNEL_EXT_TYPE_CC_FIELD_RESPONSE 1 [our_inc])))
    as -> by done.
  cbn [cbind field trn_extension_field_cc_parse get_u8]. unfold congestion_control_validate_sendme_increment.
  rewrite (proj2 (Z.eqb_neq our_inc 0)) by lia. rewrite !Z.ltb_antisym.
  by destruct (our_inc <=? cc_sendme_inc + 1), (cc_sendme_inc - 1 <=? our_inc).
Qed.

Lemma cc_negotiation_witness :
  exists on off ext_on ext_off,
    congestion_control_build_ext_response 32 true = Ok on
    /\ congestion_control_build_ext_response 32 false = Ok off
    /\ trn_extension_parse (on ++ []) = TOk (ext_on, []) /\ trn_extension_parse (off ++ []) = TOk (ext_off, [])
    /\ congestion_control_parse_ext_response 31 ext_on = Ok (Some 32)
    /\ congestion_control_parse_ext_response 31 ext_off = Ok None.
Proof. apply (cc_negotiation_roundtrip 32 31 []). split; discriminate. Defined.

Lemma stalled_estimates g broken cc n t ts :
  ewma_rtt_usec cc = 0 -> sendme_pending_timestamps cc = t :: ts ->
  congestion_control_update_circuit_estimates g broken cc (mkchan n true) t
  = let cc1 := set_sendme_pending_timestamps ts cc in
    Ok (true, set_bdp (stalled_bdp cc1 (mkchan n true)) (set_blocked_chan true cc1), true).
Proof.
  intros He Ht. unfold congestion_control_update_circuit_estimates, congestion_control_update_circuit_rtt, dequeue_timestamp.
  rewrite Ht, Z.sub_diag. change (u64 0) with 0. unfold time_delta_stalled_or_jumped. change (0 =? 0) with true. cbv iota beta.
  cbn [cbind]. unfold congestion_control_update_circuit_bdp.
  change (ewma_rtt_usec (set_sendme_pending_timestamps ts cc)) with (ewma_rtt_usec cc). rewrite He. done.
Qed.

(** A clock that stood still since the circuit was built, together with a blocked
    channel, ends the process: the argument of the log message on leaving slow
    start divides by the greater of the two round-trip times, which are both 0. *)
Theorem stalled_clock_divides_by_zero g broken cc n conflux t ts :
  cc_alg (cc_par cc) = CC_ALG_VEGAS -> in_slow_start cc = true ->
  ewma_rtt_usec cc = 0 -> min_rtt_usec cc = 0 -> sendme_pending_timestamps cc = t :: ts ->
  congestion_control_dispatch_cc_alg g broken cc (mkchan n true) conflux t = Bug.
Proof.
  intros Ha Hs He Hm Ht. unfold congestion_control_dispatch_cc_alg, congestion_control_vegas_process_sendme. rewrite Ha.
  rewrite stalled_estimates with (ts := ts) by done. cbv zeta. cbn [cbind negb].
  set (cc1 := set_bdp _ _). destruct (update_full_same g cc1) as [b ->].
  change (in_slow_start (set_cwnd_full b cc1)) with (in_slow_start cc). rewrite Hs. unfold vegas_slow_start, vegas_ss_update.
  change (blocked_chan (set_cwnd_full b cc1)) with true. cbn [negb]. rewrite andb_false_r.
  unfold congestion_control_vegas_exit_slow_start, congestion_control_vegas_log. cbn -[u64 Z.mul]. by rewrite He, Hm.
Qed.

Lemma stalled_clock_witness :
  congestion_control_dispatch_cc_alg default_globals false demo_cc (mkchan 40 true) false 1000 = Bug.
Proof. apply (stalled_clock_divides_by_zero default_globals false demo_cc 40 false 1000 []); reflexivity. Defined.

(** With an increment of 1, which the consensus and the negotiation allow, the
    first cell of a circuit is not recorded although the peer answers it. *)
Lemma increment_one_loses_first_cell now_usec :
  exists cc g, congestion_control_new None default_globals false 1 CC_PATH_EXIT = Ok (cc, g)
    /\ congestion_control_validate_sendme_increment 1 1 = true
    /\ exists cc', congestion_control_note_cell_sent cc now_usec = Ok cc'
         /\ inflight cc' = inc cc' /\ sendme_pending_timestamps cc' = [].
Proof. do 2 eexists. split; [reflexivity|]. split; [reflexivity|]. eexists. split; reflexivity || (split; reflexivity). Qed.

(** Where the step of the window is greater than the window, which the ranges of
    the parameters allow, subtracting it wraps around and the window ends at its
    maximum. *)
Lemma decrement_wraps_around :
  exists cc broken r,
    congestion_control_dispatch_cc_alg default_globals false
      (mkcc (mkccp 100 1000 124 31 31 CC_ALG_VEGAS (mkvegas 600 5000 186 186 248 2000)) [1000] 100 100 100 0 500 100 1 1 false true true)
      (mkchan 10 true) false 1100 = Ok (cc, broken, r)
    /\ cwnd cc = cwnd_max default_globals.
Proof. do 3 eexists. split; [vm_compute; reflexivity|reflexivity]. Qed.

(** The bandwidth-delay product can exceed the window: at the minimum window the
    least round-trip time is not lowered to the average when the reset percentage
    is 100. *)
Lemma bdp_above_window :
  exists cc,
    congestion_control_update_circuit_estimates default_globals false
      (mkcc demo_params [1000] 100 100 100 0 124 100 1 1 false true false) (mkchan 0 false) 1010
    = Ok (true, cc, false) /\ cwnd cc < bdp cc.
Proof. eexists. split; vm_compute; reflexivity. Qed.
