(* ===== verification/Sendme.v ===== *)
(** * Circuit-level flow control

    Models core/or/sendme.c with the parts of congestion_control_common.c and
    core/crypto/relay_crypto.c that choose between the two algorithms and the two
    kinds of tag.  A circuit has its windows in [circuit_t] when we are not its
    origin and in the layer of the last hop ([crypt_path_t]) when we are;
    both hold a record [window_t].  The cells that the functions send are among
    their results.  [Err] stands for a negative return value, after which the caller
    closes the circuit. *)

From S2P Require Import Prelude CString UtilString DiOps NetParams Trunnel CongCtl.
From Stdlib Require Import ZArith String.
From stdpp Require Import base list numbers.
Open Scope Z_scope.

Definition CIRCWINDOW_START : Z := 1000.
Definition CIRCWINDOW_START_MAX : Z := 1000.
Definition CIRCWINDOW_INCREMENT : Z := 100.
Definition STREAMWINDOW_START : Z := 500.
Definition STREAMWINDOW_START_MAX : Z := 500.
Definition STREAMWINDOW_INCREMENT : Z := 50.

Definition SENDME_TAG_LEN_TOR1 : Z := 20.
Definition SENDME_TAG_LEN_CGO : Z := 16.
Definition SENDME_MAX_SUPPORTED_VERSION : Z := 1.
Definition RELAY_PAYLOAD_SIZE_MAX : Z := 509 - 11.

(** ** State *)

Inductive relay_crypto_kind := RCK_TOR1 | RCK_CGO.

(** The windows, the congestion control object, and what the cryptographic state of
    the hop contributes: its kind and the tag of the last cell. *)
Record window_t := mkwin {
  package_window : Z; deliver_window : Z; ccontrol : option congestion_control_t;
  crypto_kind : relay_crypto_kind; crypto_tag : bytes
}.

Record circuit_t := mkcirc {
  is_origin : bool; circ_win : window_t; sendme_last_digests : option (list bytes);
  circ_chan : chan_state; has_conflux : bool
}.

(** A circuit and the [layer_hint] that the functions are given. *)
Record endpoint := mkep { circ : circuit_t; layer_hint : option window_t }.

Definition set_package v (w : window_t) : window_t := mkwin v (deliver_window w) (ccontrol w) (crypto_kind w) (crypto_tag w).
Definition set_deliver v (w : window_t) : window_t := mkwin (package_window w) v (ccontrol w) (crypto_kind w) (crypto_tag w).
Definition set_cc v (w : window_t) : window_t := mkwin (package_window w) (deliver_window w) (Some v) (crypto_kind w) (crypto_tag w).
Definition set_tag v (w : window_t) : window_t := mkwin (package_window w) (deliver_window w) (ccontrol w) (crypto_kind w) v.
Definition set_digests v (c : circuit_t) : circuit_t := mkcirc (is_origin c) (circ_win c) v (circ_chan c) (has_conflux c).
Definition set_circ_win v (c : circuit_t) : circuit_t := mkcirc (is_origin c) v (sendme_last_digests c) (circ_chan c) (has_conflux c).

(** [layer_hint ? layer_hint->... : circ->...] *)
Definition hint_win (e : endpoint) : window_t := match layer_hint e with Some l => l | None => circ_win (circ e) end.
Definition with_hint_win (w : window_t) (e : endpoint) : endpoint :=
  match layer_hint e with
  | Some _ => mkep (circ e) (Some w)
  | None => mkep (set_circ_win w (circ e)) None
  end.

(** [if (CIRCUIT_IS_ORIGIN(circ)) { tor_assert(layer_hint); ... } else {
    tor_assert(!layer_hint); ... }] *)
Definition side_win (e : endpoint) : cres window_t :=
  match is_origin (circ e), layer_hint e with
  | true, Some l => Ok l
  | false, None => Ok (circ_win (circ e))
  | _, _ => Bug
  end.

(** ** Tags *)

Definition tag_len (k : relay_crypto_kind) : Z := match k with RCK_TOR1 => SENDME_TAG_LEN_TOR1 | RCK_CGO => SENDME_TAG_LEN_CGO end.
Definition relay_crypto_sendme_tag_len := tag_len.

Definition tag_len_ok (n : Z) : bool := (n =? SENDME_TAG_LEN_CGO) || (n =? SENDME_TAG_LEN_TOR1).

Definition get_emit_min_version (ns : option (list bytes)) : cres Z := networkstatus_get_param ns (s2b "sendme_emit_min_version") 1 0 255.
Definition get_accept_min_version (ns : option (list bytes)) : cres Z := networkstatus_get_param ns (s2b "sendme_accept_min_version") 0 0 255.

Definition pop_first_cell_digest (c : circuit_t) : option bytes * circuit_t :=
  match sendme_last_digests c with
  | None | Some [] => (None, c)
  | Some (d :: ds) => (Some d, set_digests (Some ds) c)
  end.

Definition v1_tag_matches (circ_digest cell_tag : bytes) (tag_len : Z) : cres bool :=
  let* eq := tor_memeq circ_digest cell_tag (Z.to_nat tag_len) in
  Ok (negb (eq =? 0)).

Definition cell_v1_is_valid (cell : sendme_cell_t) (circ_digest : bytes) (circ_digest_len : Z) : cres bool :=
  let tag_len := sc_data_len cell in
  if negb (tag_len_ok tag_len) then Ok false
  else if zlen (sc_data_v1_digest cell) <? tag_len then Ok false
  else if negb (tag_len =? circ_digest_len) then Ok false
  else v1_tag_matches circ_digest (sc_data_v1_digest cell) tag_len.

Definition cell_version_can_be_handled (accept_version cell_version : Z) : bool :=
  if SENDME_MAX_SUPPORTED_VERSION <? accept_version then false
  else if cell_version <? accept_version then false
  else if SENDME_MAX_SUPPORTED_VERSION <? cell_version then false
  else true.

(** [record_cell_digest_on_circ] keeps 20 bytes, the last four of them zero for
    the shorter tag. *)
Definition record_cell_digest_on_circ (c : circuit_t) (tag : bytes) (tag_len : Z) : cres circuit_t :=
  let* t :=
    (if tag_len =? SENDME_TAG_LEN_CGO then Ok (take 16 tag ++ repeat 0 4)
     else if tag_len =? SENDME_TAG_LEN_TOR1 then Ok (take 20 tag)
     else Bug) in
  Ok (set_digests (Some (default [] (sendme_last_digests c) ++ [t])) c).

(** ** Validation *)

Section Consensus.

(** The parameters of the latest consensus and the cached ones. *)
Variable ns : option (list bytes).
Variable g : cc_globals.

(** The circuit without the digest that was popped, or [Err]. *)
Definition sendme_is_valid (e : endpoint) (cell_payload : bytes) : cres circuit_t :=
  let* cell :=
    match cell_payload with
    | [] => Ok None
    | _ => match sendme_cell_parse cell_payload with
           | TOk (cell, _) => Ok (Some cell)
           | TBug => Bug
           | _ => Err
           end
    end in
  let cell_version := match cell with None => 0 | Some c => sc_version c end in
  let* accept_version := get_accept_min_version ns in
  if negb (cell_version_can_be_handled accept_version cell_version) then Err
  else
    let* circ_expects_tag_len :=
      match layer_hint e with
      | Some l => Ok (relay_crypto_sendme_tag_len (crypto_kind l))
      | None => if negb (is_origin (circ e)) then Ok (relay_crypto_sendme_tag_len (crypto_kind (circ_win (circ e)))) else Err
      end in
    let '(circ_digest, c) := pop_first_cell_digest (circ e) in
    match circ_digest with
    | None => Err
    | Some d =>
        if cell_version =? 1 then
          match cell with
          | Some cell =>
              let* ok := cell_v1_is_valid cell d circ_expects_tag_len in
              if ok : bool then Ok c else Err
          | None => Bug
          end
        else Ok c
    end.

(** ** Sending SENDMEs *)

Definition build_cell_payload_v1 (cell_tag : bytes) (tag_len : Z) : cres bytes :=
  assert! (tag_len_ok tag_len);
  match sendme_cell_encode RELAY_PAYLOAD_SIZE_MAX (mksendme 1 tag_len (take (Z.to_nat tag_len) cell_tag)) with
  | TOk b => Ok b
  | TBug => Bug
  | _ => Err
  end.

(** The payload that is sent. *)
Definition send_circuit_level_sendme (cell_tag : bytes) (tag_len : Z) : cres bytes :=
  let* emit_version := get_emit_min_version ns in
  if emit_version =? 1 then build_cell_payload_v1 cell_tag tag_len else Ok [].

Definition sendme_get_inc_count (e : endpoint) : Z :=
  match ccontrol (hint_win e) with Some cc => inc cc | None => CIRCWINDOW_INCREMENT end.

(** [relay_crypto_get_sendme_tag] for the hop; without a layer the circuit must
    not be an origin circuit ([TO_OR_CIRCUIT]). *)
Definition get_sendme_tag (e : endpoint) : cres (bytes * Z) :=
  match layer_hint e with
  | Some l => Ok (crypto_tag l, tag_len (crypto_kind l))
  | None =>
      assert! (negb (is_origin (circ e)));
      Ok (crypto_tag (circ_win (circ e)), tag_len (crypto_kind (circ_win (circ e))))
  end.

(** The loop of [sendme_circuit_consider_sending]: the payloads sent, in order. *)
Fixpoint consider_loop (fuel : nat) (e : endpoint) (sendme_inc : Z) : cres (endpoint * list bytes) :=
  match fuel with
  | O => Fuel
  | S fuel =>
      if deliver_window (hint_win e) <=? CIRCWINDOW_START - sendme_inc then
        let e := with_hint_win (set_deliver (deliver_window (hint_win e) + sendme_inc) (hint_win e)) e in
        let* (tag, tag_len) := get_sendme_tag e in
        match send_circuit_level_sendme tag tag_len with
        | Ok p =>
            let* (e, ps) := consider_loop fuel e sendme_inc in
            Ok (e, p :: ps)
        | Err => Ok (e, [])
        | Bug => Bug
        | Fuel => Fuel
        end
      else Ok (e, [])
  end.

Definition sendme_circuit_consider_sending (e : endpoint) : cres (endpoint * list bytes) :=
  consider_loop (S (Z.to_nat (CIRCWINDOW_START - deliver_window (hint_win e)))) e (sendme_get_inc_count e).

(** ** Processing SENDMEs *)

Definition sendme_process_circuit_level_impl (e : endpoint) : cres endpoint :=
  let add w :=
    if CIRCWINDOW_START_MAX <? package_window w + CIRCWINDOW_INCREMENT then Err
    else Ok (set_package (package_window w + CIRCWINDOW_INCREMENT) w) in
  if is_origin (circ e) then
    match layer_hint e with
    | None => Err
    | Some l => let* l := add l in Ok (mkep (circ e) (Some l))
    end
  else
    let* w := add (circ_win (circ e)) in
    Ok (mkep (set_circ_win w (circ e)) (layer_hint e)).

(** The endpoint and the new state of the clock flag. *)
Definition sendme_process_circuit_level (broken : bool) (e : endpoint) (cell_payload : bytes) (now_usec : Z) : cres (endpoint * bool) :=
  let* c := sendme_is_valid e cell_payload in
  let e := mkep c (layer_hint e) in
  match ccontrol (hint_win e) with
  | None => let* e := sendme_process_circuit_level_impl e in Ok (e, broken)
  | Some cc =>
      let* (cc, broken, _) := congestion_control_dispatch_cc_alg g broken cc (circ_chan (circ e)) (has_conflux (circ e)) now_usec in
      Ok (with_hint_win (set_cc cc (hint_win e)) e, broken)
  end.

End Consensus.

(** ** Data cells *)

Definition with_side_win (w : window_t) (e : endpoint) : endpoint :=
  if is_origin (circ e) then mkep (circ e) (Some w) else mkep (set_circ_win w (circ e)) (layer_hint e).

(** The endpoint and the new deliver window. *)
Definition sendme_circuit_data_received (e : endpoint) : cres (endpoint * Z) :=
  let* w := side_win e in
  let w := set_deliver (deliver_window w - 1) w in
  Ok (with_side_win w e, deliver_window w).

(** [congestion_control_get_package_window] *)
Definition congestion_control_get_package_window (e : endpoint) : Z :=
  match ccontrol (hint_win e) with
  | None => package_window (hint_win e)
  | Some cc => cc_package_window cc
  end.

Definition circuit_sent_cell_for_sendme (e : endpoint) : cres bool :=
  match ccontrol (hint_win e) with
  | Some cc => cc_sent_cell_for_sendme cc
  | None =>
      let window := package_window (hint_win e) in
      if window =? CIRCWINDOW_START then Ok false
      else if negb (Z.rem (window - 1) CIRCWINDOW_INCREMENT =? 0) then Ok false
      else Ok true
  end.

(** The endpoint and how many cells can still be sent. *)
Definition sendme_note_circuit_data_packaged (e : endpoint) (now_usec : Z) : cres (endpoint * Z) :=
  let* e :=
    match ccontrol (hint_win e) with
    | Some cc =>
        let* cc := congestion_control_note_cell_sent cc now_usec in
        Ok (with_hint_win (set_cc cc (hint_win e)) e)
    | None =>
        let* w := side_win e in
        Ok (with_side_win (set_package (package_window w - 1) w) e)
    end in
  Ok (e, congestion_control_get_package_window e).

Definition sendme_record_cell_digest_on_circ (e : endpoint) : cres endpoint :=
  let* b := circuit_sent_cell_for_sendme e in
  if negb b then Ok e
  else
    let* (tag, tag_len) := get_sendme_tag e in
    let* c := record_cell_digest_on_circ (circ e) tag tag_len in
    Ok (mkep c (layer_hint e)).

(** ** Streams *)

(** The windows of an [edge_connection_t]. *)
Record edge_t := mkedge { e_package_window : Z; e_deliver_window : Z; uses_flow_control : bool }.

Definition sendme_process_stream_level (conn : edge_t) : cres edge_t :=
  if uses_flow_control conn then Err
  else if STREAMWINDOW_START_MAX <? e_package_window conn + STREAMWINDOW_INCREMENT then Err
  else Ok (mkedge (e_package_window conn + STREAMWINDOW_INCREMENT) (e_deliver_window conn) (uses_flow_control conn)).

(** The loop of [sendme_connection_edge_consider_sending]; [send] says for each
    SENDME whether [connection_edge_send_command] succeeds. *)
Fixpoint stream_loop (fuel : nat) (conn : edge_t) (send : nat -> bool) (n : nat) : cres (edge_t * nat) :=
  match fuel with
  | O => Fuel
  | S fuel =>
      if e_deliver_window conn <=? STREAMWINDOW_START - STREAMWINDOW_INCREMENT then
        let conn := mkedge (e_package_window conn) (e_deliver_window conn + STREAMWINDOW_INCREMENT) (uses_flow_control conn) in
        if send n then stream_loop fuel conn send (S n) else Ok (conn, n)
      else Ok (conn, n)
  end.

(** The connection and how many SENDMEs were sent. *)
Definition sendme_connection_edge_consider_sending (conn : edge_t) (outbuf_too_full has_circuit : bool) (send : nat -> bool)
    : cres (edge_t * nat) :=
  if uses_flow_control conn then Ok (conn, O)
  else if outbuf_too_full then Ok (conn, O)
  else if negb has_circuit then Ok (conn, O)
  else stream_loop (S (Z.to_nat (STREAMWINDOW_START - e_deliver_window conn))) conn send O.
