(* ===== verification/FlowSystem.v ===== *)
(** * Two endpoints of a circuit

    Composes Sendme and CongCtl: one endpoint packages DATA cells, the other
    delivers them and answers with SENDMEs, over channels that keep the order, the
    way relay.c calls them ([relay_send_command_from_edge],
    [connection_edge_process_relay_cell] and [process_sendme_cell]).  The cells in
    flight and the SENDMEs in flight are lists; a cell is its number.  The
    cryptographic layer is a parameter: it gives every cell a tag that both
    endpoints compute. *)

From S2P Require Import Prelude CString UtilString DiOps NetParams Trunnel CongCtl Sendme.
From Stdlib Require Import ZArith String.
From stdpp Require Import base list numbers relations.
Open Scope Z_scope.

Record sys := mksys {
  snd_ep : endpoint; rcv_ep : endpoint; data : list Z; acks : list bytes; sent : Z; clock_broken : bool
}.

(** A cell is sent at a time; a cell arrives; a SENDME arrives at a time; the
    channel of the sender blocks or unblocks. *)
Inductive action := ASend (now_usec : Z) | AData | AAck (now_usec : Z) | AChan (ch : chan_state).

Definition set_chan (ch : chan_state) (e : endpoint) : endpoint :=
  mkep (mkcirc (is_origin (circ e)) (circ_win (circ e)) (sendme_last_digests (circ e)) ch (has_conflux (circ e))) (layer_hint e).

Section System.

Variable ns : option (list bytes).
Variable g : cc_globals.
Variable tag : Z -> bytes.

(** The end of [relay_send_command_from_edge] for a DATA cell. *)
Definition send_data (e : endpoint) (n now_usec : Z) : cres endpoint :=
  let e := with_hint_win (set_tag (tag n) (hint_win e)) e in
  let* e := sendme_record_cell_digest_on_circ e in
  let* (e, window) := sendme_note_circuit_data_packaged e now_usec in
  if window <? 0 then Err else Ok e.

(** What [connection_edge_process_relay_cell] does about the windows for a DATA
    cell. *)
Definition receive_data (e : endpoint) (n : Z) : cres (endpoint * list bytes) :=
  let e := with_hint_win (set_tag (tag n) (hint_win e)) e in
  let* (e, window) := sendme_circuit_data_received e in
  if window <? 0 then Err else sendme_circuit_consider_sending ns e.

Definition perform (s : sys) (a : action) : cres sys :=
  match a with
  | ASend now_usec =>
      let* e := send_data (snd_ep s) (sent s + 1) now_usec in
      Ok (mksys e (rcv_ep s) (data s ++ [sent s + 1]) (acks s) (sent s + 1) (clock_broken s))
  | AData =>
      match data s with
      | [] => Err
      | n :: ds =>
          let* (e, ps) := receive_data (rcv_ep s) n in
          Ok (mksys (snd_ep s) e ds (acks s ++ ps) (sent s) (clock_broken s))
      end
  | AAck now_usec =>
      match acks s with
      | [] => Err
      | p :: ps =>
          let* (e, b) := sendme_process_circuit_level ns g (clock_broken s) (snd_ep s) p now_usec in
          Ok (mksys e (rcv_ep s) (data s) ps (sent s) b)
      end
  | AChan ch => Ok (mksys (set_chan ch (snd_ep s)) (rcv_ep s) (data s) (acks s) (sent s) (clock_broken s))
  end.

(** A cell is packaged only while the window is open; a SENDME arrives within the limit
    on round trips, and not with a clock that never moved on a blocked channel. *)
Definition enabled (s : sys) (a : action) : Prop :=
  match a with
  | ASend _ => 0 < congestion_control_get_package_window (snd_ep s)
  | AData => data s <> []
  | AAck now_usec =>
      acks s <> [] /\
      match ccontrol (hint_win (snd_ep s)) with
      | None => True
      | Some cc => in_time cc now_usec /\ clock_ok cc (circ_chan (circ (snd_ep s))) now_usec
      end
  | AChan _ => True
  end.

Definition step (s s' : sys) : Prop := exists a, enabled s a /\ perform s a = Ok s'.

(** ** Endpoints *)

Definition valid_ep (e : endpoint) : Prop :=
  is_origin (circ e) = match layer_hint e with Some _ => true | None => false end.

Lemma hint_with w e : hint_win (with_hint_win w e) = w.
Proof. unfold hint_win, with_hint_win. by destruct (layer_hint e). Qed.

Lemma valid_with w e : valid_ep e -> valid_ep (with_hint_win w e).
Proof. unfold valid_ep, with_hint_win. by destruct (layer_hint e). Qed.

Lemma digests_with w e : sendme_last_digests (circ (with_hint_win w e)) = sendme_last_digests (circ e).
Proof. unfold with_hint_win. by destruct (layer_hint e). Qed.

Lemma side_valid e : valid_ep e -> side_win e = Ok (hint_win e).
Proof. unfold valid_ep, side_win, hint_win. intros ->. by destruct (layer_hint e). Qed.

Lemma with_side_valid w e : valid_ep e -> with_side_win w e = with_hint_win w e.
Proof. unfold valid_ep, with_side_win, with_hint_win. intros ->. by destruct (layer_hint e). Qed.

Lemma get_tag_valid e : valid_ep e -> get_sendme_tag e = Ok (crypto_tag (hint_win e), tag_len (crypto_kind (hint_win e))).
Proof. unfold valid_ep, get_sendme_tag, hint_win. intros ->. by destruct (layer_hint e). Qed.

(** ** The invariant *)

Variable K : relay_crypto_kind.
Variables I F : Z.

Hypothesis Hg : globals_ok g.
Hypothesis HI : 2 <= I <= 255.
Hypothesis HF : 1 <= F <= cwnd_max g.
Hypothesis Htag : forall n, zlen (tag n) = tag_len K /\ Forall is_byte (tag n).

(** The version that is emitted is accepted. *)
Definition emits_v1 : bool := param_value ns (s2b "sendme_emit_min_version") 1 0 255 =? 1.
Hypothesis Hver : param_value ns (s2b "sendme_accept_min_version") 0 0 255 <= if emits_v1 then 1 else 0.

(** The tag of the [k]-th cell that is answered, as the sender keeps it and as
    the SENDME carries it. *)
Definition kept (k : Z) : bytes := match K with RCK_TOR1 => tag (k * I) | RCK_CGO => tag (k * I) ++ repeat 0 4 end.

Definition sendme_bytes (t : bytes) : bytes := 1 :: put_u16 (zlen t) ++ t.
Definition payload (k : Z) : bytes := if emits_v1 then sendme_bytes (tag (k * I)) else [].

(** The package side: [n] cells were sent, [a] SENDMEs were processed. *)
Definition package_ok (w : window_t) (n a : Z) : Prop :=
  match ccontrol w with
  | None => I = CIRCWINDOW_INCREMENT /\ package_window w = CIRCWINDOW_START - (n - I * a) /\ 0 <= package_window w
  | Some cc => cc_ok g F cc /\ inc cc = I /\ inflight cc = n - I * a
  end.

Definition inc_of (w : window_t) : Z := match ccontrol w with Some cc => inc cc | None => CIRCWINDOW_INCREMENT end.

Record inv (s : sys) (r a : Z) : Prop := mk_inv {
  in_snd : valid_ep (snd_ep s) /\ crypto_kind (hint_win (snd_ep s)) = K;
  in_rcv : valid_ep (rcv_ep s) /\ crypto_kind (hint_win (rcv_ep s)) = K /\ inc_of (hint_win (rcv_ep s)) = I;
  in_counts : 0 <= a <= r / I /\ 0 <= r <= sent s;
  in_data : data s = seqZ (r + 1) (sent s - r);
  in_acks : acks s = map payload (seqZ (a + 1) (r / I - a));
  in_digests : default [] (sendme_last_digests (circ (snd_ep s))) = map kept (seqZ (a + 1) (sent s / I - a));
  in_deliver : deliver_window (hint_win (rcv_ep s)) = CIRCWINDOW_START - r mod I;
  in_package : package_ok (hint_win (snd_ep s)) (sent s) a
}.

(** ** Sending *)

Lemma seqZ_grow m n : 0 <= n -> seqZ m (n + 1) = seqZ m n ++ [m + n].
Proof. intros Hn. by rewrite seqZ_app by lia. Qed.

Lemma div_mono_le x y : 0 <= x <= y -> x / I <= y / I.
Proof. intros H. apply Z.div_le_mono; lia. Qed.

Lemma mod_shift n a : (n - I * a) mod I = n mod I.
Proof. replace (n - I * a) with (n + (- a) * I) by lia. by rewrite Z.mod_add by lia. Qed.

Lemma fixed_window_mod n a :
  I = CIRCWINDOW_INCREMENT -> 1 <= CIRCWINDOW_START - (n - I * a) <= CIRCWINDOW_START ->
  (if CIRCWINDOW_START - (n - I * a) =? CIRCWINDOW_START then Ok false
   else if negb (Z.rem (CIRCWINDOW_START - (n - I * a) - 1) CIRCWINDOW_INCREMENT =? 0) then Ok false else Ok true)
  = Ok ((n + 1) mod I =? 0).
Proof.
  intros EI Hw. rewrite <- EI. set (x := n - I * a) in *. assert (Hx : (n + 1) mod I = (x + 1) mod I).
  { unfold x. replace (n - I * a + 1) with (n + 1 - I * a) by lia. by rewrite mod_shift. }
  rewrite Hx. unfold CIRCWINDOW_START, CIRCWINDOW_INCREMENT in *. rewrite Z.rem_mod_nonneg by lia. rewrite EI.
  destruct (Z.eqb_spec (1000 - x) 1000).
  - replace (x + 1) with 1 by lia. done.
  - replace (1000 - x - 1) with (- (x + 1) + 10 * 100) by lia. rewrite Z.mod_add by lia.
    destruct (Z.eqb_spec ((x + 1) mod 100) 0) as [E|E].
    + rewrite Z.mod_opp_l_z by lia. done.
    + rewrite Z.mod_opp_l_nz by lia. rewrite (proj2 (Z.eqb_neq _ _)); [done|].
      pose proof (Z.mod_pos_bound (x + 1) 100). lia.
Qed.

Lemma window_open w n a :
  package_ok w n a -> 0 <= I * a <= n ->
  0 < match ccontrol w with None => package_window w | Some cc => cc_package_window cc end ->
  match ccontrol w with
  | Some cc => cc_sent_cell_for_sendme cc
  | None =>
      if package_window w =? CIRCWINDOW_START then Ok false
      else if negb (Z.rem (package_window w - 1) CIRCWINDOW_INCREMENT =? 0) then Ok false else Ok true
  end = Ok ((n + 1) mod I =? 0).
Proof.
  unfold package_ok. destruct (ccontrol w) as [cc|].
  - intros (Hok & Ei & En) Ha _. destruct (co_inflight _ _ _ Hok). pose proof (go_max _ Hg). unfold INT32_MAX in *.
    rewrite cc_sends_for_sendme by lia. rewrite Ei, En. f_equal. f_equal.
    replace (n - I * a + 1) with (n + 1 - I * a) by lia. apply mod_shift.
  - intros (EI & -> & Hn) Ha Hw. apply fixed_window_mod; [done|]. unfold CIRCWINDOW_START in *. lia.
Qed.

Lemma kept_record c t :
  zlen t = tag_len K ->
  record_cell_digest_on_circ c t (tag_len K)
  = Ok (set_digests (Some (default [] (sendme_last_digests c) ++ [match K with RCK_TOR1 => t | RCK_CGO => t ++ repeat 0 4 end])) c).
Proof.
  intros Ht. unfold record_cell_digest_on_circ, tag_len, SENDME_TAG_LEN_TOR1, SENDME_TAG_LEN_CGO in *.
  destruct K; cbn [Z.eqb Pos.eqb cbind]; rewrite take_ge by (unfold zlen in Ht; lia); done.
Qed.

(** The list of digests after one more cell. *)
Definition more_digests (n : Z) (t : bytes) : list bytes :=
  if (n + 1) mod I =? 0 then [match K with RCK_TOR1 => t | RCK_CGO => t ++ repeat 0 4 end] else [].

Lemma record_ok e n a t :
  valid_ep e -> crypto_kind (hint_win e) = K -> crypto_tag (hint_win e) = t -> zlen t = tag_len K ->
  package_ok (hint_win e) n a -> 0 <= I * a <= n -> 0 < congestion_control_get_package_window e ->
  exists e', sendme_record_cell_digest_on_circ e = Ok e' /\ valid_ep e' /\ hint_win e' = hint_win e
    /\ default [] (sendme_last_digests (circ e')) = default [] (sendme_last_digests (circ e)) ++ more_digests n t.
Proof.
  intros Hv Hk Ht Hl Hp Ha Hw. unfold sendme_record_cell_digest_on_circ, circuit_sent_cell_for_sendme, more_digests.
  rewrite (window_open _ n a Hp Ha Hw). cbn [cbind]. destruct (_ =? 0); cbn [negb].
  - rewrite get_tag_valid by done. cbn [cbind]. rewrite Ht, Hk, kept_record by done. cbn [cbind]. eexists. split; [done|].
    split; [done|]. split; [|done]. unfold hint_win. cbn. by destruct (layer_hint e).
  - exists e. rewrite app_nil_r. done.
Qed.

Lemma package_ok_tag w n a t : package_ok w n a -> package_ok (set_tag t w) n a.
Proof. done. Qed.

Lemma note_packaged_ok e n a now_usec :
  valid_ep e -> package_ok (hint_win e) n a -> 0 <= I * a <= n -> 0 < congestion_control_get_package_window e ->
  exists e' w, sendme_note_circuit_data_packaged e now_usec = Ok (e', w) /\ 0 <= w /\ valid_ep e'
    /\ crypto_kind (hint_win e') = crypto_kind (hint_win e)
    /\ sendme_last_digests (circ e') = sendme_last_digests (circ e)
    /\ package_ok (hint_win e') (n + 1) a.
Proof.
  intros Hv Hp Ha Hw. unfold sendme_note_circuit_data_packaged, congestion_control_get_package_window, package_ok in *.
  destruct (ccontrol (hint_win e)) as [cc|] eqn:Ec.
  - destruct Hp as (Hok & Ei & En).
    destruct (note_cell_sent_ok g F cc now_usec Hg Hok Hw) as (cc' & -> & Hok' & Hpar & Hc & Hi & _). cbn [cbind].
    do 2 eexists. split; [done|]. rewrite hint_with. cbn [ccontrol set_cc].
    split; [|split; [by apply valid_with|split; [done|split; [apply digests_with|split; [done|]]]]].
    + pose proof (co_inflight _ _ _ Hok'). pose proof (co_cwnd _ _ _ Hok'). pose proof (go_max _ Hg).
      rewrite package_window_pos by (unfold INT32_MAX in *; lia). lia.
    + split; [unfold inc; by rewrite Hpar|]. lia.
  - destruct Hp as (EI & Ep & H0). rewrite side_valid by done. cbn [cbind]. rewrite with_side_valid by done.
    do 2 eexists. split; [done|]. rewrite hint_with. cbn [ccontrol set_package package_window]. rewrite Ec.
    split; [lia|]. split; [by apply valid_with|]. split; [done|]. split; [apply digests_with|]. split; [done|]. lia.
Qed.

Lemma kept_next n : (n + 1) mod I = 0 -> (n + 1) / I * I = n + 1.
Proof. intros H. rewrite (Z.div_mod (n + 1) I) at 2 by lia. rewrite H. lia. Qed.

Lemma digests_next n a :
  0 <= a <= n / I -> 0 <= n ->
  map kept (seqZ (a + 1) (n / I - a)) ++ more_digests n (tag (n + 1)) = map kept (seqZ (a + 1) ((n + 1) / I - a)).
Proof.
  intros Ha Hn. unfold more_digests. rewrite (div_succ n I) by lia. destruct (Z.eqb_spec ((n + 1) mod I) 0) as [E|E].
  - replace (n / I + 1 - a) with (n / I - a + 1) by lia. rewrite seqZ_grow by lia. rewrite map_app. f_equal. cbn [map].
    assert (Hk : (a + 1 + (n / I - a)) * I = n + 1).
    { rewrite <- (kept_next n E). rewrite (div_succ n I) by lia. rewrite (proj2 (Z.eqb_eq _ _) E). lia. }
    unfold kept. rewrite Hk. by destruct K.
  - by rewrite app_nil_r, Z.add_0_r.
Qed.

Lemma counts_sent r a n : 0 <= a <= r / I -> 0 <= r <= n -> 0 <= a <= n / I /\ 0 <= I * a <= n.
Proof.
  intros Ha Hr. pose proof (div_mono_le r n Hr). assert (Hs : a <= n / I) by lia. split; [lia|].
  pose proof (Z.mul_div_le n I). nia.
Qed.

Lemma send_preserves s r a now_usec :
  inv s r a -> enabled s (ASend now_usec) -> exists s', perform s (ASend now_usec) = Ok s' /\ inv s' r a.
Proof.
  intros [(Hv & Hk) Hr [Ca Cr] Hd Hak Hdg Hdl Hp] Hen. cbn [enabled] in Hen. cbn [perform]. unfold send_data.
  destruct (counts_sent r a (sent s) Ca Cr) as [Ca' Cs].
  set (e1 := with_hint_win (set_tag (tag (sent s + 1)) (hint_win (snd_ep s))) (snd_ep s)).
  assert (E1 : hint_win e1 = set_tag (tag (sent s + 1)) (hint_win (snd_ep s))) by apply hint_with.
  assert (W1 : congestion_control_get_package_window e1 = congestion_control_get_package_window (snd_ep s)).
  { unfold congestion_control_get_package_window. by rewrite E1. }
  destruct (record_ok e1 (sent s) a (tag (sent s + 1))) as (e2 & -> & V2 & E2 & D2);
    [by apply valid_with|by rewrite E1|by rewrite E1|apply Htag|rewrite E1; by apply package_ok_tag|done|by rewrite W1|].
  cbn [cbind]. destruct (note_packaged_ok e2 (sent s) a now_usec) as (e3 & w & -> & Hw & V3 & K3 & D3 & P3);
    [done|rewrite E2, E1; by apply package_ok_tag|done|unfold congestion_control_get_package_window in *; by rewrite E2, W1|].
  cbn [cbind]. rewrite (proj2 (Z.ltb_ge _ _)) by done. cbn [cbind]. eexists. split; [done|].
  split; cbn [snd_ep rcv_ep data acks sent]; [|done|split; [done|lia]| |done| |done|done].
  - split; [done|]. by rewrite K3, E2, E1.
  - rewrite Hd. replace (sent s + 1 - r) with (sent s - r + 1) by lia. rewrite seqZ_grow by lia. do 2 f_equal. lia.
  - rewrite D3, D2. unfold e1. rewrite digests_with, Hdg. apply digests_next; lia.
Qed.

(** ** Receiving *)

Lemma tag_len_cases : tag_len K = 16 \/ tag_len K = 20.
Proof. destruct K; [by right|by left]. Qed.

Lemma encode_sendme t :
  zlen t = tag_len K ->
  sendme_cell_encode RELAY_PAYLOAD_SIZE_MAX (mksendme 1 (tag_len K) t) = TOk (sendme_bytes t)
  /\ sendme_cell_parse (sendme_bytes t) = TOk (mksendme 1 (tag_len K) t, []).
Proof.
  intros Ht. assert (Hok : sendme_ok (mksendme 1 (tag_len K) t)) by (split; [done|]; split; [apply tag_len_cases|done]).
  destruct (sendme_encode_parse _ RELAY_PAYLOAD_SIZE_MAX Hok) as (b & Hb & _ & Hp).
  { cbn. pose proof tag_len_cases. unfold RELAY_PAYLOAD_SIZE_MAX. lia. }
  assert (Eb : b = sendme_bytes t).
  { revert Hb. unfold sendme_cell_encode. rewrite (sendme_ok_check _ Hok). cbn [negb sc_version sc_data_len sc_data_v1_digest].
    rewrite put_u8_ok by done. cbn [tbind]. rewrite put_ok by done. cbn [tbind app].
    change (1 =? 0) with false. change (1 =? 1) with true. cbv iota.
    rewrite put_ok by (pose proof tag_len_cases; unfold RELAY_PAYLOAD_SIZE_MAX; zlia). cbn [tbind].
    set (u := zlen _ - zlen _). assert (Hu : u = zlen t) by (unfold u; zlia). rewrite Hu.
    rewrite (proj2 (Z.ltb_ge _ _)) by (pose proof tag_len_cases; unfold UINT16_MAX; lia).
    unfold sendme_bytes. cbn [app take drop put_u16]. rewrite drop_0. intros [= <-]. done. }
  rewrite Hb, Eb. split; [done|]. specialize (Hp []). by rewrite app_nil_r, Eb in Hp.
Qed.

Lemma emit_ok t :
  zlen t = tag_len K ->
  send_circuit_level_sendme ns t (tag_len K) = Ok (if emits_v1 then sendme_bytes t else []).
Proof.
  intros Ht. unfold send_circuit_level_sendme, get_emit_min_version. rewrite networkstatus_get_param_value by lia. cbn [cbind].
  fold emits_v1. destruct emits_v1; [|done]. unfold build_cell_payload_v1.
  assert (tag_len_ok (tag_len K) = true) as -> by by destruct K.
  rewrite take_ge by (unfold zlen in Ht; lia). by destruct (encode_sendme t Ht) as [-> _].
Qed.

Lemma inc_of_set_deliver v w : inc_of (set_deliver v w) = inc_of w.
Proof. done. Qed.

(** After the deliver window was decremented for the [r+1]-th cell. *)
Lemma consider_ok e r :
  valid_ep e -> crypto_kind (hint_win e) = K -> crypto_tag (hint_win e) = tag (r + 1) -> inc_of (hint_win e) = I -> 0 <= r ->
  deliver_window (hint_win e) = CIRCWINDOW_START - r mod I - 1 ->
  exists e', sendme_circuit_consider_sending ns e
      = Ok (e', if (r + 1) mod I =? 0 then [if emits_v1 then sendme_bytes (tag (r + 1)) else []] else [])
    /\ valid_ep e' /\ crypto_kind (hint_win e') = K /\ inc_of (hint_win e') = I
    /\ deliver_window (hint_win e') = CIRCWINDOW_START - (r + 1) mod I.
Proof.
  intros Hv Hk Ht Hi Hr Hd. pose proof (Z.mod_pos_bound r I ltac:(lia)) as Hm.
  assert (Hnext : (r + 1) mod I = if r mod I + 1 =? I then 0 else r mod I + 1).
  { rewrite <- Z.add_mod_idemp_l by lia. zcase; [by rewrite e0, Z.mod_same by lia|]. apply Z.mod_small. lia. }
  unfold sendme_circuit_consider_sending, sendme_get_inc_count. fold (inc_of (hint_win e)). rewrite Hi, Hnext.
  cbn [consider_loop]. rewrite Hd. destruct (Z.eqb_spec (r mod I + 1) I) as [E|E].
  - rewrite (proj2 (Z.leb_le _ _)) by lia. change (0 =? 0) with true. cbv iota zeta.
    replace (CIRCWINDOW_START - r mod I - 1 + I) with CIRCWINDOW_START by lia.
    set (e1 := with_hint_win _ _). assert (E1 : hint_win e1 = set_deliver CIRCWINDOW_START (hint_win e)) by apply hint_with.
    rewrite get_tag_valid by by apply valid_with. rewrite E1. cbn [cbind crypto_tag crypto_kind set_deliver]. rewrite Ht, Hk.
    rewrite emit_ok by apply Htag.
    destruct (Z.to_nat (CIRCWINDOW_START - (CIRCWINDOW_START - r mod I - 1))) as [|f] eqn:Ef; [lia|]. cbn [consider_loop].
    rewrite E1. cbn [deliver_window set_deliver]. rewrite (proj2 (Z.leb_gt _ _)) by lia. cbn [cbind].
    exists e1. split; [done|]. split; [by apply valid_with|]. rewrite E1. split; [done|]. split; [done|]. cbn. lia.
  - rewrite (proj2 (Z.leb_gt _ _)) by lia. rewrite (proj2 (Z.eqb_neq _ 0)) by lia. exists e. split; [done|].
    rewrite Hd. split; [done|]. split; [done|]. split; [done|]. lia.
Qed.

Lemma payload_next r a :
  0 <= a <= r / I -> 0 <= r ->
  map payload (seqZ (a + 1) (r / I - a))
    ++ (if (r + 1) mod I =? 0 then [if emits_v1 then sendme_bytes (tag (r + 1)) else []] else [])
  = map payload (seqZ (a + 1) ((r + 1) / I - a)).
Proof.
  intros Ha Hn. rewrite (div_succ r I) by lia. destruct (Z.eqb_spec ((r + 1) mod I) 0) as [E|E].
  - replace (r / I + 1 - a) with (r / I - a + 1) by lia. rewrite seqZ_grow by lia. rewrite map_app. f_equal. cbn [map].
    assert (Hk : (a + 1 + (r / I - a)) * I = r + 1).
    { rewrite <- (kept_next r E). rewrite (div_succ r I) by lia. rewrite (proj2 (Z.eqb_eq _ _) E). lia. }
    unfold payload. by rewrite Hk.
  - by rewrite app_nil_r, Z.add_0_r.
Qed.

Lemma data_preserves s r a :
  inv s r a -> enabled s AData -> exists s', perform s AData = Ok s' /\ inv s' (r + 1) a
    /\ data s' = tail (data s) /\ sent s' = sent s.
Proof.
  intros [Hs (Hv & Hk & Hi) [Ca Cr] Hd Hak Hdg Hdl Hp] Hen. cbn [enabled] in Hen. cbn [perform].
  assert (Hlt : r < sent s).
  { destruct (Z.lt_ge_cases r (sent s)); [done|]. rewrite Hd, seqZ_nil in Hen by lia. done. }
  rewrite Hd, seqZ_cons by lia. unfold receive_data.
  set (e1 := with_hint_win (set_tag (tag (r + 1)) (hint_win (rcv_ep s))) (rcv_ep s)).
  assert (E1 : hint_win e1 = set_tag (tag (r + 1)) (hint_win (rcv_ep s))) by apply hint_with.
  assert (V1 : valid_ep e1) by by apply valid_with.
  unfold sendme_circuit_data_received. rewrite side_valid by done. cbn [cbind]. rewrite with_side_valid, E1 by done.
  cbn [deliver_window set_deliver set_tag]. rewrite Hdl. pose proof (Z.mod_pos_bound r I ltac:(lia)).
  rewrite (proj2 (Z.ltb_ge _ _)) by (unfold CIRCWINDOW_START; lia).
  set (e2 := with_hint_win _ e1). assert (E2 : hint_win e2 = set_deliver (CIRCWINDOW_START - r mod I - 1) (set_tag (tag (r + 1)) (hint_win (rcv_ep s)))).
  { unfold e2. by rewrite hint_with. }
  destruct (consider_ok e2 r) as (e3 & -> & V3 & K3 & I3 & D3);
    [by apply valid_with|by rewrite E2|by rewrite E2|by rewrite E2|lia|by rewrite E2|].
  cbn [cbind]. eexists. split; [done|]. split; [|done].
  assert (Hdiv : r / I <= (r + 1) / I) by (apply div_mono_le; lia).
  split; cbn [snd_ep rcv_ep data acks sent]; [done|done|lia| | |done|done|done].
  - f_equal; lia.
  - rewrite Hak. apply payload_next; lia.
Qed.

(** ** Acknowledgements *)

Lemma kept_matches k : v1_tag_matches (kept k) (tag (k * I)) (tag_len K) = Ok true.
Proof.
  destruct (Htag (k * I)) as [Hl Hb]. unfold v1_tag_matches, kept.
  assert (Hz : forall n, Forall is_byte (repeat 0 n)) by (induction n; constructor; [done|done]).
  rewrite tor_memeq_spec.
  - rewrite bool_decide_eq_true_2; [done|]. destruct K; [done|]. rewrite take_app_le by (unfold zlen in Hl; lia). done.
  - destruct K; rewrite ?length_app; unfold zlen in Hl; lia.
  - unfold zlen in Hl. lia.
  - destruct K; [done|]. by apply Forall_app.
  - done.
Qed.

Lemma version_handled v :
  v = (if emits_v1 then 1 else 0) ->
  cell_version_can_be_handled (param_value ns (s2b "sendme_accept_min_version") 0 0 255) v = true.
Proof.
  intros ->. unfold cell_version_can_be_handled, SENDME_MAX_SUPPORTED_VERSION.
  destruct emits_v1; rewrite !(proj2 (Z.ltb_ge _ _)) by lia; done.
Qed.

Lemma valid_ok e k ds :
  valid_ep e -> crypto_kind (hint_win e) = K -> default [] (sendme_last_digests (circ e)) = kept k :: ds ->
  sendme_is_valid ns e (payload k) = Ok (set_digests (Some ds) (circ e)).
Proof.
  intros Hv Hk Hd. unfold sendme_is_valid.
  assert (Hpop : pop_first_cell_digest (circ e) = (Some (kept k), set_digests (Some ds) (circ e))).
  { unfold pop_first_cell_digest. destruct (sendme_last_digests (circ e)) as [[|d l]|]; cbn in Hd; try done. by injection Hd as -> ->. }
  assert (Hlen : match layer_hint e with
      | Some l => Ok (relay_crypto_sendme_tag_len (crypto_kind l))
      | None => if negb (is_origin (circ e)) then Ok (relay_crypto_sendme_tag_len (crypto_kind (circ_win (circ e)))) else Err
      end = Ok (tag_len K)).
  { revert Hk. unfold hint_win. rewrite Hv. destruct (layer_hint e); cbn; by intros ->. }
  destruct (Htag (k * I)) as [Hl _]. unfold get_accept_min_version. rewrite networkstatus_get_param_value by lia.
  pose proof (version_handled _ eq_refl) as Hh. unfold payload. destruct emits_v1.
  - unfold sendme_bytes at 1. destruct (encode_sendme _ Hl) as [_ Hparse]. rewrite Hparse. cbn [cbind sc_version].
    rewrite Hh. cbn [negb]. rewrite Hlen. cbn [cbind]. rewrite Hpop. change (1 =? 1) with true. cbv iota.
    unfold cell_v1_is_valid. cbn [sc_data_len sc_data_v1_digest]. assert (tag_len_ok (tag_len K) = true) as -> by by destruct K.
    cbn [negb]. rewrite (proj2 (Z.ltb_ge _ _)), Z.eqb_refl by lia. cbn [negb]. by rewrite kept_matches.
  - cbn [cbind]. rewrite Hh. cbn [negb]. rewrite Hlen. cbn [cbind]. by rewrite Hpop.
Qed.

Lemma impl_ok e n a :
  valid_ep e -> ccontrol (hint_win e) = None -> package_ok (hint_win e) n a -> I * (a + 1) <= n ->
  exists e', sendme_process_circuit_level_impl e = Ok e' /\ valid_ep e' /\ crypto_kind (hint_win e') = crypto_kind (hint_win e)
    /\ circ_chan (circ e') = circ_chan (circ e)
    /\ sendme_last_digests (circ e') = sendme_last_digests (circ e) /\ package_ok (hint_win e') n (a + 1).
Proof.
  intros Hv Hc Hp Hn. unfold package_ok in Hp. rewrite Hc in Hp. destruct Hp as (EI & Ep & H0).
  assert (Hle : (CIRCWINDOW_START_MAX <? package_window (hint_win e) + CIRCWINDOW_INCREMENT) = false).
  { apply Z.ltb_ge. rewrite Ep, <- EI. unfold CIRCWINDOW_START, CIRCWINDOW_START_MAX. lia. }
  unfold sendme_process_circuit_level_impl. unfold valid_ep, hint_win, package_ok in *. rewrite Hv.
  destruct (layer_hint e) eqn:El; cbv beta; rewrite Hle; cbn [cbind]; eexists; (split; [done|]); cbn; rewrite ?El, ?Hc; cbn;
    (split; [done|]); (split; [done|]); (split; [done|]); (split; [done|]); (split; [done|]); rewrite Ep, <- EI; unfold CIRCWINDOW_START in *; nia.
Qed.

Lemma ack_preserves s r a now_usec :
  inv s r a -> enabled s (AAck now_usec) ->
  exists s', perform s (AAck now_usec) = Ok s' /\ inv s' r (a + 1) /\ acks s' = tail (acks s) /\ data s' = data s /\ sent s' = sent s.
Proof.
  intros [(Hv & Hk) Hr [Ca Cr] Hd Hak Hdg Hdl Hp] [Hne Henv]. cbn [perform].
  assert (Hlt : a < r / I).
  { destruct (Z.lt_ge_cases a (r / I)); [done|]. rewrite Hak, seqZ_nil in Hne by lia. done. }
  pose proof (div_mono_le r (sent s) Cr) as Hdiv.
  assert (Hsent : I * (a + 1) <= sent s) by (pose proof (Z.mul_div_le r I); nia).
  rewrite Hak, seqZ_cons by lia. cbn [map]. rewrite seqZ_cons in Hdg by lia. cbn [map] in Hdg.
  unfold sendme_process_circuit_level. rewrite (valid_ok _ _ _ Hv Hk Hdg). cbn [cbind].
  set (ds := map kept _) in *. set (e1 := mkep _ _).
  assert (E1 : hint_win e1 = hint_win (snd_ep s)) by (unfold hint_win, e1; cbn; by destruct (layer_hint (snd_ep s))).
  assert (V1 : valid_ep e1) by done. assert (D1 : default [] (sendme_last_digests (circ e1)) = ds) by done.
  assert (Hnew : exists e b, match ccontrol (hint_win e1) with
      | None => let* e := sendme_process_circuit_level_impl e1 in Ok (e, clock_broken s)
      | Some cc =>
          let* (cc, broken, _) := congestion_control_dispatch_cc_alg g (clock_broken s) cc (circ_chan (circ e1)) (has_conflux (circ e1)) now_usec in
          Ok (with_hint_win (set_cc cc (hint_win e1)) e1, broken)
      end = Ok (e, b)
    /\ valid_ep e /\ crypto_kind (hint_win e) = K /\ default [] (sendme_last_digests (circ e)) = ds
    /\ package_ok (hint_win e) (sent s) (a + 1)).
  { rewrite E1. destruct (ccontrol (hint_win (snd_ep s))) as [cc|] eqn:Ec.
    - unfold package_ok in Hp. rewrite Ec in Hp. destruct Hp as (Hok & Ei & En). destruct Henv as [Ht Hck].
      destruct (process_sendme_ok g F Hg HF (clock_broken s) cc (circ_chan (circ e1)) (has_conflux (circ e1)) now_usec Hok)
        as (cc' & b' & x & -> & [S1 S2 S3 S4 _]); [rewrite Ei, En; lia|done|done|].
      cbn [cbind]. do 2 eexists. split; [done|]. split; [by apply valid_with|]. rewrite hint_with, digests_with. split; [done|]. split; [done|].
      unfold package_ok. cbn [ccontrol set_cc]. split; [done|]. unfold inc in *. rewrite S2. split; [done|]. lia.
    - destruct (impl_ok e1 (sent s) a) as (e2 & -> & V2 & K2 & _ & D2 & P2); [done|by rewrite E1|by rewrite E1|done|].
      cbn [cbind]. do 2 eexists. split; [done|]. split; [done|]. rewrite D2, K2, E1. done. }
  destruct Hnew as (e & b & -> & Ve & Ke & De & Pe). cbn [cbind]. eexists. split; [done|]. split; [|done].
  split; cbn [snd_ep rcv_ep data acks sent]; [done|done|lia|done| | |done|done].
  - do 2 f_equal; lia.
  - rewrite De. unfold ds. do 2 f_equal; lia.
Qed.

Lemma chan_preserves s r a ch : inv s r a -> exists s', perform s (AChan ch) = Ok s' /\ inv s' r a.
Proof.
  intros [(Hv & Hk) Hr HC Hd Hak Hdg Hdl Hp]. eexists. split; [done|]. unfold set_chan.
  assert (Hh : hint_win (set_chan ch (snd_ep s)) = hint_win (snd_ep s)).
  { unfold hint_win, set_chan. cbn. by destruct (layer_hint (snd_ep s)). }
  by split; cbn [snd_ep rcv_ep data acks sent]; fold (set_chan ch (snd_ep s)); rewrite ?Hh.
Qed.

(** ** Reachable states *)

Record initial (s : sys) : Prop := mk_initial {
  it_snd : valid_ep (snd_ep s) /\ crypto_kind (hint_win (snd_ep s)) = K;
  it_rcv : valid_ep (rcv_ep s) /\ crypto_kind (hint_win (rcv_ep s)) = K /\ inc_of (hint_win (rcv_ep s)) = I;
  it_none : data s = [] /\ acks s = [] /\ sent s = 0 /\ default [] (sendme_last_digests (circ (snd_ep s))) = [];
  it_deliver : deliver_window (hint_win (rcv_ep s)) = CIRCWINDOW_START;
  it_package : package_ok (hint_win (snd_ep s)) 0 0
}.

Lemma initial_inv s : initial s -> inv s 0 0.
Proof.
  intros [H1 H2 (H3 & H4 & H5 & H6) H7 H8]. assert (0 / I = 0 /\ 0 mod I = 0) as [E1 E2] by (rewrite Z.div_0_l, Z.mod_0_l by lia; done).
  split; rewrite ?H5, ?E1, ?E2; first [done | lia | by rewrite H7].
Qed.

Lemma step_preserves s a s' r k : inv s r k -> enabled s a -> perform s a = Ok s' -> exists r' k', inv s' r' k'.
Proof.
  intros Hi He Hs. destruct a as [now_usec| |now_usec|ch].
  - destruct (send_preserves s r k now_usec Hi He) as (s2 & E & H). rewrite E in Hs. injection Hs as <-. eauto.
  - destruct (data_preserves s r k Hi He) as (s2 & E & H & _). rewrite E in Hs. injection Hs as <-. eauto.
  - destruct (ack_preserves s r k now_usec Hi He) as (s2 & E & H & _). rewrite E in Hs. injection Hs as <-. eauto.
  - destruct (chan_preserves s r k ch Hi) as (s2 & E & H). rewrite E in Hs. injection Hs as <-. eauto.
Qed.

Lemma reachable_inv s0 s : initial s0 -> rtc step s0 s -> exists r a, inv s r a.
Proof.
  intros H0 Hr. assert (Hi : exists r a, inv s0 r a) by (exists 0, 0; by apply initial_inv).
  clear H0. induction Hr as [|x y z (a & Ha & Hp) _ IH]; [done|]. destruct Hi as (r & k & Hi). eauto using step_preserves.
Qed.

Lemma inv_progress s r k a : inv s r k -> enabled s a -> exists s', perform s a = Ok s'.
Proof.
  intros Hi He. destruct a as [now_usec| |now_usec|ch].
  - destruct (send_preserves s r k now_usec Hi He) as (s2 & E & _). eauto.
  - destruct (data_preserves s r k Hi He) as (s2 & E & _). eauto.
  - destruct (ack_preserves s r k now_usec Hi He) as (s2 & E & _). eauto.
  - eauto.
Qed.

(** ** Draining the channels *)

Definition delivery (s s' : sys) : Prop :=
  (enabled s AData /\ perform s AData = Ok s') \/ exists now_usec, enabled s (AAck now_usec) /\ perform s (AAck now_usec) = Ok s'.

Lemma drain_data n s r a :
  inv s r a -> length (data s) = n -> exists s', rtc delivery s s' /\ inv s' (sent s') a /\ data s' = [].
Proof.
  revert s r. induction n as [|n IH]; intros s r Hi Hn.
  - apply nil_length_inv in Hn. exists s. split; [done|]. split; [|done].
    assert (Hr : r = sent s).
    { pose proof (in_data _ _ _ Hi) as Hd. rewrite Hn in Hd. pose proof (in_counts _ _ _ Hi).
      destruct (Z.lt_ge_cases r (sent s)); [|lia]. rewrite seqZ_cons in Hd by lia. done. }
    by rewrite <- Hr.
  - assert (He : enabled s AData) by (cbn; intros E; by rewrite E in Hn).
    destruct (data_preserves s r a Hi He) as (s1 & E & H1 & D1 & _).
    destruct (IH s1 (r + 1) H1) as (s2 & R & H2 & D2); [rewrite D1; destruct (data s); [done|by injection Hn]|].
    exists s2. split; [|done]. eapply rtc_l; [|exact R]. by left.
Qed.

(** A time at which the next SENDME may arrive. *)
Lemma ack_enabled s r a : inv s r a -> acks s <> [] -> exists now_usec, enabled s (AAck now_usec).
Proof.
  intros Hi Hne. cbn [enabled]. pose proof (in_package _ _ _ Hi) as Hp. unfold package_ok in Hp.
  destruct (ccontrol (hint_win (snd_ep s))) as [cc|]; [|by exists 0]. destruct Hp as (Hok & Ei & En).
  assert (Hts : sendme_pending_timestamps cc <> []).
  { intros E. pose proof (co_ts _ _ _ Hok) as Ht. rewrite E, En, Ei in Ht. change (zlen []) with 0 in Ht.
    destruct (in_counts _ _ _ Hi) as [Ca Cr]. pose proof (div_mono_le r (sent s) Cr).
    assert (Hlt : a < r / I) by (destruct (Z.lt_ge_cases a (r / I)); [done|]; rewrite (in_acks _ _ _ Hi), seqZ_nil in Hne by lia; done).
    replace (sent s - I * a) with (sent s + (- a) * I) in Ht by lia. rewrite Z.div_add in Ht by lia. lia. }
  destruct (sendme_pending_timestamps cc) as [|t ts] eqn:Ets; [done|]. exists (t + 1). split; [done|]. split.
  - exists t, ts. split; [done|]. unfold RTT_LIMIT. lia.
  - right. right. rewrite Ets. cbn. intros [= Ht]. lia.
Qed.

Lemma drain_acks n s a :
  inv s (sent s) a -> data s = [] -> length (acks s) = n ->
  exists s', rtc delivery s s' /\ inv s' (sent s') (sent s' / I) /\ data s' = [] /\ acks s' = [].
Proof.
  revert s a. induction n as [|n IH]; intros s a Hi Hd Hn.
  - apply nil_length_inv in Hn. exists s. split; [done|]. split; [|done].
    assert (Ha : a = sent s / I).
    { pose proof (in_acks _ _ _ Hi) as Hk. rewrite Hn in Hk. destruct (in_counts _ _ _ Hi) as [Ca _].
      destruct (Z.lt_ge_cases a (sent s / I)); [|lia]. rewrite seqZ_cons in Hk by lia. done. }
    by rewrite <- Ha.
  - destruct (ack_enabled s (sent s) a Hi) as [now_usec He]; [intros E; by rewrite E in Hn|].
    destruct (ack_preserves s (sent s) a now_usec Hi He) as (s1 & E & H1 & A1 & D1 & S1).
    destruct (IH s1 (a + 1)) as (s2 & R & H2); [by rewrite S1|by rewrite D1|rewrite A1; destruct (acks s); [done|by injection Hn]|].
    exists s2. split; [|done]. eapply rtc_l; [|exact R]. right. by exists now_usec.
Qed.

Lemma drained_open s :
  I <= F -> inv s (sent s) (sent s / I) -> 0 < congestion_control_get_package_window (snd_ep s).
Proof.
  intros HIF Hi. pose proof (in_package _ _ _ Hi) as Hp. pose proof (Z.mod_pos_bound (sent s) I ltac:(lia)) as Hm.
  pose proof (Z.div_mod (sent s) I ltac:(lia)) as Hdm. unfold package_ok, congestion_control_get_package_window in *.
  destruct (ccontrol (hint_win (snd_ep s))) as [cc|].
  - destruct Hp as (Hok & Ei & En). pose proof (co_cwnd _ _ _ Hok). pose proof (co_inflight _ _ _ Hok). pose proof (go_max _ Hg).
    rewrite package_window_pos by (unfold INT32_MAX in *; lia). lia.
  - destruct Hp as (EI & -> & _). unfold CIRCWINDOW_START. lia.
Qed.

End System.

(** ** Claims *)

(** What the two endpoints agree on: the increment [I] (negotiated, or 100), a floor [F] of
    the congestion window, tags of the length of the relay cryptography, and a
    consensus that accepts the version it makes relays emit. *)
Record agreed (ns : option (list bytes)) (g : cc_globals) (tag : Z -> bytes) (K : relay_crypto_kind) (I F : Z) : Prop := mk_agreed {
  ag_globals : globals_ok g;
  ag_inc : 2 <= I <= 255;
  ag_floor : 1 <= F <= cwnd_max g;
  ag_tag : forall n, zlen (tag n) = tag_len K /\ Forall is_byte (tag n);
  ag_version : param_value ns (s2b "sendme_accept_min_version") 0 0 255 <= if emits_v1 ns then 1 else 0
}.

(** C14. Safety of the circuit-level flow control, for endpoints that agree ([agreed]:
    the consensus does not ask for a version of SENDMEs above the one that is emitted)
    and start with parameters in the invariant, for an increment of at least 2
    (with 1 the first cell is lost, [increment_one_loses_first_cell]), for SENDMEs that
    arrive within [RTT_LIMIT], and not with a clock that never moved on a blocked
    channel ([clock_ok]; otherwise [stalled_clock_divides_by_zero]): whatever the two
    endpoints did so far, in any interleaving of such actions, with fixed windows or
    with congestion control, no SENDME of the honest peer is refused, no call fails
    and no window is negative; the deliver window stays within one increment of its
    start, and the cells that were sent and not yet acknowledged stay within the
    maximum window. *)
Theorem flow_control_safe ns g tag K I F s0 s :
  agreed ns g tag K I F -> initial g K I F s0 -> rtc (step ns g tag) s0 s ->
  (forall a, enabled s a -> exists s', perform ns g tag s a = Ok s')
  /\ CIRCWINDOW_START - I < deliver_window (hint_win (rcv_ep s)) <= CIRCWINDOW_START
  /\ 0 <= congestion_control_get_package_window (snd_ep s)
  /\ exists n, 0 <= n <= sent s / I /\ sent s - I * n <= Z.max CIRCWINDOW_START (cwnd_max g)
     /\ length (default [] (sendme_last_digests (circ (snd_ep s)))) = Z.to_nat (sent s / I - n).
Proof.
  intros [Hg HI HF Ht Hv] H0 Hr. destruct (reachable_inv ns g tag K I F Hg HI HF Ht Hv s0 s H0 Hr) as (r & k & Hi).
  pose proof (Z.mod_pos_bound r I ltac:(lia)) as Hm. split; [intros a; by apply (inv_progress ns g tag K I F Hg HI HF Ht Hv s r k)|].
  split; [rewrite (in_deliver _ _ _ _ _ _ _ _ _ Hi); lia|].
  pose proof (in_package _ _ _ _ _ _ _ _ _ Hi) as Hp. destruct (in_counts _ _ _ _ _ _ _ _ _ Hi) as [Ca Cr].
  destruct (counts_sent I HI r k (sent s) Ca Cr) as [Ck _]. unfold package_ok, congestion_control_get_package_window in *. split.
  - destruct (ccontrol (hint_win (snd_ep s))) as [cc|]; [|lia]. destruct Hp as (Hok & _ & _).
    pose proof (co_cwnd _ _ _ Hok). pose proof (co_inflight _ _ _ Hok). pose proof (go_max _ Hg).
    rewrite package_window_pos by (unfold INT32_MAX in *; lia). lia.
  - exists k. split; [done|]. split.
    + destruct (ccontrol (hint_win (snd_ep s))) as [cc|]; [|lia]. destruct Hp as (Hok & _ & <-).
      pose proof (co_inflight _ _ _ Hok). lia.
    + by rewrite (in_digests _ _ _ _ _ _ _ _ _ Hi), length_map, length_seqZ.
Qed.

(** C15. Liveness of the circuit-level flow control, for an increment [I] of at
    least 2 and parameters that keep the window at [I] or above ([I <= F]; the ranges
    of the consensus parameters alone do not ensure it): the two endpoints never
    deadlock.  From every state they can reach by actions that are
    [enabled], delivering what is in flight (at times within the limit)
    empties both channels and leaves the sender with an open window. *)
Theorem flow_control_live ns g tag K I F s0 s :
  agreed ns g tag K I F -> I <= F -> initial g K I F s0 -> rtc (step ns g tag) s0 s ->
  exists s', rtc (delivery ns g tag) s s' /\ data s' = [] /\ acks s' = []
    /\ 0 < congestion_control_get_package_window (snd_ep s').
Proof.
  intros [Hg HI HF Ht Hv] HIF H0 Hr. destruct (reachable_inv ns g tag K I F Hg HI HF Ht Hv s0 s H0 Hr) as (r & k & Hi).
  destruct (drain_data ns g tag K I F HI Ht Hv (length (data s)) s r k Hi eq_refl) as (s1 & R1 & H1 & D1).
  destruct (drain_acks ns g tag K I F Hg HI HF Ht Hv (length (acks s1)) s1 k H1 D1 eq_refl) as (s2 & R2 & H2 & D2 & A2).
  exists s2. split; [by etransitivity|]. split; [done|]. split; [done|].
  by apply (drained_open ns g tag K I F Hg HI s2).
Qed.

(** *** Concrete circuits *)

Definition demo_tag (n : Z) : bytes := repeat 7 20.

Lemma demo_agreed I : 2 <= I <= 255 -> agreed None default_globals demo_tag RCK_TOR1 I 124.
Proof.
  intros HI. split; [apply default_globals_ok|done|cbn; unfold INT32_MAX; lia| |vm_compute; discriminate].
  intros n. split; [reflexivity|]. repeat constructor; lia.
Defined.

Definition demo_win (cc : option congestion_control_t) : window_t := mkwin CIRCWINDOW_START CIRCWINDOW_START cc RCK_TOR1 [].

(** A client that downloads from an exit: the exit sends. *)
Definition demo_sys (cc : option congestion_control_t) : sys :=
  mksys (mkep (mkcirc false (demo_win cc) None (mkchan 0 false) false) None)
        (mkep (mkcirc true (demo_win None) None (mkchan 0 false) false) (Some (demo_win cc))) [] [] 0 false.

(** A sequence of actions, each checked to be enabled. *)
Definition enabledb (s : sys) (a : action) : bool :=
  match a with
  | ASend _ => 0 <? congestion_control_get_package_window (snd_ep s)
  | AData => match data s with [] => false | _ => true end
  | AAck now_usec =>
      match acks s, ccontrol (hint_win (snd_ep s)) with
      | [], _ => false
      | _, None => true
      | _, Some cc =>
          match sendme_pending_timestamps cc with
          | [] => false
          | t :: _ => (0 <? now_usec - t) && (now_usec - t <=? RTT_LIMIT)
          end
      end
  | AChan _ => true
  end.

Lemma enabledb_enabled s a : enabledb s a = true -> enabled s a.
Proof.
  destruct a as [now_usec| |now_usec|ch]; cbn; [by intros ?%Z.ltb_lt|by destruct (data s)| |done].
  destruct (acks s); [done|]. intros H. split; [done|]. destruct (ccontrol _) as [cc|]; [|done].
  unfold in_time, clock_ok. destruct (sendme_pending_timestamps cc) as [|t ts]; [done|]. apply andb_prop in H as [?%Z.ltb_lt ?%Z.leb_le].
  split; [exists t, ts; split; [done|lia]|]. right. right. cbn. intros [= ?]. lia.
Qed.

Fixpoint run (ns : option (list bytes)) (g : cc_globals) (tag : Z -> bytes) (l : list action) (s : sys) : option sys :=
  match l with
  | [] => Some s
  | a :: l => if enabledb s a then match perform ns g tag s a with Ok s => run ns g tag l s | _ => None end else None
  end.

Lemma run_rtc ns g tag l s s' : run ns g tag l s = Some s' -> rtc (step ns g tag) s s'.
Proof.
  revert s. induction l as [|a l IH]; intros s; cbn; [by intros [= <-]|]. destruct (enabledb s a) eqn:He; [|done].
  destruct (perform _ _ _ s a) as [s1| | |] eqn:Hp; try done. intros H. apply rtc_l with s1; [|by apply IH].
  exists a. split; [by apply enabledb_enabled|done].
Qed.

(** The window of 1000 cells is used up; then 200 cells arrive and two SENDMEs return. *)
Definition fixed_run : list action :=
  map ASend (seqZ 0 1000) ++ repeat AData 200 ++ [AAck 2000; AAck 2001].

(** With congestion control: a full window, then two SENDMEs. *)
Definition cc_run : list action :=
  map (fun k => ASend (1000 * k)) (seqZ 0 124) ++ repeat AData 70 ++ [AAck 200000; AAck 250000].

Definition cc_new : congestion_control_t :=
  mkcc demo_params [] 0 0 0 0 124 0 0 0 true false false.

Lemma demo_initial I cc :
  2 <= I <= 255 ->
  match cc with None => I = CIRCWINDOW_INCREMENT | Some cc => cc_ok default_globals 124 cc /\ inc cc = I /\ inflight cc = 0 end ->
  initial default_globals RCK_TOR1 I 124 (demo_sys cc).
Proof.
  intros HI H. split; [done| |done|done|].
  - split; [done|]. split; [done|]. destruct cc; cbn; [by destruct H as (_ & ? & _)|done].
  - unfold package_ok. destruct cc; cbn; [|by rewrite Z.mul_0_r]. destruct H as (? & ? & ?). by rewrite Z.mul_0_r.
Qed.

Lemma cc_new_ok : cc_ok default_globals 124 cc_new /\ inc cc_new = 31 /\ inflight cc_new = 0.
Proof. split; [solve_cc_ok|split; reflexivity]. Qed.

Lemma flow_control_safe_witness :
  exists s, run None default_globals demo_tag fixed_run (demo_sys None) = Some s
    /\ congestion_control_get_package_window (snd_ep s) = 200
    /\ CIRCWINDOW_START - 100 < deliver_window (hint_win (rcv_ep s)) <= CIRCWINDOW_START.
Proof.
  assert (Hs : is_Some (run None default_globals demo_tag fixed_run (demo_sys None))) by (vm_compute; eexists; reflexivity).
  destruct Hs as [s Hs]. exists s. split; [exact Hs|]. split.
  - assert (Hw : (congestion_control_get_package_window ∘ snd_ep) <$> run None default_globals demo_tag fixed_run (demo_sys None) = Some 200)
      by (vm_compute; reflexivity).
    rewrite Hs in Hw. by injection Hw.
  - apply (flow_control_safe None default_globals demo_tag RCK_TOR1 100 124 (demo_sys None) s);
      [apply demo_agreed; lia|apply demo_initial; [lia|reflexivity]|by apply (run_rtc _ _ _ fixed_run)].
Defined.

Lemma flow_control_live_witness :
  exists s s', run None default_globals demo_tag cc_run (demo_sys (Some cc_new)) = Some s /\ length (data s) = 54%nat
    /\ rtc (delivery None default_globals demo_tag) s s' /\ data s' = [] /\ acks s' = []
    /\ 0 < congestion_control_get_package_window (snd_ep s').
Proof.
  assert (Hs : is_Some (run None default_globals demo_tag cc_run (demo_sys (Some cc_new)))) by (vm_compute; eexists; reflexivity).
  destruct Hs as [s Hs]. exists s.
  destruct (flow_control_live None default_globals demo_tag RCK_TOR1 31 124 (demo_sys (Some cc_new)) s) as (s' & H);
    [apply demo_agreed; lia|lia|apply demo_initial; [lia|exact cc_new_ok]|exact (run_rtc _ _ _ cc_run _ _ Hs)|].
  exists s'. split; [exact Hs|]. split; [|exact H].
  assert (Hw : (length ∘ data) <$> run None default_globals demo_tag cc_run (demo_sys (Some cc_new)) = Some 54%nat) by (vm_compute; reflexivity).
  rewrite Hs in Hw. by injection Hw.
Defined.
