(* ===== verification/ByteQueue.v ===== *)
(** * The buffer interface as clients use it

    What the protocol code relies on when it reads from a connection's [buf_t]: a
    class with the operations of lib/buf/buffers.h that the parsers call, and
    their laws in terms of the bytes that are held.  The clients (Cells,
    Socks) are proved against the class; the chunked buffers of [Buffers],
    with their allocator, discharge it, and so do plain byte strings, which serve as
    the reference. *)

From S2P Require Import Prelude Buffers.
From Stdlib Require Import ZArith String.
From stdpp Require Import base list numbers.
Open Scope Z_scope.

Class ByteQueue (B : Type) := {
  q_holds : B -> bytes -> Prop;
  q_datalen : B -> Z;
  q_peek : B -> Z -> cres bytes;
  q_drain : B -> Z -> cres B;
  q_get_bytes : B -> Z -> cres (B * bytes);
  q_clear : B -> cres B;
  q_add : B -> bytes -> cres B;
  q_pullup : B -> Z -> cres (B * option bytes)
}.

(** [q_pullup] returns a contiguous piece at the front, at least as long as what
    was asked for, if there are that many bytes. *)
Class ByteQueueLaws (B : Type) `{ByteQueue B} : Prop := {
  q_datalen_ok b s : q_holds b s -> q_datalen b = zlen s;
  q_peek_ok b s n : q_holds b s -> 0 <= n <= zlen s -> q_peek b n = Ok (take (Z.to_nat n) s);
  q_drain_ok b s n : q_holds b s -> 0 <= n <= zlen s -> exists b', q_drain b n = Ok b' /\ q_holds b' (drop (Z.to_nat n) s);
  q_get_bytes_ok b s n :
    q_holds b s -> 0 <= n <= zlen s ->
    exists b', q_get_bytes b n = Ok (b', take (Z.to_nat n) s) /\ q_holds b' (drop (Z.to_nat n) s);
  q_clear_ok b s : q_holds b s -> exists b', q_clear b = Ok b' /\ q_holds b' [];
  q_add_ok b s t : q_holds b s -> zlen s + zlen t <= BUF_MAX_LEN -> exists b', q_add b t = Ok b' /\ q_holds b' (s ++ t);
  q_pullup_ok b s n :
    q_holds b s -> 0 <= n ->
    exists b' r, q_pullup b n = Ok (b', r) /\ q_holds b' s
      /\ match r with
         | None => s = []
         | Some d => (exists rest, s = d ++ rest) /\ Z.min n (zlen s) <= zlen d
         end
}.

(** ** Chunked buffers *)

Section Chunked.

(** What fresh memory contains. *)
Variable junk : Z.

#[local] Instance chunked_queue : ByteQueue (alloc_t * buf_t) := {
  q_holds '(g, b) s := buf_ok g b /\ contents b = s;
  q_datalen '(g, b) := buf_datalen b;
  q_peek '(g, b) n := buf_peek b n;
  q_drain '(g, b) n := buf_drain g b n;
  q_get_bytes '(g, b) n := let* (g, b, s) := buf_get_bytes g b n in Ok (g, b, s);
  q_clear '(g, b) := buf_clear g b;
  q_add '(g, b) s := let* (g, b, _) := buf_add junk g b s in Ok (g, b);
  q_pullup '(g, b) n := let* (g, b, r) := buf_pullup junk g b n in Ok (g, b, r)
}.

#[local] Instance chunked_laws : ByteQueueLaws (alloc_t * buf_t).
Proof.
  split; cbn.
  - intros [g b] s [Hok <-]. apply (bo_len _ _ Hok).
  - intros [g b] s n [Hok <-] Hn. by apply (buf_peek_spec g).
  - intros [g b] s n [Hok <-] Hn. destruct (buf_drain_spec g b n Hok Hn) as (g' & b' & -> & [H1 H2 _ _]).
    by exists (g', b').
  - intros [g b] s n [Hok <-] Hn. destruct (buf_get_bytes_spec g b n Hok Hn) as (g' & b' & -> & [H1 H2 _ _]).
    by exists (g', b').
  - intros [g b] s [Hok _]. destruct (buf_clear_spec g b Hok) as (g' & b' & -> & [H1 H2 _ _]). by exists (g', b').
  - intros [g b] s t [Hok <-] Hm. destruct (buf_add_spec junk g b t Hok Hm) as (g' & b' & -> & [H1 H2 _ _]).
    by exists (g', b').
  - intros [g b] s n [Hok <-] Hn. destruct (buf_pullup_spec junk g b n Hok Hn) as (g' & b' & r & -> & [H1 H2 _ _] & Hr).
    exists (g', b'), r. split; [done|]. split; [done|]. destruct r; [done|]. unfold contents. by rewrite Hr.
Qed.

End Chunked.

(** ** Byte strings *)

#[export] Instance list_queue : ByteQueue bytes := {
  q_holds b s := b = s;
  q_datalen b := zlen b;
  q_peek b n := if n <=? zlen b then Ok (take (Z.to_nat n) b) else Bug;
  q_drain b n := if n <=? zlen b then Ok (drop (Z.to_nat n) b) else Bug;
  q_get_bytes b n := if n <=? zlen b then Ok (drop (Z.to_nat n) b, take (Z.to_nat n) b) else Bug;
  q_clear _ := Ok [];
  q_add b s := Ok (b ++ s);
  q_pullup b _ := Ok (b, match b with [] => None | _ => Some b end)
}.

#[export] Instance list_laws : ByteQueueLaws bytes.
Proof.
  split; cbn; intros b s.
  - by intros ->.
  - intros n -> Hn. by rewrite (proj2 (Z.leb_le _ _)) by lia.
  - intros n -> Hn. rewrite (proj2 (Z.leb_le _ _)) by lia. eauto.
  - intros n -> Hn. rewrite (proj2 (Z.leb_le _ _)) by lia. eauto.
  - intros _. eauto.
  - intros t -> _. eauto.
  - intros n -> Hn. do 2 eexists. split; [done|]. split; [done|]. destruct s; [done|]. split; [exists []; by rewrite app_nil_r|lia].
Qed.
