(* ===== verification/RelayMsg.v ===== *)
(** * Relay messages

    Models core/or/relay_msg.c with the inline functions of relay_msg.h: the
    encoding of a relay message into the payload of a cell, in the original format
    (V0) and in the format with a 16-byte tag (V1), and the two decoders.  The body
    of a message is a pointer; the model has the bytes from the pointer to the
    end of the object, of which the first [m_length] belong to the message.  The
    random bytes of the padding are a parameter. *)

From S2P Require Import Prelude Trunnel.
From Stdlib Require Import ZArith.
From stdpp Require Import base list numbers.
Open Scope Z_scope.

Definition CELL_PAYLOAD_SIZE : Z := 509.
Definition RELAY_HEADER_SIZE_V0 : Z := 1 + 2 + 2 + 4 + 2.
Definition RELAY_HEADER_SIZE_V1_NO_STREAM_ID : Z := 16 + 1 + 2.
Definition RELAY_HEADER_SIZE_V1_WITH_STREAM_ID : Z := 16 + 1 + 2 + 2.
Definition CELL_RELAY : Z := 3.
Definition CELL_RELAY_EARLY : Z := 9.

Record cell_t := mkcell { circ_id : Z; cell_command : Z; payload : bytes }.

Record relay_msg_t := mkmsg { m_command : Z; m_length : Z; m_stream_id : Z; m_is_relay_early : bool; m_body : bytes }.

Inductive relay_cell_fmt_t := RELAY_CELL_FORMAT_V0 | RELAY_CELL_FORMAT_V1.

(** BEGIN, DATA, END, CONNECTED, RESOLVE, RESOLVED, BEGIN_DIR, XOFF, XON *)
Definition relay_cmd_expects_streamid_in_v1 (relay_command : Z) : bool :=
  bool_decide (relay_command ∈ [1; 13; 4; 2; 3; 11; 12; 43; 44]).

Definition is_known_relay_command (cmd : Z) : bool :=
  bool_decide (cmd ∈ [1; 13; 19; 20; 21; 22; 4; 2; 10; 3; 32; 33; 14; 6; 15; 7; 34; 35; 40; 38; 41; 42; 36; 37; 39; 11; 12; 5; 8; 9; 43; 44]).

Definition relay_cell_max_payload_size (format : relay_cell_fmt_t) (relay_command : Z) : Z :=
  match format with
  | RELAY_CELL_FORMAT_V0 => CELL_PAYLOAD_SIZE - RELAY_HEADER_SIZE_V0
  | RELAY_CELL_FORMAT_V1 =>
      if relay_cmd_expects_streamid_in_v1 relay_command
      then CELL_PAYLOAD_SIZE - RELAY_HEADER_SIZE_V1_WITH_STREAM_ID
      else CELL_PAYLOAD_SIZE - RELAY_HEADER_SIZE_V1_NO_STREAM_ID
  end.

(** ** Memory *)

(** [ntohs(get_uint16(p + off))] *)
Definition peek16 (p : bytes) (off : Z) : cres Z :=
  let* hi := aget p off in let* lo := aget p (off + 1) in Ok (hi * 256 + lo).

(** ** Encoding *)

Section Encode.

Variable rng : nat -> bytes.

Definition relay_cell_pad (p : bytes) (end_of_message : Z) : cres bytes :=
  let skip := 4 in
  if CELL_PAYLOAD_SIZE <=? end_of_message + skip then Ok p
  else poke (end_of_message + skip) (rng (Z.to_nat (CELL_PAYLOAD_SIZE - (end_of_message + skip)))) p.

Definition encode_v0_cell (msg : relay_msg_t) (cell : cell_t) : cres cell_t :=
  if relay_cell_max_payload_size RELAY_CELL_FORMAT_V0 (m_command msg) <? m_length msg then Err
  else
    let* out := poke 0 [u8 (m_command msg)] (payload cell) in
    let* out := poke 3 (put_u16 (m_stream_id msg)) out in
    let* out := poke 9 (put_u16 (m_length msg)) out in
    let* b := first_bytes (m_length msg) (m_body msg) in
    let* out := poke RELAY_HEADER_SIZE_V0 b out in
    let* out := relay_cell_pad out (RELAY_HEADER_SIZE_V0 + m_length msg) in
    Ok (mkcell (circ_id cell) (cell_command cell) out).

Definition encode_v1_cell (msg : relay_msg_t) (cell : cell_t) : cres cell_t :=
  let expects_streamid := relay_cmd_expects_streamid_in_v1 (m_command msg) in
  if relay_cell_max_payload_size RELAY_CELL_FORMAT_V1 (m_command msg) <? m_length msg then Err
  else
    let* out := poke 16 [m_command msg] (payload cell) in
    let* out := poke 17 (put_u16 (m_length msg)) out in
    let* (out, payload_offset) :=
      (if expects_streamid then
         if m_stream_id msg =? 0 then Err
         else let* out := poke 19 (put_u16 (m_stream_id msg)) out in Ok (out, 21)
       else if negb (m_stream_id msg =? 0) then Err else Ok (out, 19)) in
    let* b := first_bytes (m_length msg) (m_body msg) in
    let* out := poke payload_offset b out in
    let* out := relay_cell_pad out (payload_offset + m_length msg) in
    Ok (mkcell (circ_id cell) (cell_command cell) out).

Definition relay_msg_encode_cell (format : relay_cell_fmt_t) (msg : relay_msg_t) : cres cell_t :=
  let cell := mkcell 0 (if m_is_relay_early msg then CELL_RELAY_EARLY else CELL_RELAY) (repeat 0 (Z.to_nat CELL_PAYLOAD_SIZE)) in
  match format with
  | RELAY_CELL_FORMAT_V0 => encode_v0_cell msg cell
  | RELAY_CELL_FORMAT_V1 => encode_v1_cell msg cell
  end.

End Encode.

(** ** Decoding *)

Definition decode_v0_cell (cell : cell_t) : cres relay_msg_t :=
  let early := cell_command cell =? CELL_RELAY_EARLY in
  let* cmd := aget (payload cell) 0 in
  let* stream_id := peek16 (payload cell) 3 in
  let* length := peek16 (payload cell) 9 in
  if CELL_PAYLOAD_SIZE - RELAY_HEADER_SIZE_V0 <? length then Err
  else Ok (mkmsg cmd length stream_id early (drop 11 (payload cell))).

Definition decode_v1_cell (cell : cell_t) : cres relay_msg_t :=
  let early := cell_command cell =? CELL_RELAY_EARLY in
  let* cmd := aget (payload cell) 16 in
  if negb (is_known_relay_command cmd) then Err
  else
    let* length := peek16 (payload cell) 17 in
    let* (stream_id, payload_offset) :=
      (if relay_cmd_expects_streamid_in_v1 cmd then let* s := peek16 (payload cell) 19 in Ok (s, 21) else Ok (0, 19)) in
    if CELL_PAYLOAD_SIZE - payload_offset <? length then Err
    else Ok (mkmsg cmd length stream_id early (drop (Z.to_nat payload_offset) (payload cell))).

Definition relay_msg_decode_cell_in_place (format : relay_cell_fmt_t) (cell : cell_t) : cres relay_msg_t :=
  match format with
  | RELAY_CELL_FORMAT_V0 => decode_v0_cell cell
  | RELAY_CELL_FORMAT_V1 => decode_v1_cell cell
  end.

(** [relay_msg_decode_cell] returns NULL where this is [Err]. *)
Definition relay_msg_decode_cell := relay_msg_decode_cell_in_place.

(** A copy owns a body of exactly [m_length] bytes. *)
Definition relay_msg_copy (msg : relay_msg_t) : cres relay_msg_t :=
  assert! (m_length msg <=? CELL_PAYLOAD_SIZE - RELAY_HEADER_SIZE_V0);
  let* b := first_bytes (m_length msg) (m_body msg) in
  Ok (mkmsg (m_command msg) (m_length msg) (m_stream_id msg) (m_is_relay_early msg) b).

(** ** Messages up to the bytes behind the body *)

Record same_msg (a b : relay_msg_t) : Prop := mk_same {
  sm_command : m_command a = m_command b;
  sm_length : m_length a = m_length b;
  sm_stream : m_stream_id a = m_stream_id b;
  sm_early : m_is_relay_early a = m_is_relay_early b;
  sm_body : first_bytes (m_length a) (m_body a) = first_bytes (m_length b) (m_body b)
}.

#[export] Instance msg_equiv : Equiv relay_msg_t := same_msg.

#[export] Instance msg_equivalence : Equivalence (≡@{relay_msg_t}).
Proof.
  split.
  - by intros a.
  - intros a b [H1 H2 H3 H4 H5]. split; congruence.
  - intros a b c [H1 H2 H3 H4 H5] [K1 K2 K3 K4 K5]. split; congruence.
Qed.

(** The bytes behind the body do not reach the cell. *)
#[export] Instance encode_proper rng fmt : Proper ((≡@{relay_msg_t}) ==> (=)) (relay_msg_encode_cell rng fmt).
Proof.
  intros [c1 l1 s1 e1 b1] [c2 l2 s2 e2 b2] [H1 H2 H3 H4 H5]; cbn in *. subst. destruct fmt; cbn.
  - unfold encode_v0_cell. cbn. by rewrite H5.
  - unfold encode_v1_cell. cbn. by rewrite H5.
Qed.

Record msg_ok (fmt : relay_cell_fmt_t) (msg : relay_msg_t) : Prop := mk_msg_ok {
  mo_command : is_byte (m_command msg);
  mo_length : 0 <= m_length msg <= relay_cell_max_payload_size fmt (m_command msg);
  mo_stream : 0 <= m_stream_id msg <= UINT16_MAX;
  mo_body : m_length msg <= zlen (m_body msg);
  mo_v1 : fmt = RELAY_CELL_FORMAT_V1 ->
    is_known_relay_command (m_command msg) = true
    /\ relay_cmd_expects_streamid_in_v1 (m_command msg) = negb (m_stream_id msg =? 0)
}.

(** ** Layout *)

Lemma zeros_split n m : 0 <= n -> 0 <= m -> repeat 0 (Z.to_nat (n + m)) = repeat 0 (Z.to_nat n) ++ repeat 0 (Z.to_nat m).
Proof. intros Hn Hm. rewrite Z2Nat.inj_add by done. apply repeat_app. Qed.

(** The padding replaces the tail of the payload by another one. *)
Lemma pad_ok rng h n :
  (forall k, length (rng k) = k) -> zlen h + n = CELL_PAYLOAD_SIZE -> 0 <= n ->
  exists tl, relay_cell_pad rng (h ++ repeat 0 (Z.to_nat n)) (zlen h) = Ok (h ++ tl) /\ zlen tl = n.
Proof.
  intros Hr Hn H0. unfold relay_cell_pad.
  assert (Hz : forall k, zlen (rng k) = Z.of_nat k) by (intros k; unfold zlen; by rewrite Hr). destruct (Z.leb_spec CELL_PAYLOAD_SIZE (zlen h + 4)).
  - eexists. split; [done|]. rewrite zlen_repeat. lia.
  - replace n with (4 + (n - 4)) by lia. rewrite zeros_split by lia. rewrite app_assoc.
    rewrite <- (app_nil_r (repeat 0 (Z.to_nat (n - 4)))), poke_at with (post := []).
    + eexists. split; [by rewrite app_nil_r, <- app_assoc|]. autorewrite with zlen. rewrite Hz. lia.
    + autorewrite with zlen. lia.
    + autorewrite with zlen. rewrite Hz. lia.
Qed.

Lemma peek16_put pre x post : 0 <= x <= UINT16_MAX -> peek16 (pre ++ put_u16 x ++ post) (zlen pre) = Ok x.
Proof.
  unfold UINT16_MAX, peek16, put_u16, u16. intros Hx. rewrite Z.mod_small by lia. cbn [app]. rewrite aget_mid by done. cbn [cbind].
  rewrite (app_assoc pre [x / 256] (x mod 256 :: post) : pre ++ x / 256 :: x mod 256 :: post = _). rewrite aget_mid by zlia. cbn [cbind].
  f_equal. rewrite (Z.div_mod x 256) at 3 by lia. lia.
Qed.

(** The payload of an encoded message. *)
Definition header (fmt : relay_cell_fmt_t) (msg : relay_msg_t) : bytes :=
  match fmt with
  | RELAY_CELL_FORMAT_V0 => [m_command msg; 0; 0] ++ put_u16 (m_stream_id msg) ++ repeat 0 4 ++ put_u16 (m_length msg)
  | RELAY_CELL_FORMAT_V1 =>
      repeat 0 16 ++ [m_command msg] ++ put_u16 (m_length msg)
        ++ (if relay_cmd_expects_streamid_in_v1 (m_command msg) then put_u16 (m_stream_id msg) else [])
  end.

Lemma header_size fmt msg : zlen (header fmt msg) = CELL_PAYLOAD_SIZE - relay_cell_max_payload_size fmt (m_command msg).
Proof. destruct fmt; [done|]. cbn -[repeat]. by destruct (relay_cmd_expects_streamid_in_v1 _). Qed.

Lemma write_body_ok rng msg h n :
  (forall k, length (rng k) = k) -> 0 <= m_length msg <= zlen (m_body msg) -> m_length msg <= n -> zlen h + n = CELL_PAYLOAD_SIZE ->
  exists b out tl, first_bytes (m_length msg) (m_body msg) = Ok b
    /\ poke (zlen h) b (h ++ repeat 0 (Z.to_nat n)) = Ok out
    /\ relay_cell_pad rng out (zlen h + m_length msg) = Ok (h ++ b ++ tl) /\ zlen b = m_length msg
    /\ zlen h + zlen b + zlen tl = CELL_PAYLOAD_SIZE.
Proof.
  intros Hr Hb Hl Hn. destruct (first_bytes_ok _ _ Hb) as (b & Eb & Hlen & _). exists b.
  replace n with (m_length msg + (n - m_length msg)) by lia. rewrite zeros_split by lia.
  rewrite poke_at by (autorewrite with zlen; lia). rewrite app_assoc, <- Hlen, <- zlen_app.
  destruct (pad_ok rng (h ++ b) (n - zlen b) Hr) as (tl & Et & Ht); [zlia|zlia|].
  do 2 eexists. split; [by rewrite Hlen|]. split; [done|]. rewrite app_assoc. split; [exact Et|]. split; [done|]. zlia.
Qed.

Definition encoded (fmt : relay_cell_fmt_t) (msg : relay_msg_t) (cell : cell_t) : Prop :=
  exists b tl, first_bytes (m_length msg) (m_body msg) = Ok b /\ zlen b = m_length msg
    /\ cell = mkcell 0 (if m_is_relay_early msg then CELL_RELAY_EARLY else CELL_RELAY) (header fmt msg ++ b ++ tl)
    /\ zlen (payload cell) = CELL_PAYLOAD_SIZE.

Lemma zeros_payload n : 0 <= n <= CELL_PAYLOAD_SIZE ->
  repeat 0 (Z.to_nat CELL_PAYLOAD_SIZE) = repeat 0 (Z.to_nat n) ++ repeat 0 (Z.to_nat (CELL_PAYLOAD_SIZE - n)).
Proof. intros Hn. rewrite <- zeros_split by lia. do 2 f_equal. lia. Qed.

Lemma encode_v0_ok rng msg :
  (forall k, length (rng k) = k) -> msg_ok RELAY_CELL_FORMAT_V0 msg ->
  exists cell, relay_msg_encode_cell rng RELAY_CELL_FORMAT_V0 msg = Ok cell /\ encoded RELAY_CELL_FORMAT_V0 msg cell.
Proof.
  intros Hr [Hc [Hl0 Hl] Hs Hb _]. unfold relay_msg_encode_cell, encode_v0_cell. rewrite (proj2 (Z.ltb_ge _ _)) by done.
  rewrite (zeros_payload 11) by done. cbn [payload circ_id cell_command]. rewrite u8_small by done.
  set (z := repeat 0 (Z.to_nat (CELL_PAYLOAD_SIZE - 11))).
  rewrite (poke_at [] [0] (repeat 0 10 ++ z) [m_command msg] 0 eq_refl eq_refl : poke 0 _ (repeat 0 (Z.to_nat 11) ++ z) = _). cbn [cbind].
  rewrite (poke_at [m_command msg; 0; 0] [0; 0] (repeat 0 6 ++ z) (put_u16 (m_stream_id msg)) 3 eq_refl eq_refl
            : poke 3 _ ([] ++ [m_command msg] ++ repeat 0 10 ++ z) = _). cbn [cbind].
  pose proof (poke_at ([m_command msg; 0; 0] ++ put_u16 (m_stream_id msg) ++ repeat 0 4) [0; 0] z (put_u16 (m_length msg)) 9 eq_refl eq_refl) as E.
  rewrite <- !app_assoc in E. rewrite (E : poke 9 _ ([m_command msg; 0; 0] ++ put_u16 (m_stream_id msg) ++ repeat 0 6 ++ z) = _). cbn [cbind].
  destruct (write_body_ok rng msg (header RELAY_CELL_FORMAT_V0 msg) (CELL_PAYLOAD_SIZE - 11) Hr) as (b & out & tl & E1 & E2 & E3 & H1 & H2);
    [done|by cbn in Hl|by rewrite header_size|].
  rewrite E1. cbn [cbind]. unfold header in E2. rewrite <- !app_assoc in E2. change (zlen _) with 11 in E2 at 1. fold z in E2.
  change RELAY_HEADER_SIZE_V0 with 11. rewrite E2. cbn [cbind]. change (zlen (header RELAY_CELL_FORMAT_V0 msg)) with 11 in E3. rewrite E3. cbn [cbind].
  eexists. split; [done|]. exists b, tl. split; [done|]. split; [done|]. split; [done|]. cbn [payload]. rewrite !zlen_app. lia.
Qed.

Lemma encode_v1_ok rng msg :
  (forall k, length (rng k) = k) -> msg_ok RELAY_CELL_FORMAT_V1 msg ->
  exists cell, relay_msg_encode_cell rng RELAY_CELL_FORMAT_V1 msg = Ok cell /\ encoded RELAY_CELL_FORMAT_V1 msg cell.
Proof.
  intros Hr [Hc [Hl0 Hl] Hs Hb Hv]. destruct (Hv eq_refl) as [_ He]. unfold relay_msg_encode_cell, encode_v1_cell.
  rewrite (proj2 (Z.ltb_ge _ _)) by done. pose proof (header_size RELAY_CELL_FORMAT_V1 msg) as Hh.
  set (h := header RELAY_CELL_FORMAT_V1 msg) in *. set (n := relay_cell_max_payload_size RELAY_CELL_FORMAT_V1 (m_command msg)) in *.
  destruct (write_body_ok rng msg h n Hr) as (b & out & tl & E1 & E2 & E3 & H1 & H2); [lia|done|lia|].
  rewrite (zeros_payload 21) by done. cbn [payload circ_id cell_command].
  set (z := repeat 0 (Z.to_nat (CELL_PAYLOAD_SIZE - 21))).
  rewrite (poke_at (repeat 0 16) [0] ([0; 0; 0; 0] ++ z) [m_command msg] 16 eq_refl eq_refl : poke 16 _ (repeat 0 (Z.to_nat 21) ++ z) = _). cbn [cbind].
  pose proof (poke_at (repeat 0 16 ++ [m_command msg]) [0; 0] ([0; 0] ++ z) (put_u16 (m_length msg)) 17 eq_refl eq_refl) as E.
  rewrite <- !app_assoc in E. rewrite (E : poke 17 _ (repeat 0 16 ++ [m_command msg] ++ [0; 0; 0; 0] ++ z) = _). clear E. cbn [cbind].
  assert (Hsid : exists off, (if relay_cmd_expects_streamid_in_v1 (m_command msg) then
         if m_stream_id msg =? 0 then Err
         else let* out := poke 19 (put_u16 (m_stream_id msg)) (repeat 0 16 ++ [m_command msg] ++ put_u16 (m_length msg) ++ [0; 0] ++ z) in Ok (out, 21)
       else if negb (m_stream_id msg =? 0) then Err else Ok (repeat 0 16 ++ [m_command msg] ++ put_u16 (m_length msg) ++ [0; 0] ++ z, 19))
     = Ok (h ++ repeat 0 (Z.to_nat n), off) /\ off = zlen h).
  { rewrite Hh. unfold h, n, header, relay_cell_max_payload_size. rewrite He. destruct (m_stream_id msg =? 0); cbn [negb].
    - eexists. split; [|done]. rewrite app_nil_r, <- !app_assoc. done.
    - pose proof (poke_at (repeat 0 16 ++ [m_command msg] ++ put_u16 (m_length msg)) [0; 0] z (put_u16 (m_stream_id msg)) 19 eq_refl eq_refl) as E.
      rewrite <- !app_assoc in E. rewrite E. cbn [cbind]. eexists. split; [|done]. by rewrite <- !app_assoc. }
  destruct Hsid as (off & -> & ->). cbn [cbind]. rewrite E1. cbn [cbind]. rewrite E2. cbn [cbind]. rewrite E3. cbn [cbind].
  eexists. split; [done|]. exists b, tl. split; [done|]. split; [done|]. split; [done|]. cbn [payload]. rewrite !zlen_app. lia.
Qed.

(** ** Decoding what was encoded *)

Lemma max_payload_bound fmt c : 488 <= relay_cell_max_payload_size fmt c <= 498.
Proof. destruct fmt; cbn; [done|]. by destruct (relay_cmd_expects_streamid_in_v1 c). Qed.

Lemma decode_encoded fmt msg cell :
  msg_ok fmt msg -> encoded fmt msg cell ->
  exists msg', relay_msg_decode_cell_in_place fmt cell = Ok msg' /\ msg' ≡ msg.
Proof.
  intros [Hc [Hl0 Hl] Hs Hb Hv] (b & tl & Eb & Hlen & -> & Hp). cbn [payload] in Hp.
  assert (Hu : 0 <= m_length msg <= UINT16_MAX).
  { pose proof (max_payload_bound fmt (m_command msg)). unfold UINT16_MAX. lia. }
  assert (He : ((if m_is_relay_early msg then CELL_RELAY_EARLY else CELL_RELAY) =? CELL_RELAY_EARLY) = m_is_relay_early msg)
    by (by destruct (m_is_relay_early msg)).
  destruct fmt; cbn [relay_msg_decode_cell_in_place]; unfold decode_v0_cell, decode_v1_cell; cbn [payload cell_command]; rewrite He; cbn [header].
  - rewrite <- !app_assoc.
    rewrite (peek16_put [m_command msg; 0; 0] (m_stream_id msg) _ Hs : peek16 _ 3 = _).
    pose proof (peek16_put ([m_command msg; 0; 0] ++ put_u16 (m_stream_id msg) ++ repeat 0 4) (m_length msg) (b ++ tl) Hu) as E.
    rewrite <- !app_assoc in E. rewrite (E : peek16 _ 9 = _). cbn [cbind aget Z.ltb Z.compare app]. cbn [Z.to_nat lookup list_lookup cbind].
    rewrite (proj2 (Z.ltb_ge _ _)) by done. eexists. split; [done|]. split; cbn [m_command m_length m_stream_id m_is_relay_early m_body]; try done.
    rewrite Eb. by apply first_bytes_app.
  - destruct (Hv eq_refl) as [Hk Hx]. rewrite <- !app_assoc.
    rewrite (aget_mid (repeat 0 16) _ (m_command msg) 16 eq_refl : aget (repeat 0 16 ++ [m_command msg] ++ _) 16 = _). cbn [cbind]. rewrite Hk. cbn [negb].
    pose proof (fun r => peek16_put (repeat 0 16 ++ [m_command msg]) (m_length msg) r Hu) as E.
    setoid_rewrite <- app_assoc in E. rewrite (E _ : peek16 _ 17 = _). cbn [cbind]. clear E.
    destruct (relay_cmd_expects_streamid_in_v1 (m_command msg)) eqn:Ex.
    + pose proof (peek16_put (repeat 0 16 ++ [m_command msg] ++ put_u16 (m_length msg)) (m_stream_id msg) (b ++ tl) Hs) as E.
      rewrite <- !app_assoc in E. rewrite (E : peek16 _ 19 = _). cbn [cbind]. cbn in Hl. rewrite Ex in Hl.
      rewrite (proj2 (Z.ltb_ge _ _)) by done. eexists. split; [done|]. split; cbn [m_command m_length m_stream_id m_is_relay_early m_body]; try done.
      rewrite Eb. by apply (first_bytes_app b tl).
    + cbn [cbind]. cbn in Hl. rewrite Ex in Hl. rewrite (proj2 (Z.ltb_ge _ _)) by done. eexists. split; [done|].
      split; cbn [m_command m_length m_stream_id m_is_relay_early m_body]; try done.
      * by destruct (Z.eqb_spec (m_stream_id msg) 0).
      * rewrite Eb. by apply (first_bytes_app b tl).
Qed.

(** ** Decoding anything *)

Lemma aget_byte p i : Forall is_byte p -> 0 <= i < zlen p -> exists x, aget p i = Ok x /\ is_byte x.
Proof.
  intros Hp Hi. destruct (aget_in_range p i Hi) as (x & -> & Hx). exists x. split; [done|]. by eapply Forall_lookup_1.
Qed.

Lemma peek16_range p i : Forall is_byte p -> 0 <= i < zlen p - 1 -> exists x, peek16 p i = Ok x /\ 0 <= x <= UINT16_MAX.
Proof.
  intros Hp Hi. unfold peek16. destruct (aget_byte p i Hp) as (a & -> & Ha); [lia|]. destruct (aget_byte p (i + 1) Hp) as (b & -> & Hb); [lia|].
  eexists. split; [done|]. unfold is_byte, UINT16_MAX in *. lia.
Qed.

(** What every decoded message satisfies. *)
Record msg_typed (fmt : relay_cell_fmt_t) (msg : relay_msg_t) : Prop := mk_typed {
  mt_command : is_byte (m_command msg);
  mt_length : 0 <= m_length msg <= relay_cell_max_payload_size fmt (m_command msg);
  mt_stream : 0 <= m_stream_id msg <= UINT16_MAX;
  mt_body : relay_cell_max_payload_size fmt (m_command msg) <= zlen (m_body msg);
  mt_known : fmt = RELAY_CELL_FORMAT_V1 ->
    is_known_relay_command (m_command msg) = true
    /\ (relay_cmd_expects_streamid_in_v1 (m_command msg) = false -> m_stream_id msg = 0)
}.

Lemma zlen_drop {A} n (l : list A) : Z.of_nat n <= zlen l -> zlen (drop n l) = zlen l - Z.of_nat n.
Proof. unfold zlen. rewrite length_drop. lia. Qed.

Lemma decode_typed fmt cell :
  zlen (payload cell) = CELL_PAYLOAD_SIZE -> Forall is_byte (payload cell) ->
  match relay_msg_decode_cell_in_place fmt cell with Ok msg => msg_typed fmt msg | Err => True | _ => False end.
Proof.
  intros Hn Hb. unfold CELL_PAYLOAD_SIZE in Hn. destruct fmt; cbn [relay_msg_decode_cell_in_place].
  - unfold decode_v0_cell. destruct (aget_byte _ 0 Hb) as (c & -> & Hc); [lia|]. destruct (peek16_range _ 3 Hb) as (s & -> & Hs); [lia|].
    destruct (peek16_range _ 9 Hb) as (l & -> & Hl); [lia|]. cbn [cbind]. destruct (Z.ltb_spec (CELL_PAYLOAD_SIZE - RELAY_HEADER_SIZE_V0) l); [done|].
    split; cbn [m_command m_length m_stream_id m_body]; [done|cbn in *; lia|done|rewrite zlen_drop, Hn by lia; done|done].
  - unfold decode_v1_cell. destruct (aget_byte _ 16 Hb) as (c & -> & Hc); [lia|]. cbn [cbind]. destruct (is_known_relay_command c) eqn:Hk; [|done].
    cbn [negb]. destruct (peek16_range _ 17 Hb) as (l & -> & Hl); [lia|]. destruct (peek16_range _ 19 Hb) as (s & -> & Hs); [lia|]. cbn [cbind].
    destruct (relay_cmd_expects_streamid_in_v1 c) eqn:Ex; cbn [cbind].
    + destruct (Z.ltb_spec (CELL_PAYLOAD_SIZE - 21) l); [done|].
      split; cbn [m_command m_length m_stream_id m_body relay_cell_max_payload_size]; rewrite ?Ex; [done|unfold CELL_PAYLOAD_SIZE, RELAY_HEADER_SIZE_V1_WITH_STREAM_ID, RELAY_HEADER_SIZE_V1_NO_STREAM_ID in *; lia|done|rewrite zlen_drop by (rewrite Hn; done); rewrite Hn; done|].
      intros _. split; [done|]. congruence.
    + destruct (Z.ltb_spec (CELL_PAYLOAD_SIZE - 19) l); [done|].
      split; cbn [m_command m_length m_stream_id m_body relay_cell_max_payload_size]; rewrite ?Ex; [done|unfold CELL_PAYLOAD_SIZE, RELAY_HEADER_SIZE_V1_WITH_STREAM_ID, RELAY_HEADER_SIZE_V1_NO_STREAM_ID in *; lia|done|rewrite zlen_drop by (rewrite Hn; done); rewrite Hn; done|done].
Qed.

(** ** Claims *)

(** C38. A well-formed relay message, encoded into a cell in either format and
    decoded again, is the same message (up to the bytes behind its body); the
    payload has the size of a cell, whatever the random padding is. *)
Theorem relay_msg_roundtrip rng fmt msg :
  (forall k, length (rng k) = k) -> msg_ok fmt msg ->
  exists cell msg', relay_msg_encode_cell rng fmt msg = Ok cell /\ zlen (payload cell) = CELL_PAYLOAD_SIZE
    /\ relay_msg_decode_cell_in_place fmt cell = Ok msg' /\ msg' ≡ msg.
Proof.
  intros Hr Hm. assert (exists cell, relay_msg_encode_cell rng fmt msg = Ok cell /\ encoded fmt msg cell) as (cell & E & He).
  { destruct fmt; [by apply encode_v0_ok|by apply encode_v1_ok]. }
  destruct (decode_encoded fmt msg cell Hm He) as (msg' & Ed & Hs). exists cell, msg'.
  destruct He as (b & tl & _ & _ & _ & Hp). done.
Qed.

Definition demo_msg : relay_msg_t := mkmsg 2 3 7 true [1; 2; 3; 99].

Lemma relay_msg_roundtrip_witness :
  exists cell msg', relay_msg_encode_cell (repeat 0) RELAY_CELL_FORMAT_V1 demo_msg = Ok cell /\ zlen (payload cell) = CELL_PAYLOAD_SIZE
    /\ relay_msg_decode_cell_in_place RELAY_CELL_FORMAT_V1 cell = Ok msg' /\ msg' ≡ demo_msg.
Proof.
  apply (relay_msg_roundtrip (repeat 0) RELAY_CELL_FORMAT_V1 demo_msg).
  - apply repeat_length.
  - split; vm_compute; first [done | split; done].
Defined.

(** C39. Decoding is safe on every cell: no byte outside the cell is read, and a
    message that comes out keeps the bounds that relay_msg_st.h promises:
    its length fits the format and the bytes behind its body.  In format V1 its command
    is a known one, and its stream id is zero for a command without one; format V0 does
    not check the command. *)
Theorem relay_msg_decode_typed fmt cell :
  zlen (payload cell) = CELL_PAYLOAD_SIZE -> Forall is_byte (payload cell) ->
  match relay_msg_decode_cell_in_place fmt cell with Ok msg => msg_typed fmt msg | Err => True | _ => False end.
Proof. apply decode_typed. Qed.

Definition demo_cell : cell_t := mkcell 0 CELL_RELAY (repeat 0 16 ++ [2; 0; 3; 0; 0] ++ repeat 0 488).

(** The witness also shows that the decoder lets a zero stream id through where the
    encoder refuses it. *)
Lemma relay_msg_decode_typed_witness :
  exists msg, relay_msg_decode_cell_in_place RELAY_CELL_FORMAT_V1 demo_cell = Ok msg /\ msg_typed RELAY_CELL_FORMAT_V1 msg
    /\ relay_msg_encode_cell (repeat 0) RELAY_CELL_FORMAT_V1 msg = Err.
Proof.
  pose proof (relay_msg_decode_typed RELAY_CELL_FORMAT_V1 demo_cell eq_refl) as H.
  assert (Hb : Forall is_byte (payload demo_cell)) by (repeat constructor; done). specialize (H Hb).
  eexists. split; [reflexivity|]. split; [exact H|reflexivity].
Defined.

(** The encoder refuses exactly the messages that do not fit the format. *)
Lemma encode_refuses rng fmt msg :
  (forall k, length (rng k) = k) -> 0 <= m_length msg <= zlen (m_body msg) -> is_byte (m_command msg) -> 0 <= m_stream_id msg <= UINT16_MAX ->
  fmt = RELAY_CELL_FORMAT_V0 \/ is_known_relay_command (m_command msg) = true ->
  (relay_msg_encode_cell rng fmt msg = Err <-> ~ msg_ok fmt msg).
Proof.
  intros Hr Hl Hc Hs Hk. split.
  - intros E Hm. destruct fmt; [destruct (encode_v0_ok rng msg Hr Hm) as (? & ? & _)|destruct (encode_v1_ok rng msg Hr Hm) as (? & ? & _)]; congruence.
  - intros Hn. destruct (Z.lt_ge_cases (relay_cell_max_payload_size fmt (m_command msg)) (m_length msg)) as [Hlt|Hge].
    + unfold relay_msg_encode_cell, encode_v0_cell, encode_v1_cell. destruct fmt; by rewrite (proj2 (Z.ltb_lt _ _)).
    + destruct fmt; [destruct Hn; split; by try lia|]. destruct Hk as [Hk|Hk]; [done|].
      destruct (decide (relay_cmd_expects_streamid_in_v1 (m_command msg) = negb (m_stream_id msg =? 0))) as [He|He];
        [destruct Hn; split; by try lia|].
      unfold relay_msg_encode_cell, encode_v1_cell. rewrite (proj2 (Z.ltb_ge _ _)) by lia. rewrite (zeros_payload 21) by done.
      cbn [payload]. set (z := repeat 0 (Z.to_nat (CELL_PAYLOAD_SIZE - 21))).
      rewrite (poke_at (repeat 0 16) [0] ([0; 0; 0; 0] ++ z) [m_command msg] 16 eq_refl eq_refl : poke 16 _ (repeat 0 (Z.to_nat 21) ++ z) = _). cbn [cbind].
      pose proof (poke_at (repeat 0 16 ++ [m_command msg]) [0; 0] ([0; 0] ++ z) (put_u16 (m_length msg)) 17 eq_refl eq_refl) as E.
      rewrite <- !app_assoc in E. rewrite (E : poke 17 _ (repeat 0 16 ++ [m_command msg] ++ [0; 0; 0; 0] ++ z) = _). cbn [cbind].
      destruct (relay_cmd_expects_streamid_in_v1 (m_command msg)), (m_stream_id msg =? 0); done.
Qed.
