(* ===== verification/LinkCells.v ===== *)
(** * Cells on a link

    Models how cells travel over a connection: [cell_pack], [cell_unpack],
    [var_cell_pack_header] and the loop of
    [connection_or_process_cells_from_inbuf] in core/or/connection_or.c, with
    [fetch_var_cell_from_buf] of core/proto/proto_cell.c.  The loop reads from any
    queue of the class [ByteQueue]; what the channel does with a cell
    ([channel_tls_handle_cell], [channel_tls_handle_var_cell]) is a parameter, the
    handler, that updates the state of the connection.  The theorems are about a handler that
    leaves the link protocol and the width of circuit ids alone, as on an open link; while VERSIONS cells
    are negotiated the handlers of the code change both. *)

From S2P Require Import Prelude Buffers ByteQueue Trunnel RelayMsg.
From Stdlib Require Import ZArith.
From stdpp Require Import base list numbers.
Open Scope Z_scope.

Definition CELL_MAX_NETWORK_SIZE : Z := 514.
Definition VAR_CELL_MAX_HEADER_SIZE : Z := 7.
Definition MIN_LINK_PROTO_FOR_WIDE_CIRC_IDS : Z := 4.
Definition CELL_VERSIONS : Z := 7.

Record var_cell_t := mkvar { v_command : Z; v_circ_id : Z; v_payload : bytes }.

Definition get_cell_network_size (wide_circ_ids : bool) : Z :=
  if wide_circ_ids then CELL_MAX_NETWORK_SIZE else CELL_MAX_NETWORK_SIZE - 2.
Definition get_var_cell_header_size (wide_circ_ids : bool) : Z :=
  if wide_circ_ids then VAR_CELL_MAX_HEADER_SIZE else VAR_CELL_MAX_HEADER_SIZE - 2.
Definition get_circ_id_size (wide_circ_ids : bool) : Z := if wide_circ_ids then 4 else 2.


Definition put_circ_id (wide_circ_ids : bool) (x : Z) : bytes := if wide_circ_ids then put_u32 x else put_u16 x.

(** [ntohl(get_uint32(p))] *)
Definition peek32 (p : bytes) (off : Z) : cres Z :=
  let* hi := peek16 p off in let* lo := peek16 p (off + 2) in Ok (hi * 65536 + lo).

Definition peek_circ_id (wide_circ_ids : bool) (p : bytes) : cres Z := if wide_circ_ids then peek32 p 0 else peek16 p 0.

(** The bytes of [dst->body] that are sent. *)
Definition cell_pack (src : cell_t) (wide_circ_ids : bool) : cres bytes :=
  let* p := first_bytes CELL_PAYLOAD_SIZE (payload src) in
  Ok (put_circ_id wide_circ_ids (circ_id src) ++ [u8 (cell_command src)] ++ p).

Definition cell_unpack (src : bytes) (wide_circ_ids : bool) : cres cell_t :=
  let* id := peek_circ_id wide_circ_ids src in
  let n := get_circ_id_size wide_circ_ids in
  let* cmd := aget src n in
  let* p := first_bytes CELL_PAYLOAD_SIZE (drop (Z.to_nat (n + 1)) src) in
  Ok (mkcell id cmd p).

Definition var_cell_pack_header (cell : var_cell_t) (wide_circ_ids : bool) : bytes :=
  put_circ_id wide_circ_ids (v_circ_id cell) ++ [u8 (v_command cell)] ++ put_u16 (zlen (v_payload cell)).

Definition cell_command_is_var_length (command linkproto : Z) : bool :=
  if linkproto =? 1 then false
  else if linkproto =? 2 then command =? CELL_VERSIONS
  else (command =? CELL_VERSIONS) || (128 <=? command).

(** ** Reading *)

Inductive fetched := NotVar | VarIncomplete | VarCell (c : var_cell_t).

Inductive link_cell := Fixed (c : cell_t) | Var (c : var_cell_t).

Section Fetch.

Context {B : Type} `{ByteQueue B}.

(** The result 0, the result 1 without a cell, or the cell. *)
Definition fetch_var_cell_from_buf (buf : B) (linkproto : Z) : cres (B * fetched) :=
  let wide_circ_ids := MIN_LINK_PROTO_FOR_WIDE_CIRC_IDS <=? linkproto in
  let circ_id_len := get_circ_id_size wide_circ_ids in
  let header_len := get_var_cell_header_size wide_circ_ids in
  if q_datalen buf <? header_len then Ok (buf, NotVar)
  else
    let* hdr := q_peek buf header_len in
    let* command := aget hdr circ_id_len in
    if negb (cell_command_is_var_length command linkproto) then Ok (buf, NotVar)
    else
      let* length := peek16 hdr (circ_id_len + 1) in
      if q_datalen buf <? header_len + length then Ok (buf, VarIncomplete)
      else
        let* id := peek_circ_id wide_circ_ids hdr in
        let* buf := q_drain buf header_len in
        let* p := q_peek buf length in
        let* buf := q_drain buf length in
        Ok (buf, VarCell (mkvar command id p)).

(** The next cell, if it is there. *)
Definition fetch_cell (buf : B) (linkproto : Z) (wide_circ_ids : bool) : cres (B * option link_cell) :=
  let* (buf, r) := fetch_var_cell_from_buf buf linkproto in
  match r with
  | VarIncomplete => Ok (buf, None)
  | VarCell c => Ok (buf, Some (Var c))
  | NotVar =>
      if q_datalen buf <? get_cell_network_size wide_circ_ids then Ok (buf, None)
      else
        let* (buf, p) := q_get_bytes buf (get_cell_network_size wide_circ_ids) in
        let* c := cell_unpack p wide_circ_ids in
        Ok (buf, Some (Fixed c))
  end.

(** The state of a connection as far as the loop looks at it, and the handler. *)
Context {S : Type} (link_proto : S -> Z) (conn_wide : S -> bool) (handle : S -> link_cell -> S).

Fixpoint process_loop (fuel : nat) (buf : B) (conn : S) : cres (B * S) :=
  match fuel with
  | O => Fuel
  | Datatypes.S fuel =>
      let* (buf, r) := fetch_cell buf (link_proto conn) (conn_wide conn) in
      match r with None => Ok (buf, conn) | Some c => process_loop fuel buf (handle conn c) end
  end.

(** Every round takes at least one byte off the buffer. *)
Definition connection_or_process_cells_from_inbuf (buf : B) (conn : S) : cres (B * S) :=
  process_loop (Datatypes.S (Z.to_nat (q_datalen buf))) buf conn.

(** Data that arrives in pieces, each followed by a run of the loop. *)
Fixpoint receive (buf : B) (conn : S) (pieces : list bytes) : cres (B * S) :=
  match pieces with
  | [] => Ok (buf, conn)
  | p :: pieces =>
      let* buf := q_add buf p in
      let* (buf, conn) := connection_or_process_cells_from_inbuf buf conn in
      receive buf conn pieces
  end.

End Fetch.

(** ** Writing *)

(** What [connection_or_write_cell_to_buf] and
    [connection_or_write_var_cell_to_buf] append to the outgoing buffer. *)
Definition write_link_cell (c : link_cell) (wide_circ_ids : bool) : cres bytes :=
  match c with
  | Fixed c => cell_pack c wide_circ_ids
  | Var c => Ok (var_cell_pack_header c wide_circ_ids ++ v_payload c)
  end.

Fixpoint write_link_cells (cs : list link_cell) (wide_circ_ids : bool) : cres bytes :=
  match cs with
  | [] => Ok []
  | c :: cs => let* p := write_link_cell c wide_circ_ids in let* r := write_link_cells cs wide_circ_ids in Ok (p ++ r)
  end.

(** ** The wire format *)

Definition max_circ_id (wide : bool) : Z := if wide then UINT32_MAX else UINT16_MAX.

Definition link_cell_ok (proto : Z) (wide : bool) (c : link_cell) : Prop :=
  match c with
  | Fixed c => 0 <= circ_id c <= max_circ_id wide /\ is_byte (cell_command c) /\ zlen (payload c) = CELL_PAYLOAD_SIZE
      /\ cell_command_is_var_length (cell_command c) proto = false
  | Var c => 0 <= v_circ_id c <= max_circ_id wide /\ is_byte (v_command c) /\ zlen (v_payload c) <= UINT16_MAX
      /\ cell_command_is_var_length (v_command c) proto = true
  end.

Definition wire (wide : bool) (c : link_cell) : bytes :=
  match c with
  | Fixed c => put_circ_id wide (circ_id c) ++ [cell_command c] ++ payload c
  | Var c => put_circ_id wide (v_circ_id c) ++ [v_command c] ++ put_u16 (zlen (v_payload c)) ++ v_payload c
  end.

Lemma zlen_put_circ_id wide x : zlen (put_circ_id wide x) = get_circ_id_size wide.
Proof. by destruct wide. Qed.
#[local] Hint Rewrite zlen_put_circ_id : zlen.

Lemma write_link_cell_ok proto wide c : link_cell_ok proto wide c -> write_link_cell c wide = Ok (wire wide c).
Proof.
  destruct c as [c|c]; intros (Hi & Hc & Hp & _); cbn [write_link_cell wire].
  - unfold cell_pack. rewrite <- (app_nil_r (payload c)), first_bytes_app by done. cbn [cbind]. by rewrite u8_small, app_nil_r by done.
  - unfold var_cell_pack_header. rewrite u8_small by done. by rewrite <- !app_assoc.
Qed.

Lemma write_link_cells_ok proto wide cs :
  Forall (link_cell_ok proto wide) cs -> write_link_cells cs wide = Ok (concat (map (wire wide) cs)).
Proof.
  induction 1 as [|c cs Hc _ IH]; [done|]. cbn [write_link_cells]. rewrite (write_link_cell_ok proto) by done. cbn [cbind]. by rewrite IH.
Qed.

Lemma peek_circ_id_put wide x rest :
  0 <= x <= max_circ_id wide -> peek_circ_id wide (put_circ_id wide x ++ rest) = Ok x.
Proof.
  destruct wide; cbn [max_circ_id peek_circ_id put_circ_id]; intros Hx; [|by apply (peek16_put [])].
  unfold put_u32, u32, UINT32_MAX in *. rewrite Z.mod_small by lia. rewrite <- app_assoc. unfold peek32.
  assert (Hq : 0 <= x / 65536 <= UINT16_MAX) by (unfold UINT16_MAX; split; [apply Z.div_pos; lia|apply Z.lt_succ_r, Z.div_lt_upper_bound; lia]).
  assert (Hr : 0 <= x mod 65536 <= UINT16_MAX) by (pose proof (Z.mod_pos_bound x 65536); unfold UINT16_MAX; lia).
  pose proof (peek16_put [] (x / 65536) (put_u16 (x mod 65536) ++ rest) Hq) as E. cbn [app] in E. rewrite (E : peek16 _ 0 = _). cbn [cbind].
  rewrite (peek16_put (put_u16 (x / 65536)) (x mod 65536) rest Hr : peek16 (_ ++ _ ++ _) (0 + 2) = _). cbn [cbind].
  f_equal. rewrite (Z.div_mod x 65536) at 3 by lia. lia.
Qed.

Lemma cell_unpack_wire wide c :
  0 <= circ_id c <= max_circ_id wide -> zlen (payload c) = CELL_PAYLOAD_SIZE ->
  cell_unpack (wire wide (Fixed c)) wide = Ok c.
Proof.
  intros Hi Hp. unfold cell_unpack. cbn [wire]. rewrite peek_circ_id_put by done. cbn [cbind].
  rewrite (aget_mid (put_circ_id wide (circ_id c)) (payload c) (cell_command c) _ (eq_sym (zlen_put_circ_id wide (circ_id c)))
            : aget (_ ++ [_] ++ _) _ = _). cbn [cbind].
  rewrite app_assoc, drop_zapp by (destruct wide; done).
  rewrite <- (app_nil_r (payload c)), first_bytes_app by done. by destruct c.
Qed.

(** The sizes that the reader computes. *)
Lemma wire_size wide c :
  zlen (wire wide c) = match c with
    | Fixed c => get_circ_id_size wide + 1 + zlen (payload c)
    | Var c => get_var_cell_header_size wide + zlen (v_payload c)
    end.
Proof. destruct c, wide; cbn [wire]; autorewrite with zlen; unfold get_circ_id_size, get_var_cell_header_size, VAR_CELL_MAX_HEADER_SIZE; lia. Qed.

Lemma network_size wide : get_cell_network_size wide = get_circ_id_size wide + 1 + CELL_PAYLOAD_SIZE.
Proof. by destruct wide. Qed.

Lemma header_size_bounds wide : get_var_cell_header_size wide = get_circ_id_size wide + 3 /\ 2 <= get_circ_id_size wide <= 4.
Proof. by destruct wide. Qed.

(** The command byte, in any piece of the stream that contains it. *)
Definition command_of (c : link_cell) : Z := match c with Fixed c => cell_command c | Var c => v_command c end.

Lemma wire_command wide c rest : aget (wire wide c ++ rest) (get_circ_id_size wide) = Ok (command_of c).
Proof.
  destruct c as [c|c]; cbn [wire command_of]; rewrite <- app_assoc; apply (aget_mid (put_circ_id wide _)); symmetry; apply zlen_put_circ_id.
Qed.

Lemma wire_header_command wide c rest hdr :
  hdr = take (Z.to_nat (get_var_cell_header_size wide)) (wire wide c ++ rest) -> get_var_cell_header_size wide <= zlen (wire wide c ++ rest) ->
  aget hdr (get_circ_id_size wide) = Ok (command_of c).
Proof.
  intros -> Hn. destruct (header_size_bounds wide) as [Hh Hs]. rewrite <- (wire_command wide c rest).
  rewrite <- (take_drop (Z.to_nat (get_var_cell_header_size wide)) (wire wide c ++ rest)) at 2. apply aget_prefix.
  unfold zlen in *. rewrite length_take. lia.
Qed.

Definition var_header (wide : bool) (c : var_cell_t) : bytes :=
  put_circ_id wide (v_circ_id c) ++ [v_command c] ++ put_u16 (zlen (v_payload c)).

Lemma var_header_size wide c : zlen (var_header wide c) = get_var_cell_header_size wide.
Proof. by destruct wide. Qed.

Lemma wire_var wide c : wire wide (Var c) = var_header wide c ++ v_payload c.
Proof. unfold var_header. cbn [wire]. by rewrite <- !app_assoc. Qed.

Lemma var_header_fields wide c :
  0 <= v_circ_id c <= max_circ_id wide -> zlen (v_payload c) <= UINT16_MAX ->
  aget (var_header wide c) (get_circ_id_size wide) = Ok (v_command c)
  /\ peek16 (var_header wide c) (get_circ_id_size wide + 1) = Ok (zlen (v_payload c))
  /\ peek_circ_id wide (var_header wide c) = Ok (v_circ_id c).
Proof.
  intros Hi Hp. unfold var_header. split; [|split; [|by apply peek_circ_id_put]].
  - apply (aget_mid (put_circ_id wide _)). symmetry. apply zlen_put_circ_id.
  - pose proof (peek16_put (put_circ_id wide (v_circ_id c) ++ [v_command c]) (zlen (v_payload c)) []) as E.
    rewrite app_nil_r, <- app_assoc in E. rewrite <- E; [|split; [apply zlen_nonneg|done]]. f_equal. by destruct wide.
Qed.

(** ** One cell *)

Section Reader.

Context {B : Type} `{ByteQueueLaws B}.
Variables (proto : Z) (wide : bool).
Hypothesis Hwide : wide = (MIN_LINK_PROTO_FOR_WIDE_CIRC_IDS <=? proto).

Lemma fetch_var_not b s t c rest :
  q_holds b s -> link_cell_ok proto wide (Fixed c) -> s ++ t = wire wide (Fixed c) ++ rest ->
  fetch_var_cell_from_buf b proto = Ok (b, NotVar).
Proof.
  intros Hb (_ & _ & _ & Hv) Hs. unfold fetch_var_cell_from_buf. rewrite <- Hwide, (q_datalen_ok b s Hb). zcase; [done|].
  rewrite (q_peek_ok b s) by (try done; by destruct wide). cbn [cbind].
  rewrite (wire_header_command wide (Fixed c) rest).
  - cbn [cbind command_of]. by rewrite Hv.
  - rewrite <- Hs. rewrite take_app_le; [done|]. unfold zlen in *. destruct wide; cbn in *; lia.
  - rewrite <- Hs, zlen_app. pose proof (zlen_nonneg t). lia.
Qed.

Lemma fetch_var_part b s t c :
  q_holds b s -> link_cell_ok proto wide (Var c) -> s ++ t = wire wide (Var c) -> t <> [] ->
  fetch_var_cell_from_buf b proto = Ok (b, VarIncomplete)
  \/ (fetch_var_cell_from_buf b proto = Ok (b, NotVar) /\ zlen s < get_var_cell_header_size wide).
Proof.
  intros Hb (Hi & _ & Hp & Hv) Hs Ht. unfold fetch_var_cell_from_buf. rewrite <- Hwide, (q_datalen_ok b s Hb). zcase; [by right|]. left.
  rewrite (q_peek_ok b s) by (try done; by destruct wide). cbn [cbind].
  assert (Eh : take (Z.to_nat (get_var_cell_header_size wide)) s = var_header wide c).
  { rewrite <- (take_app_le s t) by (unfold zlen in *; destruct wide; cbn in *; lia).
    rewrite Hs, wire_var. apply take_zapp. symmetry. apply var_header_size. }
  rewrite Eh. destruct (var_header_fields wide c Hi Hp) as (-> & -> & _). cbn [cbind]. rewrite Hv. cbn [negb].
  assert (Hlt : zlen s < get_var_cell_header_size wide + zlen (v_payload c)).
  { rewrite <- (wire_size wide (Var c)), <- Hs, zlen_app. destruct t; [done|]. rewrite zlen_cons. pose proof (zlen_nonneg t). lia. }
  by rewrite (proj2 (Z.ltb_lt _ _)).
Qed.

Lemma fetch_var_full b c rest :
  q_holds b (wire wide (Var c) ++ rest) -> link_cell_ok proto wide (Var c) ->
  exists b', fetch_var_cell_from_buf b proto = Ok (b', VarCell c) /\ q_holds b' rest.
Proof.
  rewrite wire_var, <- app_assoc. intros Hb (Hi & _ & Hp & Hv). unfold fetch_var_cell_from_buf. rewrite <- Hwide, (q_datalen_ok b _ Hb).
  pose proof (var_header_size wide c) as Hh. pose proof (zlen_nonneg (v_payload c)). pose proof (zlen_nonneg rest).
  assert (0 <= get_var_cell_header_size wide) by by destruct wide.
  rewrite !zlen_app, Hh. rewrite (proj2 (Z.ltb_ge _ _)) by lia.
  rewrite (q_peek_ok b _ _ Hb) by (rewrite !zlen_app; lia). cbn [cbind]. rewrite take_zapp by done.
  destruct (var_header_fields wide c Hi Hp) as (-> & -> & ->). cbn [cbind]. rewrite Hv. cbn [negb]. rewrite (proj2 (Z.ltb_ge _ _)) by lia.
  destruct (q_drain_ok b _ (get_var_cell_header_size wide) Hb) as (b1 & -> & Q1); [rewrite !zlen_app; lia|]. cbn [cbind].
  rewrite drop_zapp in Q1 by done. rewrite (q_peek_ok b1 _ _ Q1) by (rewrite !zlen_app; lia). cbn [cbind]. rewrite take_zapp by done.
  destruct (q_drain_ok b1 _ (zlen (v_payload c)) Q1) as (b2 & -> & Q2); [rewrite !zlen_app; lia|]. cbn [cbind].
  rewrite drop_zapp in Q2 by done. exists b2. split; [by destruct c|done].
Qed.

Lemma fetch_cell_full b c rest :
  q_holds b (wire wide c ++ rest) -> link_cell_ok proto wide c ->
  exists b', fetch_cell b proto wide = Ok (b', Some c) /\ q_holds b' rest.
Proof.
  intros Hb Hc. unfold fetch_cell. destruct c as [c|c].
  - rewrite (fetch_var_not b _ [] c rest Hb Hc) by (by rewrite app_nil_r). cbn [cbind]. rewrite (q_datalen_ok b _ Hb).
    destruct Hc as (Hi & _ & Hp & _). pose proof (wire_size wide (Fixed c)) as Hw. cbn beta iota in Hw. rewrite Hp, <- network_size in Hw.
    pose proof (zlen_nonneg rest). rewrite zlen_app, (proj2 (Z.ltb_ge _ _)) by lia. rewrite <- Hw.
    destruct (q_get_bytes_ok b _ (zlen (wire wide (Fixed c))) Hb) as (b1 & -> & Q1); [rewrite zlen_app; pose proof (zlen_nonneg (wire wide (Fixed c))); lia|].
    cbn [cbind]. rewrite take_zapp, drop_zapp in * by done. rewrite cell_unpack_wire by done. eauto.
  - destruct (fetch_var_full b c rest Hb Hc) as (b' & -> & Hr). eauto.
Qed.

Lemma fetch_cell_part b c s t :
  q_holds b s -> link_cell_ok proto wide c -> s ++ t = wire wide c -> t <> [] -> fetch_cell b proto wide = Ok (b, None).
Proof.
  intros Hb Hc Hs Ht. unfold fetch_cell.
  assert (Hlt : zlen s < zlen (wire wide c)) by (rewrite <- Hs, zlen_app; destruct t; [done|]; rewrite zlen_cons; pose proof (zlen_nonneg t); lia).
  destruct c as [c|c].
  - rewrite (fetch_var_not b s t c [] Hb Hc) by (by rewrite app_nil_r). cbn [cbind]. rewrite (q_datalen_ok b s Hb).
    destruct Hc as (_ & _ & Hp & _). rewrite wire_size, Hp, <- network_size in Hlt. by rewrite (proj2 (Z.ltb_lt _ _)).
  - destruct (fetch_var_part b s t c Hb Hc Hs Ht) as [->|[-> Hn]]; [done|]. cbn [cbind]. rewrite (q_datalen_ok b s Hb).
    rewrite (proj2 (Z.ltb_lt _ _)); [done|].
    unfold get_cell_network_size, get_var_cell_header_size, CELL_MAX_NETWORK_SIZE, VAR_CELL_MAX_HEADER_SIZE in *. destruct wide; lia.
Qed.

Lemma fetch_cell_empty b : q_holds b [] -> fetch_cell b proto wide = Ok (b, None).
Proof.
  intros Hb. unfold fetch_cell, fetch_var_cell_from_buf. rewrite <- Hwide, (q_datalen_ok b _ Hb).
  assert ((zlen [] <? get_var_cell_header_size wide) = true) as -> by by destruct wide. cbn [cbind].
  rewrite (q_datalen_ok b _ Hb). by destruct wide.
Qed.

End Reader.

(** ** The stream *)

Section Stream.

Context {B : Type} `{ByteQueueLaws B}.
Context {S : Type} (link_proto : S -> Z) (conn_wide : S -> bool) (handle : S -> link_cell -> S).
Variables (proto : Z) (wide : bool).
Hypothesis Hwide : wide = (MIN_LINK_PROTO_FOR_WIDE_CIRC_IDS <=? proto).

(** Handling a cell leaves the link protocol alone, as it does on an open
    connection. *)
Definition settled (conn : S) : Prop := link_proto conn = proto /\ conn_wide conn = wide.
Hypothesis Hhandle : forall conn c, settled conn -> settled (handle conn c).

Definition wires (cs : list link_cell) : bytes := concat (map (wire wide) cs).

(** No complete cell is waiting: [s] is shorter than the next cell. *)
Definition pending (s : bytes) (cs : list link_cell) : Prop :=
  match cs with [] => s = [] | c :: _ => zlen s < zlen (wire wide c) end.

Lemma wire_pos c : 0 < zlen (wire wide c).
Proof. destruct (header_size_bounds wide). rewrite wire_size. destruct c as [c|c]; [pose proof (zlen_nonneg (payload c))|pose proof (zlen_nonneg (v_payload c))]; lia. Qed.

Lemma process_loop_ok cs : forall fuel b s t conn,
  Forall (link_cell_ok proto wide) cs -> settled conn -> q_holds b s -> s ++ t = wires cs -> zlen s < Z.of_nat fuel ->
  exists b' s' cs1 cs2, process_loop link_proto conn_wide handle fuel b conn = Ok (b', foldl handle conn cs1)
    /\ cs = cs1 ++ cs2 /\ q_holds b' s' /\ s' ++ t = wires cs2 /\ pending s' cs2 /\ settled (foldl handle conn cs1).
Proof.
  induction cs as [|c cs IH]; intros fuel b s t conn Hcs Hst Hb Hs Hf; (destruct fuel as [|fuel]; [pose proof (zlen_nonneg s); lia|]);
    cbn [process_loop]; destruct Hst as [Hp Hw]; rewrite Hp, Hw.
  - apply app_eq_nil in Hs as [-> ->]. rewrite (fetch_cell_empty proto wide Hwide b Hb). cbn [cbind].
    exists b, [], [], []. done.
  - apply Forall_cons_iff in Hcs as [Hc Hcs]. unfold wires in Hs. cbn [map concat] in Hs. fold (wires cs) in Hs.
    destruct (Z.lt_ge_cases (zlen s) (zlen (wire wide c))) as [Hlt|Hge].
    + assert (exists u, s ++ u = wire wide c /\ u <> []) as (u & Hu & Hne).
      { apply app_eq_inv in Hs as [(k & E1 & E2)|(k & E1 & E2)].
        - exfalso. rewrite E1, zlen_app in Hlt. pose proof (zlen_nonneg k). lia.
        - exists k. split; [done|]. intros ->. rewrite app_nil_r in E1. subst. lia. }
      rewrite (fetch_cell_part proto wide Hwide b c s u Hb Hc Hu Hne). cbn [cbind].
      exists b, s, [], (c :: cs). split; [done|]. split; [done|]. split; [done|]. split; [by unfold wires|]. done.
    + assert (exists k, s = wire wide c ++ k /\ k ++ t = wires cs) as (k & -> & Hk).
      { apply app_eq_inv in Hs as [(k & E1 & E2)|(k & E1 & E2)]; [eauto|]. rewrite E1, zlen_app in Hge.
        destruct k; [|rewrite zlen_cons in Hge; pose proof (zlen_nonneg k); lia].
        exists []. rewrite app_nil_r in *. split; [done|]. by rewrite E2. }
      destruct (fetch_cell_full proto wide Hwide b c k Hb Hc) as (b1 & -> & Q1). cbn [cbind]. pose proof (wire_pos c). rewrite zlen_app in Hf.
      destruct (IH fuel b1 k t (handle conn c) Hcs (Hhandle conn c (conj Hp Hw)) Q1 Hk) as (b' & s' & cs1 & cs2 & E & -> & R); [lia|].
      exists b', s', (c :: cs1), cs2. done.
Qed.

Lemma pending_bound s cs : Forall (link_cell_ok proto wide) cs -> pending s cs -> zlen s <= 65542.
Proof.
  intros Hcs Hp. destruct cs as [|c cs]; cbn in Hp; [by subst|]. apply Forall_cons_iff in Hcs as [Hc _]. rewrite wire_size in Hp.
  destruct (header_size_bounds wide) as [Hh Hs]. destruct c as [c|c]; destruct Hc as (_ & _ & Hl & _); unfold CELL_PAYLOAD_SIZE, UINT16_MAX in *; lia.
Qed.

Lemma receive_ok pieces : forall b s cs conn,
  Forall (link_cell_ok proto wide) cs -> settled conn -> q_holds b s -> pending s cs ->
  s ++ concat pieces = wires cs -> Forall (fun p => zlen p <= BUF_MAX_LEN - 65542) pieces ->
  exists b', receive link_proto conn_wide handle b conn pieces = Ok (b', foldl handle conn cs) /\ q_holds b' [].
Proof.
  induction pieces as [|p pieces IH]; intros b s cs conn Hcs Hst Hb Hpe Hs Hsz; cbn [receive].
  - cbn in Hs. rewrite app_nil_r in Hs. subst s. destruct cs as [|c cs]; [by exists b|]. exfalso. unfold wires in Hpe. cbn in Hpe.
    rewrite zlen_app in Hpe. pose proof (zlen_nonneg (concat (map (wire wide) cs))). lia.
  - apply Forall_cons_iff in Hsz as [Hz Hsz]. pose proof (pending_bound s cs Hcs Hpe).
    destruct (q_add_ok b s p Hb) as (b1 & -> & Q1); [lia|]. cbn [cbind]. unfold connection_or_process_cells_from_inbuf.
    cbn [concat] in Hs. rewrite app_assoc in Hs.
    destruct (process_loop_ok cs (Datatypes.S (Z.to_nat (q_datalen b1))) b1 (s ++ p) (concat pieces) conn Hcs Hst Q1 Hs)
      as (b2 & s2 & cs1 & cs2 & -> & -> & Q2 & E2 & P2 & S2); [rewrite (q_datalen_ok b1 _ Q1); pose proof (zlen_nonneg (s ++ p)); lia|].
    cbn [cbind]. apply Forall_app in Hcs as [_ Hcs]. destruct (IH b2 s2 cs2 _ Hcs S2 Q2 P2 E2 Hsz) as (b3 & -> & Q3).
    exists b3. by rewrite foldl_app.
Qed.

End Stream.

(** ** Claims *)

(** C36. Cells survive the link: whatever cells one side writes, fixed or variable in
    length, and however the bytes are cut into pieces on the way, the loop of the other
    side hands exactly these cells, in order, to the channel, and leaves nothing in
    the buffer; a piece only has to leave room in the buffer for one unfinished
    cell. *)
Theorem link_cells_reassembled {B} `{ByteQueueLaws B} {S} (link_proto : S -> Z) (conn_wide : S -> bool) (handle : S -> link_cell -> S)
    proto wide b conn cs w pieces :
  wide = (MIN_LINK_PROTO_FOR_WIDE_CIRC_IDS <=? proto) ->
  (forall conn c, settled link_proto conn_wide proto wide conn -> settled link_proto conn_wide proto wide (handle conn c)) ->
  settled link_proto conn_wide proto wide conn ->
  Forall (link_cell_ok proto wide) cs -> write_link_cells cs wide = Ok w ->
  concat pieces = w -> Forall (fun p => zlen p <= BUF_MAX_LEN - 65542) pieces -> q_holds b [] ->
  exists b', receive link_proto conn_wide handle b conn pieces = Ok (b', foldl handle conn cs) /\ q_holds b' [].
Proof.
  intros Hw Hh Hc Hcs Ew Ep Hp Hb. rewrite (write_link_cells_ok proto wide cs Hcs) in Ew. injection Ew as <-.
  apply (receive_ok link_proto conn_wide handle proto wide Hw Hh pieces b [] cs conn); try done.
  destruct cs as [|c cs]; [done|]. apply wire_pos.
Qed.

(** A NETINFO-sized fixed cell and two variable cells, cut in pieces of 100 bytes,
    into an empty chunked buffer. *)
Definition demo_link : list link_cell :=
  [Var (mkvar 7 0 [0; 4; 0; 5]); Fixed (mkcell 77 CELL_RELAY (repeat 5 509)); Var (mkvar 129 0 (repeat 9 300))].

Definition demo_wire : bytes := match write_link_cells demo_link true with Ok w => w | _ => [] end.

Fixpoint cut (fuel : nat) (n : nat) (s : bytes) : list bytes :=
  match fuel with O => [s] | S fuel => take n s :: cut fuel n (drop n s) end.

Lemma concat_cut fuel n s : concat (cut fuel n s) = s.
Proof. revert s. induction fuel as [|f IH]; intros s; cbn; [apply app_nil_r|]. rewrite IH. apply take_drop. Qed.

Lemma cut_bound m fuel n s : zlen s <= m -> Forall (fun p => zlen p <= m) (cut fuel n s).
Proof.
  revert s. induction fuel as [|f IH]; intros s Hs; cbn [cut]; [by constructor|].
  pose proof (take_drop n s) as E. apply (f_equal zlen) in E. rewrite zlen_app in E.
  pose proof (zlen_nonneg (take n s)). pose proof (zlen_nonneg (drop n s)). constructor; [lia|]. apply IH. lia.
Qed.

Lemma link_cells_reassembled_witness :
  exists b', receive (B := alloc_t * buf_t) (H := chunked_queue 0) (fun _ : list link_cell => 4) (fun _ => true) (fun l c => l ++ [c])
      (mkalloc 0 0 true 7, buf_new) [] (cut 9 100 demo_wire) = Ok (b', demo_link)
    /\ q_holds (ByteQueue := chunked_queue 0) b' [].
Proof.
  apply (link_cells_reassembled (B := alloc_t * buf_t) (H := chunked_queue 0) (H0 := chunked_laws 0) (fun _ : list link_cell => 4) (fun _ => true)
           (fun l c => l ++ [c]) 4 true (mkalloc 0 0 true 7, buf_new) [] demo_link demo_wire (cut 9 100 demo_wire)).
  - reflexivity.
  - intros conn c _. split; reflexivity.
  - split; reflexivity.
  - unfold demo_link. repeat first [apply List.Forall_cons | apply List.Forall_nil]; vm_compute; repeat split; congruence.
  - vm_compute. reflexivity.
  - apply concat_cut.
  - apply cut_bound. vm_compute. congruence.
  - split; [|reflexivity]. apply empty_buf_ok; vm_compute; [split; reflexivity|congruence].
Defined.
