(* ===== verification/TokenBucket.v ===== *)
(** * Token buckets

    Models lib/evloop/token_bucket.c, which limits the rates of connections: raw
    buckets in 32-bit integers, the pair of buckets for reading and writing that is
    refilled by a wrapping clock, and the counters in seconds.  The conversion of a
    rate uses [monotime_coarse_stamp_units_to_approx_msec] of
    lib/time/compat_time.c in its general form, with the ticks per second of the
    platform as a parameter.  [tor_assert_nonfatal] only logs. *)

From S2P Require Import Prelude.
From Stdlib Require Import ZArith.
From stdpp Require Import base list numbers.
Open Scope Z_scope.

Definition TOKEN_BUCKET_MAX_BURST : Z := INT32_MAX.
Definition TICKS_PER_STEP : Z := 16.
Definition TB_READ : Z := 1.
Definition TB_WRITE : Z := 2.

Record token_bucket_cfg_t := mkcfg { rate : Z; burst : Z }.

Definition token_bucket_cfg_init (r b : Z) : token_bucket_cfg_t :=
  mkcfg r (if TOKEN_BUCKET_MAX_BURST <? b then TOKEN_BUCKET_MAX_BURST else b).

Definition token_bucket_raw_reset (cfg : token_bucket_cfg_t) : Z := burst cfg.

Definition token_bucket_raw_adjust (bucket : Z) (cfg : token_bucket_cfg_t) : Z :=
  if bucket <? burst cfg then bucket else burst cfg.

Definition token_bucket_raw_get (bucket : Z) : Z := if 0 <=? bucket then bucket else 0.

(** The new level, and whether the bucket was empty and is not any more. *)
Definition token_bucket_raw_refill_steps (bucket : Z) (cfg : token_bucket_cfg_t) (elapsed : Z) : cres (Z * bool) :=
  let was_empty := bucket <=? 0 in
  let gap := u64 (burst cfg - bucket) in
  assert! (negb (rate cfg =? 0));
  let bucket := if gap / rate cfg <? elapsed then burst cfg else s32 (bucket + u32 (rate cfg * elapsed)) in
  Ok (bucket, was_empty && (0 <? bucket)).

(** The new level, and whether the bucket becomes empty. *)
Definition token_bucket_raw_dec (bucket n : Z) : Z * bool :=
  if n <? 0 then (bucket, false)
  else (s32 (bucket - n), (0 <? bucket) && (bucket <=? n)).

(** ** Buckets for reading and writing *)

Section Ticks.

Variable STAMP_TICKS_PER_SECOND : Z.

Definition monotime_coarse_stamp_units_to_approx_msec (units : Z) : Z := u64 (units * 1000) / STAMP_TICKS_PER_SECOND.

Definition rate_per_sec_to_rate_per_step (r : Z) : Z :=
  let units := u64 (r * TICKS_PER_STEP) in
  let val := u32 (monotime_coarse_stamp_units_to_approx_msec units / 1000) in
  if val =? 0 then 1 else val.

Record token_bucket_rw_t := mkrw { rw_cfg : token_bucket_cfg_t; read_bucket : Z; write_bucket : Z; last_refilled_at_timestamp : Z }.

Definition token_bucket_rw_adjust (b : token_bucket_rw_t) (r bu : Z) : token_bucket_rw_t :=
  let cfg := token_bucket_cfg_init (rate_per_sec_to_rate_per_step r) bu in
  mkrw cfg (token_bucket_raw_adjust (read_bucket b) cfg) (token_bucket_raw_adjust (write_bucket b) cfg) (last_refilled_at_timestamp b).

Definition token_bucket_rw_reset (b : token_bucket_rw_t) (now_ts_stamp : Z) : token_bucket_rw_t :=
  mkrw (rw_cfg b) (token_bucket_raw_reset (rw_cfg b)) (token_bucket_raw_reset (rw_cfg b)) now_ts_stamp.

Definition token_bucket_rw_init (r bu now_ts_stamp : Z) : token_bucket_rw_t :=
  token_bucket_rw_reset (token_bucket_rw_adjust (mkrw (mkcfg 0 0) 0 0 0) r bu) now_ts_stamp.

Definition flag (b : bool) (f : Z) : Z := if b then f else 0.

Definition token_bucket_rw_refill (b : token_bucket_rw_t) (now_ts_stamp : Z) : cres (token_bucket_rw_t * Z) :=
  let elapsed_ticks := u32 (now_ts_stamp - last_refilled_at_timestamp b) in
  if elapsed_ticks <=? UINT32_MAX / 4 then
    let elapsed_steps := elapsed_ticks / TICKS_PER_STEP in
    if elapsed_steps =? 0 then Ok (b, 0)
    else
      let* (r, fr) := token_bucket_raw_refill_steps (read_bucket b) (rw_cfg b) elapsed_steps in
      let* (w, fw) := token_bucket_raw_refill_steps (write_bucket b) (rw_cfg b) elapsed_steps in
      Ok (mkrw (rw_cfg b) r w now_ts_stamp, Z.lor (flag fr TB_READ) (flag fw TB_WRITE))
  else Ok (mkrw (rw_cfg b) (read_bucket b) (write_bucket b) now_ts_stamp, 0).

Definition token_bucket_rw_dec_read (b : token_bucket_rw_t) (n : Z) : token_bucket_rw_t * bool :=
  let '(r, e) := token_bucket_raw_dec (read_bucket b) n in
  (mkrw (rw_cfg b) r (write_bucket b) (last_refilled_at_timestamp b), e).

Definition token_bucket_rw_dec_write (b : token_bucket_rw_t) (n : Z) : token_bucket_rw_t * bool :=
  let '(w, e) := token_bucket_raw_dec (write_bucket b) n in
  (mkrw (rw_cfg b) (read_bucket b) w (last_refilled_at_timestamp b), e).

Definition token_bucket_rw_dec (b : token_bucket_rw_t) (n_read n_written : Z) : token_bucket_rw_t * Z :=
  let '(b, fr) := token_bucket_rw_dec_read b n_read in
  let '(b, fw) := token_bucket_rw_dec_write b n_written in
  (b, Z.lor (flag fr TB_READ) (flag fw TB_WRITE)).

(** ** Counters in seconds *)

Record token_bucket_ctr_t := mkctr { ctr_cfg : token_bucket_cfg_t; counter : Z; ctr_refilled_at : Z }.

Definition token_bucket_ctr_adjust (b : token_bucket_ctr_t) (r bu : Z) : token_bucket_ctr_t :=
  let cfg := token_bucket_cfg_init r bu in
  mkctr cfg (token_bucket_raw_adjust (counter b) cfg) (ctr_refilled_at b).

Definition token_bucket_ctr_reset (b : token_bucket_ctr_t) (now_ts_sec : Z) : token_bucket_ctr_t :=
  mkctr (ctr_cfg b) (token_bucket_raw_reset (ctr_cfg b)) now_ts_sec.

Definition token_bucket_ctr_init (r bu now_ts_sec : Z) : token_bucket_ctr_t :=
  token_bucket_ctr_reset (token_bucket_ctr_adjust (mkctr (mkcfg 0 0) 0 0) r bu) now_ts_sec.

Definition token_bucket_ctr_refill (b : token_bucket_ctr_t) (now_ts_sec : Z) : cres token_bucket_ctr_t :=
  let elapsed_sec := u32 (now_ts_sec - ctr_refilled_at b) in
  let* c :=
    (if elapsed_sec <=? UINT32_MAX / 4
     then let* (c, _) := token_bucket_raw_refill_steps (counter b) (ctr_cfg b) elapsed_sec in Ok c else Ok (counter b)) in
  Ok (mkctr (ctr_cfg b) c now_ts_sec).

Definition token_bucket_ctr_dec (b : token_bucket_ctr_t) (n : Z) : token_bucket_ctr_t * bool :=
  let '(c, e) := token_bucket_raw_dec (counter b) n in (mkctr (ctr_cfg b) c (ctr_refilled_at b), e).

(** ** Raw buckets *)

Record cfg_ok (cfg : token_bucket_cfg_t) : Prop := mk_cfg_ok {
  cf_rate : 1 <= rate cfg <= UINT32_MAX;
  cf_burst : 0 <= burst cfg <= INT32_MAX
}.

Definition level_ok (cfg : token_bucket_cfg_t) (bucket : Z) : Prop := INT32_MIN <= bucket <= burst cfg.

Lemma refill_steps_ok cfg bucket elapsed :
  cfg_ok cfg -> level_ok cfg bucket -> 0 <= elapsed ->
  exists f, token_bucket_raw_refill_steps bucket cfg elapsed = Ok (Z.min (burst cfg) (bucket + rate cfg * elapsed), f)
    /\ (f = true <-> bucket <= 0 < Z.min (burst cfg) (bucket + rate cfg * elapsed)).
Proof.
  intros [Hr Hb] Hl He. unfold token_bucket_raw_refill_steps, level_ok in *.
  assert (Hz : (rate cfg =? 0) = false) by (apply Z.eqb_neq; lia). rewrite Hz. cbn [negb].
  assert (Hg : u64 (burst cfg - bucket) = burst cfg - bucket).
  { unfold u64. apply Z.mod_small. unfold INT32_MIN, INT32_MAX in *. lia. }
  rewrite Hg. set (v := if _ <? _ then _ else _).
  assert (Ev : v = Z.min (burst cfg) (bucket + rate cfg * elapsed)).
  { unfold v. destruct (Z.ltb_spec ((burst cfg - bucket) / rate cfg) elapsed) as [Hlt|Hge].
    - pose proof (Z.mul_succ_div_gt (burst cfg - bucket) (rate cfg)). nia.
    - pose proof (Z.mul_div_le (burst cfg - bucket) (rate cfg)).
      assert (Hp : 0 <= rate cfg * elapsed <= burst cfg - bucket) by nia.
      unfold u32. rewrite (Z.mod_small (rate cfg * elapsed)) by (unfold INT32_MIN, INT32_MAX in *; lia).
      rewrite s32_small by (unfold INT32_MIN, INT32_MAX in *; lia). lia. }
  rewrite Ev. eexists. split; [done|]. rewrite andb_true_iff, Z.leb_le, Z.ltb_lt. done.
Qed.

Lemma raw_dec_ok bucket n :
  0 <= n <= bucket - INT32_MIN -> bucket <= INT32_MAX ->
  token_bucket_raw_dec bucket n = (bucket - n, (0 <? bucket) && (bucket <=? n)).
Proof.
  intros Hn Hb. unfold token_bucket_raw_dec. rewrite (proj2 (Z.ltb_ge _ _)) by lia. by rewrite s32_small by (unfold INT32_MIN in *; lia).
Qed.

Lemma cfg_init_ok r b : 1 <= r <= UINT32_MAX -> 0 <= b -> cfg_ok (token_bucket_cfg_init r b).
Proof. intros Hr Hb. unfold token_bucket_cfg_init, TOKEN_BUCKET_MAX_BURST. split; cbn; [done|]. unfold INT32_MAX. zcase; lia. Qed.

Lemma adjust_ok cfg bucket : INT32_MIN <= bucket <= INT32_MAX -> cfg_ok cfg -> level_ok cfg (token_bucket_raw_adjust bucket cfg).
Proof.
  intros Hb [_ Hc]. unfold level_ok, token_bucket_raw_adjust. unfold INT32_MIN in *. zcase; lia.
Qed.

Lemma rate_per_step_ok r : 1 <= rate_per_sec_to_rate_per_step r <= UINT32_MAX.
Proof.
  unfold rate_per_sec_to_rate_per_step. set (v := u32 _). assert (0 <= v < 2 ^ 32) by (apply Z.mod_pos_bound; done).
  unfold UINT32_MAX. destruct (Z.eqb_spec v 0); lia.
Qed.

End Ticks.

(** ** Runs of the pair of buckets *)

(** A refill at a time, in ticks that do not wrap; bytes read; bytes written. *)
Inductive tb_event := EvRefill (t : Z) | EvRead (n : Z) | EvWrite (n : Z).

Definition tb_exec (b : token_bucket_rw_t) (e : tb_event) : cres token_bucket_rw_t :=
  match e with
  | EvRefill t => let* (b, _) := token_bucket_rw_refill b (u32 t) in Ok b
  | EvRead n => Ok (fst (token_bucket_rw_dec_read b n))
  | EvWrite n => Ok (fst (token_bucket_rw_dec_write b n))
  end.

Fixpoint tb_run (b : token_bucket_rw_t) (es : list tb_event) : cres token_bucket_rw_t :=
  match es with [] => Ok b | e :: es => let* b := tb_exec b e in tb_run b es end.

(** Time does not go back, and no transfer takes the level below what 32 bits
    hold. *)
Fixpoint tb_allowed (b : token_bucket_rw_t) (T : Z) (es : list tb_event) : Prop :=
  match es with
  | [] => True
  | e :: es =>
      match e with
      | EvRefill t => T <= t
      | EvRead n => 0 <= n <= read_bucket b - INT32_MIN
      | EvWrite n => 0 <= n <= write_bucket b - INT32_MIN
      end /\
      forall b', tb_exec b e = Ok b' -> tb_allowed b' (match e with EvRefill t => t | _ => T end) es
  end.

Definition bytes_read (es : list tb_event) : Z := foldr (fun e n => match e with EvRead k => k + n | _ => n end) 0 es.
Definition bytes_written (es : list tb_event) : Z := foldr (fun e n => match e with EvWrite k => k + n | _ => n end) 0 es.
Definition last_time (T : Z) (es : list tb_event) : Z := foldl (fun t e => match e with EvRefill t => t | _ => t end) T es.

Record rw_ok (b : token_bucket_rw_t) (T : Z) : Prop := mk_rw_ok {
  ro_cfg : cfg_ok (rw_cfg b);
  ro_read : level_ok (rw_cfg b) (read_bucket b);
  ro_write : level_ok (rw_cfg b) (write_bucket b);
  ro_time : last_refilled_at_timestamp b = u32 T
}.

Lemma steps_bound T t : T <= t -> 0 <= u32 (u32 t - u32 T) / TICKS_PER_STEP <= (t - T) / TICKS_PER_STEP.
Proof.
  intros H. unfold u32. rewrite <- Zminus_mod. pose proof (Z.mod_pos_bound (t - T) (2 ^ 32)). pose proof (Z.mod_le (t - T) (2 ^ 32)).
  split; [apply Z.div_pos; unfold TICKS_PER_STEP; lia|]. apply Z.div_le_mono; [done|lia].
Qed.

(** A refill adds at most the rate times the steps that have passed. *)
Lemma rw_refill_ok b T t :
  rw_ok b T -> T <= t ->
  exists b' f T', token_bucket_rw_refill b (u32 t) = Ok (b', f) /\ rw_ok b' T' /\ T <= T' <= t /\ rw_cfg b' = rw_cfg b
    /\ read_bucket b' <= read_bucket b + rate (rw_cfg b) * ((T' - T) / TICKS_PER_STEP)
    /\ write_bucket b' <= write_bucket b + rate (rw_cfg b) * ((T' - T) / TICKS_PER_STEP).
Proof.
  intros [Hc Hr Hw Ht] HT. unfold token_bucket_rw_refill. rewrite Ht. destruct (steps_bound T t HT) as [S0 S1].
  set (n := u32 (u32 t - u32 T)) in *. destruct Hc as [Hc1 Hc2]. destruct (Z.leb_spec n (UINT32_MAX / 4)).
  - destruct (Z.eqb_spec (n / TICKS_PER_STEP) 0) as [E|E].
    + exists b, 0, T. split; [done|]. split; [done|]. rewrite Z.sub_diag. change (0 / TICKS_PER_STEP) with 0. repeat split; lia || done.
    + destruct (refill_steps_ok (rw_cfg b) (read_bucket b) _ (mk_cfg_ok _ Hc1 Hc2) Hr S0) as (f1 & -> & _).
      destruct (refill_steps_ok (rw_cfg b) (write_bucket b) _ (mk_cfg_ok _ Hc1 Hc2) Hw S0) as (f2 & -> & _). cbn [cbind].
      do 2 eexists. exists t. split; [done|]. cbn [rw_cfg read_bucket write_bucket]. unfold level_ok in *.
      split; [split; cbn; unfold level_ok; (done || nia)|]. split; [lia|]. split; [done|]. nia.
  - do 2 eexists. exists t. split; [done|]. cbn [rw_cfg read_bucket write_bucket]. split; [by split|]. split; [lia|]. split; [done|].
    assert (0 <= (t - T) / TICKS_PER_STEP) by lia. nia.
Qed.

Lemma div_split T t u : T <= t <= u -> (t - T) / TICKS_PER_STEP + (u - t) / TICKS_PER_STEP <= (u - T) / TICKS_PER_STEP.
Proof.
  intros H. unfold TICKS_PER_STEP. apply Z.div_le_lower_bound; [done|].
  pose proof (Z.mul_div_le (t - T) 16). pose proof (Z.mul_div_le (u - t) 16). lia.
Qed.

Lemma dec_read_ok b T n :
  rw_ok b T -> 0 <= n <= read_bucket b - INT32_MIN ->
  exists b', tb_exec b (EvRead n) = Ok b' /\ rw_ok b' T /\ rw_cfg b' = rw_cfg b
    /\ read_bucket b' = read_bucket b - n /\ write_bucket b' = write_bucket b.
Proof.
  intros [[Hc1 Hc2] Hr Hw Ht] Hn. unfold level_ok in *. cbn [tb_exec]. unfold token_bucket_rw_dec_read.
  rewrite raw_dec_ok by (unfold INT32_MIN, INT32_MAX in *; lia). cbn [fst]. eexists. split; [done|]. cbn.
  split; [split; cbn; unfold level_ok; (done || lia)|done].
Qed.

Lemma dec_write_ok b T n :
  rw_ok b T -> 0 <= n <= write_bucket b - INT32_MIN ->
  exists b', tb_exec b (EvWrite n) = Ok b' /\ rw_ok b' T /\ rw_cfg b' = rw_cfg b
    /\ read_bucket b' = read_bucket b /\ write_bucket b' = write_bucket b - n.
Proof.
  intros [[Hc1 Hc2] Hr Hw Ht] Hn. unfold level_ok in *. cbn [tb_exec]. unfold token_bucket_rw_dec_write.
  rewrite raw_dec_ok by (unfold INT32_MIN, INT32_MAX in *; lia). cbn [fst]. eexists. split; [done|]. cbn.
  split; [split; cbn; unfold level_ok; (done || lia)|done].
Qed.

Lemma last_time_le es : forall b T, tb_allowed b T es -> (exists b', tb_run b es = Ok b') -> T <= last_time T es.
Proof.
  induction es as [|e es IH]; intros b T Ha [b' Hr]; cbn; [lia|]. cbn in Ha, Hr. destruct Ha as [He Hn].
  destruct (tb_exec b e) as [b1| | |] eqn:E; try done. specialize (IH b1 _ (Hn b1 eq_refl) (ex_intro _ b' Hr)).
  destruct e; [|done|done]. etransitivity; [exact He|exact IH].
Qed.

Definition limited (b b' : token_bucket_rw_t) (es : list tb_event) (steps : Z) : Prop :=
  bytes_read es + read_bucket b' <= read_bucket b + rate (rw_cfg b) * steps
  /\ bytes_written es + write_bucket b' <= write_bucket b + rate (rw_cfg b) * steps.

Lemma run_limited es : forall b Tr T,
  rw_ok b Tr -> Tr <= T -> tb_allowed b T es ->
  exists b', tb_run b es = Ok b' /\ (exists T', rw_ok b' T') /\ rw_cfg b' = rw_cfg b
    /\ T <= last_time T es /\ limited b b' es ((last_time T es - Tr) / TICKS_PER_STEP).
Proof.
  induction es as [|e es IH]; intros b Tr T Hb HT Ha; cbn [tb_run].
  - exists b. split; [done|]. split; [by exists Tr|]. split; [done|]. split; [cbn; lia|]. destruct (ro_cfg _ _ Hb) as [Hc _].
    assert (0 <= (T - Tr) / TICKS_PER_STEP) by (apply Z.div_pos; unfold TICKS_PER_STEP; lia). unfold limited. cbn. nia.
  - destruct Ha as [He Hn]. destruct (ro_cfg _ _ Hb) as [Hc _]. destruct e as [t|n|n].
    + destruct (rw_refill_ok b Tr t Hb) as (b1 & f & T1 & E & Hb1 & HT1 & Ec & Hr & Hw); [lia|].
      assert (Ex : tb_exec b (EvRefill t) = Ok b1) by (cbn; by rewrite E). rewrite Ex. cbn [cbind].
      destruct (IH b1 T1 t Hb1) as (b2 & -> & Hok & Ec2 & HL & [L1 L2]); [lia|by apply Hn|]. exists b2. split; [done|]. split; [done|].
      split; [congruence|]. change (last_time T (EvRefill t :: es)) with (last_time t es). split; [lia|].
      pose proof (div_split Tr T1 (last_time t es) ltac:(lia)). rewrite Ec in *. unfold limited in *.
      change (bytes_read (EvRefill t :: es)) with (bytes_read es). change (bytes_written (EvRefill t :: es)) with (bytes_written es). nia.
    + destruct (dec_read_ok b Tr n Hb He) as (b1 & Ex & Hb1 & Ec & Er & Ew). rewrite Ex. cbn [cbind].
      destruct (IH b1 Tr T Hb1 HT (Hn b1 Ex)) as (b2 & -> & Hok & Ec2 & HL & [L1 L2]). exists b2. split; [done|]. split; [done|].
      split; [congruence|]. split; [done|]. rewrite Ec, Er, Ew in *. unfold limited. cbn [bytes_read bytes_written foldr last_time foldl]. split; [|exact L2].
      fold (bytes_read es). fold (last_time T es). lia.
    + destruct (dec_write_ok b Tr n Hb He) as (b1 & Ex & Hb1 & Ec & Er & Ew). rewrite Ex. cbn [cbind].
      destruct (IH b1 Tr T Hb1 HT (Hn b1 Ex)) as (b2 & -> & Hok & Ec2 & HL & [L1 L2]). exists b2. split; [done|]. split; [done|].
      split; [congruence|]. split; [done|]. rewrite Ec, Er, Ew in *. unfold limited. cbn [bytes_read bytes_written foldr last_time foldl]. split; [exact L1|].
      fold (bytes_written es). fold (last_time T es). lia.
Qed.

(** ** Claims *)

(** C37. The rate limit holds: over any run of refills, reads and writes, the bytes
    transferred in a direction are at most the initial level (at most the burst)
    plus the rate times the steps of time that passed, less the final level; the
    wrapping clock, skipped jumps and lost fractions of a step never give more.
    No call fails, and the levels stay within the burst. *)
Theorem token_bucket_limits_rate ticks r bu T0 es :
  0 <= bu -> 0 <= T0 -> tb_allowed (token_bucket_rw_init ticks r bu (u32 T0)) T0 es ->
  exists b', tb_run (token_bucket_rw_init ticks r bu (u32 T0)) es = Ok b' /\ (exists T', rw_ok b' T')
    /\ bytes_read es + read_bucket b' <= Z.min bu INT32_MAX + rate_per_sec_to_rate_per_step ticks r * ((last_time T0 es - T0) / TICKS_PER_STEP)
    /\ bytes_written es + write_bucket b' <= Z.min bu INT32_MAX + rate_per_sec_to_rate_per_step ticks r * ((last_time T0 es - T0) / TICKS_PER_STEP).
Proof.
  intros Hbu HT Ha. set (b := token_bucket_rw_init ticks r bu (u32 T0)) in *.
  assert (Hc : cfg_ok (rw_cfg b)) by (apply cfg_init_ok; [apply rate_per_step_ok|done]).
  assert (Eb : burst (rw_cfg b) = Z.min bu INT32_MAX).
  { cbn. unfold TOKEN_BUCKET_MAX_BURST. zcase; lia. }
  assert (Hb : rw_ok b T0).
  { destruct Hc as [H1 H2]. split; [by split| | |done]; change (INT32_MIN <= burst (rw_cfg b) <= burst (rw_cfg b)); unfold INT32_MIN; lia. }
  destruct (run_limited es b T0 T0 Hb (Z.le_refl T0) Ha) as (b' & E & Hok & _ & _ & [L1 L2]). exists b'.
  change (read_bucket b) with (burst (rw_cfg b)) in L1. change (write_bucket b) with (burst (rw_cfg b)) in L2. rewrite Eb in L1, L2. done.
Qed.

(** Full burst read at once, a refill after 100 ticks across the wrap of the clock, and a
    read of what came in. *)
Definition demo_events : list tb_event := [EvRead 5000; EvRefill (2 ^ 32 + 60); EvRead 96; EvWrite 1000].

Lemma token_bucket_limits_rate_witness :
  exists b', tb_run (token_bucket_rw_init 1000 1000 5000 (u32 (2 ^ 32 - 40))) demo_events = Ok b' /\ read_bucket b' = 0
    /\ bytes_read demo_events + read_bucket b'
       <= Z.min 5000 INT32_MAX + rate_per_sec_to_rate_per_step 1000 1000 * ((last_time (2 ^ 32 - 40) demo_events - (2 ^ 32 - 40)) / TICKS_PER_STEP).
Proof.
  destruct (token_bucket_limits_rate 1000 1000 5000 (2 ^ 32 - 40) demo_events) as (b' & E & _ & H & _).
  - lia.
  - lia.
  - repeat (split; [vm_compute; repeat split; congruence|]; intros ? [= <-]). exact I.
  - exists b'. split; [exact E|]. split; [|exact H]. vm_compute in E. injection E as <-. reflexivity.
Defined.
