(* ===== verification/Scanf.v ===== *)
(** * tor_sscanf

    Models lib/string/scanf.c, the locale-independent replacement of sscanf: the
    scanners of unsigned and signed numbers, strings and characters, and the
    interpreter of the pattern.  The values stored through the variable arguments are
    returned as a list, in order.  A floating-point value is kept as its sign and its
    digits, since only its text matters here. *)

From S2P Require Import Prelude CString.
From Stdlib Require Import ZArith String.
From stdpp Require Import base list numbers.
Open Scope Z_scope.

Definition MAX_SCANF_WIDTH : Z := 9999.
Definition UINT_MAX : Z := 4294967295.
Definition INT_MIN : Z := - 2147483648.

Definition digit_to_num (d : Z) : Z := d - 48.

(** The loop of [scan_unsigned]: the rest, the result and the number of digits,
    or nothing when the next digit would overflow. *)
Fixpoint scan_digits (hex : bool) (width : Z) (buf : bytes) (result scanned : Z) : option (bytes * Z * Z) :=
  match buf with
  | [] => Some (buf, result, scanned)
  | c :: r =>
      if (if hex then TOR_ISXDIGIT c else TOR_ISDIGIT c) && (scanned <? width) then
        let digit := if hex then hex_decode_digit c else digit_to_num c in
        let base := if hex then 16 else 10 in
        if (ULONG_MAX - digit) / base <? result then None
        else scan_digits hex width r (result * base + digit) (scanned + 1)
      else Some (buf, result, scanned)
  end.

Definition scan_unsigned (buf : bytes) (width : Z) (hex : bool) : option (bytes * Z) :=
  let width := if width <? 0 then MAX_SCANF_WIDTH else width in
  match scan_digits hex width buf 0 0 with
  | None => None
  | Some (buf, result, scanned) => if scanned =? 0 then None else Some (buf, result)
  end.

Definition scan_signed (buf : bytes) (width : Z) : option (bytes * Z) :=
  let width := if width <? 0 then MAX_SCANF_WIDTH else width in
  let neg := cur buf =? 45 in
  let '(buf, width) := if neg then (drop 1 buf, width - 1) else (buf, width) in
  match scan_unsigned buf width false with
  | None => None
  | Some (buf, result) =>
      if neg && (0 <? result) then
        if LONG_MAX + 1 <? result then None
        else if result =? LONG_MAX + 1 then Some (buf, LONG_MIN)
        else Some (buf, - result)
      else if LONG_MAX <? result then None else Some (buf, result)
  end.

(** The loops of [scan_double] and [scan_string]. *)
Fixpoint scan_while (p : Z -> bool) (width : Z) (buf : bytes) (scanned : Z) : bytes * bytes * Z :=
  match buf with
  | [] => ([], [], scanned)
  | c :: r =>
      if p c && (scanned <? width) then let '(a, b, n) := scan_while p width r (scanned + 1) in (c :: a, b, n)
      else ([], buf, scanned)
  end.

Definition scan_double (buf : bytes) (width : Z) : option (bytes * (bool * bytes * bytes)) :=
  let width := if width <? 0 then MAX_SCANF_WIDTH else width in
  let neg := cur buf =? 45 in
  let buf := if neg then drop 1 buf else buf in
  let '(ip, buf, n) := scan_while TOR_ISDIGIT width buf 0 in
  let '(fp, buf, n) := if cur buf =? 46 then scan_while TOR_ISDIGIT width (drop 1 buf) (n + 1) else ([], buf, n) in
  if n =? 0 then None else Some (buf, (neg, ip, fp)).

Definition scan_string (buf : bytes) (width : Z) : option (bytes * bytes) :=
  if width <? 0 then None else let '(s, buf, _) := scan_while (fun c => negb (TOR_ISSPACE c)) width buf 0 in Some (buf, s).

Inductive scan_val := SInt (z : Z) | SDouble (neg : bool) (ip fp : bytes) | SStr (s : bytes) | SChar (c : Z).

(** The digits of the width after the first one; nothing when the width is
    too large. *)
Fixpoint scan_width (width : Z) (pattern : bytes) : option (Z * bytes) :=
  match pattern with
  | c :: r =>
      if TOR_ISDIGIT c then
        let width := width * 10 + digit_to_num c in
        if MAX_SCANF_WIDTH <? width then None else scan_width width r
      else Some (width, pattern)
  | [] => Some (width, pattern)
  end.

(** One conversion after its [%], width and modifier. *)
Inductive conversion :=
| ConvStop                                        (** return the matches so far *)
| ConvBad                                         (** return -1 *)
| ConvOk (buf : bytes) (v : scan_val)
| ConvSkip (buf : bytes).

Definition convert (c width : Z) (longmod : bool) (buf : bytes) : conversion :=
  if (c =? 117) || (c =? 120) then
    if cur buf =? 0 then ConvStop
    else
      match scan_unsigned buf width (c =? 120) with
      | None => ConvStop
      | Some (buf, u) => if negb longmod && (UINT_MAX <? u) then ConvStop else ConvOk buf (SInt u)
      end
  else if c =? 102 then
    if negb longmod then ConvBad
    else if cur buf =? 0 then ConvStop
    else match scan_double buf width with None => ConvStop | Some (buf, (neg, ip, fp)) => ConvOk buf (SDouble neg ip fp) end
  else if c =? 100 then
    match scan_signed buf width with
    | None => ConvStop
    | Some (buf, lng) => if negb longmod && ((lng <? INT_MIN) || (INT_MAX <? lng)) then ConvStop else ConvOk buf (SInt lng)
    end
  else if c =? 115 then
    if longmod then ConvBad
    else if width <? 0 then ConvBad
    else match scan_string buf width with None => ConvStop | Some (buf, s) => ConvOk buf (SStr s) end
  else if c =? 99 then
    if longmod then ConvBad
    else if negb (width =? -1) then ConvBad
    else if cur buf =? 0 then ConvStop
    else ConvOk (drop 1 buf) (SChar (cur buf))
  else if c =? 37 then
    if negb (cur buf =? 37) then ConvStop
    else if longmod then ConvBad
    else ConvSkip (drop 1 buf)
  else ConvBad.

(** The loop; every round takes at least one character off the pattern. *)
Fixpoint vsscanf_loop (fuel : nat) (buf pattern : bytes) (n_matched : Z) (vals : list scan_val) : cres (Z * list scan_val) :=
  match fuel with
  | O => Fuel
  | S fuel =>
      match pattern with
      | [] => Ok (n_matched, vals)
      | p :: pattern =>
          if negb (p =? 37) then
            if cur buf =? p then vsscanf_loop fuel (drop 1 buf) pattern n_matched vals else Ok (n_matched, vals)
          else
            match (if TOR_ISDIGIT (cur pattern)
                   then match scan_width (digit_to_num (cur pattern)) (drop 1 pattern) with
                        | Some (w, pat) => if w =? 0 then None else Some (w, pat)
                        | None => None
                        end
                   else Some (-1, pattern)) with
            | None => Ok (-1, vals)
            | Some (width, pattern) =>
                let '(longmod, pattern) := if cur pattern =? 108 then (true, drop 1 pattern) else (false, pattern) in
                match convert (cur pattern) width longmod buf with
                | ConvStop => Ok (n_matched, vals)
                | ConvBad => Ok (-1, vals)
                | ConvOk buf v => vsscanf_loop fuel buf (drop 1 pattern) (n_matched + 1) (vals ++ [v])
                | ConvSkip buf => vsscanf_loop fuel buf (drop 1 pattern) n_matched vals
                end
            end
      end
  end.

Definition tor_vsscanf (buf pattern : bytes) : cres (Z * list scan_val) := vsscanf_loop (S (length pattern)) buf pattern 0 [].
Definition tor_sscanf := tor_vsscanf.

(** ** Scanning terminates on every pattern *)

Lemma scan_width_length w pattern w' r : scan_width w pattern = Some (w', r) -> (length r <= length pattern)%nat.
Proof.
  revert w. induction pattern as [|c p IH]; intros w; cbn; [by intros [= <- <-]|].
  destruct (TOR_ISDIGIT c); [|by intros [= <- <-]]. destruct (_ <? _); [done|]. intros H%IH. lia.
Qed.

Lemma vsscanf_total fuel : forall buf pattern n vals, (length pattern < fuel)%nat -> exists r, vsscanf_loop fuel buf pattern n vals = Ok r.
Proof.
  induction fuel as [|fuel IH]; intros buf pattern n vals Hf; [lia|]. cbn [vsscanf_loop]. destruct pattern as [|p pattern]; [eauto|].
  cbn in Hf. destruct (negb (p =? 37)).
  - destruct (_ =? _); [apply IH; lia|eauto].
  - set (w := if TOR_ISDIGIT (cur pattern) then _ else _).
    assert (Hw : match w with Some (_, pat) => (length pat <= length pattern)%nat | None => True end).
    { unfold w. destruct (TOR_ISDIGIT (cur pattern)); [|done]. destruct (scan_width _ _) as [[w' pat]|] eqn:E; [|done].
      apply scan_width_length in E. rewrite length_drop in E. destruct (w' =? 0); [done|lia]. }
    destruct w as [[width pat]|]; [|eauto].
    assert (Hd : forall l : bytes, (length (drop 1 l) <= length l)%nat) by (intros l; rewrite length_drop; lia).
    destruct (cur pat =? 108); (destruct (convert _ _ _ _); [eauto|eauto| |]); apply IH; pose proof (Hd pat); pose proof (Hd (drop 1 pat)); lia.
Qed.

(** ** Numbers *)

Lemma dec_digit_props c : 48 <= c <= 57 -> TOR_ISDIGIT c = true /\ digit_to_num c = digit_val c /\ 0 <= digit_val c <= 9.
Proof.
  intros H. rewrite isdigit_byte by (unfold is_byte; lia). unfold digit_to_num, digit_val, digitP, in_range.
  assert ((48 <=? c) && (c <=? 57) = true) as -> by blia. lia.
Qed.

Lemma scan_digits_dec width ds rest : forall r n,
  dec_digits ds -> n + zlen ds <= width -> TOR_ISDIGIT (cur rest) = false -> 0 <= r -> (r + 1) * 10 ^ zlen ds <= 10 ^ 18 ->
  scan_digits false width (ds ++ rest) r n = Some (rest, fold_left (fun v c => v * 10 + digit_val c) ds r, n + zlen ds).
Proof.
  induction ds as [|c ds IH]; intros r n Hds Hw Hrest Hr Hb.
  - rewrite zlen_nil, Z.add_0_r. cbn [app fold_left]. destruct rest as [|x rest]; [done|]. cbn in Hrest. cbn. by rewrite Hrest.
  - apply Forall_cons_iff in Hds as [Hc Hds]. destruct (dec_digit_props c Hc) as (E1 & E2 & E3). rewrite zlen_cons in *.
    cbn [app scan_digits fold_left]. pose proof (zlen_nonneg ds) as Hn. rewrite E1, (proj2 (Z.ltb_lt _ _)) by lia. cbn [andb]. rewrite E2.
    rewrite Z.pow_add_r in Hb by lia. assert (Hp : 1 <= 10 ^ zlen ds) by (pose proof (Z.pow_pos_nonneg 10 (zlen ds)); lia).
    rewrite (proj2 (Z.ltb_ge _ _)).
    + rewrite IH; [f_equal; f_equal; lia|done|lia|done|lia|]. nia.
    + apply Z.div_le_lower_bound; [done|]. unfold ULONG_MAX. nia.
Qed.

Lemma scan_unsigned_dec width ds rest :
  dec_digits ds -> ds <> [] -> zlen ds <= width <= 18 -> TOR_ISDIGIT (cur rest) = false ->
  scan_unsigned (ds ++ rest) width false = Some (rest, digits_val 10 ds).
Proof.
  intros Hd Hne Hw Hr. unfold scan_unsigned. pose proof (zlen_nonneg ds). rewrite (proj2 (Z.ltb_ge width 0)) by lia.
  rewrite scan_digits_dec; try done; try lia.
  - destruct ds; [done|]. rewrite (proj2 (Z.eqb_neq _ 0)); [done|]. rewrite zlen_cons. pose proof (zlen_nonneg ds). lia.
  - rewrite Z.add_0_l, Z.mul_1_l. apply Z.pow_le_mono_r; lia.
Qed.

(** ** Dotted quads *)

Definition QUAD : bytes := s2b "%3u.%3u.%3u.%3u%c".

(** Decimal numbers of up to three digits. *)
Definition octet_text (ds : bytes) : Prop := dec_digits ds /\ ds <> [] /\ zlen ds <= 3.

Lemma dec_digits_cur ds rest : dec_digits ds -> ds <> [] -> cur (ds ++ rest) =? 0 = false.
Proof. destruct ds as [|c ds]; [done|]. intros Hd _. apply Forall_cons_iff in Hd as [Hc _]. cbn. apply Z.eqb_neq. lia. Qed.

Lemma convert_octet ds rest :
  octet_text ds -> TOR_ISDIGIT (cur rest) = false -> convert 117 3 false (ds ++ rest) = ConvOk rest (SInt (digits_val 10 ds)).
Proof.
  intros (Hd & Hne & Hl) Hr. unfold convert. cbn [Z.eqb Pos.eqb orb]. rewrite dec_digits_cur by done.
  rewrite scan_unsigned_dec by (done || lia). cbn [negb andb].
  assert (Hb : forall r l, dec_digits l -> 0 <= r -> fold_left (fun v c => v * 10 + digit_val c) l r < (r + 1) * 10 ^ zlen l).
  { intros r l. revert r. induction l as [|c l IH]; intros r Hl' Hr'; [rewrite zlen_nil; cbn [fold_left]; lia|]. apply Forall_cons_iff in Hl' as [Hc Hl'].
    destruct (dec_digit_props c Hc) as (_ & _ & E). cbn [fold_left]. rewrite zlen_cons, Z.pow_add_r by (pose proof (zlen_nonneg l); lia).
    specialize (IH (r * 10 + digit_val c) Hl' ltac:(lia)). pose proof (Z.pow_pos_nonneg 10 (zlen l) ltac:(lia) (zlen_nonneg l)). nia. }
  specialize (Hb 0 ds Hd ltac:(lia)). assert (10 ^ zlen ds <= 10 ^ 3) by (apply Z.pow_le_mono_r; lia).
  rewrite (proj2 (Z.ltb_ge _ _)); [done|]. unfold digits_val, UINT_MAX. lia.
Qed.

Lemma step_octet f ds rest pat n vals :
  octet_text ds -> TOR_ISDIGIT (cur rest) = false ->
  vsscanf_loop (S f) (ds ++ rest) (37 :: 51 :: 117 :: pat) n vals
  = vsscanf_loop f rest pat (n + 1) (vals ++ [SInt (digits_val 10 ds)]).
Proof.
  intros Hd Hr. cbn [vsscanf_loop negb Z.eqb Pos.eqb cur hd drop scan_width].
  assert (TOR_ISDIGIT 51 = true) as -> by reflexivity. assert (TOR_ISDIGIT 117 = false) as -> by reflexivity.
  cbv iota zeta. cbn [cur hd drop]. change (digit_to_num 51) with 3. change (3 =? 0) with false. cbv iota. cbn [cur hd drop].
  change (117 =? 108) with false. cbv iota. cbn [cur hd drop]. by rewrite convert_octet.
Qed.

Lemma step_dot f rest pat n vals : vsscanf_loop (S f) (46 :: rest) (46 :: pat) n vals = vsscanf_loop f rest pat n vals.
Proof. reflexivity. Qed.

Lemma quad_scan a b c d :
  octet_text a -> octet_text b -> octet_text c -> octet_text d ->
  tor_sscanf (a ++ [46] ++ b ++ [46] ++ c ++ [46] ++ d) QUAD
  = Ok (4, map (fun x => SInt (digits_val 10 x)) [a; b; c; d]).
Proof.
  intros Ha Hb Hc Hd. unfold tor_sscanf, tor_vsscanf. change (S (length QUAD)) with 18%nat.
  change QUAD with [37; 51; 117; 46; 37; 51; 117; 46; 37; 51; 117; 46; 37; 51; 117; 37; 99]. cbn [app].
  rewrite step_octet, step_dot by done. rewrite step_octet, step_dot by done. rewrite step_octet, step_dot by done.
  rewrite <- (app_nil_r d) at 1. rewrite step_octet by done. reflexivity.
Qed.

(** *** What a dotted quad is made of *)

Lemma scan_digits_taken width buf : forall r n rest v k,
  scan_digits false width buf r n = Some (rest, v, k) -> exists ds, buf = ds ++ rest /\ Forall (fun c => TOR_ISDIGIT c = true) ds.
Proof.
  induction buf as [|c buf IH]; intros r n rest v k; cbn [scan_digits]; [intros [= <- <- <-]; by exists []|].
  destruct (TOR_ISDIGIT c) eqn:Ec; [|intros [= <- <- <-]; by exists []]. destruct (n <? width); cbn [andb]; [|intros [= <- <- <-]; by exists []].
  destruct (_ <? _); [done|]. intros H. apply IH in H as (ds & -> & Hds). exists (c :: ds). by split; [|constructor].
Qed.

Lemma step_octet_inv f buf pat n vals m r :
  vsscanf_loop (S f) buf (37 :: 51 :: 117 :: pat) n vals = Ok (m, r) ->
  m = n \/ exists ds rest v, buf = ds ++ rest /\ 58 ∉ ds /\ vsscanf_loop f rest pat (n + 1) (vals ++ [v]) = Ok (m, r).
Proof.
  cbn [vsscanf_loop negb Z.eqb Pos.eqb cur hd drop scan_width].
  change (TOR_ISDIGIT 51) with true. change (TOR_ISDIGIT 117) with false. cbv iota zeta. change (digit_to_num 51) with 3. change (3 =? 0) with false.
  cbv iota. cbn [cur hd drop]. change (117 =? 108) with false. cbv iota. cbn [cur hd drop]. unfold convert. cbn [Z.eqb Pos.eqb orb].
  destruct (cur buf =? 0); [intros [= <- _]; by left|]. unfold scan_unsigned. change (3 <? 0) with false. cbv iota.
  destruct (scan_digits false 3 buf 0 0) as [[[rest u] k]|] eqn:E; [|intros [= <- _]; by left].
  destruct (k =? 0); [intros [= <- _]; by left|]. destruct (_ && _); [intros [= <- _]; by left|]. intros H. right.
  apply scan_digits_taken in E as (ds & -> & Hds). exists ds, rest, (SInt u). split; [done|]. split; [|done].
  intros Hin. rewrite List.Forall_forall in Hds. apply list_elem_of_In in Hin. by specialize (Hds 58 Hin).
Qed.

Lemma step_dot_inv f buf pat n vals m r :
  vsscanf_loop (S f) buf (46 :: pat) n vals = Ok (m, r) -> m = n \/ exists rest, buf = 46 :: rest /\ vsscanf_loop f rest pat n vals = Ok (m, r).
Proof.
  cbn [vsscanf_loop negb Z.eqb Pos.eqb]. destruct buf as [|c rest]; cbn [cur hd]; [intros [= <- _]; by left|].
  destruct (Z.eqb_spec c 46) as [->|]; [|intros [= <- _]; by left]. intros H. right. exists rest. split; [done|]. cbn [drop] in H. by rewrite drop_0 in H.
Qed.

Lemma step_char f c s vals n m r : c <> 0 -> vsscanf_loop (S (S f)) (c :: s) [37; 99] n vals = Ok (m, r) -> m = n + 1.
Proof.
  intros Hc. cbn [vsscanf_loop negb Z.eqb Pos.eqb cur hd drop]. change (TOR_ISDIGIT 99) with false. cbv iota. cbn [cur hd drop].
  change (99 =? 108) with false. cbv iota. unfold convert. cbn [cur hd Z.eqb Pos.eqb orb negb drop]. rewrite (proj2 (Z.eqb_neq c 0)) by done. by intros [= <- _].
Qed.

(** A string that scans as four numbers and no more holds no colon. *)
Lemma quad_scan_no_colon s r : no_nul s -> tor_sscanf s QUAD = Ok (4, r) -> 58 ∉ s.
Proof.
  unfold tor_sscanf, tor_vsscanf. change (S (length QUAD)) with 18%nat. change QUAD with [37; 51; 117; 46; 37; 51; 117; 46; 37; 51; 117; 46; 37; 51; 117; 37; 99].
  intros Hn H. apply step_octet_inv in H as [?|(d1 & s1 & v1 & -> & H1 & H)]; [done|]. apply step_dot_inv in H as [?|(s1' & -> & H)]; [done|].
  apply step_octet_inv in H as [?|(d2 & s2 & v2 & -> & H2 & H)]; [done|]. apply step_dot_inv in H as [?|(s2' & -> & H)]; [done|].
  apply step_octet_inv in H as [?|(d3 & s3 & v3 & -> & H3 & H)]; [done|]. apply step_dot_inv in H as [?|(s3' & -> & H)]; [done|].
  apply step_octet_inv in H as [?|(d4 & s4 & v4 & -> & H4 & H)]; [done|].
  assert (s4 = []) as ->.
  { destruct s4 as [|c s4]; [done|]. exfalso. unfold no_nul in Hn. rewrite !Forall_app, !Forall_cons_iff, !Forall_app, !Forall_cons_iff, !Forall_app, !Forall_cons_iff, !Forall_app, !Forall_cons_iff in Hn.
assert (Hc : c <> 0) by tauto. by apply step_char in H. }
  rewrite !not_elem_of_app, !not_elem_of_cons, !not_elem_of_app, !not_elem_of_cons, !not_elem_of_app, !not_elem_of_cons, !not_elem_of_app.
  repeat split; try done. apply not_elem_of_nil.
Qed.
