(* ===== verification/Inaddr.v ===== *)
(** * Internet addresses as text

    Models lib/net/inaddr.c: dotted quads ([tor_inet_aton], [tor_inet_ntoa]) and
    the textual forms of IPv6 addresses ([tor_inet_ntop], [tor_inet_pton]).  An
    address is its bytes in network order.  The pointers [src] and [eow] of the parser
    are the bytes from [src] on and the number of bytes from [eow] on. *)

From S2P Require Import Prelude CString DiOps UtilString StrList Scanf.
From Stdlib Require Import ZArith String.
From stdpp Require Import base list numbers.
Open Scope Z_scope.

Inductive af_t := AF_UNSPEC | AF_UNIX | AF_INET | AF_INET6.

#[export] Instance af_t_eq_dec : EqDecision af_t.
Proof. solve_decision. Defined.

(** [%x] *)
Definition hexdigit (d : Z) : Z := if d <? 10 then 48 + d else 87 + d.

Fixpoint uhex_aux (fuel : nat) (n : Z) (acc : bytes) : bytes :=
  match fuel with
  | O => acc
  | S f => if n <? 16 then hexdigit n :: acc else uhex_aux f (n / 16) (hexdigit (n mod 16) :: acc)
  end.

Definition uhex (n : Z) : bytes := uhex_aux (S (Z.to_nat (Z.log2 n))) n [].

(** [tor_snprintf]: -1 when the text and its NUL do not fit. *)
Definition tor_snprintf (size : Z) (text : bytes) : cres bytes :=
  if size =? 0 then Err
  else if SIZE_T_CEILING <? size then Err
  else if size <=? zlen text then Err
  else Ok text.

(** ** IPv4 *)

Definition tor_inet_aton (str : bytes) : cres bytes :=
  let* (n, vals) := tor_sscanf str (s2b "%3u.%3u.%3u.%3u%c") in
  match n, vals with
  | 4, [SInt a; SInt b; SInt c; SInt d] =>
      let* sl := smartlist_split_string str (Some (s2b ".")) 0 0 in
      if existsb (fun octet => (1 <? zlen octet) && (cur octet =? 48)) sl then Err
      else if 255 <? a then Err
      else if 255 <? b then Err
      else if 255 <? c then Err
      else if 255 <? d then Err
      else
        let s_addr := Z.lor (Z.lor (Z.lor (u32 (Z.shiftl a 24)) (Z.shiftl b 16)) (Z.shiftl c 8)) d in
        Ok [Z.land (Z.shiftr s_addr 24) 255; Z.land (Z.shiftr s_addr 16) 255; Z.land (Z.shiftr s_addr 8) 255; Z.land s_addr 255]
  | _, _ => Err
  end.

Definition quad (a b c d : Z) : bytes := dec a ++ [46] ++ dec b ++ [46] ++ dec c ++ [46] ++ dec d.

Definition tor_inet_ntoa (addr : bytes) (buf_len : Z) : cres bytes :=
  match addr with
  | [a; b; c; d] => tor_snprintf buf_len (quad a b c d)
  | _ => Bug
  end.

(** ** Printing IPv6 *)

Fixpoint words_of (s6_addr : bytes) : list Z :=
  match s6_addr with hi :: lo :: r => (Z.shiftl hi 8 + lo) :: words_of r | _ => [] end.

Definition bytes_of (words : list Z) : bytes := flat_map (fun w => [u8 (Z.shiftr w 8); Z.land w 255]) words.

(** The length of the run of zeros at the front: the inner loops
    [while (i<8 && words[i] == 0)]. *)
Fixpoint zero_run (words : list Z) : nat := match words with 0 :: r => S (zero_run r) | _ => O end.

(** The loop for the longest gap; [words] are the ones from [i] on. *)
Fixpoint gap_loop (fuel i : nat) (words : list Z) (longestGapPos : Z) (longestGapLen : nat) : Z * nat :=
  match fuel, words with
  | S fuel, w :: r =>
      if w =? 0 then
        let curGapLen := S (zero_run r) in
        let '(pos, len) := if Nat.ltb longestGapLen curGapLen then (Z.of_nat i, curGapLen) else (longestGapPos, longestGapLen) in
        gap_loop fuel (i + curGapLen) (drop curGapLen words) pos len
      else gap_loop fuel (i + 1) r longestGapPos longestGapLen
  | _, _ => (longestGapPos, longestGapLen)
  end.

Definition longest_gap (words : list Z) : Z :=
  let '(pos, len) := gap_loop 8 0 words (-1) 0 in if Nat.leb len 1 then -1 else pos.

(** The loop that prints. *)
Fixpoint print_loop (fuel i : nat) (words : list Z) (longestGapPos : Z) : bytes :=
  match fuel, words with
  | S fuel, w :: r =>
      if (w =? 0) && (longestGapPos =? Z.of_nat i) then
        (if Nat.eqb i 0 then [58] else []) ++ [58] ++ print_loop fuel (i + zero_run words) (drop (zero_run words) words) longestGapPos
      else
        uhex w ++ (if Nat.eqb i 7 then [] else [58]) ++ print_loop fuel (i + 1) r longestGapPos
  | _, _ => []
  end.

(** [(strlen(buf) + 1) > len] *)
Definition copy_out (len : Z) (buf : bytes) : cres bytes := if len <? zlen buf + 1 then Err else Ok buf.

Definition ntop6 (addr : bytes) (len : Z) : cres bytes :=
  match addr, words_of addr with
  | [_; _; _; _; _; _; _; _; _; _; _; _; b12; b13; b14; b15], [w0; w1; w2; w3; w4; w5; w6; w7] =>
      if (w0 =? 0) && (w1 =? 0) && (w2 =? 0) && (w3 =? 0) && (w4 =? 0)
         && (((w5 =? 0) && negb (w6 =? 0) && negb (w7 =? 0)) || (w5 =? 0xffff)) then
        copy_out len (if w5 =? 0 then s2b "::" ++ quad b12 b13 b14 b15 else s2b "::" ++ uhex w5 ++ s2b ":" ++ quad b12 b13 b14 b15)
      else copy_out len (print_loop 8 0 [w0; w1; w2; w3; w4; w5; w6; w7] (longest_gap [w0; w1; w2; w3; w4; w5; w6; w7]))
  | _, _ => Bug
  end.

Definition tor_inet_ntop (af : af_t) (src : bytes) (len : Z) : cres bytes :=
  match af with
  | AF_INET => tor_inet_ntoa src len
  | AF_INET6 => ntop6 src len
  | _ => Err
  end.

(** ** Parsing IPv6 *)

(** The loop backwards from the character before the dot, over the reversed text; it stops
    at the first character of the string. *)
Fixpoint back_over_digits (rp : bytes) : bytes :=
  match rp with
  | [] => rp
  | c :: r => match r with [] => rp | _ => if TOR_ISDIGIT c then back_over_digits r else rp end
  end.

(** [words], the number of words set, [i] and [gapPos]. *)
Record pton_st := mkpt { p_words : list Z; p_set : Z; p_i : Z; p_gap : Z }.

Fixpoint words_loop (fuel : nat) (src : bytes) (eow : Z) (st : pton_st) : cres pton_st :=
  match fuel with
  | O => Fuel
  | S fuel =>
      if eow <? zlen src then
        if 7 <? p_i st then Err
        else if TOR_ISXDIGIT (cur src) then
          let r := strtol 16 src in
          let next := r_end r in
          if negb (r_conv r) then Err
          else
            let len := if cur next =? 0 then zlen src - eow else zlen src - zlen next in
            if 4 <? len then Err
            else if (1 <? len) && negb (TOR_ISXDIGIT (cur (drop 1 src))) then Err
            else
              assert! (0 <=? r_val r);
              assert! (r_val r <? 65536);
              let* words := aset (p_words st) (p_i st) (r_val r) in
              let st := mkpt words (p_set st + 1) (p_i st + 1) (p_gap st) in
              if negb (cur next =? 58) && negb (zlen next =? eow) then Err
              else words_loop fuel (drop 1 next) eow st
        else if (cur src =? 58) && (0 <? p_i st) && (p_gap st =? -1) then
          words_loop fuel (drop 1 src) eow (mkpt (p_words st) (p_set st) (p_i st) (p_i st))
        else if (cur src =? 58) && (p_i st =? 0) && (eow <? zlen src - 1) && (cur (drop 1 src) =? 58) && (p_gap st =? -1) then
          words_loop fuel (drop 2 src) eow (mkpt (p_words st) (p_set st) (p_i st) (p_i st))
        else Err
      else Ok st
  end.

(** The part after the loop. *)
Definition fill_gap (st : pton_st) (dot : bool) : cres (list Z) :=
  if (8 <? p_set st) || ((p_set st =? 8) && negb (p_gap st =? -1)) || ((p_set st <? 8) && (p_gap st =? -1)) then Err
  else if 0 <=? p_gap st then
    let nToMove := p_set st - (if dot then 2 else 0) - p_gap st in
    let gapLen := 8 - p_set st in
    assert! (0 <=? nToMove);
    let* moved := first_bytes nToMove (drop (Z.to_nat (p_gap st)) (p_words st)) in
    let* words := poke (p_gap st + gapLen) moved (p_words st) in
    poke (p_gap st) (repeat 0 (Z.to_nat gapLen)) words
  else Ok (p_words st).

Definition pton6 (src : bytes) : cres bytes :=
  let len := zlen src in
  if (2 <? len) && (cur (drop (Z.to_nat (len - 1)) src) =? 58) && negb (cur (drop (Z.to_nat (len - 2)) src) =? 58) then Err
  else
    let words := repeat 0xf8f8 8 in
    let '(before, from_dot) := span (fun c => negb (c =? 46)) src in
    match from_dot with
    | [] =>
        let* st := words_loop (S (length src)) src 0 (mkpt words 0 0 (-1)) in
        let* words := fill_gap st false in
        Ok (bytes_of words)
    | _ =>
        if zlen before =? 0 then Err
        else
          let rp := back_over_digits (rev before) in
          if negb (cur rp =? 58) then Err
          else
            let quad_text := drop (length rp) src in
            let* (n, vals) := tor_sscanf quad_text (s2b "%3u.%3u.%3u.%3u%c") in
            match n, vals with
            | 4, [SInt byte1; SInt byte2; SInt byte3; SInt byte4] =>
                if (255 <? byte1) || (255 <? byte2) || (255 <? byte3) || (255 <? byte4) then Err
                else
                  let* words := aset words 6 (u16 (Z.lor (Z.shiftl byte1 8) byte2)) in
                  let* words := aset words 7 (u16 (Z.lor (Z.shiftl byte3 8) byte4)) in
                  let* st := words_loop (S (length src)) src (zlen quad_text) (mkpt words 2 0 (-1)) in
                  let* words := fill_gap st true in
                  Ok (bytes_of words)
            | _, _ => Err
            end
    end.

(** The return values 1, 0 and -1. *)
Inductive pton_res := PtonOk (dst : bytes) | PtonBad | PtonAf.

Definition tor_inet_pton (af : af_t) (src : bytes) : cres pton_res :=
  let res (r : cres bytes) := match r with Ok d => Ok (PtonOk d) | Err => Ok PtonBad | Bug => Bug | Fuel => Fuel end in
  match af with
  | AF_INET => res (tor_inet_aton src)
  | AF_INET6 => res (pton6 src)
  | _ => Ok PtonAf
  end.

(** ** Numbers in the text *)

Definition is_hexchar (c : Z) : bool := TOR_ISXDIGIT c && is_digit_of 16 c && ((48 <=? c) && (c <=? 57) || (97 <=? c) && (c <=? 102)).

(** A word in the text: one to four hexadecimal digits. *)
Record hextext (h : bytes) (w : Z) : Prop := mk_hextext {
  ht_chars : Forall (fun c => is_hexchar c = true) h;
  ht_len : 1 <= zlen h <= 4;
  ht_val : digits_val 16 h = w;
  ht_range : 0 <= w < 65536
}.

Lemma hexdigit_ok d : 0 <= d < 16 -> is_hexchar (hexdigit d) = true /\ digit_val (hexdigit d) = d.
Proof.
  intros Hd. pose proof (upto_forall 16 (fun d => is_hexchar (hexdigit d) && (digit_val (hexdigit d) =? d)) eq_refl d Hd) as H.
  cbv beta in H. boolp. done.
Qed.

Lemma uhex_aux_spec fuel : forall n k acc,
  (0 < fuel)%nat -> 0 <= n < 2 ^ Z.of_nat fuel -> 1 <= k -> n < 16 ^ k ->
  exists ds, uhex_aux fuel n acc = ds ++ acc /\ 1 <= zlen ds <= k /\ Forall (fun c => is_hexchar c = true) ds /\ digits_val 16 ds = n.
Proof.
  induction fuel as [|f IH]; intros n k acc Hf Hn Hk Hb; [lia|]. cbn [uhex_aux]. zcase.
  - destruct (hexdigit_ok n) as [H1 H2]; [lia|]. exists [hexdigit n]. split; [done|]. split; [rewrite zlen_cons, zlen_nil; lia|].
    split; [by repeat constructor|]. cbn. rewrite H2. lia.
  - pose proof (Z.mod_pos_bound n 16 ltac:(lia)) as Hm. destruct (hexdigit_ok (n mod 16) Hm) as [H1 H2].
    assert (Hk1 : 1 <= k - 1) by (destruct (Z.eq_dec k 1) as [->|]; [cbn in Hb; lia|lia]).
    replace (Z.of_nat (S f)) with (Z.of_nat f + 1) in Hn by lia. rewrite Z.pow_add_r in Hn by lia.
    replace k with ((k - 1) + 1) in Hb by lia. rewrite Z.pow_add_r in Hb by lia.
    destruct (IH (n / 16) (k - 1) (hexdigit (n mod 16) :: acc)) as (ds & E & Hl & Hc & Hv);
      [destruct f; [cbn in Hn; lia|lia]|split; [apply Z.div_pos; lia|apply Z.div_lt_upper_bound; lia]|done|apply Z.div_lt_upper_bound; lia|].
    exists (ds ++ [hexdigit (n mod 16)]). rewrite E. split; [by rewrite <- app_assoc|]. split; [zlia|].
    split; [apply Forall_app; split; [done|by repeat constructor]|]. rewrite digits_val_app, Hv. cbn. rewrite H2. pose proof (Z.div_mod n 16). lia.
Qed.

Lemma uhex_text w : 0 <= w < 65536 -> hextext (uhex w) w.
Proof.
  intros Hw. destruct (uhex_aux_spec (S (Z.to_nat (Z.log2 w))) w 4 []) as (ds & E & Hl & Hc & Hv); [lia| |lia|lia|].
  - split; [lia|]. destruct (Z.eq_dec w 0) as [->|]; [by cbn|]. pose proof (Z.log2_spec w) as [_ H]; [lia|]. pose proof (Z.log2_nonneg w).
    replace (Z.of_nat (S (Z.to_nat (Z.log2 w)))) with (Z.succ (Z.log2 w)) by lia. done.
  - unfold uhex. rewrite E, app_nil_r. split; done.
Qed.

Lemma hexchar_range c : is_hexchar c = true -> (48 <= c <= 57 \/ 97 <= c <= 102) /\ TOR_ISXDIGIT c = true /\ is_digit_of 16 c = true.
Proof.
  unfold is_hexchar. intros H. apply andb_prop in H as [H1 H2]. apply andb_prop in H1 as [Hx Hd]. split; [|done].
  apply orb_prop in H2 as [H2|H2]; boolp; lia.
Qed.

(** What may follow a word: not a hexadecimal digit and not the [x] of a prefix. *)
Definition word_end (rest : bytes) : Prop := is_digit_of 16 (cur rest) = false /\ cur rest <> 120 /\ cur rest <> 88.

Lemma strtol_hex h w rest :
  hextext h w -> word_end rest -> strtol 16 (h ++ rest) = {| r_val := w; r_end := rest; r_erange := false; r_conv := true |}.
Proof.
  intros [Hc Hl Hv Hr] (Hd & Hx & HX). destruct h as [|c h]; [rewrite zlen_nil in Hl; lia|]. apply Forall_cons_iff in Hc as [Hc Hh].
  destruct (hexchar_range c Hc) as (Hcr & _ & Hcd). unfold strtol.
  assert (E : strtox 16 ((c :: h) ++ rest) = Some (false, w, rest)).
  { unfold strtox. cbn [app span snd]. assert ((c =? 32) || in_range 9 13 c = false) as -> by (unfold in_range; blia). cbn [snd].
    rewrite (proj2 (Z.eqb_neq c 45)), (proj2 (Z.eqb_neq c 43)) by lia. cbn [Z.eqb Pos.eqb orb].
    set (hp := match h ++ rest with [] => false | _ => _ end).
    assert (hp = false) as ->.
    { unfold hp. destruct (h ++ rest) as [|x [|y r]] eqn:Eh; [done|done|].
      assert (Hxx : (x =? 120) || (x =? 88) = false); [|by rewrite Hxx, andb_false_r].
      destruct h as [|x' h']; cbn in Eh.
      - subst rest. cbn in Hx, HX. apply orb_false_iff. split; by apply Z.eqb_neq.
      - injection Eh as -> _. apply Forall_cons_iff in Hh as [Hx' _]. destruct (hexchar_range x Hx') as (Hxr & _).
        apply orb_false_iff. split; apply Z.eqb_neq; lia. }
    cbn [andb]. assert (Hsp : span (is_digit_of 16) ((c :: h) ++ rest) = (c :: h, rest)).
    { assert (Hall : Forall (fun x => is_digit_of 16 x = true) (c :: h)).
      { constructor; [done|]. eapply Forall_weaken; [exact Hh|]. intros x Hx'. by destruct (hexchar_range x Hx') as (_ & _ & ?). }
      destruct rest as [|y rest]; [rewrite app_nil_r; by apply span_all|]. by apply span_stop. }
    cbn [app] in Hsp. rewrite Hsp. by rewrite Hv. }
  rewrite E. unfold LONG_MAX, LONG_MIN. rewrite (proj2 (Z.ltb_ge _ _)), (proj2 (Z.ltb_ge _ _)) by lia. done.
Qed.

(** ** The words of the parser *)

Lemma hextext_head h w rest : hextext h w -> TOR_ISXDIGIT (cur (h ++ rest)) = true.
Proof.
  intros [Hc Hl _ _]. destruct h as [|c h]; [rewrite zlen_nil in Hl; lia|]. apply Forall_cons_iff in Hc as [Hc _]. by destruct (hexchar_range c Hc) as (_ & ? & _).
Qed.

Lemma hextext_second h w rest : hextext h w -> 1 < zlen h -> TOR_ISXDIGIT (cur (drop 1 (h ++ rest))) = true.
Proof.
  intros [Hc Hl _ _] H1. destruct h as [|c [|d h]]; [rewrite zlen_nil in Hl; lia|rewrite zlen_cons, zlen_nil in H1; lia|]. apply Forall_cons_iff in Hc as [_ Hc].
  apply Forall_cons_iff in Hc as [Hd _]. by destruct (hexchar_range d Hd) as (_ & ? & _).
Qed.

(** One word, followed by a colon or by the end of the string. *)
Lemma words_step fuel h w rest eow d y tl set gap :
  hextext h w -> word_end rest -> zlen d <= 7 -> eow < zlen (h ++ rest) ->
  (cur rest = 58 \/ (rest = [] /\ eow = 0)) ->
  words_loop (S fuel) (h ++ rest) eow (mkpt (d ++ y :: tl) set (zlen d) gap)
  = words_loop fuel (drop 1 rest) eow (mkpt (d ++ w :: tl) (set + 1) (zlen d + 1) gap).
Proof.
  intros Hh He Hd Heow Hr. cbn [words_loop p_i p_set p_gap p_words]. rewrite (proj2 (Z.ltb_lt _ _)) by done.
  rewrite (proj2 (Z.ltb_ge 7 _)) by done. rewrite (hextext_head h w) by done. rewrite strtol_hex with (w := w) by done. cbn [r_conv r_end r_val negb].
  set (len := if cur rest =? 0 then _ else _).
  assert (Hlen : len = zlen h).
  { unfold len. rewrite zlen_app. destruct Hr as [E|[-> ->]]; [rewrite E; cbn [Z.eqb]; lia|]. cbn [cur hd Z.eqb]. rewrite zlen_nil. lia. }
  rewrite Hlen. pose proof (ht_len _ _ Hh) as Hl. rewrite (proj2 (Z.ltb_ge 4 _)) by lia.
  assert ((1 <? zlen h) && negb (TOR_ISXDIGIT (cur (drop 1 (h ++ rest)))) = false) as ->.
  { destruct (Z.ltb_spec 1 (zlen h)); [|done]. by rewrite (hextext_second h w). }
  destruct (ht_range _ _ Hh). rewrite (proj2 (Z.leb_le 0 w)), (proj2 (Z.ltb_lt w _)) by lia. rewrite aset_mid by done. cbn [cbind].
  assert (negb (cur rest =? 58) && negb (zlen rest =? eow) = false) as ->; [|done].
  destruct Hr as [E|[-> ->]]; [by rewrite E|reflexivity].
Qed.

Definition wordP (w : Z) : Prop := 0 <= w < 65536.

Definition colons (ws : list Z) : bytes := flat_map (fun w => uhex w ++ [58]) ws.

Fixpoint join_words (ws : list Z) : bytes :=
  match ws with [] => [] | w :: r => uhex w ++ match r with [] => [] | _ => [58] ++ join_words r end end.

Lemma word_end_colon r : word_end (58 :: r).
Proof. by repeat split. Qed.
Lemma word_end_nil : word_end [].
Proof. by repeat split. Qed.

(** A list of words, each with its colon. *)
Lemma words_colons ws : forall fuel r eow d tl set gap,
  Forall wordP ws -> zlen d + zlen ws <= 8 -> zlen ws <= zlen tl -> 0 <= eow <= zlen r -> (length (colons ws ++ r) < fuel)%nat ->
  exists fuel', words_loop fuel (colons ws ++ r) eow (mkpt (d ++ tl) set (zlen d) gap)
    = words_loop fuel' r eow (mkpt (d ++ ws ++ drop (length ws) tl) (set + zlen ws) (zlen d + zlen ws) gap) /\ (length r < fuel')%nat.
Proof.
  induction ws as [|w ws IH]; intros fuel r eow d tl set gap Hw Hd Ht He Hf.
  - exists fuel. rewrite zlen_nil, !Z.add_0_r. done.
  - apply Forall_cons_iff in Hw as [Hw Hws]. rewrite !zlen_cons in *. pose proof (zlen_nonneg ws).
    destruct tl as [|y tl]; [rewrite zlen_nil in Ht; lia|]. rewrite zlen_cons in Ht. destruct fuel as [|fuel]; [lia|].
    cbn [colons flat_map] in *. fold (colons ws) in *. rewrite <- !app_assoc in *. cbn [app] in *.
    pose proof (ht_len _ _ (uhex_text w Hw)). rewrite words_step with (w := w);
      [|by apply uhex_text|apply word_end_colon|lia|autorewrite with zlen; pose proof (zlen_nonneg (colons ws)); lia|by left].
    cbn [drop]. rewrite drop_0.
    assert (Ez : zlen d + 1 = zlen (d ++ [w])) by zlia. rewrite Ez. replace (d ++ w :: tl) with ((d ++ [w]) ++ tl) by lassoc.
    destruct (IH fuel r eow (d ++ [w]) tl (set + 1) gap Hws) as (fuel' & -> & Hf'); [zlia|lia|done| |].
    { rewrite length_app in Hf. cbn [length] in Hf. lia. }
    exists fuel'. split; [|done]. f_equal. f_equal; [lassoc|lia|zlia].
Qed.

(** The last list of words. *)
Lemma words_join ws : forall fuel d tl set gap,
  Forall wordP ws -> zlen d + zlen ws <= 8 -> zlen ws <= zlen tl -> (length (join_words ws) < fuel)%nat ->
  words_loop fuel (join_words ws) 0 (mkpt (d ++ tl) set (zlen d) gap)
  = Ok (mkpt (d ++ ws ++ drop (length ws) tl) (set + zlen ws) (zlen d + zlen ws) gap).
Proof.
  induction ws as [|w ws IH]; intros fuel d tl set gap Hw Hd Ht Hf; (destruct fuel as [|fuel]; [lia|]).
  - cbn. by rewrite !Z.add_0_r.
  - apply Forall_cons_iff in Hw as [Hw Hws]. rewrite !zlen_cons in *. pose proof (zlen_nonneg ws).
    destruct tl as [|y tl]; [rewrite zlen_nil in Ht; lia|]. rewrite zlen_cons in Ht.
    cbn [join_words] in *. set (rest := match ws with [] => _ | _ => _ end) in *. pose proof (ht_len _ _ (uhex_text w Hw)).
    assert (Hrest : word_end rest /\ (cur rest = 58 \/ (rest = [] /\ 0 = 0)) /\ drop 1 rest = join_words ws).
    { unfold rest. destruct ws; [split; [apply word_end_nil|split; [by right|done]]|].
      split; [apply word_end_colon|split; [by left|done]]. }
    destruct Hrest as (H1 & H2 & H3).
    rewrite words_step with (w := w); [|by apply uhex_text|done|lia|autorewrite with zlen; pose proof (zlen_nonneg rest); lia|done].
    rewrite H3. assert (Ez : zlen d + 1 = zlen (d ++ [w])) by zlia. rewrite Ez. replace (d ++ w :: tl) with ((d ++ [w]) ++ tl) by lassoc.
    assert (Hl : (length (join_words ws) < fuel)%nat).
    { rewrite <- H3, length_drop. rewrite length_app in Hf. unfold zlen in *. lia. }
    rewrite IH by (done || zlia). f_equal. f_equal; [lassoc|lia|zlia].
Qed.

(** ** Filling the gap *)

Lemma fill_gap_ok pre post n tl dot set i :
  1 <= n -> zlen tl = n + (if dot : bool then 2 else 0) -> zlen pre + zlen post + zlen tl = 8 ->
  set = zlen pre + zlen post + (if dot then 2 else 0) ->
  fill_gap (mkpt (pre ++ post ++ tl) set i (zlen pre)) dot
  = Ok (pre ++ repeat 0 (Z.to_nat n) ++ post ++ drop (Z.to_nat n) tl).
Proof.
  intros Hn Ht Hs ->. unfold fill_gap. cbn [p_set p_gap p_words]. pose proof (zlen_nonneg pre). pose proof (zlen_nonneg post).
  set (k := if dot then 2 else 0) in *. assert (0 <= k) by (by unfold k; destruct dot).
  assert ((8 <? zlen pre + zlen post + k) || ((zlen pre + zlen post + k =? 8) && negb (zlen pre =? -1))
     || ((zlen pre + zlen post + k <? 8) && (zlen pre =? -1)) = false) as -> by blia.
  rewrite (proj2 (Z.leb_le 0 (zlen pre))) by lia. replace (zlen pre + zlen post + k - k - zlen pre) with (zlen post) by lia.
  rewrite (proj2 (Z.leb_le 0 (zlen post))) by lia. rewrite drop_zapp by done. rewrite first_bytes_app by done. cbn [cbind].
  replace (8 - (zlen pre + zlen post + k)) with n by lia.
  assert (exists a b c, post ++ tl = a ++ b ++ c /\ zlen a = n /\ zlen b = zlen post /\ c = drop (Z.to_nat n) tl) as (a & b & c & E & Ha & Hb & Hc).
  { exists (take (Z.to_nat n) (post ++ tl)), (take (length post) (drop (Z.to_nat n) (post ++ tl))), (drop (length post) (drop (Z.to_nat n) (post ++ tl))).
    rewrite !take_drop. split; [done|]. unfold zlen in *. rewrite !length_take, length_drop, length_app. split; [lia|]. split; [lia|].
    rewrite drop_drop, Nat.add_comm, <- drop_drop. by rewrite drop_app_length. }
  rewrite E. replace (pre ++ a ++ b ++ c) with ((pre ++ a) ++ b ++ c) by lassoc. rewrite poke_at by zlia. cbn [cbind].
  replace ((pre ++ a) ++ post ++ c) with (pre ++ a ++ post ++ c) by lassoc. rewrite poke_at by zlia. by rewrite Hc.
Qed.

(** ** The gap of the printer *)

Lemma zero_run_spec ws : exists post, ws = repeat 0 (zero_run ws) ++ post /\ (post = [] \/ cur post <> 0) /\ drop (zero_run ws) ws = post.
Proof.
  induction ws as [|w ws IH]; [by exists []; split; [|split; [left|]]|].
  destruct (Z.eq_dec w 0) as [->|Hw].
  - destruct IH as (post & E & H & Hd). exists post. cbn [zero_run repeat app]. split; [by rewrite <- E|]. done.
  - exists (w :: ws). assert (zero_run (w :: ws) = O) as -> by (destruct w; done). split; [done|]. split; [by right|done].
Qed.

(** A gap: a run of zeros that ends where another word or the end follows. *)
Definition gap_at (ws : list Z) (pos : Z) : Prop :=
  exists pre n post, ws = pre ++ repeat 0 n ++ post /\ pos = zlen pre /\ (1 <= n)%nat /\ (post = [] \/ cur post <> 0).

Lemma gap_loop_ok W fuel : forall i done ws pos len,
  W = done ++ ws -> i = length done -> pos = -1 \/ gap_at W pos ->
  fst (gap_loop fuel i ws pos len) = -1 \/ gap_at W (fst (gap_loop fuel i ws pos len)).
Proof.
  induction fuel as [|fuel IH]; intros i done_ ws pos len HW Hi Hp; cbn [gap_loop]; [done|].
  destruct ws as [|w ws]; [done|]. destruct (Z.eqb_spec w 0) as [->|Hw].
  - destruct (zero_run_spec (0 :: ws)) as (post & E & Hpost & Hd). change (zero_run (0 :: ws)) with (S (zero_run ws)) in *.
    rewrite Hd. destruct (Nat.ltb len (S (zero_run ws))).
    + apply (IH _ (done_ ++ repeat 0 (S (zero_run ws)))).
      * by rewrite <- app_assoc, <- E.
      * rewrite length_app, repeat_length. lia.
      * right. exists done_, (S (zero_run ws)), post. split; [by rewrite <- E|]. split; [subst i; done|]. split; [lia|done].
    + apply (IH _ (done_ ++ repeat 0 (S (zero_run ws)))); [by rewrite <- app_assoc, <- E|rewrite length_app, repeat_length; lia|done].
  - apply (IH _ (done_ ++ [w])); [by rewrite <- app_assoc|rewrite length_app; cbn; lia|done].
Qed.

Lemma longest_gap_ok ws : longest_gap ws = -1 \/ gap_at ws (longest_gap ws).
Proof.
  unfold longest_gap. pose proof (gap_loop_ok ws 8 0 [] ws (-1) 0 eq_refl eq_refl (or_introl eq_refl)) as H.
  destruct (gap_loop 8 0 ws (-1) 0) as [pos len]. cbn in H. destruct (Nat.leb len 1); [by left|done].
Qed.

(** ** The printed text *)

Lemma print_rest g ws : forall fuel i,
  (length ws <= fuel)%nat -> (i + length ws = 8)%nat -> g < Z.of_nat i -> print_loop fuel i ws g = join_words ws.
Proof.
  induction ws as [|w ws IH]; intros fuel i Hf Hi Hg; [by destruct fuel|]. destruct fuel as [|fuel]; [cbn in Hf; lia|].
  cbn [length] in *. cbn [print_loop join_words]. rewrite (proj2 (Z.eqb_neq g _)) by lia. rewrite andb_false_r.
  rewrite IH by lia. destruct ws as [|w' ws].
  - cbn in Hi. assert (i = 7%nat) as -> by lia. done.
  - destruct (Nat.eqb_spec i 7); [cbn in Hi; lia|done].
Qed.

Lemma zero_run_repeat n post : post = [] \/ cur post <> 0 -> zero_run (repeat 0 n ++ post) = n.
Proof.
  intros Hp. induction n as [|n IH]; cbn [repeat app]; [|by cbn; rewrite IH].
  destruct post as [|w post]; [done|]. destruct Hp as [|Hp]; [done|]. cbn in Hp. destruct w; done.
Qed.

Lemma print_gap pre n post : forall fuel i,
  (1 <= n)%nat -> post = [] \/ cur post <> 0 -> (i + length pre + n + length post = 8)%nat -> (length pre + n + length post <= fuel)%nat ->
  print_loop fuel i (pre ++ repeat 0 n ++ post) (Z.of_nat (i + length pre))
  = colons pre ++ (if Nat.eqb (i + length pre) 0 then [58] else []) ++ [58] ++ join_words post.
Proof.
  induction pre as [|w pre IH]; intros fuel i Hn Hp Hi Hf; (destruct fuel as [|fuel]; [lia|]).
  - cbn [length] in *. rewrite Nat.add_0_r in *. cbn [app colons flat_map]. pose proof (zero_run_repeat n post Hp) as Hz.
    destruct n as [|n]; [lia|]. cbn [repeat app] in *. cbn [print_loop]. rewrite !Z.eqb_refl. cbn [andb]. rewrite Hz.
    replace (drop (S n) (0 :: repeat 0 n ++ post)) with post by (cbn; rewrite drop_app_length'; [done|by rewrite repeat_length]).
    rewrite print_rest by lia. done.
  - cbn [length] in *. cbn [app print_loop colons flat_map]. fold (colons pre). rewrite (proj2 (Z.eqb_neq _ (Z.of_nat i))) by lia.
    rewrite andb_false_r. destruct (Nat.eqb_spec i 7); [lia|]. replace (i + S (length pre))%nat with (i + 1 + length pre)%nat by lia.
    rewrite IH by (done || lia). by rewrite <- !app_assoc.
Qed.

Definition general_text (ws : list Z) : bytes := print_loop 8 0 ws (longest_gap ws).

Lemma general_text_cases ws :
  length ws = 8%nat ->
  general_text ws = join_words ws
  \/ exists pre n post, ws = pre ++ repeat 0 n ++ post /\ (1 <= n)%nat
       /\ general_text ws = colons pre ++ (if Nat.eqb (length pre) 0 then [58] else []) ++ [58] ++ join_words post.
Proof.
  intros Hl. unfold general_text. destruct (longest_gap_ok ws) as [->|(pre & n & post & E & Hp & Hn & Hpost)].
  - left. apply print_rest; lia.
  - right. exists pre, n, post. split; [done|]. split; [done|]. rewrite Hp, E.
    assert (Hlen : (length pre + n + length post = 8)%nat) by (rewrite E, !length_app, repeat_length in Hl; lia).
    apply (print_gap pre n post 8 0); done || lia.
Qed.

(** ** Text without dots *)

Definition dotless (s : bytes) : Prop := Forall (fun c => negb (c =? 46) = true) s.

Lemma hex_dotless h w : hextext h w -> dotless h.
Proof.
  intros [Hc _ _ _]. eapply Forall_weaken; [exact Hc|]. intros c H. destruct (hexchar_range c H) as (Hr & _). apply negb_true_iff, Z.eqb_neq. lia.
Qed.

Lemma colons_dotless ws : Forall wordP ws -> dotless (colons ws).
Proof.
  induction 1 as [|w ws Hw _ IH]; [constructor|]. cbn [colons flat_map]. unfold dotless. rewrite !Forall_app.
  split; [split; [by eapply hex_dotless, uhex_text|by repeat constructor]|done].
Qed.

Lemma join_dotless ws : Forall wordP ws -> dotless (join_words ws).
Proof.
  induction 1 as [|w ws Hw _ IH]; [constructor|]. cbn [join_words]. apply Forall_app. split; [by eapply hex_dotless, uhex_text|].
  destruct ws; [constructor|]. constructor; [done|exact IH].
Qed.

(** The last character of a list of words is a digit. *)
Lemma join_last ws : ws <> [] -> Forall wordP ws -> exists s c, join_words ws = s ++ [c] /\ c <> 58.
Proof.
  induction ws as [|w ws IH]; [done|]. intros _ Hw. apply Forall_cons_iff in Hw as [Hw Hws]. cbn [join_words]. destruct ws as [|w' ws].
  - rewrite app_nil_r. destruct (uhex_text w Hw) as [Hc Hl _ _]. destruct (uhex w) as [|x h] using rev_ind; [rewrite zlen_nil in Hl; lia|].
    exists h, x. split; [done|]. apply Forall_app in Hc as [_ Hc]. apply Forall_cons_iff in Hc as [Hx _]. destruct (hexchar_range x Hx) as (Hr & _). lia.
  - destruct IH as (s & c & -> & Hc); [done|done|]. exists (uhex w ++ [58] ++ s), c. split; [by rewrite <- !app_assoc|done].
Qed.

Definition trailing_colon (src : bytes) : bool :=
  (2 <? zlen src) && (cur (drop (Z.to_nat (zlen src - 1)) src) =? 58) && negb (cur (drop (Z.to_nat (zlen src - 2)) src) =? 58).

Lemma trailing_last s c : c <> 58 -> trailing_colon (s ++ [c]) = false.
Proof.
  intros Hc. unfold trailing_colon. rewrite zlen_app, zlen_cons, zlen_nil. replace (zlen s + (0 + 1) - 1) with (zlen s) by lia.
  rewrite drop_zapp by done. cbn [cur hd]. rewrite (proj2 (Z.eqb_neq c 58)) by done. by rewrite andb_false_r.
Qed.

Lemma trailing_double s : trailing_colon (s ++ [58; 58]) = false.
Proof.
  unfold trailing_colon. rewrite zlen_app, !zlen_cons, zlen_nil. replace (zlen s + (0 + 1 + 1) - 2) with (zlen s) by lia.
  rewrite (drop_zapp s [58; 58] (zlen s)) by done. cbn [cur hd Z.eqb Pos.eqb negb]. by rewrite andb_false_r.
Qed.

(** ** Parsing the printed text *)

Lemma pton6_dotless src :
  dotless src -> trailing_colon src = false ->
  pton6 src = (let* st := words_loop (S (length src)) src 0 (mkpt (repeat 0xf8f8 8) 0 0 (-1)) in
               let* words := fill_gap st false in Ok (bytes_of words)).
Proof.
  intros Hd Ht. unfold pton6. change (if _ && _ && _ then Err else ?x) with (if trailing_colon src then Err else x).
  rewrite Ht. by rewrite (span_all _ src Hd).
Qed.

Lemma start_gap fuel src eow st :
  p_i st = 0 -> p_gap st = -1 -> eow <= zlen src -> words_loop (S fuel) (58 :: 58 :: src) eow st
  = words_loop fuel src eow (mkpt (p_words st) (p_set st) 0 0).
Proof.
  intros Hi Hg He. cbn [words_loop]. rewrite !zlen_cons, (proj2 (Z.ltb_lt _ _)) by lia. rewrite Hi, Hg. cbn [cur hd drop].
  change (TOR_ISXDIGIT 58) with false. change (7 <? 0) with false. cbv iota. cbn [Z.eqb Pos.eqb Z.ltb Z.compare andb].
  rewrite (proj2 (Z.ltb_lt eow _)) by lia. cbn [andb]. by rewrite drop_0.
Qed.

Lemma later_gap fuel src eow st :
  0 < p_i st <= 7 -> p_gap st = -1 -> eow <= zlen src -> words_loop (S fuel) (58 :: src) eow st
  = words_loop fuel src eow (mkpt (p_words st) (p_set st) (p_i st) (p_i st)).
Proof.
  intros Hi Hg He. cbn [words_loop]. rewrite !zlen_cons, (proj2 (Z.ltb_lt _ _)) by lia. rewrite Hg. cbn [cur hd drop].
  change (TOR_ISXDIGIT 58) with false. rewrite (proj2 (Z.ltb_ge 7 _)), (proj2 (Z.ltb_lt 0 (p_i st))) by lia. cbv iota.
  cbn [Z.eqb Pos.eqb andb]. by rewrite drop_0.
Qed.

Lemma words_gap pre n post :
  Forall wordP pre -> Forall wordP post -> (1 <= n)%nat -> (length pre + n + length post = 8)%nat ->
  forall fuel, let src := colons pre ++ (if Nat.eqb (length pre) 0 then [58] else []) ++ [58] ++ join_words post in
  (length src < fuel)%nat ->
  exists tl, zlen tl = Z.of_nat n /\ words_loop fuel src 0 (mkpt (repeat 0xf8f8 8) 0 0 (-1))
    = Ok (mkpt (pre ++ post ++ tl) (zlen pre + zlen post) (zlen pre + zlen post) (zlen pre)).
Proof.
  intros Hpre Hpost Hn Hl fuel. cbv zeta. intros Hf. set (w0 := repeat 0xf8f8 8).
  assert (Hw0 : forall k, (k <= 8)%nat -> zlen (drop k w0) = 8 - Z.of_nat k) by (intros k Hk; unfold zlen; rewrite length_drop; cbn; lia).
  exists (drop (length post) (drop (length pre) w0)). split; [unfold zlen; rewrite !length_drop; cbn; lia|]. destruct pre as [|p pre].
  - cbn [colons flat_map length Nat.eqb app] in *. destruct fuel as [|fuel]; [lia|]. rewrite start_gap by (done || apply zlen_nonneg). cbn [p_words p_set].
    rewrite drop_0. change (mkpt w0 0 0 0) with (mkpt ([] ++ w0) 0 (zlen (@nil Z)) 0).
    rewrite words_join; [done|done|unfold zlen; cbn [length]; lia|unfold zlen; cbn; lia|lia].
  - set (ps := p :: pre) in *. assert (Nat.eqb (length ps) 0 = false) as E0 by done. rewrite E0 in *. cbn [app] in *.
    destruct (words_colons ps fuel (58 :: join_words post) 0 [] w0 0 (-1) Hpre) as (f1 & E & Hf1);
      [unfold zlen; cbn [length]; lia|unfold zlen; cbn [length w0 repeat]; lia|rewrite zlen_cons; pose proof (zlen_nonneg (join_words post)); lia|done|].
    change (mkpt w0 0 0 (-1)) with (mkpt ([] ++ w0) 0 (zlen (@nil Z)) (-1)). rewrite E. change (zlen (@nil Z)) with 0. rewrite !Z.add_0_l. cbn [app]. destruct f1 as [|f1]; [lia|]. cbn [length] in Hf1.
    assert (Hps : 0 < zlen ps <= 7) by (unfold zlen; cbn [length ps]; cbn [length ps] in Hl; lia).
    rewrite later_gap by (done || apply zlen_nonneg). cbn [p_words p_set p_i].
    rewrite words_join; [done|done|unfold zlen; lia|rewrite Hw0 by lia; unfold zlen; lia|lia].
Qed.

Lemma general_roundtrip ws :
  length ws = 8%nat -> Forall wordP ws -> pton6 (general_text ws) = Ok (bytes_of ws).
Proof.
  intros Hl Hw. destruct (general_text_cases ws Hl) as [->|(pre & n & post & E & Hn & ->)].
  - destruct (join_last ws) as (s & c & Es & Hc); [by destruct ws|done|].
    rewrite pton6_dotless; [|by apply join_dotless|rewrite Es; by apply trailing_last].
    change (mkpt (repeat 0xf8f8 8) 0 0 (-1)) with (mkpt ([] ++ repeat 0xf8f8 8) 0 (zlen (@nil Z)) (-1)).
    rewrite words_join; [|done|unfold zlen; cbn [length]; lia|unfold zlen; cbn; lia|lia].
    cbn [cbind]. unfold fill_gap. cbn [p_set p_gap p_words app]. replace (0 + zlen ws) with 8 by (unfold zlen; lia).
    cbn [Z.ltb Z.eqb Z.compare Z.leb Pos.compare Pos.compare_cont Pos.eqb orb andb negb cbind].
    rewrite drop_ge by (rewrite Hl; cbn; lia). by rewrite app_nil_r.
  - rewrite E in Hw. apply Forall_app in Hw as [Hpre Hw]. apply Forall_app in Hw as [_ Hpost].
    assert (Hlen : (length pre + n + length post = 8)%nat) by (rewrite E, !length_app, repeat_length in Hl; lia).
    set (src := colons pre ++ _). assert (Hd : dotless src).
    { unfold src, dotless. rewrite !Forall_app. split; [by apply colons_dotless|]. split; [by destruct (Nat.eqb _ _); repeat constructor|].
      split; [by repeat constructor|by apply join_dotless]. }
    assert (Ht : trailing_colon src = false).
    { unfold src. destruct post as [|w post].
      - cbn [join_words]. rewrite app_nil_r. destruct pre as [|p pre _] using rev_ind; [done|]. unfold colons. rewrite flat_map_app, length_app, Nat.add_comm.
        cbn [flat_map length Nat.add Nat.eqb app]. rewrite app_nil_r, <- !app_assoc. cbn [app]. rewrite app_assoc. apply trailing_double.
      - destruct (join_last (w :: post)) as (s & c & -> & Hc); [done|done|]. rewrite !app_assoc. by apply trailing_last. }
    rewrite pton6_dotless by done. destruct (words_gap pre n post Hpre Hpost Hn Hlen (S (length src))) as (tl & Htl & Ew); [unfold src; lia|].
    fold src in Ew. rewrite Ew. cbn [cbind]. rewrite (fill_gap_ok pre post (Z.of_nat n) tl false); [|lia|lia|unfold zlen in *; lia|lia].
    cbn [cbind]. rewrite Nat2Z.id, drop_ge by (unfold zlen in Htl; lia). by rewrite E, app_nil_r.
Qed.

(** ** Octets *)

Definition octet_ok (b : Z) : bool :=
  forallb (fun c => (48 <=? c) && (c <=? 57)) (dec b) && (1 <=? zlen (dec b)) && (zlen (dec b) <=? 3)
  && (digits_val 10 (dec b) =? b) && negb ((1 <? zlen (dec b)) && (cur (dec b) =? 48)).

Lemma octet_facts b :
  is_byte b -> octet_text (dec b) /\ digits_val 10 (dec b) = b /\ (1 <? zlen (dec b)) && (cur (dec b) =? 48) = false.
Proof.
  intros Hb. assert (H : octet_ok b = true) by (apply byte_forall; [vm_compute; reflexivity|done]). unfold octet_ok in H.
  apply andb_prop in H as [H Hz]. apply andb_prop in H as [H Hv]. apply andb_prop in H as [H H3]. apply andb_prop in H as [H H1].
  apply Z.eqb_eq in Hv. apply Z.leb_le in H1, H3. apply negb_true_iff in Hz. split; [|by split]. split; [|by split; [intros E; rewrite E in H1|]].
  apply List.Forall_forall. intros x Hx. rewrite forallb_forall in H. specialize (H x Hx). boolp. lia.
Qed.

Lemma octet_no_dot b : is_byte b -> Forall (fun c => negb (c =? 46) = true) (dec b) /\ 46 ∉ dec b.
Proof.
  intros Hb. destruct (octet_facts b Hb) as ((Hd & _ & _) & _ & _). split.
  - eapply Forall_weaken; [exact Hd|]. intros c Hc. apply negb_true_iff, Z.eqb_neq. cbn in Hc; lia.
  - intros Hin. unfold dec_digits in Hd. rewrite List.Forall_forall in Hd. apply list_elem_of_In in Hin. specialize (Hd 46 Hin). lia.
Qed.

Section Quad.

Variables a b c d : Z.
Hypothesis Ha : is_byte a.
Hypothesis Hb : is_byte b.
Hypothesis Hc : is_byte c.
Hypothesis Hd : is_byte d.

Lemma quad_sscanf : tor_sscanf (quad a b c d) (s2b "%3u.%3u.%3u.%3u%c") = Ok (4, [SInt a; SInt b; SInt c; SInt d]).
Proof.
  destruct (octet_facts a Ha) as (Oa & Va & _), (octet_facts b Hb) as (Ob & Vb & _), (octet_facts c Hc) as (Oc & Vc & _), (octet_facts d Hd) as (Od & Vd & _).
  unfold quad. change (s2b "%3u.%3u.%3u.%3u%c") with QUAD. rewrite (quad_scan (dec a) (dec b) (dec c) (dec d)) by done. cbn [map]. by rewrite Va, Vb, Vc, Vd.
Qed.

Lemma quad_split : smartlist_split_string (quad a b c d) (Some (s2b ".")) 0 0 = Ok [dec a; dec b; dec c; dec d].
Proof.
  assert (E : quad a b c d = join_fill [dec a; dec b; dec c; dec d] [46]) by (unfold quad; cbn [join_fill]; by rewrite !app_nil_r).
  rewrite E. unfold smartlist_split_string. apply split_loop_of_join; [done| |lia|left; lia].
  repeat first [apply List.Forall_cons | apply List.Forall_nil]; by apply octet_no_dot.
Qed.

Lemma quad_word : Z.lor (Z.lor (Z.lor (u32 (Z.shiftl a 24)) (Z.shiftl b 16)) (Z.shiftl c 8)) d = a * 2 ^ 24 + b * 2 ^ 16 + c * 2 ^ 8 + d.
Proof.
  unfold is_byte in *. unfold u32. rewrite !Z.shiftl_mul_pow2 by lia. rewrite Z.mod_small by lia. rewrite (lor_low a _ 24) by lia.
  replace (a * 2 ^ 24 + b * 2 ^ 16) with ((a * 2 ^ 8 + b) * 2 ^ 16) by lia. rewrite (lor_low _ _ 16) by lia.
  replace ((a * 2 ^ 8 + b) * 2 ^ 16 + c * 2 ^ 8) with (((a * 2 ^ 8 + b) * 2 ^ 8 + c) * 2 ^ 8) by lia. rewrite (lor_low _ d 8) by lia. lia.
Qed.

Lemma aton_quad : tor_inet_aton (quad a b c d) = Ok [a; b; c; d].
Proof.
  unfold tor_inet_aton. rewrite quad_sscanf. cbn [cbind]. rewrite quad_split. cbn [cbind existsb].
  destruct (octet_facts a Ha) as (_ & _ & ->), (octet_facts b Hb) as (_ & _ & ->), (octet_facts c Hc) as (_ & _ & ->), (octet_facts d Hd) as (_ & _ & ->).
  cbn [orb]. rewrite quad_word. unfold is_byte in *. rewrite !(proj2 (Z.ltb_ge 255 _)) by lia.
  change 255 with (Z.ones 8). rewrite !Z.land_ones, !Z.shiftr_div_pow2 by lia.
  assert (E1 : (a * 2 ^ 24 + b * 2 ^ 16 + c * 2 ^ 8 + d) / 2 ^ 24 = a) by (symmetry; apply Z.div_unique with (b * 2 ^ 16 + c * 2 ^ 8 + d); lia).
  assert (E2 : (a * 2 ^ 24 + b * 2 ^ 16 + c * 2 ^ 8 + d) / 2 ^ 16 = a * 2 ^ 8 + b) by (symmetry; apply Z.div_unique with (c * 2 ^ 8 + d); lia).
  assert (E3 : (a * 2 ^ 24 + b * 2 ^ 16 + c * 2 ^ 8 + d) / 2 ^ 8 = a * 2 ^ 16 + b * 2 ^ 8 + c) by (symmetry; apply Z.div_unique with d; lia).
  rewrite E1, E2, E3. repeat f_equal; symmetry.
  - apply Z.mod_unique with 0; lia.
  - apply Z.mod_unique with a; lia.
  - apply Z.mod_unique with (a * 2 ^ 8 + b); lia.
  - apply Z.mod_unique with (a * 2 ^ 16 + b * 2 ^ 8 + c); lia.
Qed.

End Quad.

(** ** Addresses that end in a dotted quad *)

Lemma back_over_stop ds r : dec_digits ds -> back_over_digits (rev ds ++ 58 :: r) = 58 :: r.
Proof.
  intros Hd. assert (Hr : dec_digits (rev ds)) by (unfold dec_digits in *; by apply Forall_rev). induction Hr as [|c l Hc Hl IH].
  - cbn [app back_over_digits]. by destruct r.
  - cbn [app back_over_digits]. rewrite IH. destruct (l ++ 58 :: r) eqn:E; [by destruct l|].
    assert (TOR_ISDIGIT c = true) as ->; [|done]. rewrite isdigit_byte by (unfold is_byte; cbn in Hc; lia). unfold digitP, in_range. cbn in Hc. blia.
Qed.

Lemma bytes_of_pair hi lo : is_byte hi -> is_byte lo -> [u8 (Z.shiftr (Z.shiftl hi 8 + lo) 8); Z.land (Z.shiftl hi 8 + lo) 255] = [hi; lo].
Proof.
  unfold is_byte, u8. intros Hh Hl. change 255 with (Z.ones 8). rewrite Z.shiftl_mul_pow2, Z.shiftr_div_pow2, Z.land_ones by lia.
  rewrite Z.div_add_l, (Z.div_small lo) by lia. rewrite (Z.add_comm _ lo), Z.mod_add, !Z.mod_small by lia. by rewrite Z.add_0_r.
Qed.

Section Dotted.

Variables a b c d : Z.
Hypothesis Ha : is_byte a.
Hypothesis Hb : is_byte b.
Hypothesis Hc : is_byte c.
Hypothesis Hd : is_byte d.

Lemma quad_last : exists s x, quad a b c d = s ++ [x] /\ x <> 58.
Proof.
  destruct (octet_facts d Hd) as ((Hdd & Hne & _) & _ & _). destruct (dec d) as [|x s _] eqn:E using rev_ind; [done|].
  apply Forall_app in Hdd as [_ Hx]. apply Forall_cons_iff in Hx as [Hx _]. exists (dec a ++ [46] ++ dec b ++ [46] ++ dec c ++ [46] ++ s), x.
  split; [|lia]. unfold quad. rewrite E. lassoc.
Qed.

(** [::] and words with their colons before the quad. *)
Definition dotted_text (m : list Z) : bytes := 58 :: 58 :: colons m ++ quad a b c d.

Lemma dotted_head m : exists x, 58 :: 58 :: colons m = x ++ [58].
Proof.
  destruct m as [|w m _] using rev_ind; [by exists [58]|]. exists (58 :: 58 :: colons m ++ uhex w).
  unfold colons. rewrite flat_map_app. cbn [flat_map]. rewrite app_nil_r. cbn [app]. by rewrite <- app_assoc.
Qed.

Lemma dotted_dot m :
  Forall wordP m ->
  exists rest, span (fun c => negb (c =? 46)) (dotted_text m) = (58 :: 58 :: colons m ++ dec a, 46 :: rest).
Proof.
  intros Hm. exists (dec b ++ [46] ++ dec c ++ [46] ++ dec d). destruct (octet_no_dot a Ha) as [Hda _].
  unfold dotted_text, quad. change (dec a ++ [46] ++ ?r) with (dec a ++ 46 :: r).
  replace (58 :: 58 :: colons m ++ dec a ++ 46 :: dec b ++ [46] ++ dec c ++ [46] ++ dec d)
    with ((58 :: 58 :: colons m ++ dec a) ++ 46 :: dec b ++ [46] ++ dec c ++ [46] ++ dec d) by lassoc.
  apply span_stop; [|done]. do 2 (constructor; [done|]). apply Forall_app. split; [by apply colons_dotless|done].
Qed.

Lemma quad_words : u16 (Z.lor (Z.shiftl a 8) b) = Z.shiftl a 8 + b /\ u16 (Z.lor (Z.shiftl c 8) d) = Z.shiftl c 8 + d.
Proof.
  unfold is_byte, u16 in *. rewrite !Z.shiftl_mul_pow2, !lor_low by lia. split; apply Z.mod_small; lia.
Qed.

Lemma dotted_roundtrip m :
  Forall wordP m -> (length m <= 5)%nat ->
  pton6 (dotted_text m) = Ok (bytes_of (repeat 0 (6 - length m) ++ m ++ [Z.shiftl a 8 + b; Z.shiftl c 8 + d])).
Proof.
  intros Hm Hl. unfold pton6. change (if _ && _ && _ then Err else ?x) with (if trailing_colon (dotted_text m) then Err else x).
  destruct (quad_last) as (s & x & Eq & Hx). assert (trailing_colon (dotted_text m) = false) as ->.
  { unfold dotted_text. rewrite Eq. replace (58 :: 58 :: colons m ++ s ++ [x]) with ((58 :: 58 :: colons m ++ s) ++ [x]) by lassoc. by apply trailing_last. }
  destruct (dotted_dot m Hm) as (rest & Esp). rewrite Esp. destruct (dotted_head m) as (h & Eh).
  rewrite (proj2 (Z.eqb_neq (zlen _) 0)) by (rewrite !zlen_cons; pose proof (zlen_nonneg (colons m ++ dec a)); lia).
  assert (Eb : back_over_digits (rev (58 :: 58 :: colons m ++ dec a)) = 58 :: rev h).
  { change (58 :: 58 :: colons m ++ dec a) with ((58 :: 58 :: colons m) ++ dec a). rewrite Eh, !rev_app_distr. cbn [rev app].
    apply back_over_stop. by destruct (octet_facts a Ha) as ((? & _) & _). }
  rewrite Eb. cbn [cur hd Z.eqb Pos.eqb negb].
  assert (Eqt : drop (length (58 :: rev h)) (dotted_text m) = quad a b c d).
  { unfold dotted_text. change (58 :: 58 :: colons m ++ quad a b c d) with ((58 :: 58 :: colons m) ++ quad a b c d). rewrite Eh.
    apply drop_app_length'. rewrite length_app. cbn [length]. rewrite length_rev. lia. }
  rewrite Eqt, quad_sscanf by done. cbn [cbind]. unfold is_byte in *. rewrite !(proj2 (Z.ltb_ge 255 _)) by lia. cbn [orb].
  destruct quad_words as [-> ->]. set (w6 := Z.shiftl a 8 + b). set (w7 := Z.shiftl c 8 + d).
  change (aset (repeat 63736 8) 6 w6) with (Ok (repeat 63736 6 ++ [w6; 63736])). cbn [cbind].
  change (aset (repeat 63736 6 ++ [w6; 63736]) 7 w7) with (Ok (repeat 63736 6 ++ [w6; w7])). cbn [cbind].
  set (tl := repeat 63736 6 ++ [w6; w7]). unfold dotted_text at 2. rewrite start_gap by (done || (autorewrite with zlen; pose proof (zlen_nonneg (colons m)); lia)).
  cbn [p_words p_set]. change (mkpt tl 2 0 0) with (mkpt ([] ++ tl) 2 (zlen (@nil Z)) 0).
  destruct (words_colons m (length (dotted_text m)) (quad a b c d) (zlen (quad a b c d)) [] tl 2 0 Hm) as (f & -> & Hf);
    [unfold zlen; cbn [length]; lia|unfold zlen; cbn; lia|pose proof (zlen_nonneg (quad a b c d)); lia|unfold dotted_text; cbn [length]; lia|].
  destruct f as [|f]; [lia|]. cbn [words_loop]. rewrite Z.ltb_irrefl. cbn [cbind app]. change (zlen (@nil Z)) with 0.
  pose proof (fill_gap_ok [] m (6 - zlen m) (drop (length m) tl) true (2 + zlen m) (0 + zlen m)) as Hfill.
  cbn [app] in Hfill. change (zlen (@nil Z)) with 0 in Hfill. rewrite Hfill; [|unfold zlen; lia|unfold zlen; rewrite length_drop; cbn; lia|unfold zlen; rewrite length_drop; cbn; lia|lia].
  cbn [cbind]. rewrite drop_drop. replace (Z.to_nat (6 - zlen m)) with (6 - length m)%nat by (unfold zlen; lia).
  replace (length m + (6 - length m))%nat with 6%nat by lia. done.
Qed.

End Dotted.

(** ** Lengths *)

Lemma colons_len ws : Forall wordP ws -> zlen (colons ws) <= 5 * zlen ws.
Proof.
  induction 1 as [|w ws Hw _ IH]; [done|]. cbn [colons flat_map]. fold (colons ws). pose proof (ht_len _ _ (uhex_text w Hw)). zlia.
Qed.

Lemma join_len ws : Forall wordP ws -> ws <> [] -> zlen (join_words ws) <= 5 * zlen ws - 1.
Proof.
  induction 1 as [|w ws Hw _ IH]; [done|]. intros _. cbn [join_words]. pose proof (ht_len _ _ (uhex_text w Hw)).
  destruct ws as [|w' ws]; [unfold zlen in *; rewrite length_app; cbn [length]; lia|]. specialize (IH ltac:(done)).
  rewrite (zlen_cons w), !zlen_app. change (zlen [58]) with 1. lia.
Qed.

Lemma general_len ws : length ws = 8%nat -> Forall wordP ws -> zlen (general_text ws) <= 39.
Proof.
  intros Hl Hw. destruct (general_text_cases ws Hl) as [->|(pre & n & post & E & Hn & ->)].
  - pose proof (join_len ws Hw ltac:(by destruct ws)). unfold zlen in *. lia.
  - rewrite E in *. apply Forall_app in Hw as [Hpre Hw]. apply Forall_app in Hw as [_ Hpost]. rewrite !length_app, repeat_length in Hl.
    pose proof (colons_len pre Hpre) as H1. assert (H2 : zlen (join_words post) <= 5 * zlen post).
    { destruct post; [done|]. pose proof (join_len _ Hpost ltac:(done)). lia. }
    rewrite !zlen_app. change (zlen [58]) with 1. destruct (Nat.eqb _ 0); [change (zlen [58]) with 1|change (zlen (@nil Z)) with 0]; unfold zlen in *; lia.
Qed.

Lemma quad_len a b c d : is_byte a -> is_byte b -> is_byte c -> is_byte d -> zlen (quad a b c d) <= 15.
Proof.
  intros Ha Hb Hc Hd. destruct (octet_facts a Ha) as ((_ & _ & ?) & _), (octet_facts b Hb) as ((_ & _ & ?) & _),
    (octet_facts c Hc) as ((_ & _ & ?) & _), (octet_facts d Hd) as ((_ & _ & ?) & _).
  unfold quad. rewrite !zlen_app. change (zlen [46]) with 1. lia.
Qed.

Lemma snprintf_fits size text : 1 <= size <= SIZE_T_CEILING -> zlen text < size -> tor_snprintf size text = Ok text.
Proof. intros H1 H2. unfold tor_snprintf. by rewrite (proj2 (Z.eqb_neq _ _)), !(proj2 (Z.ltb_ge _ _)), (proj2 (Z.leb_gt _ _)) by lia. Qed.

(** ** Round trips *)

(** An IPv4 address printed into a buffer of at least 16 bytes is a text that parses back
    to the same address. *)
Theorem inet4_roundtrip addr len :
  length addr = 4%nat -> Forall is_byte addr -> 16 <= len <= SIZE_T_CEILING ->
  exists text, tor_inet_ntop AF_INET addr len = Ok text /\ tor_inet_pton AF_INET text = Ok (PtonOk addr).
Proof.
  intros Hl Hb Hlen. destruct addr as [|a [|b [|c [|d [|]]]]]; try done.
  apply Forall_cons_iff in Hb as [Ha Hb]. apply Forall_cons_iff in Hb as [Hb Hc]. apply Forall_cons_iff in Hc as [Hc Hd]. apply Forall_cons_iff in Hd as [Hd _].
  exists (quad a b c d). cbn [tor_inet_ntop tor_inet_ntoa tor_inet_pton]. rewrite aton_quad by done. split; [|done].
  pose proof (quad_len a b c d Ha Hb Hc Hd). by apply snprintf_fits; lia.
Qed.

Lemma words_of_range addr : Forall is_byte addr -> Forall wordP (words_of addr).
Proof.
  revert addr. fix IH 1. intros [|hi [|lo r]] H; [constructor|constructor|]. apply Forall_cons_iff in H as [Hh H]. apply Forall_cons_iff in H as [Hlo H].
  cbn [words_of]. constructor; [|by apply IH]. unfold wordP, is_byte in *. rewrite Z.shiftl_mul_pow2 by lia. lia.
Qed.

Lemma bytes_of_words addr : Nat.even (length addr) = true -> Forall is_byte addr -> bytes_of (words_of addr) = addr.
Proof.
  revert addr. fix IH 1. intros [|hi [|lo r]] He H; [done|done|]. apply Forall_cons_iff in H as [Hh H]. apply Forall_cons_iff in H as [Hlo H].
  cbn [words_of bytes_of flat_map]. fold (bytes_of (words_of r)). rewrite (bytes_of_pair hi lo) by done. by rewrite IH.
Qed.

(** The text that [ntop6] copies out. *)
Definition ipv6_text (addr : bytes) (text : bytes) : Prop :=
  pton6 text = Ok addr /\ zlen text <= 39 /\ forall len, 40 <= len -> ntop6 addr len = Ok text.

Lemma copy_out_ok len text : zlen text <= 39 -> 40 <= len -> copy_out len text = Ok text.
Proof. intros H1 H2. unfold copy_out. by rewrite (proj2 (Z.ltb_ge _ _)) by lia. Qed.

Lemma ntop6_text addr : length addr = 16%nat -> Forall is_byte addr -> exists text, ipv6_text addr text.
Proof.
  intros Hl Hb. pose proof (words_of_range addr Hb) as Hw. pose proof (bytes_of_words addr ltac:(by rewrite Hl) Hb) as Ew.
  do 16 (destruct addr as [|? addr]; [done|]). destruct addr as [|]; [|done]. unfold ipv6_text, ntop6. cbn [words_of] in *.
  set (w0 := Z.shiftl z 8 + z0) in *. set (w1 := Z.shiftl z1 8 + z2) in *. set (w2 := Z.shiftl z3 8 + z4) in *. set (w3 := Z.shiftl z5 8 + z6) in *.
  set (w4 := Z.shiftl z7 8 + z8) in *. set (w5 := Z.shiftl z9 8 + z10) in *.
  do 12 (apply Forall_cons_iff in Hb as [_ Hb]). apply Forall_cons_iff in Hb as [Ha Hb]. apply Forall_cons_iff in Hb as [Hb Hc].
  apply Forall_cons_iff in Hc as [Hc Hd]. apply Forall_cons_iff in Hd as [Hd _]. pose proof (quad_len _ _ _ _ Ha Hb Hc Hd) as Hq.
  destruct (_ && _ : bool) eqn:G.
  - apply andb_prop in G as [G G5]. apply orb_prop in G5. boolp. rewrite <- Ew. destruct (Z.eqb_spec w5 0) as [E5|E5].
    + exists (dotted_text z11 z12 z13 z14 []). rewrite dotted_roundtrip by (done || cbn; lia).
      assert (Hlen : zlen (dotted_text z11 z12 z13 z14 []) <= 39) by (unfold dotted_text; cbn [colons flat_map app]; rewrite !zlen_cons; lia).
      split; [|split; [done|intros; by apply copy_out_ok]]. rewrite ?H, ?H0, ?H1, ?H2, ?H3, ?E5, ?G5. reflexivity.
    + destruct G5 as [G5|G5]; [boolp; lia|]. apply Z.eqb_eq in G5. exists (dotted_text z11 z12 z13 z14 [65535]).
      rewrite dotted_roundtrip by first [done | (constructor; [unfold wordP; lia|constructor]) | cbn; lia].
      assert (Hlen : zlen (dotted_text z11 z12 z13 z14 [65535]) <= 39).
      { unfold dotted_text. rewrite !zlen_cons, zlen_app. change (zlen (colons [65535])) with 5. lia. }
      split; [|split; [done|intros; rewrite G5; by apply copy_out_ok]]. rewrite ?H, ?H0, ?H1, ?H2, ?H3, ?E5, ?G5. reflexivity.
  - exists (general_text [w0; w1; w2; w3; w4; w5; Z.shiftl z11 8 + z12; Z.shiftl z13 8 + z14]). rewrite general_roundtrip by done. rewrite Ew.
    pose proof (general_len [w0; w1; w2; w3; w4; w5; Z.shiftl z11 8 + z12; Z.shiftl z13 8 + z14] eq_refl Hw). split; [done|]. split; [done|]. intros. by apply copy_out_ok.
Qed.

(** Every IPv6 address, printed into a buffer of at least 40 bytes, is a text of at most 39
    characters that parses back to the same address: with [::] for the longest run of zero
    words, or as a dotted quad for the addresses that embed one. *)
Theorem inet6_roundtrip addr len :
  length addr = 16%nat -> Forall is_byte addr -> 40 <= len ->
  exists text, tor_inet_ntop AF_INET6 addr len = Ok text /\ zlen text <= 39 /\ tor_inet_pton AF_INET6 text = Ok (PtonOk addr).
Proof.
  intros Hl Hb Hlen. destruct (ntop6_text addr Hl Hb) as (text & E1 & E2 & E3). exists text.
  cbn [tor_inet_ntop tor_inet_pton]. by rewrite E1, (E3 len Hlen).
Qed.

Lemma inet6_roundtrip_witness :
  exists text, tor_inet_ntop AF_INET6 [0x20; 1; 0; 0; 0; 0; 0; 0; 0; 1; 0; 0; 0; 0; 0; 255] 46 = Ok text /\ zlen text <= 39
    /\ tor_inet_pton AF_INET6 text = Ok (PtonOk [0x20; 1; 0; 0; 0; 0; 0; 0; 0; 1; 0; 0; 0; 0; 0; 255]).
Proof. apply inet6_roundtrip; [done|repeat constructor; unfold is_byte; lia|lia]. Defined.

Lemma inet4_roundtrip_witness :
  exists text, tor_inet_ntop AF_INET [192; 0; 2; 33] 16 = Ok text /\ tor_inet_pton AF_INET text = Ok (PtonOk [192; 0; 2; 33]).
Proof. apply inet4_roundtrip; [done|repeat constructor; unfold is_byte; lia|unfold SIZE_T_CEILING; lia]. Defined.

(** The texts of some addresses. *)
Example ntop_longest_gap : tor_inet_ntop AF_INET6 [0x20; 1; 0; 0; 0; 0; 0; 0; 0; 1; 0; 0; 0; 0; 0; 255] 46 = Ok (s2b "2001::1:0:0:ff").
Proof. vm_compute. reflexivity. Qed.
Example ntop_mapped : tor_inet_ntop AF_INET6 [0; 0; 0; 0; 0; 0; 0; 0; 0; 0; 255; 255; 192; 0; 2; 1] 46 = Ok (s2b "::ffff:192.0.2.1").
Proof. vm_compute. reflexivity. Qed.
Example pton_0x : tor_inet_pton AF_INET6 (s2b "::0x1") = Ok PtonBad.
Proof. vm_compute. reflexivity. Qed.
Example aton_octal : tor_inet_pton AF_INET (s2b "1.2.3.04") = Ok PtonBad.
Proof. vm_compute. reflexivity. Qed.

(** ** Every string *)

(** The parser on any string: what it reads of a word, and that no assertion fails. *)
Definition xdigit_ok (c : Z) : bool :=
  negb (TOR_ISXDIGIT c)
  || (is_digit_of 16 c && negb ((c =? 32) || in_range 9 13 c) && negb (c =? 45) && negb (c =? 43) && negb (c =? 46) && negb (c =? 120) && negb (c =? 88)).

Lemma xdigit_facts c :
  is_byte c -> TOR_ISXDIGIT c = true ->
  is_digit_of 16 c = true /\ (c =? 32) || in_range 9 13 c = false /\ c <> 45 /\ c <> 43 /\ c <> 46 /\ c <> 120 /\ c <> 88.
Proof.
  intros Hb Hx. assert (H : xdigit_ok c = true) by (apply byte_forall; [vm_compute; reflexivity|done]). unfold xdigit_ok in H.
  rewrite Hx in H. cbn [negb orb] in H. repeat (apply andb_prop in H as [H ?]). repeat match goal with E : negb _ = true |- _ => apply negb_true_iff in E end.
  by repeat match goal with E : (_ =? _) = false |- _ => apply Z.eqb_neq in E end.
Qed.

Lemma digit16_bound ds : Forall (fun c => is_digit_of 16 c = true) ds -> 0 <= digits_val 16 ds < 16 ^ zlen ds.
Proof.
  induction ds as [|c ds IH] using rev_ind; [done|]. rewrite Forall_app. intros [H1 H2]. specialize (IH H1). apply Forall_cons_iff in H2 as [Hc _].
  rewrite digits_val_app. cbn [fold_left]. rewrite zlen_app. change (zlen [c]) with 1. rewrite Z.pow_add_r by (apply zlen_nonneg || lia).
  assert (0 <= digit_val c < 16); [|lia]. unfold is_digit_of in Hc. split; [|lia].
  unfold digit_val, digitP, lowerP, upperP, in_range. repeat case_match; boolp; lia.
Qed.

Lemma digits_no_dot ds : Forall (fun c => is_digit_of 16 c = true) ds -> 46 ∉ ds.
Proof. intros H Hin. rewrite List.Forall_forall in H. apply list_elem_of_In in Hin. by specialize (H 46 Hin). Qed.

(** What [strtol] takes from a string that starts with a hexadecimal digit. *)
Lemma strtol_word c r :
  is_byte c -> TOR_ISXDIGIT c = true ->
  exists ds rest, c :: r = ds ++ rest /\ r_end (strtol 16 (c :: r)) = rest /\ r_conv (strtol 16 (c :: r)) = true /\ 1 <= zlen ds /\ 46 ∉ ds
    /\ ((exists x h t, r = x :: h :: t /\ (x = 120 \/ x = 88) /\ 2 < zlen ds)
        \/ (Forall (fun c => is_digit_of 16 c = true) ds /\ (zlen ds <= 4 -> r_val (strtol 16 (c :: r)) = digits_val 16 ds))).
Proof.
  intros Hb Hx. destruct (xdigit_facts c Hb Hx) as (Hd & Hs & H1 & H2 & _). unfold strtol.
  assert (E : strtox 16 (c :: r) = (let hp := match r with x :: h :: _ => (c =? 48) && ((x =? 120) || (x =? 88)) && is_digit_of 16 h | _ => false end in
     let '(ds, rest) := span (is_digit_of 16) (if hp then drop 1 r else c :: r) in
     match ds with [] => None | _ => Some (false, digits_val 16 ds, rest) end)).
  { unfold strtox. cbn [span]. rewrite Hs. cbn [snd]. rewrite (proj2 (Z.eqb_neq c 45)), (proj2 (Z.eqb_neq c 43)) by done. cbn [Z.eqb Pos.eqb orb andb drop].
    destruct r as [|x [|h t]]; [done|done|]. by destruct (_ && _ && _). }
  rewrite E. cbv zeta. destruct (match r with [] => false | _ => _ end) eqn:Ehp.
  - destruct r as [|x [|h t]]; [done|done|]. rewrite !andb_true_iff, orb_true_iff, !Z.eqb_eq in Ehp. destruct Ehp as [[-> Hxx] Hh].
    cbn [drop]. cbn [span]. rewrite Hh. pose proof (span_app (is_digit_of 16) t) as Ht. pose proof (span_prefix (is_digit_of 16) t) as Hp. destruct (span (is_digit_of 16) t) as [ds rest]. cbn in Ht, Hp.
    assert (Hds : Forall (fun c => is_digit_of 16 c = true) (h :: ds)) by (by constructor).
    exists (48 :: x :: h :: ds), rest. split; [by rewrite <- Ht|]. pose proof (zlen_nonneg ds).
    assert (H46 : 46 ∉ 48 :: x :: h :: ds).
    { rewrite !not_elem_of_cons. split; [done|]. split; [by destruct Hxx as [->| ->]|]. by apply not_elem_of_cons, digits_no_dot. }
    destruct (LONG_MAX <? _); [|destruct (_ <? LONG_MIN)]; (split; [done|]; split; [done|]; split; [rewrite !zlen_cons; lia|]; split; [done|]; left; exists x, h, t; split; [done|]; split; [done|]; rewrite !zlen_cons; lia).
  - pose proof (span_app (is_digit_of 16) (c :: r)) as Ht. pose proof (span_prefix (is_digit_of 16) (c :: r)) as Hp. cbn [span] in *. rewrite Hd in *.
    destruct (span (is_digit_of 16) r) as [ds rest]. cbn [fst snd] in *. exists (c :: ds), rest. split; [done|]. pose proof (zlen_nonneg ds).
    pose proof (digit16_bound (c :: ds) Hp) as Hbd. set (v := digits_val 16 (c :: ds)) in *.
    assert (Hsm : zlen (c :: ds) <= 4 -> v < 65536) by (intros; pose proof (Z.pow_le_mono_r 16 (zlen (c :: ds)) 4); lia). unfold LONG_MAX, LONG_MIN.
    destruct (Z.ltb_spec 9223372036854775807 v); [|destruct (Z.ltb_spec v (-9223372036854775808)); [lia|]];
      (split; [done|]; split; [done|]; split; [rewrite zlen_cons; lia|]; split; [by apply digits_no_dot|]; right; split; [done|]; cbn [r_val]; intros; lia).
Qed.

(** The state of the loop over the words: [k] words come from a dotted quad. *)
Record pton_ok (k : Z) (st : pton_st) : Prop := mk_pton_ok {
  po_words : zlen (p_words st) = 8;
  po_i : 0 <= p_i st <= 8;
  po_set : p_set st = p_i st + k;
  po_gap : p_gap st = -1 \/ 0 <= p_gap st <= p_i st
}.

(** [q] is the text from [eow] on. *)
Definition before_quad (q src : bytes) : Prop := (exists p, src = p ++ q) \/ zlen src <= zlen q.

Lemma before_quad_drop q src n : before_quad q src -> before_quad q (drop n src).
Proof.
  intros [[p ->]|H].
  - destruct (Nat.le_gt_cases n (length p)) as [Hn|Hn].
    + left. exists (drop n p). by rewrite drop_app_le by done.
    + right. unfold zlen. rewrite length_drop, length_app. lia.
  - right. unfold zlen in *. rewrite length_drop. lia.
Qed.

Lemma words_loop_total k q fuel : forall src st,
  Forall is_byte src -> no_nul src -> q = [] \/ 46 ∈ q -> before_quad q src -> pton_ok k st -> (length src < fuel)%nat ->
  words_loop fuel src (zlen q) st = Err \/ exists st', words_loop fuel src (zlen q) st = Ok st' /\ pton_ok k st'.
Proof.
  induction fuel as [|fuel IH]; intros src st Hb Hn Hq Hbq Hst Hf; [lia|].
  assert (Hstep : forall n st', (1 <= n)%nat -> (1 <= length src)%nat -> pton_ok k st' ->
    words_loop fuel (drop n src) (zlen q) st' = Err \/ exists st'', words_loop fuel (drop n src) (zlen q) st' = Ok st'' /\ pton_ok k st'').
  { intros n st' Hn1 Hn2 Hs. apply IH; [by apply Forall_drop|unfold no_nul in *; by apply Forall_drop|done|by apply before_quad_drop|done|].
    rewrite length_drop. lia. }
  cbn [words_loop]. destruct (Z.ltb_spec (zlen q) (zlen src)) as [Hlt|Hge]; [|by right; exists st].
  destruct Hbq as [[p Hsrc]|Hsrc]; [|lia]. destruct (Z.ltb_spec 7 (p_i st)); [by left|].
  destruct src as [|c r]; [unfold zlen in Hlt; cbn [length] in Hlt; lia|]. cbn [cur hd]. apply Forall_cons_iff in Hb as [Hc Hr].
  destruct Hst as [Hw Hi Hset Hgap]. destruct (TOR_ISXDIGIT c) eqn:Ex.
  - destruct (strtol_word c r Hc Ex) as (ds & rest & Esrc & Eend & Econv & Hds & H46 & Hcase). rewrite Econv, Eend. cbn [negb].
    set (len := if cur rest =? 0 then _ else _). destruct (Z.ltb_spec 4 len) as [|Hlen]; [by left|].
    destruct ((1 <? len) && negb (TOR_ISXDIGIT (cur (drop 1 (c :: r))))) eqn:E0x; [by left|].
    assert (Hl : len = zlen ds).
    { assert (Hz : zlen (c :: r) = zlen ds + zlen rest) by (by rewrite Esrc, zlen_app). unfold len. destruct (Z.eqb_spec (cur rest) 0) as [E0|_]; [|lia].
      assert (rest = []) as ->.
      { destruct rest as [|y rest]; [done|]. cbn in E0. subst y. rewrite Esrc in Hn. apply Forall_app in Hn as [_ Hn]. by apply Forall_cons_iff in Hn as [? _]. }
      destruct Hq as [->|Hq]; [unfold zlen in *; cbn [length] in *; lia|]. destruct H46. rewrite app_nil_r in Esrc. rewrite <- Esrc, Hsrc. apply elem_of_app. by right. }
    assert (Hv : 0 <= r_val (strtol 16 (c :: r)) < 65536).
    { destruct Hcase as [(x & h & t & -> & Hx & H2)|[Hall Hv]].
      - rewrite Hl in E0x. rewrite (proj2 (Z.ltb_lt _ _)) in E0x by lia. by destruct Hx as [->| ->].
      - rewrite Hv by lia. pose proof (digit16_bound ds Hall). pose proof (Z.pow_le_mono_r 16 (zlen ds) 4). lia. }
    rewrite (proj2 (Z.leb_le 0 _)), (proj2 (Z.ltb_lt _ 65536)) by lia.
    destruct (aset_len (p_words st) (p_i st) (r_val (strtol 16 (c :: r)))) as (ws & -> & Hws); [lia|]. cbn [cbind].
    destruct (negb (cur rest =? 58) && _); [by left|]. replace (drop 1 rest) with (drop (S (length ds)) (c :: r)).
    + apply Hstep; [lia|cbn; lia|]. split; cbn; [lia|lia|lia|]. destruct Hgap; [by left|right; lia].
    + rewrite Esrc, <- Nat.add_1_r, <- drop_drop, drop_app_length. done.
  - destruct (_ && _ && _) eqn:E1.
    + boolp. apply (Hstep 1%nat); [lia|cbn; lia|]. split; cbn; [lia|lia|lia|]. right. lia.
    + destruct (_ && _ && _ && _ && _) eqn:E2; [|by left]. boolp. apply (Hstep 2%nat); [lia|cbn; lia|]. split; cbn; [lia|lia|lia|]. right. lia.
Qed.

Lemma fill_gap_total st dot :
  pton_ok (if dot : bool then 2 else 0) st -> fill_gap st dot = Err \/ exists ws, fill_gap st dot = Ok ws /\ zlen ws = 8.
Proof.
  intros [Hw Hi Hset Hgap]. set (k := if dot then 2 else 0) in *. assert (0 <= k <= 2) by (by unfold k; destruct dot).
  unfold fill_gap. fold k. destruct (_ || _) eqn:E; [by left|]. destruct (Z.leb_spec 0 (p_gap st)) as [Hg|Hg]; [|right; by exists (p_words st)].
  assert (Hset8 : p_set st < 8). { apply orb_false_iff in E as [E _]. apply orb_false_iff in E as [E1 E2]. apply Z.ltb_ge in E1. apply andb_false_iff in E2 as [E2|E2]; boolp; lia. }
  destruct Hgap as [|Hgap]; [lia|]. rewrite (proj2 (Z.leb_le 0 _)) by lia. right.
  destruct (first_bytes_ok (p_set st - k - p_gap st) (drop (Z.to_nat (p_gap st)) (p_words st))) as (mv & -> & Hmv & _).
  { unfold zlen in *. rewrite length_drop. lia. }
  cbn [cbind]. destruct (poke_len (p_gap st + (8 - p_set st)) mv (p_words st)) as (ws & -> & Hws); [lia|lia|]. cbn [cbind].
  destruct (poke_len (p_gap st) (repeat 0 (Z.to_nat (8 - p_set st))) ws) as (ws' & -> & Hws'); [lia|rewrite zlen_repeat; lia|].
  exists ws'. split; [done|lia].
Qed.

Lemma land_byte x : is_byte (Z.land x 255).
Proof. unfold is_byte. change 255 with (Z.ones 8). rewrite Z.land_ones by lia. pose proof (Z.mod_pos_bound x (2 ^ 8)). lia. Qed.

Lemma bytes_of_ok ws : Forall is_byte (bytes_of ws) /\ zlen (bytes_of ws) = 2 * zlen ws.
Proof.
  induction ws as [|w ws [IH1 IH2]]; [done|]. cbn [bytes_of flat_map app]. fold (bytes_of ws). split.
  - constructor; [unfold is_byte, u8; pose proof (Z.mod_pos_bound (Z.shiftr w 8) (2 ^ 8)); lia|]. constructor; [apply land_byte|done].
  - rewrite !zlen_cons. lia.
Qed.

(** What the parser stores for an address of [n] bytes. *)
Definition stored (n : Z) (r : cres bytes) : Prop := r = Err \/ exists d, r = Ok d /\ Forall is_byte d /\ zlen d = n.

Lemma finish_words st dot :
  pton_ok (if dot : bool then 2 else 0) st -> stored 16 (let* words := fill_gap st dot in Ok (bytes_of words)).
Proof.
  intros Hst. destruct (fill_gap_total st dot Hst) as [->|(ws & -> & Hws)]; [by left|]. right. cbn [cbind]. destruct (bytes_of_ok ws) as [H1 H2].
  exists (bytes_of ws). split; [done|]. split; [done|lia].
Qed.

Lemma back_over_suffix rp : exists ds, rp = ds ++ back_over_digits rp.
Proof.
  induction rp as [|c r IH]; [by exists []|]. cbn [back_over_digits]. destruct r as [|d r]; [by exists []|]. destruct (TOR_ISDIGIT c); [|by exists []].
  destruct IH as (ds & E). exists (c :: ds). cbn [app]. by rewrite <- E.
Qed.

Lemma pton6_stored src : Forall is_byte src -> no_nul src -> stored 16 (pton6 src).
Proof.
  intros Hb Hn. unfold pton6. destruct (_ && _ && _); [by left|]. pose proof (span_app (fun c => negb (c =? 46)) src) as Esp.
  pose proof (span_rest (fun c => negb (c =? 46)) src) as Hrest.
  destruct (span (fun c => negb (c =? 46)) src) as [before [|x from_dot]]; cbn [fst snd] in *.
  - change (words_loop (S (length src)) src 0) with (words_loop (S (length src)) src (zlen (@nil Z))).
    destruct (words_loop_total 0 [] (S (length src)) src (mkpt (repeat 63736 8) 0 0 (-1))) as [->|(st & -> & Hst)]; [done|done|by left| | |lia|by left|].
    + left. exists src. by rewrite app_nil_r.
    + split; cbn; [done|lia|lia|by left].
    + cbn [cbind]. by apply (finish_words st false).
  - destruct (zlen before =? 0); [by left|]. destruct (negb _); [by left|]. set (rp := back_over_digits (rev before)). set (q := drop (length rp) src).
    destruct (vsscanf_total (S (length QUAD)) q QUAD 0 []) as ([n vals] & E); [lia|].
    change (tor_sscanf q _) with (vsscanf_loop (S (length QUAD)) q QUAD 0 []). rewrite E. cbn [cbind].
    repeat (match goal with |- stored _ (match ?v with _ => _ end) => destruct v end; try (by left)).
    match goal with |- context [aset (repeat 63736 8) 6 ?w] => change (aset (repeat 63736 8) 6 w) with (Ok (repeat 63736 6 ++ [w; 63736])); set (w6 := w) end.
    cbn [cbind]. match goal with |- context [aset (repeat 63736 6 ++ [w6; 63736]) 7 ?w] =>
      change (aset (repeat 63736 6 ++ [w6; 63736]) 7 w) with (Ok (repeat 63736 6 ++ [w6; w])); set (w7 := w) end. cbn [cbind].
    assert (Hrp : (length rp <= length before)%nat).
    { destruct (back_over_suffix (rev before)) as (ds & Eds). fold rp in Eds. rewrite <- (length_rev before), Eds, length_app. lia. }
    assert (H46 : 46 ∈ q).
    { specialize (Hrest x from_dot eq_refl). apply negb_false_iff, Z.eqb_eq in Hrest as ->. unfold q. rewrite <- Esp, drop_app_le by done. apply elem_of_app. right. apply elem_of_cons. by left. }
    destruct (words_loop_total 2 q (S (length src)) src (mkpt (repeat 63736 6 ++ [w6; w7]) 2 0 (-1))) as [->|(st & -> & Hst)]; [done|done|by right| | |lia|by left|].
    + left. exists (take (length rp) src). unfold q. by rewrite take_drop.
    + split; cbn; [done|lia|lia|by left].
    + cbn [cbind]. by apply (finish_words st true).
Qed.

Lemma aton_stored str : stored 4 (tor_inet_aton str).
Proof.
  unfold tor_inet_aton. destruct (vsscanf_total (S (length QUAD)) str QUAD 0 []) as ([n vals] & E); [lia|].
  change (tor_sscanf str _) with (vsscanf_loop (S (length QUAD)) str QUAD 0 []). rewrite E. cbn [cbind].
  destruct (split_loop_total (S (length str)) str (s2b ".") 0 0 0) as (sl & Es); [done|lia|]. unfold smartlist_split_string. rewrite Es. cbn [cbind].
  repeat (match goal with |- stored _ (match ?v with _ => _ end) => destruct v end; try (by left)).
  right. eexists. split; [done|]. split; [|done]. repeat constructor; apply land_byte.
Qed.

(** The bytes of an address of the family. *)
Definition addr_size (af : af_t) : Z := match af with AF_INET => 4 | AF_INET6 => 16 | _ => 0 end.

(** The address parser ends on every string, with a verdict and, when it accepts, with an address of
    the length of its family: no assertion in it fails and no word is read or written outside its array. *)
Theorem tor_inet_pton_total af src :
  Forall is_byte src -> no_nul src ->
  exists r, tor_inet_pton af src = Ok r /\ match r with PtonOk d => Forall is_byte d /\ zlen d = addr_size af | _ => True end.
Proof.
  intros Hb Hn. destruct af; cbn [tor_inet_pton addr_size]; [by exists PtonAf|by exists PtonAf| |].
  - destruct (aton_stored src) as [->|(d & -> & Hd)]; [by exists PtonBad|by exists (PtonOk d)].
  - destruct (pton6_stored src Hb Hn) as [->|(d & -> & Hd)]; [by exists PtonBad|by exists (PtonOk d)].
Qed.

Lemma tor_inet_pton_total_witness :
  exists r, tor_inet_pton AF_INET6 (s2b "1:2:3:4:5:6:7:8:9:0x") = Ok r
    /\ match r with PtonOk d => Forall is_byte d /\ zlen d = addr_size AF_INET6 | _ => True end.
Proof. apply tor_inet_pton_total; cbn; repeat constructor; unfold is_byte; lia. Defined.
