(* ===== verification/Address.v ===== *)
(** * Addresses

    Models lib/net/address.c and the inline functions of address.h: [tor_addr_t], its text forms with and
    without port and mask, reverse lookup names, the order of addresses, the classes of
    addresses, and the syntax of destinations.  The functions that talk to sockets and network
    interfaces are left out. *)

From S2P Require Import Prelude CString DiOps UtilString StrList Scanf Inaddr.
From Stdlib Require Import ZArith String.
From stdpp Require Import base list numbers.
Open Scope Z_scope.

(** The bytes of [addr] in network order: four, sixteen, or none that count. *)
Record tor_addr_t := mkaddr { family : af_t; ip : bytes }.

Record tor_addr_port_t := mkap { ap_addr : tor_addr_t; ap_port : Z }.

Definition TOR_ADDR_BUF_LEN : Z := 48.
Definition TOR_ADDRPORT_BUF_LEN : Z := TOR_ADDR_BUF_LEN + 6.
Definition INET_NTOA_BUF_LEN : Z := 16.
Definition REVERSE_LOOKUP_NAME_BUF_LEN : Z := 73.

(** The numbers that Linux gives to the families. *)
Definition af_num (f : af_t) : Z := match f with AF_UNSPEC => 0 | AF_UNIX => 1 | AF_INET => 2 | AF_INET6 => 10 end.

(** ** Access *)

Definition be32 (p : bytes) : Z := fold_left (fun v b => v * 256 + b) (take 4 p) 0.

Definition htonl_bytes (v : Z) : bytes := [u8 (Z.shiftr v 24); u8 (Z.shiftr v 16); u8 (Z.shiftr v 8); u8 v].

Definition tor_addr_to_ipv4h (a : tor_addr_t) : Z := match family a with AF_INET => be32 (ip a) | _ => 0 end.

(** [ntohl(tor_addr_to_in6_addr32(a)[i])] *)
Definition in6_word (a : tor_addr_t) (i : nat) : Z := be32 (drop (4 * i) (ip a)).

Definition tor_addr_to_mapped_ipv4h (a : tor_addr_t) : Z := match family a with AF_INET6 => in6_word a 3 | _ => 0 end.

Definition tor_addr_make_unspec : tor_addr_t := mkaddr AF_UNSPEC [].

Definition tor_addr_make_null (f : af_t) : tor_addr_t := mkaddr f (repeat 0 (Z.to_nat (addr_size f))).

Definition tor_addr_from_ipv4h (v4addr : Z) : tor_addr_t := mkaddr AF_INET (htonl_bytes v4addr).

(** [tor_addr_from_in] *)
Definition tor_addr_from_in (in_ : bytes) : tor_addr_t := mkaddr AF_INET in_.

Definition tor_addr_from_ipv6_bytes (ipv6_bytes : bytes) : tor_addr_t := mkaddr AF_INET6 ipv6_bytes.

(** ** Classes *)

Definition tor_addr_is_v4 (a : tor_addr_t) : bool :=
  match family a with
  | AF_INET => true
  | AF_INET6 => (in6_word a 0 =? 0) && (in6_word a 1 =? 0) && (in6_word a 2 =? 0xffff)
  | _ => false
  end.

Definition tor_addr_is_v6 (a : tor_addr_t) : bool := bool_decide (family a = AF_INET6).

Definition tor_addr_is_null (a : tor_addr_t) : bool :=
  match family a with
  | AF_INET6 => (in6_word a 0 =? 0) && (in6_word a 1 =? 0) && (in6_word a 2 =? 0) && (in6_word a 3 =? 0)
  | AF_INET => tor_addr_to_ipv4h a =? 0
  | AF_UNIX => true
  | AF_UNSPEC => true
  end.

(** An AF_UNIX address is a bug that is logged, and no loopback address. *)
Definition tor_addr_is_loopback (a : tor_addr_t) : bool :=
  match family a with
  | AF_INET6 => (in6_word a 0 =? 0) && (in6_word a 1 =? 0) && (in6_word a 2 =? 0) && (in6_word a 3 =? 1)
  | AF_INET => Z.land (tor_addr_to_ipv4h a) 0xff000000 =? 0x7f000000
  | _ => false
  end.

Definition tor_addr_is_valid (a : tor_addr_t) (for_listening : bool) : bool :=
  if for_listening && (bool_decide (family a = AF_INET) || bool_decide (family a = AF_INET6)) then true
  else negb (tor_addr_is_null a).

Definition tor_port_is_valid (port : Z) (for_listening : bool) : bool := if for_listening then true else negb (port =? 0).

Definition tor_addr_is_multicast (a : tor_addr_t) : bool :=
  match family a with
  | AF_INET => Z.shiftr (tor_addr_to_ipv4h a) 24 =? 0xe0
  | AF_INET6 => cur (ip a) =? 0xff
  | _ => false
  end.

(** The part of [tor_addr_is_internal_] for IPv4 and for IPv6. *)
Definition internal_v4 (iph4 : Z) (for_listening : bool) : bool :=
  if for_listening && ((iph4 =? 0) || (Z.land iph4 0xffc00000 =? 0x64400000)) then false
  else (Z.land iph4 0xff000000 =? 0x0a000000) || (Z.land iph4 0xff000000 =? 0x00000000) || (Z.land iph4 0xff000000 =? 0x7f000000)
    || (Z.land iph4 0xffc00000 =? 0x64400000) || (Z.land iph4 0xffff0000 =? 0xa9fe0000) || (Z.land iph4 0xfff00000 =? 0xac100000)
    || (Z.land iph4 0xffff0000 =? 0xc0a80000).

Definition internal_v6 (a : tor_addr_t) (for_listening : bool) : bool :=
  let i0 := in6_word a 0 in let i1 := in6_word a 1 in let i2 := in6_word a 2 in let i3 := in6_word a 3 in
  if for_listening && (i0 =? 0) && (i1 =? 0) && (i2 =? 0) && (i3 =? 0) then false
  else if (Z.land i0 0xfe000000 =? 0xfc000000) || (Z.land i0 0xffc00000 =? 0xfe800000) || (Z.land i0 0xffc00000 =? 0xfec00000) then true
  else (i0 =? 0) && (i1 =? 0) && (i2 =? 0) && (Z.land i3 0xfffffffe =? 0).

Definition tor_addr_is_internal (a : tor_addr_t) (for_listening : bool) : bool :=
  match family a with
  | AF_INET => internal_v4 (tor_addr_to_ipv4h a) for_listening
  | AF_INET6 => if tor_addr_is_v4 a then internal_v4 (in6_word a 3) for_listening else internal_v6 a for_listening
  | _ => true
  end.

(** ** Order *)

Inductive tor_addr_comparison_t := CMP_EXACT | CMP_SEMANTIC.

#[export] Instance comparison_eq_dec : EqDecision tor_addr_comparison_t.
Proof. solve_decision. Defined.

Definition TRISTATE (a b : Z) : Z := if a <? b then -1 else if a =? b then 0 else 1.

Section Compare.

(** Where the two objects are; only AF_UNIX addresses are compared by it. *)
Variables ptr1 ptr2 : Z.

Definition compare_v4 (a1 a2 mbits : Z) : Z :=
  let mbits := if 32 <? mbits then 32 else mbits in TRISTATE (Z.shiftr a1 (32 - mbits)) (Z.shiftr a2 (32 - mbits)).

Definition compare_v6 (a1 a2 : bytes) (mbits : Z) : cres Z :=
  let mbits := if 128 <? mbits then 128 else mbits in
  let nbytes := Z.shiftr mbits 3 in
  let leftover_bits := Z.land mbits 7 in
  let* r := (if nbytes =? 0 then Ok 0 else tor_memcmp a1 a2 (Z.to_nat nbytes)) in
  if negb (r =? 0) then Ok r
  else if negb (leftover_bits =? 0) then
    let* x1 := aget a1 nbytes in
    let* x2 := aget a2 nbytes in
    Ok (TRISTATE (Z.shiftr x1 (8 - leftover_bits)) (Z.shiftr x2 (8 - leftover_bits)))
  else Ok 0.

Definition tor_addr_compare_masked (addr1 addr2 : tor_addr_t) (mbits : Z) (how : tor_addr_comparison_t) : cres Z :=
  let family1 := family addr1 in
  let family2 := family addr2 in
  if bool_decide (family1 = family2) then
    match family1 with
    | AF_UNSPEC => Ok 0
    | AF_INET => if mbits <=? 0 then Ok 0 else Ok (compare_v4 (tor_addr_to_ipv4h addr1) (tor_addr_to_ipv4h addr2) mbits)
    | AF_INET6 => compare_v6 (ip addr1) (ip addr2) mbits
    | AF_UNIX => Ok (TRISTATE ptr1 ptr2)
    end
  else if bool_decide (how = CMP_EXACT) then Ok (TRISTATE (af_num family1) (af_num family2))
  else if mbits =? 0 then Ok 0
  else
    let v_family1 := if bool_decide (family1 = AF_INET6) && tor_addr_is_v4 addr1 then AF_INET else family1 in
    let v_family2 := if bool_decide (family2 = AF_INET6) && tor_addr_is_v4 addr2 then AF_INET else family2 in
    if bool_decide (v_family1 = v_family2) then
      let a2 := if bool_decide (family2 = AF_INET6) then tor_addr_to_mapped_ipv4h addr2 else tor_addr_to_ipv4h addr2 in
      if bool_decide (family1 = AF_INET6) then
        if mbits <=? 96 then Ok 0 else Ok (compare_v4 (tor_addr_to_mapped_ipv4h addr1) a2 (mbits - 96))
      else Ok (compare_v4 (tor_addr_to_ipv4h addr1) a2 mbits)
    else Ok (TRISTATE (af_num family1) (af_num family2)).

Definition tor_addr_compare (addr1 addr2 : tor_addr_t) (how : tor_addr_comparison_t) : cres Z :=
  tor_addr_compare_masked addr1 addr2 128 how.

Definition tor_addr_eq (addr1 addr2 : tor_addr_t) : cres bool := let* r := tor_addr_compare addr1 addr2 CMP_EXACT in Ok (r =? 0).

Definition tor_addr_port_eq (a b : tor_addr_port_t) : cres bool :=
  let* e := tor_addr_eq (ap_addr a) (ap_addr b) in Ok (e && (ap_port a =? ap_port b)).

End Compare.

(** ** Text *)

Definition tor_addr_to_str (a : tor_addr_t) (len : Z) (decorate : bool) : cres bytes :=
  match family a with
  | AF_INET => if len <? 8 then Err else tor_inet_ntop AF_INET (ip a) len
  | AF_INET6 =>
      if len <? 3 + (if decorate then 2 else 0) then Err
      else if decorate then let* s := tor_inet_ntop AF_INET6 (ip a) (len - 2) in Ok ([91] ++ s ++ [93])
      else tor_inet_ntop AF_INET6 (ip a) len
  | AF_UNIX => Ok (take (Z.to_nat (len - 1)) (s2b "AF_UNIX"))
  | AF_UNSPEC => Err
  end.

Definition fmt_addr_impl (a : tor_addr_t) (decorate : bool) : cres bytes :=
  match tor_addr_to_str a TOR_ADDR_BUF_LEN decorate with Err => Ok (s2b "???") | r => r end.

(** The text that [tor_snprintf] leaves in the buffer, cut off when it is too long. *)
Definition fmt_addrport (a : tor_addr_t) (port : Z) : cres bytes :=
  let* s := fmt_addr_impl a true in Ok (take (Z.to_nat (TOR_ADDRPORT_BUF_LEN - 1)) (s ++ [58] ++ dec port)).

(** The brackets around a text: [src[0] == '[' && src[len-1] == ']']. *)
Definition in_brackets (src : bytes) : bool :=
  negb (zlen src =? 0) && (cur src =? 91) && (cur (drop (length src - 1) src) =? 93).

Definition strip_brackets (src : bytes) : bytes := take (length src - 2) (drop 1 src).

(** [Err] stands for -1, with a cleared address; the family is that of the address. *)
Definition tor_addr_parse_impl (src : bytes) (allow_ipv6_without_brackets : bool) : cres tor_addr_t :=
  let brackets_detected := in_brackets src in
  let src := if brackets_detected then strip_brackets src else src in
  let* r6 := (if brackets_detected || allow_ipv6_without_brackets then tor_inet_pton AF_INET6 src else Ok PtonBad) in
  let* r4 := (if negb brackets_detected then tor_inet_pton AF_INET src else Ok PtonBad) in
  match r4, r6 with
  | PtonOk in_tmp, _ => Ok (tor_addr_from_in in_tmp)
  | _, PtonOk in6_tmp => Ok (tor_addr_from_ipv6_bytes in6_tmp)
  | _, _ => Err
  end.

Definition tor_addr_parse (src : bytes) : cres tor_addr_t := tor_addr_parse_impl src true.

(** *** With a port *)

(** [strrchr]: what is before and what is after the last [c]. *)
Fixpoint split_last (c : Z) (s : bytes) : option (bytes * bytes) :=
  match s with
  | [] => None
  | x :: r => match split_last c r with Some (a, b) => Some (x :: a, b) | None => if x =? c then Some ([], r) else None end
  end.

Definition tor_addr_port_split (addrport : bytes) : cres (bytes * Z) :=
  let whole := match tor_addr_parse addrport with
               | Ok a => if bool_decide (family a = AF_INET6) then Ok true else Ok false
               | Err => Ok false | Bug => Bug | Fuel => Fuel end in
  let* w := whole in
  if w then Ok (addrport, 0)
  else
    match split_last 58 addrport with
    | Some (address_, port) =>
        let port_ := p_val (tor_parse_long port 10 1 65535 false) in
        if port_ =? 0 then Err else Ok (address_, u16 port_)
    | None => Ok (addrport, 0)
    end.

Definition tor_addr_port_parse (addrport : bytes) (default_port : Z) : cres (tor_addr_t * Z) :=
  let* (addr_tmp, port) := tor_addr_port_split addrport in
  let has_port := negb (port =? 0) in
  if negb has_port && (default_port <? 0) then Err
  else
    let port := if has_port then port else u16 default_port in
    let* a := tor_addr_parse_impl addr_tmp (negb has_port) in
    Ok (a, port).

(** *** With a mask and a range of ports *)

Fixpoint mask_bits_loop (fuel : nat) (i mask : Z) : Z :=
  match fuel with
  | O => -1
  | S fuel => if mask =? u32 (Z.lnot (Z.shiftl 1 (32 - i) - 1)) then i else mask_bits_loop fuel (i + 1) mask
  end.

Definition addr_mask_get_bits (mask : Z) : Z :=
  if mask =? 0 then 0 else if mask =? 0xFFFFFFFF then 32 else mask_bits_loop 32 1 mask.

Definition parse_port_range (port : option bytes) : cres (Z * Z) :=
  let* (port_min, port_max) :=
    match port with
    | None => Ok (1, 65535)
    | Some port =>
        if (zlen port =? 0) || (strcmp port (s2b "*") =? 0) then Ok (1, 65535)
        else
          let r := tor_parse_long port 10 0 65535 true in
          if negb (p_ok r) then Err
          else
            let port_min := p_val r in
            let* port_max :=
              match p_next r with
              | Some endptr =>
                  if negb (cur endptr =? 0) then
                    if negb (cur endptr =? 45) then Err
                    else let r2 := tor_parse_long (drop 1 endptr) 10 1 65535 true in if p_ok r2 then Ok (p_val r2) else Err
                  else Ok port_min
              | None => Ok port_min
              end in
            if port_max <? port_min then Err else Ok (port_min, port_max)
    end in
  Ok (u16 (if port_min <? 1 then 1 else port_min), u16 (if 65535 <? port_max then 65535 else port_max)).

Definition TAPMP_EXTENDED_STAR : Z := 1.
Definition TAPMP_STAR_IPV4_ONLY : Z := 2.
Definition TAPMP_STAR_IPV6_ONLY : Z := 4.
Definition MAX_ADDRESS_LENGTH : Z := TOR_ADDR_BUF_LEN + 2 + (1 + INET_NTOA_BUF_LEN) + 12 + 1.

Definition not_char (c x : Z) : bool := negb (x =? c).

(** The three strings that the NULs written into [base] leave behind [address], [mask] and [port]: an address
    in brackets ends at the bracket, and what stands between the bracket and the mask or the port belongs to none. *)
Definition break_pattern (s : bytes) : cres (bytes * option bytes * option bytes) :=
  let* (inside, from) :=
    (if cur s =? 91 then
       let '(a, rbracket) := span (not_char 93) (drop 1 s) in
       match rbracket with [] => Err | _ => Ok (Some a, rbracket) end
     else Ok (None, s)) in
  let '(before_mask, at_mask) := span (not_char 47) from in
  match at_mask with
  | _ :: after_slash =>
      let '(mask, at_port) := span (not_char 58) after_slash in
      Ok (match inside with Some a => a | None => before_mask end, Some mask,
          match at_port with [] => None | _ :: port => Some port end)
  | [] =>
      let '(before_port, at_port) := span (not_char 58) from in
      Ok (match inside with Some a => a | None => before_port end, None,
          match at_port with [] => None | _ :: port => Some port end)
  end.

(** The address and whether it is a wildcard. *)
Definition pattern_address (address : bytes) (flags : Z) : cres (tor_addr_t * bool) :=
  let flag f := negb (Z.land flags f =? 0) in
  if strcmp address (s2b "*") =? 0 then
    Ok (if flag TAPMP_EXTENDED_STAR then
          if flag TAPMP_STAR_IPV4_ONLY then tor_addr_from_ipv4h 0
          else if flag TAPMP_STAR_IPV6_ONLY then tor_addr_from_ipv6_bytes (repeat 0 16)
          else tor_addr_make_unspec
        else tor_addr_from_ipv4h 0, true)
  else if (strcmp address (s2b "*4") =? 0) && flag TAPMP_EXTENDED_STAR then Ok (tor_addr_from_ipv4h 0, true)
  else if (strcmp address (s2b "*6") =? 0) && flag TAPMP_EXTENDED_STAR then Ok (tor_addr_from_ipv6_bytes (repeat 0 16), true)
  else
    let* r6 := tor_inet_pton AF_INET6 address in
    match r6 with
    | PtonOk in6_tmp => Ok (tor_addr_from_ipv6_bytes in6_tmp, false)
    | _ =>
        let* r4 := tor_inet_pton AF_INET address in
        match r4 with PtonOk in_tmp => Ok (tor_addr_from_in in_tmp, false) | _ => Err end
    end.

Definition pattern_mask (a : tor_addr_t) (any_flag : bool) (mask : option bytes) : cres Z :=
  match mask with
  | Some mask =>
      let r := strtol 10 mask in
      let* bits :=
        (if cur (r_end r) =? 0 then
           let bits := s32 (r_val r) in
           if (bits <? 0) || (128 <? bits) || (bool_decide (family a = AF_INET) && (32 <? bits)) then Err else Ok bits
         else
           let* m := tor_inet_pton AF_INET mask in
           match m with
           | PtonOk v4mask => let bits := addr_mask_get_bits (be32 v4mask) in if bits <? 0 then Err else Ok bits
           | _ => Err
           end) in
      let* bits :=
        (if bool_decide (family a = AF_INET6) && tor_addr_is_v4 a then
           if (32 <? bits) && (bits <? 96) then Err else Ok (96 + Z.rem bits 32)
         else Ok bits) in
      if any_flag then Err else Ok (u8 bits)
  | None => Ok (if any_flag then 0 else match family a with AF_INET => 32 | AF_INET6 => 128 | _ => 0 end)
  end.

Record pattern_t := mkpat { pat_addr : tor_addr_t; pat_bits : option Z; pat_ports : option (Z * Z) }.

(** [want_mask], [want_min] and [want_max] say which out parameters are not NULL. *)
Definition tor_addr_parse_mask_ports (s : bytes) (flags : Z) (want_mask want_min want_max : bool) : cres pattern_t :=
  assert! (negb (negb (Z.land flags TAPMP_STAR_IPV4_ONLY =? 0) && negb (Z.land flags TAPMP_STAR_IPV6_ONLY =? 0)));
  if MAX_ADDRESS_LENGTH <? zlen s then Err
  else
    let* (address, mask, port) := break_pattern s in
    let* (a, any_flag) := pattern_address address flags in
    let* bits :=
      (if want_mask then let* b := pattern_mask a any_flag mask in Ok (Some b)
       else match mask with Some _ => Err | None => Ok None end) in
    let* ports :=
      (if want_min then
         let* (lo, hi) := parse_port_range port in
         if negb want_max && negb (lo =? hi) then Err else Ok (Some (lo, hi))
       else match port with Some _ => Err | None => Ok None end) in
    Ok (mkpat a bits ports).

(** ** Reverse lookup names *)

(** The sixteen bytes, the last one first, and the rest of the string. *)
Fixpoint parse_nybbles (n : nat) (cp : bytes) : cres (bytes * bytes) :=
  match n with
  | O => Ok ([], cp)
  | S n =>
      let n0 := hex_decode_digit (cur cp) in
      if negb (cur (drop 1 cp) =? 46) then Err
      else
        let n1 := hex_decode_digit (cur (drop 2 cp)) in
        if negb (cur (drop 3 cp) =? 46) then Err
        else if (n0 <? 0) || (n1 <? 0) then Err
        else
          let* (bs, rest) := parse_nybbles n (drop 4 cp) in
          Ok (u8 (Z.lor n0 (Z.shiftl n1 4)) :: bs, rest)
  end.

(** The results 1, 0 and -1. *)
Inductive ptr_res := PtrAddr (a : tor_addr_t) | PtrNo | PtrBad.

Definition in_addr_arpa : bytes := s2b ".in-addr.arpa".
Definition ip6_arpa : bytes := s2b "ip6.arpa".

Definition tor_addr_parse_PTR_name (address : bytes) (fam : af_t) (accept_regular : bool) : cres ptr_res :=
  if strcasecmpend address in_addr_arpa =? 0 then
    if bool_decide (fam = AF_INET6) then Ok PtrBad
    else
      let len := (length address - length in_addr_arpa)%nat in
      if INET_NTOA_BUF_LEN <=? Z.of_nat len then Ok PtrBad
      else
        match tor_inet_aton (take len address) with
        | Ok in_ => Ok (PtrAddr (tor_addr_from_in (rev in_)))
        | Err => Ok PtrBad
        | Bug => Bug
        | Fuel => Fuel
        end
  else if strcasecmpend address (46 :: ip6_arpa) =? 0 then
    if bool_decide (fam = AF_INET) then Ok PtrBad
    else
      match parse_nybbles 16 address with
      | Ok (bs, cp) => if negb (strcasecmp cp ip6_arpa =? 0) then Ok PtrBad else Ok (PtrAddr (tor_addr_from_ipv6_bytes (rev bs)))
      | Err => Ok PtrBad
      | Bug => Bug
      | Fuel => Fuel
      end
  else if accept_regular then
    match tor_addr_parse address with
    | Ok tmp => if negb (bool_decide (family tmp = fam)) && negb (bool_decide (fam = AF_UNSPEC)) then Ok PtrBad else Ok (PtrAddr tmp)
    | Err => Ok PtrNo
    | Bug => Bug
    | Fuel => Fuel
    end
  else Ok PtrNo.

Definition nybbles (b : Z) : bytes := [hexdigit (Z.land b 15); 46; hexdigit (Z.shiftr b 4); 46].

Definition tor_addr_to_PTR_name (outlen : Z) (a : tor_addr_t) : cres bytes :=
  match family a, ip a with
  | AF_INET, [a0; a1; a2; a3] => tor_snprintf outlen (quad a3 a2 a1 a0 ++ in_addr_arpa)
  | AF_INET, _ => Bug
  | AF_INET6, bs => if outlen <? REVERSE_LOOKUP_NAME_BUF_LEN then Err else Ok (flat_map nybbles (rev bs) ++ ip6_arpa)
  | _, _ => Err
  end.

(** ** Names *)

Definition tor_addr_hostname_is_local (name : bytes) : bool :=
  (strcasecmp name (s2b "localhost") =? 0) || (strcasecmp name (s2b "local") =? 0) || (strcasecmpend name (s2b ".local") =? 0).

Definition string_is_valid_ipv4_address (str : bytes) : cres bool :=
  let* r := tor_inet_pton AF_INET str in Ok match r with PtonOk _ => true | _ => false end.

Definition string_is_valid_ipv6_address (str : bytes) : cres bool :=
  let* r := tor_inet_pton AF_INET6 str in Ok match r with PtonOk _ => true | _ => false end.

Definition hostname_char (c : Z) : bool := TOR_ISALNUM c || (c =? 45) || (c =? 95).

(** The [do] loop looks at the NUL of an empty component. *)
Definition component_ok (c : bytes) : bool :=
  negb ((cur c =? 45) || (cur c =? 95)) && match c with [] => hostname_char 0 | _ => forallb hostname_char c end.

Definition string_is_valid_nonrfc_hostname (str : bytes) : cres bool :=
  if zlen str =? 0 then Ok false
  else
    let* v4 := string_is_valid_ipv4_address str in
    if v4 then Ok false
    else
      let* components := smartlist_split_string str (Some (s2b ".")) 0 0 in
      match components with
      | [] => Ok false
      | _ =>
          let* last_label := aget components (zlen components - 1) in
          let components := if cur last_label =? 0 then removelast components else components in
          Ok (forallb component_ok components)
      end.

Definition string_is_valid_dest (str : bytes) : cres bool :=
  if zlen str =? 0 then Ok false
  else
    let str := if in_brackets str then strip_brackets str else str in
    let* v4 := string_is_valid_ipv4_address str in
    if v4 then Ok true
    else
      let* v6 := string_is_valid_ipv6_address str in
      if v6 then Ok true else string_is_valid_nonrfc_hostname str.

(** ** Well-formed addresses *)

Record addr_ok (a : tor_addr_t) : Prop := mk_addr_ok {
  ao_family : family a = AF_INET \/ family a = AF_INET6;
  ao_len : zlen (ip a) = addr_size (family a);
  ao_bytes : Forall is_byte (ip a)
}.

Lemma addr_ok_cases a :
  addr_ok a ->
  (exists a0 a1 a2 a3, a = mkaddr AF_INET [a0; a1; a2; a3] /\ is_byte a0 /\ is_byte a1 /\ is_byte a2 /\ is_byte a3)
  \/ (family a = AF_INET6 /\ length (ip a) = 16%nat /\ Forall is_byte (ip a)).
Proof.
  intros [[E|E] Hl Hb]; rewrite E in Hl; cbn in Hl; unfold zlen in Hl; [left|right; split; [done|split; [lia|done]]].
  destruct a as [f i]. cbn in *. subst f. destruct i as [|a0 [|a1 [|a2 [|a3 [|]]]]]; cbn in Hl; try lia.
  rewrite !Forall_cons_iff in Hb. exists a0, a1, a2, a3. tauto.
Qed.

(** ** The texts of addresses *)

(** What is needed of the text of an IPv6 address. *)
Record text6 (addr t : bytes) : Prop := mk_text6 {
  t6_pton : pton6 t = Ok addr;
  t6_len : zlen t <= 39;
  t6_bytes : Forall is_byte t /\ no_nul t;
  t6_colon : 58 ∈ t;
  t6_chars : cur t <> 91 /\ 93 ∉ t
}.

(** The characters of a printed address. *)
Definition text_char (c : Z) : Prop := 46 <= c <= 58 \/ 97 <= c <= 102.

Ltac text_chars := cbn; repeat first [apply List.Forall_nil | apply List.Forall_cons; [unfold text_char; lia|]].

Lemma text_char_facts t : Forall text_char t -> (Forall is_byte t /\ no_nul t) /\ (cur t <> 91 /\ 93 ∉ t).
Proof.
  intros H. split; [split|split].
  - eapply Forall_weaken; [exact H|]. intros c Hc. unfold text_char, is_byte in *. lia.
  - eapply Forall_weaken; [exact H|]. intros c Hc. unfold text_char in *. lia.
  - destruct H as [|c t Hc _]; [done|]. cbn. unfold text_char in Hc. lia.
  - intros Hin. rewrite List.Forall_forall in H. apply list_elem_of_In in Hin. specialize (H 93 Hin). unfold text_char in H. lia.
Qed.

Lemma hex_text_chars h w : hextext h w -> Forall text_char h.
Proof. intros [Hc _ _ _]. eapply Forall_weaken; [exact Hc|]. intros c H. destruct (hexchar_range c H) as (Hr & _). unfold text_char. lia. Qed.

Lemma colons_chars ws : Forall wordP ws -> Forall text_char (colons ws).
Proof.
  induction 1 as [|w ws Hw _ IH]; [constructor|]. cbn [colons flat_map]. rewrite !Forall_app. split; [|done].
  split; [by eapply hex_text_chars, uhex_text|]. constructor; [unfold text_char; lia|constructor].
Qed.

Lemma join_chars ws : Forall wordP ws -> Forall text_char (join_words ws).
Proof.
  induction 1 as [|w ws Hw _ IH]; [constructor|]. cbn [join_words]. rewrite Forall_app. split; [by eapply hex_text_chars, uhex_text|].
  destruct ws; [constructor|]. constructor; [unfold text_char; lia|done].
Qed.

Lemma quad_chars a b c d : is_byte a -> is_byte b -> is_byte c -> is_byte d -> Forall text_char (quad a b c d).
Proof.
  assert (H : forall x, is_byte x -> Forall text_char (dec x)).
  { intros x Hx. destruct (octet_facts x Hx) as ((Hd & _) & _). eapply Forall_weaken; [exact Hd|]. intros y Hy. cbn in Hy. unfold text_char. lia. }
  assert (Hdot : Forall text_char [46]) by (constructor; [unfold text_char; lia|constructor]).
  intros Ha Hb Hc Hd. unfold quad. rewrite !Forall_app. by auto 10.
Qed.

Lemma Ok_inj (x y : bytes) : Ok x = Ok y -> x = y.
Proof. by intros [= ->]. Qed.

Lemma ntop6_text6 addr :
  length addr = 16%nat -> Forall is_byte addr -> exists t, text6 addr t /\ forall len, 40 <= len -> tor_inet_ntop AF_INET6 addr len = Ok t.
Proof.
  intros Hl Hb. destruct (ntop6_text addr Hl Hb) as (t & E1 & E2 & E3). exists t. split; [|done].
  assert (Forall text_char t /\ 58 ∈ t) as [Hc Hcol]; [|destruct (text_char_facts t Hc); by split].
  clear E1. specialize (E3 40 ltac:(lia)). revert E3. pose proof (words_of_range addr Hb) as Hw.
  do 16 (destruct addr as [|? addr]; [done|]). destruct addr as [|]; [|done]. unfold ntop6. cbn [words_of] in *.
  do 12 (apply Forall_cons_iff in Hb as [_ Hb]). rewrite !Forall_cons_iff in Hb.
  destruct (_ && _ : bool).
  - unfold copy_out. destruct (_ <? _); [done|]. intros <-%Ok_inj. destruct (_ =? _).
    + split; [|by repeat constructor]. apply Forall_app. split; [text_chars|]. apply quad_chars; tauto.
    + split; [|by repeat constructor]. rewrite !Forall_app. split; [text_chars|].
      split; [rewrite !Forall_cons_iff in Hw; unfold wordP in Hw; eapply hex_text_chars, uhex_text; tauto|]. split; [text_chars|]. apply quad_chars; tauto.
  - unfold copy_out. destruct (_ <? _); [done|]. intros <-%Ok_inj. match goal with |- context [print_loop 8 0 ?l _] => set (ws := l) in * end.
    change (print_loop 8 0 ws (longest_gap ws)) with (general_text ws) in *.
    destruct (general_text_cases ws) as [E|(pre & n & post & E & Hn & Et)]; [done| |].
    + rewrite E. split; [by apply join_chars|]. unfold ws. cbn [join_words]. rewrite !elem_of_app. right. left. by constructor.
    + rewrite Et. rewrite E in Hw. rewrite !Forall_app in Hw. destruct Hw as (Hpre & _ & Hpost). split.
      * rewrite !Forall_app. split; [by apply colons_chars|]. split; [destruct (Nat.eqb _ _); text_chars|].
        split; [text_chars|by apply join_chars].
      * rewrite !elem_of_app. right. right. left. by constructor.
Qed.

(** ** Texts that are not of the other kind *)

Lemma aton_colon s : no_nul s -> 58 ∈ s -> tor_inet_aton s = Err.
Proof.
  intros Hn Hc. unfold tor_inet_aton. destruct (vsscanf_total (S (length QUAD)) s QUAD 0 []) as ([n vals] & E); [lia|].
  change (tor_sscanf s _) with (vsscanf_loop (S (length QUAD)) s QUAD 0 []). rewrite E. cbn [cbind].
  destruct (Z.eq_dec n 4) as [->|Hne]; [by apply quad_scan_no_colon in E|].
  repeat (match goal with |- match ?v with _ => _ end = Err => destruct v end; try done).
Qed.

Lemma words_loop_bracket fuel src eow st : cur src = 91 -> eow < zlen src -> p_i st = 0 -> words_loop (S fuel) src eow st = Err.
Proof.
  intros Hc He Hi. cbn [words_loop]. rewrite (proj2 (Z.ltb_lt _ _)), Hi, Hc by done. change (7 <? 0) with false. change (TOR_ISXDIGIT 91) with false.
  done.
Qed.

(** A text in brackets, or one that starts with a bracket, is no IPv6 address for [tor_inet_pton]. *)
Lemma pton6_bracket s : cur s = 91 -> pton6 s = Err.
Proof.
  intros Hc. assert (Hs : 0 < zlen s) by (destruct s; [done|]; rewrite zlen_cons; pose proof (zlen_nonneg s); lia).
  unfold pton6. destruct (_ && _ && _); [done|]. destruct (span _ s) as [before [|x from_dot]].
  - by rewrite words_loop_bracket by (done || lia).
  - destruct (zlen before =? 0); [done|]. set (rp := back_over_digits (rev before)).
    destruct (Z.eqb_spec (cur rp) 58) as [Hrp|]; [|done]. cbn [negb]. set (q := drop (length rp) s).
    assert (Hq : zlen q < zlen s).
    { unfold q, zlen in *. rewrite length_drop. destruct rp; [done|]. cbn [length]. lia. }
    destruct (vsscanf_total (S (length QUAD)) q QUAD 0 []) as ([n vals] & E); [lia|].
    change (tor_sscanf q _) with (vsscanf_loop (S (length QUAD)) q QUAD 0 []). rewrite E. cbn [cbind].
    repeat (match goal with |- match ?v with _ => _ end = Err => destruct v end; try done).
    match goal with |- context [aset (repeat 63736 8) 6 ?w] => change (aset (repeat 63736 8) 6 w) with (Ok (repeat 63736 6 ++ [w; 63736])); set (w6 := w) end.
    cbn [cbind]. match goal with |- context [aset (repeat 63736 6 ++ [w6; 63736]) 7 ?w] =>
      change (aset (repeat 63736 6 ++ [w6; 63736]) 7 w) with (Ok (repeat 63736 6 ++ [w6; w])) end. cbn [cbind].
    by rewrite words_loop_bracket.
Qed.

Lemma back_over_all ds : ds <> [] -> dec_digits ds -> cur (back_over_digits ds) <> 58.
Proof.
  intros Hne. induction ds as [|c r IH]; [done|]. intros H. apply Forall_cons_iff in H as [Hc Hr]. cbn [back_over_digits].
  destruct r as [|d r]; [cbn in *; lia|]. destruct (TOR_ISDIGIT c); [apply IH; done|cbn in *; lia].
Qed.

(** Neither is a text that starts with a dotted quad. *)
Lemma pton6_quad a rest : is_byte a -> pton6 (dec a ++ 46 :: rest) = Err.
Proof.
  intros Ha. destruct (octet_no_dot a Ha) as [Hd _], (octet_facts a Ha) as ((Hdd & Hne & _) & _).
  unfold pton6. destruct (_ && _ && _); [done|]. rewrite (span_stop (fun c => negb (c =? 46)) (dec a) 46 rest) by done.
  destruct (zlen (dec a) =? 0); [done|]. assert (Hb : cur (back_over_digits (rev (dec a))) <> 58).
  { apply back_over_all; [intros E; apply (f_equal (@rev Z)) in E; by rewrite rev_involutive in E|]. unfold dec_digits in *. by apply Forall_rev. }
  by rewrite (proj2 (Z.eqb_neq _ _) Hb).
Qed.

Lemma pton_v6 s t : pton6 s = Ok t -> tor_inet_pton AF_INET6 s = Ok (PtonOk t).
Proof. cbn. by intros ->. Qed.
Lemma pton_v6_bad s : pton6 s = Err -> tor_inet_pton AF_INET6 s = Ok PtonBad.
Proof. cbn. by intros ->. Qed.
Lemma pton_v4_bad s : tor_inet_aton s = Err -> tor_inet_pton AF_INET s = Ok PtonBad.
Proof. cbn. by intros ->. Qed.

(** ** Brackets *)

Lemma bracketed t : in_brackets ([91] ++ t ++ [93]) = true /\ strip_brackets ([91] ++ t ++ [93]) = t.
Proof.
  unfold in_brackets, strip_brackets. assert (E : length ([91] ++ t ++ [93]) = (length t + 2)%nat) by (rewrite !length_app; cbn; lia).
  rewrite E. split.
  - rewrite (proj2 (Z.eqb_neq _ 0)) by (unfold zlen; lia). cbn [cur hd app]. replace (length t + 2 - 1)%nat with (length (91 :: t)) by (cbn; lia).
    change (91 :: t ++ [93]) with ((91 :: t) ++ [93]). by rewrite drop_app_length.
  - replace (length t + 2 - 2)%nat with (length t) by lia. cbn [app drop]. by rewrite drop_0, take_app_length.
Qed.

Lemma not_bracketed s : cur s <> 91 -> in_brackets s = false.
Proof. intros H. unfold in_brackets. rewrite (proj2 (Z.eqb_neq (cur s) 91)) by done. by rewrite andb_false_r. Qed.

Lemma quad_cur a b c d : is_byte a -> cur (quad a b c d) <> 91.
Proof.
  intros Ha. destruct (octet_facts a Ha) as ((Hd & Hne & _) & _). unfold quad. destruct (dec a) as [|x r]; [done|].
  apply Forall_cons_iff in Hd as [Hx _]. cbn. lia.
Qed.

Section Parse.

Variables a b c d : Z.
Hypothesis Ha : is_byte a.
Hypothesis Hb : is_byte b.
Hypothesis Hc : is_byte c.
Hypothesis Hd : is_byte d.

Lemma parse_quad allow : tor_addr_parse_impl (quad a b c d) allow = Ok (mkaddr AF_INET [a; b; c; d]).
Proof.
  unfold tor_addr_parse_impl. rewrite not_bracketed by (by apply quad_cur). cbn [orb negb].
  assert (E6 : tor_inet_pton AF_INET6 (quad a b c d) = Ok PtonBad) by (apply pton_v6_bad, (pton6_quad a); done).
  assert (E4 : tor_inet_pton AF_INET (quad a b c d) = Ok (PtonOk [a; b; c; d])) by (cbn; by rewrite aton_quad).
  rewrite E4. destruct allow; [rewrite E6|]; done.
Qed.

End Parse.

Lemma parse_text6 addr t : text6 addr t -> tor_addr_parse_impl t true = Ok (mkaddr AF_INET6 addr).
Proof.
  intros [E _ [Hb Hn] Hcol [Hcur _]]. unfold tor_addr_parse_impl. rewrite not_bracketed by done. cbn [orb negb].
  rewrite (pton_v6 t addr E), pton_v4_bad by (by apply aton_colon). done.
Qed.

Lemma parse_bracketed addr t allow : text6 addr t -> tor_addr_parse_impl ([91] ++ t ++ [93]) allow = Ok (mkaddr AF_INET6 addr).
Proof.
  intros [E _ _ _ _]. unfold tor_addr_parse_impl. destruct (bracketed t) as [-> ->]. cbn [orb negb]. by rewrite (pton_v6 t addr E).
Qed.

(** The text of an address, and that every way to parse it that accepts it gives the address back. *)
Lemma addr_text a len decorate :
  addr_ok a -> TOR_ADDR_BUF_LEN <= len <= SIZE_T_CEILING ->
  exists s, tor_addr_to_str a len decorate = Ok s /\ tor_addr_parse_impl s true = Ok a
    /\ (decorate = true -> tor_addr_parse_impl s false = Ok a).
Proof.
  unfold TOR_ADDR_BUF_LEN. intros Ha Hl. destruct (addr_ok_cases a Ha) as [(a0 & a1 & a2 & a3 & -> & H0 & H1 & H2 & H3)|(Ef & Hlen & Hb)].
  - exists (quad a0 a1 a2 a3). unfold tor_addr_to_str. cbn [family ip]. rewrite (proj2 (Z.ltb_ge len 8)) by lia. rewrite !parse_quad by done.
    split; [|done]. cbn [tor_inet_ntop tor_inet_ntoa]. pose proof (quad_len a0 a1 a2 a3 H0 H1 H2 H3). by apply snprintf_fits; lia.
  - destruct a as [f i]. cbn in *. subst f. destruct (ntop6_text6 i Hlen Hb) as (t & Ht & Hprint). unfold tor_addr_to_str. cbn [family ip].
    rewrite (proj2 (Z.ltb_ge len _)) by (destruct decorate; lia). destruct decorate.
    + exists ([91] ++ t ++ [93]). rewrite Hprint by lia. cbn [cbind]. by rewrite !(parse_bracketed i).
    + exists t. rewrite Hprint by lia. by rewrite (parse_text6 i).
Qed.

(** An address printed by [tor_addr_to_str], with or without brackets, is read back by [tor_addr_parse] as the
    same address: no text of one family is taken for the other. *)
Theorem addr_str_roundtrip a len decorate :
  addr_ok a -> TOR_ADDR_BUF_LEN <= len <= SIZE_T_CEILING ->
  exists s, tor_addr_to_str a len decorate = Ok s /\ tor_addr_parse s = Ok a.
Proof. intros Ha Hl. destruct (addr_text a len decorate Ha Hl) as (s & H1 & H2 & _). by exists s. Qed.

(** ** With a port *)

Lemma split_last_app c p q : c ∉ q -> split_last c (p ++ c :: q) = Some (p, q).
Proof.
  intros Hq. assert (E : split_last c q = None).
  { induction q as [|x q IH]; [done|]. apply not_elem_of_cons in Hq as [Hx Hq]. cbn. rewrite (IH Hq). by rewrite (proj2 (Z.eqb_neq x c)). }
  induction p as [|x p IH]; cbn [app split_last]; [by rewrite E, Z.eqb_refl|by rewrite IH].
Qed.

Lemma udec_aux_len fuel : forall n k acc, 0 <= n < 10 ^ k -> 1 <= k -> zlen (udec_aux fuel n acc) <= k + zlen acc.
Proof.
  induction fuel as [|f IH]; intros n k acc Hn Hk; cbn [udec_aux]; [lia|]. zcase; [rewrite zlen_cons; lia|].
  assert (Hk1 : 1 <= k - 1) by (destruct (Z.eq_dec k 1) as [->|]; [cbn in Hn; lia|lia]).
  specialize (IH (n / 10) (k - 1) ((48 + n mod 10) :: acc)). rewrite zlen_cons in IH.
  replace k with ((k - 1) + 1) in Hn by lia. rewrite Z.pow_add_r in Hn by lia.
  assert (0 <= n / 10 < 10 ^ (k - 1)) by (split; [apply Z.div_pos; lia|apply Z.div_lt_upper_bound; lia]). lia.
Qed.

Lemma port_text port : 0 <= port <= 65535 -> dec_digits (dec port) /\ dec port <> [] /\ zlen (dec port) <= 5.
Proof.
  intros Hp. unfold dec. rewrite (proj2 (Z.ltb_ge _ _)) by lia. destruct (udec_spec port) as (H1 & H2 & _); [lia|].
  split; [done|]. split; [done|]. unfold udec. pose proof (udec_aux_len (S (Z.to_nat (Z.log2 port))) port 5 []) as H. change (zlen (@nil Z)) with 0 in H. lia.
Qed.

Lemma digits_text ds : dec_digits ds -> Forall text_char ds /\ 58 ∉ ds.
Proof.
  intros H. split; [eapply Forall_weaken; [exact H|]; intros c Hc; cbn in Hc; unfold text_char; lia|].
  intros Hin. unfold dec_digits in H. rewrite List.Forall_forall in H. apply list_elem_of_In in Hin. specialize (H 58 Hin). lia.
Qed.

Lemma parse_port port : 1 <= port <= 65535 -> p_val (tor_parse_long (dec port) 10 1 65535 false) = port.
Proof.
  intros Hp. destruct (udec_spec port) as (Hne & Hd & Hv); [lia|]. unfold tor_parse_long, dec. rewrite (proj2 (Z.ltb_ge port 0)) by lia.
  rewrite <- (app_nil_r (udec port)). cbn [Z.ltb Z.compare]. rewrite strtol_udec by (done || (unfold LONG_MAX; lia)).
  unfold CHECK_STRTOX_RESULT. cbn [r_erange r_conv r_end r_val negb cur hd andb Z.eqb]. change (65535 <? 1) with false. cbv iota.
  assert ((port <? 1) || (65535 <? port) = false) as -> by blia. done.
Qed.

(** The text of an address and a port is not the text of an address. *)
Lemma addrport_no_addr a s ds :
  addr_ok a -> dec_digits ds -> ds <> [] -> tor_addr_to_str a TOR_ADDR_BUF_LEN true = Ok s -> tor_addr_parse (s ++ 58 :: ds) = Err /\ zlen s <= 41.
Proof.
  intros Ha Hds Hne Hs. destruct (digits_text ds Hds) as [Hdc Hdn]. unfold tor_addr_parse, tor_addr_parse_impl.
  destruct (addr_ok_cases a Ha) as [(a0 & a1 & a2 & a3 & -> & H0 & H1 & H2 & H3)|(Ef & Hlen & Hb)].
  - unfold tor_addr_to_str in Hs. cbn [family ip] in Hs. change (TOR_ADDR_BUF_LEN <? 8) with false in Hs. cbv iota in Hs. cbn [tor_inet_ntop tor_inet_ntoa] in Hs.
    pose proof (quad_len a0 a1 a2 a3 H0 H1 H2 H3). rewrite snprintf_fits in Hs by (unfold TOR_ADDR_BUF_LEN, SIZE_T_CEILING; lia).
    apply Ok_inj in Hs as <-. split; [|lia].
    assert (Hq : Forall text_char (quad a0 a1 a2 a3 ++ 58 :: ds)).
    { apply Forall_app. split; [by apply quad_chars|]. constructor; [unfold text_char; lia|done]. }
    destruct (text_char_facts _ Hq) as [[_ Hnul] [Hcur _]]. rewrite not_bracketed by done. cbn [orb negb].
    rewrite pton_v6_bad by (unfold quad; rewrite <- app_assoc; by apply pton6_quad).
    rewrite pton_v4_bad; [done|]. apply aton_colon; [done|]. apply elem_of_app. right. by constructor.
  - destruct a as [f i]. cbn in Ef, Hlen, Hb. subst f. destruct (ntop6_text6 i Hlen Hb) as (t & Ht & Hprint). unfold tor_addr_to_str in Hs. cbn [family ip] in Hs.
    change (TOR_ADDR_BUF_LEN <? 3 + 2) with false in Hs. cbv iota in Hs. rewrite Hprint in Hs by (unfold TOR_ADDR_BUF_LEN; lia). cbn [cbind] in Hs. apply Ok_inj in Hs as <-.
    split; [|rewrite !zlen_app; change (zlen [91]) with 1; change (zlen [93]) with 1; pose proof (t6_len _ _ Ht); lia].
    assert (Hnb : in_brackets (([91] ++ t ++ [93]) ++ 58 :: ds) = false).
    { unfold in_brackets. destruct ds as [|d ds _] using rev_ind; [done|]. apply Forall_app in Hds as [_ Hd]. apply Forall_cons_iff in Hd as [Hd _].
      set (p := ([91] ++ t ++ [93]) ++ 58 :: ds). replace (([91] ++ t ++ [93]) ++ 58 :: ds ++ [d]) with (p ++ [d]) by (unfold p; lassoc).
      rewrite length_app. cbn [length]. rewrite Nat.add_sub, drop_app_length. cbn [cur hd]. rewrite (proj2 (Z.eqb_neq d 93)) by lia. by rewrite andb_false_r. }
    rewrite Hnb. cbn [orb negb]. rewrite pton_v6_bad by (by apply pton6_bracket). rewrite pton_v4_bad; [done|].
    apply aton_colon; [|apply elem_of_app; right; by constructor]. unfold no_nul. rewrite !Forall_app. split; [split; [by repeat constructor|split; [apply (t6_bytes _ _ Ht)|by repeat constructor]]|].
    constructor; [done|]. by destruct (text_char_facts ds Hdc) as [[_ ?] _].
Qed.

(** An address and a port printed by [fmt_addrport] are read back by [tor_addr_port_parse]. *)
Theorem addrport_roundtrip a port :
  addr_ok a -> 1 <= port <= 65535 -> exists s, fmt_addrport a port = Ok s /\ tor_addr_port_parse s (-1) = Ok (a, port).
Proof.
  intros Ha Hp. destruct (addr_text a TOR_ADDR_BUF_LEN true Ha) as (s & E & _ & Es); [unfold TOR_ADDR_BUF_LEN, SIZE_T_CEILING; lia|]. specialize (Es eq_refl).
  destruct (port_text port) as (Hd & Hne & Hl); [lia|]. destruct (addrport_no_addr a s (dec port) Ha Hd Hne E) as [En Hs].
  exists (s ++ 58 :: dec port). unfold fmt_addrport, fmt_addr_impl. rewrite E. cbn [cbind]. split.
  - rewrite take_ge; [done|]. unfold TOR_ADDRPORT_BUF_LEN, TOR_ADDR_BUF_LEN, zlen in *. rewrite length_app. cbn [length app]. lia.
  - unfold tor_addr_port_parse, tor_addr_port_split. rewrite En. cbn [cbind]. rewrite split_last_app by (by destruct (digits_text _ Hd)).
    rewrite parse_port by done. rewrite (proj2 (Z.eqb_neq port 0)) by lia. cbn [cbind]. unfold u16. rewrite Z.mod_small by lia.
    rewrite (proj2 (Z.eqb_neq port 0)) by lia. cbn [negb andb]. by rewrite Es.
Qed.

(** ** The order of addresses *)

(** The number that a string of bytes spells in network order. *)
Definition be (p : bytes) : Z := fold_left (fun v b => v * 256 + b) p 0.

Lemma be_acc p : forall v, fold_left (fun v b => v * 256 + b) p v = v * 256 ^ zlen p + be p.
Proof.
  unfold be. induction p as [|x p IH]; intros v; [cbn [fold_left]; change (zlen (@nil Z)) with 0; lia|]. cbn [fold_left]. rewrite IH, (IH (0 * 256 + x)), zlen_cons, Z.pow_add_r by (apply zlen_nonneg || lia). lia.
Qed.

Lemma be_app p q : be (p ++ q) = be p * 256 ^ zlen q + be q.
Proof. unfold be at 1. rewrite fold_left_app. apply be_acc. Qed.

Lemma be_cons x q : be (x :: q) = x * 256 ^ zlen q + be q.
Proof. change (x :: q) with ([x] ++ q). rewrite be_app. unfold be at 1. cbn. lia. Qed.

Lemma be_bound p : Forall is_byte p -> 0 <= be p < 256 ^ zlen p.
Proof.
  induction 1 as [|x p Hx _ IH]; [done|]. rewrite be_cons, zlen_cons, Z.pow_add_r by (apply zlen_nonneg || lia). unfold is_byte in Hx.
  assert (0 < 256 ^ zlen p) by lia. nia.
Qed.

Lemma be_inj p q : length p = length q -> Forall is_byte p -> Forall is_byte q -> be p = be q -> p = q.
Proof.
  revert q. induction p as [|x p IH]; intros [|y q] Hl Hp Hq E; try done. apply Forall_cons_iff in Hp as [Hx Hp]. apply Forall_cons_iff in Hq as [Hy Hq].
  rewrite !be_cons in E. injection Hl as Hl. assert (Ez : zlen p = zlen q) by (unfold zlen; lia). pose proof (be_bound p Hp) as B1. pose proof (be_bound q Hq) as B2. rewrite Ez in *.
  assert (x = y) as -> by nia. f_equal. apply IH; [done|done|done|lia].
Qed.

Lemma memcmp_be p : forall q, length p = length q -> Forall is_byte p -> Forall is_byte q -> Z.sgn (memcmp p q) = Z.sgn (be p - be q).
Proof.
  induction p as [|x p IH]; intros [|y q] Hl Hp Hq; try done. apply Forall_cons_iff in Hp as [Hx Hp]. apply Forall_cons_iff in Hq as [Hy Hq].
  injection Hl as Hl. rewrite !be_cons. assert (Ez : zlen p = zlen q) by (unfold zlen; lia). pose proof (be_bound p Hp) as B1. pose proof (be_bound q Hq) as B2. rewrite Ez in *.
  cbn [memcmp]. destruct (Z.eqb_spec x y) as [->|Hne].
  - rewrite IH by done. f_equal. lia.
  - destruct (Z.lt_ge_cases x y); [rewrite !Z.sgn_neg by nia; done|rewrite !Z.sgn_pos by nia; done].
Qed.

Lemma tristate_sgn a b : Z.sgn (TRISTATE a b) = Z.sgn (a - b).
Proof.
  unfold TRISTATE. destruct (Z.ltb_spec a b); [by rewrite (Z.sgn_neg (a - b)) by lia|]. destruct (Z.eqb_spec a b) as [->|]; [by rewrite Z.sub_diag|].
  by rewrite (Z.sgn_pos (a - b)) by lia.
Qed.

(** The first [m] bits of an address, as a number; all of them when there are fewer. *)
Definition prefix_bits (a : tor_addr_t) (m : Z) : Z := let w := 8 * zlen (ip a) in Z.shiftr (be (ip a)) (w - Z.min m w).

(** The first [8 * n + l] bits of a string of bytes. *)
Lemma be_prefix pre x rest l :
  Forall is_byte rest -> is_byte x -> 0 <= l < 8 ->
  Z.shiftr (be (pre ++ x :: rest)) (8 * zlen (pre ++ x :: rest) - (8 * zlen pre + l)) = be pre * 2 ^ l + Z.shiftr x (8 - l).
Proof.
  intros Hr Hx Hl. pose proof (be_bound rest Hr) as Hb. pose proof (zlen_nonneg rest). unfold is_byte in Hx.
  rewrite be_app, be_cons, zlen_app, zlen_cons. replace (8 * (zlen pre + (zlen rest + 1)) - (8 * zlen pre + l)) with (8 * zlen rest + (8 - l)) by lia.
  rewrite !Z.shiftr_div_pow2 by lia. rewrite (Z.pow_add_r 2 (8 * zlen rest)) by lia. replace (2 ^ (8 * zlen rest)) with (256 ^ zlen rest) by (rewrite Z.pow_mul_r by lia; done).
  set (K := 256 ^ zlen rest) in *. rewrite <- Z.div_div by lia. rewrite (Z.pow_add_r 256 (zlen rest)) by lia. fold K.
  replace ((be pre * (K * 256 ^ 1) + (x * K + be rest)) / K) with (be pre * 256 + x) by (apply Z.div_unique with (be rest); lia).
  replace 256 with (2 ^ l * 2 ^ (8 - l)) by (rewrite <- Z.pow_add_r by lia; replace (l + (8 - l)) with 8 by lia; done).
  rewrite Z.mul_assoc, Z.div_add_l by (apply Z.pow_nonzero; lia). done.
Qed.

Lemma sgn_lex a b x y k : 0 <= x < k -> 0 <= y < k -> Z.sgn (a * k + x - (b * k + y)) = if Z.sgn (a - b) =? 0 then Z.sgn (x - y) else Z.sgn (a - b).
Proof.
  intros Hx Hy. destruct (Z.lt_trichotomy a b) as [H|[->|H]].
  - rewrite (Z.sgn_neg (a - b)) by lia. cbn. apply Z.sgn_neg. nia.
  - rewrite Z.sub_diag. cbn. f_equal. lia.
  - rewrite (Z.sgn_pos (a - b)) by lia. cbn. apply Z.sgn_pos. nia.
Qed.

Lemma compare_v6_ok x y m :
  length x = 16%nat -> length y = 16%nat -> Forall is_byte x -> Forall is_byte y -> 0 <= m ->
  exists r, compare_v6 x y m = Ok r /\ Z.sgn r = Z.sgn (Z.shiftr (be x) (128 - Z.min m 128) - Z.shiftr (be y) (128 - Z.min m 128)).
Proof.
  intros Lx Ly Bx By Hm. unfold compare_v6. set (mb := if 128 <? m then 128 else m).
  assert (Emb : mb = Z.min m 128) by (unfold mb; zcase; lia). rewrite <- Emb. assert (Hmb : 0 <= mb <= 128) by lia. clearbody mb. clear Emb Hm m.
  change 7 with (Z.ones 3). rewrite Z.shiftr_div_pow2, Z.land_ones by lia. change (2 ^ 3) with 8.
  pose proof (Z.div_mod mb 8 ltac:(lia)) as Edm. pose proof (Z.mod_pos_bound mb 8 ltac:(lia)) as Hl. set (n := mb / 8) in *. set (l := mb mod 8) in *.
  assert (Hmem : (if n =? 0 then Ok 0 else tor_memcmp x y (Z.to_nat n)) = Ok (memcmp (take (Z.to_nat n) x) (take (Z.to_nat n) y))).
  { destruct (Z.eqb_spec n 0) as [->|]; [done|]. apply tor_memcmp_correct; [lia|lia|done|done]. }
  rewrite Hmem. cbn [cbind]. pose proof (memcmp_be (take (Z.to_nat n) x) (take (Z.to_nat n) y)) as Hsg.
  rewrite !length_take in Hsg. specialize (Hsg ltac:(lia) ltac:(by apply Forall_take) ltac:(by apply Forall_take)).
  set (r := memcmp _ _) in *. destruct (Z.eq_dec n 16) as [E16|N16].
  - assert (l = 0) by lia. replace (128 - mb) with 0 by lia. rewrite !Z.shiftr_0_r. rewrite !take_ge in Hsg by lia.
    destruct (Z.eqb_spec r 0) as [->|]; cbn [negb]; [rewrite (proj2 (Z.eqb_eq l 0)) by done; exists 0|exists r]; by split.
  - destruct (lookup_lt_is_Some_2 x (Z.to_nat n)) as [a Ea]; [lia|]. destruct (lookup_lt_is_Some_2 y (Z.to_nat n)) as [b Eb]; [lia|].
    pose proof (take_drop_middle x _ _ Ea) as Dx. pose proof (take_drop_middle y _ _ Eb) as Dy.
    assert (Ba : is_byte a) by (apply (Forall_lookup_1 _ x (Z.to_nat n)); done). assert (Bb : is_byte b) by (apply (Forall_lookup_1 _ y (Z.to_nat n)); done).
    assert (Hp : forall z c, length z = 16%nat -> Forall is_byte z -> is_byte c -> take (Z.to_nat n) z ++ c :: drop (S (Z.to_nat n)) z = z ->
      Z.shiftr (be z) (128 - mb) = be (take (Z.to_nat n) z) * 2 ^ l + Z.shiftr c (8 - l)).
    { intros z c Lz Bz Bc Dz. rewrite <- be_prefix with (rest := drop (S (Z.to_nat n)) z); [|by apply Forall_drop|done|done]. rewrite Dz.
      assert (zlen z = 16) by (unfold zlen; lia). assert (zlen (take (Z.to_nat n) z) = n) by (unfold zlen; rewrite length_take; lia). f_equal. lia. }
    rewrite (Hp x a), (Hp y b) by done. assert (Hsh : forall c, is_byte c -> 0 <= Z.shiftr c (8 - l) < 2 ^ l).
    { intros c Hc. unfold is_byte in Hc. rewrite Z.shiftr_div_pow2 by lia. split; [apply Z.div_pos; [lia|apply Z.pow_pos_nonneg; lia]|].
      apply Z.div_lt_upper_bound; [apply Z.pow_pos_nonneg; lia|]. rewrite <- Z.pow_add_r by lia. replace (8 - l + l) with 8 by lia. lia. }
    rewrite sgn_lex by auto. rewrite <- Hsg. destruct (Z.eqb_spec r 0) as [->|Hr]; cbn [negb].
    + cbn [Z.sgn Z.eqb]. destruct (Z.eqb_spec l 0) as [El|]; cbn [negb].
      * exists 0. split; [done|]. pose proof (Hsh a Ba) as S1. pose proof (Hsh b Bb) as S2. rewrite El in *. change (2 ^ 0) with 1 in *. f_equal. lia.
      * assert (Ga : aget x n = Ok a) by (apply aget_Ok; split; [lia|done]). assert (Gb : aget y n = Ok b) by (apply aget_Ok; split; [lia|done]).
        rewrite Ga, Gb. cbn [cbind]. eexists. split; [done|]. apply tristate_sgn.
    + exists r. split; [done|]. rewrite (proj2 (Z.eqb_neq _ 0)); [done|]. lia.
Qed.

Lemma compare_v4_ok a b m :
  addr_ok a -> addr_ok b -> family a = AF_INET -> family b = AF_INET -> 0 <= m ->
  Z.sgn (if m <=? 0 then 0 else compare_v4 (tor_addr_to_ipv4h a) (tor_addr_to_ipv4h b) m) = Z.sgn (prefix_bits a m - prefix_bits b m).
Proof.
  intros [_ La Ba] [_ Lb Bb] Ea Eb Hm. unfold tor_addr_to_ipv4h, prefix_bits. rewrite Ea in *. rewrite Eb in *. cbn [addr_size] in *. rewrite La, Lb.
  assert (Hbe : forall x : bytes, zlen x = 4 -> be32 x = be x) by (intros x Hx; unfold be32, be; rewrite take_ge by (unfold zlen in Hx; lia); done).
  rewrite !Hbe by done. change (8 * 4) with 32. destruct (Z.leb_spec m 0).
  - replace (32 - Z.min m 32) with 32 by lia. pose proof (be_bound _ Ba). pose proof (be_bound _ Bb). rewrite La, Lb in *.
    rewrite !Z.shiftr_div_pow2, !Z.div_small by lia. done.
  - unfold compare_v4. replace (if 32 <? m then 32 else m) with (Z.min m 32) by (zcase; lia). apply tristate_sgn.
Qed.

(** [tor_addr_compare_masked] on addresses of one family compares their first [mbits] bits as numbers, and an exact comparison
    of different families compares the families; an exact comparison of all the bits is zero on equal addresses only. *)
Theorem compare_masked_correct p1 p2 a b m how :
  addr_ok a -> addr_ok b -> 0 <= m <= 255 ->
  exists r, tor_addr_compare_masked p1 p2 a b m how = Ok r
    /\ (family a = family b -> Z.sgn r = Z.sgn (prefix_bits a m - prefix_bits b m))
    /\ (family a <> family b -> how = CMP_EXACT -> Z.sgn r = Z.sgn (af_num (family a) - af_num (family b)))
    /\ (how = CMP_EXACT -> 128 <= m -> (r = 0 <-> a = b)).
Proof.
  intros Ha Hb Hm. destruct (decide (family a = family b)) as [E|N].
  - assert (exists r, tor_addr_compare_masked p1 p2 a b m how = Ok r /\ Z.sgn r = Z.sgn (prefix_bits a m - prefix_bits b m)) as (r & Er & Hr).
    { unfold tor_addr_compare_masked. rewrite bool_decide_true by done. destruct (ao_family _ Ha) as [Ea|Ea]; rewrite Ea.
      - exists (if m <=? 0 then 0 else compare_v4 (tor_addr_to_ipv4h a) (tor_addr_to_ipv4h b) m). split; [by destruct (m <=? 0)|].
        by rewrite (compare_v4_ok a b m) by (done || congruence || lia).
      - destruct Ha as [_ La Ba], Hb as [_ Lb Bb]. rewrite <- E in Lb. rewrite Ea in La, Lb. cbn in La, Lb.
        destruct (compare_v6_ok (ip a) (ip b) m) as (r & Er & Hr); [unfold zlen in *; lia|unfold zlen in *; lia|done|done|lia|].
        exists r. split; [done|]. unfold prefix_bits. by rewrite La, Lb. }
    exists r. split; [done|]. split; [done|]. split; [done|]. intros _ H128. split.
    + intros ->. destruct a as [fa ia], b as [fb ib]. destruct Ha as [Fa La Ba], Hb as [_ Lb Bb]. cbn in *. subst fb. f_equal.
      unfold prefix_bits in Hr. cbn [ip] in Hr. assert (Hw : 8 * zlen ia <= 128) by (rewrite La; destruct Fa as [->| ->]; cbn; lia).
      rewrite Lb, <- La, Z.min_r, Z.sub_diag, !Z.shiftr_0_r in Hr by lia. symmetry in Hr. apply Z.sgn_null_iff in Hr.
      apply be_inj; [unfold zlen in *; lia|done|done|lia].
    + intros ->. rewrite Z.sub_diag in Hr. change (Z.sgn 0) with 0 in Hr. by apply Z.sgn_null_iff.
  - assert (Hne : a <> b) by congruence. unfold tor_addr_compare_masked. rewrite bool_decide_false by done. destruct how.
    + rewrite bool_decide_true by done. eexists. split; [done|]. split; [done|]. split; [intros _ _; apply tristate_sgn|]. intros _ _. split; [|done].
      intros Ht. pose proof (tristate_sgn (af_num (family a)) (af_num (family b))) as Hs. rewrite Ht in Hs. symmetry in Hs. apply Z.sgn_null_iff in Hs.
      exfalso. apply N. destruct (family a), (family b); done.
    + cbn [bool_decide decide]. repeat case_match; (eexists; split; [done|]; split; [done|]; split; done).
Qed.

Lemma compare_masked_correct_witness :
  exists r, tor_addr_compare_masked 0 0 (mkaddr AF_INET [10; 1; 2; 3]) (mkaddr AF_INET [10; 1; 77; 1]) 16 CMP_SEMANTIC = Ok r
    /\ (AF_INET = AF_INET -> Z.sgn r = Z.sgn (prefix_bits (mkaddr AF_INET [10; 1; 2; 3]) 16 - prefix_bits (mkaddr AF_INET [10; 1; 77; 1]) 16))
    /\ (AF_INET <> AF_INET -> CMP_SEMANTIC = CMP_EXACT -> Z.sgn r = Z.sgn (af_num AF_INET - af_num AF_INET))
    /\ (CMP_SEMANTIC = CMP_EXACT -> 128 <= 16 -> (r = 0 <-> mkaddr AF_INET [10; 1; 2; 3] = mkaddr AF_INET [10; 1; 77; 1])).
Proof.
  apply (compare_masked_correct 0 0 (mkaddr AF_INET [10; 1; 2; 3]) (mkaddr AF_INET [10; 1; 77; 1]) 16 CMP_SEMANTIC); [| |lia];
    (split; [by left|done|repeat constructor; unfold is_byte; lia]).
Defined.

(** The semantic comparison is not an order: an IPv4 address, an IPv6 address and an IPv4-mapped one can each precede the next. *)
Theorem semantic_order_cycle :
  exists a b c ra rb rc, addr_ok a /\ addr_ok b /\ addr_ok c
    /\ (forall p q, tor_addr_compare p q a b CMP_SEMANTIC = Ok ra /\ tor_addr_compare p q b c CMP_SEMANTIC = Ok rb /\ tor_addr_compare p q c a CMP_SEMANTIC = Ok rc)
    /\ ra < 0 /\ rb < 0 /\ rc < 0.
Proof.
  exists (mkaddr AF_INET6 [0; 0; 0; 0; 0; 0; 0; 0; 0; 0; 255; 255; 1; 0; 0; 0]), (mkaddr AF_INET [5; 0; 0; 0]),
    (mkaddr AF_INET6 [0; 0; 0; 0; 0; 0; 0; 0; 0; 0; 0; 0; 0; 0; 0; 1]), (-1), (-1), (-255).
  split; [split; [by right|done|repeat constructor; unfold is_byte; lia]|].
  split; [split; [by left|done|repeat constructor; unfold is_byte; lia]|].
  split; [split; [by right|done|repeat constructor; unfold is_byte; lia]|].
  split; [|lia]. intros p q. by repeat split; vm_compute.
Qed.

(** 239.0.0.1 is a multicast address that [tor_addr_is_multicast] does not recognise. *)
Lemma multicast_only_224 : tor_addr_is_multicast (mkaddr AF_INET [239; 0; 0; 1]) = false.
Proof. reflexivity. Qed.

(** Patterns that the grammar of [tor_addr_parse_mask_ports] does not have and that are accepted: an empty mask, a mask
    of more than 32 bits, text behind the bracket and behind the range of ports; a range that holds no port; and the mask /128
    of a mapped address, which becomes /96. *)
Lemma pattern_laxities :
  let parse s := tor_addr_parse_mask_ports s 0 true true true in
  parse (s2b "1.2.3.4/") = Ok (mkpat (mkaddr AF_INET [1; 2; 3; 4]) (Some 0) (Some (1, 65535)))
  /\ parse (s2b "1.2.3.4/4294967304") = Ok (mkpat (mkaddr AF_INET [1; 2; 3; 4]) (Some 8) (Some (1, 65535)))
  /\ parse (s2b "[::1]junk:80") = Ok (mkpat (mkaddr AF_INET6 [0; 0; 0; 0; 0; 0; 0; 0; 0; 0; 0; 0; 0; 0; 0; 1]) (Some 128) (Some (80, 80)))
  /\ parse (s2b "*:80-90junk") = Ok (mkpat (mkaddr AF_INET [0; 0; 0; 0]) (Some 0) (Some (80, 90)))
  /\ parse (s2b "1.2.3.4:0") = Ok (mkpat (mkaddr AF_INET [1; 2; 3; 4]) (Some 32) (Some (1, 0)))
  /\ parse (s2b "[::ffff:1.2.3.4]/128") = Ok (mkpat (mkaddr AF_INET6 [0; 0; 0; 0; 0; 0; 0; 0; 0; 0; 255; 255; 1; 2; 3; 4]) (Some 96) (Some (1, 65535))).
Proof. vm_compute. done. Qed.

(** ** Reverse lookup names *)

Lemma end_suffix x suf : strncasecmp suf suf (length suf) = 0 -> strcasecmpend (x ++ suf) suf = 0.
Proof.
  intros H. unfold strcasecmpend. rewrite length_app. assert ((length x + length suf <? length suf)%nat = false) as -> by (apply Nat.ltb_ge; lia).
  by rewrite Nat.add_sub, drop_app_length.
Qed.

Definition nybble_ok (b : Z) : bool :=
  match nybbles b with
  | [l; _; h; _] =>
      (hex_decode_digit l =? Z.land b 15) && (hex_decode_digit h =? Z.shiftr b 4) && (0 <=? Z.land b 15) && (0 <=? Z.shiftr b 4)
      && (u8 (Z.lor (Z.land b 15) (Z.shiftl (Z.shiftr b 4) 4)) =? b) && negb (TOR_TOLOWER l =? 105)
  | _ => false
  end.

Lemma nybble_facts b :
  is_byte b ->
  exists l h, nybbles b = [l; 46; h; 46] /\ hex_decode_digit l = Z.land b 15 /\ hex_decode_digit h = Z.shiftr b 4 /\ 0 <= Z.land b 15 /\ 0 <= Z.shiftr b 4
    /\ u8 (Z.lor (Z.land b 15) (Z.shiftl (Z.shiftr b 4) 4)) = b /\ TOR_TOLOWER l <> 105.
Proof.
  intros Hb. assert (H : nybble_ok b = true) by (apply byte_forall; [vm_compute; reflexivity|done]). unfold nybble_ok in H. cbn [nybbles] in H.
  repeat (apply andb_prop in H as [H ?]). repeat match goal with E : negb _ = true |- _ => apply negb_true_iff, Z.eqb_neq in E end.
  repeat match goal with E : (_ =? _) = true |- _ => apply Z.eqb_eq in E | E : (_ <=? _) = true |- _ => apply Z.leb_le in E end.
  by exists (hexdigit (Z.land b 15)), (hexdigit (Z.shiftr b 4)).
Qed.

Lemma parse_nybbles_ok bs rest : Forall is_byte bs -> parse_nybbles (length bs) (flat_map nybbles bs ++ rest) = Ok (bs, rest).
Proof.
  induction 1 as [|b bs Hb _ IH]; [done|]. destruct (nybble_facts b Hb) as (l & h & E & El & Eh & H1 & H2 & Hv & _).
  cbn [length parse_nybbles flat_map]. rewrite E. cbn [app cur hd drop Z.eqb Pos.eqb negb]. rewrite El, Eh.
  rewrite (proj2 (Z.ltb_ge _ _)), (proj2 (Z.ltb_ge _ _)) by done. cbn [orb]. rewrite drop_0, IH. cbn [cbind]. by rewrite Hv.
Qed.

Lemma ip6_not_in_addr p b1 b2 : is_byte b1 -> is_byte b2 -> strcasecmpend (flat_map nybbles (p ++ [b1; b2]) ++ ip6_arpa) in_addr_arpa <> 0.
Proof.
  intros H1 H2. destruct (nybble_facts b1 H1) as (l1 & h1 & E1 & _), (nybble_facts b2 H2) as (l2 & h2 & E2 & _ & _ & _ & _ & _ & Hne).
  rewrite flat_map_app. cbn [flat_map]. rewrite E1, E2. set (p' := flat_map nybbles p ++ [l1; 46; h1]).
  replace ((flat_map nybbles p ++ [l1; 46; h1; 46] ++ [l2; 46; h2; 46] ++ []) ++ ip6_arpa) with (p' ++ [46; l2; 46; h2; 46] ++ ip6_arpa) by (unfold p'; lassoc).
  unfold strcasecmpend. rewrite length_app. change (length ([46; l2; 46; h2; 46] ++ ip6_arpa)) with 13%nat. change (length in_addr_arpa) with 13%nat.
  assert ((length p' + 13 <? 13)%nat = false) as -> by (apply Nat.ltb_ge; lia). rewrite Nat.add_sub, drop_app_length.
  unfold strncasecmp. change (map TOR_TOLOWER in_addr_arpa) with in_addr_arpa. change in_addr_arpa with (46 :: 105 :: s2b "n-addr.arpa").
  cbn [map app strncmp]. change (TOR_TOLOWER 46) with 46. rewrite Z.eqb_refl, (proj2 (Z.eqb_neq _ 105)) by done. lia.
Qed.

(** The reverse lookup name of an address is read back as that address. *)
Theorem ptr_name_roundtrip a outlen fam accept_regular :
  addr_ok a -> REVERSE_LOOKUP_NAME_BUF_LEN <= outlen <= SIZE_T_CEILING -> fam = AF_UNSPEC \/ fam = family a ->
  exists s, tor_addr_to_PTR_name outlen a = Ok s /\ tor_addr_parse_PTR_name s fam accept_regular = Ok (PtrAddr a).
Proof.
  unfold REVERSE_LOOKUP_NAME_BUF_LEN. intros Ha Hl Hf. destruct (addr_ok_cases a Ha) as [(a0 & a1 & a2 & a3 & -> & H0 & H1 & H2 & H3)|(Ef & Hlen & Hb)].
  - exists (quad a3 a2 a1 a0 ++ in_addr_arpa). pose proof (quad_len a3 a2 a1 a0 H3 H2 H1 H0) as Hq. cbn [tor_addr_to_PTR_name family ip]. split.
    + apply snprintf_fits; [lia|]. rewrite zlen_app. change (zlen in_addr_arpa) with 13. lia.
    + unfold tor_addr_parse_PTR_name. rewrite end_suffix by reflexivity. cbn [Z.eqb]. rewrite bool_decide_false by (destruct Hf as [->| ->]; done).
      rewrite length_app, Nat.add_sub, take_app_length. unfold INET_NTOA_BUF_LEN. rewrite (proj2 (Z.leb_gt 16 _)) by (unfold zlen in Hq; lia).
      by rewrite aton_quad.
  - destruct a as [f i]. cbn in Ef, Hlen, Hb. subst f. exists (flat_map nybbles (rev i) ++ ip6_arpa). cbn [tor_addr_to_PTR_name family ip].
    unfold REVERSE_LOOKUP_NAME_BUF_LEN. rewrite (proj2 (Z.ltb_ge outlen 73)) by lia. split; [done|]. unfold tor_addr_parse_PTR_name.
    assert (Hrev : exists p b1 b2, rev i = p ++ [b1; b2] /\ is_byte b1 /\ is_byte b2).
    { destruct i as [|b2 [|b1 i]]; [done|done|]. rewrite !Forall_cons_iff in Hb. exists (rev i), b1, b2. cbn [rev]. split; [lassoc|tauto]. }
    destruct Hrev as (p & b1 & b2 & Er & Hb1 & Hb2). rewrite Er. rewrite (proj2 (Z.eqb_neq _ 0)) by (by apply ip6_not_in_addr). rewrite <- Er.
    assert (Hend : strcasecmpend (flat_map nybbles (rev i) ++ ip6_arpa) (46 :: ip6_arpa) = 0).
    { rewrite Er, flat_map_app. cbn [flat_map]. destruct (nybble_facts b2 Hb2) as (l2 & h2 & E2 & _). rewrite E2.
      replace ((flat_map nybbles p ++ nybbles b1 ++ [l2; 46; h2; 46] ++ []) ++ ip6_arpa) with ((flat_map nybbles p ++ nybbles b1 ++ [l2; 46; h2]) ++ (46 :: ip6_arpa)) by lassoc.
      by apply end_suffix. }
    rewrite Hend. cbn [Z.eqb]. rewrite bool_decide_false by (destruct Hf as [->| ->]; done).
    rewrite <- Hlen, <- length_rev. rewrite parse_nybbles_ok by (by apply Forall_rev). cbn [negb]. change (strcasecmp ip6_arpa ip6_arpa =? 0) with true.
    cbn [negb]. by rewrite rev_involutive.
Qed.

Definition demo_addr6 : tor_addr_t := mkaddr AF_INET6 [0x20; 1; 0x0d; 0xb8; 0; 0; 0; 0; 0; 0; 0; 0; 0; 0; 0; 1].

Lemma demo_addr6_ok : addr_ok demo_addr6.
Proof. split; [by right|done|repeat constructor; unfold is_byte; lia]. Qed.

Lemma addr_str_roundtrip_witness : exists s, tor_addr_to_str demo_addr6 64 true = Ok s /\ tor_addr_parse s = Ok demo_addr6.
Proof. apply addr_str_roundtrip; [apply demo_addr6_ok|unfold TOR_ADDR_BUF_LEN, SIZE_T_CEILING; lia]. Defined.

Lemma addrport_roundtrip_witness : exists s, fmt_addrport demo_addr6 9001 = Ok s /\ tor_addr_port_parse s (-1) = Ok (demo_addr6, 9001).
Proof. apply addrport_roundtrip; [apply demo_addr6_ok|lia]. Defined.

Lemma ptr_name_roundtrip_witness :
  exists s, tor_addr_to_PTR_name 80 demo_addr6 = Ok s /\ tor_addr_parse_PTR_name s AF_UNSPEC false = Ok (PtrAddr demo_addr6).
Proof. apply ptr_name_roundtrip; [apply demo_addr6_ok|unfold REVERSE_LOOKUP_NAME_BUF_LEN, SIZE_T_CEILING; lia|by left]. Defined.

(** ** Destinations *)

Lemma strip_brackets_text s : Forall is_byte s -> no_nul s -> Forall is_byte (strip_brackets s) /\ no_nul (strip_brackets s).
Proof. intros H1 H2. unfold strip_brackets, no_nul in *. by split; apply Forall_take, Forall_drop. Qed.

Lemma valid_v4_total s : Forall is_byte s -> no_nul s -> exists b, string_is_valid_ipv4_address s = Ok b.
Proof. intros H1 H2. unfold string_is_valid_ipv4_address. destruct (tor_inet_pton_total AF_INET s H1 H2) as (r & -> & _). cbn. eauto. Qed.

Lemma valid_v6_total s : Forall is_byte s -> no_nul s -> exists b, string_is_valid_ipv6_address s = Ok b.
Proof. intros H1 H2. unfold string_is_valid_ipv6_address. destruct (tor_inet_pton_total AF_INET6 s H1 H2) as (r & -> & _). cbn. eauto. Qed.

Lemma valid_hostname_total s : Forall is_byte s -> no_nul s -> exists b, string_is_valid_nonrfc_hostname s = Ok b.
Proof.
  intros H1 H2. unfold string_is_valid_nonrfc_hostname. destruct (_ =? _); [eauto|].
  destruct (valid_v4_total s H1 H2) as (b & ->). cbn [cbind]. destruct b; [eauto|].
  destruct (split_join_roundtrip s (s2b ".")) as (l & -> & _); [done|]. cbn [cbind]. destruct l as [|x l]; [eauto|].
  destruct (aget_in_range (x :: l) (zlen (x :: l) - 1)) as (y & -> & _); [pose proof (zlen_nonneg l); zlia|]. cbn [cbind]. eauto.
Qed.

Lemma valid_dest_total s : Forall is_byte s -> no_nul s -> exists b, string_is_valid_dest s = Ok b.
Proof.
  intros H1 H2. unfold string_is_valid_dest. destruct (_ =? _); [eauto|]. cbv zeta.
  assert (Ht : Forall is_byte (if in_brackets s then strip_brackets s else s) /\ no_nul (if in_brackets s then strip_brackets s else s))
    by (destruct (in_brackets s); [by apply strip_brackets_text|done]).
  revert Ht. generalize (if in_brackets s then strip_brackets s else s). intros t [Hb Hn].
  destruct (valid_v4_total t Hb Hn) as (b4 & ->). cbn [cbind]. destruct b4; [eauto|].
  destruct (valid_v6_total t Hb Hn) as (b6 & ->). cbn [cbind]. destruct b6; [eauto|]. by apply valid_hostname_total.
Qed.

Lemma addr_parse_total s allow : Forall is_byte s -> no_nul s -> tor_addr_parse_impl s allow = Err \/ exists a, tor_addr_parse_impl s allow = Ok a /\ addr_ok a.
Proof.
  intros H1 H2. unfold tor_addr_parse_impl. cbv zeta.
  assert (Ht : Forall is_byte (if in_brackets s then strip_brackets s else s) /\ no_nul (if in_brackets s then strip_brackets s else s))
    by (destruct (in_brackets s); [by apply strip_brackets_text|done]).
  revert Ht. generalize (if in_brackets s then strip_brackets s else s). intros t [Hb Hn].
  destruct (tor_inet_pton_total AF_INET6 t Hb Hn) as (r6 & E6 & H6). destruct (tor_inet_pton_total AF_INET t Hb Hn) as (r4 & E4 & H4).
  rewrite E6, E4. assert (Hok : forall d, (Forall is_byte d /\ zlen d = addr_size AF_INET6) -> addr_ok (tor_addr_from_ipv6_bytes d)) by (intros d [? ?]; split; cbn; auto).
  assert (Hok4 : forall d, (Forall is_byte d /\ zlen d = addr_size AF_INET) -> addr_ok (tor_addr_from_in d)) by (intros d [? ?]; split; cbn; auto).
  destruct (in_brackets s), allow; cbn; destruct r4; try destruct r6; cbn; eauto.
Qed.

(** A text that parses as an address is a valid destination. *)
Lemma parsed_valid_dest s a : Forall is_byte s -> no_nul s -> tor_addr_parse s = Ok a -> string_is_valid_dest s = Ok true.
Proof.
  intros H1 H2 E. unfold string_is_valid_dest. destruct (Z.eqb_spec (zlen s) 0) as [H0|_].
  { destruct s; [discriminate E|]. rewrite zlen_cons in H0. pose proof (zlen_nonneg s). lia. }
  revert E. unfold tor_addr_parse, tor_addr_parse_impl. cbv zeta.
  assert (Ht : Forall is_byte (if in_brackets s then strip_brackets s else s) /\ no_nul (if in_brackets s then strip_brackets s else s))
    by (destruct (in_brackets s); [by apply strip_brackets_text|done]).
  revert Ht. generalize (if in_brackets s then strip_brackets s else s). intros t [Hb Hn]. rewrite orb_true_r.
  destruct (tor_inet_pton_total AF_INET6 t Hb Hn) as (r6 & E6 & _). destruct (tor_inet_pton_total AF_INET t Hb Hn) as (r4 & E4 & _).
  unfold string_is_valid_ipv4_address, string_is_valid_ipv6_address. rewrite E6, E4. cbn [cbind].
  destruct (in_brackets s), r4; cbn; try done; destruct r6; done.
Qed.

(** The printed form of an address. *)
Lemma addr_text_chars a len decorate s :
  addr_ok a -> TOR_ADDR_BUF_LEN <= len <= SIZE_T_CEILING -> tor_addr_to_str a len decorate = Ok s -> Forall is_byte s /\ no_nul s /\ zlen s < len.
Proof.
  unfold TOR_ADDR_BUF_LEN. intros Ha Hl. destruct (addr_ok_cases a Ha) as [(a0 & a1 & a2 & a3 & -> & H0 & H1 & H2 & H3)|(Ef & Hlen & Hb)].
  - unfold tor_addr_to_str. cbn [family ip]. rewrite (proj2 (Z.ltb_ge len 8)) by lia. cbn [tor_inet_ntop tor_inet_ntoa].
    pose proof (quad_len a0 a1 a2 a3 H0 H1 H2 H3). rewrite snprintf_fits by lia. intros E. apply Ok_inj in E. subst s.
    destruct (text_char_facts (quad a0 a1 a2 a3)) as ((? & ?) & _); [by apply quad_chars|]. split_and!; [done|done|lia].
  - destruct a as [f i]. cbn in *. subst f. destruct (ntop6_text6 i Hlen Hb) as (t & [_ Htl [Htb Htn] _ _] & Hprint). unfold tor_addr_to_str. cbn [family ip].
    rewrite (proj2 (Z.ltb_ge len _)) by (destruct decorate; lia). destruct decorate; rewrite Hprint by lia; cbn [cbind]; intros E; apply Ok_inj in E; subst s.
    + unfold no_nul in *. rewrite !Forall_app. split_and!; try done; try (repeat constructor; unfold is_byte; lia). zlia.
    + split_and!; [done|done|lia].
Qed.
