(* ===== verification/SocksFmt.v ===== *)
(** * The messages of SOCKS

    Models the formats of trunnel/socks5.c: what a SOCKS client and server send, with the check, the encoder and the parser
    of each.  An object is a record with the fields of the C structure; a string that the structure points to is
    an option.  The formats are instances of class [Codec]. *)

From S2P Require Import Prelude UtilString Trunnel.
From Stdlib Require Import ZArith.
From stdpp Require Import base list numbers.
Open Scope Z_scope.

Definition CMD_CONNECT : Z := 1.
Definition CMD_BIND : Z := 2.
Definition CMD_UDP_ASSOCIATE : Z := 3.
Definition CMD_RESOLVE : Z := 240.
Definition CMD_RESOLVE_PTR : Z := 241.
Definition ATYPE_IPV4 : Z := 1.
Definition ATYPE_IPV6 : Z := 4.
Definition ATYPE_DOMAINNAME : Z := 3.

(** A string up to its NUL: [memchr(ptr, 0, remaining)]. *)
Definition get_nulterm (s : bytes) : tres (bytes * bytes) :=
  match memchr s 0 (length s) with
  | None => TTrunc
  | Some eos => TOk (take (length s - length eos) s, drop 1 eos)
  end.

(** ** domainname *)

Record domainname_t := mkdn { dn_len : Z; dn_name : bytes }.

Definition domainname_check (obj : option domainname_t) : bool :=
  match obj with None => false | Some d => zlen (dn_name d) =? dn_len d end.

Definition domainname_encode (avail : Z) (obj : domainname_t) : tres bytes :=
  if negb (domainname_check (Some obj)) then TFail
  else
    do out <- put avail [] [u8 (dn_len obj)];
    if dn_len obj =? zlen (dn_name obj) then put avail out (dn_name obj) else TBug.

Definition domainname_parse (s : bytes) : tres (domainname_t * bytes) :=
  do (len, s) <- get_u8 s;
  do (name, s) <- take_bytes len s;
  TOk (mkdn len name, s).

(** ** socks4_client_request *)

Record socks4_client_request_t := mks4 {
  s4_version : Z; s4_command : Z; s4_port : Z; s4_addr : Z; s4_username : option bytes; s4_socks4a_addr_hostname : option bytes
}.

(** The 255 cases of [switch (obj->addr)]. *)
Definition socks4a_addr (addr : Z) : bool := (1 <=? addr) && (addr <=? 255).

Definition socks4_command (c : Z) : bool := (c =? CMD_BIND) || (c =? CMD_CONNECT) || (c =? CMD_RESOLVE) || (c =? CMD_RESOLVE_PTR).

Definition socks4_client_request_check (obj : socks4_client_request_t) : bool :=
  (s4_version obj =? 4) && socks4_command (s4_command obj) && bool_decide (is_Some (s4_username obj))
  && (negb (socks4a_addr (s4_addr obj)) || bool_decide (is_Some (s4_socks4a_addr_hostname obj))).

Definition nulterm (s : option bytes) : bytes := match s with Some s => s ++ [0] | None => [] end.

Definition socks4_client_request_encode (avail : Z) (obj : socks4_client_request_t) : tres bytes :=
  if negb (socks4_client_request_check obj) then TFail
  else
    do out <- put avail [] [u8 (s4_version obj)];
    do out <- put avail out [u8 (s4_command obj)];
    do out <- put avail out (put_u16 (s4_port obj));
    do out <- put avail out (put_u32 (s4_addr obj));
    do out <- put avail out (nulterm (s4_username obj));
    if socks4a_addr (s4_addr obj) then put avail out (nulterm (s4_socks4a_addr_hostname obj)) else TOk out.

Definition socks4_client_request_parse (s : bytes) : tres (socks4_client_request_t * bytes) :=
  do (version, s) <- get_u8 s;
  if negb (version =? 4) then TFail
  else
    do (command, s) <- get_u8 s;
    if negb (socks4_command command) then TFail
    else
      do (port, s) <- get_u16 s;
      do (addr, s) <- get_u32 s;
      do (username, s) <- get_nulterm s;
      if socks4a_addr addr then
        do (hostname, s) <- get_nulterm s;
        TOk (mks4 version command port addr (Some username) (Some hostname), s)
      else TOk (mks4 version command port addr (Some username) None, s).

(** ** socks4_server_reply *)

Record socks4_server_reply_t := mks4r { s4r_version : Z; s4r_status : Z; s4r_port : Z; s4r_addr : Z }.

Definition socks4_server_reply_check (obj : socks4_server_reply_t) : bool := (s4r_version obj =? 0) || (s4r_version obj =? 4).

Definition socks4_server_reply_encode (avail : Z) (obj : socks4_server_reply_t) : tres bytes :=
  if negb (socks4_server_reply_check obj) then TFail
  else
    do out <- put avail [] [u8 (s4r_version obj)];
    do out <- put avail out [u8 (s4r_status obj)];
    do out <- put avail out (put_u16 (s4r_port obj));
    put avail out (put_u32 (s4r_addr obj)).

Definition socks4_server_reply_parse (s : bytes) : tres (socks4_server_reply_t * bytes) :=
  do (version, s) <- get_u8 s;
  if negb ((version =? 0) || (version =? 4)) then TFail
  else
    do (status, s) <- get_u8 s;
    do (port, s) <- get_u16 s;
    do (addr, s) <- get_u32 s;
    TOk (mks4r version status port addr, s).

(** ** socks5_client_userpass_auth *)

Record socks5_client_userpass_auth_t := mkup { up_version : Z; up_username_len : Z; up_username : bytes; up_passwd_len : Z; up_passwd : bytes }.

Definition socks5_client_userpass_auth_check (obj : socks5_client_userpass_auth_t) : bool :=
  (up_version obj =? 1) && (zlen (up_username obj) =? up_username_len obj) && (zlen (up_passwd obj) =? up_passwd_len obj).

Definition socks5_client_userpass_auth_encode (avail : Z) (obj : socks5_client_userpass_auth_t) : tres bytes :=
  if negb (socks5_client_userpass_auth_check obj) then TFail
  else
    do out <- put avail [] [u8 (up_version obj)];
    do out <- put avail out [u8 (up_username_len obj)];
    do out <- put avail out (up_username obj);
    do out <- put avail out [u8 (up_passwd_len obj)];
    put avail out (up_passwd obj).

Definition socks5_client_userpass_auth_parse (s : bytes) : tres (socks5_client_userpass_auth_t * bytes) :=
  do (version, s) <- get_u8 s;
  if negb (version =? 1) then TFail
  else
    do (username_len, s) <- get_u8 s;
    do (username, s) <- take_bytes username_len s;
    do (passwd_len, s) <- get_u8 s;
    do (passwd, s) <- take_bytes passwd_len s;
    TOk (mkup version username_len username passwd_len passwd, s).

(** ** socks5_client_version, socks5_server_method, socks5_server_userpass_auth *)

Record socks5_client_version_t := mkcv { cv_version : Z; cv_n_methods : Z; cv_methods : bytes }.

Definition socks5_client_version_check (obj : socks5_client_version_t) : bool :=
  (cv_version obj =? 5) && (zlen (cv_methods obj) =? cv_n_methods obj).

Definition socks5_client_version_encode (avail : Z) (obj : socks5_client_version_t) : tres bytes :=
  if negb (socks5_client_version_check obj) then TFail
  else
    do out <- put avail [] [u8 (cv_version obj)];
    do out <- put avail out [u8 (cv_n_methods obj)];
    put avail out (cv_methods obj).

Definition socks5_client_version_parse (s : bytes) : tres (socks5_client_version_t * bytes) :=
  do (version, s) <- get_u8 s;
  if negb (version =? 5) then TFail
  else
    do (n_methods, s) <- get_u8 s;
    do (methods, s) <- take_bytes n_methods s;
    TOk (mkcv version n_methods methods, s).

Record socks5_server_method_t := mksm { sm_version : Z; sm_method : Z }.

Definition socks5_server_method_check (obj : socks5_server_method_t) : bool := sm_version obj =? 5.

Definition socks5_server_method_encode (avail : Z) (obj : socks5_server_method_t) : tres bytes :=
  if negb (socks5_server_method_check obj) then TFail
  else
    do out <- put avail [] [u8 (sm_version obj)];
    put avail out [u8 (sm_method obj)].

Definition socks5_server_method_parse (s : bytes) : tres (socks5_server_method_t * bytes) :=
  do (version, s) <- get_u8 s;
  if negb (version =? 5) then TFail
  else
    do (method, s) <- get_u8 s;
    TOk (mksm version method, s).

Record socks5_server_userpass_auth_t := mksu { su_version : Z; su_status : Z }.

Definition socks5_server_userpass_auth_check (obj : socks5_server_userpass_auth_t) : bool := su_version obj =? 1.

Definition socks5_server_userpass_auth_encode (avail : Z) (obj : socks5_server_userpass_auth_t) : tres bytes :=
  if negb (socks5_server_userpass_auth_check obj) then TFail
  else
    do out <- put avail [] [u8 (su_version obj)];
    put avail out [u8 (su_status obj)].

Definition socks5_server_userpass_auth_parse (s : bytes) : tres (socks5_server_userpass_auth_t * bytes) :=
  do (version, s) <- get_u8 s;
  if negb (version =? 1) then TFail
  else
    do (status, s) <- get_u8 s;
    TOk (mksu version status, s).

(** ** socks5_client_request and socks5_server_reply *)

(** The union of the two structures: the tag and the fields it selects from. *)
Record sockaddr_u := mkun { un_atype : Z; un_ipv4 : Z; un_domainname : option domainname_t; un_ipv6 : bytes }.

Definition union_check (u : sockaddr_u) : bool :=
  if un_atype u =? ATYPE_IPV4 then true
  else if un_atype u =? ATYPE_IPV6 then true
  else if un_atype u =? ATYPE_DOMAINNAME then domainname_check (un_domainname u)
  else false.

(** The encoder of a domain name gets the space that is left. *)
Definition union_encode (avail : Z) (out : bytes) (u : sockaddr_u) : tres bytes :=
  if un_atype u =? ATYPE_IPV4 then put avail out (put_u32 (un_ipv4 u))
  else if un_atype u =? ATYPE_IPV6 then put avail out (un_ipv6 u)
  else if un_atype u =? ATYPE_DOMAINNAME then
    match un_domainname u with
    | None => TFail
    | Some d => do b <- domainname_encode (avail - zlen out) d; TOk (out ++ b)
    end
  else TBug.

Definition union_parse (atype : Z) (s : bytes) : tres (sockaddr_u * bytes) :=
  if atype =? ATYPE_IPV4 then do (v, s) <- get_u32 s; TOk (mkun atype v None (repeat 0 16), s)
  else if atype =? ATYPE_IPV6 then do (b, s) <- take_bytes 16 s; TOk (mkun atype 0 None b, s)
  else if atype =? ATYPE_DOMAINNAME then do (d, s) <- domainname_parse s; TOk (mkun atype 0 (Some d) (repeat 0 16), s)
  else TFail.

Record socks5_client_request_t := mkcr { cr_version : Z; cr_command : Z; cr_reserved : Z; cr_dest : sockaddr_u; cr_dest_port : Z }.

Definition socks5_command (c : Z) : bool :=
  (c =? CMD_BIND) || (c =? CMD_CONNECT) || (c =? CMD_RESOLVE) || (c =? CMD_RESOLVE_PTR) || (c =? CMD_UDP_ASSOCIATE).

Definition socks5_client_request_check (obj : socks5_client_request_t) : bool :=
  (cr_version obj =? 5) && socks5_command (cr_command obj) && (cr_reserved obj =? 0) && union_check (cr_dest obj).

Definition socks5_client_request_encode (avail : Z) (obj : socks5_client_request_t) : tres bytes :=
  if negb (socks5_client_request_check obj) then TFail
  else
    do out <- put avail [] [u8 (cr_version obj)];
    do out <- put avail out [u8 (cr_command obj)];
    do out <- put avail out [u8 (cr_reserved obj)];
    do out <- put avail out [u8 (un_atype (cr_dest obj))];
    do out <- union_encode avail out (cr_dest obj);
    put avail out (put_u16 (cr_dest_port obj)).

Definition socks5_client_request_parse (s : bytes) : tres (socks5_client_request_t * bytes) :=
  do (version, s) <- get_u8 s;
  if negb (version =? 5) then TFail
  else
    do (command, s) <- get_u8 s;
    if negb (socks5_command command) then TFail
    else
      do (reserved, s) <- get_u8 s;
      if negb (reserved =? 0) then TFail
      else
        do (atype, s) <- get_u8 s;
        do (u, s) <- union_parse atype s;
        do (port, s) <- get_u16 s;
        TOk (mkcr version command reserved u port, s).

Record socks5_server_reply_t := mksr { sr_version : Z; sr_reply : Z; sr_reserved : Z; sr_bind : sockaddr_u; sr_bind_port : Z }.

Definition socks5_server_reply_check (obj : socks5_server_reply_t) : bool :=
  (sr_version obj =? 5) && (sr_reserved obj =? 0) && union_check (sr_bind obj).

Definition socks5_server_reply_encode (avail : Z) (obj : socks5_server_reply_t) : tres bytes :=
  if negb (socks5_server_reply_check obj) then TFail
  else
    do out <- put avail [] [u8 (sr_version obj)];
    do out <- put avail out [u8 (sr_reply obj)];
    do out <- put avail out [u8 (sr_reserved obj)];
    do out <- put avail out [u8 (un_atype (sr_bind obj))];
    do out <- union_encode avail out (sr_bind obj);
    put avail out (put_u16 (sr_bind_port obj)).

Definition socks5_server_reply_parse (s : bytes) : tres (socks5_server_reply_t * bytes) :=
  do (version, s) <- get_u8 s;
  if negb (version =? 5) then TFail
  else
    do (reply, s) <- get_u8 s;
    do (reserved, s) <- get_u8 s;
    if negb (reserved =? 0) then TFail
    else
      do (atype, s) <- get_u8 s;
      do (u, s) <- union_parse atype s;
      do (port, s) <- get_u16 s;
      TOk (mksr version reply reserved u port, s).

(** ** Parsers are incremental *)

Lemma memchr_app s t c : memchr (s ++ t) c (length (s ++ t)) = match memchr s c (length s) with Some e => Some (e ++ t) | None => memchr t c (length t) end.
Proof. induction s as [|b s IH]; [done|]. cbn [app length memchr]. destruct (_ =? _); [done|]. apply IH. Qed.

Lemma memchr_le s c e : memchr s c (length s) = Some e -> (1 <= length e <= length s)%nat.
Proof.
  induction s as [|b s IH]; [done|]. cbn [length memchr]. destruct (_ =? _); [intros [= <-]; cbn; lia|].
  intros H. specialize (IH H). lia.
Qed.

Lemma grows_nulterm s t : grows t (get_nulterm s) (get_nulterm (s ++ t)).
Proof.
  unfold get_nulterm. rewrite memchr_app. destruct (memchr s 0 (length s)) as [e|] eqn:E; [|done]. cbn.
  pose proof (memchr_le _ _ _ E). rewrite !length_app. rewrite drop_app_le by lia.
  replace (length s + length t - (length e + length t))%nat with (length s - length e)%nat by lia.
  by rewrite take_app_le by lia.
Qed.
#[export] Hint Resolve grows_nulterm : grows.

Lemma socks4_client_request_incremental : incremental socks4_client_request_parse.
Proof. intros s t. unfold socks4_client_request_parse. grows. Qed.
Lemma userpass_incremental : incremental socks5_client_userpass_auth_parse.
Proof. intros s t. unfold socks5_client_userpass_auth_parse. grows. Qed.
Lemma client_version_incremental : incremental socks5_client_version_parse.
Proof. intros s t. unfold socks5_client_version_parse. grows. Qed.
Lemma grows_union atype s t : grows t (union_parse atype s) (union_parse atype (s ++ t)).
Proof. unfold union_parse, domainname_parse. grows. Qed.
#[export] Hint Resolve grows_union : grows.
Lemma client_request_incremental : incremental socks5_client_request_parse.
Proof. intros s t. unfold socks5_client_request_parse. grows. Qed.
Lemma server_reply_incremental : incremental socks5_server_reply_parse.
Proof. intros s t. unfold socks5_server_reply_parse. grows. Qed.

(** ** Codecs *)

(** Write field after field, with space enough, and with too little space. *)
Ltac put_all := repeat (rewrite put_ok by zlia; cbn [tbind app]).
Ltac put_none := repeat (apply put_then; [zlia|intros]); try (apply put_short; zlia).

Lemma get_nulterm_app s rest : no_nul s -> get_nulterm ((s ++ [0]) ++ rest) = TOk (s, rest).
Proof.
  intros H. unfold get_nulterm. rewrite <- app_assoc.
  assert (E : memchr (s ++ [0] ++ rest) 0 (length (s ++ [0] ++ rest)) = Some (0 :: rest)).
  { induction H as [|b s Hb _ IH]; [done|]. cbn [app length memchr]. rewrite (proj2 (Z.eqb_neq b 0)) by done. exact IH. }
  rewrite E. cbn [drop]. rewrite drop_0, !length_app. cbn [length].
  replace (length s + (1 + length rest) - S (length rest))%nat with (length s) by lia. by rewrite take_app_length.
Qed.

Definition version_ok (v : socks5_client_version_t) : Prop :=
  cv_version v = 5 /\ cv_n_methods v = zlen (cv_methods v) /\ cv_n_methods v < 256.

Lemma version_encode_parse v avail :
  version_ok v -> 2 + zlen (cv_methods v) <= avail ->
  exists b, socks5_client_version_encode avail v = TOk b /\ zlen b = 2 + zlen (cv_methods v)
    /\ forall rest, socks5_client_version_parse (b ++ rest) = TOk (v, rest).
Proof.
  destruct v as [v n ms]. unfold version_ok. cbn. intros (-> & -> & Hn) Ha. pose proof (zlen_nonneg ms).
  unfold socks5_client_version_encode, socks5_client_version_check. cbn. rewrite Z.eqb_refl. cbn [negb]. put_all.
  eexists. split; [done|]. split; [zlia|]. intros rest. unfold socks5_client_version_parse. cbn [app get_u8 tbind].
  change (negb (u8 5 =? 5)) with false. cbv iota. rewrite (u8_small (zlen ms)) by lia. by rewrite take_bytes_app by done.
Qed.

Lemma version_short v avail : version_ok v -> 0 <= avail < 2 + zlen (cv_methods v) -> socks5_client_version_encode avail v = TTrunc.
Proof.
  destruct v as [v n ms]. unfold version_ok. cbn. intros (-> & -> & Hn) Ha.
  unfold socks5_client_version_encode, socks5_client_version_check. cbn. rewrite Z.eqb_refl. cbn [negb]. put_none.
Qed.

#[export] Instance version_codec : Codec socks5_client_version_t := {|
  enc := socks5_client_version_encode; dec := socks5_client_version_parse; enc_ok := version_ok;
  enc_size v := 2 + zlen (cv_methods v); enc_dec := version_encode_parse; enc_short := version_short
|}.

Definition userpass_ok (u : socks5_client_userpass_auth_t) : Prop :=
  up_version u = 1 /\ (up_username_len u = zlen (up_username u) /\ up_username_len u < 256)
  /\ (up_passwd_len u = zlen (up_passwd u) /\ up_passwd_len u < 256).

Lemma userpass_encode_parse u avail :
  userpass_ok u -> 3 + zlen (up_username u) + zlen (up_passwd u) <= avail ->
  exists b, socks5_client_userpass_auth_encode avail u = TOk b /\ zlen b = 3 + zlen (up_username u) + zlen (up_passwd u)
    /\ forall rest, socks5_client_userpass_auth_parse (b ++ rest) = TOk (u, rest).
Proof.
  destruct u as [v n un m pw]. unfold userpass_ok. cbn. intros (-> & [-> Hn] & [-> Hm]) Ha.
  pose proof (zlen_nonneg un). pose proof (zlen_nonneg pw).
  unfold socks5_client_userpass_auth_encode, socks5_client_userpass_auth_check. cbn. rewrite !Z.eqb_refl. cbn [andb negb]. put_all.
  eexists. split; [done|]. split; [zlia|]. intros rest. unfold socks5_client_userpass_auth_parse. cbn [app get_u8 tbind].
  change (negb (u8 1 =? 1)) with false. cbv iota. rewrite (u8_small (zlen un)), (u8_small (zlen pw)) by lia. rewrite <- !app_assoc. rewrite take_bytes_app by done.
  cbn [tbind app get_u8]. rewrite take_bytes_app by done. done.
Qed.

Lemma userpass_short u avail :
  userpass_ok u -> 0 <= avail < 3 + zlen (up_username u) + zlen (up_passwd u) -> socks5_client_userpass_auth_encode avail u = TTrunc.
Proof.
  destruct u as [v n un m pw]. unfold userpass_ok. cbn. intros (-> & [-> Hn] & [-> Hm]) Ha.
  unfold socks5_client_userpass_auth_encode, socks5_client_userpass_auth_check. cbn. rewrite !Z.eqb_refl. cbn [andb negb]. put_none.
Qed.

#[export] Instance userpass_codec : Codec socks5_client_userpass_auth_t := {|
  enc := socks5_client_userpass_auth_encode; dec := socks5_client_userpass_auth_parse; enc_ok := userpass_ok;
  enc_size u := 3 + zlen (up_username u) + zlen (up_passwd u); enc_dec := userpass_encode_parse; enc_short := userpass_short
|}.

(** The address of a request or reply, with the fields that its type does not select left empty. *)
Inductive union_ok : sockaddr_u -> Prop :=
  | union_v4 v : 0 <= v <= UINT32_MAX -> union_ok (mkun ATYPE_IPV4 v None (repeat 0 16))
  | union_name n : zlen n < 256 -> union_ok (mkun ATYPE_DOMAINNAME 0 (Some (mkdn (zlen n) n)) (repeat 0 16))
  | union_v6 b : zlen b = 16 -> union_ok (mkun ATYPE_IPV6 0 None b).

Definition union_size (u : sockaddr_u) : Z :=
  if un_atype u =? ATYPE_IPV4 then 4
  else if un_atype u =? ATYPE_IPV6 then 16
  else match un_domainname u with Some d => 1 + zlen (dn_name d) | None => 0 end.

Lemma union_ok_facts u : union_ok u -> union_check u = true /\ 1 <= union_size u <= 256 /\ is_byte (un_atype u).
Proof.
  intros [v Hv|n Hn|b Hb]; unfold is_byte, union_size, union_check, domainname_check, ATYPE_IPV4, ATYPE_IPV6, ATYPE_DOMAINNAME; cbn [un_atype un_domainname dn_name dn_len].
  - split; [done|]. cbn. lia.
  - rewrite (Z.eqb_refl (zlen n)). pose proof (zlen_nonneg n). split; [done|]. cbn. lia.
  - split; [done|]. cbn. lia.
Qed.

Ltac un_cases :=
  unfold union_encode, union_size, union_parse, domainname_encode, domainname_check, ATYPE_IPV4, ATYPE_IPV6, ATYPE_DOMAINNAME in *;
  cbn [un_atype un_ipv4 un_domainname un_ipv6 dn_name dn_len Z.eqb Pos.eqb] in *.

Lemma union_encode_parse u avail out :
  union_ok u -> zlen out + union_size u <= avail ->
  exists b, union_encode avail out u = TOk (out ++ b) /\ zlen b = union_size u
    /\ forall rest, union_parse (un_atype u) (b ++ rest) = TOk (u, rest).
Proof.
  intros [v Hv|n Hn|b Hb] Ha; un_cases.
  - rewrite put_ok by zlia. eexists. split; [done|]. split; [done|]. intros rest. by rewrite get_put_u32.
  - rewrite (Z.eqb_refl (zlen n)). cbn [negb]. pose proof (zlen_nonneg n). put_all.
    exists (u8 (zlen n) :: n). split; [done|]. split; [zlia|]. intros rest. unfold domainname_parse.
    cbn [app get_u8 tbind]. rewrite u8_small by lia. by rewrite take_bytes_app.
  - rewrite put_ok by zlia. exists b. split; [done|]. split; [done|]. intros rest. by rewrite take_bytes_app.
Qed.

Lemma union_short {B} u avail out (k : bytes -> tres B) :
  union_ok u -> zlen out <= avail ->
  (forall b, zlen b = union_size u -> zlen (out ++ b) <= avail -> k (out ++ b) = TTrunc) -> tbind (union_encode avail out u) k = TTrunc.
Proof.
  intros Hu Ho Hk. destruct (Z.lt_ge_cases avail (zlen out + union_size u)) as [H|H].
  - destruct Hu as [v Hv|n Hn|b Hb]; un_cases.
    + by rewrite put_short by zlia.
    + rewrite (Z.eqb_refl (zlen n)). cbn [negb]. cut (forall m, m = TTrunc (A := bytes) -> tbind (tbind m (fun b => TOk (out ++ b))) k = TTrunc); [|by intros ? ->].
      intros Hm. apply Hm. put_none.
    + by rewrite put_short by zlia.
  - destruct (union_encode_parse u avail out Hu) as (b & -> & Hb & _); [lia|]. cbn [tbind]. apply Hk; [done|zlia].
Qed.

Definition request_ok (r : socks5_client_request_t) : Prop :=
  cr_version r = 5 /\ socks5_command (cr_command r) = true /\ cr_reserved r = 0 /\ union_ok (cr_dest r) /\ 0 <= cr_dest_port r <= UINT16_MAX.

Lemma socks5_command_byte c : socks5_command c = true -> is_byte c.
Proof. unfold socks5_command, CMD_BIND, CMD_CONNECT, CMD_RESOLVE, CMD_RESOLVE_PTR, CMD_UDP_ASSOCIATE, is_byte. blia. Qed.

Lemma request_ok_check r : request_ok r -> socks5_client_request_check r = true.
Proof. intros (Hv & Hc & Hr & Hu & _). unfold socks5_client_request_check. rewrite Hv, Hc, Hr. by destruct (union_ok_facts _ Hu) as (-> & _). Qed.

Lemma request_encode_parse r avail :
  request_ok r -> 6 + union_size (cr_dest r) <= avail ->
  exists b, socks5_client_request_encode avail r = TOk b /\ zlen b = 6 + union_size (cr_dest r)
    /\ forall rest, socks5_client_request_parse (b ++ rest) = TOk (r, rest).
Proof.
  intros Hok Ha. unfold socks5_client_request_encode. rewrite request_ok_check by done. cbn [negb].
  destruct r as [v c rv u p]. destruct Hok as (Hv & Hc & Hr & Hu & Hp). cbn in *. subst v rv.
  destruct (union_ok_facts u Hu) as (_ & Hs & Ht). put_all.
  edestruct (union_encode_parse u avail) as (b & -> & Hb & Pb); [done| |]; [zlia|]. cbn [tbind app]. put_all.
  eexists. split; [done|]. split; [zlia|]. intros rest. unfold socks5_client_request_parse. cbn [app get_u8 tbind].
  change (negb (u8 5 =? 5)) with false. change (negb (u8 0 =? 0)) with false. cbv iota.
  rewrite (u8_small c) by (by apply socks5_command_byte). rewrite Hc. cbn [negb]. rewrite (u8_small (un_atype u)) by done.
  rewrite <- !app_assoc, Pb. cbn [tbind]. by rewrite get_put_u16.
Qed.

Lemma request_short r avail : request_ok r -> 0 <= avail < 6 + union_size (cr_dest r) -> socks5_client_request_encode avail r = TTrunc.
Proof.
  intros Hok Ha. unfold socks5_client_request_encode. rewrite request_ok_check by done. cbn [negb].
  destruct Hok as (_ & _ & _ & Hu & _). put_none. apply union_short; [done|done|]. intros b Hb Hl. apply put_short; zlia.
Qed.

#[export] Instance request_codec : Codec socks5_client_request_t := {|
  enc := socks5_client_request_encode; dec := socks5_client_request_parse; enc_ok := request_ok;
  enc_size r := 6 + union_size (cr_dest r); enc_dec := request_encode_parse; enc_short := request_short
|}.

Definition reply_ok (r : socks5_server_reply_t) : Prop :=
  sr_version r = 5 /\ is_byte (sr_reply r) /\ sr_reserved r = 0 /\ union_ok (sr_bind r) /\ 0 <= sr_bind_port r <= UINT16_MAX.

Lemma reply_ok_check r : reply_ok r -> socks5_server_reply_check r = true.
Proof. intros (Hv & _ & Hr & Hu & _). unfold socks5_server_reply_check. rewrite Hv, Hr. by destruct (union_ok_facts _ Hu) as (-> & _). Qed.

Lemma reply_encode_parse r avail :
  reply_ok r -> 6 + union_size (sr_bind r) <= avail ->
  exists b, socks5_server_reply_encode avail r = TOk b /\ zlen b = 6 + union_size (sr_bind r)
    /\ forall rest, socks5_server_reply_parse (b ++ rest) = TOk (r, rest).
Proof.
  intros Hok Ha. unfold socks5_server_reply_encode. rewrite reply_ok_check by done. cbn [negb].
  destruct r as [v c rv u p]. destruct Hok as (Hv & Hc & Hr & Hu & Hp). cbn in *. subst v rv.
  destruct (union_ok_facts u Hu) as (_ & Hs & Ht). put_all.
  edestruct (union_encode_parse u avail) as (b & -> & Hb & Pb); [done| |]; [zlia|]. cbn [tbind app]. put_all.
  eexists. split; [done|]. split; [zlia|]. intros rest. unfold socks5_server_reply_parse. cbn [app get_u8 tbind].
  change (negb (u8 5 =? 5)) with false. change (negb (u8 0 =? 0)) with false. cbv iota.
  rewrite (u8_small c) by done. rewrite (u8_small (un_atype u)) by done.
  rewrite <- !app_assoc, Pb. cbn [tbind]. by rewrite get_put_u16.
Qed.

Lemma reply_short r avail : reply_ok r -> 0 <= avail < 6 + union_size (sr_bind r) -> socks5_server_reply_encode avail r = TTrunc.
Proof.
  intros Hok Ha. unfold socks5_server_reply_encode. rewrite reply_ok_check by done. cbn [negb].
  destruct Hok as (_ & _ & _ & Hu & _). put_none. apply union_short; [done|done|]. intros b Hb Hl. apply put_short; zlia.
Qed.

#[export] Instance reply_codec : Codec socks5_server_reply_t := {|
  enc := socks5_server_reply_encode; dec := socks5_server_reply_parse; enc_ok := reply_ok;
  enc_size r := 6 + union_size (sr_bind r); enc_dec := reply_encode_parse; enc_short := reply_short
|}.

(** A SOCKS4 request names the host after the user if the address is of the form 0.0.0.x. *)
Definition request4_ok (r : socks4_client_request_t) : Prop :=
  s4_version r = 4 /\ socks4_command (s4_command r) = true /\ (0 <= s4_port r <= UINT16_MAX) /\ (0 <= s4_addr r <= UINT32_MAX)
  /\ (exists u, s4_username r = Some u /\ no_nul u)
  /\ (if socks4a_addr (s4_addr r) then exists h, s4_socks4a_addr_hostname r = Some h /\ no_nul h else s4_socks4a_addr_hostname r = None).

Definition request4_size (r : socks4_client_request_t) : Z := 8 + zlen (nulterm (s4_username r)) + zlen (nulterm (s4_socks4a_addr_hostname r)).

Lemma request4_ok_check r : request4_ok r -> socks4_client_request_check r = true.
Proof.
  intros (Hv & Hc & _ & _ & (u & Hu & _) & Hh). unfold socks4_client_request_check. rewrite Hv, Hc, Hu. cbn.
  destruct (socks4a_addr _); [|done]. by destruct Hh as (h & -> & _).
Qed.

Lemma socks4_command_byte c : socks4_command c = true -> is_byte c.
Proof. unfold socks4_command, CMD_BIND, CMD_CONNECT, CMD_RESOLVE, CMD_RESOLVE_PTR, is_byte. blia. Qed.

#[local] Opaque put_u32.

Lemma request4_encode_parse r avail :
  request4_ok r -> request4_size r <= avail ->
  exists b, socks4_client_request_encode avail r = TOk b /\ zlen b = request4_size r
    /\ forall rest, socks4_client_request_parse (b ++ rest) = TOk (r, rest).
Proof.
  intros Hok Ha. unfold socks4_client_request_encode. rewrite request4_ok_check by done. cbn [negb].
  destruct r as [v c p a u h]. destruct Hok as (Hv & Hc & Hp & Hadr & (un & Hu & Nu) & Hh). unfold request4_size in *. cbn in *. subst v u.
  pose proof (zlen_nonneg (un ++ [0])). pose proof (zlen_nonneg (nulterm h)).
  unfold nulterm at 1. put_all. destruct (socks4a_addr a) eqn:Ea.
  - destruct Hh as (hn & -> & Nh). cbn [nulterm] in *. put_all. eexists. split; [done|]. split; [zlia|]. intros rest.
    unfold socks4_client_request_parse. cbn [app get_u8 tbind]. change (negb (u8 4 =? 4)) with false. cbv iota.
    rewrite (u8_small c) by (by apply socks4_command_byte). rewrite Hc. cbn [negb]. rewrite <- !(app_assoc (A := Z)).
    rewrite get_put_u16 by done. cbn [tbind]. rewrite get_put_u32 by done. cbn [tbind]. rewrite (app_assoc un), get_nulterm_app by done. cbn [tbind].
    rewrite Ea, (app_assoc hn), get_nulterm_app by done. done.
  - subst h. cbn [nulterm] in *. put_all. eexists. split; [reflexivity|]. split; [zlia|]. intros rest.
    unfold socks4_client_request_parse. cbn [app get_u8 tbind]. change (negb (u8 4 =? 4)) with false. cbv iota.
    rewrite (u8_small c) by (by apply socks4_command_byte). rewrite Hc. cbn [negb]. rewrite <- !(app_assoc (A := Z)).
    rewrite get_put_u16 by done. cbn [tbind]. rewrite get_put_u32 by done. cbn [tbind]. rewrite (app_assoc un), get_nulterm_app by done. cbn [tbind].
    by rewrite Ea.
Qed.

Lemma request4_short r avail : request4_ok r -> 0 <= avail < request4_size r -> socks4_client_request_encode avail r = TTrunc.
Proof.
  intros Hok Ha. unfold socks4_client_request_encode. rewrite request4_ok_check by done. cbn [negb].
  destruct Hok as (_ & _ & _ & _ & _ & Hh). unfold request4_size in *. put_none.
  destruct (socks4a_addr _); [apply put_short; zlia|]. rewrite Hh in *. cbn [nulterm] in *. zlia.
Qed.

#[export] Instance request4_codec : Codec socks4_client_request_t := {|
  enc := socks4_client_request_encode; dec := socks4_client_request_parse; enc_ok := request4_ok;
  enc_size := request4_size; enc_dec := request4_encode_parse; enc_short := request4_short
|}.

(** ** What the parsers read

    [reads lo hi s Q m]: on the bytes [s] the parser accepts an object with [Q], having read between [lo] and [hi] bytes, or refuses, or
    is waiting for more with less than [hi] bytes there. *)

Definition reads {A} (lo hi : Z) (s : bytes) (Q : A -> Prop) (m : tres (A * bytes)) : Prop :=
  match m with
  | TOk (a, r) => (exists c, s = c ++ r /\ lo <= zlen c <= hi) /\ Q a
  | TTrunc => zlen s < hi
  | TFail => True
  | TBug => False
  end.

Lemma reads_bind {A C} l1 h1 lo hi s (Q : A -> Prop) (R : C -> Prop) m k :
  Forall is_byte s -> reads l1 h1 s Q m -> h1 <= hi ->
  (forall a r, Q a -> zlen r <= zlen s -> Forall is_byte r -> reads (lo - l1) (hi - h1) r R (k (a, r))) ->
  reads lo hi s R (tbind m k).
Proof.
  intros Hs Hm Hh Hk. destruct m as [[a r]| | |]; cbn in *; [|lia|done|done]. destruct Hm as [(c & -> & Hc) Ha].
  apply Forall_app in Hs as [_ Hr]. pose proof (zlen_nonneg c). specialize (Hk a r Ha ltac:(zlia) Hr).
  destruct (k (a, r)) as [[b r']| | |]; cbn in *; [|zlia|done|done]. destruct Hk as [(c' & -> & Hc') Hb].
  split; [|done]. exists (c ++ c'). rewrite app_assoc. split; [done|zlia].
Qed.

Lemma reads_ok {A} lo hi s (Q : A -> Prop) a : lo <= 0 <= hi -> Q a -> reads lo hi s Q (TOk (a, s)).
Proof. intros H Ha. split; [|done]. exists []. split; [done|]. change (zlen (@nil Z)) with 0. lia. Qed.

Lemma reads_fail {A} lo hi s (Q : A -> Prop) : reads lo hi s Q TFail.
Proof. done. Qed.

Lemma reads_u8 s : Forall is_byte s -> reads 1 1 s is_byte (get_u8 s).
Proof. destruct 1 as [|b s Hb Hs]; [done|]. split; [|done]. by exists [b]. Qed.

Lemma reads_u16 s : Forall is_byte s -> reads 2 2 s (fun v => 0 <= v <= UINT16_MAX) (get_u16 s).
Proof.
  destruct 1 as [|b s' Hb Hs]; [done|]. destruct Hs as [|b' s'' Hb' Hs]; [done|]. split; [by exists [b; b']|]. unfold is_byte, UINT16_MAX in *. lia.
Qed.

Lemma reads_u32 s : Forall is_byte s -> reads 4 4 s (fun v => 0 <= v <= UINT32_MAX) (get_u32 s).
Proof.
  do 4 (destruct 1 as [|?b ? ?Hb]; [done|]; revert select (Forall is_byte _)). intros _. split; [by eexists [_; _; _; _]|].
  unfold is_byte, UINT32_MAX in *. lia.
Qed.

Lemma reads_take n h s : Forall is_byte s -> 0 <= n <= h -> reads 0 h s (fun b => zlen b = n /\ Forall is_byte b) (take_bytes n s).
Proof.
  intros Hs Hn. unfold take_bytes. destruct (Z.ltb_spec (zlen s) n) as [H|H]; cbn; [lia|].
  assert (Hl : zlen (take (Z.to_nat n) s) = n) by (unfold zlen in *; rewrite length_take; lia). split; [|split; [done|by apply Forall_take]].
  exists (take (Z.to_nat n) s). by rewrite take_drop, Hl.
Qed.

Lemma take_no_nul s e : memchr s 0 (length s) = Some e -> no_nul (take (length s - length e) s).
Proof.
  induction s as [|b s IH]; [done|]. cbn [length memchr]. destruct (Z.eqb_spec b 0) as [->|Hb].
  - intros [= <-]. cbn [length]. rewrite Nat.sub_diag. constructor.
  - intros E. pose proof (memchr_le _ _ _ E). replace (S (length s) - length e)%nat with (S (length s - length e)) by lia. constructor; [done|by apply IH].
Qed.

Lemma reads_nulterm h s : Forall is_byte s -> zlen s < h -> reads 0 h s (fun b => Forall is_byte b /\ no_nul b) (get_nulterm s).
Proof.
  intros Hs Hh. unfold get_nulterm. destruct (memchr s 0 (length s)) as [e|] eqn:E; cbn; [|done].
  pose proof (memchr_le _ _ _ E). split; [|split; [by apply Forall_take|by apply take_no_nul]].
  assert (Hd : drop 1 e = drop (S (length s - length e)) s).
  { clear Hs Hh H. induction s as [|b s IH]; [done|]. cbn [length memchr] in *. destruct (b =? 0); [injection E as <-; cbn [length]; by rewrite Nat.sub_diag|].
    specialize (IH E). pose proof (memchr_le _ _ _ E). rewrite IH. by replace (S (length s) - length e)%nat with (S (length s - length e)) by lia. }
  exists (take (S (length s - length e)) s). rewrite Hd, take_drop. split; [done|]. unfold zlen in *. rewrite length_take. lia.
Qed.

Ltac reads lem := eapply reads_bind; [done|eapply lem; try done|lia|cbv beta; intros].

Definition version_read (v : socks5_client_version_t) : Prop := cv_version v = 5 /\ is_byte (cv_n_methods v) /\ zlen (cv_methods v) = cv_n_methods v.

Lemma client_version_reads s : Forall is_byte s -> reads 2 257 s version_read (socks5_client_version_parse s).
Proof.
  intros Hs. unfold socks5_client_version_parse. reads reads_u8. case (Z.eqb_spec a 5); intros; cbn [negb]; [subst|done].
  reads reads_u8. reads (reads_take a 255); [unfold is_byte in *; lia|]. apply reads_ok; [lia|]. unfold version_read. cbn. tauto.
Qed.

Definition userpass_read (u : socks5_client_userpass_auth_t) : Prop :=
  (is_byte (up_username_len u) /\ zlen (up_username u) = up_username_len u /\ Forall is_byte (up_username u))
  /\ (is_byte (up_passwd_len u) /\ zlen (up_passwd u) = up_passwd_len u /\ Forall is_byte (up_passwd u)).

Lemma userpass_reads s : Forall is_byte s -> reads 2 513 s userpass_read (socks5_client_userpass_auth_parse s).
Proof.
  intros Hs. unfold socks5_client_userpass_auth_parse. reads reads_u8. case (Z.eqb_spec a 1); intros; cbn [negb]; [subst|done].
  reads reads_u8. reads (reads_take a 255); [unfold is_byte in *; lia|]. reads reads_u8.
  reads (reads_take a1 255); [unfold is_byte in *; lia|]. apply reads_ok; [lia|]. unfold userpass_read. cbn. tauto.
Qed.

Definition union_read (atype : Z) (u : sockaddr_u) : Prop :=
  un_atype u = atype
  /\ ((atype = ATYPE_IPV4 /\ 0 <= un_ipv4 u <= UINT32_MAX)
      \/ (atype = ATYPE_IPV6 /\ zlen (un_ipv6 u) = 16 /\ Forall is_byte (un_ipv6 u))
      \/ (atype = ATYPE_DOMAINNAME /\ exists d, un_domainname u = Some d /\ zlen (dn_name d) < 256 /\ Forall is_byte (dn_name d))).

Lemma union_reads atype s : Forall is_byte s -> reads 1 256 s (union_read atype) (union_parse atype s).
Proof.
  intros Hs. unfold union_parse, domainname_parse. destruct (Z.eqb_spec atype ATYPE_IPV4); [|destruct (Z.eqb_spec atype ATYPE_IPV6); [|destruct (Z.eqb_spec atype ATYPE_DOMAINNAME); [|done]]].
  - reads reads_u32. apply reads_ok; [lia|]. unfold union_read. cbn. tauto.
  - unfold take_bytes. destruct (Z.ltb_spec (zlen s) 16) as [Hl|Hl]; cbn [tbind]; [cbn; lia|].
    assert (Hl16 : zlen (take (Z.to_nat 16) s) = 16) by (unfold zlen in *; rewrite length_take; lia). split.
    + exists (take (Z.to_nat 16) s). rewrite take_drop, Hl16. split; [done|lia].
    + split; [done|]. right. left. cbn [un_ipv6]. split_and!; [done|done|by apply Forall_take].
  - eapply (reads_bind 1 256); [done| |lia|].
    + instantiate (1 := fun d => zlen (dn_name d) < 256 /\ Forall is_byte (dn_name d)).
      reads reads_u8. reads (reads_take a 255); [unfold is_byte in *; lia|]. apply reads_ok; [lia|]. cbn. unfold is_byte in *. intuition lia.
    + intros d r Hd _ _. apply reads_ok; [lia|]. split; [done|]. right. right. cbn. eauto.
Qed.

Definition request_read (r : socks5_client_request_t) : Prop :=
  cr_version r = 5 /\ socks5_command (cr_command r) = true /\ (0 <= cr_dest_port r <= UINT16_MAX) /\ union_read (un_atype (cr_dest r)) (cr_dest r).

Lemma client_request_reads s : Forall is_byte s -> reads 2 262 s request_read (socks5_client_request_parse s).
Proof.
  intros Hs. unfold socks5_client_request_parse. reads reads_u8. case (Z.eqb_spec a 5); intros; cbn [negb]; [subst|done].
  reads reads_u8. destruct (socks5_command a) eqn:Ec; cbn [negb]; [|done].
  reads reads_u8. case (Z.eqb_spec a0 0); intros; cbn [negb]; [subst|done].
  reads reads_u8. reads union_reads. reads reads_u16. apply reads_ok; [lia|].
  unfold request_read. cbn. split_and!; try done; try lia. match goal with H : union_read _ ?u |- _ => destruct H as [E H]; rewrite E; done end.
Qed.

Definition request4_read (r : socks4_client_request_t) : Prop :=
  socks4_command (s4_command r) = true /\ (0 <= s4_port r <= UINT16_MAX) /\ (0 <= s4_addr r <= UINT32_MAX)
  /\ (exists u, s4_username r = Some u /\ Forall is_byte u /\ no_nul u)
  /\ (if socks4a_addr (s4_addr r) then exists h, s4_socks4a_addr_hostname r = Some h /\ Forall is_byte h /\ no_nul h
      else s4_socks4a_addr_hostname r = None).

Lemma socks4_request_reads s : Forall is_byte s -> reads 8 (2 * zlen s + 10) s request4_read (socks4_client_request_parse s).
Proof.
  intros Hs. pose proof (zlen_nonneg s). unfold socks4_client_request_parse. reads reads_u8. case (Z.eqb_spec a 4); intros; cbn [negb]; [subst|done].
  reads reads_u8. destruct (socks4_command a) eqn:Ec; cbn [negb]; [|done]. reads reads_u16. reads reads_u32.
  reads (reads_nulterm (zlen s + 1)); [lia|]. destruct (socks4a_addr a1) eqn:Ea.
  - reads (reads_nulterm (zlen s + 1)); [lia|]. apply reads_ok; [lia|]. unfold request4_read. cbn. rewrite Ea. split_and!; try done; try lia; eauto.
  - apply reads_ok; [lia|]. unfold request4_read. cbn. rewrite Ea. split_and!; try done; try lia; eauto.
Qed.
