(* ===== verification/Socks.v ===== *)
(** * The SOCKS front end

    Models core/proto/proto_socks.c: what Tor does with the bytes that an application writes on a
    SOCKSPort, SOCKS 4, 4a and 5 with user names and passwords, and what it expects from an upstream SOCKS proxy.  The
    requests are read from a buffer through class [ByteQueue], so everything that is proved
    holds for the chunked buffers; messages are taken apart by the formats of [SocksFmt], and addresses
    are those of [Address].

    Logging and the events for the controller are left out, and with them [log_sockstype], which only selects
    messages; so are the fields of [socks_request_t] that this file never touches (listener_type, has_finished and the extended
    errors). *)

From S2P Require Import Prelude CString DiOps UtilString Inaddr Address Buffers ByteQueue Trunnel SocksFmt.
From Stdlib Require Import ZArith String.
From stdpp Require Import base list numbers gmap.
Open Scope Z_scope.

Definition SOCKS_VER_5 : Z := 5.
Definition SOCKS_VER_4 : Z := 4.
Definition SOCKS_AUTH : Z := 1.
Definition SOCKS_NO_AUTH : Z := 0.
Definition SOCKS_USER_PASS : Z := 2.
Definition SOCKS_COMMAND_CONNECT : Z := 1.
Definition SOCKS_COMMAND_RESOLVE : Z := 240.
Definition SOCKS_COMMAND_RESOLVE_PTR : Z := 241.
Definition SOCKS4_NETWORK_LEN : Z := 8.
Definition MAX_SOCKS_MESSAGE_LEN : Z := 512.
Definition MAX_SOCKS_REPLY_LEN : Z := 1024.
Definition MAX_SOCKS_ADDR_LEN : Z := 256.
Definition SOCKS5_GENERAL_ERROR : Z := 1.
Definition SOCKS5_NOT_ALLOWED : Z := 2.
Definition SOCKS5_COMMAND_NOT_SUPPORTED : Z := 7.
Definition SOCKS5_ADDRESS_TYPE_NOT_SUPPORTED : Z := 8.

Inductive socks_result_t := SOCKS_RESULT_INVALID | SOCKS_RESULT_TRUNCATED | SOCKS_RESULT_DONE | SOCKS_RESULT_MORE_EXPECTED.

#[export] Instance socks_result_eq_dec : EqDecision socks_result_t.
Proof. solve_decision. Defined.

(** [reply] holds the first [replylen] bytes of the array, [username] and [password] the bytes that the pointers and lengths
    delimit, [address] the C string of the array. *)
Record socks_request_t := mkreq {
  socks_version : Z;
  auth_type : Z;
  command : Z;
  reply : bytes;
  address : bytes;
  port : Z;
  got_auth : bool;
  socks_prefer_no_auth : bool;
  username : option bytes;
  password : option bytes;
  socks5_atyp : Z
}.

Definition socks_request_new : socks_request_t := mkreq 0 0 0 [] [] 0 false false None None 0.

Definition set_version v r := mkreq v (auth_type r) (command r) (reply r) (address r) (port r) (got_auth r) (socks_prefer_no_auth r) (username r) (password r) (socks5_atyp r).
Definition set_auth_type a r := mkreq (socks_version r) a (command r) (reply r) (address r) (port r) (got_auth r) (socks_prefer_no_auth r) (username r) (password r) (socks5_atyp r).
Definition set_target c p r := mkreq (socks_version r) (auth_type r) c (reply r) (address r) p (got_auth r) (socks_prefer_no_auth r) (username r) (password r) (socks5_atyp r).
Definition set_reply b r := mkreq (socks_version r) (auth_type r) (command r) b (address r) (port r) (got_auth r) (socks_prefer_no_auth r) (username r) (password r) (socks5_atyp r).
Definition set_address s r := mkreq (socks_version r) (auth_type r) (command r) (reply r) s (port r) (got_auth r) (socks_prefer_no_auth r) (username r) (password r) (socks5_atyp r).
Definition set_atyp a r := mkreq (socks_version r) (auth_type r) (command r) (reply r) (address r) (port r) (got_auth r) (socks_prefer_no_auth r) (username r) (password r) a.
Definition set_got_auth r := mkreq (socks_version r) (auth_type r) (command r) (reply r) (address r) (port r) true (socks_prefer_no_auth r) (username r) (password r) (socks5_atyp r).
Definition set_username u r := mkreq (socks_version r) (auth_type r) (command r) (reply r) (address r) (port r) (got_auth r) (socks_prefer_no_auth r) (Some u) (password r) (socks5_atyp r).
Definition set_password p r := mkreq (socks_version r) (auth_type r) (command r) (reply r) (address r) (port r) (got_auth r) (socks_prefer_no_auth r) (username r) (Some p) (socks5_atyp r).

(** [strlcpy(dst, src, siz)] *)
Definition strlcpy (src : bytes) (siz : Z) : bytes := take (Z.to_nat (siz - 1)) (c_string src).

(** What a parser of [trunnel/socks5.c] reports to its caller. *)
Definition trunnel_call {A R} (m : tres (A * bytes)) (invalid truncated : cres R) (k : A -> bytes -> cres R) : cres R :=
  match m with
  | TOk (a, rest) => k a rest
  | TFail => invalid
  | TTrunc => truncated
  | TBug => Bug
  end.

(** [encode(req->reply, sizeof(req->reply), resp)], with the value of a refusal. *)
Definition encode_reply {R} (m : tres bytes) (k : bytes -> cres R) (failed : cres R) : cres R :=
  match m with TOk b => k b | TBug => Bug | _ => failed end.

Definition socks_request_set_socks5_error (req : socks_request_t) (reason : Z) : cres socks_request_t :=
  let trunnel_resp := mksr SOCKS_VER_5 reason 0 (mkun ATYPE_IPV4 0 None (repeat 0 16)) 0 in
  if negb (socks5_server_reply_check trunnel_resp) then Ok req
  else encode_reply (socks5_server_reply_encode MAX_SOCKS_REPLY_LEN trunnel_resp) (fun b => Ok (set_reply b req)) (Ok req).

Definition SOCKS_PROXY_IS_NOT_AN_HTTP_PROXY_MSG : bytes :=
  s2b "HTTP/1.0 501 Tor is not an HTTP Proxy" ++ [13; 10]
  ++ s2b "Content-Type: text/html; charset=iso-8859-1" ++ [13; 10; 13; 10]
  ++ s2b "<html>" ++ [10]
  ++ s2b "<head>" ++ [10]
  ++ s2b "<title>This is a SOCKS Proxy, Not An HTTP Proxy</title>" ++ [10]
  ++ s2b "</head>" ++ [10]
  ++ s2b "<body>" ++ [10]
  ++ s2b "<h1>This is a SOCKS proxy, not an HTTP proxy.</h1>" ++ [10]
  ++ s2b "<p>" ++ [10]
  ++ s2b "It appears you have configured your web browser to use this Tor port as" ++ [10]
  ++ s2b "an HTTP proxy." ++ [10]
  ++ s2b "</p>" ++ [10]
  ++ s2b "<p>" ++ [10]
  ++ s2b "This is not correct: This port is configured as a SOCKS proxy, not" ++ [10]
  ++ s2b "an HTTP proxy. If you need an HTTP proxy tunnel, use the HTTPTunnelPort" ++ [10]
  ++ s2b "configuration option in place of, or in addition to, SOCKSPort." ++ [10]
  ++ s2b "Please configure your client accordingly." ++ [10]
  ++ s2b "</p>" ++ [10]
  ++ s2b "<p>" ++ [10]
  ++ s2b "See <a href=" ++ [34] ++ s2b "https://www.torproject.org/documentation.html" ++ [34] ++ s2b ">"
  ++ s2b "https://www.torproject.org/documentation.html</a> for more "
  ++ s2b "information." ++ [10]
  ++ s2b "</p>" ++ [10]
  ++ s2b "</body>" ++ [10]
  ++ s2b "</html>" ++ [10].

(** ** Messages *)

Section Messages.

(** The keys of [addressmap] with their entries, and whether unsafe requests are refused. *)
Context {E : Type} (addressmap : gmap bytes E) (safe_socks : bool).

(** [addressmap_have_mapping(address, 0)] *)
Definition addressmap_have_mapping (address : bytes) : bool := bool_decide (is_Some (addressmap !! tor_strlower address)).

(** A request, the bytes to drain, and a result. *)
Definition step : Type := socks_request_t * Z * socks_result_t.

(** Returns also [*is_socks4a]. *)
Definition parse_socks4_request (raw_data : bytes) (req : socks_request_t) : cres (step * bool) :=
  let req := set_version SOCKS_VER_4 req in
  trunnel_call (socks4_client_request_parse raw_data)
    (Ok (req, 0, SOCKS_RESULT_INVALID, false))
    (Ok (req, 0, if MAX_SOCKS_MESSAGE_LEN <=? zlen raw_data then SOCKS_RESULT_INVALID else SOCKS_RESULT_TRUNCATED, false))
    (fun trunnel_req rest =>
       let drain_out := zlen raw_data - zlen rest in
       let req := set_target (s4_command trunnel_req) (s4_port trunnel_req) req in
       let dest_ip := s4_addr trunnel_req in
       if ((port req =? 0) && negb (command req =? SOCKS_COMMAND_RESOLVE)) || (dest_ip =? 0)
       then Ok (req, drain_out, SOCKS_RESULT_INVALID, false)
       else
         let is_socks4a := Z.shiftr dest_ip 8 =? 0 in
         let user := match s4_username trunnel_req with Some u => u | None => [] end in
         let usernamelen := zlen user in
         if negb (usernamelen =? 0) && (MAX_SOCKS_MESSAGE_LEN <? usernamelen) then Ok (req, drain_out, SOCKS_RESULT_INVALID, is_socks4a)
         else
           let req := if usernamelen =? 0 then req else set_username user (set_got_auth req) in
           if is_socks4a then
             let hostname_len := zlen raw_data - (SOCKS4_NETWORK_LEN + usernamelen + 1) in
             if hostname_len <=? MAX_SOCKS_ADDR_LEN then
               let req := match s4_socks4a_addr_hostname trunnel_req with Some h => set_address (strlcpy h MAX_SOCKS_ADDR_LEN) req | None => req end in
               Ok (req, drain_out, SOCKS_RESULT_DONE, is_socks4a)
             else Ok (req, drain_out, SOCKS_RESULT_INVALID, is_socks4a)
           else
             match tor_addr_to_str (tor_addr_from_ipv4h dest_ip) MAX_SOCKS_ADDR_LEN false with
             | Ok s => Ok (set_address s req, drain_out, SOCKS_RESULT_DONE, is_socks4a)
             | Err => Ok (req, drain_out, SOCKS_RESULT_INVALID, is_socks4a)
             | Bug => Bug
             | Fuel => Fuel
             end).

Definition process_socks4_request (req : socks_request_t) (is_socks4a : bool) : cres socks_result_t :=
  if negb is_socks4a && negb (addressmap_have_mapping (address req)) && safe_socks then Ok SOCKS_RESULT_INVALID
  else if negb (command req =? SOCKS_COMMAND_CONNECT) && negb (command req =? SOCKS_COMMAND_RESOLVE) then Ok SOCKS_RESULT_INVALID
  else
    let* valid := string_is_valid_dest (address req) in
    Ok (if valid then SOCKS_RESULT_DONE else SOCKS_RESULT_INVALID).

(** Returns also [*have_user_pass] and [*have_no_auth]. *)
Definition parse_socks5_methods_request (raw_data : bytes) (req : socks_request_t) : cres (step * (bool * bool)) :=
  trunnel_call (socks5_client_version_parse raw_data)
    (Ok (req, 0, SOCKS_RESULT_INVALID, (false, false)))
    (Ok (req, 0, if MAX_SOCKS_MESSAGE_LEN <? zlen raw_data then SOCKS_RESULT_INVALID else SOCKS_RESULT_TRUNCATED, (false, false)))
    (fun trunnel_req rest =>
       let drain_out := zlen raw_data - zlen rest in
       if cv_n_methods trunnel_req =? 0 then Ok (req, drain_out, SOCKS_RESULT_INVALID, (false, false))
       else
         let flags := fold_left (fun '(have_user_pass, have_no_auth) method =>
                        if method =? SOCKS_USER_PASS then (true, have_no_auth)
                        else if method =? SOCKS_NO_AUTH then (have_user_pass, true)
                        else (have_user_pass, have_no_auth)) (cv_methods trunnel_req) (false, false) in
         Ok (req, drain_out, SOCKS_RESULT_DONE, flags)).

Definition process_socks5_methods_request (req : socks_request_t) (have_user_pass have_no_auth : bool) : cres (socks_request_t * socks_result_t) :=
  let '(req, method, res) :=
    if have_user_pass && negb (have_no_auth && socks_prefer_no_auth req)
    then (set_version SOCKS_VER_5 (set_auth_type SOCKS_USER_PASS req), SOCKS_USER_PASS, SOCKS_RESULT_DONE)
    else if have_no_auth
    then (set_version SOCKS_VER_5 (set_auth_type SOCKS_NO_AUTH req), SOCKS_NO_AUTH, SOCKS_RESULT_DONE)
    else (req, 255, SOCKS_RESULT_INVALID) in
  let trunnel_resp := mksm SOCKS_VER_5 method in
  if negb (socks5_server_method_check trunnel_resp) then Ok (req, SOCKS_RESULT_INVALID)
  else
    encode_reply (socks5_server_method_encode MAX_SOCKS_REPLY_LEN trunnel_resp)
      (fun b => Ok (set_reply b req, res)) (Ok (req, SOCKS_RESULT_INVALID)).

Definition extended_prefix : bytes := s2b "<torS0X>".

Definition parse_socks5_userpass_auth (raw_data : bytes) (req : socks_request_t) : cres step :=
  trunnel_call (socks5_client_userpass_auth_parse raw_data)
    (Ok (req, 0, SOCKS_RESULT_INVALID))
    (Ok (req, 0, SOCKS_RESULT_TRUNCATED))
    (fun trunnel_req rest =>
       let drain_out := zlen raw_data - zlen rest in
       let usernamelen := up_username_len trunnel_req in
       let passwordlen := up_passwd_len trunnel_req in
       let user := up_username trunnel_req in
       let* extended := (if 8 <=? usernamelen then tor_memeq user extended_prefix 8 else Ok 0) in
       let* refused :=
         (if extended =? 0 then Ok false
          else if negb (usernamelen =? 9) then Ok true
          else let* eq := tor_memeq user (extended_prefix ++ [48]) 9 in Ok (eq =? 0)) in
       if (refused : bool) then Ok (req, drain_out, SOCKS_RESULT_INVALID)
       else
         let req := if usernamelen =? 0 then req else set_username user req in
         let req := if passwordlen =? 0 then req else set_password (up_passwd trunnel_req) req in
         Ok (set_got_auth req, drain_out, SOCKS_RESULT_DONE)).

Definition process_socks5_userpass_auth (req : socks_request_t) : cres (socks_request_t * socks_result_t) :=
  if negb (socks_version req =? SOCKS_VER_5) then Ok (req, SOCKS_RESULT_INVALID)
  else if negb (auth_type req =? SOCKS_USER_PASS) && negb (auth_type req =? SOCKS_NO_AUTH) then Ok (req, SOCKS_RESULT_INVALID)
  else
    let trunnel_resp := mksu SOCKS_AUTH 0 in
    if negb (socks5_server_userpass_auth_check trunnel_resp) then Ok (req, SOCKS_RESULT_INVALID)
    else
      encode_reply (socks5_server_userpass_auth_encode MAX_SOCKS_REPLY_LEN trunnel_resp)
        (fun b => Ok (set_reply b req, SOCKS_RESULT_DONE)) (Ok (req, SOCKS_RESULT_INVALID)).

(** The result of [tor_addr_to_str] is not looked at: should it fail, what the address holds is undefined. *)
Definition store_address (a : tor_addr_t) (req : socks_request_t) : cres socks_request_t :=
  match tor_addr_to_str a MAX_SOCKS_ADDR_LEN true with Ok s => Ok (set_address s req) | Fuel => Fuel | _ => Bug end.

(** [drain_out] was set to 0 by the caller. *)
Definition parse_socks5_client_request (raw_data : bytes) (req : socks_request_t) : cres step :=
  trunnel_call (socks5_client_request_parse raw_data)
    (let* req := socks_request_set_socks5_error req SOCKS5_GENERAL_ERROR in Ok (req, 0, SOCKS_RESULT_INVALID))
    (Ok (req, 0, SOCKS_RESULT_TRUNCATED))
    (fun trunnel_req rest =>
       let drain_out := zlen raw_data - zlen rest in
       if negb (cr_version trunnel_req =? 5) then
         let* req := socks_request_set_socks5_error req SOCKS5_GENERAL_ERROR in Ok (req, drain_out, SOCKS_RESULT_INVALID)
       else
         let req := set_target (cr_command trunnel_req) (cr_dest_port trunnel_req) req in
         let dest := cr_dest trunnel_req in
         let req := set_atyp (un_atype dest) req in
         if un_atype dest =? 1 then
           let* req := store_address (tor_addr_from_ipv4h (un_ipv4 dest)) req in Ok (req, drain_out, SOCKS_RESULT_DONE)
         else if un_atype dest =? 3 then
           match un_domainname dest with
           | None => Bug
           | Some dns_name => Ok (set_address (strlcpy (dn_name dns_name) MAX_SOCKS_ADDR_LEN) req, drain_out, SOCKS_RESULT_DONE)
           end
         else if un_atype dest =? 4 then
           let* req := store_address (tor_addr_from_ipv6_bytes (un_ipv6 dest)) req in Ok (req, drain_out, SOCKS_RESULT_DONE)
         else
           let* req := socks_request_set_socks5_error req SOCKS5_ADDRESS_TYPE_NOT_SUPPORTED in Ok (req, drain_out, SOCKS_RESULT_INVALID)).

Definition process_socks5_client_request (req : socks_request_t) : cres (socks_request_t * socks_result_t) :=
  let refuse reason := let* req := socks_request_set_socks5_error req reason in Ok (req, SOCKS_RESULT_INVALID) in
  if negb (command req =? SOCKS_COMMAND_CONNECT) && negb (command req =? SOCKS_COMMAND_RESOLVE)
     && negb (command req =? SOCKS_COMMAND_RESOLVE_PTR)
  then refuse SOCKS5_COMMAND_NOT_SUPPORTED
  else
    let* bad_ptr :=
      (if command req =? SOCKS_COMMAND_RESOLVE_PTR
       then match tor_addr_parse (address req) with Ok _ => Ok false | Err => Ok true | Bug => Bug | Fuel => Fuel end
       else Ok false) in
    if (bad_ptr : bool) then refuse SOCKS5_ADDRESS_TYPE_NOT_SUPPORTED
    else
      let* valid := string_is_valid_dest (address req) in
      if negb valid then refuse SOCKS5_GENERAL_ERROR
      else if ((socks5_atyp req =? 1) || (socks5_atyp req =? 4))
              && (negb (command req =? SOCKS_COMMAND_RESOLVE_PTR) && negb (addressmap_have_mapping (address req))) && safe_socks
      then refuse SOCKS5_NOT_ALLOWED
      else Ok (req, SOCKS_RESULT_DONE).

(** ** The dialogue *)

Definition handle_socks_message (raw_data : bytes) (req : socks_request_t) : cres step :=
  let socks_ver := if cur raw_data =? SOCKS_AUTH then SOCKS_VER_5 else cur raw_data in
  if socks_ver =? SOCKS_VER_4 then
    if zlen raw_data <? SOCKS4_NETWORK_LEN then Ok (req, 0, SOCKS_RESULT_TRUNCATED)
    else
      let* (req, drain_out, res, is_socks4a) := parse_socks4_request raw_data req in
      if negb (bool_decide (res = SOCKS_RESULT_DONE)) then Ok (req, drain_out, res)
      else let* res := process_socks4_request req is_socks4a in Ok (req, drain_out, res)
  else if socks_ver =? SOCKS_VER_5 then
    if zlen raw_data <? 2 then Ok (req, 0, SOCKS_RESULT_TRUNCATED)
    else if negb (got_auth req) && ((cur raw_data =? 1) || (auth_type req =? SOCKS_USER_PASS)) then
      let* (req, drain_out, res) := parse_socks5_userpass_auth raw_data req in
      if negb (bool_decide (res = SOCKS_RESULT_DONE)) then Ok (req, drain_out, res)
      else
        let* (req, res) := process_socks5_userpass_auth req in
        Ok (req, drain_out, if bool_decide (res = SOCKS_RESULT_DONE) then SOCKS_RESULT_MORE_EXPECTED else res)
    else if negb (socks_version req =? SOCKS_VER_5) then
      let* (req, drain_out, res, (have_user_pass, have_no_auth)) := parse_socks5_methods_request raw_data req in
      if negb (bool_decide (res = SOCKS_RESULT_DONE)) then Ok (req, drain_out, res)
      else
        let* (req, res) := process_socks5_methods_request req have_user_pass have_no_auth in
        Ok (req, drain_out, if bool_decide (res = SOCKS_RESULT_DONE) then SOCKS_RESULT_MORE_EXPECTED else res)
    else
      let* (req, drain_out, res) := parse_socks5_client_request raw_data req in
      let* req :=
        (if bool_decide (res = SOCKS_RESULT_INVALID) && (zlen (reply req) =? 0)
         then socks_request_set_socks5_error req SOCKS5_GENERAL_ERROR else Ok req) in
      if negb (bool_decide (res = SOCKS_RESULT_DONE)) then Ok (req, drain_out, res)
      else
        let* (req, res) := process_socks5_client_request req in Ok (req, drain_out, res)
  else Ok (req, zlen raw_data, SOCKS_RESULT_INVALID).

(** [datalen < 2] is asked first; the letters are those of GET, HEAD, PUT or POST, and CONNECT. *)
Definition parse_socks (data : bytes) (req : socks_request_t) : cres step :=
  if zlen data <? 2 then Ok (req, 0, SOCKS_RESULT_TRUNCATED)
  else
    let first_octet := cur data in
    if (first_octet =? SOCKS_VER_5) || (first_octet =? SOCKS_VER_4) || (first_octet =? SOCKS_AUTH) then handle_socks_message data req
    else
      let req :=
        if (first_octet =? 71) || (first_octet =? 72) || (first_octet =? 80) || (first_octet =? 67)
        then set_reply (strlcpy SOCKS_PROXY_IS_NOT_AN_HTTP_PROXY_MSG MAX_SOCKS_REPLY_LEN ++ [0]) req else req in
      Ok (req, 0, SOCKS_RESULT_INVALID).

(** ** Reading from a buffer *)

Context {B : Type} `{ByteQueue B}.

(** The [do] loop.  Every round but the last one drains a message. *)
Fixpoint socks_loop (fuel : nat) (buf : B) (req : socks_request_t) : cres (B * socks_request_t * Z) :=
  match fuel with
  | O => Fuel
  | S fuel =>
      let n_pullup := Z.min MAX_SOCKS_MESSAGE_LEN (q_datalen buf) in
      let* (buf, head) := q_pullup buf n_pullup in
      match head with
      | None => Bug
      | Some head =>
          if negb (2 <=? zlen head) then Bug
          else
            let* (req, n_drain, socks_res) := parse_socks head req in
            match socks_res with
            | SOCKS_RESULT_INVALID => let* buf := q_clear buf in Ok (buf, req, -1)
            | SOCKS_RESULT_DONE => let* buf := (if 0 <? n_drain then q_drain buf n_drain else Ok buf) in Ok (buf, req, 1)
            | SOCKS_RESULT_TRUNCATED =>
                if zlen head =? n_pullup then Ok (buf, req, 0)
                else if 2 <=? q_datalen buf then socks_loop fuel buf req else Ok (buf, req, 0)
            | SOCKS_RESULT_MORE_EXPECTED =>
                let* buf := (if 0 <? n_drain then q_drain buf n_drain else Ok buf) in
                if 2 <=? q_datalen buf then socks_loop fuel buf req else Ok (buf, req, 0)
            end
      end
  end.

Definition fetch_from_buf_socks (buf : B) (req : socks_request_t) : cres (B * socks_request_t * Z) :=
  if q_datalen buf <? 2 then Ok (buf, req, 0) else socks_loop (S (Z.to_nat (q_datalen buf))) buf req.

End Messages.

(** ** The answers of an upstream proxy *)

Inductive proxy_state_t :=
  | PROXY_SOCKS4_WANT_CONNECT_OK
  | PROXY_SOCKS5_WANT_AUTH_METHOD_NONE
  | PROXY_SOCKS5_WANT_AUTH_METHOD_RFC1929
  | PROXY_SOCKS5_WANT_AUTH_RFC1929_OK
  | PROXY_SOCKS5_WANT_CONNECT_OK
  | PROXY_OTHER.

Definition socks4_response_code_to_string (code : Z) : bytes :=
  if code =? 0x5a then s2b "connection accepted"
  else if code =? 0x5b then s2b "server rejected connection"
  else if code =? 0x5c then s2b "server cannot connect to identd on this client"
  else if code =? 0x5d then s2b "user id does not match identd"
  else s2b "invalid SOCKS 4 response code".

Definition socks5_response_code_to_string (code : Z) : bytes :=
  if code =? 0 then s2b "connection accepted"
  else if code =? 1 then s2b "general SOCKS server failure"
  else if code =? 2 then s2b "connection not allowed by ruleset"
  else if code =? 3 then s2b "Network unreachable"
  else if code =? 4 then s2b "Host unreachable"
  else if code =? 5 then s2b "Connection refused"
  else if code =? 6 then s2b "TTL expired"
  else if code =? 7 then s2b "Command not supported"
  else if code =? 8 then s2b "Address type not supported"
  else s2b "unknown reason".

(** The return value, the reason of a failure, and [*drain_out]. *)
Definition parse_socks_client (data : bytes) (state : proxy_state_t) : cres (Z * option bytes * Z) :=
  if zlen data <? 2 then Ok (0, None, 0)
  else
    let* code := aget data 1 in
    match state with
    | PROXY_SOCKS4_WANT_CONNECT_OK =>
        if zlen data <? 8 then Ok (0, None, 0)
        else if negb (code =? 0x5a) then Ok (-1, Some (socks4_response_code_to_string code), 0)
        else Ok (1, None, 8)
    | PROXY_SOCKS5_WANT_AUTH_METHOD_NONE =>
        if negb (code =? 0) then Ok (-1, Some (s2b "server doesn't support any of our available authentication methods"), 0)
        else Ok (1, None, -1)
    | PROXY_SOCKS5_WANT_AUTH_METHOD_RFC1929 =>
        if code =? 0 then Ok (1, None, -1)
        else if code =? 2 then Ok (2, None, -1)
        else Ok (-1, Some (s2b "server doesn't support any of our available authentication methods"), 0)
    | PROXY_SOCKS5_WANT_AUTH_RFC1929_OK =>
        if negb (code =? 0) then Ok (-1, Some (s2b "authentication failed"), 0) else Ok (1, None, -1)
    | PROXY_SOCKS5_WANT_CONNECT_OK =>
        if zlen data <? 4 then Ok (0, None, 0)
        else
          let* atype := aget data 3 in
          let finish addrlen :=
            if zlen data <? 6 + addrlen then Ok (0, None, 0)
            else if negb (code =? 0) then Ok (-1, Some (socks5_response_code_to_string code), 0)
            else Ok (1, None, 6 + addrlen) in
          if atype =? 1 then finish 4
          else if atype =? 4 then finish 16
          else if atype =? 3 then
            if zlen data <? 5 then Ok (0, None, 0) else let* len := aget data 4 in finish (1 + len)
          else Ok (-1, Some (s2b "invalid response to connect request"), 0)
    | PROXY_OTHER => Bug
    end.

Definition fetch_from_buf_socks_client {B} `{ByteQueue B} (buf : B) (state : proxy_state_t) : cres (B * (Z * option bytes)) :=
  if q_datalen buf <? 2 then Ok (buf, (0, None))
  else
    let* (buf, head) := q_pullup buf MAX_SOCKS_MESSAGE_LEN in
    match head with
    | None => Bug
    | Some head =>
        if negb (2 <=? zlen head) then Bug
        else
          let* (r, reason, drain) := parse_socks_client head state in
          let* buf := (if 0 <? drain then q_drain buf drain else if drain <? 0 then q_clear buf else Ok buf) in
          Ok (buf, (r, reason))
    end.

(** ** Examples *)

Definition run (reqs : bytes) (req : socks_request_t) := fetch_from_buf_socks (E := unit) ∅ true reqs req.

Example socks5_no_auth :
  run ([5; 1; 0] ++ [5; 1; 0; 3; 9] ++ s2b "tor.onion" ++ [0; 80] ++ s2b "GET") socks_request_new
  = Ok (s2b "GET", mkreq 5 0 1 [5; 0] (s2b "tor.onion") 80 false false None None 3, 1).
Proof. vm_compute. reflexivity. Qed.

Example socks5_unsafe_refused :
  run ([5; 1; 0] ++ [5; 1; 0; 1; 10; 0; 0; 1; 0; 80]) socks_request_new
  = Ok ([], mkreq 5 0 1 [5; 2; 0; 1; 0; 0; 0; 0; 0; 0] (s2b "10.0.0.1") 80 false false None None 1, -1).
Proof. vm_compute. reflexivity. Qed.

Example socks4a :
  run ([4; 1; 0; 80; 0; 0; 0; 7] ++ s2b "me" ++ [0] ++ s2b "tor.onion" ++ [0]) socks_request_new
  = Ok ([], mkreq 4 0 1 [] (s2b "tor.onion") 80 true false (Some (s2b "me")) None 0, 1).
Proof. vm_compute. reflexivity. Qed.

(** ** Requests are well-formed *)

Record req_ok (r : socks_request_t) : Prop := mk_req_ok {
  ro_bytes : Forall is_byte (address r);
  ro_text : no_nul (address r);
  ro_addr : zlen (address r) < MAX_SOCKS_ADDR_LEN;
  ro_reply : zlen (reply r) <= MAX_SOCKS_REPLY_LEN
}.

Lemma req_ok_same r r' : address r' = address r -> reply r' = reply r -> req_ok r -> req_ok r'.
Proof. intros Ha Hr [H1 H2 H3 H4]. split; by rewrite ?Ha, ?Hr. Qed.

Lemma req_ok_address r r' : Forall is_byte (address r') -> no_nul (address r') -> zlen (address r') < MAX_SOCKS_ADDR_LEN -> reply r' = reply r -> req_ok r -> req_ok r'.
Proof. intros H1 H2 H3 Hr [_ _ _ H4]. split; by rewrite ?Hr. Qed.

Lemma req_ok_reply b r : zlen b <= MAX_SOCKS_REPLY_LEN -> req_ok r -> req_ok (set_reply b r).
Proof. intros Hb [H1 H2 H3 H4]. by split. Qed.

Lemma strlcpy_ok s n : Forall is_byte s -> 1 <= n -> Forall is_byte (strlcpy s n) /\ no_nul (strlcpy s n) /\ zlen (strlcpy s n) < n.
Proof.
  intros Hs Hn. destruct (c_string_ok s Hs) as [H1 H2]. unfold strlcpy, no_nul. split_and!; [by apply Forall_take|by apply Forall_take|].
  unfold zlen. rewrite length_take. lia.
Qed.

Lemma strlcpy_fits s n : no_nul s -> zlen s < n -> strlcpy s n = s.
Proof. intros Hs Hn. unfold strlcpy. rewrite c_string_id by done. apply take_ge. unfold zlen in Hn. lia. Qed.

(** The text of an error is ten bytes long. *)
Lemma set_error_ok req reason : socks_request_set_socks5_error req reason = Ok (set_reply [5; u8 reason; 0; 1; 0; 0; 0; 0; 0; 0] req).
Proof. reflexivity. Qed.

Lemma ipv4h_ok v : addr_ok (tor_addr_from_ipv4h v).
Proof.
  split; cbn; [by left|done|]. unfold htonl_bytes. repeat constructor; unfold u8; apply Z.mod_pos_bound; lia.
Qed.

Lemma v6_ok b : zlen b = 16 -> Forall is_byte b -> addr_ok (tor_addr_from_ipv6_bytes b).
Proof. intros H1 H2. split; cbn; [by right|done|done]. Qed.

Lemma addr_len_range : TOR_ADDR_BUF_LEN <= MAX_SOCKS_ADDR_LEN <= SIZE_T_CEILING.
Proof. unfold TOR_ADDR_BUF_LEN, MAX_SOCKS_ADDR_LEN, SIZE_T_CEILING. lia. Qed.

Lemma printed_ok a decorate :
  addr_ok a -> exists s, tor_addr_to_str a MAX_SOCKS_ADDR_LEN decorate = Ok s /\ tor_addr_parse s = Ok a
    /\ (Forall is_byte s /\ no_nul s /\ zlen s < MAX_SOCKS_ADDR_LEN).
Proof.
  intros Ha. destruct (addr_text a MAX_SOCKS_ADDR_LEN decorate Ha addr_len_range) as (s & E & Hp & _). exists s.
  split; [done|]. split; [done|]. by apply (addr_text_chars a _ decorate).
Qed.

(** ** Every message is answered *)

(** Case analysis on the first test of the goal. *)
Ltac case_if E := match goal with |- context [if ?b then _ else _] => destruct b eqn:E end.

(** The client gave a name and not an address. *)
Definition names_host (data : bytes) : Prop :=
  (exists r rest, socks4_client_request_parse data = TOk (r, rest) /\ socks4a_addr (s4_addr r) = true)
  \/ (exists r rest, socks5_client_request_parse data = TOk (r, rest) /\ un_atype (cr_dest r) = ATYPE_DOMAINNAME).

Section Handlers.

Context {E : Type} (addressmap : gmap bytes E) (safe_socks : bool).

(** What holds of a request that is accepted after the message [data]. *)
Record accepted (data : bytes) (r : socks_request_t) : Prop := mk_accepted {
  acc_command : command r = SOCKS_COMMAND_CONNECT \/ command r = SOCKS_COMMAND_RESOLVE \/ command r = SOCKS_COMMAND_RESOLVE_PTR;
  acc_dest : string_is_valid_dest (address r) = Ok true;
  acc_ptr : command r = SOCKS_COMMAND_RESOLVE_PTR -> exists a, tor_addr_parse (address r) = Ok a;
  acc_safe : safe_socks = true -> names_host data \/ command r = SOCKS_COMMAND_RESOLVE_PTR \/ addressmap_have_mapping addressmap (address r) = true
}.

Definition step_ok (data : bytes) (st : step) : Prop :=
  let '(r, n, res) := st in
  req_ok r
  /\ match res with
     | SOCKS_RESULT_TRUNCATED => zlen data <= MAX_SOCKS_MESSAGE_LEN
     | SOCKS_RESULT_MORE_EXPECTED => 2 <= n <= zlen data
     | SOCKS_RESULT_DONE => 2 <= n <= zlen data /\ accepted data r
     | SOCKS_RESULT_INVALID => True
     end.

Lemma reads_drain {A} lo hi s (Q : A -> Prop) a r : reads lo hi s Q (TOk (a, r)) -> lo <= zlen s - zlen r <= Z.min hi (zlen s) /\ Q a.
Proof. intros [(c & -> & Hc) Ha]. split; [|done]. pose proof (zlen_nonneg r). zlia. Qed.

Lemma shiftr8_zero v : 0 <= v -> v <> 0 -> (Z.shiftr v 8 =? 0) = socks4a_addr v.
Proof.
  intros H0 Hn. unfold socks4a_addr. rewrite Z.shiftr_div_pow2 by lia. change (2 ^ 8) with 256.
  destruct (Z.eqb_spec (v / 256) 0) as [H|H]; [|symmetry; apply andb_false_iff; right].
  - assert (v < 256) by (apply Z.div_small_iff in H; lia). symmetry. blia.
  - apply Z.leb_gt. destruct (Z.lt_ge_cases 255 v); [done|]. exfalso. apply H. apply Z.div_small. lia.
Qed.

Lemma parse_socks4_ok data req :
  Forall is_byte data -> req_ok req ->
  exists r n res is4a, parse_socks4_request data req = Ok (r, n, res, is4a) /\ req_ok r
    /\ match res with
       | SOCKS_RESULT_TRUNCATED => zlen data <= MAX_SOCKS_MESSAGE_LEN
       | SOCKS_RESULT_DONE => 2 <= n <= zlen data /\ (is4a = true -> names_host data)
       | SOCKS_RESULT_MORE_EXPECTED => False
       | SOCKS_RESULT_INVALID => True
       end.
Proof.
  intros Hd Hr. pose proof (socks4_request_reads data Hd) as HR. unfold parse_socks4_request, trunnel_call.
  destruct (socks4_client_request_parse data) as [[m rest]| | |] eqn:EP; [|by do 4 eexists; (split; [done|]); split; [apply (req_ok_same req)|destruct (Z.leb_spec MAX_SOCKS_MESSAGE_LEN (zlen data)); [done|lia]]
    |by do 4 eexists; (split; [done|]); split; [apply (req_ok_same req)|]|done].
  apply reads_drain in HR as (Hn & Hc & Hp & Ha & (u & Hu & Ub & Un) & Hh). cbv zeta. rewrite Hu.
  destruct (_ || _) eqn:E0; [by do 4 eexists; (split; [done|]); split; [apply (req_ok_same req)|]|].
  apply orb_false_iff in E0 as [_ E0]. apply Z.eqb_neq in E0. rewrite shiftr8_zero by lia.
  destruct (_ && _); [by do 4 eexists; (split; [done|]); split; [apply (req_ok_same req)|]|].
  destruct (socks4a_addr (s4_addr m)) eqn:Ea.
  - destruct Hh as (h & -> & Hb & Hnn). destruct (_ <=? _); do 4 eexists; (split; [done|]); [|by destruct (_ =? _); (split; [apply (req_ok_same req)|])].
    destruct (strlcpy_ok h MAX_SOCKS_ADDR_LEN Hb) as (? & ? & ?); [unfold MAX_SOCKS_ADDR_LEN; lia|].
    split; [by destruct (_ =? _); apply (req_ok_address req)|]. split; [lia|]. intros _. left. eauto.
  - destruct (printed_ok (tor_addr_from_ipv4h (s4_addr m)) false (ipv4h_ok _)) as (s & -> & _ & ? & ? & ?).
    do 4 eexists; (split; [done|]). split; [by destruct (_ =? _); apply (req_ok_address req)|]. split; [lia|done].
Qed.

Lemma process_socks4_ok data r is4a :
  req_ok r -> (is4a = true -> names_host data) ->
  exists res, process_socks4_request addressmap safe_socks r is4a = Ok res
    /\ (res = SOCKS_RESULT_INVALID \/ (res = SOCKS_RESULT_DONE /\ accepted data r)).
Proof.
  intros Hr H4. unfold process_socks4_request. case_if E1; [eauto|]. case_if E2; [eauto|].
  destruct (valid_dest_total (address r)) as (b & Eb); [apply Hr..|]. rewrite Eb. cbn [cbind]. eexists. split; [done|].
  destruct b; [right|by left]. split; [done|]. unfold SOCKS_COMMAND_CONNECT, SOCKS_COMMAND_RESOLVE in *.
  split; [unfold SOCKS_COMMAND_CONNECT, SOCKS_COMMAND_RESOLVE; blia|done|unfold SOCKS_COMMAND_RESOLVE_PTR; intros ?; exfalso; blia|]. intros ->. destruct is4a; [left; auto|right; right].
  destruct (addressmap_have_mapping _ _); done.
Qed.

Lemma parse_methods_ok data req :
  Forall is_byte data -> req_ok req ->
  exists n res flags, parse_socks5_methods_request data req = Ok (req, n, res, flags)
    /\ match res with
       | SOCKS_RESULT_TRUNCATED => zlen data <= MAX_SOCKS_MESSAGE_LEN
       | SOCKS_RESULT_DONE => 2 <= n <= zlen data
       | SOCKS_RESULT_MORE_EXPECTED => False
       | SOCKS_RESULT_INVALID => True
       end.
Proof.
  intros Hd Hr. pose proof (client_version_reads data Hd) as HR. unfold parse_socks5_methods_request, trunnel_call.
  destruct (socks5_client_version_parse data) as [[m rest]| | |]; [| |by do 3 eexists|done].
  - apply reads_drain in HR as (Hn & _). cbv zeta. case_if E0; do 3 eexists; (split; [done|]); cbv iota; [done|lia].
  - do 3 eexists. split; [done|]. destruct (Z.ltb_spec MAX_SOCKS_MESSAGE_LEN (zlen data)); [done|lia].
Qed.

Lemma process_methods_ok req up na :
  req_ok req -> exists r res, process_socks5_methods_request req up na = Ok (r, res) /\ req_ok r /\ (res = SOCKS_RESULT_DONE \/ res = SOCKS_RESULT_INVALID).
Proof.
  intros Hr. unfold process_socks5_methods_request.
  destruct (up && _); [|destruct na]; cbn; do 2 eexists; (split; [reflexivity|]); (split; [apply req_ok_reply; [by vm_compute|by apply (req_ok_same req)]|tauto]).
Qed.

(** The comparison with the extended-parameter prefix never reads past the user name. *)
Lemma memeq_total a b n : (n <= length a)%nat -> (n <= length b)%nat -> Forall is_byte a -> Forall is_byte b -> exists v, tor_memeq a b n = Ok v.
Proof. intros. rewrite tor_memeq_spec by done. eauto. Qed.

Lemma parse_userpass_ok data req :
  Forall is_byte data -> req_ok req ->
  exists r n res, parse_socks5_userpass_auth data req = Ok (r, n, res) /\ req_ok r
    /\ match res with
       | SOCKS_RESULT_TRUNCATED => zlen data <= MAX_SOCKS_MESSAGE_LEN
       | SOCKS_RESULT_DONE => 2 <= n <= zlen data
       | SOCKS_RESULT_MORE_EXPECTED => False
       | SOCKS_RESULT_INVALID => True
       end.
Proof.
  intros Hd Hr. pose proof (userpass_reads data Hd) as HR. unfold parse_socks5_userpass_auth, trunnel_call.
  destruct (socks5_client_userpass_auth_parse data) as [[m rest]| | |]; [| |by do 3 eexists|done]; cycle 1.
  { do 3 eexists. split; [done|]. split; [done|]. unfold MAX_SOCKS_MESSAGE_LEN. cbn in HR. cbv iota. lia. }
  apply reads_drain in HR as (Hn & (Hul & Hu & Hub) & (Hpl & Hp & Hpb)). cbv zeta.
  assert (He : exists v, (if 8 <=? up_username_len m then tor_memeq (up_username m) extended_prefix 8 else Ok 0) = Ok v).
  { destruct (Z.leb_spec 8 (up_username_len m)); [|eauto]. apply memeq_total; [unfold zlen in Hu; lia|cbn; lia|done|by repeat constructor]. }
  destruct He as (v & ->). cbn [cbind].
  assert (Hf : exists b, (if v =? 0 then Ok false else if negb (up_username_len m =? 9) then Ok true
            else let* eq := tor_memeq (up_username m) (extended_prefix ++ [48]) 9 in Ok (eq =? 0)) = Ok b).
  { destruct (v =? 0); [eauto|]. destruct (Z.eqb_spec (up_username_len m) 9) as [E9|]; cbn [negb]; [|eauto].
    destruct (memeq_total (up_username m) (extended_prefix ++ [48]) 9) as (w & ->); [unfold zlen in Hu; lia|cbn; lia|done|by repeat constructor|]. cbn. eauto. }
  destruct Hf as (b & ->). cbn [cbind]. destruct b; do 3 eexists; (split; [done|]); [done|].
  split; [destruct (_ =? 0), (_ =? 0); by apply (req_ok_same req)|cbv iota; lia].
Qed.

Lemma process_userpass_ok req :
  req_ok req -> exists r res, process_socks5_userpass_auth req = Ok (r, res) /\ req_ok r /\ (res = SOCKS_RESULT_DONE \/ res = SOCKS_RESULT_INVALID).
Proof.
  intros Hr. unfold process_socks5_userpass_auth. destruct (negb (_ =? SOCKS_VER_5)); [by do 2 eexists; split; [done|auto]|].
  case_if E0; [by do 2 eexists; split; [done|auto]|]. cbn. do 2 eexists. split; [reflexivity|]. split; [apply req_ok_reply; [by vm_compute|done]|by left].
Qed.

Lemma store_address_ok a req :
  addr_ok a -> req_ok req -> exists s, store_address a req = Ok (set_address s req) /\ req_ok (set_address s req).
Proof.
  intros Ha Hr. unfold store_address. destruct (printed_ok a true Ha) as (s & -> & _ & ? & ? & ?). exists s.
  split; [done|by apply (req_ok_address req)].
Qed.

Lemma parse_request_ok data req :
  Forall is_byte data -> req_ok req ->
  exists r n res, parse_socks5_client_request data req = Ok (r, n, res) /\ req_ok r
    /\ match res with
       | SOCKS_RESULT_TRUNCATED => zlen data <= MAX_SOCKS_MESSAGE_LEN
       | SOCKS_RESULT_DONE => 2 <= n <= zlen data /\ (names_host data \/ socks5_atyp r = 1 \/ socks5_atyp r = 4)
       | SOCKS_RESULT_MORE_EXPECTED => False
       | SOCKS_RESULT_INVALID => True
       end.
Proof.
  intros Hd Hr. pose proof (client_request_reads data Hd) as HR. unfold parse_socks5_client_request, trunnel_call.
  destruct (socks5_client_request_parse data) as [[m rest]| | |] eqn:EP; [| | |done]; cycle 1.
  { do 3 eexists. split; [done|]. split; [done|]. unfold MAX_SOCKS_MESSAGE_LEN. cbn in HR. cbv iota. lia. }
  { rewrite set_error_ok. cbn [cbind]. do 3 eexists. split; [done|]. split; [by apply req_ok_reply|done]. }
  apply reads_drain in HR as (Hn & Hv & Hc & Hp & _ & Hu). cbv zeta. rewrite Hv. change (negb (5 =? 5)) with false. cbv iota.
  destruct Hu as [(Ha & Hi)|[(Ha & Hi & Hib)|(Ha & d & Hdn & Hl & Hb)]]; rewrite Ha; cbn [Z.eqb Pos.eqb ATYPE_IPV4 ATYPE_IPV6 ATYPE_DOMAINNAME].
  - edestruct (store_address_ok (tor_addr_from_ipv4h (un_ipv4 (cr_dest m)))) as (s & -> & Hs); [apply ipv4h_ok| |].
    { by apply (req_ok_same req). } cbn [cbind]. do 3 eexists. split; [done|]. split; [done|]. split; [lia|]. right. by left.
  - edestruct (store_address_ok (tor_addr_from_ipv6_bytes (un_ipv6 (cr_dest m)))) as (s & -> & Hs); [by apply v6_ok| |].
    { by apply (req_ok_same req). } cbn [cbind]. do 3 eexists. split; [done|]. split; [done|]. split; [lia|]. right. by right.
  - rewrite Hdn. do 3 eexists. split; [done|]. destruct (strlcpy_ok (dn_name d) MAX_SOCKS_ADDR_LEN Hb) as (? & ? & ?); [unfold MAX_SOCKS_ADDR_LEN; lia|].
    split; [by apply (req_ok_address req)|]. split; [lia|]. left. right. eauto.
Qed.

Lemma process_request_ok data req :
  req_ok req -> names_host data \/ socks5_atyp req = 1 \/ socks5_atyp req = 4 ->
  exists r res, process_socks5_client_request addressmap safe_socks req = Ok (r, res) /\ req_ok r
    /\ (res = SOCKS_RESULT_INVALID \/ (res = SOCKS_RESULT_DONE /\ r = req /\ accepted data r)).
Proof.
  intros Hr Hh. unfold process_socks5_client_request. cbv zeta.
  assert (Hbad : forall reason, exists r res, (let* r := socks_request_set_socks5_error req reason in Ok (r, SOCKS_RESULT_INVALID)) = Ok (r, res) /\ req_ok r
    /\ (res = SOCKS_RESULT_INVALID \/ (res = SOCKS_RESULT_DONE /\ r = req /\ accepted data r))).
  { intros reason. rewrite set_error_ok. cbn [cbind]. do 2 eexists. split; [done|]. split; [by apply req_ok_reply|by left]. }
  case_if E0; [apply Hbad|]. apply andb_false_iff in E0.
  assert (Hc : command req = SOCKS_COMMAND_CONNECT \/ command req = SOCKS_COMMAND_RESOLVE \/ command req = SOCKS_COMMAND_RESOLVE_PTR)
    by (unfold SOCKS_COMMAND_CONNECT, SOCKS_COMMAND_RESOLVE, SOCKS_COMMAND_RESOLVE_PTR in *; blia).
  assert (Hp : exists b, (if command req =? SOCKS_COMMAND_RESOLVE_PTR then match tor_addr_parse (address req) with Ok _ => Ok false | Err => Ok true | Bug => Bug | Fuel => Fuel end else Ok false) = Ok b
    /\ (b = false -> command req = SOCKS_COMMAND_RESOLVE_PTR -> exists a, tor_addr_parse (address req) = Ok a)).
  { destruct (Z.eqb_spec (command req) SOCKS_COMMAND_RESOLVE_PTR); [|by exists false].
    destruct (addr_parse_total (address req) true) as [Ea|(a & Ea & _)]; [apply Hr..| |]; unfold tor_addr_parse; rewrite Ea; [by exists true|exists false; eauto]. }
  destruct Hp as (b & -> & Hptr). cbn [cbind]. destruct b; [apply Hbad|].
  destruct (valid_dest_total (address req)) as (v & Ev); [apply Hr..|]. rewrite Ev. cbn [cbind]. destruct v; cbn [negb]; [|apply Hbad].
  case_if E1; [apply Hbad|]. do 2 eexists. split; [done|]. split; [done|]. right. split; [done|]. split; [done|]. split; [done|done|auto|].
  intros ->. destruct Hh as [Hh|Ht]; [by left|]. right. rewrite andb_true_r in E1. replace ((_ =? 1) || _) with true in E1 by blia. cbn [andb] in E1.
  apply andb_false_iff in E1 as [E1|E1]; apply negb_false_iff in E1; [left; by apply Z.eqb_eq|by right].
Qed.

Lemma handle_ok data req :
  Forall is_byte data -> 2 <= zlen data -> req_ok req -> exists st, handle_socks_message addressmap safe_socks data req = Ok st /\ step_ok data st.
Proof.
  intros Hd H2 Hr. unfold handle_socks_message. cbv zeta.
  destruct (_ =? SOCKS_VER_4).
  { destruct (Z.ltb_spec (zlen data) SOCKS4_NETWORK_LEN); [eexists; split; [done|]; split; [done|]; cbv iota; unfold MAX_SOCKS_MESSAGE_LEN, SOCKS4_NETWORK_LEN in *; lia|].
    destruct (parse_socks4_ok data req Hd Hr) as (r & n & res & is4a & -> & Hr' & Hres). cbn [cbind].
    destruct res; cbn [bool_decide negb]; try (by eexists; split; [done|]; split). destruct Hres as [Hn H4].
    destruct (process_socks4_ok data r is4a Hr' H4) as (res & -> & Hres). cbn [cbind]. eexists. split; [done|]. split; [done|].
    destruct Hres as [->|[-> Hacc]]; [done|by split]. }
  destruct (_ =? SOCKS_VER_5); [|by eexists; split; [done|]; split].
  rewrite (proj2 (Z.ltb_ge (zlen data) 2)) by lia. case_if E1.
  { destruct (parse_userpass_ok data req Hd Hr) as (r & n & res & -> & Hr' & Hres). cbn [cbind].
    destruct res; cbn [bool_decide negb]; try (by eexists; split; [done|]; split).
    destruct (process_userpass_ok r Hr') as (r2 & res & -> & Hr2 & Hres2). cbn [cbind]. eexists. split; [done|]. split; [done|].
    by destruct Hres2 as [-> | ->]. }
  case_if E2.
  { destruct (parse_methods_ok data req Hd Hr) as (n & res & [up na] & -> & Hres). cbn [cbind].
    destruct res; cbn [bool_decide negb]; try (by eexists; split; [done|]; split).
    destruct (process_methods_ok req up na Hr) as (r2 & res & -> & Hr2 & Hres2). cbn [cbind]. eexists. split; [done|]. split; [done|].
    by destruct Hres2 as [-> | ->]. }
  destruct (parse_request_ok data req Hd Hr) as (r & n & res & -> & Hr' & Hres). cbn [cbind].
  destruct res; cbn [bool_decide negb andb]; try (by eexists; split; [done|]; split).
  - destruct (_ =? 0); [rewrite set_error_ok|]; cbn [cbind]; (eexists; split; [done|]); split; try done. by apply req_ok_reply.
  - change (bool_decide (SOCKS_RESULT_DONE = SOCKS_RESULT_INVALID)) with false. cbn [andb cbind negb].
    destruct Hres as [Hn Hh]. destruct (process_request_ok data r Hr' Hh) as (r2 & res & -> & Hr2 & Hres). cbn [cbind].
    eexists. split; [done|]. split; [done|]. destruct Hres as [->|(-> & _ & Hacc)]; [done|by split].
Qed.

Lemma parse_socks_ok data req :
  Forall is_byte data -> 2 <= zlen data -> req_ok req -> exists st, parse_socks addressmap safe_socks data req = Ok st /\ step_ok data st.
Proof.
  intros Hd H2 Hr. unfold parse_socks. rewrite (proj2 (Z.ltb_ge (zlen data) 2)) by lia. cbv zeta. case_if E0; [by apply handle_ok|].
  eexists. split; [done|]. split; [|done]. case_if E1; [|done]. apply req_ok_reply; [by vm_compute|done].
Qed.

(** ** Reading *)

Context {B : Type} `{ByteQueueLaws B}.

(** What a call of [fetch_from_buf_socks] may do: the buffer is cleared after an error, and otherwise loses whole messages; an accepted request
    ends with the message [d] that completed it. *)
Definition fetched (s : bytes) (buf' : B) (r' : socks_request_t) (ret : Z) : Prop :=
  req_ok r'
  /\ ((ret = -1 /\ q_holds buf' [])
      \/ (ret = 0 /\ exists pre post, s = pre ++ post /\ q_holds buf' post)
      \/ (ret = 1 /\ exists pre d n, s = pre ++ d /\ 2 <= n <= zlen d /\ q_holds buf' (drop (Z.to_nat n) d)
          /\ exists head rest, d = head ++ rest /\ accepted head r')).

Lemma fetched_prefix c s buf r ret : fetched s buf r ret -> fetched (c ++ s) buf r ret.
Proof.
  intros [Hr [HH|[(? & pre & post & -> & HH)|(? & pre & d & n & -> & Hn & HH)]]]; (split; [done|]).
  - by left.
  - right. left. split; [done|]. exists (c ++ pre), post. by rewrite app_assoc.
  - right. right. split; [done|]. exists (c ++ pre), d, n. by rewrite app_assoc.
Qed.

Lemma drain_n (buf : B) s n : q_holds buf s -> 0 < n <= zlen s -> exists b', (if 0 <? n then q_drain buf n else Ok buf) = Ok b' /\ q_holds b' (drop (Z.to_nat n) s).
Proof. intros Hb Hn. rewrite (proj2 (Z.ltb_lt 0 n)) by lia. apply q_drain_ok; [done|lia]. Qed.

Lemma socks_loop_ok fuel : forall buf s req,
  q_holds buf s -> Forall is_byte s -> 2 <= zlen s -> zlen s < Z.of_nat fuel -> req_ok req ->
  exists buf' r' ret, socks_loop addressmap safe_socks fuel buf req = Ok (buf', r', ret) /\ fetched s buf' r' ret.
Proof.
  induction fuel as [|fuel IH]; intros buf s req Hb Hs H2 Hf Hr; [lia|]. cbn [socks_loop]. rewrite (q_datalen_ok buf s Hb).
  unfold MAX_SOCKS_MESSAGE_LEN. destruct (q_pullup_ok buf s (Z.min 512 (zlen s)) Hb) as (b1 & hd & -> & Hb1 & Hh); [lia|]. cbn [cbind].
  destruct hd as [d|]; [|subst s; change (zlen (@nil Z)) with 0 in H2; lia]. destruct Hh as [(rest & ->) Hd]. rewrite zlen_app in *.
  pose proof (zlen_nonneg rest). rewrite (proj2 (Z.leb_le 2 (zlen d))) by lia. cbn [negb]. pose proof (proj1 (proj1 (Forall_app _ _ _) Hs)) as Hdb.
  destruct (parse_socks_ok d req Hdb) as ([[r n] res] & -> & Hr' & Hres); [lia|done|]. cbn [cbind].
  destruct res; cbv iota in Hres.
  - destruct (q_clear_ok b1 _ Hb1) as (b2 & -> & Hb2). cbn [cbind]. do 3 eexists. split; [done|]. split; [done|]. by left.
  - rewrite (proj2 (Z.eqb_eq _ _)) by (unfold MAX_SOCKS_MESSAGE_LEN in Hres; lia). do 3 eexists. split; [done|]. split; [done|]. right. left. split; [done|]. by exists [], (d ++ rest).
  - destruct Hres as [Hn Hacc]. destruct (drain_n b1 _ n Hb1) as (b2 & -> & Hb2); [zlia|]. cbn [cbind]. do 3 eexists. split; [done|].
    split; [done|]. right. right. split; [done|]. exists [], (d ++ rest), n. split; [done|]. split; [zlia|]. split; [done|]. by exists d, rest.
  - destruct (drain_n b1 _ n Hb1) as (b2 & -> & Hb2); [zlia|]. cbn [cbind]. rewrite (q_datalen_ok b2 _ Hb2).
    assert (Hcut : d ++ rest = take (Z.to_nat n) (d ++ rest) ++ drop (Z.to_nat n) (d ++ rest)) by (by rewrite take_drop).
    assert (Hlen : zlen (drop (Z.to_nat n) (d ++ rest)) = zlen d + zlen rest - n) by (unfold zlen in *; rewrite length_drop, length_app; lia).
    destruct (Z.leb_spec 2 (zlen (drop (Z.to_nat n) (d ++ rest)))).
    + destruct (IH b2 _ r Hb2) as (b3 & r3 & ret & -> & Hfe); [by apply Forall_drop|done|lia|done|]. do 3 eexists. split; [done|].
      rewrite Hcut. by apply fetched_prefix.
    + do 3 eexists. split; [done|]. split; [done|]. right. left. split; [done|]. by exists (take (Z.to_nat n) (d ++ rest)), (drop (Z.to_nat n) (d ++ rest)).
Qed.

End Handlers.

(** C35. Whatever bytes an application writes on the SOCKS port, and however the buffer is laid out, [fetch_from_buf_socks]
    ends without a failed assertion and leaves a request whose address and reply fit their arrays; it fails and clears the buffer, waits
    for more having removed whole messages, or accepts.  An accepted request has a supported command and a destination that is an address or a valid
    host name, an address if it is a reverse lookup, and with SafeSocks it was made by name, is a reverse lookup, or has a mapping. *)
Theorem socks_requests_safe {E} (addressmap : gmap bytes E) (safe_socks : bool) {B} `{ByteQueueLaws B} (buf : B) s req :
  q_holds buf s -> Forall is_byte s -> req_ok req ->
  exists buf' r' ret, fetch_from_buf_socks addressmap safe_socks buf req = Ok (buf', r', ret) /\ fetched addressmap safe_socks s buf' r' ret.
Proof.
  intros Hb Hs Hr. unfold fetch_from_buf_socks. rewrite (q_datalen_ok buf s Hb). destruct (Z.ltb_spec (zlen s) 2).
  - do 3 eexists. split; [done|]. split; [done|]. right. left. split; [done|]. by exists [], s.
  - apply socks_loop_ok; try done. lia.
Qed.

Lemma new_request_ok : req_ok socks_request_new.
Proof. by repeat constructor. Qed.

Lemma socks_requests_safe_witness :
  exists buf' r' ret, fetch_from_buf_socks (E := unit) ∅ true (s2b "GET / HTTP/1.0") socks_request_new = Ok (buf', r', ret)
    /\ fetched (E := unit) ∅ true (s2b "GET / HTTP/1.0") buf' r' ret.
Proof.
  apply (socks_requests_safe (E := unit) ∅ true (s2b "GET / HTTP/1.0") (s2b "GET / HTTP/1.0") socks_request_new); [reflexivity| |apply new_request_ok].
  repeat constructor; unfold is_byte; lia.
Defined.
