(* ===== verification/SocksDialogue.v ===== *)
(** * SOCKS dialogues

    What a client of the SOCKS port sees: a dialogue is a list of messages with the replies to them, and however
    its bytes are cut into fragments, the front end of [Socks] comes to the same request.  The last part is the other
    direction, the answer of an upstream proxy.  [serve] calls the front end after each fragment as
    connection_ap_handshake_process_socks of core/or/connection_edge.c does. *)

From S2P Require Import Prelude DiOps UtilString Inaddr Address Buffers ByteQueue Trunnel SocksFmt Socks.
From Stdlib Require Import ZArith String.
From stdpp Require Import base list numbers gmap.
Open Scope Z_scope.

(** ** A whole dialogue *)

(** The part of [connection_ap_handshake_process_socks] (core/or/connection_edge.c) around the call: the reply is queued for the client and cleared.
    Returns the bytes queued. *)
Definition process_socks {E} (addressmap : gmap bytes E) (safe_socks : bool) {B} `{ByteQueue B} (inbuf : B) (socks : socks_request_t)
    : cres (B * socks_request_t * bytes * Z) :=
  let* (inbuf, socks, sockshere) := fetch_from_buf_socks addressmap safe_socks inbuf socks in
  Ok (inbuf, set_reply [] socks, reply socks, sockshere).

Section Dialogue.

Context {E : Type} (addressmap : gmap bytes E) (safe_socks : bool).
Context {B : Type} `{ByteQueueLaws B}.

(** The fragments of the client's stream arrive one after the other; the front end is called after each until it answers. *)
Fixpoint serve (inbuf : B) (socks : socks_request_t) (fragments : list bytes) : cres (B * socks_request_t * bytes * Z) :=
  match fragments with
  | [] => Ok (inbuf, socks, [], 0)
  | f :: fragments =>
      let* inbuf := q_add inbuf f in
      let* (inbuf, socks, out, sockshere) := process_socks addressmap safe_socks inbuf socks in
      if sockshere =? 0 then
        let* (inbuf, socks, out', ret) := serve inbuf socks fragments in Ok (inbuf, socks, out ++ out', ret)
      else Ok (inbuf, socks, out, sockshere)
  end.

(** The message [M] takes the request [r] to [r'] with the reply [o], whatever follows it, and is awaited until it is complete. *)
Record speaks (r : socks_request_t) (M : bytes) (o : option bytes) (r' : socks_request_t) (res : socks_result_t) : Prop := mk_speaks {
  sp_len : 2 <= zlen M <= MAX_SOCKS_MESSAGE_LEN;
  sp_whole b t : parse_socks addressmap safe_socks (M ++ t) (set_reply b r) = Ok (set_reply (default b o) r', zlen M, res);
  sp_part b p q : M = p ++ q -> q <> [] -> 2 <= zlen p -> parse_socks addressmap safe_socks p (set_reply b r) = Ok (set_reply b r, 0, SOCKS_RESULT_TRUNCATED)
}.

Inductive talk : socks_request_t -> list (bytes * option bytes) -> socks_request_t -> Prop :=
  | talk_last r M o r' : speaks r M o r' SOCKS_RESULT_DONE -> talk r [(M, o)] r'
  | talk_more r M o r1 Ms r' : speaks r M o r1 SOCKS_RESULT_MORE_EXPECTED -> talk r1 Ms r' -> talk r ((M, o) :: Ms) r'.

Definition stream (Ms : list (bytes * option bytes)) : bytes := concat (map fst Ms).

(** The reply that is there after messages with the replies [os] were handled in one call. *)
Definition reply_of (os : list (option bytes)) (b : bytes) : bytes := fold_left (fun b o => default b o) os b.

Lemma talk_first r Ms r' : talk r Ms r' -> exists M o Ms', Ms = (M, o) :: Ms' /\ 2 <= zlen M <= MAX_SOCKS_MESSAGE_LEN /\ exists r1 res, speaks r M o r1 res.
Proof. intros [? M o ? HS|? M o ? Ms0 ? HS _]; exists M, o; eexists; (split; [done|]); (split; [apply HS|eauto]). Qed.

(** Two ways to split one stream. *)
Lemma split_stream (s t M u : bytes) :
  s ++ t = M ++ u -> (exists q, q <> [] /\ M = s ++ q /\ t = q ++ u) \/ (exists s', s = M ++ s' /\ s' ++ t = u).
Proof.
  revert M. induction s as [|x s IH]; intros M Eq.
  - destruct M as [|m M]; [right; by exists []|left]. by exists (m :: M).
  - destruct M as [|m M]; [right; by exists (x :: s)|]. cbn in Eq. injection Eq as -> Eq.
    destruct (IH M Eq) as [(q & Hq & -> & ->)|(s' & -> & <-)]; [left|right]; eauto.
Qed.

(** What is true after a call on the beginning [s] of a stream. *)
Definition progress (Ms : list (bytes * option bytes)) (r' : socks_request_t) (b t rest : bytes) (st : B * socks_request_t * Z) : Prop :=
  let '(buf, r2, ret) := st in
  (ret = 0 /\ exists ds Ms2 r1 s', Ms = ds ++ Ms2 /\ r2 = set_reply (reply_of (map snd ds) b) r1 /\ talk r1 Ms2 r'
      /\ q_holds buf s' /\ s' ++ t = stream Ms2 ++ rest /\ zlen s' < zlen (stream Ms2))
  \/ (ret = 1 /\ r2 = set_reply (reply_of (map snd Ms) b) r' /\ exists s', q_holds buf s' /\ s' ++ t = rest).

Lemma progress_more M o Ms r' b t rest st : progress Ms r' (default b o) t rest st -> progress ((M, o) :: Ms) r' b t rest st.
Proof.
  destruct st as [[buf r2] ret]. intros [(-> & ds & Ms2 & r1 & s' & -> & -> & HT)|(-> & -> & HT)]; [left|right]; (split; [done|]).
  - exists ((M, o) :: ds), Ms2, r1, s'. by split.
  - by split.
Qed.

Lemma progress_wait r Ms r' b t rest buf s :
  talk r Ms r' -> q_holds buf s -> s ++ t = stream Ms ++ rest -> zlen s < zlen (stream Ms) -> progress Ms r' b t rest (buf, set_reply b r, 0).
Proof. intros HT Hb Hs Hl. left. split; [done|]. by exists [], Ms, r, s. Qed.

(** The first message of a stream, as the front end sees it in the contiguous front of the buffer. *)
Lemma front_of (M s' d rest2 : bytes) : M ++ s' = d ++ rest2 -> zlen M <= zlen d -> exists t, d = M ++ t.
Proof.
  intros Eq Hl. destruct (split_stream d rest2 M s' (eq_sym Eq)) as [(q & Hq & -> & _)|(t & -> & _)]; [|eauto].
  rewrite zlen_app in Hl. destruct q; [done|]. rewrite zlen_cons in Hl. pose proof (zlen_nonneg q). lia.
Qed.

Lemma drop_zlen {A} (M s : list A) : drop (Z.to_nat (zlen M)) (M ++ s) = s.
Proof. unfold zlen. rewrite Nat2Z.id. by rewrite drop_app_length. Qed.

Lemma talk_loop fuel : forall buf s t rest r Ms r' b,
  talk r Ms r' -> q_holds buf s -> s ++ t = stream Ms ++ rest -> 2 <= zlen s -> zlen s < Z.of_nat fuel ->
  exists st, socks_loop addressmap safe_socks fuel buf (set_reply b r) = Ok st /\ progress Ms r' b t rest st.
Proof.
  induction fuel as [|fuel IH]; intros buf s t rest r Ms r' b HT Hb Hst H2 Hf; [lia|]. cbn [socks_loop]. rewrite (q_datalen_ok buf s Hb).
  destruct (talk_first r Ms r' HT) as (M & o & Ms' & -> & Hlen & r1 & res & HS). unfold MAX_SOCKS_MESSAGE_LEN in Hlen. unfold MAX_SOCKS_MESSAGE_LEN.
  destruct (q_pullup_ok buf s (Z.min 512 (zlen s)) Hb) as (b1 & hd & -> & Hb1 & Hh); [lia|]. cbn [cbind].
  destruct hd as [d|]; [|subst s; change (zlen (@nil Z)) with 0 in H2; lia]. destruct Hh as [(rest2 & Es) Hd].
  rewrite (proj2 (Z.leb_le 2 (zlen d))) by lia. cbn [negb]. pose proof Hst as Hst0. change (stream ((M, o) :: Ms')) with (M ++ stream Ms') in Hst0. rewrite <- app_assoc in Hst0.
  destruct (split_stream s t M _ Hst0) as [(q & Hq & -> & _)|(s' & -> & Hs')].
  - assert (d = s) as ->.
    { subst s. rewrite !zlen_app in Hd. rewrite !zlen_app in Hlen. pose proof (zlen_nonneg rest2). pose proof (zlen_nonneg q).
      destruct rest2 as [|x rest2]; [by rewrite app_nil_r|]. exfalso. rewrite zlen_cons in *. pose proof (zlen_nonneg rest2). lia. }
    rewrite (sp_part _ _ _ _ _ HS b s q eq_refl Hq H2). cbn [cbind]. rewrite zlen_app in Hlen. pose proof (zlen_nonneg q).
    rewrite (proj2 (Z.eqb_eq _ _)) by lia. eexists. split; [done|]. apply (progress_wait r _ r' b t rest b1 s HT Hb1 Hst).
    unfold stream. cbn [map concat fst]. rewrite !zlen_app. pose proof (zlen_nonneg (concat (map fst Ms'))). destruct q; [done|]. rewrite zlen_cons. pose proof (zlen_nonneg q). lia.
  - destruct (front_of M s' d rest2 Es) as (u & ->); [rewrite zlen_app in Hd; pose proof (zlen_nonneg s'); lia|].
    rewrite zlen_app in H2, Hf. inversion HT as [? ? ? ? HS'|? ? ? r1' ? ? HS' HT']; subst; clear HS.
    + rewrite (sp_whole _ _ _ _ _ HS'). cbn [cbind]. destruct (drain_n b1 (M ++ s') (zlen M) Hb1) as (b2 & -> & Hb2); [rewrite zlen_app; pose proof (zlen_nonneg s'); lia|].
      cbn [cbind]. rewrite drop_zlen in Hb2. eexists. split; [done|]. right. split; [done|]. split; [done|]. by exists s'.
    + rewrite (sp_whole _ _ _ _ _ HS'). cbn [cbind]. destruct (drain_n b1 (M ++ s') (zlen M) Hb1) as (b2 & -> & Hb2); [rewrite zlen_app; pose proof (zlen_nonneg s'); lia|].
      cbn [cbind]. rewrite drop_zlen in Hb2. rewrite (q_datalen_ok b2 s' Hb2).
      destruct (Z.leb_spec 2 (zlen s')) as [H2'|H2'].
      * destruct (IH b2 s' t rest r1' Ms' r' (default b o) HT' Hb2 Hs' H2') as (st & -> & HP); [lia|]. exists st. split; [done|]. by apply progress_more.
      * eexists. split; [done|]. apply progress_more, (progress_wait r1' Ms' r' _ t rest b2 s'); try done.
        destruct (talk_first _ _ _ HT') as (M2 & o2 & Ms2 & -> & Hl2 & _). unfold stream. cbn [map concat fst]. rewrite zlen_app. pose proof (zlen_nonneg (concat (map fst Ms2))). lia.
Qed.

Lemma talk_call buf s t rest r Ms r' b :
  talk r Ms r' -> q_holds buf s -> s ++ t = stream Ms ++ rest ->
  exists st, fetch_from_buf_socks addressmap safe_socks buf (set_reply b r) = Ok st /\ progress Ms r' b t rest st.
Proof.
  intros HT Hb Hst. unfold fetch_from_buf_socks. rewrite (q_datalen_ok buf s Hb). destruct (Z.ltb_spec (zlen s) 2) as [Hs|Hs].
  - eexists. split; [done|]. apply (progress_wait r Ms r' b t rest buf s HT Hb Hst).
    destruct (talk_first _ _ _ HT) as (M2 & o2 & Ms2 & -> & Hl2 & _). unfold stream. cbn [map concat fst]. rewrite zlen_app. pose proof (zlen_nonneg (concat (map fst Ms2))). lia.
  - apply (talk_loop _ buf s t rest r Ms r' b HT Hb Hst Hs). pose proof (zlen_nonneg s). lia.
Qed.

(** However the stream is cut, the dialogue comes to the same request; the replies of messages that arrive
    together are merged into the last of them. *)
Lemma serve_talk fragments : forall buf s rest r Ms r',
  talk r Ms r' -> q_holds buf s -> s ++ concat fragments = stream Ms ++ rest -> zlen s < zlen (stream Ms) -> zlen (s ++ concat fragments) <= BUF_MAX_LEN ->
  exists buf' out groups, serve buf (set_reply [] r) fragments = Ok (buf', set_reply [] r', out, 1)
    /\ concat groups = map snd Ms /\ out = concat (map (fun g => reply_of g []) groups)
    /\ exists s' later, q_holds buf' s' /\ s' ++ concat later = rest.
Proof.
  induction fragments as [|f fragments IH]; intros buf s rest r Ms r' HT Hb Hst Hl Hm.
  - cbn [concat] in *. rewrite app_nil_r in Hst. subst s. rewrite zlen_app in Hl. pose proof (zlen_nonneg rest). lia.
  - cbn [serve concat] in *. rewrite !zlen_app in Hm. pose proof (zlen_nonneg (concat fragments)).
    destruct (q_add_ok buf s f Hb) as (b1 & -> & Hb1); [lia|]. cbn [cbind]. unfold process_socks. rewrite app_assoc in Hst.
    destruct (talk_call b1 (s ++ f) (concat fragments) rest r Ms r' [] HT Hb1 Hst) as ([[b2 r2] ret] & -> & [(-> & ds & Ms2 & r1 & s' & -> & -> & HT2 & Hb2 & Hs2 & Hl2)|(-> & -> & s' & Hb2 & Hs2)]); cbn [cbind].
    + change (0 =? 0) with true. cbv iota. cbn [reply set_reply]. change (set_reply [] (set_reply (reply_of (map snd ds) []) r1)) with (set_reply [] r1).
      destruct (IH b2 s' rest r1 Ms2 r' HT2 Hb2 Hs2 Hl2) as (b3 & out & groups & -> & Hg & -> & Hend).
      { rewrite Hs2. assert (Hle : zlen (stream Ms2 ++ rest) <= zlen (stream (ds ++ Ms2) ++ rest)).
        { unfold stream. rewrite map_app, concat_app, !zlen_app. pose proof (zlen_nonneg (concat (map fst ds))). lia. }
        rewrite <- Hst, !zlen_app in Hle. rewrite !zlen_app in *. lia. }
      cbn [cbind]. exists b3. eexists. exists (map snd ds :: groups). split; [done|]. cbn [concat map]. rewrite Hg, map_app. eauto.
    + change (1 =? 0) with false. cbv iota. exists b2. eexists. exists [map snd Ms]. split; [done|]. cbn. rewrite !app_nil_r. split; [done|]. split; [done|]. eauto.
Qed.

End Dialogue.

(** ** SOCKS5 requests *)

Section Socks5.

Context {E : Type} (addressmap : gmap bytes E) (safe_socks : bool).

Lemma flags_fold ms : forall a b,
  fold_left (fun '(have_user_pass, have_no_auth) method =>
    if method =? SOCKS_USER_PASS then (true, have_no_auth)
    else if method =? SOCKS_NO_AUTH then (have_user_pass, true)
    else (have_user_pass, have_no_auth)) ms (a, b)
  = (a || bool_decide (SOCKS_USER_PASS ∈ ms), b || bool_decide (SOCKS_NO_AUTH ∈ ms)).
Proof.
  induction ms as [|m ms IH]; intros a b; [by cbn; rewrite !orb_false_r|]. cbn [fold_left].
  assert (Hc : forall x, bool_decide (x ∈ m :: ms) = (m =? x) || bool_decide (x ∈ ms)).
  { intros x. destruct (Z.eqb_spec m x) as [->|Hn]; cbn.
    - apply bool_decide_eq_true_2. set_solver.
    - apply bool_decide_ext. set_solver. }
  rewrite !Hc. unfold SOCKS_USER_PASS, SOCKS_NO_AUTH in *. destruct (Z.eqb_spec m 2) as [->|H2]; [rewrite IH; cbn; by rewrite orb_true_r|].
  destruct (Z.eqb_spec m 0) as [->|H0]; rewrite IH; cbn; by rewrite ?orb_true_r.
Qed.

(** The front end starts with its preference; the caller sets it from the port's configuration. *)
Definition new_request (prefer_no_auth : bool) : socks_request_t := mkreq 0 0 0 [] [] 0 false prefer_no_auth None None 0.

Definition chosen (ms : bytes) (prefer : bool) : Z :=
  if bool_decide (SOCKS_USER_PASS ∈ ms) && negb (bool_decide (SOCKS_NO_AUTH ∈ ms) && prefer) then SOCKS_USER_PASS else SOCKS_NO_AUTH.

Definition after_methods (prefer : bool) (method : Z) : socks_request_t := mkreq 5 method 0 [] [] 0 false prefer None None 0.

(** A message that begins with 5 goes to [handle_socks_message]. *)
Lemma parse_socks_ver5 s r : cur s = 5 \/ cur s = 1 -> 2 <= zlen s -> parse_socks addressmap safe_socks s r = handle_socks_message addressmap safe_socks s r.
Proof. intros Hc H2. unfold parse_socks. rewrite (proj2 (Z.ltb_ge _ _)) by lia. by destruct Hc as [-> | ->]. Qed.

(** A prefix that is long enough begins like the message. *)
Lemma cur_prefix (p q : bytes) : 2 <= zlen p -> cur (p ++ q) = cur p.
Proof. destruct p; [|done]. change (zlen (@nil Z)) with 0. lia. Qed.

Lemma version_head v V : socks5_client_version_encode 1024 v = TOk V -> version_ok v -> cur V = 5 /\ zlen V = 2 + zlen (cv_methods v) /\ forall rest, socks5_client_version_parse (V ++ rest) = TOk (v, rest).
Proof.
  intros EV Hv. pose proof Hv as (H5 & Hn & Hl). destruct (version_encode_parse v 1024 Hv) as (b & Eb & Hz & Hp); [lia|]. rewrite EV in Eb. injection Eb as <-.
  split; [|done]. specialize (Hp []). rewrite app_nil_r in Hp. unfold socks5_client_version_parse in Hp. destruct V as [|x V]; [discriminate Hp|]. cbn in Hp |- *.
  destruct (Z.eqb_spec x 5); [done|discriminate Hp].
Qed.

Lemma speaks_version v V prefer :
  version_ok v -> socks5_client_version_encode 1024 v = TOk V ->
  SOCKS_NO_AUTH ∈ cv_methods v \/ SOCKS_USER_PASS ∈ cv_methods v ->
  let m := chosen (cv_methods v) prefer in
  speaks addressmap safe_socks (new_request prefer) V (Some [5; m]) (after_methods prefer m) SOCKS_RESULT_MORE_EXPECTED.
Proof.
  intros Hv EV Hoff m. destruct (version_head v V EV Hv) as (Hc & Hz & Hp). destruct Hv as (H5 & Hn & Hl).
  assert (Hms : 1 <= zlen (cv_methods v)) by (destruct (cv_methods v); [set_solver|rewrite zlen_cons; pose proof (zlen_nonneg l); lia]).
  split; [unfold MAX_SOCKS_MESSAGE_LEN; lia| |].
  - intros b t. assert (H2 : 2 <= zlen V) by lia. rewrite parse_socks_ver5; [|left; by rewrite cur_prefix|rewrite zlen_app; pose proof (zlen_nonneg t); lia].
    unfold handle_socks_message. rewrite cur_prefix, Hc by done. rewrite (proj2 (Z.ltb_ge (zlen (V ++ t)) 2)) by (rewrite zlen_app; pose proof (zlen_nonneg t); lia).
    cbn -[parse_socks5_methods_request process_socks5_methods_request]. unfold parse_socks5_methods_request. rewrite Hp. cbn [trunnel_call].
    rewrite (proj2 (Z.eqb_neq (cv_n_methods v) 0)) by lia. rewrite flags_fold, zlen_app, !orb_false_l. cbn [cbind bool_decide negb].
    replace (zlen V + zlen t - zlen t) with (zlen V) by lia. change (negb (bool_decide (SOCKS_RESULT_DONE = SOCKS_RESULT_DONE))) with false. cbv iota.
    unfold process_socks5_methods_request, m, chosen. cbn [socks_prefer_no_auth set_reply new_request].
    destruct (bool_decide_reflect (SOCKS_USER_PASS ∈ cv_methods v)) as [Hu|Hu], (bool_decide_reflect (SOCKS_NO_AUTH ∈ cv_methods v)) as [Ha|Ha], prefer; try reflexivity; exfalso; tauto.
  - intros b p q Epq Hq H2. rewrite parse_socks_ver5; [|left; by rewrite <- (cur_prefix p q), <- Epq|done].
    unfold handle_socks_message. rewrite <- (cur_prefix p q), <- Epq, Hc by done. rewrite (proj2 (Z.ltb_ge (zlen p) 2)) by lia.
    cbn -[parse_socks5_methods_request process_socks5_methods_request]. unfold parse_socks5_methods_request.
    rewrite (incremental_prefix socks5_client_version_parse v p q client_version_incremental); [|specialize (Hp []); rewrite app_nil_r in Hp; by rewrite <- Epq|done].
    cbn [trunnel_call]. rewrite (proj2 (Z.ltb_ge _ _)); [done|]. unfold MAX_SOCKS_MESSAGE_LEN. subst V. rewrite zlen_app in Hz. pose proof (zlen_nonneg q). lia.
Qed.

(** What a request asks for: the destination and its text. *)
Inductive destination : sockaddr_u -> bytes -> Prop :=
  | dest_v4 v s : 0 <= v <= UINT32_MAX -> tor_addr_to_str (tor_addr_from_ipv4h v) MAX_SOCKS_ADDR_LEN true = Ok s ->
      destination (mkun ATYPE_IPV4 v None (repeat 0 16)) s
  | dest_v6 b s : zlen b = 16 -> Forall is_byte b -> tor_addr_to_str (tor_addr_from_ipv6_bytes b) MAX_SOCKS_ADDR_LEN true = Ok s ->
      destination (mkun ATYPE_IPV6 0 None b) s
  | dest_name n : zlen n < 256 -> no_nul n -> string_is_valid_dest n = Ok true ->
      destination (mkun ATYPE_DOMAINNAME 0 (Some (mkdn (zlen n) n)) (repeat 0 16)) n.

(** The requests that the front end lets through. *)
Record allowed (cmd : Z) (u : sockaddr_u) (a : bytes) : Prop := mk_allowed {
  al_command : cmd = SOCKS_COMMAND_CONNECT \/ cmd = SOCKS_COMMAND_RESOLVE \/ cmd = SOCKS_COMMAND_RESOLVE_PTR;
  al_ptr : cmd = SOCKS_COMMAND_RESOLVE_PTR -> exists x, tor_addr_parse a = Ok x;
  al_safe : safe_socks = true -> un_atype u = ATYPE_DOMAINNAME \/ cmd = SOCKS_COMMAND_RESOLVE_PTR \/ addressmap_have_mapping addressmap a = true
}.

Lemma printed_valid a s : addr_ok a -> tor_addr_to_str a MAX_SOCKS_ADDR_LEN true = Ok s -> string_is_valid_dest s = Ok true.
Proof.
  intros Ha Es. destruct (printed_ok a true Ha) as (s' & Es' & Hp & Hb & Hn & _). rewrite Es in Es'. injection Es' as <-. by apply (parsed_valid_dest s a).
Qed.

Lemma destination_ok u a : destination u a -> union_ok u /\ string_is_valid_dest a = Ok true.
Proof.
  intros [v s Hv Es|b s Hl Hb Es|n Hn Hz Hd]; (split; [by constructor|]).
  - by apply (printed_valid _ s (ipv4h_ok v)).
  - by apply (printed_valid _ s (v6_ok b Hl Hb)).
  - done.
Qed.

Definition with_request (r : socks_request_t) (cmd port atyp : Z) (a : bytes) : socks_request_t := set_address a (set_atyp atyp (set_target cmd port r)).

Lemma process_request_accepts r cmd pt u a :
  string_is_valid_dest a = Ok true -> allowed cmd u a ->
  process_socks5_client_request addressmap safe_socks (with_request r cmd pt (un_atype u) a) = Ok (with_request r cmd pt (un_atype u) a, SOCKS_RESULT_DONE).
Proof.
  intros Hd [Hc Hp Hs]. unfold process_socks5_client_request. cbv zeta. cbn [command address socks5_atyp with_request set_address set_atyp set_target].
  replace (negb _ && negb _ && negb _) with false by (unfold SOCKS_COMMAND_CONNECT, SOCKS_COMMAND_RESOLVE, SOCKS_COMMAND_RESOLVE_PTR in *; destruct Hc as [-> |[-> | ->]]; reflexivity).
  replace (if cmd =? SOCKS_COMMAND_RESOLVE_PTR then _ else Ok false) with (Ok false).
  2:{ destruct (Z.eqb_spec cmd SOCKS_COMMAND_RESOLVE_PTR) as [Hx|]; [|done]. destruct (Hp Hx) as (x & ->). done. }
  cbn [cbind]. rewrite Hd. cbn [cbind negb]. case_if E1; [|done]. exfalso. apply andb_true_iff in E1 as [E1 Esafe]. apply andb_true_iff in E1 as [Et E1].
  apply andb_true_iff in E1 as [E1 E2]. destruct (Hs Esafe) as [H|[H|H]].
  - rewrite H in Et. discriminate Et.
  - rewrite H in E1. discriminate E1.
  - rewrite H in E2. discriminate E2.
Qed.

Lemma request_head r R : socks5_client_request_encode 1024 r = TOk R -> request_ok r ->
  cur R = 5 /\ 7 <= zlen R <= 262 /\ forall rest, socks5_client_request_parse (R ++ rest) = TOk (r, rest).
Proof.
  intros ER Hr. pose proof Hr as (H5 & Hc & Hrv & Hu & Hpt). destruct (union_ok_facts _ Hu) as (_ & Hsz & _).
  destruct (request_encode_parse r 1024 Hr) as (b & Eb & Hz & Hp); [lia|]. rewrite ER in Eb. injection Eb as <-.
  split; [|split; [lia|done]]. specialize (Hp []). rewrite app_nil_r in Hp. unfold socks5_client_request_parse in Hp. destruct R as [|x R]; [discriminate Hp|]. cbn in Hp |- *.
  destruct (Z.eqb_spec x 5); [done|discriminate Hp].
Qed.

#[local] Ltac accepts PA :=
  change (bool_decide (SOCKS_RESULT_DONE = SOCKS_RESULT_INVALID)) with false; cbn [andb cbind];
  change (negb (bool_decide (SOCKS_RESULT_DONE = SOCKS_RESULT_DONE))) with false; cbv iota;
  match goal with |- context [process_socks5_client_request addressmap safe_socks ?x] =>
    replace (process_socks5_client_request addressmap safe_socks x) with (Ok (x, SOCKS_RESULT_DONE)) by (symmetry; exact PA); reflexivity end.

Lemma speaks_request r cmd u a pt R :
  socks_version r = 5 -> negb (got_auth r) && (auth_type r =? SOCKS_USER_PASS) = false ->
  destination u a -> allowed cmd u a -> 0 <= pt <= UINT16_MAX ->
  socks5_client_request_encode 1024 (mkcr 5 cmd 0 u pt) = TOk R ->
  speaks addressmap safe_socks r R None (with_request r cmd pt (un_atype u) a) SOCKS_RESULT_DONE.
Proof.
  intros Hver Hauth Hdest Hal Hpt ER. destruct (destination_ok u a Hdest) as [Hu Hval].
  assert (Hok : request_ok (mkcr 5 cmd 0 u pt)).
  { refine (conj eq_refl (conj _ (conj eq_refl (conj Hu Hpt)))). cbn. destruct Hal as [[-> |[-> | ->]] _ _]; reflexivity. }
  destruct (request_head _ R ER Hok) as (Hc & Hz & Hp). split; [unfold MAX_SOCKS_MESSAGE_LEN; lia| |].
  - intros b t. assert (H2 : 2 <= zlen R) by lia. rewrite parse_socks_ver5; [|left; by rewrite cur_prefix|rewrite zlen_app; pose proof (zlen_nonneg t); lia].
    unfold handle_socks_message. rewrite cur_prefix, Hc by done. rewrite (proj2 (Z.ltb_ge (zlen (R ++ t)) 2)) by (rewrite zlen_app; pose proof (zlen_nonneg t); lia).
    cbn -[parse_socks5_client_request process_socks5_client_request]. rewrite Hauth, Hver. cbn [negb Z.eqb SOCKS_VER_5 Pos.eqb].
    unfold parse_socks5_client_request. rewrite Hp. cbn [trunnel_call cr_version cr_command cr_dest cr_dest_port]. rewrite zlen_app.
    replace (zlen R + zlen t - zlen t) with (zlen R) by lia. cbn [negb Z.eqb Pos.eqb].
    destruct Hdest as [v s Hv Es|x s Hl Hb Es|n Hn Hnn Hd]; cbn [un_atype un_ipv4 un_ipv6 un_domainname ATYPE_IPV4 ATYPE_IPV6 ATYPE_DOMAINNAME Z.eqb Pos.eqb].
    + unfold store_address. rewrite Es. cbn [cbind]. accepts (process_request_accepts (set_reply b r) cmd pt _ s Hval Hal).
    + unfold store_address. rewrite Es. cbn [cbind]. accepts (process_request_accepts (set_reply b r) cmd pt _ s Hval Hal).
    + cbn [dn_name]. rewrite strlcpy_fits by done. cbn [cbind]. accepts (process_request_accepts (set_reply b r) cmd pt _ n Hval Hal).
  - intros b p q Epq Hq H2. rewrite parse_socks_ver5; [|left; by rewrite <- (cur_prefix p q), <- Epq|done].
    unfold handle_socks_message. rewrite <- (cur_prefix p q), <- Epq, Hc by done. rewrite (proj2 (Z.ltb_ge (zlen p) 2)) by lia.
    cbn -[parse_socks5_client_request process_socks5_client_request]. rewrite Hauth, Hver. cbn [negb Z.eqb SOCKS_VER_5 Pos.eqb]. unfold parse_socks5_client_request.
    rewrite (incremental_prefix socks5_client_request_parse (mkcr 5 cmd 0 u pt) p q client_request_incremental); [|specialize (Hp []); rewrite app_nil_r in Hp; by rewrite <- Epq|done].
    reflexivity.
Qed.

(** A user name that begins like an extended-parameter request must be the one that is known. *)
Definition plain_user (user : bytes) : Prop := take 8 user <> extended_prefix \/ user = extended_prefix ++ [48].

Definition with_auth (r : socks_request_t) (user pass : bytes) : socks_request_t :=
  let r := if zlen user =? 0 then r else set_username user r in
  let r := if zlen pass =? 0 then r else set_password pass r in
  set_got_auth r.

Lemma userpass_head u U : socks5_client_userpass_auth_encode 1024 u = TOk U -> userpass_ok u ->
  cur U = 1 /\ zlen U = 3 + zlen (up_username u) + zlen (up_passwd u) /\ forall rest, socks5_client_userpass_auth_parse (U ++ rest) = TOk (u, rest).
Proof.
  intros EU Hu. pose proof Hu as (H1 & [Hn Hn'] & [Hp Hp']). destruct (userpass_encode_parse u 1024 Hu) as (b & Eb & Hz & Hr); [lia|]. rewrite EU in Eb. injection Eb as <-.
  split; [|done]. specialize (Hr []). rewrite app_nil_r in Hr. unfold socks5_client_userpass_auth_parse in Hr. destruct U as [|x U]; [discriminate Hr|]. cbn in Hr |- *.
  destruct (Z.eqb_spec x 1); [done|discriminate Hr].
Qed.

Lemma parse_userpass_whole u U t r :
  socks5_client_userpass_auth_encode 1024 u = TOk U -> userpass_ok u -> Forall is_byte (up_username u) -> plain_user (up_username u) ->
  parse_socks5_userpass_auth (U ++ t) r = Ok (with_auth r (up_username u) (up_passwd u), zlen U, SOCKS_RESULT_DONE).
Proof.
  intros EU Hu Hb Hpl. destruct (userpass_head u U EU Hu) as (_ & Hz & Hp). destruct Hu as (H1 & [Hn Hn'] & [Hpw Hpw']).
  unfold parse_socks5_userpass_auth. rewrite Hp. cbn [trunnel_call]. rewrite zlen_app. replace (zlen U + zlen t - zlen t) with (zlen U) by lia.
  rewrite Hn, Hpw. destruct (Z.leb_spec 8 (zlen (up_username u))) as [H8|H8]; [|reflexivity].
  rewrite tor_memeq_spec; [|unfold zlen in H8; lia|cbn; lia|done|by repeat constructor]. cbn [cbind].
  change (take 8 extended_prefix) with extended_prefix. case_bool_decide as E8; [|reflexivity].
  destruct Hpl as [?|Hu9]; [done|]. rewrite Hu9. vm_compute (negb _). cbv iota.
  rewrite tor_memeq_spec; [|cbn; lia|cbn; lia|by repeat constructor|by repeat constructor]. reflexivity.
Qed.

Lemma speaks_userpass u U prefer :
  socks5_client_userpass_auth_encode 1024 u = TOk U -> userpass_ok u -> Forall is_byte (up_username u) -> plain_user (up_username u) -> zlen U <= MAX_SOCKS_MESSAGE_LEN ->
  speaks addressmap safe_socks (after_methods prefer SOCKS_USER_PASS) U (Some [1; 0])
    (with_auth (after_methods prefer SOCKS_USER_PASS) (up_username u) (up_passwd u)) SOCKS_RESULT_MORE_EXPECTED.
Proof.
  intros EU Hu Hb Hpl Hm. destruct (userpass_head u U EU Hu) as (Hc & Hz & Hp). pose proof (zlen_nonneg (up_username u)). pose proof (zlen_nonneg (up_passwd u)).
  split; [lia| |].
  - intros b t. assert (H2 : 2 <= zlen U) by lia. rewrite parse_socks_ver5; [|right; by rewrite cur_prefix|rewrite zlen_app; pose proof (zlen_nonneg t); lia].
    unfold handle_socks_message. rewrite cur_prefix, Hc by done. rewrite (proj2 (Z.ltb_ge (zlen (U ++ t)) 2)) by (rewrite zlen_app; pose proof (zlen_nonneg t); lia).
    cbn -[parse_socks5_userpass_auth process_socks5_userpass_auth]. rewrite (parse_userpass_whole u U t) by done. cbn [cbind].
    unfold with_auth. by destruct (zlen (up_username u) =? 0), (zlen (up_passwd u) =? 0).
  - intros b p q Epq Hq H2. rewrite parse_socks_ver5; [|right; by rewrite <- (cur_prefix p q), <- Epq|done].
    unfold handle_socks_message. rewrite <- (cur_prefix p q), <- Epq, Hc by done. rewrite (proj2 (Z.ltb_ge (zlen p) 2)) by lia.
    cbn -[parse_socks5_userpass_auth process_socks5_userpass_auth]. unfold parse_socks5_userpass_auth.
    rewrite (incremental_prefix socks5_client_userpass_auth_parse u p q userpass_incremental); [reflexivity|specialize (Hp []); rewrite app_nil_r in Hp; by rewrite <- Epq|done].
Qed.

End Socks5.

(** ** The claims *)

(** Messages without a reply add nothing. *)
Lemma reply_of_silent os b : Forall (fun o => o = None) os -> reply_of os b = b.
Proof. intros Ho. revert b. induction Ho as [|o os -> _ IH]; intros b; [done|]. apply IH. Qed.

Lemma silent groups : Forall (fun o => o = None) (concat groups) -> concat (map (fun g => reply_of g []) groups) = [].
Proof.
  induction groups as [|g groups IH]; [done|]. cbn [concat map]. intros Ho. apply Forall_app in Ho as [Hg Hgs]. by rewrite reply_of_silent, IH.
Qed.

(** One reply comes out whatever the grouping, and of two the second one does. *)
Lemma one_reply groups a tl : concat groups = Some a :: tl -> Forall (fun o => o = None) tl -> concat (map (fun g => reply_of g []) groups) = a.
Proof.
  induction groups as [|g groups IH]; [done|]. cbn [concat map]. destruct g as [|o g]; cbn [app]; [exact IH|].
  intros [= -> <-] Ho. apply Forall_app in Ho as [Hg Hgs]. rewrite silent, app_nil_r by done. unfold reply_of. cbn. by apply reply_of_silent.
Qed.

Lemma two_replies groups a c tl :
  concat groups = Some a :: Some c :: tl -> Forall (fun o => o = None) tl ->
  concat (map (fun g => reply_of g []) groups) = a ++ c \/ concat (map (fun g => reply_of g []) groups) = c.
Proof.
  induction groups as [|g groups IH]; [done|]. cbn [concat map]. destruct g as [|o [|o2 g]]; cbn [app]; [exact IH|..].
  - intros [= -> Hg] Ho. left. by rewrite (one_reply groups c tl Hg Ho).
  - intros [= -> -> <-] Ho. right. apply Forall_app in Ho as [Hg Hgs]. rewrite silent, app_nil_r by done. unfold reply_of. cbn. by apply reply_of_silent.
Qed.

Section Claims.

Context {E : Type} (addressmap : gmap bytes E) (safe_socks : bool).
Context {B : Type} `{ByteQueueLaws B}.

(** A client that offers to go without authentication and then asks for an allowed destination gets the reply that selects that method
    and has its request accepted with the command, address and port that it sent, in whatever fragments its bytes arrive; what follows the
    request stays for the stream. *)
Theorem socks5_noauth_any_fragments prefer v V cmd u a pt R rest fragments (buf : B) :
  version_ok v -> socks5_client_version_encode 1024 v = TOk V ->
  SOCKS_NO_AUTH ∈ cv_methods v -> SOCKS_USER_PASS ∉ cv_methods v \/ prefer = true ->
  destination u a -> allowed addressmap safe_socks cmd u a -> 0 <= pt <= UINT16_MAX ->
  socks5_client_request_encode 1024 (mkcr 5 cmd 0 u pt) = TOk R ->
  concat fragments = V ++ R ++ rest -> zlen (V ++ R ++ rest) <= BUF_MAX_LEN -> q_holds buf [] ->
  exists buf', serve addressmap safe_socks buf (new_request prefer) fragments
      = Ok (buf', mkreq 5 SOCKS_NO_AUTH cmd [] a pt false prefer None None (un_atype u), [5; SOCKS_NO_AUTH], 1)
    /\ exists s' later, q_holds buf' s' /\ s' ++ concat later = rest.
Proof.
  intros Hv EV HN HU Hd Hal Hpt ER Hc Hm Hb.
  assert (Hm0 : chosen (cv_methods v) prefer = SOCKS_NO_AUTH).
  { unfold chosen. rewrite (bool_decide_eq_true_2 (SOCKS_NO_AUTH ∈ _)) by done. destruct HU as [HU| ->]; [by rewrite bool_decide_eq_false_2|by rewrite andb_false_r]. }
  pose proof (speaks_version addressmap safe_socks v V prefer Hv EV (or_introl HN)) as S1. cbv zeta in S1. rewrite Hm0 in S1.
  pose proof (speaks_request addressmap safe_socks (after_methods prefer SOCKS_NO_AUTH) cmd u a pt R eq_refl eq_refl Hd Hal Hpt ER) as S2.
  destruct (serve_talk addressmap safe_socks fragments buf [] rest _ _ _ (talk_more _ _ _ _ _ _ _ _ S1 (talk_last _ _ _ _ _ _ S2)) Hb) as (buf' & out & groups & Es & Hg & -> & Hend).
  - unfold stream. cbn. rewrite app_nil_r, <- app_assoc. done.
  - unfold stream. cbn. rewrite app_nil_r, zlen_app. pose proof (sp_len _ _ _ _ _ _ _ S1). pose proof (zlen_nonneg R). change (zlen (@nil Z)) with 0. lia.
  - cbn. by rewrite Hc.
  - exists buf'. split; [|done]. rewrite (one_reply groups _ _ Hg) in Es by (by repeat constructor). exact Es.
Qed.

(** With a user name and password, in a message of at most [MAX_SOCKS_MESSAGE_LEN] bytes, the request is accepted in the same way and carries the
    credentials; the client gets both replies, unless the two messages arrived together: then the reply to the method selection is overwritten. *)
Theorem socks5_password_any_fragments prefer v V up U cmd u a pt R rest fragments (buf : B) :
  version_ok v -> socks5_client_version_encode 1024 v = TOk V ->
  SOCKS_USER_PASS ∈ cv_methods v -> SOCKS_NO_AUTH ∉ cv_methods v \/ prefer = false ->
  userpass_ok up -> socks5_client_userpass_auth_encode 1024 up = TOk U -> zlen U <= MAX_SOCKS_MESSAGE_LEN ->
  Forall is_byte (up_username up) -> plain_user (up_username up) ->
  destination u a -> allowed addressmap safe_socks cmd u a -> 0 <= pt <= UINT16_MAX ->
  socks5_client_request_encode 1024 (mkcr 5 cmd 0 u pt) = TOk R ->
  concat fragments = V ++ U ++ R ++ rest -> zlen (V ++ U ++ R ++ rest) <= BUF_MAX_LEN -> q_holds buf [] ->
  exists buf' out, serve addressmap safe_socks buf (new_request prefer) fragments
      = Ok (buf', set_reply [] (with_request (with_auth (after_methods prefer SOCKS_USER_PASS) (up_username up) (up_passwd up)) cmd pt (un_atype u) a), out, 1)
    /\ (out = [5; SOCKS_USER_PASS] ++ [1; 0] \/ out = [1; 0])
    /\ exists s' later, q_holds buf' s' /\ s' ++ concat later = rest.
Proof.
  intros Hv EV HU HN Hup EU Hul Hub Hpl Hd Hal Hpt ER Hc Hm Hb.
  assert (Hm2 : chosen (cv_methods v) prefer = SOCKS_USER_PASS).
  { unfold chosen. rewrite (bool_decide_eq_true_2 (SOCKS_USER_PASS ∈ _)) by done. destruct HN as [HN| ->]; [by rewrite bool_decide_eq_false_2|by rewrite andb_false_r]. }
  pose proof (speaks_version addressmap safe_socks v V prefer Hv EV (or_intror HU)) as S1. cbv zeta in S1. rewrite Hm2 in S1.
  pose proof (speaks_userpass addressmap safe_socks up U prefer EU Hup Hub Hpl Hul) as S2.
  assert (S3 : speaks addressmap safe_socks (with_auth (after_methods prefer SOCKS_USER_PASS) (up_username up) (up_passwd up)) R None
      (with_request (with_auth (after_methods prefer SOCKS_USER_PASS) (up_username up) (up_passwd up)) cmd pt (un_atype u) a) SOCKS_RESULT_DONE).
  { apply speaks_request; try done; unfold with_auth; by destruct (_ =? 0), (_ =? 0). }
  destruct (serve_talk addressmap safe_socks fragments buf [] rest _ _ _ (talk_more _ _ _ _ _ _ _ _ S1 (talk_more _ _ _ _ _ _ _ _ S2 (talk_last _ _ _ _ _ _ S3))) Hb) as (buf' & out & groups & Es & Hg & -> & Hend).
  - unfold stream. cbn. rewrite app_nil_r, <- !app_assoc. done.
  - unfold stream. cbn. rewrite app_nil_r, !zlen_app. pose proof (sp_len _ _ _ _ _ _ _ S1). pose proof (zlen_nonneg R). pose proof (zlen_nonneg U). change (zlen (@nil Z)) with 0. lia.
  - cbn. by rewrite Hc.
  - exists buf'. eexists. split; [exact Es|]. split; [|done]. apply (two_replies groups _ _ _ Hg). by repeat constructor.
Qed.

End Claims.

(** *** Witnesses *)

Definition demo_name : sockaddr_u := mkun ATYPE_DOMAINNAME 0 (Some (mkdn 9 (s2b "tor.onion"))) (repeat 0 16).

Lemma demo_destination : destination demo_name (s2b "tor.onion").
Proof. apply (dest_name (s2b "tor.onion")); [done|by repeat constructor|vm_compute; reflexivity]. Qed.

Lemma demo_allowed : allowed (E := unit) ∅ true SOCKS_COMMAND_CONNECT demo_name (s2b "tor.onion").
Proof. split; [by left|done|by left]. Qed.

Lemma socks5_noauth_any_fragments_witness :
  exists buf', serve (E := unit) (B := bytes) ∅ true [] (new_request false) [[5; 1]; [0; 5; 1; 0; 3; 9]; s2b "tor.oni"; s2b "on" ++ [1; 187] ++ s2b "GET"]
      = Ok (buf', mkreq 5 SOCKS_NO_AUTH SOCKS_COMMAND_CONNECT [] (s2b "tor.onion") 443 false false None None (un_atype demo_name), [5; SOCKS_NO_AUTH], 1)
    /\ exists s' later, q_holds buf' s' /\ s' ++ concat later = s2b "GET".
Proof.
  apply (socks5_noauth_any_fragments (E := unit) ∅ true (B := bytes) false (mkcv 5 1 [0]) [5; 1; 0] SOCKS_COMMAND_CONNECT demo_name (s2b "tor.onion") 443
    ([5; 1; 0; 3; 9] ++ s2b "tor.onion" ++ [1; 187]) (s2b "GET")).
  - done.
  - reflexivity.
  - by left.
  - left. apply not_elem_of_cons. split; [done|apply not_elem_of_nil].
  - apply demo_destination.
  - apply demo_allowed.
  - unfold UINT16_MAX. lia.
  - vm_compute. reflexivity.
  - reflexivity.
  - unfold BUF_MAX_LEN. vm_compute. discriminate.
  - reflexivity.
Defined.

Lemma socks5_password_any_fragments_witness :
  exists buf' out, serve (E := unit) (B := bytes) ∅ true [] (new_request false) [[5; 1; 2; 1]; [1; 97; 1; 98] ++ [5; 1; 0; 3; 9] ++ s2b "tor.onion" ++ [1; 187]]
      = Ok (buf', mkreq 5 SOCKS_USER_PASS SOCKS_COMMAND_CONNECT [] (s2b "tor.onion") 443 true false (Some [97]) (Some [98]) (un_atype demo_name), out, 1)
    /\ (out = [5; SOCKS_USER_PASS] ++ [1; 0] \/ out = [1; 0]) /\ exists s' later, q_holds buf' s' /\ s' ++ concat later = [].
Proof.
  apply (socks5_password_any_fragments (E := unit) ∅ true (B := bytes) false (mkcv 5 1 [2]) [5; 1; 2] (mkup 1 1 [97] 1 [98]) [1; 1; 97; 1; 98]
    SOCKS_COMMAND_CONNECT demo_name (s2b "tor.onion") 443 ([5; 1; 0; 3; 9] ++ s2b "tor.onion" ++ [1; 187]) []).
  - done.
  - reflexivity.
  - by left.
  - by right.
  - by repeat split.
  - reflexivity.
  - unfold MAX_SOCKS_MESSAGE_LEN. vm_compute. discriminate.
  - repeat constructor; unfold is_byte; lia.
  - left. discriminate.
  - apply demo_destination.
  - apply demo_allowed.
  - unfold UINT16_MAX. lia.
  - vm_compute. reflexivity.
  - reflexivity.
  - unfold BUF_MAX_LEN. vm_compute. discriminate.
  - reflexivity.
Defined.

(** ** Limits *)

(** The longest message with a user name and password does not fit in [MAX_SOCKS_MESSAGE_LEN] bytes. *)
Lemma longest_userpass :
  let u := mkup 1 255 (repeat 97 255) 255 (repeat 98 255) in
  userpass_ok u /\ exists U, socks5_client_userpass_auth_encode 1024 u = TOk U /\ zlen U = MAX_SOCKS_MESSAGE_LEN + 1.
Proof. split; [by repeat split|]. eexists. split; vm_compute; reflexivity. Qed.

Lemma request4_head m M : socks4_client_request_encode 1024 m = TOk M -> request4_ok m -> request4_size m <= 1024 ->
  cur M = 4 /\ zlen M = request4_size m /\ forall rest, socks4_client_request_parse (M ++ rest) = TOk (m, rest).
Proof.
  intros EM Hm Hsz. destruct (request4_encode_parse m 1024 Hm Hsz) as (b & Eb & Hz & Hp). rewrite EM in Eb. injection Eb as <-.
  split; [|done]. specialize (Hp []). rewrite app_nil_r in Hp. unfold socks4_client_request_parse in Hp. destruct M as [|x M]; [discriminate Hp|]. cbn in Hp |- *.
  destruct (Z.eqb_spec x 4); [done|discriminate Hp].
Qed.

Lemma parse_socks_ver4 {E} (addressmap : gmap bytes E) safe_socks s r :
  cur s = 4 -> 8 <= zlen s ->
  parse_socks addressmap safe_socks s r
  = let* (req, drain_out, res, is_socks4a) := parse_socks4_request s r in
    if negb (bool_decide (res = SOCKS_RESULT_DONE)) then Ok (req, drain_out, res)
    else let* res := process_socks4_request addressmap safe_socks req is_socks4a in Ok (req, drain_out, res).
Proof.
  intros Hc H8. unfold parse_socks, handle_socks_message. rewrite Hc, (proj2 (Z.ltb_ge (zlen s) 2)), (proj2 (Z.ltb_ge (zlen s) SOCKS4_NETWORK_LEN)) by (unfold SOCKS4_NETWORK_LEN; lia). reflexivity.
Qed.

(** The length check of SOCKS4a measures everything that is in the contiguous front of the buffer behind the user name and not the host name: a request
    that names its host is refused, and the buffer cleared, when the client sends so much data along with it that host name and data exceed 256 bytes. *)
Theorem socks4a_pipelining_refused {E} (addressmap : gmap bytes E) safe_socks m M host rest req :
  request4_ok m -> request4_size m <= 1024 -> socks4_client_request_encode 1024 m = TOk M ->
  s4_addr m <> 0 -> s4_port m <> 0 -> s4_socks4a_addr_hostname m = Some host -> MAX_SOCKS_ADDR_LEN < zlen host + 1 + zlen rest ->
  exists r', fetch_from_buf_socks addressmap safe_socks (B := bytes) (M ++ rest) req = Ok ([], r', -1).
Proof.
  intros Hm Hsz EM Ha Hp Hh Hl. destruct (request4_head m M EM Hm Hsz) as (Hc & Hz & HP). destruct Hm as (_ & _ & _ & Ha32 & (un & Hun & Nu) & H4a).
  destruct (socks4a_addr (s4_addr m)) eqn:Ea; [|congruence]. unfold request4_size in Hz. rewrite Hun, Hh in Hz. cbn [nulterm] in Hz.
  pose proof (zlen_nonneg un). pose proof (zlen_nonneg host). pose proof (zlen_nonneg rest). rewrite !zlen_app in Hz. change (zlen [0]) with 1 in Hz.
  assert (Hall : zlen (M ++ rest) = zlen M + zlen rest) by apply zlen_app.
  unfold fetch_from_buf_socks. cbn [q_datalen list_queue]. rewrite (proj2 (Z.ltb_ge _ 2)) by lia. cbn [socks_loop q_pullup list_queue cbind].
  destruct (M ++ rest) as [|x s] eqn:Es; [change (zlen (@nil Z)) with 0 in Hall; lia|]. rewrite <- Es in *. cbn [cbind].
  rewrite (proj2 (Z.leb_le 2 (zlen (M ++ rest)))) by lia. cbn [negb]. rewrite parse_socks_ver4; [|rewrite cur_prefix by lia; done|lia].
  unfold parse_socks4_request. rewrite HP. cbn [trunnel_call]. cbn [port command set_target]. rewrite (proj2 (Z.eqb_neq (s4_port m) 0)), (proj2 (Z.eqb_neq (s4_addr m) 0)) by done.
  cbn [andb orb]. rewrite shiftr8_zero, Ea, Hun by lia. destruct (negb (zlen un =? 0) && _); [cbn; eauto|].
  rewrite (proj2 (Z.leb_gt _ MAX_SOCKS_ADDR_LEN)) by (unfold SOCKS4_NETWORK_LEN; lia). cbn. eauto.
Qed.

Definition demo4 : socks4_client_request_t := mks4 4 1 80 7 (Some []) (Some (s2b "tor.onion")).

Lemma socks4a_pipelining_refused_witness :
  (exists r', fetch_from_buf_socks (E := unit) ∅ true (B := bytes) ([4; 1; 0; 80; 0; 0; 0; 7; 0] ++ s2b "tor.onion" ++ [0]) (new_request false) = Ok ([], r', 1))
  /\ exists r', fetch_from_buf_socks (E := unit) ∅ true (B := bytes) (([4; 1; 0; 80; 0; 0; 0; 7; 0] ++ s2b "tor.onion" ++ [0]) ++ repeat 65 247) (new_request false) = Ok ([], r', -1).
Proof.
  split; [eexists; vm_compute; reflexivity|].
  apply (socks4a_pipelining_refused (E := unit) ∅ true demo4 _ (s2b "tor.onion")).
  - repeat split; try (vm_compute; congruence); [exists []; by split; [|constructor]|]. cbn. eexists. split; [reflexivity|by repeat constructor].
  - vm_compute. discriminate.
  - vm_compute. reflexivity.
  - discriminate.
  - discriminate.
  - reflexivity.
  - vm_compute. reflexivity.
Defined.

(** ** The upstream proxy's answer *)

(** The bytes of an encoded reply. *)
Lemma reply_shape r R :
  reply_ok r -> socks5_server_reply_encode 1024 r = TOk R ->
  zlen R = 6 + union_size (sr_bind r) /\ aget R 1 = Ok (sr_reply r) /\ aget R 3 = Ok (un_atype (sr_bind r))
  /\ (un_atype (sr_bind r) = ATYPE_DOMAINNAME -> aget R 4 = Ok (union_size (sr_bind r) - 1)).
Proof.
  intros Hr ER. pose proof Hr as (H5 & Hb & H0 & Hu & Hp). destruct (union_ok_facts _ Hu) as (_ & Hsz & Ht).
  destruct (reply_encode_parse r 1024 Hr) as (b & Eb & Hz & HP); [lia|]. rewrite ER in Eb. injection Eb as <-. split; [done|].
  specialize (HP []). rewrite app_nil_r in HP. unfold socks5_server_reply_parse in HP.
  destruct R as [|x0 R]; [discriminate HP|]. cbn [get_u8 tbind] in HP. destruct (negb _); [discriminate HP|].
  destruct R as [|x1 R]; [discriminate HP|]. destruct R as [|x2 R]; [discriminate HP|]. cbn [get_u8 tbind] in HP. destruct (negb _); [discriminate HP|].
  destruct R as [|x3 R]; [discriminate HP|]. cbn [get_u8 tbind] in HP. destruct (union_parse x3 R) as [[u R']| | |] eqn:EU; try discriminate HP. cbn [tbind] in HP.
  destruct (get_u16 R') as [[pt R'']| | |]; try discriminate HP. cbn [tbind] in HP. injection HP as <- _. cbn [sr_reply sr_bind] in *.
  assert (Hx3 : un_atype u = x3 /\ (x3 = ATYPE_DOMAINNAME -> exists x4 R4, R = x4 :: R4 /\ un_domainname u = Some (mkdn x4 (take (Z.to_nat x4) R4)) /\ x4 <= zlen R4)).
  { unfold union_parse in EU. destruct (Z.eqb_spec x3 ATYPE_IPV4) as [->|]; [destruct (get_u32 R) as [[? ?]| | |]; try discriminate EU; injection EU as <- _; done|].
    destruct (Z.eqb_spec x3 ATYPE_IPV6) as [->|]; [destruct (take_bytes 16 R) as [[? ?]| | |]; try discriminate EU; injection EU as <- _; done|].
    destruct (Z.eqb_spec x3 ATYPE_DOMAINNAME) as [->|]; [|discriminate EU]. unfold domainname_parse, take_bytes in EU. destruct R as [|x4 R4]; [discriminate EU|]. cbn [get_u8 tbind] in EU.
    destruct (Z.ltb_spec (zlen R4) x4); [discriminate EU|]. injection EU as <- _. split; [done|]. intros _. by exists x4, R4. }
  destruct Hx3 as [Ht3 Hn]. split; [done|]. split; [by rewrite Ht3|]. rewrite Ht3. intros H3. destruct (Hn H3) as (x4 & R4 & -> & Hd & Hle).
  change (aget (x0 :: x1 :: x2 :: x3 :: x4 :: R4) 4) with (Ok x4). unfold union_size. rewrite Ht3, H3, Hd. cbn [dn_name Z.eqb ATYPE_DOMAINNAME ATYPE_IPV4 ATYPE_IPV6 Pos.eqb].
  destruct Hu as [v Hv|n Hn'|b Hb']; try discriminate Hd. injection Hd as <- Hnn. rewrite <- Hnn. f_equal. lia.
Qed.

Definition upstream_result (r : socks5_server_reply_t) (have need : Z) : Z * option bytes * Z :=
  if have <? need then (0, None, 0)
  else if sr_reply r =? 0 then (1, None, need)
  else (-1, Some (socks5_response_code_to_string (sr_reply r)), 0).

Lemma upstream_parse r R p q rest :
  reply_ok r -> socks5_server_reply_encode 1024 r = TOk R -> p ++ q = R ++ rest -> 2 <= zlen p ->
  parse_socks_client p PROXY_SOCKS5_WANT_CONNECT_OK = Ok (upstream_result r (zlen p) (zlen R)).
Proof.
  intros Hr ER Epq H2. destruct (reply_shape r R Hr ER) as (Hz & G1 & G3 & G4). destruct Hr as (_ & _ & _ & Hu & _). destruct (union_ok_facts _ Hu) as (_ & Hsz & _).
  assert (Hg : forall i, 0 <= i < zlen p -> i < zlen R -> aget p i = aget R i).
  { intros i Hi HiR. rewrite (aget_prefix p q i) by lia. rewrite Epq. symmetry. apply aget_prefix. lia. }
  unfold parse_socks_client, upstream_result. rewrite (proj2 (Z.ltb_ge (zlen p) 2)), (Hg 1), G1 by lia. cbn [cbind].
  destruct (Z.ltb_spec (zlen p) 4) as [H4|H4]; [by rewrite (proj2 (Z.ltb_lt (zlen p) (zlen R))) by lia|].
  rewrite (Hg 3), G3 by lia. cbn [cbind]. destruct Hu as [v Hv|n Hn|b Hb]; cbn [un_atype Z.eqb Pos.eqb ATYPE_IPV4 ATYPE_IPV6 ATYPE_DOMAINNAME] in *.
  - rewrite Hz. unfold union_size. cbn [un_atype Z.eqb Pos.eqb ATYPE_IPV4]. change (6 + 4) with 10. destruct (_ <? 10); [done|]. by destruct (sr_reply r =? 0).
  - destruct (Z.ltb_spec (zlen p) 5) as [H5|H5]; [by rewrite (proj2 (Z.ltb_lt (zlen p) (zlen R))) by lia|]. rewrite (Hg 4), G4 by (done || lia). cbn [cbind].
    rewrite Hz. replace (1 + (union_size _ - 1)) with (union_size (mkun 3 0 (Some (mkdn (zlen n) n)) (repeat 0 16))) by (unfold union_size; cbn; lia).
    destruct (_ <? _); [done|]. by destruct (sr_reply r =? 0).
  - rewrite Hz. unfold union_size. cbn [un_atype Z.eqb Pos.eqb ATYPE_IPV6 ATYPE_IPV4]. change (6 + 16) with 22. destruct (_ <? 22); [done|]. by destruct (sr_reply r =? 0).
Qed.

(** As long as the answer of an upstream SOCKS5 proxy is incomplete the client code waits and keeps what arrived; once it is complete, an
    answer that grants the connection is removed, leaving exactly the bytes behind it, and any other code ends in a failure with its description. *)
Theorem upstream_answer_any_prefix {B} `{ByteQueueLaws B} (buf : B) r R s t rest :
  reply_ok r -> socks5_server_reply_encode 1024 r = TOk R -> q_holds buf s -> s ++ t = R ++ rest ->
  exists buf', fetch_from_buf_socks_client buf PROXY_SOCKS5_WANT_CONNECT_OK
      = Ok (buf', if zlen s <? zlen R then (0, None) else if sr_reply r =? 0 then (1, None) else (-1, Some (socks5_response_code_to_string (sr_reply r))))
    /\ q_holds buf' (if (zlen R <=? zlen s) && (sr_reply r =? 0) then drop (length R) s else s).
Proof.
  intros Hr ER Hb Est. destruct (reply_shape r R Hr ER) as (Hz & _). destruct (union_ok_facts (sr_bind r)) as (_ & Hsz & _); [apply Hr|].
  unfold fetch_from_buf_socks_client. rewrite (q_datalen_ok buf s Hb). destruct (Z.ltb_spec (zlen s) 2) as [H2|H2].
  { exists buf. rewrite (proj2 (Z.ltb_lt (zlen s) (zlen R))), (proj2 (Z.leb_gt (zlen R) (zlen s))) by lia. done. }
  destruct (q_pullup_ok buf s MAX_SOCKS_MESSAGE_LEN Hb) as (b1 & hd & -> & Hb1 & Hh); [unfold MAX_SOCKS_MESSAGE_LEN; lia|]. cbn [cbind].
  destruct hd as [d|]; [|subst s; change (zlen (@nil Z)) with 0 in H2; lia]. destruct Hh as [(rest2 & ->) Hd]. unfold MAX_SOCKS_MESSAGE_LEN in Hd.
  rewrite (proj2 (Z.leb_le 2 (zlen d))) by lia. cbn [negb]. rewrite <- app_assoc in Est. rewrite (upstream_parse r R d _ rest Hr ER Est) by lia. cbn [cbind].
  pose proof (zlen_nonneg rest2). rewrite zlen_app in *. unfold upstream_result.
  assert (Hlt : (zlen d <? zlen R) = (zlen d + zlen rest2 <? zlen R)) by (destruct (Z.ltb_spec (zlen d) (zlen R)), (Z.ltb_spec (zlen d + zlen rest2) (zlen R)); lia || done).
  rewrite Hlt. destruct (Z.ltb_spec (zlen d + zlen rest2) (zlen R)) as [Hs|Hs].
  { cbn. exists b1. rewrite (proj2 (Z.leb_gt (zlen R) _)) by lia. done. }
  rewrite (proj2 (Z.leb_le (zlen R) _)) by lia. cbn [andb]. destruct (sr_reply r =? 0); [|by cbn; exists b1].
  destruct (drain_n b1 _ (zlen R) Hb1) as (b2 & E2 & Hb2); [rewrite zlen_app; lia|]. rewrite (proj2 (Z.ltb_lt 0 (zlen R))) in E2 |- * by lia. rewrite E2. cbn [cbind].
  exists b2. split; [done|]. unfold zlen in Hb2. by rewrite Nat2Z.id in Hb2.
Qed.

Lemma upstream_answer_any_prefix_witness :
  exists buf', fetch_from_buf_socks_client (B := bytes) [5; 0; 0; 1; 10; 0; 0; 1; 0; 80; 72] PROXY_SOCKS5_WANT_CONNECT_OK = Ok (buf', (1, None)) /\ q_holds buf' [72].
Proof.
  apply (upstream_answer_any_prefix (B := bytes) [5; 0; 0; 1; 10; 0; 0; 1; 0; 80; 72] (mksr 5 0 0 (mkun ATYPE_IPV4 167772161 None (repeat 0 16)) 80)
    [5; 0; 0; 1; 10; 0; 0; 1; 0; 80] [5; 0; 0; 1; 10; 0; 0; 1; 0; 80; 72] [] [72]).
  - repeat split; try (vm_compute; congruence). constructor. vm_compute. split; congruence.
  - vm_compute. reflexivity.
  - reflexivity.
  - reflexivity.
Defined.
