(* ===== verification/Conflux.v ===== *)
(** * Conflux

    Models core/or/conflux.c with the helpers of conflux_util.c and conflux_cell.c: one stream of relay messages over several
    circuits (legs).  The sender chooses a leg for every message and announces a change of leg with a SWITCH message
    that carries a relative sequence number; the receiver numbers what arrives on each leg, delivers what is next, and keeps the rest in a
    priority queue, the one of [PQueue].

    A leg is named by its circuit, and [curr_leg] and [prev_leg] by the circuit of the leg they point to.  The state of a circuit that
    the choice of a leg looks at, its congestion control and whether its channel is blocked, is the argument [circs] of
    the functions that look at it.  The fields for linking (nonce, number of launches) are left out, and so are the checks
    that only log ([conflux_validate_legs], [conflux_validate_stream_lists]). *)

From S2P Require Import Prelude PQueue Trunnel CongCtl RelayMsg.
From Stdlib Require Import ZArith.
From stdpp Require Import base list numbers.
Open Scope Z_scope.

Definition RELAY_COMMAND_DATA : Z := 2.
Definition RELAY_COMMAND_CONFLUX_SWITCH : Z := 22.

(** BEGIN, DATA, END, CONNECTED, RESOLVE, RESOLVED, XOFF, XON; every other command, known or not, is sent on its own circuit. *)
Definition conflux_should_multiplex (relay_command : Z) : bool := bool_decide (relay_command ∈ [1; 2; 3; 4; 11; 12; 43; 44]).

Inductive conflux_alg_t := CONFLUX_ALG_MINRTT | CONFLUX_ALG_LOWRTT | CONFLUX_ALG_CWNDRTT.

#[export] Instance conflux_alg_eq_dec : EqDecision conflux_alg_t.
Proof. solve_decision. Defined.

Record conflux_leg_t := mkleg { last_seq_recv : Z; last_seq_sent : Z; circ_rtts_usec : Z; linked_sent_usec : Z; leg_circ : Z }.

Record conflux_msg_t := mkcmsg { msg_seq : Z; msg : relay_msg_t }.

#[export] Instance relay_msg_eq_dec : EqDecision relay_msg_t.
Proof. solve_decision. Defined.
#[export] Instance conflux_msg_eq_dec : EqDecision conflux_msg_t.
Proof. solve_decision. Defined.

Record conflux_t := mkcfx {
  alg : conflux_alg_t;
  legs : list conflux_leg_t;
  ooo_q : pqueue (A := conflux_msg_t);
  ooo_q_alloc_cost : Z;
  last_seq_delivered : Z;
  cells_until_switch : Z;
  curr_leg : option Z;
  prev_leg : option Z;
  in_full_teardown : bool
}.

Definition set_legs v c := mkcfx (alg c) v (ooo_q c) (ooo_q_alloc_cost c) (last_seq_delivered c) (cells_until_switch c) (curr_leg c) (prev_leg c) (in_full_teardown c).
Definition set_queue q cost c := mkcfx (alg c) (legs c) q cost (last_seq_delivered c) (cells_until_switch c) (curr_leg c) (prev_leg c) (in_full_teardown c).
Definition set_delivered v c := mkcfx (alg c) (legs c) (ooo_q c) (ooo_q_alloc_cost c) v (cells_until_switch c) (curr_leg c) (prev_leg c) (in_full_teardown c).
Definition set_until v c := mkcfx (alg c) (legs c) (ooo_q c) (ooo_q_alloc_cost c) (last_seq_delivered c) v (curr_leg c) (prev_leg c) (in_full_teardown c).
Definition set_curr v c := mkcfx (alg c) (legs c) (ooo_q c) (ooo_q_alloc_cost c) (last_seq_delivered c) (cells_until_switch c) v (prev_leg c) (in_full_teardown c).
Definition set_prev v c := mkcfx (alg c) (legs c) (ooo_q c) (ooo_q_alloc_cost c) (last_seq_delivered c) (cells_until_switch c) (curr_leg c) v (in_full_teardown c).

Definition set_recv v l := mkleg v (last_seq_sent l) (circ_rtts_usec l) (linked_sent_usec l) (leg_circ l).
Definition set_sent v l := mkleg (last_seq_recv l) v (circ_rtts_usec l) (linked_sent_usec l) (leg_circ l).
Definition set_rtt v l := mkleg (last_seq_recv l) (last_seq_sent l) v (linked_sent_usec l) (leg_circ l).

(** What is read of a [circuit_t]: its side, the blocked flag of each channel, whether it goes on to a next hop, the last hop of its path for an origin circuit,
    and the congestion control of that hop or of the circuit ([circuit_ccontrol]). *)
Record leg_circuit := mklc {
  lc_is_origin : bool; circuit_blocked_on_n_chan : bool; circuit_blocked_on_p_chan : bool; has_n_chan : bool; cpath_prev : option Z;
  circuit_ccontrol : congestion_control_t
}.

(** ** Legs *)

Definition conflux_get_leg (cfx : conflux_t) (circ : Z) : option conflux_leg_t := List.find (fun leg => leg_circ leg =? circ) (legs cfx).

(** An assignment to a field of the leg that [conflux_get_leg] found. *)
Fixpoint update_leg (circ : Z) (f : conflux_leg_t -> conflux_leg_t) (ls : list conflux_leg_t) : list conflux_leg_t :=
  match ls with
  | [] => []
  | l :: ls => if leg_circ l =? circ then f l :: ls else l :: update_leg circ f ls
  end.

Definition on_leg (circ : Z) (f : conflux_leg_t -> conflux_leg_t) (cfx : conflux_t) : conflux_t := set_legs (update_leg circ f (legs cfx)) cfx.

Definition conflux_get_max_seq_sent (cfx : conflux_t) : Z :=
  fold_left (fun m leg => if m <? last_seq_sent leg then last_seq_sent leg else m) (legs cfx) 0.

Definition conflux_get_max_seq_recv (cfx : conflux_t) : Z :=
  fold_left (fun m leg => if m <? last_seq_recv leg then last_seq_recv leg else m) (legs cfx) 0.

Definition conflux_get_circ_bytes_allocation (cfx : option conflux_t) : Z :=
  match cfx with Some c => u64 (zlen (pq_list (ooo_q c)) * 8 + ooo_q_alloc_cost c) | None => 0 end.

Definition conflux_update_rtt (cfx : conflux_t) (circ rtt_usec : Z) : conflux_t :=
  match conflux_get_leg cfx circ with Some _ => on_leg circ (set_rtt rtt_usec) cfx | None => cfx end.

(** ** The choice of a leg *)

Section Choose.

Variable circs : Z -> leg_circuit.
Variable drain_pct : Z.

Definition circuit_ready_to_send (circ : Z) : bool :=
  let cc := circuit_ccontrol (circs circ) in
  let cc_sendable := negb (cwnd cc <=? inflight cc) in
  if lc_is_origin (circs circ) then cc_sendable && negb (circuit_blocked_on_n_chan (circs circ))
  else cc_sendable && negb (circuit_blocked_on_p_chan (circs circ)).

(** The loop for the least RTT that is not 0, among the legs that [ok] lets through. *)
Definition least_rtt (ok : conflux_leg_t -> bool) (ls : list conflux_leg_t) : Z * option Z :=
  fold_left (fun '(min_rtt, circ) leg =>
    if ok leg && negb (circ_rtts_usec leg =? 0) && (circ_rtts_usec leg <? min_rtt) then (circ_rtts_usec leg, Some (leg_circ leg)) else (min_rtt, circ))
    ls (UINT64_MAX, None).

Definition conflux_decide_circ_minrtt (cfx : conflux_t) : cres (option Z) :=
  assert! (negb (zlen (legs cfx) =? 0));
  Ok match snd (least_rtt (fun _ => true) (legs cfx)) with
     | Some circ => if circuit_ready_to_send circ then Some circ else None
     | None => None
     end.

Definition conflux_decide_circ_lowrtt (cfx : conflux_t) : cres (option Z) :=
  assert! (negb (zlen (legs cfx) =? 0));
  Ok (snd (least_rtt (fun leg => circuit_ready_to_send (leg_circ leg)) (legs cfx))).

Definition cwnd_available (circ : Z) : Z :=
  let cc := circuit_ccontrol (circs circ) in if cwnd cc <? inflight cc then 0 else cwnd cc - inflight cc.

Definition cwnd_sendable (circ in_usec our_usec : Z) : Z :=
  let cc := circuit_ccontrol (circs circ) in
  let cwnd_adjusted := cwnd_available circ in
  if (our_usec =? 0) || (in_usec =? 0) then cwnd_adjusted
  else if in_slow_start cc then cwnd_adjusted
  else Z.min (cwnd cc) (u64 (cwnd_adjusted * in_usec) / our_usec).

(** The assertion is written as it is in the code. *)
Definition conflux_decide_circ_cwndrtt (cfx : conflux_t) : cres (option Z) :=
  assert! (negb (negb (zlen (legs cfx) =? 0)));
  let '(min_rtt, leg) := least_rtt (fun _ => true) (legs cfx) in
  let use := match leg with Some circ => if circuit_ready_to_send circ then Some circ else None | None => None end in
  match use with
  | Some circ => Ok (Some circ)
  | None =>
      let leg := fold_left (fun leg l =>
          if negb (circuit_ready_to_send (leg_circ l)) then leg
          else if negb (circ_rtts_usec l =? 0) && (0 <? cwnd_sendable (leg_circ l) min_rtt (circ_rtts_usec l)) then Some (leg_circ l)
          else leg) (legs cfx) None in
      Ok match leg with Some circ => if circuit_ready_to_send circ then Some circ else None | None => None end
  end.

Definition conflux_can_switch (cfx : conflux_t) : bool :=
  if 0 <? cells_until_switch cfx then
    match prev_leg cfx with
    | None => false
    | Some circ =>
        let cc := circuit_ccontrol (circs circ) in
        (inflight cc <? inc cc) || (u64 (100 * inflight cc) <=? u64 (drain_pct * cwnd cc))
    end
  else true.

(** [None] if there is no leg. *)
Definition conflux_pick_first_leg (cfx : conflux_t) : option conflux_t :=
  let min_leg := fold_left (fun m leg =>
      if 0 <? circ_rtts_usec leg then
        match m with None => Some leg | Some l => if circ_rtts_usec leg <? circ_rtts_usec l then Some leg else m end
      else m) (legs cfx) None in
  match min_leg, legs cfx with
  | Some l, _ => Some (set_curr (Some (leg_circ l)) (set_until 0 cfx))
  | None, [] => None
  | None, l :: _ => Some (set_curr (Some (leg_circ l)) (set_until 0 cfx))
  end.

Definition conflux_decide_next_circ (cfx : conflux_t) : cres (conflux_t * option Z) :=
  if in_full_teardown cfx then Ok (cfx, None)
  else
    match (match curr_leg cfx with Some _ => Some cfx | None => conflux_pick_first_leg cfx end) with
    | None => Ok (cfx, None)
    | Some cfx =>
        if negb (conflux_can_switch cfx) then
          match curr_leg cfx with
          | None => Bug
          | Some curr_circ => Ok (cfx, if circuit_ready_to_send curr_circ then Some curr_circ else None)
          end
        else
          let* circ := match alg cfx with
                       | CONFLUX_ALG_MINRTT => conflux_decide_circ_minrtt cfx
                       | CONFLUX_ALG_LOWRTT => conflux_decide_circ_lowrtt cfx
                       | CONFLUX_ALG_CWNDRTT => conflux_decide_circ_cwndrtt cfx
                       end in
          Ok (cfx, circ)
    end.

Definition conflux_can_send (cfx : conflux_t) : cres (conflux_t * bool) :=
  let* (cfx, send_circ) := conflux_decide_next_circ cfx in Ok (cfx, bool_decide (is_Some send_circ)).

(** ** Sending *)

(** The body of a SWITCH message. *)
Definition trn_cell_conflux_switch_encode (avail seqnum : Z) : tres bytes := put avail [] (put_u32 seqnum).
Definition trn_cell_conflux_switch_parse (s : bytes) : tres (Z * bytes) := get_u32 s.

Definition RELAY_PAYLOAD_SIZE_MAX : Z := CELL_PAYLOAD_SIZE - RELAY_HEADER_SIZE_V0.

(** The message that is sent; [None] if it cannot be encoded. *)
Definition conflux_send_switch_command (relative_seq : Z) : cres (option relay_msg_t) :=
  assert! (relative_seq <? UINT32_MAX);
  match trn_cell_conflux_switch_encode RELAY_PAYLOAD_SIZE_MAX (u32 relative_seq) with
  | TOk payload => Ok (Some (mkmsg RELAY_COMMAND_CONFLUX_SWITCH (zlen payload) 0 false payload))
  | TBug => Bug
  | _ => Ok None
  end.

(** The circuit to send on, and the SWITCH message that goes before. *)
Definition conflux_decide_circ_for_send (cfx : conflux_t) (orig_circ relay_command : Z) : cres (conflux_t * option Z * option relay_msg_t) :=
  if negb (conflux_should_multiplex relay_command) then Ok (cfx, Some orig_circ, None)
  else
    let* (cfx, new_circ) := conflux_decide_next_circ cfx in
    match new_circ with
    | None => if negb (relay_command =? RELAY_COMMAND_DATA) then Ok (cfx, curr_leg cfx, None) else Ok (cfx, None, None)
    | Some new_circ =>
        match curr_leg cfx with
        | None => Bug
        | Some curr =>
            if negb (new_circ =? curr) then
              let cfx := set_curr (Some new_circ) (set_prev (Some curr) (set_until 0 cfx)) in
              match conflux_get_leg cfx curr, conflux_get_leg cfx new_circ with
              | Some prev_l, Some curr_l =>
                  let relative_seq := u64 (last_seq_sent prev_l - last_seq_sent curr_l) in
                  assert! (last_seq_sent curr_l <=? last_seq_sent prev_l);
                  let* switch := conflux_send_switch_command relative_seq in
                  Ok (on_leg new_circ (set_sent (last_seq_sent prev_l)) cfx, Some new_circ, switch)
              | _, _ => Bug
              end
            else Ok (cfx, Some new_circ, None)
        end
    end.

Definition conflux_note_cell_sent (cfx : conflux_t) (circ relay_command : Z) : conflux_t :=
  if negb (conflux_should_multiplex relay_command) then cfx
  else
    match conflux_get_leg cfx circ with
    | None => cfx
    | Some leg =>
        let cfx := on_leg circ (set_sent (u64 (last_seq_sent leg + 1))) cfx in
        if 0 <? cells_until_switch cfx then set_until (cells_until_switch cfx - 1) cfx else cfx
    end.

(** What [relay_send_command_from_edge_] does with the set for a message that is queued on its circuit: the choice of the leg, with the
    original circuit as the last resort, and the count.  Returns what goes out, with its circuit. *)
Definition send_on_set (cfx : conflux_t) (orig_circ : Z) (m : relay_msg_t) : cres (conflux_t * Z * list relay_msg_t) :=
  let* (cfx, circ, switch) := conflux_decide_circ_for_send cfx orig_circ (m_command m) in
  let circ := match circ with Some c => c | None => orig_circ end in
  Ok (conflux_note_cell_sent cfx circ (m_command m), circ, match switch with Some s => [s; m] | None => [m] end).

End Choose.

(** ** Receiving *)

Definition conflux_queue_cmp (a b : conflux_msg_t) : Z := if msg_seq a <? msg_seq b then -1 else if msg_seq b <? msg_seq a then 1 else 0.

Definition conflux_get_destination_hop (circ : leg_circuit) : option Z := if lc_is_origin circ then cpath_prev circ else None.

Definition conflux_validate_source_hop (in_circ : leg_circuit) (layer_hint : option Z) : bool :=
  if negb (bool_decide (conflux_get_destination_hop in_circ = layer_hint)) then false
  else if bool_decide (layer_hint = None) && has_n_chan in_circ then false
  else true.

(** 0 if the message cannot be parsed. *)
Definition conflux_cell_parse_switch (m : relay_msg_t) : cres Z :=
  match trn_cell_conflux_switch_parse (take (Z.to_nat (m_length m)) (m_body m)) with TOk (s, _) => Ok s | TBug => Bug | _ => Ok 0 end.

(** The circuit is closed, with a reason. *)
Inductive close_reason := END_CIRC_REASON_TORPROTOCOL | END_CIRC_REASON_INTERNAL.

Section Receive.

(** [sizeof(conflux_msg_t) + sizeof(relay_msg_t)] *)
Variable msg_overhead : Z.

Definition conflux_msg_alloc_cost (m : conflux_msg_t) : Z := m_length (msg m) + msg_overhead.

(** [enabled] is [conflux_is_enabled(in_circ)]; the set of the circuit may be NULL. *)
Definition conflux_process_switch_command (enabled : bool) (cfx : option conflux_t) (in_id : Z) (in_circ : leg_circuit) (layer_hint : option Z) (m : relay_msg_t)
    : cres (conflux_t + close_reason) :=
  if negb enabled then Ok (inr END_CIRC_REASON_TORPROTOCOL)
  else
    match cfx with
    | None => Ok (inr END_CIRC_REASON_TORPROTOCOL)
    | Some cfx =>
        match conflux_get_leg cfx in_id with
        | None => Ok (inr END_CIRC_REASON_INTERNAL)
        | Some leg =>
            if negb (conflux_validate_source_hop in_circ layer_hint) then Ok (inr END_CIRC_REASON_TORPROTOCOL)
            else
              let* relative_seq := conflux_cell_parse_switch m in
              Ok (inl (on_leg in_id (set_recv (u64 (last_seq_recv leg + relative_seq))) cfx))
        end
    end.

(** The set, [total_ooo_q_bytes] and whether messages are ready; or the circuit is closed. *)
Definition conflux_process_relay_msg (cfx : conflux_t) (total : Z) (in_id : Z) (in_circ : leg_circuit) (layer_hint : option Z) (m : relay_msg_t)
    : cres (conflux_t * Z * bool + close_reason) :=
  match conflux_get_leg cfx in_id with
  | None => Ok (inr END_CIRC_REASON_INTERNAL)
  | Some leg =>
      if negb (conflux_validate_source_hop in_circ layer_hint) then Ok (inr END_CIRC_REASON_TORPROTOCOL)
      else
        let s := u64 (last_seq_recv leg + 1) in
        let cfx := on_leg in_id (set_recv s) cfx in
        if s =? u64 (last_seq_delivered cfx + 1) then Ok (inl (set_delivered (u64 (last_seq_delivered cfx + 1)) cfx, total, true))
        else if s <=? last_seq_delivered cfx then Ok (inr END_CIRC_REASON_INTERNAL)
        else
          let c_msg := mkcmsg s m in
          let cost := conflux_msg_alloc_cost c_msg in
          let* q := smartlist_pqueue_add conflux_queue_cmp (ooo_q cfx) c_msg in
          Ok (inl (set_queue q (u64 (ooo_q_alloc_cost cfx + cost)) cfx, u64 (total + cost), false))
  end.

Definition conflux_dequeue_relay_msg (cfx : conflux_t) (total : Z) : cres (conflux_t * Z * option conflux_msg_t) :=
  match pq_list (ooo_q cfx) with
  | [] => Ok (cfx, total, None)
  | top :: _ =>
      if msg_seq top =? u64 (last_seq_delivered cfx + 1) then
        let* (_, q) := smartlist_pqueue_pop conflux_queue_cmp (ooo_q cfx) in
        let cost := conflux_msg_alloc_cost top in
        let cfx := set_queue q (u64 (ooo_q_alloc_cost cfx - cost)) cfx in
        Ok (set_delivered (u64 (last_seq_delivered cfx + 1)) cfx, u64 (total - cost), Some top)
      else Ok (cfx, total, None)
  end.

(** [connection_edge_process_ordered_relay_cell]: the streams, and a return value that is negative if the circuit must be closed. *)
Context {S : Type} (process_ordered : S -> relay_msg_t -> S * Z).

(** The loop over the queue in [connection_edge_process_relay_cell]. *)
Fixpoint deliver_loop (fuel : nat) (cfx : conflux_t) (total : Z) (streams : S) : cres (conflux_t * Z * S * Z) :=
  match fuel with
  | O => Fuel
  | Datatypes.S fuel =>
      let* (cfx, total, c_msg) := conflux_dequeue_relay_msg cfx total in
      match c_msg with
      | None => Ok (cfx, total, streams, 0)
      | Some c =>
          let '(streams, ret) := process_ordered streams (msg c) in
          if ret <? 0 then Ok (cfx, total, streams, ret) else deliver_loop fuel cfx total streams
      end
  end.

(** The end of [connection_edge_process_relay_cell] for a message that is multiplexed. *)
Definition receive_on_set (cfx : conflux_t) (total : Z) (in_id : Z) (in_circ : leg_circuit) (layer_hint : option Z) (streams : S) (m : relay_msg_t)
    : cres (conflux_t * Z * S * Z + close_reason) :=
  let* r := conflux_process_relay_msg cfx total in_id in_circ layer_hint m in
  match r with
  | inr reason => Ok (inr reason)
  | inl (cfx, total, false) => Ok (inl (cfx, total, streams, 0))
  | inl (cfx, total, true) =>
      let '(streams, ret) := process_ordered streams m in
      if ret <? 0 then Ok (inl (cfx, total, streams, ret))
      else
        let* r := deliver_loop (Datatypes.S (length (pq_list (ooo_q cfx)))) cfx total streams in Ok (inl r)
  end.

End Receive.

(** ** The algorithm for throughput *)

(** C21. With the algorithm CWNDRTT the choice of a leg aborts for every set that has legs and may switch: the assertion that there are legs is negated. *)
Theorem cwndrtt_always_aborts circs drain_pct cfx :
  alg cfx = CONFLUX_ALG_CWNDRTT -> legs cfx <> [] -> in_full_teardown cfx = false -> cells_until_switch cfx = 0 ->
  conflux_decide_next_circ circs drain_pct cfx = Bug.
Proof.
  intros Ha Hl Ht Hu. unfold conflux_decide_next_circ. rewrite Ht.
  assert (Hn : forall c, alg c = CONFLUX_ALG_CWNDRTT -> legs c = legs cfx -> cells_until_switch c = 0 ->
    (if negb (conflux_can_switch circs drain_pct c) then
       match curr_leg c with None => Bug | Some cc => Ok (c, if circuit_ready_to_send circs cc then Some cc else None) end
     else let* circ := match alg c with
                       | CONFLUX_ALG_MINRTT => conflux_decide_circ_minrtt circs c
                       | CONFLUX_ALG_LOWRTT => conflux_decide_circ_lowrtt circs c
                       | CONFLUX_ALG_CWNDRTT => conflux_decide_circ_cwndrtt circs c
                       end in Ok (c, circ)) = Bug).
  { intros c Hac Hlc Huc. unfold conflux_can_switch. rewrite Huc, Hac. cbn [Z.ltb Z.compare negb]. unfold conflux_decide_circ_cwndrtt. rewrite Hlc.
    destruct (legs cfx) as [|l ls]; [done|]. rewrite zlen_cons, (proj2 (Z.eqb_neq (zlen ls + 1) 0)) by (pose proof (zlen_nonneg ls); lia). reflexivity. }
  destruct (curr_leg cfx) eqn:Ec; [by apply Hn|]. unfold conflux_pick_first_leg.
  destruct (fold_left _ (legs cfx) None); [by apply Hn|]. destruct (legs cfx) as [|l0 ls] eqn:El; [done|]. by apply Hn.
Qed.

Lemma cwndrtt_always_aborts_witness :
  let cc := mkcc (mkccp 100 1 124 31 31 CC_ALG_VEGAS (mkvegas 600 5000 186 186 248 310)) [] 0 0 0 0 124 0 31 0 true false false in
  conflux_decide_next_circ (fun _ => mklc true false false true (Some 3) cc) 0 (mkcfx CONFLUX_ALG_CWNDRTT [mkleg 0 0 50 0 7] (mkpq [] (fun _ => 0)) 0 0 0 None None false) = Bug.
Proof. intros cc. by apply cwndrtt_always_aborts. Defined.
