(* ===== verification/ConfluxSystem.v ===== *)
(** * A conflux set end to end

    Composes the two sides of [Conflux] into a transition system: a sender and a receiver, one queue of messages per circuit between them, and the
    environment that decides at every step which side acts, on which circuit a message arrives, and what the
    congestion control of the circuits looks like.  The result is that the streams get the messages in the order in which they were sent. *)

From S2P Require Import Prelude PQueue Trunnel CongCtl RelayMsg Conflux.
From Stdlib Require Import ZArith.
From stdpp Require Import base list numbers sets.
Open Scope Z_scope.

Record sys := mksys {
  sender : conflux_t; receiver : conflux_t; total_ooo_q_bytes : Z; wires : Z -> list relay_msg_t; sent : list relay_msg_t; delivered : list relay_msg_t
}.

Inductive event :=
  | Send (circs : Z -> leg_circuit) (orig_circ : Z) (m : relay_msg_t)
  | Recv (circ : Z)
  | Rtt (circ rtt_usec : Z).

Section System.

Variables (drain_pct msg_overhead : Z).

(** The circuits of the receiver: messages come from the expected hop. *)
Variable in_circs : Z -> leg_circuit.
Hypothesis in_circs_ok : forall c, conflux_validate_source_hop (in_circs c) (conflux_get_destination_hop (in_circs c)) = true.

(** The streams take every message. *)
Definition deliver (d : list relay_msg_t) (m : relay_msg_t) : list relay_msg_t * Z := (d ++ [m], 0).

Definition on_wire (c : Z) (out : list relay_msg_t) (w : Z -> list relay_msg_t) : Z -> list relay_msg_t := fun x => if x =? c then out else w x.

(** DATA is packaged only while the set can send ([circuit_get_package_window]). *)
Definition step (st : sys) (e : event) : cres sys :=
  match e with
  | Send circs orig_circ m =>
      let* (cfx, can_send) := conflux_can_send circs drain_pct (sender st) in
      if (m_command m =? RELAY_COMMAND_DATA) && negb can_send
      then Ok (mksys cfx (receiver st) (total_ooo_q_bytes st) (wires st) (sent st) (delivered st))
      else
        let* (cfx, c, out) := send_on_set circs drain_pct cfx orig_circ m in
        Ok (mksys cfx (receiver st) (total_ooo_q_bytes st) (on_wire c (wires st c ++ out) (wires st)) (sent st ++ [m]) (delivered st))
  | Recv c =>
      match wires st c with
      | [] => Ok st
      | m :: rest =>
          if m_command m =? RELAY_COMMAND_CONFLUX_SWITCH then
            let* r := conflux_process_switch_command true (Some (receiver st)) c (in_circs c) (conflux_get_destination_hop (in_circs c)) m in
            match r with
            | inl cfx => Ok (mksys (sender st) cfx (total_ooo_q_bytes st) (on_wire c rest (wires st)) (sent st) (delivered st))
            | inr _ => Err
            end
          else
            let* r := receive_on_set msg_overhead deliver (receiver st) (total_ooo_q_bytes st) c (in_circs c) (conflux_get_destination_hop (in_circs c)) (delivered st) m in
            match r with
            | inl (cfx, total, d, _) => Ok (mksys (sender st) cfx total (on_wire c rest (wires st)) (sent st) d)
            | inr _ => Err
            end
      end
  | Rtt c rtt => Ok (mksys (conflux_update_rtt (sender st) c rtt) (receiver st) (total_ooo_q_bytes st) (wires st) (sent st) (delivered st))
  end.

Fixpoint steps (st : sys) (es : list event) : cres sys :=
  match es with [] => Ok st | e :: es => let* st := step st e in steps st es end.

Definition fresh_queue : pqueue (A := conflux_msg_t) := mkpq [] (fun _ => 0).

Definition fresh_set (a : conflux_alg_t) (ids : list (Z * Z)) : conflux_t :=
  mkcfx a (map (fun '(c, rtt) => mkleg 0 0 rtt 0 c) ids) fresh_queue 0 0 0 None None false.

(** Two linked sets with the same circuits, their round-trip times on either side. *)
Definition linked (a : conflux_alg_t) (ids : list (Z * Z)) : sys := mksys (fresh_set a ids) (fresh_set a ids) 0 (fun _ => []) [] [].

(** ** Legs *)

Definition leg_of (ls : list conflux_leg_t) (c : Z) : option conflux_leg_t := List.find (fun l => leg_circ l =? c) ls.

Lemma leg_of_circ ls c l : leg_of ls c = Some l -> leg_circ l = c.
Proof. intros H. apply List.find_some in H as [_ H]. by apply Z.eqb_eq. Qed.

Lemma leg_of_in ls c : c ∈ map leg_circ ls -> exists l, leg_of ls c = Some l.
Proof.
  induction ls as [|l ls IH]; cbn; [set_solver|]. destruct (Z.eqb_spec (leg_circ l) c); [eauto|]. intros Hc. apply IH. set_solver.
Qed.

Lemma leg_of_some ls c l : leg_of ls c = Some l -> c ∈ map leg_circ ls.
Proof. induction ls as [|l' ls IH]; cbn; [done|]. destruct (Z.eqb_spec (leg_circ l') c) as [->|]; [set_solver|]. intros H. specialize (IH H). set_solver. Qed.

Lemma update_circs c f ls : (forall l, leg_circ (f l) = leg_circ l) -> map leg_circ (update_leg c f ls) = map leg_circ ls.
Proof. intros Hf. induction ls as [|l ls IH]; [done|]. cbn. destruct (_ =? c); cbn; by rewrite ?Hf, ?IH. Qed.

Lemma leg_of_update ls c f c' :
  (forall l, leg_circ (f l) = leg_circ l) -> leg_of (update_leg c f ls) c' = if c' =? c then option_map f (leg_of ls c) else leg_of ls c'.
Proof.
  intros Hf. unfold leg_of. induction ls as [|l ls IH]; cbn; [by destruct (_ =? _)|]. destruct (Z.eqb_spec (leg_circ l) c) as [Hl|Hl]; cbn.
  - rewrite Hf, Hl. destruct (Z.eqb_spec c c'), (Z.eqb_spec c' c); congruence || done.
  - rewrite IH. destruct (Z.eqb_spec (leg_circ l) c'), (Z.eqb_spec c' c); congruence || done.
Qed.

(** ** Numbered messages *)

Fixpoint numbered (n : Z) (l : list relay_msg_t) : list conflux_msg_t :=
  match l with [] => [] | m :: l => mkcmsg (n + 1) m :: numbered (n + 1) l end.

Lemma numbered_app n l1 l2 : numbered n (l1 ++ l2) = numbered n l1 ++ numbered (n + zlen l1) l2.
Proof.
  revert n. induction l1 as [|m l1 IH]; intros n; cbn [app numbered]; [change (zlen (@nil relay_msg_t)) with 0; by rewrite Z.add_0_r|].
  rewrite IH, zlen_cons. do 3 f_equal. lia.
Qed.

Lemma numbered_range n l x : x ∈ numbered n l -> n < msg_seq x <= n + zlen l.
Proof.
  revert n. induction l as [|m l IH]; intros n Hx; cbn in Hx; [set_solver|]. rewrite zlen_cons. pose proof (zlen_nonneg l).
  apply elem_of_cons in Hx as [->|Hx]; [cbn; lia|]. specialize (IH _ Hx). lia.
Qed.

Lemma numbered_nodup n l : NoDup (numbered n l).
Proof.
  revert n. induction l as [|m l IH]; intros n; cbn; constructor; [|apply IH]. intros Hx. apply numbered_range in Hx. cbn in Hx. lia.
Qed.

(** The message with the next number is the next message. *)
Lemma numbered_next n l m : mkcmsg (n + 1) m ∈ numbered n l -> exists l', l = m :: l'.
Proof.
  destruct l as [|m' l]; cbn; [set_solver|]. intros Hx. apply elem_of_cons in Hx as [[= ->]|Hx]; [eauto|]. apply numbered_range in Hx. cbn in Hx. lia.
Qed.

(** ** What is on a wire *)

Definition switch_by (m : relay_msg_t) : Z := match conflux_cell_parse_switch m with Ok s => s | _ => 0 end.

(** The numbers that the receiver will give to what is on a wire, and the last of them. *)
Fixpoint replay (n : Z) (w : list relay_msg_t) : list conflux_msg_t * Z :=
  match w with
  | [] => ([], n)
  | m :: w =>
      if m_command m =? RELAY_COMMAND_CONFLUX_SWITCH then replay (n + switch_by m) w
      else let '(f, e) := replay (n + 1) w in (mkcmsg (n + 1) m :: f, e)
  end.

Lemma replay_switch n m w : m_command m = RELAY_COMMAND_CONFLUX_SWITCH -> replay n (m :: w) = replay (n + switch_by m) w.
Proof. intros E. cbn [replay]. by rewrite E. Qed.

Lemma replay_app n w1 w2 :
  replay n (w1 ++ w2) = (fst (replay n w1) ++ fst (replay (snd (replay n w1)) w2), snd (replay (snd (replay n w1)) w2)).
Proof.
  revert n. induction w1 as [|m w1 IH]; intros n; cbn [app replay]; [cbn [fst snd app]; by destruct (replay n w2)|]. destruct (_ =? _); [apply IH|].
  rewrite IH. by destruct (replay (n + 1) w1) as [f e].
Qed.

(** The SWITCH message says what it was built from. *)
Lemma switch_message k :
  0 <= k < UINT32_MAX ->
  exists s, conflux_send_switch_command k = Ok (Some s) /\ m_command s = RELAY_COMMAND_CONFLUX_SWITCH /\ switch_by s = k /\ conflux_cell_parse_switch s = Ok k.
Proof.
  unfold UINT32_MAX. intros Hk. unfold conflux_send_switch_command, trn_cell_conflux_switch_encode. rewrite (proj2 (Z.ltb_lt k UINT32_MAX)) by (unfold UINT32_MAX; lia).
  rewrite put_ok by (change (zlen (@nil Z)) with 0; rewrite zlen_put_u32; unfold RELAY_PAYLOAD_SIZE_MAX, CELL_PAYLOAD_SIZE, RELAY_HEADER_SIZE_V0; lia). cbn [app].
  assert (Hp : forall n i e b, conflux_cell_parse_switch (mkmsg n 4 i e (put_u32 b)) = (if (0 <=? b) && (b <=? UINT32_MAX) then Ok b else conflux_cell_parse_switch (mkmsg n 4 i e (put_u32 b)))).
  { intros n i e b. destruct (_ && _) eqn:Eb; [|done]. unfold conflux_cell_parse_switch. cbn [m_length m_body].
    rewrite take_ge by (change (length (put_u32 b)) with 4%nat; lia). unfold trn_cell_conflux_switch_parse. rewrite <- (app_nil_r (put_u32 b)), get_put_u32; [done|]. blia. }
  eexists. split; [done|]. split; [done|]. rewrite zlen_put_u32. unfold switch_by. rewrite Hp. unfold u32. rewrite Z.mod_small by lia.
  replace (_ && _) with true by (unfold UINT32_MAX; blia). done.
Qed.

(** A SWITCH message on a wire can be parsed. *)
Definition switch_good (m : relay_msg_t) : Prop :=
  m_command m = RELAY_COMMAND_CONFLUX_SWITCH -> conflux_cell_parse_switch m = Ok (switch_by m) /\ 0 <= switch_by m.

Lemma replay_mono n w : Forall switch_good w -> n <= snd (replay n w).
Proof.
  intros Hw. revert n. induction Hw as [|m w Hm Hw IH]; intros n; cbn [replay]; [cbn; lia|]. destruct (Z.eqb_spec (m_command m) RELAY_COMMAND_CONFLUX_SWITCH) as [E|E].
  - destruct (Hm E). specialize (IH (n + switch_by m)). lia.
  - specialize (IH (n + 1)). destruct (replay (n + 1) w). cbn in *. lia.
Qed.

(** ** The invariant *)

Definition flight (st : sys) (c : Z) : list conflux_msg_t :=
  match leg_of (legs (receiver st)) c with Some l => fst (replay (last_seq_recv l) (wires st c)) | None => [] end.

Definition in_flight (st : sys) : list conflux_msg_t := concat (map (flight st) (map leg_circ (legs (receiver st)))).

Definition queue_cost (q : pqueue (A := conflux_msg_t)) : Z := foldr (fun m n => conflux_msg_alloc_cost msg_overhead m + n) 0 (pq_list q).

(** The sender: what was sent last is known on the current leg. *)
Record sender_ok (ids : list Z) (n : Z) (s : conflux_t) : Prop := mk_sender_ok {
  so_ids : map leg_circ (legs s) = ids;
  so_alg : alg s <> CONFLUX_ALG_CWNDRTT;
  so_up : in_full_teardown s = false;
  so_seq : forall c l, leg_of (legs s) c = Some l -> 0 <= last_seq_sent l <= n;
  so_curr : match curr_leg s with None => n = 0 | Some c => exists l, leg_of (legs s) c = Some l /\ last_seq_sent l = n end
}.

(** The receiver: [F] is what it has yet to receive of the [S] messages sent. *)
Record receiver_ok (S : list relay_msg_t) (F : list conflux_msg_t) (r : conflux_t) (d : list relay_msg_t) : Prop := mk_receiver_ok {
  ro_d : last_seq_delivered r = zlen d;
  ro_prefix : exists later, S = d ++ later /\ pq_list (ooo_q r) ++ F ≡ₚ numbered (zlen d) later;
  ro_heap : pq_ok conflux_queue_cmp (ooo_q r);
  ro_cost : ooo_q_alloc_cost r = u64 (queue_cost (ooo_q r))
}.

(** Nothing in the queue is next. *)
Definition settled (r : conflux_t) (d : list relay_msg_t) : Prop := Forall (fun x => msg_seq x <> zlen d + 1) (pq_list (ooo_q r)).

Record inv (ids : list Z) (st : sys) : Prop := mk_inv {
  i_nodup : NoDup ids;
  i_ids : ids <> [];
  i_sender : sender_ok ids (zlen (sent st)) (sender st);
  i_receiver : receiver_ok (sent st) (in_flight st) (receiver st) (delivered st);
  i_settled : settled (receiver st) (delivered st);
  i_circs : map leg_circ (legs (receiver st)) = ids;
  i_wires : forall c ls lr, leg_of (legs (sender st)) c = Some ls -> leg_of (legs (receiver st)) c = Some lr ->
      snd (replay (last_seq_recv lr) (wires st c)) = last_seq_sent ls;
  i_recv : forall c l, leg_of (legs (receiver st)) c = Some l -> 0 <= last_seq_recv l;
  i_off : forall c, c ∉ ids -> wires st c = [];
  i_switch : forall c, Forall switch_good (wires st c)
}.


(** ** The sender *)

Lemma least_rtt_in ok ls c : snd (least_rtt ok ls) = Some c -> c ∈ map leg_circ ls.
Proof.
  unfold least_rtt. assert (H : forall acc, snd (fold_left (fun '(min_rtt, circ) leg =>
      if ok leg && negb (circ_rtts_usec leg =? 0) && (circ_rtts_usec leg <? min_rtt) then (circ_rtts_usec leg, Some (leg_circ leg)) else (min_rtt, circ)) ls acc) = Some c ->
      snd acc = Some c \/ c ∈ map leg_circ ls).
  { induction ls as [|l ls IH]; intros [r o] Hf; cbn in *; [by left|]. apply IH in Hf as [Hf|Hf]; [|set_solver].
    destruct (_ && _); cbn in Hf; [injection Hf as <-; set_solver|by left]. }
  intros Hf. apply H in Hf as [Hf|Hf]; [done|exact Hf].
Qed.

Lemma pick_first_leg s :
  legs s <> [] -> exists c, c ∈ map leg_circ (legs s) /\ conflux_pick_first_leg s = Some (set_curr (Some c) (set_until 0 s)).
Proof.
  intros Hl. unfold conflux_pick_first_leg. match goal with |- context [fold_left ?f (legs s) None] => set (g := f) end.
  assert (H : forall ls acc l, fold_left g ls acc = Some l -> acc = Some l \/ leg_circ l ∈ map leg_circ ls).
  { induction ls as [|x ls IH]; intros acc l Hf; cbn in Hf; [by left|]. cbn. apply IH in Hf as [Hf|Hf]; [|set_solver].
    unfold g in Hf. destruct (0 <? _); [|by left]. destruct acc as [y|]; [destruct (_ <? _)|]; injection Hf as <-; (by left) || set_solver. }
  destruct (fold_left g (legs s) None) as [l|] eqn:E.
  - apply H in E as [?|E]; [done|]. eauto.
  - destruct (legs s) as [|l ls] eqn:El; [done|]. exists (leg_circ l). split; [set_solver|done].
Qed.

Section Sender.

Variable circs : Z -> leg_circuit.

(** With a current leg the choice changes nothing and gives a leg of the set. *)
Lemma decide_current s c :
  alg s <> CONFLUX_ALG_CWNDRTT -> in_full_teardown s = false -> legs s <> [] -> curr_leg s = Some c -> c ∈ map leg_circ (legs s) ->
  exists r, conflux_decide_next_circ circs drain_pct s = Ok (s, r) /\ (forall c', r = Some c' -> c' ∈ map leg_circ (legs s)).
Proof.
  intros Ha Ht Hl Hc Hin. unfold conflux_decide_next_circ. rewrite Ht, Hc. cbv iota. destruct (conflux_can_switch _ _ _); cbn [negb].
  - assert (zlen (legs s) =? 0 = false) as El.
    { apply Z.eqb_neq. destruct (legs s) as [|l ls]; [done|]. rewrite zlen_cons. pose proof (zlen_nonneg ls). lia. }
    destruct (alg s); [|eexists|done]; unfold conflux_decide_circ_minrtt, conflux_decide_circ_lowrtt; rewrite El; cbn [negb cbind].
    + eexists. split; [reflexivity|]. intros c'. destruct (snd _) as [c0|] eqn:E; [|done]. destruct (circuit_ready_to_send _ _); [|done].
      intros [= <-]. by eapply least_rtt_in.
    + split; [reflexivity|]. intros c' E. by eapply least_rtt_in.
  - rewrite Hc. eexists. split; [reflexivity|]. intros c'. destruct (circuit_ready_to_send _ _); [|done]. by intros [= <-].
Qed.

Lemma sender_curr ids n s c : sender_ok ids n s -> curr_leg s = Some c -> c ∈ ids.
Proof. intros [<- _ _ _ Hc] E. rewrite E in Hc. destruct Hc as (l & Hl & _). by eapply leg_of_some. Qed.

(** The first choice sets the current leg; a second one gives the same. *)
Lemma decide_next ids n s :
  sender_ok ids n s -> ids <> [] ->
  exists s' r c, conflux_decide_next_circ circs drain_pct s = Ok (s', r) /\ conflux_decide_next_circ circs drain_pct s' = Ok (s', r) /\
    sender_ok ids n s' /\ legs s' = legs s /\ curr_leg s' = Some c /\ (forall c', r = Some c' -> c' ∈ ids).
Proof.
  intros Hs Hids. pose proof Hs as [Hi Ha Ht Hq Hc]. assert (legs s <> []) as Hl by (intros E; rewrite E in Hi; by subst).
  destruct (curr_leg s) as [c|] eqn:Ec.
  - destruct (decide_current s c) as (r & Hr & Hin); [done..|rewrite Hi; by eapply sender_curr|]. exists s, r, c. rewrite Hi in Hin. done.
  - destruct (pick_first_leg s Hl) as (c & Hcin & Hp). set (s' := set_curr (Some c) (set_until 0 s)) in *.
    destruct (decide_current s' c) as (r & Hr & Hin); [done..|]. exists s', r, c.
    split; [|split; [exact Hr|]].
    { rewrite <- Hr. unfold conflux_decide_next_circ at 1. rewrite Ht, Ec, Hp. unfold conflux_decide_next_circ. by cbn [s' set_curr set_until in_full_teardown curr_leg]; rewrite Ht. }
    split; [|split; [done|split; [done|by rewrite <- Hi]]]. split; [done..|]. cbn. destruct (leg_of_in _ _ Hcin) as [l El]. exists l. split; [done|]. apply Hq in El. lia.
Qed.

Lemma sender_moved ids n v s c s' :
  sender_ok ids n s -> n <= v -> c ∈ ids -> legs s' = update_leg c (set_sent v) (legs s) -> alg s' = alg s -> in_full_teardown s' = in_full_teardown s ->
  curr_leg s' = Some c -> sender_ok ids v s'.
Proof.
  intros [Hi Ha Ht Hq Hc] Hv Hin Hl Ea Et Ec. split; rewrite ?Hl, ?Ea, ?Et; [by rewrite update_circs|done..| |].
  - intros c' l'. rewrite leg_of_update by done. destruct (_ =? c).
    + destruct (leg_of (legs s) c) as [l|] eqn:El; [|done]. intros [= <-]. cbn. apply Hq in El. lia.
    + intros Hl'. apply Hq in Hl'. lia.
  - rewrite Ec. rewrite <- Hi in Hin. destruct (leg_of_in _ _ Hin) as [l El]. rewrite leg_of_update, Z.eqb_refl, El by done. cbn. eauto.
Qed.

Lemma multiplexed_not_switch x : conflux_should_multiplex x = true -> (x =? RELAY_COMMAND_CONFLUX_SWITCH) = false.
Proof. intros H. apply Z.eqb_neq. intros ->. by vm_compute in H. Qed.

(** The count of a message that goes out on the current leg. *)
Lemma note_sent ids n s c x :
  sender_ok ids n s -> curr_leg s = Some c -> conflux_should_multiplex x = true -> n < UINT32_MAX ->
  sender_ok ids (n + 1) (conflux_note_cell_sent s c x) /\ legs (conflux_note_cell_sent s c x) = update_leg c (set_sent (n + 1)) (legs s).
Proof.
  intros Hs Ec Hx Hn. pose proof (sender_curr _ _ _ _ Hs Ec) as Hin. pose proof (so_curr _ _ _ Hs) as Hc. rewrite Ec in Hc. destruct Hc as (l & El & Hl).
  pose proof (so_seq _ _ _ Hs _ _ El) as Hq.
  assert (legs (conflux_note_cell_sent s c x) = update_leg c (set_sent (n + 1)) (legs s)) as E.
  { unfold conflux_note_cell_sent. rewrite Hx. cbn [negb]. change (conflux_get_leg s c) with (leg_of (legs s) c). rewrite El, Hl.
    unfold u64. rewrite Z.mod_small by (unfold UINT32_MAX in Hn; lia). by destruct (0 <? _). }
  split; [|exact E]. eapply sender_moved; [exact Hs|lia|exact Hin|exact E|..]; unfold conflux_note_cell_sent; rewrite Hx; cbn [negb];
    change (conflux_get_leg s c) with (leg_of (legs s) c); rewrite El; by destruct (0 <? _).
Qed.

(** What a message does to its wire: it arrives with the next number, and nothing else does. *)
Definition goes_out (n : Z) (m : relay_msg_t) (s s' : conflux_t) (c : Z) (out : list relay_msg_t) : Prop :=
  exists l, leg_of (legs s) c = Some l /\ replay (last_seq_sent l) out = ([mkcmsg (n + 1) m], n + 1) /\ Forall switch_good out /\
    (forall l', leg_of (legs s') c = Some l' -> last_seq_sent l' = n + 1) /\ (forall c', c' <> c -> leg_of (legs s') c' = leg_of (legs s) c').

Lemma send_same_leg ids n s c m :
  sender_ok ids n s -> curr_leg s = Some c -> conflux_should_multiplex (m_command m) = true -> n < UINT32_MAX ->
  sender_ok ids (n + 1) (conflux_note_cell_sent s c (m_command m)) /\ goes_out n m s (conflux_note_cell_sent s c (m_command m)) c [m].
Proof.
  intros Hs Ec Hm Hn. destruct (note_sent ids n s c (m_command m)) as [Hs' E]; [done..|]. split; [exact Hs'|].
  pose proof (so_curr _ _ _ Hs) as Hc. rewrite Ec in Hc. destruct Hc as (l & El & Hl). pose proof (multiplexed_not_switch _ Hm) as Hns.
  exists l. rewrite E. split; [done|]. split; [cbn [replay]; by rewrite Hns, Hl|]. split; [|split].
  - constructor; [|constructor]. intros Hx. rewrite Hx in Hns. done.
  - intros l'. rewrite leg_of_update, Z.eqb_refl, El by done. by intros [= <-].
  - intros c' Hc'. rewrite leg_of_update by done. by rewrite (proj2 (Z.eqb_neq _ _) Hc').
Qed.

Lemma send_other_leg ids n s c p m :
  sender_ok ids n s -> curr_leg s = Some p -> c <> p -> c ∈ ids -> conflux_decide_next_circ circs drain_pct s = Ok (s, Some c) ->
  conflux_should_multiplex (m_command m) = true -> n < UINT32_MAX -> forall orig,
  exists s' out, send_on_set circs drain_pct s orig m = Ok (s', c, out) /\ sender_ok ids (n + 1) s' /\ goes_out n m s s' c out.
Proof.
  intros Hs Ep Hcp Hin Hd Hm Hn orig. unfold send_on_set, conflux_decide_circ_for_send. rewrite Hm, Hd. cbn [negb cbind]. rewrite Ep, (proj2 (Z.eqb_neq _ _) Hcp). cbn [negb].
  pose proof (so_curr _ _ _ Hs) as Hc. rewrite Ep in Hc. destruct Hc as (lp & Elp & Hlp).
  assert (c ∈ map leg_circ (legs s)) as Hin' by (by rewrite (so_ids _ _ _ Hs)). destruct (leg_of_in _ _ Hin') as [l El]. pose proof (so_seq _ _ _ Hs _ _ El) as Hq.
  unfold conflux_get_leg. cbn [legs set_curr set_prev set_until]. change (List.find (fun leg => leg_circ leg =? p) (legs s)) with (leg_of (legs s) p).
  change (List.find (fun leg => leg_circ leg =? c) (legs s)) with (leg_of (legs s) c). rewrite Elp, El, Hlp, (proj2 (Z.leb_le _ _)) by lia.
  destruct (switch_message (n - last_seq_sent l)) as (sw & Hsw & Hcmd & Hby & Hparse); [lia|].
  unfold u64. rewrite Z.mod_small by (unfold UINT32_MAX in Hn; lia). rewrite Hsw. cbn [cbind].
  match goal with |- context [on_leg c (set_sent n) ?x] => set (s1 := on_leg c (set_sent n) x) end.
  assert (sender_ok ids n s1) as Hs1 by (eapply sender_moved; [exact Hs|lia|exact Hin|done..]).
  destruct (send_same_leg ids n s1 c m) as (Hs2 & l1 & El1 & Hr & _ & Hl2 & Hother); [done..|]. eexists _, _. split; [done|]. split; [exact Hs2|].
  exists l. split; [done|]. assert (Hlegs : legs s1 = update_leg c (set_sent n) (legs s)) by done.
  rewrite Hlegs in El1. rewrite leg_of_update, Z.eqb_refl, El in El1 by done. injection El1 as <-. cbn [last_seq_sent set_sent] in Hr. split; [|split; [|split]].
  - rewrite replay_switch by done. rewrite Hby, <- Hr. f_equal. lia.
  - constructor; [intros _; rewrite Hby; split; [done|lia]|]. constructor; [|constructor]. pose proof (multiplexed_not_switch _ Hm) as Hns. intros Hx. by rewrite Hx in Hns.
  - exact Hl2.
  - intros c' Hc'. rewrite Hother by done. rewrite Hlegs, leg_of_update by done. by rewrite (proj2 (Z.eqb_neq _ _) Hc').
Qed.

Lemma send_ok ids n s r p m orig :
  sender_ok ids n s -> curr_leg s = Some p -> conflux_decide_next_circ circs drain_pct s = Ok (s, r) -> (forall c, r = Some c -> c ∈ ids) ->
  conflux_should_multiplex (m_command m) = true -> n < UINT32_MAX -> (m_command m = RELAY_COMMAND_DATA -> r <> None) ->
  exists s' c out, send_on_set circs drain_pct s orig m = Ok (s', c, out) /\ sender_ok ids (n + 1) s' /\ c ∈ ids /\ goes_out n m s s' c out.
Proof.
  intros Hs Ep Hd Hr Hm Hn Hdata. pose proof (sender_curr _ _ _ _ Hs Ep) as Hp. destruct (send_same_leg ids n s p m) as [Hs1 Hg1]; [done..|].
  destruct r as [c|].
  - destruct (Z.eq_dec c p) as [->|Hcp].
    + eexists _, p, [m]. split; [|done]. unfold send_on_set, conflux_decide_circ_for_send. rewrite Hm, Hd. cbn [negb cbind]. by rewrite Ep, Z.eqb_refl.
    + destruct (send_other_leg ids n s c p m Hs Ep Hcp (Hr c eq_refl) Hd Hm Hn orig) as (s' & out & E & Hs' & Hg). exists s', c, out. split; [done|]. auto.
  - eexists _, p, [m]. split; [|done]. unfold send_on_set, conflux_decide_circ_for_send. rewrite Hm, Hd. cbn [negb cbind].
    destruct (Z.eqb_spec (m_command m) RELAY_COMMAND_DATA) as [E|E]; [by destruct Hdata|]. cbn [negb]. by rewrite Ep.
Qed.

End Sender.

(** ** One wire changes *)

Lemma concat_one {A} (f g : Z -> list A) ids c x :
  NoDup ids -> c ∈ ids -> g c ≡ₚ x ++ f c -> (forall c', c' <> c -> g c' = f c') -> concat (map g ids) ≡ₚ x ++ concat (map f ids).
Proof.
  intros Hnd Hin Hc Ho. induction Hnd as [|i ids Hni Hnd IH]; [set_solver|]. cbn. destruct (Z.eq_dec i c) as [->|Hic].
  - assert (map g ids = map f ids) as ->; [|by rewrite Hc, app_assoc]. apply List.map_ext_in. intros a Ha. apply Ho. intros ->. apply Hni. by apply list_elem_of_In.
  - rewrite Ho, IH by set_solver. rewrite !app_assoc. f_equiv. apply Permutation_app_comm.
Qed.

Lemma numbered_split d later m n x F Q :
  Q ++ F ≡ₚ numbered d later -> n = d + zlen later -> x = mkcmsg (n + 1) m -> Q ++ x :: F ≡ₚ numbered d (later ++ [m]).
Proof. intros Hp -> ->. rewrite numbered_app. cbn [numbered]. rewrite <- Hp, <- Permutation_middle. apply Permutation_cons_append. Qed.

Lemma receiver_sent S F F' r d m :
  receiver_ok S F r d -> F' ≡ₚ [mkcmsg (zlen S + 1) m] ++ F -> receiver_ok (S ++ [m]) F' r d.
Proof.
  intros [Hd (later & -> & Hp) Hh Hc] HF. split; [done| |done..]. exists (later ++ [m]). split; [by rewrite app_assoc|]. rewrite HF. cbn [app].
  eapply numbered_split; [exact Hp|reflexivity|]. by rewrite zlen_app.
Qed.

Lemma set_send_preserves ids st circs orig m :
  inv ids st -> conflux_should_multiplex (m_command m) = true -> zlen (sent st) < UINT32_MAX ->
  exists st', step st (Send circs orig m) = Ok st' /\ inv ids st' /\ (sent st' = sent st \/ sent st' = sent st ++ [m]).
Proof.
  intros [Hnd Hne Hs Hr Hset Hci Hw Hrecv Hoff Hsw] Hm Hn. unfold step, conflux_can_send.
  destruct (decide_next circs ids _ _ Hs Hne) as (s1 & r & p & Hd1 & Hd2 & Hs1 & Hl1 & Hp & Hin). rewrite Hd1. cbn [cbind].
  destruct ((m_command m =? RELAY_COMMAND_DATA) && negb (bool_decide (is_Some r))) eqn:Eb.
  { eexists. split; [done|]. split; [|by left]. split; cbn; rewrite ?Hl1; done. }
  destruct (send_ok circs ids (zlen (sent st)) s1 r p m orig) as (s2 & c & out & E & Hs2 & Hcin & l & El & Hrep & Hgood & Hl2 & Hother); [done..| |].
  { intros Ed ->. rewrite Ed in Eb. done. }
  rewrite E. cbn [cbind]. eexists. split; [done|]. split; [|by right]. rewrite Hl1 in El.
  destruct (leg_of_in (legs (receiver st)) c) as [lr Elr]; [by rewrite Hci|]. pose proof (Hw _ _ _ El Elr) as Hwc.
  assert (snd (replay (last_seq_recv lr) (wires st c ++ out)) = zlen (sent st) + 1 /\
      fst (replay (last_seq_recv lr) (wires st c ++ out)) ≡ₚ [mkcmsg (zlen (sent st) + 1) m] ++ fst (replay (last_seq_recv lr) (wires st c))) as [HFs HFf].
  { rewrite replay_app, Hwc, Hrep. cbn [fst snd]. split; [done|]. apply Permutation_app_comm. }
  split; cbn; [done|done|by rewrite zlen_app| |done|done| |done| |].
  - eapply receiver_sent; [exact Hr|]. unfold in_flight. cbn. rewrite Hci. apply (concat_one _ _ _ c [_]); [done..| |].
    + unfold flight. cbn. unfold on_wire. rewrite Z.eqb_refl, Elr. exact HFf.
    + intros c' Hc'. unfold flight. cbn. unfold on_wire. by rewrite (proj2 (Z.eqb_neq _ _) Hc').
  - intros c' ls' lr' Els' Elr'. unfold on_wire. destruct (Z.eqb_spec c' c) as [->|Hc'].
    + rewrite Elr in Elr'. injection Elr' as <-. rewrite HFs. symmetry. by apply Hl2.
    + rewrite Hother, Hl1 in Els' by done. by eapply Hw.
  - intros c' Hc'. unfold on_wire. destruct (Z.eqb_spec c' c) as [->|_]; [done|by apply Hoff].
  - intros c'. unfold on_wire. destruct (_ =? c); [|done]. by apply Forall_app.
Qed.

(** ** The receiver *)

Lemma queue_cmp_sym a b : conflux_queue_cmp a b < 0 <-> 0 < conflux_queue_cmp b a.
Proof. unfold conflux_queue_cmp. destruct (Z.ltb_spec (msg_seq a) (msg_seq b)), (Z.ltb_spec (msg_seq b) (msg_seq a)); lia. Qed.

Lemma queue_cmp_le a b : conflux_queue_cmp a b <= 0 <-> msg_seq a <= msg_seq b.
Proof. unfold conflux_queue_cmp. destruct (Z.ltb_spec (msg_seq a) (msg_seq b)), (Z.ltb_spec (msg_seq b) (msg_seq a)); lia. Qed.

Lemma queue_cmp_trans a b c : conflux_queue_cmp a b <= 0 -> conflux_queue_cmp b c <= 0 -> conflux_queue_cmp a c <= 0.
Proof. rewrite !queue_cmp_le. lia. Qed.

Lemma queue_cost_perm l l' q q' : pq_list q = l -> pq_list q' = l' -> l ≡ₚ l' -> queue_cost q = queue_cost q'.
Proof. unfold queue_cost. intros -> -> Hp. induction Hp; cbn; lia. Qed.

Lemma queue_cost_cons x q q' : pq_list q' ≡ₚ x :: pq_list q -> queue_cost q' = conflux_msg_alloc_cost msg_overhead x + queue_cost q.
Proof. intros Hp. by rewrite (queue_cost_perm _ _ q' (mkpq (x :: pq_list q) (pq_idx q)) eq_refl eq_refl Hp). Qed.

Lemma pop_head h top h' : smartlist_pqueue_pop conflux_queue_cmp h = Ok (top, h') -> List.hd_error (pq_list h) = Some top.
Proof.
  unfold smartlist_pqueue_pop. destruct (negb _); [|done]. intros (t & Ht & H)%cbind_Ok. assert (t = top) as ->.
  { destruct (negb _); [|congruence]. apply cbind_Ok in H as (? & _ & H). apply cbind_Ok in H as (? & _ & H).
    apply cbind_Ok in H as (? & _ & H). apply cbind_Ok in H as (? & _ & H). congruence. }
  destruct (pq_list h); [done|]. by injection Ht as ->.
Qed.

(** The receiver takes the next message of those it has yet to deliver. *)
Lemma take_next S F r d m :
  receiver_ok S F r d -> mkcmsg (zlen d + 1) m ∈ pq_list (ooo_q r) ++ F ->
  exists later, S = (d ++ [m]) ++ later /\ (forall Q F', mkcmsg (zlen d + 1) m :: Q ++ F' ≡ₚ pq_list (ooo_q r) ++ F -> Q ++ F' ≡ₚ numbered (zlen (d ++ [m])) later).
Proof.
  intros [Hd (later & -> & Hp) Hh Hc] Hin. rewrite Hp in Hin. apply numbered_next in Hin as [later' ->]. exists later'. split; [by rewrite <- app_assoc|].
  intros Q F' HQ. rewrite Hp in HQ. cbn [numbered] in HQ. apply Permutation_cons_inv in HQ. by rewrite zlen_app.
Qed.

Lemma short_delivery S F r d : receiver_ok S F r d -> zlen d <= zlen S.
Proof. intros [_ (later & -> & _) _ _]. rewrite zlen_app. pose proof (zlen_nonneg later). lia. Qed.

Lemma u64_small z : 0 <= z < 2 ^ 64 -> u64 z = z.
Proof. apply Z.mod_small. Qed.

Lemma dequeue_ok S F r d total :
  receiver_ok S F r d -> zlen S < INT_MAX ->
  (settled r d /\ conflux_dequeue_relay_msg msg_overhead r total = Ok (r, total, None)) \/
  (exists r' total' x, conflux_dequeue_relay_msg msg_overhead r total = Ok (r', total', Some x) /\ receiver_ok S F r' (d ++ [msg x]) /\ legs r' = legs r /\
     length (pq_list (ooo_q r)) = Datatypes.S (length (pq_list (ooo_q r')))).
Proof.
  intros Hr HS. pose proof (short_delivery _ _ _ _ Hr) as Hlen. pose proof (zlen_nonneg d). pose proof Hr as [Hd (later & HSd & Hp) Hh Hc]. unfold conflux_dequeue_relay_msg.
  destruct (pq_list (ooo_q r)) as [|top q] eqn:Eq; [left; split; [unfold settled; rewrite Eq; constructor|done]|].
  destruct (pqueue_pop_correct conflux_queue_cmp queue_cmp_sym queue_cmp_trans (ooo_q r) Hh) as (top' & q' & Epop & Hok & Hperm & Hmin & _); [by rewrite Eq|].
  pose proof (pop_head _ _ _ Epop) as Ht. rewrite Eq in Ht, Hperm, Hmin. injection Ht as <-. rewrite Hd, u64_small by (unfold INT_MAX in HS; lia).
  destruct (Z.eqb_spec (msg_seq top) (zlen d + 1)) as [E|E].
  - right. rewrite Epop. cbn [cbind]. eexists _, _, top. split; [done|]. assert (top = mkcmsg (zlen d + 1) (msg top)) as Etop by (destruct top; cbn in *; by subst).
    destruct (take_next S F r d (msg top) Hr) as (later' & HS' & Hp'); [rewrite Eq, <- Etop; set_solver|].
    split; [|split; [done|by rewrite <- (Permutation_length Hperm)]].
    split; cbn; [rewrite zlen_app; by rewrite Hd, u64_small by (unfold INT_MAX in HS; lia)| |done|].
    + exists later'. split; [done|]. apply Hp'. rewrite <- Etop, Eq, <- Hperm. done.
    + rewrite Hc, (queue_cost_cons top q' (ooo_q r)) by (by rewrite Eq). unfold u64. rewrite Zminus_mod_idemp_l. f_equal. lia.
  - left. split; [|done]. unfold settled. rewrite Eq. apply List.Forall_forall. intros y Hy%list_elem_of_In Ey. specialize (Hmin y Hy). apply queue_cmp_le in Hmin.
    assert (top ∈ numbered (zlen d) later) as Hn by (rewrite <- Hp; set_solver). apply numbered_range in Hn. lia.
Qed.

Lemma deliver_loop_ok fuel : forall S F r d total,
  receiver_ok S F r d -> zlen S < INT_MAX -> (length (pq_list (ooo_q r)) < fuel)%nat ->
  exists r' total' d', deliver_loop msg_overhead deliver fuel r total d = Ok (r', total', d', 0) /\ receiver_ok S F r' d' /\ legs r' = legs r /\ settled r' d'.
Proof.
  induction fuel as [|fuel IH]; intros S F r d total Hr HS Hf; [lia|]. cbn [deliver_loop].
  destruct (dequeue_ok S F r d total Hr HS) as [[Hset ->]|(r' & total' & x & -> & Hr' & Hl & Hlen)]; cbn [cbind]; [by exists r, total, d|].
  destruct (IH S F r' (d ++ [msg x]) total' Hr' HS) as (r2 & t2 & d2 & E & H2 & Hl2 & Hs2); [lia|]. exists r2, t2, d2. cbn [deliver Z.ltb Z.compare].
  rewrite E. by rewrite Hl2.
Qed.

(** What has yet to arrive is after what was delivered, and not in the queue. *)
Lemma arrives_late S F r d x :
  receiver_ok S F r d -> x ∈ F -> zlen d < msg_seq x <= zlen S /\ x ∉ pq_list (ooo_q r) /\ zlen (pq_list (ooo_q r)) < zlen S.
Proof.
  intros [_ (later & -> & Hp) _ _] Hx. pose proof (numbered_nodup (zlen d) later) as Hnd. rewrite <- Hp in Hnd. apply list.NoDup_app in Hnd as (_ & Hdis & _).
  assert (x ∈ numbered (zlen d) later) as Hin by (rewrite <- Hp; set_solver). apply numbered_range in Hin. rewrite zlen_app. split; [done|].
  split; [intros Hq; by eapply Hdis|]. apply Permutation_length in Hp. rewrite length_app in Hp. pose proof (zlen_nonneg d).
  assert (length (numbered (zlen d) later) = length later) as El by (clear; generalize (zlen d); induction later; intros n; cbn; auto).
  destruct F; [set_solver|]. cbn in Hp. unfold zlen in *. lia.
Qed.

Lemma receiver_legs S F r d ls : receiver_ok S F r d -> receiver_ok S F (set_legs ls r) d.
Proof. by intros [? ? ? ?]; split. Qed.

Lemma receive_next S F F' r d m :
  receiver_ok S F r d -> F ≡ₚ mkcmsg (zlen d + 1) m :: F' -> receiver_ok S F' (set_delivered (zlen d + 1) r) (d ++ [m]).
Proof.
  intros Hr HF. pose proof Hr as [Hd _ Hh Hc]. destruct (take_next _ _ _ _ m Hr) as (later & HS & Hp); [rewrite HF; set_solver|].
  split; cbn; [by rewrite zlen_app| |done..]. exists later. split; [done|]. apply Hp. rewrite HF. apply Permutation_middle.
Qed.

Lemma receive_later S F F' r d x q' :
  receiver_ok S F r d -> F ≡ₚ x :: F' -> pq_ok conflux_queue_cmp q' -> pq_list q' ≡ₚ x :: pq_list (ooo_q r) ->
  receiver_ok S F' (set_queue q' (u64 (ooo_q_alloc_cost r + conflux_msg_alloc_cost msg_overhead x)) r) d.
Proof.
  intros [Hd (later & HS & Hp) Hh Hc] HF Hq Hl. split; cbn; [done| |done|].
  - exists later. split; [done|]. rewrite <- Hp, HF, Hl. cbn [app]. by rewrite Permutation_middle.
  - rewrite Hc, (queue_cost_cons x (ooo_q r) q' Hl). unfold u64. rewrite Zplus_mod_idemp_l. f_equal. lia.
Qed.

Lemma set_receive_ok S F F' r d total c m l :
  receiver_ok S F r d -> settled r d -> zlen S < INT_MAX -> leg_of (legs r) c = Some l -> 0 <= last_seq_recv l -> F ≡ₚ mkcmsg (last_seq_recv l + 1) m :: F' ->
  exists r' total' d', receive_on_set msg_overhead deliver r total c (in_circs c) (conflux_get_destination_hop (in_circs c)) d m = Ok (inl (r', total', d', 0)) /\
    receiver_ok S F' r' d' /\ settled r' d' /\ legs r' = update_leg c (set_recv (last_seq_recv l + 1)) (legs r).
Proof.
  intros Hr Hset HS El Hl HF. destruct (arrives_late _ _ _ _ (mkcmsg (last_seq_recv l + 1) m) Hr) as (Hlate & Hni & Hlen); [rewrite HF; set_solver|]. cbn [msg_seq] in Hlate.
  pose proof (zlen_nonneg d). unfold receive_on_set, conflux_process_relay_msg. change (conflux_get_leg r c) with (leg_of (legs r) c). rewrite El, in_circs_ok. cbn [negb].
  rewrite (u64_small (last_seq_recv l + 1)) by (unfold INT_MAX in HS; lia). set (r1 := on_leg c (set_recv (last_seq_recv l + 1)) r).
  assert (receiver_ok S F r1 d) as Hr1 by (by apply receiver_legs). pose proof (ro_d _ _ _ _ Hr1) as Hd. rewrite Hd, (u64_small (zlen d + 1)) by (unfold INT_MAX in HS; lia).
  destruct (Z.eqb_spec (last_seq_recv l + 1) (zlen d + 1)) as [E|E].
  - rewrite E in HF. cbn [cbind deliver Z.ltb Z.compare]. set (r2 := set_delivered (zlen d + 1) r1).
    assert (receiver_ok S F' r2 (d ++ [m])) as Hr2 by (by eapply receive_next).
    destruct (deliver_loop_ok (Datatypes.S (length (pq_list (ooo_q r2)))) S F' r2 (d ++ [m]) total Hr2 HS) as (r3 & t3 & d3 & E3 & Hr3 & Hl3 & Hs3); [lia|].
    rewrite E3. cbn [cbind]. by exists r3, t3, d3.
  - rewrite (proj2 (Z.leb_gt _ _)) by lia.
    destruct (pqueue_add_correct conflux_queue_cmp queue_cmp_sym queue_cmp_trans (ooo_q r1) (mkcmsg (last_seq_recv l + 1) m)) as (q' & Eq & Hq' & Hp'); [apply Hr|done|by cbn; lia|].
    rewrite Eq. cbn [cbind]. eexists _, _, d. split; [done|]. split; [by eapply receive_later|]. split; [|done].
    unfold settled. cbn. rewrite Hp'. constructor; [cbn; lia|exact Hset].
Qed.

(** ** Arrivals *)

(** What the receiver does to the leg of a wire whose first message it takes: its count goes to [v], from where the rest of the wire is numbered. *)
Lemma arrival_preserves ids st c l m rest r' total' d' v x :
  inv ids st -> wires st c = m :: rest -> leg_of (legs (receiver st)) c = Some l -> 0 <= v ->
  replay (last_seq_recv l) (m :: rest) = (x ++ fst (replay v rest), snd (replay v rest)) ->
  legs r' = update_leg c (set_recv v) (legs (receiver st)) ->
  (forall F', in_flight st ≡ₚ x ++ F' -> receiver_ok (sent st) F' r' d') -> settled r' d' ->
  inv ids (mksys (sender st) r' total' (on_wire c rest (wires st)) (sent st) d').
Proof.
  intros [Hnd Hne Hs Hr Hset Hci Hw Hrecv Hoff Hsw] Ew El Hv Hrep Hl Hr' Hset'.
  assert (c ∈ ids) as Hcin by (rewrite <- Hci; by eapply leg_of_some).
  assert (forall c', leg_of (legs r') c' = if c' =? c then Some (set_recv v l) else leg_of (legs (receiver st)) c') as Hleg.
  { intros c'. rewrite Hl, leg_of_update by done. by rewrite El. }
  split; cbn; [done|done|done| |done| | | | |].
  - apply Hr'. unfold in_flight. cbn. rewrite Hl, update_circs, Hci by done. apply (concat_one _ _ _ c); [done..| |].
    + unfold flight. cbn. unfold on_wire. rewrite Hleg, Z.eqb_refl, El, Ew, Hrep. done.
    + intros c' Hc'. unfold flight. cbn. unfold on_wire. by rewrite Hleg, (proj2 (Z.eqb_neq _ _) Hc').
  - by rewrite Hl, update_circs.
  - intros c' ls lr Els. rewrite Hleg. unfold on_wire. destruct (Z.eqb_spec c' c) as [->|Hc']; [|by apply Hw].
    intros [= <-]. specialize (Hw _ _ _ Els El). by rewrite Ew, Hrep in Hw.
  - intros c' l'. rewrite Hleg. destruct (_ =? c); [by intros [= <-]|by apply Hrecv].
  - intros c' Hc'. unfold on_wire. destruct (Z.eqb_spec c' c) as [->|_]; [done|by apply Hoff].
  - intros c'. unfold on_wire. destruct (_ =? c); [|done]. specialize (Hsw c). rewrite Ew in Hsw. by inversion Hsw.
Qed.

Lemma set_recv_preserves ids st c :
  inv ids st -> zlen (sent st) < INT_MAX ->
  exists st', step st (Recv c) = Ok st' /\ inv ids st' /\ sent st' = sent st /\ (forall c', wires st' c' = if c' =? c then List.tl (wires st c) else wires st c').
Proof.
  intros Hi HS. pose proof Hi as [Hnd Hne Hs Hr Hset Hci Hw Hrecv Hoff Hsw]. unfold step. destruct (wires st c) as [|m rest] eqn:Ew.
  { exists st. split; [done|]. split; [done|]. split; [done|]. intros c'. destruct (Z.eqb_spec c' c) as [->|_]; [by rewrite Ew|done]. }
  assert (c ∈ ids) as Hcin by (destruct (decide (c ∈ ids)) as [|Hn]; [done|]; apply Hoff in Hn; congruence). pose proof Hcin as Hcin'. rewrite <- Hci in Hcin'.
  destruct (leg_of_in _ _ Hcin') as [l El]. pose proof (Hrecv _ _ El) as Hl. specialize (Hsw c). rewrite Ew in Hsw. apply Forall_cons in Hsw as [Hm Hrest].
  destruct (Z.eqb_spec (m_command m) RELAY_COMMAND_CONFLUX_SWITCH) as [E|E].
  - destruct (Hm E) as [Hparse Hk]. unfold conflux_process_switch_command. cbn [negb]. change (conflux_get_leg (receiver st) c) with (leg_of (legs (receiver st)) c).
    rewrite El, in_circs_ok, Hparse. cbn [negb cbind].
    assert (c ∈ map leg_circ (legs (sender st))) as Hcs by (by rewrite (so_ids _ _ _ Hs)). destruct (leg_of_in _ _ Hcs) as [ls Els].
    pose proof (Hw _ _ _ Els El) as Hlast. rewrite Ew, replay_switch in Hlast by done. pose proof (replay_mono (last_seq_recv l + switch_by m) rest Hrest).
    pose proof (so_seq _ _ _ Hs _ _ Els). rewrite u64_small by (unfold INT_MAX in HS; lia).
    eexists. split; [done|]. split; [|split; done]. apply (arrival_preserves ids st c l m rest _ _ _ (last_seq_recv l + switch_by m) []); [done..|lia| |done| |done].
    + rewrite replay_switch by done. by destruct (replay _ _).
    + intros F' HF. cbn in HF. apply receiver_legs. destruct Hr as [? (later & HSd & Hp) ? ?]. split; [done| |done..]. exists later. by rewrite <- HF.
  - assert (Hrep : replay (last_seq_recv l) (m :: rest) =
        ([mkcmsg (last_seq_recv l + 1) m] ++ fst (replay (last_seq_recv l + 1) rest), snd (replay (last_seq_recv l + 1) rest))).
    { cbn [replay]. rewrite (proj2 (Z.eqb_neq _ _) E). by destruct (replay _ _). }
    assert (exists F', in_flight st ≡ₚ mkcmsg (last_seq_recv l + 1) m :: F') as [F' HF].
    { exists (concat (map (fun c' => if c' =? c then fst (replay (last_seq_recv l + 1) rest) else flight st c') ids)). unfold in_flight. rewrite Hci.
      apply (concat_one _ _ _ c [_]); [done..| |].
      - rewrite Z.eqb_refl. unfold flight. by rewrite El, Ew, Hrep.
      - intros c' Hc'. by rewrite (proj2 (Z.eqb_neq _ _) Hc'). }
    destruct (set_receive_ok _ _ F' _ _ (total_ooo_q_bytes st) c m l Hr Hset HS El Hl HF) as (r' & t' & d' & Er & Hr' & Hset' & Hlegs). rewrite Er. cbn [cbind].
    eexists. split; [done|]. split; [|split; done]. eapply arrival_preserves; [done..| |exact Hrep|done| |done]; [lia|].
    intros F2 HF2. rewrite HF in HF2. apply Permutation_cons_inv in HF2. destruct Hr' as [? (later & HSd & Hp) ? ?]. split; [done| |done..]. exists later. by rewrite <- HF2.
Qed.

Lemma set_rtt_preserves ids st c rtt : inv ids st -> exists st', step st (Rtt c rtt) = Ok st' /\ inv ids st' /\ sent st' = sent st.
Proof.
  intros [Hnd Hne Hs Hr Hset Hci Hw Hrecv Hoff Hsw]. eexists. split; [reflexivity|]. split; [|done]. unfold conflux_update_rtt.
  destruct (conflux_get_leg _ _); [|by split].
  assert (forall c' l', leg_of (update_leg c (set_rtt rtt) (legs (sender st))) c' = Some l' -> exists l, leg_of (legs (sender st)) c' = Some l /\ last_seq_sent l' = last_seq_sent l) as Hleg.
  { intros c' l'. rewrite leg_of_update by done. destruct (Z.eqb_spec c' c) as [->|_]; [|eauto]. destruct (leg_of _ c) as [l|]; [|done]. intros [= <-]. by exists l. }
  split; cbn; [done|done| |done|done|done| |done|done|done].
  - destruct Hs as [Hi Ha Ht Hq Hc]. split; cbn; [by rewrite update_circs|done|done| |].
    + intros c' l' El'. apply Hleg in El' as (l & El & ->). by eapply Hq.
    + destruct (curr_leg (sender st)) as [p|]; [|done]. destruct Hc as (l & El & <-). fold (leg_of (update_leg c (set_rtt rtt) (legs (sender st))) p). rewrite leg_of_update by done.
      destruct (Z.eqb_spec p c) as [->|_]; [rewrite El; cbn|]; eauto.
  - intros c' ls lr Els Elr. apply Hleg in Els as (l & El & ->). by eapply Hw.
Qed.

(** ** Runs *)

Definition event_ok (e : event) : Prop := match e with Send _ _ m => conflux_should_multiplex (m_command m) = true | _ => True end.

Lemma steps_preserve es : forall ids st,
  inv ids st -> Forall event_ok es -> zlen (sent st) + zlen es < INT_MAX ->
  exists st', steps st es = Ok st' /\ inv ids st' /\ zlen (sent st') <= zlen (sent st) + zlen es.
Proof.
  induction es as [|e es IH]; intros ids st Hi Hes Hlen; [exists st; split; [done|]; split; [done|]; change (zlen (@nil event)) with 0; lia|].
  apply Forall_cons in Hes as [He Hes]. rewrite zlen_cons in *. pose proof (zlen_nonneg es).
  assert (exists st', step st e = Ok st' /\ inv ids st' /\ zlen (sent st') <= zlen (sent st) + 1) as (st1 & E & Hi1 & Hl1).
  { destruct e as [circs orig m|c|c rtt].
    - destruct (set_send_preserves ids st circs orig m Hi He) as (st' & E & Hi' & Hs); [unfold INT_MAX, UINT32_MAX in *; lia|]. exists st'. split; [done|]. split; [done|].
      destruct Hs as [->| ->]; rewrite ?zlen_app; [lia|]. change (zlen [m]) with 1. lia.
    - destruct (set_recv_preserves ids st c Hi) as (st' & E & Hi' & Hs & _); [lia|]. exists st'. split; [done|]. split; [done|rewrite Hs; lia].
    - destruct (set_rtt_preserves ids st c rtt Hi) as (st' & E & Hi' & Hs). exists st'. split; [done|]. split; [done|rewrite Hs; lia]. }
  destruct (IH ids st1 Hi1 Hes) as (st2 & E2 & Hi2 & Hl2); [lia|]. exists st2. cbn [steps]. rewrite E. cbn [cbind]. split; [done|]. split; [done|lia].
Qed.

Lemma leg_of_fresh ids c l :
  leg_of (map (fun '(c, rtt) => mkleg 0 0 rtt 0 c) ids) c = Some l -> last_seq_recv l = 0 /\ last_seq_sent l = 0.
Proof. induction ids as [|[c' rtt] ids IH]; cbn; [done|]. destruct (_ =? c); [|done]. by intros [= <-]. Qed.

Lemma linked_inv a ids : a <> CONFLUX_ALG_CWNDRTT -> NoDup (map fst ids) -> ids <> [] -> inv (map fst ids) (linked a ids).
Proof.
  intros Ha Hnd Hne. assert (map leg_circ (map (fun '(c, rtt) => mkleg 0 0 rtt 0 c) ids) = map fst ids) as Hids.
  { rewrite map_map. apply List.map_ext. by intros []. }
  assert (in_flight (linked a ids) = []) as Hf.
  { unfold in_flight. generalize (map leg_circ (legs (receiver (linked a ids)))) as cs. induction cs as [|c cs IH]; [done|]. cbn [map concat]. rewrite IH, app_nil_r.
    unfold flight. by destruct (leg_of _ _). }
  split; [done|by destruct ids|..].
  - split; [done..| |done]. intros c l E. apply leg_of_fresh in E as [_ ->]. done.
  - rewrite Hf. split; [done| |split_and!|done].
    + exists []. done.
    + intros i j x y Hx. by destruct i.
    + split; [constructor|]. intros i x Hx. by destruct i.
    + by vm_compute.
  - constructor.
  - done.
  - intros c ls lr E1 E2. apply leg_of_fresh in E1 as [_ ->]. apply leg_of_fresh in E2 as [-> _]. done.
  - intros c l E. apply leg_of_fresh in E as [-> _]. lia.
  - done.
  - constructor.
Qed.

Lemma idle_delivered ids st : inv ids st -> (forall c, c ∈ ids -> wires st c = []) -> delivered st = sent st /\ pq_list (ooo_q (receiver st)) = [] /\ ooo_q_alloc_cost (receiver st) = 0.
Proof.
  intros [Hnd Hne Hs Hr Hset Hci Hw Hrecv Hoff Hsw] Hidle. assert (in_flight st = []) as HF.
  { unfold in_flight. rewrite Hci. clear Hci Hnd Hne Hs Hoff. induction ids as [|c cs IH]; [done|]. cbn [map concat]. rewrite IH, app_nil_r by set_solver.
    unfold flight. rewrite Hidle by set_solver. by destruct (leg_of _ _). }
  destruct Hr as [Hd (later & HS & Hp) Hh Hc]. rewrite HF, app_nil_r in Hp. destruct later as [|m later].
  - cbn in Hp. apply Permutation_nil_r in Hp. rewrite app_nil_r in HS. split; [done|]. split; [done|]. rewrite Hc. unfold queue_cost. by rewrite Hp.
  - exfalso. unfold settled in Hset. rewrite Hp in Hset. cbn in Hset. apply Forall_cons in Hset as [Hset _]. by apply Hset.
Qed.

Definition is_recv (e : event) : bool := match e with Recv _ => true | _ => false end.
Fixpoint arrivals (c : Z) (es : list event) : nat :=
  match es with [] => 0 | Recv c' :: es => (if (c =? c')%Z then 1 else 0) + arrivals c es | _ :: es => arrivals c es end%nat.

Lemma arrivals_empty es : forall ids st,
  inv ids st -> zlen (sent st) < INT_MAX -> Forall (fun e => is_recv e = true) es -> (forall c, c ∈ ids -> (length (wires st c) <= arrivals c es)%nat) ->
  exists st', steps st es = Ok st' /\ inv ids st' /\ sent st' = sent st /\ (forall c, c ∈ ids -> wires st' c = []).
Proof.
  induction es as [|e es IH]; intros ids st Hi HS Hes Hc.
  { exists st. split; [done|]. split; [done|]. split; [done|]. intros c Hin. specialize (Hc c Hin). cbn in Hc. apply length_zero_iff_nil. lia. }
  apply Forall_cons in Hes as [He Hes]. destruct e as [|c|]; [done| |done]. destruct (set_recv_preserves ids st c Hi HS) as (st1 & E & Hi1 & Hs1 & Hw1).
  destruct (IH ids st1 Hi1) as (st2 & E2 & Hi2 & Hs2 & Hw2); [by rewrite Hs1|done| |].
  - intros c' Hin. specialize (Hc c' Hin). cbn in Hc. rewrite Hw1. destruct (Z.eqb_spec c' c) as [Ec|Ec]; [|done]. rewrite Ec in *. destruct (wires st c); cbn in *; lia.
  - exists st2. cbn [steps]. rewrite E. cbn [cbind]. split; [done|]. split; [done|]. split; [by rewrite Hs2|done].
Qed.

(** C19. Messages that are multiplexed over a set of linked circuits, whatever the choice of the legs, the
    order of arrivals across the circuits and the round-trip times, are delivered in the order in which they were sent: no run fails or closes a circuit, at every moment what was
    delivered is a prefix of what was sent, and when nothing is under way all of it was, the queue is empty and its memory is accounted for. *)
Theorem conflux_in_order a ids es :
  a <> CONFLUX_ALG_CWNDRTT -> NoDup (map fst ids) -> ids <> [] -> Forall event_ok es -> zlen es < INT_MAX ->
  exists st, steps (linked a ids) es = Ok st /\ delivered st `prefix_of` sent st /\
    ((forall c, c ∈ map fst ids -> wires st c = []) -> delivered st = sent st /\ pq_list (ooo_q (receiver st)) = [] /\ ooo_q_alloc_cost (receiver st) = 0).
Proof.
  intros Ha Hnd Hne Hes Hlen. destruct (steps_preserve es _ _ (linked_inv a ids Ha Hnd Hne) Hes) as (st & E & Hi & _); [cbn; done|].
  exists st. split; [done|]. split; [|by apply (idle_delivered _ _ Hi)]. destruct (i_receiver _ _ Hi) as [_ (later & -> & _) _ _]. by apply prefix_app_r.
Qed.

(** C20. After any such run, every sequence of arrivals that takes from each circuit at least as many messages as are on it, in any interleaving, delivers everything that was sent. *)
Theorem conflux_delivers_all a ids es rs st :
  a <> CONFLUX_ALG_CWNDRTT -> NoDup (map fst ids) -> ids <> [] -> Forall event_ok es -> zlen es < INT_MAX ->
  steps (linked a ids) es = Ok st -> Forall (fun e => is_recv e = true) rs -> (forall c, c ∈ map fst ids -> (length (wires st c) <= arrivals c rs)%nat) ->
  exists st', steps st rs = Ok st' /\ delivered st' = sent st.
Proof.
  intros Ha Hnd Hne Hes Hlen Hst Hrs Hc. destruct (steps_preserve es _ _ (linked_inv a ids Ha Hnd Hne) Hes) as (st1 & E & Hi & Hl); [cbn; done|].
  rewrite Hst in E. injection E as <-. destruct (arrivals_empty rs _ st Hi) as (st2 & E2 & Hi2 & Hs2 & Hw2); [change (zlen (sent (linked a ids))) with 0 in Hl; lia|done|done|].
  exists st2. split; [done|]. rewrite <- Hs2. by apply (idle_delivered _ _ Hi2).
Qed.

End System.

(** ** A run *)

(** Three messages over two circuits: the first on the faster one, the second on the other because the first is full, the third on the first again.  The second arrives first. *)

Definition ex_cc (used : Z) : congestion_control_t := mkcc demo_params [] 0 0 0 0 124 used 31 0 true false false.
Definition ex_circ (used : Z) : leg_circuit := mklc true false false true (Some 3) (ex_cc used).
Definition ex_circs (used7 used9 : Z) : Z -> leg_circuit := fun c => if c =? 7 then ex_circ used7 else ex_circ used9.
Definition ex_data (b : Z) : relay_msg_t := mkmsg RELAY_COMMAND_DATA 1 1 false [b].
Definition ex_ids : list (Z * Z) := [(7, 50); (9, 80)].
Definition ex_sends : list event := [Send (ex_circs 0 0) 7 (ex_data 1); Rtt 9 70; Send (ex_circs 124 0) 7 (ex_data 2); Send (ex_circs 0 0) 7 (ex_data 3)].
Definition ex_arrivals : list event := [Recv 9; Recv 9; Recv 7; Recv 7; Recv 7].

Definition ex_run (es : list event) : cres sys := steps 0 96 (ex_circs 0 0) (linked CONFLUX_ALG_LOWRTT ex_ids) es.

Definition ex_view (r : cres sys) : option (list bytes * list Z * list Z * nat) :=
  match r with
  | Ok st => Some (map m_body (delivered st), map m_command (wires st 7), map m_command (wires st 9), length (pq_list (ooo_q (receiver st))))
  | _ => None
  end.

Example ex_under_way : ex_view (ex_run ex_sends) = Some ([], [2; 22; 2], [22; 2], 0%nat).
Proof. reflexivity. Qed.

Example ex_out_of_order : ex_view (ex_run (ex_sends ++ take 2 ex_arrivals)) = Some ([], [2; 22; 2], [], 1%nat).
Proof. reflexivity. Qed.

Example ex_caught_up : ex_view (ex_run (ex_sends ++ take 3 ex_arrivals)) = Some ([[1]; [2]], [22; 2], [], 0%nat).
Proof. reflexivity. Qed.

Lemma ex_circs_ok c : conflux_validate_source_hop (ex_circs 0 0 c) (conflux_get_destination_hop (ex_circs 0 0 c)) = true.
Proof. unfold ex_circs. by destruct (_ =? _). Qed.

Lemma ex_distinct : NoDup (map fst ex_ids).
Proof. exact (bool_decide_unpack (NoDup [7; 9]) I). Qed.

Lemma ex_events_ok : Forall event_ok (ex_sends ++ ex_arrivals).
Proof. repeat (constructor; [done|]). constructor. Qed.

Lemma ex_on_ids (P : Z -> Prop) : P 7 -> P 9 -> forall c, c ∈ map fst ex_ids -> P c.
Proof. intros H7 H9 c Hc. apply elem_of_cons in Hc as [->|Hc]; [done|]. by apply list_elem_of_singleton in Hc as ->. Qed.

Lemma conflux_in_order_witness :
  exists st, ex_run (ex_sends ++ ex_arrivals) = Ok st /\ delivered st = sent st /\ map m_body (delivered st) = [[1]; [2]; [3]].
Proof.
  destruct (conflux_in_order 0 96 (ex_circs 0 0) ex_circs_ok CONFLUX_ALG_LOWRTT ex_ids (ex_sends ++ ex_arrivals)) as (st & E & _ & Hidle); [done|apply ex_distinct|done|apply ex_events_ok|done|].
  assert (ex_view (Ok st) = Some ([[1]; [2]; [3]], [], [], 0%nat)) as Hv by (rewrite <- E; reflexivity). injection Hv as Hd H7 H9 _.
  exists st. split; [exact E|]. split; [|exact Hd]. apply Hidle, ex_on_ids; by eapply map_eq_nil.
Defined.

Lemma conflux_delivers_all_witness :
  exists st st', ex_run ex_sends = Ok st /\ steps 0 96 (ex_circs 0 0) st ex_arrivals = Ok st' /\ delivered st' = sent st.
Proof.
  unfold ex_run. destruct (steps _ _ _ (linked _ _) ex_sends) as [st| | |] eqn:E; [|discriminate E..].
  assert (ex_view (Ok st) = Some ([], [2; 22; 2], [22; 2], 0%nat)) as Hv by (rewrite <- E; reflexivity). injection Hv as Hd H7 H9 _.
  destruct (conflux_delivers_all 0 96 (ex_circs 0 0) ex_circs_ok CONFLUX_ALG_LOWRTT ex_ids ex_sends ex_arrivals st) as (st' & E' & Hd'); [done|apply ex_distinct|done| |done|exact E|..].
  - pose proof ex_events_ok as H. by apply Forall_app in H as [H _].
  - repeat (constructor; [done|]). constructor.
  - apply ex_on_ids; [apply (f_equal length) in H7|apply (f_equal length) in H9]; rewrite length_map in *; [rewrite H7|rewrite H9]; cbn; lia.
  - exists st, st'. split; [reflexivity|]. split; [exact E'|exact Hd'].
Defined.
