(* ===== verification/Policies.v ===== *)
(** * Address policies

    Models the evaluation and the normalisation of address policies in core/or/policies.c: lists of entries that accept or
    reject networks and ranges of ports, of which the first that matches decides.

    A policy is the list of its entries, [None] where the code has NULL.  The reference count of an entry and the table that shares
    equal entries ([addr_policy_get_canonical_entry]) are left out: they give back an equal entry. *)

From S2P Require Import Prelude CString DiOps UtilString StrList Inaddr Address.
From Stdlib Require Import ZArith String.
From stdpp Require Import base list numbers sets.
Open Scope Z_scope.

Inductive addr_policy_action_t := ADDR_POLICY_ACCEPT | ADDR_POLICY_REJECT.

#[export] Instance addr_policy_action_eq_dec : EqDecision addr_policy_action_t.
Proof. solve_decision. Defined.

Record addr_policy_t := mkpol { policy_type : addr_policy_action_t; is_private : bool; maskbits : Z; addr : tor_addr_t; prt_min : Z; prt_max : Z }.

Inductive addr_policy_result_t := ADDR_POLICY_ACCEPTED | ADDR_POLICY_REJECTED | ADDR_POLICY_PROBABLY_ACCEPTED | ADDR_POLICY_PROBABLY_REJECTED.

#[export] Instance addr_policy_result_eq_dec : EqDecision addr_policy_result_t.
Proof. solve_decision. Defined.

Definition is_accept_entry (p : addr_policy_t) : bool := bool_decide (policy_type p = ADDR_POLICY_ACCEPT).

Section Policies.

(** The path pointers of two addresses of family AF_UNIX. *)
Variables ptr1 ptr2 : Z.

Definition single_addr_policy_eq (a b : addr_policy_t) : cres bool :=
  if negb (bool_decide (policy_type a = policy_type b)) then Ok false
  else if negb (Bool.eqb (is_private a) (is_private b)) then Ok false
  else
    let* r := tor_addr_compare ptr1 ptr2 (addr a) (addr b) CMP_EXACT in
    if negb (r =? 0) then Ok false
    else if negb (maskbits a =? maskbits b) then Ok false
    else if negb (prt_min a =? prt_min b) then Ok false
    else if negb (prt_max a =? prt_max b) then Ok false
    else Ok true.

Fixpoint policies_eq_loop (a b : list addr_policy_t) : cres bool :=
  match a, b with
  | x :: a, y :: b => let* e := single_addr_policy_eq x y in if negb e then Ok false else policies_eq_loop a b
  | _, _ => Ok true
  end.

Definition addr_policies_eq (a b : option (list addr_policy_t)) : cres bool :=
  let a := default [] a in
  let b := default [] b in
  if negb (zlen a =? zlen b) then Ok false else policies_eq_loop a b.

(** ** Evaluation *)

Fixpoint compare_known_tor_addr_to_addr_policy (a : tor_addr_t) (port : Z) (policy : list addr_policy_t) : cres addr_policy_result_t :=
  match policy with
  | [] => Ok ADDR_POLICY_ACCEPTED
  | tmpe :: policy =>
      let* r := tor_addr_compare_masked ptr1 ptr2 a (addr tmpe) (maskbits tmpe) CMP_EXACT in
      if (r =? 0) && ((prt_min tmpe <=? port) && (port <=? prt_max tmpe)) then
        Ok (if is_accept_entry tmpe then ADDR_POLICY_ACCEPTED else ADDR_POLICY_REJECTED)
      else compare_known_tor_addr_to_addr_policy a port policy
  end.

(** What both searches with something unknown do with an entry that matches for sure. *)
Definition definite_result (maybe_accept maybe_reject accept : bool) : addr_policy_result_t :=
  if accept then if maybe_reject then ADDR_POLICY_PROBABLY_ACCEPTED else ADDR_POLICY_ACCEPTED
  else if maybe_accept then ADDR_POLICY_PROBABLY_REJECTED else ADDR_POLICY_REJECTED.

Fixpoint noport_loop (a : tor_addr_t) (maybe_accept maybe_reject : bool) (policy : list addr_policy_t) : cres addr_policy_result_t :=
  match policy with
  | [] => Ok (if maybe_reject then ADDR_POLICY_PROBABLY_ACCEPTED else ADDR_POLICY_ACCEPTED)
  | tmpe :: policy =>
      let* r := tor_addr_compare_masked ptr1 ptr2 a (addr tmpe) (maskbits tmpe) CMP_EXACT in
      if r =? 0 then
        if (prt_min tmpe <=? 1) && (65535 <=? prt_max tmpe) then Ok (definite_result maybe_accept maybe_reject (is_accept_entry tmpe))
        else if negb (is_accept_entry tmpe) then noport_loop a maybe_accept true policy
        else noport_loop a true maybe_reject policy
      else noport_loop a maybe_accept maybe_reject policy
  end.

Definition compare_known_tor_addr_to_addr_policy_noport (a : tor_addr_t) (policy : list addr_policy_t) : cres addr_policy_result_t := noport_loop a false false policy.

Fixpoint unknown_loop (port : Z) (maybe_accept maybe_reject : bool) (policy : list addr_policy_t) : addr_policy_result_t :=
  match policy with
  | [] => if maybe_reject then ADDR_POLICY_PROBABLY_ACCEPTED else ADDR_POLICY_ACCEPTED
  | tmpe :: policy =>
      if (prt_min tmpe <=? port) && (port <=? prt_max tmpe) then
        if maskbits tmpe =? 0 then definite_result maybe_accept maybe_reject (is_accept_entry tmpe)
        else if negb (is_accept_entry tmpe) then unknown_loop port maybe_accept true policy
        else unknown_loop port true maybe_reject policy
      else unknown_loop port maybe_accept maybe_reject policy
  end.

Definition compare_unknown_tor_addr_to_addr_policy (port : Z) (policy : list addr_policy_t) : addr_policy_result_t := unknown_loop port false false policy.

Definition compare_tor_addr_to_addr_policy (a : option tor_addr_t) (port : Z) (policy : option (list addr_policy_t)) : cres addr_policy_result_t :=
  match policy with
  | None => Ok ADDR_POLICY_ACCEPTED
  | Some policy =>
      match (match a with Some a => if tor_addr_is_null a then None else Some a | None => None end) with
      | None => if port =? 0 then Ok ADDR_POLICY_REJECTED else Ok (compare_unknown_tor_addr_to_addr_policy port policy)
      | Some a => if port =? 0 then compare_known_tor_addr_to_addr_policy_noport a policy else compare_known_tor_addr_to_addr_policy a port policy
      end
  end.

Definition addr_policy_permits_tor_addr (a : option tor_addr_t) (port : Z) (policy : option (list addr_policy_t)) : cres bool :=
  let* p := compare_tor_addr_to_addr_policy a port policy in
  Ok match p with ADDR_POLICY_PROBABLY_ACCEPTED | ADDR_POLICY_ACCEPTED => true | _ => false end.

(** ** Redundant entries *)

Definition addr_policy_covers (a b : addr_policy_t) : cres bool :=
  if negb (bool_decide (family (addr a) = family (addr b))) then Ok false
  else if maskbits b <? maskbits a then Ok false
  else
    let* r := tor_addr_compare_masked ptr1 ptr2 (addr a) (addr b) (maskbits a) CMP_EXACT in
    if negb (r =? 0) then Ok false else Ok ((prt_min a <=? prt_min b) && (prt_max b <=? prt_max a)).

Definition addr_policy_intersects (a b : addr_policy_t) : cres bool :=
  let minbits := if maskbits a <? maskbits b then maskbits a else maskbits b in
  let* r := tor_addr_compare_masked ptr1 ptr2 (addr a) (addr b) minbits CMP_EXACT in
  if negb (r =? 0) then Ok false
  else if (prt_max a <? prt_min b) || (prt_max b <? prt_min a) then Ok false
  else Ok true.

(** Step one: everything after a line for all addresses of the family and all ports. *)
Fixpoint remove_after_star (kill_v4 kill_v6 : bool) (dest : list addr_policy_t) : list addr_policy_t :=
  match dest with
  | [] => []
  | ap :: dest =>
      let fam := family (addr ap) in
      if (bool_decide (fam = AF_INET) && kill_v4) || (bool_decide (fam = AF_INET6) && kill_v6) then remove_after_star kill_v4 kill_v6 dest
      else
        let star := (maskbits ap =? 0) && (prt_min ap <=? 1) && (65535 <=? prt_max ap) in
        ap :: remove_after_star (kill_v4 || (star && bool_decide (fam = AF_INET))) (kill_v6 || (star && bool_decide (fam = AF_INET6))) dest
  end.

(** Step two: the inner loop removes what [ap] covers among the later entries. *)
Fixpoint remove_covered_by (ap : addr_policy_t) (later : list addr_policy_t) : cres (list addr_policy_t) :=
  match later with
  | [] => Ok []
  | tmp :: later =>
      let* c := addr_policy_covers ap tmp in
      let* rest := remove_covered_by ap later in
      Ok (if c then rest else tmp :: rest)
  end.

Fixpoint remove_covered (fuel : nat) (dest : list addr_policy_t) : cres (list addr_policy_t) :=
  match fuel, dest with
  | _, [] => Ok []
  | O, _ => Fuel
  | S fuel, ap :: later =>
      let* later := remove_covered_by ap later in
      let* later := remove_covered fuel later in
      Ok (ap :: later)
  end.

(** Step three: the inner loop looks for a later entry that makes [ap] redundant. *)
Fixpoint made_redundant (ap : addr_policy_t) (later : list addr_policy_t) : cres bool :=
  match later with
  | [] => Ok false
  | tmp :: later =>
      if negb (bool_decide (policy_type ap = policy_type tmp)) then
        let* i := addr_policy_intersects ap tmp in if i then Ok false else made_redundant ap later
      else
        let* c := addr_policy_covers tmp ap in if c then Ok true else made_redundant ap later
  end.

Fixpoint remove_subsumed (dest : list addr_policy_t) : cres (list addr_policy_t) :=
  match dest with
  | [] => Ok []
  | ap :: later =>
      let* r := made_redundant ap later in
      let* later := remove_subsumed later in
      Ok (if r then later else ap :: later)
  end.

Definition exit_policy_remove_redundancies (dest : list addr_policy_t) : cres (list addr_policy_t) :=
  let dest := remove_after_star false false dest in
  let* dest := remove_covered (length dest) dest in
  remove_subsumed dest.

(** ** Entries that are added *)

Definition addr_policy_append_reject_addr (dest : list addr_policy_t) (a : tor_addr_t) : list addr_policy_t :=
  dest ++ [mkpol ADDR_POLICY_REJECT false (if bool_decide (family a = AF_INET6) then 128 else 32) a 1 65535].

Definition tor_addr_is_public_for_reject (a : tor_addr_t) : bool :=
  negb (tor_addr_is_null a) && negb (tor_addr_is_internal a false) && negb (tor_addr_is_multicast a).

Definition addr_policy_append_reject_addr_filter (ipv4_rules ipv6_rules : bool) (dest : list addr_policy_t) (a : tor_addr_t) : list addr_policy_t :=
  if tor_addr_is_public_for_reject a then
    let is_ipv4 := tor_addr_is_v4 a in
    if (is_ipv4 && ipv4_rules) || (negb is_ipv4 && ipv6_rules) then addr_policy_append_reject_addr dest a else dest
  else dest.

Definition addr_policy_append_reject_addr_list (dest : list addr_policy_t) (addrs : list tor_addr_t) : list addr_policy_t :=
  fold_left addr_policy_append_reject_addr addrs dest.

Definition addr_policy_append_reject_addr_list_filter (dest : list addr_policy_t) (addrs : list tor_addr_t) (ipv4_rules ipv6_rules : bool) : list addr_policy_t :=
  fold_left (addr_policy_append_reject_addr_filter ipv4_rules ipv6_rules) addrs dest.

(** The configured ports that are not unix sockets and the addresses of the interfaces are arguments, [None] where they are not to be rejected. *)
Definition policies_parse_exit_policy_reject_private (dest : list addr_policy_t) (ipv6_exit : bool) (configured_addresses port_addresses : option (list tor_addr_t))
    (interface_addresses : option (list tor_addr_t * list tor_addr_t)) : cres (list addr_policy_t) :=
  let dest := match configured_addresses with Some l => addr_policy_append_reject_addr_list_filter dest l true ipv6_exit | None => dest end in
  let dest := match port_addresses with Some l => fold_left (addr_policy_append_reject_addr_filter true ipv6_exit) l dest | None => dest end in
  let dest := match interface_addresses with
              | Some (v4, v6) =>
                  let dest := addr_policy_append_reject_addr_list_filter dest v4 true false in
                  if ipv6_exit then addr_policy_append_reject_addr_list_filter dest v6 false true else dest
              | None => dest
              end in
  exit_policy_remove_redundancies dest.

End Policies.

(** ** Pseudo-addresses *)

Definition private_nets : list bytes :=
  map s2b ["0.0.0.0/8"; "169.254.0.0/16"; "127.0.0.0/8"; "192.168.0.0/16"; "10.0.0.0/8"; "172.16.0.0/12";
           "[::]/8"; "[fc00::]/7"; "[fe80::]/10"; "[fec0::]/10"; "[ff00::]/8"; "[::]/127"]%string.

Fixpoint private_entries (p : addr_policy_t) (nets : list bytes) : cres (list addr_policy_t) :=
  match nets with
  | [] => Ok []
  | net :: nets =>
      match tor_addr_parse_mask_ports net 0 true true true with
      | Ok (mkpat a (Some bits) _) =>
          let* rest := private_entries p nets in Ok (mkpol (policy_type p) false bits a (prt_min p) (prt_max p) :: rest)
      | Fuel => Fuel
      | _ => Bug
      end
  end.

Fixpoint policy_expand_private (policy : list addr_policy_t) : cres (list addr_policy_t) :=
  match policy with
  | [] => Ok []
  | p :: policy =>
      let* e := (if negb (is_private p) then Ok [p] else private_entries p private_nets) in
      let* rest := policy_expand_private policy in
      Ok (e ++ rest)
  end.

Definition expand_unspec_entry (p : addr_policy_t) : list addr_policy_t :=
  let fam := family (addr p) in
  if bool_decide (fam = AF_INET6) || bool_decide (fam = AF_INET) || is_private p then [p]
  else if bool_decide (fam = AF_UNSPEC) then
    [mkpol (policy_type p) (is_private p) 0 (tor_addr_from_ipv4h 0) (prt_min p) (prt_max p);
     mkpol (policy_type p) (is_private p) 0 (tor_addr_from_ipv6_bytes (repeat 0 16)) (prt_min p) (prt_max p)]
  else [p].

Definition policy_expand_unspec (policy : list addr_policy_t) : list addr_policy_t := flat_map expand_unspec_entry policy.

(** ** Questions about whole policies *)

Fixpoint reject_star_loop (fam : af_t) (default_reject : bool) (policy : list addr_policy_t) : bool :=
  match policy with
  | [] => default_reject
  | p :: policy =>
      let applies := bool_decide (family (addr p) = fam) || bool_decide (family (addr p) = AF_UNSPEC) in
      if is_accept_entry p && applies then false
      else if negb (is_accept_entry p) && (prt_min p <=? 1) && (prt_max p =? 65535) && (maskbits p =? 0) && applies then true
      else reject_star_loop fam default_reject policy
  end.

Definition policy_is_reject_star (policy : option (list addr_policy_t)) (fam : af_t) (default_reject : bool) : bool :=
  match policy with Some policy => reject_star_loop fam default_reject policy | None => default_reject end.

Section General.

Variable DirAllowPrivateAddresses : bool.

(** The subnets [n .. n + k - 1] of one entry; [inl status] goes on with the next entry. *)
Fixpoint subnet_loop (p : addr_policy_t) (n : Z) (k : nat) (subnet_status : list bool) : cres (list bool + unit) :=
  match k with
  | O => Ok (inl subnet_status)
  | S k =>
      let* st := aget subnet_status n in
      if st then subnet_loop p (n + 1) k subnet_status
      else if tor_addr_is_internal (tor_addr_from_ipv4h (u32 (Z.shiftl n 24))) false && negb DirAllowPrivateAddresses then subnet_loop p (n + 1) k subnet_status
      else if is_accept_entry p then if 8 <? maskbits p then subnet_loop p (n + 1) k subnet_status else Ok (inr tt)
      else let* subnet_status := aset subnet_status n true in subnet_loop p (n + 1) k subnet_status
  end.

(** [~((mask & ip) ^ mask)] is the last address of the network. *)
Fixpoint general_exit_loop (port : Z) (subnet_status : list bool) (policy : list addr_policy_t) : cres bool :=
  match policy with
  | [] => Ok false
  | p :: policy =>
      if negb (bool_decide (family (addr p) = AF_INET)) then general_exit_loop port subnet_status policy
      else if (port <? prt_min p) || (prt_max p <? port) then general_exit_loop port subnet_status policy
      else
        assert! (maskbits p <=? 32);
        let mask := if maskbits p =? 0 then 0 else u32 (Z.shiftl UINT32_MAX (32 - maskbits p)) in
        let ip := tor_addr_to_ipv4h (addr p) in
        let first := Z.shiftr (Z.land mask ip) 24 in
        let last := Z.shiftr (u32 (Z.lnot (Z.lxor (Z.land mask ip) mask))) 24 in
        let* r := subnet_loop p first (Z.to_nat (last - first + 1)) subnet_status in
        match r with inr _ => Ok true | inl subnet_status => general_exit_loop port subnet_status policy end
  end.

Definition exit_policy_is_general_exit_helper (policy : list addr_policy_t) (port : Z) : cres bool := general_exit_loop port (repeat false 256) policy.

Definition exit_policy_is_general_exit (policy : option (list addr_policy_t)) : cres bool :=
  match policy with
  | None => Ok false
  | Some policy =>
      let* r := exit_policy_is_general_exit_helper policy 80 in
      if r then exit_policy_is_general_exit_helper policy 443 else Ok false
  end.

End General.

(** ** What an entry matches *)

Definition matchesb (x b : tor_addr_t) (m : Z) : bool := bool_decide (family x = family b) && (prefix_bits x m =? prefix_bits b m).

Definition hits (x : tor_addr_t) (port : Z) (p : addr_policy_t) : bool :=
  matchesb x (addr p) (maskbits p) && ((prt_min p <=? port) && (port <=? prt_max p)).

(** The meaning of a policy: the first entry that matches decides, and nothing is rejected without one. *)
Definition accepts (x : tor_addr_t) (port : Z) (l : list addr_policy_t) : bool :=
  match List.find (hits x port) l with Some p => is_accept_entry p | None => true end.

(** An entry for one network, with its prefix length. *)
Record policy_ok (p : addr_policy_t) : Prop := mk_policy_ok {
  po_addr : addr_ok (addr p);
  po_mask : 0 <= maskbits p <= 8 * addr_size (family (addr p))
}.

Definition verdict (b : bool) : addr_policy_result_t := if b then ADDR_POLICY_ACCEPTED else ADDR_POLICY_REJECTED.

Lemma prefix_coarser a m n : addr_ok a -> 0 <= m <= n -> n <= 8 * zlen (ip a) -> prefix_bits a m = Z.shiftr (prefix_bits a n) (n - m).
Proof. intros Ha Hm Hn. unfold prefix_bits. cbv zeta. rewrite Z.shiftr_shiftr by lia. f_equal. lia. Qed.

Lemma matches_coarser x b m n :
  addr_ok x -> addr_ok b -> 0 <= m <= n -> n <= 8 * addr_size (family b) -> matchesb x b n = true -> matchesb x b m = true.
Proof.
  intros Hx Hb Hm Hn. unfold matchesb. rewrite !andb_true_iff, !bool_decide_eq_true, !Z.eqb_eq. intros [Hf He]. split; [done|].
  pose proof (ao_len _ Hx) as Lx. pose proof (ao_len _ Hb) as Lb. rewrite Hf in Lx. rewrite (prefix_coarser x m n), (prefix_coarser b m n) by (done || lia). by rewrite He.
Qed.

Lemma matches_sym x b m : matchesb x b m = matchesb b x m.
Proof. unfold matchesb. rewrite Z.eqb_sym. f_equal. apply bool_decide_ext. done. Qed.

Lemma matches_trans x y z m : matchesb x y m = true -> matchesb y z m = true -> matchesb x z m = true.
Proof. unfold matchesb. rewrite !andb_true_iff, !bool_decide_eq_true, !Z.eqb_eq. intros [-> ->] [-> ->]. done. Qed.

Lemma matches_all x b : addr_ok x -> addr_ok b -> family x = family b -> matchesb x b 0 = true.
Proof.
  intros Hx Hb Hf. unfold matchesb. rewrite bool_decide_true by done. apply Z.eqb_eq.
  assert (forall a, addr_ok a -> prefix_bits a 0 = 0) as H0; [|by rewrite !H0].
  intros a [_ _ Hbytes]. unfold prefix_bits. cbv zeta. pose proof (be_bound _ Hbytes) as Hbd. pose proof (zlen_nonneg (ip a)).
  rewrite Z.min_l, Z.sub_0_r, Z.shiftr_div_pow2 by lia. apply Z.div_small. rewrite Z.pow_mul_r by lia. done.
Qed.

Lemma mask_range p : policy_ok p -> 0 <= maskbits p <= 255.
Proof. intros [[[E|E] _ _] Hm]; rewrite E in Hm; cbn in Hm; lia. Qed.

Section Meaning.

Variables ptr1 ptr2 : Z.

Lemma masked_ok a b m :
  addr_ok a -> addr_ok b -> 0 <= m <= 255 -> exists r, tor_addr_compare_masked ptr1 ptr2 a b m CMP_EXACT = Ok r /\ (r =? 0) = matchesb a b m.
Proof.
  intros Ha Hb Hm. destruct (compare_masked_correct ptr1 ptr2 a b m CMP_EXACT Ha Hb Hm) as (r & E & Hsame & Hdiff & _). exists r. split; [done|].
  unfold matchesb. destruct (decide (family a = family b)) as [Hf|Hf].
  - rewrite bool_decide_true by done. specialize (Hsame Hf). cbn. destruct (Z.eqb_spec (prefix_bits a m) (prefix_bits b m)) as [Ep|Ep].
    + rewrite Ep, Z.sub_diag in Hsame. apply Z.eqb_eq. by apply Z.sgn_null_iff.
    + apply Z.eqb_neq. intros ->. symmetry in Hsame. apply Z.sgn_null_iff in Hsame. lia.
  - rewrite bool_decide_false by done. cbn. apply Z.eqb_neq. intros ->. specialize (Hdiff Hf eq_refl). symmetry in Hdiff. apply Z.sgn_null_iff in Hdiff.
    apply Hf. destruct (family a), (family b); done.
Qed.

Lemma compare_known_ok x port l :
  addr_ok x -> Forall policy_ok l -> compare_known_tor_addr_to_addr_policy ptr1 ptr2 x port l = Ok (verdict (accepts x port l)).
Proof.
  intros Hx Hl. unfold accepts. induction Hl as [|p l Hp Hl IH]; [done|]. cbn [compare_known_tor_addr_to_addr_policy List.find].
  destruct (masked_ok x (addr p) (maskbits p) Hx (po_addr _ Hp) (mask_range _ Hp)) as (r & E & Hr). rewrite E. cbn [cbind]. rewrite Hr. unfold hits at 1. by destruct (_ && _).
Qed.

Lemma covers_ok a b :
  policy_ok a -> policy_ok b -> exists c, addr_policy_covers ptr1 ptr2 a b = Ok c /\ (c = true -> forall x port, addr_ok x -> hits x port b = true -> hits x port a = true).
Proof.
  intros Hpa Hpb. pose proof (mask_range _ Hpa). pose proof (mask_range _ Hpb). destruct Hpa as [Ha Hma], Hpb as [Hb Hmb]. unfold addr_policy_covers. destruct (bool_decide_reflect (family (addr a) = family (addr b))) as [Hf|Hf]; cbn [negb]; [|eexists; split; done].
  destruct (Z.ltb_spec (maskbits b) (maskbits a)) as [|Hle]; [eexists; split; done|].
  destruct (masked_ok (addr a) (addr b) (maskbits a) Ha Hb) as (r & E & Hr); [lia|]. rewrite E. cbn [cbind]. rewrite Hr.
  destruct (matchesb (addr a) (addr b) (maskbits a)) eqn:Em; cbn [negb]; [|eexists; split; done]. eexists. split; [done|].
  intros Hp x port Hx. unfold hits. rewrite !andb_true_iff in *. intros [Hxm Hxp]. split; [|blia]. rewrite matches_sym in Em.
  eapply matches_trans; [|exact Em]. apply (matches_coarser _ _ _ (maskbits b)); (done || lia).
Qed.

(** Two entries intersect exactly if they have a point in common. *)
Lemma intersects_ok a b :
  policy_ok a -> policy_ok b ->
  exists i, addr_policy_intersects ptr1 ptr2 a b = Ok i /\ (i = false -> forall x port, addr_ok x -> hits x port a = true -> hits x port b = false).
Proof.
  intros Hpa Hpb. pose proof (mask_range _ Hpa). pose proof (mask_range _ Hpb). destruct Hpa as [Ha Hma], Hpb as [Hb Hmb]. unfold addr_policy_intersects. replace (if maskbits a <? maskbits b then _ else _) with (Z.min (maskbits a) (maskbits b)) by (zcase; lia).
  destruct (masked_ok (addr a) (addr b) (Z.min (maskbits a) (maskbits b)) Ha Hb) as (r & E & Hr); [lia|]. rewrite E. cbn [cbind]. rewrite Hr.
  assert (forall x, addr_ok x -> matchesb x (addr a) (maskbits a) = true -> matchesb x (addr b) (maskbits b) = true ->
    matchesb (addr a) (addr b) (Z.min (maskbits a) (maskbits b)) = true) as Hboth.
  { intros x Hx H1 H2. apply (matches_trans _ x); [rewrite matches_sym|]; [apply (matches_coarser _ _ _ (maskbits a))|apply (matches_coarser _ _ _ (maskbits b))]; (done || lia). }
  destruct (matchesb (addr a) (addr b) _) eqn:Em; cbn [negb].
  - destruct ((prt_max a <? prt_min b) || _) eqn:Ep; eexists; (split; [done|]); [|done]. intros _ x port _. unfold hits. blia.
  - eexists. split; [done|]. intros _ x port Hx Hha. apply not_true_iff_false. intros Hhb. unfold hits in *. rewrite !andb_true_iff in *.
    destruct Hha as [H1 _], Hhb as [H2 _]. by specialize (Hboth x Hx H1 H2).
Qed.

(** ** Redundant entries *)

Definition killed (x : tor_addr_t) (kill_v4 kill_v6 : bool) : bool := match family x with AF_INET => kill_v4 | AF_INET6 => kill_v6 | _ => false end.

Lemma remove_after_star_ok x port l :
  addr_ok x -> 1 <= port <= 65535 -> Forall policy_ok l -> forall k4 k6, killed x k4 k6 = false ->
  accepts x port (remove_after_star k4 k6 l) = accepts x port l.
Proof.
  intros Hx Hp Hl. unfold accepts. induction Hl as [|p l [Ha Hm] Hl IH]; intros k4 k6 Hk; [done|]. cbn [remove_after_star List.find].
  assert (hits x port p = true -> family x = family (addr p)) as Hfam by (unfold hits, matchesb; rewrite !andb_true_iff, bool_decide_eq_true; tauto).
  destruct (_ || _) eqn:Ek.
  - rewrite IH by done. destruct (hits x port p) eqn:Eh; [|done]. exfalso. specialize (Hfam eq_refl). unfold killed in Hk. rewrite Hfam in Hk.
    destruct (ao_family _ Ha) as [E|E]; rewrite E in *; rewrite Hk, andb_false_r in Ek; by rewrite bool_decide_false in Ek.
  - cbn [List.find]. destruct (hits x port p) eqn:Eh; [done|]. apply IH. destruct ((maskbits p =? 0) && _ && _) eqn:Es; [|by rewrite !orb_false_r].
    assert (family x <> family (addr p)) as Hne.
    { intros Hf. assert (maskbits p = 0) as Hm0 by blia. unfold hits in Eh. rewrite Hm0, matches_all in Eh by done. blia. }
    unfold killed in *. destruct (ao_family _ Hx) as [E|E]; rewrite E in *; cbn; rewrite bool_decide_false by congruence; by rewrite ?andb_false_r, orb_false_r.
Qed.

Lemma remove_covered_by_ok ap l :
  policy_ok ap -> Forall policy_ok l ->
  exists l', remove_covered_by ptr1 ptr2 ap l = Ok l' /\ l' `sublist_of` l /\
    (forall x port, addr_ok x -> hits x port ap = false -> List.find (hits x port) l' = List.find (hits x port) l).
Proof.
  intros Ha Hl. induction Hl as [|p l Hp Hl (l' & E & Hs & Hf)]; [exists []; done|]. cbn [remove_covered_by].
  destruct (covers_ok ap p Ha Hp) as (c & Ec & Hc). rewrite Ec, E. cbn [cbind]. eexists. split; [done|]. destruct c.
  - split; [by constructor|]. intros x port Hx Hno. cbn [List.find]. destruct (hits x port p) eqn:Eh; [|by apply Hf]. by rewrite (Hc eq_refl x port Hx Eh) in Hno.
  - split; [by constructor|]. intros x port Hx Hno. cbn [List.find]. destruct (hits x port p); [done|by apply Hf].
Qed.

Lemma sublist_policy_ok (l l' : list addr_policy_t) : l' `sublist_of` l -> Forall policy_ok l -> Forall policy_ok l'.
Proof. induction 1; intros Hl; [done|..]; apply Forall_cons in Hl as [? ?]; auto. Qed.

Lemma remove_covered_ok fuel : forall l,
  Forall policy_ok l -> (length l <= fuel)%nat ->
  exists l', remove_covered ptr1 ptr2 fuel l = Ok l' /\ l' `sublist_of` l /\ (forall x port, addr_ok x -> List.find (hits x port) l' = List.find (hits x port) l).
Proof.
  induction fuel as [|fuel IH]; intros l Hl Hf; (destruct l as [|ap l]; [exists []; done|]); [cbn in Hf; lia|]. cbn [remove_covered]. apply Forall_cons in Hl as [Ha Hl].
  destruct (remove_covered_by_ok ap l Ha Hl) as (l1 & E1 & Hs1 & H1). rewrite E1. cbn [cbind].
  destruct (IH l1) as (l2 & E2 & Hs2 & H2); [by eapply sublist_policy_ok|apply sublist_length in Hs1; cbn in Hf; lia|]. rewrite E2. cbn [cbind].
  eexists. split; [done|]. split; [constructor; by etrans|]. intros x port Hx. cbn [List.find]. destruct (hits x port ap) eqn:Eh; [done|]. by rewrite H2, H1.
Qed.

Lemma made_redundant_ok ap l :
  policy_ok ap -> Forall policy_ok l ->
  exists r, made_redundant ptr1 ptr2 ap l = Ok r /\
    (r = true -> forall x port, addr_ok x -> hits x port ap = true -> exists p, List.find (hits x port) l = Some p /\ policy_type p = policy_type ap).
Proof.
  intros Ha Hl. induction Hl as [|p l Hp Hl (r & E & Hr)]; [exists false; done|]. cbn [made_redundant].
  destruct (bool_decide_reflect (policy_type ap = policy_type p)) as [Ht|Ht]; cbn [negb].
  - destruct (covers_ok p ap Hp Ha) as (c & Ec & Hc). rewrite Ec. cbn [cbind]. destruct c.
    + eexists. split; [done|]. intros _ x port Hx Hh. exists p. cbn. by rewrite (Hc eq_refl x port Hx Hh).
    + exists r. split; [done|]. intros Hrt x port Hx Hh. cbn. destruct (hits x port p); [by exists p|by apply Hr].
  - destruct (intersects_ok ap p Ha Hp) as (i & Ei & Hi). rewrite Ei. cbn [cbind]. destruct i; [eexists; split; done|].
    exists r. split; [done|]. intros Hrt x port Hx Hh. cbn. rewrite (Hi eq_refl x port Hx Hh). by apply Hr.
Qed.

Lemma remove_subsumed_ok l :
  Forall policy_ok l ->
  exists l', remove_subsumed ptr1 ptr2 l = Ok l' /\ l' `sublist_of` l /\ (forall x port, addr_ok x -> accepts x port l' = accepts x port l).
Proof.
  intros Hl. induction Hl as [|ap l Ha Hl (l' & E & Hs & Hf)]; [exists []; done|]. cbn [remove_subsumed].
  destruct (made_redundant_ok ap l Ha Hl) as (r & Er & Hr). rewrite Er, E. cbn [cbind]. eexists. split; [done|]. destruct r.
  - split; [by constructor|]. intros x port Hx. rewrite Hf by done. unfold accepts. cbn [List.find]. destruct (hits x port ap) eqn:Eh; [|done].
    destruct (Hr eq_refl x port Hx Eh) as (p & -> & Ht). unfold is_accept_entry. by rewrite Ht.
  - split; [by constructor|]. intros x port Hx. specialize (Hf x port Hx). unfold accepts in *. cbn [List.find]. by destruct (hits x port ap).
Qed.

Lemma remove_after_star_sublist l : forall k4 k6, remove_after_star k4 k6 l `sublist_of` l.
Proof. induction l as [|p l IH]; intros k4 k6; [done|]. cbn [remove_after_star]. destruct (_ || _); by constructor. Qed.

(** C22. Removing the redundant entries of a policy ends, keeps the order of the entries that are left, and does not change what is accepted: every address and port is judged as before. *)
Theorem redundancies_keep_meaning l :
  Forall policy_ok l ->
  exists l', exit_policy_remove_redundancies ptr1 ptr2 l = Ok l' /\ l' `sublist_of` l /\
    (forall x port, addr_ok x -> 1 <= port <= 65535 ->
      compare_known_tor_addr_to_addr_policy ptr1 ptr2 x port l' = compare_known_tor_addr_to_addr_policy ptr1 ptr2 x port l).
Proof.
  intros Hl. unfold exit_policy_remove_redundancies. set (l1 := remove_after_star false false l). pose proof (remove_after_star_sublist l false false) as Hs1. fold l1 in Hs1.
  assert (Forall policy_ok l1) as Hl1 by (by eapply sublist_policy_ok). destruct (remove_covered_ok (length l1) l1 Hl1) as (l2 & E2 & Hs2 & H2); [done|]. rewrite E2. cbn [cbind].
  assert (Forall policy_ok l2) as Hl2 by (by eapply sublist_policy_ok). destruct (remove_subsumed_ok l2 Hl2) as (l3 & E3 & Hs3 & H3). exists l3. split; [done|].
  split; [by do 2 (etrans; [eassumption|])|]. intros x port Hx Hp. assert (Forall policy_ok l3) as Hl3 by (by eapply sublist_policy_ok).
  rewrite !compare_known_ok by done. do 2 f_equal. rewrite H3 by done. unfold accepts at 1. rewrite H2 by done. apply (remove_after_star_ok x port l); [done..|].
  unfold killed. by destruct (family x).
Qed.

(** ** Answers with something unknown *)

Lemma noport_ok x l :
  addr_ok x -> Forall policy_ok l -> forall ma mr, exists r, noport_loop ptr1 ptr2 x ma mr l = Ok r /\
    (r = ADDR_POLICY_ACCEPTED -> mr = false /\ forall port, 1 <= port <= 65535 -> accepts x port l = true) /\
    (r = ADDR_POLICY_REJECTED -> ma = false /\ forall port, 1 <= port <= 65535 -> accepts x port l = false).
Proof.
  intros Hx Hl. induction Hl as [|p l Hp Hl IH]; intros ma mr; [exists (if mr then ADDR_POLICY_PROBABLY_ACCEPTED else ADDR_POLICY_ACCEPTED); destruct mr; done|].
  cbn [noport_loop]. destruct (masked_ok x (addr p) (maskbits p) Hx (po_addr _ Hp) (mask_range _ Hp)) as (r & E & Hr). rewrite E. cbn [cbind]. rewrite Hr.
  assert (Hstep : forall port, accepts x port (p :: l) = if hits x port p then is_accept_entry p else accepts x port l) by (intros port; unfold accepts; cbn; by destruct (hits x port p)).
  destruct (matchesb x (addr p) (maskbits p)) eqn:Em.
  - destruct (_ && _) eqn:Ep.
    + eexists. split; [done|]. assert (forall port, 1 <= port <= 65535 -> accepts x port (p :: l) = is_accept_entry p) as Ha.
      { intros port Hport. rewrite Hstep. unfold hits. rewrite Em. replace (_ && _) with true by (symmetry; blia). done. }
      unfold definite_result. destruct (is_accept_entry p); [destruct mr|destruct ma]; done.
    + destruct (is_accept_entry p) eqn:Ea; cbn [negb].
      * destruct (IH true mr) as (r' & E' & H1 & H2). exists r'. split; [done|]. split; [|by intros ->; destruct H2].
        intros ->. destruct (H1 eq_refl) as [Hmr Hall]. split; [done|]. intros port Hport. rewrite Hstep. destruct (hits x port p); auto.
      * destruct (IH ma true) as (r' & E' & H1 & H2). exists r'. split; [done|]. split; [by intros ->; destruct H1|].
        intros ->. destruct (H2 eq_refl) as [Hma Hall]. split; [done|]. intros port Hport. rewrite Hstep. destruct (hits x port p); auto.
  - destruct (IH ma mr) as (r' & E' & H1 & H2). exists r'. split; [done|]. assert (forall port, accepts x port (p :: l) = accepts x port l) as Hs.
    { intros port. rewrite Hstep. unfold hits. by rewrite Em. }
    split; intros ->; [destruct (H1 eq_refl) as [? Hall]|destruct (H2 eq_refl) as [? Hall]]; (split; [done|]); intros port Hport; rewrite Hs; auto.
Qed.

Lemma unknown_ok x port l :
  addr_ok x -> Forall (fun p => policy_ok p /\ family (addr p) = family x) l -> forall ma mr,
    (unknown_loop port ma mr l = ADDR_POLICY_ACCEPTED -> mr = false /\ accepts x port l = true) /\
    (unknown_loop port ma mr l = ADDR_POLICY_REJECTED -> ma = false /\ accepts x port l = false).
Proof.
  intros Hx Hl. induction Hl as [|p l [Hp Hf] Hl IH]; intros ma mr; [destruct mr; done|]. cbn [unknown_loop].
  assert (Hstep : accepts x port (p :: l) = if hits x port p then is_accept_entry p else accepts x port l) by (unfold accepts; cbn; by destruct (hits x port p)).
  destruct (_ && _) eqn:Ep.
  - destruct (Z.eqb_spec (maskbits p) 0) as [Em|Em].
    + assert (accepts x port (p :: l) = is_accept_entry p) as ->.
      { rewrite Hstep. unfold hits. rewrite Em, matches_all, Ep by (done || apply Hp). done. }
      unfold definite_result. destruct (is_accept_entry p); [destruct mr|destruct ma]; done.
    + rewrite Hstep. destruct (is_accept_entry p); cbn [negb]; [destruct (IH true mr) as [H1 H2]|destruct (IH ma true) as [H1 H2]]; (split; intros E);
        [destruct (H1 E)|by destruct (H2 E)|by destruct (H1 E)|destruct (H2 E)]; (split; [done|]); by destruct (hits x port p).
  - rewrite Hstep. unfold hits. rewrite Ep, andb_false_r. apply IH.
Qed.

(** The definite answers hold: if an address is accepted or rejected with the port unknown, it is so for every port; and if a port
    is with the address unknown, it is so for every address, as long as the policy is about addresses of one family. *)
Theorem definite_answers_hold x l :
  addr_ok x -> tor_addr_is_null x = false -> Forall policy_ok l ->
  let known port := compare_tor_addr_to_addr_policy ptr1 ptr2 (Some x) port (Some l) in
  exists r, known 0 = Ok r /\
    (forall v, r = verdict v -> forall port, 1 <= port <= 65535 -> known port = Ok (verdict v)) /\
    (Forall (fun p => family (addr p) = family x) l -> forall port v, 1 <= port <= 65535 ->
       compare_tor_addr_to_addr_policy ptr1 ptr2 None port (Some l) = Ok (verdict v) -> known port = Ok (verdict v)).
Proof.
  intros Hx Hn Hl known. unfold known, compare_tor_addr_to_addr_policy. rewrite Hn. cbn [Z.eqb]. destruct (noport_ok x l Hx Hl false false) as (r & E & Ha & Hr).
  exists r. split; [exact E|]. split.
  - intros v -> port Hport. rewrite (proj2 (Z.eqb_neq port 0)) by lia. rewrite compare_known_ok by done.
    destruct v; [destruct (Ha eq_refl) as [_ Hall]|destruct (Hr eq_refl) as [_ Hall]]; by rewrite Hall.
  - intros Hf port v Hport. rewrite (proj2 (Z.eqb_neq port 0)) by lia. intros [= Ev]. rewrite compare_known_ok by done.
    assert (Forall (fun p => policy_ok p /\ family (addr p) = family x) l) as Hl' by (rewrite List.Forall_forall in *; auto).
    destruct (unknown_ok x port l Hx Hl' false false) as [H1 H2]. unfold compare_unknown_tor_addr_to_addr_policy in Ev.
    destruct v; [destruct (H1 Ev) as [_ ->]|destruct (H2 Ev) as [_ ->]]; done.
Qed.

Lemma reject_star_ok x l port :
  addr_ok x -> 1 <= port <= 65535 -> Forall policy_ok l -> reject_star_loop (family x) false l = true -> accepts x port l = false.
Proof.
  intros Hx Hport Hl. unfold accepts. induction Hl as [|p l [Hp Hm] Hl IH]; [done|]. cbn [reject_star_loop List.find].
  assert (hits x port p = true -> family (addr p) = family x) as Hfam by (unfold hits, matchesb; rewrite !andb_true_iff, bool_decide_eq_true; intros [[-> _] _]; done).
  destruct (_ && (_ || _)) eqn:E1; [done|]. destruct (negb _ && _ && _ && _ && _) eqn:E2.
  - intros _. assert (family (addr p) = family x) as Hf.
    { rewrite !andb_true_iff in E2. destruct E2 as (_ & E2). rewrite orb_true_iff, !bool_decide_eq_true in E2. destruct E2 as [|E2]; [done|]. destruct (ao_family _ Hp); congruence. }
    rewrite !andb_true_iff in E2. destruct E2 as ((((Ea & ?) & ?) & Hm0) & _). apply Z.eqb_eq in Hm0. unfold hits. rewrite Hm0, matches_all by done.
    replace (_ && _) with true by (symmetry; blia). cbn. by destruct (is_accept_entry p).
  - intros Hs. destruct (hits x port p) eqn:Eh; [|by apply IH]. specialize (Hfam eq_refl). rewrite bool_decide_true in E1 by done. cbn [orb] in E1. by rewrite andb_true_r in E1.
Qed.

(** A policy that is said to reject everything of a family rejects every address of the family on every port. *)
Theorem reject_star_rejects x l port :
  addr_ok x -> 1 <= port <= 65535 -> Forall policy_ok l -> policy_is_reject_star (Some l) (family x) false = true ->
  compare_known_tor_addr_to_addr_policy ptr1 ptr2 x port l = Ok ADDR_POLICY_REJECTED.
Proof. intros Hx Hport Hl Hs. rewrite compare_known_ok by done. by rewrite (reject_star_ok x l port). Qed.

End Meaning.

(** ** General exits *)

(** The first and the last address of a network, as the code computes them. *)
Lemma network_bounds m v :
  0 <= m <= 32 -> 0 <= v < 2 ^ 32 ->
  let mask := if m =? 0 then 0 else u32 (Z.shiftl UINT32_MAX (32 - m)) in
  let s := 32 - m in
  Z.land mask v = Z.shiftl (Z.shiftr v s) s /\ u32 (Z.lnot (Z.lxor (Z.land mask v) mask)) = Z.shiftl (Z.shiftr v s) s + Z.ones s.
Proof.
  intros Hm Hv mask s. assert (mask = Z.shiftl (Z.ones m) s) as Em.
  { unfold mask, s. destruct (Z.eqb_spec m 0) as [->|]; [done|]. unfold u32. change UINT32_MAX with (Z.ones 32). rewrite Z.shiftl_mul_pow2, Z.shiftl_mul_pow2, !Z.ones_equiv by lia.
    replace (Z.pred (2 ^ 32) * 2 ^ (32 - m)) with (Z.pred (2 ^ m) * 2 ^ (32 - m) + (2 ^ (32 - m) - 1) * 2 ^ 32).
    - rewrite Z.mod_add, Z.mod_small; [done| |lia]. assert (2 ^ 32 = 2 ^ m * 2 ^ (32 - m)) by (rewrite <- Z.pow_add_r by lia; f_equal; lia). assert (0 < 2 ^ m) by (apply Z.pow_pos_nonneg; lia).
      assert (0 < 2 ^ (32 - m)) by (apply Z.pow_pos_nonneg; lia). nia.
    - assert (2 ^ 32 = 2 ^ m * 2 ^ (32 - m)) by (rewrite <- Z.pow_add_r by lia; f_equal; lia). nia. }
  assert (forall i, 0 <= i -> Z.testbit mask i = (s <=? i) && (i <? 32)) as Hmask.
  { intros i Hi. rewrite Em, Z.shiftl_spec by lia. destruct (Z.leb_spec s i); cbn.
    - destruct (Z.ltb_spec i 32); [apply Z.ones_spec_low; lia|apply Z.ones_spec_high; lia].
    - apply Z.testbit_neg_r. lia. }
  assert (forall i, 32 <= i -> Z.testbit v i = false) as Hhigh.
  { intros i Hi. destruct (Z.eq_dec v 0) as [->|]; [apply Z.bits_0|]. apply Z.bits_above_log2; [lia|]. assert (Z.log2 v < 32); [apply Z.log2_lt_pow2; lia|lia]. }
  assert (Z.land mask v = Z.shiftl (Z.shiftr v s) s) as E1.
  { apply Z.bits_inj'. intros i Hi. rewrite Z.land_spec, Hmask, Z.shiftl_spec by lia. destruct (Z.leb_spec s i); cbn.
    - rewrite Z.shiftr_spec by lia. replace (i - s + s) with i by lia. destruct (Z.ltb_spec i 32); [done|]. rewrite Hhigh by lia. done.
    - symmetry. apply Z.testbit_neg_r. lia. }
  split; [exact E1|]. rewrite <- E1.
  assert (Z.land (Z.land mask v) (Z.ones s) = 0) as Hdis.
  { apply Z.bits_inj'. intros i Hi. rewrite !Z.land_spec, Z.bits_0, Hmask by lia. destruct (Z.leb_spec s i); cbn; [|done]. rewrite Z.ones_spec_high by lia. by rewrite andb_false_r. }
  rewrite Z.add_nocarry_lxor by done. unfold u32. rewrite <- Z.land_ones by lia. apply Z.bits_inj'. intros i Hi.
  rewrite Z.land_spec, Z.lnot_spec, !Z.lxor_spec, !Z.land_spec, !Hmask by lia. destruct (Z.ltb_spec i 32).
  - rewrite (Z.ones_spec_low 32) by lia. destruct (Z.leb_spec s i); cbn; [rewrite Z.ones_spec_high by lia|rewrite Z.ones_spec_low by lia]; by destruct (Z.testbit v i).
  - rewrite (Z.ones_spec_high 32) by lia. rewrite Hhigh by lia. rewrite (Z.ones_spec_high s) by lia. by destruct (s <=? i).
Qed.

Lemma v4_value x :
  addr_ok x -> family x = AF_INET ->
  0 <= tor_addr_to_ipv4h x < 2 ^ 32 /\ forall m, 0 <= m <= 32 -> prefix_bits x m = Z.shiftr (tor_addr_to_ipv4h x) (32 - m).
Proof.
  intros [_ Hl Hb] Hf. rewrite Hf in Hl. cbn in Hl. unfold tor_addr_to_ipv4h, prefix_bits. rewrite Hf. cbv zeta.
  assert (be32 (ip x) = be (ip x)) as E by (unfold be32, be; by rewrite take_ge by (unfold zlen in Hl; lia)). rewrite E, Hl. split.
  - pose proof (be_bound _ Hb) as H. by rewrite Hl in H.
  - intros m Hm. f_equal. lia.
Qed.

Definition slash8 (x : tor_addr_t) : Z := Z.shiftr (tor_addr_to_ipv4h x) 24.

Section Network.

Variables v w s : Z.
Hypotheses (Hs : 0 <= s <= 32) (Hv : 0 <= v < 2 ^ 32) (Hw : 0 <= w < 2 ^ 32).

Let lo := Z.shiftl (Z.shiftr w s) s.

Lemma network_range : Z.shiftr v s = Z.shiftr w s -> Z.shiftr lo 24 <= Z.shiftr v 24 <= Z.shiftr (lo + Z.ones s) 24.
Proof.
  intros E. unfold lo. rewrite Z.shiftl_mul_pow2, <- E, Z.ones_equiv, !Z.shiftr_div_pow2 by lia. assert (0 < 2 ^ s) by (apply Z.pow_pos_nonneg; lia).
  pose proof (Z.div_mod v (2 ^ s) ltac:(lia)). pose proof (Z.mod_pos_bound v (2 ^ s) ltac:(lia)). split; apply Z.div_le_mono; lia.
Qed.

Lemma network_wide : 24 <= s -> Z.shiftr lo 24 <= Z.shiftr v 24 <= Z.shiftr (lo + Z.ones s) 24 -> Z.shiftr v s = Z.shiftr w s.
Proof.
  intros H24. unfold lo. rewrite Z.shiftl_mul_pow2, Z.ones_equiv, !Z.shiftr_div_pow2 by lia. assert (0 < 2 ^ (s - 24)) by (apply Z.pow_pos_nonneg; lia).
  replace (2 ^ s) with (2 ^ (s - 24) * 2 ^ 24) by (rewrite <- Z.pow_add_r by lia; f_equal; lia). set (q := 2 ^ (s - 24)) in *. set (k := w / (q * 2 ^ 24)).
  rewrite Z.mul_assoc, Z.div_mul by lia. intros [H1 H2].
  assert (v / 2 ^ 24 <= k * q + q - 1).
  { etrans; [exact H2|]. replace (k * q * 2 ^ 24 + Z.pred (q * 2 ^ 24)) with ((2 ^ 24 - 1) + (k * q + q - 1) * 2 ^ 24) by lia. by rewrite Z.div_add, Z.div_small by lia. }
  rewrite (Z.mul_comm q), <- Z.div_div by lia. symmetry. apply Z.div_unique with (v / 2 ^ 24 - q * k); lia.
Qed.

End Network.

Section GeneralExit.

Variables (ptr1 ptr2 : Z) (allow : bool) (port : Z).

Definition eligible (j : Z) : bool := negb (tor_addr_is_internal (tor_addr_from_ipv4h (u32 (Z.shiftl j 24))) false && negb allow).

(** What the loop over the subnets from [n] on finds out: a subnet to accept, or marks on the subnets that the entry rejects. *)
Definition subnets_ok (p : addr_policy_t) (n k : Z) (st : list bool) (r : list bool + unit) : Prop :=
  match r with
  | inr _ => is_accept_entry p = true /\ maskbits p <= 8 /\ exists j, n <= j < n + k /\ st !! Z.to_nat j = Some false /\ eligible j = true
  | inl st' => zlen st' = 256 /\ forall j, 0 <= j -> st' !! Z.to_nat j = Some false ->
      st !! Z.to_nat j = Some false /\ (n <= j < n + k -> eligible j = true -> is_accept_entry p = true)
  end.

Lemma subnets_skip p n k st b r :
  st !! Z.to_nat n = Some b -> (eligible n = true -> b = false -> is_accept_entry p = true) -> subnets_ok p (n + 1) k st r -> subnets_ok p n (k + 1) st r.
Proof.
  intros Hn Hb. destruct r as [st'|]; cbn.
  - intros [Hl Hr]. split; [done|]. intros j Hj Hf. destruct (Hr j Hj Hf) as [Hold Hacc]. split; [done|]. intros Hrange He.
    destruct (Z.eq_dec j n) as [->|]; [|apply Hacc; [lia|done]]. apply Hb; [done|congruence].
  - intros (Ha & Hm & j & Hj & Hf & He). split; [done|]. split; [done|]. exists j. split; [lia|done].
Qed.

Lemma subnet_loop_ok p k : forall n st, zlen st = 256 -> 0 <= n -> n + Z.of_nat k <= 256 -> exists r, subnet_loop allow p n k st = Ok r /\ subnets_ok p n (Z.of_nat k) st r.
Proof.
  induction k as [|k IH]; intros n st Hst Hn Hk.
  { eexists. split; [done|]. cbn. split; [done|]. intros j Hj Hf. split; [done|lia]. }
  cbn [subnet_loop]. destruct (aget_in_range st n) as (b & -> & Hb); [lia|]. cbn [cbind]. replace (Z.of_nat (S k)) with (Z.of_nat k + 1) by lia.
  assert (Hskip : (eligible n = true -> b = false -> is_accept_entry p = true) -> exists r, subnet_loop allow p (n + 1) k st = Ok r /\ subnets_ok p n (Z.of_nat k + 1) st r).
  { intros Hb'. destruct (IH (n + 1) st Hst) as (r & E & Hr); [lia|lia|]. exists r. split; [done|]. by eapply subnets_skip. }
  destruct b; [by apply Hskip|]. destruct (tor_addr_is_internal _ _ && negb allow) eqn:Ei.
  { apply Hskip. unfold eligible. by rewrite Ei. }
  destruct (is_accept_entry p) eqn:Ea.
  - destruct (Z.ltb_spec 8 (maskbits p)); [by apply Hskip|]. eexists. split; [done|]. cbn. split; [done|]. split; [lia|]. exists n. split; [lia|]. split; [done|].
    unfold eligible. by rewrite Ei.
  - unfold aset. replace (_ && _) with true by (symmetry; unfold zlen in Hst; blia). cbn [cbind].
    destruct (IH (n + 1) (<[Z.to_nat n:=true]> st)) as (r & E & Hr); [unfold zlen in *; by rewrite length_insert|lia|lia|]. exists r. split; [done|]. destruct r as [st'|].
    + destruct Hr as [Hl Hr]. split; [done|]. intros j Hj Hf. destruct (Hr j Hj Hf) as [Hold Hacc]. destruct (Z.eq_dec j n) as [->|Hne].
      * rewrite list_lookup_insert_eq in Hold by (unfold zlen in Hst; lia). done.
      * rewrite list_lookup_insert_ne in Hold by lia. split; [done|]. intros Hrange He. apply Hacc; [lia|done].
    + destruct Hr as (Hbad & _). congruence.
Qed.

Definition in_subnet (j : Z) (x : tor_addr_t) : Prop := addr_ok x /\ family x = AF_INET /\ slash8 x = j.

(** No address of a subnet that is not marked was rejected by the entries [pre]. *)
Definition status_ok (pre : list addr_policy_t) (st : list bool) : Prop :=
  zlen st = 256 /\ forall j x p, 0 <= j -> st !! Z.to_nat j = Some false -> eligible j = true -> in_subnet j x -> p ∈ pre -> hits x port p = true -> is_accept_entry p = true.

Lemma accepts_through pre p rest x :
  (forall p', p' ∈ pre -> hits x port p' = true -> is_accept_entry p' = true) -> hits x port p = true -> is_accept_entry p = true -> accepts x port (pre ++ p :: rest) = true.
Proof.
  intros Hpre Hp Ha. unfold accepts. induction pre as [|q pre IH]; cbn; [by rewrite Hp|]. destruct (hits x port q) eqn:Eq; [by apply Hpre; [set_solver|]|].
  apply IH. intros p' Hin. apply Hpre. set_solver.
Qed.

(** The subnets that the loop visits for an entry. *)
Lemma visited p x j :
  policy_ok p -> family (addr p) = AF_INET -> in_subnet j x ->
  let mask := if maskbits p =? 0 then 0 else u32 (Z.shiftl UINT32_MAX (32 - maskbits p)) in
  let first := Z.shiftr (Z.land mask (tor_addr_to_ipv4h (addr p))) 24 in
  let last := Z.shiftr (u32 (Z.lnot (Z.lxor (Z.land mask (tor_addr_to_ipv4h (addr p))) mask))) 24 in
  0 <= first /\ last < 256 /\ (matchesb x (addr p) (maskbits p) = true -> first <= j <= last) /\ (maskbits p <= 8 -> first <= j <= last -> matchesb x (addr p) (maskbits p) = true).
Proof.
  intros [Hp Hm] Hf (Hx & Hfx & <-) mask first last. rewrite Hf in Hm. cbn in Hm. destruct (v4_value _ Hp Hf) as [Hw Hpw]. destruct (v4_value _ Hx Hfx) as [Hv Hpv].
  destruct (network_bounds (maskbits p) (tor_addr_to_ipv4h (addr p))) as [E1 E2]; [lia|done|]. unfold first, last, slash8. fold mask in E1, E2. split; [|split].
  - rewrite E1. apply Z.shiftr_nonneg, Z.shiftl_nonneg, Z.shiftr_nonneg. lia.
  - unfold u32. rewrite Z.shiftr_div_pow2 by lia. pose proof (Z.mod_pos_bound (Z.lnot (Z.lxor (Z.land mask (tor_addr_to_ipv4h (addr p))) mask)) (2 ^ 32) ltac:(lia)).
    apply Z.div_lt_upper_bound; lia.
  - rewrite E2, E1. unfold matchesb. rewrite bool_decide_true by congruence. cbn [andb]. rewrite Z.eqb_eq, Hpw, Hpv by lia. split.
    + intros E. apply network_range; [lia|done..].
    + intros H8. apply network_wide; [lia|done..|lia].
Qed.

Lemma general_exit_loop_ok l : Forall policy_ok l -> forall pre st, status_ok pre st ->
  exists b, general_exit_loop allow port st l = Ok b /\
    (b = true -> exists j, 0 <= j < 256 /\ eligible j = true /\ forall x, in_subnet j x -> accepts x port (pre ++ l) = true).
Proof.
  induction 1 as [|p l Hp Hl IH]; intros pre st Hst; [exists false; done|]. cbn [general_exit_loop].
  assert (Hnext : forall st', status_ok (pre ++ [p]) st' -> exists b, general_exit_loop allow port st' l = Ok b /\
    (b = true -> exists j, 0 <= j < 256 /\ eligible j = true /\ forall x, in_subnet j x -> accepts x port (pre ++ p :: l) = true)).
  { intros st' Hst'. destruct (IH _ _ Hst') as (b & E & Hb). exists b. split; [done|]. by rewrite <- app_assoc in Hb. }
  assert (Hmiss : (forall x j, in_subnet j x -> hits x port p = false) -> status_ok (pre ++ [p]) st).
  { intros Hno. destruct Hst as [Hlen Hst]. split; [done|]. intros j x q Hj Hf He Hx [Hq|Hq]%elem_of_app; [by eapply Hst|]. apply list_elem_of_singleton in Hq as ->. by rewrite (Hno x j Hx). }
  destruct (bool_decide_reflect (family (addr p) = AF_INET)) as [Hf|Hf]; cbn [negb].
  2: { apply Hnext, Hmiss. intros x j (_ & Hfx & _). unfold hits, matchesb. rewrite bool_decide_false by congruence. done. }
  destruct (_ || _) eqn:Eport; [apply Hnext, Hmiss; intros x j _; unfold hits; replace (_ && (port <=? _)) with false by (symmetry; blia); apply andb_false_r|].
  assert (maskbits p <= 32) as Hm32 by (destruct Hp as [_ Hm]; rewrite Hf in Hm; cbn in Hm; lia). rewrite (proj2 (Z.leb_le _ _) Hm32).
  set (first := Z.shiftr (Z.land _ _) 24). set (last := Z.shiftr (u32 _) 24). destruct Hst as [Hlen Hst].
  assert (0 <= first /\ last < 256 /\ first <= last) as (H0 & H256 & Hfl).
  { destruct (visited p (addr p) (slash8 (addr p)) Hp Hf) as (? & ? & Hin & _); [split; [apply Hp|done]|]. split; [done|]. split; [done|]. fold first last in Hin.
    destruct Hin; [|lia]. unfold matchesb. by rewrite bool_decide_true, Z.eqb_refl. }
  destruct (subnet_loop_ok p (Z.to_nat (last - first + 1)) first st Hlen H0) as (r & E & Hr); [lia|]. rewrite E. cbn [cbind].
  destruct r as [st'|u].
  - destruct Hr as [Hlen' Hr]. apply Hnext. split; [done|]. intros j x q Hj Hst' He Hx [Hq|Hq]%elem_of_app Hhit; destruct (Hr j Hj Hst') as [Hold Hacc]; [by eapply Hst|].
    apply list_elem_of_singleton in Hq as ->. apply Hacc; [|done]. destruct (visited p x j Hp Hf Hx) as (_ & _ & Hin & _). unfold hits in Hhit. apply andb_true_iff in Hhit as [Hhit _].
    specialize (Hin Hhit). fold first last in Hin. lia.
  - destruct Hr as (Ha & H8 & j & Hj & Hf' & He). exists true. split; [done|]. intros _. exists j. split; [lia|]. split; [done|]. intros x Hx. apply accepts_through; [|..|done].
    + intros q Hq Hhit. by eapply Hst; [| |exact He|exact Hx|..]; [lia|..].
    + destruct (visited p x j Hp Hf Hx) as (_ & _ & _ & Hwide). unfold hits. rewrite Hwide; [cbn [andb]; blia|done|]. fold first last. lia.
Qed.

(** A policy that is taken for a general exit on a port accepts, on that port, all addresses of some /8 network that is not internal. *)
Theorem general_exit_has_subnet l :
  Forall policy_ok l ->
  exists b, exit_policy_is_general_exit_helper allow l port = Ok b /\
    (b = true -> exists j, 0 <= j < 256 /\ eligible j = true /\ forall x, in_subnet j x -> compare_known_tor_addr_to_addr_policy ptr1 ptr2 x port l = Ok ADDR_POLICY_ACCEPTED).
Proof.
  intros Hl. destruct (general_exit_loop_ok l Hl [] (repeat false 256)) as (b & E & Hb); [split; [done|]; intros; set_solver|]. exists b. split; [exact E|].
  intros Hbt. destruct (Hb Hbt) as (j & Hj & He & Hacc). exists j. split; [done|]. split; [done|]. intros x Hx. rewrite compare_known_ok by (done || apply Hx). by rewrite Hacc.
Qed.

End GeneralExit.

(** ** Examples *)

Definition policy_okb (p : addr_policy_t) : bool :=
  (bool_decide (family (addr p) = AF_INET) || bool_decide (family (addr p) = AF_INET6)) && (zlen (ip (addr p)) =? addr_size (family (addr p)))
  && forallb (fun b => (0 <=? b) && (b <=? 255)) (ip (addr p)) && ((0 <=? maskbits p) && (maskbits p <=? 8 * addr_size (family (addr p)))).

Lemma policy_okb_ok p : policy_okb p = true -> policy_ok p.
Proof.
  unfold policy_okb. rewrite !andb_true_iff, orb_true_iff, !bool_decide_eq_true, Z.eqb_eq, forallb_forall, !Z.leb_le. intros [[[Hf Hl] Hb] Hm]. split; [split; [done|done|]|done].
  apply List.Forall_forall. intros x Hx. specialize (Hb x Hx). unfold is_byte. blia.
Qed.

Lemma policies_okb_ok l : forallb policy_okb l = true -> Forall policy_ok l.
Proof. rewrite forallb_forall, List.Forall_forall. intros H p Hp. by apply policy_okb_ok, H. Qed.

Definition net4 (t : addr_policy_action_t) (a : bytes) (bits lo hi : Z) : addr_policy_t := mkpol t false bits (mkaddr AF_INET a) lo hi.
Definition star6 (t : addr_policy_action_t) (lo hi : Z) : addr_policy_t := mkpol t false 0 (mkaddr AF_INET6 (repeat 0 16)) lo hi.

Definition ex_policy : list addr_policy_t :=
  [net4 ADDR_POLICY_ACCEPT [10; 1; 0; 0] 16 80 80; net4 ADDR_POLICY_REJECT [10; 0; 0; 0] 8 1 65535; net4 ADDR_POLICY_REJECT [10; 2; 0; 0] 16 22 25; net4 ADDR_POLICY_ACCEPT [192; 0; 2; 0] 24 443 443;
   star6 ADDR_POLICY_REJECT 1 65535; net4 ADDR_POLICY_ACCEPT [0; 0; 0; 0] 0 443 443; net4 ADDR_POLICY_REJECT [0; 0; 0; 0] 0 1 65535; net4 ADDR_POLICY_ACCEPT [0; 0; 0; 0] 0 80 80].

Lemma ex_policy_ok : Forall policy_ok ex_policy.
Proof. apply policies_okb_ok. reflexivity. Qed.

Definition ex_addr : tor_addr_t := mkaddr AF_INET [10; 2; 3; 4].

Lemma ex_addr_ok : addr_ok ex_addr.
Proof. split; [by left|done|repeat constructor; unfold is_byte; lia]. Qed.

(** Three entries go: the network 10.2.0.0/16 is covered by an earlier one, 192.0.2.0/24 by a later one, and the last comes after everything was rejected. *)
Example ex_reduced : option_map (map maskbits) (match exit_policy_remove_redundancies 0 0 ex_policy with Ok l => Some l | _ => None end) = Some [16; 8; 0; 0; 0].
Proof. reflexivity. Qed.

Lemma redundancies_keep_meaning_witness :
  exists l', exit_policy_remove_redundancies 0 0 ex_policy = Ok l' /\ length l' = 5%nat /\
    compare_known_tor_addr_to_addr_policy 0 0 ex_addr 23 l' = compare_known_tor_addr_to_addr_policy 0 0 ex_addr 23 ex_policy.
Proof.
  destruct (redundancies_keep_meaning 0 0 ex_policy ex_policy_ok) as (l' & E & _ & H). exists l'. split; [done|]. split; [by vm_compute in E; injection E as <-|]. apply H; [apply ex_addr_ok|lia].
Defined.

Lemma definite_answers_hold_witness :
  compare_tor_addr_to_addr_policy 0 0 (Some ex_addr) 0 (Some (tail ex_policy)) = Ok ADDR_POLICY_REJECTED /\
  compare_tor_addr_to_addr_policy 0 0 (Some ex_addr) 25 (Some (tail ex_policy)) = Ok ADDR_POLICY_REJECTED.
Proof.
  split; [reflexivity|]. destruct (definite_answers_hold 0 0 ex_addr (tail ex_policy)) as (r & E & H & _); [apply ex_addr_ok|done|apply policies_okb_ok; reflexivity|].
  vm_compute in E. apply (H false); [by injection E as <-|lia].
Defined.

Lemma reject_star_rejects_witness :
  policy_is_reject_star (Some (tail ex_policy)) AF_INET6 false = true /\
  compare_known_tor_addr_to_addr_policy 0 0 demo_addr6 80 (tail ex_policy) = Ok ADDR_POLICY_REJECTED.
Proof. split; [reflexivity|]. apply (reject_star_rejects 0 0 demo_addr6); [apply demo_addr6_ok|lia|apply policies_okb_ok; reflexivity|reflexivity]. Defined.

Lemma general_exit_has_subnet_witness :
  exit_policy_is_general_exit_helper false ex_policy 443 = Ok true /\
  exists j, 0 <= j < 256 /\ eligible false j = true /\ forall x, in_subnet j x -> compare_known_tor_addr_to_addr_policy 0 0 x 443 ex_policy = Ok ADDR_POLICY_ACCEPTED.
Proof.
  split; [reflexivity|]. destruct (general_exit_has_subnet 0 0 false 443 ex_policy ex_policy_ok) as (b & E & H). apply H. vm_compute in E. congruence.
Defined.

(** A definite answer for an unknown address can be wrong for the addresses of the other family: an entry for all IPv4 addresses is taken for one that matches every address. *)
Theorem unknown_address_ignores_family :
  exists l x, Forall policy_ok l /\ addr_ok x /\
    forall p1 p2, compare_tor_addr_to_addr_policy p1 p2 None 80 (Some l) = Ok ADDR_POLICY_ACCEPTED /\ compare_tor_addr_to_addr_policy p1 p2 (Some x) 80 (Some l) = Ok ADDR_POLICY_REJECTED.
Proof.
  exists [net4 ADDR_POLICY_ACCEPT [0; 0; 0; 0] 0 80 80; star6 ADDR_POLICY_REJECT 1 65535], demo_addr6. split; [apply policies_okb_ok; reflexivity|]. split; [apply demo_addr6_ok|].
  intros p1 p2. split; reflexivity.
Qed.
