(* ===== verification/PolicySummary.v ===== *)
(** * Summaries of exit policies

    Models the second half of core/or/policies.c: the summary of a policy by ports, which directory authorities put into the consensus, its text,
    and the short policies that clients read from it.

    A summary is a list of items that cut the ports from 1 to 65535 into ranges; [reject_count] counts the addresses that are rejected on the ports of an item, up
    to the entry that accepts the rest. *)

From S2P Require Import Prelude CString DiOps UtilString StrList Inaddr Address Policies.
From Stdlib Require Import ZArith String.
From stdpp Require Import base list numbers sets.
Import CString.ParseInt CString.CType.
Open Scope Z_scope.

Definition MAX_EXITPOLICY_SUMMARY_LEN : Z := 1000.

Record policy_summary_item_t := mkitem { s_min : Z; s_max : Z; reject_count : Z; accepted : bool }.

Definition policy_summary_create : list policy_summary_item_t := [mkitem 1 65535 0 false].

Definition u16 (z : Z) : Z := z mod 2 ^ 16.

(** The item as it is changed, and the new one. *)
Definition policy_summary_item_split (old : policy_summary_item_t) (new_starts : Z) : cres (policy_summary_item_t * policy_summary_item_t) :=
  let new := mkitem new_starts (s_max old) (reject_count old) (accepted old) in
  let old := mkitem (s_min old) (u16 (new_starts - 1)) (reject_count old) (accepted old) in
  assert! (s_min old <=? s_max old);
  assert! (s_min new <=? s_max new);
  Ok (old, new).

(** [smartlist_insert] *)
Definition insert_item (summary : list policy_summary_item_t) (i : Z) (item : policy_summary_item_t) : list policy_summary_item_t :=
  take (Z.to_nat i) summary ++ item :: drop (Z.to_nat i) summary.

(** [while (AT(i)->prt_max < port) i++] *)
Fixpoint seek_port (fuel : nat) (summary : list policy_summary_item_t) (port i : Z) : cres Z :=
  match fuel with
  | O => Fuel
  | S fuel => let* it := aget summary i in if s_max it <? port then seek_port fuel summary port (i + 1) else Ok i
  end.

Definition split_item_at (summary : list policy_summary_item_t) (i new_starts : Z) : cres (list policy_summary_item_t) :=
  let* it := aget summary i in
  let* (old, new) := policy_summary_item_split it new_starts in
  let* summary := aset summary i old in
  Ok (insert_item summary (i + 1) new).

(** The summary and [start_at_index]. *)
Definition policy_summary_split (summary : list policy_summary_item_t) (prt_min prt_max : Z) : cres (list policy_summary_item_t * Z) :=
  let* i := seek_port (S (length summary)) summary prt_min 0 in
  let* it := aget summary i in
  let* (summary, i) := (if negb (s_min it =? prt_min) then let* summary := split_item_at summary i prt_min in Ok (summary, i + 1) else Ok (summary, i)) in
  let start_at_index := i in
  let* i := seek_port (S (length summary)) summary prt_max i in
  let* it := aget summary i in
  let* summary := (if negb (s_max it =? prt_max) then split_item_at summary i (u16 (prt_max + 1)) else Ok summary) in
  Ok (summary, start_at_index).

(** The loop over the items of a range of ports, and the assertion after it. *)
Fixpoint update_range (fuel : nat) (f : policy_summary_item_t -> policy_summary_item_t) (summary : list policy_summary_item_t) (i prt_max : Z) : cres (list policy_summary_item_t) :=
  match fuel with
  | O => Fuel
  | S fuel =>
      if i <? zlen summary then
        let* it := aget summary i in
        if s_max it <=? prt_max then let* summary := aset summary i (f it) in update_range fuel f summary (i + 1) prt_max
        else Ok summary
      else assert! (prt_max =? 65535); Ok summary
  end.

Definition IPV4_BITS : Z := 32.
Definition REJECT_CUTOFF_SCALE_IPV4 : Z := 0.
Definition REJECT_CUTOFF_COUNT_IPV4 : Z := Z.shiftl 1 (IPV4_BITS - REJECT_CUTOFF_SCALE_IPV4 - 7).
Definition IPV6_BITS : Z := 128.
Definition REJECT_CUTOFF_SCALE_IPV6 : Z := 64.
Definition REJECT_CUTOFF_COUNT_IPV6 : Z := Z.shiftl 1 (IPV6_BITS - REJECT_CUTOFF_SCALE_IPV6 - 16).

Definition family_reject_count (fam : af_t) : Z := if bool_decide (fam = AF_INET) then REJECT_CUTOFF_COUNT_IPV4 else REJECT_CUTOFF_COUNT_IPV6.

Definition accept_item (fam : af_t) (it : policy_summary_item_t) : policy_summary_item_t :=
  if negb (accepted it) && (reject_count it <=? family_reject_count fam) then mkitem (s_min it) (s_max it) (reject_count it) true else it.

Definition policy_summary_accept (summary : list policy_summary_item_t) (prt_min prt_max : Z) (fam : af_t) : cres (list policy_summary_item_t) :=
  let* (summary, i) := policy_summary_split summary prt_min prt_max in
  update_range (S (length summary)) (accept_item fam) summary i prt_max.

Definition addrbits (fam : af_t) : Z := if bool_decide (fam = AF_INET) then IPV4_BITS else IPV6_BITS.
Definition reject_scale (fam : af_t) : Z := if bool_decide (fam = AF_INET) then REJECT_CUTOFF_SCALE_IPV4 else REJECT_CUTOFF_SCALE_IPV6.

(** [None] for a network that is too small to count. *)
Definition reject_amount (fam : af_t) (bits : Z) : option Z :=
  if addrbits fam - reject_scale fam <? bits then None
  else Some (if 64 <=? addrbits fam - reject_scale fam - bits then UINT64_MAX else Z.shiftl 1 (addrbits fam - reject_scale fam - bits)).

Definition reject_item (count : Z) (it : policy_summary_item_t) : policy_summary_item_t :=
  mkitem (s_min it) (s_max it) (if reject_count it <=? UINT64_MAX - count then reject_count it + count else UINT64_MAX) (accepted it).

(** The split comes before the test of the size. *)
Definition policy_summary_reject (summary : list policy_summary_item_t) (bits prt_min prt_max : Z) (fam : af_t) : cres (list policy_summary_item_t) :=
  let* (summary, i) := policy_summary_split summary prt_min prt_max in
  match reject_amount fam bits with
  | None => Ok summary
  | Some count => update_range (S (length summary)) (reject_item count) summary i prt_max
  end.

Section Summary.

Variables ptr1 ptr2 : Z.

Fixpoint is_private_net (p : addr_policy_t) (nets : list bytes) : cres bool :=
  match nets with
  | [] => Ok false
  | net :: nets =>
      match tor_addr_parse_mask_ports net 0 true false false with
      | Ok (mkpat a (Some bits) _) =>
          let* r := tor_addr_compare ptr1 ptr2 (addr p) a CMP_EXACT in
          if (r =? 0) && (maskbits p =? bits) then Ok true else is_private_net p nets
      | Fuel => Fuel
      | _ => Bug
      end
  end.

Definition policy_summary_add_item (summary : list policy_summary_item_t) (p : addr_policy_t) : cres (list policy_summary_item_t) :=
  if is_accept_entry p then if maskbits p =? 0 then policy_summary_accept summary (prt_min p) (prt_max p) (family (addr p)) else Ok summary
  else
    let* is_private := is_private_net p private_nets in
    if negb is_private then policy_summary_reject summary (maskbits p) (prt_min p) (prt_max p) (family (addr p)) else Ok summary.

Fixpoint summary_loop (fam : af_t) (summary : list policy_summary_item_t) (policy : list addr_policy_t) : cres (list policy_summary_item_t) :=
  match policy with
  | [] => Ok summary
  | p :: policy =>
      if negb (bool_decide (family (addr p) = fam)) then summary_loop fam summary policy
      else let* summary := policy_summary_add_item summary p in summary_loop fam summary policy
  end.

(** ** The text *)

Definition port_range (lo hi : Z) : bytes := if lo =? hi then dec lo else dec lo ++ [45] ++ dec hi.

(** The lists [accepts] and [rejects]. *)
Fixpoint merge_loop (summary : list policy_summary_item_t) (start_prt : Z) (accepts rejects : list bytes) : cres (list bytes * list bytes) :=
  match summary with
  | [] => Bug
  | it :: rest =>
      match rest with
      | next :: _ =>
          if Bool.eqb (accepted it) (accepted next) then merge_loop rest start_prt accepts rejects
          else if accepted it then merge_loop rest (s_min next) (accepts ++ [port_range start_prt (s_max it)]) rejects
          else merge_loop rest (s_min next) accepts (rejects ++ [port_range start_prt (s_max it)])
      | [] => Ok (if accepted it then (accepts ++ [port_range start_prt (s_max it)], rejects) else (accepts, rejects ++ [port_range start_prt (s_max it)]))
      end
  end.

(** [while ( *c != ',' && c >= shorter_str) c--]; it is a bug to reach the start without a comma. *)
Fixpoint back_to_comma (s : bytes) (c : nat) : cres nat :=
  if nth c s 0 =? 44 then Ok c else match c with O => Bug | S c => back_to_comma s c end.

Definition summary_text (accepts rejects : list bytes) : cres bytes :=
  if zlen accepts =? 0 then Ok (s2b "reject 1-65535")
  else if zlen rejects =? 0 then Ok (s2b "accept 1-65535")
  else
    let* accepts_str := smartlist_join_strings accepts [44] false in
    let* rejects_str := smartlist_join_strings rejects [44] false in
    let room := MAX_EXITPOLICY_SUMMARY_LEN - 6 - 1 in
    if (room <? zlen rejects_str) && (room <? zlen accepts_str) then
      let* c := back_to_comma accepts_str (Z.to_nat room) in Ok (s2b "accept " ++ take c accepts_str)
    else if zlen rejects_str <? zlen accepts_str then Ok (s2b "reject " ++ rejects_str)
    else Ok (s2b "accept " ++ accepts_str).

Definition policy_summarize (policy : list addr_policy_t) (fam : af_t) : cres bytes :=
  let* summary := summary_loop fam policy_summary_create policy in
  let* (accepts, rejects) := merge_loop summary 1 [] [] in
  summary_text accepts rejects.

End Summary.

(** ** Short policies *)

Record short_policy_t := mkshort { is_accept : bool; entries : list (Z * Z) }.

(** The entries after [n] of them. *)
Fixpoint short_policy_loop (fuel : nat) (summary : bytes) (acc : list (Z * Z)) : cres (list (Z * Z)) :=
  match fuel with
  | O => Fuel
  | S fuel =>
      if cur summary =? 0 then Ok acc
      else if zlen acc =? MAX_EXITPOLICY_SUMMARY_LEN then Err
      else
        let r := tor_parse_ulong summary 10 1 65535 true in
        match p_next r with
        | None => Bug
        | Some next =>
            if negb (p_ok r) then
              if negb (TOR_ISDIGIT (cur summary)) || (cur summary =? 44) then
                match strchr next 44 with None => Ok acc | Some next => short_policy_loop fuel (tail next) acc end
              else Err
            else
              let low := u32 (p_val r) in
              if cur next =? 44 then short_policy_loop fuel (tail next) (acc ++ [(low, low)])
              else if cur next =? 0 then short_policy_loop fuel next (acc ++ [(low, low)])
              else if cur next =? 45 then
                let r := tor_parse_ulong (tail next) 10 low 65535 true in
                match p_next r with
                | None => Bug
                | Some next =>
                    if negb (p_ok r) then Err
                    else if cur next =? 44 then short_policy_loop fuel (tail next) (acc ++ [(low, u32 (p_val r))])
                    else if cur next =? 0 then short_policy_loop fuel next (acc ++ [(low, u32 (p_val r))])
                    else Err
                end
              else Err
        end
  end.

Definition parse_short_policy (summary : bytes) : cres short_policy_t :=
  let* (is_accept, rest) := (if strcmpstart summary (s2b "accept ") =? 0 then Ok (true, drop 7 summary)
                             else if strcmpstart summary (s2b "reject ") =? 0 then Ok (false, drop 7 summary) else Err) in
  let* entries := short_policy_loop (S (length rest)) rest [] in
  if zlen entries =? 0 then Err else Ok (mkshort is_accept entries).

Fixpoint short_entries_text (es : list (Z * Z)) : list bytes :=
  match es with
  | [] => []
  | (lo, hi) :: es => port_range lo hi :: match es with [] => [] | _ => [44] :: short_entries_text es end
  end.

Definition write_short_policy (policy : short_policy_t) : cres bytes :=
  smartlist_join_strings ((if is_accept policy then s2b "accept " else s2b "reject ") :: short_entries_text (entries policy)) [] false.

Definition compare_tor_addr_to_short_policy (ClientRejectInternalAddresses : bool) (a : option tor_addr_t) (port : Z) (policy : short_policy_t) : cres addr_policy_result_t :=
  assert! (negb (port =? 0));
  let a := match a with Some a => if tor_addr_is_null a then None else Some a | None => None end in
  if match a with Some a => ClientRejectInternalAddresses && (tor_addr_is_internal a false || tor_addr_is_loopback a) | None => false end then Ok ADDR_POLICY_REJECTED
  else
    let found_match := existsb (fun '(lo, hi) => (lo <=? port) && (port <=? hi)) (entries policy) in
    let accept := if found_match then is_accept policy else negb (is_accept policy) in
    Ok (if accept then ADDR_POLICY_PROBABLY_ACCEPTED else ADDR_POLICY_REJECTED).

Definition short_policy_is_reject_star (policy : short_policy_t) : bool :=
  negb (is_accept policy) && match entries policy with [(lo, hi)] => (lo =? 1) && (hi =? 65535) | _ => false end.

(** What is read of a [node_t]. *)
Record node_policy := mknode {
  rejects_all : bool; ri_policy : option (option (list addr_policy_t) * option short_policy_t); md_policy : option (option short_policy_t * option short_policy_t)
}.

(** The policies of the descriptor [ri] and the microdescriptor [md], each with the one for IPv6. *)
Definition compare_tor_addr_to_node_policy (ptr1 ptr2 : Z) (reject_internal : bool) (a : option tor_addr_t) (port : Z) (node : node_policy) : cres addr_policy_result_t :=
  if rejects_all node then Ok ADDR_POLICY_REJECTED
  else if match a with Some a => bool_decide (family a = AF_INET6) | None => false end then
    match (match ri_policy node with Some (_, p6) => p6 | None => match md_policy node with Some (_, p6) => p6 | None => None end end) with
    | Some p => compare_tor_addr_to_short_policy reject_internal a port p
    | None => Ok ADDR_POLICY_REJECTED
    end
  else
    match ri_policy node, md_policy node with
    | Some (policy, _), _ => compare_tor_addr_to_addr_policy ptr1 ptr2 a port policy
    | None, Some (None, _) => Ok ADDR_POLICY_REJECTED
    | None, Some (Some p, _) => compare_tor_addr_to_short_policy reject_internal a port p
    | None, None => Ok ADDR_POLICY_PROBABLY_REJECTED
    end.

(** ** Items that cut a range of ports *)

(** The items go from [lo] to just before [hi] without gaps. *)
Fixpoint seg (lo hi : Z) (l : list policy_summary_item_t) : Prop :=
  match l with [] => lo = hi | it :: l => s_min it = lo /\ lo <= s_max it /\ seg (s_max it + 1) hi l end.

Lemma seg_le lo hi l : seg lo hi l -> lo <= hi.
Proof. revert lo. induction l as [|it l IH]; intros lo; cbn; [lia|]. intros (_ & H1 & H2%IH). lia. Qed.

Lemma seg_app lo hi l1 l2 : seg lo hi (l1 ++ l2) <-> exists m, seg lo m l1 /\ seg m hi l2.
Proof.
  revert lo. induction l1 as [|it l1 IH]; intros lo; cbn.
  - split; [intros H; by exists lo|intros (m & -> & H); done].
  - rewrite IH. split; [intros (H1 & H2 & m & H3 & H4); by exists m|intros (m & (H1 & H2 & H3) & H4); eauto].
Qed.

Lemma seg_in lo hi l it : seg lo hi l -> it ∈ l -> lo <= s_min it /\ s_min it <= s_max it /\ s_max it < hi.
Proof.
  revert lo. induction l as [|x l IH]; intros lo; cbn; [set_solver|]. intros (H1 & H2 & H3) [->|Hin]%elem_of_cons.
  - apply seg_le in H3. lia.
  - destruct (IH _ H3 Hin). lia.
Qed.

(** What a summary says of a port. *)
Definition item_value (it : policy_summary_item_t) : Z * bool := (reject_count it, accepted it).

Definition value (l : list policy_summary_item_t) (port : Z) : option (Z * bool) := option_map item_value (List.find (fun it => port <=? s_max it) l).

Lemma value_left lo m l1 l2 port : seg lo m l1 -> port < m -> lo <= port -> value (l1 ++ l2) port = value l1 port.
Proof.
  unfold value. revert lo. induction l1 as [|it l1 IH]; intros lo; cbn; [lia|]. intros (H1 & H2 & H3) Hp Hlo.
  destruct (Z.leb_spec port (s_max it)); [done|]. by apply (IH _ H3); [|lia].
Qed.

Lemma value_right lo m l1 l2 port : seg lo m l1 -> m <= port -> value (l1 ++ l2) port = value l2 port.
Proof.
  unfold value. revert lo. induction l1 as [|it l1 IH]; intros lo; cbn; [done|]. intros (H1 & H2 & H3) Hp. pose proof (seg_le _ _ _ H3).
  rewrite (proj2 (Z.leb_gt port (s_max it))) by lia. by eapply IH.
Qed.

Lemma value_some lo hi l port : seg lo hi l -> lo <= port < hi -> exists it, it ∈ l /\ s_min it <= port <= s_max it /\ value l port = Some (item_value it).
Proof.
  unfold value. revert lo. induction l as [|x l IH]; intros lo; cbn; [lia|]. intros (H1 & H2 & H3) Hp. destruct (Z.leb_spec port (s_max x)).
  - exists x. split; [set_solver|]. split; [lia|done].
  - destruct (IH _ H3) as (it & Hin & Hr & E); [lia|]. exists it. split; [set_solver|]. done.
Qed.

Lemma seek_port_ok fuel : forall pre post lo hi port,
  seg lo hi post -> lo <= port < hi -> (length post < fuel)%nat ->
  exists m1 it m2, post = m1 ++ it :: m2 /\ seek_port fuel (pre ++ post) port (zlen pre) = Ok (zlen (pre ++ m1)) /\ seg lo (s_min it) m1 /\ s_min it <= port <= s_max it /\ seg (s_max it + 1) hi m2.
Proof.
  induction fuel as [|fuel IH]; intros pre post lo hi port Hs Hp Hf; [lia|]. destruct post as [|it post]; [cbn in Hs; lia|]. cbn in Hs. destruct Hs as (H1 & H2 & H3).
  cbn [seek_port]. rewrite aget_mid by done. cbn [cbind]. destruct (Z.ltb_spec (s_max it) port).
  - destruct (IH (pre ++ [it]) post (s_max it + 1) hi port H3) as (m1 & it' & m2 & -> & E & Hm1 & Hr & Hm2); [lia|cbn in Hf; lia|].
    exists (it :: m1), it', m2. split; [done|]. rewrite zlen_app in E. change (zlen [it]) with 1 in E. rewrite <- !app_assoc in E. cbn [app] in E. split; [exact E|]. by split; [cbn|].
  - exists [], it, post. rewrite app_nil_r. split; [done|]. split; [done|]. split; [done|]. split; [lia|done].
Qed.

Lemma split_item_at_ok m1 it m2 ns :
  s_min it < ns <= s_max it -> 0 <= s_min it -> s_max it <= 65535 ->
  split_item_at (m1 ++ it :: m2) (zlen m1) ns =
    Ok (m1 ++ mkitem (s_min it) (ns - 1) (reject_count it) (accepted it) :: mkitem ns (s_max it) (reject_count it) (accepted it) :: m2).
Proof.
  intros H1 H2 H3. unfold split_item_at. rewrite aget_mid by done. cbn [cbind]. unfold policy_summary_item_split. cbn [s_min s_max]. unfold u16. rewrite Z.mod_small by lia.
  rewrite !(proj2 (Z.leb_le _ _)) by lia. cbn [cbind]. rewrite aset_mid by done. cbn [cbind]. unfold insert_item. f_equal.
  set (x := mkitem (s_min it) (ns - 1) _ _). replace (m1 ++ x :: m2) with ((m1 ++ [x]) ++ m2) by (by rewrite <- app_assoc).
  replace (Z.to_nat (zlen m1 + 1)) with (length (m1 ++ [x])) by (rewrite length_app; unfold zlen; cbn; lia). rewrite take_app_length, drop_app_length. by rewrite <- app_assoc.
Qed.

(** Cutting an item in two does not change what is said of a port. *)
Lemma value_cut lo hi m1 it m2 ns port :
  seg lo hi (m1 ++ it :: m2) -> s_min it < ns <= s_max it -> lo <= port < hi ->
  value (m1 ++ mkitem (s_min it) (ns - 1) (reject_count it) (accepted it) :: mkitem ns (s_max it) (reject_count it) (accepted it) :: m2) port = value (m1 ++ it :: m2) port.
Proof.
  intros (m & H1 & H2 & H3 & H4)%seg_app Hns Hp. destruct (Z.ltb_spec port m).
  - by rewrite !(value_left lo m) by (done || lia).
  - rewrite !(value_right lo m) by done. unfold value. cbn. destruct (Z.leb_spec port (ns - 1)), (Z.leb_spec port (s_max it)); (done || lia).
Qed.

Lemma seg_cut lo hi m1 it m2 ns :
  seg lo hi (m1 ++ it :: m2) -> s_min it < ns <= s_max it ->
  seg lo ns (m1 ++ [mkitem (s_min it) (ns - 1) (reject_count it) (accepted it)]) /\ seg ns hi (mkitem ns (s_max it) (reject_count it) (accepted it) :: m2).
Proof.
  intros (m & H1 & H2 & H3 & H4)%seg_app Hns. split; [|cbn; split; [done|]; split; [lia|done]]. apply seg_app. exists m. split; [done|]. cbn. split; [done|]. lia.
Qed.

(** The summary is cut at both ends of the range, and says the same of every port. *)
Lemma summary_split_ok l a b :
  seg 1 65536 l -> 1 <= a <= b -> b <= 65535 ->
  exists l1 l2 l3, policy_summary_split l a b = Ok (l1 ++ l2 ++ l3, zlen l1) /\ seg 1 a l1 /\ seg a (b + 1) l2 /\ seg (b + 1) 65536 l3 /\
    (forall port, 1 <= port <= 65535 -> value (l1 ++ l2 ++ l3) port = value l port) /\ (length (l1 ++ l2 ++ l3) <= length l + 2)%nat.
Proof.
  intros Hl Ha Hb. unfold policy_summary_split. destruct (seek_port_ok (S (length l)) [] l 1 65536 a Hl) as (m1 & it & m2 & -> & E & Hm1 & Hr & Hm2); [lia|lia|].
  cbn [app] in E. change (zlen (@nil policy_summary_item_t)) with 0 in E. rewrite E. cbn [cbind]. rewrite aget_mid by done. cbn [cbind].
  assert (exists l1 r, (if negb (s_min it =? a) then let* summary := split_item_at (m1 ++ it :: m2) (zlen m1) a in Ok (summary, zlen m1 + 1) else Ok (m1 ++ it :: m2, zlen m1)) = Ok (l1 ++ r, zlen l1) /\
    seg 1 a l1 /\ seg a 65536 r /\ (forall port, 1 <= port <= 65535 -> value (l1 ++ r) port = value (m1 ++ it :: m2) port) /\ (length (l1 ++ r) <= length (m1 ++ it :: m2) + 1)%nat)
    as (l1 & r & -> & Hl1 & Hr1 & Hv1 & Hlen1).
  { pose proof (seg_le _ _ _ Hm1). pose proof (seg_le _ _ _ Hm2). destruct (Z.eqb_spec (s_min it) a) as [Ea|Ea]; cbn [negb].
    - exists m1, (it :: m2). rewrite <- Ea at 1. split; [done|]. subst a. split; [done|]. split; [by cbn; split; [|split; [lia|]]|]. split; [done|lia].
    - rewrite split_item_at_ok by lia. cbn [cbind]. destruct (seg_cut 1 65536 m1 it m2 a Hl) as [H1 H2]; [lia|].
      exists (m1 ++ [mkitem (s_min it) (a - 1) (reject_count it) (accepted it)]), (mkitem a (s_max it) (reject_count it) (accepted it) :: m2). rewrite <- app_assoc.
      split; [by rewrite zlen_app|]. split; [done|]. split; [done|]. split; [|rewrite !length_app; cbn; lia]. intros port Hport. apply (value_cut 1 65536); [done|lia|lia]. }
  cbn [cbind]. destruct (seek_port_ok (S (length (l1 ++ r))) l1 r a 65536 b Hr1) as (n1 & it' & n2 & -> & E' & Hn1 & Hr' & Hn2); [lia|rewrite length_app; lia|].
  rewrite E'. cbn [cbind]. rewrite app_assoc, aget_mid by done. cbn [cbind]. pose proof (seg_le _ _ _ Hn1). pose proof (seg_le _ _ _ Hn2).
  destruct (Z.eqb_spec (s_max it') b) as [Eb|Eb]; cbn [negb cbind].
  - exists l1, (n1 ++ [it']), n2. rewrite <- !app_assoc. cbn [app]. split; [done|]. split; [done|]. split; [apply seg_app; exists (s_min it'); cbn; split; [done|lia]|].
    split; [by rewrite <- Eb|]. split; [done|]. rewrite !length_app in *. cbn in *. lia.
  - unfold u16. rewrite Z.mod_small by lia. rewrite split_item_at_ok by lia. cbn [cbind]. destruct (seg_cut a 65536 n1 it' n2 (b + 1) Hr1) as [H1 H2]; [lia|].
    exists l1, (n1 ++ [mkitem (s_min it') (b + 1 - 1) (reject_count it') (accepted it')]), (mkitem (b + 1) (s_max it') (reject_count it') (accepted it') :: n2).
    rewrite <- !app_assoc. cbn [app]. split; [done|]. split; [done|]. split; [done|]. split; [done|]. split; [|rewrite !length_app in *; cbn in *; lia].
    intros port Hport. rewrite <- Hv1 by done. destruct (Z.ltb_spec port a); [by rewrite !(value_left 1 a l1) by (done || lia)|].
    rewrite !(value_right 1 a l1) by done. apply (value_cut a 65536); [done|lia|lia].
Qed.

(** The loop over a range changes its items and no others. *)
Lemma update_range_ok fuel f : forall pre mid post a b,
  (forall it, s_max (f it) = s_max it) -> seg a (b + 1) mid -> seg (b + 1) 65536 post -> b <= 65535 -> (length mid < fuel)%nat ->
  update_range fuel f (pre ++ mid ++ post) (zlen pre) b = Ok (pre ++ map f mid ++ post).
Proof.
  induction fuel as [|fuel IH]; intros pre mid post a b Hf Hm Hp Hb Hfuel; [lia|]. cbn [update_range]. destruct mid as [|it mid].
  - cbn [app map]. destruct post as [|it post].
    + rewrite app_nil_r, Z.ltb_irrefl. cbn in Hp. by rewrite (proj2 (Z.eqb_eq b 65535)) by lia.
    + rewrite zlen_app, zlen_cons. pose proof (zlen_nonneg post). rewrite (proj2 (Z.ltb_lt _ _)) by lia. rewrite aget_mid by done. cbn [cbind].
      cbn in Hp. destruct Hp as (H1 & H2 & _). by rewrite (proj2 (Z.leb_gt _ _)) by lia.
  - cbn [app map]. rewrite zlen_app, zlen_cons. pose proof (zlen_nonneg (mid ++ post)). rewrite (proj2 (Z.ltb_lt _ _)) by lia. rewrite aget_mid by done. cbn [cbind].
    cbn in Hm. destruct Hm as (H1 & H2 & H3). pose proof (seg_le _ _ _ H3). rewrite (proj2 (Z.leb_le _ _)) by lia. rewrite aset_mid by done. cbn [cbind].
    specialize (IH (pre ++ [f it]) mid post (s_max it + 1) b Hf H3 Hp Hb). rewrite zlen_app, <- !app_assoc in IH. cbn [app] in IH. apply IH. cbn in Hfuel. lia.
Qed.

Section Update.

Variables (f : policy_summary_item_t -> policy_summary_item_t) (g : Z * bool -> Z * bool).
Hypotheses (f_min : forall it, s_min (f it) = s_min it) (f_max : forall it, s_max (f it) = s_max it) (f_value : forall it, item_value (f it) = g (item_value it)).

Lemma seg_map lo hi l : seg lo hi l -> seg lo hi (map f l).
Proof. revert lo. induction l as [|it l IH]; intros lo; cbn; [done|]. rewrite f_min, f_max. intros (? & ? & ?). auto. Qed.

Lemma value_map l port : value (map f l) port = option_map g (value l port).
Proof. unfold value. induction l as [|it l IH]; [done|]. cbn. rewrite f_max. destruct (_ <=? _); [cbn; by rewrite f_value|done]. Qed.

Lemma range_updated l1 l2 l3 a b :
  seg 1 a l1 -> seg a (b + 1) l2 -> seg (b + 1) 65536 l3 ->
  seg 1 65536 (l1 ++ map f l2 ++ l3) /\
  forall port, 1 <= port <= 65535 ->
    value (l1 ++ map f l2 ++ l3) port = if (a <=? port) && (port <=? b) then option_map g (value (l1 ++ l2 ++ l3) port) else value (l1 ++ l2 ++ l3) port.
Proof.
  intros H1 H2 H3. split; [apply seg_app; exists a; split; [done|]; apply seg_app; exists (b + 1); split; [by apply seg_map|done]|].
  intros port Hp. destruct (Z.leb_spec a port); cbn [andb].
  - rewrite !(value_right 1 a l1) by done. destruct (Z.leb_spec port b).
    + rewrite (value_left a (b + 1) (map f l2)), (value_left a (b + 1) l2) by (by apply seg_map || done || lia). apply value_map.
    + rewrite (value_right a (b + 1) (map f l2)), (value_right a (b + 1) l2) by (by apply seg_map || done || lia). done.
  - by rewrite !(value_left 1 a l1) by (done || lia).
Qed.

End Update.

(** ** What a policy says of one port *)

Definition accept_value (fam : af_t) (v : Z * bool) : Z * bool := let '(c, a) := v in if negb a && (c <=? family_reject_count fam) then (c, true) else v.
Definition reject_value (count : Z) (v : Z * bool) : Z * bool := let '(c, a) := v in (if c <=? UINT64_MAX - count then c + count else UINT64_MAX, a).

Section Reference.

Variables ptr1 ptr2 : Z.

Definition private_entry (p : addr_policy_t) : bool := match is_private_net ptr1 ptr2 p private_nets with Ok b => b | _ => false end.

(** One entry: an entry for all addresses accepts the port unless too many were rejected before, and a network that is not private is counted. *)
Definition port_step (fam : af_t) (port : Z) (v : Z * bool) (p : addr_policy_t) : Z * bool :=
  if negb (bool_decide (family (addr p) = fam)) || negb ((prt_min p <=? port) && (port <=? prt_max p)) then v
  else if is_accept_entry p then if maskbits p =? 0 then accept_value fam v else v
  else if private_entry p then v
  else match reject_amount fam (maskbits p) with Some count => reject_value count v | None => v end.

Definition port_summary (fam : af_t) (policy : list addr_policy_t) (port : Z) : Z * bool := fold_left (port_step fam port) policy (0, false).

(** An entry with a range of ports. *)
Record entry_ok (p : addr_policy_t) : Prop := mk_entry_ok { eo_policy : policy_ok p; eo_ports : 1 <= prt_min p <= prt_max p; eo_max : prt_max p <= 65535 }.

Lemma private_net_total p : addr_ok (addr p) -> exists b, is_private_net ptr1 ptr2 p private_nets = Ok b.
Proof.
  intros Hp. assert (Forall (fun net => exists a bits r, tor_addr_parse_mask_ports net 0 true false false = Ok (mkpat a (Some bits) r) /\ addr_ok a) private_nets) as Hnets.
  { repeat constructor; (eexists _, _, _; split; [vm_compute; reflexivity|]); (split; [by left + by right|done|repeat constructor; unfold is_byte; lia]). }
  induction Hnets as [|net nets (a & bits & r & E & Ha) _ IH]; [by exists false|]. cbn [is_private_net]. rewrite E.
  destruct (masked_ok ptr1 ptr2 (addr p) a 128 Hp Ha) as (c & Ec & _); [lia|]. unfold tor_addr_compare. rewrite Ec. cbn [cbind]. destruct (_ && _); [by exists true|done].
Qed.

Lemma add_item_ok fam l p :
  seg 1 65536 l -> entry_ok p -> family (addr p) = fam ->
  exists l', policy_summary_add_item ptr1 ptr2 l p = Ok l' /\ seg 1 65536 l' /\ (length l' <= length l + 2)%nat /\
    forall port, 1 <= port <= 65535 -> value l' port = option_map (fun v => port_step fam port v p) (value l port).
Proof.
  intros Hl [[Hp Hm] Hports Hmax] Hf.
  assert (Hid : forall port (h : Z * bool -> Z * bool), (forall v, h v = v) -> option_map h (value l port) = value l port) by (intros port h Hh; destruct (value l port); cbn; by rewrite ?Hh).
  assert (Hstep : forall port v, port_step fam port v p = if (prt_min p <=? port) && (port <=? prt_max p) then
      (if is_accept_entry p then if maskbits p =? 0 then accept_value fam v else v else if private_entry p then v
       else match reject_amount fam (maskbits p) with Some count => reject_value count v | None => v end) else v).
  { intros port v. unfold port_step. rewrite bool_decide_true by done. cbn [negb orb]. by destruct (_ && _). }
  destruct (private_net_total p Hp) as [b Eb].
  destruct (summary_split_ok l (prt_min p) (prt_max p) Hl) as (l1 & l2 & l3 & Es & H1 & H2 & H3 & Hv & Hlen); [lia|lia|].
  assert (Hupd : forall f g, (forall it, s_min (f it) = s_min it) -> (forall it, s_max (f it) = s_max it) -> (forall it, item_value (f it) = g (item_value it)) ->
    (forall port v, port_step fam port v p = if (prt_min p <=? port) && (port <=? prt_max p) then g v else v) ->
    exists l', update_range (S (length (l1 ++ l2 ++ l3))) f (l1 ++ l2 ++ l3) (zlen l1) (prt_max p) = Ok l' /\ seg 1 65536 l' /\ (length l' <= length l + 2)%nat /\
      forall port, 1 <= port <= 65535 -> value l' port = option_map (fun v => port_step fam port v p) (value l port)).
  { intros f g Hmin Hmx Hval Hg. rewrite (update_range_ok _ f l1 l2 l3 (prt_min p)) by (done || (rewrite !length_app; lia)). eexists. split; [done|].
    destruct (range_updated f g Hmin Hmx Hval l1 l2 l3 _ _ H1 H2 H3) as [Hseg Hvals]. split; [done|]. split; [by rewrite !length_app, length_map in *|].
    intros port Hport. rewrite Hvals, Hv by done. destruct (value l port) as [v|]; cbn; [|by destruct (_ && _)]. rewrite Hg. by destruct (_ && _). }
  unfold policy_summary_add_item. destruct (is_accept_entry p) eqn:Ea.
  - destruct (maskbits p =? 0) eqn:Em.
    + unfold policy_summary_accept. rewrite Es. cbn [cbind]. apply (Hupd _ (accept_value fam)); rewrite ?Hf; [| | |done]; intros it; unfold accept_item, item_value, accept_value; by destruct (_ && _).
    + exists l. split; [done|]. split; [done|]. split; [lia|]. intros port _. symmetry. apply Hid. intros v. rewrite Hstep. by destruct (_ && _).
  - rewrite Eb. cbn [cbind]. assert (private_entry p = b) as Hb by (unfold private_entry; by rewrite Eb). rewrite Hb in Hstep. destruct b; cbn [negb].
    + exists l. split; [done|]. split; [done|]. split; [lia|]. intros port _. symmetry. apply Hid. intros v. rewrite Hstep. by destruct (_ && _).
    + unfold policy_summary_reject. rewrite Es. cbn [cbind]. rewrite Hf. destruct (reject_amount fam (maskbits p)) as [count|].
      * apply (Hupd _ (reject_value count)); done.
      * eexists. split; [done|]. split; [apply seg_app; exists (prt_min p); split; [done|]; apply seg_app; by exists (prt_max p + 1)|]. split; [done|].
        intros port Hport. rewrite Hv by done. symmetry. apply Hid. intros v. rewrite Hstep. by destruct (_ && _).
Qed.

Definition of_family (fam : af_t) (p : addr_policy_t) : bool := bool_decide (family (addr p) = fam).

Lemma summary_loop_ok fam policy : forall l,
  seg 1 65536 l -> Forall entry_ok policy ->
  exists l', summary_loop ptr1 ptr2 fam l policy = Ok l' /\ seg 1 65536 l' /\ (length l' <= length l + 2 * length (List.filter (of_family fam) policy))%nat /\
    forall port, 1 <= port <= 65535 -> value l' port = option_map (fun v => fold_left (port_step fam port) policy v) (value l port).
Proof.
  induction policy as [|p policy IH]; intros l Hl Hpol; [exists l; split; [done|]; split; [done|]; split; [cbn; lia|]; intros port _; by destruct (value l port)|].
  apply Forall_cons in Hpol as [Hp Hpol]. cbn [summary_loop List.filter]. unfold of_family at 1. destruct (bool_decide_reflect (family (addr p) = fam)) as [Hf|Hf]; cbn [negb].
  - destruct (add_item_ok fam l p Hl Hp Hf) as (l1 & E1 & Hl1 & Hlen1 & Hv1). rewrite E1. cbn [cbind]. destruct (IH l1 Hl1 Hpol) as (l2 & E2 & Hl2 & Hlen2 & Hv2).
    exists l2. split; [done|]. split; [done|]. split; [cbn [length]; lia|]. intros port Hport. rewrite Hv2, Hv1 by done. by destruct (value l port).
  - destruct (IH l Hl Hpol) as (l2 & E2 & Hl2 & Hlen2 & Hv2). exists l2. split; [done|]. split; [done|]. split; [done|]. intros port Hport. rewrite Hv2 by done.
    destruct (value l port) as [v|]; [|done]. cbn. unfold port_step at 3. by rewrite bool_decide_false.
Qed.

End Reference.

(** ** Runs of ports *)

(** The ranges that are printed, with their verdict. *)
Fixpoint runs (start : Z) (l : list policy_summary_item_t) : list (bool * (Z * Z)) :=
  match l with
  | [] => []
  | it :: rest =>
      match rest with
      | next :: _ => if Bool.eqb (accepted it) (accepted next) then runs start rest else (accepted it, (start, s_max it)) :: runs (s_min next) rest
      | [] => [(accepted it, (start, s_max it))]
      end
  end.

Definition ranges (b : bool) (rs : list (bool * (Z * Z))) : list (Z * Z) := map snd (List.filter (fun r => Bool.eqb (fst r) b) rs).

Definition range_text (r : Z * Z) : bytes := port_range (fst r) (snd r).

Lemma merge_loop_ok l : forall start acc rej,
  l <> [] -> merge_loop l start acc rej = Ok (acc ++ map range_text (ranges true (runs start l)), rej ++ map range_text (ranges false (runs start l))).
Proof.
  induction l as [|it rest IH]; intros start acc rej Hl; [done|]. cbn [merge_loop runs]. destruct rest as [|next rest].
  - unfold ranges. destruct (accepted it); cbn; by rewrite app_nil_r.
  - destruct (Bool.eqb (accepted it) (accepted next)); [by apply IH|]. unfold ranges in *. destruct (accepted it); rewrite IH by done; cbn; by rewrite <- app_assoc.
Qed.

Definition in_range_of (port : Z) (r : Z * Z) : bool := (fst r <=? port) && (port <=? snd r).

(** Every port is in exactly the runs that have its verdict; the head of the list decides for the ports before it. *)
Lemma runs_ok l : forall start lo hi,
  seg lo hi l -> l <> [] -> start <= lo ->
  Forall (fun r => start <= fst (snd r) <= snd (snd r) /\ snd (snd r) < hi) (runs start l) /\
  forall port, start <= port < hi -> exists b, (if port <? lo then option_map accepted (List.hd_error l) else option_map snd (value l port)) = Some b /\
    existsb (in_range_of port) (ranges b (runs start l)) = true /\ existsb (in_range_of port) (ranges (negb b) (runs start l)) = false.
Proof.
  induction l as [|it rest IH]; intros start lo hi Hs Hl Hstart; [done|]. cbn in Hs. destruct Hs as (H1 & H2 & H3). cbn [runs List.hd_error option_map].
  assert (Hval : forall port, port <= s_max it -> (if port <? lo then Some (accepted it) else option_map snd (value (it :: rest) port)) = Some (accepted it)).
  { intros port Hp. destruct (Z.ltb_spec port lo); [done|]. unfold value. cbn. by rewrite (proj2 (Z.leb_le _ _) Hp). }
  assert (Hval' : forall port, s_max it < port -> (if port <? lo then Some (accepted it) else option_map snd (value (it :: rest) port)) = option_map snd (value rest port)).
  { intros port Hp. rewrite (proj2 (Z.ltb_ge _ _)) by lia. unfold value. cbn. by rewrite (proj2 (Z.leb_gt _ _)) by lia. }
  destruct rest as [|next rest].
  { cbn in H3. split; [constructor; [cbn; lia|constructor]|]. intros port Hp. exists (accepted it). split; [apply Hval; lia|].
    unfold ranges. destruct (accepted it); cbn; unfold in_range_of; cbn; (split; [|done]); blia. }
  pose proof H3 as (Hnext & _ & _). destruct (Bool.eqb (accepted it) (accepted next)) eqn:Eb.
  - apply eqb_prop in Eb. destruct (IH start (s_max it + 1) hi H3) as [Hr Hports]; [done|lia|]. split; [done|]. intros port Hp. destruct (Hports port Hp) as (b & Hb & Hin). exists b. split; [|done].
    destruct (Z.ltb_spec port (s_max it + 1)); [rewrite Hval by lia; rewrite Eb; exact Hb|by rewrite Hval' by lia].
  - destruct (IH (s_min next) (s_max it + 1) hi H3) as [Hr Hports]; [done|lia|]. pose proof (seg_le _ _ _ H3). split.
    + constructor; [cbn; lia|]. eapply Forall_weaken; [exact Hr|]. intros r ?. cbv beta in *. lia.
    + intros port Hp. destruct (Z.leb_spec port (s_max it)) as [Hle|Hgt].
      * exists (accepted it). split; [by apply Hval|]. assert (forall b, existsb (in_range_of port) (ranges b (runs (s_min next) (next :: rest))) = false) as Hno.
        { intros b. apply not_true_iff_false. intros (r & Hin & Hrp)%existsb_exists. unfold ranges in Hin. apply in_map_iff in Hin as (x & <- & Hx). apply filter_In in Hx as [Hx _].
          rewrite List.Forall_forall in Hr. specialize (Hr x Hx). unfold in_range_of in Hrp. cbv beta in Hr. blia. }
        unfold ranges in *. cbn [List.filter fst]. rewrite eqb_reflx. destruct (accepted it); cbn; rewrite Hno; unfold in_range_of; cbn; (split; [|apply Hno]); blia.
      * destruct (Hports port) as (b & Hb & Hin1 & Hin2); [lia|]. rewrite (proj2 (Z.ltb_ge _ _)) in Hb by lia. exists b. split; [by rewrite Hval'|].
        unfold ranges in *. cbn [List.filter fst]. assert (in_range_of port (start, s_max it) = false) as Hout by (unfold in_range_of; cbn; blia).
        split; [destruct (Bool.eqb (accepted it) b)|destruct (Bool.eqb (accepted it) (negb b))]; cbn [map snd existsb]; by rewrite ?Hout.
Qed.

(** ** Reading a short policy *)

Definition range_valid (r : Z * Z) : Prop := 1 <= fst r <= snd r /\ snd r <= 65535.

Definition ranges_text (rs : list (Z * Z)) : bytes := join_fill (map range_text rs) [44].

Lemma ranges_text_cons r rs : ranges_text (r :: rs) = range_text r ++ match rs with [] => [] | _ => 44 :: ranges_text rs end.
Proof. unfold ranges_text. cbn. by destruct rs. Qed.

Lemma dec_cur n t : 0 <= n -> cur (dec n ++ t) <> 0.
Proof. intros Hn. destruct (dec_digits_of n Hn) as (H1 & H2 & _). destruct (dec n) as [|d ds]; [done|]. apply Forall_cons in H2 as [Hd _]. cbn. lia. Qed.

Lemma short_loop_step fuel r t acc :
  range_valid r -> cur t = 0 \/ cur t = 44 -> zlen acc < MAX_EXITPOLICY_SUMMARY_LEN ->
  short_policy_loop (S fuel) (range_text r ++ t) acc = short_policy_loop fuel (if cur t =? 44 then tail t else t) (acc ++ [r]).
Proof.
  destruct r as [lo hi]. unfold range_valid, range_text, port_range. cbn [fst snd]. intros Hr Ht Hacc. cbn [short_policy_loop].
  assert (Hu : forall n, 0 <= n <= 65535 -> u32 n = n) by (intros n Hn; unfold u32; apply Z.mod_small; lia).
  assert (is_digit_of 10 (cur t) = false) as Hd by (by destruct Ht as [-> | ->]).
  rewrite (proj2 (Z.eqb_neq (zlen acc) _)) by lia. destruct (Z.eqb_spec lo hi) as [->|Hne].
  - rewrite (proj2 (Z.eqb_neq _ _)) by (apply dec_cur; lia). rewrite tor_parse_ulong_dec by (done || (unfold LONG_MAX; lia)). cbn [p_next p_ok p_val negb].
    rewrite Hu by lia. destruct Ht as [Ht|Ht]; rewrite Ht; cbn [Z.eqb Pos.eqb]; done.
  - rewrite <- !app_assoc. cbn [app]. rewrite (proj2 (Z.eqb_neq _ _)) by (apply dec_cur; lia). rewrite tor_parse_ulong_dec by (done || (unfold LONG_MAX; lia)). cbn [p_next p_ok p_val negb].
    rewrite Hu by lia. cbn [cur hd Z.eqb Pos.eqb tail]. rewrite tor_parse_ulong_dec by (done || (unfold LONG_MAX; lia)). cbn [p_next p_ok p_val negb].
    rewrite Hu by lia. destruct Ht as [Ht|Ht]; rewrite Ht; cbn [Z.eqb Pos.eqb]; done.
Qed.

Lemma short_loop_ok rs : forall fuel acc,
  Forall range_valid rs -> (length rs < fuel)%nat -> zlen acc + zlen rs <= MAX_EXITPOLICY_SUMMARY_LEN ->
  short_policy_loop fuel (ranges_text rs) acc = Ok (acc ++ rs).
Proof.
  induction rs as [|r rs IH]; intros fuel acc Hrs Hf Hlen; (destruct fuel as [|fuel]; [cbn in Hf; lia|]); [by rewrite app_nil_r|].
  apply Forall_cons in Hrs as [Hr Hrs]. rewrite zlen_cons in Hlen. pose proof (zlen_nonneg rs). rewrite ranges_text_cons, short_loop_step; [|done|by destruct rs; [left|right]|lia].
  specialize (IH fuel (acc ++ [r]) Hrs). rewrite zlen_app, <- app_assoc in IH. change (zlen [r]) with 1 in IH. cbn [length] in Hf.
  destruct rs; cbn [cur hd Z.eqb Pos.eqb tail]; apply IH; lia.
Qed.

Lemma parse_short_ok (b : bool) rs :
  rs <> [] -> Forall range_valid rs -> zlen rs <= MAX_EXITPOLICY_SUMMARY_LEN ->
  parse_short_policy ((if b then s2b "accept " else s2b "reject ") ++ ranges_text rs) = Ok (mkshort b rs).
Proof.
  intros Hne Hrs Hlen. unfold parse_short_policy.
  assert (length rs < S (length (ranges_text rs)))%nat as Hfuel.
  { clear Hne Hlen. induction Hrs as [|r rs Hr Hrs IH]; [cbn; lia|]. rewrite ranges_text_cons, length_app. destruct r as [lo hi]. unfold range_valid in Hr. cbn [fst snd] in Hr.
    assert (0 < length (range_text (lo, hi)))%nat.
    { unfold range_text, port_range. cbn [fst snd]. destruct (dec_digits_of lo) as (H1 & _); [lia|]. destruct (dec lo); [done|]. destruct (lo =? hi); rewrite ?length_app; cbn; lia. }
    destruct rs; cbn [length] in *; lia. }
  assert ((zlen rs =? 0) = false) as Hz by (apply Z.eqb_neq; destruct rs; [done|]; rewrite zlen_cons; pose proof (zlen_nonneg rs); lia).
  pose proof (short_loop_ok rs (S (length (ranges_text rs))) [] Hrs Hfuel) as Hloop. cbn [app] in Hloop. change (zlen (@nil (Z * Z))) with 0 in Hloop.
  destruct b; [change (strcmpstart (s2b "accept " ++ ranges_text rs) (s2b "accept ") =? 0) with true
             |change (strcmpstart (s2b "reject " ++ ranges_text rs) (s2b "accept ") =? 0) with false; change (strcmpstart (s2b "reject " ++ ranges_text rs) (s2b "reject ") =? 0) with true];
    cbv iota; cbn [cbind]; [change (drop 7 (s2b "accept " ++ ranges_text rs)) with (ranges_text rs)|change (drop 7 (s2b "reject " ++ ranges_text rs)) with (ranges_text rs)]; rewrite Hloop by lia; cbn [cbind]; by rewrite Hz.
Qed.

(** ** The text of a summary *)

Lemma range_text_facts r : range_valid r -> 44 ∉ range_text r /\ 1 <= zlen (range_text r) <= 11.
Proof.
  destruct r as [lo hi]. unfold range_valid, range_text, port_range. cbn [fst snd]. intros Hr. destruct (port_text lo) as (Hd1 & Hn1 & Hl1); [lia|]. destruct (port_text hi) as (Hd2 & Hn2 & Hl2); [lia|].
  assert (forall ds, dec_digits ds -> 44 ∉ ds) as Hc by (intros ds Hds Hin; unfold dec_digits in Hds; rewrite List.Forall_forall in Hds; apply list_elem_of_In, Hds in Hin; cbn in Hin; lia).
  assert (forall ds : bytes, ds <> [] -> 1 <= zlen ds) as Hpos by (intros [|d ds] Hds; [done|]; rewrite zlen_cons; pose proof (zlen_nonneg ds); lia). pose proof (Hpos _ Hn1). pose proof (Hpos _ Hn2).
  destruct (lo =? hi); [split; [by apply Hc|lia]|]. split.
  - rewrite !elem_of_app. intros [H1|[H1|H1]]; [exact (Hc _ Hd1 H1)|apply list_elem_of_singleton in H1; lia|exact (Hc _ Hd2 H1)].
  - rewrite !zlen_app. change (zlen [45]) with 1. lia.
Qed.

Lemma ranges_text_len rs : Forall range_valid rs -> zlen rs <= zlen (ranges_text rs) /\ zlen (ranges_text rs) <= Z.max 0 (12 * zlen rs - 1).
Proof.
  induction 1 as [|r rs Hr Hrs IH]; [split; by vm_compute|]. rewrite ranges_text_cons, zlen_app, zlen_cons. destruct (range_text_facts r Hr) as [_ Hl]. pose proof (zlen_nonneg rs).
  destruct rs as [|r' rs]; [change (zlen (@nil Z)) with 0; change (zlen (@nil (Z * Z))) with 0; lia|]. rewrite (zlen_cons 44). rewrite zlen_cons in *. pose proof (zlen_nonneg rs). lia.
Qed.

Lemma cut_at_comma rs : forall c, Forall range_valid rs -> nth c (ranges_text rs) 0 = 44 -> exists rs1 rs2, rs = rs1 ++ rs2 /\ rs1 <> [] /\ take c (ranges_text rs) = ranges_text rs1.
Proof.
  induction rs as [|r rs IH]; intros c Hrs Hc; [by destruct c|]. apply Forall_cons in Hrs as [Hr Hrs]. destruct (range_text_facts r Hr) as [Hno _]. rewrite ranges_text_cons in Hc |- *.
  destruct (Nat.lt_ge_cases c (length (range_text r))) as [Hlt|Hge].
  { rewrite app_nth1 in Hc by done. exfalso. apply Hno. rewrite <- Hc. apply list_elem_of_In, nth_In. done. }
  rewrite app_nth2 in Hc by lia. destruct rs as [|r' rs]; [by destruct (c - length (range_text r))%nat|].
  destruct (c - length (range_text r))%nat as [|k] eqn:Ek.
  - exists [r], (r' :: rs). split; [done|]. split; [done|]. rewrite take_app_le, take_ge by lia. rewrite ranges_text_cons. by rewrite app_nil_r.
  - cbn [nth] in Hc. destruct (IH k Hrs Hc) as (rs1 & rs2 & E & Hne & Ht). exists (r :: rs1), rs2. split; [by rewrite E|]. split; [done|].
    rewrite take_app, take_ge, Ek by lia. cbn [take]. rewrite Ht, ranges_text_cons. by destruct rs1.
Qed.

Lemma back_to_comma_ok s c : (exists j, (j <= c)%nat /\ nth j s 0 = 44) -> exists c', back_to_comma s c = Ok c' /\ (c' <= c)%nat /\ nth c' s 0 = 44.
Proof.
  induction c as [|c IH]; intros (j & Hj & Hn); cbn [back_to_comma].
  - replace j with 0%nat in Hn by lia. rewrite Hn. by exists 0%nat.
  - destruct (Z.eqb_spec (nth (S c) s 0) 44) as [E|E]; [by exists (S c)|]. destruct IH as (c' & Ec & Hc & Hn'); [exists j; split; [|done]|exists c'; split; [done|]; split; [lia|done]].
    destruct (Nat.eq_dec j (S c)) as [->|]; [done|lia].
Qed.

(** What is read back from the text: one of the two lists, or the beginning of the accepted ranges if both are too long. *)
Definition summary_read (A R : list (Z * Z)) (sp : short_policy_t) : Prop :=
  (A = [] /\ sp = mkshort false [(1, 65535)]) \/ (R = [] /\ sp = mkshort true [(1, 65535)]) \/ sp = mkshort false R \/ sp = mkshort true A \/
  (exists more, A = entries sp ++ more /\ is_accept sp = true /\ 82 < zlen A /\ 82 < zlen R).

Lemma summary_text_ok A R :
  Forall range_valid A -> Forall range_valid R ->
  exists t sp, summary_text (map range_text A) (map range_text R) = Ok t /\ zlen t <= MAX_EXITPOLICY_SUMMARY_LEN /\ parse_short_policy t = Ok sp /\ summary_read A R sp.
Proof.
  intros HA HR. unfold summary_text. assert (forall l : list (Z * Z), zlen (map range_text l) = zlen l) as Hmap by (intros l; unfold zlen; by rewrite length_map). rewrite !Hmap.
  assert (forall l : list (Z * Z), l <> [] -> (zlen l =? 0) = false) as Hne by (intros [|x l] Hl; [done|]; apply Z.eqb_neq; rewrite zlen_cons; pose proof (zlen_nonneg l); lia).
  destruct (decide (A = [])) as [->|HneA]; [eexists _, (mkshort false [(1, 65535)]); split; [done|]; split; [by vm_compute|]; split; [reflexivity|by left]|]. rewrite (Hne A HneA).
  destruct (decide (R = [])) as [->|HneR]; [eexists _, (mkshort true [(1, 65535)]); split; [done|]; split; [by vm_compute|]; split; [reflexivity|by right; left]|]. rewrite (Hne R HneR).
  unfold smartlist_join_strings. rewrite !join_strings2_total, !app_nil_r. cbn [cbind]. fold (ranges_text A) (ranges_text R). change (MAX_EXITPOLICY_SUMMARY_LEN - 6 - 1) with 993.
  destruct (ranges_text_len A HA) as [HlA HuA]. destruct (ranges_text_len R HR) as [HlR HuR].
  assert (forall (b : bool) rs, rs <> [] -> Forall range_valid rs -> zlen (ranges_text rs) <= 993 ->
    zlen ((if b then s2b "accept " else s2b "reject ") ++ ranges_text rs) <= MAX_EXITPOLICY_SUMMARY_LEN /\ parse_short_policy ((if b then s2b "accept " else s2b "reject ") ++ ranges_text rs) = Ok (mkshort b rs)) as Hparse.
  { intros b rs Hrs Hv Hl. destruct (ranges_text_len rs Hv). unfold MAX_EXITPOLICY_SUMMARY_LEN in *. split; [|apply parse_short_ok; [done|done|unfold MAX_EXITPOLICY_SUMMARY_LEN; lia]].
    rewrite zlen_app. replace (zlen (if b then _ else _)) with 7 by (by destruct b). lia. }
  destruct ((993 <? zlen (ranges_text R)) && _) eqn:Elong.
  - assert (993 < zlen (ranges_text R) /\ 993 < zlen (ranges_text A)) as [HR993 HA993] by blia. destruct A as [|r1 [|r2 A]]; [done|change (zlen [r1]) with 1 in *; lia|].
    assert (range_valid r1) as Hr1 by (by apply Forall_cons in HA as [? _]). destruct (range_text_facts r1 Hr1) as [_ Hl1].
    destruct (back_to_comma_ok (ranges_text (r1 :: r2 :: A)) (Z.to_nat 993)) as (c & Ec & Hc & Hn).
    { exists (length (range_text r1)). unfold zlen in Hl1. split; [lia|]. rewrite ranges_text_cons, app_nth2, Nat.sub_diag by lia. done. }
    rewrite Ec. cbn [cbind]. destruct (cut_at_comma _ c HA Hn) as (rs1 & rs2 & E & Hne1 & Ht). rewrite Ht. assert (Forall range_valid rs1) as Hv1 by (rewrite E in HA; by apply Forall_app in HA as [? _]).
    destruct (Hparse true rs1 Hne1 Hv1) as [Hz Hp]; [rewrite <- Ht; unfold zlen; rewrite length_take; lia|]. eexists _, _. split; [done|]. split; [done|]. split; [exact Hp|].
    do 4 right. exists rs2. split; [done|]. split; [done|]. lia.
  - destruct (Z.ltb_spec (zlen (ranges_text R)) (zlen (ranges_text A))).
    + destruct (Hparse false R HneR HR) as [Hz Hp]; [blia|]. eexists _, _. split; [done|]. split; [done|]. split; [exact Hp|]. by do 2 right; left.
    + destruct (Hparse true A HneA HA) as [Hz Hp]; [blia|]. eexists _, _. split; [done|]. split; [done|]. split; [exact Hp|]. by do 3 right; left.
Qed.

Lemma runs_length l : forall start, (length (runs start l) <= length l)%nat.
Proof.
  induction l as [|it rest IH]; intros start; [done|]. cbn [runs]. destruct rest as [|next rest]; [done|].
  destruct (Bool.eqb _ _); [specialize (IH start)|specialize (IH (s_min next))]; cbn [length] in *; lia.
Qed.

Lemma ranges_length rs : zlen (ranges true rs) + zlen (ranges false rs) = zlen rs.
Proof.
  unfold ranges, zlen. rewrite !length_map. induction rs as [|[b r] rs IH]; [done|]. cbn [List.filter fst]. destruct b; cbn [Bool.eqb length]; lia.
Qed.

Definition short_accepts (sp : short_policy_t) (port : Z) : bool := if existsb (in_range_of port) (entries sp) then is_accept sp else negb (is_accept sp).

Lemma compare_short_ok sp port :
  port <> 0 -> compare_tor_addr_to_short_policy false None port sp = Ok (if short_accepts sp port then ADDR_POLICY_PROBABLY_ACCEPTED else ADDR_POLICY_REJECTED).
Proof.
  intros Hp. unfold compare_tor_addr_to_short_policy, short_accepts. rewrite (proj2 (Z.eqb_neq _ _) Hp). cbn [negb].
  replace (existsb (fun '(lo, hi) => (lo <=? port) && (port <=? hi)) (entries sp)) with (existsb (in_range_of port) (entries sp)); [done|].
  induction (entries sp) as [|[lo hi] es IH]; [done|]. cbn. by rewrite IH.
Qed.

(** The short policy that is read back against the verdict [v] for a port. *)
Lemma summary_read_ok A R sp port (v : bool) :
  summary_read A R sp -> 1 <= port <= 65535 ->
  existsb (in_range_of port) (if v then A else R) = true -> existsb (in_range_of port) (if v then R else A) = false ->
  (short_accepts sp port = true -> v = true) /\ (zlen A <= 82 \/ zlen R <= 82 -> v = true -> short_accepts sp port = true).
Proof.
  intros Hread Hp H1 H2. unfold short_accepts. assert (in_range_of port (1, 65535) = true) as Hall by (unfold in_range_of; cbn; blia).
  destruct Hread as [[-> ->]|[[-> ->]|[->|[->|(more & HA & Ha & Hl1 & Hl2)]]]]; cbn [entries is_accept existsb]; rewrite ?Hall.
  - by destruct v.
  - by destruct v.
  - destruct v; [rewrite H2|rewrite H1]; done.
  - destruct v; [rewrite H1|rewrite H2]; done.
  - rewrite Ha. split; [|lia]. destruct v; [done|]. rewrite HA, existsb_app in H2. apply orb_false_iff in H2 as [-> _]. done.
Qed.

Section Theorems.

Variables ptr1 ptr2 : Z.

Lemma summary_reads_back fam policy :
  Forall entry_ok policy ->
  exists t sp, policy_summarize ptr1 ptr2 policy fam = Ok t /\ zlen t <= MAX_EXITPOLICY_SUMMARY_LEN /\ parse_short_policy t = Ok sp /\
    forall port, 1 <= port <= 65535 ->
      (short_accepts sp port = true -> snd (port_summary ptr1 ptr2 fam policy port) = true) /\
      ((length (List.filter (of_family fam) policy) <= 82)%nat -> snd (port_summary ptr1 ptr2 fam policy port) = true -> short_accepts sp port = true).
Proof.
  intros Hpol. unfold policy_summarize. destruct (summary_loop_ok ptr1 ptr2 fam policy policy_summary_create) as (l & El & Hl & Hlen & Hv); [by cbn; lia|done|]. rewrite El. cbn [cbind].
  assert (l <> []) as Hne by (intros ->; cbn in Hl; lia). rewrite merge_loop_ok by done. cbn [cbind app]. destruct (runs_ok l 1 1 65536 Hl Hne) as [Hvalid Hports]; [done|].
  set (rs := runs 1 l) in *. assert (forall b, Forall range_valid (ranges b rs)) as Hr.
  { intros b. apply List.Forall_forall. intros r Hin. unfold ranges in Hin. apply in_map_iff in Hin as (x & <- & Hx). apply filter_In in Hx as [Hx _].
    rewrite List.Forall_forall in Hvalid. specialize (Hvalid x Hx). unfold range_valid. cbv beta in Hvalid. lia. }
  destruct (summary_text_ok (ranges true rs) (ranges false rs) (Hr true) (Hr false)) as (t & sp & Et & Htl & Hp & Hread). exists t, sp. split; [done|]. split; [done|]. split; [done|].
  intros port Hport. destruct (Hports port) as (v & Hval & Hin1 & Hin2); [lia|]. rewrite (proj2 (Z.ltb_ge _ _)), Hv in Hval by lia.
  assert (snd (port_summary ptr1 ptr2 fam policy port) = v) as Hsum.
  { unfold value in Hval. cbn [policy_summary_create List.find s_max] in Hval. rewrite (proj2 (Z.leb_le port 65535)) in Hval by lia. cbn in Hval. by injection Hval as <-. }
  rewrite Hsum. destruct (summary_read_ok (ranges true rs) (ranges false rs) sp port v Hread Hport) as [Ha Hb]; [by destruct v|by destruct v|]. split; [done|].
  intros Hsmall. apply Hb. pose proof (runs_length l 1) as Hrl. fold rs in Hrl. pose proof (ranges_length rs) as Hrr. unfold zlen in *. cbn [policy_summary_create length] in Hlen. lia.
Qed.

(** C23. The summary of a policy without entries for port 0 (these fail an assertion, [port_zero_aborts_summary]) says what it should of every port: it can be made, fits into its bound, and the short policy
    that a client reads from it accepts only ports that the policy accepts for all addresses but few, and exactly those unless the policy has more than 82 entries of the family. *)
Theorem summary_tells_ports fam policy :
  Forall entry_ok policy ->
  exists t sp, policy_summarize ptr1 ptr2 policy fam = Ok t /\ zlen t <= MAX_EXITPOLICY_SUMMARY_LEN /\ parse_short_policy t = Ok sp /\
    forall port, 1 <= port <= 65535 -> exists r, compare_tor_addr_to_short_policy false None port sp = Ok r /\
      (r = ADDR_POLICY_PROBABLY_ACCEPTED -> snd (port_summary ptr1 ptr2 fam policy port) = true) /\
      ((length (List.filter (of_family fam) policy) <= 82)%nat -> snd (port_summary ptr1 ptr2 fam policy port) = true -> r = ADDR_POLICY_PROBABLY_ACCEPTED).
Proof.
  intros Hpol. destruct (summary_reads_back fam policy Hpol) as (t & sp & Et & Htl & Hp & Hports). exists t, sp. split; [done|]. split; [done|]. split; [done|].
  intros port Hport. rewrite compare_short_ok by lia. eexists. split; [done|]. destruct (Hports port Hport) as [H1 H2]. split.
  - destruct (short_accepts sp port); [auto|done].
  - intros Hs Hsum. by rewrite H2.
Qed.

(** ** What an accepted port means *)

(** The networks that are counted for a port. *)
Definition counted (fam : af_t) (port : Z) (p : addr_policy_t) : bool :=
  of_family fam p && ((prt_min p <=? port) && (port <=? prt_max p)) && negb (is_accept_entry p) && negb (private_entry ptr1 ptr2 p) && bool_decide (is_Some (reject_amount fam (maskbits p))).

Definition amount (fam : af_t) (p : addr_policy_t) : Z := default 0 (reject_amount fam (maskbits p)).

Definition total_amount (fam : af_t) (l : list addr_policy_t) : Z := foldr (fun p n => amount fam p + n) 0 l.

Lemma amount_nonneg fam p : 0 <= amount fam p.
Proof. unfold amount, reject_amount. destruct (_ <? _); [done|]. cbn. destruct (_ <=? _); [done|]. apply Z.shiftl_nonneg. lia. Qed.

Lemma total_nonneg fam l : 0 <= total_amount fam l.
Proof. induction l as [|p l IH]; [done|]. cbn. pose proof (amount_nonneg fam p). fold (total_amount fam l). lia. Qed.

Lemma step_count fam port c a p :
  0 <= c <= UINT64_MAX -> fst (port_step ptr1 ptr2 fam port (c, a) p) = if counted fam port p then Z.min (c + amount fam p) UINT64_MAX else c.
Proof.
  intros Hc. unfold port_step, counted, of_family. destruct (bool_decide (family (addr p) = fam)); cbn [negb orb andb]; [|done].
  destruct (_ && (port <=? _)); cbn [negb andb]; [|done]. destruct (is_accept_entry p); cbn [negb andb].
  { destruct (maskbits p =? 0); [unfold accept_value; by destruct (_ && _)|done]. }
  destruct (private_entry ptr1 ptr2 p); cbn [negb andb]; [done|]. unfold amount. destruct (reject_amount fam (maskbits p)) as [k|] eqn:Ek; [|done].
  rewrite bool_decide_true by eauto. unfold reject_value. cbn [fst]. change (default 0 (Some k)) with k. destruct (Z.leb_spec c (UINT64_MAX - k)); lia.
Qed.

(** The count is the sum of the amounts, up to its maximum. *)
Lemma count_is_total fam port l : forall v,
  0 <= fst v <= UINT64_MAX -> fst (fold_left (port_step ptr1 ptr2 fam port) l v) = Z.min (fst v + total_amount fam (List.filter (counted fam port) l)) UINT64_MAX.
Proof.
  induction l as [|p l IH]; intros [c a] Hc; cbn [fst] in *; [cbn; lia|]. cbn [fold_left List.filter]. pose proof (step_count fam port c a p Hc) as Hs. pose proof (amount_nonneg fam p).
  pose proof (total_nonneg fam (List.filter (counted fam port) l)).
  rewrite IH, Hs by (rewrite Hs; destruct (counted fam port p); lia). destruct (counted fam port p); [|done]. cbn [total_amount foldr]. fold (total_amount fam (List.filter (counted fam port) l)). lia.
Qed.

(** A port is accepted by an entry for all addresses, before which few were rejected. *)
Lemma accepted_by fam port l : forall v,
  snd v = false -> snd (fold_left (port_step ptr1 ptr2 fam port) l v) = true ->
  exists pre p post, l = pre ++ p :: post /\ fst (fold_left (port_step ptr1 ptr2 fam port) pre v) <= family_reject_count fam /\
    is_accept_entry p = true /\ maskbits p = 0 /\ family (addr p) = fam /\ prt_min p <= port <= prt_max p.
Proof.
  induction l as [|p l IH]; intros [c a] Ha Hacc; cbn [snd] in *; [cbn in Hacc; congruence|]. subst a. cbn [fold_left] in Hacc.
  destruct (port_step ptr1 ptr2 fam port (c, false) p) as [c' [|]] eqn:Es.
  - exists [], p, l. split; [done|]. cbn. unfold port_step in Es. destruct (bool_decide_reflect (family (addr p) = fam)); cbn [negb orb] in Es; [|congruence].
    destruct (_ && (port <=? _)) eqn:Ep; cbn [negb] in Es; [|congruence]. destruct (is_accept_entry p).
    + destruct (Z.eqb_spec (maskbits p) 0); [|congruence]. unfold accept_value in Es. cbn [negb andb] in Es. destruct (Z.leb_spec c (family_reject_count fam)); [|congruence].
      split; [done|]. split; [done|]. split; [done|]. split; [done|]. blia.
    + destruct (private_entry ptr1 ptr2 p); [congruence|]. destruct (reject_amount fam (maskbits p)); [unfold reject_value in Es|]; congruence.
  - destruct (IH (c', false) eq_refl Hacc) as (pre & q & post & -> & Hcnt & Hq). exists (p :: pre), q, post. split; [done|]. cbn [fold_left]. by rewrite Es.
Qed.

(** What a client learns from a summary: on a port that the short policy accepts, the policy of the relay rejects no address but those in its
    private networks, in networks too small to count and in the networks [nets], which together have at most as many addresses (for IPv6, as many /64 networks) as the cutoff. *)
Theorem accepted_port_rejects_few fam policy t sp port :
  Forall entry_ok policy -> policy_summarize ptr1 ptr2 policy fam = Ok t -> parse_short_policy t = Ok sp -> 1 <= port <= 65535 ->
  compare_tor_addr_to_short_policy false None port sp = Ok ADDR_POLICY_PROBABLY_ACCEPTED ->
  exists nets, nets `sublist_of` policy /\ Forall (fun p => counted fam port p = true) nets /\ total_amount fam nets <= family_reject_count fam /\
    forall x, addr_ok x -> family x = fam -> compare_known_tor_addr_to_addr_policy ptr1 ptr2 x port policy = Ok ADDR_POLICY_REJECTED ->
      exists q, q ∈ policy /\ hits x port q = true /\ (private_entry ptr1 ptr2 q = true \/ reject_amount fam (maskbits q) = None \/ q ∈ nets).
Proof.
  intros Hpol Ht Hsp Hport Hc. destruct (summary_reads_back fam policy Hpol) as (t' & sp' & Et & _ & Hp & Hports). rewrite Ht in Et. injection Et as <-. rewrite Hsp in Hp. injection Hp as <-.
  rewrite compare_short_ok in Hc by lia. destruct (Hports port Hport) as [Hacc _]. destruct (short_accepts sp port); [|done]. specialize (Hacc eq_refl).
  destruct (accepted_by fam port policy (0, false) eq_refl Hacc) as (pre & p & post & -> & Hcnt & Hpa & Hp0 & Hpf & Hpp). rewrite count_is_total in Hcnt by (cbn; unfold UINT64_MAX; lia). cbn [fst] in Hcnt.
  exists (List.filter (counted fam port) pre). split; [apply sublist_inserts_r; clear; induction pre as [|q pre IH]; [done|]; cbn; destruct (counted fam port q); by constructor|].
  split; [apply List.Forall_forall; by intros q [_ Hq]%filter_In|]. split.
  { assert (family_reject_count fam < UINT64_MAX) by (unfold family_reject_count; destruct (bool_decide _); done). lia. }
  intros x Hx Hxf Hrej. assert (Forall policy_ok (pre ++ p :: post)) as Hok by (eapply Forall_weaken; [exact Hpol|]; by intros q []).
  rewrite compare_known_ok in Hrej by done. unfold accepts in Hrej.
  assert (hits x port p = true) as Hhit.
  { unfold hits. rewrite Hp0, matches_all; [cbn [andb]; blia|done| |congruence]. apply Forall_app in Hok as [_ Hok]. by apply Forall_cons in Hok as [[? _] _]. }
  destruct (List.find (hits x port) pre) as [q|] eqn:Eq.
  - apply List.find_some in Eq as Hq. destruct Hq as [Hin Hqh]. exists q. split; [apply elem_of_app; left; by apply list_elem_of_In|]. split; [done|].
    assert (List.find (hits x port) (pre ++ p :: post) = Some q) as E by (clear -Eq; induction pre as [|y pre IH]; [done|]; cbn in *; destruct (hits x port y); [done|auto]). rewrite E in Hrej.
    destruct (private_entry ptr1 ptr2 q) eqn:Epriv; [by left|]. right. destruct (reject_amount fam (maskbits q)) eqn:Eamt; [|by left]. right. apply list_elem_of_In, filter_In. split; [done|].
    unfold counted, of_family. unfold hits in Hqh. apply andb_true_iff in Hqh as [Hm Hports']. unfold matchesb in Hm. apply andb_true_iff in Hm as [Hf%bool_decide_eq_true _].
    rewrite bool_decide_true, Hports', Epriv, Eamt by congruence. by destruct (is_accept_entry q).
  - assert (List.find (hits x port) (pre ++ p :: post) = Some p) as E by (clear -Eq Hhit; induction pre as [|y pre IH]; cbn in *; [by rewrite Hhit|]; destruct (hits x port y); [done|auto]).
    rewrite E, Hpa in Hrej. done.
Qed.

(** A policy with an entry for port 0, which the parser turns into the range from 1 to 0, cannot be summarised: the assertion in [policy_summary_item_split] fails. *)
Theorem port_zero_aborts_summary fam pre p post :
  Forall entry_ok pre -> addr_ok (addr p) -> family (addr p) = fam -> prt_min p = 1 -> prt_max p = 0 ->
  (if is_accept_entry p then maskbits p = 0 else private_entry ptr1 ptr2 p = false) ->
  policy_summarize ptr1 ptr2 (pre ++ p :: post) fam = Bug.
Proof.
  intros Hpre Hp Hf Hmin Hmax Hk. unfold policy_summarize. destruct (summary_loop_ok ptr1 ptr2 fam pre policy_summary_create) as (l & El & Hl & _); [by cbn; lia|done|].
  assert (summary_loop ptr1 ptr2 fam policy_summary_create (pre ++ p :: post) = let* l := policy_summary_add_item ptr1 ptr2 l p in summary_loop ptr1 ptr2 fam l post) as ->.
  { generalize dependent policy_summary_create. clear Hpre Hl. induction pre as [|q pre IH]; intros l0; cbn [app summary_loop].
    - intros [= ->]. by rewrite bool_decide_true.
    - destruct (negb _); [apply IH|]. destruct (policy_summary_add_item ptr1 ptr2 l0 q); cbn [cbind]; [apply IH|done..]. }
  assert (policy_summary_split l 1 0 = Bug) as Hsplit.
  { destruct l as [|it l]; [cbn in Hl; lia|]. cbn in Hl. destruct Hl as (H1 & H2 & _). unfold policy_summary_split. cbn [length seek_port].
    rewrite (aget_mid [] l it) by done. cbn [cbind]. rewrite (proj2 (Z.ltb_ge _ _)) by lia. cbn [cbind]. rewrite (aget_mid [] l it) by done. cbn [cbind]. rewrite H1. cbn [Z.eqb Pos.eqb negb cbind].
    cbn [length seek_port]. rewrite (aget_mid [] l it) by done. cbn [cbind]. rewrite (proj2 (Z.ltb_ge _ _)) by lia. cbn [cbind]. rewrite (aget_mid [] l it) by done. cbn [cbind].
    rewrite (proj2 (Z.eqb_neq _ _)) by lia. cbn [negb]. unfold split_item_at. rewrite (aget_mid [] l it) by done. cbn [cbind]. unfold policy_summary_item_split. cbn [s_min s_max]. by rewrite H1. }
  unfold policy_summary_add_item, policy_summary_accept, policy_summary_reject. rewrite Hmin, Hmax, Hsplit. destruct (is_accept_entry p).
  - by rewrite (proj2 (Z.eqb_eq _ _) Hk).
  - destruct (private_net_total ptr1 ptr2 p Hp) as [b Eb]. unfold private_entry in Hk. rewrite Eb in Hk |- *. by subst b.
Qed.

End Theorems.

(** A short policy is read back from its text. *)
Theorem short_policy_roundtrip sp :
  entries sp <> [] -> Forall range_valid (entries sp) -> zlen (entries sp) <= MAX_EXITPOLICY_SUMMARY_LEN ->
  exists t, write_short_policy sp = Ok t /\ parse_short_policy t = Ok sp.
Proof.
  intros Hne Hv Hlen. unfold write_short_policy, smartlist_join_strings. rewrite join_strings2_total. eexists. split; [done|]. destruct sp as [b es]. cbn [is_accept entries] in *.
  assert (forall l : list bytes, join_fill l [] = concat l) as Hj by (induction l as [|x l IH]; [done|]; cbn; rewrite IH; by destruct l).
  assert (forall l, concat (short_entries_text l) = ranges_text l) as Ht.
  { induction l as [|[lo hi] l IH]; [done|]. rewrite ranges_text_cons. cbn [short_entries_text]. destruct l as [|r l]; [done|]. cbn [concat]. by rewrite IH. }
  rewrite app_nil_r, Hj. cbn [concat]. rewrite Ht. by apply parse_short_ok.
Qed.

(** ** Examples *)

Lemma ex_entries_ok : Forall entry_ok ex_policy.
Proof. pose proof ex_policy_ok as H. repeat (apply Forall_cons in H as [?H H]; constructor; [split; [done|cbn; lia|cbn; lia]|]). constructor. Qed.

Example ex_summary : policy_summarize 0 0 ex_policy AF_INET = Ok (s2b "accept 443").
Proof. vm_compute. reflexivity. Qed.

Lemma summary_tells_ports_witness : exists t sp r, policy_summarize 0 0 ex_policy AF_INET = Ok t /\ parse_short_policy t = Ok sp /\ compare_tor_addr_to_short_policy false None 443 sp = Ok r /\
  (r = ADDR_POLICY_PROBABLY_ACCEPTED -> snd (port_summary 0 0 AF_INET ex_policy 443) = true).
Proof.
  destruct (summary_tells_ports 0 0 AF_INET ex_policy ex_entries_ok) as (t & sp & Et & _ & Hp & Hports). destruct (Hports 443) as (r & Er & H & _); [lia|]. exists t, sp, r. exact (conj Et (conj Hp (conj Er H))).
Defined.

Lemma accepted_port_rejects_few_witness :
  exists nets, total_amount AF_INET nets <= REJECT_CUTOFF_COUNT_IPV4 /\
    forall x, addr_ok x -> family x = AF_INET -> compare_known_tor_addr_to_addr_policy 0 0 x 443 ex_policy = Ok ADDR_POLICY_REJECTED ->
      exists q, q ∈ ex_policy /\ hits x 443 q = true /\ (private_entry 0 0 q = true \/ reject_amount AF_INET (maskbits q) = None \/ q ∈ nets).
Proof.
  destruct (accepted_port_rejects_few 0 0 AF_INET ex_policy (s2b "accept 443") (mkshort true [(443, 443)]) 443 ex_entries_ok ex_summary) as (nets & _ & _ & Ht & H);
    [reflexivity|lia|reflexivity|]. exists nets. exact (conj Ht H).
Defined.

Definition port_zero_entry : addr_policy_t := mkpol ADDR_POLICY_REJECT false 0 (mkaddr AF_INET [0; 0; 0; 0]) 1 0.

(** The entry is what the parser makes of [reject *:0]. *)
Lemma port_zero_parsed : tor_addr_parse_mask_ports (s2b "*:0") 0 true true true = Ok (mkpat (addr port_zero_entry) (Some (maskbits port_zero_entry)) (Some (prt_min port_zero_entry, prt_max port_zero_entry))).
Proof. vm_compute. reflexivity. Qed.

Lemma port_zero_aborts_summary_witness : policy_summarize 0 0 (ex_policy ++ [port_zero_entry]) AF_INET = Bug.
Proof.
  apply (port_zero_aborts_summary 0 0 AF_INET ex_policy port_zero_entry []); [apply ex_entries_ok| |done..|vm_compute; reflexivity]. split; [by left|done|repeat constructor; unfold is_byte; lia].
Defined.

Lemma short_policy_roundtrip_witness : exists t, write_short_policy (mkshort false [(1, 24); (26, 65535)]) = Ok t /\ parse_short_policy t = Ok (mkshort false [(1, 24); (26, 65535)]).
Proof. apply short_policy_roundtrip; [done|repeat constructor; cbn; lia|done]. Defined.
