(* ===== verification/Runs.v ===== *)
(** * Runs of equal members

    The loops over sorted votes in feature/dirauth/dirvote.c look for stretches of adjacent members that are equal.  [runs] cuts a list into these
    stretches; in a list whose equal members are together, each of them holds every member of its key ([runs_spec]), and they come in the order of the list
    ([runs_sorted]).  With it the most frequent member of a list, as lib/container/smartlist.c finds it, is characterised ([most_frequent_spec]). *)

From S2P Require Import Prelude StrList.
From Stdlib Require Import ZArith Sorting.Sorted.
From stdpp Require Import base list sets numbers sorting.
Open Scope Z_scope.

Section Runs.
Context {A K : Type} `{EqDecision K} (key : A -> K).

Fixpoint runs_from (h : A) (acc l : list A) : list (list A) :=
  match l with
  | [] => [acc]
  | y :: r => if decide (key h = key y) then runs_from h (acc ++ [y]) r else acc :: runs_from y [y] r
  end.

Definition runs (l : list A) : list (list A) := match l with [] => [] | x :: r => runs_from x [x] r end.

(** Members with the same key have only such members between them. *)
Definition grouped_by (l : list A) : Prop :=
  forall l1 x l2 y l3, l = l1 ++ x :: l2 ++ y :: l3 -> key x = key y -> Forall (fun z => key z = key x) l2.

Lemma grouped_by_suffix pre l : grouped_by (pre ++ l) -> grouped_by l.
Proof. intros H l1 x l2 y l3 -> E. apply (H (pre ++ l1) x l2 y l3); [lassoc|done]. Qed.

Lemma sorted_grouped (R : A -> A -> Prop) l :
  StronglySorted R l -> (forall x y z, x ∈ l -> y ∈ l -> z ∈ l -> R x y -> R y z -> key x = key z -> key y = key x) -> grouped_by l.
Proof.
  intros Hs Hm l1 x l2 y l3 -> Ek. apply Forall_forall. intros z Hz.
  assert (StronglySorted R (x :: l2 ++ y :: l3)) as Hx by (clear -Hs; induction l1 as [|a l1 IH]; [done|]; inversion_clear Hs; auto).
  inversion_clear Hx as [|? ? Hl2 Hx2]. rewrite List.Forall_forall in Hx2. apply (Hm x z y).
  - apply elem_of_app. right. by constructor.
  - apply elem_of_app. right. right. apply elem_of_app. by left.
  - apply elem_of_app. right. right. apply elem_of_app. right. by constructor.
  - apply Hx2, list_elem_of_In, elem_of_app. by left.
  - clear -Hl2 Hz. induction l2 as [|a l2 IH]; [by apply not_elem_of_nil in Hz|]. cbn [app] in Hl2. inversion_clear Hl2 as [|? ? Hl Ha].
    apply elem_of_cons in Hz as [->|Hz]; [|by apply IH]. rewrite List.Forall_forall in Ha. apply Ha, list_elem_of_In, elem_of_app. right. by constructor.
  - done.
Qed.

Lemma runs_from_concat h acc l : concat (runs_from h acc l) = acc ++ l.
Proof.
  revert h acc. induction l as [|y l IH]; intros h acc; cbn [runs_from]; [cbn; by rewrite app_nil_r|].
  destruct (decide _); [rewrite IH; lassoc|]. cbn [concat]. by rewrite IH.
Qed.

Lemma runs_concat l : concat (runs l) = l.
Proof. destruct l as [|x l]; [done|]. apply (runs_from_concat x [x]). Qed.

(** A run is over when its key changes. *)
Lemma grouped_over h acc y l : grouped_by (acc ++ y :: l) -> acc <> [] -> Forall (fun z => key z = key h) acc -> key h <> key y -> Forall (fun z => key z <> key h) (y :: l).
Proof.
  intros Hg Hn Ha Hy. apply Forall_forall. intros z [->|Hz]%elem_of_cons E; [congruence|].
  apply list_elem_of_split in Hz as (p & s & ->). destruct acc as [|a acc] using rev_ind; [done|]. clear IHacc Hn. apply Forall_app in Ha as [_ Ha]. inversion_clear Ha as [|? ? Ea _].
  specialize (Hg acc a (y :: p) z s). rewrite <- app_assoc in Hg. cbn [app] in Hg. specialize (Hg eq_refl). rewrite Ea in Hg. specialize (Hg (eq_sym E)). inversion_clear Hg. congruence.
Qed.

(** The run of [x] in [l]. *)
Definition run_of (l r : list A) : Prop := exists x rest, r = x :: rest /\ r = filter (fun z => key z = key x) l.

Lemma filter_all (P : A -> Prop) `{forall x, Decision (P x)} l : Forall P l -> filter P l = l.
Proof. induction 1 as [|x l Hx _ IH]; [done|]. rewrite filter_cons_True by done. by rewrite IH. Qed.

Lemma filter_none (P : A -> Prop) `{forall x, Decision (P x)} l : Forall (fun x => ~ P x) l -> filter P l = [].
Proof. induction 1 as [|x l Hx _ IH]; [done|]. by rewrite filter_cons_False. Qed.

Lemma runs_from_spec l : forall pre h acc,
  grouped_by (pre ++ (h :: acc) ++ l) -> Forall (fun z => key z = key h) acc -> (forall p z, p ∈ pre -> z ∈ (h :: acc) ++ l -> key p <> key z) ->
  Forall (run_of (pre ++ (h :: acc) ++ l)) (runs_from h (h :: acc) l).
Proof.
  induction l as [|y l IH]; intros pre h acc Hg Ha Hp; cbn [runs_from].
  - constructor; [|constructor]. exists h, acc. split; [done|]. rewrite app_nil_r, filter_app, (filter_none _ pre), filter_all; [done|by constructor|].
    apply Forall_forall. intros p Hpp. apply Hp; [done|]. by constructor.
  - destruct (decide (key h = key y)) as [E|E].
    + replace (pre ++ (h :: acc) ++ y :: l) with (pre ++ (h :: acc ++ [y]) ++ l) in * by lassoc. replace ((h :: acc) ++ [y]) with (h :: acc ++ [y]) by done. apply IH; [done|..].
      * apply Forall_app. split; [done|]. by constructor.
      * intros p z Hpp Hz. apply Hp; [done|]. revert Hz. clear. set_solver.
    + pose proof (grouped_over h (h :: acc) y l (grouped_by_suffix _ _ Hg) ltac:(done) ltac:(by constructor) E) as Hov. constructor.
      * exists h, acc. split; [done|]. rewrite !filter_app, (filter_none _ pre), (filter_all _ (h :: acc)), (filter_none _ (y :: l)); [by rewrite app_nil_r|done|by constructor|].
        apply Forall_forall. intros p Hpp. apply Hp; [done|]. by constructor.
      * replace (pre ++ (h :: acc) ++ y :: l) with ((pre ++ h :: acc) ++ [y] ++ l) in * by lassoc. apply IH; [done|constructor|].
        intros p z Hpp Hz. apply elem_of_app in Hpp as [Hpp|Hpp]; [apply Hp; [done|]; revert Hz; clear; set_solver|].
        rewrite Forall_forall in Hov. specialize (Hov z Hz). assert (key p = key h) by (apply elem_of_cons in Hpp as [->|Hpp]; [done|]; by apply (proj1 (Forall_forall _ _) Ha)). congruence.
Qed.

(** Every run holds all members of its key. *)
Lemma runs_spec l : grouped_by l -> Forall (run_of l) (runs l).
Proof.
  destruct l as [|x l]; intros Hg; [constructor|]. apply (runs_from_spec l [] x []); [done|constructor|]. intros p z Hp. by apply not_elem_of_nil in Hp.
Qed.

(** Every member is in a run. *)
Lemma runs_cover l x : grouped_by l -> x ∈ l -> filter (fun z => key z = key x) l ∈ runs l.
Proof.
  intros Hg Hx. pose proof (runs_spec l Hg) as Hr. rewrite <- (runs_concat l) in Hx. apply list_elem_of_In, List.in_concat in Hx as (r & Hin & Hxr). apply list_elem_of_In in Hin, Hxr.
  rewrite Forall_forall in Hr. destruct (Hr r Hin) as (h & rest & _ & E). rewrite E in Hxr. apply list_elem_of_filter in Hxr as [Hk _]. rewrite Hk, <- E. exact Hin.
Qed.

Lemma runs_from_sorted (R : A -> A -> Prop) l : forall h acc,
  StronglySorted R (acc ++ l) -> grouped_by (acc ++ l) -> acc <> [] -> Forall (fun z => key z = key h) acc ->
  StronglySorted (fun r1 r2 => forall x y, x ∈ r1 -> y ∈ r2 -> R x y /\ key x <> key y) (runs_from h acc l).
Proof.
  induction l as [|y l IH]; intros h acc Hs Hg Hn Ha; cbn [runs_from]; [repeat constructor|]. destruct (decide _) as [E|E].
  - apply IH; [by rewrite <- app_assoc|by rewrite <- app_assoc|by destruct acc|]. apply Forall_app. split; [done|]. by constructor.
  - assert (StronglySorted R (y :: l)) as Hyl by (clear -Hs; induction acc as [|a acc IHa]; [done|]; inversion_clear Hs; auto).
    constructor; [apply (IH y [y]); [done|by apply grouped_by_suffix in Hg|done|by constructor]|].
    pose proof (grouped_over h acc y l Hg Hn Ha E) as Hov. apply List.Forall_forall. intros r2 Hr2 u v Hu Hv.
    assert (v ∈ y :: l) as Hvl by (change (y :: l) with ([y] ++ l); rewrite <- (runs_from_concat y [y] l); apply list_elem_of_In, List.in_concat; exists r2; split; [done|by apply list_elem_of_In]).
    split; [|rewrite Forall_forall in Ha, Hov; rewrite (Ha u Hu); intros E2; by apply (Hov v Hvl)].
    clear -Hs Hu Hvl. induction acc as [|a acc IHa]; [by apply not_elem_of_nil in Hu|]. cbn [app] in Hs. inversion_clear Hs as [|? ? Hs' Hall].
    apply elem_of_cons in Hu as [->|Hu]; [|by apply IHa]. rewrite List.Forall_forall in Hall. apply Hall, list_elem_of_In, elem_of_app. by right.
Qed.

(** Members of different runs have different keys and are in the order of the list. *)
Lemma runs_sorted (R : A -> A -> Prop) l :
  StronglySorted R l -> grouped_by l -> StronglySorted (fun r1 r2 => forall x y, x ∈ r1 -> y ∈ r2 -> R x y /\ key x <> key y) (runs l).
Proof. destruct l as [|x l]; intros Hs Hg; [constructor|]. apply (runs_from_sorted R l x [x]); [done|done|done|by constructor]. Qed.

End Runs.

Lemma runs_from_key {A K} `{EqDecision K} (key : A -> K) h h' acc l : key h = key h' -> runs_from key h acc l = runs_from key h' acc l.
Proof. revert acc. induction l as [|y l IH]; intros acc E; cbn [runs_from]; [done|]. rewrite E. case_decide; [by apply IH|done]. Qed.

Lemma runs_from_head {A K} `{EqDecision K} (key : A -> K) h acc l : exists x rs, runs_from key h acc l = (acc ++ x) :: rs.
Proof.
  revert h acc. induction l as [|y l IH]; intros h acc; cbn [runs_from]; [exists [], []; by rewrite app_nil_r|].
  case_decide; [destruct (IH h (acc ++ [y])) as (x & rs & ->); exists (y :: x), rs; by rewrite <- app_assoc|]. exists [], (runs_from key y [y] l). by rewrite app_nil_r.
Qed.

Section Occurs.
Context {A : Type} `{EqDecision A}.

(** How often a member occurs. *)
Definition occurs (x : A) (l : list A) : Z := zlen (filter (fun z => z = x) l).

Lemma filter_in_run (l : list A) (x : A) : x ∈ l -> exists r, filter (fun z => z = x) l = x :: r.
Proof.
  intros Hx. destruct (filter (fun z => z = x) l) as [|y r] eqn:E.
  - exfalso. assert (x ∈ filter (fun z => z = x) l) as H by (by apply list_elem_of_filter). rewrite E in H. by apply not_elem_of_nil in H.
  - exists r. f_equal. assert (y ∈ filter (fun z => z = x) l) as H by (rewrite E; constructor). by apply list_elem_of_filter in H as [H _].
Qed.

Lemma occurs_pos (x : A) l : x ∈ l -> 1 <= occurs x l.
Proof. intros Hx. unfold occurs. destruct (filter_in_run l x Hx) as [r ->]. rewrite zlen_cons. pose proof (zlen_nonneg r). lia. Qed.

Lemma occurs_none (x : A) l : x ∉ l -> occurs x l = 0.
Proof. intros Hx. unfold occurs. rewrite filter_none; [done|]. apply Forall_forall. intros z Hz ->. done. Qed.

Lemma occurs_sum (x y : A) l : x <> y -> occurs x l + occurs y l <= zlen l.
Proof.
  intros Hne. unfold occurs. induction l as [|z l IH]; [done|]. rewrite !filter_cons, zlen_cons. repeat case_decide; rewrite ?zlen_cons; try lia. congruence.
Qed.

End Occurs.

Section MostFrequent.
Context {A : Type} `{EqDecision A} (compare : A -> A -> Z) (P : A -> Prop).
Hypothesis compare_eq : forall x y, P x -> P y -> compare x y = 0 <-> x = y.

(** ** The most frequent member *)

Definition pick (best : option A * Z) (r : list A) : option A * Z := if snd best <=? zlen r then (head r, zlen r) else best.

Lemma freq_runs l : forall h acc mf mfc, Forall P (h :: l) ->
  freq_flush (fold_left (freq_step compare) l (mkfreq mf mfc (Some h) (zlen (h :: acc)))) = fold_left pick (runs_from id h (h :: acc) l) (mf, mfc).
Proof.
  induction l as [|x l IH]; intros h acc mf mfc Hc; cbn [fold_left runs_from]; [unfold freq_flush, pick; cbn [freq_cur most_frequent_count freq_count most_frequent snd head]; by destruct (_ <=? _)|].
  inversion_clear Hc as [|? ? Hh Hl]. inversion_clear Hl as [|? ? Hx Hl']. pose proof (compare_eq h x Hh Hx) as Heq. unfold freq_step at 2. cbn [freq_cur].
  destruct (decide (id h = id x)) as [E|E].
  - rewrite (proj2 (Z.eqb_eq _ _)) by (by apply Heq). cbn [most_frequent most_frequent_count freq_cur freq_count]. replace (zlen (h :: acc) + 1) with (zlen (h :: acc ++ [x])) by zlia. apply IH. by constructor.
  - rewrite (proj2 (Z.eqb_neq _ _)) by (intros E2; apply E; by apply Heq). cbn [fold_left].
    assert (freq_flush (mkfreq mf mfc (Some h) (zlen (h :: acc))) = pick (mf, mfc) (h :: acc)) as -> by (unfold freq_flush, pick; cbn; by destruct (_ <=? _)).
    destruct (pick (mf, mfc) (h :: acc)) as [mf' mfc']. apply (IH x [] mf' mfc'). by constructor.
Qed.

Lemma pick_max rs : forall best, Forall (fun r => r <> []) rs ->
  let res := fold_left pick rs best in
  snd best <= snd res /\ Forall (fun r => zlen r <= snd res) rs /\ (res = best \/ exists r, r ∈ rs /\ res = (head r, zlen r)).
Proof.
  induction rs as [|r rs IH]; intros best Hn; cbn [fold_left]; [split; [lia|]; split; [constructor|by left]|]. inversion_clear Hn as [|? ? Hr Hrs].
  destruct (IH (pick best r) Hrs) as (H1 & H2 & H3). unfold pick at 1 in H1. cbv zeta in *. split; [destruct (Z.leb_spec (snd best) (zlen r)); cbn [snd] in H1; lia|].
  split; [constructor; [|done]; destruct (Z.leb_spec (snd best) (zlen r)); cbn [snd] in H1; lia|].
  destruct H3 as [->|(r' & Hr' & E)]; [|right; exists r'; split; [by constructor|done]]. unfold pick. destruct (_ <=? _); [right; exists r; split; [by constructor|done]|by left].
Qed.

(** The most frequent member and how often it occurs. *)
Lemma most_frequent_spec l : l <> [] -> Forall P l -> grouped_by id l ->
  exists x, smartlist_get_most_frequent_ compare l = (Some x, occurs x l) /\ x ∈ l /\ forall y, occurs y l <= occurs x l.
Proof.
  intros Hn Hc Hg. destruct l as [|h l]; [done|]. pose proof (runs_spec id _ Hg) as Hr. cbn [runs] in Hr. unfold smartlist_get_most_frequent_. cbn [fold_left]. unfold freq_step at 2. cbn [freq_cur freq_flush most_frequent most_frequent_count].
  pose proof (freq_runs l h [] None 0 Hc) as Hf. change (zlen [h]) with 1 in Hf. rewrite Hf. set (rs := runs_from id h [h] l) in *.
  assert (Forall (fun r => r <> []) rs) as Hne by (apply (Forall_weaken _ _ _ Hr); by intros r (x & rest & -> & _)). destruct (pick_max rs (None, 0) Hne) as (_ & Hall & Hres). cbv zeta in *. rewrite Forall_forall in Hr, Hall.
  assert (exists r, r ∈ rs /\ fold_left pick rs (None, 0) = (head r, zlen r)) as (r & Hin & E).
  { destruct Hres as [E|]; [|done]. exfalso. destruct (runs_from_head id h [h] l) as (x & rs' & Ers). fold rs in Ers. assert ([h] ++ x ∈ rs) as Hx by (rewrite Ers; constructor). specialize (Hall _ Hx). rewrite E in Hall. revert Hall. unfold zlen. cbn [app length snd]. lia. }
  destruct (Hr r Hin) as (x & rest & E1 & E2). exists x. rewrite E, E1. cbn [head]. assert (zlen (x :: rest) = occurs x (h :: l)) as Ho by (rewrite <- E1, E2; done). rewrite Ho. split; [done|].
  assert (x ∈ h :: l) as Hx by (assert (x ∈ r) as Hxr by (rewrite E1; constructor); rewrite E2 in Hxr; by apply list_elem_of_filter in Hxr as [_ Hxr]). split; [done|]. intros y.
  destruct (decide (y ∈ h :: l)) as [Hy|Hy]; [|rewrite (occurs_none _ _ Hy); unfold occurs; apply zlen_nonneg]. pose proof (runs_cover id _ _ Hg Hy) as Hcov. specialize (Hall _ Hcov). rewrite E in Hall. cbn [snd] in Hall. rewrite <- Ho, <- E1. exact Hall.
Qed.

End MostFrequent.

(** ** Sorting by a comparison *)

Section SortBy.
Context {A : Type} (compare : A -> A -> Z) (P : A -> Prop).

(** A sort that keeps the order of equal members. *)
Fixpoint insert_by (s : A) (l : list A) : list A :=
  match l with [] => [s] | x :: r => if compare s x <=? 0 then s :: l else x :: insert_by s r end.

Definition sort_by (l : list A) : list A := foldr insert_by [] l.

Definition le_by (a b : A) : Prop := compare a b <= 0.

Lemma insert_by_perm s l : Permutation (insert_by s l) (s :: l).
Proof. induction l as [|x l IH]; cbn [insert_by]; [done|]. destruct (_ <=? 0); [done|]. rewrite IH. apply Permutation_swap. Qed.

Lemma sort_by_perm l : Permutation (sort_by l) l.
Proof. induction l as [|x l IH]; [done|]. cbn [sort_by foldr]. fold (sort_by l). by rewrite insert_by_perm, IH. Qed.

Hypothesis compare_trans : forall x y z, P x -> P y -> P z -> le_by x y -> le_by y z -> le_by x z.
Hypothesis compare_total : forall x y, P x -> P y -> ~ le_by x y -> le_by y x.

Lemma sort_by_sorted l : Forall P l -> StronglySorted le_by (sort_by l).
Proof.
  induction 1 as [|s l Hs Hl IH]; [constructor|]. cbn [sort_by foldr]. fold (sort_by l). assert (Forall P (sort_by l)) as Hc by (by rewrite sort_by_perm).
  revert IH Hc. generalize (sort_by l). clear -Hs compare_trans compare_total. intros l. induction l as [|x l IH]; intros Hsort Hc; cbn [insert_by]; [repeat constructor|].
  inversion_clear Hc as [|? ? Hx Hl]. inversion_clear Hsort as [|? ? Hsl Hxl]. destruct (Z.leb_spec (compare s x) 0) as [Hle|Hgt].
  - constructor; [by constructor|]. constructor; [done|]. rewrite List.Forall_forall in *. intros y Hy. apply (compare_trans s x y); auto.
  - constructor; [by apply IH|]. apply List.Forall_forall. intros y Hy. apply list_elem_of_In in Hy. rewrite insert_by_perm in Hy. apply elem_of_cons in Hy as [->|Hy]; [apply compare_total; [done|done|unfold le_by; lia]|].
    rewrite List.Forall_forall in Hxl. apply Hxl. by apply list_elem_of_In.
Qed.

Hypothesis compare_eq : forall x y, P x -> P y -> compare x y = 0 <-> x = y.
Hypothesis compare_anti : forall x y, P x -> P y -> Z.sgn (compare y x) = - Z.sgn (compare x y).

Lemma sort_by_grouped `{EqDecision A} l : Forall P l -> grouped_by id (sort_by l).
Proof.
  intros Hl. apply (sorted_grouped id le_by); [by apply sort_by_sorted|]. intros x y z Hx Hy Hz H1 H2 E. unfold id in *. subst z. rewrite sort_by_perm in Hx, Hy. rewrite Forall_forall in Hl.
  specialize (compare_anti x y (Hl x Hx) (Hl y Hy)). unfold le_by in *. symmetry. apply compare_eq; [by apply Hl..|]. destruct (compare x y), (compare y x); cbn in *; lia.
Qed.

(** The most frequent member of the sorted list. *)
Lemma best_by_spec `{EqDecision A} l : Forall P l -> match fst (smartlist_get_most_frequent_ compare (sort_by l)) with Some d => d ∈ l /\ forall d', occurs d' l <= occurs d l | None => l = [] end.
Proof.
  intros Hl. pose proof (sort_by_perm l) as Hp. destruct (decide (l = [])) as [->|Hn]; [done|].
  destruct (most_frequent_spec compare P compare_eq (sort_by l)) as (d & -> & Hd & Hmax); [intros E; apply Hn, Permutation_nil; by rewrite <- E|by rewrite Hp|by apply sort_by_grouped|].
  cbn [fst]. rewrite Hp in Hd. split; [done|]. intros d'. specialize (Hmax d'). unfold occurs, zlen in *. by rewrite !Hp in Hmax.
Qed.

End SortBy.
