(* ===== verification/VoteParams.v ===== *)
(** * Voting on consensus parameters

    Models the order statistics of lib/container/order.c, the check of a params line in [networkstatus_parse_vote_from_string] of
    feature/dirparse/ns_parse.c, and from feature/dirauth/dirvote.c [dirvote_compute_params] and [dirvote_get_intermediate_param_value].

    The votes are given by their parameters, [None] for a vote without a params line; a parameter is a string [key=number]. *)

From S2P Require Import Prelude CString UtilString StrList Protover NetParams Runs.
From Stdlib Require Import ZArith String Sorting.Sorted.
From stdpp Require Import base list sets numbers sorting.
Open Scope Z_scope.

(** ** Order statistics *)

(** [find_nth_int32], [find_nth_uint32] and the others differ only in the type of the elements. *)
Definition find_nth (array : list Z) (nth : Z) : cres Z :=
  assert! (0 <=? nth);
  assert! (nth <? zlen array);
  aget (merge_sort Z.le array) nth.

Definition median (array : list Z) : cres Z := find_nth array (Z.quot (zlen array - 1) 2).
Definition third_quartile (array : list Z) : cres Z := find_nth array (Z.quot (zlen array * 3) 4).

(** ** Parameters in a vote *)

Fixpoint check_params (prev last_kwd : option bytes) (inorder any_dups : bool) (args : list bytes) : cres (bool * bool) :=
  match args with
  | [] => Ok (inorder, any_dups)
  | a :: args =>
      match strchr a 61 with
      | None => Err
      | Some eq =>
          let eq_pos := (length a - length eq)%nat in
          if negb (p_ok (tor_parse_long (drop 1 eq) 10 INT32_MIN INT32_MAX false)) then Err
          else
            let inorder := match prev with Some p => if 0 <=? strcmp p a then false else inorder | None => inorder end in
            let any_dups := match last_kwd with Some k => if (eq_pos =? length k)%nat && bytes_eqb (take eq_pos k) (take eq_pos a) then true else any_dups | None => any_dups end in
            check_params (Some a) (Some (take eq_pos a)) inorder any_dups args
      end
  end.

Definition parse_net_params (args : list bytes) : cres (list bytes) :=
  let* (inorder, any_dups) := check_params None None true false args in
  if negb inorder then Err else if any_dups then Err else Ok args.

(** ** The parameters of the consensus *)

Definition MIN_VOTES_FOR_PARAM : Z := 3.

(** The length up to the equals sign, with it; without one the code reads behind a null pointer. *)
Definition param_len (p : bytes) : cres nat := match strchr p 61 with Some eq => Ok (S (length p - length eq)) | None => Bug end.

(** [vals] holds the first [i] values of the array. *)
Fixpoint params_loop (n_votes total_authorities : Z) (vals : list Z) (cur_param_len : nat) (params : list bytes) : cres (list bytes) :=
  match params with
  | [] => Ok []
  | param :: rest =>
      let* len := param_len param in
      assert! (zlen vals <? n_votes);
      let r := tor_parse_long (drop len param) 10 INT32_MIN INT32_MAX false in
      let vals := vals ++ [s32 (p_val r)] in
      assert! (p_ok r);
      let next_param := head rest in
      if match next_param with None => true | Some next => negb (strncmp next param cur_param_len =? 0) end then
        let* out := if (Z.quot total_authorities 2 <? zlen vals) || (MIN_VOTES_FOR_PARAM <=? zlen vals)
                    then let* m := median vals in Ok [take cur_param_len param ++ dec m] else Ok [] in
        let* cur_param_len := match next_param with Some next => param_len next | None => Ok cur_param_len end in
        let* more := params_loop n_votes total_authorities [] cur_param_len rest in
        Ok (out ++ more)
      else params_loop n_votes total_authorities vals cur_param_len rest
  end.

Definition dirvote_compute_params (votes : list (option (list bytes))) (total_authorities : Z) : cres (list bytes) :=
  let param_list := concat (map (default []) votes) in
  match smartlist_sort_strings param_list with
  | [] => Ok []
  | (cur_param :: _) as params =>
      let* cur_param_len := param_len cur_param in
      params_loop (zlen votes) total_authorities [] cur_param_len params
  end.

Fixpoint intermediate_loop (keyword : bytes) (value : Z) (n_found : Z) (param_list : list bytes) : option (Z * Z) :=
  match param_list with
  | [] => Some (value, n_found)
  | k_v_pair :: rest =>
      if (strcmpstart k_v_pair keyword =? 0) && (cur (drop (length keyword) k_v_pair) =? 61) then
        let r := tor_parse_long (drop (length keyword + 1) k_v_pair) 10 INT32_MIN INT32_MAX false in
        if p_ok r then intermediate_loop keyword (s32 (p_val r)) (n_found + 1) rest else None
      else intermediate_loop keyword value n_found rest
  end.

Definition dirvote_get_intermediate_param_value (param_list : list bytes) (keyword : bytes) (default_val : Z) : Z :=
  match intermediate_loop keyword default_val 0 param_list with
  | None => default_val
  | Some (value, n_found) => if n_found =? 1 then value else default_val
  end.

(** ** The median *)

#[local] Instance Zle_total' : Total Z.le.
Proof. intros x y. lia. Qed.

Definition count (P : Z -> bool) (l : list Z) : Z := zlen (filter (fun x => P x = true) l).

Lemma count_app P a b : count P (a ++ b) = count P a + count P b.
Proof. unfold count. by rewrite filter_app, zlen_app. Qed.

Lemma count_perm P a b : Permutation a b -> count P a = count P b.
Proof. intros H. unfold count, zlen. by rewrite H. Qed.

Lemma count_bounds P l : 0 <= count P l <= zlen l.
Proof. unfold count, zlen. pose proof (length_filter (fun x => P x = true) l). lia. Qed.

Lemma count_all P l : Forall (fun x => P x = true) l -> count P l = zlen l.
Proof. intros H. unfold count. by rewrite filter_all. Qed.

Lemma count_none P l : Forall (fun x => P x = false) l -> count P l = 0.
Proof. intros H. unfold count. rewrite filter_none; [done|]. apply (Forall_weaken _ _ _ H). intros x ->. done. Qed.

Lemma count_disjoint (P Q : Z -> bool) l : (forall x, P x = true -> Q x = false) -> count P l + count Q l <= zlen l.
Proof.
  intros HPQ. induction l as [|y l IH]; [done|]. unfold count in *. rewrite !filter_cons, zlen_cons. specialize (HPQ y).
  repeat case_decide; rewrite ?zlen_cons; try lia. rewrite HPQ in *; done.
Qed.

Lemma count_compl P l : count P l + count (fun x => negb (P x)) l = zlen l.
Proof.
  induction l as [|y l IH]; [done|]. unfold count in *. rewrite !filter_cons, zlen_cons. destruct (P y); cbn [negb]; repeat case_decide; try done; rewrite ?zlen_cons; lia.
Qed.

Lemma find_nth_split l i : 0 <= i < zlen l ->
  exists m a b, find_nth l i = Ok m /\ Permutation l (a ++ m :: b) /\ zlen a = i /\ Forall (fun x => x <= m) a /\ Forall (fun x => m <= x) b.
Proof.
  intros Hi. pose proof (merge_sort_Permutation Z.le l) as Hp. pose proof (StronglySorted_merge_sort Z.le l) as Hs.
  assert (zlen (merge_sort Z.le l) = zlen l) as Hl by (unfold zlen; by rewrite Hp).
  destruct (aget_in_range (merge_sort Z.le l) i) as (m & Em & Hm); [lia|]. pose proof (take_drop_middle _ _ _ Hm) as Hsp.
  exists m, (take (Z.to_nat i) (merge_sort Z.le l)), (drop (S (Z.to_nat i)) (merge_sort Z.le l)). unfold find_nth.
  rewrite (proj2 (Z.leb_le _ _)), (proj2 (Z.ltb_lt _ _)) by lia. split; [done|]. rewrite Hsp. split; [by symmetry|].
  split; [unfold zlen in *; rewrite length_take; lia|]. rewrite <- Hsp in Hs. set (a := take _ _) in *. set (b := drop _ _) in *. clearbody a b. clear -Hs.
  induction a as [|x a IH]; cbn [app] in Hs; inversion_clear Hs as [|? ? Hs' Hx]; [split; [constructor|exact Hx]|].
  destruct (IH Hs') as [Ha Hb]. split; [|done]. constructor; [|done]. apply Forall_app in Hx as [_ Hx]. by inversion_clear Hx.
Qed.

(** Fewer than half of the values are below the median, at most half of them above. *)
Lemma median_spec l : l <> [] ->
  exists m, median l = Ok m /\ m ∈ l /\ 2 * count (fun x => x <? m) l < zlen l /\ 2 * count (fun x => m <? x) l <= zlen l.
Proof.
  intros Hn. assert (0 < zlen l) as Hl by (destruct l; [done|unfold zlen; cbn [length]; lia]).
  destruct (find_nth_split l (Z.quot (zlen l - 1) 2)) as (m & a & b & E & Hp & Ha & Hla & Hlb); [rewrite Z.quot_div_nonneg by lia; split; [apply Z.div_pos; lia|apply Z.div_lt_upper_bound; lia]|].
  assert (zlen l = zlen a + zlen b + 1) as Hlen by (unfold zlen; rewrite Hp, length_app; cbn [length]; lia).
  rewrite Z.quot_div_nonneg in Ha by lia. pose proof (Z.div_mod (zlen l - 1) 2). pose proof (Z.mod_pos_bound (zlen l - 1) 2).
  exists m. split; [exact E|]. split; [rewrite Hp; apply elem_of_app; right; by constructor|]. rewrite !(count_perm _ _ _ Hp), !count_app.
  change (m :: b) with ([m] ++ b). rewrite !count_app. unfold count at 2 5. rewrite !filter_cons_False by (rewrite Z.ltb_irrefl; done).
  rewrite (count_none (fun x => x <? m) b), (count_none (fun x => m <? x) a) by (eapply Forall_weaken; [eassumption|]; intros ? ?; by apply Z.ltb_ge).
  pose proof (count_bounds (fun x => x <? m) a). pose proof (count_bounds (fun x => m <? x) b). change (zlen (filter _ [])) with 0. lia.
Qed.

(** What more than half of the values agree on bounds the median. *)
Lemma median_majority l lo hi m :
  median l = Ok m -> zlen l < 2 * count (fun x => (lo <=? x) && (x <=? hi)) l -> lo <= m <= hi.
Proof.
  intros E Hmaj. destruct l as [|x l]; [done|]. destruct (median_spec (x :: l)) as (m' & E' & _ & Hb & Ha); [done|]. rewrite E in E'. injection E' as <-.
  split; apply Z.nlt_ge; intros Hlt.
  - pose proof (count_disjoint (fun x => (lo <=? x) && (x <=? hi)) (fun x => negb (m <? x)) (x :: l) ltac:(intros ? ?; cbv beta in *; blia)). pose proof (count_compl (fun x => m <? x) (x :: l)). cbv beta in *. lia.
  - pose proof (count_disjoint (fun x => (lo <=? x) && (x <=? hi)) (fun x => negb (x <? m)) (x :: l) ltac:(intros ? ?; cbv beta in *; blia)). pose proof (count_compl (fun x => x <? m) (x :: l)). cbv beta in *. lia.
Qed.

(** ** Keys and values *)

Definition pkey (p : bytes) : bytes := fst (span (fun c => negb (c =? 61)) p).
Definition pval (p : bytes) : Z := p_val (tor_parse_long (drop (S (length (pkey p))) p) 10 INT32_MIN INT32_MAX false).

Record param_ok (p : bytes) : Prop := {
  po_cstr : cstr p;
  po_split : exists s, p = pkey p ++ 61 :: s;
  po_value : p_ok (tor_parse_long (drop (S (length (pkey p))) p) 10 INT32_MIN INT32_MAX false) = true
}.

Lemma pkey_app k s : 61 ∉ k -> pkey (k ++ 61 :: s) = k.
Proof.
  unfold pkey. induction k as [|c k IH]; intros Hk; [done|]. apply not_elem_of_cons in Hk as [Hc Hk]. cbn [app span].
  replace (c =? 61) with false by (symmetry; apply Z.eqb_neq; congruence). cbn [negb]. destruct (span _ (k ++ _)). cbn [fst] in *. by rewrite IH.
Qed.

Lemma pkey_no_eq p : 61 ∉ pkey p.
Proof.
  unfold pkey. induction p as [|c p IH]; [apply not_elem_of_nil|]. cbn [span]. destruct (Z.eqb_spec c 61) as [->|Hc]; cbn [negb]; [apply not_elem_of_nil|].
  destruct (span _ p). cbn [fst] in *. apply not_elem_of_cons. split; [congruence|done].
Qed.

Lemma strchr_eq p : match strchr p 61 with Some eq => exists s, eq = 61 :: s /\ p = pkey p ++ 61 :: s | None => 61 ∉ p end.
Proof.
  unfold strchr, pkey. induction p as [|c p IH]; cbn [length memchr span]; [apply not_elem_of_nil|]. destruct (Z.eqb_spec c 61) as [->|Hc]; cbn [negb]; [by exists p|].
  destruct (memchr p 61 (length p)) as [eq|].
  - destruct IH as (s & -> & Hp). exists s. split; [done|]. destruct (span _ p). cbn [fst] in *. by rewrite Hp at 1.
  - apply not_elem_of_cons. split; [congruence|done].
Qed.

Lemma strchr_param p s : p = pkey p ++ 61 :: s -> strchr p 61 = Some (61 :: s) /\ (length p - length (61%Z :: s) = length (pkey p))%nat.
Proof.
  intros Hp. pose proof (strchr_eq p) as H. destruct (strchr p 61) as [eq|].
  - destruct H as (s' & -> & Hp'). rewrite Hp in Hp' at 1. apply app_inv_head in Hp'. injection Hp' as <-. split; [done|].
    apply (f_equal length) in Hp. rewrite length_app in Hp. lia.
  - exfalso. apply H. rewrite Hp. apply elem_of_app. right. by constructor.
Qed.

Lemma param_len_ok p : param_ok p -> param_len p = Ok (S (length (pkey p))).
Proof. intros Hp. destruct (po_split p Hp) as [s Hs]. destruct (strchr_param p s Hs) as [E L]. unfold param_len. by rewrite E, L. Qed.

Lemma take_key p : param_ok p -> take (S (length (pkey p))) p = pkey p ++ [61].
Proof.
  intros Hp. destruct (po_split p Hp) as [s Hs]. rewrite Hs at 2. rewrite (cons_middle 61), app_assoc. apply take_app_length'. rewrite length_app. cbn [length]. lia.
Qed.

Lemma drop_key k s : drop (S (length k)) (k ++ 61 :: s) = s.
Proof. rewrite (cons_middle 61), app_assoc. apply drop_app_length'. rewrite length_app. cbn [length]. lia. Qed.

Lemma strncmp_take a b n : strncmp a b n = strncmp a (take n b) n.
Proof. revert a b. induction n as [|n IH]; intros [|x a] [|y b]; cbn [strncmp take]; try done. by rewrite <- IH. Qed.

(** A parameter starts with [key=] exactly when that is its key. *)
Lemma prefix_key k p : 61 ∉ k -> param_ok p -> prefix_of (k ++ [61]) p = bool_decide (pkey p = k).
Proof.
  intros Hk Hp. apply eq_iff_eq_true. rewrite prefix_of_spec, bool_decide_eq_true. split.
  - intros [r ->]. rewrite <- app_assoc. by apply pkey_app.
  - intros <-. destruct (po_split p Hp) as [s Hs]. exists s. by rewrite <- app_assoc.
Qed.

Lemma cstr_key p : param_ok p -> cstr (pkey p ++ [61]).
Proof. intros Hp. pose proof (po_cstr p Hp) as Hc. rewrite <- (take_key p Hp). by apply Forall_take. Qed.

(** [strncmp] up to the equals sign compares the keys. *)
Lemma strncmp_key a b : param_ok a -> param_ok b -> (strncmp a b (S (length (pkey b))) =? 0) = bool_decide (pkey a = pkey b).
Proof.
  intros Ha Hb. rewrite strncmp_take, take_key by done. replace (S (length (pkey b))) with (length (pkey b ++ [61])) by (rewrite length_app; cbn [length]; lia).
  rewrite strncmp_prefix by (apply cstr_no_nul, cstr_key, Hb). apply prefix_key; [apply pkey_no_eq|done].
Qed.

(** What lies between two strings with a prefix has it too. *)
Lemma strcmp_between q a b c : cstr b -> cstr q -> strcmp (q ++ a) b <= 0 -> strcmp b (q ++ c) <= 0 -> exists r, b = q ++ r.
Proof.
  intros Hb. revert b Hb. induction q as [|x q IH]; intros b Hb Hq H1 H2; [by exists b|]. inversion_clear Hq as [|? ? Hx Hq'].
  destruct b as [|y b]; cbn [app strcmp] in *; [lia|]. inversion_clear Hb as [|? ? Hy Hb']. rewrite (Z.eqb_sym y x) in H2. destruct (Z.eqb_spec x y) as [->|]; [|lia].
  destruct (IH b Hb' Hq' H1 H2) as [r ->]. by exists r.
Qed.

Lemma key_between a b c : param_ok a -> param_ok b -> param_ok c -> strcmp a b <= 0 -> strcmp b c <= 0 -> pkey a = pkey c -> pkey b = pkey a.
Proof.
  intros Ha Hb Hc H1 H2 Ek. destruct (po_split a Ha) as [s Hs]. destruct (po_split c Hc) as [t Ht]. rewrite Hs, cons_middle, app_assoc in H1. rewrite Ht, <- Ek, cons_middle, app_assoc in H2.
  destruct (strcmp_between (pkey a ++ [61]) s b t) as [r Hr]; [apply po_cstr, Hb|apply cstr_key, Ha|done|done|]. rewrite Hr, <- app_assoc. apply pkey_app, pkey_no_eq.
Qed.

(** ** Sorting strings *)

Definition str_le (a b : bytes) : Prop := strcmp a b <= 0.

Lemma str_le_trans a b c : cstr a -> cstr b -> cstr c -> str_le a b -> str_le b c -> str_le a c.
Proof.
  unfold str_le. intros Ha Hb Hc H1 H2. destruct (Z.eq_dec (strcmp a b) 0) as [E|E]; [apply strcmp_eq in E as ->; [done|by apply cstr_no_nul..]|].
  destruct (Z.eq_dec (strcmp b c) 0) as [E2|E2]; [apply strcmp_eq in E2 as <-; [done|by apply cstr_no_nul..]|]. pose proof (strcmp_trans a b c Ha Hb Hc). lia.
Qed.

Lemma insert_string_perm s l : Permutation (insert_string s l) (s :: l).
Proof. induction l as [|x l IH]; cbn [insert_string]; [done|]. destruct (_ <=? 0); [done|]. rewrite IH. apply Permutation_swap. Qed.

Lemma sort_strings_perm l : Permutation (smartlist_sort_strings l) l.
Proof. induction l as [|s l IH]; [done|]. cbn [smartlist_sort_strings]. by rewrite insert_string_perm, IH. Qed.

Lemma sort_strings_sorted l : Forall cstr l -> StronglySorted str_le (smartlist_sort_strings l).
Proof.
  induction l as [|s l IH]; intros Hc; [constructor|]. inversion_clear Hc as [|? ? Hs Hl]. cbn [smartlist_sort_strings]. specialize (IH Hl).
  assert (Forall cstr (smartlist_sort_strings l)) as Hl' by (by rewrite sort_strings_perm). revert IH Hl'. generalize (smartlist_sort_strings l). clear -Hs. intros l.
  induction l as [|x l IH]; intros Hsort Hc; cbn [insert_string]; [repeat constructor|]. inversion_clear Hc as [|? ? Hx Hl]. inversion_clear Hsort as [|? ? Hsl Hxl].
  destruct (Z.leb_spec (strcmp s x) 0) as [Hle|Hgt].
  - constructor; [by constructor|]. constructor; [done|]. rewrite List.Forall_forall in *. intros y Hy. apply (str_le_trans s x y); auto.
  - constructor; [by apply IH|]. rewrite List.Forall_forall in *. intros y Hy. apply insert_string_In in Hy as [->|Hy]; [|by apply Hxl]. unfold str_le. rewrite strcmp_anti. lia.
Qed.

(** ** What the parser of votes lets through *)

(** Strings in order whose keys differ. *)
Definition param_lt (a b : bytes) : Prop := strcmp a b < 0 /\ pkey a <> pkey b.

Lemma same_key_test k a :
  (length (pkey a) =? length k)%nat && bytes_eqb (take (length (pkey a)) k) (take (length (pkey a)) (pkey a)) = bool_decide (k = pkey a).
Proof.
  apply eq_iff_eq_true. rewrite andb_true_iff, Nat.eqb_eq, bytes_eqb_eq, bool_decide_eq_true, (take_ge (pkey a)) by done.
  split; [intros [E <-]; by rewrite take_ge by lia|intros ->; split; [done|by rewrite take_ge]].
Qed.

Lemma check_params_step prev last io ad a args : cstr a ->
  (param_ok a /\ check_params prev last io ad (a :: args) =
     check_params (Some a) (Some (pkey a)) (match prev with Some p => if 0 <=? strcmp p a then false else io | None => io end)
       (match last with Some k => if bool_decide (k = pkey a) then true else ad | None => ad end) args) \/
  (~ param_ok a /\ check_params prev last io ad (a :: args) = Err).
Proof.
  intros Hc. cbn [check_params]. pose proof (strchr_eq a) as H. destruct (strchr a 61) as [eq|] eqn:E.
  - destruct H as (s & -> & Ha). destruct (strchr_param a s Ha) as [_ ->]. cbn [drop]. assert (drop (S (length (pkey a))) a = s) as Hd by (rewrite Ha at 2; apply drop_key).
    assert (take (length (pkey a)) a = pkey a) as Ht by (rewrite Ha at 2; by apply take_app_length'). rewrite drop_0.
    destruct (p_ok _) eqn:Ep; cbn [negb].
    + left. split; [constructor; [done|by exists s|by rewrite Hd]|]. rewrite Ht. destruct last as [k|]; [|done]. rewrite <- (same_key_test k a). by rewrite (take_ge (pkey a)) by done.
    + right. split; [intros [_ _ Hv]; rewrite Hd in Hv; congruence|done].
  - right. split; [|done]. intros [_ [s Hs] _]. apply H. rewrite Hs. apply elem_of_app. right. by constructor.
Qed.

Lemma check_params_flags args : forall prev last io ad r, Forall cstr args -> check_params prev last io ad args = Ok r -> (fst r = true -> io = true) /\ (snd r = false -> ad = false).
Proof.
  induction args as [|a args IH]; intros prev last io ad r Hc; cbn [check_params]; [intros [= <-]; done|]. inversion_clear Hc as [|? ? Ha Hargs].
  destruct (check_params_step prev last io ad a args Ha) as [[_ E]|[_ E]]; cbn [check_params] in E; rewrite E; [|done]. intros Hr. destruct (IH _ _ _ _ _ Hargs Hr) as [H1 H2].
  split; intros Hf; [specialize (H1 Hf); destruct prev; [destruct (_ <=? _); done|done]|specialize (H2 Hf); destruct last; [case_bool_decide; done|done]].
Qed.

Lemma check_params_spec args : forall p, Forall cstr args ->
  check_params (Some p) (Some (pkey p)) true false args = Ok (true, false) <-> Forall param_ok args /\ Sorted param_lt (p :: args).
Proof.
  induction args as [|a args IH]; intros p Hc; [cbn; split; [by repeat constructor|done]|]. inversion_clear Hc as [|? ? Ha Hargs].
  destruct (check_params_step (Some p) (Some (pkey p)) true false a args Ha) as [[Hok E]|[Hok E]]; rewrite E; [|split; [done|intros [Hf _]; inversion_clear Hf; done]].
  split.
  - intros H. destruct (check_params_flags _ _ _ _ _ _ Hargs H) as [H1 H2]. specialize (H1 eq_refl). specialize (H2 eq_refl).
    destruct (Z.leb_spec 0 (strcmp p a)); [done|]. case_bool_decide; [done|]. apply IH in H as [Hf Hs]; [|done]. split; [by constructor|]. constructor; [done|]. by constructor.
  - intros [Hf Hs]. inversion_clear Hf as [|? ? _ Hf']. inversion_clear Hs as [|? ? Hs' Hp]. inversion_clear Hp as [|? ? [Hlt Hne]].
    rewrite (proj2 (Z.leb_gt _ _)), bool_decide_false by done. by apply IH.
Qed.

Lemma parse_net_params_spec args : Forall cstr args -> parse_net_params args = Ok args <-> Forall param_ok args /\ Sorted param_lt args.
Proof.
  intros Hc. unfold parse_net_params. destruct args as [|a args]; [cbn; split; [by repeat constructor|done]|]. inversion_clear Hc as [|? ? Ha Hargs].
  destruct (check_params_step None None true false a args Ha) as [[Hok E]|[Hok E]]; rewrite E; [|split; [done|intros [Hf _]; inversion_clear Hf; done]].
  pose proof (check_params_spec args a Hargs) as Hs. destruct (check_params (Some a) _ _ _ _) as [[[] []]| | |]; cbn [cbind negb]; (split; [intros H; try done|intros [Hf H]; try done]);
    try (inversion_clear Hf as [|? ? _ Hf']; by pose proof (proj2 Hs (conj Hf' H))).
  destruct (proj1 Hs eq_refl) as [Hf Hsort]. split; [by constructor|done].
Qed.

Lemma param_lt_trans a b c : param_ok a -> param_ok b -> param_ok c -> param_lt a b -> param_lt b c -> param_lt a c.
Proof.
  intros Ha Hb Hc [H1 K1] [H2 K2]. split; [by apply (strcmp_trans a b c); try apply po_cstr|]. intros E. apply K1. symmetry. apply (key_between a b c); [done..|lia|lia|done].
Qed.

Lemma params_strongly_sorted l : Forall param_ok l -> Sorted param_lt l -> StronglySorted param_lt l.
Proof.
  induction l as [|a l IH]; intros Hf Hs; [constructor|]. inversion_clear Hf as [|? ? Ha Hl]. inversion_clear Hs as [|? ? Hs' Hd]. specialize (IH Hl Hs'). constructor; [done|].
  destruct Hd as [|b l Hab]; [constructor|]. inversion_clear IH as [|? ? _ Hb]. inversion_clear Hl as [|? ? Hob Hol]. constructor; [done|].
  rewrite List.Forall_forall in *. intros c Hc. apply (param_lt_trans a b c); auto.
Qed.

(** The values that votes give to a key. *)
Definition voted (votes : list (option (list bytes))) : list bytes := concat (map (default []) votes).
Definition values (k : bytes) (votes : list (option (list bytes))) : list Z := map pval (filter (fun p => pkey p = k) (voted votes)).

Definition vote_ok (v : option (list bytes)) : Prop := match v with Some ps => Forall cstr ps /\ parse_net_params ps = Ok ps | None => True end.

Lemma vote_params_ok v : vote_ok v -> Forall param_ok (default [] v) /\ StronglySorted param_lt (default [] v).
Proof.
  destruct v as [ps|]; [|intros _; split; constructor]. intros [Hc Hp]. apply parse_net_params_spec in Hp as [Hf Hs]; [|done]. split; [done|]. by apply params_strongly_sorted.
Qed.

Lemma filter_key_one k l : StronglySorted param_lt l -> zlen (filter (fun p => pkey p = k) l) <= 1.
Proof.
  induction 1 as [|a l Hs IH Ha]; [done|]. rewrite filter_cons. case_decide as E; [|done]. rewrite filter_none; [done|].
  apply (Forall_weaken _ _ _ Ha). intros b [_ Hk]. congruence.
Qed.

(** No one votes twice. *)
Lemma values_count k votes : Forall vote_ok votes -> zlen (values k votes) <= zlen votes.
Proof.
  unfold values, voted. induction 1 as [|v votes Hv _ IH]; [done|]. cbn [map concat]. rewrite filter_app, map_app, zlen_app, zlen_cons. unfold zlen at 1. rewrite length_map.
  destruct (vote_params_ok v Hv) as [_ Hs]. pose proof (filter_key_one k _ Hs). unfold zlen in *. lia.
Qed.

Lemma voted_ok votes : Forall vote_ok votes -> Forall param_ok (voted votes).
Proof. unfold voted. induction 1 as [|v votes Hv _ IH]; [constructor|]. cbn [map concat]. apply Forall_app. split; [apply vote_params_ok, Hv|done]. Qed.

Lemma parse_long_range s lo hi w : p_ok (tor_parse_long s 10 lo hi w) = true -> lo <= p_val (tor_parse_long s 10 lo hi w) <= hi.
Proof.
  unfold tor_parse_long, CHECK_STRTOX_RESULT. change (10 <? 0) with false. cbv iota. destruct (r_erange _); [done|]. destruct (r_conv _); [|done]. destruct (negb w && _); [done|].
  destruct (hi <? lo); [done|]. cbn [negb]. destruct (_ || _) eqn:E; [done|]. cbn [p_ok p_val]. intros _. blia.
Qed.

Lemma pval_range p : param_ok p -> INT32_MIN <= pval p <= INT32_MAX.
Proof. intros Hp. apply parse_long_range, po_value, Hp. Qed.

(** ** The loop goes through the runs of a key *)

Definition enough (total_authorities n : Z) : bool := (Z.quot total_authorities 2 <? n) || (MIN_VOTES_FOR_PARAM <=? n).

Definition emit (total_authorities : Z) (r : list bytes) : list bytes :=
  match head r, median (map pval r) with
  | Some p, Ok m => if enough total_authorities (zlen r) then [pkey p ++ 61 :: dec m] else []
  | _, _ => []
  end.

Lemma emit_run total acc p : param_ok p -> Forall (fun q => pkey q = pkey p) acc ->
  (let vals := map pval acc ++ [pval p] in
   if (Z.quot total 2 <? zlen vals) || (MIN_VOTES_FOR_PARAM <=? zlen vals) then let* m := median vals in Ok [take (S (length (pkey p))) p ++ dec m] else Ok []) = Ok (emit total (acc ++ [p])).
Proof.
  intros Hp Hacc. cbv zeta. unfold emit. rewrite map_app. cbn [map]. destruct (median_spec (map pval acc ++ [pval p])) as (m & -> & _); [by destruct acc|].
  assert (exists x, head (acc ++ [p]) = Some x /\ pkey x = pkey p) as (x & -> & Ek) by (destruct acc as [|x acc]; [by exists p|inversion_clear Hacc; by exists x]).
  unfold enough. replace (zlen (map pval acc ++ [pval p])) with (zlen (acc ++ [p])) by (unfold zlen; by rewrite !length_app, length_map).
  destruct (_ || _); [|done]. cbn [cbind]. rewrite take_key, Ek by done. by rewrite <- app_assoc.
Qed.

Lemma run_bound n h acc p l : Forall (fun r => zlen r <= n) (runs_from pkey h (acc ++ [p]) l) -> zlen (map pval acc) <? n = true.
Proof.
  destruct (runs_from_head pkey h (acc ++ [p]) l) as (x & rs & ->). intros Hn. inversion_clear Hn as [|? ? Hl _]. apply Z.ltb_lt. revert Hl. unfold zlen. rewrite !length_app, length_map. cbn [length]. lia.
Qed.

Lemma params_loop_runs n total rest : forall p acc,
  Forall param_ok (p :: rest) -> Forall (fun q => pkey q = pkey p) acc -> Forall (fun r => zlen r <= n) (runs_from pkey p (acc ++ [p]) rest) ->
  params_loop n total (map pval acc) (S (length (pkey p))) (p :: rest) = Ok (concat (map (emit total) (runs_from pkey p (acc ++ [p]) rest))).
Proof.
  induction rest as [|q rest IH]; intros p acc Hok Hacc Hn; pose proof (run_bound _ _ _ _ _ Hn) as Hb; inversion_clear Hok as [|? ? Hp Hrest]; cbn [params_loop];
    rewrite param_len_ok by done; cbn [cbind]; rewrite Hb, (po_value p Hp), s32_small by (apply pval_range, Hp); fold (pval p); cbn [head]; pose proof (emit_run total acc p Hp Hacc) as He; cbv zeta in He.
  - rewrite He. cbn [cbind params_loop runs_from map concat]. done.
  - inversion_clear Hrest as [|? ? Hq Hrest']. rewrite strncmp_key by done. cbn [runs_from] in *. destruct (decide (pkey p = pkey q)) as [E|E].
    + rewrite bool_decide_true by done. cbn [negb]. change (map pval acc ++ [pval p]) with (map pval acc ++ map pval [p]). rewrite <- map_app, E.
      rewrite (runs_from_key pkey p q) in * by done. apply IH; [by constructor| |done]. apply Forall_app. split; [|by constructor]. apply (Forall_weaken _ _ _ Hacc). intros x Hx. congruence.
    + rewrite bool_decide_false by congruence. cbn [negb]. rewrite He. cbn [cbind]. rewrite param_len_ok by done. cbn [cbind]. inversion_clear Hn as [|? ? _ Hn'].
      specialize (IH q [] ltac:(by constructor) ltac:(constructor) Hn'). cbn [map params_loop] in IH. rewrite param_len_ok in IH by done. cbn [cbind] in IH. rewrite IH. done.
Qed.

Lemma sorted_votes_grouped l : Forall param_ok l -> grouped_by pkey (smartlist_sort_strings l).
Proof.
  intros Hok. apply (sorted_grouped pkey str_le).
  - apply sort_strings_sorted. apply (Forall_weaken _ _ _ Hok). intros p Hp. apply po_cstr, Hp.
  - intros x y z Hx Hy Hz. rewrite sort_strings_perm in Hx, Hy, Hz. rewrite Forall_forall in Hok. intros Hxy Hyz E. by apply (key_between x y z); auto.
Qed.

(** The result as a function of the runs. *)
Lemma compute_params_runs votes total : Forall vote_ok votes ->
  dirvote_compute_params votes total = Ok (concat (map (emit total) (runs pkey (smartlist_sort_strings (voted votes))))).
Proof.
  intros Hv. pose proof (voted_ok votes Hv) as Hok. unfold dirvote_compute_params. fold (voted votes). pose proof (sorted_votes_grouped _ Hok) as Hg. pose proof (runs_spec pkey _ Hg) as Hr.
  pose proof (sort_strings_perm (voted votes)) as Hp. assert (Forall param_ok (smartlist_sort_strings (voted votes))) as Hok' by (by rewrite Hp).
  assert (Forall (fun r => zlen r <= zlen votes) (runs pkey (smartlist_sort_strings (voted votes)))) as Hn.
  { apply (Forall_weaken _ _ _ Hr). intros r (x & rest & _ & ->). pose proof (values_count (pkey x) votes Hv) as Hc. unfold values, zlen in *. rewrite length_map in Hc. by rewrite Hp. }
  destruct (smartlist_sort_strings (voted votes)) as [|p rest]; [done|]. rewrite param_len_ok by (by inversion_clear Hok'). cbn [cbind].
  apply (params_loop_runs _ _ rest p []); [done|constructor|exact Hn].
Qed.

(** ** What is published *)

Lemma median_perm a b : Permutation a b -> median a = median b.
Proof.
  intros Hp. unfold median, find_nth. replace (zlen b) with (zlen a) by (unfold zlen; by rewrite Hp). replace (merge_sort Z.le b) with (merge_sort Z.le a); [done|].
  apply (StronglySorted_unique Z.le); [apply StronglySorted_merge_sort; apply _..|]. by rewrite !merge_sort_Permutation.
Qed.

Lemma strcmp_keys k1 : forall k2 a b a' b', 61 ∉ k1 -> 61 ∉ k2 -> k1 <> k2 ->
  strcmp (k1 ++ 61 :: a) (k2 ++ 61 :: b) = strcmp (k1 ++ 61 :: a') (k2 ++ 61 :: b') /\ strcmp (k1 ++ 61 :: a) (k2 ++ 61 :: b) <> 0.
Proof.
  induction k1 as [|x k1 IH]; intros [|y k2] a b a' b' H1 H2 Hne; [done|..]; cbn [app strcmp].
  - apply not_elem_of_cons in H2 as [H2 _]. rewrite (proj2 (Z.eqb_neq 61 y)) by done. lia.
  - apply not_elem_of_cons in H1 as [H1 _]. rewrite (proj2 (Z.eqb_neq x 61)) by congruence. lia.
  - apply not_elem_of_cons in H1 as [H1 H1']. apply not_elem_of_cons in H2 as [H2 H2']. destruct (Z.eqb_spec x y) as [->|]; [|lia]. apply IH; [done..|congruence].
Qed.

Lemma dec_cstr m : cstr (dec m).
Proof.
  unfold dec. destruct (Z.ltb_spec m 0).
  - constructor; [lia|]. destruct (udec_spec (- m)) as (_ & Hd & _); [lia|]. apply (Forall_weaken _ _ _ Hd). intros c Hc. lia.
  - destruct (udec_spec m) as (_ & Hd & _); [lia|]. apply (Forall_weaken _ _ _ Hd). intros c Hc. lia.
Qed.

Lemma parse_dec m lo hi : LONG_MIN <= m <= LONG_MAX -> lo <= m <= hi -> p_ok (tor_parse_long (dec m) 10 lo hi false) = true /\ p_val (tor_parse_long (dec m) 10 lo hi false) = m.
Proof.
  intros Hm Hr. pose proof (tor_parse_long_dec m [] lo hi Hm Hr ltac:(done)) as E. rewrite app_nil_r in E. revert E. unfold tor_parse_long, CHECK_STRTOX_RESULT. change (10 <? 0) with false. cbv iota.
  destruct (r_erange _); [done|]. destruct (r_conv _); [|done]. cbn [negb andb]. destruct (hi <? lo); [done|]. destruct (_ || _); [done|]. intros [= E1 E2]. rewrite E2. done.
Qed.

Lemma emitted_ok k m : cstr k -> 61 ∉ k -> INT32_MIN <= m <= INT32_MAX -> param_ok (k ++ 61 :: dec m) /\ pkey (k ++ 61 :: dec m) = k /\ pval (k ++ 61 :: dec m) = m.
Proof.
  intros Hc Hk Hm. pose proof (pkey_app k (dec m) Hk) as Ek. destruct (parse_dec m INT32_MIN INT32_MAX) as [E1 E2]; [unfold INT32_MIN, INT32_MAX, LONG_MIN, LONG_MAX in *; lia|done|].
  split; [constructor|].
  - apply Forall_app. split; [done|]. constructor; [lia|apply dec_cstr].
  - exists (dec m). by rewrite Ek.
  - by rewrite Ek, drop_key.
  - split; [done|]. unfold pval. by rewrite Ek, drop_key.
Qed.

(** What the votes decide on a key. *)
Definition decided (k : bytes) (votes : list (option (list bytes))) (total_authorities : Z) : option Z :=
  match median (values k votes) with Ok m => if enough total_authorities (zlen (values k votes)) then Some m else None | _ => None end.

Lemma emit_decided votes total x rest : Forall vote_ok votes -> x :: rest = filter (fun z => pkey z = pkey x) (smartlist_sort_strings (voted votes)) ->
  emit total (x :: rest) = match decided (pkey x) votes total with Some m => [pkey x ++ 61 :: dec m] | None => [] end.
Proof.
  intros Hv Hr. unfold emit, decided. cbn [head]. assert (Permutation (map pval (x :: rest)) (values (pkey x) votes)) as Hp by (rewrite Hr; unfold values; by rewrite sort_strings_perm).
  rewrite (median_perm _ _ Hp). replace (zlen (x :: rest)) with (zlen (values (pkey x) votes)) by (unfold zlen; by rewrite <- Hp, length_map). destruct (median _); [|done..]. by destruct (enough _ _).
Qed.

Lemma median_in l m : median l = Ok m -> m ∈ l.
Proof. intros E. destruct l as [|x l]; [done|]. destruct (median_spec (x :: l)) as (m' & E' & H & _); [done|]. congruence. Qed.

Lemma decided_range k votes total m : Forall vote_ok votes -> decided k votes total = Some m -> INT32_MIN <= m <= INT32_MAX /\ cstr k /\ 61 ∉ k /\ exists x, x ∈ voted votes /\ pkey x = k.
Proof.
  intros Hv. unfold decided. destruct (median _) as [m'| | |] eqn:E; [|done..]. destruct (enough _ _); [|done]. intros [= <-]. apply median_in in E. unfold values in E.
  apply list_elem_of_fmap in E as (p & -> & Hp). apply list_elem_of_filter in Hp as [<- Hp]. pose proof (voted_ok votes Hv) as Hok. rewrite Forall_forall in Hok. specialize (Hok p Hp).
  split; [by apply pval_range|]. split; [pose proof (cstr_key p Hok) as Hc; apply Forall_app in Hc as [Hc _]; exact Hc|]. split; [apply pkey_no_eq|]. by exists p.
Qed.

Lemma compute_params_members votes total p : Forall vote_ok votes ->
  p ∈ concat (map (emit total) (runs pkey (smartlist_sort_strings (voted votes)))) <-> exists k m, p = k ++ 61 :: dec m /\ decided k votes total = Some m.
Proof.
  intros Hv. pose proof (sorted_votes_grouped _ (voted_ok votes Hv)) as Hg. pose proof (runs_spec pkey _ Hg) as Hr. rewrite Forall_forall in Hr.
  rewrite list_elem_of_In, List.in_concat. split.
  - intros (e & He & Hp). apply in_map_iff in He as (r & <- & Hin). apply list_elem_of_In in Hin. destruct (Hr r Hin) as (x & rest & -> & E). rewrite (emit_decided _ _ _ _ Hv E) in Hp.
    destruct (decided (pkey x) votes total) as [m|] eqn:Ed; [|done]. destruct Hp as [<-|[]]. by exists (pkey x), m.
  - intros (k & m & -> & Ed). destruct (decided_range k votes total m Hv Ed) as (_ & _ & _ & x & Hx & <-). exists [pkey x ++ 61 :: dec m]. split; [|by left].
    apply in_map_iff. exists (filter (fun z => pkey z = pkey x) (smartlist_sort_strings (voted votes))). rewrite <- (sort_strings_perm (voted votes)) in Hx. pose proof (runs_cover pkey _ _ Hg Hx) as Hin. split; [|by apply list_elem_of_In].
    destruct (Hr _ Hin) as (y & rest & E1 & E2). rewrite E1 in E2 |- *. assert (pkey y = pkey x) as Ey by (assert (y ∈ y :: rest) as Hy by constructor; rewrite <- E1 in Hy; by apply list_elem_of_filter in Hy as [Hy _]).
    rewrite (emit_decided _ _ _ _ Hv E2), Ey, Ed. done.
Qed.

Lemma emit_cases total x rest : emit total (x :: rest) = [] \/ exists m, emit total (x :: rest) = [pkey x ++ 61 :: dec m].
Proof. unfold emit. cbn [head]. destruct (median _) as [m| | |]; [|by left..]. destruct (enough _ _); [right; by exists m|by left]. Qed.

Lemma emitted_lt x y m n : param_ok x -> param_ok y -> str_le x y -> pkey x <> pkey y -> param_lt (pkey x ++ 61 :: dec m) (pkey y ++ 61 :: dec n).
Proof.
  intros Hx Hy Hle Hne. split; [|by rewrite !pkey_app by apply pkey_no_eq]. destruct (po_split x Hx) as [s Hs]. destruct (po_split y Hy) as [t Ht].
  destruct (strcmp_keys (pkey x) (pkey y) s t (dec m) (dec n)) as [E1 E2]; [apply pkey_no_eq..|done|]. unfold str_le in Hle. rewrite Hs, Ht in Hle. lia.
Qed.

Lemma emit_runs_sorted total rs :
  Forall (fun r => r <> [] /\ Forall param_ok r) rs -> StronglySorted (fun r1 r2 => forall x y, x ∈ r1 -> y ∈ r2 -> str_le x y /\ pkey x <> pkey y) rs ->
  StronglySorted param_lt (concat (map (emit total) rs)).
Proof.
  intros Hok Hrs. induction Hrs as [|r rs Hrs IH Hall]; [constructor|]. inversion_clear Hok as [|? ? [Hn Hr] Hok']. specialize (IH Hok'). cbn [map concat].
  destruct r as [|u rest]; [done|]. destruct (emit_cases total u rest) as [->|[m ->]]; [exact IH|]. constructor; [exact IH|]. apply List.Forall_forall. intros q Hq.
  apply List.in_concat in Hq as (e & He & Hqe). apply in_map_iff in He as (r2 & <- & Hr2). rewrite List.Forall_forall in Hall, Hok'. destruct (Hok' r2 Hr2) as [Hn2 Hok2].
  destruct r2 as [|v rest2]; [done|]. destruct (emit_cases total v rest2) as [E|[n E]]; rewrite E in Hqe; [done|]. destruct Hqe as [<-|[]].
  destruct (Hall _ Hr2 u v) as [Hle Hne]; [constructor..|]. inversion_clear Hr. inversion_clear Hok2. by apply emitted_lt.
Qed.

Lemma published_sorted votes total : Forall vote_ok votes -> StronglySorted param_lt (concat (map (emit total) (runs pkey (smartlist_sort_strings (voted votes))))).
Proof.
  intros Hv. pose proof (voted_ok votes Hv) as Hok. pose proof (sorted_votes_grouped _ Hok) as Hg. apply emit_runs_sorted.
  - apply (Forall_weaken _ _ _ (runs_spec pkey _ Hg)). intros r (x & rest & Hr & E). split; [by rewrite Hr|]. rewrite E. apply Forall_forall. intros y Hy.
    apply list_elem_of_filter in Hy as [_ Hy]. rewrite sort_strings_perm in Hy. by apply (proj1 (Forall_forall _ _) Hok).
  - apply (runs_sorted pkey str_le); [|done]. apply sort_strings_sorted. apply (Forall_weaken _ _ _ Hok). intros p Hp. apply po_cstr, Hp.
Qed.

Lemma published_ok votes total : Forall vote_ok votes -> Forall param_ok (concat (map (emit total) (runs pkey (smartlist_sort_strings (voted votes))))).
Proof.
  intros Hv. apply Forall_forall. intros p Hp. apply compute_params_members in Hp as (k & m & -> & Hd); [|done]. apply decided_range in Hd as (H1 & H2 & H3 & _); [|done]. by apply emitted_ok.
Qed.

(** C25. When every vote passed the parser, the parameters of the consensus can be computed, the parser accepts them in turn, and they are, for each key that more than half of the authorities
    or at least three of them give a value, the key with the median of these values. *)
Theorem params_are_medians votes total_authorities :
  Forall vote_ok votes ->
  exists out, dirvote_compute_params votes total_authorities = Ok out /\ Forall cstr out /\ parse_net_params out = Ok out /\
    forall p, p ∈ out <-> exists k m, p = k ++ 61 :: dec m /\ enough total_authorities (zlen (values k votes)) = true /\ median (values k votes) = Ok m.
Proof.
  intros Hv. eexists. split; [by apply compute_params_runs|].
  pose proof (published_ok votes total_authorities Hv) as Hok.
  assert (Forall cstr (concat (map (emit total_authorities) (runs pkey (smartlist_sort_strings (voted votes)))))) as Hc by (apply (Forall_weaken _ _ _ Hok); intros p Hp; apply po_cstr, Hp).
  split; [exact Hc|]. split; [apply parse_net_params_spec; [exact Hc|]; split; [exact Hok|]; by apply StronglySorted_Sorted, published_sorted|].
  intros p. rewrite compute_params_members by done. unfold decided. split; intros (k & m & -> & H); exists k, m; (split; [done|]).
  - destruct (median _); [|done..]. destruct (enough _ _); [|done]. by injection H as ->.
  - destruct H as [He Hm]. by rewrite Hm, He.
Qed.

(** ** What clients read *)

Lemma key_test k p : cstr k -> 61 ∉ k -> param_ok p -> (strcmpstart p k =? 0) && (cur (drop (length k) p) =? 61) = bool_decide (pkey p = k).
Proof.
  intros Hc Hk Hp. rewrite strcmpstart_prefix by (by apply cstr_no_nul). rewrite <- (prefix_key k p Hk Hp). apply eq_iff_eq_true. rewrite andb_true_iff, !prefix_of_spec, Z.eqb_eq. split.
  - intros [[r ->] E]. rewrite drop_app_length in E. destruct r as [|c r]; [done|]. cbn in E. subst c. exists r. by rewrite <- app_assoc.
  - intros [r ->]. rewrite <- app_assoc. split; [by eexists|]. by rewrite drop_app_length.
Qed.

Lemma drop_pkey p k : pkey p = k -> drop (length k + 1) p = drop (S (length (pkey p))) p.
Proof. intros <-. f_equal. lia. Qed.

Lemma find_param_filter k d l : cstr k -> 61 ∉ k -> Forall param_ok l -> find_param l k d = match filter (fun p => pkey p = k) l with p :: _ => pval p | [] => d end.
Proof.
  intros Hc Hk Hl. induction Hl as [|p l Hp Hl IH]; [done|]. cbn [find_param]. rewrite key_test, filter_cons by done. case_bool_decide as E; case_decide; try done.
  rewrite drop_pkey, (po_value p Hp) by done. done.
Qed.

Lemma intermediate_filter k l : forall d n, cstr k -> 61 ∉ k -> Forall param_ok l ->
  intermediate_loop k d n l = Some (match last (filter (fun p => pkey p = k) l) with Some p => pval p | None => d end, n + zlen (filter (fun p => pkey p = k) l)).
Proof.
  induction l as [|p l IH]; intros d n Hc Hk Hl; cbn [intermediate_loop]; [by rewrite Z.add_0_r|]. inversion_clear Hl as [|? ? Hp Hl']. rewrite key_test, filter_cons by done.
  case_bool_decide as E; case_decide; try done; [|by apply IH]. rewrite drop_pkey, (po_value p Hp), s32_small by first [done|apply pval_range, Hp]. rewrite IH by done. rewrite last_cons, zlen_cons. fold (pval p).
  f_equal. f_equal; [by destruct (last _)|lia].
Qed.

Lemma published_filter votes total k out : Forall vote_ok votes -> StronglySorted param_lt out ->
  (forall p, p ∈ out <-> exists k m, p = k ++ 61 :: dec m /\ decided k votes total = Some m) ->
  filter (fun p => pkey p = k) out = match decided k votes total with Some m => [k ++ 61 :: dec m] | None => [] end.
Proof.
  intros Hv Hs Hm. pose proof (filter_key_one k out Hs) as Hone. destruct (filter (fun p => pkey p = k) out) as [|p [|q r]] eqn:E.
  - destruct (decided k votes total) as [m|] eqn:Ed; [|done]. exfalso. assert (k ++ 61 :: dec m ∈ filter (fun p => pkey p = k) out) as Hin; [|rewrite E in Hin; by apply not_elem_of_nil in Hin].
    apply list_elem_of_filter. split; [|apply Hm; by exists k, m]. apply decided_range in Ed as (_ & _ & Hk & _); [|done]. by apply pkey_app.
  - assert (p ∈ filter (fun p => pkey p = k) out) as Hin by (rewrite E; constructor). apply list_elem_of_filter in Hin as [Hk Hin]. apply Hm in Hin as (k' & m & -> & Ed).
    pose proof (decided_range k' votes total m Hv Ed) as (_ & _ & Hk' & _). rewrite pkey_app in Hk by done. subst k'. by rewrite Ed.
  - exfalso. revert Hone. unfold zlen. cbn [length]. lia.
Qed.

(** C24. A majority decides: when enough authorities give a parameter a value and more than half of these values lie between two bounds that readers allow, then what is read of the parameters of the consensus
    during the vote and by clients is one number between these bounds, whatever the other values are. *)
Theorem majority_decides_param votes total_authorities k d lo hi a b :
  Forall vote_ok votes -> cstr k -> 61 ∉ k -> lo < hi -> lo <= d <= hi -> lo <= a -> b <= hi ->
  enough total_authorities (zlen (values k votes)) = true -> zlen (values k votes) < 2 * count (fun v => (a <=? v) && (v <=? b)) (values k votes) ->
  exists out v, dirvote_compute_params votes total_authorities = Ok out /\ dirvote_get_intermediate_param_value out k d = v /\ networkstatus_get_param (Some out) k d lo hi = Ok v /\ a <= v <= b.
Proof.
  intros Hv Hc Hk Hlh Hd Ha Hb He Hmaj. assert (values k votes <> []) as Hne by (intros E; rewrite E in Hmaj; done).
  destruct (median_spec _ Hne) as (m & Em & _). pose proof (median_majority _ _ _ _ Em Hmaj) as Hm. assert (decided k votes total_authorities = Some m) as Ed by (unfold decided; by rewrite Em, He).
  pose proof (decided_range k votes _ m Hv Ed) as (Hr & _).
  eexists _, m. split; [by apply compute_params_runs|]. set (out := concat _). pose proof (published_sorted votes total_authorities Hv : StronglySorted param_lt out) as Hs.
  assert (forall p, p ∈ out <-> exists k m, p = k ++ 61 :: dec m /\ decided k votes total_authorities = Some m) as Hmem by (intros p; by apply compute_params_members).
  pose proof (published_ok votes total_authorities Hv : Forall param_ok out) as Hok.
  pose proof (published_filter votes total_authorities k out Hv Hs Hmem) as Hf. rewrite Ed in Hf. destruct (emitted_ok k m Hc Hk Hr) as (_ & _ & Hpv). split; [|split; [|done]].
  - unfold dirvote_get_intermediate_param_value. rewrite intermediate_filter, Hf by done. cbn [last]. exact Hpv.
  - rewrite networkstatus_get_param_value by done. unfold param_value. rewrite find_param_filter, Hf, Hpv by done. f_equal. lia.
Qed.

(** Four authorities that agree up to little and one that does not. *)
Definition ex_votes : list (option (list bytes)) :=
  [Some [s2b "CircuitPriorityHalflifeMsec=30000"; s2b "bwweightscale=10000"]; Some [s2b "bwweightscale=9990"]; None; Some [s2b "bwweightscale=10010"]; Some [s2b "bwweightscale=-2147483648"; s2b "refuse=1"]].

Lemma ex_votes_ok : Forall vote_ok ex_votes.
Proof.
  repeat constructor; lia.
Qed.

Example ex_votes_params : dirvote_compute_params ex_votes 9 = Ok [s2b "bwweightscale=9990"].
Proof. vm_compute. reflexivity. Qed.

Lemma params_are_medians_witness : exists out, dirvote_compute_params ex_votes 9 = Ok out /\ parse_net_params out = Ok out.
Proof. destruct (params_are_medians ex_votes 9 ex_votes_ok) as (out & E & _ & Hp & _). exists out. split; [exact E|exact Hp]. Defined.

Lemma majority_decides_param_witness :
  exists out v, dirvote_compute_params ex_votes 9 = Ok out /\ networkstatus_get_param (Some out) (s2b "bwweightscale") 10000 1 INT32_MAX = Ok v /\ 9000 <= v <= 11000.
Proof.
  destruct (majority_decides_param ex_votes 9 (s2b "bwweightscale") 10000 1 INT32_MAX 9000 11000 ex_votes_ok) as (out & v & E1 & _ & E2 & Hv);
    [repeat constructor; lia|vm_compute; intros H; repeat (inversion_clear H as [|? ? ? H']; rename H' into H)|done|done|done|done|reflexivity|reflexivity|].
  exists out, v. split; [exact E1|]. split; [exact E2|exact Hv].
Defined.
