(* ===== verification/VoteMethods.v ===== *)
(** * Voting on consensus methods and protocols

    Models from feature/dirauth/dirvote.c the votes by counting: [get_frequent_members], [compute_consensus_method] and
    [compute_nth_protocol_set].

    [smartlist_sort] calls [qsort], which puts a list in order and leaves open in which order members come that compare equal; where the comparison allows such members the sort is a parameter. *)

From S2P Require Import Prelude CString UtilString StrList Protover Runs VoteParams.
From Stdlib Require Import ZArith String Sorting.Sorted.
From stdpp Require Import base list sets numbers sorting.
Open Scope Z_scope.

(** ** Members that occur often *)

Fixpoint frequent_loop (min : Z) (cur : option bytes) (count : Z) (l : list bytes) : list bytes :=
  match l with
  | [] => if min <? count then option_list cur else []
  | cp :: l =>
      match cur with
      | Some c => if strcmp cp c =? 0 then frequent_loop min cur (count + 1) l else (if min <? count then [c] else []) ++ frequent_loop min (Some cp) 1 l
      | None => (if min <? count then option_list cur else []) ++ frequent_loop min (Some cp) 1 l
      end
  end.

Definition get_frequent_members (l : list bytes) (min : Z) : list bytes := frequent_loop min None 0 l.

(** ** Consensus methods *)

Definition MIN_SUPPORTED_CONSENSUS_METHOD : Z := 32.
Definition MAX_SUPPORTED_CONSENSUS_METHOD : Z := 35.

Definition method_num (s : bytes) : Z := p_val (tor_parse_long s 10 1 INT_MAX false).

Definition cmp_int_strings_ (a b : bytes) : Z :=
  let ai := method_num a in
  let bi := method_num b in
  if ai <? bi then -1 else if ai =? bi then if ai =? 0 then strcmp a b else 0 else 1.

Definition consensus_method_is_supported (method : Z) : bool := (MIN_SUPPORTED_CONSENSUS_METHOD <=? method) && (method <=? MAX_SUPPORTED_CONSENSUS_METHOD).

Definition make_consensus_method_list (low high : Z) (separator : bytes) : cres bytes :=
  smartlist_join_strings (map dec (filter (fun i => consensus_method_is_supported i = true) (seqZ low (high - low + 1)))) separator false.

Section Methods.

(** [smartlist_sort] with [cmp_int_strings_]. *)
Variable sort_methods : list bytes -> list bytes.

Fixpoint collect_methods (votes : list (list bytes)) : cres (list bytes) :=
  match votes with
  | [] => Ok []
  | supported_methods :: votes =>
      let* tmp := smartlist_uniq cmp_int_strings_ (sort_methods supported_methods) in
      let* all_methods := collect_methods votes in
      Ok (tmp ++ all_methods)
  end.

Definition compute_consensus_method (votes : list (list bytes)) : cres Z :=
  let min := Z.quot (zlen votes * 2) 3 in
  let* all_methods := collect_methods votes in
  let acceptable_methods := get_frequent_members (sort_methods all_methods) min in
  match last acceptable_methods with
  | Some best => Ok (method_num best)
  | None => Ok 1
  end.

End Methods.

(** ** Protocols *)

(** The protocol lines of a vote, in the order of their numbers. *)
Record protocol_votes := mkpv {
  recommended_client_protocols : option bytes; recommended_relay_protocols : option bytes; required_client_protocols : option bytes; required_relay_protocols : option bytes
}.

Definition get_nth_protocol_set_vote (n : Z) (vote : protocol_votes) : cres (option bytes) :=
  if n =? 0 then Ok (recommended_client_protocols vote) else if n =? 1 then Ok (recommended_relay_protocols vote)
  else if n =? 2 then Ok (required_client_protocols vote) else if n =? 3 then Ok (required_relay_protocols vote) else Bug.

Fixpoint nth_protocol_votes (n : Z) (votes : list protocol_votes) : cres (list bytes) :=
  match votes with
  | [] => Ok []
  | ns :: votes => let* v := get_nth_protocol_set_vote n ns in let* vs := nth_protocol_votes n votes in Ok (option_list v ++ vs)
  end.

Definition set_keyword (n : Z) : cres bytes :=
  if n =? 0 then Ok (s2b "recommended-client-protocols") else if n =? 1 then Ok (s2b "recommended-relay-protocols")
  else if n =? 2 then Ok (s2b "required-client-protocols") else if n =? 3 then Ok (s2b "required-relay-protocols") else Bug.

Definition set_threshold (n n_voters : Z) : Z := if n <? 2 then CEIL_DIV n_voters 2 else CEIL_DIV (n_voters * 2) 3.

Definition compute_nth_protocol_set (n n_voters : Z) (votes : list protocol_votes) : cres bytes :=
  let* keyword := set_keyword n in
  let* proto_votes := nth_protocol_votes n votes in
  let* protocols := protover_compute_vote proto_votes (set_threshold n n_voters) in
  Ok (keyword ++ [32] ++ protocols ++ [10]).

(** ** Frequent members are found run by run *)

Lemma frequent_loop_runs min l : forall c acc, 0 <= min -> Forall cstr (c :: l) ->
  frequent_loop min (Some c) (zlen (c :: acc)) l = concat (map (fun r => if min <? zlen r then take 1 r else []) (runs_from id c (c :: acc) l)).
Proof.
  induction l as [|x l IH]; intros c acc Hm Hc; cbn [frequent_loop runs_from map concat].
  - rewrite app_nil_r. done.
  - inversion_clear Hc as [|? ? Hcc Hl]. inversion_clear Hl as [|? ? Hx Hl']. pose proof (strcmp_eq x c (cstr_no_nul _ Hx) (cstr_no_nul _ Hcc)) as Heq. destruct (decide (id c = id x)) as [E|E].
    + rewrite (proj2 (Z.eqb_eq _ _)) by (by apply Heq). replace (zlen (c :: acc) + 1) with (zlen (c :: acc ++ [x])) by zlia. apply IH; [done|]. by constructor.
    + rewrite (proj2 (Z.eqb_neq _ _)) by (intros E2; apply E; symmetry; by apply Heq). cbn [map concat]. f_equal. apply (IH x []); [done|]. by constructor.
Qed.

Lemma frequent_runs min l : 0 <= min -> Forall cstr l -> get_frequent_members l min = concat (map (fun r => if min <? zlen r then take 1 r else []) (runs id l)).
Proof.
  intros Hm Hc. unfold get_frequent_members. destruct l as [|c l]; cbn [frequent_loop]; rewrite (proj2 (Z.ltb_ge min 0)) by done; [done|]. cbn [app].
  apply (frequent_loop_runs min l c []); done.
Qed.

(** The members found are those that occur more than [min] times, once each and in the order of the list. *)
Lemma frequent_spec (R : bytes -> bytes -> Prop) min l :
  0 <= min -> Forall cstr l -> StronglySorted R l -> grouped_by id l ->
  StronglySorted (fun x y => R x y /\ x <> y) (get_frequent_members l min) /\ forall x, x ∈ get_frequent_members l min <-> min < occurs x l.
Proof.
  intros Hm Hc Hs Hg. rewrite frequent_runs by done. pose proof (runs_spec id l Hg) as Hr. split.
  - pose proof (runs_sorted id R l Hs Hg) as Hrs. revert Hr Hrs. generalize (runs id l). intros rs Hr Hrs. induction Hrs as [|r rs Hrs IH Hall]; [constructor|].
    inversion_clear Hr as [|? ? Hr1 Hr']. specialize (IH Hr'). cbn [map concat]. destruct Hr1 as (u & rest & -> & _). destruct (min <? _); [|exact IH]. constructor; [exact IH|].
    apply List.Forall_forall. intros q Hq. apply List.in_concat in Hq as (e & He & Hqe). apply in_map_iff in He as (r2 & <- & Hr2). rewrite List.Forall_forall in Hall. apply (Hall r2 Hr2); [constructor|].
    apply list_elem_of_In. destruct (min <? zlen r2); [|done]. destruct r2; [done|]. destruct Hqe as [<-|[]]. by left.
  - intros x. rewrite list_elem_of_In, List.in_concat. rewrite Forall_forall in Hr. split.
    + intros (e & He & Hx). apply in_map_iff in He as (r & <- & Hin). apply list_elem_of_In in Hin. destruct (Hr r Hin) as (u & rest & E1 & E2). destruct (Z.ltb_spec min (zlen r)) as [Hlt|]; [|done].
      rewrite E1 in Hx. destruct Hx as [<-|[]]. rewrite E2 in Hlt. exact Hlt.
    + intros Ho. assert (x ∈ l) as Hx.
      { destruct (decide (x ∈ l)) as [|Hn]; [done|]. exfalso. unfold occurs in Ho. rewrite filter_none in Ho; [change (zlen []) with 0 in Ho; lia|]. apply Forall_forall. intros z Hz ->. done. }
      destruct (filter_in_run l x Hx) as [r E]. exists (take 1 (filter (fun z => z = x) l)). split; [|rewrite E; by left]. apply in_map_iff. exists (filter (fun z => z = x) l).
      split; [unfold occurs in Ho; by rewrite (proj2 (Z.ltb_lt _ _))|]. apply list_elem_of_In. apply (runs_cover id l x Hg Hx).
Qed.

(** ** The method that is elected *)

(** A method as [%d] prints it. *)
Definition canonical (s : bytes) : Prop := exists n, 1 <= n <= INT_MAX /\ s = dec n.

Lemma method_num_dec n : 1 <= n <= INT_MAX -> method_num (dec n) = n.
Proof. intros Hn. unfold method_num. apply parse_dec; [unfold INT_MAX, LONG_MIN, LONG_MAX in *; lia|done]. Qed.

Lemma canonical_inj a b : canonical a -> canonical b -> method_num a = method_num b -> a = b.
Proof. intros (m & Hm & ->) (n & Hn & ->). rewrite !method_num_dec by done. by intros ->. Qed.

Lemma cmp_canonical a b : canonical a -> canonical b -> cmp_int_strings_ a b = if method_num a <? method_num b then -1 else if method_num a =? method_num b then 0 else 1.
Proof.
  intros (m & Hm & ->) (n & Hn & ->). unfold cmp_int_strings_. rewrite !method_num_dec by done. destruct (m <? n); [done|]. destruct (m =? n); [|done]. by rewrite (proj2 (Z.eqb_neq m 0)) by lia.
Qed.

Lemma cmp_canonical_0 a b : canonical a -> canonical b -> cmp_int_strings_ a b = 0 <-> a = b.
Proof.
  intros Ha Hb. rewrite cmp_canonical by done. split; [|intros ->; by rewrite Z.ltb_irrefl, Z.eqb_refl]. destruct (_ <? _); [done|]. destruct (Z.eqb_spec (method_num a) (method_num b)); [|done].
  intros _. by apply canonical_inj.
Qed.

Lemma cmp_canonical_le a b : canonical a -> canonical b -> cmp_int_strings_ a b <= 0 -> method_num a <= method_num b.
Proof. intros Ha Hb. rewrite cmp_canonical by done. destruct (Z.ltb_spec (method_num a) (method_num b)); [lia|]. destruct (Z.eqb_spec (method_num a) (method_num b)); lia. Qed.

Lemma canonical_cstr s : canonical s -> cstr s.
Proof. intros (n & _ & ->). apply dec_cstr. Qed.

Definition cmp_le (a b : bytes) : Prop := cmp_int_strings_ a b <= 0.

Lemma canonical_grouped l : Forall canonical l -> StronglySorted cmp_le l -> grouped_by id l.
Proof.
  intros Hc Hs. apply (sorted_grouped id cmp_le l Hs). intros x y z Hx Hy Hz H1 H2 E. rewrite Forall_forall in Hc. unfold id in *. subst z.
  apply canonical_inj; [by auto..|]. pose proof (cmp_canonical_le x y). pose proof (cmp_canonical_le y x). unfold cmp_le in *. assert (method_num x <= method_num y <= method_num x); [split|lia]; auto.
Qed.

(** How many votes list a method. *)
Definition support (n : Z) (votes : list (list bytes)) : Z := zlen (filter (fun v => dec n ∈ v) votes).

Section MethodProofs.

Variable sort_methods : list bytes -> list bytes.
Hypothesis sort_perm : forall l, Permutation (sort_methods l) l.
Hypothesis sort_sorted : forall l, Forall cstr l -> StronglySorted cmp_le (sort_methods l).

Lemma grouped_cmp l : Forall canonical l -> grouped_by id l -> grouped cmp_int_strings_ l.
Proof.
  intros Hc. induction Hc as [|x l Hx Hl IH]; intros Hg; [done|]. split; [|by apply IH, (grouped_by_suffix id [x])]. intros pre y suf -> E.
  apply Forall_app in Hl as [_ Hl]. inversion_clear Hl as [|? ? Hy _]. apply cmp_canonical_0 in E as <-; [|done..]. apply (Forall_weaken _ _ _ (Hg [] x pre x suf eq_refl eq_refl)).
  intros z Hz. cbn in Hz. subst z. by apply cmp_canonical_0.
Qed.

Lemma cmp_refl s : cmp_int_strings_ s s = 0.
Proof. unfold cmp_int_strings_. rewrite Z.ltb_irrefl, Z.eqb_refl. destruct (_ =? 0); [apply strcmp_refl|done]. Qed.

Lemma distinct_once (l : list bytes) x : pairwise_distinct cmp_int_strings_ l -> occurs x l <= 1.
Proof.
  induction l as [|y l IH]; [done|]. intros [Hy Hl]. unfold occurs. rewrite filter_cons. case_decide as E; [|by apply IH]. subst y. rewrite filter_none; [done|].
  apply Forall_forall. intros z Hz ->. apply (Hy x Hz), cmp_refl.
Qed.

Lemma collect_methods_spec votes : Forall (Forall canonical) votes ->
  exists all, collect_methods sort_methods votes = Ok all /\ Forall canonical all /\ forall n, occurs (dec n) all = support n votes.
Proof.
  induction 1 as [|v votes Hv _ (all & E & Hc & Ho)]; cbn [collect_methods]; [exists []; split; [done|]; split; [constructor|done]|].
  assert (Forall canonical (sort_methods v)) as Hsc by (by rewrite sort_perm).
  destruct (smartlist_uniq_correct cmp_int_strings_ (sort_methods v)) as (tmp & Et & Hd & Hsub & Hcov); [apply grouped_cmp; [done|]; apply canonical_grouped; [done|]; apply sort_sorted, (Forall_weaken _ _ _ Hv), canonical_cstr|apply cmp_refl|].
  rewrite Et, E. cbn [cbind]. assert (Forall canonical tmp) as Htc by (apply Forall_forall; intros z Hz; rewrite Forall_forall in Hsc; auto).
  exists (tmp ++ all). split; [done|]. split; [by apply Forall_app|]. intros n. unfold occurs at 1, support. rewrite filter_app, zlen_app, filter_cons. fold (occurs (dec n) tmp) (occurs (dec n) all). rewrite Ho.
  case_decide as Hin.
  - rewrite zlen_cons. fold (support n votes). rewrite <- (sort_perm v) in Hin. destruct (Hcov (dec n) Hin) as (y & Hy & Ey). rewrite Forall_forall in Hsc, Htc.
    apply cmp_canonical_0 in Ey as ->; [|by auto..]. pose proof (occurs_pos _ _ Hy). pose proof (distinct_once tmp (dec n) Hd). lia.
  - fold (support n votes). rewrite (occurs_none (dec n) tmp); [lia|]. intros Hx. apply Hin. rewrite <- (sort_perm v). by apply Hsub.
Qed.

Lemma sorted_last {A} (R : A -> A -> Prop) l x y : StronglySorted R l -> last l = Some x -> y ∈ l -> y = x \/ R y x.
Proof.
  intros Hs. induction Hs as [|a l Hs IH Ha]; intros Hl Hy; [done|]. rewrite last_cons in Hl. apply elem_of_cons in Hy as [->|Hy].
  - destruct (last l) as [z|] eqn:E; [|left; congruence]. injection Hl as <-. right. rewrite List.Forall_forall in Ha. apply Ha, list_elem_of_In. by apply last_Some_elem_of.
  - destruct (last l) as [z|] eqn:E; [by apply IH|]. apply last_None in E as ->. by apply not_elem_of_nil in Hy.
Qed.

(** C28. When all votes write their methods as decimal numbers without leading zeros ([canonical]; a single vote that pads them can change the result, [padded_method_blocks_election]), the highest method that
    more than two thirds of the votes list is elected, and method 1 if there is none, in whatever order the sort leaves equal members. *)
Theorem method_elected votes :
  Forall (Forall canonical) votes ->
  let elected n := 3 * support n votes > 2 * zlen votes in
  exists r, compute_consensus_method sort_methods votes = Ok r /\
    ((elected r /\ forall n, 1 <= n <= INT_MAX -> elected n -> n <= r) \/ (r = 1 /\ forall n, 1 <= n <= INT_MAX -> ~ elected n)).
Proof.
  intros Hv elected. destruct (collect_methods_spec votes Hv) as (all & E & Hc & Ho). unfold compute_consensus_method. rewrite E. cbn [cbind].
  pose proof (zlen_nonneg votes). assert (0 <= Z.quot (zlen votes * 2) 3) as Hmin by (apply Z.quot_pos; lia). assert (Forall canonical (sort_methods all)) as Hsc by (by rewrite sort_perm).
  assert (StronglySorted cmp_le (sort_methods all)) as Hss by (apply sort_sorted, (Forall_weaken _ _ _ Hc), canonical_cstr).
  destruct (frequent_spec cmp_le (Z.quot (zlen votes * 2) 3) (sort_methods all)) as [Hs Hm]; [done|apply (Forall_weaken _ _ _ Hsc), canonical_cstr|done|by apply canonical_grouped|].
  set (good := get_frequent_members _ _) in *.
  assert (forall n, dec n ∈ good <-> elected n) as He.
  { intros n. rewrite Hm. unfold elected. rewrite <- Ho. unfold occurs. rewrite Z.quot_div_nonneg by lia. unfold zlen at 2. rewrite sort_perm. fold (zlen (filter (fun z => z = dec n) all)).
    pose proof (Z.div_mod (zlen votes * 2) 3). pose proof (Z.mod_pos_bound (zlen votes * 2) 3). lia. }
  assert (forall x, x ∈ good -> canonical x) as Hcg.
  { intros x Hx. apply Hm in Hx. rewrite Forall_forall in Hsc. apply Hsc. destruct (decide (x ∈ sort_methods all)) as [|Hn]; [done|]. apply occurs_none in Hn. lia. }
  destruct (last good) as [best|] eqn:El.
  - pose proof (last_Some_elem_of _ _ El) as Hb. destruct (Hcg best Hb) as (r & Hr & ->). rewrite method_num_dec by done. exists r. split; [done|]. left. split; [by apply He|].
    intros n Hn Hen. apply He in Hen. destruct (sorted_last _ _ _ _ Hs El Hen) as [Eq|[Hle _]]; [rewrite <- (method_num_dec n), <- (method_num_dec r), Eq by done; lia|].
    apply cmp_canonical_le in Hle; [by rewrite !method_num_dec in Hle by done|by exists n|by exists r].
  - exists 1. split; [done|]. right. split; [done|]. intros n Hn Hen. apply He in Hen. apply last_None in El. rewrite El in Hen. by apply not_elem_of_nil in Hen.
Qed.

End MethodProofs.

Definition stable_sort (l : list bytes) : list bytes := sort_by cmp_int_strings_ l.

Lemma method_num_range s : 0 <= method_num s.
Proof.
  unfold method_num. destruct (p_ok (tor_parse_long s 10 1 INT_MAX false)) eqn:E; [apply parse_long_range in E; lia|]. revert E. unfold tor_parse_long, CHECK_STRTOX_RESULT. change (10 <? 0) with false. cbv iota.
  repeat match goal with |- context [if ?b then _ else _] => destruct b end; done.
Qed.

Lemma cmp_le_spec a b : cmp_le a b <-> method_num a < method_num b \/ (method_num a = method_num b /\ (method_num a = 0 -> str_le a b)).
Proof.
  unfold cmp_le, cmp_int_strings_, str_le. destruct (Z.ltb_spec (method_num a) (method_num b)); [split; [by left|lia]|]. destruct (Z.eqb_spec (method_num a) (method_num b)); [|lia].
  destruct (Z.eqb_spec (method_num a) 0); split; try lia.
Qed.

Lemma cmp_le_trans a b c : cstr a -> cstr b -> cstr c -> cmp_le a b -> cmp_le b c -> cmp_le a c.
Proof.
  intros Ha Hb Hc. rewrite !cmp_le_spec. intros [H1|[H1 H1']] [H2|[H2 H2']]; [left; lia|left; lia|left; lia|]. right. split; [lia|]. intros E. apply (str_le_trans a b c); [done..|by apply H1'|apply H2'; lia].
Qed.

Lemma cmp_le_total a b : ~ cmp_le a b -> cmp_le b a.
Proof.
  rewrite !cmp_le_spec. intros Hn. destruct (Z.lt_total (method_num a) (method_num b)) as [|[E|]]; [exfalso; apply Hn; by left| |by left]. right. split; [done|]. intros E0.
  unfold str_le. rewrite strcmp_anti. destruct (Z.le_gt_cases (strcmp a b) 0); [|lia]. exfalso. apply Hn. right. by split.
Qed.

Lemma stable_sort_perm l : Permutation (stable_sort l) l.
Proof. apply sort_by_perm. Qed.

Lemma stable_sort_sorted l : Forall cstr l -> StronglySorted cmp_le (stable_sort l).
Proof. intros Hl. apply (sort_by_sorted cmp_int_strings_ cstr); [apply cmp_le_trans|intros x y _ _; apply cmp_le_total|done]. Qed.

Definition honest_methods : list bytes := [s2b "32"; s2b "33"].

Lemma method_elected_witness :
  exists r, compute_consensus_method stable_sort [honest_methods; honest_methods; [s2b "33"]] = Ok r /\ 3 * support r [honest_methods; honest_methods; [s2b "33"]] > 6.
Proof.
  destruct (method_elected stable_sort stable_sort_perm stable_sort_sorted [honest_methods; honest_methods; [s2b "33"]]) as (r & E & H).
  { repeat constructor; (exists 32; split; [unfold INT_MAX; lia|reflexivity]) || (exists 33; split; [unfold INT_MAX; lia|reflexivity]). }
  exists r. split; [exact E|]. destruct H as [[H _]|[_ H]]; [exact H|]. exfalso. apply (H 33); [unfold INT_MAX; lia|reflexivity].
Defined.

(** A method that is written with a leading zero compares equal to the others in the sort and unequal in the count.  Three of four authorities that list methods 32 and 33 elect
    method 33 whatever the fourth does not list; when it lists both with a leading zero a sort that keeps the order of equal members puts its entries between theirs, and nothing is elected. *)
Theorem padded_method_blocks_election :
  compute_consensus_method stable_sort [honest_methods; honest_methods; []; honest_methods] = Ok 33 /\
  compute_consensus_method stable_sort [honest_methods; honest_methods; [s2b "032"; s2b "033"]; honest_methods] = Ok 1 /\
  Forall (fun s => method_num s = 33) [s2b "33"; s2b "033"].
Proof. split; [vm_compute; reflexivity|]. split; [vm_compute; reflexivity|]. repeat constructor. Qed.

(** ** Recommended and required protocols *)

Definition set_votes (n : Z) (votes : list protocol_votes) : list bytes :=
  omap (fun v => match get_nth_protocol_set_vote n v with Ok o => o | _ => None end) votes.

Lemma nth_protocol_votes_ok n votes : 0 <= n < 4 -> nth_protocol_votes n votes = Ok (set_votes n votes).
Proof.
  intros Hn. induction votes as [|v votes IH]; [done|]. cbn [nth_protocol_votes]. rewrite IH. unfold set_votes. cbn [omap list_omap].
  assert (exists o, get_nth_protocol_set_vote n v = Ok o) as [o ->].
  { unfold get_nth_protocol_set_vote. destruct (n =? 0) eqn:E0; [by eexists|]. destruct (n =? 1) eqn:E1; [by eexists|]. destruct (n =? 2) eqn:E2; [by eexists|]. destruct (n =? 3) eqn:E3; [by eexists|].
    apply Z.eqb_neq in E0, E1, E2, E3. lia. }
  cbn [cbind]. by destruct o.
Qed.

Lemma set_votes_length n votes : zlen (set_votes n votes) <= zlen votes.
Proof. unfold set_votes. induction votes as [|v votes IH]; [done|]. cbn [omap list_omap]. rewrite zlen_cons. destruct (match _ with Ok o => o | _ => None end); rewrite ?zlen_cons; lia. Qed.

Lemma set_keyword_ok n : 0 <= n < 4 -> exists k, set_keyword n = Ok k.
Proof.
  intros Hn. unfold set_keyword. destruct (n =? 0) eqn:E0; [by eexists|]. destruct (n =? 1) eqn:E1; [by eexists|]. destruct (n =? 2) eqn:E2; [by eexists|]. destruct (n =? 3) eqn:E3; [by eexists|].
  apply Z.eqb_neq in E0, E1, E2, E3. lia.
Qed.

(** Half of the authorities recommend, two thirds require. *)
Definition set_carried (n n_voters c : Z) : bool := if n <? 2 then n_voters <=? 2 * c else 2 * n_voters <=? 3 * c.

Lemma set_threshold_spec n n_voters c : (set_threshold n n_voters <=? c) = set_carried n n_voters c.
Proof.
  unfold set_threshold, set_carried, CEIL_DIV. apply eq_iff_eq_true. destruct (n <? 2); rewrite !Z.leb_le.
  - pose proof (Z.div_mod (n_voters + (2 - 1)) 2). pose proof (Z.mod_pos_bound (n_voters + (2 - 1)) 2). lia.
  - pose proof (Z.div_mod (n_voters * 2 + (3 - 1)) 3). pose proof (Z.mod_pos_bound (n_voters * 2 + (3 - 1)) 3). lia.
Qed.

(** The lines on protocols in a consensus: a version of a protocol is recommended exactly when at least half of the authorities vote for it, required exactly when at least two thirds of them do, no matter how
    the votes write it and what votes that do not parse contain; the line can be read back. *)
Theorem protocol_set_voted n n_voters votes :
  0 <= n < 4 -> 1 <= n_voters -> zlen votes < 256 -> Forall (Forall is_byte) (set_votes n votes) ->
  (forall name, exists ver, 0 <= ver < 64 /\ set_carried n n_voters (vote_count (parsed_votes (set_votes n votes)) name ver) = false) ->
  exists keyword s es, set_keyword n = Ok keyword /\ compute_nth_protocol_set n n_voters votes = Ok (keyword ++ [32] ++ s ++ [10]) /\ parse_protocol_list s = Ok es /\
    StronglySorted name_lt (map e_name es) /\
    forall name ver, cstr name -> 0 <= ver < 64 -> entry_has es name ver = set_carried n n_voters (vote_count (parsed_votes (set_votes n votes)) name ver).
Proof.
  intros Hn Hnv Hl Hb Hfull. destruct (set_keyword_ok n Hn) as [kw Ek]. unfold compute_nth_protocol_set. rewrite Ek, nth_protocol_votes_ok by done. cbn [cbind].
  destruct (protover_compute_vote_correct (set_votes n votes) (set_threshold n n_voters)) as (s & es & E1 & E2 & Hs & Hh).
  - done.
  - pose proof (set_votes_length n votes). lia.
  - apply Z.nlt_ge. intros Ht. assert (set_threshold n n_voters <=? 0 = true) as Hz by (apply Z.leb_le; lia). rewrite set_threshold_spec in Hz. unfold set_carried in Hz. destruct (n <? 2); blia.
  - intros name. destruct (Hfull name) as (ver & Hv & Hc). exists ver. split; [done|]. rewrite <- set_threshold_spec in Hc. by apply Z.leb_gt.
  - exists kw, s, es. rewrite E1. split; [done|]. split; [done|]. split; [done|]. split; [done|]. intros name ver Hname Hver. rewrite Hh by done. apply set_threshold_spec.
Qed.

Definition ex_protocol_votes : list protocol_votes :=
  [mkpv None None (Some (s2b "A=1-3 B=2")) None; mkpv None None (Some (s2b "B=1,2 A=2")) None; mkpv None None None None].

Lemma protocol_set_voted_witness :
  exists keyword s es, compute_nth_protocol_set 2 3 ex_protocol_votes = Ok (keyword ++ [32] ++ s ++ [10]) /\ parse_protocol_list s = Ok es /\
    entry_has es (s2b "B") 2 = true /\ entry_has es (s2b "B") 1 = false.
Proof.
  destruct (protocol_set_voted 2 3 ex_protocol_votes) as (kw & s & es & _ & H1 & H2 & _ & H3).
  - lia.
  - lia.
  - reflexivity.
  - repeat (apply List.Forall_cons; [apply byteb_ok; reflexivity|]). apply List.Forall_nil.
  - intros name. exists 0. split; [lia|]. unfold vote_count.
    change (parsed_votes (set_votes 2 ex_protocol_votes)) with [[mkentry (s2b "A") 14; mkentry (s2b "B") 4]; [mkentry (s2b "B") 6; mkentry (s2b "A") 4]].
    unfold entry_has. cbn [List.filter find_entry_by_name e_name].
    destruct (strcmp (s2b "A") name =? 0), (strcmp (s2b "B") name =? 0); reflexivity.
  - exists kw, s, es. split; [exact H1|]. split; [exact H2|]. split; (rewrite H3; [reflexivity|repeat constructor|lia]).
Defined.
