(* ===== verification/BwWeights.v ===== *)
(** * Bandwidth weights

    Models the bandwidth weights of a consensus in feature/dirauth/dirvote.c: the totals of bandwidth by position
    ([update_total_bandwidth_weights]), the weights that balance guards, middles and exits ([networkstatus_compute_bw_weights_v10]) and their check
    ([networkstatus_check_weights]).

    [G], [M], [E] and [D] are the bandwidth of the relays that can be guards, middles only, exits, and both guards and exits.  The weights are computed in [int64_t], every
    result of an operation reduced to 64 bits ([+!], [-!] and [*!]); the same computation with exact integers is the specification, and the two agree while
    [12 * weight_scale * T] fits 64 bits ([choose_weights_exact]).  Division truncates.  The totals themselves are sums of 32-bit integers and kept exact.  The share of a guard that is not always one is a product of IEEE doubles. *)

From S2P Require Import Prelude CString.
From Stdlib Require Import ZArith String Floats.SpecFloat.
From stdpp Require Import base list numbers.
Import CString.ParseInt.
Open Scope Z_scope.

(** Operations on [int64_t]. *)
Declare Scope int64_scope.
Delimit Scope int64_scope with int64.
Notation "a +! b" := (s64 (a + b)) (at level 50, left associativity) : int64_scope.
Notation "a -! b" := (s64 (a - b)) (at level 50, left associativity) : int64_scope.
Notation "a *! b" := (s64 (a * b)) (at level 40, left associativity) : int64_scope.
Open Scope int64_scope.

Inductive bw_weights_error_t :=
  | BW_WEIGHTS_NO_ERROR | BW_WEIGHTS_RANGE_ERROR | BW_WEIGHTS_SUMG_ERROR | BW_WEIGHTS_SUME_ERROR | BW_WEIGHTS_SUMD_ERROR
  | BW_WEIGHTS_BALANCE_MID_ERROR | BW_WEIGHTS_BALANCE_EG_ERROR.

#[export] Instance bw_weights_error_eq_dec : EqDecision bw_weights_error_t.
Proof. solve_decision. Defined.

Record bw_weights := mkbw { Wgg : Z; Wgd : Z; Wmg : Z; Wme : Z; Wmd : Z; Wee : Z; Wed : Z }.

Definition RANGE_CHECK (a b c d e f g mx : Z) : bool := forallb (fun x => (0 <=? x) && (x <=? mx)) [a; b; c; d; e; f; g].

Definition CHECK_EQ (a b margin : Z) : bool := if 0 <=? a -! b then a -! b <=? margin else b -! a <=? margin.

(** [%s%d] with a cast to [int] *)
Definition kv (k : string) (v : Z) : bytes := s2b k ++ dec (s32 v).

Definition no_error (e : bw_weights_error_t) : bool := bool_decide (e = BW_WEIGHTS_NO_ERROR).

(** ** The code *)

Section Weights.

Variables G M E D T weight_scale : Z.

Definition networkstatus_check_weights (w : bw_weights) (margin : Z) (do_balance : bool) : bw_weights_error_t :=
  if negb (CHECK_EQ (Wed w +! Wmd w +! Wgd w) weight_scale margin) then BW_WEIGHTS_SUMD_ERROR
  else if negb (CHECK_EQ (Wmg w +! Wgg w) weight_scale margin) then BW_WEIGHTS_SUMG_ERROR
  else if negb (CHECK_EQ (Wme w +! Wee w) weight_scale margin) then BW_WEIGHTS_SUME_ERROR
  else if negb (RANGE_CHECK (Wgg w) (Wgd w) (Wmg w) (Wme w) (Wmd w) (Wed w) (Wee w) weight_scale) then BW_WEIGHTS_RANGE_ERROR
  else if do_balance then
    if negb (CHECK_EQ (Wgg w *! G +! Wgd w *! D) (Wee w *! E +! Wed w *! D) (Z.quot (margin *! T) 3)) then BW_WEIGHTS_BALANCE_EG_ERROR
    else if negb (CHECK_EQ (Wgg w *! G +! Wgd w *! D) (M *! weight_scale +! Wmd w *! D +! Wme w *! E +! Wmg w *! G) (Z.quot (margin *! T) 3)) then BW_WEIGHTS_BALANCE_MID_ERROR
    else BW_WEIGHTS_NO_ERROR
  else BW_WEIGHTS_NO_ERROR.

(** Neither guards nor exits are scarce. *)
Definition case1 : bw_weights :=
  let Wd := Z.quot weight_scale 3 in
  let Wee := Z.quot (weight_scale *! (E +! G +! M)) (3 *! E) in
  let Wmg := Z.quot (weight_scale *! (2 *! G -! E -! M)) (3 *! G) in
  mkbw (weight_scale -! Wmg) Wd Wmg (weight_scale -! Wee) Wd Wee Wd.

(** Both are scarce, and relays that can be both do not make up for the difference. *)
Definition case2a : bw_weights :=
  if E <? G then mkbw weight_scale 0 0 0 0 weight_scale weight_scale else mkbw weight_scale weight_scale 0 0 0 weight_scale 0.

Definition case2b1 : bw_weights :=
  let Wed := Z.quot (weight_scale *! (D -! 2 *! E +! 4 *! G -! 2 *! M)) (3 *! D) in
  mkbw weight_scale (Z.quot (weight_scale -! Wed) 2) 0 (Z.quot (weight_scale *! (G -! M)) E) (Z.quot (weight_scale -! Wed) 2) (Z.quot (weight_scale *! (E -! G +! M)) E) Wed.

(** Cases 2b2 and 2b3. *)
Definition case2b2 : bw_weights :=
  let Wed := Z.quot (weight_scale *! (D -! 2 *! E +! G +! M)) (3 *! D) in
  let Wmd := Z.quot (weight_scale *! (D -! 2 *! M +! G +! E)) (3 *! D) in
  let Wmd := if Wmd <? 0 then 0 else Wmd in
  mkbw weight_scale (weight_scale -! Wed -! Wmd) 0 0 Wmd weight_scale Wed.

(** One is scarce, even with the relays that can be both. *)
Definition case3a : bw_weights :=
  if G <? E then
    let Wme := if E <? M then 0 else Z.quot (weight_scale *! (E -! M)) (2 *! E) in mkbw weight_scale weight_scale 0 Wme 0 (weight_scale -! Wme) 0
  else
    let Wmg := if G <? M then 0 else Z.quot (weight_scale *! (G -! M)) (2 *! G) in mkbw (weight_scale -! Wmg) 0 Wmg 0 0 weight_scale weight_scale.

Definition case3b : bw_weights :=
  if G <? E then
    let Wgd := Z.quot (weight_scale *! (D -! 2 *! G +! E +! M)) (3 *! D) in
    let Wee := Z.quot (weight_scale *! (E +! M)) (2 *! E) in
    mkbw weight_scale Wgd 0 (weight_scale -! Wee) (Z.quot (weight_scale -! Wgd) 2) Wee (Z.quot (weight_scale -! Wgd) 2)
  else
    let Wed := Z.quot (weight_scale *! (D -! 2 *! E +! G +! M)) (3 *! D) in
    let Wgg := Z.quot (weight_scale *! (G +! M)) (2 *! G) in
    mkbw Wgg (Z.quot (weight_scale -! Wed) 2) (weight_scale -! Wgg) 0 (Z.quot (weight_scale -! Wed) 2) weight_scale Wed.

(** The weights, or [None] where the function returns 0. *)
Definition choose_weights : option bw_weights :=
  if (G <=? 0) || (M <=? 0) || (E <=? 0) || (D <=? 0) then None
  else if (T <=? 3 *! E) && (T <=? 3 *! G) then if no_error (networkstatus_check_weights case1 10 true) then Some case1 else None
  else if (3 *! E <? T) && (3 *! G <? T) then
    if Z.min E G +! D <? Z.max E G then Some case2a
    else if no_error (networkstatus_check_weights case2b1 10 true) then Some case2b1
    else
      let berr := networkstatus_check_weights case2b2 10 true in
      if negb (no_error berr) && negb (bool_decide (berr = BW_WEIGHTS_BALANCE_MID_ERROR)) then None else Some case2b2
  else
    if 3 *! (Z.min E G +! D) <? T then Some case3a
    else if no_error (networkstatus_check_weights case3b 10 true) then Some case3b else None.

Definition weights_line (w : bw_weights) : bytes :=
  s2b "bandwidth-weights" ++ kv " Wbd=" (Wmd w) ++ kv " Wbe=" (Wme w) ++ kv " Wbg=" (Wmg w) ++ kv " Wbm=" weight_scale
    ++ kv " Wdb=" weight_scale ++ kv " Web=" weight_scale ++ kv " Wed=" (Wed w) ++ kv " Wee=" (Wee w) ++ kv " Weg=" (Wed w) ++ kv " Wem=" (Wee w)
    ++ kv " Wgb=" weight_scale ++ kv " Wgd=" (Wgd w) ++ kv " Wgg=" (Wgg w) ++ kv " Wgm=" (Wgg w)
    ++ kv " Wmb=" weight_scale ++ kv " Wmd=" (Wmd w) ++ kv " Wme=" (Wme w) ++ kv " Wmg=" (Wmg w) ++ kv " Wmm=" weight_scale ++ [10].

(** The line that is added to the consensus. *)
Definition networkstatus_compute_bw_weights_v10 : cres (option bytes) :=
  match choose_weights with
  | None => Ok None
  | Some w => assert! ((0 <? weight_scale) && (weight_scale <=? INT32_MAX)); Ok (Some (weights_line w))
  end.

(** ** The same with exact integers *)

Definition within (a b margin : Z) : bool := Z.abs (a - b) <=? margin.

Definition guard_total (w : bw_weights) : Z := Wgg w * G + Wgd w * D.
Definition exit_total (w : bw_weights) : Z := Wee w * E + Wed w * D.
Definition middle_total (w : bw_weights) : Z := M * weight_scale + Wmd w * D + Wme w * E + Wmg w * G.

Definition exact_check (w : bw_weights) (margin : Z) (do_balance : bool) : bw_weights_error_t :=
  if negb (within (Wed w + Wmd w + Wgd w) weight_scale margin) then BW_WEIGHTS_SUMD_ERROR
  else if negb (within (Wmg w + Wgg w) weight_scale margin) then BW_WEIGHTS_SUMG_ERROR
  else if negb (within (Wme w + Wee w) weight_scale margin) then BW_WEIGHTS_SUME_ERROR
  else if negb (RANGE_CHECK (Wgg w) (Wgd w) (Wmg w) (Wme w) (Wmd w) (Wed w) (Wee w) weight_scale) then BW_WEIGHTS_RANGE_ERROR
  else if do_balance then
    if negb (within (guard_total w) (exit_total w) (Z.quot (margin * T) 3)) then BW_WEIGHTS_BALANCE_EG_ERROR
    else if negb (within (guard_total w) (middle_total w) (Z.quot (margin * T) 3)) then BW_WEIGHTS_BALANCE_MID_ERROR
    else BW_WEIGHTS_NO_ERROR
  else BW_WEIGHTS_NO_ERROR.

(** Neither guards nor exits are scarce. *)
Definition exact_case1 : bw_weights :=
  let Wd := Z.quot weight_scale 3 in
  let Wee := Z.quot (weight_scale * (E + G + M)) (3 * E) in
  let Wmg := Z.quot (weight_scale * (2 * G - E - M)) (3 * G) in
  mkbw (weight_scale - Wmg) Wd Wmg (weight_scale - Wee) Wd Wee Wd.

(** Both are scarce, and relays that can be both do not make up for the difference. *)
Definition exact_case2a : bw_weights :=
  if E <? G then mkbw weight_scale 0 0 0 0 weight_scale weight_scale else mkbw weight_scale weight_scale 0 0 0 weight_scale 0.

Definition exact_case2b1 : bw_weights :=
  let Wed := Z.quot (weight_scale * (D - 2 * E + 4 * G - 2 * M)) (3 * D) in
  mkbw weight_scale (Z.quot (weight_scale - Wed) 2) 0 (Z.quot (weight_scale * (G - M)) E) (Z.quot (weight_scale - Wed) 2) (Z.quot (weight_scale * (E - G + M)) E) Wed.

(** Cases 2b2 and 2b3. *)
Definition exact_case2b2 : bw_weights :=
  let Wed := Z.quot (weight_scale * (D - 2 * E + G + M)) (3 * D) in
  let Wmd := Z.quot (weight_scale * (D - 2 * M + G + E)) (3 * D) in
  let Wmd := if Wmd <? 0 then 0 else Wmd in
  mkbw weight_scale (weight_scale - Wed - Wmd) 0 0 Wmd weight_scale Wed.

(** One is scarce, even with the relays that can be both. *)
Definition exact_case3a : bw_weights :=
  if G <? E then
    let Wme := if E <? M then 0 else Z.quot (weight_scale * (E - M)) (2 * E) in mkbw weight_scale weight_scale 0 Wme 0 (weight_scale - Wme) 0
  else
    let Wmg := if G <? M then 0 else Z.quot (weight_scale * (G - M)) (2 * G) in mkbw (weight_scale - Wmg) 0 Wmg 0 0 weight_scale weight_scale.

Definition exact_case3b : bw_weights :=
  if G <? E then
    let Wgd := Z.quot (weight_scale * (D - 2 * G + E + M)) (3 * D) in
    let Wee := Z.quot (weight_scale * (E + M)) (2 * E) in
    mkbw weight_scale Wgd 0 (weight_scale - Wee) (Z.quot (weight_scale - Wgd) 2) Wee (Z.quot (weight_scale - Wgd) 2)
  else
    let Wed := Z.quot (weight_scale * (D - 2 * E + G + M)) (3 * D) in
    let Wgg := Z.quot (weight_scale * (G + M)) (2 * G) in
    mkbw Wgg (Z.quot (weight_scale - Wed) 2) (weight_scale - Wgg) 0 (Z.quot (weight_scale - Wed) 2) weight_scale Wed.

(** The weights, or [None] where the function returns 0. *)
Definition exact_weights : option bw_weights :=
  if (G <=? 0) || (M <=? 0) || (E <=? 0) || (D <=? 0) then None
  else if (T <=? 3 * E) && (T <=? 3 * G) then if no_error (exact_check exact_case1 10 true) then Some exact_case1 else None
  else if (3 * E <? T) && (3 * G <? T) then
    if Z.min E G + D <? Z.max E G then Some exact_case2a
    else if no_error (exact_check exact_case2b1 10 true) then Some exact_case2b1
    else
      let berr := exact_check exact_case2b2 10 true in
      if negb (no_error berr) && negb (bool_decide (berr = BW_WEIGHTS_BALANCE_MID_ERROR)) then None else Some exact_case2b2
  else
    if 3 * (Z.min E G + D) <? T then Some exact_case3a
    else if no_error (exact_check exact_case3b 10 true) then Some exact_case3b else None.

(** ** What weights must satisfy *)

(** Every weight is a fraction of the scale, and those of one kind of relay add up to the scale, up to rounding. *)
Definition weights_ok (w : bw_weights) : Prop :=
  Forall (fun x => 0 <= x <= weight_scale) [Wgg w; Wgd w; Wmg w; Wme w; Wmd w; Wee w; Wed w] /\
  Z.abs (Wgg w + Wmg w - weight_scale) <= 10 /\ Z.abs (Wee w + Wme w - weight_scale) <= 10 /\ Z.abs (Wgd w + Wed w + Wmd w - weight_scale) <= 10.

(** The three positions get the same bandwidth, up to [10 / 3] of a scale unit. *)
Definition balanced (w : bw_weights) : Prop :=
  3 * Z.abs (guard_total w - exit_total w) <= 10 * T /\ 3 * Z.abs (guard_total w - middle_total w) <= 10 * T.

Lemma check_eq_abs a b m : within a b m = true <-> Z.abs (a - b) <= m.
Proof. apply Z.leb_le. Qed.

Lemma quot3 x m : 0 <= x -> m <= Z.quot x 3 <-> 3 * m <= x.
Proof. intros Hx. rewrite Z.quot_div_nonneg by lia. pose proof (Z.div_mod x 3). pose proof (Z.mod_pos_bound x 3). lia. Qed.

Lemma check_weights_spec w :
  0 <= T -> exact_check w 10 true = BW_WEIGHTS_NO_ERROR <-> weights_ok w /\ balanced w.
Proof.
  intros HT. unfold exact_check, weights_ok, balanced.
  assert (Hr : RANGE_CHECK (Wgg w) (Wgd w) (Wmg w) (Wme w) (Wmd w) (Wed w) (Wee w) weight_scale = true <-> Forall (fun x => 0 <= x <= weight_scale) [Wgg w; Wgd w; Wmg w; Wme w; Wmd w; Wee w; Wed w]).
  { unfold RANGE_CHECK. rewrite forallb_forall, List.Forall_forall. cbn. split; intros H x Hx; [specialize (H x)|specialize (H x)]; (ospecialize (H _); [tauto|]); blia. }
  rewrite <- !(quot3 (10 * T)) by lia.
  pose proof (check_eq_abs (Wed w + Wmd w + Wgd w) weight_scale 10) as H1. pose proof (check_eq_abs (Wmg w + Wgg w) weight_scale 10) as H2. pose proof (check_eq_abs (Wme w + Wee w) weight_scale 10) as H3.
  pose proof (check_eq_abs (guard_total w) (exit_total w) (Z.quot (10 * T) 3)) as H4. pose proof (check_eq_abs (guard_total w) (middle_total w) (Z.quot (10 * T) 3)) as H5.
  replace (Wgg w + Wmg w) with (Wmg w + Wgg w) by lia. replace (Wee w + Wme w) with (Wme w + Wee w) by lia. replace (Wgd w + Wed w + Wmd w) with (Wed w + Wmd w + Wgd w) by lia.
  rewrite <- H1, <- H2, <- H3, <- H4, <- H5, <- Hr.
  destruct (within (Wed w + _ + _) _ _), (within (Wmg w + _) _ _), (within (Wme w + _) _ _), (RANGE_CHECK _ _ _ _ _ _ _ _), (within (guard_total w) (exit_total w) _),
    (within (guard_total w) (middle_total w) _); cbn [negb]; intuition congruence.
Qed.

Lemma check_weights_ok w : exact_check w 10 true = BW_WEIGHTS_NO_ERROR \/ exact_check w 10 true = BW_WEIGHTS_BALANCE_MID_ERROR -> weights_ok w.
Proof.
  unfold exact_check, weights_ok. intros H.
  destruct (within (Wed w + _ + _) _ _) eqn:E1; [|by destruct H]. destruct (within (Wmg w + _) _ _) eqn:E2; [|by destruct H]. destruct (within (Wme w + _) _ _) eqn:E3; [|by destruct H].
  destruct (RANGE_CHECK _ _ _ _ _ _ _ _) eqn:E4; [|by destruct H]. apply check_eq_abs in E1, E2, E3. split; [|lia].
  unfold RANGE_CHECK in E4. rewrite forallb_forall in E4. apply List.Forall_forall. cbn in *. intros x Hx. specialize (E4 x ltac:(tauto)). blia.
Qed.

(** A quotient of numbers that are not negative. *)
Lemma quot_facts a b : 0 <= a -> 0 < b -> 0 <= Z.quot a b /\ b * Z.quot a b <= a < b * Z.quot a b + b.
Proof. intros Ha Hb. rewrite Z.quot_div_nonneg by lia. pose proof (Z.div_mod a b). pose proof (Z.mod_pos_bound a b). pose proof (Z.div_pos a b). lia. Qed.

Lemma quot_le a b k : 0 <= a -> 0 < b -> a <= k * b -> Z.quot a b <= k.
Proof. intros Ha Hb Hk. destruct (quot_facts a b Ha Hb) as [_ H]. nia. Qed.

Lemma all_in (a b c d e f g : Z) : (0 <= a <= weight_scale) -> (0 <= b <= weight_scale) -> (0 <= c <= weight_scale) -> (0 <= d <= weight_scale) -> (0 <= e <= weight_scale) ->
  (0 <= f <= weight_scale) -> (0 <= g <= weight_scale) -> Forall (fun x => 0 <= x <= weight_scale) [a; b; c; d; e; f; g].
Proof. intros. repeat (apply List.Forall_cons; [done|]). apply List.Forall_nil. Qed.

Hypothesis scale_pos : 0 < weight_scale.

Lemma weights_ok_case2a : weights_ok exact_case2a.
Proof. unfold exact_case2a, weights_ok. destruct (E <? G); (split; [cbn; apply all_in; lia|cbn; lia]). Qed.

Lemma weights_ok_case3a : 0 < G -> 0 < E -> 0 < M -> weights_ok exact_case3a.
Proof.
  intros HG HE HM. assert (forall x, 0 < x -> M <= x -> 0 <= Z.quot (weight_scale * (x - M)) (2 * x) <= weight_scale) as Hq.
  { intros x Hx Hm. destruct (quot_facts (weight_scale * (x - M)) (2 * x)) as [H1 _]; [nia|lia|]. split; [done|]. apply quot_le; nia. }
  unfold exact_case3a, weights_ok. destruct (G <? E); [destruct (Z.ltb_spec E M) as [|H]|destruct (Z.ltb_spec G M) as [|H]]; (split; [cbn; apply all_in; try lia|cbn; lia]);
    [specialize (Hq E)|specialize (Hq E)|specialize (Hq G)|specialize (Hq G)]; lia.
Qed.

(** Weights that are published are fractions of the scale, and the weights of guards, of exits and of relays that are both add up to the scale, up to rounding. *)
Lemma weights_published w : exact_weights = Some w -> weights_ok w.
Proof.
  unfold exact_weights, no_error. destruct ((G <=? 0) || _ || _ || _) eqn:Epos; [done|].
  destruct (_ && (T <=? 3 * G)); [destruct (bool_decide_reflect (exact_check exact_case1 10 true = BW_WEIGHTS_NO_ERROR)); [|done]; intros [= <-]; apply check_weights_ok; by left|].
  destruct (_ && _).
  - destruct (_ <? _); [intros [= <-]; apply weights_ok_case2a|].
    destruct (bool_decide_reflect (exact_check exact_case2b1 10 true = BW_WEIGHTS_NO_ERROR)); [intros [= <-]; apply check_weights_ok; by left|]. cbv zeta.
    destruct (bool_decide_reflect (exact_check exact_case2b2 10 true = BW_WEIGHTS_NO_ERROR)); [intros [= <-]; apply check_weights_ok; by left|].
    destruct (bool_decide_reflect (exact_check exact_case2b2 10 true = BW_WEIGHTS_BALANCE_MID_ERROR)); [|done]. intros [= <-]. apply check_weights_ok. by right.
  - destruct (_ <? T); [intros [= <-]; apply weights_ok_case3a; blia|].
    destruct (bool_decide_reflect (exact_check exact_case3b 10 true = BW_WEIGHTS_NO_ERROR)); [|done]. intros [= <-]. apply check_weights_ok. by left.
Qed.

(** ** When the weights balance *)

Hypotheses (G_pos : 0 < G) (M_pos : 0 < M) (E_pos : 0 < E) (D_pos : 0 < D) (total : T = G + M + E + D).

Lemma case1_checks : T <= 3 * E -> T <= 3 * G -> weights_ok exact_case1 /\ balanced exact_case1.
Proof.
  intros HE HG. destruct (quot_facts weight_scale 3) as [Hd Hd']; [lia|lia|].
  destruct (quot_facts (weight_scale * (E + G + M)) (3 * E)) as [Hee Hee']; [nia|lia|]. assert (Z.quot (weight_scale * (E + G + M)) (3 * E) <= weight_scale) by (apply quot_le; nia).
  destruct (quot_facts (weight_scale * (2 * G - E - M)) (3 * G)) as [Hmg Hmg']; [nia|lia|]. assert (Z.quot (weight_scale * (2 * G - E - M)) (3 * G) <= weight_scale) by (apply quot_le; nia).
  unfold exact_case1, weights_ok, balanced, guard_total, exit_total, middle_total. cbn [Wgg Wgd Wmg Wme Wmd Wee Wed].
  set (wd := Z.quot weight_scale 3) in *. set (wee := Z.quot _ (3 * E)) in *. set (wmg := Z.quot _ (3 * G)) in *.
  split; [split; [apply all_in; lia|lia]|]. subst T. lia.
Qed.

Lemma half_facts x : 0 <= x -> 0 <= Z.quot x 2 /\ 2 * Z.quot x 2 <= x < 2 * Z.quot x 2 + 2.
Proof. intros Hx. by apply quot_facts. Qed.

Lemma case3b_checks : (3 * E < T /\ T <= 3 * G) \/ (3 * G < T /\ T <= 3 * E) -> T <= 3 * (Z.min E G + D) -> weights_ok exact_case3b /\ balanced exact_case3b.
Proof.
  intros Hone HS. unfold exact_case3b. destruct (Z.ltb_spec G E).
  - destruct (quot_facts (weight_scale * (D - 2 * G + E + M)) (3 * D)) as [Hgd Hgd']; [nia|lia|]. assert (Z.quot (weight_scale * (D - 2 * G + E + M)) (3 * D) <= weight_scale) by (apply quot_le; nia).
    destruct (quot_facts (weight_scale * (E + M)) (2 * E)) as [Hee Hee']; [nia|lia|]. assert (Z.quot (weight_scale * (E + M)) (2 * E) <= weight_scale) by (apply quot_le; nia).
    unfold weights_ok, balanced, guard_total, exit_total, middle_total. cbn [Wgg Wgd Wmg Wme Wmd Wee Wed].
    set (wgd := Z.quot _ (3 * D)) in *. set (wee := Z.quot _ (2 * E)) in *. destruct (half_facts (weight_scale - wgd)) as [Hh Hh']; [lia|]. set (h := Z.quot _ 2) in *.
    split; [split; [apply all_in; lia|lia]|]. assert (2 * h * D <= (weight_scale - wgd) * D < 2 * h * D + 2 * D) by nia. clear Hone HS. subst T. lia.
  - destruct (quot_facts (weight_scale * (D - 2 * E + G + M)) (3 * D)) as [Hed Hed']; [nia|lia|]. assert (Z.quot (weight_scale * (D - 2 * E + G + M)) (3 * D) <= weight_scale) by (apply quot_le; nia).
    destruct (quot_facts (weight_scale * (G + M)) (2 * G)) as [Hgg Hgg']; [nia|lia|]. assert (Z.quot (weight_scale * (G + M)) (2 * G) <= weight_scale) by (apply quot_le; nia).
    unfold weights_ok, balanced, guard_total, exit_total, middle_total. cbn [Wgg Wgd Wmg Wme Wmd Wee Wed].
    set (wed := Z.quot _ (3 * D)) in *. set (wgg := Z.quot _ (2 * G)) in *. destruct (half_facts (weight_scale - wed)) as [Hh Hh']; [lia|]. set (h := Z.quot _ 2) in *.
    split; [split; [apply all_in; lia|lia]|]. assert (2 * h * D <= (weight_scale - wed) * D < 2 * h * D + 2 * D) by nia. clear Hone HS. subst T. lia.
Qed.

Lemma case2b2_checks : 3 * E < T -> 3 * G < T -> 3 * M <= T -> weights_ok exact_case2b2 /\ balanced exact_case2b2.
Proof.
  intros HE HG HM. unfold exact_case2b2. destruct (quot_facts (weight_scale * (D - 2 * E + G + M)) (3 * D)) as [Hed Hed']; [nia|lia|].
  destruct (quot_facts (weight_scale * (D - 2 * M + G + E)) (3 * D)) as [Hmd Hmd']; [nia|lia|]. rewrite (proj2 (Z.ltb_ge _ _) Hmd).
  set (wed := Z.quot (weight_scale * (D - 2 * E + G + M)) (3 * D)) in *. set (wmd := Z.quot (weight_scale * (D - 2 * M + G + E)) (3 * D)) in *. assert (wed + wmd <= weight_scale) by nia.
  unfold weights_ok, balanced, guard_total, exit_total, middle_total. cbn [Wgg Wgd Wmg Wme Wmd Wee Wed]. split; [split; [apply all_in; lia|lia]|]. subst T. lia.
Qed.

Lemma exact_balance :
  3 * M <= T \/ T <= 3 * E \/ T <= 3 * G ->
  exists w, exact_weights = Some w /\ weights_ok w /\
    ((T <= 3 * E /\ T <= 3 * G) \/ (3 * E < T /\ 3 * G < T /\ Z.max E G <= Z.min E G + D) \/ ((T <= 3 * E \/ T <= 3 * G) /\ T <= 3 * (Z.min E G + D)) -> balanced w).
Proof.
  intros Hany. assert (0 <= T) as HT by lia. unfold exact_weights, no_error. replace ((G <=? 0) || _ || _ || _) with false by (symmetry; blia).
  destruct (Z.leb_spec T (3 * E)), (Z.leb_spec T (3 * G)); cbn [andb].
  - destruct case1_checks as [Hw Hb]; [done..|]. rewrite bool_decide_true by (by apply check_weights_spec). by exists exact_case1.
  - rewrite (proj2 (Z.ltb_ge (3 * E) T)) by lia. cbn [andb]. destruct (Z.ltb_spec (3 * (Z.min E G + D)) T).
    + exists exact_case3a. split; [done|]. split; [by apply weights_ok_case3a|]. lia.
    + destruct case3b_checks as [Hw Hb]; [by right|done|]. rewrite bool_decide_true by (by apply check_weights_spec). by exists exact_case3b.
  - rewrite (proj2 (Z.ltb_lt (3 * E) T)), (proj2 (Z.ltb_ge (3 * G) T)) by lia. cbn [andb]. destruct (Z.ltb_spec (3 * (Z.min E G + D)) T).
    + exists exact_case3a. split; [done|]. split; [by apply weights_ok_case3a|]. lia.
    + destruct case3b_checks as [Hw Hb]; [by left|done|]. rewrite bool_decide_true by (by apply check_weights_spec). by exists exact_case3b.
  - rewrite (proj2 (Z.ltb_lt (3 * E) T)), (proj2 (Z.ltb_lt (3 * G) T)) by lia. cbn [andb]. destruct (Z.ltb_spec (Z.min E G + D) (Z.max E G)).
    + exists exact_case2a. split; [done|]. split; [apply weights_ok_case2a|]. lia.
    + destruct (bool_decide_reflect (exact_check exact_case2b1 10 true = BW_WEIGHTS_NO_ERROR)) as [Ec|_]; [apply check_weights_spec in Ec as [? ?]; [by exists exact_case2b1|done]|]. cbv zeta.
      destruct case2b2_checks as [Hw Hb]; [lia..|]. rewrite (bool_decide_true (exact_check exact_case2b2 10 true = BW_WEIGHTS_NO_ERROR)) by (by apply check_weights_spec). by exists exact_case2b2.
Qed.

(** ** The code computes the exact weights *)

Hypothesis fits : 12 * weight_scale * T <= LONG_MAX.

Lemma s64_fit x : Z.abs x <= 12 * (weight_scale * T) -> s64 x = x.
Proof. intros Hx. apply s64_small. unfold LONG_MIN, LONG_MAX in *. lia. Qed.

Lemma scale_bounds : T <= weight_scale * T /\ 4 * weight_scale <= weight_scale * T.
Proof. nia. Qed.

Lemma scaled k x : Z.abs x <= k * T -> Z.abs (weight_scale * x) <= k * (weight_scale * T).
Proof. intros Hx. rewrite Z.abs_mul, (Z.abs_eq weight_scale) by lia. nia. Qed.

Lemma quot_abs a b : 0 < b -> b * Z.abs (Z.quot a b) <= Z.abs a.
Proof. intros Hb. rewrite <- Z.quot_abs by lia. rewrite (Z.abs_eq b), Z.quot_div_nonneg by lia. apply Z.mul_div_le. lia. Qed.

Lemma quot_abs_mul a k x : 0 < k -> 0 < x -> k * Z.abs (Z.quot a (k * x)) <= Z.abs a.
Proof. intros Hk Hx. pose proof (quot_abs a (k * x) ltac:(nia)) as H. nia. Qed.

Lemma CHECK_EQ_fits a b m : Z.abs (a - b) <= 12 * (weight_scale * T) -> CHECK_EQ a b m = within a b m.
Proof.
  intros H. unfold CHECK_EQ, within. rewrite !s64_fit by lia. destruct (Z.leb_spec 0 (a - b)); [by rewrite Z.abs_eq by lia|]. rewrite Z.abs_neq by lia. f_equal. lia.
Qed.

(** The bound on a result, one operation at a time from the inside. *)
Ltac in_bounds := first [lia|apply (scaled 1); lia|apply (scaled 2); lia|apply (scaled 4); lia|etransitivity; [apply (scaled 4)|]; lia].

Ltac bound_by q k Hq :=
  first [ assert (k * Z.abs q <= 1 * (weight_scale * T)) by (etransitivity; [exact Hq|]; first [lia|apply (scaled 1); lia])
        | assert (k * Z.abs q <= 2 * (weight_scale * T)) by (etransitivity; [exact Hq|]; first [lia|apply (scaled 2); lia])
        | assert (k * Z.abs q <= 4 * (weight_scale * T)) by (etransitivity; [exact Hq|]; first [lia|apply (scaled 4); lia]) ].

Ltac bound_quot a b :=
  let Hq := fresh "Hq" in let q := fresh "q" in
  lazymatch b with
  | 2 => assert (Hq : 2 * Z.abs (Z.quot a b) <= Z.abs a) by (apply (quot_abs a b); lia); bound_by (Z.quot a b) 2 Hq
  | 3 => assert (Hq : 3 * Z.abs (Z.quot a b) <= Z.abs a) by (apply (quot_abs a b); lia); bound_by (Z.quot a b) 3 Hq
  | ?k * ?x => assert (Hq : k * Z.abs (Z.quot a b) <= Z.abs a) by (apply quot_abs_mul; lia); bound_by (Z.quot a b) k Hq
  | _ => assert (Hq : 1 * Z.abs (Z.quot a b) <= Z.abs a) by (pose proof (quot_abs a b ltac:(lia)); nia); bound_by (Z.quot a b) 1 Hq
  end; clear Hq; set (q := Z.quot a b) in *; clearbody q.

Ltac fit :=
  repeat match goal with
  | |- context [s64 ?x] => lazymatch x with context [s64 _] => fail | context [Z.quot _ _] => fail | _ => rewrite (s64_fit x) by in_bounds end
  | |- context [Z.quot ?a ?b] => lazymatch a with context [s64 _] => fail | context [Z.quot _ _] => fail | _ => lazymatch b with context [s64 _] => fail | _ => bound_quot a b end end
  end.

(** Weights that are not far from the scale, as those of every case are. *)
Definition small_weights (w : bw_weights) : Prop :=
  Forall (fun x => Z.abs x <= 3 * (weight_scale * T)) [Wgg w; Wgd w; Wmg w; Wme w; Wmd w; Wee w; Wed w].

Ltac small := repeat (apply List.Forall_cons; [cbn [Wgg Wgd Wmg Wme Wmd Wee Wed]; lia|]); apply List.Forall_nil.

Lemma case1_fits : case1 = exact_case1 /\ small_weights exact_case1.
Proof. pose proof scale_bounds as [B1 B2]. unfold case1, exact_case1, small_weights. cbv zeta. fit. split; [done|small]. Qed.

Lemma case2b1_fits : case2b1 = exact_case2b1 /\ small_weights exact_case2b1.
Proof. pose proof scale_bounds as [B1 B2]. unfold case2b1, exact_case2b1, small_weights. cbv zeta. fit. split; [done|small]. Qed.

Lemma case2b2_fits : case2b2 = exact_case2b2 /\ small_weights exact_case2b2.
Proof. pose proof scale_bounds as [B1 B2]. unfold case2b2, exact_case2b2, small_weights. cbv zeta. fit. destruct (_ <? 0); fit; (split; [done|small]). Qed.

Lemma case3a_fits : case3a = exact_case3a.
Proof. pose proof scale_bounds as [B1 B2]. unfold case3a, exact_case3a. cbv zeta. fit. destruct (_ <? _), (_ <? _); fit; done. Qed.

Lemma case3b_fits : case3b = exact_case3b /\ small_weights exact_case3b.
Proof. pose proof scale_bounds as [B1 B2]. unfold case3b, exact_case3b, small_weights. cbv zeta. destruct (_ <? _); fit; (split; [done|small]). Qed.

Lemma weighted w x : 0 <= w <= weight_scale -> 0 < x -> 0 <= w * x <= weight_scale * x.
Proof. nia. Qed.

Lemma check_fits w b : small_weights w -> networkstatus_check_weights w 10 b = exact_check w 10 b.
Proof.
  pose proof scale_bounds as [B1 B2]. intros Hw. unfold networkstatus_check_weights, exact_check. repeat (apply List.Forall_cons_iff in Hw as [? Hw]). fit.
  rewrite !CHECK_EQ_fits by lia. destruct (within _ _ _); [|done]. destruct (within _ _ _); [|done]. destruct (within _ _ _); [|done].
  destruct (RANGE_CHECK _ _ _ _ _ _ _ _) eqn:Er; [|done]. destruct b; [|done]. unfold RANGE_CHECK in Er. cbn [forallb] in Er. boolp.
  pose proof (weighted (Wgg w) G) as PWgg. pose proof (weighted (Wmg w) G) as PWmg. pose proof (weighted (Wee w) E) as PWee. pose proof (weighted (Wme w) E) as PWme.
  pose proof (weighted (Wgd w) D) as PWgd. pose proof (weighted (Wed w) D) as PWed. pose proof (weighted (Wmd w) D) as PWmd.
  assert (weight_scale * T = weight_scale * G + M * weight_scale + weight_scale * E + weight_scale * D) as Et by (rewrite total; ring). assert (0 <= M * weight_scale) by nia. assert (0 < weight_scale * G /\ 0 < weight_scale * E /\ 0 < weight_scale * D) by nia.
  unfold guard_total, exit_total, middle_total. fit. rewrite !CHECK_EQ_fits by lia. done.
Qed.

(** As long as [12 * weight_scale * T] fits 64 bits, no operation of the code leaves them. *)
Lemma choose_weights_exact : choose_weights = exact_weights.
Proof.
  pose proof scale_bounds as [B1 B2]. unfold choose_weights, exact_weights. destruct case1_fits as [E1 S1], case2b1_fits as [E2 S2], case2b2_fits as [E3 S3], case3b_fits as [E4 S4]. rewrite E1, E2, E3, E4, case3a_fits. fit.
  rewrite !check_fits by done. done.
Qed.

(** C34. In the code's 64-bit arithmetic, for totals that add up ([T = G + M + E + D], so without guard fractions) and as long as [12 * weight_scale * T] fits 64 bits: weights are computed
    whenever the middles have at most a third of the bandwidth or guards or exits have at least a third, and they then give every position the same bandwidth, up to rounding, unless the relays that can be both
    guards and exits are too few to make up for what is scarce. *)
Theorem weights_balance :
  3 * M <= T \/ T <= 3 * E \/ T <= 3 * G ->
  exists w, choose_weights = Some w /\ weights_ok w /\
    ((T <= 3 * E /\ T <= 3 * G) \/ (3 * E < T /\ 3 * G < T /\ Z.max E G <= Z.min E G + D) \/ ((T <= 3 * E \/ T <= 3 * G) /\ T <= 3 * (Z.min E G + D)) -> balanced w).
Proof. intros Hany. rewrite choose_weights_exact. by apply exact_balance. Qed.

End Weights.

(** ** The totals *)

Record bw_totals := mktot { tG : Z; tM : Z; tE : Z; tD : Z; tT : Z }.

(** What is read of a [routerstatus_t]; the guard fraction is a percentage. *)
Record rs_bandwidth := mkrs { has_bandwidth : bool; bandwidth_kb : Z; guardfraction : option Z; rs_is_exit : bool; rs_is_guard : bool }.

(** IEEE doubles: an integer as a double, and the integer that [lround] gives, halves away from zero. *)
Definition double_of (n : Z) : spec_float := binary_normalize 53 1024 n 0 false.

Definition tor_lround (d : spec_float) : Z :=
  match d with
  | S754_finite s m e =>
      let a := if 0 <=? e then Zpos m * 2 ^ e else (Zpos m + 2 ^ (- e - 1)) / 2 ^ (- e) in
      if s then - a else a
  | _ => 0
  end.

(** [guard_bw] and [non_guard_bw]. *)
Definition guard_get_guardfraction_bandwidth (orig_bandwidth guardfraction_percentage : Z) : cres (Z * Z) :=
  assert! (guardfraction_percentage <=? 100);
  let guardfraction_fraction := SFdiv 53 1024 (double_of guardfraction_percentage) (double_of 100) in
  let guard_bw := tor_lround (SFmul 53 1024 guardfraction_fraction (double_of orig_bandwidth)) in
  assert! (guard_bw <=? INT_MAX);
  Ok (guard_bw, orig_bandwidth - guard_bw).

Definition update_total_bandwidth_weights (rs : rs_bandwidth) (t : bw_totals) : cres bw_totals :=
  if negb (has_bandwidth rs) then Ok t
  else
    let* (default_bandwidth, guardfraction_bandwidth) :=
      match guardfraction rs with
      | Some pct => assert! (rs_is_guard rs); guard_get_guardfraction_bandwidth (s32 (bandwidth_kb rs)) pct
      | None => Ok (s32 (bandwidth_kb rs), 0)
      end in
    let t := mktot (tG t) (tM t) (tE t) (tD t) (tT t + default_bandwidth) in
    Ok (if rs_is_exit rs && rs_is_guard rs then mktot (tG t) (tM t) (tE t + guardfraction_bandwidth) (tD t + default_bandwidth) (tT t)
        else if rs_is_exit rs then mktot (tG t) (tM t) (tE t + default_bandwidth) (tD t) (tT t)
        else if rs_is_guard rs then mktot (tG t + default_bandwidth) (tM t + guardfraction_bandwidth) (tE t) (tD t) (tT t)
        else mktot (tG t) (tM t + default_bandwidth) (tE t) (tD t) (tT t)).

Fixpoint sum_bandwidth (rss : list rs_bandwidth) (t : bw_totals) : cres bw_totals :=
  match rss with [] => Ok t | rs :: rss => let* t := update_total_bandwidth_weights rs t in sum_bandwidth rss t end.

(** What the guard fractions take away from a relay's bandwidth as a guard. *)
Definition lost_share (rs : rs_bandwidth) : Z :=
  match guardfraction rs with
  | Some pct => if has_bandwidth rs then match guard_get_guardfraction_bandwidth (s32 (bandwidth_kb rs)) pct with Ok (_, l) => l | _ => 0 end else 0
  | None => 0
  end.

(** How far the total is from the sum of the classes. *)
Definition excess (t : bw_totals) : Z := tT t - (tG t + tM t + tE t + tD t).

Lemma update_total_excess rs t t' : update_total_bandwidth_weights rs t = Ok t' -> excess t' = excess t - lost_share rs.
Proof.
  unfold update_total_bandwidth_weights, lost_share, excess. destruct (has_bandwidth rs); cbn [negb]; [|intros [= <-]; destruct (guardfraction rs); lia].
  destruct (guardfraction rs) as [pct|].
  - destruct (rs_is_guard rs); [|done]. destruct (guard_get_guardfraction_bandwidth _ pct) as [[d l]| | |]; [|done..]. cbn [cbind]. intros [= <-]. rewrite andb_true_r. destruct (rs_is_exit rs); cbn; lia.
  - cbn [cbind]. intros [= <-]. destruct (rs_is_exit rs), (rs_is_guard rs); cbn; lia.
Qed.

Lemma sum_bandwidth_excess rss : forall t t', sum_bandwidth rss t = Ok t' -> excess t' = excess t - foldr (fun rs n => lost_share rs + n) 0 rss.
Proof.
  induction rss as [|rs rss IH]; intros t t'; cbn [sum_bandwidth foldr]; [intros [= <-]; lia|].
  destruct (update_total_bandwidth_weights rs t) as [t1| | |] eqn:E; [|done..]. cbn [cbind]. intros Ht'. apply update_total_excess in E. apply IH in Ht'. lia.
Qed.

(** The totals are not zero before the first relay is added. *)
Definition initial_totals : bw_totals := mktot 1 1 1 1 4.

Lemma sum_bandwidth_ok rss : forall t, Forall (fun rs => guardfraction rs = None) rss -> exists t', sum_bandwidth rss t = Ok t'.
Proof.
  induction rss as [|rs rss IH]; intros t Hrs; [by exists t|]. inversion_clear Hrs as [|? ? Hr Hrs']. cbn [sum_bandwidth].
  unfold update_total_bandwidth_weights. rewrite Hr. destruct (has_bandwidth rs); cbn [negb cbind]; by apply IH.
Qed.

(** A relay whose bandwidth fits an [int]. *)
Definition plain_relay (rs : rs_bandwidth) : Prop := guardfraction rs = None /\ 0 <= bandwidth_kb rs <= INT32_MAX.

Lemma totals_grow rss : forall t t', Forall plain_relay rss -> sum_bandwidth rss t = Ok t' -> tG t <= tG t' /\ tM t <= tM t' /\ tE t <= tE t' /\ tD t <= tD t'.
Proof.
  induction rss as [|rs rss IH]; intros t t' Hrs; cbn [sum_bandwidth]; [intros [= <-]; lia|]. inversion_clear Hrs as [|? ? [Hg Hb] Hrs']. unfold update_total_bandwidth_weights at 1. rewrite Hg.
  destruct (has_bandwidth rs); cbn [negb cbind]; [|by apply IH]. rewrite s32_small by (unfold INT32_MIN; lia). intros H. apply IH in H; [|done]. destruct (rs_is_exit rs), (rs_is_guard rs); cbn in H; lia.
Qed.

(** Without guard fractions the total is the sum of the classes. *)
Lemma totals_add_up rss :
  Forall (fun rs => guardfraction rs = None) rss -> exists t, sum_bandwidth rss initial_totals = Ok t /\ tT t = tG t + tM t + tE t + tD t.
Proof.
  intros Hrs. destruct (sum_bandwidth_ok rss initial_totals Hrs) as [t E]. exists t. split; [exact E|]. apply sum_bandwidth_excess in E.
  assert (foldr (fun rs n => lost_share rs + n) 0 rss = 0) as Hz; [|rewrite Hz in E; unfold excess in E; cbn in E; lia].
  clear -Hrs. induction Hrs as [|rs rss Hg _ IH]; [done|]. cbn [foldr]. rewrite IH. unfold lost_share. by rewrite Hg.
Qed.

(** A guard of half visibility, a middle, an exit and a relay that is both. *)
Definition ex_relays : list rs_bandwidth := [mkrs true 2400 (Some 50) false true; mkrs true 200 None false false; mkrs true 1200 None true false; mkrs true 800 None true true].

(** The bandwidth of a guard that is not visible as one is added to its class and not to the total, so that the cases are told apart with a total that is too small: there are
    relays for which weights cannot be computed although the sum of their bandwidth allows it. *)
Theorem guardfraction_miscounts :
  exists t, sum_bandwidth ex_relays initial_totals = Ok t /\
    (let sum := tG t + tM t + tE t + tD t in
     tT t < sum /\ networkstatus_compute_bw_weights_v10 (tG t) (tM t) (tE t) (tD t) (tT t) 10000 = Ok None /\
     exists w, choose_weights (tG t) (tM t) (tE t) (tD t) sum 10000 = Some w /\ balanced (tG t) (tM t) (tE t) (tD t) sum 10000 w).
Proof.
  exists (mktot 1201 1401 1201 801 3404). split; [vm_compute; reflexivity|]. cbn [tG tM tE tD tT]. split; [lia|]. split; [reflexivity|].
  eexists. split; [vm_compute; reflexivity|]. vm_compute. split; discriminate.
Qed.

(** Products that are a half in decimals need not be one in binary: 29 percent of 50 is rounded down, 57 percent of 50 down too, 1 percent of 50 up. *)
Example fraction_rounding : (guard_get_guardfraction_bandwidth 50 29, guard_get_guardfraction_bandwidth 50 57, guard_get_guardfraction_bandwidth 50 1) = (Ok (14, 36), Ok (28, 22), Ok (1, 49)).
Proof. vm_compute. reflexivity. Qed.

Lemma weights_balance_witness :
  exists w, choose_weights 4000 2000 3000 1500 10500 10000 = Some w /\ weights_ok 10000 w /\ balanced 4000 2000 3000 1500 10500 10000 w.
Proof. destruct (weights_balance 4000 2000 3000 1500 10500 10000) as (w & E & Hw & Hb); [lia|lia|lia|lia|lia|lia|vm_compute; discriminate|lia|]. exists w. split; [exact E|]. split; [exact Hw|]. apply Hb. lia. Defined.

(** Middles of much more than a third, with scarce guards and exits that the relays of both kinds could balance: there are no weights. *)
Example too_much_middle : choose_weights 1 100 1 1 103 10000 = None.
Proof. reflexivity. Qed.
