(* ===== verification/VoteHeader.v ===== *)
(** * Times, packages and weights of a consensus

    Models parts of [networkstatus_compute_consensus] in feature/dirauth/dirvote.c: the times in the header, which are medians ([consensus_times]), the package lines ([compute_consensus_package_lines],
    with [validate_recommended_package_line] of feature/dirauth/recommend_pkg.c), and the scale of the bandwidth weights in the footer; and the check of the times of a vote in [networkstatus_parse_vote_from_string] of
    feature/dirparse/ns_parse.c.  Times are exact integers; in the code they have 64 bits. *)

From S2P Require Import Prelude CString UtilString StrList Protover NetParams Runs VoteParams VoteMethods BwWeights.
From Stdlib Require Import ZArith String Sorting.Sorted.
From stdpp Require Import base list sets numbers sorting gmap.
Open Scope Z_scope.

(** ** Times *)

Definition MIN_VOTE_SECONDS : Z := 2.
Definition MIN_DIST_SECONDS : Z := 2.
Definition MIN_VOTE_INTERVAL : Z := 300.
Definition MIN_VOTE_INTERVAL_TESTING : Z := (2 + 2 + 1) * 2.

Record vote_times := mktimes { valid_after : Z; fresh_until : Z; valid_until : Z; vote_seconds : Z; dist_seconds : Z }.

(** [get_options()->TestingTorNetwork ? MIN_VOTE_INTERVAL_TESTING : MIN_VOTE_INTERVAL] *)
Definition min_interval (testing : bool) : Z := if testing then MIN_VOTE_INTERVAL_TESTING else MIN_VOTE_INTERVAL.

(** What the parser accepts. *)
Definition check_vote_times (testing : bool) (t : vote_times) : bool :=
  negb (fresh_until t <? valid_after t + min_interval testing) && negb (valid_until t <? valid_after t + min_interval testing * 2)
  && negb (vote_seconds t <? MIN_VOTE_SECONDS) && negb (dist_seconds t <? MIN_DIST_SECONDS).

Definition consensus_times (testing : bool) (votes : list vote_times) : cres vote_times :=
  let* va := median (map valid_after votes) in
  let* fu := median (map fresh_until votes) in
  let* vu := median (map valid_until votes) in
  let* vs := median (map vote_seconds votes) in
  let* ds := median (map dist_seconds votes) in
  assert! (va + min_interval testing <=? fu);
  assert! (fu + min_interval testing <=? vu);
  assert! (MIN_VOTE_SECONDS <=? vs);
  assert! (MIN_DIST_SECONDS <=? ds);
  Ok (mktimes va fu vu vs ds).

(** ** Packages *)

(** [WORD()] and the increment after it: the text after the next space. *)
Definition skip_word (cp : bytes) : option bytes :=
  if cur cp =? 32 then None else match strchr cp 32 with Some (_ :: r) => Some r | _ => None end.

(** A digest: something, one equals sign, something. *)
Definition digest_word (w : bytes) : bool :=
  match w with
  | [] => false
  | _ =>
      match memchr w 61 (length w) with
      | None => false
      | Some eq =>
          let pos := (length w - length eq)%nat in
          negb (pos =? 0)%nat && negb (pos =? length w - 1)%nat && match memchr (drop 1 eq) 61 (length (drop 1 eq)) with Some _ => false | None => true end
      end
  end.

Fixpoint digests_loop (fuel : nat) (cp : bytes) : cres bool :=
  match fuel with
  | O => Fuel
  | S fuel =>
      let end_of_word := default [] (strchr cp 32) in
      let word := take (length cp - length end_of_word) cp in
      if negb (digest_word word) then Ok false
      else match end_of_word with [] => Ok true | _ :: cp => digests_loop fuel cp end
  end.

Definition validate_recommended_package_line (line : bytes) : cres bool :=
  match skip_word line with
  | None => Ok false
  | Some cp => match skip_word cp with None => Ok false | Some cp => match skip_word cp with None => Ok false | Some cp => digests_loop (S (length cp)) cp end end
  end.

(** Up to the second space. *)
Definition package_key (line : bytes) : option bytes :=
  match strchr line 32 with
  | Some (_ :: cp) => match strchr cp 32 with Some cp => Some (take (length line - length cp) line) | None => None end
  | _ => None
  end.

Definition add_package_line (n_votes v_sl_idx : nat) (package_status : gmap bytes (list (option bytes))) (line : bytes) : cres (gmap bytes (list (option bytes))) :=
  let* valid := validate_recommended_package_line line in
  if negb valid then Ok package_status
  else match package_key line with
       | None => Ok package_status
       | Some key =>
           let status := default (replicate n_votes None) (package_status !! key) in
           Ok (<[key := <[v_sl_idx := Some line]> status]> package_status)
       end.

Fixpoint add_package_lines (n_votes v_sl_idx : nat) (package_status : gmap bytes (list (option bytes))) (lines : list bytes) : cres (gmap bytes (list (option bytes))) :=
  match lines with
  | [] => Ok package_status
  | line :: lines => let* m := add_package_line n_votes v_sl_idx package_status line in add_package_lines n_votes v_sl_idx m lines
  end.

Fixpoint collect_packages (n_votes v_sl_idx : nat) (package_status : gmap bytes (list (option bytes))) (votes : list (option (list bytes))) : cres (gmap bytes (list (option bytes))) :=
  match votes with
  | [] => Ok package_status
  | v :: votes => let* m := add_package_lines n_votes v_sl_idx package_status (default [] v) in collect_packages n_votes (S v_sl_idx) m votes
  end.

Definition package_entry (values : list (option bytes)) : list bytes :=
  let entries := smartlist_sort_strings (omap id values) in
  let n_voting_for_entry := zlen entries in
  let '(most_frequent, count) := smartlist_get_most_frequent_ strcmp entries in
  if (3 <=? n_voting_for_entry) && (Z.quot n_voting_for_entry 2 <? count)
  then match most_frequent with Some l => [s2b "package " ++ l ++ [10]] | None => [] end else [].

Definition package_lines (votes : list (option (list bytes))) : cres (list bytes) :=
  let* package_status := collect_packages (length votes) 0 ∅ votes in
  Ok (smartlist_sort_strings (concat (map (fun kv => package_entry (snd kv)) (map_to_list package_status)))).

Definition compute_consensus_package_lines (votes : list (option (list bytes))) : cres bytes :=
  let* result_list := package_lines votes in
  smartlist_join_strings result_list [] false.

Definition MIN_METHOD_TO_OMIT_PACKAGE_FINGERPRINTS : Z := 34.

(** The [packages] of the header. *)
Definition consensus_packages (consensus_method : Z) (votes : list (option (list bytes))) : cres bytes :=
  if consensus_method <? MIN_METHOD_TO_OMIT_PACKAGE_FINGERPRINTS then Ok [] else compute_consensus_package_lines votes.

(** ** The scale of the weights *)

Definition BW_WEIGHT_SCALE : Z := 10000.

Definition weight_scale_of (param_list : list bytes) : Z :=
  let weight_scale := dirvote_get_intermediate_param_value param_list (s2b "bwweightscale") BW_WEIGHT_SCALE in
  if weight_scale <? 1 then 1 else weight_scale.

(** The line on weights of a consensus, for the relays that are in it. *)
Definition consensus_weights (votes : list (option (list bytes))) (total_authorities : Z) (relays : list rs_bandwidth) : cres (option bytes) :=
  let* param_list := dirvote_compute_params votes total_authorities in
  let* t := sum_bandwidth relays initial_totals in
  networkstatus_compute_bw_weights_v10 (tG t) (tM t) (tE t) (tD t) (tT t) (weight_scale_of param_list).

(** ** The medians of times keep their distances *)

Lemma median_shift {A} (f g : A -> Z) c l : l <> [] -> Forall (fun x => f x + c <= g x) l ->
  exists a b, median (map f l) = Ok a /\ median (map g l) = Ok b /\ a + c <= b.
Proof.
  intros Hn Hl. destruct (median_spec (map f l)) as (a & Ea & _ & Ha & _); [by destruct l|]. destruct (median_spec (map g l)) as (b & Eb & _ & _ & Hb); [by destruct l|].
  exists a, b. split; [done|]. split; [done|]. apply Z.nlt_ge. intros Hlt. pose proof (count_compl (fun x => b <? x) (map g l)) as Hc.
  assert (count (fun x => negb (b <? x)) (map g l) <= count (fun x => x <? a) (map f l)) as Hle.
  { clear -Hl Hlt. induction Hl as [|x l Hx _ IH]; [done|]. unfold count in *. cbn [map]. rewrite !filter_cons.
    destruct (negb (b <? g x)) eqn:E1, (f x <? a) eqn:E2; repeat case_decide; try done; rewrite ?zlen_cons; lia. }
  unfold zlen in *. rewrite !length_map in *. cbv beta in *. lia.
Qed.

Lemma median_min {A} (f : A -> Z) c l : l <> [] -> Forall (fun x => c <= f x) l -> exists a, median (map f l) = Ok a /\ c <= a.
Proof.
  intros Hn Hl. destruct (median_spec (map f l)) as (a & Ea & Hin & _); [by destruct l|]. exists a. split; [done|]. apply list_elem_of_fmap in Hin as (x & -> & Hx). by apply (proj1 (Forall_forall _ _) Hl).
Qed.

(** Times in the order that the computation insists on. *)
Definition times_ok (testing : bool) (t : vote_times) : Prop :=
  valid_after t + min_interval testing <= fresh_until t /\ fresh_until t + min_interval testing <= valid_until t /\ MIN_VOTE_SECONDS <= vote_seconds t /\ MIN_DIST_SECONDS <= dist_seconds t.

Lemma times_ok_check testing t : times_ok testing t -> check_vote_times testing t = true.
Proof. unfold times_ok, check_vote_times, min_interval, MIN_VOTE_INTERVAL_TESTING, MIN_VOTE_INTERVAL. destruct testing; intros; blia. Qed.

(** C29. The times of a consensus are medians of the votes, one by one; when every vote keeps the minimal distances between its times then so does the consensus, no assertion fails, and the parser accepts the times. *)
Theorem consensus_times_hold testing votes :
  votes <> [] -> Forall (times_ok testing) votes ->
  exists t, consensus_times testing votes = Ok t /\ times_ok testing t /\ check_vote_times testing t = true.
Proof.
  intros Hn Hv. unfold consensus_times.
  destruct (median_shift valid_after fresh_until (min_interval testing) votes Hn) as (va & fu & E1 & E2 & H1); [apply (Forall_weaken _ _ _ Hv); by intros x []|].
  destruct (median_shift fresh_until valid_until (min_interval testing) votes Hn) as (fu' & vu & E2' & E3 & H2); [apply (Forall_weaken _ _ _ Hv); by intros x (_ & ? & _)|]. rewrite E2 in E2'. injection E2' as <-.
  destruct (median_min vote_seconds MIN_VOTE_SECONDS votes Hn) as (vs & E4 & H4); [apply (Forall_weaken _ _ _ Hv); by intros x (_ & _ & ? & _)|].
  destruct (median_min dist_seconds MIN_DIST_SECONDS votes Hn) as (ds & E5 & H5); [apply (Forall_weaken _ _ _ Hv); by intros x (_ & _ & _ & ?)|].
  assert (times_ok testing (mktimes va fu vu vs ds)) as Hok by (by split_and!). exists (mktimes va fu vu vs ds). rewrite E1, E2, E3, E4, E5. cbn [cbind].
  rewrite !(proj2 (Z.leb_le _ _)) by done. split; [done|]. split; [done|]. by apply times_ok_check.
Qed.

(** The parser does not compare the times until which a vote is fresh and valid: there are votes that it accepts for which the computation of the consensus fails an assertion. *)
Theorem accepted_times_abort : exists t, check_vote_times false t = true /\ consensus_times false [t; t; t] = Bug.
Proof. exists (mktimes 1000000 1003600 1000600 300 300). split; reflexivity. Qed.

(** Any three votes of honest times. *)
Lemma consensus_times_hold_witness :
  exists t, consensus_times false [mktimes 3600 7200 14400 300 300; mktimes 3600 7200 14400 300 200; mktimes 0 5400 5700 2 2] = Ok t /\ times_ok false t.
Proof.
  destruct (consensus_times_hold false [mktimes 3600 7200 14400 300 300; mktimes 3600 7200 14400 300 200; mktimes 0 5400 5700 2 2]) as (t & E & Ht & _); [done|repeat constructor; cbn; discriminate|].
  exists t. split; [exact E|exact Ht].
Defined.

(** ** The grammar of package lines *)

Definition word (w : bytes) : Prop := w <> [] /\ 32 ∉ w.
Definition digest (w : bytes) : Prop := 32 ∉ w /\ exists a b, w = a ++ 61 :: b /\ a <> [] /\ b <> [] /\ 61 ∉ a /\ 61 ∉ b.

Lemma strchr_cases s c : match strchr s c with Some t => exists w r, t = c :: r /\ s = w ++ c :: r /\ c ∉ w | None => c ∉ s end.
Proof.
  unfold strchr. induction s as [|x s IH]; cbn [length memchr]; [apply not_elem_of_nil|]. destruct (Z.eqb_spec x c) as [->|Hx]; [exists [], s; split; [done|]; split; [done|apply not_elem_of_nil]|].
  destruct (memchr s c (length s)) as [t|]; [|apply not_elem_of_cons; split; [congruence|done]]. destruct IH as (w & r & -> & -> & Hw). exists (x :: w), r. split; [done|]. split; [done|]. apply not_elem_of_cons. split; [congruence|done].
Qed.

Lemma split_unique (c : Z) a b a' b' : c ∉ a -> c ∉ a' -> a ++ c :: b = a' ++ c :: b' -> a = a' /\ b = b'.
Proof.
  revert a'. induction a as [|x a IH]; intros [|y a'] Ha Ha' E; cbn [app] in E.
  - by injection E as ->.
  - injection E as E1 E2. subst y. exfalso. apply Ha'. constructor.
  - injection E as E1 E2. subst x. exfalso. apply Ha. constructor.
  - injection E as E1 E2. apply not_elem_of_cons in Ha as [_ Ha]. apply not_elem_of_cons in Ha' as [_ Ha']. destruct (IH a' Ha Ha' E2) as [-> ->]. by subst y.
Qed.

Lemma strchr_app w c r : c ∉ w -> strchr (w ++ c :: r) c = Some (c :: r).
Proof.
  intros Hw. pose proof (strchr_cases (w ++ c :: r) c) as H. destruct (strchr (w ++ c :: r) c) as [t|]; [|exfalso; apply H, elem_of_app; right; constructor].
  destruct H as (w' & r' & -> & E & Hw'). by apply split_unique in E as [_ ->].
Qed.

Lemma skip_word_spec cp r : skip_word cp = Some r <-> exists w, word w /\ cp = w ++ 32 :: r.
Proof.
  unfold skip_word. split.
  - destruct (Z.eqb_spec (cur cp) 32) as [|Hc]; [done|]. pose proof (strchr_cases cp 32) as H. destruct (strchr cp 32) as [t|]; [|done]. destruct H as (w & r' & -> & -> & Hw). intros [= ->].
    exists w. split; [|done]. split; [|done]. by intros ->.
  - intros (w & [Hn Hw] & ->). rewrite (proj2 (Z.eqb_neq _ _)); [by rewrite strchr_app|]. destruct w as [|x w]; [done|]. apply not_elem_of_cons in Hw as [Hx _]. cbn. congruence.
Qed.

Lemma digest_word_spec w : digest_word w = true <-> exists a b, w = a ++ 61 :: b /\ a <> [] /\ b <> [] /\ 61 ∉ a /\ 61 ∉ b.
Proof.
  destruct (decide (w = [])) as [->|Hne]; [split; [done|]; intros (a & b & E & _); by destruct a|].
  assert (digest_word w = match memchr w 61 (length w) with None => false | Some eq => negb (length w - length eq =? 0)%nat && negb (length w - length eq =? length w - 1)%nat && match memchr (drop 1 eq) 61 (length (drop 1 eq)) with Some _ => false | None => true end end) as -> by (by destruct w). fold (strchr w 61). pose proof (strchr_cases w 61) as H.
  destruct (strchr w 61) as [t|].
  - destruct H as (a & b & -> & -> & Ha). cbn [drop]. rewrite drop_0. fold (strchr b 61). pose proof (strchr_cases b 61) as Hb. rewrite !length_app. cbn [length].
    replace (length a + S (length b) - S (length b))%nat with (length a) by lia. replace (length a + S (length b) - 1)%nat with (length a + length b)%nat by lia. rewrite !andb_true_iff, !negb_true_iff, !Nat.eqb_neq. split.
    + intros [[H1 H2] H3]. destruct (strchr b 61) as [t|]; [done|]. exists a, b. split; [done|]. split; [by intros ->|]. split; [intros ->; cbn in H2; lia|done].
    + intros (a' & b' & E & Hna & Hnb & Ha' & Hb'). apply split_unique in E as [-> ->]; [|done..]. split; [split; [by destruct a'|destruct b'; [done|cbn [length]; lia]]|].
      destruct (strchr b' 61) as [t|]; [|done]. destruct Hb as (u & v & -> & -> & _). exfalso. apply Hb', elem_of_app. right. constructor.
  - split; [done|]. intros (a & b & -> & _). exfalso. apply H, elem_of_app. right. constructor.
Qed.

Lemma join_one (d : bytes) : join_fill [d] [32] = d.
Proof. cbn. by rewrite app_nil_r. Qed.

(** A word before a space is the first of the words that are joined. *)
Lemma join_head w r ds : 32 ∉ w -> Forall digest ds -> w ++ 32 :: r = join_fill ds [32] -> exists ds', ds = w :: ds' /\ ds' <> [] /\ r = join_fill ds' [32].
Proof.
  intros Hw Hds E. destruct ds as [|d [|d2 ds]]; [by destruct w| |].
  - exfalso. rewrite join_one in E. inversion_clear Hds as [|? ? [Hd _] _]. apply Hd. rewrite <- E. apply elem_of_app. right. constructor.
  - inversion_clear Hds as [|? ? [Hd _] _]. change (join_fill (d :: d2 :: ds) [32]) with (d ++ 32 :: join_fill (d2 :: ds) [32]) in E. apply split_unique in E as [-> ->]; [|done..]. by exists (d2 :: ds).
Qed.

Lemma digests_loop_spec fuel : forall cp, (length cp < fuel)%nat ->
  exists b, digests_loop fuel cp = Ok b /\ (b = true <-> exists ds, ds <> [] /\ Forall digest ds /\ cp = join_fill ds [32]).
Proof.
  induction fuel as [|fuel IH]; intros cp Hf; [lia|]. cbn [digests_loop]. pose proof (strchr_cases cp 32) as H. destruct (strchr cp 32) as [t|].
  - destruct H as (w & r & -> & -> & Hw). cbn [default]. rewrite length_app, Nat.add_sub, take_app_length. destruct (digest_word w) eqn:Ed; cbn [negb].
    + apply digest_word_spec in Ed. destruct (IH r) as (b & E & Hb); [rewrite length_app in Hf; cbn [length] in Hf; lia|]. exists b. split; [exact E|]. rewrite Hb. split.
      * intros (ds & Hn & Hds & ->). exists (w :: ds). split; [done|]. split; [by constructor|]. cbn [join_fill]. destruct ds; [done|]. done.
      * intros (ds & Hn & Hds & E2). apply join_head in E2 as (ds' & -> & Hn' & ->); [|done..]. inversion_clear Hds as [|? ? _ Hds']. by exists ds'.
    + exists false. split; [done|]. split; [done|]. intros (ds & Hn & Hds & E2). exfalso. apply join_head in E2 as (ds' & -> & _ & _); [|done..]. inversion_clear Hds as [|? ? [_ Hd] _].
      apply digest_word_spec in Hd. congruence.
  - cbn [default length]. rewrite Nat.sub_0_r, take_ge by done. exists (digest_word cp). split; [by destruct (digest_word cp)|]. split.
    + intros Ed. apply digest_word_spec in Ed. exists [cp]. split; [done|]. split; [by repeat constructor|]. by rewrite join_one.
    + intros (ds & Hn & Hds & ->). destruct ds as [|d [|d2 ds]]; [done| |].
      * inversion_clear Hds as [|? ? [_ Hd] _]. rewrite join_one. by apply digest_word_spec.
      * exfalso. apply H. cbn [join_fill]. apply elem_of_app. right. constructor.
Qed.

(** A package line passes the check exactly when it follows the grammar: a name, a version and a URL without spaces, and one or more digests of the form [type=value], separated by single spaces. *)
Theorem package_line_grammar line :
  exists b, validate_recommended_package_line line = Ok b /\
    (b = true <-> exists name version url ds, Forall word [name; version; url] /\ ds <> [] /\ Forall digest ds /\ line = name ++ 32 :: version ++ 32 :: url ++ 32 :: join_fill ds [32]).
Proof.
  assert (forall cp, skip_word cp = None -> forall w r, word w -> cp <> w ++ 32 :: r) as Hnone by (intros cp E w r Hw ->; by rewrite (proj2 (skip_word_spec _ r)) in E by eauto).
  assert (forall w r w' r', word w -> word w' -> w ++ 32 :: r = w' ++ 32 :: r' -> r = r') as Huniq by (intros w r w' r' [_ H1] [_ H2] E; by apply split_unique in E as [_ ->]).
  unfold validate_recommended_package_line. destruct (skip_word line) as [cp1|] eqn:E1; [apply skip_word_spec in E1 as (name & Hname & ->)|exists false; split; [done|]; split; [done|]; intros (n & v & u & ds & Hw & _ & _ & ->); exfalso; inversion_clear Hw; by eapply (Hnone _ E1)].
  destruct (skip_word cp1) as [cp2|] eqn:E2; [apply skip_word_spec in E2 as (version & Hversion & ->)|].
  2: { exists false. split; [done|]. split; [done|]. intros (n & v & u & ds & Hw & _ & _ & E). exfalso. inversion_clear Hw as [|? ? Hn Hw']. inversion_clear Hw'. apply Huniq in E as ->; [|done..]. by eapply (Hnone _ E2). }
  destruct (skip_word cp2) as [cp3|] eqn:E3; [apply skip_word_spec in E3 as (url & Hurl & ->)|].
  2: { exists false. split; [done|]. split; [done|]. intros (n & v & u & ds & Hw & _ & _ & E). exfalso. inversion_clear Hw as [|? ? Hn Hw']. inversion_clear Hw' as [|? ? Hv Hw'']. inversion_clear Hw''. do 2 (apply Huniq in E; [|done..]). subst cp2. by eapply (Hnone _ E3). }
  destruct (digests_loop_spec (S (length cp3)) cp3) as (b & E & Hb); [lia|]. exists b. split; [exact E|]. rewrite Hb. split.
  - intros (ds & Hn & Hds & ->). exists name, version, url, ds. split; [do 3 (apply List.Forall_cons; [assumption|]); apply List.Forall_nil|done].
  - intros (n & v & u & ds & Hw & Hn & Hds & Eq). inversion_clear Hw as [|? ? Hw1 Hw']. inversion_clear Hw' as [|? ? Hw2 Hw'']. inversion_clear Hw'' as [|? ? Hw3 _]. do 3 (apply Huniq in Eq; [|done..]). by exists ds.
Qed.

(** ** Packages that are published *)

Lemma validate_total line : exists b, validate_recommended_package_line line = Ok b.
Proof.
  unfold validate_recommended_package_line. destruct (skip_word line) as [cp1|]; [|by eexists]. destruct (skip_word cp1) as [cp2|]; [|by eexists]. destruct (skip_word cp2) as [cp3|]; [|by eexists].
  destruct (digests_loop_spec (S (length cp3)) cp3) as (b & E & _); [lia|]. by exists b.
Qed.

(** A line about the package and version [k] that passes the check. *)
Definition about (k line : bytes) : bool := match validate_recommended_package_line line with Ok true => bool_decide (package_key line = Some k) | _ => false end.

(** What a vote says about [k]: its last such line. *)
Definition line_for (k : bytes) (v : option (list bytes)) : option bytes := last (filter (fun l => about k l = true) (default [] v)).

Definition status_of (n : nat) (m : gmap bytes (list (option bytes))) (k : bytes) : list (option bytes) := default (replicate n None) (m !! k).

Lemma add_package_lines_spec n idx lines : forall m,
  exists m', add_package_lines n idx m lines = Ok m' /\
    forall k, status_of n m' k = match last (filter (fun l => about k l = true) lines) with Some l => <[idx := Some l]> (status_of n m k) | None => status_of n m k end.
Proof.
  induction lines as [|line lines IH]; intros m; cbn [add_package_lines]; [by exists m|].
  assert (exists m1, add_package_line n idx m line = Ok m1 /\ forall k, status_of n m1 k = if about k line then <[idx := Some line]> (status_of n m k) else status_of n m k) as (m1 & E1 & H1).
  { unfold add_package_line, about. destruct (validate_total line) as [[] ->]; cbn [cbind negb]; [|by exists m]. destruct (package_key line) as [key|]; [|exists m; split; [done|]; intros k; by rewrite bool_decide_false].
    eexists. split; [done|]. intros k. unfold status_of. case_bool_decide as Hk; [injection Hk as ->; by rewrite lookup_insert_eq|]. by rewrite lookup_insert_ne by congruence. }
  rewrite E1. cbn [cbind]. destruct (IH m1) as (m' & E' & H'). exists m'. split; [done|]. intros k. rewrite H', H1, filter_cons. destruct (about k line); case_decide; try done.
  rewrite last_cons. destruct (last _); [|done]. apply list_insert_insert_eq.
Qed.

Lemma collect_packages_spec votes : forall n idx m, n = (idx + length votes)%nat -> (forall k, exists pre, status_of n m k = pre ++ replicate (length votes) None /\ length pre = idx) ->
  exists m', collect_packages n idx m votes = Ok m' /\ forall k, exists pre, length pre = idx /\ status_of n m k = pre ++ replicate (length votes) None /\ status_of n m' k = pre ++ map (line_for k) votes.
Proof.
  induction votes as [|v votes IH]; intros n idx m Hn Hm; cbn [collect_packages].
  - exists m. split; [done|]. intros k. destruct (Hm k) as (pre & E & Hl). exists pre. split; [done|]. by split.
  - destruct (add_package_lines_spec n idx (default [] v) m) as (m1 & E1 & H1). rewrite E1. cbn [cbind].
    assert (forall k pre, status_of n m k = pre ++ replicate (length (v :: votes)) None -> length pre = idx -> status_of n m1 k = (pre ++ [line_for k v]) ++ replicate (length votes) None) as Hstep.
    { intros k pre E Hl. rewrite H1, E. fold (line_for k v). cbn [length replicate]. rewrite <- app_assoc. cbn [app]. destruct (line_for k v) as [l|]; [|done]. rewrite <- Hl, <- (Nat.add_0_r (length pre)), insert_app_r. done. }
    destruct (IH n (S idx) m1) as (m' & E' & H').
    { rewrite Hn. cbn [length]. lia. }
    { intros k. destruct (Hm k) as (pre & E & Hl). exists (pre ++ [line_for k v]). split; [by apply Hstep|]. rewrite length_app. cbn [length]. lia. }
    exists m'. split; [done|]. intros k. destruct (Hm k) as (pre & E & Hl). exists pre. split; [done|]. split; [done|]. destruct (H' k) as (pre' & Hl' & E2 & E3). rewrite (Hstep k pre E Hl) in E2.
    apply app_inj_1 in E2 as [<- _]; [|rewrite length_app, Hl'; cbn [length]; lia]. rewrite E3. cbn [map]. by rewrite <- app_assoc.
Qed.

Lemma collect_packages_all votes : exists m, collect_packages (length votes) 0 ∅ votes = Ok m /\ forall k, status_of (length votes) m k = map (line_for k) votes.
Proof.
  destruct (collect_packages_spec votes (length votes) 0 ∅) as (m & E & H); [done|intros k; exists []; split; [unfold status_of; by rewrite lookup_empty|done]|].
  exists m. split; [done|]. intros k. destruct (H k) as (pre & Hl & _ & E2). apply length_zero_iff_nil in Hl as ->. exact E2.
Qed.

Lemma strings_grouped l : Forall cstr l -> grouped_by id (smartlist_sort_strings l).
Proof.
  intros Hc. apply (sorted_grouped id str_le); [by apply sort_strings_sorted|]. intros x y z Hx Hy Hz H1 H2 E. unfold id in *. subst z. rewrite sort_strings_perm in Hx, Hy. rewrite Forall_forall in Hc.
  unfold str_le in *. rewrite strcmp_anti in H2. apply strcmp_eq; [by apply cstr_no_nul, Hc..|]. rewrite strcmp_anti. lia.
Qed.

Lemma package_entry_spec values p : Forall cstr (omap id values) ->
  p ∈ package_entry values <-> exists L, p = s2b "package " ++ L ++ [10] /\ 3 <= zlen (omap id values) < 2 * occurs L (omap id values).
Proof.
  intros Hc. unfold package_entry. set (es := omap id values) in *. pose proof (sort_strings_perm es) as Hp. assert (zlen (smartlist_sort_strings es) = zlen es) as Hl by (unfold zlen; by rewrite Hp).
  assert (forall x, occurs x (smartlist_sort_strings es) = occurs x es) as Ho by (intros x; unfold occurs, zlen; by rewrite Hp). rewrite Hl.
  destruct (decide (es = [])) as [E|Hne]; [rewrite E; split; [intros H; by apply not_elem_of_nil in H|intros (L & _ & H & _); change (zlen []) with 0 in H; lia]|].
  destruct (most_frequent_spec strcmp cstr (fun x y Hx Hy => strcmp_eq x y (cstr_no_nul _ Hx) (cstr_no_nul _ Hy)) (smartlist_sort_strings es)) as (x & -> & Hx & Hmax); [intros E; apply Hne; apply Permutation_nil; by rewrite <- E|by rewrite Hp|by apply strings_grouped|].
  rewrite Ho. pose proof (zlen_nonneg es). rewrite Z.quot_div_nonneg by lia. pose proof (Z.div_mod (zlen es) 2). pose proof (Z.mod_pos_bound (zlen es) 2).
  destruct (Z.leb_spec 3 (zlen es)); cbn [andb]; [|split; [intros Hi; by apply not_elem_of_nil in Hi|intros (L & _ & HL); lia]].
  destruct (Z.ltb_spec (zlen es / 2) (occurs x es)).
  - rewrite list_elem_of_singleton. split; [intros ->; exists x; split; [done|lia]|]. intros (L & -> & HL). destruct (decide (L = x)) as [->|Hd]; [done|]. pose proof (occurs_sum L x es Hd). lia.
  - split; [intros Hi; by apply not_elem_of_nil in Hi|]. intros (L & _ & HL). specialize (Hmax L). rewrite !Ho in Hmax. lia.
Qed.

Lemma line_for_in k votes (P : bytes -> Prop) : Forall (fun v => Forall P (default [] v)) votes -> Forall P (omap id (map (line_for k) votes)).
Proof.
  induction 1 as [|v votes Hv _ IH]; [constructor|]. cbn [map omap list_omap]. unfold id at 1. destruct (line_for k v) as [l|] eqn:E; [|exact IH]. constructor; [|exact IH].
  unfold line_for in E. apply last_Some_elem_of, list_elem_of_filter in E as [_ E]. by apply (proj1 (Forall_forall _ _) Hv).
Qed.

Lemma omap_lines k votes : omap id (map (line_for k) votes) = omap (line_for k) votes.
Proof. induction votes as [|v votes IH]; [done|]. cbn [map omap list_omap]. unfold id at 1. destruct (line_for k v); [f_equal|]; exact IH. Qed.

Lemma omap_replicate n : omap id (replicate n (@None bytes)) = [].
Proof. by induction n. Qed.

Lemma package_members votes m p : (forall k, status_of (length votes) m k = map (line_for k) votes) ->
  p ∈ concat (map (fun kv => package_entry (snd kv)) (map_to_list m)) <-> exists k, p ∈ package_entry (map (line_for k) votes).
Proof.
  intros Hm. rewrite list_elem_of_In, List.in_concat. split.
  - intros (e & He & Hp). apply in_map_iff in He as ([k st] & <- & Hkv). apply list_elem_of_In, elem_of_map_to_list in Hkv. exists k. rewrite <- Hm. unfold status_of. rewrite Hkv. by apply list_elem_of_In.
  - intros [k Hk]. exists (package_entry (map (line_for k) votes)). split; [|by apply list_elem_of_In]. rewrite <- Hm in *. unfold status_of in *. destruct (m !! k) as [st|] eqn:E; cbn [default] in *.
    + apply in_map_iff. exists (k, st). split; [done|]. by apply list_elem_of_In, elem_of_map_to_list.
    + exfalso. apply package_entry_spec in Hk as (L & _ & H1 & _); rewrite omap_replicate in *; [|constructor]. change (zlen []) with 0 in H1. lia.
Qed.

Lemma package_entry_cstr k votes p : Forall (fun v => Forall cstr (default [] v)) votes -> p ∈ package_entry (map (line_for k) votes) -> cstr p.
Proof.
  intros Hc Hk. pose proof (line_for_in k votes cstr Hc) as Hlc. apply package_entry_spec in Hk as (L & -> & _ & HL); [|done].
  apply Forall_app. split; [by repeat constructor|]. apply Forall_app. split; [|repeat constructor; lia]. destruct (decide (L ∈ omap id (map (line_for k) votes))) as [Hi|Hi]; [by apply (proj1 (Forall_forall _ _) Hlc)|].
  rewrite (occurs_none _ _ Hi) in HL. pose proof (zlen_nonneg (omap id (map (line_for k) votes))). lia.
Qed.

Lemma join_nothing ls : smartlist_join_strings ls [] false = Ok (concat ls).
Proof.
  unfold smartlist_join_strings. rewrite join_strings2_total. f_equal. rewrite app_nil_r. induction ls as [|l ls IH]; [done|]. cbn [join_fill concat]. rewrite <- IH. f_equal. by destruct ls.
Qed.

(** A package line is published exactly when at least three votes have a well-formed line about its package and version and more than half of these have this very line, the last one of a vote counting; the lines are in order. *)
Theorem packages_voted votes :
  Forall (fun v => Forall cstr (default [] v)) votes ->
  exists ls, compute_consensus_package_lines votes = Ok (concat ls) /\ StronglySorted str_le ls /\
    forall p, p ∈ ls <-> exists k L, p = s2b "package " ++ L ++ [10] /\
      (let lines := omap (line_for k) votes in 3 <= zlen lines < 2 * occurs L lines).
Proof.
  intros Hc. unfold compute_consensus_package_lines, package_lines. destruct (collect_packages_all votes) as (m & -> & Hm). cbn [cbind]. eexists. split; [apply join_nothing|].
  pose proof (fun p => package_members votes m p Hm) as Hls. split.
  - apply sort_strings_sorted, Forall_forall. intros p Hp. apply Hls in Hp as [k Hk]. by apply (package_entry_cstr k votes).
  - intros p. rewrite sort_strings_perm, Hls. split.
    + intros [k Hk]. apply package_entry_spec in Hk as (L & -> & HL); [|by apply line_for_in]. exists k, L. split; [done|]. by rewrite omap_lines in HL.
    + intros (k & L & -> & HL). exists k. apply package_entry_spec; [by apply line_for_in|]. exists L. split; [done|]. by rewrite omap_lines.
Qed.

Definition ex_package : bytes := s2b "tor 1.0 http://a/ sha256=ab sha512=cd".

Example ex_packages :
  compute_consensus_package_lines [Some [ex_package]; Some [ex_package; s2b "bad"]; Some [s2b "tor 1.0 http://b/ sha256=ab"]; None; Some [s2b "x 1 u d=1"]] = Ok (s2b "package " ++ ex_package ++ [10]).
Proof. vm_compute. reflexivity. Qed.

Lemma packages_voted_witness : exists ls, compute_consensus_package_lines [Some [ex_package]; Some [ex_package]; Some [ex_package]] = Ok (concat ls) /\ s2b "package " ++ ex_package ++ [10] ∈ ls.
Proof.
  destruct (packages_voted [Some [ex_package]; Some [ex_package]; Some [ex_package]]) as (ls & E & _ & H); [repeat constructor|].
  exists ls. split; [exact E|]. apply H. exists (s2b "tor 1.0"), ex_package. split; [reflexivity|]. split; [discriminate|reflexivity].
Defined.

(** ** The line on weights *)

Lemma param_list_value_range param_list k d : INT32_MIN <= d <= INT32_MAX -> INT32_MIN <= dirvote_get_intermediate_param_value param_list k d <= INT32_MAX.
Proof.
  intros Hd. unfold dirvote_get_intermediate_param_value.
  assert (forall l v n r, INT32_MIN <= v <= INT32_MAX -> intermediate_loop k v n l = Some r -> INT32_MIN <= fst r <= INT32_MAX) as Hl.
  { induction l as [|p l IH]; intros v n r Hv; cbn [intermediate_loop]; [by intros [= <-]|]. destruct (_ && _); [|by apply IH]. destruct (p_ok _) eqn:E; [|done]. apply IH. apply parse_long_range in E. by rewrite s32_small. }
  destruct (intermediate_loop k d 0 param_list) as [[v n]|] eqn:E; [|done]. apply Hl in E; [|done]. cbn [fst] in E. by destruct (n =? 1).
Qed.

(** The scale that is used passes the assertion on it, whatever the parameters are. *)
Lemma weight_scale_range param_list : 1 <= weight_scale_of param_list <= INT32_MAX.
Proof.
  unfold weight_scale_of. pose proof (param_list_value_range param_list (s2b "bwweightscale") BW_WEIGHT_SCALE ltac:(unfold INT32_MIN, INT32_MAX, BW_WEIGHT_SCALE; lia)) as H.
  unfold INT32_MAX in *. destruct (Z.ltb_spec (dirvote_get_intermediate_param_value param_list (s2b "bwweightscale") BW_WEIGHT_SCALE) 1); lia.
Qed.

(** C33. When the votes passed the parser and the relays have no guard fractions and a bandwidth that fits an [int], the scale that the votes agree on passes the assertion on it, and as long as [12 * scale * T] fits 64 bits
    the line on weights is made without a failed assertion and is the one that exact arithmetic gives: no operation of the choice and the checks overflows; the weights on the line are fractions of the scale and add up to
    it up to rounding; and there is a line whenever the middles have at most a third of the bandwidth or guards or exits have at least a third. *)
Theorem consensus_weights_safe votes total_authorities relays :
  Forall vote_ok votes -> Forall plain_relay relays ->
  exists params t, dirvote_compute_params votes total_authorities = Ok params /\ sum_bandwidth relays initial_totals = Ok t /\
    let scale := weight_scale_of params in
    let weights := exact_weights (tG t) (tM t) (tE t) (tD t) (tT t) scale in
    1 <= scale <= INT32_MAX /\
    (12 * scale * tT t <= LONG_MAX ->
     consensus_weights votes total_authorities relays = Ok (weights_line scale <$> weights) /\
     (forall w, weights = Some w -> weights_ok scale w) /\
     (3 * tM t <= tT t \/ tT t <= 3 * tE t \/ tT t <= 3 * tG t -> is_Some weights)).
Proof.
  intros Hv Hr. assert (Forall (fun rs => guardfraction rs = None) relays) as Hg by (apply (Forall_weaken _ _ _ Hr); by intros x []). unfold consensus_weights. rewrite compute_params_runs by done. cbn [cbind].
  destruct (totals_add_up relays Hg) as (t & Et & HT). rewrite Et. cbn [cbind]. set (params := concat _). pose proof (weight_scale_range params) as Hs. pose proof (totals_grow relays _ _ Hr Et) as Hpos. cbn in Hpos.
  exists params, t. split; [done|]. split; [done|]. cbv zeta. split; [done|]. intros Hfit. split_and!.
  - unfold networkstatus_compute_bw_weights_v10. rewrite choose_weights_exact by (done || lia). destruct (exact_weights _ _ _ _ _ _) as [w|]; [|done]. by rewrite (proj2 (Z.ltb_lt _ _)), (proj2 (Z.leb_le _ _)) by lia.
  - intros w. apply weights_published. lia.
  - intros Hany. destruct (exact_balance (tG t) (tM t) (tE t) (tD t) (tT t) (weight_scale_of params)) as (w & Ew & _); [lia..|done|]. by exists w.
Qed.

Definition plain_relays : list rs_bandwidth := [mkrs true 1500 None false true; mkrs true 200 None false false; mkrs true 1200 None true false; mkrs true 800 None true true].

Lemma consensus_weights_safe_witness :
  exists w, consensus_weights ex_votes 9 plain_relays = Ok (Some (weights_line 9990 w)) /\ weights_ok 9990 w.
Proof.
  destruct (consensus_weights_safe ex_votes 9 plain_relays ex_votes_ok) as (params & t & Ep & Et & H); [unfold plain_relays; repeat (apply List.Forall_cons; [split; [reflexivity|split; cbn; discriminate]|]); apply List.Forall_nil|].
  vm_compute in Et. injection Et as <-. vm_compute in Ep. injection Ep as <-. destruct H as [_ H]. destruct H as (E & Hw & Hs); [vm_compute; discriminate|]. destruct Hs as [w Ew]; [left; vm_compute; discriminate|].
  exists w. split; [rewrite E, Ew; reflexivity|]. apply (Hw w Ew).
Defined.

(** The line for these relays, with the scale that the votes agree on. *)
Example ex_weights : consensus_weights ex_votes 9 plain_relays = Ok (Some (s2b "bandwidth-weights Wbd=4785 Wbe=0 Wbg=4327 Wbm=9990 Wdb=9990 Web=9990 Wed=419 Wee=9990 Weg=419 Wem=9990 Wgb=9990 Wgd=4785 Wgg=5663 Wgm=5663 Wmb=9990 Wmd=4785 Wme=0 Wmg=4327 Wmm=9990" ++ [10])).
Proof. vm_compute. reflexivity. Qed.
