(* ===== verification/RouterVote.v ===== *)
(** * Voting on a relay

    Models [compute_routerstatus_consensus] of feature/dirauth/dirvote.c and what it calls there: the entries of the votes about one relay are sorted and the most frequent one wins, a tie going to the entry published last;
    among the votes for the winner the most frequent other address and the most frequent digest of a microdescriptor are chosen.

    [smartlist_sort] calls [qsort]; the sort of entries is a parameter, because entries that compare equal may differ in other fields. *)

From S2P Require Import Prelude CString DiOps UtilString StrList Binascii Inaddr Address Protover Runs VoteParams.
From Stdlib Require Import ZArith String Sorting.Sorted.
From stdpp Require Import base list sets numbers sorting.
Open Scope Z_scope.

Definition DIGEST_LEN : nat := 20.
Definition DIGEST256_LEN : Z := 32.
Definition BASE64_DIGEST256_LEN : nat := 43.

(** What is read of a [vote_routerstatus_t]; [microdesc] holds the hash lines. *)
Record vote_routerstatus_t := mkvrs {
  identity_digest : bytes; descriptor_digest : bytes; published_on : Z; nickname : bytes; ipv4_addr : tor_addr_t; ipv4_orport : Z; ipv4_dirport : Z;
  ipv6_addr : tor_addr_t; ipv6_orport : Z; microdesc : list bytes
}.

(** ** Comparisons *)

(** [CMP_FIELD] with integers of [w] bits: the sign of the wrapped difference. *)
Definition CMP_FIELD (w : Z) (a b : Z) : Z :=
  let u := (b - a) mod 2 ^ w in
  let r2 := if u <? 2 ^ (w - 1) then u else u - 2 ^ w in
  if r2 <? 0 then -1 else if 0 <? r2 then 1 else 0.

(** [if (r) return r;] *)
Definition or_else (r : Z) (k : cres Z) : cres Z := if r =? 0 then k else Ok r.

Definition compare_vote_rs (a b : vote_routerstatus_t) : cres Z :=
  or_else (memcmp (take DIGEST_LEN (identity_digest a)) (take DIGEST_LEN (identity_digest b)))
    (or_else (memcmp (take DIGEST_LEN (descriptor_digest a)) (take DIGEST_LEN (descriptor_digest b)))
      (or_else (CMP_FIELD 64 (published_on a) (published_on b))
        (or_else (strcmp (nickname b) (nickname a))
          (let* r := tor_addr_compare 0 0 (ipv4_addr a) (ipv4_addr b) CMP_EXACT in
           or_else r
             (or_else (CMP_FIELD 32 (ipv4_orport a) (ipv4_orport b))
               (or_else (CMP_FIELD 32 (ipv4_dirport a) (ipv4_dirport b)) (Ok 0))))))).

Definition compare_orports_ (a b : tor_addr_port_t) : cres Z :=
  let* r := tor_addr_compare 0 0 (ap_addr a) (ap_addr b) CMP_EXACT in
  or_else r (or_else (ap_port b - ap_port a) (Ok 0)).

(** ** The winner *)

Definition beats (n published most_n most_published : Z) : bool := (most_n <? n) || ((n =? most_n) && (most_published <? published)).

Fixpoint winner_loop (most : option vote_routerstatus_t) (most_n most_published : Z) (cur : option vote_routerstatus_t) (cur_n : Z) (votes : list vote_routerstatus_t) : cres (option vote_routerstatus_t) :=
  match votes with
  | [] => Ok (if (most_n <? cur_n) || match cur with Some c => (cur_n =? most_n) && (most_published <? published_on c) | None => false end then cur else most)
  | rs :: votes =>
      let* same := match cur with Some c => let* r := compare_vote_rs c rs in Ok (r =? 0) | None => Ok false end in
      if (same : bool) then winner_loop most most_n most_published cur (cur_n + 1) votes
      else
        match cur with
        | Some c =>
            if beats cur_n (published_on c) most_n most_published then winner_loop (Some c) cur_n (published_on c) (Some rs) 1 votes
            else winner_loop most most_n most_published (Some rs) 1 votes
        | None => winner_loop most most_n most_published (Some rs) 1 votes
        end
  end.

(** [votes] is sorted already. *)
Definition routerstatus_winner (votes : list vote_routerstatus_t) : cres vote_routerstatus_t :=
  let* most := winner_loop None 0 0 None 0 votes in
  match most with Some m => Ok m | None => Bug end.

(** The votes for the winner, for which [compare_vote_rs] gives 0. *)
Fixpoint same_votes (compare : vote_routerstatus_t -> cres Z) (votes : list vote_routerstatus_t) : cres (list vote_routerstatus_t) :=
  match votes with
  | [] => Ok []
  | rs :: votes => let* r := compare rs in let* l := same_votes compare votes in Ok (if r =? 0 then rs :: l else l)
  end.

(** ** The digest of the microdescriptor *)

Definition is_decimal (c : Z) : bool := (48 <=? c) && (c <=? 57).

Definition digest256_from_base64 (d64 : bytes) : cres bytes :=
  match base64_decode DIGEST256_LEN d64 with
  | Ok d => if zlen d =? DIGEST256_LEN then Ok d else Err
  | r => r
  end.

(** One hash line: [None] when the method is not in its list. *)
Fixpoint hash_line_loop (fuel : nat) (mstr dstr cp : bytes) : cres (option bytes) :=
  match fuel with
  | O => Fuel
  | S fuel =>
      let '(num, rest) := span is_decimal cp in
      if bytes_eqb num mstr then
        match strstr cp dstr with
        | None => Err
        | Some (_, cp) => let* d := digest256_from_base64 (take BASE64_DIGEST256_LEN (drop (length dstr) cp)) in Ok (Some d)
        end
      else if (length num =? 0)%nat || negb (cur rest =? 44) then Ok None
      else hash_line_loop fuel mstr dstr (drop 1 rest)
  end.

Fixpoint find_microdesc_loop (mstr dstr : bytes) (lines : list bytes) : cres bytes :=
  match lines with
  | [] => Err
  | cp :: lines =>
      let* r := hash_line_loop (S (length cp)) mstr dstr cp in
      match r with Some d => Ok d | None => find_microdesc_loop mstr dstr lines end
  end.

Definition vote_routerstatus_find_microdesc_hash (vrs : vote_routerstatus_t) (method : Z) : cres bytes :=
  find_microdesc_loop (dec method) (s2b " sha256=") (microdesc vrs).

Fixpoint microdesc_digests (method : Z) (votes : list vote_routerstatus_t) : cres (list bytes) :=
  match votes with
  | [] => Ok []
  | rs :: votes =>
      let* rest := microdesc_digests method votes in
      match vote_routerstatus_find_microdesc_hash rs method with Ok d => Ok (d :: rest) | Err => Ok rest | Bug => Bug | Fuel => Fuel end
  end.

Definition compare_digests256_ (a b : bytes) : Z := memcmp a b.

Definition smartlist_sort_digests256 (l : list bytes) : list bytes := sort_by compare_digests256_ l.

Definition best_microdesc_digest (digests : list bytes) : option bytes := fst (smartlist_get_most_frequent_ compare_digests256_ (smartlist_sort_digests256 digests)).

(** ** The other address *)

Fixpoint alt_orports (votes : list vote_routerstatus_t) : list tor_addr_port_t :=
  match votes with
  | [] => []
  | rs :: votes => if negb (tor_addr_is_null (ipv6_addr rs)) && negb (ipv6_orport rs =? 0) then mkap (ipv6_addr rs) (ipv6_orport rs) :: alt_orports votes else alt_orports votes
  end.

(** Addresses of relays compare without failure ([compare_orports_memcmp]). *)
Definition orports_cmp (a b : tor_addr_port_t) : Z := match compare_orports_ a b with Ok r => r | _ => 0 end.

Definition most_alt_orport (alt : list tor_addr_port_t) : option tor_addr_port_t := fst (smartlist_get_most_frequent_ orports_cmp (sort_by orports_cmp alt)).

Section Consensus.

(** [smartlist_sort] with [compare_vote_rs_]. *)
Variable sort_rs : list vote_routerstatus_t -> list vote_routerstatus_t.

(** The winner, the other address and the digest of the microdescriptor. *)
Definition compute_routerstatus_consensus (votes : list vote_routerstatus_t) (consensus_method : Z) : cres (vote_routerstatus_t * option tor_addr_port_t * option bytes) :=
  let votes := sort_rs votes in
  let* most := routerstatus_winner votes in
  let* same := same_votes (fun rs => compare_vote_rs most rs) votes in
  let alt := most_alt_orport (alt_orports same) in
  let* same := same_votes (fun rs => compare_vote_rs rs most) votes in
  let* digests := microdesc_digests consensus_method same in
  Ok (most, alt, best_microdesc_digest digests).

End Consensus.

(** ** Comparisons one after the other *)

(** The first result that is not 0. *)
Fixpoint lex (rs : list Z) : Z := match rs with [] => 0 | r :: rs => if r =? 0 then lex rs else r end.

Lemma lex_zero rs : lex rs = 0 <-> Forall (fun r => r = 0) rs.
Proof.
  induction rs as [|r rs IH]; cbn [lex]; [by split|]. destruct (Z.eqb_spec r 0) as [->|Hr].
  - rewrite IH. split; [by constructor|]. by inversion_clear 1.
  - split; [lia|]. inversion_clear 1. lia.
Qed.

(** Comparisons that are total preorders on [P]. *)
Record good_cmp {A} (P : A -> Prop) (c : A -> A -> Z) : Prop := {
  gc_anti : forall x y, P x -> P y -> Z.sgn (c y x) = - Z.sgn (c x y);
  gc_trans : forall x y z, P x -> P y -> P z -> c x y <= 0 -> c y z <= 0 -> c x z <= 0
}.

Lemma good_total {A} (P : A -> Prop) c x y : good_cmp P c -> P x -> P y -> ~ le_by c x y -> le_by c y x.
Proof. intros Hc Hx Hy. pose proof (gc_anti P c Hc x y Hx Hy). unfold le_by. lia. Qed.

(** The comparisons of a list, one after the other. *)
Lemma good_lex {A} (P : A -> Prop) cs : Forall (good_cmp P) cs -> good_cmp P (fun x y => lex (map (fun c => c x y) cs)).
Proof.
  induction 1 as [|c cs Hc _ IH]; [by constructor|]. assert (forall x y, P x -> P y -> c x y = 0 <-> c y x = 0) as H0 by (intros x y Hx Hy; pose proof (gc_anti P c Hc x y Hx Hy); lia). constructor; cbn [map lex].
  - intros x y Hx Hy. pose proof (gc_anti P c Hc x y Hx Hy) as Ha. pose proof (H0 x y Hx Hy) as Hz. destruct (Z.eqb_spec (c y x) 0), (Z.eqb_spec (c x y) 0); try tauto. by apply (gc_anti P _ IH).
  - intros x y z Hx Hy Hz. pose proof (gc_trans P c Hc) as Ht. pose proof (H0 x z Hx Hz) as Hxz. pose proof (H0 x y Hx Hy) as Hxy. pose proof (H0 y z Hy Hz) as Hyz.
    pose proof (gc_anti P c Hc x y Hx Hy) as Axy. pose proof (gc_anti P c Hc y z Hy Hz) as Ayz. pose proof (gc_anti P c Hc x z Hx Hz) as Axz.
    pose proof (Ht x y z Hx Hy Hz) as T1. pose proof (Ht z x y Hz Hx Hy) as T2. pose proof (Ht y z x Hy Hz Hx) as T3. pose proof (Ht z y x Hz Hy Hx) as T4.
    destruct (Z.eqb_spec (c x y) 0), (Z.eqb_spec (c y z) 0), (Z.eqb_spec (c x z) 0); try lia. by apply (gc_trans P _ IH).
Qed.

Lemma or_else_lex r rs : or_else r (Ok (lex rs)) = Ok (lex (r :: rs)).
Proof. unfold or_else. cbn [lex]. by destruct (r =? 0). Qed.

Lemma memcmp_eq a b : length a = length b -> memcmp a b = 0 <-> a = b.
Proof.
  revert b. induction a as [|x a IH]; intros [|y b] Hl; try done. cbn [memcmp]. destruct (Z.eqb_spec x y) as [->|Hne]; [rewrite IH by (cbn in Hl; lia); split; [by intros ->|by intros [= ->]]|].
  split; [lia|]. congruence.
Qed.

Lemma memcmp_anti a b : memcmp b a = - memcmp a b.
Proof. revert b. induction a as [|x a IH]; intros [|y b]; try done. cbn [memcmp]. rewrite (Z.eqb_sym y x). destruct (Z.eqb_spec x y); [apply IH|lia]. Qed.

Lemma memcmp_trans a b c : length a = length b -> length b = length c -> memcmp a b <= 0 -> memcmp b c <= 0 -> memcmp a c <= 0.
Proof.
  revert b c. induction a as [|x a IH]; intros [|y b] [|z c] H1 H2; try done. cbn [memcmp length] in *. destruct (Z.eqb_spec x y), (Z.eqb_spec y z), (Z.eqb_spec x z); subst; try lia. apply IH; lia.
Qed.

Lemma cmp_field_sgn w a b : 1 <= w -> Z.abs (b - a) < 2 ^ (w - 1) -> CMP_FIELD w a b = Z.sgn (b - a).
Proof.
  intros Hw Hd. unfold CMP_FIELD. assert (2 ^ w = 2 * 2 ^ (w - 1)) as Ew by (rewrite <- Z.pow_succ_r by lia; f_equal; lia). pose proof (Z.pow_pos_nonneg 2 (w - 1) ltac:(lia) ltac:(lia)).
  destruct (Z.le_gt_cases 0 (b - a)).
  - rewrite Z.mod_small by lia. rewrite (proj2 (Z.ltb_lt (b - a) (2 ^ (w - 1)))) by lia. rewrite (proj2 (Z.ltb_ge _ 0)) by lia. destruct (Z.ltb_spec 0 (b - a)); lia.
  - replace ((b - a) mod 2 ^ w) with (b - a + 2 ^ w) by (symmetry; rewrite <- (Z_mod_plus_full _ 1), Z.mul_1_l; apply Z.mod_small; lia). rewrite (proj2 (Z.ltb_ge (b - a + 2 ^ w) (2 ^ (w - 1)))) by lia. replace (b - a + 2 ^ w - 2 ^ w) with (b - a) by lia. rewrite (proj2 (Z.ltb_lt _ _)) by lia. lia.
Qed.

Lemma tristate_diff a b : TRISTATE a b = Z.sgn (a - b).
Proof. unfold TRISTATE. destruct (Z.ltb_spec a b); [lia|]. destruct (Z.eqb_spec a b); lia. Qed.

Lemma good_memcmp {A} (P : A -> Prop) (f : A -> bytes) n : (forall x, P x -> length (f x) = n) -> good_cmp P (fun x y => memcmp (f x) (f y)).
Proof.
  intros Hl. constructor; [intros x y _ _; rewrite (memcmp_anti (f x)), Z.sgn_opp; lia|]. intros x y z Hx Hy Hz. apply memcmp_trans; by rewrite !Hl.
Qed.

Lemma good_diff {A} (P : A -> Prop) (f : A -> Z) : good_cmp P (fun x y => f x - f y).
Proof. constructor; lia. Qed.

Lemma good_flip {A} (P : A -> Prop) c : good_cmp P c -> good_cmp P (fun x y => c y x).
Proof. intros Hc. constructor; [intros x y Hx Hy; by apply (gc_anti P c Hc)|]. intros x y z Hx Hy Hz H1 H2. by apply (gc_trans P c Hc z y x). Qed.

Lemma good_sgn {A} (P : A -> Prop) c : good_cmp P c -> good_cmp P (fun x y => Z.sgn (c x y)).
Proof. intros Hc. constructor; [intros x y Hx Hy; pose proof (gc_anti P c Hc x y Hx Hy); lia|]. intros x y z Hx Hy Hz H1 H2. pose proof (gc_trans P c Hc x y z Hx Hy Hz). lia. Qed.

Lemma good_strcmp {A} (P : A -> Prop) (f : A -> bytes) : (forall x, P x -> cstr (f x)) -> good_cmp P (fun x y => strcmp (f x) (f y)).
Proof.
  intros Hf. constructor; [intros x y _ _; rewrite (strcmp_anti (f x)), Z.sgn_opp; lia|]. intros x y z Hx Hy Hz. apply (str_le_trans (f x) (f y) (f z)); auto.
Qed.

(** ** Entries of relays *)

Record vrs_ok (rs : vote_routerstatus_t) : Prop := {
  vo_identity : length (identity_digest rs) = DIGEST_LEN;
  vo_descriptor : length (descriptor_digest rs) = DIGEST_LEN;
  vo_published : 0 <= published_on rs < 2 ^ 63;
  vo_nickname : cstr (nickname rs);
  vo_ipv4 : family (ipv4_addr rs) = AF_INET;
  vo_ports : 0 <= ipv4_orport rs < 65536 /\ 0 <= ipv4_dirport rs < 65536;
  vo_ipv6 : tor_addr_is_null (ipv6_addr rs) = true \/ (family (ipv6_addr rs) = AF_INET6 /\ length (ip (ipv6_addr rs)) = 16%nat /\ Forall is_byte (ip (ipv6_addr rs)))
}.

(** The fields that are compared. *)
Definition vrs_key (rs : vote_routerstatus_t) : bytes * bytes * Z * bytes * Z * Z * Z :=
  (identity_digest rs, descriptor_digest rs, published_on rs, nickname rs, tor_addr_to_ipv4h (ipv4_addr rs), ipv4_orport rs, ipv4_dirport rs).

Definition vrs_cmp (a b : vote_routerstatus_t) : Z :=
  lex [memcmp (identity_digest a) (identity_digest b); memcmp (descriptor_digest a) (descriptor_digest b); Z.sgn (published_on b - published_on a); strcmp (nickname b) (nickname a);
       Z.sgn (tor_addr_to_ipv4h (ipv4_addr a) - tor_addr_to_ipv4h (ipv4_addr b)); Z.sgn (ipv4_orport b - ipv4_orport a); Z.sgn (ipv4_dirport b - ipv4_dirport a)].

Lemma compare_vote_rs_lex a b : vrs_ok a -> vrs_ok b -> compare_vote_rs a b = Ok (vrs_cmp a b).
Proof.
  intros Ha Hb. unfold compare_vote_rs, vrs_cmp. rewrite !take_ge by (rewrite ?(vo_identity _ Ha), ?(vo_identity _ Hb), ?(vo_descriptor _ Ha), ?(vo_descriptor _ Hb); lia).
  pose proof (vo_published _ Ha). pose proof (vo_published _ Hb). pose proof (vo_ports _ Ha). pose proof (vo_ports _ Hb). rewrite !cmp_field_sgn by lia.
  unfold tor_addr_compare, tor_addr_compare_masked. rewrite (vo_ipv4 _ Ha), (vo_ipv4 _ Hb). cbn [cbind]. rewrite bool_decide_true by done. change (128 <=? 0) with false. cbv iota. cbn [cbind].
  unfold compare_v4. change (32 <? 128) with true. cbv iota. rewrite !Z.shiftr_0_r, tristate_diff. change (Ok 0) with (Ok (lex [])). by rewrite !or_else_lex.
Qed.

Lemma vrs_cmp_zero a b : vrs_ok a -> vrs_ok b -> vrs_cmp a b = 0 <-> vrs_key a = vrs_key b.
Proof.
  intros Ha Hb. unfold vrs_cmp, vrs_key. rewrite lex_zero, !List.Forall_cons_iff. rewrite !memcmp_eq by (rewrite ?(vo_identity _ Ha), ?(vo_identity _ Hb), ?(vo_descriptor _ Ha), ?(vo_descriptor _ Hb); done).
  rewrite (strcmp_eq (nickname b)) by (apply cstr_no_nul, vo_nickname; done). rewrite !Z.sgn_null_iff. split.
  - intros (-> & -> & E1 & -> & E2 & E3 & E4 & _). assert (published_on a = published_on b /\ tor_addr_to_ipv4h (ipv4_addr a) = tor_addr_to_ipv4h (ipv4_addr b) /\ ipv4_orport a = ipv4_orport b /\ ipv4_dirport a = ipv4_dirport b) as (-> & -> & -> & ->) by lia. done.
  - intros [= -> -> -> -> -> -> ->]. split_and!; try done; lia.
Qed.

Lemma good_vrs_cmp : good_cmp vrs_ok vrs_cmp.
Proof.
  apply (good_lex vrs_ok [fun a b => memcmp (identity_digest a) (identity_digest b); fun a b => memcmp (descriptor_digest a) (descriptor_digest b); fun a b => Z.sgn (published_on b - published_on a); fun a b => strcmp (nickname b) (nickname a);
    fun a b => Z.sgn (tor_addr_to_ipv4h (ipv4_addr a) - tor_addr_to_ipv4h (ipv4_addr b)); fun a b => Z.sgn (ipv4_orport b - ipv4_orport a); fun a b => Z.sgn (ipv4_dirport b - ipv4_dirport a)]).
  apply List.Forall_cons; [apply (good_memcmp _ _ _ vo_identity)|]. apply List.Forall_cons; [apply (good_memcmp _ _ _ vo_descriptor)|].
  apply List.Forall_cons; [apply good_sgn, (good_flip _ (fun a b => published_on a - published_on b)), good_diff|]. apply List.Forall_cons; [apply (good_flip _ (fun a b => strcmp (nickname a) (nickname b))), good_strcmp, vo_nickname|].
  apply List.Forall_cons; [apply good_sgn, good_diff|]. apply List.Forall_cons; [apply good_sgn, (good_flip _ (fun a b => ipv4_orport a - ipv4_orport b)), good_diff|].
  apply List.Forall_cons; [apply good_sgn, (good_flip _ (fun a b => ipv4_dirport a - ipv4_dirport b)), good_diff|]. apply List.Forall_nil.
Qed.

Lemma vrs_cmp_key a b c : vrs_key a = vrs_key c -> vrs_cmp b c = vrs_cmp b a.
Proof. unfold vrs_key, vrs_cmp. by intros [= -> -> -> -> -> -> ->]. Qed.

Definition vrs_le (a b : vote_routerstatus_t) : Prop := vrs_cmp a b <= 0.

Lemma sorted_vrs_grouped l : Forall vrs_ok l -> StronglySorted vrs_le l -> grouped_by vrs_key l.
Proof.
  intros Hok Hs. apply (sorted_grouped vrs_key vrs_le l Hs). intros x y z Hx Hy Hz H1 H2 E. rewrite Forall_forall in Hok. unfold vrs_le in *. rewrite (vrs_cmp_key x y z E) in H2. symmetry. apply vrs_cmp_zero; [by auto..|].
  pose proof (gc_anti _ _ good_vrs_cmp x y (Hok x Hx) (Hok y Hy)). lia.
Qed.

(** ** The loop picks the best run *)

(** The best entry so far, the number of votes for it and its date. *)
Definition best_t : Type := option vote_routerstatus_t * Z * Z.

Definition pick_run (best : best_t) (r : list vote_routerstatus_t) : best_t :=
  match head r with
  | Some c => if beats (zlen r) (published_on c) (snd (fst best)) (snd best) then (Some c, zlen r, published_on c) else best
  | None => best
  end.

Lemma winner_loop_runs l : forall most n pub c acc, Forall vrs_ok (c :: l) ->
  winner_loop most n pub (Some c) (zlen (c :: acc)) l = Ok (fst (fst (fold_left pick_run (runs_from vrs_key c (c :: acc) l) (most, n, pub)))).
Proof.
  induction l as [|x l IH]; intros most n pub c acc Hok; cbn [winner_loop runs_from fold_left].
  - unfold pick_run, beats. cbn [head fst snd]. by destruct (_ || _).
  - inversion_clear Hok as [|? ? Hc Hl]. inversion_clear Hl as [|? ? Hx Hl']. rewrite compare_vote_rs_lex by done. cbn [cbind]. pose proof (vrs_cmp_zero c x Hc Hx) as Hz. destruct (decide (vrs_key c = vrs_key x)) as [E|E].
    + rewrite (proj2 (Z.eqb_eq _ _)) by (by apply Hz). replace (zlen (c :: acc) + 1) with (zlen (c :: acc ++ [x])) by zlia. apply IH. by constructor.
    + rewrite (proj2 (Z.eqb_neq _ _)) by (intros E2; by apply E, Hz). cbn [fold_left]. unfold pick_run at 2. cbn [head fst snd].
      destruct (beats _ _ _ _); apply (IH _ _ _ x []); by constructor.
Qed.

(** [(n, p)] comes before [(m, q)]. *)
Definition not_better (n p m q : Z) : Prop := n < m \/ (n = m /\ p <= q).

Lemma beats_spec n p m q : beats n p m q = false <-> not_better n p m q.
Proof. unfold beats, not_better. rewrite orb_false_iff, andb_false_iff, !Z.ltb_ge, Z.eqb_neq. lia. Qed.

Lemma pick_run_best rs : forall best, Forall (fun r => r <> []) rs ->
  let res := fold_left pick_run rs best in
  not_better (snd (fst best)) (snd best) (snd (fst res)) (snd res) /\
  (forall r c, r ∈ rs -> head r = Some c -> not_better (zlen r) (published_on c) (snd (fst res)) (snd res)) /\
  (res = best \/ exists r c, r ∈ rs /\ head r = Some c /\ res = (Some c, zlen r, published_on c)).
Proof.
  induction rs as [|r rs IH]; intros best Hn; cbn [fold_left]; [split; [right; lia|]; split; [intros r c Hr; by apply not_elem_of_nil in Hr|by left]|].
  inversion_clear Hn as [|? ? Hr Hrs]. destruct r as [|c r]; [done|]. destruct (IH (pick_run best (c :: r)) Hrs) as (H1 & H2 & H3). cbv zeta in *.
  assert ((beats (zlen (c :: r)) (published_on c) (snd (fst best)) (snd best) = true /\ pick_run best (c :: r) = (Some c, zlen (c :: r), published_on c)) \/
          (beats (zlen (c :: r)) (published_on c) (snd (fst best)) (snd best) = false /\ pick_run best (c :: r) = best)) as [[Eb E]|[Eb E]] by (unfold pick_run; cbn [head]; destruct (beats _ _ _ _); auto); rewrite E in *; cbn [fst snd] in H1.
  - split; [unfold beats in Eb; unfold not_better in *; rewrite orb_true_iff, andb_true_iff, !Z.ltb_lt, Z.eqb_eq in Eb; lia|]. split.
    + intros r' c' [->|Hr']%elem_of_cons Hc'; [injection Hc' as <-; exact H1|by apply H2].
    + right. destruct H3 as [->|(r' & c' & Hr' & Hc' & ->)]; [exists (c :: r), c; split; [constructor|done]|exists r', c'; split; [by constructor|done]].
  - apply beats_spec in Eb. split; [done|]. split.
    + intros r' c' [->|Hr']%elem_of_cons Hc'; [injection Hc' as <-; unfold not_better in *; lia|by apply H2].
    + destruct H3 as [->|(r' & c' & Hr' & Hc' & ->)]; [by left|right; exists r', c'; split; [by constructor|done]].
Qed.

(** How many votes agree with an entry. *)
Definition copies (rs : vote_routerstatus_t) (votes : list vote_routerstatus_t) : Z := zlen (filter (fun v => vrs_key v = vrs_key rs) votes).

Lemma winner_spec votes : votes <> [] -> Forall vrs_ok votes -> grouped_by vrs_key votes ->
  exists most, routerstatus_winner votes = Ok most /\ most ∈ votes /\ forall v, v ∈ votes -> not_better (copies v votes) (published_on v) (copies most votes) (published_on most).
Proof.
  intros Hn Hok Hg. destruct votes as [|h l]; [done|]. unfold routerstatus_winner. cbn [winner_loop cbind].
  pose proof (winner_loop_runs l None 0 0 h [] Hok) as Hw. change (zlen [h]) with 1 in Hw. rewrite Hw. cbn [cbind]. pose proof (runs_spec vrs_key _ Hg) as Hr. cbn [runs] in Hr.
  pose proof (runs_cover vrs_key (h :: l)) as Hcov. cbn [runs] in Hcov. set (rs := runs_from vrs_key h [h] l) in *.
  assert (Forall (fun r => r <> []) rs) as Hne by (apply (Forall_weaken _ _ _ Hr); by intros r (x & rest & -> & _)). destruct (pick_run_best rs (None, 0, 0) Hne) as (_ & Hall & Hres). cbv zeta in *. rewrite Forall_forall in Hr.
  set (res := fold_left pick_run rs (None, 0, 0)) in *.
  assert (exists r c, r ∈ rs /\ head r = Some c /\ res = (Some c, zlen r, published_on c)) as (r & c & Hin & Hc & E).
  { destruct Hres as [E|]; [|done]. exfalso. destruct (runs_from_head vrs_key h [h] l) as (x & rs' & Ers). fold rs in Ers. assert ([h] ++ x ∈ rs) as Hx by (rewrite Ers; constructor).
    specialize (Hall _ h Hx eq_refl). rewrite E in Hall. cbn [fst snd] in Hall. unfold not_better, zlen in Hall. cbn [app length] in Hall. lia. }
  rewrite E in *. cbn [fst snd] in *. destruct (Hr r Hin) as (c' & rest & E1 & E2). assert (c' = c) as -> by (rewrite E1 in Hc; by injection Hc). exists c. split; [done|].
  assert (c ∈ h :: l) as Hcl by (assert (c ∈ r) as Hcr by (rewrite E1; constructor); rewrite E2 in Hcr; by apply list_elem_of_filter in Hcr as [_ Hcr]). split; [done|].
  assert (zlen r = copies c (h :: l)) as Hz by (by rewrite E2). rewrite Hz in Hall. intros v Hv. pose proof (Hcov v Hg Hv) as Hvr. destruct (Hr _ Hvr) as (u & rest' & Eu & Eu2).
  specialize (Hall _ u Hvr ltac:(by rewrite Eu)). fold (copies v (h :: l)) in Hall. assert (vrs_key u = vrs_key v) as Ek by (assert (u ∈ u :: rest') as Hu by constructor; rewrite <- Eu in Hu; by apply list_elem_of_filter in Hu as [Hu _]).
  assert (published_on u = published_on v) as <- by (unfold vrs_key in Ek; by injection Ek). exact Hall.
Qed.

(** ** Digests and addresses of the votes for the winner *)

Lemma same_votes_ok compare most votes : Forall vrs_ok votes -> vrs_ok most -> (forall rs, vrs_ok rs -> exists r, compare rs = Ok r /\ (r = 0 <-> vrs_key rs = vrs_key most)) ->
  same_votes compare votes = Ok (filter (fun v => vrs_key v = vrs_key most) votes).
Proof.
  intros Hok Hm Hc. induction Hok as [|rs votes Hrs Hok IH]; [done|]. cbn [same_votes]. destruct (Hc rs Hrs) as (r & -> & Hz). rewrite IH. cbn [cbind]. rewrite filter_cons.
  case_decide as E; destruct (Z.eqb_spec r 0) as [E0|E0]; try done; exfalso; tauto.
Qed.

Lemma digest256_total d64 : digest256_from_base64 d64 = Err \/ exists d, digest256_from_base64 d64 = Ok d /\ length d = 32%nat.
Proof.
  unfold digest256_from_base64. destruct (base64_decode_total DIGEST256_LEN d64) as [->|[o ->]]; [done|by left|]. cbn [cbind].
  destruct (Z.eqb_spec (zlen o) DIGEST256_LEN) as [E|]; [|by left]. right. exists o. split; [done|]. unfold zlen, DIGEST256_LEN in E. lia.
Qed.

Lemma hash_line_total fuel mstr dstr : forall cp, (length cp < fuel)%nat ->
  hash_line_loop fuel mstr dstr cp = Err \/ hash_line_loop fuel mstr dstr cp = Ok None \/ exists d, hash_line_loop fuel mstr dstr cp = Ok (Some d) /\ length d = 32%nat.
Proof.
  induction fuel as [|fuel IH]; intros cp Hf; [lia|]. cbn [hash_line_loop]. destruct (span is_decimal cp) as [num rest] eqn:Es. destruct (bytes_eqb num mstr).
  - destruct (strstr cp dstr) as [[a b]|]; [|by left]. destruct (digest256_total (take BASE64_DIGEST256_LEN (drop (length dstr) b))) as [->|(d & -> & Hd)]; [by left|]. right. right. by exists d.
  - destruct (_ || _) eqn:E; [right; by left|]. apply IH. pose proof (span_app is_decimal cp) as Hs. rewrite Es in Hs. cbn [fst snd] in Hs. rewrite length_drop. apply (f_equal length) in Hs. rewrite length_app in Hs.
    rewrite orb_false_iff, Nat.eqb_neq in E. lia.
Qed.

Lemma find_microdesc_total vrs method : vote_routerstatus_find_microdesc_hash vrs method = Err \/ exists d, vote_routerstatus_find_microdesc_hash vrs method = Ok d /\ length d = 32%nat.
Proof.
  unfold vote_routerstatus_find_microdesc_hash. generalize (dec method), (s2b " sha256="). intros mstr dstr. induction (microdesc vrs) as [|cp lines IH]; cbn [find_microdesc_loop]; [by left|].
  destruct (hash_line_total (S (length cp)) mstr dstr cp) as [->|[->|(d & -> & Hd)]]; [lia|by left|exact IH|]. cbn [cbind]. right. by exists d.
Qed.

(** The digest that a vote gives for a method. *)
Definition md_digest (method : Z) (rs : vote_routerstatus_t) : option bytes := match vote_routerstatus_find_microdesc_hash rs method with Ok d => Some d | _ => None end.

Lemma microdesc_digests_ok method votes : microdesc_digests method votes = Ok (omap (md_digest method) votes) /\ Forall (fun d => length d = 32%nat) (omap (md_digest method) votes).
Proof.
  induction votes as [|rs votes [IH1 IH2]]; [split; [done|constructor]|]. cbn [microdesc_digests omap list_omap]. rewrite IH1. cbn [cbind].
  destruct (find_microdesc_total rs method) as [E|(d & E & Hd)].
  - assert (md_digest method rs = None) as -> by (unfold md_digest; by rewrite E). rewrite E. done.
  - assert (md_digest method rs = Some d) as -> by (unfold md_digest; by rewrite E). rewrite E. split; [done|]. by constructor.
Qed.

Definition digest_ok (d : bytes) : Prop := length d = 32%nat.

Lemma digests_most_frequent l : Forall digest_ok l -> match best_microdesc_digest l with Some d => d ∈ l /\ forall d', occurs d' l <= occurs d l | None => l = [] end.
Proof.
  intros Hl. unfold best_microdesc_digest, smartlist_sort_digests256. pose proof (good_memcmp digest_ok id 32 (fun x Hx => Hx)) as Hg.
  refine (best_by_spec compare_digests256_ digest_ok (gc_trans _ _ Hg) (fun x y => good_total _ _ x y Hg) _ (gc_anti _ _ Hg) l Hl). intros x y Hx Hy. apply memcmp_eq. congruence.
Qed.

Definition orport_ok (a : tor_addr_port_t) : Prop := family (ap_addr a) = AF_INET6 /\ length (ip (ap_addr a)) = 16%nat /\ Forall is_byte (ip (ap_addr a)).

#[export] Instance tor_addr_port_eq_dec : EqDecision tor_addr_port_t.
Proof. assert (EqDecision tor_addr_t) by solve_decision. solve_decision. Defined.

Lemma compare_orports_memcmp a b : orport_ok a -> orport_ok b -> compare_orports_ a b = Ok (lex [memcmp (ip (ap_addr a)) (ip (ap_addr b)); ap_port b - ap_port a]).
Proof.
  intros (Fa & La & Ba) (Fb & Lb & Bb). unfold compare_orports_, tor_addr_compare, tor_addr_compare_masked. rewrite Fa, Fb, bool_decide_true by done. unfold compare_v6. change (128 <? 128) with false. cbv iota.
  change (Z.shiftr 128 3) with 16. change (Z.land 128 7) with 0. change (16 =? 0) with false. cbv iota. change (Z.to_nat 16) with 16%nat. rewrite tor_memcmp_correct, !take_ge by (done || lia). cbn [cbind].
  destruct (Z.eqb_spec (memcmp (ip (ap_addr a)) (ip (ap_addr b))) 0) as [E|E]; cbn [negb cbind].
  - change (0 =? 0) with true. cbn [negb cbind]. change (Ok 0) with (Ok (lex [])). rewrite !or_else_lex. cbn [lex]. rewrite E. done.
  - unfold or_else. cbn [lex]. by rewrite (proj2 (Z.eqb_neq _ _) E).
Qed.

Lemma orports_cmp_lex a b : orport_ok a -> orport_ok b -> orports_cmp a b = lex [memcmp (ip (ap_addr a)) (ip (ap_addr b)); ap_port b - ap_port a].
Proof. intros Ha Hb. unfold orports_cmp. by rewrite compare_orports_memcmp. Qed.

Lemma orports_cmp_eq a b : orport_ok a -> orport_ok b -> orports_cmp a b = 0 <-> a = b.
Proof.
  intros Ha Hb. rewrite orports_cmp_lex, lex_zero, !List.Forall_cons_iff by done. destruct Ha as (Fa & La & _), Hb as (Fb & Lb & _). rewrite memcmp_eq by congruence. split; [|intros ->; split_and!; [done|lia|done]].
  intros (E & E2 & _). destruct a as [[fa ia] pa], b as [[fb ib] pb]. cbn in *. subst. f_equal. lia.
Qed.

Lemma good_orports_cmp : good_cmp orport_ok orports_cmp.
Proof.
  assert (good_cmp orport_ok (fun a b => lex (map (fun c => c a b) [fun a b => memcmp (ip (ap_addr a)) (ip (ap_addr b)); fun a b => ap_port b - ap_port a]))) as Hg.
  { apply good_lex. apply List.Forall_cons; [apply (good_memcmp _ _ 16); by intros x (_ & H & _)|]. apply List.Forall_cons; [apply (good_flip _ (fun a b => ap_port a - ap_port b)), good_diff|apply List.Forall_nil]. }
  constructor.
  - intros x y Hx Hy. rewrite !orports_cmp_lex by done. apply (gc_anti _ _ Hg x y Hx Hy).
  - intros x y z Hx Hy Hz. rewrite !orports_cmp_lex by done. apply (gc_trans _ _ Hg x y z Hx Hy Hz).
Qed.

Lemma orports_most_frequent l : Forall orport_ok l -> match most_alt_orport l with Some a => a ∈ l /\ forall a', occurs a' l <= occurs a l | None => l = [] end.
Proof.
  intros Hl. unfold most_alt_orport. exact (best_by_spec orports_cmp orport_ok (gc_trans _ _ good_orports_cmp) (fun x y => good_total _ _ x y good_orports_cmp) orports_cmp_eq (gc_anti _ _ good_orports_cmp) l Hl).
Qed.

Lemma alt_orports_ok votes : Forall vrs_ok votes -> Forall orport_ok (alt_orports votes).
Proof.
  induction 1 as [|rs votes Hrs _ IH]; [constructor|]. cbn [alt_orports]. destruct (tor_addr_is_null (ipv6_addr rs)) eqn:En; cbn [negb andb]; [done|]. destruct (negb _); [|done]. constructor; [|done].
  destruct (vo_ipv6 rs Hrs) as [Hn|Hn]; [congruence|exact Hn].
Qed.

(** What a vote gives as its other address. *)
Definition alt_orport (rs : vote_routerstatus_t) : option tor_addr_port_t :=
  if negb (tor_addr_is_null (ipv6_addr rs)) && negb (ipv6_orport rs =? 0) then Some (mkap (ipv6_addr rs) (ipv6_orport rs)) else None.

Lemma alt_orports_omap votes : alt_orports votes = omap alt_orport votes.
Proof. induction votes as [|rs votes IH]; [done|]. cbn [alt_orports omap list_omap]. unfold alt_orport at 1. destruct (_ && _); by rewrite IH. Qed.

(** A member that no other member outnumbers. *)
Definition most_common {A} `{EqDecision A} (o : option A) (l : list A) : Prop := match o with Some x => x ∈ l /\ forall y, occurs y l <= occurs x l | None => l = [] end.

Lemma most_common_perm {A} `{EqDecision A} (o : option A) l l' : Permutation l l' -> most_common o l -> most_common o l'.
Proof.
  intros Hp. unfold most_common, occurs, zlen. destruct o as [x|]; [|intros ->; by apply Permutation_nil]. intros [Hx Hm]. rewrite Hp in Hx. split; [done|]. intros y. specialize (Hm y). by rewrite !Hp in Hm.
Qed.

Section Result.

Variable sort_rs : list vote_routerstatus_t -> list vote_routerstatus_t.
Hypothesis sort_perm : forall l, Permutation (sort_rs l) l.
Hypothesis sort_sorted : forall l, Forall vrs_ok l -> StronglySorted vrs_le (sort_rs l).

(** C27. The entry that is published for a relay is one that no other outnumbers among the votes, and none as frequent was published later; among the votes for it, the other address and the
    digest of the microdescriptor are ones that no others outnumber; none is given only if no vote has one. *)
Theorem plurality_wins votes method :
  votes <> [] -> Forall vrs_ok votes ->
  exists most alt digest, compute_routerstatus_consensus sort_rs votes method = Ok (most, alt, digest) /\ most ∈ votes /\
    (forall v, v ∈ votes -> not_better (copies v votes) (published_on v) (copies most votes) (published_on most)) /\
    (let same := filter (fun v => vrs_key v = vrs_key most) votes in most_common alt (omap alt_orport same) /\ most_common digest (omap (md_digest method) same)).
Proof.
  intros Hn Hok. unfold compute_routerstatus_consensus. pose proof (sort_perm votes) as Hp. assert (Forall vrs_ok (sort_rs votes)) as Hok' by (by rewrite Hp).
  destruct (winner_spec (sort_rs votes)) as (most & Ew & Hm & Hbest); [intros E; apply Hn, Permutation_nil; by rewrite <- E|done|apply sorted_vrs_grouped; [done|by apply sort_sorted]|].
  rewrite Ew. cbn [cbind]. assert (vrs_ok most) as Hmok by (by apply (proj1 (Forall_forall _ _) Hok')).
  assert (forall rs, vrs_ok rs -> exists r, compare_vote_rs most rs = Ok r /\ (r = 0 <-> vrs_key rs = vrs_key most)) as Hc1 by (intros rs Hrs; exists (vrs_cmp most rs); split; [by apply compare_vote_rs_lex|rewrite vrs_cmp_zero by done; by split; intros ->]).
  assert (forall rs, vrs_ok rs -> exists r, compare_vote_rs rs most = Ok r /\ (r = 0 <-> vrs_key rs = vrs_key most)) as Hc2 by (intros rs Hrs; exists (vrs_cmp rs most); split; [by apply compare_vote_rs_lex|by apply vrs_cmp_zero]).
  rewrite (same_votes_ok (fun rs => compare_vote_rs most rs) most), (same_votes_ok (fun rs => compare_vote_rs rs most) most) by done. cbn [cbind].
  destruct (microdesc_digests_ok method (filter (fun v => vrs_key v = vrs_key most) (sort_rs votes))) as [-> Hd]. cbn [cbind]. eexists _, _, _. split; [done|]. split; [by rewrite <- Hp|].
  split; [intros v Hv; rewrite <- Hp in Hv; specialize (Hbest v Hv); unfold copies, zlen in *; by rewrite !Hp in Hbest|]. cbv zeta. rewrite alt_orports_omap. split.
  - eapply most_common_perm; [apply omap_Permutation, filter_Permutation, Hp|]. apply orports_most_frequent. rewrite <- alt_orports_omap. apply alt_orports_ok, Forall_forall. intros v Hv. apply list_elem_of_filter in Hv as [_ Hv]. by apply (proj1 (Forall_forall _ _) Hok').
  - eapply most_common_perm; [apply omap_Permutation, filter_Permutation, Hp|]. by apply digests_most_frequent.
Qed.

End Result.

Definition stable_sort_rs (l : list vote_routerstatus_t) : list vote_routerstatus_t := sort_by vrs_cmp l.

Definition ex_vrs (d p : Z) (md : list bytes) : vote_routerstatus_t :=
  mkvrs (replicate 20 7) (replicate 20 d) p (s2b "relay") (mkaddr AF_INET [10; 0; 0; 1]) 443 80 (mkaddr AF_INET6 (32 :: 1 :: replicate 13 0 ++ [d])) 9001 md.

Definition ex_hash : list bytes := [s2b "32,33 sha256=AAAAAAAAAAAAAAAAAAAAAAAAAAAAAAAAAAAAAAAAAAA"].

Definition ex_entries : list vote_routerstatus_t := [ex_vrs 2 500 []; ex_vrs 1 100 ex_hash; ex_vrs 1 100 []; ex_vrs 3 900 []; ex_vrs 2 500 []].

Lemma plurality_wins_witness :
  exists most alt digest, compute_routerstatus_consensus stable_sort_rs ex_entries 33 = Ok (most, alt, digest) /\ not_better 2 100 (copies most ex_entries) (published_on most).
Proof.
  destruct (plurality_wins stable_sort_rs (sort_by_perm vrs_cmp) (sort_by_sorted vrs_cmp vrs_ok (gc_trans _ _ good_vrs_cmp) (fun x y => good_total _ _ x y good_vrs_cmp)) ex_entries 33) as (most & alt & digest & E & _ & Hb & _).
  - discriminate.
  - repeat (apply List.Forall_cons; [constructor; [reflexivity|reflexivity|split; [discriminate|reflexivity]|repeat constructor|reflexivity|split; split; first [discriminate|reflexivity]|right; split; [reflexivity|]; split; [reflexivity|]; apply byteb_ok; reflexivity]|]). apply List.Forall_nil.
  - exists most, alt, digest. split; [exact E|]. apply (Hb (ex_vrs 1 100 ex_hash)). apply list_elem_of_In. right. left. reflexivity.
Defined.

(** The entry of 500 has two votes as that of 100 has, and is later. *)
Example ex_winner : compute_routerstatus_consensus stable_sort_rs ex_entries 33 = Ok (ex_vrs 2 500 [], Some (mkap (mkaddr AF_INET6 (32 :: 1 :: replicate 13 0 ++ [2])) 9001), None).
Proof. vm_compute. reflexivity. Qed.

Example ex_digest : compute_routerstatus_consensus stable_sort_rs [ex_vrs 1 100 ex_hash; ex_vrs 2 500 []; ex_vrs 1 100 ex_hash] 33 = Ok (ex_vrs 1 100 ex_hash, Some (mkap (mkaddr AF_INET6 (32 :: 1 :: replicate 13 0 ++ [1])) 9001), Some (replicate 32 0)).
Proof. vm_compute. reflexivity. Qed.
