(* ===== verification/Escapes.v ===== *)
(** * Quoted strings

    Models [esc_for_log] of lib/log/escape.c, which quotes a string with the escapes of C, [unescape_string] of lib/encoding/cstring.c, which reads such a string, and [decode_qstring] of lib/encoding/qstring.c,
    which reads strings in which a backslash keeps the next character.  A string is the list of its bytes without the terminator; where the code reads the terminator the list has ended. *)

From S2P Require Import Prelude CString UtilString.
From Stdlib Require Import ZArith String.
From stdpp Require Import base list sets numbers.
Open Scope Z_scope.

(** ** Writing *)

Definition plain_char (c : Z) : bool := TOR_ISPRINT c && (c <? 127).

(** [case] labels that get a backslash and one character. *)
Definition short_escape (c : Z) : option Z :=
  if (c =? 92) || (c =? 34) || (c =? 39) then Some c
  else if c =? 10 then Some 110 else if c =? 9 then Some 116 else if c =? 13 then Some 114 else None.

Fixpoint esc_length (s : bytes) (len : Z) : Z :=
  match s with
  | [] => len
  | c :: s => esc_length s (match short_escape c with Some _ => len + 2 | None => if plain_char c then len + 1 else len + 4 end)
  end.

(** [%03o] *)
Definition octal3 (c : Z) : bytes := [48 + c / 64; 48 + c / 8 mod 8; 48 + c mod 8].

(** [result] holds what is written before [outp]. *)
Fixpoint esc_loop (len : Z) (result : bytes) (s : bytes) : cres bytes :=
  match s with
  | [] => Ok result
  | c :: s =>
      assert! (zlen result <? len - 2);
      match short_escape c with
      | Some e => esc_loop len (result ++ [92; e]) s
      | None =>
          if plain_char c then esc_loop len (result ++ [c]) s
          else assert! (zlen result <? len - 4); esc_loop len (result ++ 92 :: octal3 c) s
      end
  end.

Definition esc_for_log (s : option bytes) : cres bytes :=
  match s with
  | None => Ok (s2b "(null)")
  | Some s =>
      let len := esc_length s 3 in
      let* result := esc_loop len [34] s in
      assert! (zlen result <=? len - 2);
      Ok (result ++ [34])
  end.

Definition esc_for_log_len (chars : bytes) (n : nat) : cres bytes := esc_for_log (Some (take n chars)).

(** ** Reading *)

Definition TOR_ISODIGIT (c : Z) : bool := (48 <=? c) && (c <=? 55).

(** [if (TOR_ISODIGIT( *cp)) ++cp;] *)
Definition skip_odigit (cp : bytes) : bytes := if TOR_ISODIGIT (cur cp) then drop 1 cp else cp.

Definition named_escape (c : Z) : bool := (c =? 110) || (c =? 114) || (c =? 116) || (c =? 34) || (c =? 92) || (c =? 39).

(** The first loop: is there a closing quote, and is everything before it well-formed? *)
Fixpoint unescape_scan (fuel : nat) (cp : bytes) : cres unit :=
  match fuel with
  | O => Fuel
  | S fuel =>
      match cp with
      | [] => Err
      | c :: cp1 =>
          if c =? 10 then Err
          else if c =? 34 then Ok tt
          else if c =? 92 then
            let e := cur cp1 in
            if (e =? 120) || (e =? 88) then
              if TOR_ISXDIGIT (cur (drop 1 cp1)) && TOR_ISXDIGIT (cur (drop 2 cp1)) then unescape_scan fuel (drop 3 cp1) else Err
            else if TOR_ISODIGIT e then unescape_scan fuel (skip_odigit (skip_odigit (drop 1 cp1)))
            else if named_escape e then unescape_scan fuel (drop 1 cp1)
            else Err
          else unescape_scan fuel cp1
      end
  end.

(** [n = n*8 + *cp - '0'] for a digit that follows. *)
Definition octal_step (n : Z) (cp : bytes) : Z * bytes := if TOR_ISODIGIT (cur cp) then (n * 8 + cur cp - 48, drop 1 cp) else (n, cp).

(** The second loop, which writes to [out]. *)
Fixpoint unescape_copy (fuel : nat) (out cp : bytes) : cres (bytes * bytes) :=
  match fuel with
  | O => Fuel
  | S fuel =>
      match cp with
      | [] => Err
      | c :: cp1 =>
          if c =? 34 then Ok (out, cp1)
          else if c =? 92 then
            let e := cur cp1 in
            if e =? 110 then unescape_copy fuel (out ++ [10]) (drop 1 cp1)
            else if e =? 114 then unescape_copy fuel (out ++ [13]) (drop 1 cp1)
            else if e =? 116 then unescape_copy fuel (out ++ [9]) (drop 1 cp1)
            else if (e =? 120) || (e =? 88) then
              let x1 := hex_decode_digit (cur (drop 1 cp1)) in
              let x2 := hex_decode_digit (cur (drop 2 cp1)) in
              if (x1 =? -1) || (x2 =? -1) then Err else unescape_copy fuel (out ++ [x1 * 16 + x2]) (drop 3 cp1)
            else if TOR_ISODIGIT e then
              let '(n, cp) := octal_step (e - 48) (drop 1 cp1) in
              let '(n, cp) := octal_step n cp in
              if 255 <? n then Err else unescape_copy fuel (out ++ [n]) cp
            else if (e =? 39) || (e =? 34) || (e =? 92) || (e =? 63) then unescape_copy fuel (out ++ [e]) (drop 1 cp1)
            else Err
          else unescape_copy fuel (out ++ [c]) cp1
      end
  end.

(** The string and what follows the closing quote. *)
Definition unescape_string (s : bytes) : cres (bytes * bytes) :=
  if negb (cur s =? 34) then Err
  else
    let* _ := unescape_scan (length s) (drop 1 s) in
    unescape_copy (length s) [] (drop 1 s).

(** ** Strings with backslashes *)

(** [cp] has what is left of the [in_len_max] characters; the number of characters of the string and of its encoding up to here. *)
Fixpoint qstring_length_loop (fuel : nat) (cp : bytes) (chars pos : Z) : cres (Z * Z) :=
  match fuel with
  | O => Fuel
  | S fuel =>
      match cp with
      | [] => Err
      | c :: cp =>
          if c =? 92 then match cp with [] => Err | _ :: cp => qstring_length_loop fuel cp (chars + 1) (pos + 2) end
          else if c =? 34 then Ok (chars, pos)
          else qstring_length_loop fuel cp (chars + 1) (pos + 1)
      end
  end.

(** The length with the quotes, and the number of characters. *)
Definition get_qstring_length (start : bytes) : cres (Z * Z) :=
  if negb (cur start =? 34) then Err
  else let* (chars, pos) := qstring_length_loop (length start) (drop 1 start) 0 1 in Ok (pos + 1, chars).

(** [while (cp < end)]; [cp] ends where [end] is. *)
Fixpoint qstring_copy (cp : bytes) (outp : bytes) : cres bytes :=
  match cp with
  | [] => Ok outp
  | c :: cp1 => if c =? 92 then match cp1 with [] => Bug | d :: cp => qstring_copy cp (outp ++ [d]) end else qstring_copy cp1 (outp ++ [c])
  end.

(** [start] is cut off at [in_len_max] characters. *)
Definition decode_qstring (start : bytes) (in_len_max : nat) : cres (bytes * bytes) :=
  let start' := take in_len_max start in
  let* (len, n_chars) := get_qstring_length start' in
  let* end_ := aget start' (len - 1) in
  assert! (end_ =? 34);
  let* out := qstring_copy (take (Z.to_nat (len - 2)) (drop 1 start')) [] in
  assert! (zlen out =? n_chars);
  Ok (out, drop (Z.to_nat len) start).

(** ** What is written can be read *)

(** One character as it is written. *)
Definition esc_char (c : Z) : bytes := match short_escape c with Some e => [92; e] | None => if plain_char c then [c] else 92 :: octal3 c end.

Definition escaped_text (s : bytes) : bytes := concat (map esc_char s).

Lemma esc_length_spec s : forall len, esc_length s len = len + zlen (escaped_text s).
Proof.
  induction s as [|c s IH]; intros len; cbn [esc_length]; [unfold zlen; cbn; lia|]. rewrite IH. unfold escaped_text. cbn [map concat]. rewrite zlen_app. unfold esc_char at 2, octal3.
  destruct (short_escape c); [|destruct (plain_char c)]; unfold zlen at 2; cbn [length]; lia.
Qed.

Lemma esc_loop_spec s : forall len result, zlen result + zlen (escaped_text s) = len - 2 -> esc_loop len result s = Ok (result ++ escaped_text s).
Proof.
  unfold escaped_text. induction s as [|c s IH]; intros len result Hl; cbn [esc_loop map concat] in *; [by rewrite app_nil_r|]. rewrite zlen_app in Hl. pose proof (zlen_nonneg (concat (map esc_char s))).
  assert (esc_char c = match short_escape c with Some e => [92; e] | None => if plain_char c then [c] else 92 :: octal3 c end) as Ec by done. rewrite Ec in *. clear Ec. revert Hl. unfold octal3.
  destruct (short_escape c) as [e|]; [|destruct (plain_char c)]; intros Hl; unfold zlen in Hl at 2; cbn [length] in Hl; repeat (rewrite (proj2 (Z.ltb_lt _ _)) by lia); (rewrite IH; [by rewrite <- app_assoc|]); rewrite zlen_app; unfold zlen at 2; cbn [length]; lia.
Qed.

Lemma esc_for_log_ok s : esc_for_log (Some s) = Ok ([34] ++ escaped_text s ++ [34]).
Proof.
  unfold esc_for_log. rewrite esc_length_spec, (esc_loop_spec s) by (change (zlen [34]) with 1; lia). cbn [cbind]. rewrite zlen_app. change (zlen [34]) with 1.
  rewrite (proj2 (Z.leb_le _ _)) by lia. by rewrite <- app_assoc.
Qed.

(** The kinds of characters. *)
Lemma short_escape_cases c e : short_escape c = Some e -> (c, e) ∈ [(92, 92); (34, 34); (39, 39); (10, 110); (9, 116); (13, 114)].
Proof.
  unfold short_escape. destruct (Z.eqb_spec c 92) as [->|]; [intros [= <-]; set_solver|]. destruct (Z.eqb_spec c 34) as [->|]; [intros [= <-]; set_solver|]. destruct (Z.eqb_spec c 39) as [->|]; [intros [= <-]; set_solver|]. cbn [orb].
  destruct (Z.eqb_spec c 10) as [->|]; [intros [= <-]; set_solver|]. destruct (Z.eqb_spec c 9) as [->|]; [intros [= <-]; set_solver|]. destruct (Z.eqb_spec c 13) as [->|]; [intros [= <-]; set_solver|]. done.
Qed.

Lemma short_escape_none c : short_escape c = None -> c <> 92 /\ c <> 34 /\ c <> 39 /\ c <> 10 /\ c <> 9 /\ c <> 13.
Proof. unfold short_escape. destruct (Z.eqb_spec c 92), (Z.eqb_spec c 34), (Z.eqb_spec c 39), (Z.eqb_spec c 10), (Z.eqb_spec c 9), (Z.eqb_spec c 13); done. Qed.

Lemma octal3_digits c : is_byte c -> exists a b d, octal3 c = [48 + a; 48 + b; 48 + d] /\ 0 <= a < 4 /\ 0 <= b < 8 /\ 0 <= d < 8 /\ c = 64 * a + 8 * b + d.
Proof.
  unfold is_byte. intros Hc. exists (c / 64), (c / 8 mod 8), (c mod 8). split; [done|]. pose proof (Z.div_mod c 8). pose proof (Z.mod_pos_bound c 8). pose proof (Z.div_mod (c / 8) 8). pose proof (Z.mod_pos_bound (c / 8) 8).
  assert (c / 64 = c / 8 / 8) as -> by (rewrite Z.div_div by lia; done). assert (0 <= c / 8 < 32) by (split; [apply Z.div_pos; lia|apply Z.div_lt_upper_bound; lia]).
  assert (0 <= c / 8 / 8 < 4) by (split; [apply Z.div_pos; lia|apply Z.div_lt_upper_bound; lia]). lia.
Qed.

Lemma odigit_true d : 0 <= d < 8 -> TOR_ISODIGIT (48 + d) = true.
Proof. intros H. unfold TOR_ISODIGIT. blia. Qed.

Ltac on_eqb := repeat match goal with |- context [?a =? ?b] => first [rewrite (proj2 (Z.eqb_neq a b)) by lia | rewrite (proj2 (Z.eqb_eq a b)) by lia] end; cbn [orb negb].

Lemma scan_char fuel c t : is_byte c -> unescape_scan (S fuel) (esc_char c ++ t) = unescape_scan fuel t.
Proof.
  intros Hc. unfold esc_char. destruct (short_escape c) as [e|] eqn:Es.
  - apply short_escape_cases in Es. repeat (apply elem_of_cons in Es as [[= -> ->]|Es]; [reflexivity|]). by apply not_elem_of_nil in Es.
  - apply short_escape_none in Es. destruct (plain_char c); [cbn [app unescape_scan]; by on_eqb|].
    destruct (octal3_digits c Hc) as (a & b & d & -> & Ha & Hb & Hd & _). cbn [app unescape_scan]. change (92 =? 10) with false. change (92 =? 34) with false. change (92 =? 92) with true. cbv iota. cbn [cur hd drop].
    on_eqb. rewrite odigit_true by lia. unfold skip_odigit. cbn [cur hd drop]. rewrite odigit_true by lia. cbn [cur hd drop]. rewrite odigit_true by lia. by rewrite drop_0.
Qed.

Lemma copy_char fuel out c t : is_byte c -> unescape_copy (S fuel) out (esc_char c ++ t) = unescape_copy fuel (out ++ [c]) t.
Proof.
  intros Hc. unfold esc_char. destruct (short_escape c) as [e|] eqn:Es.
  - apply short_escape_cases in Es. repeat (apply elem_of_cons in Es as [[= -> ->]|Es]; [reflexivity|]). by apply not_elem_of_nil in Es.
  - apply short_escape_none in Es. destruct (plain_char c); [cbn [app unescape_copy]; by on_eqb|].
    destruct (octal3_digits c Hc) as (a & b & d & -> & Ha & Hb & Hd & E). cbn [app unescape_copy]. change (92 =? 34) with false. change (92 =? 92) with true. cbv iota. cbn [cur hd drop].
    on_eqb. rewrite odigit_true by lia. unfold octal_step. cbn [cur hd drop]. rewrite odigit_true by lia. cbn [cur hd drop]. rewrite odigit_true by lia. rewrite drop_0.
    replace ((48 + a - 48) * 8 + (48 + b) - 48) with (a * 8 + b) by lia. replace ((a * 8 + b) * 8 + (48 + d) - 48) with c by lia. unfold is_byte in Hc. by rewrite (proj2 (Z.ltb_ge 255 c)) by lia.
Qed.

Lemma escaped_length s : zlen s <= zlen (escaped_text s).
Proof.
  unfold escaped_text. induction s as [|c s IH]; [done|]. cbn [map concat]. rewrite zlen_cons, zlen_app. assert (1 <= zlen (esc_char c)) by (unfold esc_char, octal3; destruct (short_escape c); [|destruct (plain_char c)]; unfold zlen; cbn [length]; lia). lia.
Qed.

Lemma scan_text s rest : forall fuel, Forall is_byte s -> (length s < fuel)%nat -> unescape_scan fuel (escaped_text s ++ 34 :: rest) = Ok tt.
Proof.
  unfold escaped_text. induction s as [|c s IH]; intros [|fuel] Hs Hf; cbn [length] in Hf; try lia; [done|]. inversion_clear Hs. cbn [map concat]. rewrite <- app_assoc, scan_char by done. apply IH; [done|lia].
Qed.

Lemma copy_text s rest : forall fuel out, Forall is_byte s -> (length s < fuel)%nat -> unescape_copy fuel out (escaped_text s ++ 34 :: rest) = Ok (out ++ s, rest).
Proof.
  unfold escaped_text. induction s as [|c s IH]; intros [|fuel] out Hs Hf; cbn [length] in Hf; try lia; [cbn; by rewrite app_nil_r|]. inversion_clear Hs. cbn [map concat]. rewrite <- app_assoc, copy_char by done.
  rewrite IH by (done || lia). by rewrite <- app_assoc.
Qed.

Lemma unescape_text s rest : Forall is_byte s -> unescape_string ([34] ++ escaped_text s ++ [34] ++ rest) = Ok (s, rest).
Proof.
  intros Hs. unfold unescape_string. cbn [app cur hd]. change (34 =? 34) with true. cbn [negb drop]. rewrite drop_0.
  assert (length s < length (34%Z :: escaped_text s ++ 34%Z :: rest))%nat as Hf by (pose proof (escaped_length s); unfold zlen in *; cbn [length]; rewrite length_app; lia).
  rewrite scan_text by done. cbn [cbind]. by rewrite copy_text.
Qed.

Definition printable (c : Z) : Prop := 32 <= c <= 126.

Lemma plain_char_printable c : is_byte c -> plain_char c = true -> printable c.
Proof.
  intros Hb. unfold plain_char. pose proof (ctype_spec_ok c Hb) as H. unfold ctype_spec in H. rewrite !andb_true_iff in H. destruct_and!.
  match goal with H : eqb (TOR_ISPRINT c) _ = true |- _ => apply eqb_prop in H; rewrite H end. unfold printable, in_range. blia.
Qed.

Lemma escaped_printable s : Forall is_byte s -> Forall printable (escaped_text s).
Proof.
  unfold escaped_text. induction 1 as [|c s Hc _ IH]; [constructor|]. cbn [map concat]. apply Forall_app. split; [|done]. unfold esc_char, printable. destruct (short_escape c) as [e|] eqn:Es.
  - apply short_escape_cases in Es. repeat (apply elem_of_cons in Es as [[= -> ->]|Es]; [repeat constructor; lia|]). by apply not_elem_of_nil in Es.
  - destruct (plain_char c) eqn:Ep; [constructor; [by apply plain_char_printable|constructor]|]. destruct (octal3_digits c Hc) as (a & b & d & -> & Ha & Hb & Hd & _). repeat (constructor; [lia|]). constructor.
Qed.

(** ** The interface of a quoting *)

(** A way to write any string of bytes so that it can be read back whatever comes after it. *)
Class Quoting (quote : bytes -> cres bytes) (unquote : bytes -> cres (bytes * bytes)) := {
  quote_ok s : Forall is_byte s -> exists q, quote s = Ok ([34] ++ q ++ [34]) /\ Forall printable q;
  unquote_quote s q rest : Forall is_byte s -> quote s = Ok q -> unquote (q ++ rest) = Ok (s, rest)
}.

#[export] Instance c_quoting : Quoting (fun s => esc_for_log (Some s)) unescape_string.
Proof.
  constructor.
  - intros s Hs. exists (escaped_text s). split; [apply esc_for_log_ok|by apply escaped_printable].
  - intros s q rest Hs. rewrite esc_for_log_ok. intros [= <-]. pose proof (unescape_text s rest Hs) as Hu. cbn [app] in *. rewrite <- app_assoc. exact Hu.
Qed.

(** A string of any bytes quoted for the log or the controller consists of printable ASCII between quotes and is read back exactly, whatever text follows it. *)
Theorem escape_roundtrip s rest :
  Forall is_byte s -> exists q, esc_for_log (Some s) = Ok ([34] ++ q ++ [34]) /\ Forall printable q /\ unescape_string ([34] ++ q ++ [34] ++ rest) = Ok (s, rest).
Proof.
  intros Hs. destruct (quote_ok s Hs) as (q & E & Hq). exists q. split; [done|]. split; [done|]. pose proof (unquote_quote s _ rest Hs E) as Hu. cbn [app] in *. by rewrite <- app_assoc in Hu.
Qed.

Lemma escape_roundtrip_witness : exists q, esc_for_log (Some [97; 10; 0; 34; 255; 55]) = Ok ([34] ++ q ++ [34]) /\ unescape_string ([34] ++ q ++ [34] ++ s2b "12") = Ok ([97; 10; 0; 34; 255; 55], s2b "12").
Proof. destruct (escape_roundtrip [97; 10; 0; 34; 255; 55] (s2b "12")) as (q & E1 & _ & E2); [repeat (apply List.Forall_cons; [unfold is_byte; lia|]); apply List.Forall_nil|]. exists q. split; [exact E1|exact E2]. Defined.

(** ** Reading is total *)

Lemma skip_odigit_length cp : (length (skip_odigit cp) <= length cp)%nat.
Proof. unfold skip_odigit. destruct (TOR_ISODIGIT _); [rewrite length_drop; lia|lia]. Qed.

Lemma octal_step_skip n cp : snd (octal_step n cp) = skip_odigit cp.
Proof. unfold octal_step, skip_odigit. by destruct (TOR_ISODIGIT _). Qed.

Lemma scan_total fuel : forall cp, (length cp < fuel)%nat -> unescape_scan fuel cp = Err \/ unescape_scan fuel cp = Ok tt.
Proof.
  induction fuel as [|fuel IH]; intros cp Hf; [lia|]. cbn [unescape_scan]. destruct cp as [|c cp1]; [by left|]. cbn [length] in Hf. destruct (c =? 10); [by left|]. destruct (c =? 34); [by right|].
  destruct (c =? 92); [|apply IH; lia]. destruct (_ || _); [destruct (_ && _); [apply IH; rewrite length_drop; lia|by left]|].
  destruct (TOR_ISODIGIT _); [|destruct (named_escape _); [apply IH; rewrite length_drop; lia|by left]]. apply IH. pose proof (skip_odigit_length (skip_odigit (drop 1 cp1))). pose proof (skip_odigit_length (drop 1 cp1)). rewrite length_drop in *. lia.
Qed.

Lemma copy_total fuel : forall out cp, (length cp < fuel)%nat -> unescape_copy fuel out cp = Err \/ exists s rest, unescape_copy fuel out cp = Ok (s, rest) /\ (length rest < length cp)%nat.
Proof.
  induction fuel as [|fuel IH]; intros out cp Hf; [lia|]. cbn [unescape_copy]. destruct cp as [|c cp1]; [by left|]. cbn [length] in Hf.
  assert (forall out' cp', (length cp' <= length cp1)%nat -> unescape_copy fuel out' cp' = Err \/ exists s rest, unescape_copy fuel out' cp' = Ok (s, rest) /\ (length rest < length (c :: cp1))%nat) as Hrec.
  { intros out' cp' Hl. destruct (IH out' cp') as [->|(s & rest & -> & Hr)]; [lia|by left|]. right. exists s, rest. split; [done|]. cbn [length]. lia. }
  destruct (c =? 34); [right; exists out, cp1; split; [done|cbn [length]; lia]|]. destruct (c =? 92); [|by apply Hrec].
  destruct (_ =? 110); [apply Hrec; rewrite length_drop; lia|]. destruct (_ =? 114); [apply Hrec; rewrite length_drop; lia|]. destruct (_ =? 116); [apply Hrec; rewrite length_drop; lia|].
  destruct (_ || _); [destruct (_ || _); [by left|apply Hrec; rewrite length_drop; lia]|]. destruct (TOR_ISODIGIT _); [|destruct (_ || _); [apply Hrec; rewrite length_drop; lia|by left]].
  pose proof (octal_step_skip (cur cp1 - 48) (drop 1 cp1)) as E1. destruct (octal_step _ _) as [n cp2]. cbn [snd] in E1. pose proof (octal_step_skip n cp2) as E2. destruct (octal_step n cp2) as [n' cp3]. cbn [snd] in E2.
  destruct (255 <? n'); [by left|]. apply Hrec. subst. pose proof (skip_odigit_length (skip_odigit (drop 1 cp1))). pose proof (skip_odigit_length (drop 1 cp1)). rewrite length_drop in *. lia.
Qed.

Lemma unescape_total s : unescape_string s = Err \/ exists r rest, unescape_string s = Ok (r, rest) /\ (length rest < length s)%nat.
Proof.
  unfold unescape_string. destruct s as [|c s]; [by left|]. destruct (cur (c :: s) =? 34); [|by left]. cbn [negb drop]. rewrite drop_0. cbn [length].
  destruct (scan_total (S (length s)) s) as [->| ->]; [lia|by left|]. cbn [cbind]. destruct (copy_total (S (length s)) [] s) as [->|(r & rest & -> & Hr)]; [lia|by left|]. right. exists r, rest. split; [done|]. lia.
Qed.

Lemma qstring_length_spec fuel : forall cp chars pos, (length cp < fuel)%nat ->
  qstring_length_loop fuel cp chars pos = Err \/
  exists body rest out, cp = body ++ 34 :: rest /\ qstring_length_loop fuel cp chars pos = Ok (chars + zlen out, pos + zlen body) /\ forall acc, qstring_copy body acc = Ok (acc ++ out).
Proof.
  induction fuel as [|fuel IH]; intros cp chars pos Hf; [lia|]. cbn [qstring_length_loop]. destruct cp as [|c cp]; [by left|]. cbn [length] in Hf. destruct (Z.eqb_spec c 92) as [->|H92].
  - destruct cp as [|d cp]; [by left|]. cbn [length] in Hf. destruct (IH cp (chars + 1) (pos + 2)) as [->|(body & rest & out & -> & -> & Hcopy)]; [lia|by left|]. right. exists (92 :: d :: body), rest, (d :: out). split; [done|].
    split; [rewrite !zlen_cons; f_equal; f_equal; lia|]. intros acc. cbn [qstring_copy]. change (92 =? 92) with true. cbv iota. rewrite Hcopy. by rewrite <- app_assoc.
  - destruct (Z.eqb_spec c 34) as [->|H34]; [right; exists [], cp, []; split; [done|]; split; [f_equal; f_equal; unfold zlen; cbn; lia|]; intros acc; cbn; by rewrite app_nil_r|].
    destruct (IH cp (chars + 1) (pos + 1)) as [->|(body & rest & out & -> & -> & Hcopy)]; [lia|by left|]. right. exists (c :: body), rest, (c :: out). split; [done|].
    split; [rewrite !zlen_cons; f_equal; f_equal; lia|]. intros acc. cbn [qstring_copy]. rewrite (proj2 (Z.eqb_neq c 92)) by done. rewrite Hcopy. by rewrite <- app_assoc.
Qed.

(** Decoding ends with a refusal or a string, whatever it is given: its assertions hold and it stays within [in_len_max] characters. *)
Lemma decode_qstring_total start n :
  decode_qstring start n = Err \/ exists body out rest, take n start = 34 :: body ++ 34 :: rest /\ decode_qstring start n = Ok (out, drop (length body + 2) start) /\ qstring_copy body [] = Ok out.
Proof.
  unfold decode_qstring, get_qstring_length. destruct (take n start) as [|c s] eqn:Es; [by left|]. destruct (Z.eqb_spec (cur (c :: s)) 34) as [E|]; [|by left]. cbn in E. subst c. cbn [negb drop]. rewrite drop_0.
  destruct (qstring_length_spec (length (34%Z :: s)) s 0 1) as [->|(body & rest & out & -> & -> & Hcopy)]; [cbn [length]; lia|by left|]. cbn [cbind].
  replace (1 + zlen body + 1 - 1) with (zlen (34 :: body)) by (rewrite zlen_cons; lia). change (34 :: body ++ 34 :: rest) with ((34 :: body) ++ 34 :: rest). rewrite aget_mid by done. cbn [cbind]. change (34 =? 34) with true. cbv iota.
  replace (Z.to_nat (1 + zlen body + 1 - 2)) with (length body) by (unfold zlen; lia). cbn [app drop]. rewrite ?drop_0, take_app_length, Hcopy. cbn [cbind app]. rewrite Z.add_0_l, Z.eqb_refl.
  right. exists body, out, rest. split; [done|]. split; [f_equal; f_equal; f_equal; unfold zlen; lia|]. apply (Hcopy []).
Qed.
