(* ===== verification/KvLine.v ===== *)
(** * Lines of keys and values

    Models lib/encoding/kvline.c, which writes and reads lines of the form [Key=Value Key2=Value2], and [string_is_key_value] of lib/encoding/keyval.c.

    A [config_line_t] with a key that is [NULL] or empty has the empty key.  The bound of the loop is the length of the line: every round consumes a character. *)

From S2P Require Import Prelude CString UtilString StrList Escapes.
From Stdlib Require Import ZArith String.
From stdpp Require Import base list sets numbers sorting.
Open Scope Z_scope.

Definition KV_QUOTED : Z := 1.
Definition KV_OMIT_KEYS : Z := 2.
Definition KV_OMIT_VALS : Z := 4.
Definition KV_QUOTED_QSTRING : Z := 8.
Definition KV_RAW : Z := 16.

Record config_line_t := mkline { key : bytes; value : bytes }.

(** The test of one character; [*s >= 127] for characters of either sign, as the others of them are not printable. *)
Definition unusual (c : Z) : bool := (127 <=? c) || TOR_ISSPACE c || negb (TOR_ISPRINT c) || (c =? 39) || (c =? 34).

Definition needs_escape (s : bytes) (as_keyless_val : bool) : bool :=
  if as_keyless_val && (length s =? 0)%nat then true
  else if as_keyless_val && match strchr s 61 with Some _ => true | None => false end then true
  else existsb unusual s.

Definition line_has_no_key (line : config_line_t) : bool := (length (key line) =? 0)%nat.
Definition line_has_no_val (line : config_line_t) : bool := (length (value line) =? 0)%nat.

Fixpoint kvline_can_encode_lines (lines : list config_line_t) (flags : Z) : bool :=
  match lines with
  | [] => true
  | line :: lines =>
      let keyless := line_has_no_key line in
      if keyless && negb (has_flag flags KV_OMIT_KEYS) then false
      else if needs_escape (value line) keyless && negb (has_flag flags (Z.lor KV_QUOTED KV_RAW)) then false
      else if negb keyless && needs_escape (key line) true then false
      else kvline_can_encode_lines lines flags
  end.

Definition both (flags a b : Z) : bool := Z.land flags (Z.lor a b) =? Z.lor a b.

(** One element of the line. *)
Definition encode_element (line : config_line_t) (flags : Z) : cres bytes :=
  let keyless := line_has_no_key line in
  let esc := needs_escape (value line) keyless in
  let k := if keyless then [] else key line in
  let eq := if keyless then [] else [61] in
  if has_flag flags KV_OMIT_VALS && line_has_no_val line then Ok k
  else if negb (has_flag flags KV_RAW) && esc then let* tmp := esc_for_log (Some (value line)) in Ok (k ++ eq ++ tmp)
  else Ok (k ++ eq ++ value line).

Fixpoint encode_elements (lines : list config_line_t) (flags : Z) : cres (list bytes) :=
  match lines with
  | [] => Ok []
  | line :: lines => let* e := encode_element line flags in let* es := encode_elements lines flags in Ok (e :: es)
  end.

(** [Err] where the function returns [NULL]. *)
Definition kvline_encode (lines : list config_line_t) (flags : Z) : cres bytes :=
  assert! (negb (has_flag flags KV_QUOTED_QSTRING));
  assert! (negb (both flags KV_OMIT_KEYS KV_OMIT_VALS));
  assert! (negb (both flags KV_QUOTED KV_RAW));
  if negb (kvline_can_encode_lines lines flags) then Err
  else let* elements := encode_elements lines flags in smartlist_join_strings elements [32] false.

(** [strspn(cp, " \t\r\v\n")] and [strcspn] *)
Definition kv_space (c : Z) : bool := (c =? 32) || (c =? 9) || (c =? 13) || (c =? 11) || (c =? 10).

(** The key, where the value begins, and whether there is none. *)
Definition parse_key (omit_keys omit_vals : bool) (cp : bytes) : cres (option bytes * bytes * bool) :=
  if negb (cur cp =? 34) then
    let '(k, r) := span (fun c => negb (kv_space c || (c =? 61))) cp in
    if cur r =? 61 then Ok (Some k, drop 1 r, false)
    else if omit_vals then Ok (Some k, r, true)
    else if negb omit_keys then Err
    else Ok (None, cp, false)
  else Ok (None, cp, false).

Definition parse_val (flags : Z) (cp : bytes) : cres (bytes * bytes) :=
  if cur cp =? 34 then
    if negb (has_flag flags (Z.lor KV_QUOTED KV_QUOTED_QSTRING)) then Err
    else
      let* (val, cp) := if has_flag flags KV_QUOTED then unescape_string cp else decode_qstring cp (length cp) in
      if existsb (fun c => c =? 0) val then Err else Ok (val, cp)
  else Ok (span (fun c => negb (kv_space c)) cp).

(** [cplast] is given by the length of what was left. *)
Fixpoint kv_parse_loop (fuel : nat) (flags : Z) (cplast : option nat) (cp : bytes) (result : list config_line_t) : cres (list config_line_t) :=
  match fuel with
  | O => Fuel
  | S fuel =>
      match cp with
      | [] => Ok result
      | _ =>
          let cp := snd (span kv_space cp) in
          if bool_decide (cplast = Some (length cp)) then Err
          else
            match cp with
            | [] => Ok result
            | _ =>
                let cplast := Some (length cp) in
                let* (k, cp, no_val) := parse_key (has_flag flags KV_OMIT_KEYS) (has_flag flags KV_OMIT_VALS) cp in
                let* (val, cp) := if (no_val : bool) then Ok ([], cp) else parse_val flags cp in
                if bool_decide (k = Some []) then Err
                else kv_parse_loop fuel flags cplast cp (result ++ [mkline (default [] k) val])
            end
      end
  end.

Definition kvline_parse (line : bytes) (flags : Z) : cres (list config_line_t) :=
  assert! (negb (both flags KV_OMIT_KEYS KV_OMIT_VALS));
  assert! (negb (has_flag flags KV_RAW));
  let* result := kv_parse_loop (S (length line)) flags None line [] in
  if negb (has_flag flags KV_QUOTED_QSTRING) && negb (kvline_can_encode_lines result flags) then Err else Ok result.

Definition string_is_key_value (string : bytes) : bool :=
  if (length string <? 2)%nat then false
  else match strchr string 61 with
       | None => false
       | Some eq => negb (length eq =? length string)%nat
       end.

(** ** Flags *)

Lemma has_flag_lor flags a b : has_flag flags (Z.lor a b) = has_flag flags a || has_flag flags b.
Proof. unfold has_flag. rewrite Z.land_lor_distr_r. apply eq_iff_eq_true. rewrite orb_true_iff, !negb_true_iff, !Z.eqb_neq, Z.lor_eq_0_iff. destruct (Z.eq_dec (Z.land flags a) 0); tauto. Qed.

Lemma has_flag_bit flags i : 0 <= i -> has_flag flags (2 ^ i) = Z.testbit flags i.
Proof.
  intros Hi. unfold has_flag. apply eq_iff_eq_true. rewrite negb_true_iff, Z.eqb_neq. split.
  - intros H. destruct (Z.testbit flags i) eqn:E; [done|]. exfalso. apply H. apply Z.bits_inj'. intros n Hn. rewrite Z.land_spec, Z.bits_0, Z.pow2_bits_eqb by done. destruct (Z.eqb_spec i n) as [<-|]; [by rewrite E|apply andb_false_r].
  - intros E H. apply (f_equal (fun z => Z.testbit z i)) in H. rewrite Z.land_spec, Z.bits_0, E, Z.pow2_bits_true in H by done. done.
Qed.

Lemma both_flags flags i j : 0 <= i -> 0 <= j -> both flags (2 ^ i) (2 ^ j) = false -> has_flag flags (2 ^ i) = true -> has_flag flags (2 ^ j) = false.
Proof.
  intros Hi Hj Hb. rewrite !has_flag_bit by done. intros E. destruct (Z.testbit flags j) eqn:E2; [|done]. exfalso. revert Hb. unfold both. rewrite (proj2 (Z.eqb_eq _ _)); [done|].
  apply Z.bits_inj'. intros n Hn. rewrite Z.land_spec, Z.lor_spec, !Z.pow2_bits_eqb by done. destruct (Z.eqb_spec i n) as [<-|]; [rewrite E; done|]. destruct (Z.eqb_spec j n) as [<-|]; [by rewrite E2, orb_true_r|]. cbn [orb]. by rewrite andb_false_r.
Qed.

(** ** Elements are read back *)

Definition text (s : bytes) : Prop := Forall is_byte s /\ cstr s.

Lemma usual_char c : is_byte c -> unusual c = false -> 33 <= c <= 126 /\ c <> 34.
Proof.
  intros Hb Hu. pose proof (ctype_spec_ok c Hb) as H. unfold ctype_spec in H. rewrite !andb_true_iff in H. destruct_and!. unfold unusual in Hu. rewrite !orb_false_iff, negb_false_iff in Hu. destruct Hu as [[[[H127 Hs] Hp] H39] H34].
  match goal with H : eqb (TOR_ISPRINT c) _ = true |- _ => apply eqb_prop in H; rewrite Hp in H; symmetry in H; unfold in_range in H end.
  match goal with H : eqb (TOR_ISSPACE c) _ = true |- _ => apply eqb_prop in H; rewrite Hs in H; symmetry in H; unfold in_range in H end. rewrite orb_false_iff in *. destruct_and!. rewrite Z.eqb_neq in *. split; [|done]. blia.
Qed.

Definition usual (s : bytes) : Prop := Forall (fun c => 33 <= c <= 126 /\ c <> 34) s.

Lemma no_escape_usual s b : text s -> needs_escape s b = false -> usual s /\ (b = true -> s <> [] /\ 61 ∉ s).
Proof.
  intros [Hb _] Hn. unfold needs_escape in Hn. destruct (b && (length s =? 0)%nat) eqn:E1; [done|]. destruct (b && match strchr s 61 with Some _ => true | None => false end) eqn:E2; [done|]. split.
  - apply Forall_forall. intros c Hc. apply usual_char; [by apply (proj1 (Forall_forall _ _) Hb)|]. destruct (unusual c) eqn:Eu; [|done]. exfalso. rewrite (proj2 (existsb_exists _ _)) in Hn; [done|]. exists c. split; [first [exact Hc|by apply list_elem_of_In]|done].
  - intros ->. cbn [andb] in *. split; [by intros ->|]. clear -E2. intros Hin. revert E2. unfold strchr. induction s as [|x s IH]; [by apply not_elem_of_nil in Hin|]. cbn [length memchr]. destruct (Z.eqb_spec x 61); [done|]. apply elem_of_cons in Hin as [Hin|Hin]; [congruence|]. by apply IH.
Qed.

(** What follows an element. *)
Definition sep_tail (t : bytes) : Prop := t = [] \/ exists t', t = 32 :: t'.

Lemma span_tail p l t : Forall (fun c => p c = true) l -> p 32 = false -> sep_tail t -> span p (l ++ t) = (l, t).
Proof. intros Hl H32 [->|[t' ->]]; [rewrite app_nil_r; by apply span_all|by apply span_stop]. Qed.

Lemma kv_space_usual c : 33 <= c -> kv_space c = false.
Proof. intros H. unfold kv_space. blia. Qed.

Lemma usual_value s : usual s -> Forall (fun c => negb (kv_space c) = true) s.
Proof. intros Hs. apply (Forall_weaken _ _ _ Hs). intros c [Hc _]. by rewrite kv_space_usual by lia. Qed.

Lemma usual_key s : usual s -> 61 ∉ s -> Forall (fun c => negb (kv_space c || (c =? 61)) = true) s.
Proof.
  intros Hs H61. apply Forall_forall. intros c Hc. rewrite kv_space_usual by (apply (proj1 (Forall_forall _ _) Hs) in Hc; lia). rewrite (proj2 (Z.eqb_neq c 61)); [done|]. by intros ->.
Qed.

Lemma cur_usual s t : usual s -> sep_tail t -> (cur (s ++ t) =? 34) = false.
Proof. intros Hs Ht. apply Z.eqb_neq. destruct Hs as [|c s [_ Hc] _]; [destruct Ht as [->|[t' ->]]; done|exact Hc]. Qed.

(** A value as it is written, in quotes or not. *)
Lemma parse_val_back flags (esc : bool) v w t :
  text v -> sep_tail t -> (if esc then has_flag flags KV_QUOTED = true /\ esc_for_log (Some v) = Ok w else usual v /\ w = v) -> parse_val flags (w ++ t) = Ok (v, t).
Proof.
  intros [Hb Hc] Ht Hw. unfold parse_val. destruct esc.
  - destruct Hw as [Hq Hw]. pose proof (unquote_quote v w t Hb Hw) as Hu. destruct (quote_ok v Hb) as (q & Eq & _). cbn beta in *. rewrite Hw in Eq. injection Eq as ->. cbn [app cur hd] in *. change (34 =? 34) with true. cbv iota.
    rewrite has_flag_lor, Hq. cbn [orb negb]. rewrite Hu. cbn [cbind]. destruct (existsb (fun c => c =? 0) v) eqn:E; [|done]. exfalso. apply existsb_exists in E as (c & Hin & E0). apply Z.eqb_eq in E0. subst c.
    apply list_elem_of_In in Hin. apply (proj1 (Forall_forall _ _) Hc) in Hin. lia.
  - destruct Hw as [Hu ->]. rewrite cur_usual by done. by rewrite (span_tail _ v t) by (done || by apply usual_value).
Qed.

Definition line_text (line : config_line_t) : Prop := text (key line) /\ text (value line).

Section RoundTrip.

Variable flags : Z.
Hypothesis not_raw : has_flag flags KV_RAW = false.
Hypothesis omit_one : both flags KV_OMIT_KEYS KV_OMIT_VALS = false.

(** What is known of a line that can be encoded. *)
Lemma can_encode_line line : line_text line -> kvline_can_encode_lines [line] flags = true ->
  (line_has_no_key line = true -> has_flag flags KV_OMIT_KEYS = true /\ has_flag flags KV_OMIT_VALS = false) /\
  (needs_escape (value line) (line_has_no_key line) = true -> has_flag flags KV_QUOTED = true) /\
  (line_has_no_key line = false -> usual (key line) /\ key line <> [] /\ 61 ∉ key line).
Proof.
  intros [Hk Hv]. cbn [kvline_can_encode_lines]. rewrite has_flag_lor, not_raw, orb_false_r. destruct (line_has_no_key line) eqn:Ek; cbn [andb negb].
  - destruct (has_flag flags KV_OMIT_KEYS) eqn:Eo; [|done]. cbn [negb]. destruct (needs_escape _ true); cbn [andb]; [destruct (has_flag flags KV_QUOTED); [|done]|]; intros _; (split; [intros _; split; [done|exact (both_flags flags 1 2 ltac:(lia) ltac:(lia) omit_one Eo)]|done]).
  - destruct (needs_escape (value line) false && negb (has_flag flags KV_QUOTED)) eqn:Ev; [done|]. destruct (needs_escape (key line) true) eqn:Ee; [done|]. intros _. split; [done|]. split; [intros Hn; rewrite Hn in Ev; by destruct (has_flag flags KV_QUOTED)|].
    intros _. destruct (no_escape_usual _ _ Hk Ee) as [Hu Hne]. split; [done|]. by apply Hne.
Qed.

Definition element_read (line : config_line_t) (e t : bytes) : Prop :=
  exists k cp1 no_val, parse_key (has_flag flags KV_OMIT_KEYS) (has_flag flags KV_OMIT_VALS) (e ++ t) = Ok (k, cp1, no_val) /\
    (if (no_val : bool) then Ok ([], cp1) else parse_val flags cp1) = Ok (value line, t) /\ k <> Some [] /\ default [] k = key line /\ e <> [] /\ kv_space (cur e) = false.

Lemma keyless_read line e t : line_text line -> kvline_can_encode_lines [line] flags = true -> line_has_no_key line = true -> encode_element line flags = Ok e -> sep_tail t -> element_read line e t.
Proof.
  intros Hl Hc Ek He Ht. destruct (can_encode_line line Hl Hc) as (H1 & H2 & _). destruct (H1 Ek) as [Ho Hv]. destruct Hl as [_ Htv]. unfold encode_element in He. rewrite Ek, Hv, not_raw in *. cbn [andb negb app] in He.
  assert (key line = []) as Hk by (unfold line_has_no_key in Ek; apply Nat.eqb_eq in Ek; by apply length_zero_iff_nil). unfold element_read, parse_key. destruct (needs_escape (value line) true) eqn:Ee.
  - destruct (esc_for_log _) as [q| | |] eqn:Eq; [|done..]. cbn [cbind] in He. injection He as <-. destruct (quote_ok (value line) (proj1 Htv)) as (q' & Eq' & _). rewrite Eq in Eq'. injection Eq' as Eq'.
    pose proof (parse_val_back flags true (value line) q t Htv Ht (conj (H2 eq_refl) Eq)) as Hp. exists None, (q ++ t), false. rewrite Eq' in *. cbn [app cur hd]. change (34 =? 34) with true. cbn [negb]. split_and!; done.
  - injection He as <-. destruct (no_escape_usual _ _ Htv Ee) as [Hu Hne]. destruct (Hne eq_refl) as [Hn H61]. rewrite cur_usual by done. cbn [negb]. rewrite (span_tail _ (value line) t) by (done || by apply usual_key).
    rewrite (proj2 (Z.eqb_neq (cur t) 61)) by (destruct Ht as [->|[t' ->]]; done). rewrite Ho, Hv. cbn [negb]. exists None, (value line ++ t), false. split; [done|].
    split; [by apply (parse_val_back flags false)|]. split_and!; [done|done|done|]. destruct Hu as [|c s [Hc' _] _]; [done|]. apply kv_space_usual; cbn; lia.
Qed.

Lemma keyed_read line e t : line_text line -> kvline_can_encode_lines [line] flags = true -> line_has_no_key line = false -> encode_element line flags = Ok e -> sep_tail t -> element_read line e t.
Proof.
  intros Hl Hc Ek He Ht. destruct (can_encode_line line Hl Hc) as (_ & H2 & H3). destruct (H3 Ek) as (Hu & Hn & H61). destruct Hl as [_ Htv]. unfold encode_element in He. rewrite Ek, not_raw in *. cbn [negb andb] in He.
  assert (forall w, kv_space (cur (key line ++ w)) = false) as Hsp by (intros w; destruct Hu as [|c s [Hc' _] _]; [done|]; apply kv_space_usual; cbn; lia).
  assert (forall w t', (cur (key line ++ w ++ t') =? 34) = false) as Hq by (intros w t'; apply Z.eqb_neq; destruct Hu as [|c s [_ Hc'] _]; [done|exact Hc']).
  unfold element_read, parse_key. destruct (has_flag flags KV_OMIT_VALS && line_has_no_val line) eqn:Eo.
  - injection He as <-. apply andb_true_iff in Eo as [Eo Ev]. rewrite cur_usual by done. cbn [negb]. rewrite (span_tail _ (key line) t) by (done || by apply usual_key).
    rewrite (proj2 (Z.eqb_neq (cur t) 61)) by (destruct Ht as [->|[t' ->]]; done). rewrite Eo. exists (Some (key line)), t, true. split; [done|].
    split; [unfold line_has_no_val in Ev; apply Nat.eqb_eq, length_zero_iff_nil in Ev; by rewrite Ev|]. split_and!; [congruence|done|done|]. specialize (Hsp []). by rewrite app_nil_r in Hsp.
  - assert (exists w, e = key line ++ 61 :: w /\ (if needs_escape (value line) false then has_flag flags KV_QUOTED = true /\ esc_for_log (Some (value line)) = Ok w else usual (value line) /\ w = value line)) as (w & -> & Hw).
    { destruct (needs_escape (value line) false) eqn:Ee; [|injection He as <-; exists (value line); split; [done|]; split; [by apply (no_escape_usual _ false)|done]].
      destruct (esc_for_log _) as [q| | |] eqn:Eq; [|done..]. cbn [cbind] in He. injection He as <-. exists q. split; [done|]. split; [by apply H2|done]. }
    rewrite <- app_assoc, Hq. cbn [negb app]. rewrite span_stop by (done || by apply usual_key). cbn [cur hd drop]. change (61 =? 61) with true. cbv iota. rewrite drop_0. exists (Some (key line)), (w ++ t), false. split; [done|].
    split; [by apply (parse_val_back flags (needs_escape (value line) false))|]. split_and!; [congruence|done|by destruct (key line)|apply Hsp].
Qed.

Lemma element_read_back line e t : line_text line -> kvline_can_encode_lines [line] flags = true -> encode_element line flags = Ok e -> sep_tail t -> element_read line e t.
Proof. intros Hl Hc He Ht. destruct (line_has_no_key line) eqn:Ek; [by apply keyless_read|by apply keyed_read]. Qed.

Lemma can_encode_cons line lines : kvline_can_encode_lines (line :: lines) flags = true <-> kvline_can_encode_lines [line] flags = true /\ kvline_can_encode_lines lines flags = true.
Proof. cbn [kvline_can_encode_lines]. repeat match goal with |- context [if ?b then _ else _] => destruct b end; split; try done; by intros []. Qed.

(** Where the loop stands before an element: at its start or at the space before it. *)
Lemma loop_reads es : forall lines fuel cplast (lead : bytes) result,
  Forall line_text lines -> kvline_can_encode_lines lines flags = true -> encode_elements lines flags = Ok es -> es <> [] -> lead = [] \/ lead = [32] ->
  (length (lead ++ join_fill es [32%Z]) < fuel)%nat -> (forall n, cplast = Some n -> (length (join_fill es [32%Z]) < n)%nat) ->
  kv_parse_loop fuel flags cplast (lead ++ join_fill es [32]) result = Ok (result ++ lines).
Proof.
  induction es as [|e es IH]; intros lines fuel cplast lead result Hl Hc He Hn Hlead Hf Hlast; [done|]. destruct lines as [|line lines]; [done|]. cbn [encode_elements] in He.
  destruct (encode_element line flags) as [e'| | |] eqn:Ee; [|done..]. destruct (encode_elements lines flags) as [es'| | |] eqn:Ees; [|done..]. cbn [cbind] in He. injection He as -> ->.
  inversion_clear Hl as [|? ? Hline Hlines]. apply can_encode_cons in Hc as [Hc1 Hc2]. set (t := match es with [] => [] | _ => [32] ++ join_fill es [32] end).
  assert (join_fill (e :: es) [32] = e ++ t) as Ej by (unfold t; cbn [join_fill]; destruct es; [by rewrite !app_nil_r|done]). rewrite Ej in *.
  destruct (element_read_back line e t Hline Hc1 Ee) as (k & cp1 & no_val & Ek & Ev & Hk & Hkey & Hne & Hsp); [unfold t; destruct es; [by left|right; by eexists]|].
  destruct fuel as [|fuel]; [lia|]. destruct e as [|c e]; [done|]. cbn in Hsp.
  assert (snd (span kv_space (lead ++ (c :: e) ++ t)) = (c :: e) ++ t) as Es by (destruct Hlead as [->| ->]; cbn [app span]; [by rewrite Hsp|]; change (kv_space 32) with true; cbv iota; cbn [app span]; by rewrite Hsp).
  assert (exists c0 r0, lead ++ (c :: e) ++ t = c0 :: r0) as (c0 & r0 & E0) by (destruct Hlead as [->| ->]; cbn [app]; eexists _, _; reflexivity). cbn [kv_parse_loop]. rewrite E0 in *. rewrite Es.
  rewrite bool_decide_false by (intros E; specialize (Hlast _ E); lia). cbn [app]. change (c :: e ++ t) with ((c :: e) ++ t). rewrite Ek. cbn [cbind]. rewrite Ev. cbn [cbind]. rewrite bool_decide_false, Hkey by done.
  replace (mkline (key line) (value line)) with line by (by destruct line). unfold t in *. destruct es as [|e2 es2].
  - destruct lines as [|l2 lines2]; [|cbn [encode_elements] in Ees; destruct (encode_element l2 flags); [|done..]; cbn [cbind] in Ees; by destruct (encode_elements lines2 flags)]. destruct fuel; [|done]. exfalso. apply (f_equal length) in E0. rewrite !length_app in *. cbn [length] in *. lia.
  - rewrite (IH lines fuel _ [32] (result ++ [line])); [by rewrite <- app_assoc|done|done|done|done|by right|..].
    + apply (f_equal length) in E0. repeat first [rewrite length_app in E0|rewrite length_app|progress cbn [length] in *]. lia.
    + generalize (join_fill (e2 :: es2) [32]). intros J n [= <-]. repeat first [rewrite length_app|progress cbn [length app]]. lia.
Qed.

End RoundTrip.

Lemma encode_elements_total lines flags : Forall line_text lines -> exists es, encode_elements lines flags = Ok es /\ length es = length lines.
Proof.
  induction 1 as [|line lines Hl _ (es & E & Hlen)]; cbn [encode_elements]; [by exists []|]. assert (exists e, encode_element line flags = Ok e) as [e ->].
  { unfold encode_element. destruct (_ && line_has_no_val line); [by eexists|]. destruct (_ && needs_escape _ _); [|by eexists]. destruct Hl as [_ [Hb _]]. destruct (quote_ok (value line) Hb) as (q & Eq & _). cbn beta in Eq. rewrite Eq. by eexists. }
  cbn [cbind]. rewrite E. exists (e :: es). split; [done|]. cbn [length]. lia.
Qed.

(** C11. Lines that can be encoded with some flags, in quotes or not, with keys or values left out, are read back with the same flags exactly; the encoder always answers, with a refusal or a line. *)
Theorem kvline_roundtrip lines flags :
  Forall line_text lines -> has_flag flags KV_RAW = false -> has_flag flags KV_QUOTED_QSTRING = false -> both flags KV_OMIT_KEYS KV_OMIT_VALS = false ->
  (kvline_encode lines flags = Err /\ kvline_can_encode_lines lines flags = false) \/
  (exists s, kvline_encode lines flags = Ok s /\ kvline_parse s flags = Ok lines).
Proof.
  intros Hl Hraw Hq Ho. unfold kvline_encode. rewrite Hq, Ho. cbn [negb].
  assert (both flags KV_QUOTED KV_RAW = false) as Hb.
  { unfold both. apply Z.eqb_neq. intros E. unfold has_flag in Hraw. apply negb_false_iff, Z.eqb_eq in Hraw. rewrite Z.land_lor_distr_r, Hraw, Z.lor_0_r in E. apply (f_equal (fun z => Z.testbit z 4)) in E. rewrite Z.land_spec in E. change (Z.testbit KV_QUOTED 4) with false in E. rewrite andb_false_r in E. done. }
  rewrite Hb. cbn [negb]. destruct (kvline_can_encode_lines lines flags) eqn:Ec; [|by left]. right. cbn [negb]. destruct (encode_elements_total lines flags Hl) as (es & Ees & Hlen). rewrite Ees. cbn [cbind]. unfold smartlist_join_strings. rewrite join_strings2_total.
  eexists. split; [done|]. rewrite app_nil_r. unfold kvline_parse. rewrite Ho, Hraw. cbn [negb]. destruct es as [|e es].
  - destruct lines; [|done]. cbn [join_fill length kv_parse_loop cbind]. rewrite Hq. done.
  - rewrite (loop_reads flags Hraw Ho (e :: es) lines _ None [] []); [|done|done|done|done|by left|cbn [app]; lia|done]. cbn [cbind app]. by rewrite Ec, andb_false_r.
Qed.

Definition ex_lines : list config_line_t := [mkline (s2b "Key") (s2b "value"); mkline [] (s2b "a=b"); mkline (s2b "Empty") []; mkline (s2b "Text") [97; 10; 34; 200]].

Lemma kvline_roundtrip_witness : exists s, kvline_encode ex_lines (KV_QUOTED + KV_OMIT_KEYS) = Ok s /\ kvline_parse s (KV_QUOTED + KV_OMIT_KEYS) = Ok ex_lines.
Proof.
  destruct (kvline_roundtrip ex_lines (KV_QUOTED + KV_OMIT_KEYS)) as [[_ E]|H]; [|reflexivity|reflexivity|reflexivity|discriminate E|exact H].
  unfold ex_lines. repeat (apply List.Forall_cons; [split; (split; [repeat (apply List.Forall_cons; [split; [discriminate|reflexivity]|]); apply List.Forall_nil|repeat (apply List.Forall_cons; [reflexivity|]); apply List.Forall_nil])|]); apply List.Forall_nil.
Defined.

Example ex_line : kvline_encode ex_lines (KV_QUOTED + KV_OMIT_KEYS) = Ok (s2b "Key=value " ++ [34] ++ s2b "a=b" ++ [34] ++ s2b " Empty= Text=" ++ [34] ++ s2b "a\n\" ++ [34] ++ s2b "\310" ++ [34]).
Proof. vm_compute. reflexivity. Qed.

(** ** The parser always answers *)

Lemma parse_key_total k v cp : parse_key k v cp = Err \/ exists key r b, parse_key k v cp = Ok (key, r, b) /\ (length r <= length cp)%nat.
Proof.
  unfold parse_key. destruct (negb (cur cp =? 34)); [|right; exists None, cp, false; done].
  pose proof (span_app (fun c => negb (kv_space c || (c =? 61))) cp) as E. destruct (span _ cp) as [a r]. cbn [fst snd] in E. assert (length r <= length cp)%nat by (rewrite <- E, length_app; lia).
  destruct (cur r =? 61); [right; eexists _, _, _; split; [done|]; rewrite length_drop; lia|]. destruct v; [right; eexists _, _, _; split; [done|lia]|]. destruct (negb k); [by left|]. right. eexists _, _, _. split; [done|]. done.
Qed.

Lemma parse_val_total flags cp : parse_val flags cp = Err \/ exists v r, parse_val flags cp = Ok (v, r) /\ (length r <= length cp)%nat.
Proof.
  unfold parse_val. destruct (cur cp =? 34).
  - destruct (negb _); [by left|]. destruct (has_flag flags KV_QUOTED).
    + destruct (unescape_total cp) as [->|(v & r & -> & Hr)]; [by left|]. cbn [cbind]. destruct (existsb _ v); [by left|]. right. exists v, r. split; [done|lia].
    + destruct (decode_qstring_total cp (length cp)) as [->|(body & v & r & _ & -> & _)]; [by left|]. cbn [cbind]. destruct (existsb _ v); [by left|]. right. eexists _, _. split; [done|]. rewrite length_drop. lia.
  - right. pose proof (span_app (fun c => negb (kv_space c)) cp) as E. destruct (span _ cp) as [a r]. cbn [fst snd] in E. eexists _, _. split; [done|]. rewrite <- E, length_app. lia.
Qed.

Lemma kv_parse_loop_total flags fuel : forall cplast cp result,
  (match cplast with None => length cp < fuel | Some n => length cp <= n /\ 1 <= n <= fuel end)%nat ->
  kv_parse_loop fuel flags cplast cp result = Err \/ exists r, kv_parse_loop fuel flags cplast cp result = Ok r.
Proof.
  induction fuel as [|fuel IH]; intros cplast cp result Hf; [destruct cplast; lia|]. cbn [kv_parse_loop]. destruct cp as [|c cp]; [right; by eexists|].
  pose proof (span_app kv_space (c :: cp)) as E. set (cp1 := snd (span kv_space (c :: cp))) in *. assert (length cp1 <= length (c :: cp))%nat as H1 by (rewrite <- E, length_app; lia). clearbody cp1.
  destruct (bool_decide_reflect (cplast = Some (length cp1))) as [|Hne]; [by left|]. assert (length cp1 <= fuel)%nat as H2 by (destruct cplast as [n|]; [assert (n <> length cp1) by congruence|]; lia).
  destruct cp1 as [|c1 cp1]; [right; by eexists|]. destruct (parse_key_total (has_flag flags KV_OMIT_KEYS) (has_flag flags KV_OMIT_VALS) (c1 :: cp1)) as [->|(k & r & b & -> & Hr)]; [by left|]. cbn [cbind].
  assert ((if b then Ok ([], r) else parse_val flags r) = Err \/ exists v r', (if b then Ok ([], r) else parse_val flags r) = Ok (v, r') /\ (length r' <= length r)%nat) as [->|(v & r' & -> & Hr')].
  { destruct b; [right; by eexists _, _|apply parse_val_total]. }
  { by left. }
  cbn [cbind]. destruct (bool_decide (k = Some [])); [by left|]. apply IH. cbn [length] in *. lia.
Qed.

Lemma kvline_parse_total line flags : both flags KV_OMIT_KEYS KV_OMIT_VALS = false -> has_flag flags KV_RAW = false -> kvline_parse line flags = Err \/ exists r, kvline_parse line flags = Ok r.
Proof.
  intros Ho Hr. unfold kvline_parse. rewrite Ho, Hr. cbn [negb]. destruct (kv_parse_loop_total flags (S (length line)) None line []) as [->|[r ->]]; [lia|by left|]. cbn [cbind]. destruct (_ && _); [by left|right; by eexists].
Qed.
