(* ===== verification/CtrlData.v ===== *)
(** * Data on the control port

    Models the two codecs of feature/control/control_proto.c for data of several lines: [write_escaped_data], with which the replies of the control port are written,
    and [read_escaped_data], with which the data of commands is read.  A line that starts with a dot gets another one, lines end in CRLF, and a line with a single dot ends the data.

    [data_framed] shows that nothing that is written can end the data early, and that what is written is read back up to the ends of lines. *)

From S2P Require Import Prelude CString UtilString.
From Stdlib Require Import ZArith String.
From stdpp Require Import base list numbers.
Open Scope Z_scope.

(** ** Writing *)

(** [sz_out], or [None] where the input is too long. *)
Fixpoint sz_loop (data : bytes) (sz_out : Z) : option Z :=
  match data with
  | [] => Some sz_out
  | c :: data =>
      if c =? 10 then if SIZE_T_CEILING <=? sz_out + 2 then None else sz_loop data (sz_out + 2)
      else sz_loop data sz_out
  end.

(** [prev] is [data[-1]], where [data > start]. *)
Fixpoint escape_loop (data : bytes) (prev : option Z) (start_of_line : bool) : bytes :=
  match data with
  | [] => []
  | c :: data =>
      if c =? 10 then
        (match prev with Some p => if negb (p =? 13) then [13] else [] | None => [] end) ++ c :: escape_loop data (Some c) true
      else if c =? 46 then (if start_of_line then [46] else []) ++ c :: escape_loop data (Some c) false
      else c :: escape_loop data (Some c) false
  end.

(** The last assertion counts the terminating NUL as well. *)
Definition write_escaped_data (data : bytes) : cres bytes :=
  assert! (zlen data <? SIZE_MAX - 9);
  match sz_loop data (zlen data + 8 + 1) with
  | None => Ok [46; 13; 10]
  | Some sz_out =>
      let out := escape_loop data None true in
      let out := if (zlen out <? 2) || negb (bytes_eqb (drop (length out - 2) out) [13; 10]) then out ++ [13; 10] else out in
      let out := out ++ [46; 13; 10] in
      assert! (zlen out + 1 <=? sz_out);
      Ok out
  end.

(** ** Reading *)

(** [n_to_copy && *(next-1) == '\r'] *)
Definition chop_cr (line : bytes) : bytes :=
  match rev line with
  | 13 :: r => rev r
  | _ => line
  end.

Fixpoint read_loop (fuel : nat) (data : bytes) : cres bytes :=
  match fuel with
  | O => Fuel
  | S fuel =>
      match data with
      | [] => Ok []
      | _ =>
          let data := if cur data =? 46 then drop 1 data else data in
          match span (fun c => negb (c =? 10)) data with
          | (rest, []) => Ok rest
          | (line, _ :: data) => let* out := read_loop fuel data in Ok (chop_cr line ++ 10 :: out)
          end
      end
  end.

(** The output has room for [len] bytes and a NUL. *)
Definition read_escaped_data (data : bytes) : cres bytes :=
  let* out := read_loop (S (length data)) data in
  assert! (zlen out <=? zlen data);
  Ok out.

(** ** Lines *)

(** The lines of a text, without their LFs, and what is after the last one. *)
Fixpoint split_lf (data : bytes) : list bytes * bytes :=
  match data with
  | [] => ([], [])
  | c :: data =>
      let '(ls, e) := split_lf data in
      if c =? 10 then ([] :: ls, e)
      else match ls with
           | [] => ([], c :: e)
           | l :: ls => ((c :: l) :: ls, e)
           end
  end.

Definition join_lf (ls : list bytes) : bytes := concat (map (fun l => l ++ [10]) ls).

Definition no_lf (l : bytes) : Prop := Forall (fun c => c <> 10) l.

Lemma split_lf_spec data : data = join_lf (fst (split_lf data)) ++ snd (split_lf data) /\ Forall no_lf (fst (split_lf data)) /\ no_lf (snd (split_lf data)).
Proof.
  induction data as [|c data (E & Hl & He)]; cbn [split_lf]; [split_and!; [done|constructor|constructor]|]. destruct (split_lf data) as [ls e]. cbn [fst snd] in *.
  destruct (Z.eqb_spec c 10) as [->|Hc]; [cbn [fst snd]; split_and!; [by rewrite E at 1|constructor; [constructor|done]|done]|].
  destruct ls as [|l ls]; cbn [fst snd]; [split_and!; [by rewrite E at 1|constructor|by constructor]|].
  inversion_clear Hl. split_and!; [by rewrite E at 1|constructor; [by constructor|done]|done].
Qed.

Lemma no_lf_span l r : no_lf l -> span (fun c => negb (c =? 10)) (l ++ 10 :: r) = (l, 10 :: r).
Proof. intros Hl. apply span_stop; [|done]. eapply List.Forall_impl; [|exact Hl]. cbn. intros c Hc. blia. Qed.

Lemma no_lf_span_all l : no_lf l -> span (fun c => negb (c =? 10)) l = (l, []).
Proof. intros Hl. apply span_all. eapply List.Forall_impl; [|exact Hl]. cbn. intros c Hc. blia. Qed.

(** A line that cannot be taken for the end of the data. *)
Definition inner_line (l : bytes) : Prop := no_lf l /\ l <> [46] /\ l <> [46; 13].

(** ** What the writer does to a line *)

Definition stuff (l : bytes) : bytes := if cur l =? 46 then 46 :: l else l.

(** The character before the LF that ends [l]. *)
Definition before_lf (prev : option Z) (l : bytes) : option Z := match list.last l with Some c => Some c | None => prev end.

Definition cr_for (p : option Z) : bytes := match p with Some p => if negb (p =? 13) then [13] else [] | None => [] end.

Lemma escape_rest l : forall p r, no_lf l -> exists q, escape_loop (l ++ r) p false = l ++ escape_loop r (before_lf p l) q /\ q = false.
Proof.
  induction l as [|c l IH]; intros p r Hl; [by exists false|]. inversion_clear Hl as [|? ? Hc Hl']. cbn [app escape_loop]. rewrite (proj2 (Z.eqb_neq c 10)) by done.
  destruct (IH (Some c) r Hl') as (q & E & ->). exists false. split; [|done]. assert (before_lf p (c :: l) = before_lf (Some c) l) as ->.
  { unfold before_lf. rewrite list.last_cons. by destruct (list.last l). }
  destruct (c =? 46); cbn [app]; by rewrite E.
Qed.

Lemma escape_start l p r : no_lf l -> escape_loop (l ++ r) p true = stuff l ++ escape_loop r (before_lf p l) (bool_decide (l = [])).
Proof.
  intros Hl. destruct l as [|c l]; [done|]. inversion_clear Hl as [|? ? Hc Hl']. cbn [app escape_loop]. rewrite (proj2 (Z.eqb_neq c 10)) by done. unfold stuff. cbn [cur hd].
  assert (before_lf p (c :: l) = before_lf (Some c) l) as -> by (unfold before_lf; rewrite list.last_cons; by destruct (list.last l)). rewrite bool_decide_false by done.
  destruct (escape_rest l (Some c) r Hl') as (q & E & ->). destruct (c =? 46); cbn [app]; by rewrite E.
Qed.

(** The lines that are written, without their LFs. *)
Fixpoint written (prev : option Z) (ls : list bytes) : list bytes :=
  match ls with
  | [] => []
  | l :: ls => (stuff l ++ cr_for (before_lf prev l)) :: written (Some 10) ls
  end.

Lemma escape_lines ls : forall p e, Forall no_lf ls -> no_lf e -> escape_loop (join_lf ls ++ e) p true = join_lf (written p ls) ++ stuff e.
Proof.
  induction ls as [|l ls IH]; intros p e Hl He; [cbn [join_lf map concat app written]; rewrite <- (app_nil_r e), escape_start by done; cbn [escape_loop]; by rewrite !app_nil_r|].
  inversion_clear Hl. unfold join_lf in *. cbn [map concat written]. rewrite <- !app_assoc. rewrite escape_start by done. cbn [app escape_loop]. change (10 =? 10) with true. cbv iota. rewrite IH by done. fold (cr_for (before_lf p l)). lassoc.
Qed.

Lemma stuff_no_lf l : no_lf l -> no_lf (stuff l).
Proof. intros Hl. unfold stuff. destruct (_ =? _); [by constructor|done]. Qed.

Lemma stuff_inner l s : no_lf l -> (s = [] \/ s = [13]) -> inner_line (stuff l ++ s).
Proof.
  intros Hl Hs. split.
  - apply Forall_app. split; [by apply stuff_no_lf|]. destruct Hs as [->| ->]; [constructor|]. repeat constructor; done.
  - unfold stuff. destruct l as [|c l]; cbn [cur hd]; [by destruct Hs as [->| ->]|]. destruct (Z.eqb_spec c 46) as [->|Hc]; [split; by destruct l|]. cbn [app]. split; congruence.
Qed.

Lemma cr_for_cases p : cr_for p = [] \/ cr_for p = [13].
Proof. unfold cr_for. destruct p as [p|]; [|by left]. destruct (negb _); [by right|by left]. Qed.

Lemma written_inner ls : forall p, Forall no_lf ls -> Forall inner_line (written p ls).
Proof. induction ls as [|l ls IH]; intros p Hl; [constructor|]. inversion_clear Hl. constructor; [apply stuff_inner; [done|apply cr_for_cases]|by apply IH]. Qed.

(** ** The end of the data *)

Definition closed (ls : list bytes) (e : bytes) : bool := bool_decide (e = []) && negb (bool_decide (ls = [])) && negb (bool_decide (ls = [[]])).

(** All the lines that are written before the one with the dot. *)
Definition written_lines (ls : list bytes) (e : bytes) : list bytes :=
  if closed ls e then written None ls else written None ls ++ [stuff e ++ [13]].

Lemma join_lf_app a b : join_lf (a ++ b) = join_lf a ++ join_lf b.
Proof. unfold join_lf. by rewrite map_app, concat_app. Qed.

Lemma join_lf_snoc a l : join_lf (a ++ [l]) = join_lf a ++ l ++ [10].
Proof. rewrite join_lf_app. unfold join_lf. cbn. by rewrite app_nil_r. Qed.

Lemma ends_with_crlf (s : bytes) : forall t, s = t ++ [13; 10] -> drop (length s - 2) s = [13; 10].
Proof. intros t ->. rewrite length_app. cbn [length]. replace (length t + 2 - 2)%nat with (length t) by lia. by rewrite drop_app_length. Qed.

Lemma drop_last_two (s : bytes) : (2 <= length s)%nat -> s = take (length s - 2) s ++ drop (length s - 2) s.
Proof. intros _. by rewrite take_drop. Qed.

(** Every line but an empty first one ends in CR. *)
Lemma line_cr p l : p = Some 10 \/ l <> [] -> exists s, stuff l ++ cr_for (before_lf p l) = s ++ [13].
Proof.
  intros Hp. unfold before_lf. destruct (list.last l) as [c|] eqn:El; [|destruct Hp as [->|Hp]; [by exists (stuff l)|by apply last_None in El]].
  apply last_Some in El as [l' ->]. cbn [cr_for]. destruct (Z.eqb_spec c 13) as [->|Hc]; cbn [negb]; [|by exists (stuff (l' ++ [c]))].
  rewrite app_nil_r. unfold stuff. destruct (_ =? 46); [by exists (46 :: l')|by exists l'].
Qed.

Lemma written_snoc ls : forall p l, written p (ls ++ [l]) = written p ls ++ [stuff l ++ cr_for (before_lf (match ls with [] => p | _ => Some 10 end) l)].
Proof. induction ls as [|l0 ls IH]; intros p l; [done|]. cbn [app written]. rewrite IH. by destruct ls. Qed.

Lemma close_lines ls e :
  no_lf e ->
  let out := join_lf (written None ls) ++ stuff e in
  (if (zlen out <? 2) || negb (bytes_eqb (drop (length out - 2) out) [13; 10]) then out ++ [13; 10] else out) = join_lf (written_lines ls e).
Proof.
  intros He out. unfold written_lines, closed. destruct (bool_decide_reflect (e = [])) as [->|Hne]; cbn [andb].
  - subst out. cbn [stuff cur hd Z.eqb]. rewrite app_nil_r. destruct ls as [|l ls _] using rev_ind; [done|]. rewrite bool_decide_false by (by destruct ls). cbn [negb andb].
    destruct (bool_decide_reflect (ls ++ [l] = [[]])) as [E|Hl]; [by rewrite E|]. cbn [negb]. rewrite written_snoc.
    destruct (line_cr (match ls with [] => None | _ => Some 10 end) l) as [s Es]; [destruct ls; [right; by intros ->|by left]|]. rewrite Es, join_lf_snoc. rewrite (ends_with_crlf _ (join_lf (written None ls) ++ s)) by lassoc.
    rewrite bytes_eqb_refl. destruct (Z.ltb_spec (zlen (join_lf (written None ls) ++ (s ++ [13]) ++ [10])) 2) as [Hs|]; [|done]. pose proof (zlen_nonneg (join_lf (written None ls))). pose proof (zlen_nonneg s). zlia.
  - rewrite join_lf_snoc. assert ((zlen out <? 2) || negb (bytes_eqb (drop (length out - 2) out) [13; 10]) = true) as ->; [|subst out; lassoc].
    apply orb_true_iff. right. apply negb_true_iff, not_true_iff_false. intros E%bytes_eqb_eq. assert (no_lf (stuff e)) as Hs by (by apply stuff_no_lf).
    destruct (stuff e) as [|c w _] eqn:Ew using rev_ind; [unfold stuff in Ew; destruct (_ =? _); by destruct e|]. subst out. rewrite ?Ew, app_assoc in E.
    pose proof (take_drop (length ((join_lf (written None ls) ++ w) ++ [c]) - 2) ((join_lf (written None ls) ++ w) ++ [c])) as Et. rewrite E in Et. change [13; 10] with ([13] ++ [10]) in Et. rewrite app_assoc in Et.
    apply app_inj_tail in Et as [_ <-]. apply Forall_app in Hs as [_ Hs]. by inversion_clear Hs.
Qed.

Lemma written_lines_inner ls e : Forall no_lf ls -> no_lf e -> Forall inner_line (written_lines ls e).
Proof.
  intros Hl He. unfold written_lines. destruct (closed ls e); [by apply written_inner|]. apply Forall_app. split; [by apply written_inner|].
  constructor; [apply stuff_inner; [done|by right]|constructor].
Qed.

(** ** Reading it back *)

Lemma chop_cr_snoc l : chop_cr (l ++ [13]) = l.
Proof. unfold chop_cr. rewrite rev_app_distr. cbn. apply rev_involutive. Qed.

Lemma chop_cr_other l : list.last l <> Some 13 -> chop_cr l = l.
Proof.
  destruct l as [|c l _] using rev_ind; [done|]. rewrite last_snoc. intros Hc. unfold chop_cr. rewrite rev_app_distr. cbn [rev app].
  repeat match goal with |- context [match ?x with _ => _ end] => destruct x; try done end.
Qed.

Lemma chop_cr_written p l : chop_cr (l ++ cr_for (before_lf p l)) = chop_cr l.
Proof.
  destruct (cr_for_cases (before_lf p l)) as [E|E]; rewrite E; [by rewrite app_nil_r|]. rewrite chop_cr_snoc. symmetry. apply chop_cr_other.
  intros El. unfold before_lf in E. rewrite El in E. done.
Qed.

Lemma read_line l s r fuel : no_lf l -> s = [] \/ s = [13] -> read_loop (S fuel) (stuff l ++ s ++ 10 :: r) = let* out := read_loop fuel r in Ok (chop_cr (l ++ s) ++ 10 :: out).
Proof.
  intros Hl Hs. assert (no_lf (l ++ s)) as Hls by (apply Forall_app; split; [done|]; destruct Hs as [->| ->]; repeat constructor; done).
  assert (span (fun c => negb (c =? 10)) (l ++ s ++ 10 :: r) = (l ++ s, 10 :: r)) as Esp by (rewrite app_assoc; by apply no_lf_span).
  unfold stuff. destruct l as [|c l]; cbn [cur hd].
  - change (0 =? 46) with false. cbv iota. destruct Hs as [->| ->]; cbn [app] in *; cbn [read_loop cur hd]; [change (10 =? 46) with false|change (13 =? 46) with false]; cbv iota; by rewrite Esp.
  - destruct (Z.eqb_spec c 46) as [->|Hc]; cbn [app] in *; cbn [read_loop cur hd].
    + change (46 =? 46) with true. cbv iota. cbn [drop]. rewrite ?drop_0. by rewrite Esp.
    + rewrite (proj2 (Z.eqb_neq c 46)) by done. by rewrite Esp.
Qed.

Lemma join_lf_length ls : length (join_lf ls) = (length (concat ls) + length ls)%nat.
Proof. unfold join_lf. induction ls as [|l ls IH]; [done|]. cbn [map concat length]. rewrite !length_app, IH. cbn. lia. Qed.

Lemma read_written ls : forall p t out fuel,
  Forall no_lf ls -> (forall fuel, (length (join_lf t) < fuel)%nat -> read_loop fuel (join_lf t) = Ok out) -> (length (join_lf (written p ls ++ t)) < fuel)%nat ->
  read_loop fuel (join_lf (written p ls ++ t)) = Ok (join_lf (map chop_cr ls) ++ out).
Proof.
  induction ls as [|l ls IH]; intros p t out fuel Hl Ht Hf; [by apply Ht|]. inversion_clear Hl. cbn [written app map] in *. unfold join_lf in *. cbn [map concat] in *.
  rewrite <- !app_assoc in *. destruct fuel as [|fuel]; [lia|]. cbn [app] in *. rewrite read_line by (done || apply cr_for_cases). rewrite (IH (Some 10) t out); [|done|done|rewrite !length_app in Hf; cbn [length] in Hf; lia].
  cbn [cbind]. by rewrite chop_cr_written.
Qed.

(** The text that is read: the CR before an LF is dropped, and a last line that has no end gets one. *)
Fixpoint uncrlf (s : bytes) : bytes :=
  match s with
  | [] => []
  | c :: s => if (c =? 13) && match s with 10 :: _ => true | _ => false end then uncrlf s else c :: uncrlf s
  end.

Definition normal_text (data : bytes) : bytes :=
  if bool_decide (list.last data = Some 10) && negb (bool_decide (data = [10])) then uncrlf data else uncrlf data ++ [10].

Lemma uncrlf_line l : forall r, no_lf l -> uncrlf (l ++ 10 :: r) = chop_cr l ++ 10 :: uncrlf r.
Proof.
  induction l as [|c l IH]; intros r Hl; [done|]. inversion_clear Hl as [|? ? Hc Hl']. cbn [app uncrlf]. rewrite IH by done. destruct l as [|d l].
  - cbn [app]. destruct (Z.eqb_spec c 13) as [->|Hn]; cbn [andb]; [done|]. rewrite (chop_cr_other [c]); [done|]. cbn. congruence.
  - inversion_clear Hl' as [|? ? Hd _]. cbn [app]. assert (match d with 10 => true | _ => false end = false) as Hf by (repeat match goal with |- context [match ?x with _ => _ end] => destruct x; try done end).
    rewrite Hf, andb_false_r. destruct (decide (list.last (d :: l) = Some 13)) as [E|E].
    + apply last_Some in E as [l' E]. rewrite E. change (c :: l' ++ [13]) with ((c :: l') ++ [13]). by rewrite !chop_cr_snoc.
    + rewrite !chop_cr_other; [done|by rewrite list.last_cons_cons|done].
Qed.

Lemma uncrlf_no_lf e : no_lf e -> uncrlf e = e.
Proof.
  induction 1 as [|c e Hc He IH]; [done|]. cbn [uncrlf]. rewrite IH. assert (match e with 10 :: _ => true | _ => false end = false) as ->; [|by rewrite andb_false_r].
  destruct He as [|d e Hd _]; [done|]. repeat match goal with |- context [match ?x with _ => _ end] => destruct x; try done end.
Qed.

Lemma uncrlf_join ls : forall e, Forall no_lf ls -> no_lf e -> uncrlf (join_lf ls ++ e) = join_lf (map chop_cr ls) ++ e.
Proof.
  unfold join_lf. induction ls as [|l ls IH]; intros e Hl He; [by apply uncrlf_no_lf|]. inversion_clear Hl. cbn [map concat]. rewrite <- !app_assoc. cbn [app]. rewrite uncrlf_line by done. by rewrite IH.
Qed.

Lemma closed_data ls e : no_lf e -> closed ls e = bool_decide (list.last (join_lf ls ++ e) = Some 10) && negb (bool_decide (join_lf ls ++ e = [10])).
Proof.
  intros He. unfold closed. destruct e as [|c e _] using rev_ind.
  - rewrite app_nil_r. cbn [bool_decide andb]. rewrite (bool_decide_true (@nil Z = [])) by done. destruct ls as [|l ls _] using rev_ind; [done|]. rewrite join_lf_snoc, app_assoc, last_snoc, !(bool_decide_true (Some 10 = Some 10)) by done.
    rewrite (bool_decide_false (ls ++ [l] = [])) by (by destruct ls). cbn [negb andb]. f_equal. apply bool_decide_ext. split.
    + destruct ls as [|l0 ls]; [cbn; by intros [= ->]|by destruct ls].
    + change [10] with ([] ++ [10]). intros [E _]%app_inj_tail. apply app_eq_nil in E as [E ->]. destruct ls as [|l0 ls]; [done|]. unfold join_lf in E. cbn in E. by destruct l0.
  - rewrite (bool_decide_false (e ++ [c] = [])) by (by destruct e). cbn [andb]. rewrite app_assoc, last_snoc. apply Forall_app in He as [_ He]. inversion_clear He. by rewrite bool_decide_false by congruence.
Qed.

(** ** Sizes *)

Fixpoint count_lf (data : bytes) : Z := match data with [] => 0 | c :: data => (if c =? 10 then 1 else 0) + count_lf data end.

Lemma count_lf_bound data : 0 <= count_lf data <= zlen data.
Proof. induction data as [|c data IH]; [done|]. cbn [count_lf]. rewrite zlen_cons. destruct (c =? 10); lia. Qed.

Lemma sz_loop_ok data : forall sz, sz + 2 * count_lf data < SIZE_T_CEILING -> sz_loop data sz = Some (sz + 2 * count_lf data).
Proof.
  induction data as [|c data IH]; intros sz Hs; cbn [sz_loop count_lf] in *; [f_equal; lia|]. pose proof (count_lf_bound data).
  destruct (c =? 10); [rewrite (proj2 (Z.leb_gt _ _)) by lia|]; rewrite IH by lia; f_equal; lia.
Qed.

Lemma escape_size data : forall p sol, zlen (escape_loop data p sol) <= zlen data + 2 * count_lf data + (if sol : bool then 1 else 0).
Proof.
  induction data as [|c data IH]; intros p sol; cbn [escape_loop count_lf]; [destruct sol; cbn; lia|]. pose proof (IH (Some c) true). pose proof (IH (Some c) false). cbv iota in *.
  destruct (c =? 10); [|destruct (c =? 46)].
  - fold (cr_for p). destruct (cr_for_cases p) as [->| ->]; zlia || (destruct sol; zlia).
  - destruct sol; zlia.
  - destruct sol; zlia.
Qed.

Lemma chop_cr_size l : (length (chop_cr l) <= length l)%nat.
Proof. destruct l as [|c l _] using rev_ind; [done|]. destruct (decide (c = 13)) as [->|Hc]; [rewrite chop_cr_snoc, length_app; lia|]. rewrite chop_cr_other; [done|]. rewrite last_snoc. congruence. Qed.

Lemma read_size fuel : forall data out, read_loop fuel data = Ok out -> (length out <= length data)%nat.
Proof.
  induction fuel as [|fuel IH]; intros data out; [done|]. cbn [read_loop]. destruct data as [|c data]; [by intros [= <-]|]. set (d := if _ =? 46 then _ else _).
  assert (length d <= length (c :: data))%nat as Hd by (subst d; destruct (_ =? 46); cbn; rewrite ?drop_0; lia). pose proof (span_app (fun c => negb (c =? 10)) d) as Es.
  destruct (span _ d) as [a [|b r]]; cbn [fst snd] in Es; [intros [= <-]; rewrite <- Es, length_app in Hd; lia|].
  destruct (read_loop fuel r) as [o| | |] eqn:Er; [|done..]. intros [= <-]. apply IH in Er. pose proof (chop_cr_size a). rewrite <- Es in Hd. rewrite !length_app in *. cbn [length] in *. lia.
Qed.

(** Any data can be read. *)
Lemma read_total fuel : forall data, (length data < fuel)%nat -> exists out, read_loop fuel data = Ok out.
Proof.
  induction fuel as [|fuel IH]; intros data Hf; [lia|]. cbn [read_loop]. destruct data as [|c data]; [by eexists|]. set (d := if _ =? 46 then _ else _).
  assert (length d <= length (c :: data))%nat as Hd by (subst d; destruct (_ =? 46); cbn; rewrite ?drop_0; lia). pose proof (span_app (fun c => negb (c =? 10)) d) as Es.
  destruct (span _ d) as [a [|b r]]; cbn [fst snd] in Es; [by eexists|]. destruct (IH r) as [o ->]; [|by eexists]. rewrite <- Es, length_app in Hd. cbn [length] in *. lia.
Qed.

Lemma read_escaped_total data : exists out, read_escaped_data data = Ok out.
Proof.
  unfold read_escaped_data. destruct (read_total (S (length data)) data) as [out E]; [lia|]. rewrite E. cbn [cbind]. apply read_size in E. rewrite (proj2 (Z.leb_le _ _)) by (unfold zlen; lia). by eexists.
Qed.

Lemma write_escaped_lines data :
  3 * zlen data + 9 < SIZE_T_CEILING -> write_escaped_data data = Ok (join_lf (written_lines (fst (split_lf data)) (snd (split_lf data))) ++ [46; 13; 10]).
Proof.
  intros Hsz. destruct (split_lf_spec data) as (E & Hl & He). set (ls := fst (split_lf data)) in *. set (e := snd (split_lf data)) in *. pose proof (count_lf_bound data) as Hc.
  pose proof (escape_size data None true) as Hs. cbv iota in Hs. unfold write_escaped_data, SIZE_MAX. rewrite sz_loop_ok by lia. unfold SIZE_T_CEILING in *. rewrite (proj2 (Z.ltb_lt (zlen data) _)) by lia.
  assert (escape_loop data None true = join_lf (written None ls) ++ stuff e) as Ee by (rewrite E; by apply escape_lines). rewrite <- close_lines by done. cbv zeta. rewrite <- Ee. set (out := escape_loop data None true) in *.
  rewrite (proj2 (Z.leb_le _ _)); [done|]. destruct (_ || _); zlia.
Qed.

Lemma read_written_lines ls e : Forall no_lf ls -> no_lf e -> read_escaped_data (join_lf (written_lines ls e)) = Ok (normal_text (join_lf ls ++ e)).
Proof.
  intros Hl He. unfold read_escaped_data, normal_text. rewrite <- closed_data by done. rewrite uncrlf_join by done.
  assert (forall fuel, (length (join_lf [stuff e ++ [13%Z]]) < fuel)%nat -> read_loop fuel (join_lf [stuff e ++ [13]]) = Ok (e ++ [10])) as Hlast.
  { intros [|fuel] Hf; [lia|]. unfold join_lf in *. cbn [map concat] in *. rewrite app_nil_r in *. rewrite <- app_assoc in *. rewrite read_line by (done || by right). rewrite chop_cr_snoc. destruct fuel; [rewrite !length_app in Hf; cbn in Hf; lia|done]. }
  assert (exists out, read_loop (S (length (join_lf (written_lines ls e)))) (join_lf (written_lines ls e)) = Ok out /\ out = if closed ls e then join_lf (map chop_cr ls) ++ e else (join_lf (map chop_cr ls) ++ e) ++ [10]) as (out & E & ->).
  { unfold written_lines. destruct (closed ls e) eqn:Ec.
    - unfold closed in Ec. apply andb_true_iff in Ec as [[->%bool_decide_eq_true _]%andb_true_iff _]. eexists. split; [|done]. rewrite <- (app_nil_r (written None ls)). apply read_written; [done| |lia]. intros [|fuel]; [lia|done].
    - eexists. split; [|by rewrite <- app_assoc]. apply read_written; [done|done|lia]. }
  rewrite E. cbn [cbind]. apply read_size in E. by rewrite (proj2 (Z.leb_le _ _)) by (unfold zlen; lia).
Qed.

(** Whatever the data is, bare CRs included, what is written for it is lines none of which can be taken for the line with the single dot that ends it, and they are read back as the data with its ends of lines in LF form; the buffers are large enough. *)
Theorem data_framed data :
  3 * zlen data + 9 < SIZE_T_CEILING ->
  exists ls, write_escaped_data data = Ok (join_lf ls ++ [46; 13; 10]) /\ Forall inner_line ls /\ read_escaped_data (join_lf ls) = Ok (normal_text data).
Proof.
  intros Hsz. destruct (split_lf_spec data) as (E & Hl & He). eexists. split; [by apply write_escaped_lines|]. split; [by apply written_lines_inner|]. rewrite read_written_lines by done. by rewrite <- E.
Qed.

Definition ex_data : bytes := s2b ".dots" ++ [13; 10] ++ s2b "..." ++ [10; 10] ++ s2b "." ++ [10] ++ s2b "end" ++ [13].

Lemma data_framed_witness :
  exists ls, write_escaped_data ex_data = Ok (join_lf ls ++ [46; 13; 10]) /\ Forall inner_line ls /\ read_escaped_data (join_lf ls) = Ok (normal_text ex_data).
Proof. apply data_framed. reflexivity. Defined.

Example ex_written : write_escaped_data ex_data = Ok (s2b "..dots" ++ [13; 10] ++ s2b "...." ++ [13; 10; 13; 10] ++ s2b ".." ++ [13; 10] ++ s2b "end" ++ [13; 13; 10] ++ s2b "." ++ [13; 10]).
Proof. vm_compute. reflexivity. Qed.

(** A LF at the start of the data stays without a CR, and a text that is one empty line comes back as two. *)
Example ex_leading_lf : write_escaped_data [10] = Ok ([10; 13; 10] ++ s2b "." ++ [13; 10]) /\ read_escaped_data [10; 13; 10] = Ok [10; 10].
Proof. vm_compute. split; reflexivity. Qed.
