(* ===== verification/CtrlCmd.v ===== *)
(** * Commands and replies of the control port

    Models the reply functions of feature/control/control_proto.c, [control_split_incoming_command] of feature/control/control.c, and from feature/control/control_cmd.c the
    syntax of the commands, [control_cmd_parse_args] with its helpers, and the table [CONTROL_COMMANDS].

    What is written to a connection is the list of bytes that is handed to [connection_buf_add].  A command is an array of bytes; where the code reads it as a string, [c_string] is the part before the first NUL. *)

From S2P Require Import Prelude CString UtilString StrList Escapes KvLine CtrlData.
From Stdlib Require Import ZArith String.
From stdpp Require Import base list numbers sorting.
Open Scope Z_scope.

(** ** Replies *)

(** [%03d] *)
Definition fmt_03d (n : Z) : bytes := repeat 48 (3 - length (dec n)) ++ dec n.

Definition CRLF : bytes := [13; 10].

Definition control_write_reply (code c : Z) (s : bytes) : bytes := fmt_03d code ++ [c] ++ s ++ CRLF.

Definition control_write_endreply (code : Z) (s : bytes) : bytes := control_write_reply code 32 s.
Definition control_write_midreply (code : Z) (s : bytes) : bytes := control_write_reply code 45 s.
Definition control_write_datareply (code : Z) (s : bytes) : bytes := control_write_reply code 43 s.
Definition send_control_done : bytes := control_write_endreply 250 (s2b "OK").
Definition control_write_data (data : bytes) : cres bytes := write_escaped_data data.

Record control_reply_line_t := mkreply { r_code : Z; r_flags : Z; r_kvline : list config_line_t }.

(** [strpbrk(value, "\r\n") != NULL] *)
Definition has_crlf (s : bytes) : bool := existsb (fun c => (c =? 13) || (c =? 10)) s.

(** Formatting a [NULL] from [kvline_encode] is undefined. *)
Definition control_write_reply_line (line : control_reply_line_t) (lastone : bool) : cres bytes :=
  match r_kvline line with
  | [] => Bug
  | kv :: next =>
      if has_crlf (value kv) then
        assert! (match next with [] => true | _ => false end);
        let* data := control_write_data (value kv) in
        Ok (control_write_datareply (r_code line) (key kv ++ [61]) ++ data)
      else
        match kvline_encode (r_kvline line) (r_flags line) with
        | Ok s => Ok (if lastone then control_write_endreply (r_code line) s else control_write_midreply (r_code line) s)
        | Fuel => Fuel
        | _ => Bug
        end
  end.

Fixpoint control_write_reply_lines (lines : list control_reply_line_t) : cres bytes :=
  match lines with
  | [] => Ok []
  | line :: lines =>
      let* s := control_write_reply_line line (match lines with [] => true | _ => false end) in
      let* r := control_write_reply_lines lines in
      Ok (s ++ r)
  end.

Definition control_reply_add_one_kv (reply : list control_reply_line_t) (code flags : Z) (k v : bytes) : list control_reply_line_t :=
  reply ++ [mkreply code flags [mkline k v]].

Definition control_reply_append_kv (reply : list control_reply_line_t) (k v : bytes) : cres (list control_reply_line_t) :=
  match rev reply with
  | [] => Bug
  | line :: before => Ok (rev (mkreply (r_code line) (r_flags line) (r_kvline line ++ [mkline k v]) :: before))
  end.

Definition control_reply_add_str (reply : list control_reply_line_t) (code : Z) (s : bytes) : list control_reply_line_t :=
  control_reply_add_one_kv reply code (Z.lor KV_OMIT_KEYS KV_RAW) [] s.

Definition control_reply_add_done (reply : list control_reply_line_t) : list control_reply_line_t := control_reply_add_str reply 250 (s2b "OK").

(** ** The name of a command and its arguments *)

Definition control_split_incoming_command (incoming_cmd : bytes) : bytes * bytes :=
  let is_multiline := cur incoming_cmd =? 43 in
  let '(cmd, args) := span (fun c => negb (TOR_ISSPACE c)) incoming_cmd in
  (cmd, if is_multiline then skip_while is_hspace args else skip_while TOR_ISSPACE args).

(** ** Arguments *)

Record control_cmd_syntax_t := mksyntax {
  min_args : Z;
  max_args : Z;
  accept_keywords : bool;
  allowed_keywords : option (list bytes);
  kvline_flags : Z;
  want_cmddata : bool;
  store_raw_body : bool
}.

Record control_cmd_args_t := mkargs {
  command : bytes;
  args : list bytes;
  kwargs : list config_line_t;
  cmddata : option bytes;
  raw_body : option bytes
}.

Definition UINT_MAX : Z := 4294967295.

Fixpoint string_array_contains_keyword (array : list bytes) (kwd : bytes) : bool :=
  match array with
  | [] => false
  | a :: array => if strcasecmp a kwd =? 0 then true else string_array_contains_keyword array kwd
  end.

Fixpoint check_keywords (allowed : list bytes) (lines : list config_line_t) : cres (option bytes) :=
  match lines with
  | [] => Ok None
  | line :: lines =>
      if negb (string_array_contains_keyword allowed (key line)) then
        let* e := esc_for_log (Some (key line)) in Ok (Some (s2b "Unrecognized keyword argument " ++ e))
      else check_keywords allowed lines
  end.

(** The error string, if there is one. *)
Definition kvline_check_keyword_args (kw : list config_line_t) (syntax : control_cmd_syntax_t) : cres (option bytes) :=
  match kw with
  | [] => Ok (Some (s2b "Cannot parse keyword argument(s)"))
  | _ =>
      match allowed_keywords syntax with
      | None => Ok None
      | Some allowed => check_keywords allowed kw
      end
  end.

(** The first line and the data that follows, or an error. *)
Definition cmdline_of (syntax : control_cmd_syntax_t) (body : bytes) : cres ((bytes * option bytes) + bytes) :=
  let '(line, eol) := span (fun c => negb (c =? 10)) body in
  if want_cmddata syntax then
    match eol with
    | _ :: ((_ :: _) as data) => let* d := read_escaped_data data in Ok (inl (c_string line, Some d))
    | _ => Ok (inr (s2b "Empty body"))
    end
  else
    match eol with
    | _ :: _ :: _ => Ok (inr (s2b "Unexpected body"))
    | _ => Ok (inl (c_string body, None))
    end.

(** [inr]: the error string; [kvline_parse] returns [NULL] for an error and for an empty list. *)
Definition control_cmd_parse_args (cmd : bytes) (syntax : control_cmd_syntax_t) (body : bytes) : cres (control_cmd_args_t + bytes) :=
  assert! ((max_args syntax <? INT_MAX) || (max_args syntax =? UINT_MAX));
  let raw := if store_raw_body syntax then Some (c_string body) else None in
  let* r := cmdline_of syntax body in
  match r with
  | inr err => Ok (inr err)
  | inl (cmdline, data) =>
      let* sl := smartlist_split_string cmdline (Some [32]) (Z.lor SPLIT_SKIP_SPACE SPLIT_IGNORE_BLANK) (s32 (max_args syntax + 1)) in
      let n_args := zlen sl in
      if n_args <? min_args syntax then Ok (inr (s2b "Need at least " ++ dec (min_args syntax) ++ s2b " argument(s)"))
      else if (max_args syntax <? n_args) && negb (accept_keywords syntax) then
        Ok (inr (s2b "Cannot accept more than " ++ dec (max_args syntax) ++ s2b " argument(s)"))
      else if max_args syntax <? n_args then
        assert! (n_args =? max_args syntax + 1);
        assert! (accept_keywords syntax);
        let remainder := List.last sl [] in
        let* kw := match kvline_parse remainder (kvline_flags syntax) with Ok kw => Ok kw | Err => Ok [] | Bug => Bug | Fuel => Fuel end in
        let* err := kvline_check_keyword_args kw syntax in
        match err with
        | Some err => Ok (inr err)
        | None => Ok (inl (mkargs cmd (removelast sl) kw data raw))
        end
      else Ok (inl (mkargs cmd sl [] data raw))
  end.

(** ** The table *)

Definition one (lo hi : Z) : control_cmd_syntax_t := mksyntax lo hi false None 0 false false.
Definition kw (lo hi : Z) (allowed : option (list bytes)) (flags : Z) : control_cmd_syntax_t := mksyntax lo hi true allowed flags false false.

Definition setconf_syntax := kw 0 0 None (Z.lor KV_OMIT_VALS KV_QUOTED).
Definition resetconf_syntax := kw 0 0 None (Z.lor KV_OMIT_VALS KV_QUOTED).
Definition getconf_syntax := one 0 UINT_MAX.
Definition loadconf_syntax := mksyntax 0 0 false None 0 true false.
Definition setevents_syntax := one 0 UINT_MAX.
Definition authenticate_syntax := mksyntax 0 0 true None (Z.lor KV_OMIT_KEYS KV_QUOTED_QSTRING) false true.
Definition saveconf_syntax := kw 0 0 None KV_OMIT_VALS.
Definition signal_syntax := one 1 1.
Definition takeownership_syntax := one 0 UINT_MAX.
Definition dropownership_syntax := one 0 UINT_MAX.
Definition mapaddress_syntax := kw 0 0 None 0.
Definition getinfo_syntax := one 0 UINT_MAX.
Definition extendcircuit_syntax := kw 1 1 None KV_OMIT_VALS.
Definition setcircuitpurpose_syntax := kw 0 1 None 0.
Definition obsolete_syntax := one 0 UINT_MAX.
Definition attachstream_syntax := kw 2 2 (Some [s2b "HOP"]) 0.
Definition postdescriptor_syntax := mksyntax 0 0 true (Some [s2b "cache"; s2b "purpose"]) 0 true false.
Definition redirectstream_syntax := one 2 UINT_MAX.
Definition closestream_syntax := one 2 UINT_MAX.
Definition closecircuit_syntax := kw 1 1 None KV_OMIT_VALS.
Definition usefeature_syntax := one 0 UINT_MAX.
Definition resolve_syntax := kw 0 0 None KV_OMIT_VALS.
Definition protocolinfo_syntax := one 0 UINT_MAX.
Definition authchallenge_syntax := mksyntax 1 1 true None (Z.lor KV_OMIT_KEYS KV_QUOTED_QSTRING) false true.
Definition dropguards_syntax := one 0 0.
Definition droptimeouts_syntax := one 0 0.
Definition hsfetch_syntax := kw 1 1 (Some [s2b "SERVER"]) 0.
Definition hspost_syntax := mksyntax 0 0 true (Some [s2b "SERVER"; s2b "HSADDRESS"]) 0 true false.
Definition add_onion_keywords := [s2b "Port"; s2b "Flags"; s2b "MaxStreams"; s2b "PoWDefensesEnabled"; s2b "PoWQueueRate"; s2b "PoWQueueBurst"; s2b "ClientAuth"; s2b "ClientAuthV3"].
Definition add_onion_syntax := kw 1 1 (Some add_onion_keywords) 0.
Definition del_onion_syntax := one 1 1.
Definition onion_client_auth_add_syntax := kw 0 2 None 0.
Definition onion_client_auth_remove_syntax := kw 0 1 None 0.
Definition onion_client_auth_view_syntax := kw 0 1 None 0.

(** The handlers that are modelled, and the others by the name of their command. *)
Inductive handler_fn_t :=
| handle_authenticate
| handle_authchallenge
| handle_protocolinfo
| handle_obsolete
| handle_other (name : bytes).

Definition CMD_FL_WIPE : Z := 1.

Record control_cmd_def_t := mkdef { name : bytes; handler : handler_fn_t; flags : Z; syntax : control_cmd_syntax_t }.

Definition ONE_LINE (n : string) (fl : Z) (s : control_cmd_syntax_t) : control_cmd_def_t := mkdef (s2b n) (handle_other (s2b n)) fl s.
Definition MULTLINE (n : string) (fl : Z) (s : control_cmd_syntax_t) : control_cmd_def_t := mkdef (43 :: s2b n) (handle_other (s2b n)) fl s.
Definition OBSOLETE (n : string) : control_cmd_def_t := mkdef (s2b n) handle_obsolete 0 obsolete_syntax.

Definition CONTROL_COMMANDS : list control_cmd_def_t :=
  [ONE_LINE "setconf" 0 setconf_syntax; ONE_LINE "resetconf" 0 resetconf_syntax; ONE_LINE "getconf" 0 getconf_syntax; MULTLINE "loadconf" 0 loadconf_syntax; ONE_LINE "setevents" 0 setevents_syntax;
   mkdef (s2b "authenticate") handle_authenticate CMD_FL_WIPE authenticate_syntax; ONE_LINE "saveconf" 0 saveconf_syntax; ONE_LINE "signal" 0 signal_syntax; ONE_LINE "takeownership" 0 takeownership_syntax;
   ONE_LINE "dropownership" 0 dropownership_syntax; ONE_LINE "mapaddress" 0 mapaddress_syntax; ONE_LINE "getinfo" 0 getinfo_syntax; ONE_LINE "extendcircuit" 0 extendcircuit_syntax;
   ONE_LINE "setcircuitpurpose" 0 setcircuitpurpose_syntax; OBSOLETE "setrouterpurpose"; ONE_LINE "attachstream" 0 attachstream_syntax; MULTLINE "postdescriptor" 0 postdescriptor_syntax;
   ONE_LINE "redirectstream" 0 redirectstream_syntax; ONE_LINE "closestream" 0 closestream_syntax; ONE_LINE "closecircuit" 0 closecircuit_syntax; ONE_LINE "usefeature" 0 usefeature_syntax;
   ONE_LINE "resolve" 0 resolve_syntax; mkdef (s2b "protocolinfo") handle_protocolinfo 0 protocolinfo_syntax; mkdef (s2b "authchallenge") handle_authchallenge CMD_FL_WIPE authchallenge_syntax;
   ONE_LINE "dropguards" 0 dropguards_syntax; ONE_LINE "droptimeouts" 0 droptimeouts_syntax; ONE_LINE "hsfetch" 0 hsfetch_syntax; MULTLINE "hspost" 0 hspost_syntax; ONE_LINE "add_onion" CMD_FL_WIPE add_onion_syntax;
   ONE_LINE "del_onion" CMD_FL_WIPE del_onion_syntax; ONE_LINE "onion_client_auth_add" CMD_FL_WIPE onion_client_auth_add_syntax; ONE_LINE "onion_client_auth_remove" 0 onion_client_auth_remove_syntax;
   ONE_LINE "onion_client_auth_view" 0 onion_client_auth_view_syntax].

(** ** Parsing always answers *)

Record syntax_ok (s : control_cmd_syntax_t) : Prop := mk_syntax_ok {
  so_max : 0 <= max_args s < INT_MAX \/ (max_args s = UINT_MAX /\ accept_keywords s = false);
  so_omit : both (kvline_flags s) KV_OMIT_KEYS KV_OMIT_VALS = false;
  so_raw : has_flag (kvline_flags s) KV_RAW = false
}.

Lemma commands_syntax_ok : Forall (fun d => syntax_ok (syntax d)) CONTROL_COMMANDS.
Proof. unfold CONTROL_COMMANDS. repeat (apply List.Forall_cons; [split; [first [left; split; [discriminate|reflexivity]|right; split; reflexivity]|reflexivity|reflexivity]|]). apply List.Forall_nil. Qed.

(** At most [max] pieces. *)
Lemma split_count fuel : forall cp sep flags max n l, 0 <= n < max -> split_loop fuel cp sep flags max n = Ok l -> zlen l <= max - n.
Proof.
  induction fuel as [|fuel IH]; intros cp sep flags max n l Hn; [done|]. cbn [split_loop]. set (cp1 := if has_flag flags SPLIT_SKIP_SPACE then _ else cp).
  destruct (split_end cp1 sep max n) as [piece end_] eqn:E. set (pc := if has_flag flags SPLIT_SKIP_SPACE then _ else piece). set (add := negb _ || _). set (st := if has_flag flags SPLIT_STRIP_SPACE then _ else pc). clearbody add st.
  assert (split_next end_ sep = None \/ n + 1 < max) as Hnext.
  { unfold split_end in E. destruct (Z.eqb_spec n (max - 1)) as [->|]; [|right; lia]. rewrite (proj2 (Z.ltb_lt 0 max)) in E by lia. injection E as <- <-. by left. }
  destruct (split_next end_ sep) as [cp2|].
  - destruct Hnext as [|Hm]; [done|]. destruct (split_loop fuel cp2 sep flags max (if add then n + 1 else n)) as [rest| | |] eqn:Er; [|done..]. intros [= <-]. apply IH in Er; [|destruct add; lia]. destruct add; zlia.
  - cbn [cbind]. intros [= <-]. destruct add; [change (zlen [st]) with 1|change (zlen []) with 0]; lia.
Qed.

Lemma check_keywords_total allowed lines : exists e, check_keywords allowed lines = Ok e.
Proof. induction lines as [|line lines IH]; cbn [check_keywords]; [by eexists|]. destruct (negb _); [|done]. rewrite esc_for_log_ok. by eexists. Qed.

Lemma cmdline_total s body : exists r, cmdline_of s body = Ok r.
Proof.
  unfold cmdline_of. destruct (span _ body) as [line eol]. destruct (want_cmddata s); destruct eol as [|c [|d eol]]; try by eexists. destruct (read_escaped_total (d :: eol)) as [o ->]. by eexists.
Qed.

Lemma parse_args_total cmd s body : syntax_ok s -> exists r, control_cmd_parse_args cmd s body = Ok r.
Proof.
  intros [Hmax Ho Hr]. unfold control_cmd_parse_args. replace (_ || _) with true by (destruct Hmax as [Hm|[-> _]]; [blia|by rewrite orb_true_r]). destruct (cmdline_total s body) as [[[cmdline data]|err] ->]; [|by eexists]. cbn [cbind].
  destruct (split_loop_total (S (length cmdline)) cmdline [32] (Z.lor SPLIT_SKIP_SPACE SPLIT_IGNORE_BLANK) (s32 (max_args s + 1)) 0) as [sl Es]; [done|lia|]. unfold smartlist_split_string. rewrite Es. cbn [cbind].
  destruct (zlen sl <? min_args s); [by eexists|]. destruct (_ && negb (accept_keywords s)) eqn:Ea; [by eexists|]. destruct (Z.ltb_spec (max_args s) (zlen sl)) as [Hgt|]; [|by eexists]. cbn [andb] in Ea. apply negb_false_iff in Ea. rewrite Ea.
  destruct Hmax as [Hm|[_ Hm]]; [|congruence]. unfold INT_MAX in Hm. rewrite s32_small in Es by (unfold INT32_MIN, INT32_MAX; lia). apply split_count in Es; [|lia]. rewrite (proj2 (Z.eqb_eq _ _)) by lia.
  assert (exists kws, match kvline_parse (List.last sl []) (kvline_flags s) with Ok kw => Ok kw | Err => Ok [] | Bug => Bug | Fuel => Fuel end = Ok kws) as [kws ->].
  { destruct (kvline_parse_total (List.last sl []) (kvline_flags s) Ho Hr) as [->|[r ->]]; by eexists. }
  cbn [cbind]. unfold kvline_check_keyword_args. destruct kws as [|k kws]; [by eexists|]. destruct (allowed_keywords s) as [al|]; [|by eexists]. destruct (check_keywords_total al (k :: kws)) as [[e|] ->]; by eexists.
Qed.

(** What an accepted command has. *)
Lemma parse_args_facts cmd s body a : control_cmd_parse_args cmd s body = Ok (inl a) ->
  command a = cmd /\ (store_raw_body s = true -> raw_body a <> None) /\ (min_args s <= max_args s -> min_args s <= zlen (args a)).
Proof.
  unfold control_cmd_parse_args. destruct (_ || _); [|done]. destruct (cmdline_of s body) as [[[cmdline data]|]| | |]; [|done..]. cbn [cbind]. destruct (smartlist_split_string _ _ _ _) as [sl| | |]; [|done..]. cbn [cbind].
  destruct (Z.ltb_spec (zlen sl) (min_args s)); [done|]. destruct (_ && _); [done|]. assert (forall b : bool, b = true -> (if b then Some (c_string body) else None) <> None) as Hraw by (by intros [] Hb).
  destruct (Z.ltb_spec (max_args s) (zlen sl)) as [Hgt|Hle].
  - destruct (Z.eqb_spec (zlen sl) (max_args s + 1)) as [E|]; [|done]. destruct (accept_keywords s); [|done]. match goal with |- context [cbind ?m _] => destruct m as [kws| | |] end; [|done..]. cbn [cbind].
    destruct (kvline_check_keyword_args kws s) as [[err|]| | |]; [done| |done..]. cbn [cbind]. intros [= <-]. cbn [command raw_body args]. split_and!; [done|by apply Hraw|]. intros Hm.
    destruct sl as [|x sl _] using rev_ind; [zlia|]. rewrite removelast_last. zlia.
  - intros [= <-]. cbn [command raw_body args]. split_and!; [done|by apply Hraw|done].
Qed.

(** Raw replies can always be written. *)
Definition raw_key (line : config_line_t) : Prop := key line = [] \/ needs_escape (key line) true = false.

Lemma raw_can_encode lines : Forall raw_key lines -> kvline_can_encode_lines lines (Z.lor KV_OMIT_KEYS KV_RAW) = true.
Proof.
  induction 1 as [|line lines Hk _ IH]; [done|]. cbn [kvline_can_encode_lines]. change (has_flag (Z.lor KV_OMIT_KEYS KV_RAW) KV_OMIT_KEYS) with true. change (has_flag (Z.lor KV_OMIT_KEYS KV_RAW) (Z.lor KV_QUOTED KV_RAW)) with true.
  cbn [negb]. rewrite !andb_false_r. unfold line_has_no_key. destruct Hk as [->|Hk]; [done|]. by rewrite Hk, andb_false_r.
Qed.

Lemma raw_encode lines : Forall raw_key lines -> exists s, kvline_encode lines (Z.lor KV_OMIT_KEYS KV_RAW) = Ok s.
Proof.
  intros Hk. unfold kvline_encode. rewrite raw_can_encode by done. cbn -[encode_elements kvline_can_encode_lines smartlist_join_strings]. assert (exists es, encode_elements lines (Z.lor KV_OMIT_KEYS KV_RAW) = Ok es) as [es E].
  { clear Hk. induction lines as [|line lines [es E]]; [by eexists|]. cbn [encode_elements]. unfold encode_element. change (has_flag (Z.lor KV_OMIT_KEYS KV_RAW) KV_OMIT_VALS) with false. change (has_flag (Z.lor KV_OMIT_KEYS KV_RAW) KV_RAW) with true. cbn [andb negb cbind]. rewrite E. by eexists. }
  change 18 with (Z.lor KV_OMIT_KEYS KV_RAW). rewrite E. cbn [cbind]. unfold smartlist_join_strings. rewrite join_strings2_total. by eexists.
Qed.

(** A raw reply of one line or more, none of which begins with a value of several lines. *)
Definition raw_line (line : control_reply_line_t) : Prop :=
  r_flags line = Z.lor KV_OMIT_KEYS KV_RAW /\ Forall raw_key (r_kvline line) /\ match r_kvline line with [] => False | kv :: _ => has_crlf (value kv) = false end.

Lemma raw_reply lines : Forall raw_line lines -> exists s, control_write_reply_lines lines = Ok s.
Proof.
  induction 1 as [|line lines (Hf & Hk & Hv) _ [s IH]]; [by eexists|]. cbn [control_write_reply_lines]. unfold control_write_reply_line. destruct (r_kvline line) as [|kv next] eqn:Ekv; [done|]. rewrite Hv, Hf.
  destruct (raw_encode (kv :: next) Hk) as [e ->]. cbn [cbind]. rewrite IH. by eexists.
Qed.
