(* ===== verification/CtrlAuth.v ===== *)
(** * Authentication on the control port

    Models feature/control/control_auth.c with [secret_to_key_rfc2440] of lib/crypt_ops/crypto_s2k.c, and PROTOCOLINFO of feature/control/control_cmd.c, the commands that a connection may use before it is authenticated.

    The digests and the random numbers are parameters.  A list of configuration lines that is [NULL] is empty.  [globals] has the options and the global variables that the handlers read; a connection is a record over the type [B] of its input
    buffer. *)

From S2P Require Import Prelude CString UtilString StrList Binascii Escapes KvLine CtrlData CtrlCmd.
From Stdlib Require Import ZArith String.
From stdpp Require Import base list numbers sorting.
Open Scope Z_scope.

Definition DIGEST_LEN : Z := 20.
Definition DIGEST256_LEN : Z := 32.
Definition HEX_DIGEST256_LEN : Z := 64.
Definition S2K_RFC2440_SPECIFIER_LEN : Z := 9.
Definition AUTHENTICATION_COOKIE_LEN : Z := 32.
Definition SAFECOOKIE_SERVER_NONCE_LEN : Z := DIGEST256_LEN.
Definition SAFECOOKIE_SERVER_TO_CONTROLLER_CONSTANT : bytes := s2b "Tor safe cookie authentication server-to-controller hash".
Definition SAFECOOKIE_CONTROLLER_TO_SERVER_CONSTANT : bytes := s2b "Tor safe cookie authentication controller-to-server hash".

(** ** State *)

Inductive conn_state := CONTROL_CONN_STATE_OPEN | CONTROL_CONN_STATE_NEEDAUTH.

#[export] Instance conn_state_eq : EqDecision conn_state.
Proof. solve_decision. Defined.

Record globals := mkglobals {
  CookieAuthentication : bool;
  HashedControlPassword : list config_line_t;
  HashedControlSessionPassword : list config_line_t;
  authentication_cookie_is_set : bool;
  authentication_cookie : option bytes;
  control_auth_conns : list Z;
  stats_running : bool;
  rand_calls : nat
}.

Record control_connection_t (B : Type) := mkconn {
  conn_id : Z;
  c_state : conn_state;
  have_sent_protocolinfo : bool;
  safecookie_client_hash : option bytes;
  marked_for_close : bool;
  reading : bool;
  inbuf : B;
  outbuf : bytes;
  incoming_cmd : option bytes;
  incoming_cmd_len : Z
}.
Arguments mkconn {B}.
Arguments conn_id {B}.
Arguments c_state {B}.
Arguments have_sent_protocolinfo {B}.
Arguments safecookie_client_hash {B}.
Arguments marked_for_close {B}.
Arguments reading {B}.
Arguments inbuf {B}.
Arguments outbuf {B}.
Arguments incoming_cmd {B}.
Arguments incoming_cmd_len {B}.

Section Updates.
Context {B : Type}.
Implicit Types c : control_connection_t B.

(** What a reply function has written. *)
Definition send (s : bytes) c : control_connection_t B :=
  mkconn (conn_id c) (c_state c) (have_sent_protocolinfo c) (safecookie_client_hash c) (marked_for_close c) (reading c) (inbuf c) (outbuf c ++ s) (incoming_cmd c) (incoming_cmd_len c).
Definition connection_mark_for_close c : control_connection_t B :=
  mkconn (conn_id c) (c_state c) (have_sent_protocolinfo c) (safecookie_client_hash c) true (reading c) (inbuf c) (outbuf c) (incoming_cmd c) (incoming_cmd_len c).
Definition connection_stop_reading c : control_connection_t B :=
  mkconn (conn_id c) (c_state c) (have_sent_protocolinfo c) (safecookie_client_hash c) (marked_for_close c) false (inbuf c) (outbuf c) (incoming_cmd c) (incoming_cmd_len c).
Definition set_state (s : conn_state) c : control_connection_t B :=
  mkconn (conn_id c) s (have_sent_protocolinfo c) (safecookie_client_hash c) (marked_for_close c) (reading c) (inbuf c) (outbuf c) (incoming_cmd c) (incoming_cmd_len c).
Definition set_protocolinfo c : control_connection_t B :=
  mkconn (conn_id c) (c_state c) true (safecookie_client_hash c) (marked_for_close c) (reading c) (inbuf c) (outbuf c) (incoming_cmd c) (incoming_cmd_len c).
Definition set_hash (h : option bytes) c : control_connection_t B :=
  mkconn (conn_id c) (c_state c) (have_sent_protocolinfo c) h (marked_for_close c) (reading c) (inbuf c) (outbuf c) (incoming_cmd c) (incoming_cmd_len c).
Definition set_input (b : B) (cmd : option bytes) (len : Z) c : control_connection_t B :=
  mkconn (conn_id c) (c_state c) (have_sent_protocolinfo c) (safecookie_client_hash c) (marked_for_close c) (reading c) b (outbuf c) cmd len.

End Updates.

Definition set_auth_conns (l : list Z) (on : bool) (g : globals) : globals :=
  mkglobals (CookieAuthentication g) (HashedControlPassword g) (HashedControlSessionPassword g) (authentication_cookie_is_set g) (authentication_cookie g) l on (rand_calls g).
Definition set_cookie (is_set : bool) (cookie : option bytes) (calls : nat) (g : globals) : globals :=
  mkglobals (CookieAuthentication g) (HashedControlPassword g) (HashedControlSessionPassword g) is_set cookie (control_auth_conns g) (stats_running g) calls.

(** ** Authenticated connections *)

Definition control_add_authenticated_connection (id : Z) (g : globals) : globals :=
  let l := control_auth_conns g ++ [id] in
  set_auth_conns l (if (length l =? 1)%nat then true else stats_running g) g.

(** [smartlist_remove] removes every occurrence; an empty list is [NULL]. *)
Definition control_remove_authenticated_connection (id : Z) (g : globals) : globals :=
  match control_auth_conns g with
  | [] => g
  | l => let l := List.filter (fun i => negb (i =? id)) l in set_auth_conns l (if (length l =? 0)%nat then false else stats_running g) g
  end.

(** ** Hashed passwords *)

(** [None] where one cannot be decoded. *)
Fixpoint decode_hashed_lines (passwords : list config_line_t) : cres (option (list bytes)) :=
  match passwords with
  | [] => Ok (Some [])
  | cl :: passwords =>
      let hashed := value cl in
      let* d :=
        (if strcmpstart hashed (s2b "16:") =? 0 then
           match base16_decode 64 (drop 3 hashed) with
           | Ok d => Ok (if (zlen d =? S2K_RFC2440_SPECIFIER_LEN + DIGEST_LEN) && (zlen (drop 3 hashed) =? (S2K_RFC2440_SPECIFIER_LEN + DIGEST_LEN) * 2) then Some d else None)
           | Err => Ok None
           | Bug => Bug
           | Fuel => Fuel
           end
         else
           match base64_decode 64 hashed with
           | Ok d => Ok (if zlen d =? S2K_RFC2440_SPECIFIER_LEN + DIGEST_LEN then Some d else None)
           | Err => Ok None
           | Bug => Bug
           | Fuel => Fuel
           end) in
      match d with
      | None => Ok None
      | Some d => let* r := decode_hashed_lines passwords in Ok (match r with Some sl => Some (d :: sl) | None => None end)
      end
  end.

Definition decode_hashed_passwords (passwords : list config_line_t) : cres (option (list bytes)) :=
  assert! (match passwords with [] => false | _ => true end);
  decode_hashed_lines passwords.

Section Crypto.
Set Default Proof Using "Type".

(** [crypto_digest] (SHA-1) of a whole string, HMAC-SHA256 of a message with a key, HKDF and the [n]th call of [crypto_rand] for some bytes. *)
Variable sha1 : bytes -> bytes.
Variable hmac_sha256 : bytes -> bytes -> bytes.
Variable expand_rfc5869 : bytes -> bytes -> bytes -> Z -> bytes.
Variable crypto_rand : nat -> Z -> bytes.

(** The bytes that are added to the digest. *)
Fixpoint s2k_loop (fuel : nat) (tmp : bytes) (count : Z) (d : bytes) : cres bytes :=
  match fuel with
  | O => Fuel
  | S fuel =>
      if count =? 0 then Ok d
      else if zlen tmp <=? count then s2k_loop fuel tmp (count - zlen tmp) (d ++ tmp)
      else s2k_loop fuel tmp 0 (d ++ take (Z.to_nat count) tmp)
  end.

Definition secret_to_key_rfc2440 (key_out_len : Z) (secret s2k_specifier : bytes) : cres bytes :=
  assert! (key_out_len <? SIZE_T_CEILING);
  let* c8 := aget s2k_specifier 8 in
  let c := u8 c8 in
  let count := Z.shiftl (16 + Z.land c 15) (Z.shiftr c 4 + 6) in
  let tmp := take 8 s2k_specifier ++ secret in
  let* d := s2k_loop (S (S (Z.to_nat count))) tmp count [] in
  let buf := sha1 d in
  Ok (if key_out_len <=? DIGEST_LEN then take (Z.to_nat key_out_len) buf
      else expand_rfc5869 buf (take 8 s2k_specifier) (s2b "EXPAND") key_out_len).

(** ** Cookies *)

(** [init_cookie_authentication] of app/config/config.c with the length and the header of the control port; [written] is whether the file could be written.  [None]: it returned -1. *)
Definition init_cookie_authentication (written : bool) (g : globals) : globals * Z :=
  if authentication_cookie_is_set g then (g, 0)
  else
    let cookie := Some (crypto_rand (rand_calls g) AUTHENTICATION_COOKIE_LEN) in
    if written then (set_cookie true cookie (S (rand_calls g)) g, 0) else (set_cookie false cookie (S (rand_calls g)) g, -1).

Definition init_control_cookie_authentication (enabled written : bool) (g : globals) : globals * Z :=
  if negb enabled then (set_cookie false (authentication_cookie g) (rand_calls g) g, 0) else init_cookie_authentication written g.

(** ** AUTHCHALLENGE *)

Section Handlers.
Context {B : Type}.
Abbreviation conn := (control_connection_t B).

Definition fail (code : Z) (msg : bytes) (g : globals) (c : conn) : cres (globals * conn * Z) :=
  Ok (g, connection_mark_for_close (send (control_write_endreply code msg) c), -1).

Definition has_quote (raw : option bytes) : cres bool :=
  match raw with
  | None => Bug
  | Some s => Ok (match strchr s 34 with Some _ => true | None => false end)
  end.

Definition challenge_client (g : globals) (c : conn) (cookie client_nonce : bytes) : cres (globals * conn * Z) :=
  let server_nonce := crypto_rand (rand_calls g) SAFECOOKIE_SERVER_NONCE_LEN in
  let tmp := take (Z.to_nat AUTHENTICATION_COOKIE_LEN) cookie ++ client_nonce ++ server_nonce in
  let server_hash := hmac_sha256 SAFECOOKIE_SERVER_TO_CONTROLLER_CONSTANT tmp in
  let client_hash := hmac_sha256 SAFECOOKIE_CONTROLLER_TO_SERVER_CONSTANT tmp in
  let c := set_hash (Some client_hash) c in
  let* server_hash_encoded := base16_encode (HEX_DIGEST256_LEN + 1) server_hash in
  let* server_nonce_encoded := base16_encode (2 * SAFECOOKIE_SERVER_NONCE_LEN + 1) server_nonce in
  Ok (set_cookie (authentication_cookie_is_set g) (authentication_cookie g) (S (rand_calls g)) g,
      send (control_write_endreply 250 (s2b "AUTHCHALLENGE SERVERHASH=" ++ server_hash_encoded ++ s2b " SERVERNONCE=" ++ server_nonce_encoded)) c, 0).

Definition handle_control_authchallenge (g : globals) (c : conn) (a : control_cmd_args_t) : cres (globals * conn * Z) :=
  match args a with
  | [] => Bug
  | method :: _ =>
      if negb (strcasecmp method (s2b "SAFECOOKIE") =? 0) then fail 513 (s2b "AUTHCHALLENGE only supports SAFECOOKIE authentication") g c
      else if negb (authentication_cookie_is_set g) then fail 515 (s2b "Cookie authentication is disabled") g c
      else
        match kwargs a with
        | [line] =>
            if negb (strcmp (key line) [] =? 0) then fail 512 (s2b "AUTHCHALLENGE does not accept keyword arguments.") g c
            else
              let* contains_quote := has_quote (raw_body a) in
              let* nonce :=
                (if (contains_quote : bool) then Ok (Some (value line))
                 else
                   let client_nonce_len := zlen (value line) / 2 in
                   match base16_decode client_nonce_len (value line) with
                   | Ok n => Ok (if zlen n =? client_nonce_len then Some n else None)
                   | Err => Ok None
                   | Bug => Bug
                   | Fuel => Fuel
                   end) in
              match nonce with
              | None => fail 513 (s2b "Invalid base16 client nonce") g c
              | Some client_nonce =>
                  match authentication_cookie g with
                  | None => Bug
                  | Some cookie => challenge_client g c cookie client_nonce
                  end
              end
        | _ => fail 512 (s2b "Wrong number of arguments for AUTHCHALLENGE") g c
        end
  end.

(** ** AUTHENTICATE *)

(** The password and whether it was quoted, or the reply. *)
Definition given_password (a : control_cmd_args_t) : cres ((bytes * bool) + (Z * bytes)) :=
  match kwargs a with
  | [] => Ok (inl ([], false))
  | _ :: _ :: _ => Ok (inr (512, s2b "Too many arguments to AUTHENTICATE."))
  | [line] =>
      if negb (strcmp (key line) [] =? 0) then Ok (inr (512, s2b "AUTHENTICATE does not accept keyword arguments."))
      else
        let* quoted := has_quote (raw_body a) in
        if (quoted : bool) then Ok (inl (value line, true))
        else
          let password_len := zlen (value line) / 2 in
          let bad := inr (551, s2b "Invalid hexadecimal encoding.  Maybe you tried a plain text password?  If so, the standard requires that you put it in double quotes.") in
          match base16_decode (password_len + 1) (value line) with
          | Ok p => Ok (if zlen p =? password_len then inl (p, false) else bad)
          | Err => Ok bad
          | Bug => Bug
          | Fuel => Fuel
          end
  end.

(** The decoded passwords of the configuration, or [None] if [bad]. *)
Definition configured_passwords (g : globals) : cres (option (list bytes)) :=
  let* a := match HashedControlPassword g with [] => Ok (Some []) | l => decode_hashed_passwords l end in
  let* b := match HashedControlSessionPassword g with [] => Ok (Some []) | l => decode_hashed_passwords l end in
  Ok (match a, b with Some a, Some b => Some (a ++ b) | _, _ => None end).

Fixpoint password_matches (sl : list bytes) (password : bytes) : cres bool :=
  match sl with
  | [] => Ok false
  | expected :: sl =>
      let* received := secret_to_key_rfc2440 DIGEST_LEN password expected in
      if bytes_eqb (take (Z.to_nat DIGEST_LEN) (drop (Z.to_nat S2K_RFC2440_SPECIFIER_LEN) expected)) received then Ok true else password_matches sl password
  end.

Definition no_match_msg (used_quoted_string : bool) : bytes :=
  if used_quoted_string then s2b "Password did not match HashedControlPassword value from configuration"
  else s2b "Password did not match HashedControlPassword value from configuration. Maybe you tried a plain text password? If so, the standard requires that you put it in double quotes.".

Definition have_password (g : globals) : bool :=
  match HashedControlPassword g, HashedControlSessionPassword g with [], [] => false | _, _ => true end.

(** From the test of the passwords on: [None] for [goto ok], and the message for [goto err]. *)
Definition check_passwords (g : globals) (password : bytes) (used_quoted_string bad_cookie : bool) : cres (option bytes) :=
  let both_failed (bad_password : bool) :=
    assert! (bad_password && bad_cookie);
    Ok (Some (s2b "Password did not match HashedControlPassword *or* authentication cookie.")) in
  if have_password g then
    let also_cookie := CookieAuthentication g in
    let* sl := configured_passwords g in
    match sl with
    | None => if negb also_cookie then Ok (Some (s2b "Couldn't decode HashedControlPassword value in configuration.")) else both_failed true
    | Some sl =>
        let* found := password_matches sl password in
        if (found : bool) then Ok None
        else if negb also_cookie then Ok (Some (no_match_msg used_quoted_string))
        else both_failed true
    end
  else both_failed false.

Definition check_cookie (g : globals) (password : bytes) (used_quoted_string : bool) : cres (option bytes) :=
  if negb (CookieAuthentication g) && negb (have_password g) then Ok None
  else if CookieAuthentication g then
    let also_password := have_password g in
    if negb (zlen password =? AUTHENTICATION_COOKIE_LEN) then
      if negb also_password then Ok (Some (s2b "Wrong length on authentication cookie.")) else check_passwords g password used_quoted_string true
    else
      match authentication_cookie g with
      | None => Bug
      | Some cookie =>
          if negb (bytes_eqb (take (length password) cookie) password) then
            if negb also_password then Ok (Some (s2b "Authentication cookie did not match expected value.")) else check_passwords g password used_quoted_string true
          else Ok None
      end
  else check_passwords g password used_quoted_string false.

Definition check_authentication (g : globals) (challenge : option bytes) (password : bytes) (used_quoted_string : bool) : cres (option bytes) :=
  match challenge with
  | Some hash =>
      assert! (authentication_cookie_is_set g);
      if negb (zlen password =? DIGEST256_LEN) then Ok (Some (s2b "Wrong length for safe cookie response."))
      else if negb (bytes_eqb hash password) then Ok (Some (s2b "Safe cookie response did not match expected value."))
      else Ok None
  | None => check_cookie g password used_quoted_string
  end.

Definition handle_control_authenticate (g : globals) (c : conn) (a : control_cmd_args_t) : cres (globals * conn * Z) :=
  let* p := given_password a in
  match p with
  | inr (code, msg) => Ok (g, connection_mark_for_close (send (control_write_endreply code msg) c), 0)
  | inl (password, used_quoted_string) =>
      let* verdict := check_authentication g (safecookie_client_hash c) password used_quoted_string in
      match verdict with
      | Some errstr => Ok (g, connection_mark_for_close (send (control_write_endreply 515 (s2b "Authentication failed: " ++ errstr)) c), 0)
      | None => Ok (control_add_authenticated_connection (conn_id c) g, set_state CONTROL_CONN_STATE_OPEN (send send_control_done (set_hash None c)), 0)
      end
  end.

(** ** PROTOCOLINFO *)

(** The version and the escaped name of the cookie file. *)
Variable VERSION : bytes.
Variable cookie_file : bytes.

Definition get_authmethods (g : globals) : cres bytes :=
  let cookies := CookieAuthentication g in
  let passwd := have_password g in
  smartlist_join_strings ((if cookies then [s2b "COOKIE"; s2b "SAFECOOKIE"] else []) ++ (if passwd then [s2b "HASHEDPASSWORD"] else []) ++ (if negb cookies && negb passwd then [s2b "NULL"] else [])) [44] false.

Definition get_esc_cfile (g : globals) : cres (option bytes) :=
  if negb (CookieAuthentication g) then Ok None else let* e := esc_for_log (Some cookie_file) in Ok (Some e).

Definition add_authmethods (g : globals) (reply : list control_reply_line_t) : cres (list control_reply_line_t) :=
  let* methods := get_authmethods g in
  let* esc_cfile := get_esc_cfile g in
  let reply := control_reply_add_str reply 250 (s2b "AUTH") in
  let* reply := control_reply_append_kv reply (s2b "METHODS") methods in
  match esc_cfile with
  | Some e => control_reply_append_kv reply (s2b "COOKIEFILE") e
  | None => Ok reply
  end.

Definition handle_control_protocolinfo (g : globals) (c : conn) (a : control_cmd_args_t) : cres (globals * conn * Z) :=
  let c := set_protocolinfo c in
  match List.find (fun arg => negb (p_ok (tor_parse_long arg 10 0 LONG_MAX false))) (args a) with
  | Some bad_arg =>
      let* e := esc_for_log (Some bad_arg) in
      let c := send (control_write_endreply 513 (s2b "No such version " ++ e)) c in
      Ok (g, if bool_decide (c_state c = CONTROL_CONN_STATE_OPEN) then c else connection_mark_for_close c, 0)
  | None =>
      let reply := control_reply_add_str [] 250 (s2b "PROTOCOLINFO 1") in
      let* reply := add_authmethods g reply in
      let reply := control_reply_add_str reply 250 (s2b "VERSION") in
      let* v := esc_for_log (Some VERSION) in
      let* reply := control_reply_append_kv reply (s2b "Tor") v in
      let* s := control_write_reply_lines (control_reply_add_done reply) in
      Ok (g, send s c, 0)
  end.

(** ** Commands that were removed *)

Definition handle_control_obsolete (current_cmd : bytes) (g : globals) (c : conn) : cres (globals * conn * Z) :=
  Ok (g, send (control_write_endreply 511 (tor_strupper current_cmd ++ s2b " is obsolete.")) c, 0).

End Handlers.

(** ** Who is let in *)

(** The cookie is there whenever the code relies on it. *)
Definition globals_ok (g : globals) : Prop :=
  authentication_cookie_is_set g = true \/ CookieAuthentication g = true -> exists ck, authentication_cookie g = Some ck /\ zlen ck = AUTHENTICATION_COOKIE_LEN.

(** A challenge is only open while cookies are enabled. *)
Definition challenge_ok (g : globals) (challenge : option bytes) : Prop :=
  match challenge with Some h => authentication_cookie_is_set g = true /\ zlen h = DIGEST256_LEN | None => True end.

(** The answer to the challenge, if there was one; otherwise nothing is asked for, or it is the cookie, or the hash of it is one of those in the configuration. *)
Definition accepts (g : globals) (challenge : option bytes) (password : bytes) : Prop :=
  match challenge with
  | Some h => password = h
  | None =>
      (CookieAuthentication g = false /\ have_password g = false) \/
      (CookieAuthentication g = true /\ authentication_cookie g = Some password) \/
      (exists sl e, configured_passwords g = Ok (Some sl) /\ e ∈ sl /\ secret_to_key_rfc2440 DIGEST_LEN password e = Ok (drop 9 e))
  end.

Lemma s2k_loop_total tmp fuel : forall count d, tmp <> [] -> 0 <= count -> (Z.to_nat count < fuel)%nat -> exists r, s2k_loop fuel tmp count d = Ok r.
Proof.
  induction fuel as [|fuel IH]; intros count d Ht Hc Hf; [lia|]. cbn [s2k_loop]. destruct (Z.eqb_spec count 0); [by eexists|]. assert (0 < zlen tmp) by (destruct tmp; [done|rewrite zlen_cons; pose proof (zlen_nonneg tmp); lia]).
  destruct (Z.leb_spec (zlen tmp) count); [apply IH; [done|lia|lia]|]. apply IH; [done|lia|lia].
Qed.

Lemma s2k_total n secret spec : n < SIZE_T_CEILING -> 9 <= zlen spec -> exists k, secret_to_key_rfc2440 n secret spec = Ok k.
Proof.
  intros Hn Hs. unfold secret_to_key_rfc2440. rewrite (proj2 (Z.ltb_lt _ _)) by done. assert (exists b, aget spec 8 = Ok b) as [b ->].
  { do 9 (destruct spec as [|? spec]; [zlia|]). by eexists. }
  cbn [cbind]. set (count := Z.shiftl _ _). assert (0 <= count) as Hc by (unfold count; apply Z.shiftl_nonneg; pose proof (Z.land_nonneg (u8 b) 15); lia).
  destruct (s2k_loop_total (take 8 spec ++ secret) (S (S (Z.to_nat count))) count []) as [r ->]; [|done|lia|by eexists]. destruct spec; [zlia|done].
Qed.

(** Decoding always answers, with specifiers and keys of the right length. *)
Lemma decode_hashed_total ps : decode_hashed_lines ps = Ok None \/ exists sl, decode_hashed_lines ps = Ok (Some sl) /\ Forall (fun e => zlen e = 29) sl.
Proof.
  induction ps as [|cl ps IH]; cbn [decode_hashed_lines]; [right; by exists []|]. set (m := if _ =? 0 then _ else _). assert (m = Ok None \/ exists d, m = Ok (Some d) /\ zlen d = 29) as [->|(d & -> & Hd)].
  { subst m. unfold S2K_RFC2440_SPECIFIER_LEN, DIGEST_LEN. destruct (strcmpstart (value cl) (s2b "16:") =? 0).
    - destruct (base16_decode_total 64 (drop 3 (value cl))) as [->|(d & -> & _)]; [by left|]. destruct (Z.eqb_spec (zlen d) (9 + 20)); [|by left]. destruct (_ =? (9 + 20) * 2); [right; by exists d|by left].
    - destruct (base64_decode_total 64 (value cl)) as [->|(d & ->)]; [done|by left|]. destruct (Z.eqb_spec (zlen d) (9 + 20)); [right; by exists d|by left]. }
  { by left. }
  cbn [cbind]. destruct IH as [->|(sl & -> & Hsl)]; cbn [cbind]; [by left|]. right. exists (d :: sl). split; [done|by constructor].
Qed.

Lemma configured_total g : configured_passwords g = Ok None \/ exists sl, configured_passwords g = Ok (Some sl) /\ Forall (fun e => zlen e = 29) sl.
Proof.
  unfold configured_passwords. assert ((match HashedControlPassword g with [] => Ok (Some []) | l => decode_hashed_passwords l end) = decode_hashed_lines (HashedControlPassword g)) as -> by (by destruct (HashedControlPassword g)).
  assert ((match HashedControlSessionPassword g with [] => Ok (Some []) | l => decode_hashed_passwords l end) = decode_hashed_lines (HashedControlSessionPassword g)) as -> by (by destruct (HashedControlSessionPassword g)).
  destruct (decode_hashed_total (HashedControlPassword g)) as [->|(a & -> & Ha)], (decode_hashed_total (HashedControlSessionPassword g)) as [->|(b & -> & Hb)]; cbn [cbind]; [by left..|]. right. exists (a ++ b). split; [done|]. by apply Forall_app.
Qed.

Lemma password_matches_spec sl p : Forall (fun e => zlen e = 29) sl ->
  exists b, password_matches sl p = Ok b /\ (b = true <-> exists e, e ∈ sl /\ secret_to_key_rfc2440 DIGEST_LEN p e = Ok (drop 9 e)).
Proof.
  induction 1 as [|e sl He _ (b & E & Hb)]; cbn [password_matches]; [exists false; split; [done|]; split; [done|]; intros (e & H & _); by apply not_elem_of_nil in H|].
  destruct (s2k_total DIGEST_LEN p e) as [k Ek]; [done|lia|]. rewrite Ek. cbn [cbind]. change (Z.to_nat S2K_RFC2440_SPECIFIER_LEN) with 9%nat. rewrite take_ge by (rewrite length_drop; unfold zlen in He; change (Z.to_nat DIGEST_LEN) with 20%nat; lia).
  destruct (bytes_eqb (drop 9 e) k) eqn:Eq.
  - apply bytes_eqb_eq in Eq. exists true. split; [done|]. split; [|done]. intros _. exists e. split; [by left|]. by rewrite Ek, Eq.
  - exists b. split; [done|]. rewrite Hb. split; intros (e' & Hin & Hk); exists e'; (split; [|done]); [by right|]. apply elem_of_cons in Hin as [->|Hin]; [|done]. rewrite Ek in Hk. injection Hk as Hk. by rewrite Hk, bytes_eqb_refl in Eq.
Qed.

Lemma have_password_none g : have_password g = false -> configured_passwords g = Ok (Some []).
Proof. unfold have_password, configured_passwords. by destruct (HashedControlPassword g), (HashedControlSessionPassword g). Qed.

Definition hash_listed (g : globals) (p : bytes) : Prop :=
  exists sl e, configured_passwords g = Ok (Some sl) /\ e ∈ sl /\ secret_to_key_rfc2440 DIGEST_LEN p e = Ok (drop 9 e).

Lemma check_passwords_spec g p q bad : have_password g = true -> (CookieAuthentication g = true -> bad = true) ->
  exists v, check_passwords g p q bad = Ok v /\ (v = None <-> hash_listed g p).
Proof.
  intros Hp Hb. unfold check_passwords, hash_listed. rewrite Hp. destruct (configured_total g) as [->|(sl & -> & Hsl)]; cbn [cbind].
  - destruct (CookieAuthentication g); cbn [negb]; [rewrite (Hb eq_refl)|]; (eexists; split; [done|]; split; [done|]; by intros (sl & e & [=] & _)).
  - destruct (password_matches_spec sl p Hsl) as (b & -> & Hbs). cbn [cbind]. assert (b = true <-> exists sl' e, Ok (Some sl) = Ok (Some sl') /\ e ∈ sl' /\ secret_to_key_rfc2440 DIGEST_LEN p e = Ok (drop 9 e)) as Hs.
    { rewrite Hbs. split; [intros (e & ? & ?); by exists sl, e|]. intros (sl' & e & [= <-] & ? & ?). by exists e. }
    destruct b; [exists None; split; [done|]; split; [intros _; by apply Hs|done]|]. destruct (CookieAuthentication g); cbn [negb]; [rewrite (Hb eq_refl)|]; (eexists; split; [done|]; split; [done|]; intros H%Hs; done).
Qed.

Lemma check_cookie_spec g p q : globals_ok g -> exists v, check_cookie g p q = Ok v /\ (v = None <-> accepts g None p).
Proof.
  intros Hg. unfold check_cookie, accepts. fold (hash_listed g p). assert (have_password g = false -> ~ hash_listed g p) as Hnone.
  { intros Hp (sl & e & E & Hin & _). rewrite have_password_none in E by done. injection E as <-. by apply not_elem_of_nil in Hin. }
  destruct (CookieAuthentication g) eqn:Ec; cbn [negb andb].
  - destruct Hg as (ck & Eck & Hck); [by right|]. rewrite Eck. assert (forall v : option bytes, (v = None <-> hash_listed g p) -> p <> ck -> v = None <-> (true = false /\ have_password g = false) \/ (true = true /\ Some ck = Some p) \/ hash_listed g p) as Hv.
    { intros v Hv Hne. rewrite Hv. split; [by right; right|]. intros [[? _]|[[_ [= ->]]|?]]; done. }
    assert (forall msg, p <> ck -> exists v, (if negb (have_password g) then Ok (Some msg) else check_passwords g p q true) = Ok v /\ (v = None <-> (true = false /\ have_password g = false) \/ (true = true /\ Some ck = Some p) \/ hash_listed g p)) as Hor.
    { intros msg Hne. destruct (have_password g) eqn:Hp; cbn [negb].
      - destruct (check_passwords_spec g p q true Hp) as (v & -> & H); [done|]. exists v. split; [done|]. specialize (Hv v H Hne). exact Hv.
      - eexists. split; [done|]. split; [done|]. intros [[? _]|[[_ [= ->]]|?]]; [done|done|]. by apply Hnone in H. }
    destruct (Z.eqb_spec (zlen p) AUTHENTICATION_COOKIE_LEN) as [Hl|Hl]; cbn [negb]; [|apply Hor; by intros ->]. rewrite take_ge by (unfold zlen in *; lia).
    destruct (bytes_eqb ck p) eqn:Eq; cbn [negb]; [apply bytes_eqb_eq in Eq as ->; exists None; split; [done|]; split; [intros _; by right; left|done]|]. apply Hor. intros ->. by rewrite bytes_eqb_refl in Eq.
  - destruct (have_password g) eqn:Hp; cbn [negb]; [|exists None; split; [done|]; split; [intros _; by left|done]].
    destruct (check_passwords_spec g p q false Hp) as (v & -> & H); [by rewrite Ec|]. exists v. split; [done|]. rewrite H. split; [by right; right|]. intros [[_ ?]|[[? _]|?]]; done.
Qed.

Lemma check_authentication_spec g ch p q : globals_ok g -> challenge_ok g ch -> exists v, check_authentication g ch p q = Ok v /\ (v = None <-> accepts g ch p).
Proof.
  intros Hg Hc. destruct ch as [h|]; [|by apply check_cookie_spec]. destruct Hc as [Hset Hh]. unfold check_authentication. rewrite Hset. cbn [accepts].
  destruct (Z.eqb_spec (zlen p) DIGEST256_LEN) as [Hl|Hl]; cbn [negb]; [|eexists; split; [done|]; split; [done|]; by intros ->].
  destruct (bytes_eqb h p) eqn:Eq; cbn [negb]; [apply bytes_eqb_eq in Eq as ->; by exists None|]. eexists. split; [done|]. split; [done|]. intros ->. by rewrite bytes_eqb_refl in Eq.
Qed.

Lemma given_password_total a : raw_body a <> None -> exists p, given_password a = Ok p.
Proof.
  intros Hr. unfold given_password. destruct (kwargs a) as [|line [|]]; [by eexists| |by eexists]. destruct (negb _); [by eexists|]. unfold has_quote. destruct (raw_body a) as [r|]; [|done]. cbn [cbind]. destruct (strchr r 34); [by eexists|].
  destruct (base16_decode_total (zlen (value line) / 2 + 1) (value line)) as [->|(o & -> & _)]; [by eexists|]. destruct (_ =? _); by eexists.
Qed.

Section Decides.
Context {B : Type}.
Implicit Types c : control_connection_t B.

(** C10. As long as cookies are still enabled when a challenge is open ([challenge_ok]; [cookie_disabled_aborts] shows what happens otherwise), AUTHENTICATE answers and opens the connection exactly when it is given what the configuration asks for: the answer to the challenge; or else the cookie or a password whose hash is listed, or anything when neither cookies nor passwords are configured.  Otherwise a reply is sent and the connection is closed, and nothing else of the connection and of the global state changes. *)
Theorem authentication_decides g c a :
  globals_ok g -> challenge_ok g (safecookie_client_hash c) -> raw_body a <> None ->
  exists g' c', handle_control_authenticate g c a = Ok (g', c', 0) /\
    ((exists p q, given_password a = Ok (inl (p, q)) /\ accepts g (safecookie_client_hash c) p) /\
       c_state c' = CONTROL_CONN_STATE_OPEN /\ marked_for_close c' = marked_for_close c /\ outbuf c' = outbuf c ++ s2b "250 OK" ++ CRLF /\ conn_id c ∈ control_auth_conns g'
     \/ (forall p q, given_password a = Ok (inl (p, q)) -> ~ accepts g (safecookie_client_hash c) p) /\
       g' = g /\ exists reply, c' = connection_mark_for_close (send reply c)).
Proof.
  intros Hg Hc Hr. unfold handle_control_authenticate. destruct (given_password_total a Hr) as [[[p q]|[code msg]] Ep]; rewrite Ep; cbn [cbind].
  - destruct (check_authentication_spec g (safecookie_client_hash c) p q Hg Hc) as (v & -> & Hv). cbn [cbind]. destruct v as [errstr|].
    + eexists _, _. split; [done|]. right. split_and!; [|done|by eexists]. intros p' q' [= -> ->] Ha%Hv. done.
    + eexists _, _. split; [done|]. left. split; [exists p, q; split; [done|by apply Hv]|]. split_and!; [done|done|done|]. cbn [control_auth_conns control_add_authenticated_connection set_auth_conns]. apply elem_of_app. right. by left.
  - eexists _, _. split; [done|]. right. split_and!; [|done|by eexists]. by intros p q [=].
Qed.

(** ** The handlers answer *)

Lemma protocolinfo_total VERSION cookie_file g c a : exists c', handle_control_protocolinfo VERSION cookie_file g c a = Ok (g, c', 0) /\ inbuf c' = inbuf c /\ incoming_cmd c' = incoming_cmd c /\ incoming_cmd_len c' = incoming_cmd_len c.
Proof.
  unfold handle_control_protocolinfo. destruct (List.find _ _) as [arg|]; [rewrite esc_for_log_ok; cbn [cbind]; destruct (bool_decide _); eexists; split_and!; done|].
  unfold add_authmethods, get_authmethods, smartlist_join_strings. rewrite join_strings2_total. cbn [cbind]. assert (exists o, get_esc_cfile cookie_file g = Ok o) as [o ->] by (unfold get_esc_cfile; destruct (negb _); [by eexists|]; rewrite esc_for_log_ok; by eexists).
  rewrite !esc_for_log_ok. destruct o as [e|]; cbn -[control_write_reply_lines join_fill];
    match goal with |- context [control_write_reply_lines ?l] => destruct (raw_reply l) as [s ->] end; try (eexists; split_and!; done);
    repeat (apply List.Forall_cons; [split_and!; [reflexivity|repeat (apply List.Forall_cons; [first [by left|by right]|]); apply List.Forall_nil|reflexivity]|]); apply List.Forall_nil.
Qed.

Hypothesis hmac_sha256_length : forall k m, zlen (hmac_sha256 k m) = DIGEST256_LEN.
Hypothesis crypto_rand_length : forall n l, 0 <= l -> zlen (crypto_rand n l) = l.

Lemma authchallenge_total g c a : globals_ok g -> args a <> [] -> raw_body a <> None ->
  exists g' c' r, handle_control_authchallenge g c a = Ok (g', c', r) /\ globals_ok g' /\ (challenge_ok g (safecookie_client_hash c) -> challenge_ok g' (safecookie_client_hash c')) /\
    inbuf c' = inbuf c /\ incoming_cmd c' = incoming_cmd c /\ incoming_cmd_len c' = incoming_cmd_len c.
Proof using hmac_sha256_length crypto_rand_length.
  intros Hg Ha Hr. unfold handle_control_authchallenge, fail. destruct (args a) as [|method rest]; [done|].
  assert (forall code msg, exists g' c' r, Ok (g, connection_mark_for_close (send (control_write_endreply code msg) c), -1) = Ok (g', c', r) /\ globals_ok g' /\ (challenge_ok g (safecookie_client_hash c) -> challenge_ok g' (safecookie_client_hash c')) /\
    inbuf c' = inbuf c /\ incoming_cmd c' = incoming_cmd c /\ incoming_cmd_len c' = incoming_cmd_len c) as Hfail by (intros; eexists _, _, _; split_and!; done).
  destruct (negb _); [apply Hfail|]. destruct (authentication_cookie_is_set g) eqn:Eset; cbn [negb]; [|apply Hfail]. destruct (kwargs a) as [|line [|]]; [apply Hfail| |apply Hfail]. destruct (negb _); [apply Hfail|].
  unfold has_quote. destruct (raw_body a) as [raw|]; [|done]. cbn [cbind]. match goal with |- context [cbind ?m _] => assert (exists n, m = Ok n) as [[nonce|] ->] end; cbn [cbind]; [| |apply Hfail].
  { destruct (strchr raw 34); [by eexists|]. destruct (base16_decode_total (zlen (value line) / 2) (value line)) as [->|(n & -> & _)]; [by eexists|]. destruct (_ =? _); by eexists. }
  destruct Hg as (ck & Eck & Hck); [by left|]. rewrite Eck. unfold challenge_client, base16_encode. rewrite !hmac_sha256_length, !crypto_rand_length by done. cbn [cbind Z.ltb Z.leb]. eexists _, _, _. split; [reflexivity|].
  cbn [challenge_ok safecookie_client_hash set_hash send authentication_cookie_is_set set_cookie]. split; [intros _; by exists ck|]. split; [intros _; by split|done].
Qed.

(** AUTHENTICATE answers unless cookies were disabled while a challenge was open. *)
Lemma authenticate_outcome g c a : globals_ok g -> raw_body a <> None ->
  (exists g' c', handle_control_authenticate g c a = Ok (g', c', 0) /\ globals_ok g' /\ (challenge_ok g (safecookie_client_hash c) -> challenge_ok g' (safecookie_client_hash c')) /\
    inbuf c' = inbuf c /\ incoming_cmd c' = incoming_cmd c /\ incoming_cmd_len c' = incoming_cmd_len c)
  \/ handle_control_authenticate g c a = Bug /\ authentication_cookie_is_set g = false /\ safecookie_client_hash c <> None.
Proof.
  intros Hg Hr. unfold handle_control_authenticate. destruct (given_password_total a Hr) as [[[p q]|[code msg]] Ep]; rewrite Ep; cbn [cbind]; [|left; eexists _, _; split_and!; done].
  assert ((exists v, check_authentication g (safecookie_client_hash c) p q = Ok v) \/ check_authentication g (safecookie_client_hash c) p q = Bug /\ authentication_cookie_is_set g = false /\ safecookie_client_hash c <> None) as [[v ->]|(-> & ? & ?)].
  - unfold check_authentication. destruct (safecookie_client_hash c) as [h|]; [|left; destruct (check_cookie_spec g p q Hg) as (v & -> & _); by exists v]. destruct (authentication_cookie_is_set g); [|by right]. left. destruct (negb _); [by eexists|]. destruct (negb _); by eexists.
  - left. cbn [cbind]. destruct v; eexists _, _; split_and!; done.
  - by right.
Qed.

(** Disabling cookies while a challenge is open makes the next AUTHENTICATE of that connection abort the process, whatever password it brings. *)
Theorem cookie_disabled_aborts g c a p q h written :
  safecookie_client_hash c = Some h -> given_password a = Ok (inl (p, q)) ->
  handle_control_authenticate (fst (init_control_cookie_authentication false written g)) c a = Bug.
Proof. intros Hh Hp. unfold handle_control_authenticate. by rewrite Hp, Hh. Qed.

End Decides.
End Crypto.

(** ** Examples *)

Definition byte_sum (s : bytes) : Z := u8 (fold_right Z.add 0 s).
Definition toy_sha1 (s : bytes) : bytes := repeat (byte_sum s) 20.
Definition toy_hmac (k m : bytes) : bytes := repeat (byte_sum (k ++ m)) 32.
Definition toy_expand (_ _ _ : bytes) (n : Z) : bytes := repeat 0 (Z.to_nat n).
Definition toy_rand (n : nat) (l : Z) : bytes := repeat (u8 (Z.of_nat n)) (Z.to_nat l).

Lemma toy_hmac_length k m : zlen (toy_hmac k m) = DIGEST256_LEN.
Proof. apply (zlen_repeat _ 32). Qed.

Lemma toy_rand_length n l : 0 <= l -> zlen (toy_rand n l) = l.
Proof. intros Hl. unfold toy_rand. rewrite zlen_repeat. lia. Qed.

(** The hash of the password [pw] with a salt. *)
Definition ex_spec : bytes := [1; 2; 3; 4; 5; 6; 7; 8; 0].
Definition ex_key : bytes := match secret_to_key_rfc2440 toy_sha1 toy_expand 20 (s2b "pw") ex_spec with Ok k => k | _ => [] end.
Definition ex_globals : globals := mkglobals true [mkline (s2b "HashedControlPassword") (s2b "16:" ++ encode_loop (ex_spec ++ ex_key))] [] true (Some (repeat 7 32)) [] false 0.
Definition ex_conn (b : bytes) : control_connection_t bytes := mkconn 3 CONTROL_CONN_STATE_NEEDAUTH false None false true b [] None 0.
Definition ex_args (quoted : bytes) : control_cmd_args_t := mkargs (s2b "AUTHENTICATE") [] [mkline [] quoted] None (Some ([34] ++ quoted ++ [34])).

Lemma ex_globals_ok : globals_ok ex_globals.
Proof. intros _. exists (repeat 7 32). split; reflexivity. Qed.

Lemma authentication_decides_witness :
  exists g' c', handle_control_authenticate toy_sha1 toy_expand ex_globals (ex_conn []) (ex_args (s2b "pw")) = Ok (g', c', 0) /\ c_state c' = CONTROL_CONN_STATE_OPEN.
Proof.
  destruct (authentication_decides toy_sha1 toy_expand ex_globals (ex_conn []) (ex_args (s2b "pw"))) as (g' & c' & E & Hor); [exact ex_globals_ok|exact I|discriminate|].
  exists g', c'. split; [exact E|]. vm_compute in E. injection E as <- <-. reflexivity.
Defined.

(** The connection of a client that has asked for a challenge. *)
Definition ex_challenged : control_connection_t bytes :=
  match handle_control_authchallenge toy_hmac toy_rand ex_globals (ex_conn []) (mkargs (s2b "AUTHCHALLENGE") [s2b "SAFECOOKIE"] [mkline [] (s2b "00ff")] None (Some (s2b "SAFECOOKIE 00ff"))) with Ok (_, c, _) => c | _ => ex_conn [] end.

Lemma cookie_disabled_aborts_witness :
  safecookie_client_hash ex_challenged <> None /\ handle_control_authenticate toy_sha1 toy_expand (fst (init_control_cookie_authentication toy_rand false true ex_globals)) ex_challenged (ex_args (s2b "x")) = Bug.
Proof. split; [vm_compute; discriminate|]. eapply cookie_disabled_aborts; vm_compute; reflexivity. Defined.
