(* ===== verification/CtrlConn.v ===== *)
(** * Control connections

    Models [connection_control_process_inbuf] of feature/control/control.c with the tests of core/proto/proto_control0.c and proto_http.c, and the dispatch of feature/control/control_cmd.c: from the bytes that arrive on a connection to the
    calls of the handlers.  The handlers of CtrlAuth are those that the code runs before a connection is authenticated; the others are a parameter, a function on the global state and the connection.

    The input buffer is anything that offers the operations of [LineQueue]; the chunked buffers of [Buffers] and byte strings do.  The log of the handlers that were called is not in the code: the theorems are about it.

    The bounds of the loops: a command is read line by line, and every round takes a line from the buffer; [incoming_cmd_len] is doubled at most 32 times before it wraps. *)

From S2P Require Import Prelude CString UtilString StrList Binascii Buffers ByteQueue Escapes KvLine CtrlData CtrlCmd CtrlAuth.
From Stdlib Require Import ZArith String.
From stdpp Require Import base list numbers sorting relations.
Open Scope Z_scope.

(** ** Reading lines from a buffer *)

Class LineQueue (B : Type) `{ByteQueue B} := {
  q_get_line : B -> Z -> cres (B * line_result);
  q_peek_startswith : B -> bytes -> cres bool
}.

Class LineQueueLaws (B : Type) `{LineQueue B} : Prop := {
  line_queue_laws :: ByteQueueLaws B;
  q_get_line_ok b s n : q_holds b s -> exists b', q_get_line b n = Ok (b', fst (line_spec s n)) /\ q_holds b' (snd (line_spec s n));
  q_peek_startswith_ok b s cmd : q_holds b s -> zlen cmd <= PEEK_BUF_STARTSWITH_MAX -> q_peek_startswith b cmd = Ok (prefix_of cmd s)
}.

#[export] Instance list_line_queue : LineQueue bytes := {
  q_get_line b n := Ok (snd (line_spec b n), fst (line_spec b n));
  q_peek_startswith b cmd := Ok (prefix_of cmd b)
}.

#[export] Instance list_line_laws : LineQueueLaws bytes.
Proof. split; [apply _| |]; cbn; [intros b s n ->; eauto|by intros b s cmd ->]. Qed.

Section Chunked.
Variable junk : Z.
#[local] Existing Instance chunked_queue.

#[local] Instance chunked_line_queue : LineQueue (alloc_t * buf_t) (H := chunked_queue junk) := {
  q_get_line '(g, b) n := let* (g, b, r) := buf_get_line g b n in Ok (g, b, r);
  q_peek_startswith '(g, b) cmd := buf_peek_startswith b cmd
}.

#[local] Instance chunked_line_laws : LineQueueLaws (alloc_t * buf_t) (H := chunked_queue junk).
Proof.
  split; [apply chunked_laws| |]; cbn.
  - intros [g b] s n [Hok <-]. destruct (buf_get_line_spec g b n Hok) as (g' & b' & -> & [H1 H2 _ _]). by exists (g', b').
  - intros [g b] s cmd [Hok <-] Hc. by apply (buf_peek_startswith_spec g).
Qed.

End Chunked.

(** ** Foreign protocols *)

Section Conn.
Context {B : Type} `{LineQueue B}.
Abbreviation conn := (control_connection_t B).

Definition peek_buf_has_control0_command (buf : B) : cres bool :=
  if 4 <=? q_datalen buf then
    let* header := q_peek buf 4 in
    let cmd := nth 2 header 0 * 256 + nth 3 header 0 in
    Ok (cmd <=? 0x14)
  else Ok false.

Fixpoint starts_with_any (buf : B) (cmds : list bytes) : cres bool :=
  match cmds with
  | [] => Ok false
  | cmd :: cmds => let* b := q_peek_startswith buf cmd in if (b : bool) then Ok true else starts_with_any buf cmds
  end.

Definition peek_buf_has_http_command (buf : B) : cres bool :=
  starts_with_any buf [s2b "CONNECT "; s2b "DELETE "; s2b "GET "; s2b "POST "; s2b "PUT "].

(** The page that a browser gets, and what the stack holds behind the message for the old protocol: the length counts two bytes after the text, and only the NUL was written. *)
Variable CONTROLPORT_IS_NOT_AN_HTTP_PROXY_MSG : bytes.
Variable stack_byte : Z.

Definition v0_reject_text : bytes := s2b "The v0 control protocol is not supported by Tor 0.1.2.17 and later; upgrade your controller.".

Definition control_send_v0_reject (c : conn) : conn :=
  let body_len := 2 + zlen v0_reject_text + 2 in
  let buf := [body_len / 256; body_len mod 256; 0; 0; 0; 1] ++ v0_reject_text ++ [0; stack_byte] in
  connection_mark_for_close (send (take (Z.to_nat (4 + body_len)) buf) c).

Definition control_send_http_reject (c : conn) : conn := connection_mark_for_close (send CONTROLPORT_IS_NOT_AN_HTTP_PROXY_MSG c).

Definition needauth (c : conn) : bool := bool_decide (c_state c = CONTROL_CONN_STATE_NEEDAUTH).

(** The connection, and whether the protocol is valid. *)
Definition control_protocol_is_valid (c : conn) : cres (conn * bool) :=
  let* v0 := if needauth c then peek_buf_has_control0_command (inbuf c) else Ok false in
  if (v0 : bool) then Ok (control_send_v0_reject c, false)
  else
    let* http := if needauth c then peek_buf_has_http_command (inbuf c) else Ok false in
    if (http : bool) then Ok (control_send_http_reject c, false) else Ok (c, true).

(** ** Calling handlers *)

Definition is_valid_initial_command (c : conn) (cmd : bytes) : bool :=
  if bool_decide (c_state c = CONTROL_CONN_STATE_OPEN) then true
  else if strcasecmp cmd (s2b "PROTOCOLINFO") =? 0 then negb (have_sent_protocolinfo c) && match safecookie_client_hash c with None => true | _ => false end
  else if strcasecmp cmd (s2b "AUTHCHALLENGE") =? 0 then match safecookie_client_hash c with None => true | _ => false end
  else (strcasecmp cmd (s2b "AUTHENTICATE") =? 0) || (strcasecmp cmd (s2b "QUIT") =? 0).

(** A call of a handler, with the state that it was made in. *)
Record call := mkcall { ev_handler : handler_fn_t; ev_args : control_cmd_args_t; ev_globals : globals; ev_challenge : option bytes }.

Record world := mkworld { w_g : globals; w_c : conn; w_log : list call }.

Variable sha1 : bytes -> bytes.
Variable hmac_sha256 : bytes -> bytes -> bytes.
Variable expand_rfc5869 : bytes -> bytes -> bytes -> Z -> bytes.
Variable crypto_rand : nat -> Z -> bytes.
Variables VERSION cookie_file : bytes.

(** The handlers that are not modelled. *)
Variable other_handler : bytes -> control_cmd_args_t -> globals -> conn -> globals * conn * Z.

Definition run_handler (h : handler_fn_t) (current_cmd : bytes) (g : globals) (c : conn) (a : control_cmd_args_t) : cres (globals * conn * Z) :=
  match h with
  | handle_authenticate => handle_control_authenticate sha1 expand_rfc5869 g c a
  | handle_authchallenge => handle_control_authchallenge hmac_sha256 crypto_rand g c a
  | handle_protocolinfo => handle_control_protocolinfo VERSION cookie_file g c a
  | handle_obsolete => handle_control_obsolete current_cmd g c
  | handle_other n => Ok (other_handler n a g c)
  end.

(** The result of the handler is dropped: [rv] is 0 in any case. *)
Definition handle_single_control_command (def : control_cmd_def_t) (current_cmd : bytes) (w : world) (data : bytes) : cres (world * Z) :=
  let* parsed := control_cmd_parse_args current_cmd (syntax def) data in
  match parsed with
  | inr err => Ok (mkworld (w_g w) (send (control_write_endreply 512 (s2b "Bad arguments to " ++ current_cmd ++ s2b ": " ++ err)) (w_c w)) (w_log w), 0)
  | inl a =>
      let* (g, c, _) := run_handler (handler def) current_cmd (w_g w) (w_c w) a in
      Ok (mkworld g c (w_log w ++ [mkcall (handler def) a (w_g w) (safecookie_client_hash (w_c w))]), 0)
  end.

Definition handle_control_command (current_cmd : bytes) (w : world) (data : bytes) : cres (world * Z) :=
  match List.find (fun def => strcasecmp current_cmd (name def) =? 0) CONTROL_COMMANDS with
  | Some def => handle_single_control_command def current_cmd w data
  | None => Ok (mkworld (w_g w) (send (control_write_endreply 510 (s2b "Unrecognized command " ++ [34] ++ current_cmd ++ [34])) (w_c w)) (w_log w), 0)
  end.

(** ** Reading commands *)

Definition MAX_COMMAND_LINE_LENGTH : Z := 1024 * 1024.

Fixpoint grow_loop (fuel : nat) (len need : Z) : cres Z :=
  match fuel with
  | O => Fuel
  | S fuel => if len <? need then grow_loop fuel (u32 (len * 2)) need else Ok len
  end.

Definition cmd_so_far (c : conn) : bytes := default [] (incoming_cmd c).

(** The [do ... while (r != 1)] loop: [None] where a line is not all here. *)
Fixpoint fetch_line (fuel : nat) (c : conn) : cres (conn * option bytes) :=
  match fuel with
  | O => Fuel
  | S fuel =>
      let cur_len := zlen (cmd_so_far c) in
      let* (b, r) := q_get_line (inbuf c) (incoming_cmd_len c - cur_len) in
      let c := set_input b (incoming_cmd c) (incoming_cmd_len c) c in
      match r with
      | LineIncomplete => Ok (c, None)
      | LineRead line => Ok (c, Some line)
      | LineTooLong data_len =>
          let c := if MAX_COMMAND_LINE_LENGTH <? data_len + cur_len
                   then connection_mark_for_close (connection_stop_reading (send (control_write_endreply 500 (s2b "Line too long.")) c)) else c in
          let* len := grow_loop 33 (incoming_cmd_len c) (data_len + cur_len) in
          fetch_line fuel (set_input (inbuf c) (incoming_cmd c) len c)
      end
  end.

(** The [while (1)] loop: whether a command is complete. *)
Fixpoint read_command (fuel : nat) (c : conn) : cres (conn * bool) :=
  match fuel with
  | O => Fuel
  | S fuel =>
      let* (c, r) := fetch_line 2 c in
      match r with
      | None => Ok (c, false)
      | Some line =>
          assert! (negb (zlen line =? 0));
          let before := cmd_so_far c in
          let whole := before ++ line in
          let with_cmd cmd := set_input (inbuf c) (Some cmd) (incoming_cmd_len c) c in
          if (length before =? 0)%nat && negb (cur whole =? 43) then Ok (with_cmd whole, true)
          else if bytes_eqb line [46; 13; 10] then Ok (with_cmd before, true)
          else if bytes_eqb line [46; 10] then Ok (with_cmd before, true)
          else read_command fuel (with_cmd whole)
      end
  end.

Definition set_conn (w : world) (c : conn) : world := mkworld (w_g w) c (w_log w).

(** One command: [Some] value to return, or [None] for [goto again]. *)
Definition process_command (w : world) : cres (world * option Z) :=
  let c := w_c w in
  let '(cmd, data) := control_split_incoming_command (cmd_so_far c) in
  let current_cmd := c_string cmd in
  if marked_for_close c then Ok (w, Some 0)
  else if strcasecmp current_cmd (s2b "QUIT") =? 0 then
    Ok (set_conn w (connection_mark_for_close (send (control_write_endreply 250 (s2b "closing connection")) c)), Some 0)
  else if needauth c && negb (is_valid_initial_command c current_cmd) then
    Ok (set_conn w (connection_mark_for_close (send (control_write_endreply 514 (s2b "Authentication required.")) c)), Some 0)
  else if UINT32_MAX <=? zlen data then
    Ok (set_conn w (connection_mark_for_close (send (control_write_endreply 500 (s2b "A 4GB command? Nice try.")) c)), Some 0)
  else
    let* (w, r) := handle_control_command current_cmd w data in
    if r <? 0 then Ok (w, Some (-1))
    else Ok (set_conn w (set_input (inbuf (w_c w)) (Some []) (incoming_cmd_len (w_c w)) (w_c w)), None).

Fixpoint process_loop (fuel : nat) (w : world) : cres (world * Z) :=
  match fuel with
  | O => Fuel
  | S fuel =>
      let* (c, complete) := read_command (S (Z.to_nat (q_datalen (inbuf (w_c w))))) (w_c w) in
      if (complete : bool) then
        let* (w, r) := process_command (set_conn w c) in
        match r with
        | Some r => Ok (w, r)
        | None => process_loop fuel w
        end
      else Ok (set_conn w c, 0)
  end.

Definition connection_control_process_inbuf (w : world) : cres (world * Z) :=
  let c := w_c w in
  let c := match incoming_cmd c with None => set_input (inbuf c) (Some []) 1024 c | Some _ => c end in
  let* (c, valid) := control_protocol_is_valid c in
  let w := set_conn w c in
  if (valid : bool) then process_loop (S (Z.to_nat (q_datalen (inbuf c)))) w else Ok (w, 0).

(** ** The gate *)

Definition before_auth (h : handler_fn_t) : Prop := h = handle_authenticate \/ h = handle_authchallenge \/ h = handle_protocolinfo.

(** The hash is what a client answers that knows the cookie of the time when AUTHCHALLENGE was called. *)
Definition challenged (log : list call) (h : bytes) : Prop :=
  exists k ck nonces, k ∈ log /\ ev_handler k = handle_authchallenge /\ authentication_cookie (ev_globals k) = Some ck /\
    h = hmac_sha256 SAFECOOKIE_CONTROLLER_TO_SERVER_CONSTANT (take (Z.to_nat AUTHENTICATION_COOKIE_LEN) ck ++ nonces).

(** An AUTHENTICATE with what was asked for, after the calls in [pre]. *)
Definition proven (pre : list call) (k : call) : Prop :=
  ev_handler k = handle_authenticate /\
  exists p q, given_password (ev_args k) = Ok (inl (p, q)) /\ accepts sha1 expand_rfc5869 (ev_globals k) (ev_challenge k) p /\ (forall h, ev_challenge k = Some h -> challenged pre h).

Definition authenticated (log : list call) : Prop := exists pre k post, log = pre ++ k :: post /\ proven pre k.

(** Every call of another handler comes after one. *)
Definition gate (log : list call) : Prop := forall pre k post, log = pre ++ k :: post -> before_auth (ev_handler k) \/ authenticated pre.

Record guarded (w : world) : Prop := mk_guarded {
  gd_globals : globals_ok (w_g w);
  gd_gate : gate (w_log w);
  gd_open : c_state (w_c w) = CONTROL_CONN_STATE_OPEN -> authenticated (w_log w);
  gd_challenge : authenticated (w_log w) \/ forall h, safecookie_client_hash (w_c w) = Some h -> challenged (w_log w) h
}.

Lemma authenticated_snoc log k : authenticated log -> authenticated (log ++ [k]).
Proof. intros (pre & a & post & -> & Hp). exists pre, a, (post ++ [k]). split; [lassoc|done]. Qed.

Lemma authenticated_here log k : proven log k -> authenticated (log ++ [k]).
Proof. intros Hp. by exists log, k, []. Qed.

Lemma challenged_snoc log k h : challenged log h -> challenged (log ++ [k]) h.
Proof. intros (a & ck & n & Hin & Hr). exists a, ck, n. split; [apply elem_of_app; by left|done]. Qed.

Lemma gate_snoc log k : gate log -> before_auth (ev_handler k) \/ authenticated log -> gate (log ++ [k]).
Proof.
  intros Hg Hk pre a post E. destruct post as [|b post _] using rev_ind.
  - apply app_inj_tail in E as [<- <-]. done.
  - change (a :: post ++ [b]) with ((a :: post) ++ [b]) in E. rewrite app_assoc in E. apply app_inj_tail in E as [-> _]. by apply (Hg pre a post).
Qed.

(** What may happen to a connection outside of the handlers. *)
Definition same_auth (c c' : conn) : Prop := c_state c' = c_state c /\ safecookie_client_hash c' = safecookie_client_hash c.

Lemma guarded_conn w c : guarded w -> same_auth (w_c w) c -> guarded (set_conn w c).
Proof. intros [H1 H2 H3 H4] [Es Eh]. split; cbn; rewrite ?Es, ?Eh; done. Qed.

Lemma fetch_same fuel : forall c c' r, fetch_line fuel c = Ok (c', r) -> same_auth c c'.
Proof.
  induction fuel as [|fuel IH]; intros c c' r; [done|]. cbn [fetch_line]. destruct (q_get_line _ _) as [[b [line| |n]]| | |]; [| | |done..]; cbn [cbind].
  - by intros [= <- <-].
  - by intros [= <- <-].
  - destruct (grow_loop _ _ _) as [len| | |]; [|done..]. cbn [cbind]. intros E%IH. destruct E as [E1 E2]. split; [rewrite E1|rewrite E2]; by destruct (_ <? _).
Qed.

Lemma read_same fuel : forall c c' r, read_command fuel c = Ok (c', r) -> same_auth c c'.
Proof.
  induction fuel as [|fuel IH]; intros c c' r; [done|]. cbn [read_command]. destruct (fetch_line 2 c) as [[c1 [line|]]| | |] eqn:Ef; [| |done..]; cbn [cbind]; apply fetch_same in Ef as [E1 E2].
  - destruct (negb (zlen line =? 0)); [|done]. destruct (_ && _); [by intros [= <- <-]|]. destruct (bytes_eqb _ _); [by intros [= <- <-]|]. destruct (bytes_eqb _ _); [by intros [= <- <-]|]. intros [E3 E4]%IH. split; [by rewrite E3|by rewrite E4].
  - by intros [= <- <-].
Qed.

Lemma authchallenge_effect g (c : conn) a g' c' r : handle_control_authchallenge hmac_sha256 crypto_rand g c a = Ok (g', c', r) ->
  c_state c' = c_state c /\ (globals_ok g -> globals_ok g') /\
  (safecookie_client_hash c' = safecookie_client_hash c \/
   exists ck nonces, authentication_cookie g = Some ck /\ safecookie_client_hash c' = Some (hmac_sha256 SAFECOOKIE_CONTROLLER_TO_SERVER_CONSTANT (take (Z.to_nat AUTHENTICATION_COOKIE_LEN) ck ++ nonces))).
Proof.
  unfold handle_control_authchallenge, fail. destruct (args a) as [|method rest]; [done|]. destruct (negb _); [intros [= <- <- <-]; split_and!; [done|done|by left]|].
  destruct (negb _); [intros [= <- <- <-]; split_and!; [done|done|by left]|]. destruct (kwargs a) as [|line [|]]; [intros [= <- <- <-]; split_and!; [done|done|by left]| |intros [= <- <- <-]; split_and!; [done|done|by left]].
  destruct (negb _); [intros [= <- <- <-]; split_and!; [done|done|by left]|]. destruct (has_quote _) as [b| | |]; [|done..]. cbn [cbind].
  match goal with |- context [cbind ?m _] => destruct m as [[nonce|]| | |] end; [| |done..]; cbn [cbind]; [|intros [= <- <- <-]; split_and!; [done|done|by left]].
  destruct (authentication_cookie g) as [ck|] eqn:Eck; [|done]. unfold challenge_client. destruct (base16_encode _ _) as [e1| | |]; [|done..]. cbn [cbind]. destruct (base16_encode _ _) as [e2| | |]; [|done..]. cbn [cbind].
  intros [= <- <- <-]. split_and!; [done|intros Hg Hc; by apply Hg|]. right. exists ck. eexists. split; [done|]. done.
Qed.

Lemma protocolinfo_effect g (c : conn) a g' c' r : handle_control_protocolinfo VERSION cookie_file g c a = Ok (g', c', r) -> g' = g /\ same_auth c c'.
Proof.
  unfold handle_control_protocolinfo. destruct (List.find _ _) as [arg|].
  - destruct (esc_for_log _) as [e| | |]; [|done..]. cbn [cbind]. destruct (bool_decide _); intros [= <- <- <-]; split_and!; done.
  - repeat match goal with |- cbind ?m _ = _ -> _ => destruct m; [|done..]; cbn [cbind] end. intros [= <- <- <-]. split_and!; done.
Qed.

Lemma check_sound g ch p q : globals_ok g -> check_authentication sha1 expand_rfc5869 g ch p q = Ok None -> accepts sha1 expand_rfc5869 g ch p.
Proof.
  intros Hg. destruct ch as [h|]; cbn [check_authentication accepts].
  - destruct (authentication_cookie_is_set g); [|done]. destruct (negb (zlen p =? _)); [done|]. destruct (bytes_eqb h p) eqn:E; [|done]. by apply bytes_eqb_eq in E.
  - intros E. destruct (check_cookie_spec sha1 expand_rfc5869 g p q Hg) as (v & E' & Hv). rewrite E in E'. injection E' as <-. by apply Hv.
Qed.

Lemma authenticate_effect g (c : conn) a g' c' r : globals_ok g -> handle_control_authenticate sha1 expand_rfc5869 g c a = Ok (g', c', r) ->
  globals_ok g' /\ (same_auth c c' \/ exists p q, given_password a = Ok (inl (p, q)) /\ accepts sha1 expand_rfc5869 g (safecookie_client_hash c) p).
Proof.
  intros Hg. unfold handle_control_authenticate. destruct (given_password a) as [[[p q]|[code msg]]| | |] eqn:Ep; [| |done..]; cbn [cbind]; [|intros [= <- <- <-]; split; [done|by left]].
  destruct (check_authentication _ _ _ _ _ _) as [[e|]| | |] eqn:Ec; [| |done..]; cbn [cbind]; intros [= <- <- <-]; (split; [done|]); [by left|]. right. exists p, q. split; [done|]. by apply (check_sound _ _ _ q).
Qed.

(** Comparing equal to a string is comparing like it. *)
Lemma strcmp_like a : forall b x, strcmp a b = 0 -> no_nul b -> no_nul x -> strcmp a x = strcmp b x.
Proof.
  induction a as [|u a IH]; intros b x E Hb Hx.
  - destruct Hb as [|v b Hv _]; [done|]. cbn [strcmp] in E. lia.
  - destruct Hb as [|v b Hv Hb].
    + cbn [strcmp] in E. assert (u = 0) as -> by lia. destruct Hx as [|y x Hy Hx]; cbn [strcmp]; [done|]. rewrite (proj2 (Z.eqb_neq 0 y)) by done. lia.
    + cbn [strcmp] in E. destruct (Z.eqb_spec u v) as [->|]; [|lia]. destruct Hx as [|y x Hy Hx]; cbn [strcmp]; [done|]. destruct (v =? y); [|done]. by apply IH.
Qed.

Definition lower_ok (s : bytes) : bool := forallb (fun c => negb (c =? 0)) (map TOR_TOLOWER s).

Lemma lower_no_nul s : lower_ok s = true -> no_nul (map TOR_TOLOWER s).
Proof. unfold lower_ok, no_nul. rewrite forallb_forall, List.Forall_forall. intros Hs x Hx. specialize (Hs x Hx). boolp. done. Qed.

Lemma names_ok : forallb (fun d => lower_ok (name d)) CONTROL_COMMANDS = true.
Proof. vm_compute. reflexivity. Qed.

(** The names that are accepted before authentication are those of the three handlers. *)
Lemma find_command cmd n : strcasecmp cmd n = 0 -> lower_ok n = true ->
  List.find (fun d => strcasecmp cmd (name d) =? 0) CONTROL_COMMANDS = List.find (fun d => strcasecmp n (name d) =? 0) CONTROL_COMMANDS.
Proof.
  intros E Hn. pose proof names_ok as Hok. induction CONTROL_COMMANDS as [|d ds IH]; [done|]. cbn [forallb List.find] in *. apply andb_true_iff in Hok as [Hd Hds]. rewrite IH by done.
  unfold strcasecmp in *. rewrite (strcmp_like _ (map TOR_TOLOWER n)); [done|done|by apply lower_no_nul..].
Qed.

Lemma initial_handlers c cmd def : needauth c = true -> is_valid_initial_command c cmd = true ->
  List.find (fun d => strcasecmp cmd (name d) =? 0) CONTROL_COMMANDS = Some def -> before_auth (handler def).
Proof.
  intros Hn Hv Hf. apply bool_decide_eq_true in Hn. unfold is_valid_initial_command in Hv. rewrite Hn in Hv. rewrite bool_decide_false in Hv by done.
  assert (forall n, strcasecmp cmd n = 0 -> lower_ok n = true -> List.find (fun d => strcasecmp n (name d) =? 0) CONTROL_COMMANDS = Some def) as Hn' by (intros n E Ho; by rewrite <- Hf, (find_command cmd n)).
  destruct (Z.eqb_spec (strcasecmp cmd (s2b "PROTOCOLINFO")) 0) as [E|_]; [|destruct (Z.eqb_spec (strcasecmp cmd (s2b "AUTHCHALLENGE")) 0) as [E|_]; [|apply orb_true_iff in Hv as [E|E]; apply Z.eqb_eq in E]];
    apply Hn' in E; try reflexivity; vm_compute in E; try discriminate E; injection E as <-; [by right; right|by right; left|by left].
Qed.

Section Gate.

(** The other handlers leave the configuration of cookies consistent; what they do to the connection is free. *)
Hypothesis other_keeps_globals : forall n a g c, globals_ok g -> globals_ok (fst (fst (other_handler n a g c))).

Lemma run_guarded h cmd g (c : conn) log a g' c' r :
  guarded (mkworld g c log) -> before_auth h \/ authenticated log -> run_handler h cmd g c a = Ok (g', c', r) ->
  guarded (mkworld g' c' (log ++ [mkcall h a g (safecookie_client_hash c)])).
Proof.
  intros [Hg Hgate Hopen Hch] Hh E. cbn [w_g w_c w_log] in *. set (k := mkcall h a g (safecookie_client_hash c)). assert (gate (log ++ [k])) as Hgate' by (by apply gate_snoc).
  assert (globals_ok g' -> same_auth c c' \/ authenticated (log ++ [k]) -> guarded (mkworld g' c' (log ++ [k]))) as Hkeep.
  { intros Hg' [[Es Eh]|Ha]; [|split; cbn [w_g w_c w_log]; [done|done|done|by left]]. split; cbn [w_g w_c w_log]; rewrite ?Es, ?Eh; [done|done|intros Ho; by apply authenticated_snoc, Hopen|].
    destruct Hch as [Ha|Hc]; [left; by apply authenticated_snoc|right; intros x Hx; by apply challenged_snoc, Hc]. }
  assert (authenticated log -> authenticated (log ++ [k])) as Hsn by apply authenticated_snoc. destruct h as [| | | |n]; cbn [run_handler] in E.
  - apply authenticate_effect in E as [Hg' Hor]; [|done]. apply Hkeep; [done|]. destruct Hor as [?|(p & q & Ep & Ha)]; [by left|]. right. destruct Hch as [?|Hc]; [by apply Hsn|]. apply authenticated_here. split; [done|]. by exists p, q.
  - apply authchallenge_effect in E as (Es & Hg' & Hor). destruct Hor as [Eh|(ck & nonces & Eck & Eh)]; [apply Hkeep; [by apply Hg'|left; by split]|].
    split; cbn [w_g w_c w_log]; [by apply Hg'|done|rewrite Es; intros Ho; by apply Hsn, Hopen|]. right. rewrite Eh. intros x [= <-]. exists k, ck, nonces. split_and!; [apply elem_of_app; right; by left|done|done|done].
  - apply protocolinfo_effect in E as [-> Hs]. apply Hkeep; [done|by left].
  - injection E as <- <- <-. apply Hkeep; [done|left; by split].
  - destruct (other_handler n a g c) as [[g1 c1] r1] eqn:Eo. injection E as -> -> ->. apply Hkeep; [|right; apply Hsn; destruct Hh as [[?|[?|?]]|?]; done]. pose proof (other_keeps_globals n a g c Hg) as Hk. by rewrite Eo in Hk.
Qed.

Lemma command_guarded w w' r : guarded w -> process_command w = Ok (w', r) -> guarded w'.
Proof.
  intros Hw. unfold process_command. destruct (control_split_incoming_command _) as [cmd data]. assert (forall c', same_auth (w_c w) c' -> guarded (set_conn w c')) as Hset by (intros c' Hs; by apply guarded_conn).
  destruct (marked_for_close _); [by intros [= <- <-]|]. destruct (_ =? 0); [intros [= <- <-]; by apply Hset|]. destruct (needauth (w_c w) && _) eqn:Ei; [intros [= <- <-]; by apply Hset|]. destruct (_ <=? _); [intros [= <- <-]; by apply Hset|].
  destruct (handle_control_command _ _ _) as [[w1 r1]| | |] eqn:Eh; [|done..]. cbn [cbind].
  assert (guarded w1) as Hw1; [|destruct (r1 <? 0); [by intros [= <- <-]|]; intros [= <- <-]; by apply guarded_conn].
  unfold handle_control_command in Eh. destruct (List.find _ _) as [def|] eqn:Ef; [|injection Eh as <- <-; by apply Hset]. unfold handle_single_control_command in Eh.
  destruct (control_cmd_parse_args _ _ _) as [[a|err]| | |]; [| |done..]; cbn [cbind] in Eh; [|injection Eh as <- <-; by apply Hset].
  destruct (run_handler _ _ _ _ _) as [[[g' c'] r']| | |] eqn:Er; [|done..]. cbn [cbind] in Eh. injection Eh as <- <-. apply (run_guarded _ _ _ _ (w_log w)) in Er; [done|by destruct w|].
  destruct (needauth (w_c w)) eqn:En; cbn [andb] in Ei; [left; apply negb_false_iff in Ei; by eapply initial_handlers|]. right. apply (gd_open _ Hw). unfold needauth in En. apply bool_decide_eq_false in En. by destruct (c_state (w_c w)).
Qed.

Lemma loop_guarded fuel : forall w w' r, guarded w -> process_loop fuel w = Ok (w', r) -> guarded w'.
Proof.
  induction fuel as [|fuel IH]; intros w w' r Hw; [done|]. cbn [process_loop]. destruct (read_command _ _) as [[c b]| | |] eqn:Er; [|done..]. cbn [cbind]. apply read_same in Er. assert (guarded (set_conn w c)) as Hc by (by apply guarded_conn).
  destruct b; [|by intros [= <- <-]]. destruct (process_command _) as [[w1 [r1|]]| | |] eqn:Ep; [| |done..]; cbn [cbind]; (apply command_guarded in Ep; [|done]); [by intros [= <- <-]|]. by apply IH.
Qed.

Lemma inbuf_guarded w w' r : guarded w -> connection_control_process_inbuf w = Ok (w', r) -> guarded w'.
Proof.
  intros Hw. unfold connection_control_process_inbuf, control_protocol_is_valid. set (c := match incoming_cmd (w_c w) with None => _ | Some _ => _ end). assert (same_auth (w_c w) c) as Hc by (subst c; by destruct (incoming_cmd (w_c w))).
  destruct (if needauth c then peek_buf_has_control0_command (inbuf c) else Ok false) as [[]| | |]; [| |done..]; cbn [cbind]; [intros [= <- <-]; by apply guarded_conn|].
  destruct (if needauth c then peek_buf_has_http_command (inbuf c) else Ok false) as [[]| | |]; [| |done..]; cbn [cbind]; [intros [= <- <-]; by apply guarded_conn|]. apply loop_guarded. by apply guarded_conn.
Qed.

(** A connection of the control port and its surroundings: whatever arrives is appended to the buffer and processed, and in between the options and the cookie may change. *)
Inductive reaches : world -> Prop :=
| reaches_start g c : globals_ok g -> c_state c = CONTROL_CONN_STATE_NEEDAUTH -> safecookie_client_hash c = None -> reaches (mkworld g c [])
| reaches_input w b w' r : reaches w ->
    connection_control_process_inbuf (set_conn w (set_input b (incoming_cmd (w_c w)) (incoming_cmd_len (w_c w)) (w_c w))) = Ok (w', r) -> reaches w'
| reaches_globals w g : reaches w -> globals_ok g -> reaches (mkworld g (w_c w) (w_log w)).

Lemma reaches_guarded w : reaches w -> guarded w.
Proof.
  induction 1 as [g c Hg Hs Hh|w b w' r _ IH E|w g _ IH Hg].
  - split; cbn [w_g w_c w_log]; [done|by intros [] ? ?|by rewrite Hs|right; by rewrite Hh].
  - apply inbuf_guarded in E; [done|]. by apply guarded_conn.
  - destruct IH as [_ H1 H2 H3]. by split.
Qed.

(** C7. On the control port nothing is done for a client that has not authenticated: every call of a handler other than those of PROTOCOLINFO, AUTHCHALLENGE and AUTHENTICATE comes after a call of AUTHENTICATE that brought the cookie, the answer to a challenge made with it, or a password whose hash is in the configuration of the time, or that was made when neither cookies nor passwords were configured, where anything is accepted; and the connection is open only after such a call.  This holds whatever arrives, for other handlers that may do anything to the connection and leave a cookie in place while cookies are enabled. *)
Theorem control_port_gate w :
  reaches w ->
  (forall pre k post, w_log w = pre ++ k :: post -> before_auth (ev_handler k) \/ authenticated pre) /\
  (c_state (w_c w) = CONTROL_CONN_STATE_OPEN -> authenticated (w_log w)).
Proof. intros Hw%reaches_guarded. split; [apply (gd_gate _ Hw)|apply (gd_open _ Hw)]. Qed.

End Gate.

(** ** Every input is processed *)

Lemma grow_ok fuel : forall len need, 1 <= len < 2 ^ 32 -> need <= 2 ^ 31 -> 2 ^ 31 <= len * 2 ^ Z.of_nat fuel -> exists r, grow_loop (S fuel) len need = Ok r /\ need <= r < 2 ^ 32 /\ len <= r.
Proof.
  induction fuel as [|fuel IH]; intros len need Hl Hn Hp; cbn [grow_loop]; (destruct (Z.ltb_spec len need); [|exists len; split_and!; done || lia]).
  - change (2 ^ Z.of_nat 0) with 1 in Hp. lia.
  - unfold u32. rewrite Z.mod_small by lia. destruct (IH (len * 2) need) as (r & E & Hr & Hlr); [lia|done| |exists r; split; [exact E|lia]]. rewrite Nat2Z.inj_succ, Z.pow_succ_r in Hp by lia. lia.
Qed.

(** The line that is next, if there is one. *)
Definition line_of (s : bytes) (r : option bytes) (s' : bytes) : Prop :=
  match r with
  | None => s' = s /\ no_lf s
  | Some line => exists l, no_lf l /\ line = l ++ [10] /\ s = line ++ s'
  end.

Lemma line_spec_lf l rest n : no_lf l -> line_spec (l ++ 10 :: rest) n = if n <? zlen l + 2 then (LineTooLong (zlen l + 2), l ++ 10 :: rest) else (LineRead (l ++ [10]), rest).
Proof.
  intros Hl. unfold line_spec, index_of. rewrite (no_lf_span l rest Hl). pose proof (zlen_nonneg l). rewrite (proj2 (Z.ltb_ge (zlen l) 0)) by lia. destruct (n <? zlen l + 2); [done|]. change (l ++ 10 :: rest) with (l ++ [10] ++ rest). rewrite app_assoc, take_zapp, drop_zapp by zlia. done.
Qed.

Lemma line_spec_none s n : no_lf s -> line_spec s n = (LineIncomplete, s).
Proof. intros Hs. unfold line_spec, index_of. by rewrite no_lf_span_all. Qed.

Lemma split_line s : no_lf s \/ exists l rest, no_lf l /\ s = l ++ 10 :: rest.
Proof.
  induction s as [|c s IH]; [left; constructor|]. destruct (decide (c = 10)) as [->|Hc]; [right; exists [], s; split; [constructor|done]|]. destruct IH as [Hs|(l & rest & Hl & ->)]; [left; by constructor|]. right. exists (c :: l), rest. split; [by constructor|done].
Qed.

Context {HL : LineQueueLaws B}.

(** The input of a connection, and room for its command. *)
Record input_ok (c : conn) (s : bytes) : Prop := mk_input_ok {
  io_holds : q_holds (inbuf c) s;
  io_len : 1 <= incoming_cmd_len c < 2 ^ 32;
  io_size : zlen s + zlen (cmd_so_far c) + 1 <= 2 ^ 31
}.

Lemma fetch_total c s : input_ok c s ->
  exists c' r s', fetch_line 2 c = Ok (c', r) /\ line_of s r s' /\ q_holds (inbuf c') s' /\ incoming_cmd c' = incoming_cmd c /\ 1 <= incoming_cmd_len c' < 2 ^ 32 /\
    (zlen s + zlen (cmd_so_far c) + 1 <= MAX_COMMAND_LINE_LENGTH -> marked_for_close c' = marked_for_close c).
Proof.
  intros [Hq Hl Hs]. cbn [fetch_line]. destruct (split_line s) as [Hn|(l & rest & Hn & ->)].
  - destruct (q_get_line_ok (inbuf c) s (incoming_cmd_len c - zlen (cmd_so_far c)) Hq) as (b & E & Hb). rewrite line_spec_none in * by done. cbn [fst snd] in *. rewrite E. cbn [cbind]. exists (set_input b (incoming_cmd c) (incoming_cmd_len c) c), None, s. cbn. split_and!; done || lia.
  - destruct (q_get_line_ok (inbuf c) (l ++ 10 :: rest) (incoming_cmd_len c - zlen (cmd_so_far c)) Hq) as (b & E & Hb). rewrite line_spec_lf in * by done. destruct (Z.ltb_spec (incoming_cmd_len c - zlen (cmd_so_far c)) (zlen l + 2)) as [Hsh|_]; cbn [fst snd] in *; rewrite E; cbn [cbind].
    + set (c1 := if _ <? _ then _ else _). assert (inbuf c1 = b /\ incoming_cmd c1 = incoming_cmd c /\ incoming_cmd_len c1 = incoming_cmd_len c) as (E1 & E2 & E3) by (subst c1; by destruct (_ <? _)).
      assert (zlen (l ++ 10 :: rest) + zlen (cmd_so_far c) + 1 <= MAX_COMMAND_LINE_LENGTH -> marked_for_close c1 = marked_for_close c) as E4.
      { intros Hm. subst c1. rewrite (proj2 (Z.ltb_ge MAX_COMMAND_LINE_LENGTH _)); [done|]. pose proof (zlen_nonneg rest). zlia. }
      clearbody c1.
      destruct (grow_ok 32 (incoming_cmd_len c1) (zlen l + 2 + zlen (cmd_so_far c))) as (len & Eg & Hg & _); [by rewrite E3|pose proof (zlen_nonneg rest); zlia|rewrite E3; lia|]. rewrite Eg. cbn [cbind].
      assert (cmd_so_far (set_input (inbuf c1) (incoming_cmd c1) len c1) = cmd_so_far c) as Ec by (unfold cmd_so_far; cbn; by rewrite E2). rewrite Ec. cbn [inbuf set_input incoming_cmd_len incoming_cmd]. rewrite E1.
      destruct (q_get_line_ok b (l ++ 10 :: rest) (len - zlen (cmd_so_far c)) Hb) as (b2 & E' & Hb2). rewrite line_spec_lf in * by done. rewrite (proj2 (Z.ltb_ge (len - zlen (cmd_so_far c)) _)) in * by lia. cbn [fst snd] in *. rewrite E'. cbn [cbind].
      eexists _, _, rest. split; [done|]. split; [exists l; split_and!; [done|done|lassoc]|]. cbn. split_and!; [done|done|lia|lia|exact E4].
    + eexists _, _, rest. split; [done|]. split; [exists l; split_and!; [done|done|lassoc]|]. cbn. split_and!; [done|done|lia|lia|done].
Qed.

Lemma read_command_total fuel : forall c s, input_ok c s -> (length s < fuel)%nat ->
  exists c' b s', read_command fuel c = Ok (c', b) /\ input_ok c' s' /\ (length s' <= length s)%nat /\ (b = true -> length s' < length s)%nat.
Proof.
  induction fuel as [|fuel IH]; intros c s Hi Hf; [lia|]. cbn [read_command]. destruct (fetch_total c s Hi) as (c1 & r & s1 & -> & Hr & Hq & Ec & Hl & _). cbn [cbind]. destruct Hi as [Hq0 Hl0 Hs0].
  assert (cmd_so_far c1 = cmd_so_far c) as Ecc by (unfold cmd_so_far; by rewrite Ec). destruct r as [line|]; cbn [line_of] in Hr; [|destruct Hr as [-> _]; exists c1, false, s; split; [done|]; split; [split; [done|done|by rewrite Ecc]|done]].
  destruct Hr as (l & _ & -> & ->). pose proof (zlen_nonneg s1). pose proof (zlen_nonneg l). assert (zlen (l ++ [10]) = zlen l + 1) as Ell by zlia. rewrite (proj2 (Z.eqb_neq (zlen (l ++ [10])) 0)) by lia. cbn [negb]. rewrite Ecc.
  assert (length s1 < length ((l ++ [10%Z]) ++ s1))%nat as Hlt by (rewrite !length_app; cbn [length]; lia). assert (zlen ((l ++ [10]) ++ s1) = zlen l + 1 + zlen s1) as Etot by zlia. rewrite Etot in Hs0.
  assert (zlen (cmd_so_far c ++ l ++ [10]) = zlen (cmd_so_far c) + zlen l + 1) as Ew by zlia.
  assert (forall cmd, zlen cmd <= zlen (cmd_so_far c) + zlen l + 1 -> input_ok (set_input (inbuf c1) (Some cmd) (incoming_cmd_len c1) c1) s1) as Hin by (intros cmd Hc; split; [done|done|change (zlen s1 + zlen cmd + 1 <= 2 ^ 31); lia]).
  assert (forall cmd, zlen cmd <= zlen (cmd_so_far c) + zlen l + 1 -> exists c' b s', Ok (set_input (inbuf c1) (Some cmd) (incoming_cmd_len c1) c1, true) = Ok (c', b) /\ input_ok c' s' /\ (length s' <= length ((l ++ [10%Z]) ++ s1))%nat /\ (b = true -> length s' < length ((l ++ [10%Z]) ++ s1))%nat) as Hdone.
  { intros cmd Hc. eexists _, _, s1. split; [done|]. split; [by apply Hin|]. split; lia. }
  destruct (_ && _); [apply Hdone; lia|]. destruct (bytes_eqb _ [46; 13; 10]); [apply Hdone; lia|]. destruct (bytes_eqb _ [46; 10]); [apply Hdone; lia|].
  destruct (IH (set_input (inbuf c1) (Some (cmd_so_far c ++ l ++ [10])) (incoming_cmd_len c1) c1) s1) as (c' & b & s' & E & Hi' & Hle & Hb); [apply Hin; lia|lia|].
  exists c', b, s'. split; [done|]. split; [done|]. split; [lia|]. intros ->. specialize (Hb eq_refl). lia.
Qed.

Record served (w : world) (s : bytes) : Prop := mk_served {
  sv_globals : globals_ok (w_g w);
  sv_input : input_ok (w_c w) s
}.

(** A challenge is open, or none is, as the code relies on. *)
Definition fresh_challenge (w : world) : Prop := challenge_ok (w_g w) (safecookie_client_hash (w_c w)).

(** A challenge is open although cookies are disabled. *)
Definition stale_challenge (w : world) : Prop := authentication_cookie_is_set (w_g w) = false /\ safecookie_client_hash (w_c w) <> None.

Lemma served_conn w s c : served w s -> inbuf c = inbuf (w_c w) -> incoming_cmd c = incoming_cmd (w_c w) -> incoming_cmd_len c = incoming_cmd_len (w_c w) -> served (set_conn w c) s.
Proof. intros [H1 [H3 H4 H5]] E1 E2 E3. split; cbn; [done|]. split; [by rewrite E1|by rewrite E3|unfold cmd_so_far in *; by rewrite E2]. Qed.

Lemma commands_facts : Forall (fun d => match handler d with
                                        | handle_authenticate => store_raw_body (syntax d) = true
                                        | handle_authchallenge => store_raw_body (syntax d) = true /\ min_args (syntax d) = 1 /\ max_args (syntax d) = 1
                                        | _ => True
                                        end) CONTROL_COMMANDS.
Proof. unfold CONTROL_COMMANDS. repeat (apply List.Forall_cons; [cbn; split_and?; done|]). apply List.Forall_nil. Qed.

Section Answers.

Hypothesis hmac_sha256_length : forall k m, zlen (hmac_sha256 k m) = DIGEST256_LEN.
Hypothesis crypto_rand_length : forall n l, 0 <= l -> zlen (crypto_rand n l) = l.

(** The other handlers leave the input of the connection alone, and a cookie in place while cookies are enabled. *)
Hypothesis other_keeps : forall n a g c, globals_ok g ->
  let '(g', c', _) := other_handler n a g c in
  globals_ok g' /\ inbuf c' = inbuf c /\ incoming_cmd c' = incoming_cmd c /\ incoming_cmd_len c' = incoming_cmd_len c.

(** None of them disables cookies while a challenge is open, which SETCONF and LOADCONF can do. *)
Definition cookies_stay : Prop := forall n a g c, globals_ok g -> challenge_ok g (safecookie_client_hash c) ->
  let '(g', c', _) := other_handler n a g c in challenge_ok g' (safecookie_client_hash c').

Lemma run_outcome def cmd g (c : conn) a body :
  def ∈ CONTROL_COMMANDS -> globals_ok g -> control_cmd_parse_args cmd (syntax def) body = Ok (inl a) ->
  (exists g' c' r, run_handler (handler def) cmd g c a = Ok (g', c', r) /\ globals_ok g' /\ (cookies_stay -> challenge_ok g (safecookie_client_hash c) -> challenge_ok g' (safecookie_client_hash c')) /\
    inbuf c' = inbuf c /\ incoming_cmd c' = incoming_cmd c /\ incoming_cmd_len c' = incoming_cmd_len c)
  \/ run_handler (handler def) cmd g c a = Bug /\ authentication_cookie_is_set g = false /\ safecookie_client_hash c <> None.
Proof.
  intros Hin Hg Ha. apply parse_args_facts in Ha as (_ & Hraw & Hmin). pose proof commands_facts as Hf. rewrite Forall_forall in Hf. specialize (Hf def Hin). destruct (handler def) as [| | | |n]; cbn [run_handler].
  - destruct (authenticate_outcome sha1 expand_rfc5869 g c a Hg) as [(g' & c' & E & Hg' & Hc & Hr)|?]; [by apply Hraw| |by right]. left. by exists g', c', 0.
  - left. destruct Hf as (Hs & Hm1 & Hm2). destruct (authchallenge_total hmac_sha256 crypto_rand hmac_sha256_length crypto_rand_length g c a Hg) as (g' & c' & r & E & Hg' & Hc & Hr); [|by apply Hraw|by exists g', c', r].
    intros E. rewrite E, Hm1, Hm2 in Hmin. change (zlen []) with 0 in Hmin. assert (1 <= 0) by (apply Hmin; lia). lia.
  - left. destruct (protocolinfo_total VERSION cookie_file g c a) as (c' & E & H1 & H2 & H3). exists g, c', 0. split_and!; try done. apply protocolinfo_effect in E as [_ [_ ->]]. done.
  - left. eexists _, _, _. split; [done|]. split_and!; done.
  - left. pose proof (other_keeps n a g c Hg) as Ho. assert (cookies_stay -> challenge_ok g (safecookie_client_hash c) -> let '(g', c', _) := other_handler n a g c in challenge_ok g' (safecookie_client_hash c')) as Hk by (intros Hk; by apply Hk).
    destruct (other_handler n a g c) as [[g' c'] r]. exists g', c', r. by destruct Ho.
Qed.

(** One round of the loop: a command is read and processed. *)
Definition command_step (w w' : world) : Prop :=
  exists c, read_command (S (Z.to_nat (q_datalen (inbuf (w_c w))))) (w_c w) = Ok (c, true) /\ process_command (set_conn w c) = Ok (w', None).

Lemma command_outcome w s : served w s ->
  (exists w' r, process_command w = Ok (w', r) /\ (r = None -> served w' s /\ (cookies_stay -> fresh_challenge w -> fresh_challenge w'))) \/ process_command w = Bug /\ stale_challenge w.
Proof.
  intros Hw. unfold process_command. destruct (control_split_incoming_command _) as [cmd data].
  assert (forall w', (exists w'' r, Ok (w', Some 0) = Ok (w'', r) /\ (r = None -> served w'' s /\ (cookies_stay -> fresh_challenge w -> fresh_challenge w''))) \/ Ok (w', Some 0) = Bug /\ stale_challenge w) as Hret by (intros w'; left; eexists _, _; split; [done|done]).
  destruct (marked_for_close _); [apply Hret|]. destruct (_ =? 0); [apply Hret|]. destruct (needauth _ && _); [apply Hret|]. destruct (_ <=? _); [apply Hret|]. clear Hret.
  assert ((exists w1, handle_control_command (c_string cmd) w data = Ok (w1, 0) /\ served w1 s /\ (cookies_stay -> fresh_challenge w -> fresh_challenge w1)) \/ handle_control_command (c_string cmd) w data = Bug /\ stale_challenge w) as [(w1 & -> & Hw1 & Hc1)|[-> ?]].
  { unfold handle_control_command. destruct (List.find _ _) as [def|] eqn:Ef; [|left; eexists; split; [done|]; split; [by apply served_conn|done]]. apply List.find_some in Ef as [Hin%list_elem_of_In _]. pose proof commands_syntax_ok as Hs. rewrite Forall_forall in Hs.
    unfold handle_single_control_command. destruct (parse_args_total (c_string cmd) (syntax def) data (Hs def Hin)) as [[a|err] Ea]; rewrite Ea; cbn [cbind]; [|left; eexists; split; [done|]; split; [by apply served_conn|done]].
    destruct Hw as [H1 H3]. destruct (run_outcome def (c_string cmd) (w_g w) (w_c w) a data Hin H1 Ea) as [(g' & c' & r & -> & Hg & Hc & E1 & E2 & E3)|[-> ?]]; [|by right]. left. cbn [cbind]. eexists. split; [done|]. split; [|exact Hc]. split; [done|]. destruct H3 as [Hq Hl Hz]. split; cbn; [by rewrite E1|by rewrite E3|unfold cmd_so_far in *; by rewrite E2]. }
  - left. cbn [cbind]. change (0 <? 0) with false. cbv iota. eexists _, _. split; [done|]. intros _. split; [|exact Hc1]. destruct Hw1 as [H1 [Hq Hl Hz]]. split; [done|]. split; [done|done|]. change (zlen s + 0 + 1 <= 2 ^ 31). pose proof (zlen_nonneg (cmd_so_far (w_c w1))). lia.
  - by right.
Qed.

(** The loop ends with a result, or the process aborts after rounds that leave a challenge open and cookies disabled. *)
Definition outcome (w : world) (o : cres (world * Z)) : Prop :=
  (exists w' r, o = Ok (w', r)) \/ o = Bug /\ (exists w1, rtc command_step w w1 /\ stale_challenge w1) /\ (cookies_stay -> ~ fresh_challenge w).

Lemma stale_not_fresh w : stale_challenge w -> ~ fresh_challenge w.
Proof. unfold stale_challenge, fresh_challenge. intros [Hs Hh]. destruct (safecookie_client_hash (w_c w)); [|done]. intros [? _]. congruence. Qed.

Lemma loop_outcome fuel : forall w s, served w s -> (length s < fuel)%nat -> outcome w (process_loop fuel w).
Proof.
  induction fuel as [|fuel IH]; intros w s Hw Hf; [lia|]. cbn [process_loop]. destruct Hw as [H1 H3]. pose proof (q_datalen_ok _ _ (io_holds _ _ H3)) as Ed. unfold command_step in IH.
  destruct (read_command_total (S (Z.to_nat (zlen s))) (w_c w) s H3) as (c & b & s' & Er & Hi & Hle & Hb); [unfold zlen; lia|]. rewrite <- Ed in Er. rewrite Er. cbn [cbind]. pose proof (read_same _ _ _ _ Er) as [_ Eh]. destruct b; [|left; by eexists _, _].
  assert (fresh_challenge (set_conn w c) <-> fresh_challenge w) as Hfr by (unfold fresh_challenge; cbn; by rewrite Eh). assert (stale_challenge (set_conn w c) <-> stale_challenge w) as Hst by (unfold stale_challenge; cbn; by rewrite Eh).
  destruct (command_outcome (set_conn w c) s') as [(w1 & r & Ep & Hr)|[-> Hs]]; [by split| |right; split; [done|]; apply Hst in Hs; split; [by exists w|intros _; by apply stale_not_fresh]].
  rewrite Ep. cbn [cbind]. destruct r as [r|]; [left; by eexists _, _|]. destruct (Hr eq_refl) as [Hw1 Hc1]. specialize (Hb eq_refl).
  destruct (IH w1 s' Hw1 ltac:(lia)) as [?|(-> & (w2 & Hs2 & Hst2) & Hn)]; [by left|]. right. split; [done|]. split; [exists w2; split; [|done]; eapply rtc_l; [by exists c|done]|]. intros Hk Hfresh. apply Hn; [done|]. apply Hc1; [done|by apply Hfr].
Qed.

Lemma protocol_total c s : q_holds (inbuf c) s -> exists c' b, control_protocol_is_valid c = Ok (c', b) /\ (b = true -> c' = c).
Proof.
  intros Hq. unfold control_protocol_is_valid. assert (exists b, (if needauth c then peek_buf_has_control0_command (inbuf c) else Ok false) = Ok b) as [[] ->]; cbn [cbind].
  { destruct (needauth c); [|by eexists]. unfold peek_buf_has_control0_command. rewrite (q_datalen_ok _ _ Hq). destruct (Z.leb_spec 4 (zlen s)); [|by eexists]. rewrite (q_peek_ok _ s) by (done || lia). by eexists. }
  { by eexists _, _. }
  assert (exists b, (if needauth c then peek_buf_has_http_command (inbuf c) else Ok false) = Ok b) as [[] ->]; cbn [cbind]; [|by eexists _, _|by eexists _, _].
  destruct (needauth c); [|by eexists]. unfold peek_buf_has_http_command. cbn [starts_with_any].
  repeat (rewrite (q_peek_startswith_ok _ s) by (done || (unfold PEEK_BUF_STARTSWITH_MAX; vm_compute; discriminate)); cbn [cbind]; match goal with |- context [if prefix_of ?a ?b then _ else _] => destruct (prefix_of a b); [by eexists|] end). by eexists.
Qed.


(** ** Data arrives as one command *)

Lemma read_lines ls : forall fuel c rest,
  input_ok c (join_lf ls ++ [46; 13; 10] ++ rest) -> Forall inner_line ls -> cur (cmd_so_far c) = 43 -> (length ls < fuel)%nat ->
  exists c', read_command fuel c = Ok (c', true) /\ input_ok c' rest /\ cmd_so_far c' = cmd_so_far c ++ join_lf ls /\
    (zlen (join_lf ls ++ [46; 13; 10] ++ rest) + zlen (cmd_so_far c) + 1 <= MAX_COMMAND_LINE_LENGTH -> marked_for_close c' = marked_for_close c).
Proof using HL.
  induction ls as [|l ls IH]; intros [|fuel] c rest Hi Hl H43 Hf; cbn [length] in Hf; [lia| |lia|]; cbn [read_command]; destruct (fetch_total c _ Hi) as (c1 & r & s1 & -> & Hr & Hq & Ec & Hlen & Hmark); cbn [cbind]; destruct Hi as [Hq0 Hl0 Hs0];
    assert (cmd_so_far c1 = cmd_so_far c) as Ecc by (unfold cmd_so_far; by rewrite Ec); rewrite Ecc; pose proof (zlen_nonneg (cmd_so_far c)) as Hcmd; pose proof (zlen_nonneg rest) as Hrest.
  - change (join_lf [] ++ [46; 13; 10] ++ rest) with ([46; 13] ++ 10 :: rest) in *. destruct r as [line|]; cbn [line_of] in Hr; [|destruct Hr as [_ Hr]; apply Forall_app in Hr as [_ Hr]; by inversion_clear Hr].
    destruct Hr as (l & Hl' & -> & E). rewrite <- app_assoc in E. cbn [app] in E. assert (([46; 13] : bytes) = l /\ rest = s1) as [<- <-].
    { pose proof (no_lf_span l s1 Hl') as E1. change (46 :: 13 :: 10 :: rest) with ([46; 13] ++ 10 :: rest) in E. rewrite <- E in E1. rewrite no_lf_span in E1 by (repeat constructor; done). by injection E1 as <- <-. }
    change (zlen ([46; 13] ++ [10]) =? 0) with false. cbn [negb]. destruct (cmd_so_far c) as [|x cmd] eqn:Ecmd; [done|]. rewrite ?Ecmd in *. cbn [length Nat.eqb andb]. change (bytes_eqb ([46; 13] ++ [10]) [46; 13; 10]) with true. cbv iota. eexists. split; [done|]. split; [split; [done|done|]|].
    + change (zlen rest + zlen (x :: cmd) + 1 <= 2 ^ 31). cbn [app] in Hs0. rewrite (zlen_cons 46), (zlen_cons 13), (zlen_cons 10) in Hs0. lia.
    + split; [unfold cmd_so_far; cbn; by rewrite app_nil_r|exact Hmark].
  - inversion_clear Hl as [|? ? (Hnl & Hn1 & Hn2) Hls]. assert (join_lf (l :: ls) ++ [46; 13; 10] ++ rest = l ++ 10 :: join_lf ls ++ [46; 13; 10] ++ rest) as Ej by (unfold join_lf; cbn [map concat]; rewrite <- !app_assoc; done). rewrite Ej in *.
    destruct r as [line|]; cbn [line_of] in Hr; [|destruct Hr as [_ Hr]; apply Forall_app in Hr as [_ Hr]; by inversion_clear Hr].
    destruct Hr as (l' & Hl' & -> & E). rewrite <- app_assoc in E. cbn [app] in E. assert (l' = l /\ join_lf ls ++ [46; 13; 10] ++ rest = s1) as [-> <-].
    { pose proof (no_lf_span l' s1 Hl') as E1. change ([10] ++ s1) with (10 :: s1) in E. rewrite <- E in E1. rewrite no_lf_span in E1 by done. by injection E1 as <- <-. }
    pose proof (zlen_nonneg l). pose proof (zlen_nonneg (join_lf ls)). assert (zlen (l ++ [10]) = zlen l + 1) as Ell by zlia. rewrite (proj2 (Z.eqb_neq (zlen (l ++ [10])) 0)) by lia. cbn [negb].
    destruct (cmd_so_far c) as [|y cmd] eqn:Ecmd; [done|]. rewrite ?Ecmd in *. cbn [length Nat.eqb andb].
    assert (forall t, l <> t -> bytes_eqb (l ++ [10]) (t ++ [10]) = false) as Hne by (intros t Ht; apply not_true_iff_false; intros E1%bytes_eqb_eq; by apply app_inj_tail in E1 as [? _]).
    change [46; 13; 10] with ([46; 13] ++ [10]) at 1. change [46; 10] with ([46] ++ [10]). rewrite !Hne by done. set (c2 := set_input _ _ _ c1).
    destruct (IH fuel c2 rest) as (c' & E' & Hi' & Ec' & Hmark'); [split; [done|done|]|done|by subst c2|lia|].
    + change (zlen (join_lf ls ++ [46; 13; 10] ++ rest) + zlen ((y :: cmd) ++ l ++ [10]) + 1 <= 2 ^ 31). zlia.
    + exists c'. split; [exact E'|]. split; [done|]. split; [rewrite Ec'; subst c2; unfold cmd_so_far, join_lf; cbn; by rewrite <- !app_assoc|]. intros Hm. rewrite Hmark', <- Hmark by (done || (change (zlen (cmd_so_far c2)) with (zlen ((y :: cmd) ++ l ++ [10])); zlia)). done.
Qed.

(** The lines of a buffer that is known. *)
Lemma line_of_lf l rest r s' : no_lf l -> line_of (l ++ 10 :: rest) r s' -> r = Some (l ++ [10]) /\ s' = rest.
Proof.
  intros Hl Hr. destruct r as [line|]; cbn [line_of] in Hr; [|destruct Hr as [_ Hr]; apply Forall_app in Hr as [_ Hr]; by inversion_clear Hr].
  destruct Hr as (l' & Hl' & -> & E). rewrite <- app_assoc in E. change ([10] ++ s') with (10 :: s') in E. pose proof (no_lf_span l' s' Hl') as E1. rewrite <- E, no_lf_span in E1 by done. by injection E1 as -> ->.
Qed.

(** A command word: printable bytes. *)
Definition word_byte (c : Z) : Prop := 33 <= c <= 126.

Lemma word_byte_facts c : word_byte c -> TOR_ISSPACE c = false /\ (TOR_TOLOWER c = 43 -> c = 43).
Proof.
  intros Hc. assert (forallb (fun c => negb (TOR_ISSPACE c) && (negb (TOR_TOLOWER c =? 43) || (c =? 43))) (map Z.of_nat (seq 33 94)) = true) as Ht by (vm_compute; reflexivity).
  rewrite forallb_forall in Ht. specialize (Ht c). ospecialize (Ht _); [apply list_elem_of_In, list_elem_of_fmap; exists (Z.to_nat c); split; [unfold word_byte in Hc; lia|apply elem_of_seq; unfold word_byte in Hc; lia]|].
  apply andb_prop in Ht as [H1 H2]. split; [by apply negb_true_iff|]. intros E. rewrite E in H2. by apply Z.eqb_eq in H2.
Qed.

Lemma word_span word t : Forall word_byte word -> span (fun c => negb (TOR_ISSPACE c)) (word ++ 13 :: t) = (word, 13 :: t).
Proof. induction 1 as [|c word Hc _ IH]; [done|]. cbn [app span]. destruct (word_byte_facts c Hc) as [-> _]. cbn [negb]. by rewrite IH. Qed.

Lemma word_no_lf word : Forall word_byte word -> no_lf (word ++ [13]).
Proof. intros Hw. apply Forall_app. split; [apply (Forall_weaken _ _ _ Hw); unfold word_byte; intros x Hx ->; lia|by apply List.Forall_cons]. Qed.

Lemma word_c_string word : Forall word_byte word -> c_string word = word.
Proof. intros Hw. apply c_string_id. apply (Forall_weaken _ _ _ Hw). unfold word_byte. intros x Hx ->. lia. Qed.

(** What the commands with data have in common: the name starts with a plus sign and finds the command, and there are no positional arguments. *)
Lemma data_commands : Forall (fun d => want_cmddata (syntax d) = true ->
  List.find (fun e => strcasecmp (name d) (name e) =? 0) CONTROL_COMMANDS = Some d /\ cur (name d) = 43 /\ name d <> [] /\ lower_ok (name d) = true /\
  strcasecmp (name d) (s2b "QUIT") <> 0 /\ min_args (syntax d) = 0 /\ max_args (syntax d) = 0 /\ store_raw_body (syntax d) = false /\ exists n, handler d = handle_other n) CONTROL_COMMANDS.
Proof. unfold CONTROL_COMMANDS at 2. repeat (apply List.Forall_cons; [intros Hd; first [discriminate Hd|split_and!; [vm_compute; reflexivity|reflexivity|discriminate|reflexivity|vm_compute; discriminate|reflexivity|reflexivity|reflexivity|by eexists]]|]). apply List.Forall_nil. Qed.

Section Data.

(** A command that takes data, and the word for it in any case. *)
Variables (def : control_cmd_def_t) (word : bytes).
Hypothesis def_in : def ∈ CONTROL_COMMANDS.
Hypothesis def_data : want_cmddata (syntax def) = true.
Hypothesis word_printable : Forall word_byte word.
Hypothesis word_names : strcasecmp word (name def) = 0.

Definition first_line : bytes := word ++ CRLF.

Lemma def_facts :
  List.find (fun e => strcasecmp word (name e) =? 0) CONTROL_COMMANDS = Some def /\ (exists w', word = 43 :: w') /\ strcasecmp word (s2b "QUIT") <> 0 /\
  min_args (syntax def) = 0 /\ max_args (syntax def) = 0 /\ store_raw_body (syntax def) = false /\ exists n, handler def = handle_other n.
Proof using def_in def_data word_printable word_names.
  pose proof data_commands as Hd. rewrite Forall_forall in Hd. destruct (Hd def def_in def_data) as (H1 & H2 & H3 & H4 & H5 & H6). split; [by rewrite (find_command word (name def))|]. split.
  - destruct (name def) as [|x n] eqn:En; [done|]. cbn in H2. subst x. destruct word as [|c w'] eqn:Ew; [by vm_compute in word_names|]. inversion_clear word_printable as [|? ? Hc _]. exists w'. unfold strcasecmp in word_names. cbn [map strcmp] in word_names.
    change (TOR_TOLOWER 43) with 43 in word_names. destruct (Z.eqb_spec (TOR_TOLOWER c) 43) as [E|]; [|lia]. by rewrite (proj2 (word_byte_facts c Hc) E).
  - split; [|done]. unfold strcasecmp in *. rewrite (strcmp_like _ (map TOR_TOLOWER (name def))); [done|done|by apply lower_no_nul|by apply lower_no_nul].
Qed.

Lemma first_line_length : zlen first_line = zlen word + 2.
Proof. unfold first_line. rewrite zlen_app. reflexivity. Qed.

(** The first line, after which the lines of the data follow. *)
Lemma read_first fuel c rest : input_ok c (first_line ++ rest) -> cmd_so_far c = [] ->
  exists c1, read_command (S fuel) c = read_command fuel c1 /\ input_ok c1 rest /\ cmd_so_far c1 = first_line /\
    (zlen (first_line ++ rest) + 1 <= MAX_COMMAND_LINE_LENGTH -> marked_for_close c1 = marked_for_close c).
Proof using HL def_in def_data word_printable word_names.
  intros Hi Hc. destruct def_facts as (_ & [w' Ew] & _). cbn [read_command]. destruct (fetch_total c _ Hi) as (c1 & r & s1 & -> & Hr & Hq & Ec & Hlen & Hmark). cbn [cbind]. destruct Hi as [_ _ Hs]. rewrite Hc in Hs, Hmark. change (zlen []) with 0 in *. rewrite Z.add_0_r in Hmark, Hs.
  assert (first_line ++ rest = (word ++ [13]) ++ 10 :: rest) as Ef by (unfold first_line, CRLF; by rewrite <- !app_assoc). rewrite Ef in Hr. apply line_of_lf in Hr as [-> ->]; [|by apply word_no_lf]. assert (cmd_so_far c1 = []) as Ecc by (unfold cmd_so_far in *; by rewrite Ec). rewrite Ecc.
  assert ((word ++ [13]) ++ [10] = first_line) as -> by (unfold first_line, CRLF; by rewrite <- app_assoc). rewrite zlen_app, first_line_length in Hs. pose proof (zlen_nonneg word). rewrite first_line_length, (proj2 (Z.eqb_neq _ _)) by lia. cbn [negb app].
  assert (forall l, cur l <> 43 -> bytes_eqb first_line l = false) as Hne by (intros l Hl; apply not_true_iff_false; intros <-%bytes_eqb_eq; apply Hl; unfold first_line; by rewrite Ew). rewrite !Hne by done. assert (cur first_line = 43) as -> by (unfold first_line; by rewrite Ew). cbn [length Nat.eqb Z.eqb Pos.eqb negb andb].
  eexists. split; [reflexivity|]. split; [split; [done|done|]|split; [done|exact Hmark]]. change (zlen rest + zlen first_line + 1 <= 2 ^ 31). rewrite first_line_length. lia.
Qed.

Lemma written_lines_nonempty ls e : exists l ls', written_lines ls e = l :: ls'.
Proof.
  unfold written_lines, closed. destruct ls as [|l ls]; cbn [written]; [rewrite (bool_decide_true (@nil bytes = [])) by done; cbn [negb]; rewrite andb_false_r; by eexists _, _|]. destruct (_ && _); by eexists _, _.
Qed.

(** The arguments of the command. *)
Definition data_args (d : bytes) : control_cmd_args_t := mkargs word [] [] (Some d) None.

Lemma data_parsed J d : J <> [] -> read_escaped_data J = Ok d -> control_cmd_parse_args word (syntax def) (CRLF ++ J) = Ok (inl (data_args d)).
Proof using def_in def_data word_printable word_names.
  intros HJ Hd. destruct def_facts as (_ & _ & _ & H1 & H2 & H3 & _). unfold control_cmd_parse_args, cmdline_of. rewrite H1, H2, H3, def_data. cbn [CRLF app span]. change (negb (13 =? 10)) with true. change (negb (10 =? 10)) with false. cbv iota. destruct J as [|x J]; [done|]. rewrite Hd. reflexivity.
Qed.

Lemma data_command w J d : c_state (w_c w) = CONTROL_CONN_STATE_OPEN -> marked_for_close (w_c w) = false -> cmd_so_far (w_c w) = first_line ++ J -> J <> [] -> read_escaped_data J = Ok d -> zlen J < 2 ^ 31 -> globals_ok (w_g w) ->
  exists w', process_command w = Ok (w', None) /\ inbuf (w_c w') = inbuf (w_c w) /\ w_log w' = w_log w ++ [mkcall (handler def) (data_args d) (w_g w) (safecookie_client_hash (w_c w))].
Proof using other_keeps def_in def_data word_printable word_names.
  intros Hs Hm Hc HJ Hd Hz Hg. destruct def_facts as (Hf & [w' Ew] & Hq & _ & _ & _ & [n Hn]). unfold process_command. rewrite Hc.
  assert (control_split_incoming_command (first_line ++ J) = (word, CRLF ++ J)) as ->.
  { unfold control_split_incoming_command. assert (first_line ++ J = word ++ 13 :: 10 :: J) as -> by (unfold first_line, CRLF; by rewrite <- app_assoc). rewrite word_span by done. assert (cur (word ++ 13 :: 10 :: J) = 43) as -> by (by rewrite Ew). reflexivity. }
  rewrite Hm, (word_c_string word word_printable), (proj2 (Z.eqb_neq _ _) Hq). unfold needauth. rewrite Hs. rewrite bool_decide_false by done. cbn [andb]. assert (zlen (CRLF ++ J) = 2 + zlen J) as -> by (rewrite zlen_app; reflexivity). unfold UINT32_MAX. rewrite (proj2 (Z.leb_gt _ _)) by lia.
  unfold handle_control_command. rewrite Hf. unfold handle_single_control_command. rewrite (data_parsed J d HJ Hd). cbn [cbind]. rewrite Hn. cbn [run_handler].
  pose proof (other_keeps n (data_args d) (w_g w) (w_c w) Hg) as Ho. destruct (other_handler _ _ _ _) as [[g' c'] r]. cbn [cbind]. change (0 <? 0) with false. cbv iota. eexists. split; [done|]. split; [apply Ho|done].
Qed.

(** C8. On an open connection, data that is sent as the lines of [write_escaped_data] after the word of a command with data (LOADCONF, POSTDESCRIPTOR or HSPOST with a plus sign, in any case, and no arguments on its line) arrives as exactly one call of the handler of this command, with this data in normal form (CR LF and
    LF ends of lines as LF, one LF added when the data does not end with one or is a single LF): nothing in the data can end the command or start another one, and what follows in the buffer is left for the next command.  The input must not exceed the limit on the length of a command, and the other handlers leave the input alone. *)
Theorem data_delivered w data rest out fuel :
  c_state (w_c w) = CONTROL_CONN_STATE_OPEN -> marked_for_close (w_c w) = false -> cmd_so_far (w_c w) = [] -> globals_ok (w_g w) ->
  1 <= incoming_cmd_len (w_c w) < 2 ^ 32 -> write_escaped_data data = Ok out -> q_holds (inbuf (w_c w)) (first_line ++ out ++ rest) -> zlen (first_line ++ out ++ rest) + 1 <= MAX_COMMAND_LINE_LENGTH -> 3 * zlen data + 9 < SIZE_T_CEILING ->
  exists w', process_loop (S fuel) w = process_loop fuel w' /\ q_holds (inbuf (w_c w')) rest /\
    w_log w' = w_log w ++ [mkcall (handler def) (mkargs word [] [] (Some (normal_text data)) None) (w_g w) (safecookie_client_hash (w_c w))].
Proof.
  intros Hs Hm Hc Hg Hl Hout Hq Hz Hd. rewrite write_escaped_lines in Hout by done. injection Hout as <-. destruct (split_lf_spec data) as (E & Hls & He). set (ls := written_lines _ _) in *. assert (read_escaped_data (join_lf ls) = Ok (normal_text data)) as Hread by (subst ls; rewrite read_written_lines by done; by rewrite <- E).
  assert (Forall inner_line ls) as Hin by (by apply written_lines_inner). destruct (written_lines_nonempty (fst (split_lf data)) (snd (split_lf data))) as (l0 & ls0 & E0). assert (join_lf ls <> []) as HJ by (subst ls; rewrite E0; unfold join_lf; cbn; by destruct l0). clearbody ls.
  cbn [process_loop]. rewrite (q_datalen_ok _ _ Hq). rewrite <- (app_assoc (join_lf ls)) in *. pose proof first_line_length as Hfl. assert (zlen (first_line ++ join_lf ls ++ [46; 13; 10] ++ rest) = zlen word + 5 + zlen (join_lf ls) + zlen rest) as Ez by (rewrite !zlen_app, Hfl; change (zlen [46; 13; 10]) with 3; lia).
  pose proof (zlen_nonneg rest) as Hrest. pose proof (zlen_nonneg word) as Hword. pose proof (zlen_nonneg (join_lf ls)) as HJ0. unfold MAX_COMMAND_LINE_LENGTH in Hz.
  destruct (read_first (Z.to_nat (zlen (first_line ++ join_lf ls ++ [46; 13; 10] ++ rest))) (w_c w) (join_lf ls ++ [46; 13; 10] ++ rest)) as (c1 & Efirst & Hi1 & Ec1 & Hm1); [split; [done|done|rewrite Hc; change (zlen []) with 0; lia]|done|].
  assert (cur first_line = 43) as H43 by (destruct def_facts as (_ & [w' Ew] & _); unfold first_line; by rewrite Ew).
  destruct (read_lines ls (Z.to_nat (zlen (first_line ++ join_lf ls ++ [46; 13; 10] ++ rest))) c1 rest Hi1 Hin) as (c2 & Er & Hi2 & Ec2 & Hm2); [by rewrite Ec1|pose proof (join_lf_length ls); unfold zlen in *; lia|].
  rewrite <- Efirst in Er. rewrite Er. cbn [cbind]. apply read_same in Er as [Es2 Eh2]. rewrite Ec1 in Ec2, Hm2. rewrite Hfl in Hm2.
  assert (zlen (join_lf ls ++ [46; 13; 10] ++ rest) = 3 + zlen (join_lf ls) + zlen rest) as Ez2 by (rewrite !zlen_app; change (zlen [46; 13; 10]) with 3; lia).
  destruct (data_command (set_conn w c2) (join_lf ls) (normal_text data)) as (w' & -> & Eb & El); cbn [w_c set_conn w_g w_log] in *; [by rewrite Es2| |done|done|done|lia|done|].
  - rewrite Hm2, Hm1; [done|unfold MAX_COMMAND_LINE_LENGTH; lia|unfold MAX_COMMAND_LINE_LENGTH; lia].
  - cbn [cbind]. exists w'. split; [done|]. split; [rewrite Eb; apply (io_holds _ _ Hi2)|]. rewrite El, Eh2. done.
Qed.

End Data.

End Answers.

End Conn.

(** ** Examples *)

Definition toy_other (_ : bytes) (_ : control_cmd_args_t) (g : globals) (c : control_connection_t bytes) : globals * control_connection_t bytes * Z := (g, send send_control_done c, 0).

Abbreviation toy_process := (connection_control_process_inbuf (s2b "HTTP/1.0 501") 0 toy_sha1 toy_hmac toy_expand toy_rand (s2b "0.4.8") (s2b "cookie") toy_other).

Definition ex_start : world := mkworld ex_globals (ex_conn []) [].
Definition ex_input : bytes := s2b "AUTHENTICATE " ++ [34] ++ s2b "pw" ++ [34] ++ CRLF ++ s2b "SIGNAL RELOAD" ++ CRLF ++ s2b "GETINFO ver".

Definition ex_after : world := match toy_process (set_conn ex_start (set_input ex_input None 0 (ex_conn []))) with Ok (w, _) => w | _ => ex_start end.

Lemma control_port_gate_witness : c_state (w_c ex_after) = CONTROL_CONN_STATE_OPEN /\ length (w_log ex_after) = 2%nat /\ authenticated toy_sha1 toy_hmac toy_expand (w_log ex_after).
Proof.
  split; [vm_compute; reflexivity|]. split; [vm_compute; reflexivity|].
  apply (control_port_gate (s2b "HTTP/1.0 501") 0 toy_sha1 toy_hmac toy_expand toy_rand (s2b "0.4.8") (s2b "cookie") toy_other); [intros n a g c Hg; exact Hg| |vm_compute; reflexivity].
  eapply (reaches_input _ _ _ _ _ _ _ _ _ ex_start ex_input ex_after 0); [apply reaches_start; [exact ex_globals_ok|reflexivity|reflexivity]|vm_compute; reflexivity].
Defined.

(** Without the password the signal is not delivered. *)
Example ex_refused :
  match toy_process (mkworld ex_globals (ex_conn (s2b "SIGNAL HALT" ++ CRLF ++ s2b "QUIT" ++ CRLF)) []) with
  | Ok (w, _) => w_log w = [] /\ outbuf (w_c w) = s2b "514 Authentication required." ++ CRLF /\ marked_for_close (w_c w) = true
  | _ => False
  end.
Proof. vm_compute. split; [reflexivity|split; reflexivity]. Qed.

Lemma toy_other_keeps n a g (c : control_connection_t bytes) : globals_ok g ->
  let '(g', c', _) := toy_other n a g c in
  globals_ok g' /\ inbuf c' = inbuf c /\ incoming_cmd c' = incoming_cmd c /\ incoming_cmd_len c' = incoming_cmd_len c.
Proof. intros Hg. split; [exact Hg|]. split; [reflexivity|]. split; reflexivity. Defined.


(** A handler that disables cookies, as SETCONF does, in place of all others: the AUTHENTICATE that follows on a connection with an open challenge aborts. *)
Definition toy_setconf (_ : bytes) (_ : control_cmd_args_t) (g : globals) (c : control_connection_t bytes) : globals * control_connection_t bytes * Z := (fst (init_control_cookie_authentication toy_rand false true g), send send_control_done c, 0).

Definition ex_abort : bytes := s2b "AUTHENTICATE " ++ [34] ++ s2b "pw" ++ [34] ++ CRLF ++ s2b "AUTHCHALLENGE SAFECOOKIE 00ff" ++ CRLF ++ s2b "SETCONF CookieAuthentication=0" ++ CRLF ++ s2b "AUTHENTICATE 00" ++ CRLF.

Example setconf_aborts : connection_control_process_inbuf (s2b "HTTP/1.0 501") 0 toy_sha1 toy_hmac toy_expand toy_rand (s2b "0.4.8") (s2b "cookie") toy_setconf (mkworld ex_globals (ex_conn ex_abort) []) = Bug.
Proof. vm_compute. reflexivity. Qed.

Definition ex_text : bytes := s2b "+SIGNAL HALT" ++ [10] ++ s2b "." ++ [10] ++ s2b "QUIT" ++ [13; 10].
Definition ex_def : control_cmd_def_t := MULTLINE "hspost" 0 hspost_syntax.
Definition ex_out : bytes := match write_escaped_data ex_text with Ok o => o | _ => [] end.
Definition ex_open : world := mkworld ex_globals (set_state CONTROL_CONN_STATE_OPEN (set_input (first_line (s2b "+HSPost") ++ ex_out ++ s2b "GETINFO version" ++ CRLF) (Some []) 1024 (ex_conn []))) [].

Lemma data_delivered_witness :
  exists w', process_loop toy_sha1 toy_hmac toy_expand toy_rand (s2b "0.4.8") (s2b "cookie") toy_other 3 ex_open = process_loop toy_sha1 toy_hmac toy_expand toy_rand (s2b "0.4.8") (s2b "cookie") toy_other 2 w' /\
    inbuf (w_c w') = s2b "GETINFO version" ++ CRLF /\
    w_log w' = [mkcall (handle_other (s2b "hspost")) (mkargs (s2b "+HSPost") [] [] (Some (s2b "+SIGNAL HALT" ++ [10] ++ s2b "." ++ [10] ++ s2b "QUIT" ++ [10])) None) ex_globals None].
Proof.
  destruct (data_delivered toy_sha1 toy_hmac toy_expand toy_rand (s2b "0.4.8") (s2b "cookie") toy_other toy_other_keeps ex_def (s2b "+HSPost") ltac:(apply list_elem_of_In; cbn; tauto) eq_refl ltac:(repeat (apply List.Forall_cons; [split; discriminate|]); apply List.Forall_nil) eq_refl ex_open ex_text (s2b "GETINFO version" ++ CRLF) ex_out 2) as (w' & E & Hq & El);
    [reflexivity|reflexivity|reflexivity|exact ex_globals_ok|split; [discriminate|reflexivity]|vm_compute; reflexivity|reflexivity|vm_compute; discriminate|vm_compute; reflexivity|].
  exists w'. split; [exact E|]. split; [exact Hq|exact El].
Defined.
