(* ===== verification/Collate.v ===== *)
(** * Which entries of the votes are about the same relay

    Models feature/dirauth/dircollate.c: the collator takes the votes one after the other and puts the entries of the votes for a relay side by side, by their RSA identity and by the pair of RSA and Ed25519 identities.

    The order in which the hash tables are visited depends on the hash function, which is keyed at random, so the two orders are arguments of [dircollator_collate].  An entry of a vote is an object; [vrs_ptr] tells the objects apart, and the
    set [reflects] has those whose field [ed25519_reflects_consensus] is set. *)

From S2P Require Import Prelude DiOps Runs RouterVote.
From Stdlib Require Import ZArith Sorting.Sorted.
From stdpp Require Import base list sets gmap numbers sorting.
Open Scope Z_scope.

Record vote_entry := mkentry { vrs_ptr : Z; rsa_id : bytes; has_ed25519_listing : bool; ed25519_id : bytes }.

Abbreviation vrs_lst := (list (option vote_entry)).

Record dircollator_t := mkdc {
  is_collated : bool;
  n_votes : Z;
  n_authorities : Z;
  next_vote_num : Z;
  by_rsa_sha1 : gmap bytes vrs_lst;
  by_both_ids : gmap (bytes * bytes) vrs_lst;
  by_collated_rsa_sha1 : gmap bytes vrs_lst;
  all_rsa_sha1_lst : list bytes;
  reflects : gset Z
}.

(** ** Adding votes *)

Definition dircollator_new (n_votes n_authorities : Z) : cres dircollator_t :=
  assert! (n_votes <=? n_authorities);
  Ok (mkdc false n_votes n_authorities 0 ∅ ∅ ∅ [] ∅).

(** [tor_assert(vrs_lst[vote_num] == NULL); vrs_lst[vote_num] = vrs;] *)
Definition put_entry (l : vrs_lst) (vote_num : Z) (vrs : vote_entry) : cres vrs_lst :=
  match l !! Z.to_nat vote_num with
  | Some None => Ok (<[Z.to_nat vote_num := Some vrs]> l)
  | _ => Bug
  end.

Definition dircollator_add_routerstatus (dc : dircollator_t) (vote_num : Z) (vrs : vote_entry) : cres dircollator_t :=
  let cleared := reflects dc ∖ {[ vrs_ptr vrs ]} in
  let empty := replicate (Z.to_nat (n_votes dc)) None in
  let* l := put_entry (default empty (by_rsa_sha1 dc !! rsa_id vrs)) vote_num vrs in
  let rsa := <[rsa_id vrs := l]> (by_rsa_sha1 dc) in
  if negb (has_ed25519_listing vrs) then
    Ok (mkdc (is_collated dc) (n_votes dc) (n_authorities dc) (next_vote_num dc) rsa (by_both_ids dc) (by_collated_rsa_sha1 dc) (all_rsa_sha1_lst dc) cleared)
  else
    let search := (rsa_id vrs, ed25519_id vrs) in
    let* l := put_entry (default empty (by_both_ids dc !! search)) vote_num vrs in
    Ok (mkdc (is_collated dc) (n_votes dc) (n_authorities dc) (next_vote_num dc) rsa (<[search := l]> (by_both_ids dc)) (by_collated_rsa_sha1 dc) (all_rsa_sha1_lst dc) cleared).

Fixpoint add_entries (dc : dircollator_t) (votenum : Z) (routerstatus_list : list vote_entry) : cres dircollator_t :=
  match routerstatus_list with
  | [] => Ok dc
  | vrs :: rest => let* dc := dircollator_add_routerstatus dc votenum vrs in add_entries dc votenum rest
  end.

Definition dircollator_add_vote (dc : dircollator_t) (v : list vote_entry) : cres dircollator_t :=
  assert! (next_vote_num dc <? n_votes dc);
  assert! (negb (is_collated dc));
  let votenum := next_vote_num dc in
  add_entries (mkdc (is_collated dc) (n_votes dc) (n_authorities dc) (next_vote_num dc + 1) (by_rsa_sha1 dc) (by_both_ids dc) (by_collated_rsa_sha1 dc) (all_rsa_sha1_lst dc) (reflects dc)) votenum v.

Fixpoint add_votes (dc : dircollator_t) (votes : list (list vote_entry)) : cres dircollator_t :=
  match votes with
  | [] => Ok dc
  | v :: votes => let* dc := dircollator_add_vote dc v in add_votes dc votes
  end.

(** ** Collating *)

(** The number of members that are not [NULL]. *)
Fixpoint n_listed (l : vrs_lst) : Z :=
  match l with
  | [] => 0
  | Some _ :: l => n_listed l + 1
  | None :: l => n_listed l
  end.

(** The loop that fills the gaps with entries that have no Ed25519 listing. *)
Fixpoint fill_gaps (vrs_lst2 : vrs_lst) (l : vrs_lst) : vrs_lst :=
  match l, vrs_lst2 with
  | Some x :: l, _ :: l2 => Some x :: fill_gaps l2 l
  | None :: l, Some y :: l2 => (if negb (has_ed25519_listing y) then Some y else None) :: fill_gaps l2 l
  | None :: l, None :: l2 => None :: fill_gaps l2 l
  | _, _ => l
  end.

(** The objects in an array. *)
Fixpoint ptrs (l : vrs_lst) : gset Z :=
  match l with
  | [] => ∅
  | Some x :: l => {[ vrs_ptr x ]} ∪ ptrs l
  | None :: l => ptrs l
  end.

Definition enough (dc : dircollator_t) (l : vrs_lst) : bool := negb (n_listed l <=? n_authorities dc / 2).

(** The map and the list that are built, the table of pairs, whose arrays are filled up in place, and the objects that are marked. *)
Record collation := mkcoll { co_map : gmap bytes vrs_lst; co_list : list bytes; co_both : gmap (bytes * bytes) vrs_lst; co_reflects : gset Z }.

(** [HT_FOREACH] over the pairs. *)
Fixpoint collate_pairs (dc : dircollator_t) (iter : list (bytes * bytes)) (co : collation) : cres collation :=
  match iter with
  | [] => Ok co
  | (rsa, ed) :: iter =>
      match co_both co !! (rsa, ed) with
      | None => Bug
      | Some l =>
          if negb (enough dc l) then collate_pairs dc iter co
          else
            match by_rsa_sha1 dc !! rsa with
            | None => Bug
            | Some vrs_lst2 =>
                let filled := fill_gaps vrs_lst2 l in
                collate_pairs dc iter (mkcoll (<[rsa := filled]> (co_map co)) (co_list co ++ [rsa]) (<[(rsa, ed) := filled]> (co_both co)) (ptrs l ∪ co_reflects co))
            end
      end
  end.

(** [DIGESTMAP_FOREACH] over the RSA identities. *)
Fixpoint collate_rsa (dc : dircollator_t) (iter : list bytes) (co : collation) : cres collation :=
  match iter with
  | [] => Ok co
  | k :: iter =>
      match co_map co !! k with
      | Some _ => collate_rsa dc iter co
      | None =>
          match by_rsa_sha1 dc !! k with
          | None => Bug
          | Some l =>
              if negb (enough dc l) then collate_rsa dc iter co
              else collate_rsa dc iter (mkcoll (<[k := l]> (co_map co)) (co_list co ++ [k]) (co_both co) (co_reflects co))
          end
      end
  end.

Definition dircollator_collate_by_ed25519 (dc : dircollator_t) (iter_both : list (bytes * bytes)) (iter_rsa : list bytes) : cres collation :=
  let* co := collate_pairs dc iter_both (mkcoll ∅ (all_rsa_sha1_lst dc) (by_both_ids dc) (reflects dc)) in
  collate_rsa dc iter_rsa co.

Definition compare_digests_ (a b : bytes) : Z := memcmp (take 20 a) (take 20 b).
Definition smartlist_sort_digests (l : list bytes) : list bytes := sort_by compare_digests_ l.

Definition dircollator_collate (dc : dircollator_t) (iter_both : list (bytes * bytes)) (iter_rsa : list bytes) : cres dircollator_t :=
  assert! (negb (is_collated dc));
  let dc := mkdc (is_collated dc) (n_votes dc) (n_authorities dc) (next_vote_num dc) (by_rsa_sha1 dc) (by_both_ids dc) (by_collated_rsa_sha1 dc) [] (reflects dc) in
  let* co := dircollator_collate_by_ed25519 dc iter_both iter_rsa in
  Ok (mkdc true (n_votes dc) (n_authorities dc) (next_vote_num dc) (by_rsa_sha1 dc) (co_both co) (co_map co) (smartlist_sort_digests (co_list co)) (co_reflects co)).

(** ** Results *)

Definition dircollator_n_routers (dc : dircollator_t) : cres Z := assert! (is_collated dc); Ok (zlen (all_rsa_sha1_lst dc)).

Definition dircollator_get_votes_for_router (dc : dircollator_t) (idx : Z) : cres (option vrs_lst) :=
  assert! (is_collated dc);
  assert! (idx <? zlen (all_rsa_sha1_lst dc));
  match all_rsa_sha1_lst dc !! Z.to_nat idx with
  | Some k => Ok (by_collated_rsa_sha1 dc !! k)
  | None => Bug
  end.

(** ** What the votes say about a relay *)

Definition entry (r : bytes) (v : list vote_entry) : option vote_entry := List.find (fun x => bytes_eqb (rsa_id x) r) v.

(** The entry, if it lists the Ed25519 identity [e]. *)
Definition pair_entry (r e : bytes) (v : list vote_entry) : option vote_entry :=
  match entry r v with
  | Some x => if has_ed25519_listing x && bytes_eqb (ed25519_id x) e then Some x else None
  | None => None
  end.

(** The entry, unless it lists another Ed25519 identity. *)
Definition agreeing_entry (r e : bytes) (v : list vote_entry) : option vote_entry :=
  match entry r v with
  | Some x => if negb (has_ed25519_listing x) || bytes_eqb (ed25519_id x) e then Some x else None
  | None => None
  end.

Section Spec.
Variable votes : list (list vote_entry).
Variable total_authorities : Z.

Definition majority (f : list vote_entry -> option vote_entry) : Prop := total_authorities / 2 < n_listed (map f votes).

(** The rule at the head of [dircollator_collate_by_ed25519]. *)
Inductive collated (r : bytes) : vrs_lst -> Prop :=
| collated_by_pair e : majority (pair_entry r e) -> collated r (map (agreeing_entry r e) votes)
| collated_by_rsa : (forall e, ~ majority (pair_entry r e)) -> majority (entry r) -> collated r (map (entry r) votes).

End Spec.

(** ** The tables hold a column for each vote *)

Definition column (f : list vote_entry -> option vote_entry) (votes : list (list vote_entry)) (n : nat) : vrs_lst := map f votes ++ replicate (n - length votes) None.

Record collects (dc : dircollator_t) (votes : list (list vote_entry)) : Prop := mk_collects {
  cl_fresh : is_collated dc = false /\ reflects dc = ∅;
  cl_rsa r : default (replicate (Z.to_nat (n_votes dc)) None) (by_rsa_sha1 dc !! r) = column (entry r) votes (Z.to_nat (n_votes dc));
  cl_both r e : default (replicate (Z.to_nat (n_votes dc)) None) (by_both_ids dc !! (r, e)) = column (pair_entry r e) votes (Z.to_nat (n_votes dc))
}.

Lemma column_snoc f vs p n : (length vs < n)%nat -> column f (vs ++ [p]) n = map f vs ++ f p :: replicate (n - S (length vs)) None.
Proof. intros Hn. unfold column. rewrite map_app, length_app, <- app_assoc. cbn [map app length]. by rewrite Nat.add_1_r. Qed.

Lemma column_start f vs n : f [] = None -> (length vs < n)%nat -> column f (vs ++ [[]]) n = column f vs n.
Proof. intros Hf Hn. rewrite column_snoc by done. unfold column. rewrite Hf. replace (n - length vs)%nat with (S (n - S (length vs))) by lia. reflexivity. Qed.

Lemma column_full f vs : column f vs (length vs) = map f vs.
Proof. unfold column. by rewrite Nat.sub_diag, app_nil_r. Qed.

Lemma put_column f vs p n x : f p = None -> (length vs < n)%nat -> put_entry (column f (vs ++ [p]) n) (Z.of_nat (length vs)) x = Ok (map f vs ++ Some x :: replicate (n - S (length vs)) None).
Proof.
  intros Hf Hn. rewrite column_snoc by done. unfold put_entry. rewrite Nat2Z.id, Hf. generalize (replicate (n - S (length vs)) (@None vote_entry)). intros t. rewrite <- (length_map f vs). rewrite list_lookup_middle by done. f_equal. generalize (map f vs). intros a. induction a as [|y a IH]; [done|]. exact (f_equal (cons y) IH).
Qed.

Lemma entry_snoc r p x : entry r (p ++ [x]) = match entry r p with Some y => Some y | None => if bytes_eqb (rsa_id x) r then Some x else None end.
Proof. unfold entry. induction p as [|y p IH]; cbn [app List.find]; [by destruct (bytes_eqb _ _)|]. by destruct (bytes_eqb (rsa_id y) r). Qed.

Lemma pair_entry_none r e p : entry r p = None -> pair_entry r e p = None.
Proof. unfold pair_entry. by intros ->. Qed.

Lemma entry_other r p x : rsa_id x <> r -> entry r (p ++ [x]) = entry r p.
Proof. intros Hr. rewrite entry_snoc. destruct (bytes_eqb (rsa_id x) r) eqn:E; [by apply bytes_eqb_eq in E|]. by destruct (entry r p). Qed.

Lemma entry_new p x : entry (rsa_id x) p = None -> entry (rsa_id x) (p ++ [x]) = Some x.
Proof. intros Hp. by rewrite entry_snoc, Hp, bytes_eqb_refl. Qed.

Lemma pair_entry_other r e p x : rsa_id x <> r -> pair_entry r e (p ++ [x]) = pair_entry r e p.
Proof. intros Hr. unfold pair_entry. by rewrite entry_other. Qed.

Lemma pair_entry_new e p x : entry (rsa_id x) p = None -> pair_entry (rsa_id x) e (p ++ [x]) = if has_ed25519_listing x && bytes_eqb (ed25519_id x) e then Some x else None.
Proof. intros Hp. unfold pair_entry. by rewrite entry_new. Qed.

Lemma add_routerstatus_ok dc vs p x :
  collects dc (vs ++ [p]) -> (length vs < Z.to_nat (n_votes dc))%nat -> entry (rsa_id x) p = None ->
  exists dc', dircollator_add_routerstatus dc (Z.of_nat (length vs)) x = Ok dc' /\ collects dc' (vs ++ [p ++ [x]]) /\ n_votes dc' = n_votes dc /\ n_authorities dc' = n_authorities dc /\ next_vote_num dc' = next_vote_num dc.
Proof.
  intros [[Hf Hr] Hrsa Hboth] Hn Hx. unfold dircollator_add_routerstatus. rewrite Hrsa, put_column by done. cbn [cbind].
  assert (forall l r, l = map (entry (rsa_id x)) vs ++ Some x :: replicate (Z.to_nat (n_votes dc) - S (length vs)) None -> default (replicate (Z.to_nat (n_votes dc)) None) (<[rsa_id x := l]> (by_rsa_sha1 dc) !! r) = column (entry r) (vs ++ [p ++ [x]]) (Z.to_nat (n_votes dc))) as Hrsa'.
  { intros l r ->. rewrite column_snoc by done. destruct (decide (rsa_id x = r)) as [<-|Hne]; [by rewrite lookup_insert_eq, entry_new|]. rewrite lookup_insert_ne, Hrsa, column_snoc by done. by rewrite entry_other. }
  destruct (has_ed25519_listing x) eqn:El; cbn [negb].
  - rewrite Hboth, put_column by (done || by apply pair_entry_none). cbn [cbind]. eexists. split; [done|]. split; [|done]. split; cbn; [rewrite Hr; split; [done|set_solver]|intros r; by apply Hrsa'|].
    intros r e. rewrite column_snoc by done. destruct (decide ((rsa_id x, ed25519_id x) = (r, e))) as [[= <- <-]|Hne].
    + by rewrite lookup_insert_eq, pair_entry_new, El, bytes_eqb_refl.
    + rewrite lookup_insert_ne, Hboth, column_snoc by done. f_equal. f_equal. destruct (decide (rsa_id x = r)) as [<-|Hr']; [|by rewrite pair_entry_other]. rewrite (pair_entry_none _ _ p) by done.
      rewrite pair_entry_new by done. destruct (bytes_eqb (ed25519_id x) e) eqn:Ee; [apply bytes_eqb_eq in Ee; congruence|]. by rewrite andb_false_r.
  - eexists. split; [done|]. split; [|done]. split; cbn; [rewrite Hr; split; [done|set_solver]|intros r; by apply Hrsa'|].
    intros r e. rewrite Hboth, !column_snoc by done. f_equal. f_equal. destruct (decide (rsa_id x = r)) as [<-|Hr']; [|by rewrite pair_entry_other]. rewrite (pair_entry_none _ _ p) by done. by rewrite pair_entry_new, El.
Qed.

(** A vote lists a relay at most once. *)
Definition vote_distinct (v : list vote_entry) : Prop := NoDup (map rsa_id v).

Lemma entry_fresh p x rest : vote_distinct (p ++ x :: rest) -> entry (rsa_id x) p = None.
Proof.
  unfold vote_distinct. rewrite map_app. cbn [map]. intros (_ & Hd & _)%NoDup_app. unfold entry. destruct (List.find _ p) as [y|] eqn:E; [|done]. apply List.find_some in E as [Hin E%bytes_eqb_eq]. exfalso. apply (Hd (rsa_id y)); [apply list_elem_of_In, in_map, Hin|].
  rewrite E. by left.
Qed.

Lemma add_entries_ok rest : forall dc vs p,
  collects dc (vs ++ [p]) -> (length vs < Z.to_nat (n_votes dc))%nat -> vote_distinct (p ++ rest) ->
  exists dc', add_entries dc (Z.of_nat (length vs)) rest = Ok dc' /\ collects dc' (vs ++ [p ++ rest]) /\ n_votes dc' = n_votes dc /\ n_authorities dc' = n_authorities dc /\ next_vote_num dc' = next_vote_num dc.
Proof.
  induction rest as [|x rest IH]; intros dc vs p Hc Hn Hd; cbn [add_entries]; [exists dc; by rewrite app_nil_r|].
  destruct (add_routerstatus_ok dc vs p x Hc Hn) as (dc1 & -> & Hc1 & E1 & E2 & E3); [by eapply entry_fresh|]. cbn [cbind].
  destruct (IH dc1 vs (p ++ [x])) as (dc' & E & Hc' & E1' & E2' & E3'); [done|by rewrite E1|by rewrite <- app_assoc|]. exists dc'. rewrite <- app_assoc in Hc'. split_and!; [done|done|congruence..].
Qed.

Lemma add_vote_ok dc vs v : collects dc vs -> next_vote_num dc = zlen vs -> zlen vs < n_votes dc -> vote_distinct v ->
  exists dc', dircollator_add_vote dc v = Ok dc' /\ collects dc' (vs ++ [v]) /\ n_votes dc' = n_votes dc /\ n_authorities dc' = n_authorities dc /\ next_vote_num dc' = zlen (vs ++ [v]).
Proof.
  intros [[Hf Hr] Hrsa Hboth] Hnext Hn Hv. assert (length vs < Z.to_nat (n_votes dc))%nat as Hn' by (unfold zlen in Hn; lia). unfold dircollator_add_vote. rewrite (proj2 (Z.ltb_lt _ _)) by lia. rewrite Hf. cbn [negb]. rewrite Hnext. change (zlen vs) with (Z.of_nat (length vs)) at 2.
  match goal with |- context [add_entries ?d _ _] => destruct (add_entries_ok v d vs []) as (dc' & -> & Hc & E1 & E2 & E3) end; [split; cbn; [done|intros r; by rewrite column_start|intros r e; by rewrite column_start]|done|done|].
  cbn [app n_votes n_authorities next_vote_num] in *. exists dc'. split_and!; [done|done|done|done|rewrite E3; zlia].
Qed.

Lemma add_votes_ok votes : forall dc vs, collects dc vs -> next_vote_num dc = zlen vs -> zlen vs + zlen votes <= n_votes dc -> Forall vote_distinct votes ->
  exists dc', add_votes dc votes = Ok dc' /\ collects dc' (vs ++ votes) /\ n_votes dc' = n_votes dc /\ n_authorities dc' = n_authorities dc.
Proof.
  induction votes as [|v votes IH]; intros dc vs Hc Hnext Hn Hd; cbn [add_votes]; [exists dc; by rewrite app_nil_r|]. inversion_clear Hd. pose proof (zlen_nonneg votes). rewrite zlen_cons in Hn.
  destruct (add_vote_ok dc vs v) as (dc1 & -> & Hc1 & E1 & E2 & E3); [done|done|lia|done|]. cbn [cbind]. destruct (IH dc1 (vs ++ [v])) as (dc' & E & Hc' & E1' & E2'); [done|done|rewrite E1; zlia|done|].
  exists dc'. rewrite <- app_assoc in Hc'. split_and!; [done|done|congruence..].
Qed.

(** ** Counting *)

Lemma n_listed_bound l : 0 <= n_listed l <= zlen l.
Proof. induction l as [|[x|] l IH]; cbn [n_listed]; [done|rewrite zlen_cons; lia..]. Qed.

Lemma n_listed_none {A} (f : A -> option vote_entry) l : (forall x, x ∈ l -> f x = None) -> n_listed (map f l) = 0.
Proof. induction l as [|x l IH]; intros Hf; [done|]. cbn [map n_listed]. rewrite (Hf x) by (by left). apply IH. intros y Hy. apply Hf. by right. Qed.

Lemma n_listed_some {A} (f : A -> option vote_entry) l : 0 < n_listed (map f l) -> exists x e, x ∈ l /\ f x = Some e.
Proof.
  induction l as [|x l IH]; cbn [map n_listed]; [done|]. destruct (f x) as [e|] eqn:E; [intros _; exists x, e; split; [by left|done]|]. intros (y & e & Hy & Hf)%IH. exists y, e. split; [by right|done].
Qed.

Lemma pair_counts r e1 e2 vs : e1 <> e2 -> n_listed (map (pair_entry r e1) vs) + n_listed (map (pair_entry r e2) vs) <= zlen vs.
Proof.
  intros Hne. induction vs as [|v vs IH]; [done|]. cbn [map]. rewrite zlen_cons. unfold pair_entry at 1 3. destruct (entry r v) as [x|]; [|cbn [n_listed]; lia].
  destruct (has_ed25519_listing x); cbn [andb]; [|cbn [n_listed]; lia]. destruct (bytes_eqb (ed25519_id x) e1) eqn:E1, (bytes_eqb (ed25519_id x) e2) eqn:E2; cbn [n_listed]; try lia. apply bytes_eqb_eq in E1, E2. congruence.
Qed.

Lemma fill_agreeing r e vs : fill_gaps (map (entry r) vs) (map (pair_entry r e) vs) = map (agreeing_entry r e) vs.
Proof.
  induction vs as [|v vs IH]; [done|]. cbn [map]. unfold pair_entry at 1, agreeing_entry at 1. destruct (entry r v) as [x|]; [|cbn [fill_gaps]; by rewrite IH]. destruct (has_ed25519_listing x) eqn:El; cbn [andb negb orb].
  - destruct (bytes_eqb _ _); cbn [fill_gaps]; rewrite ?El; cbn [negb]; by rewrite IH.
  - cbn [fill_gaps]. rewrite El. cbn [negb]. by rewrite IH.
Qed.

(** ** The two loops *)

Section Loops.
Variable votes : list (list vote_entry).
Variable dc : dircollator_t.
Hypothesis Hcol : collects dc votes.
Hypothesis Hlen : n_votes dc = zlen votes.
Hypothesis Hauth : zlen votes <= n_authorities dc.

Abbreviation maj := (majority votes (n_authorities dc)).

Lemma half_nonneg : 0 <= n_authorities dc / 2.
Proof. apply Z.div_pos; [pose proof (zlen_nonneg votes)|]; lia. Qed.

Lemma rsa_column r : match by_rsa_sha1 dc !! r with Some l => l = map (entry r) votes | None => forall f, (forall v, entry r v = None -> f v = None) -> ~ maj f end.
Proof.
  pose proof (cl_rsa _ _ Hcol r) as E. rewrite Hlen in E. unfold zlen in E. rewrite Nat2Z.id, column_full in E. destruct (by_rsa_sha1 dc !! r) as [l|]; [done|]. intros f Hf. unfold majority. rewrite n_listed_none; [pose proof half_nonneg; lia|].
  intros v Hv. apply Hf. cbn [default] in E. apply list_elem_of_lookup in Hv as [i Hi]. assert (map (entry r) votes !! i = Some (entry r v)) as Hm by (by rewrite list_lookup_fmap, Hi). rewrite <- E in Hm. by apply lookup_replicate in Hm as [? _].
Qed.

Lemma pair_column r e : match by_both_ids dc !! (r, e) with Some l => l = map (pair_entry r e) votes | None => ~ maj (pair_entry r e) end.
Proof.
  pose proof (cl_both _ _ Hcol r e) as E. rewrite Hlen in E. unfold zlen in E. rewrite Nat2Z.id, column_full in E. destruct (by_both_ids dc !! (r, e)) as [l|]; [done|]. unfold majority. rewrite <- E. cbn [default].
  assert (forall n, n_listed (replicate n None) = 0) as -> by (induction n; done). pose proof half_nonneg. lia.
Qed.

Lemma enough_maj f : enough dc (map f votes) = true <-> maj f.
Proof. unfold enough, majority. destruct (Z.leb_spec (n_listed (map f votes)) (n_authorities dc / 2)); cbn [negb]; split; done || lia. Qed.

(** At most one Ed25519 identity has a majority. *)
Lemma maj_unique r e1 e2 : maj (pair_entry r e1) -> maj (pair_entry r e2) -> e1 = e2.
Proof.
  unfold majority. intros H1 H2. destruct (decide (e1 = e2)) as [|Hne]; [done|]. pose proof (pair_counts r e1 e2 votes Hne). pose proof (Z.mod_pos_bound (n_authorities dc) 2 ltac:(lia)). pose proof (Z.div_mod (n_authorities dc) 2 ltac:(lia)). lia.
Qed.

Lemma maj_pair_entry r e : maj (pair_entry r e) -> exists l, by_rsa_sha1 dc !! r = Some l.
Proof. intros Hm. pose proof (rsa_column r) as Hr. destruct (by_rsa_sha1 dc !! r) as [l|]; [by exists l|]. exfalso. eapply Hr; [|exact Hm]. intros v. apply pair_entry_none. Qed.

(** After the pairs in [done]. *)
Record paired (don : list (bytes * bytes)) (co : collation) : Prop := mk_paired {
  pa_map r l : co_map co !! r = Some l <-> exists e, (r, e) ∈ don /\ maj (pair_entry r e) /\ l = map (agreeing_entry r e) votes;
  pa_nodup : NoDup (co_list co);
  pa_list r : r ∈ co_list co <-> is_Some (co_map co !! r);
  pa_both k : k ∉ don -> co_both co !! k = by_both_ids dc !! k;
  pa_reflects p : p ∈ co_reflects co <-> exists r e, (r, e) ∈ don /\ maj (pair_entry r e) /\ p ∈ ptrs (map (pair_entry r e) votes)
}.

Lemma pairs_ok iter : forall don co, paired don co -> NoDup (don ++ iter) -> (forall k, k ∈ iter -> is_Some (by_both_ids dc !! k)) -> exists co', collate_pairs dc iter co = Ok co' /\ paired (don ++ iter) co'.
Proof.
  induction iter as [|[r e] iter IH]; intros don co Hp Hnd Hin; cbn [collate_pairs]; [exists co; by rewrite app_nil_r|]. assert ((r, e) ∉ don) as Hnew by (apply NoDup_app in Hnd as (_ & Hd & _); intros H; apply (Hd _ H); by left).
  rewrite (pa_both _ _ Hp) by done. destruct (Hin (r, e)) as [l El]; [by left|]. pose proof (pair_column r e) as Hl. rewrite El in *. subst l.
  replace (don ++ (r, e) :: iter) with ((don ++ [(r, e)]) ++ iter) in * by lassoc. assert (forall k, k ∈ iter -> is_Some (by_both_ids dc !! k)) as Hin' by (intros k Hk; apply Hin; by right).
  destruct (enough dc (map (pair_entry r e) votes)) eqn:Em; cbn [negb].
  - apply enough_maj in Em. destruct (maj_pair_entry r e Em) as [l2 E2]. pose proof (rsa_column r) as Hr. rewrite E2 in *. subst l2. rewrite fill_agreeing. apply IH; [|done|done]. destruct Hp as [P1 P2 P3 P4 P5].
    assert (forall e', (r, e') ∈ don -> ~ maj (pair_entry r e')) as Hold by (intros e' Hd Hm; rewrite (maj_unique r e' e) in Hd by done; done).
    split; cbn [co_map co_list co_both co_reflects].
    + intros r' l. destruct (decide (r = r')) as [<-|Hne].
      * rewrite lookup_insert_eq. split; [intros [= <-]; exists e; split_and!; [apply elem_of_app; right; by left|done|done]|]. intros (e' & _ & Hm & ->). by rewrite (maj_unique r e' e).
      * rewrite lookup_insert_ne by done. rewrite P1. split; intros (e' & Hd & Hr); exists e'; (split; [|done]); [apply elem_of_app; by left|]. apply elem_of_app in Hd as [?|Hd]; [done|]. apply list_elem_of_singleton in Hd. congruence.
    + apply NoDup_app. split; [done|]. split; [|apply NoDup_singleton]. intros x Hx ->%list_elem_of_singleton. apply P3 in Hx as [l Hx]. apply P1 in Hx as (e' & Hd & Hm & _). by apply (Hold e').
    + intros r'. rewrite elem_of_app, list_elem_of_singleton, P3. destruct (decide (r = r')) as [<-|Hne]; [rewrite lookup_insert_eq; split; [by eexists|by right]|]. rewrite lookup_insert_ne by done. split; [intros [?|?]; [done|congruence]|by left].
    + intros k Hk. rewrite elem_of_app, list_elem_of_singleton in Hk. rewrite lookup_insert_ne by (intros <-; apply Hk; by right). apply P4. intros H. apply Hk. by left.
    + intros p. rewrite elem_of_union, P5. split.
      * intros [Hpt|(r' & e' & Hd & Hr)]; [exists r, e; split_and!; [apply elem_of_app; right; by left|done|done]|]. exists r', e'. split; [apply elem_of_app; by left|done].
      * intros (r' & e' & [Hd|[= -> ->]%list_elem_of_singleton]%elem_of_app & Hr); [right; by exists r', e'|left; apply Hr].
  - assert (~ maj (pair_entry r e)) as Hno by (intros Hm%enough_maj; congruence). apply IH; [|done|done]. destruct Hp as [P1 P2 P3 P4 P5].
    assert (forall r' e', maj (pair_entry r' e') -> (r', e') ∈ don ++ [(r, e)] <-> (r', e') ∈ don) as Hsame by (intros r' e' Hm; rewrite elem_of_app, list_elem_of_singleton; split; [intros [?|[= -> ->]]; done|by left]).
    split; [|done|done|intros k Hk; apply P4; intros H; apply Hk, elem_of_app; by left|].
    + intros r' l. rewrite P1. split; intros (e' & Hd & Hm & Hl'); exists e'; (split; [by apply Hsame|done]).
    + intros p. rewrite P5. split; intros (r' & e' & Hd & Hm & Hl'); exists r', e'; (split; [by apply Hsame|done]).
Qed.

(** After the pairs and the RSA identities in [don]. *)
Record finished (don : list bytes) (co : collation) : Prop := mk_finished {
  fi_map r l : co_map co !! r = Some l <-> (exists e, maj (pair_entry r e) /\ l = map (agreeing_entry r e) votes) \/ (r ∈ don /\ (forall e, ~ maj (pair_entry r e)) /\ maj (entry r) /\ l = map (entry r) votes);
  fi_nodup : NoDup (co_list co);
  fi_list r : r ∈ co_list co <-> is_Some (co_map co !! r)
}.

Lemma rsa_ok iter : forall don co, finished don co -> NoDup (don ++ iter) -> (forall k, k ∈ iter -> is_Some (by_rsa_sha1 dc !! k)) ->
  exists co', collate_rsa dc iter co = Ok co' /\ finished (don ++ iter) co' /\ co_reflects co' = co_reflects co.
Proof.
  induction iter as [|k iter IH]; intros don co Hf Hnd Hin; cbn [collate_rsa]; [exists co; by rewrite app_nil_r|]. assert (k ∉ don) as Hnew by (apply NoDup_app in Hnd as (_ & Hd & _); intros H; apply (Hd _ H); by left).
  replace (don ++ k :: iter) with ((don ++ [k]) ++ iter) in * by lassoc. assert (forall x, x ∈ iter -> is_Some (by_rsa_sha1 dc !! x)) as Hin' by (intros x Hx; apply Hin; by right).
  destruct Hf as [F1 F2 F3].
  assert (finished (don ++ [k]) co <-> forall l, (forall e, ~ maj (pair_entry k e)) -> maj (entry k) -> l = map (entry k) votes -> co_map co !! k = Some l) as Hskip.
  { split; [intros [G1 _ _] l H1 H2 ->; apply G1; right; split_and!; [apply elem_of_app; right; by left|done..]|]. intros Hk. split; [|done|done]. intros r l. rewrite F1. split; (intros [He|(Hd & Hr)]; [by left|right]); [split; [apply elem_of_app; by left|done]|].
    apply elem_of_app in Hd as [?| ->%list_elem_of_singleton]; [done|]. exfalso. destruct Hr as (H1 & H2 & ->). specialize (Hk _ H1 H2 eq_refl). apply F1 in Hk as [(e & Hm & _)|[? _]]; [by apply H1 in Hm|done]. }
  destruct (co_map co !! k) as [l0|] eqn:Ek.
  - apply IH; [|done|done]. apply Hskip. intros l H1 H2 _. apply F1 in Ek as [(e & Hm & _)|[? _]]; [by apply H1 in Hm|done].
  - destruct (Hin k) as [l El]; [by left|]. pose proof (rsa_column k) as Hl. rewrite El in *. subst l. destruct (enough dc (map (entry k) votes)) eqn:Em; cbn [negb].
    + apply enough_maj in Em. assert (forall e, ~ maj (pair_entry k e)) as Hno by (intros e Hm; assert (co_map co !! k = Some (map (agreeing_entry k e) votes)) by (apply F1; left; by exists e); congruence).
      match goal with |- context [collate_rsa dc iter ?c] => destruct (IH (don ++ [k]) c) as (co' & E & Hc & Hr) end; [|done|done|exists co'; split_and!; [exact E|done|exact Hr]]. split; cbn [co_map co_list].
      * intros r l. destruct (decide (k = r)) as [<-|Hne].
        -- rewrite lookup_insert_eq. split; [intros [= <-]; right; split_and!; [apply elem_of_app; right; by left|done..]|]. intros [(e & Hm & _)|(_ & _ & _ & ->)]; [by apply Hno in Hm|done].
        -- rewrite lookup_insert_ne by done. rewrite F1. split; (intros [He|(Hd & Hr)]; [by left|right; split; [|done]]); [apply elem_of_app; by left|]. apply elem_of_app in Hd as [?|?%list_elem_of_singleton]; [done|congruence].
      * apply NoDup_app. split; [done|]. split; [|apply NoDup_singleton]. intros x Hx ->%list_elem_of_singleton. apply F3 in Hx as [l Hx]. congruence.
      * intros r. rewrite elem_of_app, list_elem_of_singleton, F3. destruct (decide (k = r)) as [<-|Hne]; [rewrite lookup_insert_eq; split; [by eexists|by right]|]. rewrite lookup_insert_ne by done. split; [intros [?|?]; [done|congruence]|by left].
    + apply IH; [|done|done]. apply Hskip. intros l _ Hm%enough_maj _. congruence.
Qed.

End Loops.

(** ** Collation follows the rule *)

Definition digest_sized (v : list vote_entry) : Prop := Forall (fun x => length (rsa_id x) = 20%nat) v.

Lemma sort_digests_strict l : NoDup l -> Forall (fun d => length d = 20%nat) l -> StronglySorted (fun a b => compare_digests_ a b < 0) (smartlist_sort_digests l).
Proof.
  intros Hnd Hl. assert (good_cmp (fun d : bytes => length d = 20%nat) compare_digests_) as Hg by (apply (good_memcmp _ (take 20) 20); intros x Hx; cbv beta in Hx; rewrite length_take; lia).
  pose proof (sort_by_sorted compare_digests_ (fun d => length d = 20%nat) (gc_trans _ _ Hg) (fun x y => good_total _ _ x y Hg) l Hl) as Hs. unfold smartlist_sort_digests. assert (NoDup (sort_by compare_digests_ l)) as Hnd' by (by rewrite sort_by_perm).
  assert (Forall (fun d => length d = 20%nat) (sort_by compare_digests_ l)) as Hl' by (by rewrite sort_by_perm). clear Hnd Hl. induction Hs as [|a s Hs IH Ha]; [constructor|]. apply NoDup_cons in Hnd' as [Hn Hnd']. apply Forall_cons in Hl' as [Hla Hl'].
  constructor; [by apply IH|]. rewrite Forall_forall in *. intros b Hb. specialize (Ha b Hb). specialize (Hl' b Hb). unfold le_by, compare_digests_ in *. rewrite !take_ge in * by lia. assert (memcmp a b <> 0); [|lia]. intros E. apply memcmp_eq in E as ->; [done|congruence].
Qed.

Lemma collated_length votes total r l : 0 <= total -> Forall digest_sized votes -> collated votes total r l -> length r = 20%nat.
Proof.
  intros Ht Hs Hc. pose proof (Z.div_pos total 2 Ht ltac:(lia)) as Hh. assert (exists v x, v ∈ votes /\ entry r v = Some x) as (v & x & Hv & E).
  { destruct Hc as [e Hm|_ Hm]; unfold majority in Hm.
    - destruct (n_listed_some (pair_entry r e) votes) as (v & x & Hv & E); [lia|]. exists v. unfold pair_entry in E. destruct (entry r v) as [y|] eqn:Ey; [by exists y|done].
    - destruct (n_listed_some (entry r) votes) as (v & x & Hv & E); [lia|]. by exists v, x. }
  rewrite Forall_forall in Hs. specialize (Hs v Hv). apply List.find_some in E as [Hin <-%bytes_eqb_eq]. unfold digest_sized in Hs. rewrite Forall_forall in Hs. by apply Hs, list_elem_of_In.
Qed.

Lemma keys_in {K A} `{Countable K} (m : gmap K A) (iter : list K) : iter ≡ₚ (map_to_list m).*1 -> NoDup iter /\ forall k, k ∈ iter <-> is_Some (m !! k).
Proof.
  intros Hp. split; [rewrite Hp; apply NoDup_fst_map_to_list|]. intros k. rewrite Hp, list_elem_of_fmap. split.
  - intros ([k' x] & -> & Hx). apply elem_of_map_to_list in Hx. by eexists.
  - intros [x Hx]. exists (k, x). split; [done|]. by apply elem_of_map_to_list.
Qed.

Lemma collate_ok votes dc iter_both iter_rsa : collects dc votes -> n_votes dc = zlen votes -> zlen votes <= n_authorities dc ->
  iter_both ≡ₚ (map_to_list (by_both_ids dc)).*1 -> iter_rsa ≡ₚ (map_to_list (by_rsa_sha1 dc)).*1 ->
  exists dc' l, dircollator_collate dc iter_both iter_rsa = Ok dc' /\ all_rsa_sha1_lst dc' = smartlist_sort_digests l /\ NoDup l /\ (forall r, r ∈ l <-> is_Some (by_collated_rsa_sha1 dc' !! r)) /\
    (forall r x, by_collated_rsa_sha1 dc' !! r = Some x <-> collated votes (n_authorities dc) r x) /\
    (forall p, p ∈ reflects dc' <-> exists r e, majority votes (n_authorities dc) (pair_entry r e) /\ p ∈ ptrs (map (pair_entry r e) votes)).
Proof.
  intros Hc Hn Ha Hib Hir. unfold dircollator_collate. destruct (cl_fresh _ _ Hc) as [Hf Hre]. rewrite Hf. cbn [negb]. unfold dircollator_collate_by_ed25519. set (dc0 := mkdc _ _ _ _ _ _ _ _ _). cbn [all_rsa_sha1_lst reflects by_both_ids dc0].
  assert (collects dc0 votes) as Hc0 by (destruct Hc; split; [by split|done|done]). apply keys_in in Hib as [Hnb Hib]. apply keys_in in Hir as [Hnr Hir].
  destruct (pairs_ok votes dc0 Hc0 Hn Ha iter_both [] (mkcoll ∅ [] (by_both_ids dc) (reflects dc))) as (co1 & -> & [P1 P2 P3 P4 P5]); [|done|intros k Hk; by apply Hib|].
  { split; cbn [co_map co_list co_both co_reflects]; [intros r l; rewrite lookup_empty; split; [done|]; intros (e & He & _); by apply not_elem_of_nil in He|apply NoDup_nil_2| |done|].
    - intros r. rewrite lookup_empty. split; [intros H; by apply not_elem_of_nil in H|by intros []].
    - intros p. rewrite Hre. split; [set_solver|]. intros (r & e & He & _). by apply not_elem_of_nil in He. }
  cbn [cbind app] in *. assert (forall r e, majority votes (n_authorities dc) (pair_entry r e) -> (r, e) ∈ iter_both) as Hall.
  { intros r e Hm. apply Hib. pose proof (pair_column votes dc0 Hc0 Hn Ha r e) as Hp. cbn [by_both_ids dc0] in Hp. destruct (by_both_ids dc !! (r, e)); [by eexists|done]. }
  destruct (rsa_ok votes dc0 Hc0 Hn Ha iter_rsa [] co1) as (co2 & -> & [F1 F2 F3] & Er); [|done|intros k Hk; by apply Hir|].
  { split; [|done|done]. intros r l. rewrite P1. split; [intros (e & _ & Hm & ->); left; by exists e|]. intros [(e & Hm & ->)|[H _]]; [exists e; split; [by apply Hall|done]|by apply not_elem_of_nil in H]. }
  cbn [cbind]. eexists _, (co_list co2). cbn [all_rsa_sha1_lst by_collated_rsa_sha1 reflects]. split_and!; [done|done|done|done| |].
  - intros r x. rewrite F1. split.
    + intros [(e & Hm & ->)|(_ & Hno & Hm & ->)]; by constructor.
    + intros [e Hm|Hno Hm]; [left; by exists e|right]. split_and!; [|done|done|done]. apply Hir. pose proof (rsa_column votes dc0 Hc0 Hn Ha r) as Hp. cbn [by_rsa_sha1 dc0] in Hp. destruct (by_rsa_sha1 dc !! r); [by eexists|]. exfalso. by eapply Hp, Hm.
  - intros p. rewrite Er, P5. split; [intros (r & e & _ & Hm & Hp); by exists r, e|]. intros (r & e & Hm & Hp). exists r, e. split; [by apply Hall|done].
Qed.

(** C26. The collator puts the votes together as its rule says, in whatever order its hash tables are visited: the relays of the consensus come once each, in the order of their RSA identities; a relay is there when more than half of the authorities list a pair of identities for it, with the entries for this pair and those that list no Ed25519 identity, or, when there is no such pair, more than half of them list its RSA identity, with all entries; the entries that are marked are those for such pairs.  No assertion fails. *)
Theorem collation_rule votes total :
  zlen votes <= total -> Forall vote_distinct votes -> Forall digest_sized votes ->
  exists dc, (let* dc := dircollator_new (zlen votes) total in add_votes dc votes) = Ok dc /\
  forall iter_both iter_rsa, iter_both ≡ₚ (map_to_list (by_both_ids dc)).*1 -> iter_rsa ≡ₚ (map_to_list (by_rsa_sha1 dc)).*1 ->
  exists dc', dircollator_collate dc iter_both iter_rsa = Ok dc' /\
    StronglySorted (fun a b => compare_digests_ a b < 0) (all_rsa_sha1_lst dc') /\
    (forall r, r ∈ all_rsa_sha1_lst dc' <-> exists l, collated votes total r l) /\
    (forall r l, by_collated_rsa_sha1 dc' !! r = Some l <-> collated votes total r l) /\
    (forall p, p ∈ reflects dc' <-> exists r e, majority votes total (pair_entry r e) /\ p ∈ ptrs (map (pair_entry r e) votes)).
Proof.
  intros Hn Hd Hs. unfold dircollator_new. rewrite (proj2 (Z.leb_le _ _)) by done. cbn [cbind]. pose proof (zlen_nonneg votes) as Hnn.
  destruct (add_votes_ok votes (mkdc false (zlen votes) total 0 ∅ ∅ ∅ [] ∅) []) as (dc & E & Hc & E1 & E2); [|done|change (0 + zlen votes <= zlen votes); lia|done|].
  { split; cbn [by_rsa_sha1 by_both_ids n_votes]; [done|intros r; rewrite lookup_empty|intros r e; rewrite lookup_empty]; unfold column; cbn; by rewrite Nat.sub_0_r. }
  exists dc. split; [exact E|]. intros ib ir Hib Hir. cbn [app n_votes n_authorities] in *. destruct (collate_ok votes dc ib ir Hc E1) as (dc' & l & E' & El & Hnd & Hl & Hm & Hr); [by rewrite E2|done|done|]. rewrite E2 in *.
  exists dc'. rewrite El. split; [done|]. assert (forall r, r ∈ l <-> exists x, collated votes total r x) as Hmem by (intros r; rewrite Hl; split; intros [x Hx]; exists x; by apply Hm).
  split_and!; [|intros r; unfold smartlist_sort_digests; by rewrite sort_by_perm|done|done]. apply sort_digests_strict; [done|]. apply Forall_forall. intros r Hin. apply Hmem in Hin as [x Hx]. eapply collated_length; [|done|done]. lia.
Qed.

(** ** Example *)

Definition ex_id (b : Z) : bytes := repeat b 20.
Definition ex_key (b : Z) : bytes := repeat b 32.

(** Relay 1 has a pair that two authorities list, an entry with another key and one with no listing; relay 2 has no pair with a majority; relay 3 has one vote. *)
Definition ex_votes : list (list vote_entry) :=
  [[mkentry 1 (ex_id 1) true (ex_key 7); mkentry 2 (ex_id 2) true (ex_key 8)];
   [mkentry 3 (ex_id 2) true (ex_key 9); mkentry 4 (ex_id 1) false []];
   [mkentry 5 (ex_id 1) true (ex_key 7); mkentry 6 (ex_id 2) false []; mkentry 7 (ex_id 3) true (ex_key 7)];
   [mkentry 8 (ex_id 1) true (ex_key 6)]; [mkentry 9 (ex_id 1) true (ex_key 7)]].

Definition ex_collated : cres dircollator_t :=
  let* dc := dircollator_new (zlen ex_votes) 5 in
  let* dc := add_votes dc ex_votes in
  dircollator_collate dc (map_to_list (by_both_ids dc)).*1 (map_to_list (by_rsa_sha1 dc)).*1.

Example ex_collation :
  match ex_collated with
  | Ok dc => map (fun i => match dircollator_get_votes_for_router dc i with Ok (Some l) => map (option_map vrs_ptr) l | _ => [] end) [0; 1]
             = [[Some 1; Some 4; Some 5; None; Some 9]; [Some 2; Some 3; Some 6; None; None]] /\ dircollator_n_routers dc = Ok 2
  | _ => False
  end.
Proof. vm_compute. split; reflexivity. Qed.

Lemma collation_rule_witness : exists dc dc', (let* dc := dircollator_new 5 5 in add_votes dc ex_votes) = Ok dc /\
  dircollator_collate dc (map_to_list (by_both_ids dc)).*1 (map_to_list (by_rsa_sha1 dc)).*1 = Ok dc' /\ forall r, r ∈ all_rsa_sha1_lst dc' <-> exists l, collated ex_votes 5 r l.
Proof.
  destruct (collation_rule ex_votes 5) as (dc & E & H).
  - vm_compute. discriminate.
  - unfold ex_votes. repeat (apply List.Forall_cons; [unfold vote_distinct; apply (bool_decide_unpack _); vm_compute; exact I|]). apply List.Forall_nil.
  - unfold ex_votes. repeat (apply List.Forall_cons; [repeat (apply List.Forall_cons; [reflexivity|]); apply List.Forall_nil|]). apply List.Forall_nil.
  - destruct (H _ _ (Permutation_refl _) (Permutation_refl _)) as (dc' & E' & _ & Hr & _). exists dc, dc'. split; [exact E|]. split; [exact E'|exact Hr].
Defined.
