(* ===== verification/XonXoff.v ===== *)
(** * Flow control of streams

    Models core/or/congestion_control_flow.c: the XOFF and XON cells with which one end of a stream tells the other to stop and to go on, and the counters with which a client judges whether the other end sends too many of them.  The formats
    are those of trunnel/flow_control_cells.c, and [edge_uses_cpath] is that of core/or/conflux_util.c.  The last part composes two ends of a stream, the calls of core/or/relay.c, core/or/sendme.c and core/mainloop/connection.c for data in both, and what is on the way between them, as a transition system.

    A call reads the clock up to three times; the readings are arguments, and so is whether [connection_edge_send_command] succeeds.  A function returns the cells that were sent.  Statistics and the events for the control port are left out. *)

From S2P Require Import Prelude CString UtilString NetParams Trunnel TokenBucket CongCtl.
From Stdlib Require Import ZArith String.
From stdpp Require Import base list numbers.
Open Scope Z_scope.

Definition RELAY_PAYLOAD_SIZE_MAX : Z := 509 - (1 + 2 + 2 + 4 + 2).
Definition RELAY_PAYLOAD_SIZE_MIN : Z := 509 - (16 + 1 + 2 + 2).
Definition CELL_PAYLOAD_SIZE : Z := 509.
Definition MAX_EXPECTED_CELL_BURST : Z := 32.
Definition XON_COUNT_SCALE_AT : Z := 200.
Definition XOFF_COUNT_SCALE_AT : Z := 200.
Definition ONE_MEGABYTE : Z := Z.shiftl 1 20.
Definition TOTAL_XMIT_SCALE_AT : Z := 10 * ONE_MEGABYTE.
Definition RELAY_COMMAND_XOFF : Z := 43.
Definition RELAY_COMMAND_XON : Z := 44.

(** ** The cells (trunnel/flow_control_cells.c) *)

Record xoff_cell_t := mkxoff { xoff_version : Z }.
Record xon_cell_t := mkxon { xon_version : Z; kbps_ewma : Z }.

Definition xoff_cell_encode (avail : Z) (obj : xoff_cell_t) : tres bytes :=
  if negb (xoff_version obj =? 0) then TFail else put avail [] [u8 (xoff_version obj)].

Definition xoff_cell_parse (s : bytes) : tres (xoff_cell_t * bytes) :=
  do (version, s) <- get_u8 s;
  if negb (version =? 0) then TFail else TOk (mkxoff version, s).

Definition xon_cell_encode (avail : Z) (obj : xon_cell_t) : tres bytes :=
  if negb (xon_version obj =? 0) then TFail
  else
    do out <- put avail [] [u8 (xon_version obj)];
    put avail out (put_u32 (kbps_ewma obj)).

Definition xon_cell_parse (s : bytes) : tres (xon_cell_t * bytes) :=
  do (version, s) <- get_u8 s;
  if negb (version =? 0) then TFail
  else
    do (kbps, s) <- get_u32 s;
    TOk (mkxon version kbps, s).

(** ** Consensus parameters *)

Record fc_globals := mkfc { xoff_client : Z; xoff_exit : Z; xon_change_pct : Z; xon_ewma_cnt : Z; xon_rate_bytes : Z }.

Definition flow_control_new_consensus_params (ns : option (list bytes)) : cres fc_globals :=
  let* client := networkstatus_get_param ns (s2b "cc_xoff_client") 500 1 10000 in
  let* exit := networkstatus_get_param ns (s2b "cc_xoff_exit") 500 1 10000 in
  let* pct := networkstatus_get_param ns (s2b "cc_xon_change_pct") 25 1 99 in
  let* rate := networkstatus_get_param ns (s2b "cc_xon_rate") 500 1 5000 in
  let* cnt := networkstatus_get_param ns (s2b "cc_xon_ewma_cnt") 2 2 100 in
  Ok (mkfc (u32 (client * RELAY_PAYLOAD_SIZE_MIN)) (u32 (exit * RELAY_PAYLOAD_SIZE_MIN)) (u32 pct) (u32 cnt) (u32 (rate * RELAY_PAYLOAD_SIZE_MAX))).

(** ** Streams

    A hop of a circuit is a number.  A circuit has the last hops of the legs of its conflux set, if it is in one. *)

Record stream_circuit := mkscirc { sc_origin : bool; sc_ccontrol : bool; sc_conflux_hops : option (list Z) }.

(** The part of an edge connection that does not change here. *)
Record edge_base := mkbase { is_ap : bool; has_hs_ident : bool; on_circuit : option stream_circuit; cpath_layer : option (Z * bool) }.

(** What is known about the rate at which the output buffer is emptied. *)
Record drain_info := mkdrain { drain_start_usec : Z; drained_bytes : Z; prev_drained_bytes : Z; ewma_drain_rate : Z; ewma_rate_last_sent : Z }.

(** What was sent and what was received for it. *)
Record xmit_info := mkxmit { total_bytes_xmit : Z; num_xoff_recv : Z; num_xon_recv : Z }.

Record edge_connection_t := mkstream {
  base_ : edge_base; bucket : token_bucket_rw_t; drain : drain_info; xmit : xmit_info;
  xoff_sent : bool; xoff_received : bool; is_reading : bool; outbuf_len : Z
}.

Definition set_bucket v (e : edge_connection_t) := mkstream (base_ e) v (drain e) (xmit e) (xoff_sent e) (xoff_received e) (is_reading e) (outbuf_len e).
Definition set_drain v (e : edge_connection_t) := mkstream (base_ e) (bucket e) v (xmit e) (xoff_sent e) (xoff_received e) (is_reading e) (outbuf_len e).
Definition set_xmit v (e : edge_connection_t) := mkstream (base_ e) (bucket e) (drain e) v (xoff_sent e) (xoff_received e) (is_reading e) (outbuf_len e).
Definition set_xoff_sent v (e : edge_connection_t) := mkstream (base_ e) (bucket e) (drain e) (xmit e) v (xoff_received e) (is_reading e) (outbuf_len e).
Definition set_xoff_received v (e : edge_connection_t) := mkstream (base_ e) (bucket e) (drain e) (xmit e) (xoff_sent e) v (is_reading e) (outbuf_len e).
Definition set_reading v (e : edge_connection_t) := mkstream (base_ e) (bucket e) (drain e) (xmit e) (xoff_sent e) (xoff_received e) v (outbuf_len e).
Definition set_outbuf_len v (e : edge_connection_t) := mkstream (base_ e) (bucket e) (drain e) (xmit e) (xoff_sent e) (xoff_received e) (is_reading e) v.

Definition set_rate v (d : drain_info) := mkdrain (drain_start_usec d) (drained_bytes d) (prev_drained_bytes d) v (ewma_rate_last_sent d).
Definition set_last_sent v (d : drain_info) := mkdrain (drain_start_usec d) (drained_bytes d) (prev_drained_bytes d) (ewma_drain_rate d) v.
Definition set_counts start n (d : drain_info) := mkdrain start n (prev_drained_bytes d) (ewma_drain_rate d) (ewma_rate_last_sent d).
Definition set_prev v (d : drain_info) := mkdrain (drain_start_usec d) (drained_bytes d) v (ewma_drain_rate d) (ewma_rate_last_sent d).

Definition edge_uses_cpath (conn : edge_connection_t) (cpath : option Z) : bool :=
  match on_circuit (base_ conn) with
  | None => false
  | Some circ =>
      if sc_origin circ then
        match sc_conflux_hops circ with
        | Some hops => existsb (fun h => bool_decide (Some h = cpath)) hops
        | None => bool_decide (cpath = fst <$> cpath_layer (base_ conn))
        end
      else bool_decide (cpath = None)
  end.

Definition edge_uses_flow_control (stream : edge_connection_t) : bool :=
  match on_circuit (base_ stream) with Some circ => sc_ccontrol circ | None => false end
  || match cpath_layer (base_ stream) with Some (_, cc) => cc | None => false end.

(** The part of [connection_start_reading] for an edge connection that is not linked; [connection_stop_reading] removes the event. *)
Definition connection_start_reading (conn : edge_connection_t) : edge_connection_t :=
  if xoff_received conn then conn else set_reading true conn.
Definition connection_stop_reading (conn : edge_connection_t) : edge_connection_t := set_reading false conn.

(** A command and its body. *)
Definition cell_out : Type := Z * bytes.

Record clock := mkclock { clock_reliable : bool; now_scale : Z; now_start : Z; now_rate : Z }.

Section Flow.

Variable ticks : Z.
Variable g : fc_globals.

(** ** Sending *)

Section Send.

Variable connection_edge_send_command : Z -> bytes -> bool.

Definition circuit_send_stream_xoff (stream : edge_connection_t) : edge_connection_t * list cell_out :=
  match xoff_cell_encode CELL_PAYLOAD_SIZE (mkxoff 0) with
  | TOk payload =>
      if connection_edge_send_command RELAY_COMMAND_XOFF payload then (set_xoff_sent true stream, [(RELAY_COMMAND_XOFF, payload)])
      else (stream, [])
  | _ => (stream, [])
  end.

Definition compute_drain_rate (clk : clock) (stream : edge_connection_t) : cres Z :=
  if negb (clock_reliable clk) then Ok 0
  else
    let delta := u64 (now_rate clk - drain_start_usec (drain stream)) in
    if delta =? 0 then Ok 0
    else
      let prev := prev_drained_bytes (drain stream) in
      let* q := udiv prev delta in
      if (INT32_MAX / 1000 <? prev) || (INT32_MAX / 1000 <? q) then Ok INT32_MAX
      else
        let* r := udiv (u32 (prev * 1000)) delta in
        Ok (u32 (Z.max 1 r)).

Definition circuit_send_stream_xon (stream : edge_connection_t) : edge_connection_t * list cell_out :=
  match xon_cell_encode CELL_PAYLOAD_SIZE (mkxon 0 (ewma_drain_rate (drain stream))) with
  | TOk payload =>
      let stream := set_drain (set_last_sent (ewma_drain_rate (drain stream)) (drain stream)) stream in
      if connection_edge_send_command RELAY_COMMAND_XON payload then (set_xoff_sent false stream, [(RELAY_COMMAND_XON, payload)])
      else (stream, [])
  | _ => (stream, [])
  end.

Definition stream_drain_rate_changed (clk : clock) (stream : edge_connection_t) : bool :=
  if negb (clock_reliable clk) then false
  else
    let last := ewma_rate_last_sent (drain stream) in
    let rate := ewma_drain_rate (drain stream) in
    if last =? 0 then false
    else if u64 (u64 (100 + xon_change_pct g) * last) / 100 <? rate then true
    else if rate <? u64 (u64 (100 - xon_change_pct g) * last) / 100 then true
    else false.

(** The bytes are counted; when the counter would wrap, half of it is forgotten. *)
Definition count_drained (clk : clock) (n_written : Z) (d : drain_info) : drain_info :=
  let d :=
    if u64 (UINT32_MAX - n_written) <=? drained_bytes d then
      set_counts (if drain_start_usec d =? 0 then 0 else u64 (now_scale clk - u64 (now_scale clk - drain_start_usec d) / 2)) (drained_bytes d / 2) d
    else d in
  set_counts (drain_start_usec d) (u32 (drained_bytes d + n_written)) d.

(** The clock of the drain is reset or started. *)
Definition start_drain (clk : clock) (total_buffered : Z) (d : drain_info) : drain_info :=
  if negb (clock_reliable clk) then set_counts 0 0 d
  else if (drain_start_usec d =? 0) && (0 <? total_buffered) then set_counts (now_start clk) 0 d
  else d.

(** The rate is updated after enough bytes. *)
Definition update_rate (clk : clock) (stream : edge_connection_t) : cres edge_connection_t :=
  let d := drain stream in
  if negb (drain_start_usec d =? 0) && (xon_rate_bytes g <? drained_bytes d) then
    let d := if prev_drained_bytes d =? 0 then set_prev (drained_bytes d) d else d in
    let* drain_rate := compute_drain_rate clk (set_drain d stream) in
    let d := set_prev (drained_bytes d) d in
    if negb (drain_rate =? 0) then
      let* e := n_count_ewma drain_rate (ewma_drain_rate d) (xon_ewma_cnt g) in
      Ok (set_drain (set_counts 0 0 (set_rate (u32 e) d)) stream)
    else Ok (set_drain d stream)
  else Ok stream.

(** The end of [flow_control_decide_xon], when the buffer is empty. *)
Definition double_rate (d : drain_info) : drain_info :=
  let d := set_counts 0 (drained_bytes d) d in
  if (xon_rate_bytes g <=? drained_bytes d) && negb (ewma_rate_last_sent d =? 0) then
    let d := set_rate (Z.min INT32_MAX (u32 (2 * ewma_drain_rate d))) d in
    set_counts 0 0 (set_prev (drained_bytes d) d)
  else d.

Definition flow_control_decide_xon (clk : clock) (stream : edge_connection_t) (n_written : Z) : cres (edge_connection_t * list cell_out) :=
  let total_buffered := outbuf_len stream in
  let stream := set_drain (start_drain clk total_buffered (count_drained clk n_written (drain stream))) stream in
  let* stream := update_rate clk stream in
  let '(stream, out) :=
    (if negb (xoff_sent stream) then
       if stream_drain_rate_changed clk stream then circuit_send_stream_xon stream else (stream, [])
     else if total_buffered =? 0 then circuit_send_stream_xon stream
     else (stream, [])) in
  if total_buffered =? 0 then Ok (set_drain (double_rate (drain stream)) stream, out) else Ok (stream, out).

Definition flow_control_decide_xoff (clk : clock) (stream : edge_connection_t) : cres (edge_connection_t * list cell_out * Z) :=
  let total_buffered := outbuf_len stream in
  if negb (edge_uses_flow_control stream) then Ok (stream, [], -1)
  else
    let buffer_limit_xoff := if is_ap (base_ stream) || has_hs_ident (base_ stream) then xoff_client g else xoff_exit g in
    let '(stream, out) :=
      (if (buffer_limit_xoff <? total_buffered) && negb (xoff_sent stream) then
         let '(stream, out) := circuit_send_stream_xoff stream in
         (set_drain (set_rate 0 (drain stream)) stream, out)
       else (stream, [])) in
    if MAX_EXPECTED_CELL_BURST * RELAY_PAYLOAD_SIZE_MIN <? total_buffered then
      let* (stream, out2) := flow_control_decide_xon clk stream 0 in
      Ok (stream, out ++ out2, 0)
    else Ok (stream, out, 0).

End Send.

(** ** Receiving *)

Definition halve (x : xmit_info) : xmit_info := mkxmit (total_bytes_xmit x / 2) (num_xoff_recv x / 2) (num_xon_recv x / 2).

(** The connections for which the counts are checked. *)
Definition checks_counts (b : edge_base) : bool := is_ap b || has_hs_ident b.

Definition xoff_limit (b : edge_base) : Z := if has_hs_ident b then xoff_client g else xoff_exit g.

(** The connection and the return value. *)
Definition circuit_process_stream_xoff (conn : edge_connection_t) (layer_hint : option Z) : edge_connection_t * bool :=
  if negb (edge_uses_cpath conn layer_hint) then (conn, false)
  else if negb (edge_uses_flow_control conn) then (conn, false)
  else if xoff_received conn then (conn, false)
  else
    let x := if num_xoff_recv (xmit conn) =? XOFF_COUNT_SCALE_AT then halve (xmit conn) else xmit conn in
    let x := mkxmit (total_bytes_xmit x) (u8 (num_xoff_recv x + 1)) (num_xon_recv x) in
    let retval := negb (checks_counts (base_ conn) && (total_bytes_xmit x <? u32 (xoff_limit (base_ conn) * num_xoff_recv x))) in
    (set_xoff_received true (connection_stop_reading (set_xmit x conn)), retval).

Definition circuit_process_stream_xon (conn : edge_connection_t) (layer_hint : option Z) (msg : bytes) : edge_connection_t * bool :=
  if negb (edge_uses_cpath conn layer_hint) then (conn, false)
  else if negb (edge_uses_flow_control conn) then (conn, false)
  else
    match xon_cell_parse msg with
    | TOk (xon, _) =>
        let x := if num_xon_recv (xmit conn) =? XON_COUNT_SCALE_AT then halve (xmit conn) else xmit conn in
        let x := mkxmit (total_bytes_xmit x) (num_xoff_recv x) (u8 (num_xon_recv x + 1)) in
        let limit := Z.min (xoff_limit (base_ conn)) (xon_rate_bytes g) in
        let retval := negb (checks_counts (base_ conn) && (total_bytes_xmit x <? u32 (limit * num_xon_recv x))) in
        let rate := u64 (kbps_ewma xon * 1000) in
        let rate := if (rate =? 0) || (INT32_MAX <? rate) then INT32_MAX else rate in
        let conn := set_bucket (token_bucket_rw_adjust ticks (bucket conn) rate rate) (set_xmit x conn) in
        (if xoff_received conn then connection_start_reading (set_xoff_received false conn) else conn, retval)
    | _ => (conn, false)
    end.

Definition flow_control_note_sent_data (stream : edge_connection_t) (len : Z) : edge_connection_t :=
  let x := if u64 (TOTAL_XMIT_SCALE_AT - len) <=? total_bytes_xmit (xmit stream) then halve (xmit stream) else xmit stream in
  set_xmit (mkxmit (u32 (total_bytes_xmit x + len)) (num_xoff_recv x) (num_xon_recv x)) stream.

End Flow.

(** ** Two ends of a stream

    The source packages data; the destination keeps it in its output buffer until the application takes it, and sends XOFF and XON.  Data cells and control cells keep their order on the way.  [total_sent], [xoffs_sent], [scaled] and [verdicts] are only for the statements: the bytes sent, the XOFFs sent, whether the counters of the source were ever scaled down, and what the source thought of each XOFF. *)

Record stream_sys := mkss {
  src : edge_connection_t; dst : edge_connection_t; in_data : list Z; in_ctl : list cell_out;
  total_sent : Z; xoffs_sent : Z; scaled : bool; verdicts : list bool
}.

(** A data cell is packaged; one arrives; the application takes [n] bytes; a control cell arrives. *)
Inductive stream_action := SSend (len : Z) | SArrive (clk : clock) | SFlush (clk : clock) (n : Z) | SControl.

Definition is_xoff (c : cell_out) : bool := c.1 =? RELAY_COMMAND_XOFF.
Definition count_xoffs (l : list cell_out) : Z := zlen (List.filter is_xoff l).

Section StreamSystem.

Variable ticks : Z.
Variable g : fc_globals.
Variable hop : option Z.

(** The circuit is open, so that sending succeeds. *)
Definition sends : Z -> bytes -> bool := fun _ _ => true.

(** [sendme_note_stream_data_packaged] for a stream with flow control. *)
Definition stream_send (s : stream_sys) (len : Z) : stream_sys :=
  mkss (flow_control_note_sent_data (src s) len) (dst s) (in_data s ++ [len]) (in_ctl s) (total_sent s + len) (xoffs_sent s)
    (scaled s || (u64 (TOTAL_XMIT_SCALE_AT - len) <=? total_bytes_xmit (xmit (src s)))) (verdicts s).

(** The case of a DATA cell in [handle_relay_cell_command], with [sendme_stream_data_received]. *)
Definition stream_arrive (s : stream_sys) (clk : clock) : cres stream_sys :=
  match in_data s with
  | [] => Err
  | len :: rest =>
      let* (e, out, r) := flow_control_decide_xoff g sends clk (dst s) in
      if r <? 0 then Err
      else Ok (mkss (src s) (set_outbuf_len (outbuf_len e + len) e) rest (in_ctl s ++ out) (total_sent s) (xoffs_sent s + count_xoffs out) (scaled s) (verdicts s))
  end.

(** The end of [connection_handle_write_impl], after [n] bytes were written. *)
Definition stream_flush (s : stream_sys) (clk : clock) (n : Z) : cres stream_sys :=
  if outbuf_len (dst s) <? n then Err
  else
    let* (e, out) := flow_control_decide_xon g sends clk (set_outbuf_len (outbuf_len (dst s) - n) (dst s)) n in
    Ok (mkss (src s) e (in_data s) (in_ctl s ++ out) (total_sent s) (xoffs_sent s + count_xoffs out) (scaled s) (verdicts s)).

(** The cases of XOFF and XON in [handle_relay_cell_command]. *)
Definition stream_control (s : stream_sys) : cres stream_sys :=
  match in_ctl s with
  | [] => Err
  | (cmd, body) :: rest =>
      if cmd =? RELAY_COMMAND_XOFF then
        let '(e, v) := circuit_process_stream_xoff g (src s) hop in
        Ok (mkss e (dst s) (in_data s) rest (total_sent s) (xoffs_sent s) (scaled s || (num_xoff_recv (xmit (src s)) =? XOFF_COUNT_SCALE_AT)) (verdicts s ++ [v]))
      else if cmd =? RELAY_COMMAND_XON then
        let '(e, _) := circuit_process_stream_xon ticks g (src s) hop body in
        Ok (mkss e (dst s) (in_data s) rest (total_sent s) (xoffs_sent s) (scaled s || (num_xon_recv (xmit (src s)) =? XON_COUNT_SCALE_AT)) (verdicts s))
      else Err
  end.

Definition stream_perform (s : stream_sys) (a : stream_action) : cres stream_sys :=
  match a with
  | SSend len => Ok (stream_send s len)
  | SArrive clk => stream_arrive s clk
  | SFlush clk n => stream_flush s clk n
  | SControl => stream_control s
  end.

(** Cells are not empty and not longer than a relay payload; the bytes written at a time are a C [int]; the clock has 64 bits. *)
Definition clock_ok (clk : clock) : Prop := 0 <= now_start clk < 2 ^ 64.

Definition action_ok (a : stream_action) : Prop :=
  match a with
  | SSend len => 1 <= len <= RELAY_PAYLOAD_SIZE_MAX
  | SArrive clk => clock_ok clk
  | SFlush clk n => clock_ok clk /\ 0 <= n <= INT_MAX
  | SControl => True
  end.

Fixpoint stream_run (s : stream_sys) (actions : list stream_action) : cres stream_sys :=
  match actions with
  | [] => Ok s
  | a :: actions => let* s := stream_perform s a in stream_run s actions
  end.

Definition fresh_edge (b : edge_base) (tb : token_bucket_rw_t) : edge_connection_t := mkstream b tb (mkdrain 0 0 0 0 0) (mkxmit 0 0 0) false false true 0.
Definition fresh_stream (sb db : edge_base) (tb : token_bucket_rw_t) : stream_sys := mkss (fresh_edge sb tb) (fresh_edge db tb) [] [] 0 0 false [].

Inductive stream_reaches (sb db : edge_base) (tb : token_bucket_rw_t) : stream_sys -> Prop :=
| sreach_start : stream_reaches sb db tb (fresh_stream sb db tb)
| sreach_step s a s' : stream_reaches sb db tb s -> action_ok a -> stream_perform s a = Ok s' -> stream_reaches sb db tb s'.

(** Both ends use flow control and the source expects cells from [hop]; either both are ends of an onion service or none is, and then a client talks to an exit. *)
Record stream_ends (sb db : edge_base) : Prop := mk_ends {
  en_src : edge_uses_flow_control (fresh_edge sb (mkrw (mkcfg 0 0) 0 0 0)) = true /\ edge_uses_cpath (fresh_edge sb (mkrw (mkcfg 0 0) 0 0 0)) hop = true;
  en_dst : edge_uses_flow_control (fresh_edge db (mkrw (mkcfg 0 0) 0 0 0)) = true;
  en_same : has_hs_ident sb = has_hs_ident db;
  en_roles : has_hs_ident sb = false -> is_ap sb = negb (is_ap db)
}.

End StreamSystem.

Record fc_ok (g : fc_globals) : Prop := mk_fc_ok {
  fk_client : RELAY_PAYLOAD_SIZE_MIN <= xoff_client g <= 10000 * RELAY_PAYLOAD_SIZE_MIN;
  fk_exit : RELAY_PAYLOAD_SIZE_MIN <= xoff_exit g <= 10000 * RELAY_PAYLOAD_SIZE_MIN;
  fk_pct : 1 <= xon_change_pct g <= 99;
  fk_cnt : 2 <= xon_ewma_cnt g <= 100;
  fk_rate : RELAY_PAYLOAD_SIZE_MAX <= xon_rate_bytes g <= 5000 * RELAY_PAYLOAD_SIZE_MAX
}.

(** *** An example that is run *)

Definition ex_bucket : token_bucket_rw_t := token_bucket_rw_init 1000 10000 10000 0.
Definition ex_client : edge_base := mkbase true false (Some (mkscirc true false None)) (Some (3, true)).
Definition ex_exit : edge_base := mkbase false false (Some (mkscirc false true None)) None.
Definition ex_ns : option (list bytes) := Some [s2b "cc_xoff_exit=512"].
Definition ex_clk : clock := mkclock true 1000 1000 2000.
Definition ex_cells (n : nat) : list stream_action := concat (repeat [SSend 498; SArrive ex_clk] n).
Definition ex_round : list stream_action := ex_cells 512 ++ [SControl; SFlush ex_clk (512 * 498); SControl].
Definition ex_actions : list stream_action := concat (repeat ex_round 40) ++ ex_cells 575.

(** ** Bounds

    The counters of a stream stay in their widths without wrapping, for writes of at most [INT_MAX] bytes. *)

Lemma flow_params_ok ns : exists g, flow_control_new_consensus_params ns = Ok g /\ fc_ok g.
Proof.
  unfold flow_control_new_consensus_params. rewrite !networkstatus_get_param_value by lia. cbn [cbind]. eexists. split; [done|].
  pose proof (param_value_range ns (s2b "cc_xoff_client") 500 1 10000 ltac:(lia)). pose proof (param_value_range ns (s2b "cc_xoff_exit") 500 1 10000 ltac:(lia)). pose proof (param_value_range ns (s2b "cc_xon_change_pct") 25 1 99 ltac:(lia)).
  pose proof (param_value_range ns (s2b "cc_xon_rate") 500 1 5000 ltac:(lia)). pose proof (param_value_range ns (s2b "cc_xon_ewma_cnt") 2 2 100 ltac:(lia)).
  split; cbn [xoff_client xoff_exit xon_change_pct xon_ewma_cnt xon_rate_bytes]; unfold u32, RELAY_PAYLOAD_SIZE_MIN, RELAY_PAYLOAD_SIZE_MAX; rewrite Z.mod_small; lia.
Qed.

Lemma flow_params_fc_ok ns g : flow_control_new_consensus_params ns = Ok g -> fc_ok g.
Proof. destruct (flow_params_ok ns) as (g' & E & H). rewrite E. by intros [= <-]. Qed.

Record drain_ok (d : drain_info) : Prop := mk_drain_ok {
  dk_start : 0 <= drain_start_usec d < 2 ^ 64;
  dk_drained : 0 <= drained_bytes d <= UINT32_MAX;
  dk_prev : 0 <= prev_drained_bytes d <= UINT32_MAX;
  dk_rate : 0 <= ewma_drain_rate d <= INT32_MAX;
  dk_last : 0 <= ewma_rate_last_sent d <= INT32_MAX
}.

Ltac dsolve := split; cbn; try done; try lia.

Lemma u64_bounds x : 0 <= u64 x < 2 ^ 64.
Proof. unfold u64. apply Z.mod_pos_bound. lia. Qed.
Lemma u32_bounds x : 0 <= u32 x <= UINT32_MAX.
Proof. unfold u32, UINT32_MAX. pose proof (Z.mod_pos_bound x (2 ^ 32) ltac:(lia)). lia. Qed.

(** The counter is exact but for the halving. *)
Lemma count_drained_exact clk n d : drain_ok d -> 0 <= n <= INT_MAX ->
  drained_bytes (count_drained clk n d) = (if UINT32_MAX - n <=? drained_bytes d then drained_bytes d / 2 else drained_bytes d) + n.
Proof.
  intros [Hs Hd Hp Hr Hl] Hn. unfold count_drained, UINT32_MAX, INT_MAX, u32 in *. rewrite u64_id by lia. zcase; cbn [drained_bytes set_counts]; apply Z.mod_small; [pose proof (Z.div_pos (drained_bytes d) 2); pose proof (Z.div_lt_upper_bound (drained_bytes d) 2 2147483648)|]; lia.
Qed.

Lemma count_drained_ok clk n d : drain_ok d -> 0 <= n <= INT_MAX -> drain_ok (count_drained clk n d).
Proof.
  intros [Hs Hd Hp Hr Hl] Hn. unfold count_drained. pose proof (u64_bounds (now_scale clk - u64 (now_scale clk - drain_start_usec d) / 2)).
  destruct (u64 (UINT32_MAX - n) <=? drained_bytes d); dsolve; try apply u32_bounds. destruct (drain_start_usec d =? 0); lia.
Qed.

Lemma start_drain_ok clk total d : clock_ok clk -> drain_ok d -> drain_ok (start_drain clk total d).
Proof. unfold clock_ok. intros Hc [Hs Hd Hp Hr Hl]. unfold start_drain, UINT32_MAX in *. destruct (clock_reliable clk); cbn [negb]; [destruct (_ && _)|]; dsolve. Qed.

Lemma compute_drain_rate_ok clk e : drain_ok (drain e) -> exists r, compute_drain_rate clk e = Ok r /\ 0 <= r <= INT32_MAX.
Proof.
  intros [Hs Hd Hp Hr Hl]. unfold compute_drain_rate. destruct (clock_reliable clk); cbn [negb]; [|by exists 0]. cbv zeta. pose proof (u64_bounds (now_rate clk - drain_start_usec (drain e))) as Hb. set (delta := u64 _) in *.
  destruct (Z.eqb_spec delta 0); [by exists 0|]. rewrite !udiv_ok by lia. cbn [cbind]. destruct (_ || _) eqn:E; [by exists INT32_MAX|]. boolp. eexists. split; [done|].
  unfold u32, INT32_MAX in *. change (2147483647 / 1000) with 2147483 in *. rewrite (Z.mod_small (_ * 1000)) by lia. assert (0 <= prev_drained_bytes (drain e) * 1000 / delta <= prev_drained_bytes (drain e) * 1000) by (split; [apply Z.div_pos; lia|apply Z.div_le_upper_bound; nia]).
  rewrite Z.mod_small by lia. lia.
Qed.

Lemma drain_ewma_ok curr prev n : 0 <= curr <= INT32_MAX -> 0 <= prev <= INT32_MAX -> 2 <= n <= 100 -> exists e, n_count_ewma curr prev n = Ok e /\ 0 <= e <= INT32_MAX.
Proof.
  unfold INT32_MAX. intros Hc Hp Hn. unfold n_count_ewma. zcase; [by exists curr|]. rewrite (u64_id (n - 1)), (u64_id (2 * curr)), (u64_id ((n - 1) * prev)), (u64_id (n + 1)), u64_id, udiv_ok by nia.
  eexists. split; [done|]. split; [apply Z.div_le_lower_bound; nia|apply Z.div_le_upper_bound; nia].
Qed.

(** Two streams that differ in their rates at most. *)
Definition same_but_drain (e e' : edge_connection_t) : Prop := e' = set_drain (drain e') e.

Lemma update_rate_ok g clk e : fc_ok g -> drain_ok (drain e) -> exists e', update_rate g clk e = Ok e' /\ same_but_drain e e' /\ drain_ok (drain e').
Proof.
  intros Hg [Hs Hd Hp Hr Hl]. unfold update_rate. cbv zeta. destruct (_ && _); [|exists e; split; [done|]; split; [by destruct e|done]].
  set (d := if prev_drained_bytes (drain e) =? 0 then _ else _). assert (drain_ok d) as Hd' by (unfold d; destruct (_ =? 0); dsolve). destruct (compute_drain_rate_ok clk (set_drain d e)) as (r & -> & Hr'); [done|]. cbn [cbind].
  destruct Hd' as [Hs' Hd' Hp' Hr'' Hl']. destruct (negb (r =? 0)); [|eexists; split; [done|]; split; [done|]; dsolve].
  destruct (drain_ewma_ok r (ewma_drain_rate (set_prev (drained_bytes d) d)) (xon_ewma_cnt g)) as (x & -> & Hx); [done|done|apply Hg|]. cbn [cbind]. eexists. split; [done|]. split; [done|]. dsolve. unfold u32, INT32_MAX in *. rewrite Z.mod_small; lia.
Qed.

(** Doubling does not wrap. *)
Lemma double_rate_ok g d : drain_ok d -> drain_ok (double_rate g d).
Proof.
  intros [Hs Hd Hp Hr Hl]. unfold double_rate. cbv zeta. destruct (_ && _); dsolve. unfold u32, INT32_MAX in *. rewrite Z.mod_small by lia. lia.
Qed.

(** ** What the cells on the way do to the source *)

(** The state of the source after the cells, [None] if one of them is out of place. *)
Fixpoint pending (stopped : bool) (l : list cell_out) : option bool :=
  match l with
  | [] => Some stopped
  | (cmd, body) :: l =>
      if cmd =? RELAY_COMMAND_XOFF then if stopped then None else pending true l
      else if cmd =? RELAY_COMMAND_XON then match xon_cell_parse body with TOk _ => pending false l | _ => None end
      else None
  end.

Lemma pending_app b l k : pending b (l ++ k) = b' ← pending b l; pending b' k.
Proof.
  revert b. induction l as [|[cmd body] l IH]; intros b; [done|]. cbn [app pending]. destruct (cmd =? RELAY_COMMAND_XOFF); [by destruct b|]. destruct (cmd =? RELAY_COMMAND_XON); [|done]. by destruct (xon_cell_parse body) as [[? ?]| | |].
Qed.

Lemma count_xoffs_app l k : count_xoffs (l ++ k) = count_xoffs l + count_xoffs k.
Proof. unfold count_xoffs. by rewrite List.filter_app, zlen_app. Qed.

Lemma send_xoff_ok e : circuit_send_stream_xoff sends e = (set_xoff_sent true e, [(RELAY_COMMAND_XOFF, [0])]).
Proof. done. Qed.

Definition xon_ok (c : xon_cell_t) : Prop := xon_version c = 0 /\ 0 <= kbps_ewma c <= UINT32_MAX.

Lemma xon_encode_parse c avail : xon_ok c -> 5 <= avail -> exists b, xon_cell_encode avail c = TOk b /\ zlen b = 5 /\ forall rest, xon_cell_parse (b ++ rest) = TOk (c, rest).
Proof.
  destruct c as [v r]. intros [Hv Hr] Ha. cbn in Hv, Hr. subst v. unfold xon_cell_encode. cbn [xon_version kbps_ewma Z.eqb negb]. rewrite put_u8_ok by lia. cbn [tbind]. rewrite put_ok by zlia. eexists. split; [done|]. split; [done|]. intros rest. unfold xon_cell_parse. cbn [app get_u8 tbind Z.eqb negb u8]. by rewrite get_put_u32.
Qed.

Lemma xon_short c avail : xon_ok c -> 0 <= avail < 5 -> xon_cell_encode avail c = TTrunc.
Proof.
  destruct c as [v r]. intros [Hv Hr] Ha. cbn in Hv. subst v. unfold xon_cell_encode. cbn [xon_version kbps_ewma Z.eqb negb]. destruct (Z.eq_dec avail 0) as [->|]; [done|]. rewrite put_u8_ok by lia. cbn [tbind]. by rewrite put_short by zlia.
Qed.

Lemma xoff_encode_parse c avail : xoff_version c = 0 -> 1 <= avail -> exists b, xoff_cell_encode avail c = TOk b /\ zlen b = 1 /\ forall rest, xoff_cell_parse (b ++ rest) = TOk (c, rest).
Proof. destruct c as [v]. cbn. intros -> Ha. unfold xoff_cell_encode. cbn [xoff_version Z.eqb negb]. rewrite put_u8_ok by lia. by eexists. Qed.

Lemma xoff_short c avail : xoff_version c = 0 -> 0 <= avail < 1 -> xoff_cell_encode avail c = TTrunc.
Proof. destruct c as [v]. cbn. intros -> Ha. by replace avail with 0 by lia. Qed.

#[export] Instance xon_codec : Codec xon_cell_t := {|
  enc := xon_cell_encode; dec := xon_cell_parse; enc_ok := xon_ok; enc_size _ := 5; enc_dec := xon_encode_parse; enc_short := xon_short
|}.

#[export] Instance xoff_codec : Codec xoff_cell_t := {|
  enc := xoff_cell_encode; dec := xoff_cell_parse; enc_ok c := xoff_version c = 0; enc_size _ := 1; enc_dec := xoff_encode_parse; enc_short := xoff_short
|}.

Lemma send_xon_ok e : drain_ok (drain e) ->
  exists payload, circuit_send_stream_xon sends e = (set_xoff_sent false (set_drain (set_last_sent (ewma_drain_rate (drain e)) (drain e)) e), [(RELAY_COMMAND_XON, payload)]) /\ forall b, pending b [(RELAY_COMMAND_XON, payload)] = Some false.
Proof.
  intros [Hs Hd Hp Hr Hl]. destruct (enc_dec (mkxon 0 (ewma_drain_rate (drain e))) CELL_PAYLOAD_SIZE) as (b & E & _ & Hb); [split; cbn; unfold INT32_MAX, UINT32_MAX in *; lia|done|]. specialize (Hb []). rewrite app_nil_r in Hb. exists b. split; [unfold circuit_send_stream_xon; by rewrite (E : xon_cell_encode _ _ = _)|]. intros x. unfold pending. by rewrite (Hb : xon_cell_parse _ = _).
Qed.

(** What a decision of the destination may change. *)
Record decided (e e' : edge_connection_t) (out : list cell_out) : Prop := mk_decided {
  dc_same : base_ e' = base_ e /\ outbuf_len e' = outbuf_len e;
  dc_drain : drain_ok (drain e');
  dc_flow : pending (xoff_sent e) out = Some (xoff_sent e')
}.

Lemma decide_xon_ok g clk e n : fc_ok g -> clock_ok clk -> drain_ok (drain e) -> 0 <= n <= INT_MAX ->
  exists e' out, flow_control_decide_xon g sends clk e n = Ok (e', out) /\ decided e e' out /\ count_xoffs out = 0 /\ (xoff_sent e' = true -> xoff_sent e = true /\ outbuf_len e <> 0) /\ (xoff_sent e = true -> outbuf_len e <> 0 -> xoff_sent e' = true).
Proof.
  intros Hg Hc Hd Hn. unfold flow_control_decide_xon. cbv zeta. set (d0 := start_drain _ _ _). assert (drain_ok d0) as Hd0 by (by apply start_drain_ok, count_drained_ok).
  destruct (update_rate_ok g clk (set_drain d0 e) Hg Hd0) as (e1 & -> & He1 & Hd1). cbn [cbind]. unfold same_but_drain in He1. set (d1 := drain e1) in *. clearbody d1. subst e1. cbn [xoff_sent set_drain].
  destruct (send_xon_ok (set_drain d1 (set_drain d0 e)) Hd1) as (payload & E & Hp). rewrite E. destruct Hd1 as [Hs1 Hd1 Hp1 Hr1 Hl1].
  assert (drain_ok (set_last_sent (ewma_drain_rate d1) d1)) as Hd2 by dsolve. destruct (xoff_sent e) eqn:Ex; cbn [negb].
  - destruct (Z.eqb_spec (outbuf_len e) 0); eexists _, _; (split; [reflexivity|]); (split; [split; [by split| |first [apply Hp | by cbn; rewrite ?Ex]]; cbn; rewrite ?Ex|]); try done; try (by apply double_rate_ok); by split.
  - destruct (stream_drain_rate_changed g clk _); destruct (Z.eqb_spec (outbuf_len e) 0); eexists _, _; (split; [reflexivity|]); (split; [split; [by split| |first [apply Hp | by cbn; rewrite ?Ex]]; cbn; rewrite ?Ex|]); try done; try (apply double_rate_ok); try done; cbn; rewrite ?Ex; by split.
Qed.

(** The size of the output buffer above which XOFF is sent. *)
Definition dst_limit (g : fc_globals) (b : edge_base) : Z := if is_ap b || has_hs_ident b then xoff_client g else xoff_exit g.

Lemma dst_limit_bounds g b : fc_ok g -> RELAY_PAYLOAD_SIZE_MIN <= dst_limit g b <= 10000 * RELAY_PAYLOAD_SIZE_MIN.
Proof. intros [? ? ? ? ?]. unfold dst_limit. by destruct (_ || _). Qed.

Lemma decide_xoff_ok g clk e : fc_ok g -> clock_ok clk -> drain_ok (drain e) -> edge_uses_flow_control e = true -> 0 <= outbuf_len e ->
  exists e' out, flow_control_decide_xoff g sends clk e = Ok (e', out, 0) /\ decided e e' out /\
    count_xoffs out = (if negb (xoff_sent e) && (dst_limit g (base_ e) <? outbuf_len e) then 1 else 0) /\ xoff_sent e' = xoff_sent e || (dst_limit g (base_ e) <? outbuf_len e).
Proof.
  intros Hg Hc Hd Hf Ho. pose proof (dst_limit_bounds g (base_ e) Hg) as HL. unfold flow_control_decide_xoff. cbv zeta. rewrite Hf. cbn [negb]. fold (dst_limit g (base_ e)). unfold RELAY_PAYLOAD_SIZE_MIN, MAX_EXPECTED_CELL_BURST in *. rewrite send_xoff_ok.
  destruct (dst_limit g (base_ e) <? outbuf_len e) eqn:El; boolp; cbn [andb].
  - rewrite andb_true_r, orb_true_r. destruct (xoff_sent e) eqn:Ex; cbn [negb].
    + zcase; [|eexists _, _; split; [done|]; split; [split; cbn; [done|done|by rewrite Ex]|done]]. destruct (decide_xon_ok g clk e 0 Hg Hc Hd) as (e' & out & -> & Hdec & Hn & _ & Hx); [by split|]. cbn [cbind]. eexists _, _. split; [done|]. split; [done|]. split; [done|]. apply Hx; [done|lia].
    + set (e1 := set_drain _ _). assert (drain_ok (drain e1)) as Hd1 by (destruct Hd; dsolve; unfold INT32_MAX; lia).
      zcase; [|eexists _, _; split; [done|]; split; [split; cbn; [done|done|by rewrite Ex]|done]]. destruct (decide_xon_ok g clk e1 0 Hg Hc Hd1) as (e' & out & -> & [[Hb Hob] Hdr Hfl] & Hn & _ & Hx); [by split|]. cbn [cbind]. eexists _, _. split; [done|].
      split; [split; [done|done|rewrite pending_app, Ex; exact Hfl]|]. split; [rewrite count_xoffs_app, Hn; done|]. apply Hx; [done|cbn; lia].
  - rewrite andb_false_r, orb_false_r. zcase; [|eexists _, _; split; [done|]; split; [by split|done]]. destruct (decide_xon_ok g clk e 0 Hg Hc Hd) as (e' & out & -> & Hdec & Hn & Hx' & Hx); [by split|]. cbn [cbind]. eexists _, _. split; [done|]. split; [done|]. split; [done|].
    destruct (xoff_sent e); [apply Hx; [done|lia]|]. destruct (xoff_sent e'); [|done]. by destruct Hx'.
Qed.

(** ** The invariant of the two ends *)

Definition bytes_in (l : list Z) : Z := foldr Z.add 0 l.

Lemma bytes_in_app l k : bytes_in (l ++ k) = bytes_in l + bytes_in k.
Proof. unfold bytes_in. induction l as [|x l IH]; [done|]. cbn [app foldr]. lia. Qed.

Section Invariant.

Variable ticks : Z.
Variable g : fc_globals.
Variable hop : option Z.
Variables sb db : edge_base.
Hypothesis Hg : fc_ok g.
Hypothesis Hends : stream_ends hop sb db.

Abbreviation L := (dst_limit g db).

(** [si_paid]: every XOFF answers as many bytes as the limit, all of them written out once the next XON is sent. *)
Record stream_inv (s : stream_sys) : Prop := mk_sinv {
  si_bases : base_ (src s) = sb /\ base_ (dst s) = db;
  si_drain : drain_ok (drain (dst s));
  si_flow : pending (xoff_received (src s)) (in_ctl s) = Some (xoff_sent (dst s));
  si_stop : xoff_sent (dst s) = true -> 0 < outbuf_len (dst s);
  si_read : is_reading (src s) = negb (xoff_received (src s));
  si_out : 0 <= outbuf_len (dst s) /\ Forall (fun n => 0 <= n) (in_data s);
  si_paid : L * xoffs_sent s <= total_sent s - bytes_in (in_data s) - (if xoff_sent (dst s) then 0 else outbuf_len (dst s));
  si_counts : 0 <= num_xoff_recv (xmit (src s)) <= XOFF_COUNT_SCALE_AT;
  si_exact : scaled s = false -> total_bytes_xmit (xmit (src s)) = total_sent s /\ 0 <= total_sent s < TOTAL_XMIT_SCALE_AT /\ num_xoff_recv (xmit (src s)) + count_xoffs (in_ctl s) = xoffs_sent s;
  si_verdicts : scaled s = false -> Forall (fun v => v = true) (verdicts s)
}.

Lemma src_flow e : base_ e = sb -> edge_uses_flow_control e = true /\ edge_uses_cpath e hop = true.
Proof. intros E. destruct (en_src _ _ _ Hends) as [H1 H2]. unfold edge_uses_flow_control, edge_uses_cpath in *. by rewrite E. Qed.

Lemma dst_flow e : base_ e = db -> edge_uses_flow_control e = true.
Proof. intros E. pose proof (en_dst _ _ _ Hends) as H. unfold edge_uses_flow_control in *. by rewrite E. Qed.

(** The limit that the source counts with is that of the destination. *)
Lemma limits_agree : checks_counts sb = true -> xoff_limit g sb = L.
Proof.
  unfold checks_counts, xoff_limit, dst_limit. rewrite <- (en_same _ _ _ Hends). pose proof (en_roles _ _ _ Hends) as Hr. destruct (has_hs_ident sb); [by rewrite !orb_true_r|]. rewrite !orb_false_r. intros E. rewrite Hr in E by done. by destruct (is_ap db).
Qed.

Lemma fresh_inv tb : stream_inv (fresh_stream sb db tb).
Proof. pose proof (dst_limit_bounds g db Hg). unfold RELAY_PAYLOAD_SIZE_MIN in *. split; cbn; try done; try lia. Qed.

Lemma send_inv s len : 1 <= len <= RELAY_PAYLOAD_SIZE_MAX -> stream_inv s -> stream_inv (stream_send s len).
Proof.
  intros Hlen [Hb Hd Hf Hst Hrd [Ho Hin] Hp Hc He Hv]. assert (u64 (TOTAL_XMIT_SCALE_AT - len) = TOTAL_XMIT_SCALE_AT - len) as Eu by (apply u64_id; unfold RELAY_PAYLOAD_SIZE_MAX in Hlen; change TOTAL_XMIT_SCALE_AT with 10485760; lia).
  unfold stream_send, flow_control_note_sent_data. cbv zeta. rewrite Eu. split; cbn [src dst in_data in_ctl total_sent xoffs_sent scaled verdicts set_xmit base_ xoff_received is_reading xmit num_xoff_recv total_bytes_xmit]; try done.
  - split; [done|]. apply Forall_app. split; [done|]. apply List.Forall_cons; [lia|apply List.Forall_nil].
  - rewrite bytes_in_app. cbn [bytes_in foldr]. unfold bytes_in in *. cbn [foldr]. lia.
  - destruct (_ <=? _); [|done]. cbn. unfold XOFF_COUNT_SCALE_AT in *. split; [apply Z.div_pos; lia|apply Z.div_le_upper_bound; lia].
  - intros Hs. boolp. destruct He as (E1 & E2 & E3); [done|]. rewrite (proj2 (Z.leb_gt _ _)) by lia. rewrite E1 in *. split; [unfold u32; apply Z.mod_small; change TOTAL_XMIT_SCALE_AT with 10485760 in *; lia|]. split; [lia|done].
  - intros Hs. boolp. by apply Hv.
Qed.

Lemma arrive_inv s clk : clock_ok clk -> stream_inv s -> in_data s <> [] -> exists s', stream_arrive g s clk = Ok s' /\ stream_inv s' /\ in_ctl s `prefix_of` in_ctl s'.
Proof.
  intros Hc [[Hb1 Hb2] Hd Hf Hst Hrd [Ho Hin] Hp Hcn He Hv] Hne. unfold stream_arrive. destruct (in_data s) as [|len rest]; [done|]. inversion_clear Hin. cbn [bytes_in foldr] in Hp. fold (bytes_in rest) in Hp.
  destruct (decide_xoff_ok g clk (dst s)) as (e' & out & -> & [[Hbe Hoe] Hde Hfe] & Hn & Hx); [done|done|done|by apply dst_flow|done|]. cbn [cbind Z.ltb Z.compare]. rewrite Hb2 in *. eexists. split; [done|]. split; [|by exists out].
  split; cbn [src dst in_data in_ctl total_sent xoffs_sent scaled verdicts set_outbuf_len base_ drain xoff_sent outbuf_len]; try done.
  - by rewrite pending_app, Hf.
  - rewrite Hx, Hoe. intros [E|E]%orb_true_iff; [specialize (Hst E); lia|]. pose proof (dst_limit_bounds g db Hg). unfold RELAY_PAYLOAD_SIZE_MIN in *. boolp. lia.
  - split; [lia|done].
  - rewrite Hx, Hn, Hoe. destruct (xoff_sent (dst s)); cbn [negb andb orb]; [lia|]. destruct (_ <? _) eqn:E; boolp; lia.
  - rewrite count_xoffs_app. intros Hs. specialize (He Hs). destruct He as (E1 & E2 & E3). split; [done|]. split; [done|]. lia.
Qed.

Lemma flush_inv s clk n : clock_ok clk -> 0 <= n <= INT_MAX -> n <= outbuf_len (dst s) -> stream_inv s ->
  exists s', stream_flush g s clk n = Ok s' /\ stream_inv s' /\ outbuf_len (dst s') = outbuf_len (dst s) - n /\ in_data s' = in_data s.
Proof.
  intros Hc Hn Hle [[Hb1 Hb2] Hd Hf Hst Hrd [Ho Hin] Hp Hcn He Hv]. unfold stream_flush. rewrite (proj2 (Z.ltb_ge _ _)) by lia.
  destruct (decide_xon_ok g clk (set_outbuf_len (outbuf_len (dst s) - n) (dst s)) n) as (e' & out & -> & [[Hbe Hoe] Hde Hfe] & Hno & Hx1 & Hx2); [done|done|done|done|]. cbn [cbind]. cbn [base_ set_outbuf_len outbuf_len xoff_sent] in *.
  eexists. split; [done|]. split; [|by rewrite <- Hoe]. split; cbn [src dst in_data in_ctl total_sent xoffs_sent scaled verdicts]; try done.
  - by rewrite Hbe.
  - by rewrite pending_app, Hf.
  - intros Hx. destruct (Hx1 Hx). lia.
  - split; [lia|done].
  - rewrite Hno, Hoe. destruct (xoff_sent e'); [destruct Hx1 as [Hx1 _]; [done|]; rewrite Hx1 in Hp; lia|]. destruct (xoff_sent (dst s)); [|lia]. destruct (Z.eq_dec (outbuf_len (dst s) - n) 0); [lia|]. by specialize (Hx2 eq_refl n0).
  - rewrite count_xoffs_app. intros Hs. specialize (He Hs). destruct He as (E1 & E2 & E3). split; [done|]. split; [done|]. lia.
Qed.

Lemma process_xoff_ok e : base_ e = sb -> xoff_received e = false -> 0 <= num_xoff_recv (xmit e) <= XOFF_COUNT_SCALE_AT ->
  let x := if num_xoff_recv (xmit e) =? XOFF_COUNT_SCALE_AT then halve (xmit e) else xmit e in
  circuit_process_stream_xoff g e hop =
    (set_xoff_received true (set_reading false (set_xmit (mkxmit (total_bytes_xmit x) (num_xoff_recv x + 1) (num_xon_recv x)) e)),
     negb (checks_counts sb && (total_bytes_xmit x <? xoff_limit g sb * (num_xoff_recv x + 1)))) /\ 1 <= num_xoff_recv x + 1 <= XOFF_COUNT_SCALE_AT.
Proof.
  intros Hb Hx Hn x. destruct (src_flow e Hb) as [E1 E2]. unfold circuit_process_stream_xoff. rewrite E1, E2, Hx. cbn [negb]. cbv zeta. fold x.
  assert (1 <= num_xoff_recv x + 1 <= XOFF_COUNT_SCALE_AT) as Hr by (unfold x, XOFF_COUNT_SCALE_AT in *; destruct (Z.eqb_spec (num_xoff_recv (xmit e)) 200) as [E|E]; [cbn; rewrite E; done|lia]).
  assert (0 <= xoff_limit g sb <= 4880000) as Hl by (destruct Hg; unfold xoff_limit, RELAY_PAYLOAD_SIZE_MIN in *; destruct (has_hs_ident sb); lia).
  split; [|done]. unfold XOFF_COUNT_SCALE_AT in Hr. rewrite u8_small by lia. cbn [num_xoff_recv total_bytes_xmit]. rewrite Hb. unfold u32. rewrite Z.mod_small by nia. done.
Qed.

Lemma process_xon_ok e body xon rest : base_ e = sb -> xon_cell_parse body = TOk (xon, rest) -> is_reading e = negb (xoff_received e) ->
  exists e' v, circuit_process_stream_xon ticks g e hop body = (e', v) /\ base_ e' = sb /\ xoff_received e' = false /\ is_reading e' = true /\
    (total_bytes_xmit (xmit e'), num_xoff_recv (xmit e')) = let x := if num_xon_recv (xmit e) =? XON_COUNT_SCALE_AT then halve (xmit e) else xmit e in (total_bytes_xmit x, num_xoff_recv x).
Proof.
  intros Hb Hp Hr. destruct (src_flow e Hb) as [E1 E2]. unfold circuit_process_stream_xon. rewrite E1, E2, Hp. cbn [negb]. cbv zeta. eexists _, _. split; [done|]. cbn [xoff_received set_bucket set_xmit]. destruct (xoff_received e) eqn:Ex; [done|]. cbn. by rewrite Ex, Hr.
Qed.

Lemma control_inv s : stream_inv s -> in_ctl s <> [] -> exists s' c, stream_control ticks g hop s = Ok s' /\ stream_inv s' /\ in_ctl s = c :: in_ctl s' /\ dst s' = dst s /\ in_data s' = in_data s.
Proof.
  intros [[Hb1 Hb2] Hd Hf Hst Hrd [Ho Hin] Hp Hcn He Hv] Hne. unfold stream_control. destruct (in_ctl s) as [|[cmd body] rest]; [done|]. cbn [pending] in Hf. unfold count_xoffs in He. cbn [List.filter] in He. unfold is_xoff at 1 in He. cbn [fst] in He.
  destruct (cmd =? RELAY_COMMAND_XOFF) eqn:Ec; [|destruct (cmd =? RELAY_COMMAND_XON); [|done]].
  - destruct (xoff_received (src s)) eqn:Ex; [done|]. destruct (process_xoff_ok (src s) Hb1 Ex Hcn) as [-> Hr]. eexists _, _. split; [done|]. split; [|done].
    split; cbn [src dst in_data in_ctl total_sent xoffs_sent scaled verdicts]; try done; [cbn; lia| |]; intros [Hs E]%orb_false_iff; specialize (He Hs) as (E1 & E2 & E3); specialize (Hv Hs); rewrite E; cbn [xmit set_xoff_received set_reading set_xmit total_bytes_xmit num_xoff_recv].
    + split; [done|]. split; [done|]. unfold count_xoffs. rewrite zlen_cons in E3. lia.
    + apply Forall_app. split; [done|]. apply List.Forall_cons; [|apply List.Forall_nil]. destruct (checks_counts sb) eqn:Ek; [|done]. rewrite (limits_agree Ek). cbn [andb]. rewrite zlen_cons in E3.
      pose proof (zlen_nonneg (List.filter is_xoff rest)). pose proof (dst_limit_bounds g db Hg). unfold RELAY_PAYLOAD_SIZE_MIN in *. rewrite (proj2 (Z.ltb_ge _ _)); [done|]. rewrite E1.
      assert (0 <= bytes_in (in_data s)) by (clear -Hin; unfold bytes_in; induction Hin; cbn; lia). destruct (xoff_sent (dst s)); nia.
  - destruct (xon_cell_parse body) as [[xon r]| | |] eqn:Ep; try done. destruct (process_xon_ok (src s) body xon r Hb1 Ep Hrd) as (e' & v & -> & Hb & Hx & Hr & Hc). eexists _, _. split; [done|]. split; [|done].
    split; cbn [src dst in_data in_ctl total_sent xoffs_sent scaled verdicts]; try done; [by rewrite Hx|by rewrite Hx, Hr| | |].
    + destruct (num_xon_recv _ =? _); injection Hc as _ ->; [|done]. cbn. unfold XOFF_COUNT_SCALE_AT in *. split; [apply Z.div_pos; lia|apply Z.div_le_upper_bound; lia].
    + intros [Hs E]%orb_false_iff. rewrite E in Hc. injection Hc as -> ->. apply (He Hs).
    + intros [Hs E]%orb_false_iff. by apply Hv.
Qed.

Lemma reaches_inv tb s : stream_reaches ticks g hop sb db tb s -> stream_inv s.
Proof.
  induction 1 as [|s a s' _ IH Ha Hp]; [apply fresh_inv|]. destruct a as [len|clk|clk n|]; cbn [stream_perform action_ok] in *.
  - injection Hp as <-. by apply send_inv.
  - destruct (in_data s) eqn:E; [unfold stream_arrive in Hp; by rewrite E in Hp|]. destruct (arrive_inv s clk Ha IH) as (s1 & E1 & H & _); [by rewrite E|]. congruence.
  - destruct (Z.lt_ge_cases (outbuf_len (dst s)) n) as [Hn|Hn]; [unfold stream_flush in Hp; by rewrite (proj2 (Z.ltb_lt _ _)) in Hp|]. destruct (flush_inv s clk n (proj1 Ha) (proj2 Ha) Hn IH) as (s1 & E1 & H & _). congruence.
  - destruct (in_ctl s) eqn:E; [unfold stream_control in Hp; by rewrite E in Hp|]. destruct (control_inv s IH) as (s1 & c0 & E1 & H & _); [by rewrite E|]. congruence.
Qed.

(** All control cells on the way arrive. *)
Lemma controls_arrive l : forall s, stream_inv s -> in_ctl s = l -> exists s', stream_run ticks g hop s (repeat SControl (length l)) = Ok s' /\ stream_inv s' /\ in_ctl s' = [] /\ dst s' = dst s /\ in_data s' = in_data s.
Proof.
  induction l as [|c l IH]; intros s Hs El; [by exists s|]. cbn [length repeat stream_run stream_perform]. destruct (control_inv s Hs) as (s1 & c' & -> & H1 & E1 & E2 & E3); [by rewrite El|]. cbn [cbind].
  destruct (IH s1 H1) as (s' & E & H & F1 & F2 & F3); [congruence|]. exists s'. split_and!; congruence.
Qed.

(** What an action needs. *)
Definition enabled (s : stream_sys) (a : stream_action) : Prop :=
  match a with
  | SSend _ => True
  | SArrive _ => in_data s <> []
  | SFlush _ n => n <= outbuf_len (dst s)
  | SControl => in_ctl s <> []
  end.

Lemma enabled_performs s a : stream_inv s -> action_ok a -> enabled s a -> exists s', stream_perform ticks g hop s a = Ok s'.
Proof.
  intros Hs Ha He. destruct a as [len|clk|clk n|]; cbn [stream_perform action_ok enabled] in *; [by eexists|destruct (arrive_inv s clk Ha Hs He) as (s' & ? & _)|destruct (flush_inv s clk n (proj1 Ha) (proj2 Ha) He Hs) as (s' & ? & _)|destruct (control_inv s Hs He) as (s' & c & ? & _)]; by exists s'.
Qed.

Lemma empty_reads s : stream_inv s -> outbuf_len (dst s) = 0 -> in_ctl s = [] -> is_reading (src s) = true.
Proof. intros [? ? Hf Hst Hrd ? ? ? ? ?] Ho Hc. rewrite Hc in Hf. injection Hf as Hf. rewrite Hrd, Hf. destruct (xoff_sent (dst s)); [specialize (Hst eq_refl); lia|done]. Qed.

End Invariant.

Lemma run_reaches ticks g hop sb db tb l : forall s s', stream_reaches ticks g hop sb db tb s -> Forall action_ok l -> stream_run ticks g hop s l = Ok s' -> stream_reaches ticks g hop sb db tb s'.
Proof.
  induction l as [|a l IH]; intros s s' Hs Hl Hr; [by injection Hr as <-|]. inversion_clear Hl. cbn [stream_run] in Hr. destruct (stream_perform ticks g hop s a) as [s1| | |] eqn:E; try done. apply (IH s1); [|done|done]. by eapply sreach_step.
Qed.

(** ** Results *)

(** C16. A stream is never stuck.  Whatever the consensus says, in every state that two ends of a stream reach: each action that is possible succeeds; the source never gets an XOFF while it is stopped by another; it reads when the destination has nothing buffered and no control cell is on the way; and once
    the application has taken what is buffered at the destination, the control cells on the way let the source read again, without more data from it. *)
Theorem stream_never_stuck ns g ticks hop sb db tb s :
  flow_control_new_consensus_params ns = Ok g -> stream_ends hop sb db -> stream_reaches ticks g hop sb db tb s ->
  (forall a, action_ok a -> enabled s a -> exists s', stream_perform ticks g hop s a = Ok s') /\
  (forall body rest, in_ctl s = (RELAY_COMMAND_XOFF, body) :: rest -> xoff_received (src s) = false) /\
  (outbuf_len (dst s) = 0 -> in_ctl s = [] -> is_reading (src s) = true) /\
  (forall clk, clock_ok clk -> outbuf_len (dst s) <= INT_MAX ->
    exists n s', stream_run ticks g hop s (SFlush clk (outbuf_len (dst s)) :: repeat SControl n) = Ok s' /\ is_reading (src s') = true /\ in_ctl s' = [] /\ in_data s' = in_data s).
Proof.
  intros Hg%flow_params_fc_ok He Hr%reaches_inv; [|done..]. split; [intros a; by eapply enabled_performs|]. split; [|split; [by eapply empty_reads|]].
  - intros body rest E. pose proof (si_flow _ _ _ _ Hr) as Hf. rewrite E in Hf. cbn in Hf. by destruct (xoff_received (src s)).
  - intros clk Hc Ho. pose proof (proj1 (si_out _ _ _ _ Hr)). destruct (flush_inv g sb db Hg s clk (outbuf_len (dst s))) as (s1 & E1 & H1 & F1 & F2); [done|lia|lia|done|].
    destruct (controls_arrive ticks g hop sb db Hg He (in_ctl s1) s1 H1 eq_refl) as (s2 & E2 & H2 & G1 & G2 & G3). exists (length (in_ctl s1)), s2. cbn [stream_run stream_perform]. rewrite E1. cbn [cbind]. split; [done|]. split; [|split; [done|congruence]].
    eapply empty_reads; [done|rewrite G2; lia|done].
Qed.

(** C17. As long as the counters of the source have not been scaled down, it judges every XOFF of the destination valid: the number of XOFFs that a destination sends for the bytes it gets never exceeds what a client allows. *)
Theorem honest_xoffs_valid ns g ticks hop sb db tb s :
  flow_control_new_consensus_params ns = Ok g -> stream_ends hop sb db -> stream_reaches ticks g hop sb db tb s -> scaled s = false ->
  Forall (fun v => v = true) (verdicts s) /\ dst_limit g db * xoffs_sent s <= total_sent s.
Proof.
  intros Hg%flow_params_fc_ok He [Hb Hd Hf Hst Hrd [Ho Hin] Hp Hcn Hex Hv]%reaches_inv Hs; [|done..]. split; [by apply Hv|]. assert (0 <= bytes_in (in_data s)) by (clear -Hin; unfold bytes_in; induction Hin; cbn; lia). destruct (xoff_sent (dst s)); lia.
Qed.

Definition action_okb (a : stream_action) : bool :=
  match a with
  | SSend len => (1 <=? len) && (len <=? RELAY_PAYLOAD_SIZE_MAX)
  | SArrive clk => (0 <=? now_start clk) && (now_start clk <? 2 ^ 64)
  | SFlush clk n => ((0 <=? now_start clk) && (now_start clk <? 2 ^ 64)) && ((0 <=? n) && (n <=? INT_MAX))
  | SControl => true
  end.

Lemma actions_ok l : forallb action_okb l = true -> Forall action_ok l.
Proof. induction l as [|a l IH]; intros H; [apply List.Forall_nil|]. apply andb_prop in H as [Ha Hl]. apply List.Forall_cons; [|by apply IH]. destruct a; cbn [action_okb action_ok] in *; unfold clock_ok; boolp; try lia; done. Qed.

Lemma repeat_ok l n : Forall action_ok l -> Forall action_ok (concat (repeat l n)).
Proof. intros Hl. induction n as [|n IH]; [apply List.Forall_nil|]. cbn [repeat concat]. by apply Forall_app. Qed.

Lemma cells_ok n : Forall action_ok (ex_cells n).
Proof. apply repeat_ok, actions_ok. vm_compute. reflexivity. Qed.

Lemma ex_actions_ok : Forall action_ok ex_actions.
Proof.
  apply Forall_app. split; [apply repeat_ok, Forall_app; split; [apply cells_ok|apply actions_ok; vm_compute; reflexivity]|apply cells_ok].
Qed.

Lemma ok_both {A B} (m : cres A) (f : A -> cres B) (P : A -> B -> bool) : match m with Ok a => match f a with Ok b => P a b | _ => false end | _ => false end = true -> exists a b, m = Ok a /\ f a = Ok b /\ P a b = true.
Proof. destruct m as [a| | |]; [|done..]. destruct (f a) as [b| | |] eqn:E; [|done..]. by exists a, b. Qed.

(** The source sends the cell with which its counters are halved, and then the XOFF arrives. *)
Lemma scaled_verdict ticks g hop sb db s len body : fc_ok g -> stream_ends hop sb db -> stream_inv g sb db s -> scaled s = false -> checks_counts sb = true ->
  in_ctl s = [(RELAY_COMMAND_XOFF, body)] -> 1 <= len <= RELAY_PAYLOAD_SIZE_MAX -> TOTAL_XMIT_SCALE_AT - len <= total_sent s ->
  exists s', stream_run ticks g hop s [SSend len; SControl] = Ok s' /\ 1 <= xoffs_sent s /\
    verdicts s' = verdicts s ++ [negb (total_sent s / 2 + len <? dst_limit g db * ((xoffs_sent s - 1) / 2 + 1))].
Proof.
  intros Hg He Hi Hs Hk Hc Hlen Ht. destruct (si_exact _ _ _ _ Hi Hs) as (E1 & E2 & E3). pose proof (si_counts _ _ _ _ Hi) as Hn. pose proof (si_flow _ _ _ _ Hi) as Hf. pose proof (proj1 (si_bases _ _ _ _ Hi)) as Hb. rewrite Hc in E3, Hf. change (count_xoffs [(RELAY_COMMAND_XOFF, body)]) with 1 in E3.
  assert (xoff_received (src s) = false) as Hx by (cbn in Hf; by destruct (xoff_received (src s))). unfold RELAY_PAYLOAD_SIZE_MAX, XOFF_COUNT_SCALE_AT in *. change TOTAL_XMIT_SCALE_AT with 10485760 in *.
  assert (src (stream_send s len) = set_xmit (mkxmit (total_sent s / 2 + len) ((xoffs_sent s - 1) / 2) (num_xon_recv (xmit (src s)) / 2)) (src s)) as Es.
  { unfold stream_send, flow_control_note_sent_data. change TOTAL_XMIT_SCALE_AT with 10485760. cbn [src]. rewrite u64_id, E1, (proj2 (Z.leb_le _ _)) by lia. cbn [halve total_bytes_xmit num_xoff_recv num_xon_recv]. rewrite E1. replace (xoffs_sent s - 1) with (num_xoff_recv (xmit (src s))) by lia.
    do 2 f_equal. unfold u32. apply Z.mod_small. pose proof (Z.div_pos (total_sent s) 2). pose proof (Z.div_lt_upper_bound (total_sent s) 2 10485760). lia. }
  cbn [stream_run stream_perform cbind]. unfold stream_control. change (in_ctl (stream_send s len)) with (in_ctl s). rewrite Hc. cbn [Z.eqb RELAY_COMMAND_XOFF]. change (43 =? 43) with true. cbv iota.
  assert (0 <= (xoffs_sent s - 1) / 2 <= 100) as Hh by (split; [apply Z.div_pos; lia|apply Z.div_le_upper_bound; lia]).
  destruct (process_xoff_ok g hop sb db Hg He (src (stream_send s len))) as [-> _]; [rewrite Es; exact Hb|rewrite Es; exact Hx|rewrite Es; cbn; unfold XOFF_COUNT_SCALE_AT; lia|]. rewrite Es. cbn [xmit set_xmit num_xoff_recv total_bytes_xmit]. unfold XOFF_COUNT_SCALE_AT. rewrite (proj2 (Z.eqb_neq _ _)) by lia. cbn [num_xoff_recv total_bytes_xmit].
  eexists. split; [reflexivity|]. split; [lia|]. cbn [verdicts]. change (verdicts (stream_send s len)) with (verdicts s). by rewrite Hk, (limits_agree g hop sb db He Hk).
Qed.

(** C30. Once the counters are scaled down this fails.  In every state that two ends which follow the protocol reach with the counters still exact, let one XOFF be on the way to a client and let the client package the cell with which its counters are halved: it then judges the XOFF invalid exactly
    when it is the first, third, fifth and so on of the stream and the halved count of bytes is below the limit times half of the XOFFs, rounded up.  The count of the XOFFs received before, an even number, is halved exactly, while the bytes that the XOFF on the way answers are halved too. *)
Theorem honest_xoff_rejected ns g ticks hop sb db tb s len body :
  flow_control_new_consensus_params ns = Ok g -> stream_ends hop sb db -> stream_reaches ticks g hop sb db tb s -> scaled s = false ->
  checks_counts sb = true -> in_ctl s = [(RELAY_COMMAND_XOFF, body)] -> 1 <= len <= RELAY_PAYLOAD_SIZE_MAX -> TOTAL_XMIT_SCALE_AT - len <= total_sent s ->
  exists s', stream_run ticks g hop s [SSend len; SControl] = Ok s' /\
    verdicts s' = verdicts s ++ [negb (Z.odd (xoffs_sent s) && (total_sent s / 2 + len <? dst_limit g db * ((xoffs_sent s + 1) / 2)))].
Proof.
  intros Hg%flow_params_fc_ok He Hr Hs Hk Hc Hlen Ht. pose proof (reaches_inv ticks g hop sb db Hg He tb s Hr) as Hi. destruct (scaled_verdict ticks g hop sb db s len body Hg He Hi Hs Hk Hc Hlen Ht) as (s' & E & Hn & Hv).
  exists s'. split; [exact E|]. rewrite Hv. do 3 f_equal. destruct Hi as [_ _ _ _ _ [Ho Hin] Hp _ _ _]. assert (0 <= bytes_in (in_data s)) by (clear -Hin; unfold bytes_in; induction Hin; cbn; lia).
  assert (dst_limit g db * xoffs_sent s <= total_sent s) as Hpaid by (destruct (xoff_sent (dst s)); lia). pose proof (Zdiv2_odd_eqn (xoffs_sent s)) as Hn2. set (k := Z.div2 (xoffs_sent s)) in *. clearbody k. destruct (Z.odd (xoffs_sent s)); cbn [andb].
  - replace (xoffs_sent s - 1) with (k * 2) by lia. replace (xoffs_sent s + 1) with ((k + 1) * 2) by lia. by rewrite !Z.div_mul.
  - apply Z.ltb_ge. replace (xoffs_sent s - 1) with (1 + (k - 1) * 2) by lia. rewrite Z.div_add by lia. change (1 / 2) with 0. replace (dst_limit g db * (0 + (k - 1) + 1)) with (dst_limit g db * k) by lia.
    rewrite Hn2 in Hpaid.
    assert (dst_limit g db * k <= total_sent s / 2) by (apply Z.div_le_lower_bound; lia). lia.
Qed.

(** *** Witnesses *)

Definition ex_stopped (s : stream_sys) : bool := (xoffs_sent s =? 1) && negb (scaled s) && (outbuf_len (dst s) <=? INT_MAX) && (length (in_ctl s) =? 1)%nat.

Definition ex_few : list stream_action := ex_cells 505.

Lemma ex_few_run : match flow_control_new_consensus_params ex_ns with Ok g => match stream_run 1000 g (Some 3) (fresh_stream ex_client ex_exit ex_bucket) ex_few with Ok s => ex_stopped s | _ => false end | _ => false end = true.
Proof. vm_compute. reflexivity. Qed.

Lemma ex_few_ok : Forall action_ok ex_few.
Proof. apply cells_ok. Qed.

Definition ex_scaling (g : fc_globals) (s : stream_sys) : bool :=
  negb (scaled s) && bool_decide (in_ctl s = [(RELAY_COMMAND_XOFF, [0])]) && (total_sent s =? 10485390) && (xoffs_sent s =? 41) && (dst_limit g ex_exit =? 249856) && bool_decide (verdicts s = repeat true 40).

Lemma ex_run : match flow_control_new_consensus_params ex_ns with Ok g => match stream_run 1000 g (Some 3) (fresh_stream ex_client ex_exit ex_bucket) ex_actions with Ok s => ex_scaling g s | _ => false end | _ => false end = true.
Proof. vm_compute. reflexivity. Qed.

(** With [cc_xoff_exit=512] in the consensus a client that sends about 10 MiB accepts forty XOFFs of an exit and judges the next one invalid. *)
Lemma honest_xoff_rejected_witness : exists g s s', flow_control_new_consensus_params ex_ns = Ok g /\ stream_run 1000 g (Some 3) (fresh_stream ex_client ex_exit ex_bucket) ex_actions = Ok s /\
  stream_run 1000 g (Some 3) s [SSend 498; SControl] = Ok s' /\ verdicts s' = repeat true 40 ++ [false].
Proof.
  destruct (ok_both (flow_control_new_consensus_params ex_ns) (fun g => stream_run 1000 g (Some 3) (fresh_stream ex_client ex_exit ex_bucket) ex_actions) ex_scaling ex_run) as (g & s & Eg & Es & Hs). exists g, s.
  unfold ex_scaling in Hs. apply andb_prop in Hs as [Hs Hv%bool_decide_eq_true_1]. apply andb_prop in Hs as [Hs Hl%Z.eqb_eq]. apply andb_prop in Hs as [Hs Hx%Z.eqb_eq]. apply andb_prop in Hs as [Hs Ht%Z.eqb_eq]. apply andb_prop in Hs as [Hs%negb_true_iff Hc%bool_decide_eq_true_1].
  destruct (honest_xoff_rejected ex_ns g 1000 (Some 3) ex_client ex_exit ex_bucket s 498 [0] Eg) as (s' & E & H); [by split|eapply run_reaches; [apply sreach_start|exact ex_actions_ok|exact Es]|exact Hs|reflexivity|exact Hc|split; vm_compute; discriminate|rewrite Ht; vm_compute; discriminate|].
  exists s'. split; [exact Eg|]. split; [exact Es|]. split; [exact E|]. rewrite H, Hv, Hx, Ht, Hl. reflexivity.
Defined.

Lemma stream_never_stuck_witness : exists g s, flow_control_new_consensus_params ex_ns = Ok g /\ stream_run 1000 g (Some 3) (fresh_stream ex_client ex_exit ex_bucket) ex_few = Ok s /\ length (in_ctl s) = 1%nat /\
  exists n s', stream_run 1000 g (Some 3) s (SFlush ex_clk (outbuf_len (dst s)) :: repeat SControl n) = Ok s' /\ is_reading (src s') = true.
Proof.
  destruct (ok_both (flow_control_new_consensus_params ex_ns) (fun g => stream_run 1000 g (Some 3) (fresh_stream ex_client ex_exit ex_bucket) ex_few) (fun _ => ex_stopped) ex_few_run) as (g & s & Eg & Es & Hs). exists g, s. split; [exact Eg|]. split; [exact Es|].
  apply andb_prop in Hs as [[[_ _]%andb_prop Ho]%andb_prop Hl]. split; [by apply Nat.eqb_eq|].
  destruct (stream_never_stuck ex_ns g 1000 (Some 3) ex_client ex_exit ex_bucket s Eg) as (_ & _ & _ & H); [by split|eapply run_reaches; [apply sreach_start|exact ex_few_ok|exact Es]|].
  destruct (H ex_clk) as (n & s' & E & Hr & _); [by split|by apply Z.leb_le|]. exists n, s'. split; [exact E|exact Hr].
Defined.

Lemma honest_xoffs_valid_witness : exists g s, flow_control_new_consensus_params ex_ns = Ok g /\ stream_run 1000 g (Some 3) (fresh_stream ex_client ex_exit ex_bucket) ex_few = Ok s /\ xoffs_sent s = 1 /\ dst_limit g ex_exit <= total_sent s.
Proof.
  destruct (ok_both (flow_control_new_consensus_params ex_ns) (fun g => stream_run 1000 g (Some 3) (fresh_stream ex_client ex_exit ex_bucket) ex_few) (fun _ => ex_stopped) ex_few_run) as (g & s & Eg & Es & Hs). exists g, s. split; [exact Eg|]. split; [exact Es|].
  apply andb_prop in Hs as [[[Hx Hsc]%andb_prop _]%andb_prop _]. apply Z.eqb_eq in Hx. split; [exact Hx|].
  destruct (honest_xoffs_valid ex_ns g 1000 (Some 3) ex_client ex_exit ex_bucket s Eg) as [_ H]; [by split|eapply run_reaches; [apply sreach_start|exact ex_few_ok|exact Es]|by apply negb_true_iff|]. rewrite Hx in H. lia.
Defined.
