(* ===== verification/TimeFmt.v ===== *)
(** * Calendar times

    Models lib/encoding/time_fmt.c and [correct_tm] of lib/wallclock/time_to_tm.c: the conversion of calendar dates to seconds, and the texts of times in the formats of ISO 8601, RFC 1123 and HTTP.

    [gmtime_r] and [localtime_r] of the platform are parameters, and so is its [timegm] where there is one; [calendar_seconds] is the Gregorian calendar that they are measured by.  [strftime] is modelled for the three formats that are used; its result is [Err] when it does not fit.  [time_t] has 64 bits. *)

From S2P Require Import Prelude CString UtilString Scanf.
From Stdlib Require Import ZArith String.
From stdpp Require Import base list numbers.
Open Scope Z_scope.

Definition RFC1123_TIME_LEN : Z := 29.
Definition ISO_TIME_LEN : Z := 19.
Definition ISO_TIME_USEC_LEN : Z := ISO_TIME_LEN + 7.

Record tm := mktm { tm_sec : Z; tm_min : Z; tm_hour : Z; tm_mday : Z; tm_mon : Z; tm_year : Z; tm_wday : Z; tm_yday : Z }.

(** ** From a date to seconds *)

Definition IS_LEAPYEAR (y : Z) : bool := (Z.rem y 4 =? 0) && (negb (Z.rem y 100 =? 0) || (Z.rem y 400 =? 0)).

Definition n_leapdays (year1 year2 : Z) : Z :=
  let year1 := year1 - 1 in
  let year2 := year2 - 1 in
  (Z.quot year2 4 - Z.quot year1 4) - (Z.quot year2 100 - Z.quot year1 100) + (Z.quot year2 400 - Z.quot year1 400).

Definition days_per_month : list Z := [31; 28; 31; 30; 31; 30; 31; 31; 30; 31; 30; 31].

(** The loop over the months before [tm_mon]. *)
Fixpoint add_months (n : nat) (i : nat) (days : Z) : Z :=
  match n with
  | O => days
  | S n => add_months n (S i) (days + default 0 (days_per_month !! i))
  end.

Definition tor_timegm_impl (t : tm) : option Z :=
  let year := if tm_year t <? INT32_MAX - 1900 then tm_year t + 1900 else INT32_MAX in
  let invalid_year := (year <? 1970) || (INT32_MAX - 1900 <=? tm_year t) in
  let dpm :=
    if (0 <=? tm_mon t) && (tm_mon t <=? 11) then
      if (tm_mon t =? 1) && negb invalid_year && IS_LEAPYEAR (tm_year t) then 29 else default 0 (days_per_month !! Z.to_nat (tm_mon t))
    else 0 in
  if invalid_year || (tm_mon t <? 0) || (11 <? tm_mon t) || (tm_mday t <? 1) || (dpm <? tm_mday t) || (tm_hour t <? 0) || (23 <? tm_hour t)
     || (tm_min t <? 0) || (59 <? tm_min t) || (tm_sec t <? 0) || (60 <? tm_sec t) then None
  else
    let days := 365 * (year - 1970) + n_leapdays 1970 year in
    let days := add_months (Z.to_nat (tm_mon t)) 0 days in
    let days := if (1 <? tm_mon t) && IS_LEAPYEAR year then days + 1 else days in
    let days := days + (tm_mday t - 1) in
    let hours := days * 24 + tm_hour t in
    let minutes := hours * 60 + tm_min t in
    Some (minutes * 60 + tm_sec t).

(** ** Platform times *)

Definition correct_tm (timep : Z) (r : option tm) : tm :=
  match r with
  | Some r =>
      if 8099 <? tm_year r then mktm 59 59 23 31 11 8099 6 364
      else if tm_year r <? 1 - 1900 then mktm 0 0 0 1 0 (1 - 1900) 0 0
      else r
  | None =>
      if timep <? 0 then mktm 0 0 0 1 0 70 0 0
      else if INT32_MAX <=? timep then mktm 59 59 23 31 11 137 6 364
      else mktm 0 0 0 0 0 0 0 0
  end.

Definition WEEKDAY_NAMES : list bytes := map s2b ["Sun"; "Mon"; "Tue"; "Wed"; "Thu"; "Fri"; "Sat"]%string.
Definition MONTH_NAMES : list bytes := map s2b ["Jan"; "Feb"; "Mar"; "Apr"; "May"; "Jun"; "Jul"; "Aug"; "Sep"; "Oct"; "Nov"; "Dec"]%string.

(** A number of at least [n] digits. *)
Definition padded (n : nat) (x : Z) : bytes := repeat 48 (n - length (dec x)) ++ dec x.

(** [strftime] with a buffer of [max] bytes: the parts of the date in one of the formats. *)
Definition strftime (max : Z) (text : bytes) : cres bytes := if zlen text <? max then Ok text else Err.
Definition time_part (t : tm) : bytes := padded 2 (tm_hour t) ++ [58] ++ padded 2 (tm_min t) ++ [58] ++ padded 2 (tm_sec t).
Definition iso_text (t : tm) : bytes := dec (tm_year t + 1900) ++ [45] ++ padded 2 (tm_mon t + 1) ++ [45] ++ padded 2 (tm_mday t) ++ [32] ++ time_part t.
Definition rfc1123_text (t : tm) : bytes := s2b "___, " ++ padded 2 (tm_mday t) ++ s2b " ___ " ++ dec (tm_year t + 1900) ++ [32] ++ time_part t ++ s2b " GMT".

(** [memcpy(buf+off, s, len)] *)
Definition overwrite (buf : bytes) (off : nat) (s : bytes) : bytes := take off buf ++ s ++ drop (off + length s) buf.

Section Platform.

Variable gmtime_r localtime_r : Z -> option tm.
(** The [timegm] of the platform, if it has one; it returns -1 when it fails. *)
Variable timegm : option (tm -> Z).

Definition tor_gmtime_r (t : Z) : tm := correct_tm t (gmtime_r t).
Definition tor_localtime_r (t : Z) : tm := correct_tm t (localtime_r t).

Definition tor_timegm (t : tm) : option Z :=
  match timegm with
  | Some timegm => let result := timegm t in if result =? -1 then None else Some result
  | None => tor_timegm_impl t
  end.

(** ** Formats *)

Definition format_rfc1123_time (t : Z) : cres bytes :=
  let tm := tor_gmtime_r t in
  let* buf := strftime (RFC1123_TIME_LEN + 1) (rfc1123_text tm) in
  assert! (0 <=? tm_wday tm) && (tm_wday tm <=? 6);
  let buf := overwrite buf 0 (default [] (WEEKDAY_NAMES !! Z.to_nat (tm_wday tm))) in
  assert! (0 <=? tm_mon tm) && (tm_mon tm <=? 11);
  Ok (overwrite buf 8 (default [] (MONTH_NAMES !! Z.to_nat (tm_mon tm)))).

Definition format_local_iso_time (t : Z) : cres bytes := strftime (ISO_TIME_LEN + 1) (iso_text (tor_localtime_r t)).
Definition format_iso_time (t : Z) : cres bytes := strftime (ISO_TIME_LEN + 1) (iso_text (tor_gmtime_r t)).

Definition format_local_iso_time_nospace (t : Z) : cres bytes := let* buf := format_local_iso_time t in Ok (overwrite buf 10 [84]).
Definition format_iso_time_nospace (t : Z) : cres bytes := let* buf := format_iso_time t in Ok (overwrite buf 10 [84]).

(** [tor_snprintf(buf+ISO_TIME_LEN, 8, ...)] keeps the 7 bytes that fit. *)
Definition format_iso_time_nospace_usec (sec usec : Z) : cres bytes :=
  let* buf := format_iso_time_nospace sec in
  Ok (take (Z.to_nat ISO_TIME_LEN) buf ++ take 7 ([46] ++ padded 6 usec)).

(** ** Parsers

    [None] is -1. *)

(** The first month with the name. *)
Fixpoint find_month (names : list bytes) (i : Z) (month : bytes) : Z :=
  match names with
  | [] => -1
  | n :: names => if bytes_eqb month n then i else find_month names (i + 1) month
  end.

Definition parse_rfc1123_time (buf : bytes) : cres (option Z) :=
  if negb (zlen buf =? RFC1123_TIME_LEN) then Ok None
  else
    let* (n, vals) := tor_sscanf buf (s2b "%3s, %2u %3s %u %2u:%2u:%2u GMT") in
    match vals with
    | [SStr weekday; SInt tm_mday; SStr month; SInt tm_year; SInt tm_hour; SInt tm_min; SInt tm_sec] =>
        if n <? 7 then Ok None
        else
          let m := find_month MONTH_NAMES 0 month in
          if m <? 0 then Ok None
          else
            let invalid_year := (INT32_MAX <=? tm_year) || (tm_year <? 1970) in
            assert! (0 <=? m) && (m <=? 11);
            let dpm := if (m =? 1) && negb invalid_year && IS_LEAPYEAR tm_year then 29 else default 0 (days_per_month !! Z.to_nat m) in
            if invalid_year || (tm_mday <? 1) || (dpm <? tm_mday) || (23 <? tm_hour) || (59 <? tm_min) || (60 <? tm_sec) then Ok None
            else Ok (tor_timegm (mktm tm_sec tm_min tm_hour tm_mday m (tm_year - 1900) 0 0))
    | _ => Ok None
    end.

(** [st_tm] is not cleared before its fields are set; [yday] is what was in [tm_yday]. *)
Definition parse_iso_time_ (yday : Z) (cp : bytes) (strict nospace : bool) : cres (option Z) :=
  let* (n_fields, vals) := tor_sscanf cp (s2b "%u-%2u-%2u%c%2u:%2u:%2u%c") in
  if (if strict then negb (n_fields =? 7) else n_fields <? 7) then Ok None
  else
    match vals with
    | SInt year :: SInt month :: SInt day :: SChar separator_char :: SInt hour :: SInt minute :: SInt second :: _ =>
        if negb (separator_char =? (if nospace then 84 else 32)) then Ok None
        else if (year <? 1970) || (month <? 1) || (12 <? month) || (day <? 1) || (31 <? day) || (23 <? hour) || (59 <? minute) || (60 <? second) || (INT32_MAX <=? year) then Ok None
        else if year - 1900 <? 70 then Ok None
        else Ok (tor_timegm (mktm second minute hour day (month - 1) (year - 1900) 0 yday))
    | _ => Bug
    end.

Definition parse_iso_time (yday : Z) (cp : bytes) : cres (option Z) := parse_iso_time_ yday cp true false.
Definition parse_iso_time_nospace (yday : Z) (cp : bytes) : cres (option Z) := parse_iso_time_ yday cp true true.

End Platform.

(** The loop over the months of [parse_http_time], which goes on after a match. *)
Fixpoint find_month_nocase (names : list bytes) (i : Z) (found : Z) (month : bytes) : Z :=
  match names with
  | [] => found
  | n :: names => find_month_nocase names (i + 1) (if strcasecmp n month =? 0 then i else found) month
  end.

(** The fields of one of the three formats: day, month, year, hour, minute and second. *)
Definition scan_http_time (date : bytes) : cres (option (Z * bytes * Z * Z * Z * Z)) :=
  match strchr date 44 with
  | Some cp =>
      let cp := drop 1 cp in
      if negb (cur cp =? 32) then Ok None
      else
        let cp := drop 1 cp in
        let* (n, vals) := tor_sscanf cp (s2b "%2u %3s %4u %2u:%2u:%2u GMT") in
        match n, vals with
        | 6, [SInt mday; SStr month; SInt year; SInt hour; SInt min; SInt sec] => Ok (Some (mday, month, u32 (year - 1900), hour, min, sec))
        | _, _ =>
            let* (n, vals) := tor_sscanf cp (s2b "%2u-%3s-%2u %2u:%2u:%2u GMT") in
            match n, vals with
            | 6, [SInt mday; SStr month; SInt year; SInt hour; SInt min; SInt sec] => Ok (Some (mday, month, year, hour, min, sec))
            | _, _ => Ok None
            end
        end
  | None =>
      let* (n, vals) := tor_sscanf date (s2b "%3s %3s %2u %2u:%2u:%2u %4u") in
      match n, vals with
      | 7, [SStr wkday; SStr month; SInt mday; SInt hour; SInt min; SInt sec; SInt year] => Ok (Some (mday, month, u32 (year - 1900), hour, min, sec))
      | _, _ => Ok None
      end
  end.

Definition parse_http_time (date : bytes) : cres (option tm) :=
  let* r := scan_http_time date in
  match r with
  | None => Ok None
  | Some (mday, month, year, hour, min, sec) =>
      let t := mktm (s32 sec) (s32 min) (s32 hour) (s32 mday) (find_month_nocase MONTH_NAMES 0 (-1) month) (s32 year) 0 0 in
      if (tm_year t <? 0) || (tm_mon t <? 0) || (11 <? tm_mon t) || (tm_mday t <? 1) || (31 <? tm_mday t) || (tm_hour t <? 0) || (23 <? tm_hour t)
         || (tm_min t <? 0) || (59 <? tm_min t) || (tm_sec t <? 0) || (60 <? tm_sec t) then Ok None
      else Ok (Some t)
  end.

(** The days, hours, minutes and seconds of an interval, and their text; [tor_snprintf] is given room for it. *)
Definition split_interval (interval : Z) : Z * Z * Z * Z :=
  let interval := if interval <? - LONG_MAX then LONG_MAX else if interval <? 0 then - interval else interval in
  let '(day, interval) := if 86400 <=? interval then (interval / 86400, interval mod 86400) else (0, interval) in
  let '(hour, interval) := if 3600 <=? interval then (interval / 3600, interval mod 3600) else (0, interval) in
  let '(min, interval) := if 60 <=? interval then (interval / 60, interval mod 60) else (0, interval) in
  (day, hour, min, interval).

Definition format_time_interval (out_len interval : Z) : cres bytes :=
  let '(day, hour, min, sec) := split_interval interval in
  let text :=
    if negb (day =? 0) then dec day ++ s2b " days, " ++ dec hour ++ s2b " hours, " ++ dec min ++ s2b " minutes"
    else if negb (hour =? 0) then dec hour ++ s2b " hours, " ++ dec min ++ s2b " minutes"
    else if negb (min =? 0) then dec min ++ s2b " minutes, " ++ dec sec ++ s2b " seconds"
    else dec sec ++ s2b " seconds" in
  if zlen text <? out_len then Ok text else Err.

(** ** The calendar *)

Definition leap (y : Z) : bool := (y mod 4 =? 0) && (negb (y mod 100 =? 0) || (y mod 400 =? 0)).
Definition year_length (y : Z) : Z := if leap y then 366 else 365.
Definition month_lengths (y : Z) : list Z := [31; if leap y then 29 else 28; 31; 30; 31; 30; 31; 31; 30; 31; 30; 31].

(** The days of the first [n] years from 1970 on, and of the first [m] months of a year. *)
Fixpoint years_days (n : nat) : Z := match n with O => 0 | S n => years_days n + year_length (1970 + Z.of_nat n) end.
Definition months_days (y : Z) (m : nat) : Z := foldr Z.add 0 (take m (month_lengths y)).

Definition year_of (t : tm) : Z := tm_year t + 1900.

Definition calendar_days (t : tm) : Z := years_days (Z.to_nat (year_of t - 1970)) + months_days (year_of t) (Z.to_nat (tm_mon t)) + (tm_mday t - 1).
Definition calendar_seconds (t : tm) : Z := 86400 * calendar_days t + 3600 * tm_hour t + 60 * tm_min t + tm_sec t.

Record calendar_date (t : tm) : Prop := mk_date {
  cd_year : 1970 <= year_of t <= 9999;
  cd_mon : 0 <= tm_mon t <= 11;
  cd_mday : 1 <= tm_mday t <= default 0 (month_lengths (year_of t) !! Z.to_nat (tm_mon t));
  cd_hour : 0 <= tm_hour t <= 23;
  cd_min : 0 <= tm_min t <= 59;
  cd_sec : 0 <= tm_sec t <= 59;
  cd_wday : 0 <= tm_wday t <= 6
}.

(** The leap days of the years that can be divided by 400. *)
Definition century_leap_day (t : tm) : Prop := tm_mon t = 1 /\ tm_mday t = 29 /\ year_of t mod 400 = 0.

Lemma leapyear_leap y : 0 <= y -> IS_LEAPYEAR y = leap y.
Proof. intros Hy. unfold IS_LEAPYEAR, leap. by rewrite !Z.rem_mod_nonneg by lia. Qed.

Lemma leapdays_step y : 1970 <= y -> n_leapdays 1970 (y + 1) = n_leapdays 1970 y + if leap y then 1 else 0.
Proof.
  intros Hy. unfold n_leapdays. rewrite !Z.quot_div_nonneg by lia. replace (y + 1 - 1) with y by lia. unfold leap.
  assert (forall k, 0 < k -> y / k - (y - 1) / k = if y mod k =? 0 then 1 else 0) as Hk.
  { intros k Hk. pose proof (Z.div_mod y k ltac:(lia)). pose proof (Z.mod_pos_bound y k Hk). destruct (Z.eqb_spec (y mod k) 0).
    - rewrite <- (Z.div_unique (y - 1) k (y / k - 1) (k - 1)); lia.
    - rewrite <- (Z.div_unique (y - 1) k (y / k) (y mod k - 1)); lia. }
  pose proof (Hk 4 ltac:(lia)) as H4. pose proof (Hk 100 ltac:(lia)) as H100. pose proof (Hk 400 ltac:(lia)) as H400.
  assert (y mod 400 = 0 -> y mod 100 = 0) by (intros E; apply Z.mod_divide in E as [c ->]; [|lia]; replace (c * 400) with (c * 4 * 100) by lia; by apply Z_mod_mult).
  assert (y mod 100 = 0 -> y mod 4 = 0) by (intros E; apply Z.mod_divide in E as [c ->]; [|lia]; replace (c * 100) with (c * 25 * 4) by lia; by apply Z_mod_mult).
  destruct (Z.eqb_spec (y mod 4) 0), (Z.eqb_spec (y mod 100) 0), (Z.eqb_spec (y mod 400) 0); cbn [andb orb negb]; try lia; tauto.
Qed.

Lemma years_days_formula n : 365 * Z.of_nat n + n_leapdays 1970 (1970 + Z.of_nat n) = years_days n.
Proof.
  induction n as [|n IH]; [done|]. cbn [years_days]. rewrite <- IH, Nat2Z.inj_succ. replace (1970 + Z.succ (Z.of_nat n)) with (1970 + Z.of_nat n + 1) by lia. rewrite leapdays_step by lia. unfold year_length. destruct (leap _); lia.
Qed.

(** A statement about every month. *)
Lemma month_cases (P : Z -> Prop) m : 0 <= m <= 11 -> Forall P [0; 1; 2; 3; 4; 5; 6; 7; 8; 9; 10; 11] -> P m.
Proof.
  intros Hm HP. rewrite List.Forall_forall in HP. apply HP. assert (m = 0 \/ m = 1 \/ m = 2 \/ m = 3 \/ m = 4 \/ m = 5 \/ m = 6 \/ m = 7 \/ m = 8 \/ m = 9 \/ m = 10 \/ m = 11) as H by lia. cbn. repeat (destruct H as [->|H]; [tauto|]). subst m. tauto.
Qed.

Lemma months_formula y m days : 0 <= m <= 11 -> (if (1 <? m) && leap y then add_months (Z.to_nat m) 0 days + 1 else add_months (Z.to_nat m) 0 days) = days + months_days y (Z.to_nat m).
Proof.
  intros Hm. pattern m. apply month_cases; [done|]. unfold months_days, month_lengths. destruct (leap y); repeat (apply List.Forall_cons; [vm_compute Z.to_nat; cbn -[Z.add]; lia|]); apply List.Forall_nil.
Qed.

Lemma days_in_month y m : 0 <= m <= 11 -> default 0 (month_lengths y !! Z.to_nat m) = if (m =? 1) && leap y then 29 else default 0 (days_per_month !! Z.to_nat m).
Proof. intros Hm. pattern m. apply month_cases; [done|]. unfold month_lengths. destruct (leap y); repeat (apply List.Forall_cons; [reflexivity|]); apply List.Forall_nil. Qed.

(** The test in [tor_timegm_impl] is about the years since 1900. *)
Lemma leap_since_1900 y : 1970 <= y -> IS_LEAPYEAR (y - 1900) = (y mod 4 =? 0) && (negb (y mod 100 =? 0) || (y mod 400 =? 300)).
Proof.
  intros Hy. rewrite leapyear_leap by lia. unfold leap.
  assert ((y - 1900) mod 4 = y mod 4) as -> by (replace (y - 1900) with (y + (-475) * 4) by lia; apply Z_mod_plus_full).
  assert ((y - 1900) mod 100 = y mod 100) as -> by (replace (y - 1900) with (y + (-19) * 100) by lia; apply Z_mod_plus_full).
  f_equal. f_equal. pose proof (Z.div_mod y 400 ltac:(lia)). pose proof (Z.mod_pos_bound y 400 ltac:(lia)). pose proof (Z.div_mod (y - 1900) 400 ltac:(lia)). pose proof (Z.mod_pos_bound (y - 1900) 400 ltac:(lia)).
  apply eq_true_iff_eq. rewrite !Z.eqb_eq. lia.
Qed.

(** [tor_timegm_impl] follows the calendar, but for the leap days of the years that can be divided by 400. *)
Lemma timegm_impl_calendar t : calendar_date t -> ~ century_leap_day t -> tor_timegm_impl t = Some (calendar_seconds t).
Proof.
  intros [Hy Hm Hd Hh Hmi Hs Hw] Hc. unfold tor_timegm_impl, century_leap_day, year_of in *. cbv zeta. unfold INT32_MAX. rewrite (proj2 (Z.ltb_lt _ (_ - 1900))) by lia. set (y := tm_year t + 1900) in *.
  rewrite (proj2 (Z.ltb_ge y 1970)), (proj2 (Z.leb_gt (_ - 1900) _)) by lia. rewrite (proj2 (Z.leb_le 0 (tm_mon t))), (proj2 (Z.leb_le (tm_mon t) 11)) by lia. cbn [orb andb negb]. rewrite andb_true_r.
  set (dpm := if (tm_mon t =? 1) && IS_LEAPYEAR (tm_year t) then 29 else default 0 (days_per_month !! Z.to_nat (tm_mon t))).
  assert (tm_mday t <= dpm) as Hdpm.
  { unfold dpm. rewrite days_in_month in Hd by done. destruct (Z.eqb_spec (tm_mon t) 1) as [E|]; cbn [andb] in *; [|lia]. rewrite E in *. change (default 0 (days_per_month !! Z.to_nat 1)) with 28 in *.
    replace (tm_year t) with (y - 1900) by (unfold y; lia). rewrite leap_since_1900 by lia. unfold leap in Hd. destruct (Z.eqb_spec (y mod 4) 0), (Z.eqb_spec (y mod 100) 0); cbn [andb orb negb] in *; try lia.
    destruct (Z.eqb_spec (y mod 400) 0), (Z.eqb_spec (y mod 400) 300); lia. }
  match goal with |- (if ?c then _ else _) = _ => assert (c = false) as -> by blia end. rewrite leapyear_leap, months_formula by lia. unfold calendar_seconds, calendar_days, year_of. fold y. rewrite <- years_days_formula. rewrite Z2Nat.id by lia. replace (1970 + (y - 1970)) with y by lia. f_equal. lia.
Qed.

(** ** A platform that follows the calendar *)

Definition LAST_TIME : Z := 253402300799.

Definition gmtime_correct (gmtime_r : Z -> option tm) : Prop := forall t, 0 <= t <= LAST_TIME -> exists d, gmtime_r t = Some d /\ calendar_date d /\ calendar_seconds d = t.

Definition timegm_correct (timegm : option (tm -> Z)) : Prop := match timegm with Some f => forall d, calendar_date d -> f d = calendar_seconds d | None => True end.

Fixpoint split_years (fuel : nat) (n : nat) (days : Z) : nat * Z :=
  match fuel with
  | O => (n, days)
  | S fuel => if days <? year_length (1970 + Z.of_nat n) then (n, days) else split_years fuel (S n) (days - year_length (1970 + Z.of_nat n))
  end.

Fixpoint split_months (ls : list Z) (m days : Z) : Z * Z :=
  match ls with
  | [] => (m, days)
  | l :: ls => if days <? l then (m, days) else split_months ls (m + 1) (days - l)
  end.

Definition civil_gmtime (t : Z) : option tm :=
  let days := t / 86400 in
  let '(n, d) := split_years (S (Z.to_nat (days / 365))) 0 days in
  let y := 1970 + Z.of_nat n in
  let '(m, d') := split_months (month_lengths y) 0 d in
  Some (mktm (t mod 60) (t / 60 mod 60) (t / 3600 mod 24) (d' + 1) m (y - 1900) ((4 + days) mod 7) d).

Lemma year_length_bounds y : 365 <= year_length y <= 366.
Proof. unfold year_length. destruct (leap y); lia. Qed.

Lemma split_years_ok fuel : forall n days, 0 <= days < 365 * Z.of_nat fuel -> exists n' d, split_years fuel n days = (n', d) /\ 0 <= d < year_length (1970 + Z.of_nat n') /\ years_days n + days = years_days n' + d.
Proof.
  induction fuel as [|fuel IH]; intros n days Hd; [lia|]. cbn [split_years]. pose proof (year_length_bounds (1970 + Z.of_nat n)). zcase; [exists n, days; split; [done|]; lia|].
  destruct (IH (S n) (days - year_length (1970 + Z.of_nat n))) as (n' & d & E & H1 & H2); [lia|]. exists n', d. split; [done|]. split; [done|]. cbn [years_days] in H2. lia.
Qed.

Lemma split_months_ok ls : forall m days, 0 <= days < foldr Z.add 0 ls -> exists k d, split_months ls m days = (m + Z.of_nat k, d) /\ (k < length ls)%nat /\ 0 <= d < default 0 (ls !! k) /\ days = foldr Z.add 0 (take k ls) + d.
Proof.
  induction ls as [|l ls IH]; intros m days Hd; cbn [foldr] in Hd; [lia|]. cbn [split_months]. zcase; [exists O, days; cbn; split; [f_equal; lia|]; split_and!; lia|].
  destruct (IH (m + 1) (days - l)) as (k & d & E & H1 & H2 & H3); [lia|]. exists (S k), d. split; [rewrite E; f_equal; lia|]. cbn [length lookup list_lookup take foldr]. split; [lia|]. split; [exact H2|lia].
Qed.

Lemma years_days_mono n m : (n <= m)%nat -> years_days n + 365 * (Z.of_nat m - Z.of_nat n) <= years_days m.
Proof. induction 1 as [|m _ IH]; [lia|]. cbn [years_days]. pose proof (year_length_bounds (1970 + Z.of_nat m)). lia. Qed.

Lemma year_is_months y : foldr Z.add 0 (month_lengths y) = year_length y.
Proof. unfold year_length, month_lengths. by destruct (leap y). Qed.

Lemma civil_gmtime_correct : gmtime_correct civil_gmtime.
Proof.
  unfold gmtime_correct, LAST_TIME. intros t Ht. unfold civil_gmtime. pose proof (Z.div_mod t 86400 ltac:(lia)) as Et. pose proof (Z.mod_pos_bound t 86400 ltac:(lia)) as Hr. set (days := t / 86400) in *.
  pose proof (Z.div_mod days 365 ltac:(lia)). pose proof (Z.mod_pos_bound days 365 ltac:(lia)). assert (0 <= days / 365) by (apply Z.div_pos; lia).
  destruct (split_years_ok (S (Z.to_nat (days / 365))) 0 days) as (n & d & -> & Hd & Ed); [lia|]. cbn [years_days] in Ed. rewrite <- year_is_months in Hd.
  destruct (split_months_ok (month_lengths (1970 + Z.of_nat n)) 0 d Hd) as (k & d' & -> & Hk & Hd' & Em). change (length (month_lengths _)) with 12%nat in Hk. eexists. split; [done|].
  assert (Z.of_nat n <= 8029) as Hn. { destruct (Z.le_gt_cases (Z.of_nat n) 8029) as [|Hn]; [done|]. pose proof (years_days_mono (Z.to_nat 8030) n ltac:(lia)). assert (years_days (Z.to_nat 8030) = 2932897) by (vm_compute; reflexivity). lia. }
  assert (0 <= t / 60 mod 60 < 60 /\ 0 <= t / 3600 mod 24 < 24 /\ 0 <= t mod 60 < 60) as (B1 & B2 & B3) by (split_and!; apply Z.mod_pos_bound; lia). pose proof (Z.mod_pos_bound (4 + days) 7 ltac:(lia)).
  split.
  - split; unfold year_of; cbn [tm_year tm_mon tm_mday tm_hour tm_min tm_sec tm_wday]; try lia. replace (1970 + Z.of_nat n - 1900 + 1900) with (1970 + Z.of_nat n) by lia. rewrite Z.add_0_l, Nat2Z.id. lia.
  - unfold calendar_seconds, calendar_days, months_days, year_of. cbn [tm_year tm_mon tm_mday tm_hour tm_min tm_sec]. replace (1970 + Z.of_nat n - 1900 + 1900) with (1970 + Z.of_nat n) by lia. replace (1970 + Z.of_nat n - 1970) with (Z.of_nat n) by lia. rewrite Z.add_0_l, !Nat2Z.id.
    assert (t = 86400 * days + 3600 * (t / 3600 mod 24) + 60 * (t / 60 mod 60) + t mod 60) as Es; [|lia]. subst days. clear. Z.to_euclidean_division_equations. lia.
Qed.

(** ** Reading numbers of a fixed width *)

Record num_text (w x : Z) (ds : bytes) : Prop := mk_num { nt_digits : dec_digits ds; nt_val : digits_val 10 ds = x; nt_len : zlen ds = w }.

Lemma padded2 x : 0 <= x <= 99 -> num_text 2 x (padded 2 x).
Proof.
  intros Hx. assert (padded 2 x = [48 + x / 10; 48 + x mod 10]) as ->.
  { assert (forallb (fun x => bytes_eqb (padded 2 x) [48 + x / 10; 48 + x mod 10]) (map Z.of_nat (List.seq 0 100)) = true) as H by (vm_compute; reflexivity).
    rewrite forallb_forall in H. apply bytes_eqb_eq, H. rewrite in_map_iff. exists (Z.to_nat x). split; [lia|]. apply in_seq. lia. }
  pose proof (Z.div_mod x 10 ltac:(lia)). pose proof (Z.mod_pos_bound x 10 ltac:(lia)). assert (0 <= x / 10 <= 9) by (split; [apply Z.div_pos; lia|apply Z.lt_succ_r, Z.div_lt_upper_bound; lia]).
  split; [repeat (apply List.Forall_cons; [lia|]); apply List.Forall_nil| |done]. unfold digits_val. cbn [fold_left]. rewrite !digit_val_digit by lia. lia.
Qed.

Lemma dec4 y : 1000 <= y <= 9999 -> num_text 4 y (dec y).
Proof.
  intros Hy. destruct (dec_digits_of y) as (_ & Hd & Hv); [lia|]. split; [done|done|]. clear Hd Hv. unfold dec. rewrite (proj2 (Z.ltb_ge y 0)) by lia. unfold udec. pose proof (Z.log2_le_mono 1000 y ltac:(lia)) as Hl. change (Z.log2 1000) with 9 in Hl.
  destruct (Z.to_nat (Z.log2 y)) as [|[|[|f]]] eqn:E; try lia. pose proof (Z.div_mod y 10 ltac:(lia)). pose proof (Z.mod_pos_bound y 10 ltac:(lia)). pose proof (Z.div_mod (y / 10) 10 ltac:(lia)). pose proof (Z.mod_pos_bound (y / 10) 10 ltac:(lia)).
  pose proof (Z.div_mod (y / 10 / 10) 10 ltac:(lia)). pose proof (Z.mod_pos_bound (y / 10 / 10) 10 ltac:(lia)).
  cbn [udec_aux]. rewrite (proj2 (Z.ltb_ge y 10)), (proj2 (Z.ltb_ge (y / 10) 10)), (proj2 (Z.ltb_ge (y / 10 / 10) 10)), (proj2 (Z.ltb_lt (y / 10 / 10 / 10) 10)) by lia. done.
Qed.

Lemma num_text_nonempty w x ds : 0 < w -> num_text w x ds -> ds <> [].
Proof. intros Hw [_ _ Hl] ->. rewrite zlen_nil in Hl. lia. Qed.

(** A number is scanned, for a width that it does not exceed. *)
Lemma convert_num w x ds width rest : 0 < w <= 4 -> 0 <= x <= 9999 -> num_text w x ds -> width = -1 \/ w <= width <= 18 -> TOR_ISDIGIT (cur rest) = false -> convert 117 width false (ds ++ rest) = ConvOk rest (SInt x).
Proof.
  intros Hw Hx Hn Hwd Hr. pose proof (num_text_nonempty _ _ _ (proj1 Hw) Hn) as Hne. destruct Hn as [Hd Hv Hl]. unfold convert. cbn [Z.eqb Pos.eqb orb]. rewrite dec_digits_cur by done.
  assert (scan_unsigned (ds ++ rest) width false = Some (rest, x)) as ->; [|rewrite (proj2 (Z.ltb_ge _ _)) by (unfold UINT_MAX; lia); by rewrite andb_false_r].
  destruct Hwd as [->|Hwd]; [|rewrite scan_unsigned_dec by (done || lia); by rewrite Hv]. unfold scan_unsigned. change (-1 <? 0) with true. cbv iota. unfold MAX_SCANF_WIDTH.
  rewrite scan_digits_dec; [|done|lia|done|lia|rewrite Hl; pose proof (Z.pow_le_mono_r 10 w 4); lia]. rewrite Hl, (proj2 (Z.eqb_neq _ 0)) by lia. unfold digits_val in Hv. by rewrite Hv.
Qed.

Lemma step_num2 f x ds rest pat n vals : 0 <= x <= 9999 -> num_text 2 x ds -> TOR_ISDIGIT (cur rest) = false -> vsscanf_loop (S f) (ds ++ rest) (37 :: 50 :: 117 :: pat) n vals = vsscanf_loop f rest pat (n + 1) (vals ++ [SInt x]).
Proof.
  intros Hx Hn Hr. cbn [vsscanf_loop negb Z.eqb Pos.eqb cur hd drop scan_width]. change (TOR_ISDIGIT 50) with true. change (TOR_ISDIGIT 117) with false. cbv iota zeta. change (digit_to_num 50) with 2. change (2 =? 0) with false. cbv iota. cbn [cur hd drop]. change (117 =? 108) with false. cbv iota. cbn [cur hd drop].
  by rewrite (convert_num 2 x) by (done || lia).
Qed.

Lemma step_num f x ds rest pat n vals : 0 <= x <= 9999 -> num_text 4 x ds -> TOR_ISDIGIT (cur rest) = false -> vsscanf_loop (S f) (ds ++ rest) (37 :: 117 :: pat) n vals = vsscanf_loop f rest pat (n + 1) (vals ++ [SInt x]).
Proof.
  intros Hx Hn Hr. cbn [vsscanf_loop negb Z.eqb Pos.eqb cur hd drop]. change (TOR_ISDIGIT 117) with false. cbv iota. cbn [cur hd drop]. change (117 =? 108) with false. cbv iota. cbn [cur hd drop]. by rewrite (convert_num 4 x) by (done || lia).
Qed.

(** A literal, a single character and the end of the string before [%c]. *)
Lemma step_lit f c rest pat n vals : c <> 37 -> vsscanf_loop (S f) (c :: rest) (c :: pat) n vals = vsscanf_loop f rest pat n vals.
Proof. intros Hc. cbn [vsscanf_loop]. rewrite (proj2 (Z.eqb_neq c 37)) by done. cbn [negb cur hd]. rewrite Z.eqb_refl. by destruct rest. Qed.

Lemma step_chr f c rest pat n vals : c <> 0 -> vsscanf_loop (S f) (c :: rest) (37 :: 99 :: pat) n vals = vsscanf_loop f rest pat (n + 1) (vals ++ [SChar c]).
Proof.
  intros Hc. cbn [vsscanf_loop negb Z.eqb Pos.eqb cur hd drop]. change (TOR_ISDIGIT 99) with false. cbv iota. cbn [cur hd drop]. change (99 =? 108) with false. cbv iota. unfold convert. cbn [cur hd Z.eqb Pos.eqb orb negb drop]. rewrite (proj2 (Z.eqb_neq c 0)) by done. by destruct rest, pat.
Qed.

(** A word of three letters. *)
Lemma step_word f a b c rest pat n vals : TOR_ISSPACE a = false -> TOR_ISSPACE b = false -> TOR_ISSPACE c = false ->
  vsscanf_loop (S f) (a :: b :: c :: rest) (37 :: 51 :: 115 :: pat) n vals = vsscanf_loop f rest pat (n + 1) (vals ++ [SStr [a; b; c]]).
Proof.
  intros Ha Hb Hc. cbn [vsscanf_loop negb Z.eqb Pos.eqb cur hd drop scan_width]. change (TOR_ISDIGIT 51) with true. change (TOR_ISDIGIT 115) with false. cbv iota zeta. change (digit_to_num 51) with 3. change (3 =? 0) with false. cbv iota. cbn [cur hd drop]. change (115 =? 108) with false. cbv iota. cbn [cur hd drop].
  unfold convert. cbn [Z.eqb Pos.eqb orb]. unfold scan_string. change (3 <? 0) with false. cbv iota. cbn [scan_while]. rewrite Ha, Hb, Hc. cbn [negb andb Z.ltb Z.compare Pos.compare Pos.compare_cont Z.add Pos.add Pos.succ].
  destruct rest as [|d rest]; cbn [scan_while]; [by destruct pat|]. change (3 <? 3) with false. rewrite andb_false_r. by destruct pat.
Qed.

(** ** Texts read back *)

Lemma time_numbers d : calendar_date d -> num_text 2 (tm_hour d) (padded 2 (tm_hour d)) /\ num_text 2 (tm_min d) (padded 2 (tm_min d)) /\ num_text 2 (tm_sec d) (padded 2 (tm_sec d)).
Proof. intros [? ? ? ? ? ? ?]. split_and!; apply padded2; lia. Qed.

Lemma month_at_most_31 y m : default 0 (month_lengths y !! m) <= 31.
Proof.
  destruct (month_lengths y !! m) as [x|] eqn:E; cbn; [|lia]. revert E. apply (Forall_lookup_1 (fun x => x <= 31)). unfold month_lengths. repeat (apply List.Forall_cons; [destruct (leap y); lia|]). apply List.Forall_nil.
Qed.

Lemma date_numbers d : calendar_date d -> num_text 4 (tm_year d + 1900) (dec (tm_year d + 1900)) /\ num_text 2 (tm_mon d + 1) (padded 2 (tm_mon d + 1)) /\ num_text 2 (tm_mday d) (padded 2 (tm_mday d)).
Proof.
  intros [Hy Hm Hd Hh Hmi Hs Hw]. unfold year_of in *. pose proof (month_at_most_31 (tm_year d + 1900) (Z.to_nat (tm_mon d))). split_and!; [apply dec4|apply padded2..]; lia.
Qed.

(** The text with some separator between date and time. *)
Definition iso_with (sep : Z) (d : tm) : bytes := dec (tm_year d + 1900) ++ [45] ++ padded 2 (tm_mon d + 1) ++ [45] ++ padded 2 (tm_mday d) ++ [sep] ++ time_part d.

Lemma scan_iso sep d : calendar_date d -> sep = 32 \/ sep = 84 ->
  tor_sscanf (iso_with sep d) (s2b "%u-%2u-%2u%c%2u:%2u:%2u%c") = Ok (7, [SInt (tm_year d + 1900); SInt (tm_mon d + 1); SInt (tm_mday d); SChar sep; SInt (tm_hour d); SInt (tm_min d); SInt (tm_sec d)]).
Proof.
  intros Hd Hsep. destruct (time_numbers d Hd) as (Nh & Nmi & Ns). destruct (date_numbers d Hd) as (Ny & Nm & Nd). pose proof (month_at_most_31 (year_of d) (Z.to_nat (tm_mon d))). destruct Hd as [Hy Hm Hda Hh Hmi Hs _]. unfold year_of in *.
  unfold iso_with, time_part, tor_sscanf, tor_vsscanf. generalize dependent (dec (tm_year d + 1900)). generalize dependent (padded 2 (tm_mon d + 1)). generalize dependent (padded 2 (tm_mday d)). generalize dependent (padded 2 (tm_hour d)). generalize dependent (padded 2 (tm_min d)). generalize dependent (padded 2 (tm_sec d)).
  intros S Ns Mi Nmi H' Nh D Nd M Nm Y Ny. set (pat := s2b "%u-%2u-%2u%c%2u:%2u:%2u%c"). change (Datatypes.S (length pat)) with 26%nat.
  change pat with [37; 117; 45; 37; 50; 117; 45; 37; 50; 117; 37; 99; 37; 50; 117; 58; 37; 50; 117; 58; 37; 50; 117; 37; 99]. cbn [app].
  assert (TOR_ISDIGIT sep = false /\ sep <> 0) as [Hd1 Hd2] by (by destruct Hsep as [-> | ->]).
  rewrite (step_num _ (tm_year d + 1900)), step_lit by (done || lia). rewrite (step_num2 _ (tm_mon d + 1)), step_lit by (done || lia). rewrite (step_num2 _ (tm_mday d)), step_chr by (done || lia).
  rewrite (step_num2 _ (tm_hour d)), step_lit by (done || lia). rewrite (step_num2 _ (tm_min d)), step_lit by (done || lia). rewrite <- (app_nil_r S). rewrite (step_num2 _ (tm_sec d)) by (done || lia). reflexivity.
Qed.

(** The date that the parsers make of the fields. *)
Definition parsed_date (yday : Z) (d : tm) : tm := mktm (tm_sec d) (tm_min d) (tm_hour d) (tm_mday d) (tm_mon d) (tm_year d) 0 yday.

Lemma timegm_parsed timegm yday d : timegm_correct timegm -> calendar_date d -> (timegm = None -> ~ century_leap_day d) -> tor_timegm timegm (parsed_date yday d) = Some (calendar_seconds d).
Proof.
  intros Ht Hd Hc. assert (calendar_date (parsed_date yday d)) as Hd' by (destruct Hd; split; try done; cbn; lia). destruct timegm as [f|]; cbn in *; [|exact (timegm_impl_calendar (parsed_date yday d) Hd' (Hc eq_refl))].
  rewrite Ht by done. change (calendar_seconds (parsed_date yday d)) with (calendar_seconds d). rewrite (proj2 (Z.eqb_neq _ _)); [done|].
  destruct Hd as [Hy Hm Hda Hh Hmi Hs _]. unfold calendar_seconds, calendar_days. pose proof (years_days_mono 0 (Z.to_nat (year_of d - 1970)) ltac:(lia)) as Hyd. cbn [years_days] in Hyd.
  assert (0 <= months_days (year_of d) (Z.to_nat (tm_mon d))); [|lia]. unfold months_days, month_lengths. pattern (tm_mon d). apply month_cases; [done|]. destruct (leap (year_of d)); repeat (apply List.Forall_cons; [vm_compute; discriminate|]); apply List.Forall_nil.
Qed.

Lemma parse_iso_ok timegm yday (nospace : bool) d : timegm_correct timegm -> calendar_date d -> (timegm = None -> ~ century_leap_day d) ->
  parse_iso_time_ timegm yday (iso_with (if nospace then 84 else 32) d) true nospace = Ok (Some (calendar_seconds d)).
Proof.
  intros Ht Hd Hc. unfold parse_iso_time_. rewrite scan_iso by (done || destruct nospace; auto). cbn [cbind Z.eqb Pos.eqb negb]. rewrite Z.eqb_refl. cbn [negb]. rewrite <- (timegm_parsed timegm yday) by done. pose proof (month_at_most_31 (year_of d) (Z.to_nat (tm_mon d))). destruct Hd as [Hy Hm Hda Hh Hmi Hs _]. unfold year_of in *.
  match goal with |- (if ?c then _ else _) = _ => assert (c = false) as -> by (unfold INT32_MAX; blia) end. rewrite (proj2 (Z.ltb_ge _ 70)) by lia. unfold parsed_date. do 3 f_equal; lia.
Qed.

(** The text with the names in place. *)
Definition rfc1123_with (d : tm) : bytes :=
  default [] (WEEKDAY_NAMES !! Z.to_nat (tm_wday d)) ++ [44; 32] ++ padded 2 (tm_mday d) ++ [32] ++ default [] (MONTH_NAMES !! Z.to_nat (tm_mon d)) ++ [32] ++ dec (tm_year d + 1900) ++ [32] ++ time_part d ++ s2b " GMT".

Lemma weekday_name w : 0 <= w <= 6 -> exists a b c, default [] (WEEKDAY_NAMES !! Z.to_nat w) = [a; b; c] /\ TOR_ISSPACE a = false /\ TOR_ISSPACE b = false /\ TOR_ISSPACE c = false.
Proof.
  intros Hw. assert (w = 0 \/ w = 1 \/ w = 2 \/ w = 3 \/ w = 4 \/ w = 5 \/ w = 6) as H by lia. repeat (destruct H as [->|H]; [by eexists _, _, _|]). subst w. by eexists _, _, _.
Qed.

Lemma month_name m : 0 <= m <= 11 -> exists a b c, default [] (MONTH_NAMES !! Z.to_nat m) = [a; b; c] /\ TOR_ISSPACE a = false /\ TOR_ISSPACE b = false /\ TOR_ISSPACE c = false /\ find_month MONTH_NAMES 0 [a; b; c] = m.
Proof. intros Hm. pattern m. apply month_cases; [done|]. repeat (apply List.Forall_cons; [by eexists _, _, _|]). apply List.Forall_nil. Qed.

Lemma two_bytes (l : bytes) : zlen l = 2 -> exists a b, l = [a; b].
Proof. unfold zlen. destruct l as [|a [|b [|c l]]]; cbn; intros H; try lia. by exists a, b. Qed.

Lemma four_bytes (l : bytes) : zlen l = 4 -> exists a b c d, l = [a; b; c; d].
Proof. unfold zlen. destruct l as [|a [|b [|c [|d [|e l]]]]]; cbn; intros H; try lia. by exists a, b, c, d. Qed.

Lemma time_part_len d : calendar_date d -> zlen (time_part d) = 8.
Proof. intros Hd. destruct (time_numbers d Hd) as ([_ _ H1] & [_ _ H2] & [_ _ H3]). unfold time_part. rewrite !zlen_app, H1, H2, H3. done. Qed.

Lemma scan_rfc1123 d : calendar_date d -> exists wd mn, tor_sscanf (rfc1123_with d) (s2b "%3s, %2u %3s %u %2u:%2u:%2u GMT")
  = Ok (7, [SStr wd; SInt (tm_mday d); SStr mn; SInt (tm_year d + 1900); SInt (tm_hour d); SInt (tm_min d); SInt (tm_sec d)]) /\ find_month MONTH_NAMES 0 mn = tm_mon d.
Proof.
  intros Hd. destruct (time_numbers d Hd) as (Nh & Nmi & Ns). destruct (date_numbers d Hd) as (Ny & _ & Nd). pose proof (month_at_most_31 (year_of d) (Z.to_nat (tm_mon d))). destruct Hd as [Hy Hm Hda Hh Hmi Hs Hw]. unfold year_of in *.
  destruct (weekday_name _ Hw) as (w1 & w2 & w3 & Ew & W1 & W2 & W3). destruct (month_name _ Hm) as (m1 & m2 & m3 & Em & M1 & M2 & M3 & Ef). exists [w1; w2; w3], [m1; m2; m3]. split; [|done].
  unfold rfc1123_with, time_part, tor_sscanf, tor_vsscanf. rewrite Ew, Em. generalize dependent (dec (tm_year d + 1900)). generalize dependent (padded 2 (tm_mday d)). generalize dependent (padded 2 (tm_hour d)). generalize dependent (padded 2 (tm_min d)). generalize dependent (padded 2 (tm_sec d)).
  intros S Ns Mi Nmi H' Nh D Nd Y Ny. set (pat := s2b "%3s, %2u %3s %u %2u:%2u:%2u GMT"). change (Datatypes.S (length pat)) with 32%nat.
  change pat with [37; 51; 115; 44; 32; 37; 50; 117; 32; 37; 51; 115; 32; 37; 117; 32; 37; 50; 117; 58; 37; 50; 117; 58; 37; 50; 117; 32; 71; 77; 84]. change (s2b " GMT") with [32; 71; 77; 84]. rewrite <- !app_assoc. cbn [app].
  rewrite step_word, !step_lit by done. rewrite (step_num2 _ (tm_mday d)), step_lit by (done || lia). rewrite step_word, step_lit by done. rewrite (step_num _ (tm_year d + 1900)), step_lit by (done || lia).
  rewrite (step_num2 _ (tm_hour d)), step_lit by (done || lia). rewrite (step_num2 _ (tm_min d)), step_lit by (done || lia). rewrite (step_num2 _ (tm_sec d)) by (done || lia). rewrite !step_lit by done. reflexivity.
Qed.

Lemma rfc1123_len d : calendar_date d -> zlen (rfc1123_with d) = 29.
Proof.
  intros Hd. pose proof (time_part_len d Hd). destruct (date_numbers d Hd) as ([_ _ Ly] & _ & [_ _ Ld]). destruct Hd as [_ Hm _ _ _ _ Hw]. destruct (weekday_name _ Hw) as (w1 & w2 & w3 & Ew & _). destruct (month_name _ Hm) as (m1 & m2 & m3 & Em & _).
  unfold rfc1123_with. rewrite Ew, Em, !zlen_app, Ly, Ld, H. done.
Qed.

Lemma parse_rfc1123_ok timegm d : timegm_correct timegm -> calendar_date d -> (timegm = None -> ~ century_leap_day d) -> parse_rfc1123_time timegm (rfc1123_with d) = Ok (Some (calendar_seconds d)).
Proof.
  intros Ht Hd Hc. unfold parse_rfc1123_time. rewrite rfc1123_len by done. cbn [RFC1123_TIME_LEN Z.eqb Pos.eqb negb]. destruct (scan_rfc1123 d Hd) as (wd & mn & -> & Ef). cbn [cbind]. change (7 <? 7) with false. cbv iota zeta. rewrite Ef. rewrite <- (timegm_parsed timegm 0) by done.
  destruct Hd as [Hy Hm Hda Hh Hmi Hs _]. unfold year_of, INT32_MAX in *. rewrite (proj2 (Z.ltb_ge _ 0)), (proj2 (Z.leb_le 0 _)), (proj2 (Z.leb_le _ 11)) by lia. cbn [andb]. rewrite (proj2 (Z.leb_gt 2147483647 _)), (proj2 (Z.ltb_ge _ 1970)) by lia. cbn [orb negb]. rewrite andb_true_r, leapyear_leap, <- days_in_month by lia.
  match goal with |- (if ?c then _ else _) = _ => assert (c = false) as -> by blia end. unfold parsed_date. do 3 f_equal; lia.
Qed.

Lemma gmtime_date gmtime_r t d : gmtime_r t = Some d -> calendar_date d -> tor_gmtime_r gmtime_r t = d.
Proof. intros E [Hy _ _ _ _ _ _]. unfold tor_gmtime_r, correct_tm, year_of in *. rewrite E. by rewrite (proj2 (Z.ltb_ge _ _)), (proj2 (Z.ltb_ge _ _)) by lia. Qed.

Lemma iso_len sep d : calendar_date d -> zlen (iso_with sep d) = 19.
Proof. intros Hd. pose proof (time_part_len d Hd). destruct (date_numbers d Hd) as ([_ _ Ly] & [_ _ Lm] & [_ _ Ld]). unfold iso_with. rewrite !zlen_app, Ly, Lm, Ld, H. done. Qed.

Lemma format_iso_ok gmtime_r t d : gmtime_r t = Some d -> calendar_date d -> format_iso_time gmtime_r t = Ok (iso_with 32 d) /\ format_iso_time_nospace gmtime_r t = Ok (iso_with 84 d).
Proof.
  intros E Hd. assert (format_iso_time gmtime_r t = Ok (iso_with 32 d)) as Ef. { unfold format_iso_time. rewrite (gmtime_date _ _ d) by done. change (iso_text d) with (iso_with 32 d). unfold strftime. by rewrite iso_len by done. }
  split; [done|]. unfold format_iso_time_nospace. rewrite Ef. cbn [cbind]. f_equal. destruct (date_numbers d Hd) as ([_ _ Ly] & [_ _ Lm] & [_ _ Ld]). unfold iso_with.
  destruct (four_bytes _ Ly) as (y1 & y2 & y3 & y4 & ->). destruct (two_bytes _ Lm) as (m1 & m2 & ->). destruct (two_bytes _ Ld) as (d1 & d2 & ->). done.
Qed.

Lemma format_rfc1123_ok gmtime_r t d : gmtime_r t = Some d -> calendar_date d -> format_rfc1123_time gmtime_r t = Ok (rfc1123_with d).
Proof.
  intros E Hd. unfold format_rfc1123_time. rewrite (gmtime_date _ _ d) by done. cbv zeta. pose proof (time_part_len d Hd) as Lt. destruct (date_numbers d Hd) as ([_ _ Ly] & _ & [_ _ Ld]). destruct Hd as [_ Hm _ _ _ _ Hw].
  unfold strftime. assert (zlen (rfc1123_text d) = 29) as -> by (unfold rfc1123_text; rewrite !zlen_app, Ly, Ld, Lt; done). cbn [RFC1123_TIME_LEN Z.add Z.ltb Z.compare Pos.compare Pos.compare_cont cbind]. change (29 <? 29 + 1) with true. cbv iota. cbn [cbind].
  rewrite (proj2 (Z.leb_le 0 (tm_wday d))), (proj2 (Z.leb_le (tm_wday d) 6)), (proj2 (Z.leb_le 0 (tm_mon d))), (proj2 (Z.leb_le (tm_mon d) 11)) by lia. cbn [andb]. f_equal. unfold rfc1123_text, rfc1123_with.
  destruct (weekday_name _ Hw) as (w1 & w2 & w3 & -> & _). destruct (month_name _ Hm) as (m1 & m2 & m3 & -> & _). destruct (two_bytes _ Ld) as (d1 & d2 & ->). done.
Qed.

Lemma century_impl d : calendar_date d -> century_leap_day d -> tor_timegm_impl d = None.
Proof.
  intros [Hy Hm Hda Hh Hmi Hs _] (E1 & E2 & E3). unfold tor_timegm_impl, year_of, INT32_MAX in *. cbv zeta. rewrite (proj2 (Z.ltb_lt _ (_ - 1900))) by lia. set (y := tm_year d + 1900) in *. rewrite (proj2 (Z.ltb_ge y 1970)), (proj2 (Z.leb_gt (_ - 1900) _)) by lia.
  rewrite E1, E2. replace (tm_year d) with (y - 1900) by (unfold y; lia). rewrite leap_since_1900 by lia. assert (y mod 100 = 0) as -> by (apply Z.mod_divide in E3 as [c ->]; [|lia]; replace (c * 400) with (c * 4 * 100) by lia; by apply Z_mod_mult). rewrite E3. change (0 =? 300) with false. cbn [negb orb]. rewrite andb_false_r. reflexivity.
Qed.

(** ** Results *)

(** C13. Times survive their texts: with a [gmtime_r] that follows the Gregorian calendar, every time from 1970 to the end of 9999 is formatted, and the ISO 8601 texts, with and without a space, and the RFC 1123 text are read back as that time, with the [timegm] of the platform when it follows the calendar and with
    the one of the program otherwise, but then not on the leap days of the years that can be divided by 400. *)
Theorem times_roundtrip gmtime_r timegm yday t :
  gmtime_correct gmtime_r -> timegm_correct timegm -> 0 <= t <= LAST_TIME -> (timegm = None -> forall d, gmtime_r t = Some d -> ~ century_leap_day d) ->
  exists iso iso_t rfc,
    format_iso_time gmtime_r t = Ok iso /\ parse_iso_time timegm yday iso = Ok (Some t) /\
    format_iso_time_nospace gmtime_r t = Ok iso_t /\ parse_iso_time_nospace timegm yday iso_t = Ok (Some t) /\
    format_rfc1123_time gmtime_r t = Ok rfc /\ parse_rfc1123_time timegm rfc = Ok (Some t).
Proof.
  intros Hg Ht Hr Hc. destruct (Hg t Hr) as (d & E & Hd & Es). assert (timegm = None -> ~ century_leap_day d) as Hc' by (intros En; by apply Hc). destruct (format_iso_ok _ _ d E Hd) as [F1 F2].
  exists (iso_with 32 d), (iso_with 84 d), (rfc1123_with d). rewrite <- Es at 2 4 6. split; [done|]. split; [by apply (parse_iso_ok timegm yday false)|]. split; [done|]. split; [by apply (parse_iso_ok timegm yday true)|]. split; [by apply format_rfc1123_ok|by apply parse_rfc1123_ok].
Qed.

(** C32. Without a [timegm] of the platform, the leap day of a year that can be divided by 400 is refused, in ISO 8601 as in RFC 1123, although it is a date: the test for leap years is given the years since 1900.  The 29th of February 2300, which is no date, is accepted and read as the 1st of March. *)
Theorem century_leap_day_refused :
  (forall d yday, calendar_date d -> century_leap_day d -> parse_iso_time None yday (iso_with 32 d) = Ok None /\ parse_rfc1123_time None (rfc1123_with d) = Ok None) /\
  parse_iso_time None 0 (s2b "2000-02-29 12:00:00") = Ok None /\
  parse_iso_time None 0 (s2b "2300-02-29 00:00:00") = parse_iso_time None 0 (s2b "2300-03-01 00:00:00").
Proof.
  split; [|split; vm_compute; reflexivity]. intros d yday Hd Hc. assert (calendar_date (parsed_date yday d) /\ calendar_date (parsed_date 0 d)) as [D1 D2] by (destruct Hd; split; split; try done; cbn; lia). split.
  - unfold parse_iso_time, parse_iso_time_. rewrite scan_iso by auto. cbn [cbind Z.eqb Pos.eqb negb]. pose proof (month_at_most_31 (year_of d) (Z.to_nat (tm_mon d))). destruct Hd as [Hy Hm Hda Hh Hmi Hs _]. unfold year_of, INT32_MAX in *.
    match goal with |- (if ?c then _ else _) = _ => destruct c; [done|] end. destruct (_ <? 70); [done|]. cbn [tor_timegm]. f_equal. rewrite <- (century_impl (parsed_date yday d) D1 Hc). unfold parsed_date. f_equal. f_equal; lia.
  - unfold parse_rfc1123_time. rewrite rfc1123_len by done. cbn [RFC1123_TIME_LEN Z.eqb Pos.eqb negb]. destruct (scan_rfc1123 d Hd) as (wd & mn & -> & Ef). cbn [cbind]. change (7 <? 7) with false. cbv iota zeta. rewrite Ef. destruct Hd as [Hy Hm Hda Hh Hmi Hs _].
    rewrite (proj2 (Z.ltb_ge _ 0)), (proj2 (Z.leb_le 0 _)), (proj2 (Z.leb_le _ 11)) by lia. cbn [andb]. match goal with |- (if ?c then _ else _) = _ => destruct c; [done|] end. cbn [tor_timegm]. f_equal. rewrite <- (century_impl (parsed_date 0 d) D2 Hc). unfold parsed_date. f_equal. f_equal; lia.
Qed.

(** Intervals are split as they are meant to, and shown without their sign. *)
Lemma interval_split interval : LONG_MIN < interval <= LONG_MAX ->
  exists day hour min sec, split_interval interval = (day, hour, min, sec) /\ Z.abs interval = 86400 * day + 3600 * hour + 60 * min + sec /\ 0 <= day /\ 0 <= hour < 24 /\ 0 <= min < 60 /\ 0 <= sec < 60.
Proof.
  unfold LONG_MIN, LONG_MAX. intros Hi. unfold split_interval, LONG_MAX. rewrite (proj2 (Z.ltb_ge _ _)) by lia.
  assert ((if interval <? 0 then - interval else interval) = Z.abs interval) as -> by (zcase; lia). set (a := Z.abs interval). assert (0 <= a) by (unfold a; lia). clearbody a. clear Hi interval.
  assert (forall k x, 0 < k -> 0 <= x -> exists q r, (if k <=? x then (x / k, x mod k) else (0, x)) = (q, r) /\ x = k * q + r /\ 0 <= q /\ 0 <= r < k) as Hk.
  { intros k x Hk Hx. pose proof (Z.div_mod x k ltac:(lia)). pose proof (Z.mod_pos_bound x k Hk). zcase; eexists _, _; (split; [done|]); [pose proof (Z.div_pos x k Hx Hk)|]; lia. }
  destruct (Hk 86400 a) as (day & r1 & -> & E1 & D1 & R1); [lia|lia|]. destruct (Hk 3600 r1) as (hour & r2 & -> & E2 & D2 & R2); [lia|lia|]. destruct (Hk 60 r2) as (min & sec & -> & E3 & D3 & R3); [lia|lia|]. exists day, hour, min, sec. split; [done|]. lia.
Qed.

(** *** Examples *)

Example ex_asctime : parse_http_time (s2b "Sun Nov  6 08:49:37 1994") = Ok None /\ parse_http_time (s2b "Sun Nov 06 08:49:37 1994") <> Ok None.
Proof. split; [vm_compute; reflexivity|vm_compute; discriminate]. Qed.

Example ex_other_zone : parse_rfc1123_time None (s2b "XYZ, 29 Sep 2006 15:54:20 CET") = parse_rfc1123_time None (s2b "Fri, 29 Sep 2006 15:54:20 GMT").
Proof. vm_compute. reflexivity. Qed.

Lemma times_roundtrip_witness : gmtime_correct civil_gmtime /\ exists iso, format_iso_time civil_gmtime 1709208000 = Ok iso /\ parse_iso_time None 0 iso = Ok (Some 1709208000).
Proof.
  split; [exact civil_gmtime_correct|]. destruct (times_roundtrip civil_gmtime None 0 1709208000) as (iso & _ & _ & E1 & E2 & _).
  - exact civil_gmtime_correct.
  - exact I.
  - vm_compute. split; discriminate.
  - intros _ d E. vm_compute in E. injection E as <-. intros (_ & _ & H). vm_compute in H. discriminate.
  - exists iso. split; [exact E1|exact E2].
Defined.

Definition ex_leap_day : tm := mktm 0 0 12 29 1 100 2 59.

Lemma century_leap_day_refused_witness : calendar_date ex_leap_day /\ century_leap_day ex_leap_day /\ parse_iso_time None 59 (iso_with 32 ex_leap_day) = Ok None.
Proof.
  assert (calendar_date ex_leap_day) as Hd by (split; vm_compute; split; discriminate). split; [exact Hd|]. split; [split_and!; reflexivity|]. exact (proj1 (proj1 century_leap_day_refused ex_leap_day 59 Hd (conj eq_refl (conj eq_refl eq_refl)))).
Defined.
