(* ===== verification/ConfLine.v ===== *)
(** * Configuration lines

    Models lib/encoding/confline.c: the lists of keys and values that the configuration, the state file and the consensus cache are kept in, and the parser of their text.

    A list of lines is a Rocq list.  The handler of [%include] is an argument: it gives the lines of the files that are included, and it sets the pointer to the last of them when there are any, as the one in app/config/config.c does, so that its result is a list too.
    The loops that walk over a string are bounded by its length. *)

From S2P Require Import Prelude CString UtilString StrList Escapes.
From Stdlib Require Import ZArith String.
From stdpp Require Import base list numbers.
Open Scope Z_scope.

Definition CONFIG_LINE_NORMAL : Z := 0.
Definition CONFIG_LINE_APPEND : Z := 1.
Definition CONFIG_LINE_CLEAR : Z := 2.
Definition MAX_INCLUDE_RECURSION_LEVEL : Z := 31.

Record config_line_t := mkconf { key : bytes; value : bytes; command : Z; fragile : bool }.

(** [tor_malloc_zero] and the two strings. *)
Definition new_line (k v : bytes) : config_line_t := mkconf k v CONFIG_LINE_NORMAL false.

(** ** Lists *)

Fixpoint config_line_append (lst : list config_line_t) (k v : bytes) : list config_line_t :=
  match lst with
  | [] => [new_line k v]
  | l :: lst => l :: config_line_append lst k v
  end.

Definition config_line_prepend (lst : list config_line_t) (k v : bytes) : list config_line_t := new_line k v :: lst.

Fixpoint config_line_find (lines : list config_line_t) (k : bytes) : option config_line_t :=
  match lines with
  | [] => None
  | cl :: lines => if bytes_eqb (key cl) k then Some cl else config_line_find lines k
  end.

Fixpoint config_line_find_case (lines : list config_line_t) (k : bytes) : option config_line_t :=
  match lines with
  | [] => None
  | cl :: lines => if strcasecmp (key cl) k =? 0 then Some cl else config_line_find_case lines k
  end.

Fixpoint config_lines_dup_and_filter (inp : list config_line_t) (k : option bytes) : list config_line_t :=
  match inp with
  | [] => []
  | l :: inp =>
      if match k with Some k => negb (strcasecmpstart (key l) k =? 0) | None => false end then config_lines_dup_and_filter inp k
      else new_line (key l) (value l) :: config_lines_dup_and_filter inp k
  end.

Definition config_lines_dup (inp : list config_line_t) : list config_line_t := config_lines_dup_and_filter inp None.

(** The lines before the next one with the key, and that one with all that follow. *)
Fixpoint split_at_key (l : list config_line_t) (header : bytes) : list config_line_t * list config_line_t :=
  match l with
  | [] => ([], [])
  | x :: r => if strcasecmp (key x) header =? 0 then ([], l) else let '(a, b) := split_at_key r header in (x :: a, b)
  end.

(** What is left in [inp] and what is returned. *)
Definition config_lines_partition (inp : list config_line_t) (header : bytes) : list config_line_t * list config_line_t :=
  match inp with
  | [] => ([], [])
  | x :: r => if negb (strcasecmp (key x) header =? 0) then (inp, []) else let '(a, b) := split_at_key r header in (x :: a, b)
  end.

Fixpoint config_lines_eq (a b : list config_line_t) : bool :=
  match a, b with
  | x :: a, y :: b => if negb (strcasecmp (key x) (key y) =? 0) || negb (bytes_eqb (value x) (value y)) then false else config_lines_eq a b
  | [], [] => true
  | _, _ => false
  end.

Fixpoint config_count_key (a : list config_line_t) (k : bytes) : Z :=
  match a with
  | [] => 0
  | x :: a => (if strcasecmp (key x) k =? 0 then 1 else 0) + config_count_key a k
  end.

(** ** A line of text *)

Fixpoint skip_space (s : bytes) : bytes :=
  match s with
  | [] => []
  | c :: r => if TOR_ISSPACE c then skip_space r else s
  end.

(** Up to the end of the line. *)
Fixpoint skip_to_nl (s : bytes) : bytes :=
  match s with
  | [] => []
  | c :: r => if c =? 10 then s else skip_to_nl r
  end.

Fixpoint skip_to_keyword (fuel : nat) (line : bytes) : cres bytes :=
  match fuel with
  | O => Fuel
  | S fuel => let line := skip_space line in if cur line =? 35 then skip_to_keyword fuel (skip_to_nl line) else Ok line
  end.

(** [line[0] == '\\' && line[1] == '\n'] *)
Definition at_continuation (s : bytes) : bool := (cur s =? 92) && (cur (drop 1 s) =? 10).

Fixpoint take_key (line : bytes) : bytes * bytes :=
  match line with
  | [] => ([], [])
  | c :: r => if negb (TOR_ISSPACE c) && negb (c =? 35) && negb (at_continuation line) then let '(k, rest) := take_key r in (c :: k, rest) else ([], line)
  end.

Fixpoint skip_blanks (s : bytes) : bytes :=
  match s with
  | [] => []
  | c :: r => if (c =? 32) || (c =? 9) then skip_blanks r else s
  end.

(** The characters that a comment takes, its end of line included. *)
Fixpoint comment_part (s : bytes) : bytes * bytes :=
  match s with
  | [] => ([], [])
  | c :: r => if c =? 10 then ([c], r) else let '(a, b) := comment_part r in (c :: a, b)
  end.

(** The characters up to the end of the value, what follows, and whether there was a continuation. *)
Fixpoint find_end (fuel : nat) (continuation : bool) (line : bytes) : cres (bytes * bytes * bool) :=
  match fuel with
  | O => Fuel
  | S fuel =>
      match line with
      | [] => Ok ([], [], continuation)
      | c :: r =>
          if (c =? 10) || ((c =? 35) && negb continuation) then Ok ([], line, continuation)
          else if at_continuation line then
            let* (v, rest, k) := find_end fuel true (drop 2 line) in Ok (take 2 line ++ v, rest, k)
          else if c =? 35 then
            let '(a, b) := comment_part r in
            let* (v, rest, k) := find_end fuel continuation b in Ok (c :: a ++ v, rest, k)
          else
            let* (v, rest, k) := find_end fuel continuation r in Ok (c :: v, rest, k)
      end
  end.

(** [cp] is moved back over the spaces at the end. *)
Fixpoint strip_end (s : bytes) : bytes :=
  match s with
  | [] => []
  | c :: r => match strip_end r with [] => if TOR_ISSPACE c then [] else [c] | r' => c :: r' end
  end.

(** Comments and continuations are taken out of the value. *)
Fixpoint join_value (fuel : nat) (v_in : bytes) : cres bytes :=
  match fuel with
  | O => Fuel
  | S fuel =>
      match v_in with
      | [] => Ok []
      | c :: r =>
          if c =? 35 then join_value fuel (snd (comment_part r))
          else if at_continuation v_in then join_value fuel (drop 2 v_in)
          else let* v := join_value fuel r in Ok (c :: v)
      end
  end.

(** [value_out] is used as a C string. *)
Definition quoted_value (line : bytes) : cres (bytes * bytes) :=
  let* (v, line) := unescape_string line in
  let line := skip_blanks line in
  let line := if cur line =? 13 then let line := drop 1 line in if cur line =? 10 then drop 1 line else line else line in
  if negb (cur line =? 0) && negb (cur line =? 35) && negb (cur line =? 10) then Err else Ok (c_string v, line).

Definition plain_value (line : bytes) : cres (bytes * bytes) :=
  let* (v, line, continuation) := find_end (S (length line)) false line in
  let line := if cur line =? 10 then drop 1 line else line in
  let v := strip_end v in
  let* v := (if continuation then join_value (S (length v)) v else Ok v) in
  Ok (v, line).

(** The key and the value, if there is a line, and what follows; [Err] is NULL. *)
Definition parse_config_line_from_str_verbose (line : bytes) : cres (option (bytes * bytes) * bytes) :=
  let* line := skip_to_keyword (S (length line)) line in
  if cur line =? 0 then Ok (None, line)
  else
    let '(k, line) := take_key line in
    let line := skip_blanks line in
    let* (v, line) := (if cur line =? 34 then quoted_value line else plain_value line) in
    let line := if cur line =? 35 then skip_to_nl line else line in
    Ok (Some (k, v), skip_space line).

(** ** A text of lines *)

Section Lines.

Variable extended : bool.
(** [handle_include], if includes are allowed and there is one. *)
Variable handle_include : option (bytes -> Z -> bool -> option (list config_line_t)).
Variable recursion_level : Z.

(** The prefixes of keys that the controller uses. *)
Definition extended_line (k v : bytes) : bytes * bytes * Z :=
  if extended then
    if cur k =? 43 then (drop 1 k, v, CONFIG_LINE_APPEND)
    else if cur k =? 47 then (drop 1 k, [], CONFIG_LINE_CLEAR)
    else (k, v, CONFIG_LINE_NORMAL)
  else (k, v, CONFIG_LINE_NORMAL).

(** The lines that one parsed line stands for, and whether it is an include. *)
Definition lines_of (k v : bytes) : cres (list config_line_t * bool) :=
  let '(k, v, command) := extended_line k v in
  match handle_include with
  | Some handle =>
      if bytes_eqb k (s2b "%include") then match handle v recursion_level extended with Some l => Ok (l, true) | None => Err end
      else Ok ([mkconf k v command false], false)
  | None => Ok ([mkconf k v command false], false)
  end.

Fixpoint get_lines_loop (fuel : nat) (string : bytes) (list : list config_line_t) (include_used : bool) : cres (Datatypes.list config_line_t * bool) :=
  match fuel with
  | O => Fuel
  | S fuel =>
      let* (kv, string) := parse_config_line_from_str_verbose string in
      let* (list, include_used) :=
        (match kv with
         | Some (k, v) => let* (l, used) := lines_of k v in Ok (list ++ l, include_used || used)
         | None => Ok (list, include_used)
         end) in
      if negb (cur string =? 0) then get_lines_loop fuel string list include_used else Ok (list, include_used)
  end.

Definition config_get_lines_aux (string : bytes) : cres (list config_line_t * bool) :=
  if MAX_INCLUDE_RECURSION_LEVEL <? recursion_level then Err else get_lines_loop (S (length string)) string [] false.

End Lines.

Definition config_get_lines (string : bytes) (extended : bool) : cres (list config_line_t) :=
  let* (l, _) := config_get_lines_aux extended None 1 string in Ok l.

(** ** Every text is read to its end *)

Lemma skip_space_len s : (length (skip_space s) <= length s)%nat.
Proof. induction s as [|c s IH]; cbn; [lia|]. destruct (TOR_ISSPACE c); cbn; lia. Qed.

Lemma skip_to_nl_len s : (length (skip_to_nl s) <= length s)%nat.
Proof. induction s as [|c s IH]; cbn; [lia|]. destruct (c =? 10); cbn; lia. Qed.

Lemma skip_blanks_len s : (length (skip_blanks s) <= length s)%nat.
Proof. induction s as [|c s IH]; cbn; [lia|]. destruct (_ || _); cbn; lia. Qed.

Lemma comment_part_len s : (length (snd (comment_part s)) <= length s)%nat.
Proof. induction s as [|c s IH]; cbn; [lia|]. destruct (c =? 10); cbn; [lia|]. destruct (comment_part s). cbn in *. lia. Qed.

(** A keyword is found, after which comes no space and no comment. *)
Lemma keyword_total fuel : forall s, (length s < fuel)%nat -> exists r, skip_to_keyword fuel s = Ok r /\ (length r <= length s)%nat /\ TOR_ISSPACE (cur r) = false /\ cur r <> 35.
Proof.
  induction fuel as [|fuel IH]; intros s Hf; [lia|]. cbn [skip_to_keyword]. pose proof (skip_space_len s) as Hl.
  assert (TOR_ISSPACE (cur (skip_space s)) = false) as Hs by (clear; induction s as [|c s IH]; [done|]; cbn; by destruct (TOR_ISSPACE c) eqn:E). destruct (Z.eqb_spec (cur (skip_space s)) 35) as [E|E]; [|by exists (skip_space s)].
  destruct (skip_space s) as [|c r]; [done|]. cbn in E, Hl. subst c. change (skip_to_nl (35 :: r)) with (skip_to_nl r). pose proof (skip_to_nl_len r). destruct (IH (skip_to_nl r)) as (r' & E' & H1 & H2); [lia|]. exists r'. split; [done|]. split; [lia|done].
Qed.

Lemma take_key_len s : (length (snd (take_key s)) <= length s)%nat.
Proof. induction s as [|c s IH]; [done|]. cbn [take_key]. destruct (_ && _ && _); [|done]. destruct (take_key s). cbn in *. lia. Qed.

(** The key is empty only where a continuation begins. *)
Lemma take_key_progress s : cur s <> 0 -> TOR_ISSPACE (cur s) = false -> cur s <> 35 -> (length (snd (take_key s)) < length s)%nat \/ take_key s = ([], s) /\ at_continuation s = true.
Proof.
  intros H0 H1 H2. destruct s as [|c s]; [done|]. cbn in H0, H1, H2. cbn [take_key]. rewrite H1, (proj2 (Z.eqb_neq c 35)) by done. cbn [negb andb]. destruct (at_continuation (c :: s)); [by right|]. left. cbn [negb]. pose proof (take_key_len s). destruct (take_key s). cbn in *. lia.
Qed.

Lemma find_end_total fuel : forall k s, (length s < fuel)%nat -> exists v rest k', find_end fuel k s = Ok (v, rest, k') /\ (length rest <= length s)%nat /\ (at_continuation s = true -> (length rest < length s)%nat).
Proof.
  induction fuel as [|fuel IH]; intros k s Hf; [lia|]. cbn [find_end]. destruct s as [|c r]; [by eexists _, _, _|]. cbn [length] in Hf.
  destruct (_ || _) eqn:E; [exists [], (c :: r), k; split; [done|]; split; [done|]; intros Hc; exfalso; unfold at_continuation in Hc; cbn in Hc; boolp; subst c; done|].
  destruct (at_continuation (c :: r)) eqn:Ec.
  - assert (length (drop 2 (c :: r)) <= length r)%nat by (rewrite length_drop; cbn; lia). destruct (IH true (drop 2 (c :: r))) as (v & rest & k' & -> & Hl & _); [lia|]. eexists _, _, _. split; [done|]. cbn [length]. split; intros; lia.
  - destruct (c =? 35).
    + pose proof (comment_part_len r). destruct (comment_part r) as [a b]. cbn in *. destruct (IH k b) as (v & rest & k' & -> & Hl & _); [lia|]. eexists _, _, _. split; [done|]. split; [lia|done].
    + destruct (IH k r) as (v & rest & k' & -> & Hl & _); [lia|]. eexists _, _, _. split; [done|]. cbn [length]. split; [lia|done].
Qed.

Lemma join_value_total fuel : forall s, (length s < fuel)%nat -> exists v, join_value fuel s = Ok v.
Proof.
  induction fuel as [|fuel IH]; intros s Hf; [lia|]. cbn [join_value]. destruct s as [|c r]; [by eexists|]. cbn [length] in Hf. destruct (c =? 35); [apply IH; pose proof (comment_part_len r); lia|].
  destruct (at_continuation _); [apply IH; rewrite length_drop; cbn; lia|]. destruct (IH r) as (v & ->); [lia|]. by eexists.
Qed.

Lemma plain_value_total s : exists v rest, plain_value s = Ok (v, rest) /\ (length rest <= length s)%nat /\ (at_continuation s = true -> (length rest < length s)%nat).
Proof.
  unfold plain_value. destruct (find_end_total (S (length s)) false s) as (v & rest & k & -> & Hl & Hc); [lia|]. cbn [cbind]. set (rest' := if cur rest =? 10 then drop 1 rest else rest). assert (length rest' <= length rest)%nat by (unfold rest'; destruct (_ =? 10); [rewrite length_drop|]; lia).
  assert (exists w, (if k then join_value (S (length (strip_end v))) (strip_end v) else Ok (strip_end v)) = Ok w) as (w & ->) by (destruct k; [apply join_value_total; lia|by eexists]). cbn [cbind]. exists w, rest'. split; [done|]. split; [lia|]. intros Ha. specialize (Hc Ha). lia.
Qed.

Lemma quoted_value_total s : quoted_value s = Err \/ exists v rest, quoted_value s = Ok (v, rest) /\ (length rest < length s)%nat.
Proof.
  unfold quoted_value. destruct (unescape_total s) as [->|(v & rest & -> & Hl)]; [by left|]. cbn [cbind]. pose proof (skip_blanks_len rest). set (r := if cur (skip_blanks rest) =? 13 then _ else _).
  assert (length r <= length (skip_blanks rest))%nat by (unfold r; destruct (_ =? 13); [|lia]; destruct (_ =? 10); rewrite ?length_drop; lia). destruct (_ && _ && _); [by left|]. right. exists (c_string v), r. split; [done|]. lia.
Qed.

(** A line is taken off the text. *)
Lemma parse_line_total s : parse_config_line_from_str_verbose s = Err \/ exists kv rest, parse_config_line_from_str_verbose s = Ok (kv, rest) /\ (cur rest <> 0 -> (length rest < length s)%nat).
Proof.
  unfold parse_config_line_from_str_verbose. destruct (keyword_total (S (length s)) s) as (r & -> & Hl & Hs & Hc); [lia|]. cbn [cbind]. destruct (Z.eqb_spec (cur r) 0) as [E|E]; [right; exists None, r; by split|]. pose proof (take_key_progress r E Hs Hc) as Hp. destruct (take_key r) as [k r1]. cbn [snd] in Hp.
  pose proof (skip_blanks_len r1) as Hb. set (r2 := skip_blanks r1) in *.
  assert (forall x : cres (bytes * bytes), x = Err \/ (exists v r3, x = Ok (v, r3) /\ (length r3 < length r)%nat) -> let y := (let* (v, line) := x in Ok (Some (k, v), skip_space (if cur line =? 35 then skip_to_nl line else line))) in y = Err \/ exists kv rest, y = Ok (kv, rest) /\ (cur rest <> 0 -> (length rest < length s)%nat)) as Hx.
  { intros x [->|(v & r3 & -> & H3)]; [by left|]. right. eexists _, _. split; [done|]. intros _. match goal with |- (length (skip_space ?l) < _)%nat => pose proof (skip_space_len l); assert (length l <= length r3)%nat end; [destruct (_ =? 35); [apply skip_to_nl_len|lia]|lia]. }
  apply Hx. destruct (Z.eqb_spec (cur r2) 34) as [Eq|Eq].
  - destruct (quoted_value_total r2) as [->|(v & rest & -> & Hq)]; [by left|]. right. exists v, rest. split; [done|]. destruct Hp as [Hp|[[= _ ->] _]]; lia.
  - destruct (plain_value_total r2) as (v & rest & -> & Hp1 & Hp2). right. exists v, rest. split; [done|]. destruct Hp as [Hp|[[= _ ->] Ha]]; [lia|]. assert (r2 = r) as Er; [|rewrite Er in Hp2; by apply Hp2]. unfold r2. destruct r as [|c r]; [done|]. unfold at_continuation in Ha. cbn in Ha. boolp. by subst c.
Qed.

(** Reading a text ends with its lines or a refusal. *)
Lemma get_lines_total ext handle level fuel : forall s l used, (length s < fuel)%nat -> get_lines_loop ext handle level fuel s l used = Err \/ exists r, get_lines_loop ext handle level fuel s l used = Ok r.
Proof.
  induction fuel as [|fuel IH]; intros s l used Hf; [lia|]. cbn [get_lines_loop]. destruct (parse_line_total s) as [->|(kv & rest & -> & Hr)]; [by left|]. cbn [cbind].
  assert (forall x : cres (list config_line_t * bool), x = Err \/ (exists r, x = Ok r) -> let y := (let* (l, u) := x in if negb (cur rest =? 0) then get_lines_loop ext handle level fuel rest l u else Ok (l, u)) in y = Err \/ exists r, y = Ok r) as Hx.
  { intros x [->|[[l' u] ->]]; [by left|]. cbn [cbind]. destruct (Z.eqb_spec (cur rest) 0); cbn [negb]; [right; by eexists|]. apply IH. specialize (Hr n). lia. }
  apply Hx. destruct kv as [[k v]|]; [|right; by eexists]. assert (lines_of ext handle level k v = Err \/ exists r, lines_of ext handle level k v = Ok r) as [->|[[l' u] ->]]; [|by left|right; by eexists].
  unfold lines_of. destruct (extended_line ext k v) as [[k' v'] c]. destruct handle as [h|]; [|right; by eexists]. destruct (bytes_eqb _ _); [|right; by eexists]. destruct (h v' level ext); [right; by eexists|by left].
Qed.

(** ** The texts of lines *)

Definition key_ok (k : bytes) : Prop := k <> [] /\ Forall (fun c => c <> 0 /\ TOR_ISSPACE c = false /\ c <> 35) k.

(** A value that is written as it is: on one line, without comments, and neither beginning with a quote or a blank nor ending with a space or a backslash. *)
Definition plain_ok (v : bytes) : Prop :=
  Forall (fun c => c <> 0 /\ c <> 10 /\ c <> 35) v /\ cur v <> 34 /\ cur v <> 32 /\ cur v <> 9 /\ strip_end v = v /\ (forall u, v <> u ++ [92]).

Inductive line_text : bytes * bytes -> bytes -> Prop :=
| text_plain k v : key_ok k -> plain_ok v -> line_text (k, v) (k ++ [32] ++ v ++ [10])
| text_quoted k v q : key_ok k -> Forall is_byte v -> no_nul v -> esc_for_log (Some v) = Ok q -> line_text (k, v) (k ++ [32] ++ q ++ [10]).

Lemma newline_space : TOR_ISSPACE 10 = true.
Proof. reflexivity. Qed.

Lemma keyword_here fuel k rest : key_ok k -> skip_to_keyword (S fuel) (k ++ rest) = Ok (k ++ rest) /\ cur (k ++ rest) =? 0 = false.
Proof.
  intros [Hne Hk]. destruct k as [|c k]; [done|]. apply Forall_cons_iff in Hk as [(H0 & H1 & H2) _]. cbn [app skip_to_keyword skip_space cur hd]. rewrite H1. cbn [cur hd]. by rewrite !(proj2 (Z.eqb_neq _ _)).
Qed.

Lemma take_key_app k rest : key_ok k -> take_key (k ++ 32 :: rest) = (k, 32 :: rest).
Proof.
  intros [_ Hk]. induction Hk as [|c k (H0 & H1 & H2) Hk IH]; [done|]. cbn [app take_key]. rewrite H1, (proj2 (Z.eqb_neq c 35)), IH by done. cbn [negb andb].
  assert (at_continuation (c :: k ++ 32 :: rest) = false) as ->; [|done]. unfold at_continuation. cbn [cur hd drop]. rewrite drop_0. apply andb_false_intro2. apply Z.eqb_neq. inversion Hk as [|d k' (_ & Hd & _) _]; subst; cbn; [done|]. intros ->. by rewrite newline_space in Hd.
Qed.

Lemma find_end_plain v rest : forall fuel, (length v < fuel)%nat -> Forall (fun c => c <> 0 /\ c <> 10 /\ c <> 35) v -> (forall u, v <> u ++ [92]) -> find_end fuel false (v ++ 10 :: rest) = Ok (v, 10 :: rest, false).
Proof.
  induction v as [|c v IH]; intros fuel Hf Hv Hb; (destruct fuel as [|fuel]; [cbn in Hf; lia|]); [done|]. cbn [length] in Hf. apply Forall_cons_iff in Hv as [(H0 & H1 & H2) Hv]. cbn [app find_end]. rewrite (proj2 (Z.eqb_neq c 10)), (proj2 (Z.eqb_neq c 35)) by done. cbn [orb andb].
  assert (at_continuation (c :: v ++ 10 :: rest) = false) as ->.
  { unfold at_continuation. cbn [cur hd drop]. rewrite drop_0. destruct (Z.eqb_spec c 92) as [->|]; [|done]. cbn [andb]. apply Z.eqb_neq. destruct v as [|d v]; [by specialize (Hb [])|]. apply Forall_cons_iff in Hv as [(_ & Hd & _) _]. done. }
  rewrite IH; [done|lia|done|]. intros u ->. by apply (Hb (c :: u)).
Qed.

Lemma plain_value_ok v rest : plain_ok v -> plain_value (v ++ 10 :: rest) = Ok (v, rest).
Proof.
  intros (Hv & _ & _ & _ & Hs & Hb). unfold plain_value. rewrite find_end_plain; [|rewrite length_app; cbn; lia|done|done]. cbn [cbind cur hd drop]. rewrite Hs. cbn. by rewrite drop_0.
Qed.

Lemma skip_blanks_here s : cur s <> 32 -> cur s <> 9 -> skip_blanks (32 :: s) = s.
Proof. intros H1 H2. cbn. destruct s as [|c s]; [done|]. cbn in *. by rewrite !(proj2 (Z.eqb_neq _ _)). Qed.

Lemma quoted_parse v q rest : Forall is_byte v -> no_nul v -> esc_for_log (Some v) = Ok q -> cur q = 34 /\ unescape_string (q ++ rest) = Ok (v, rest) /\ c_string v = v.
Proof.
  intros Hb Hn E. destruct (escape_roundtrip v rest Hb) as (q' & E' & _ & Hu). rewrite E in E'. injection E' as ->. split; [done|]. split; [|by apply c_string_id]. cbn [app] in *. by rewrite <- app_assoc.
Qed.

(** What follows a line begins with a key, if there is anything. *)
Definition at_line (s : bytes) : Prop := s = [] \/ exists k r, key_ok k /\ s = k ++ r.

Lemma at_line_skip s : at_line s -> skip_space (if cur s =? 35 then skip_to_nl s else s) = s /\ skip_space (10 :: s) = s /\ skip_space (if cur (10 :: s) =? 35 then skip_to_nl (10 :: s) else 10 :: s) = s.
Proof.
  intros [->|(k & r & [Hne Hk] & ->)]; [done|]. destruct k as [|c k]; [done|]. apply Forall_cons_iff in Hk as [(_ & H1 & H2) _]. cbn [app cur hd]. rewrite (proj2 (Z.eqb_neq c 35)) by done. change (10 =? 35) with false. cbv iota. cbn [skip_space]. rewrite newline_space, H1. done.
Qed.

Lemma parse_line_text kv t rest : line_text kv t -> at_line rest -> parse_config_line_from_str_verbose (t ++ rest) = Ok (Some kv, rest).
Proof.
  intros Ht Hr. destruct (at_line_skip rest Hr) as (Hs1 & Hs2 & Hs3). unfold parse_config_line_from_str_verbose. destruct Ht as [k v Hk Hv|k v q Hk Hb Hn Hq]; rewrite <- !app_assoc.
  - destruct (keyword_here (length (k ++ [32] ++ v ++ [10] ++ rest)) k ([32] ++ v ++ [10] ++ rest) Hk) as [-> E0]. cbn [cbind]. rewrite E0. cbn [app]. rewrite take_key_app by done. destruct Hv as (Hv & H34 & H32 & H9 & Hst & Hbs).
    assert (cur (v ++ 10 :: rest) <> 34 /\ cur (v ++ 10 :: rest) <> 32 /\ cur (v ++ 10 :: rest) <> 9) as (G1 & G2 & G3) by (by destruct v). rewrite skip_blanks_here by done. rewrite (proj2 (Z.eqb_neq _ 34)) by done. rewrite plain_value_ok by done. cbn [cbind]. by rewrite Hs1.
  - destruct (keyword_here (length (k ++ [32] ++ q ++ [10] ++ rest)) k ([32] ++ q ++ [10] ++ rest) Hk) as [-> E1]. cbn [cbind]. rewrite E1. cbn [app]. rewrite take_key_app by done. destruct (quoted_parse v q (10 :: rest) Hb Hn Hq) as (Q1 & Q2 & Q3).
    assert (cur (q ++ 10 :: rest) = 34) as G1 by (by destruct q). rewrite skip_blanks_here by (by rewrite G1). rewrite G1. change (34 =? 34) with true. cbv iota. unfold quoted_value. rewrite Q2. cbn [cbind]. change (skip_blanks (10 :: rest)) with (10 :: rest). cbn [cur hd Z.eqb Pos.eqb negb andb cbind]. rewrite Q3. by rewrite Hs2.
Qed.

Lemma text_at_line kv t rest : line_text kv t -> at_line (t ++ rest).
Proof. intros [k v Hk _|k v q Hk _ _ _]; right; rewrite <- app_assoc; by eexists _, _. Qed.

Lemma texts_at_line lines texts : Forall2 line_text lines texts -> at_line (concat texts).
Proof. intros [|kv t lines' texts' Ht _]; [by left|]. cbn [concat]. by eapply text_at_line. Qed.

Lemma at_line_cur s : at_line s -> s <> [] -> cur s =? 0 = false.
Proof. intros [->|(k & r & Hk & ->)]; [done|]. intros _. by apply (keyword_here 0 k r). Qed.

Lemma texts_read level lines texts : Forall2 line_text lines texts -> forall fuel acc used, (length lines < fuel)%nat ->
  get_lines_loop false None level fuel (concat texts) acc used = Ok (acc ++ map (fun kv => new_line kv.1 kv.2) lines, used).
Proof.
  induction 1 as [|kv t lines texts Ht Hts IH]; intros fuel acc used Hf; (destruct fuel as [|fuel]; [cbn in Hf; lia|]); cbn [length] in Hf; cbn [get_lines_loop concat map].
  - cbn. by rewrite app_nil_r.
  - pose proof (texts_at_line _ _ Hts) as Hl. rewrite (parse_line_text kv t _ Ht Hl). destruct kv as [k v]. unfold lines_of, extended_line. cbn [cbind fst snd]. change (mkconf k v CONFIG_LINE_NORMAL false) with (new_line k v). rewrite orb_false_r.
    destruct lines as [|kv' lines]; [inversion Hts; subst; done|]. rewrite at_line_cur; [|done|]. { cbn [negb]. rewrite IH by lia. by rewrite <- app_assoc. }
    inversion Hts as [|? t' ? texts' Ht']; subst. cbn [concat]. destruct Ht' as [k' v' [Hk _] _|k' v' q [Hk _] _ _ _]; by destruct k'.
Qed.

(** ** Results *)

(** C12. Configuration text is read back: reading always ends, with the lines or with a refusal; and from the texts of any lines, in which the values are written as they are or in quotes, exactly these lines are read, in their order, whatever bytes but NUL the quoted values have. *)
Theorem config_lines_read lines texts :
  Forall2 line_text lines texts -> config_get_lines (concat texts) false = Ok (map (fun kv => new_line kv.1 kv.2) lines) /\ forall s extended, config_get_lines s extended = Err \/ exists r, config_get_lines s extended = Ok r.
Proof.
  intros Ht. unfold config_get_lines, config_get_lines_aux. cbn [MAX_INCLUDE_RECURSION_LEVEL Z.ltb Z.compare Pos.compare Pos.compare_cont]. split.
  - rewrite (texts_read 1 lines texts Ht); [done|]. apply Nat.lt_succ_r. clear -Ht. induction Ht as [|kv t lines texts Ht _ IH]; [done|]. cbn [length concat]. rewrite length_app. destruct Ht as [k v [Hk _] _|k v q [Hk _] _ _ _]; (destruct k; [done|]); cbn; lia.
  - intros s ext. destruct (get_lines_total ext None 1 (S (length s)) s [] false) as [->|[[l u] ->]]; [lia|by left|]. right. by eexists.
Qed.

(** C31. A value in quotes whose line ends with CR and LF makes the parser look at the first character of the next line: when another line follows, the whole text is refused, although it is accepted when the line ends with LF alone. *)
Theorem crlf_after_quotes_refused k v q k2 v2 :
  key_ok k -> Forall is_byte v -> no_nul v -> esc_for_log (Some v) = Ok q -> key_ok k2 -> plain_ok v2 ->
  config_get_lines (k ++ [32] ++ q ++ [13; 10] ++ k2 ++ [32] ++ v2 ++ [10]) false = Err /\
  config_get_lines (k ++ [32] ++ q ++ [10] ++ k2 ++ [32] ++ v2 ++ [10]) false = Ok [new_line k v; new_line k2 v2].
Proof.
  intros Hk Hb Hn Hq Hk2 Hv2. split.
  - unfold config_get_lines, config_get_lines_aux. cbn [MAX_INCLUDE_RECURSION_LEVEL Z.ltb Z.compare Pos.compare Pos.compare_cont]. set (rest := k2 ++ [32] ++ v2 ++ [10]). cbn [get_lines_loop]. unfold parse_config_line_from_str_verbose.
    destruct (keyword_here (length (k ++ [32] ++ q ++ [13; 10] ++ rest)) k ([32] ++ q ++ [13; 10] ++ rest) Hk) as [-> E0]. cbn [cbind]. rewrite E0. cbn [app]. rewrite take_key_app by done. destruct (quoted_parse v q (13 :: 10 :: rest) Hb Hn Hq) as (Q1 & Q2 & Q3).
    assert (cur (q ++ 13 :: 10 :: rest) = 34) as G1 by (by destruct q). rewrite skip_blanks_here by (by rewrite G1). rewrite G1. change (34 =? 34) with true. cbv iota. unfold quoted_value. rewrite Q2. cbn [cbind]. change (skip_blanks (13 :: 10 :: rest)) with (13 :: 10 :: rest). cbn [cur hd Z.eqb Pos.eqb drop]. rewrite drop_0.
    destruct Hk2 as [Hne Hk2]. destruct k2 as [|c k2]; [done|]. apply Forall_cons_iff in Hk2 as [(H0 & H1 & H2) _]. unfold rest. cbn [app cur hd]. rewrite (proj2 (Z.eqb_neq c 0)), (proj2 (Z.eqb_neq c 35)) by done. assert (c <> 10) as H10 by (intros ->; by rewrite newline_space in H1). by rewrite (proj2 (Z.eqb_neq c 10)) by done.
  - assert (Forall2 line_text [(k, v); (k2, v2)] [k ++ [32] ++ q ++ [10]; k2 ++ [32] ++ v2 ++ [10]]) as Ht by (constructor; [by apply text_quoted|constructor; [by apply text_plain|constructor]]).
    pose proof (texts_read 1 _ _ Ht) as Hr. cbn [concat] in Hr. rewrite app_nil_r, <- !app_assoc in Hr. unfold config_get_lines, config_get_lines_aux. cbn [MAX_INCLUDE_RECURSION_LEVEL Z.ltb Z.compare Pos.compare Pos.compare_cont]. rewrite Hr; [done|].
    cbn [length]. rewrite !length_app. destruct Hk as [Hk _], Hk2 as [Hk2 _]. destruct k, k2; try done. cbn. lia.
Qed.

(** *** Lists *)

(** The two parts make up the list; the second begins with the header, which the first has at its head only. *)
Lemma partition_parts inp header a b : config_lines_partition inp header = (a, b) ->
  a ++ b = inp /\ match inp with x :: _ => strcasecmp (key x) header = 0 -> (config_count_key a header = 1 /\ (b = [] \/ exists y b', b = y :: b' /\ strcasecmp (key y) header = 0)) | [] => True end.
Proof.
  assert (forall l a b, split_at_key l header = (a, b) -> a ++ b = l /\ config_count_key a header = 0 /\ (b = [] \/ exists y b', b = y :: b' /\ strcasecmp (key y) header = 0)) as Hs.
  { intros l. induction l as [|x l IH]; intros a' b'; cbn [split_at_key]; [intros [= <- <-]; split_and!; [done|done|by left]|]. destruct (Z.eqb_spec (strcasecmp (key x) header) 0) as [E|E]; [intros [= <- <-]; split_and!; [done|done|right; by exists x, l]|].
    destruct (split_at_key l header) as [a1 b1]. destruct (IH a1 b1 eq_refl) as (E1 & E2 & E3). intros [= <- <-]. split_and!; [cbn; by rewrite E1| |done]. cbn [config_count_key]. rewrite (proj2 (Z.eqb_neq _ _)) by done. lia. }
  unfold config_lines_partition. destruct inp as [|x r]; [intros [= <- <-]; done|]. destruct (Z.eqb_spec (strcasecmp (key x) header) 0) as [E|E]; cbn [negb].
  - destruct (split_at_key r header) as [a1 b1] eqn:Er. destruct (Hs r a1 b1 Er) as (E1 & E2 & E3). intros [= <- <-]. split; [cbn; by rewrite E1|]. intros _. split; [|done]. cbn [config_count_key]. rewrite E. change (0 =? 0) with true. cbv iota. lia.
  - intros [= <- <-]. split; [apply app_nil_r|done].
Qed.

Lemma append_is_snoc l k v : config_line_append l k v = l ++ [new_line k v].
Proof. induction l as [|x l IH]; [done|]. cbn. by rewrite IH. Qed.

(** A copy is equal to its original in the sense of [config_lines_eq]. *)
Lemma dup_equal l : config_lines_eq l (config_lines_dup l) = true.
Proof.
  unfold config_lines_dup. induction l as [|x l IH]; [done|]. cbn [config_lines_dup_and_filter config_lines_eq new_line key value]. rewrite bytes_eqb_refl. assert (strcasecmp (key x) (key x) = 0) as -> by (unfold strcasecmp; apply strcmp_refl). done.
Qed.

(** *** Witnesses *)

Definition ex_quoted : bytes := [34; 97; 92; 110; 34].

(** The conditions on concrete keys and values. *)
Ltac conf_ok :=
  match goal with
  | |- key_ok _ => split; [discriminate|]; repeat (apply List.Forall_cons; [repeat split; discriminate|]); apply List.Forall_nil
  | |- plain_ok _ => split; [repeat (apply List.Forall_cons; [repeat split; discriminate|]); apply List.Forall_nil|]; repeat split; try discriminate; let u := fresh in let E := fresh in intros u E; apply (f_equal (@List.rev Z)) in E; rewrite List.rev_app_distr in E; discriminate E
  | |- Forall is_byte _ => repeat (apply List.Forall_cons; [unfold is_byte; lia|]); apply List.Forall_nil
  | |- no_nul _ => repeat (apply List.Forall_cons; [discriminate|]); apply List.Forall_nil
  | |- _ => reflexivity
  end.

Lemma config_lines_read_witness : config_get_lines (s2b "Port 80" ++ [10] ++ s2b "Name " ++ ex_quoted ++ [10]) false = Ok [new_line (s2b "Port") (s2b "80"); new_line (s2b "Name") [97; 10]].
Proof.
  destruct (config_lines_read [(s2b "Port", s2b "80"); (s2b "Name", [97; 10])] [s2b "Port" ++ [32] ++ s2b "80" ++ [10]; s2b "Name" ++ [32] ++ ex_quoted ++ [10]]) as [H _]; [|exact H].
  apply List.Forall2_cons; [apply text_plain; conf_ok|]. apply List.Forall2_cons; [apply text_quoted; conf_ok|]. apply List.Forall2_nil.
Defined.

Lemma crlf_after_quotes_refused_witness : config_get_lines (s2b "Name " ++ ex_quoted ++ [13; 10] ++ s2b "Port 80" ++ [10]) false = Err.
Proof.
  destruct (crlf_after_quotes_refused (s2b "Name") [97; 10] ex_quoted (s2b "Port") (s2b "80")) as [H _]; [conf_ok..|exact H].
Defined.
