(* ===== verification/Pem.v ===== *)
(** * PEM objects

    Models lib/encoding/pem.c, binary objects as base64 between two tag lines.  A buffer is the text before its NUL, and its size an argument. *)

From S2P Require Import Prelude CString UtilString Binascii.
From Stdlib Require Import ZArith String.
From stdpp Require Import base list numbers.
Import Base64.
Open Scope Z_scope.

(** [tor_snprintf] into a buffer of [n] bytes. *)
Definition snprintf (n : Z) (text : bytes) : cres bytes := if (SIZE_T_CEILING <? n) || (n <=? zlen text) then Err else Ok text.

Definition begin_tag (objtype : bytes) : bytes := s2b "-----BEGIN " ++ objtype ++ s2b "-----".
Definition end_tag (objtype : bytes) : bytes := s2b "-----END " ++ objtype ++ s2b "-----".

Definition pem_encoded_size (src_len : Z) (objtype : bytes) : cres Z :=
  let* n := base64_encode_size src_len BASE64_ENCODE_MULTILINE in
  Ok (17 + 15 + zlen objtype * 2 + n + 1).

Definition pem_encode (destlen : Z) (src objtype : bytes) : cres bytes :=
  let* dest := snprintf destlen (begin_tag objtype ++ [10]) in
  let* body := base64_encode (destlen - zlen dest) src BASE64_ENCODE_MULTILINE in
  let dest := dest ++ body in
  if destlen <? zlen dest then Err
  else
    let* last := snprintf (destlen - zlen dest) (end_tag objtype ++ [10]) in
    let dest := dest ++ last in
    let* size := pem_encoded_size (zlen src) objtype in
    assert! (zlen dest + 1 <=? size);
    Ok dest.

Definition pem_decode (destlen : Z) (src objtype : bytes) : cres bytes :=
  let* src := eat_whitespace_eos src in
  let tag := begin_tag objtype in
  if (zlen src <? zlen tag) || negb (bytes_eqb (take (length tag) src) tag) then Err
  else
    let src := eat_whitespace_eos_no_nl (drop (length tag) src) in
    match src with
    | 10 :: _ =>
        let* end_of_base64 := tor_memstr src ([10] ++ end_tag objtype) in
        match end_of_base64 with
        | None => Err
        | Some e => base64_decode destlen (take (length src - length e) src)
        end
    | _ => Err
    end.

(** ** The text of an encoding *)

Lemma b64_ref_no_dash src : Forall is_byte src -> Forall (fun c => c <> 45) (b64_ref src).
Proof.
  assert (forall v, 0 <= v < 64 -> sextet v <> 45) as Hs.
  { intros v Hv. assert (negb (sextet v =? 45) = true) as H by (revert v Hv; apply (upto_forall 64); vm_compute; reflexivity). boolp. done. }
  induction src as [|a|a b|a b c src IH] using list_ind3; intros H; cbn [b64_ref].
  - apply List.Forall_nil.
  - inversion_clear H as [|? ? Ha _]. unfold is_byte in *. repeat (apply List.Forall_cons; [try done; apply Hs; Z.to_euclidean_division_equations; lia|]). apply List.Forall_nil.
  - inversion_clear H as [|? ? Ha H']. inversion_clear H' as [|? ? Hb _]. unfold is_byte in *. repeat (apply List.Forall_cons; [try done; apply Hs; Z.to_euclidean_division_equations; lia|]). apply List.Forall_nil.
  - inversion_clear H as [|? ? Ha H']. inversion_clear H' as [|? ? Hb H'']. inversion_clear H'' as [|? ? Hc H3]. unfold is_byte in Ha, Hb, Hc. repeat (apply List.Forall_cons; [apply Hs; Z.to_euclidean_division_equations; lia|]). by apply IH.
Qed.

(** Lines are broken by newlines only, and the last line is ended. *)
Lemma emit_lines cs : forall e, Forall (fun c => c <> 45) cs -> Forall (fun c => c <> 45) (e_out e) -> (e_linelen e = 0 -> e_out e = [] \/ exists s, e_out e = s ++ [10]) ->
  let e' := emit true cs e in Forall (fun c => c <> 45) (e_out e') /\ (e_linelen e' = 0 -> e_out e' = [] \/ exists s, e_out e' = s ++ [10]).
Proof.
  induction cs as [|c cs IH]; intros e Hcs He Hl; [done|]. inversion_clear Hcs as [|? ? Hc Hcs']. change (emit true (c :: cs) e) with (emit true cs (ENCODE_CHAR true c e)). apply IH; [done| |]; unfold ENCODE_CHAR; zcase; cbn [e_out e_linelen].
  - rewrite !Forall_app. split; [split; [done|]|]; by repeat constructor.
  - apply Forall_app. split; [done|]. by repeat constructor.
  - intros _. right. by eexists.
  - intros E. exfalso. rewrite E in *. done.
Qed.

Lemma encode_text destlen src s : Forall is_byte src -> base64_encode destlen src BASE64_ENCODE_MULTILINE = Ok s -> Forall (fun c => c <> 45) s /\ (s = [] \/ exists s', s = s' ++ [10]).
Proof.
  intros Hb. unfold base64_encode. change (negb (Z.land BASE64_ENCODE_MULTILINE BASE64_ENCODE_MULTILINE =? 0)) with true. destruct (base64_encode_size _ _) as [enclen| | |]; try done. cbn [cbind]. repeat (destruct (_ <? _); [done|]).
  pose proof (encode_spec true src Hb (mkenc [] 0)) as He. destruct (encode_bytes true src 0 0 (mkenc [] 0)) as [[n n_idx] e']. rewrite He. cbn [cbind]. destruct (emit_lines (b64_ref src) (mkenc [] 0)) as [H1 H2]; [by apply b64_ref_no_dash|apply List.Forall_nil|by left|]. set (e := emit true (b64_ref src) (mkenc [] 0)) in *. cbn [andb].
  destruct (Z.eqb_spec (e_linelen e) 0) as [E|E]; cbn [negb]; (destruct (_ =? enclen); [|done]); intros [= <-].
  - split; [done|]. by apply H2.
  - split; [apply Forall_app; split; [done|]; by repeat constructor|]. right. by eexists.
Qed.

Lemma encode_room enclen d src flags s : base64_encode_size (zlen src) flags = Ok enclen -> base64_encode (enclen + 1) src flags = Ok s -> enclen + 1 <= d <= SIZE_T_CEILING -> base64_encode d src flags = Ok s.
Proof.
  intros Es E Hd. unfold base64_encode in *. rewrite Es in *. cbn [cbind] in *. rewrite Z.ltb_irrefl in E. rewrite (proj2 (Z.ltb_ge d _)), (proj2 (Z.ltb_ge SIZE_T_CEILING d)) by lia. destruct (SIZE_T_CEILING <? enclen + 1); [done|]. exact E.
Qed.

(** The first place where the tag can be found is behind the base64 text. *)
Lemma find_end_tag pre objtype rest : Forall (fun c => c <> 45) pre -> tor_memstr (pre ++ [10] ++ end_tag objtype ++ rest) ([10] ++ end_tag objtype) = Ok (Some ([10] ++ end_tag objtype ++ rest)).
Proof.
  intros Hb. pose proof (tor_memmem_correct (pre ++ [10] ++ end_tag objtype ++ rest) ([10] ++ end_tag objtype) ltac:(done)) as Hm. assert (prefix_of ([10] ++ end_tag objtype) ([10] ++ end_tag objtype ++ rest) = true) as Ht by (rewrite app_assoc; apply prefix_of_spec; by eexists).
  unfold tor_memstr. destruct (tor_memmem _ _) as [[q|]| | |]; try done; [|by rewrite (Hm pre _ eq_refl) in Ht]. destruct Hm as (pre' & Epre & Hp & Hmin). specialize (Hmin pre _ eq_refl Ht). apply prefix_of_spec in Hp as [r ->].
  destruct (decide (length pre' = length pre)) as [El|Hl]; [symmetry in El; by apply (app_inj_1 _ _ _ _ El) in Epre as [_ <-]|]. exfalso. assert (length pre' < length pre)%nat as Hlt by lia. clear Hl Hmin Ht. revert pre' Epre Hlt. change (([10] ++ end_tag objtype) ++ r) with (10 :: 45 :: drop 1 (end_tag objtype) ++ r).
  induction Hb as [|c pre Hc Hb IH]; intros pre' E Hl; cbn [length] in Hl; [lia|]. destruct pre' as [|x pre'].
  - destruct Hb as [|d pre Hd _]; cbn [app] in E; [discriminate E|]. injection E as _ E _. congruence.
  - cbn [app] in E. injection E as _ E. apply (IH pre'); [exact E|cbn [length] in Hl; lia].
Qed.

Lemma decode_same D s t : List.filter not_nl s = List.filter not_nl t -> base64_decode D s = base64_decode D t.
Proof. intros E. unfold base64_decode. by rewrite decode_chars_strip, (decode_chars_strip _ t), E. Qed.

(** An object that is encoded into a buffer of the announced size is decoded again, whatever follows it, and the assertion on the size holds. *)
Theorem pem_roundtrip src objtype : Forall is_byte src -> zlen src <= base64_max -> zlen objtype <= INT_MAX ->
  exists size s, pem_encoded_size (zlen src) objtype = Ok size /\ pem_encode size src objtype = Ok s /\ zlen s + 1 = size /\
    forall destlen rest, zlen src <= destlen <= INT_MAX -> pem_decode destlen (s ++ rest) objtype = Ok src.
Proof.
  intros Hb Hl Ho. destruct (base64_roundtrip src BASE64_ENCODE_MULTILINE Hb Hl) as (enclen & body & Es & Ee & El & Hdec). pose proof (zlen_nonneg objtype). pose proof (zlen_nonneg body).
  assert (enclen <= INT_MAX) as Hi by (pose proof Ee as E; unfold base64_encode in E; rewrite Es in E; cbn [cbind] in E; rewrite Z.ltb_irrefl in E; destruct (SIZE_T_CEILING <? enclen + 1); [done|]; destruct (Z.ltb_spec INT_MAX enclen); [done|lia]).
  assert (zlen (begin_tag objtype ++ [10]) = 17 + zlen objtype) as Hbt by (unfold begin_tag; rewrite !zlen_app; change (zlen (s2b "-----BEGIN ")) with 11; change (zlen (s2b "-----")) with 5; change (zlen [10]) with 1; lia).
  assert (zlen (end_tag objtype ++ [10]) = 15 + zlen objtype) as Het by (unfold end_tag; rewrite !zlen_app; change (zlen (s2b "-----END ")) with 9; change (zlen (s2b "-----")) with 5; change (zlen [10]) with 1; lia).
  assert (pem_encoded_size (zlen src) objtype = Ok (17 + 15 + zlen objtype * 2 + enclen + 1)) as Esz by (unfold pem_encoded_size; by rewrite Es). set (size := 17 + 15 + zlen objtype * 2 + enclen + 1) in *.
  exists size, (begin_tag objtype ++ [10] ++ body ++ end_tag objtype ++ [10]). split; [done|]. assert (size <= SIZE_T_CEILING) as Hc by (unfold size, SIZE_T_CEILING, INT_MAX in *; lia). split; [|split].
  - unfold pem_encode, snprintf. rewrite Hbt, Het, Esz. assert ((SIZE_T_CEILING <? size) || (size <=? 17 + zlen objtype) = false) as -> by (unfold size in *; blia). cbn [cbind]. rewrite Hbt, (encode_room enclen _ src _ body Es Ee) by (unfold size in *; lia). cbn [cbind].
    rewrite zlen_app, Hbt, El. rewrite (proj2 (Z.ltb_ge _ _)) by (unfold size; lia). match goal with |- context [if ?c then Err else Ok _] => assert (c = false) as -> by (unfold size in *; blia) end. cbn [cbind]. rewrite !zlen_app in *. rewrite (proj2 (Z.leb_le _ _)) by (unfold size; lia). f_equal. lassoc.
  - rewrite !zlen_app in *. unfold size. lia.
  - intros D rest HD. destruct (encode_text _ _ _ Hb Ee) as [Hnd Hend]. unfold pem_decode. rewrite <- !app_assoc. change (eat_whitespace_eos (begin_tag objtype ++ [10] ++ body ++ end_tag objtype ++ [10] ++ rest)) with (Ok (begin_tag objtype ++ [10] ++ body ++ end_tag objtype ++ [10] ++ rest)). cbn [cbind].
    rewrite take_app_length, drop_app_length, bytes_eqb_refl, zlen_app. pose proof (zlen_nonneg ([10] ++ body ++ end_tag objtype ++ [10] ++ rest)). rewrite (proj2 (Z.ltb_ge _ _)) by lia. cbn [negb orb]. change (eat_whitespace_eos_no_nl ([10] ++ body ++ end_tag objtype ++ [10] ++ rest)) with (10 :: body ++ end_tag objtype ++ [10] ++ rest). cbv iota.
    assert (exists pre, 10 :: body = pre ++ [10] /\ Forall (fun c => c <> 45) pre) as (pre & Ep & Hpre) by (destruct Hend as [->|[s' ->]]; [by exists []|]; exists (10 :: s'); split; [done|]; apply Forall_app in Hnd as [Hnd _]; by apply List.Forall_cons).
    change (10 :: body ++ end_tag objtype ++ [10] ++ rest) with ((10 :: body) ++ end_tag objtype ++ [10] ++ rest). rewrite Ep, <- app_assoc, find_end_tag by done. cbn [cbind]. rewrite length_app, Nat.add_sub, take_app_length. rewrite <- (Hdec D HD). apply decode_same.
    assert (List.filter not_nl (10 :: body) = List.filter not_nl body) as <- by done. rewrite Ep, List.filter_app. cbn. by rewrite app_nil_r.
Qed.
